(* ===== verification/_CoqProject ===== *)
-Q . S2P
Prelude.v
LinkedList.v
MsgQ.v
LocHeap.v
SetMap.v
OsObserver.v
Agps.v
SyncReq.v
GnssPps.v
SkipList.v
LogBuffer.v
LocTimer.v
PbEnums.v
PbMsgConv.v
LocEvents.v
LocApi.v
LocApiBatch.v
LocApiTrack.v
LocAdapter.v
Geofence.v
Batching.v
Tracking.v
TrackingSpec.v
TrackingClients.v
CString.v
LocCfg.v
LocProcessConf.v
ClientBase.v
ClientSessions.v
ClientGeofences.v
LocationAPI.v
LocIpc.v
ReportItem.v
NmeaDebug.v
SystemStatusItems.v
NetworkInfo.v
SystemStatus.v
LocApiBase.v
NiText.v
ElapsedRealtime.v
HalDaemon.v
