(* ===== verification/Prelude.v ===== *)
(** * Verification of the GNSS location stack of the LG Joan device tree

    The repository is the common device tree of an Android phone. Its programs are the location
    stack under src/gps and src/location; the rest are resources, configuration and shims. This
    library models the core of that stack and proves what its parts promise.

    ** The program

    A client (an application, through the HAL or through the IPC of src/location) calls an
    adapter: GeofenceAdapter, BatchingAdapter or GnssAdapter. The command becomes a message
    (LocMsg) of the adapter's message task, a thread that takes pointers out of a msg_q, calls
    [proc] and deletes the message. [proc] checks the command, keeps the sessions of the clients
    in maps, and calls the LocApi, whose methods post messages to a task of their own. That task
    (LocApiV02) builds a QMI request, sends it to the modem, waits for the indication that answers
    it (loc_api_sync_req) and posts the answer back as a message of the adapter (LocApiResponse).
    Reports of the modem take the same way up. Around this core: data items and reports of the
    system (SystemStatusOsObserver, SystemStatus), data connections for assistance (Agps), timers (LocTimer on
    LocHeap), a log in memory (LogBuffer on SkipList), time pulses (gnsspps), and the conversion of
    every value to protobuf (LocationApiPbMsgConv) for the clients in other processes.

    ** The files, and the sources they model

    - Prelude: the monad of stateful C code, in which a call is [Done], [UB] (a dangling pointer,
      an erased iterator, an index out of range) or [NoFuel]; pointers; lemmas and tactics.
    - LinkedList (gps/utils/linked_list.c, .h): the list on an explicit heap with allocation
      failures. MsgQ (msg_q.c, .h): the queue on that list, threads as atomic steps of one
      scheduler.
    - LocHeap (LocHeap.cpp, .h): the heap of ranked objects behind the class [LocRankable].
      LocTimer (LocTimer.cpp, .h): its client, three kinds of threads on a store of timers.
    - SetMap (LocUnorderedSetMap.h) and OsObserver (gps/core/SystemStatusOsObserver.cpp, .h): the
      subscriptions to data items and their notification; data items are the class [DataItems], what
      the observer asks of SystemStatus is [SystemStatusI].
    - ReportItem, NmeaDebug, SystemStatusItems, NetworkInfo and SystemStatus
      (gps/core/SystemStatus.cpp, .h and data-items): the histories of reports over the class
      [ReportItem], the parsers of the receiver's debug sentences, the kinds of items, the table of
      networks, and the cache that all of them fill, which implements [SystemStatusI].
    - SkipList (SkipList.h) and LogBuffer (LogBuffer.cpp, .h).
    - Agps (gps/gnss/Agps.cpp, .h): subscribers on a store, two state machines. A parameter says
      whether the platform's scalar delete frees an array, which the code relies on.
    - SyncReq (location/loc_api/loc_api_v02/loc_api_sync_req.cpp): concurrent requests over eight
      slots. GnssPps (location/gnsspps/gnsspps.c).
    - PbEnums and PbMsgConv (location/location_api_msg_proto): every enumeration and mask, and
      the conversions in both directions.
    - LocEvents (gps_extended_c.h, location_service_v02.h): the masks of events.
    - LocApi, LocApiBatch, LocApiTrack (LocApiV02.cpp): the requests for geofences, batching and
      tracking, as programs over the conversation with the modem. The modem is a parameter, a
      function from the requests so far to the answer; it also says whether a connection can be
      made, so that opening and reopening the API can fail.
    - LocAdapter (gps/core/LocAdapterBase.cpp, .h, MsgTask.cpp, ContextBase.h): the world of an
      adapter, that is its own state, its clients, the heap of messages, the two queues and the
      callbacks that were made. The class [Adapter] is what an adapter supplies (the virtual
      methods, the [proc] of its messages, its requests and its commands); [step] and [reachable]
      are the executions of the two tasks and of the threads that call the adapter.
    - Geofence (gps/geofence/GeofenceAdapter.cpp, .h), Batching (gps/batching/BatchingAdapter.cpp,
      .h) and Tracking (the tracking sessions of gps/gnss/GnssAdapter.cpp): the three instances.
      TrackingSpec and TrackingClients hold the theorems about the third.
    - CString (the string and number functions of the C library), LocCfg (gps/utils/loc_cfg.cpp, .h and the
      string functions of loc_misc_utils.cpp) and LocProcessConf ([loc_read_process_conf] of
      loc_cfg.cpp): the readers of configuration files, from the characters of the file to the
      variables, and the list of daemons to start.
    - ClientBase (gps/location/LocationAPIClientBase.cpp, .h): the side of a client, that calls
      the location API and pairs its answers with the requests. ClientSessions holds the theorem
      about sessions, ClientGeofences those about geofences.
    - LocationAPI (gps/location/LocationAPI.cpp, .h): the front of the adapters, which owns the
      clients, asks each adapter for what their callbacks need, and destroys a client when all
      the adapters it used have said so.
    - LocIpc (gps/utils/LocIpc.cpp, .h): the framing of messages over the sockets of the IPC; a
      socket is the list of the packets in it, and a parameter says of which sizes a buffer can
      be made.
    - LocApiBase (gps/core/LocApiBase.cpp, .h, LocAdapterBase.cpp): the array of adapters above an
      API, the messages of its task, and the delivery of reports, over the class [Api] of the
      connection to the modem, which the connection of LocApi implements. NiText and ElapsedRealtime
      (the same files and loc_misc_utils.cpp): the texts of network-initiated requests, and the
      estimator that relates the clock of the modem to that of the device.
    - HalDaemon (location/location_hal_daemon/LocationApiService.cpp, LocHalDaemonClientHandler.cpp):
      the process that serves the clients of the IPC, a step for each message, callback, timer and
      power event. The location API below it is a parameter.

    A definition has the name of the function it translates where Rocq allows it. Integers of the
    sources are in [Z] with their wrap-around written out; a struct is a Record, a map a [gmap]
    with [in_order] where the order of std::map shows, an enum an inductive type.

    ** What the theorems show

    - Containers: the list, the queue, the heap, the skip list and the set map refine abstract
      deques, FIFOs, priority queues, lists and relations, for every sequence (MsgQ: every
      interleaving) of calls; nothing leaks, no wake-up is lost.
    - Memory: no dangling timer or delegate is used in any interleaving of the timer threads; no
      buffer of a returned request is written. Where the code does use freed memory (the arrays
      and messages of the geofence adapter, the erased trip of the batching adapter, the messages
      the tracking adapter put aside), a closed theorem gives an execution.
    - State machines: Agps refines a pair of abstract machines and drops no subscriber silently;
      observer subscriptions, geofence identifiers, the events the modem is registered for and
      the interval and power it tracks at are invariants of all executions. An expiry pops the
      timers that are due, and a synchronous request that succeeds has seen its indication.
    - Answers: an addition of geofences, the start of a batching session and the start of a
      tracking session are answered on every outcome of the modem. On the side of the client the
      answers reach the callbacks of their requests, with the client's own identifiers, as long
      as a session has one request at a time and the answers come in order. A client that is
      destroyed is called back once, after its adapters, and is known to nobody afterwards.
    - Values: messages of any length arrive whole and in order through packets of bounded size,
      and no receiver writes out of its buffer; enumerations and masks survive the IPC, but for the values and bits that the theorems
      name; batches
      are read completely and in order; breach indications expand to the geofences they mean.
    - Reports: for any debug sentences, positions and data items, the cache of every kind is the end
      of the history of that kind, in the order of time and without repetitions, but that the two
      kinds of Bluetooth scans are exchanged; the table of networks follows the reports, and is the
      map of those that are connected where the reports are regular; a debug sentence is read as
      what it says.
    - Notifications: the clients of the observer get exactly the changed items they subscribed to.
    - Files: a configuration file gives every variable of a table what it says, by a description
      of values that is apart from the reader's, printed values are read back, any bytes are read to their end; the daemons of a well-formed file are described
      each by its own block, and within the arrays for any file.
    - The array of adapters and the daemon: the modem is open for what the adapters want once the
      task has worked off its messages, if it can be connected to, and a report reaches each of them
      or those up to the first that handles it; the daemon's callbacks and messages find a handler that exists, and a
      protocol-following client has its answers paired with its requests.
    - Errors: the theorems that are closed statements (the names end in _flaws, _misread, _wrong and
      the like) run the code on a concrete input and show what goes wrong there. They go with
      findings of the manifest.

    ** Bounds and fuel

    Loops whose termination is part of a claim run on fuel, and the theorems say how much is
    enough: the linked list and the skip list, the length of the list and one more; the appending
    loop of LogBuffer, one more than the entries of the level; the expiry loop of LocTimer, the
    size of the heap; the tokenizer of the debug sentences, the length and one more; the expansion of a range of geofences, the length of the longest range; the
    reading of a batch, the number of entries asked for ([batch_fuel] in the adapter); the reading of
    a file, its length and two ([file_fuel]). A range that ends at the largest uint32_t exhausts any fuel, which is a theorem.

    ** Not modelled

    - Generated tables (location_service_v02) and calls of the QMI library (loc_api_v02_client):
      their effect is the parameter [modem].
    - The rest of LocApiV02 and of GnssAdapter (reports of positions, satellites and measurements,
      configuration, network-initiated requests, NMEA): conversions of one struct into another, and
      requests that follow the ones that are modelled. Calls of modelled code into them are recorded
      events.
    - Conversions of whole structs to protobuf, the messages of the IPC and the two client
      libraries: they consist of calls of the generated protobuf classes, field by field; the
      values of the fields (enumerations, masks) and the transport of the bytes are modelled. Of the
      daemon the parser of the messages, the listeners and the start of the process.
    - Of LocApiBase the default implementations of its methods, which only log, and its end.
    - loc_nmea formats floating-point values with snprintf. Of SystemStatus the making of its one
      instance and the log, of LocIpc the makers of the sockets, of loc_cfg the initialisation of the
      loggers.
    - Threads, sockets, timerfd, files and dlopen: the operating system. The Android HAL glue, the
      Java parts, the shims and the test programs: no logic of their own.

    The components and their status are listed one by one in the manifest. *)
From Stdlib Require Export ZArith Lia.
From stdpp Require Export base tactics strings numbers gmap sets list.


(** ** Outcomes of C code

    [Done a s] is a call that returned [a] in state [s]; [UB] is undefined
    behaviour (a NULL or dangling pointer dereferenced, an iterator used after
    it was erased, an index outside an array); [NoFuel] is a loop cut off by the
    fuel of the model, which the theorems exclude. *)
Inductive outcome (S A : Type) : Type :=
  | Done (a : A) (s : S)
  | UB
  | NoFuel.
Arguments Done {S A} a s.
Arguments UB {S A}.
Arguments NoFuel {S A}.

(** The monad of stateful C code over a state [S]. *)
Definition M (S A : Type) : Type := S → outcome S A.

#[export] Instance M_ret S : MRet (M S) := λ A a s, Done a s.
#[export] Instance M_bind S : MBind (M S) := λ A B f m s,
  match m s with
  | Done a s' => f a s'
  | UB => UB
  | NoFuel => NoFuel
  end.

Definition get {S} : M S S := λ s, Done s s.
Definition put {S} (s' : S) : M S unit := λ _, Done tt s'.
Definition gets {S A} (f : S → A) : M S A := λ s, Done (f s) s.
Definition modify {S} (f : S → S) : M S unit := λ s, Done tt (f s).
Definition ub {S A} : M S A := λ _, UB.
Definition nofuel {S A} : M S A := λ _, NoFuel.

(** Reading through a pointer: [UB] when nothing lives there. *)
Definition deref {S A} (f : S → option A) : M S A := λ s,
  match f s with Some a => Done a s | None => UB end.

(** A conditional statement without an else branch. *)
Definition when {S} (b : bool) (m : M S unit) : M S unit :=
  if b then m else mret tt.

Lemma bind_done {S A B} (m : M S A) (f : A → M S B) s a s' :
  m s = Done a s' → (m ≫= f) s = f a s'.
Proof. intros H. unfold mbind, M_bind. by rewrite H. Qed.

Lemma bind_inv {S A B} (m : M S A) (f : A → M S B) s b s'' :
  (m ≫= f) s = Done b s'' → ∃ a s', m s = Done a s' ∧ f a s' = Done b s''.
Proof. unfold mbind, M_bind. destruct (m s); naive_solver. Qed.

Lemma deref_done {S A} (f : S → option A) s a :
  f s = Some a → deref f s = Done a s.
Proof. unfold deref. by intros ->. Qed.

Definition outcome_ok {S A} (o : outcome S A) : bool :=
  match o with Done _ _ => true | _ => false end.

Definition outcome_state {S A} (o : outcome S A) : option S :=
  match o with Done _ s => Some s | _ => None end.

Definition outcome_value {S A} (o : outcome S A) : option A :=
  match o with Done a _ => Some a | _ => None end.

Lemma outcome_state_done {S A} (o : outcome S A) s :
  outcome_state o = Some s → ∃ a, o = Done a s.
Proof. destruct o; naive_solver. Qed.

(** Symbolic execution of monadic code: unfold the combinators and compute. *)
Ltac mrun :=
  repeat (progress (unfold mbind, M_bind, mret, M_ret, gets, get, put, modify, when, ub, nofuel, deref in *;
                    simpl in *)).

(** ** Code that runs to its end and changes the state only as [R] allows *)
Section changes.
Context {S : Type} (R : relation S) `{!PreOrder R}.

Definition changes {X} (m : M S X) : Prop := ∀ s, ∃ x s', m s = Done x s' ∧ R s s'.

Lemma changes_bind {X Y} (m : M S X) (f : X → M S Y) :
  changes m → (∀ x, changes (f x)) → changes (m ≫= f).
Proof.
  intros Hm Hf s. destruct (Hm s) as (x & s1 & E1 & H1). destruct (Hf x s1) as (y & s2 & E2 & H2).
  exists y, s2. rewrite (bind_done _ _ _ _ _ E1). split; [done|]. by etrans.
Qed.
Lemma changes_when b (m : M S unit) : changes m → changes (when b m).
Proof. intros Hm. destruct b; [done|]. intros s. by exists tt, s. Qed.
Lemma changes_gets {X} (f : S → X) : changes (gets f).
Proof. intros s. by exists (f s), s. Qed.
Lemma changes_ret {X} (x : X) : changes (mret x).
Proof. intros s. by exists x, s. Qed.
Lemma changes_modify f : (∀ s, R s (f s)) → changes (modify f).
Proof. intros HR s. by exists tt, (f s). Qed.
End changes.

(** ** Code that, when it ends, has changed the state only as [R] allows *)
Section stays.
Context {S : Type} (R : relation S) `{!PreOrder R}.

Definition stays {X} (m : M S X) : Prop := ∀ s x s', m s = Done x s' → R s s'.

Lemma stays_bind {X Y} (m : M S X) (f : X → M S Y) : stays m → (∀ x, stays (f x)) → stays (m ≫= f).
Proof. intros Hm Hf s y s2 (x & s1 & E1 & E2)%bind_inv. etrans; [by eapply Hm|by eapply Hf]. Qed.
Lemma stays_when b (m : M S unit) : stays m → stays (when b m).
Proof. intros Hm. destruct b; [done|]. by intros s x s' [= <- <-]. Qed.
Lemma stays_gets {X} (f : S → X) : stays (gets f).
Proof. by intros s x s' [= <- <-]. Qed.
Lemma stays_ret {X} (x : X) : stays (mret x).
Proof. by intros s y s' [= <- <-]. Qed.
Lemma stays_ub {X} : stays (ub (A:=X)).
Proof. by intros s y s'. Qed.
Lemma stays_deref {X} (f : S → option X) : stays (deref f).
Proof. intros s x s'. unfold deref. destruct (f s); [|done]. by intros [= <- <-]. Qed.
Lemma stays_modify f : (∀ s, R s (f s)) → stays (modify f).
Proof. intros HR s x s' [= <- <-]. apply HR. Qed.
End stays.

(** Two states that agree on [f]. *)
Definition agree {S X} (f : S → X) : relation S := λ s s', f s' = f s.
#[export] Instance agree_preorder {S X} (f : S → X) : PreOrder (agree f).
Proof. split; [done|]. unfold agree. intros s1 s2 s3. congruence. Qed.

(** ** Pointers *)
Abbreviation addr := positive (only parsing).
Abbreviation ptr := (option positive) (only parsing).

(** [p == NULL] *)
Definition is_null {A} (p : option A) : bool :=
  match p with Some _ => false | None => true end.

Lemma is_null_false {A} (p : option A) : is_null p = false → ∃ a, p = Some a.
Proof. destruct p; naive_solver. Qed.

(** ** Machine integers: a value reduced to [w] unsigned bits, and to [w] signed bits. *)
Definition uwrap (w x : Z) : Z := (x mod 2 ^ w)%Z.
Definition swrap (w x : Z) : Z :=
  let u := (x mod 2 ^ w)%Z in if (u <? 2 ^ (w - 1))%Z then u else (u - 2 ^ w)%Z.

Lemma uwrap_small w x : (0 ≤ x < 2 ^ w)%Z → uwrap w x = x.
Proof. intros. by apply Z.mod_small. Qed.

Lemma uwrap_range w x : (0 ≤ w)%Z → (0 ≤ uwrap w x < 2 ^ w)%Z.
Proof. intros. apply Z.mod_pos_bound. lia. Qed.

Lemma swrap32_small x : (- 2 ^ 31 ≤ x < 2 ^ 31)%Z → swrap 32 x = x.
Proof.
  intros Hx. unfold swrap. destruct (Z.leb_spec 0 x).
  - rewrite Z.mod_small by lia. destruct (Z.ltb_spec x (2 ^ (32 - 1))); lia.
  - replace (x mod 2 ^ 32)%Z with (x + 2 ^ 32)%Z by (apply (Z.mod_unique _ _ (-1)); lia).
    destruct (Z.ltb_spec (x + 2 ^ 32) (2 ^ (32 - 1))); lia.
Qed.

(** ** Lists *)
Lemma last_snoc_inv {A} (l : list A) : l = [] ∨ ∃ l' x, l = l' ++ [x].
Proof. destruct l as [|x l' _] using rev_ind; eauto. Qed.

Lemma filter_all {A} (P : A → Prop) `{∀ x, Decision (P x)} (l : list A) :
  Forall P l → filter P l = l.
Proof. induction 1; [done|]. rewrite filter_cons_True by done. by f_equal. Qed.

Lemma filter_none {A} (P : A → Prop) `{∀ x, Decision (P x)} (l : list A) :
  Forall (λ x, ¬ P x) l → filter P l = [].
Proof. induction 1; [done|]. by rewrite filter_cons_False. Qed.

Create HintDb gps discriminated.
#[export] Hint Resolve filter_all filter_none : gps.
