(* ===== verification/LinkedList.v ===== *)
(** * gps/utils/linked_list.c : the doubly linked list behind the message queue.

    The memory of the C code is explicit: [elems] holds the [list_element]s on
    the heap, [lists] the [list_state]s, [vars] the [void*] variables that the
    callers pass by address.  Every dereference goes through a map, so a NULL,
    freed or never allocated pointer is [UB].  [avail] is the number of
    allocations the heap can still serve, so that the malloc/calloc failure
    branches are reachable; [calls] records the calls of the [dealloc_func]
    function pointers. *)
From S2P Require Import Prelude.

(** ** Data *)
Inductive linked_list_err_type :=
  | eLINKED_LIST_SUCCESS
  | eLINKED_LIST_FAILURE_GENERAL
  | eLINKED_LIST_INVALID_PARAMETER
  | eLINKED_LIST_INVALID_HANDLE
  | eLINKED_LIST_UNAVAILABLE_RESOURCE
  | eLINKED_LIST_INSUFFICIENT_BUFFER
  | eLINKED_LIST_EMPTY.

#[export] Instance linked_list_err_type_eq_dec : EqDecision linked_list_err_type.
Proof. solve_decision. Defined.

(** The values the C enumerators have. *)
Definition linked_list_err_code (e : linked_list_err_type) : Z :=
  match e with
  | eLINKED_LIST_SUCCESS => 0
  | eLINKED_LIST_FAILURE_GENERAL => -1
  | eLINKED_LIST_INVALID_PARAMETER => -2
  | eLINKED_LIST_INVALID_HANDLE => -3
  | eLINKED_LIST_UNAVAILABLE_RESOURCE => -4
  | eLINKED_LIST_INSUFFICIENT_BUFFER => -5
  | eLINKED_LIST_EMPTY => -6
  end.

Record list_element := Elem {
  next : ptr;
  prev : ptr;
  data_ptr : ptr;
  dealloc_func : ptr;
}.

Record list_state := ListState { p_head : ptr; p_tail : ptr }.

Record mem := Mem {
  elems : gmap addr list_element;
  lists : gmap addr list_state;
  vars : gmap addr ptr;
  avail : nat;
  calls : list (addr * ptr);
}.

Definition set_elems (f : gmap addr list_element → gmap addr list_element) (m : mem) : mem :=
  Mem (f (elems m)) (lists m) (vars m) (avail m) (calls m).
Definition set_lists (f : gmap addr list_state → gmap addr list_state) (m : mem) : mem :=
  Mem (elems m) (f (lists m)) (vars m) (avail m) (calls m).
Definition set_vars (f : gmap addr ptr → gmap addr ptr) (m : mem) : mem :=
  Mem (elems m) (lists m) (f (vars m)) (avail m) (calls m).
Definition set_avail (f : nat → nat) (m : mem) : mem :=
  Mem (elems m) (lists m) (vars m) (f (avail m)) (calls m).
Definition log_call (c : addr * ptr) (m : mem) : mem :=
  Mem (elems m) (lists m) (vars m) (avail m) (calls m ++ [c]).

(** ** Memory accesses *)
Definition load_elem (a : addr) : M mem list_element := deref (λ m, elems m !! a).
Definition load_list (a : addr) : M mem list_state := deref (λ m, lists m !! a).
Definition load_var (a : addr) : M mem ptr := deref (λ m, vars m !! a).

Definition upd_elem (a : addr) (f : list_element → list_element) : M mem unit :=
  e ← load_elem a; modify (set_elems <[a := f e]>).
Definition upd_list (a : addr) (f : list_state → list_state) : M mem unit :=
  l ← load_list a; modify (set_lists <[a := f l]>).
Definition store_var (a : addr) (v : ptr) : M mem unit :=
  _ ← load_var a; modify (set_vars <[a := v]>).

Definition set_next (p : ptr) (e : list_element) : list_element :=
  Elem p (prev e) (data_ptr e) (dealloc_func e).
Definition set_prev (p : ptr) (e : list_element) : list_element :=
  Elem (next e) p (data_ptr e) (dealloc_func e).
Definition set_head (p : ptr) (l : list_state) : list_state := ListState p (p_tail l).
Definition set_tail (p : ptr) (l : list_state) : list_state := ListState (p_head l) p.

(** malloc of a list element, calloc of a list state, and free. *)
Definition malloc_elem (e : list_element) : M mem ptr := λ m,
  match avail m with
  | O => Done None m
  | S n => let a := fresh (dom (elems m)) in
           Done (Some a) (set_avail (λ _, n) (set_elems <[a := e]> m))
  end.

Definition calloc_list : M mem ptr := λ m,
  match avail m with
  | O => Done None m
  | S n => let a := fresh (dom (lists m)) in
           Done (Some a) (set_avail (λ _, n) (set_lists <[a := ListState None None]> m))
  end.

Definition free_elem (a : addr) : M mem unit :=
  _ ← load_elem a; modify (λ m, set_avail S (set_elems (delete a) m)).

Definition free_list (p : ptr) : M mem unit :=
  match p with
  | None => mret tt
  | Some a => _ ← load_list a; modify (λ m, set_avail S (set_lists (delete a) m))
  end.

(** A call through the [dealloc] function pointer. *)
Definition call_dealloc (f : addr) (d : ptr) : M mem unit := modify (log_call (f, d)).

(** ** The functions of linked_list.c *)

Definition linked_list_init (list_data : ptr) : M mem linked_list_err_type :=
  match list_data with
  | None => mret eLINKED_LIST_INVALID_PARAMETER
  | Some out =>
      tmp_list ← calloc_list;
      match tmp_list with
      | None => mret eLINKED_LIST_FAILURE_GENERAL
      | Some l =>
          _ ← upd_list l (set_head None);
          _ ← upd_list l (set_tail None);
          _ ← store_var out (Some l);
          mret eLINKED_LIST_SUCCESS
      end
  end.

(** The body of the while loop of [linked_list_flush]. *)
Fixpoint linked_list_flush_loop (fuel : nat) (p_list : addr) : M mem unit :=
  match fuel with
  | O => nofuel
  | S fuel' =>
      l ← load_list p_list;
      match p_head l with
      | None => mret tt
      | Some h =>
          e ← load_elem h;
          let tmp := next e in
          _ ← match dealloc_func e with
              | Some f => call_dealloc f (data_ptr e)
              | None => mret tt
              end;
          _ ← free_elem h;
          _ ← upd_list p_list (set_head tmp);
          linked_list_flush_loop fuel' p_list
      end
  end.

Definition linked_list_flush (list_data : ptr) : M mem linked_list_err_type :=
  match list_data with
  | None => mret eLINKED_LIST_INVALID_HANDLE
  | Some p_list =>
      fuel ← gets (λ m, S (size (elems m)));
      _ ← linked_list_flush_loop fuel p_list;
      _ ← upd_list p_list (set_tail None);
      mret eLINKED_LIST_SUCCESS
  end.

Definition linked_list_destroy (list_data : ptr) : M mem linked_list_err_type :=
  match list_data with
  | None => mret eLINKED_LIST_INVALID_HANDLE
  | Some out =>
      p_list ← load_var out;
      _ ← linked_list_flush p_list;
      p ← load_var out;
      _ ← free_list p;
      _ ← store_var out None;
      mret eLINKED_LIST_SUCCESS
  end.

Definition linked_list_add (list_data data_obj dealloc : ptr) : M mem linked_list_err_type :=
  match list_data, data_obj with
  | None, _ => mret eLINKED_LIST_INVALID_HANDLE
  | _, None => mret eLINKED_LIST_INVALID_PARAMETER
  | Some p_list, Some _ =>
      elem ← malloc_elem (Elem None None data_obj dealloc);
      match elem with
      | None => mret eLINKED_LIST_FAILURE_GENERAL
      | Some a =>
          l ← load_list p_list;
          let tmp := p_head l in
          _ ← upd_list p_list (set_head (Some a));
          _ ← upd_elem a (set_next tmp);
          _ ← match tmp with
              | Some t => upd_elem t (set_prev (Some a))
              | None => upd_list p_list (set_tail (Some a))
              end;
          mret eLINKED_LIST_SUCCESS
      end
  end.

Definition linked_list_remove (list_data data_obj : ptr) : M mem linked_list_err_type :=
  match list_data, data_obj with
  | None, _ => mret eLINKED_LIST_INVALID_HANDLE
  | _, None => mret eLINKED_LIST_INVALID_PARAMETER
  | Some p_list, Some out =>
      l ← load_list p_list;
      match p_tail l with
      | None => mret eLINKED_LIST_UNAVAILABLE_RESOURCE
      | Some tmp =>
          e ← load_elem tmp;
          _ ← upd_list p_list (set_tail (prev e));
          _ ← match prev e with
              | Some t => upd_elem t (set_next None)
              | None => upd_list p_list (set_head None)
              end;
          _ ← store_var out (data_ptr e);
          _ ← free_elem tmp;
          mret eLINKED_LIST_SUCCESS
      end
  end.

Definition linked_list_empty (list_data : ptr) : M mem Z :=
  match list_data with
  | None => mret (linked_list_err_code eLINKED_LIST_INVALID_HANDLE)
  | Some p_list =>
      l ← load_list p_list;
      mret (if is_null (p_head l) then 1 else 0)%Z
  end.

(** Unlinking a found element: the [rm_if_found] block of [linked_list_search]. *)
Definition linked_list_unlink (p_list tmp : addr) (data_p : ptr) : M mem unit :=
  e ← load_elem tmp;
  _ ← match prev e with
      | None => upd_list p_list (set_head (next e))
      | Some q => upd_elem q (set_next (next e))
      end;
  e ← load_elem tmp;
  _ ← match next e with
      | None => upd_list p_list (set_tail (prev e))
      | Some q => upd_elem q (set_prev (prev e))
      end;
  _ ← upd_elem tmp (λ e, set_prev None (set_next None e));
  _ ← match data_p, dealloc_func e with
      | None, Some f => call_dealloc f (data_ptr e)
      | _, _ => mret tt
      end;
  free_elem tmp.

(** The while loop of [linked_list_search]; [equal] is the caller's comparison
    of [data_0] with an element's data. *)
Fixpoint linked_list_search_loop (fuel : nat) (p_list : addr) (data_p : ptr)
    (equal : ptr → ptr → bool) (data_0 : ptr) (rm_if_found : bool) (tmp : ptr) : M mem unit :=
  match fuel with
  | O => nofuel
  | S fuel' =>
      match tmp with
      | None => mret tt
      | Some t =>
          e ← load_elem t;
          if equal data_0 (data_ptr e) then
            _ ← match data_p with
                | Some out => store_var out (data_ptr e)
                | None => mret tt
                end;
            when rm_if_found (linked_list_unlink p_list t data_p)
          else linked_list_search_loop fuel' p_list data_p equal data_0 rm_if_found (next e)
      end
  end.

Definition linked_list_search (list_data data_p : ptr) (equal : option (ptr → ptr → bool))
    (data_0 : ptr) (rm_if_found : bool) : M mem linked_list_err_type :=
  match list_data, equal with
  | None, _ | _, None => mret eLINKED_LIST_INVALID_HANDLE
  | Some p_list, Some eq =>
      l ← load_list p_list;
      if is_null (p_tail l) then mret eLINKED_LIST_UNAVAILABLE_RESOURCE
      else
        let tmp := p_head l in
        _ ← match data_p with
            | Some out => store_var out None
            | None => mret tt
            end;
        fuel ← gets (λ m, S (size (elems m)));
        _ ← linked_list_search_loop fuel p_list data_p eq data_0 rm_if_found tmp;
        mret eLINKED_LIST_SUCCESS
  end.

(** ** Representation of a list in memory

    [l] lists the nodes head first: the address of each element and its payload,
    the data pointer with its dealloc function. *)
Abbreviation payload := (ptr * ptr)%type.
Abbreviation node := (addr * (ptr * ptr))%type.

Definition hd_ptr (l : list node) (nxt : ptr) : ptr :=
  match l with [] => nxt | (a, _) :: _ => Some a end.

Fixpoint last_ptr (prv : ptr) (l : list node) : ptr :=
  match l with [] => prv | (a, _) :: l' => last_ptr (Some a) l' end.

Fixpoint dlseg (h : gmap addr list_element) (prv : ptr) (l : list node) (nxt : ptr) : Prop :=
  match l with
  | [] => True
  | (a, x) :: l' =>
      h !! a = Some (Elem (hd_ptr l' nxt) prv x.1 x.2) ∧ dlseg h (Some a) l' nxt
  end.

Record rep (m : mem) (lh : addr) (l : list node) : Prop := Rep {
  rep_state : lists m !! lh = Some (ListState (hd_ptr l None) (last_ptr None l));
  rep_nodup : NoDup l.*1;
  rep_seg : dlseg (elems m) None l None;
}.

Lemma hd_ptr_app l1 l2 n : hd_ptr (l1 ++ l2) n = hd_ptr l1 (hd_ptr l2 n).
Proof. by destruct l1 as [|[] ?]. Qed.

Lemma last_ptr_app p l1 l2 : last_ptr p (l1 ++ l2) = last_ptr (last_ptr p l1) l2.
Proof. revert p. induction l1 as [|[a x] l1 IH]; intros p; simpl; auto. Qed.

Lemma dlseg_app h p l1 l2 n :
  dlseg h p (l1 ++ l2) n ↔ dlseg h p l1 (hd_ptr l2 n) ∧ dlseg h (last_ptr p l1) l2 n.
Proof.
  revert p. induction l1 as [|[a x] l1 IH]; intros p; simpl; [naive_solver|].
  rewrite IH, hd_ptr_app. naive_solver.
Qed.

(** A segment only depends on its own nodes. *)
Lemma dlseg_frame h h' p l n :
  (∀ a, a ∈ l.*1 → h' !! a = h !! a) → dlseg h p l n → dlseg h' p l n.
Proof.
  revert p. induction l as [|[a x] l IH]; intros p Hf; simpl; [done|].
  intros [Ha Hl]. split; [rewrite Hf; [done|set_solver]|]. apply IH; set_solver.
Qed.

Lemma dlseg_insert h p l n a e : a ∉ l.*1 → dlseg h p l n → dlseg (<[a:=e]> h) p l n.
Proof. intros Ha. apply dlseg_frame. intros b ?. rewrite lookup_insert_ne; set_solver. Qed.

Lemma dlseg_delete h p l n a : a ∉ l.*1 → dlseg h p l n → dlseg (delete a h) p l n.
Proof. intros Ha. apply dlseg_frame. intros b ?. rewrite lookup_delete_ne; set_solver. Qed.

Lemma dlseg_dom h p l n : dlseg h p l n → list_to_set l.*1 ⊆ dom h.
Proof.
  revert p. induction l as [|[a x] l IH]; intros p; simpl; [set_solver|].
  intros [Ha Hl]. apply IH in Hl. apply elem_of_dom_2 in Ha. set_solver.
Qed.

Lemma dlseg_length h p l n : NoDup l.*1 → dlseg h p l n → length l ≤ size h.
Proof.
  intros Hd Hl. apply dlseg_dom in Hl. apply subseteq_size in Hl.
  rewrite size_list_to_set, size_dom in Hl by done. by rewrite length_fmap in Hl.
Qed.

#[export] Hint Resolve dlseg_insert dlseg_delete : gps.

(** Redirecting the [next] of the last node, or the [prev] of the first. *)
Lemma dlseg_set_next h p l a x n n' e :
  NoDup (l ++ [(a, x)]).*1 → dlseg h p (l ++ [(a, x)]) n → h !! a = Some e →
  dlseg (<[a := set_next n' e]> h) p (l ++ [(a, x)]) n'.
Proof.
  rewrite !dlseg_app, fmap_app. simpl. intros (_ & Hd & _)%NoDup_app (Hl & Ha & _) He.
  simplify_eq. split_and!; [|by rewrite lookup_insert_eq|done].
  apply dlseg_insert; [|done]. set_solver.
Qed.

Lemma dlseg_set_prev h p p' l a x n e :
  NoDup ((a, x) :: l).*1 → dlseg h p ((a, x) :: l) n → h !! a = Some e →
  dlseg (<[a := set_prev p' e]> h) p' ((a, x) :: l) n.
Proof.
  simpl. intros [Ha _]%NoDup_cons [He Hl] He'. simplify_eq.
  split; [by rewrite lookup_insert_eq|]. by apply dlseg_insert.
Qed.

(** ** Symbolic execution of the memory accesses *)
Lemma load_elem_done a e m : elems m !! a = Some e → load_elem a m = Done e m.
Proof. apply (deref_done (λ m, elems m !! a)). Qed.

Lemma upd_elem_done a f e m :
  elems m !! a = Some e → upd_elem a f m = Done tt (set_elems <[a := f e]> m).
Proof. intros H. unfold upd_elem. by rewrite (bind_done _ _ _ _ _ (load_elem_done _ _ _ H)). Qed.

Lemma load_list_done a l m : lists m !! a = Some l → load_list a m = Done l m.
Proof. apply (deref_done (λ m, lists m !! a)). Qed.

Lemma upd_list_done a f l m :
  lists m !! a = Some l → upd_list a f m = Done tt (set_lists <[a := f l]> m).
Proof. intros H. unfold upd_list. by rewrite (bind_done _ _ _ _ _ (load_list_done _ _ _ H)). Qed.

Lemma load_var_done a v m : vars m !! a = Some v → load_var a m = Done v m.
Proof. apply (deref_done (λ m, vars m !! a)). Qed.

Lemma store_var_done a v v' m :
  vars m !! a = Some v' → store_var a v m = Done tt (set_vars <[a := v]> m).
Proof. intros H. unfold store_var. by rewrite (bind_done _ _ _ _ _ (load_var_done _ _ _ H)). Qed.

Lemma free_elem_done a e m :
  elems m !! a = Some e → free_elem a m = Done tt (set_avail S (set_elems (delete a) m)).
Proof. intros H. unfold free_elem. by rewrite (bind_done _ _ _ _ _ (load_elem_done _ _ _ H)). Qed.

Lemma bind_ret {S A B} (a : A) (f : A → M S B) s : (mret a ≫= f) s = f a s.
Proof. done. Qed.

Lemma bind_modify {S B} (g : S → S) (f : unit → M S B) s : (modify g ≫= f) s = f tt (g s).
Proof. done. Qed.

Lemma bind_gets {S A B} (g : S → A) (f : A → M S B) s : (gets g ≫= f) s = f (g s) s.
Proof. done. Qed.

Lemma bind_assoc {S A B C} (m : M S A) (f : A → M S B) (g : B → M S C) s :
  ((m ≫= f) ≫= g) s = (m ≫= λ a, f a ≫= g) s.
Proof. unfold mbind, M_bind. by destruct (m s). Qed.

(** One step: rewrite the first access of a block, given the lookup it needs. *)
Ltac step lem := erewrite bind_done; [|eapply lem; simpl; by simplify_map_eq]; simpl.

(** What an operation on one list leaves alone: the other list states, and every
    element outside the list it works on. *)
Record frame (lh : addr) (own : list addr) (m m' : mem) : Prop := Frame {
  frame_lists : ∀ k, k ≠ lh → lists m' !! k = lists m !! k;
  frame_elems : ∀ b, b ∉ own → b ∈ dom (elems m) → elems m' !! b = elems m !! b;
}.

(** *** linked_list_add *)
Lemma linked_list_add_done m lh l d f n :
  rep m lh l → avail m = S n →
  ∃ m' a, linked_list_add (Some lh) (Some d) f m = Done eLINKED_LIST_SUCCESS m' ∧
    rep m' lh ((a, (Some d, f)) :: l) ∧ frame lh (a :: l.*1) m m' ∧ a ∉ dom (elems m) ∧
    dom (elems m') = {[a]} ∪ dom (elems m) ∧
    vars m' = vars m ∧ avail m' = n ∧ calls m' = calls m.
Proof.
  intros [Hs Hd Hl] Hn. unfold linked_list_add, malloc_elem.
  unfold mbind at 1, M_bind at 1. rewrite Hn.
  set (a := fresh (dom (elems m))). assert (a ∉ dom (elems m)) as Ha by apply is_fresh.
  assert (a ∉ l.*1) as Hal.
  { pose proof (dlseg_dom _ _ _ _ Hl). set_solver. }
  step load_list_done. step upd_list_done. step upd_elem_done.
  destruct l as [|[t x] l]; simpl in *.
  - step upd_list_done. eexists _, a. split; [done|]. split_and!; try done; simpl.
    + split; simpl; [by simplify_map_eq|by apply NoDup_singleton|]. by simplify_map_eq.
    + split; simpl; intros; rewrite ?lookup_insert_ne by set_solver; done.
    + rewrite !dom_insert_L. set_solver.
  - destruct Hl as [Ht Hl]. apply NoDup_cons in Hd as [Htl Hd].
    assert (a ≠ t) by set_solver.
    step upd_elem_done. eexists _, a. split; [done|]. split_and!; try done; simpl.
    + split; simpl.
      * by simplify_map_eq.
      * apply NoDup_cons. split; [done|]. by apply NoDup_cons.
      * split_and!; [by simplify_map_eq|by simplify_map_eq|].
        by repeat (apply dlseg_insert; [set_solver|]).
    + split; simpl; intros; rewrite ?lookup_insert_ne by set_solver; done.
    + apply elem_of_dom_2 in Ht. rewrite !dom_insert_L. set_solver.
Qed.

(** *** linked_list_remove *)

(** The nodes a segment still owns are those of [l]: the last one goes. *)
Lemma linked_list_remove_done m lh out l a x v :
  rep m lh (l ++ [(a, x)]) → vars m !! out = Some v →
  ∃ m', linked_list_remove (Some lh) (Some out) m = Done eLINKED_LIST_SUCCESS m' ∧
    rep m' lh l ∧ frame lh (l ++ [(a, x)]).*1 m m' ∧
    dom (elems m') = dom (elems m) ∖ {[a]} ∧
    vars m' = <[out := x.1]> (vars m) ∧ avail m' = S (avail m) ∧ calls m' = calls m.
Proof.
  intros [Hs Hd Hl] Hv. unfold linked_list_remove. step load_list_done.
  rewrite last_ptr_app. simpl.
  rewrite fmap_app in Hd. pose proof Hd as (Hdl & Hda & _)%NoDup_app. simpl in Hda.
  assert (a ∉ l.*1) as Hal by set_solver.
  apply dlseg_app in Hl as [Hl [Ha _]]. simpl in *.
  step load_elem_done. step upd_list_done.
  destruct (last_snoc_inv l) as [->|(l' & [b y] & ->)]; simpl.
  - step upd_list_done. step store_var_done. step free_elem_done.
    eexists. split; [done|]. split_and!; try done; simpl.
    + split; simpl; [by simplify_map_eq|constructor|done].
    + split; simpl; intros; rewrite ?lookup_insert_ne, ?lookup_delete_ne by set_solver; done.
    + by rewrite dom_delete_L.
  - rewrite fmap_app in *. simpl in *. rewrite last_ptr_app. simpl.
    assert (a ≠ b) by set_solver.
    pose proof Hl as [_ [Hb _]]%dlseg_app. simpl in *.
    step upd_elem_done. step store_var_done. step free_elem_done.
    eexists. split; [done|]. split_and!; try done; simpl.
    + split; simpl.
      * simplify_map_eq. unfold set_tail. by rewrite !hd_ptr_app, !last_ptr_app.
      * by rewrite fmap_app.
      * apply dlseg_delete; [rewrite fmap_app; set_solver|].
        eapply dlseg_set_next; [by rewrite fmap_app|done|done].
    + split; simpl; intros k Hk; [by rewrite lookup_insert_ne by done|]. intros _.
      rewrite !fmap_app in Hk. simpl in Hk.
      by rewrite lookup_delete_ne, lookup_insert_ne by set_solver.
    + apply elem_of_dom_2 in Hb. rewrite dom_delete_L, dom_insert_L. set_solver.
Qed.

(** *** Unlinking in the middle, and linked_list_search *)
Definition search_dealloc (data_p : ptr) (x : payload) : list (addr * ptr) :=
  match data_p, x.2 with None, Some f => [(f, x.1)] | _, _ => [] end.

(** Relinking around a node: [next] of the last node of [l1] (or the head) and
    [prev] of the first node of [l2] (or the tail) are made to skip it. *)
Definition skip_next (lh : addr) (l1 : list node) (n : ptr) : M mem unit :=
  match last_ptr None l1 with
  | None => upd_list lh (set_head n)
  | Some q => upd_elem q (set_next n)
  end.

Definition skip_prev (lh : addr) (p : ptr) (l2 : list node) : M mem unit :=
  match hd_ptr l2 None with
  | None => upd_list lh (set_tail p)
  | Some q => upd_elem q (set_prev p)
  end.

(** A list being relinked: its two halves are segments, not yet joined. *)
Record halves (m : mem) (lh : addr) (hd tl : ptr) (l1 : list node) (n : ptr)
    (p : ptr) (l2 : list node) : Prop := Halves {
  halves_state : lists m !! lh = Some (ListState hd tl);
  halves_nodup : NoDup (l1 ++ l2).*1;
  halves_fst : dlseg (elems m) None l1 n;
  halves_snd : dlseg (elems m) p l2 None;
}.

Lemma skip_next_done m lh hd tl l1 n p l2 n' :
  halves m lh hd tl l1 n p l2 → hd = hd_ptr l1 hd →
  ∃ m', skip_next lh l1 n' m = Done tt m' ∧ halves m' lh (hd_ptr l1 n') tl l1 n' p l2 ∧
    frame lh l1.*1 m m' ∧ dom (elems m') = dom (elems m) ∧
    vars m' = vars m ∧ avail m' = avail m ∧ calls m' = calls m.
Proof.
  intros [Hs Hd H1 H2] Hhd. unfold skip_next.
  destruct (last_snoc_inv l1) as [->|(l & [b y] & ->)]; simpl.
  - erewrite upd_list_done by done. eexists. split; [done|]. split_and!; try done.
    + split; simpl; [by simplify_map_eq|done..].
    + split; simpl; intros; by rewrite ?lookup_insert_ne.
  - rewrite last_ptr_app. simpl. pose proof H1 as [_ [Hb _]]%dlseg_app. simpl in Hb.
    erewrite upd_elem_done by done. eexists. split; [done|].
    rewrite fmap_app in Hd. apply NoDup_app in Hd as (Hd1 & Hd12 & Hd2).
    split_and!; try done; simpl.
    + split; simpl.
      * rewrite Hs, Hhd. by rewrite !hd_ptr_app.
      * rewrite fmap_app. by apply NoDup_app.
      * by eapply dlseg_set_next.
      * apply dlseg_insert; [|done]. apply Hd12. rewrite fmap_app. set_solver.
    + split; simpl; intros k Hk; [done|]. rewrite fmap_app in Hk. intros _.
      rewrite lookup_insert_ne; set_solver.
    + apply elem_of_dom_2 in Hb. rewrite dom_insert_L. set_solver.
Qed.

Lemma skip_prev_done m lh hd tl l1 n p l2 p' :
  halves m lh hd tl l1 n p l2 → tl = last_ptr tl l2 →
  ∃ m', skip_prev lh p' l2 m = Done tt m' ∧ halves m' lh hd (last_ptr p' l2) l1 n p' l2 ∧
    frame lh l2.*1 m m' ∧ dom (elems m') = dom (elems m) ∧
    vars m' = vars m ∧ avail m' = avail m ∧ calls m' = calls m.
Proof.
  intros [Hs Hd H1 H2] Htl. unfold skip_prev. destruct l2 as [|[c z] l2]; simpl.
  - erewrite upd_list_done by done. eexists. split; [done|]. split_and!; try done.
    + split; simpl; [by simplify_map_eq|done..].
    + split; simpl; intros; by rewrite ?lookup_insert_ne.
  - pose proof H2 as [Hc _]. erewrite upd_elem_done by done. eexists. split; [done|].
    rewrite fmap_app in Hd. apply NoDup_app in Hd as (Hd1 & Hd12 & Hd2).
    split_and!; try done; simpl.
    + split; simpl.
      * by rewrite Hs, Htl.
      * rewrite fmap_app. by apply NoDup_app.
      * apply dlseg_insert; [|done]. intros Hc1. apply (Hd12 c Hc1). set_solver.
      * by eapply (dlseg_set_prev _ p).
    + split; simpl; intros k Hk; [done|]. intros _. rewrite lookup_insert_ne; set_solver.
    + apply elem_of_dom_2 in Hc. rewrite dom_insert_L. set_solver.
Qed.

Lemma frame_weaken lh own own' m m' :
  frame lh own m m' → (∀ a, a ∈ own → a ∈ own') → frame lh own' m m'.
Proof. intros [? H2] Hs. split; [done|]. intros b Hb. apply H2. auto. Qed.

Lemma frame_trans lh own m1 m2 m3 :
  frame lh own m1 m2 → frame lh own m2 m3 →
  (∀ b, b ∉ own → b ∈ dom (elems m1) → b ∈ dom (elems m2)) → frame lh own m1 m3.
Proof.
  intros [Ha1 Ha2] [Hb1 Hb2] Hd. split.
  - intros k Hk. by rewrite Hb1, Ha1.
  - intros b Hb Hi. rewrite Hb2 by auto. by apply Ha2.
Qed.

Lemma halves_of_rep m lh l1 a x l2 :
  rep m lh (l1 ++ (a, x) :: l2) →
  halves m lh (hd_ptr l1 (Some a)) (last_ptr (Some a) l2) l1 (Some a) (Some a) l2 ∧
  elems m !! a = Some (Elem (hd_ptr l2 None) (last_ptr None l1) x.1 x.2) ∧
  a ∉ (l1 ++ l2).*1.
Proof.
  intros [Hs Hd Hl]. apply dlseg_app in Hl as [H1 [Ha H2]]. simpl in *.
  rewrite fmap_app in *. simpl in *.
  assert (a :: l1.*1 ++ l2.*1 ≡ₚ l1.*1 ++ a :: l2.*1) as Hp by apply Permutation_middle.
  rewrite <-Hp in Hd. apply NoDup_cons in Hd as [Ha' Hd].
  split_and!; [|done|done]. split; [|by rewrite fmap_app|done|done].
  by rewrite Hs, hd_ptr_app, last_ptr_app.
Qed.

Lemma hd_ptr_idem l n : hd_ptr l n = hd_ptr l (hd_ptr l n).
Proof. by destruct l as [|[] ?]. Qed.

Lemma last_ptr_idem l n : last_ptr n l = last_ptr (last_ptr n l) l.
Proof.
  destruct (last_snoc_inv l) as [->|(l' & [b y] & ->)]; [done|]. by rewrite !last_ptr_app.
Qed.

Lemma linked_list_unlink_done m lh l1 a x l2 data_p :
  rep m lh (l1 ++ (a, x) :: l2) →
  ∃ m', linked_list_unlink lh a data_p m = Done tt m' ∧
    rep m' lh (l1 ++ l2) ∧ frame lh (l1 ++ (a, x) :: l2).*1 m m' ∧
    dom (elems m') = dom (elems m) ∖ {[a]} ∧
    vars m' = vars m ∧ avail m' = S (avail m) ∧ calls m' = calls m ++ search_dealloc data_p x.
Proof.
  intros (Hh & Ha & Hna)%halves_of_rep. unfold linked_list_unlink.
  rewrite fmap_app in Hna. step load_elem_done.
  destruct (skip_next_done _ _ _ _ _ _ _ _ (hd_ptr l2 None) Hh) as (m1 & E1 & Hh1 & Hf1 & Hd1 & Hv1 & Hav1 & Hc1);
    [apply hd_ptr_idem|].
  destruct (skip_prev_done _ _ _ _ _ _ _ _ (last_ptr None l1) Hh1) as (m2 & E2 & Hh2 & Hf2 & Hd2 & Hv2 & Hav2 & Hc2);
    [apply last_ptr_idem|].
  assert (elems m1 !! a = elems m !! a) as Ha1.
  { apply Hf1; [set_solver|]. by apply elem_of_dom_2 in Ha. }
  assert (elems m2 !! a = elems m !! a) as Ha2.
  { rewrite <-Ha1. apply Hf2; [set_solver|]. rewrite Hd1. by apply elem_of_dom_2 in Ha. }
  unfold skip_next in E1. unfold skip_prev in E2.
  rewrite (bind_done _ _ _ _ _ E1).
  erewrite bind_done; [|apply load_elem_done; by rewrite Ha1]. simpl.
  rewrite (bind_done _ _ _ _ _ E2). rewrite Ha in Ha2. step upd_elem_done.
  set (m3 := set_elems _ m2).
  assert (∃ m4, (match data_p, x.2 with None, Some f => call_dealloc f x.1 | _, _ => mret tt end) m3
     = Done tt m4 ∧ elems m4 = elems m3 ∧ lists m4 = lists m2 ∧ vars m4 = vars m2 ∧ avail m4 = avail m2 ∧
       calls m4 = calls m2 ++ search_dealloc data_p x) as (m4 & E4 & He4 & Hl4 & Hv4 & Hav4 & Hc4).
  { unfold search_dealloc. destruct data_p, x as [? []]; simpl; eexists; (split; [reflexivity|]);
      by rewrite ?app_nil_r. }
  rewrite (bind_done _ _ _ _ _ E4).
  erewrite free_elem_done; [|rewrite He4; simpl; by rewrite lookup_insert_eq].
  eexists. split; [done|]. destruct Hh2 as [Hs Hd H1 H2].
  assert (delete a (elems m4) = delete a (elems m2)) as Hdel.
  { rewrite He4. simpl. by rewrite delete_insert_eq. }
  rewrite fmap_app in Hd. split_and!; simpl; try congruence.
  - split; simpl; [by rewrite Hl4, Hs, hd_ptr_app, last_ptr_app|by rewrite fmap_app|].
    rewrite Hdel. apply dlseg_app. split; apply dlseg_delete; set_solver.
  - apply (frame_trans _ _ _ m2); [apply (frame_trans _ _ _ m1)| |].
    + eapply frame_weaken; [done|]. rewrite fmap_app. set_solver.
    + eapply frame_weaken; [done|]. rewrite fmap_app. set_solver.
    + intros. by rewrite Hd1.
    + split; simpl; intros b Hb; [by rewrite Hl4|]. rewrite Hdel. intros _.
      rewrite fmap_app in Hb. rewrite lookup_delete_ne; set_solver.
    + intros. by rewrite Hd2, Hd1.
  - rewrite Hdel, dom_delete_L. congruence.
Qed.

(** The first element a predicate accepts, and the list without it. *)
Fixpoint take_first {A} (f : A → bool) (l : list A) : option (A * list A) :=
  match l with
  | [] => None
  | x :: l' => if f x then Some (x, l')
               else match take_first f l' with
                    | Some (y, r) => Some (y, x :: r)
                    | None => None
                    end
  end.

Lemma take_first_app {A} (f : A → bool) l1 l2 :
  Forall (λ x, f x = false) l1 →
  take_first f (l1 ++ l2) =
  match take_first f l2 with Some (y, r) => Some (y, l1 ++ r) | None => None end.
Proof.
  induction 1 as [|x l1 Hx _ IH]; simpl; [by destruct (take_first f l2) as [[]|]|].
  rewrite Hx, IH. by destruct (take_first f l2) as [[]|].
Qed.

(** What a search leaves behind, as a function of the first match. *)
Definition search_post (m m' : mem) (lh : addr) (l : list node) (data_p : ptr) (rm : bool)
    (r : option (payload * list payload)) : Prop :=
  match r with
  | None => m' = m
  | Some (x, rest) =>
      vars m' = match data_p with Some out => <[out := x.1]> (vars m) | None => vars m end ∧
      frame lh l.*1 m m' ∧
      if rm then
        ∃ l' a, l'.*2 = rest ∧ a ∈ l.*1 ∧ (∀ b, b ∈ l'.*1 ↔ b ∈ l.*1 ∧ b ≠ a) ∧ rep m' lh l' ∧
          dom (elems m') = dom (elems m) ∖ {[a]} ∧
          avail m' = S (avail m) ∧ calls m' = calls m ++ search_dealloc data_p x
      else rep m' lh l ∧ dom (elems m') = dom (elems m) ∧ avail m' = avail m ∧ calls m' = calls m
  end.

Lemma linked_list_search_loop_done fuel m lh l1 l2 data_p eq data_0 rm :
  rep m lh (l1 ++ l2) → length l2 < fuel →
  (∀ out, data_p = Some out → is_Some (vars m !! out)) →
  Forall (λ x, eq data_0 x.1 = false) l1.*2 →
  ∃ m', linked_list_search_loop fuel lh data_p eq data_0 rm (hd_ptr l2 None) m = Done tt m' ∧
    search_post m m' lh (l1 ++ l2) data_p rm (take_first (λ x, eq data_0 x.1) (l1 ++ l2).*2).
Proof.
  revert fuel l1. induction l2 as [|[a x] l2 IH]; intros [|fuel] l1 Hr Hfu Hout Hl1; simpl in *; try lia.
  - eexists. split; [done|]. rewrite fmap_app, take_first_app by done. done.
  - pose proof (halves_of_rep _ _ _ _ _ _ Hr) as (_ & Ha & Hna).
    step load_elem_done. destruct (eq data_0 x.1) eqn:Heq.
    + rewrite fmap_app, take_first_app by done. simpl. rewrite Heq.
      set (m1 := match data_p with Some out => set_vars <[out := x.1]> m | None => m end).
      assert ((match data_p with Some out => store_var out x.1 | None => mret tt end) m = Done tt m1) as E1.
      { subst m1. destruct data_p as [out|]; [|done]. destruct (Hout out eq_refl) as [v Hv].
        by eapply store_var_done. }
      rewrite (bind_done _ _ _ _ _ E1).
      assert (rep m1 lh (l1 ++ (a, x) :: l2)) as Hr1.
      { subst m1. destruct data_p; [|done]. by destruct Hr. }
      assert (vars m1 = match data_p with Some out => <[out := x.1]> (vars m) | None => vars m end) as Hv1.
      { subst m1. by destruct data_p. }
      assert (elems m1 = elems m ∧ lists m1 = lists m ∧ avail m1 = avail m ∧ calls m1 = calls m)
        as (He & Hls & Hav & Hc) by (subst m1; by destruct data_p).
      destruct rm; simpl.
      * destruct (linked_list_unlink_done _ _ _ _ _ _ data_p Hr1) as (m2 & E2 & Hr2 & Hf & Hd & Hv & Ha2 & Hc2).
        exists m2. split; [done|]. split_and!; [by rewrite Hv| |].
        { destruct Hf as [Hf1 Hf2]. split; [by rewrite <-Hls|by rewrite <-He]. }
        exists (l1 ++ l2), a. rewrite !fmap_app in *. simpl.
        split_and!; [done|set_solver|set_solver|done|congruence..].
      * exists m1. split; [done|]. split_and!; try congruence.
        split; intros; congruence.
    + specialize (IH fuel (l1 ++ [(a, x)])). rewrite <-app_assoc in IH. simpl in IH.
      apply IH; [done|lia|done|]. rewrite fmap_app. apply Forall_app. by repeat constructor.
Qed.

(** *** linked_list_flush *)

(** The dealloc calls made for the payloads [q], in order. *)
Definition flush_calls (q : list payload) : list (addr * ptr) :=
  omap (λ x, f ← x.2; Some (f, x.1)) q.

Definition head_first (lh : addr) (l : list node) (tl : ptr) (p : ptr) (m : mem) : Prop :=
  lists m !! lh = Some (ListState (hd_ptr l None) tl) ∧ NoDup l.*1 ∧ dlseg (elems m) p l None.

Lemma linked_list_flush_loop_done fuel m lh l tl p :
  head_first lh l tl p m → length l < fuel →
  ∃ m', linked_list_flush_loop fuel lh m = Done tt m' ∧
    lists m' !! lh = Some (ListState None tl) ∧ frame lh l.*1 m m' ∧
    dom (elems m') = dom (elems m) ∖ list_to_set l.*1 ∧
    vars m' = vars m ∧ avail m' = length l + avail m ∧ calls m' = calls m ++ flush_calls l.*2.
Proof.
  revert fuel m p. induction l as [|[a x] l IH]; intros [|fuel] m p (Hs & Hd & Hl) Hf; simpl in *; try lia.
  - step load_list_done. exists m. rewrite app_nil_r. split_and!; try done. set_solver.
  - destruct Hl as [Ha Hl]. apply NoDup_cons in Hd as [Hal Hd].
    step load_list_done. step load_elem_done.
    set (m1 := match x.2 with Some f => log_call (f, x.1) m | None => m end).
    assert ((match x.2 with Some f => call_dealloc f x.1 | None => mret tt end) m = Done tt m1) as E1.
    { subst m1. by destruct (x.2). }
    rewrite (bind_done _ _ _ _ _ E1).
    assert (elems m1 = elems m ∧ lists m1 = lists m ∧ avail m1 = avail m ∧ vars m1 = vars m ∧
      calls m1 = calls m ++ flush_calls [x]) as (He & Hls & Hav & Hv & Hc).
    { subst m1. destruct x as [d [f|]]; simpl; by rewrite ?app_nil_r. }
    erewrite bind_done; [|eapply free_elem_done; by rewrite He].
    erewrite bind_done; [|eapply upd_list_done; simpl; by rewrite Hls].
    set (m2 := set_lists _ _).
    destruct (IH fuel m2 (Some a)) as (m3 & E3 & Hl3 & [Hf3 Hf3'] & Hd3 & Hv3 & Ha3 & Hc3); [|lia|].
    + subst m2. split_and!; simpl; [by simplify_map_eq|done|]. rewrite He. by apply dlseg_delete.
    + exists m3. split; [done|]. subst m2. simpl in *. split_and!; [done| | |congruence|rewrite Ha3; lia|].
      * split; [intros k Hk; rewrite Hf3 by done; rewrite lookup_insert_ne by done; congruence|].
        intros b Hb Hbm. rewrite Hf3'; [rewrite He, lookup_delete_ne; [done|set_solver]|set_solver|].
        rewrite dom_delete_L, He. set_solver.
      * rewrite Hd3, dom_delete_L, He. set_solver.
      * rewrite Hc3, Hc, <-app_assoc. f_equal. destruct x as [d [f|]]; done.
Qed.

Lemma linked_list_flush_done m lh l :
  rep m lh l →
  ∃ m', linked_list_flush (Some lh) m = Done eLINKED_LIST_SUCCESS m' ∧
    rep m' lh [] ∧ frame lh l.*1 m m' ∧
    dom (elems m') = dom (elems m) ∖ list_to_set l.*1 ∧
    vars m' = vars m ∧ avail m' = length l + avail m ∧ calls m' = calls m ++ flush_calls l.*2.
Proof.
  intros [Hs Hd Hl]. unfold linked_list_flush. rewrite bind_gets.
  destruct (linked_list_flush_loop_done (S (size (elems m))) m lh l (last_ptr None l) None)
    as (m1 & E1 & Hl1 & [Hf1 Hf1'] & Hd1 & Hv1 & Ha1 & Hc1); [done| |].
  { pose proof (dlseg_length _ _ _ _ Hd Hl). lia. }
  rewrite (bind_done _ _ _ _ _ E1). step upd_list_done.
  eexists. split; [done|]. split_and!; try done; simpl.
  - split; simpl; [by simplify_map_eq|constructor|done].
  - split; simpl; [|done]. intros k Hk. rewrite lookup_insert_ne by done. auto.
Qed.

(** *** linked_list_init and linked_list_destroy *)
Lemma linked_list_init_done m out v n :
  avail m = S n → vars m !! out = Some v →
  ∃ lh, linked_list_init (Some out) m = Done eLINKED_LIST_SUCCESS
      (Mem (elems m) (<[lh := ListState None None]> (lists m)) (<[out := Some lh]> (vars m)) n (calls m)) ∧
    lh ∉ dom (lists m).
Proof.
  intros Hn Hv. unfold linked_list_init, calloc_list. unfold mbind at 1, M_bind at 1. rewrite Hn.
  set (lh := fresh (dom (lists m))). exists lh. split; [|apply is_fresh].
  step upd_list_done. step upd_list_done. step store_var_done.
  unfold mret, M_ret, set_vars, set_lists, set_avail. simpl. by rewrite !insert_insert_eq.
Qed.

Lemma linked_list_destroy_done m out lh l :
  rep m lh l → vars m !! out = Some (Some lh) →
  ∃ m', linked_list_destroy (Some out) m = Done eLINKED_LIST_SUCCESS m' ∧
    vars m' = <[out := None]> (vars m) ∧ lists m' = delete lh (lists m') ∧
    (∀ k, k ≠ lh → lists m' !! k = lists m !! k) ∧
    dom (elems m') = dom (elems m) ∖ list_to_set l.*1 ∧
    (∀ b, b ∉ l.*1 → b ∈ dom (elems m) → elems m' !! b = elems m !! b) ∧
    avail m' = S (length l + avail m) ∧ calls m' = calls m ++ flush_calls l.*2.
Proof.
  intros Hr Hv. unfold linked_list_destroy. step load_var_done.
  destruct (linked_list_flush_done _ _ _ Hr) as (m1 & E1 & [Hs1 _ _] & [Hf1 Hf1'] & Hd1 & Hv1 & Ha1 & Hc1).
  rewrite (bind_done _ _ _ _ _ E1). rewrite <-Hv1 in Hv. step load_var_done.
  unfold free_list. rewrite bind_assoc. step load_list_done. rewrite bind_modify.
  step store_var_done. eexists. split; [done|]. split_and!; try done; simpl.
  - by rewrite Hv1.
  - by rewrite delete_delete_eq.
  - intros k Hk. rewrite lookup_delete_ne by done. auto.
  - by rewrite Ha1.
Qed.

(** ** The contract of a list: a deque of payloads, newest first *)
Record deque := Deque {
  q : list payload;
  dq_avail : nat;
  dq_calls : list (addr * ptr);
  dq_out : ptr;
}.

Inductive op :=
  | OpAdd (d f : ptr)
  | OpRemove
  | OpFlush
  | OpEmpty
  | OpSearch (copy_out : bool) (equal : ptr → ptr → bool) (data_0 : ptr) (rm : bool).

(** An operation on the list [lh], with [out] as the caller's output variable. *)
Definition exec (lh out : addr) (o : op) : M mem Z :=
  match o with
  | OpAdd d f => r ← linked_list_add (Some lh) d f; mret (linked_list_err_code r)
  | OpRemove => r ← linked_list_remove (Some lh) (Some out); mret (linked_list_err_code r)
  | OpFlush => r ← linked_list_flush (Some lh); mret (linked_list_err_code r)
  | OpEmpty => linked_list_empty (Some lh)
  | OpSearch c eq d0 rm =>
      r ← linked_list_search (Some lh) (if c then Some out else None) (Some eq) d0 rm;
      mret (linked_list_err_code r)
  end.

Definition spec_search (c : bool) (eq : ptr → ptr → bool) (d0 : ptr) (rm : bool) (s : deque) : deque :=
  match take_first (λ x, eq d0 x.1) (q s) with
  | None => Deque (q s) (dq_avail s) (dq_calls s) (if c then None else dq_out s)
  | Some (x, rest) =>
      let out' := if c then x.1 else dq_out s in
      if rm then Deque rest (S (dq_avail s))
                   (dq_calls s ++ search_dealloc (if c then Some 1%positive else None) x) out'
      else Deque (q s) (dq_avail s) (dq_calls s) out'
  end.

Definition spec_exec (o : op) (s : deque) : linked_list_err_type + Z :=
  match o with
  | OpAdd None _ => inl eLINKED_LIST_INVALID_PARAMETER
  | OpAdd (Some _) _ =>
      inl (match dq_avail s with O => eLINKED_LIST_FAILURE_GENERAL | S _ => eLINKED_LIST_SUCCESS end)
  | OpRemove | OpSearch _ _ _ _ =>
      inl (match q s with [] => eLINKED_LIST_UNAVAILABLE_RESOURCE | _ => eLINKED_LIST_SUCCESS end)
  | OpFlush => inl eLINKED_LIST_SUCCESS
  | OpEmpty => inr (match q s with [] => 1 | _ => 0 end)%Z
  end.

Definition spec_state (o : op) (s : deque) : deque :=
  match o with
  | OpAdd None _ | OpEmpty => s
  | OpAdd (Some d) f =>
      match dq_avail s with
      | O => s
      | S n => Deque ((Some d, f) :: q s) n (dq_calls s) (dq_out s)
      end
  | OpRemove =>
      match last (q s) with
      | None => s
      | Some x => Deque (removelast (q s)) (S (dq_avail s)) (dq_calls s) x.1
      end
  | OpFlush =>
      Deque [] (length (q s) + dq_avail s) (dq_calls s ++ flush_calls (q s)) (dq_out s)
  | OpSearch c eq d0 rm => match q s with [] => s | _ => spec_search c eq d0 rm s end
  end.

Definition ret_code (r : linked_list_err_type + Z) : Z :=
  match r with inl e => linked_list_err_code e | inr z => z end.

(** The memory [m] implements the deque [s] in the list [lh]; [F] are the elements
    that belong to nobody but others, [L] the other list states. *)
Record implements (F : gmap addr list_element) (L : gmap addr list_state) (V : gmap addr ptr)
    (m : mem) (lh out : addr) (s : deque) : Prop := Implements {
  impl_rep : ∃ l, rep m lh l ∧ l.*2 = q s ∧
    dom (elems m) = list_to_set l.*1 ∪ dom F ∧ (∀ a, a ∈ l.*1 → a ∉ dom F);
  impl_foreign : ∀ b, b ∈ dom F → elems m !! b = F !! b;
  impl_lists : ∀ k, k ≠ lh → lists m !! k = L !! k;
  impl_out : vars m = <[out := dq_out s]> V;
  impl_avail : avail m = dq_avail s;
  impl_calls : calls m = dq_calls s;
}.

Lemma implements_out F L V m lh out s :
  implements F L V m lh out s → vars m !! out = Some (dq_out s).
Proof. intros [_ _ _ -> _ _]. apply lookup_insert_eq. Qed.

Lemma bind_ret_code {A} (c : M mem A) (f : A → Z) m r m' :
  c m = Done r m' → (r' ← c; mret (f r')) m = Done (f r) m'.
Proof. intros H. by rewrite (bind_done _ _ _ _ _ H). Qed.

(** Re-establishing [implements] after an operation that framed the rest. *)
Lemma implements_intro F L V m m' lh out s s' own l' :
  implements F L V m lh out s → frame lh own m m' →
  (∀ b, b ∈ own → b ∉ dom F) →
  rep m' lh l' → l'.*2 = q s' → dom (elems m') = list_to_set l'.*1 ∪ dom F →
  (∀ a, a ∈ l'.*1 → a ∉ dom F) →
  vars m' = <[out := dq_out s']> V → avail m' = dq_avail s' → calls m' = dq_calls s' →
  implements F L V m' lh out s'.
Proof.
  intros [(l & Hr & Hq & Hdom & HF) Hfor Hls _ _ _] [Hf1 Hf2] Hown Hr' Hq' Hd' HF' Ho Ha Hc.
  split; try done.
  - by exists l'.
  - intros b Hb. rewrite Hf2; [auto| |rewrite Hdom; set_solver]. intros Hb'. by apply (Hown b).
  - intros k Hk. rewrite Hf1 by done. auto.
Qed.

Lemma exec_add F L V m lh out s d f :
  implements F L V m lh out s →
  ∃ m', exec lh out (OpAdd d f) m = Done (ret_code (spec_exec (OpAdd d f) s)) m' ∧
    implements F L V m' lh out (spec_state (OpAdd d f) s).
Proof.
  intros Hi. pose proof Hi as [(l & Hr & Hq & Hdom & HF) Hfor Hls Hout Hav Hc].
  destruct d as [d|]; simpl; [|by exists m].
  destruct (dq_avail s) as [|n] eqn:Hs.
  - unfold linked_list_add, malloc_elem, mbind, M_bind. rewrite Hav. by exists m.
  - destruct (linked_list_add_done m lh l d f n Hr Hav)
      as (m' & a & E & Hr' & Hf & Ha & Hd & Hv & Ha' & Hc').
    rewrite Hdom in *. exists m'. erewrite bind_ret_code by done. split; [done|].
    eapply (implements_intro _ _ _ _ _ _ _ _ _ _ ((a, (Some d, f)) :: l)); eauto; simpl; try congruence.
    + intros b [->|Hb]%elem_of_cons; [set_solver|auto].
    + by f_equal.
    + rewrite Hd. by rewrite union_assoc_L.
    + intros b [->|Hb]%elem_of_cons; [set_solver|auto].
Qed.

Lemma exec_remove F L V m lh out s :
  implements F L V m lh out s →
  ∃ m', exec lh out OpRemove m = Done (ret_code (spec_exec OpRemove s)) m' ∧
    implements F L V m' lh out (spec_state OpRemove s).
Proof.
  intros Hi. pose proof Hi as [(l & Hr & Hq & Hdom & HF) Hfor Hls Hout Hav Hc]. simpl.
  rewrite <-Hq. destruct (last_snoc_inv l) as [->|(l' & [a x] & ->)]; simpl in *.
  - exists m. split; [|done]. unfold linked_list_remove. destruct Hr as [Hs _ _].
    rewrite bind_assoc. by step load_list_done.
  - destruct (linked_list_remove_done _ _ _ _ _ _ _ Hr (implements_out _ _ _ _ _ _ _ Hi))
      as (m' & E & Hr' & Hf & Hd & Hv & Ha' & Hc').
    exists m'. erewrite bind_ret_code by done. rewrite !fmap_app in *. simpl in *.
    rewrite last_snoc, removelast_last.
    destruct Hr as [_ Hnd _]. rewrite fmap_app in Hnd. apply NoDup_app in Hnd as (_ & Hnd & _).
    split; [by destruct (l'.*2)|].
    eapply (implements_intro _ _ _ _ _ _ _ _ _ _ l'); eauto; simpl.
    + rewrite Hd, Hdom. rewrite !list_to_set_app_L. simpl. set_solver.
    + set_solver.
    + by rewrite Hv, Hout, insert_insert_eq.
    + congruence.
    + congruence.
Qed.

Lemma exec_flush F L V m lh out s :
  implements F L V m lh out s →
  ∃ m', exec lh out OpFlush m = Done (ret_code (spec_exec OpFlush s)) m' ∧
    implements F L V m' lh out (spec_state OpFlush s).
Proof.
  intros Hi. pose proof Hi as [(l & Hr & Hq & Hdom & HF) Hfor Hls Hout Hav Hc]. simpl.
  destruct (linked_list_flush_done _ _ _ Hr) as (m' & E & Hr' & Hf & Hd & Hv & Ha' & Hc').
  exists m'. erewrite bind_ret_code by done. split; [done|].
  eapply (implements_intro _ _ _ _ _ _ _ _ _ _ []); eauto; simpl; try congruence.
  - rewrite Hd, Hdom. set_solver.
  - set_solver.
  - rewrite <-Hq, length_fmap. congruence.
Qed.

Lemma rep_vars f m lh l : rep m lh l → rep (set_vars f m) lh l.
Proof. intros []. by split. Qed.

(** The start of a search: the output variable is cleared if there is one. *)
Lemma search_clear F L V m lh out s l (c : bool) :
  implements F L V m lh out s → rep m lh l →
  let m1 := if c then set_vars <[out := None]> m else m in
  match (if c then Some out else None) with
  | Some o => store_var o None | None => mret tt end m = Done tt m1 ∧
  implements F L V m1 lh out (Deque (q s) (dq_avail s) (dq_calls s) (if c then None else dq_out s)) ∧
  rep m1 lh l ∧ elems m1 = elems m.
Proof.
  intros Hi Hr. pose proof Hi as [(l' & Hr' & ?) Hfor Hls Hout Hav Hc]. destruct c; simpl.
  - split_and!; [by eapply store_var_done, implements_out| |by apply rep_vars|done].
    split; simpl; [|done..|by rewrite Hout, insert_insert_eq|done|done].
    exists l'. split; [by apply rep_vars|done].
  - split_and!; [done| |done|done]. split; simpl; eauto.
Qed.

(** The end of a search. *)
Lemma search_finish F L V m1 m2 lh out s l (c : bool) eq d0 (rm : bool) :
  implements F L V m1 lh out (Deque (q s) (dq_avail s) (dq_calls s) (if c then None else dq_out s)) →
  rep m1 lh l → l.*2 = q s → dom (elems m1) = list_to_set l.*1 ∪ dom F →
  (∀ a, a ∈ l.*1 → a ∉ dom F) →
  search_post m1 m2 lh l (if c then Some out else None) rm (take_first (λ x, eq d0 x.1) (q s)) →
  implements F L V m2 lh out (spec_search c eq d0 rm s).
Proof.
  intros Hi Hr Hq Hd HF Hp. unfold spec_search. pose proof Hi as [_ _ _ Hout Hav Hc]. simpl in *.
  destruct (take_first _ _) as [[x rest]|]; simpl in Hp; [|by subst].
  destruct Hp as (Hv & Hf & Hp).
  assert (vars m2 = <[out := if c then x.1 else dq_out s]> V) as Hv2.
  { rewrite Hv, Hout. destruct c; by rewrite ?insert_insert_eq. }
  destruct rm.
  - destruct Hp as (l' & a & Hl' & Ha & Hin & Hr' & Hd' & Ha' & Hc').
    eapply (implements_intro _ _ _ _ _ _ _ _ _ _ l'); eauto; simpl.
    + rewrite Hd', Hd. apply set_eq. intros b.
      rewrite elem_of_difference, !elem_of_union, !elem_of_list_to_set, elem_of_singleton, Hin.
      naive_solver.
    + intros b [Hb _]%Hin. auto.
    + congruence.
    + rewrite Hc', Hc. by destruct c.
  - destruct Hp as (Hr' & Hd' & Ha' & Hc').
    eapply (implements_intro _ _ _ _ _ _ _ _ _ _ l); eauto; simpl; congruence.
Qed.

Lemma exec_search F L V m lh out s c eq d0 rm :
  implements F L V m lh out s →
  let o := OpSearch c eq d0 rm in
  ∃ m', exec lh out o m = Done (ret_code (spec_exec o s)) m' ∧
    implements F L V m' lh out (spec_state o s).
Proof.
  intros Hi. pose proof Hi as [(l & Hr & Hq & Hdom & HF) _ _ _ _ _]. simpl.
  pose proof Hr as [Hs Hnd Hl]. unfold linked_list_search. rewrite bind_assoc. step load_list_done.
  destruct (last_snoc_inv l) as [->|(l0 & [b y] & El)]; [rewrite <-Hq; by exists m|].
  assert (∃ t, last_ptr None l = Some t) as [t Ht] by (rewrite El, last_ptr_app; simpl; eauto).
  assert (q s ≠ []) as Hne by (rewrite <-Hq, El, fmap_app; by destruct (l0.*2)).
  rewrite Ht. simpl. destruct (search_clear _ _ _ _ _ _ _ _ c Hi Hr) as (E1 & Hi1 & Hr1 & He).
  set (m1 := if c then _ else m) in *.
  rewrite bind_assoc, (bind_done _ _ _ _ _ E1), bind_assoc, bind_gets, bind_assoc.
  destruct (linked_list_search_loop_done (S (size (elems m1))) m1 lh [] l
    (if c then Some out else None) eq d0 rm) as (m2 & E2 & Hpost).
  { done. }
  { pose proof (dlseg_length _ _ _ _ Hnd Hl). rewrite He. lia. }
  { apply implements_out in Hi1. intros o. destruct c; intros ?; simplify_eq/=. eauto. }
  { constructor. }
  rewrite (bind_done _ _ _ _ _ E2). exists m2.
  split; [by destruct (q s)|]. destruct (q s) eqn:Eq; [done|]. rewrite <-Eq in *.
  eapply search_finish; [done..|by rewrite He|done|]. by rewrite <-Hq.
Qed.

(** One operation of the C code implements one operation of the contract. *)
Lemma exec_simulates F L V m lh out s o :
  implements F L V m lh out s →
  ∃ m', exec lh out o m = Done (ret_code (spec_exec o s)) m' ∧
    implements F L V m' lh out (spec_state o s).
Proof.
  intros Hi. destruct o as [d f| | | |c eq d0 rm].
  - by apply exec_add.
  - by apply exec_remove.
  - by apply exec_flush.
  - exists m. split; [|done]. destruct Hi as [(l & [Hs _ _] & Hq & _) _ _ _ _ _]. simpl.
    step load_list_done. rewrite <-Hq. by destruct l as [|[] ?].
  - by apply exec_search.
Qed.

Fixpoint exec_all (lh out : addr) (os : list op) : M mem (list Z) :=
  match os with
  | [] => mret []
  | o :: os' => r ← exec lh out o; rs ← exec_all lh out os'; mret (r :: rs)
  end.

Fixpoint spec_all (os : list op) (s : deque) : list Z * deque :=
  match os with
  | [] => ([], s)
  | o :: os' => let '(rs, s') := spec_all os' (spec_state o s) in
                (ret_code (spec_exec o s) :: rs, s')
  end.

Lemma exec_all_simulates F L V os m lh out s :
  implements F L V m lh out s →
  ∃ m', exec_all lh out os m = Done (spec_all os s).1 m' ∧
    implements F L V m' lh out (spec_all os s).2.
Proof.
  revert m s. induction os as [|o os IH]; intros m s Hi; simpl; [by exists m|].
  destruct (exec_simulates _ _ _ _ _ _ _ o Hi) as (m1 & E1 & Hi1).
  destruct (IH _ _ Hi1) as (m2 & E2 & Hi2).
  exists m2. rewrite (bind_done _ _ _ _ _ E1), (bind_done _ _ _ _ _ E2).
  by destruct (spec_all os (spec_state o s)).
Qed.

(** The allocations a list holds are conserved by the contract. *)
Lemma take_first_length {A} (f : A → bool) l x r :
  take_first f l = Some (x, r) → length l = S (length r).
Proof.
  revert x r. induction l as [|y l IH]; simpl; [done|]. intros x r.
  destruct (f y); [naive_solver|]. destruct (take_first f l) as [[z r']|]; [|done].
  intros [= -> <-]. simpl. f_equal. by eapply IH.
Qed.

Lemma spec_state_balance o s :
  length (q (spec_state o s)) + dq_avail (spec_state o s) = length (q s) + dq_avail s.
Proof.
  destruct o as [[d|] f| | | |c eq d0 rm]; simpl; try done.
  - destruct (dq_avail s) eqn:?; simpl; lia.
  - destruct (last_snoc_inv (q s)) as [E|(l & x & E)]; [rewrite E; simpl; by rewrite E|].
    rewrite E, last_snoc, removelast_last, length_app. simpl. lia.
  - unfold spec_search. destruct (q s) eqn:Eq; [by rewrite Eq|]. rewrite <-Eq.
    destruct (take_first _ (q s)) as [[x r]|] eqn:Et; [|done].
    apply take_first_length in Et. destruct rm; simpl; lia.
Qed.

Lemma spec_all_balance os s :
  length (q (spec_all os s).2) + dq_avail (spec_all os s).2 = length (q s) + dq_avail s.
Proof.
  revert s. induction os as [|o os IH]; intros s; simpl; [done|].
  specialize (IH (spec_state o s)). rewrite spec_state_balance in IH.
  by destruct (spec_all os (spec_state o s)).
Qed.

(** A client's whole use of a list: create it through [handle], run [os], destroy it. *)
Definition lifecycle (handle out : addr) (os : list op) : M mem (list Z) :=
  r1 ← linked_list_init (Some handle);
  p ← load_var handle;
  match p with
  | None => ub
  | Some lh =>
      rs ← exec_all lh out os;
      r2 ← linked_list_destroy (Some handle);
      mret (linked_list_err_code r1 :: rs ++ [linked_list_err_code r2])
  end.

(** * Properties *)

(** C1: every sequence of linked_list_add / remove / flush / empty / search calls
    on a well-formed list behaves exactly like the same sequence on an abstract
    deque (add at the head, remove at the tail, search and unlink the first match
    from the head): same return codes, same output variable, same dealloc calls,
    same malloc accounting; no NULL or dangling dereference and no double free ever
    happens, the loops terminate, and the elements, lists and variables of other
    owners are untouched. *)
Theorem linked_list_refines_deque F L V m lh out s os :
  implements F L V m lh out s →
  ∃ m', exec_all lh out os m = Done (spec_all os s).1 m' ∧
    implements F L V m' lh out (spec_all os s).2.
Proof. apply exec_all_simulates. Qed.

(** A list created by linked_list_init, used by any sequence of operations and
    destroyed by linked_list_destroy leaves the heap exactly as it was: no element
    and no list state leaks or is freed twice, whatever was still queued, and the
    handle is reset to NULL. *)
Theorem linked_list_lifecycle_no_leak m handle out os n v w :
  avail m = S n → handle ≠ out → vars m !! handle = Some v → vars m !! out = Some w →
  ∃ rs m', lifecycle handle out os m = Done rs m' ∧
    elems m' = elems m ∧ (∀ k, k ∈ dom (lists m) → lists m' !! k = lists m !! k) ∧
    dom (lists m') = dom (lists m) ∧ avail m' = avail m ∧ vars m' !! handle = Some None.
Proof.
  intros Hn Hho Hh Ho. unfold lifecycle.
  destruct (linked_list_init_done m handle v n Hn Hh) as (lh & E1 & Hlh).
  rewrite (bind_done _ _ _ _ _ E1). step load_var_done.
  set (m1 := Mem _ _ _ _ _).
  set (s := Deque [] n (calls m) w).
  assert (implements (elems m) (lists m) (vars m1) m1 lh out s) as Hi.
  { subst m1 s. split; simpl.
    - exists []. split_and!; [|done|set_solver|set_solver]. split; simpl; [by simplify_map_eq|constructor|done].
    - done.
    - intros k Hk. by rewrite lookup_insert_ne.
    - symmetry. apply insert_id. by rewrite lookup_insert_ne.
    - done.
    - done. }
  destruct (exec_all_simulates _ _ _ os _ _ _ _ Hi) as (m2 & E2 & Hi2).
  rewrite (bind_done _ _ _ _ _ E2). pose proof (spec_all_balance os s) as Hbal.
  destruct Hi2 as [(l & Hr & Hq & Hd & HF) Hfor Hls Hout Hav Hc].
  assert (vars m2 !! handle = Some (Some lh)) as Hv2.
  { rewrite Hout. subst m1. simpl. by simplify_map_eq. }
  destruct (linked_list_destroy_done m2 handle lh l Hr Hv2)
    as (m3 & E3 & Hv3 & Hl3 & Hl3' & Hd3 & He3 & Ha3 & Hc3).
  rewrite (bind_done _ _ _ _ _ E3). eexists _, m3. split; [done|].
  assert (∀ k, k ≠ lh → lists m3 !! k = lists m !! k) as Hlk.
  { intros k Hk. by rewrite Hl3', Hls by done. }
  assert (lists m3 !! lh = None) as Hln by (rewrite Hl3; apply lookup_delete_eq).
  split_and!.
  - apply map_eq. intros b. destruct (decide (b ∈ dom (elems m))) as [Hb|Hb].
    + rewrite He3; [by apply Hfor|intros ?; by eapply HF|rewrite Hd; set_solver].
    + apply not_elem_of_dom in Hb as Hb'. rewrite Hb'. apply not_elem_of_dom.
      rewrite Hd3, Hd. set_solver.
  - intros k Hk. apply Hlk. by intros ->.
  - apply set_eq. intros k. rewrite !elem_of_dom.
    destruct (decide (k = lh)) as [->|Hk]; [|by rewrite Hlk].
    apply not_elem_of_dom in Hlh. rewrite Hln, Hlh. done.
  - apply (f_equal length) in Hq. rewrite length_fmap in Hq. subst s. simpl in Hbal. lia.
  - rewrite Hv3. apply lookup_insert_eq.
Qed.

(** ** Concrete runs *)
Definition wit_mem : mem := Mem ∅ {[1%positive := ListState None None]} {[2%positive := None]} 2 [].
Definition wit_ops : list op :=
  [OpAdd (Some 10%positive) (Some 20%positive); OpAdd (Some 11%positive) None;
   OpAdd (Some 12%positive) None; OpSearch true (λ a b, bool_decide (a = b)) (Some 10%positive) true;
   OpRemove; OpEmpty; OpRemove].

Lemma linked_list_refines_deque_witness :
  ∃ m', exec_all 1%positive 2%positive wit_ops wit_mem = Done [0; 0; -1; 0; 0; 1; -4]%Z m' ∧
    implements ∅ ∅ {[2%positive := None]} m' 1%positive 2%positive (Deque [] 2 [] (Some 11%positive)).
Proof.
  apply (linked_list_refines_deque ∅ ∅ {[2%positive := None]} wit_mem 1%positive 2%positive
    (Deque [] 2 [] None) wit_ops).
  split; simpl; try done.
  - exists []. split; [by split; [|constructor|]|]. split_and!; [done|done|set_solver].
  - intros k Hk. by rewrite lookup_singleton_ne.
Defined.

Lemma linked_list_lifecycle_no_leak_witness :
  ∃ rs m', lifecycle 3%positive 2%positive wit_ops
      (Mem ∅ ∅ {[2%positive := None; 3%positive := None]} 4 []) = Done rs m' ∧
    elems m' = ∅ ∧ (∀ k : addr, k ∈ dom (∅ : gmap addr list_state) →
                    lists m' !! k = (∅ : gmap addr list_state) !! k) ∧
    dom (lists m') = dom (∅ : gmap addr list_state) ∧ avail m' = 4 ∧ vars m' !! 3%positive = Some None.
Proof.
  apply (linked_list_lifecycle_no_leak (Mem ∅ ∅ {[2%positive := None; 3%positive := None]} 4 [])
    3%positive 2%positive wit_ops 3 None None); [done|done|by vm_compute|by vm_compute].
Defined.
