(* ===== verification/MsgQ.v ===== *)
(** * gps/utils/msg_q.c : the blocking message queue on top of the linked list.

    A [msg_q] adds a mutex, a condition variable and the [unblocked] flag to a
    linked list.  The mutex is a flag: locking it twice or unlocking it when it
    is free is [UB], so every theorem that a call is [Done] says the lock is
    taken and released on every path.  The condition variable counts the threads
    blocked in [pthread_cond_wait] and those already woken that have not run yet.
    [msg_q_rcv] returns [None] when the calling thread blocks in
    [pthread_cond_wait]; the same thread goes on with [msg_q_rcv_resume] when it
    is woken.  A schedule of the threads is the list of these atomic steps. *)
From S2P Require Import Prelude LinkedList.

(** ** Data *)
Inductive msq_q_err_type :=
  | eMSG_Q_SUCCESS
  | eMSG_Q_FAILURE_GENERAL
  | eMSG_Q_INVALID_PARAMETER
  | eMSG_Q_INVALID_HANDLE
  | eMSG_Q_UNAVAILABLE_RESOURCE
  | eMSG_Q_INSUFFICIENT_BUFFER.

Definition msq_q_err_code (e : msq_q_err_type) : Z :=
  match e with
  | eMSG_Q_SUCCESS => 0
  | eMSG_Q_FAILURE_GENERAL => -1
  | eMSG_Q_INVALID_PARAMETER => -2
  | eMSG_Q_INVALID_HANDLE => -3
  | eMSG_Q_UNAVAILABLE_RESOURCE => -4
  | eMSG_Q_INSUFFICIENT_BUFFER => -5
  end.

(** [msg_list] is the address of the [void*] field of the struct. *)
Record msg_q := MsgQ {
  msg_list : addr;
  waiting : nat;
  woken : nat;
  list_mutex : bool;
  unblocked : bool;
}.

Record qmem := QMem { ll : mem; queues : gmap addr msg_q }.

Definition set_ll (f : mem → mem) (m : qmem) : qmem := QMem (f (ll m)) (queues m).
Definition set_queues (f : gmap addr msg_q → gmap addr msg_q) (m : qmem) : qmem :=
  QMem (ll m) (f (queues m)).

(** A call into linked_list.c. *)
Definition lift {A} (c : M mem A) : M qmem A := λ m,
  match c (ll m) with
  | Done a l => Done a (QMem l (queues m))
  | UB => UB
  | NoFuel => NoFuel
  end.

Definition load_q (a : addr) : M qmem msg_q := deref (λ m, queues m !! a).
Definition upd_q (a : addr) (f : msg_q → msg_q) : M qmem unit :=
  q ← load_q a; modify (set_queues <[a := f q]>).

(** Reading the field [p_msg_q->msg_list]. *)
Definition load_msg_list (a : addr) : M qmem ptr :=
  q ← load_q a; lift (load_var (msg_list q)).

Definition set_mutex (b : bool) (q : msg_q) : msg_q :=
  MsgQ (msg_list q) (waiting q) (woken q) b (unblocked q).
Definition set_unblocked (b : bool) (q : msg_q) : msg_q :=
  MsgQ (msg_list q) (waiting q) (woken q) (list_mutex q) b.
Definition set_threads (w k : nat) (q : msg_q) : msg_q :=
  MsgQ (msg_list q) w k (list_mutex q) (unblocked q).

(** ** The pthread calls *)
Definition pthread_mutex_lock (a : addr) : M qmem unit :=
  q ← load_q a; if list_mutex q then ub else upd_q a (set_mutex true).
Definition pthread_mutex_unlock (a : addr) : M qmem unit :=
  q ← load_q a; if list_mutex q then upd_q a (set_mutex false) else ub.

(** A signal wakes one of the blocked threads, a broadcast all of them. *)
Definition pthread_cond_signal (a : addr) : M qmem unit :=
  upd_q a (λ q, match waiting q with
                | O => q
                | S w => set_threads w (S (woken q)) q
                end).
Definition pthread_cond_broadcast (a : addr) : M qmem unit :=
  upd_q a (λ q, set_threads 0 (waiting q + woken q) q).

(** The blocking half of [pthread_cond_wait]: release the mutex and sleep. *)
Definition pthread_cond_wait (a : addr) : M qmem unit :=
  _ ← pthread_mutex_unlock a; upd_q a (λ q, set_threads (S (waiting q)) (woken q) q).

(** ** The functions of msg_q.c *)

Definition convert_linked_list_err_type (e : linked_list_err_type) : msq_q_err_type :=
  match e with
  | eLINKED_LIST_SUCCESS => eMSG_Q_SUCCESS
  | eLINKED_LIST_INVALID_PARAMETER => eMSG_Q_INVALID_PARAMETER
  | eLINKED_LIST_INVALID_HANDLE => eMSG_Q_INVALID_HANDLE
  | eLINKED_LIST_UNAVAILABLE_RESOURCE => eMSG_Q_UNAVAILABLE_RESOURCE
  | eLINKED_LIST_INSUFFICIENT_BUFFER => eMSG_Q_INSUFFICIENT_BUFFER
  | _ => eMSG_Q_FAILURE_GENERAL
  end.

(** calloc of a [msg_q]: the struct and its [msg_list] field, zeroed. *)
Definition calloc_msg_q : M qmem ptr := λ m,
  match avail (ll m) with
  | O => Done None m
  | S n =>
      let a := fresh (dom (queues m)) in
      let cell := fresh (dom (vars (ll m))) in
      Done (Some a)
        (QMem (set_avail (λ _, n) (set_vars <[cell := None]> (ll m)))
              (<[a := MsgQ cell 0 0 false false]> (queues m)))
  end.

Definition free_msg_q (a : addr) : M qmem unit :=
  q ← load_q a;
  modify (λ m, QMem (set_avail S (set_vars (delete (msg_list q)) (ll m))) (delete a (queues m))).

(** [mutex_ok] and [cond_ok] are the results of the two pthread initialisers. *)
Definition msg_q_init (mutex_ok cond_ok : bool) (msg_q_data : ptr) : M qmem msq_q_err_type :=
  match msg_q_data with
  | None => mret eMSG_Q_INVALID_PARAMETER
  | Some out =>
      tmp_msg_q ← calloc_msg_q;
      match tmp_msg_q with
      | None => mret eMSG_Q_FAILURE_GENERAL
      | Some t =>
          q ← load_q t;
          r ← lift (linked_list_init (Some (msg_list q)));
          if negb (linked_list_err_code r =? 0)%Z then
            _ ← free_msg_q t; mret eMSG_Q_FAILURE_GENERAL
          else if negb mutex_ok then
            _ ← lift (linked_list_destroy (Some (msg_list q)));
            _ ← free_msg_q t; mret eMSG_Q_FAILURE_GENERAL
          else if negb cond_ok then
            _ ← lift (linked_list_destroy (Some (msg_list q)));
            _ ← free_msg_q t; mret eMSG_Q_FAILURE_GENERAL
          else
            _ ← upd_q t (set_unblocked false);
            _ ← lift (store_var out (Some t));
            mret eMSG_Q_SUCCESS
      end
  end.

Definition msg_q_destroy (msg_q_data : ptr) : M qmem msq_q_err_type :=
  match msg_q_data with
  | None => mret eMSG_Q_INVALID_HANDLE
  | Some out =>
      p ← lift (load_var out);
      match p with
      | None => ub
      | Some p_msg_q =>
          q ← load_q p_msg_q;
          _ ← lift (linked_list_destroy (Some (msg_list q)));
          _ ← upd_q p_msg_q (set_unblocked false);
          _ ← free_msg_q p_msg_q;
          _ ← lift (store_var out None);
          mret eMSG_Q_SUCCESS
      end
  end.

Definition msg_q_snd (msg_q_data msg_obj dealloc : ptr) : M qmem Z :=
  match msg_q_data, msg_obj with
  | None, _ => mret (msq_q_err_code eMSG_Q_INVALID_HANDLE)
  | _, None => mret (msq_q_err_code eMSG_Q_INVALID_PARAMETER)
  | Some p_msg_q, Some _ =>
      _ ← pthread_mutex_lock p_msg_q;
      q ← load_q p_msg_q;
      if unblocked q then
        _ ← pthread_mutex_unlock p_msg_q;
        mret (msq_q_err_code eMSG_Q_UNAVAILABLE_RESOURCE)
      else
        list ← load_msg_list p_msg_q;
        r ← lift (linked_list_add list msg_obj dealloc);
        let rv := convert_linked_list_err_type r in
        _ ← pthread_cond_signal p_msg_q;
        _ ← pthread_mutex_unlock p_msg_q;
        mret (msq_q_err_code rv)
  end.

(** The while loop of [msg_q_rcv], entered with the mutex held: either the
    thread blocks ([None]) or it takes a message and returns. *)
Definition msg_q_rcv_loop (p_msg_q out : addr) : M qmem (option Z) :=
  list ← load_msg_list p_msg_q;
  e ← lift (linked_list_empty list);
  q ← load_q p_msg_q;
  if negb (e =? 0)%Z && negb (unblocked q) then
    _ ← pthread_cond_wait p_msg_q; mret None
  else
    list ← load_msg_list p_msg_q;
    r ← lift (linked_list_remove list (Some out));
    let rv := convert_linked_list_err_type r in
    _ ← pthread_mutex_unlock p_msg_q;
    mret (Some (msq_q_err_code rv)).

Definition msg_q_rcv (msg_q_data msg_obj : ptr) : M qmem (option Z) :=
  match msg_q_data, msg_obj with
  | None, _ => mret (Some (msq_q_err_code eMSG_Q_INVALID_HANDLE))
  | _, None => mret (Some (msq_q_err_code eMSG_Q_INVALID_PARAMETER))
  | Some p_msg_q, Some out =>
      _ ← pthread_mutex_lock p_msg_q;
      q ← load_q p_msg_q;
      if unblocked q then
        _ ← pthread_mutex_unlock p_msg_q;
        mret (Some (msq_q_err_code eMSG_Q_UNAVAILABLE_RESOURCE))
      else msg_q_rcv_loop p_msg_q out
  end.

(** A thread woken inside [pthread_cond_wait] takes the mutex and re-tests. *)
Definition msg_q_rcv_resume (p_msg_q out : addr) : M qmem (option Z) :=
  _ ← pthread_mutex_lock p_msg_q;
  q ← load_q p_msg_q;
  _ ← upd_q p_msg_q (λ q, set_threads (waiting q) (pred (woken q)) q);
  msg_q_rcv_loop p_msg_q out.

Definition msg_q_rmv (msg_q_data msg_obj : ptr) : M qmem Z :=
  match msg_q_data, msg_obj with
  | None, _ => mret (msq_q_err_code eMSG_Q_INVALID_HANDLE)
  | _, None => mret (msq_q_err_code eMSG_Q_INVALID_PARAMETER)
  | Some p_msg_q, Some out =>
      _ ← pthread_mutex_lock p_msg_q;
      q ← load_q p_msg_q;
      if unblocked q then
        _ ← pthread_mutex_unlock p_msg_q;
        mret (msq_q_err_code eMSG_Q_UNAVAILABLE_RESOURCE)
      else
        list ← load_msg_list p_msg_q;
        e ← lift (linked_list_empty list);
        if negb (e =? 0)%Z then
          _ ← pthread_mutex_unlock p_msg_q;
          mret (linked_list_err_code eLINKED_LIST_EMPTY)
        else
          list ← load_msg_list p_msg_q;
          r ← lift (linked_list_remove list (Some out));
          let rv := convert_linked_list_err_type r in
          _ ← pthread_mutex_unlock p_msg_q;
          mret (msq_q_err_code rv)
  end.

Definition msg_q_flush (msg_q_data : ptr) : M qmem Z :=
  match msg_q_data with
  | None => mret (msq_q_err_code eMSG_Q_INVALID_HANDLE)
  | Some p_msg_q =>
      _ ← pthread_mutex_lock p_msg_q;
      list ← load_msg_list p_msg_q;
      r ← lift (linked_list_flush list);
      let rv := convert_linked_list_err_type r in
      _ ← pthread_mutex_unlock p_msg_q;
      mret (msq_q_err_code rv)
  end.

Definition msg_q_unblock (msg_q_data : ptr) : M qmem Z :=
  match msg_q_data with
  | None => mret (msq_q_err_code eMSG_Q_INVALID_HANDLE)
  | Some p_msg_q =>
      _ ← pthread_mutex_lock p_msg_q;
      q ← load_q p_msg_q;
      if unblocked q then
        _ ← pthread_mutex_unlock p_msg_q;
        mret (msq_q_err_code eMSG_Q_UNAVAILABLE_RESOURCE)
      else
        _ ← upd_q p_msg_q (set_unblocked true);
        _ ← pthread_cond_broadcast p_msg_q;
        _ ← pthread_mutex_unlock p_msg_q;
        mret (msq_q_err_code eMSG_Q_SUCCESS)
  end.

(** [q] is the local variable of the function. *)
Definition msg_q_init2 (mutex_ok cond_ok : bool) (q : addr) : M qmem ptr :=
  _ ← lift (store_var q None);
  r ← msg_q_init mutex_ok cond_ok (Some q);
  _ ← (if negb (msq_q_err_code r =? 0)%Z then lift (store_var q None) else mret tt);
  lift (load_var q).

(** ** Threads and schedules *)
Inductive action :=
  | Snd (msg dealloc : ptr)   (** a thread calls [msg_q_snd] *)
  | Rcv                       (** a thread calls [msg_q_rcv] *)
  | Resume                    (** a woken receiver runs again *)
  | Spurious                  (** a blocked receiver is woken without a signal *)
  | Rmv                       (** a thread calls [msg_q_rmv] *)
  | Flush
  | Unblock.

(** One atomic step; the result is the returned code ([None] when the thread is
    blocked or the step is not enabled) and the output variable afterwards. *)
Definition act (qa out : addr) (a : action) : M qmem (option Z * ptr) :=
  r ← match a with
      | Snd d f => r ← msg_q_snd (Some qa) d f; mret (Some r)
      | Rcv => msg_q_rcv (Some qa) (Some out)
      | Resume => q ← load_q qa;
                  match woken q with
                  | O => mret None
                  | S _ => msg_q_rcv_resume qa out
                  end
      | Spurious => _ ← upd_q qa (λ q, match waiting q with
                                       | O => q
                                       | S w => set_threads w (S (woken q)) q
                                       end); mret None
      | Rmv => r ← msg_q_rmv (Some qa) (Some out); mret (Some r)
      | Flush => r ← msg_q_flush (Some qa); mret (Some r)
      | Unblock => r ← msg_q_unblock (Some qa); mret (Some r)
      end;
  v ← lift (load_var out);
  mret (r, v).

Fixpoint run_schedule (qa out : addr) (acts : list action) : M qmem (list (option Z * ptr)) :=
  match acts with
  | [] => mret []
  | a :: acts' => r ← act qa out a; rs ← run_schedule qa out acts'; mret (r :: rs)
  end.

(** ** The contract: a channel *)
Record chan := Chan {
  c_dq : deque;
  c_waiting : nat;
  c_woken : nat;
  c_unblocked : bool;
}.

Definition c_signal (c : chan) : chan :=
  match c_waiting c with
  | O => c
  | S w => Chan (c_dq c) w (S (c_woken c)) (c_unblocked c)
  end.

Definition c_set_dq (d : deque) (c : chan) : chan := Chan d (c_waiting c) (c_woken c) (c_unblocked c).

Definition c_empty (c : chan) : bool := match q (c_dq c) with [] => true | _ => false end.

(** Taking the oldest message; [-4] when there is none. *)
Definition c_take (c : chan) : Z * chan :=
  (if c_empty c then -4 else 0, c_set_dq (spec_state OpRemove (c_dq c)) c)%Z.

Definition c_rcv (c : chan) : option Z * chan :=
  if c_empty c && negb (c_unblocked c)
  then (None, Chan (c_dq c) (S (c_waiting c)) (c_woken c) (c_unblocked c))
  else let '(r, c') := c_take c in (Some r, c').

Definition chan_step (a : action) (c : chan) : option Z * chan :=
  match a with
  | Snd None _ => (Some (-2)%Z, c)
  | Snd (Some d) f =>
      if c_unblocked c then (Some (-4)%Z, c)
      else (Some (match dq_avail (c_dq c) with O => -1 | S _ => 0 end)%Z,
            c_signal (c_set_dq (spec_state (OpAdd (Some d) f) (c_dq c)) c))
  | Rcv => if c_unblocked c then (Some (-4)%Z, c) else c_rcv c
  | Resume => match c_woken c with
              | O => (None, c)
              | S k => c_rcv (Chan (c_dq c) (c_waiting c) k (c_unblocked c))
              end
  | Spurious => (None, c_signal c)
  | Rmv => if c_unblocked c then (Some (-4)%Z, c)
           else if c_empty c then (Some (-6)%Z, c)
           else let '(r, c') := c_take c in (Some r, c')
  | Flush => (Some 0%Z, c_set_dq (spec_state OpFlush (c_dq c)) c)
  | Unblock => if c_unblocked c then (Some (-4)%Z, c)
               else (Some 0%Z, Chan (c_dq c) 0 (c_waiting c + c_woken c) true)
  end.

Fixpoint chan_run (acts : list action) (c : chan) : list (option Z * ptr) * chan :=
  match acts with
  | [] => ([], c)
  | a :: acts' =>
      let '(r, c') := chan_step a c in
      let '(rs, c'') := chan_run acts' c' in ((r, dq_out (c_dq c')) :: rs, c'')
  end.

(** The queue [qa] of memory [m] implements the channel [c]; its mutex is free. *)
Record qimpl (F : gmap addr list_element) (L : gmap addr list_state) (V : gmap addr ptr)
    (Q : gmap addr msg_q) (cell lh : addr) (m : qmem) (qa out : addr) (c : chan) : Prop := QImpl {
  qi_queue : queues m = <[qa := MsgQ cell (c_waiting c) (c_woken c) false (c_unblocked c)]> Q;
  qi_list : implements F L V (ll m) lh out (c_dq c);
  qi_cell : V !! cell = Some (Some lh);
  qi_out : cell ≠ out;
}.

Section simulation.
Context (F : gmap addr list_element) (L : gmap addr list_state) (V : gmap addr ptr)
  (Q : gmap addr msg_q) (cell lh qa out : addr).

#[local] Abbreviation qi := (λ m c, qimpl F L V Q cell lh m qa out c).

(** A queue whose mutex is held, as inside the functions. *)
Definition locked (m : qmem) (c : chan) : Prop :=
  queues m = <[qa := MsgQ cell (c_waiting c) (c_woken c) true (c_unblocked c)]> Q ∧
  implements F L V (ll m) lh out (c_dq c) ∧ V !! cell = Some (Some lh) ∧ cell ≠ out.

Lemma load_q_done m q : queues m !! qa = Some q → load_q qa m = Done q m.
Proof. apply (deref_done (λ m, queues m !! qa)). Qed.

Lemma upd_q_done m q f :
  queues m !! qa = Some q → upd_q qa f m = Done tt (set_queues <[qa := f q]> m).
Proof. intros H. unfold upd_q. by rewrite (bind_done _ _ _ _ _ (load_q_done _ _ H)). Qed.

Lemma lock_done m c : qi m c → ∃ m', pthread_mutex_lock qa m = Done tt m' ∧ locked m' c.
Proof.
  intros [Hq Hl Hc Ho]. unfold pthread_mutex_lock.
  erewrite bind_done; [|apply load_q_done; by rewrite Hq, lookup_insert_eq]. simpl.
  erewrite upd_q_done by by rewrite Hq, lookup_insert_eq. eexists. split; [done|].
  split_and!; simpl; try done. by rewrite Hq, insert_insert_eq.
Qed.

Lemma unlock_done m c : locked m c → ∃ m', pthread_mutex_unlock qa m = Done tt m' ∧ qi m' c.
Proof.
  intros (Hq & Hl & Hc & Ho). unfold pthread_mutex_unlock.
  erewrite bind_done; [|apply load_q_done; by rewrite Hq, lookup_insert_eq]. simpl.
  erewrite upd_q_done by by rewrite Hq, lookup_insert_eq. eexists. split; [done|].
  split; simpl; try done. by rewrite Hq, insert_insert_eq.
Qed.

Lemma locked_load m c :
  locked m c →
  load_q qa m = Done (MsgQ cell (c_waiting c) (c_woken c) true (c_unblocked c)) m ∧
  load_msg_list qa m = Done (Some lh) m.
Proof.
  intros (Hq & Hl & Hc & Ho).
  assert (load_q qa m = Done (MsgQ cell (c_waiting c) (c_woken c) true (c_unblocked c)) m) as E
    by (apply load_q_done; by rewrite Hq, lookup_insert_eq).
  split; [done|]. unfold load_msg_list. rewrite (bind_done _ _ _ _ _ E). unfold lift. simpl.
  rewrite (load_var_done _ (Some lh)); [by destruct m|].
  destruct Hl as [_ _ _ -> _ _]. by rewrite lookup_insert_ne.
Qed.

(** Changing the thread counts or the flag under the lock. *)
Lemma locked_upd m c f c' :
  locked m c → c_dq c' = c_dq c →
  f (MsgQ cell (c_waiting c) (c_woken c) true (c_unblocked c)) =
    MsgQ cell (c_waiting c') (c_woken c') true (c_unblocked c') →
  ∃ m', upd_q qa f m = Done tt m' ∧ locked m' c'.
Proof.
  intros (Hq & Hl & Hc & Ho) Hd Hf.
  erewrite upd_q_done by by rewrite Hq, lookup_insert_eq. eexists. split; [done|].
  split_and!; simpl; try done; [|by rewrite Hd]. by rewrite Hq, insert_insert_eq, Hf.
Qed.

#[local] Instance err_code_inj : Inj (=) (=) linked_list_err_code.
Proof. intros [] []; done. Qed.

(** A list call under the lock acts on the deque of the channel. *)
Lemma locked_list (call : M mem linked_list_err_type) o e m c :
  exec lh out o = (r ← call; mret (linked_list_err_code r)) →
  spec_exec o (c_dq c) = inl e →
  locked m c →
  ∃ m', lift call m = Done e m' ∧ locked m' (c_set_dq (spec_state o (c_dq c)) c).
Proof.
  intros Ho He (Hq & Hl & Hc & Hoc).
  destruct (exec_simulates _ _ _ _ _ _ _ o Hl) as (l' & E & Hl').
  rewrite Ho, He in E. apply bind_inv in E as (r & l1 & E1 & E2). injection E2 as E2 <-.
  apply (inj linked_list_err_code) in E2 as ->.
  unfold lift. rewrite E1. eexists. split; [done|]. by split_and!.
Qed.

Lemma locked_empty m c :
  locked m c → lift (linked_list_empty (Some lh)) m = Done (if c_empty c then 1 else 0)%Z m.
Proof.
  intros (Hq & Hl & Hc & Hoc). destruct (exec_simulates _ _ _ _ _ _ _ OpEmpty Hl) as (l' & E & _).
  simpl in E. unfold lift. assert (l' = ll m) as ->.
  { apply bind_inv in E as (a & s & Ea & E2). injection E2 as _ <-.
    unfold load_list, deref in Ea. destruct (lists (ll m) !! lh); naive_solver. }
  unfold linked_list_empty. rewrite E. unfold c_empty. destruct m, (q (c_dq c)); done.
Qed.

Lemma remove_code c :
  spec_exec OpRemove (c_dq c) =
  inl (if c_empty c then eLINKED_LIST_UNAVAILABLE_RESOURCE else eLINKED_LIST_SUCCESS).
Proof. unfold c_empty. simpl. by destruct (q (c_dq c)). Qed.

(** The tail of [msg_q_rcv] and [msg_q_rmv]: remove, convert, unlock. *)
Lemma take_done {B} m c (k : Z → M qmem B) :
  locked m c →
  ∃ m', (list ← load_msg_list qa;
         r ← lift (linked_list_remove list (Some out));
         _ ← pthread_mutex_unlock qa;
         k (msq_q_err_code (convert_linked_list_err_type r))) m = k (c_take c).1 m' ∧
    qi m' (c_take c).2.
Proof.
  intros Hk. destruct (locked_load _ _ Hk) as [_ E1]. rewrite (bind_done _ _ _ _ _ E1).
  destruct (locked_list (linked_list_remove (Some lh) (Some out)) OpRemove _ _ _ eq_refl (remove_code c) Hk)
    as (m1 & E2 & Hk1).
  rewrite (bind_done _ _ _ _ _ E2). destruct (unlock_done _ _ Hk1) as (m2 & E3 & Hi).
  rewrite (bind_done _ _ _ _ _ E3). exists m2. split; [|done].
  unfold c_take. simpl. by destruct (c_empty c).
Qed.

Lemma rcv_loop_done m c :
  locked m c → ∃ m', msg_q_rcv_loop qa out m = Done (c_rcv c).1 m' ∧ qi m' (c_rcv c).2.
Proof.
  intros Hk. unfold msg_q_rcv_loop. destruct (locked_load _ _ Hk) as [E1 E2].
  rewrite (bind_done _ _ _ _ _ E2), (bind_done _ _ _ _ _ (locked_empty _ _ Hk)), (bind_done _ _ _ _ _ E1).
  unfold c_rcv. replace (negb _ && negb _) with (c_empty c && negb (c_unblocked c)) by by destruct (c_empty c).
  destruct (c_empty c && negb (c_unblocked c)) eqn:Hb.
  - unfold pthread_cond_wait. rewrite bind_assoc.
    destruct (unlock_done _ _ Hk) as (m1 & E3 & [Hq Hl Hc Ho]). rewrite (bind_done _ _ _ _ _ E3).
    erewrite bind_done; [|apply upd_q_done; by rewrite Hq, lookup_insert_eq].
    eexists. split; [done|]. split; simpl; try done. by rewrite Hq, insert_insert_eq.
  - destruct (take_done m c (λ z, mret (Some z)) Hk) as (m' & E & Hi).
    exists m'. split; [|by destruct (c_take c)]. rewrite E. by destruct (c_take c).
Qed.

(** The guard at the head of every function: lock, and give up if unblocked. *)
Lemma guard_done {B} m c (r : B) (k : M qmem B) :
  qi m c →
  ∃ m1, locked m1 c ∧
    (_ ← pthread_mutex_lock qa; q ← load_q qa;
     if unblocked q then _ ← pthread_mutex_unlock qa; mret r else k) m =
    (if c_unblocked c then _ ← pthread_mutex_unlock qa; mret r else k) m1.
Proof.
  intros Hi. destruct (lock_done _ _ Hi) as (m1 & E & Hk). exists m1. split; [done|].
  destruct (locked_load _ _ Hk) as [E1 _].
  rewrite (bind_done _ _ _ _ _ E), (bind_done _ _ _ _ _ E1). simpl. by destruct (c_unblocked c).
Qed.

Lemma give_up_done {B} m c (r : B) :
  locked m c → ∃ m', (_ ← pthread_mutex_unlock qa; mret r) m = Done r m' ∧ qi m' c.
Proof.
  intros Hk. destruct (unlock_done _ _ Hk) as (m1 & E & Hi). exists m1.
  by rewrite (bind_done _ _ _ _ _ E).
Qed.

Lemma bind_some {A} (call : M qmem A) m r m' :
  call m = Done r m' → (r ← call; mret (Some r)) m = Done (Some r) m'.
Proof. intros H. by rewrite (bind_done _ _ _ _ _ H). Qed.

Lemma c_set_dq_id c : c_set_dq (c_dq c) c = c.
Proof. by destruct c. Qed.

Lemma snd_done m c d f :
  qi m c →
  ∃ m', (r ← msg_q_snd (Some qa) d f; mret (Some r)) m = Done (chan_step (Snd d f) c).1 m' ∧
    qi m' (chan_step (Snd d f) c).2.
Proof.
  intros Hi. destruct d as [d|]; [|by exists m].
  destruct (guard_done m c (msq_q_err_code eMSG_Q_UNAVAILABLE_RESOURCE)
    (list ← load_msg_list qa; r ← lift (linked_list_add list (Some d) f);
     _ ← pthread_cond_signal qa; _ ← pthread_mutex_unlock qa;
     mret (msq_q_err_code (convert_linked_list_err_type r))) Hi) as (m1 & Hk & E).
  unfold chan_step. destruct (c_unblocked c) eqn:Hu.
  - destruct (give_up_done _ _ (msq_q_err_code eMSG_Q_UNAVAILABLE_RESOURCE) Hk) as (m2 & E2 & Hi2).
    exists m2. split; [|done]. apply bind_some. etrans; [exact E|exact E2].
  - destruct (locked_load _ _ Hk) as [_ E1].
    destruct (locked_list (linked_list_add (Some lh) (Some d) f) (OpAdd (Some d) f) _ _ _ eq_refl eq_refl Hk)
      as (m2 & E2 & Hk2).
    edestruct (locked_upd m2 _ (λ q, match waiting q with O => q | S w => set_threads w (S (woken q)) q end)
      (c_signal (c_set_dq (spec_state (OpAdd (Some d) f) (c_dq c)) c)) Hk2) as (m3 & E3 & Hk3).
    { by destruct c as [? [] ? ?]. }
    { by destruct c as [? [] ? ?]. }
    destruct (unlock_done _ _ Hk3) as (m4 & E4 & Hi4). exists m4. split; [|done].
    erewrite bind_some; [|etrans; [exact E|]; rewrite (bind_done _ _ _ _ _ E1), (bind_done _ _ _ _ _ E2);
      unfold pthread_cond_signal; rewrite (bind_done _ _ _ _ _ E3), (bind_done _ _ _ _ _ E4); reflexivity].
    by destruct (dq_avail (c_dq c)).
Qed.

Lemma rcv_done m c :
  qi m c →
  ∃ m', msg_q_rcv (Some qa) (Some out) m = Done (chan_step Rcv c).1 m' ∧ qi m' (chan_step Rcv c).2.
Proof.
  intros Hi. destruct (guard_done m c (Some (msq_q_err_code eMSG_Q_UNAVAILABLE_RESOURCE))
    (msg_q_rcv_loop qa out) Hi) as (m1 & Hk & E).
  assert (∃ m', msg_q_rcv (Some qa) (Some out) m = Done
    (if c_unblocked c then (Some (-4)%Z, c) else c_rcv c).1 m' ∧
    qi m' (if c_unblocked c then (Some (-4)%Z, c) else c_rcv c).2) as H; [|exact H].
  destruct (c_unblocked c).
  - destruct (give_up_done _ _ (Some (msq_q_err_code eMSG_Q_UNAVAILABLE_RESOURCE)) Hk) as (m2 & E2 & Hi2).
    exists m2. split; [|done]. etrans; [exact E|exact E2].
  - destruct (rcv_loop_done _ _ Hk) as (m2 & E2 & Hi2).
    exists m2. split; [|done]. etrans; [exact E|exact E2].
Qed.

Lemma resume_done m c k :
  qi m c → c_woken c = S k →
  ∃ m', msg_q_rcv_resume qa out m = Done (chan_step Resume c).1 m' ∧ qi m' (chan_step Resume c).2.
Proof.
  intros Hi Hw. unfold msg_q_rcv_resume, chan_step. rewrite Hw.
  destruct (lock_done _ _ Hi) as (m1 & E1 & Hk1). destruct (locked_load _ _ Hk1) as [E2 _].
  rewrite (bind_done _ _ _ _ _ E1), (bind_done _ _ _ _ _ E2).
  destruct (locked_upd m1 c (λ q, set_threads (waiting q) (pred (woken q)) q)
    (Chan (c_dq c) (c_waiting c) k (c_unblocked c)) Hk1) as (m3 & E3 & Hk3).
  { done. }
  { simpl. by rewrite Hw. }
  rewrite (bind_done _ _ _ _ _ E3). by apply rcv_loop_done.
Qed.

Lemma rmv_done m c :
  qi m c →
  ∃ m', (r ← msg_q_rmv (Some qa) (Some out); mret (Some r)) m = Done (chan_step Rmv c).1 m' ∧
    qi m' (chan_step Rmv c).2.
Proof.
  intros Hi. edestruct (guard_done m c (msq_q_err_code eMSG_Q_UNAVAILABLE_RESOURCE))
    as (m1 & Hk & E); [exact Hi|].
  unfold chan_step. destruct (c_unblocked c).
  - destruct (give_up_done _ _ (msq_q_err_code eMSG_Q_UNAVAILABLE_RESOURCE) Hk) as (m2 & E2 & Hi2).
    exists m2. split; [|done]. apply bind_some. etrans; [exact E|exact E2].
  - destruct (locked_load _ _ Hk) as [_ E1].
    destruct (c_empty c) eqn:He.
    + destruct (give_up_done _ _ (linked_list_err_code eLINKED_LIST_EMPTY) Hk) as (m2 & E2 & Hi2).
      exists m2. split; [|done]. apply (bind_some _ _ (-6)%Z). etrans; [exact E|].
      rewrite (bind_done _ _ _ _ _ E1), (bind_done _ _ _ _ _ (locked_empty _ _ Hk)), He. exact E2.
    + destruct (take_done m1 c (λ z, mret z) Hk) as (m2 & E2 & Hi2).
      exists m2. split; [|by destruct (c_take c)].
      rewrite (bind_some _ _ (c_take c).1 m2); [by destruct (c_take c)|]. etrans; [exact E|].
      rewrite (bind_done _ _ _ _ _ E1), (bind_done _ _ _ _ _ (locked_empty _ _ Hk)), He. exact E2.
Qed.

Lemma flush_done m c :
  qi m c →
  ∃ m', (r ← msg_q_flush (Some qa); mret (Some r)) m = Done (chan_step Flush c).1 m' ∧
    qi m' (chan_step Flush c).2.
Proof.
  intros Hi. destruct (lock_done _ _ Hi) as (m1 & E1 & Hk). destruct (locked_load _ _ Hk) as [_ E2].
  destruct (locked_list (linked_list_flush (Some lh)) OpFlush _ _ _ eq_refl eq_refl Hk) as (m2 & E3 & Hk2).
  destruct (unlock_done _ _ Hk2) as (m3 & E4 & Hi3). exists m3. split; [|done].
  apply (bind_some _ _ 0%Z). unfold msg_q_flush.
  by rewrite (bind_done _ _ _ _ _ E1), (bind_done _ _ _ _ _ E2), (bind_done _ _ _ _ _ E3), (bind_done _ _ _ _ _ E4).
Qed.

Lemma unblock_done m c :
  qi m c →
  ∃ m', (r ← msg_q_unblock (Some qa); mret (Some r)) m = Done (chan_step Unblock c).1 m' ∧
    qi m' (chan_step Unblock c).2.
Proof.
  intros Hi. edestruct (guard_done m c (msq_q_err_code eMSG_Q_UNAVAILABLE_RESOURCE))
    as (m1 & Hk & E); [exact Hi|].
  unfold chan_step. destruct (c_unblocked c) eqn:Hu.
  - destruct (give_up_done _ _ (msq_q_err_code eMSG_Q_UNAVAILABLE_RESOURCE) Hk) as (m2 & E2 & Hi2).
    exists m2. split; [|done]. apply bind_some. etrans; [exact E|exact E2].
  - destruct (locked_upd m1 c (set_unblocked true) (Chan (c_dq c) (c_waiting c) (c_woken c) true) Hk)
      as (m2 & E2 & Hk2); [done|done|].
    destruct (locked_upd m2 _ (λ q, set_threads 0 (waiting q + woken q) q)
      (Chan (c_dq c) 0 (c_waiting c + c_woken c) true) Hk2) as (m3 & E3 & Hk3); [done|done|].
    destruct (unlock_done _ _ Hk3) as (m4 & E4 & Hi4). exists m4. split; [|done].
    apply (bind_some _ _ 0%Z). etrans; [exact E|]. unfold pthread_cond_broadcast.
    by rewrite (bind_done _ _ _ _ _ E2), (bind_done _ _ _ _ _ E3), (bind_done _ _ _ _ _ E4).
Qed.

(** Every atomic step of the code is the step of the channel. *)
Lemma act_simulates a m c :
  qi m c →
  ∃ m', act qa out a m = Done ((chan_step a c).1, dq_out (c_dq (chan_step a c).2)) m' ∧
    qi m' (chan_step a c).2.
Proof.
  intros Hi.
  assert (∀ (f : M qmem (option Z)) m', f m = Done (chan_step a c).1 m' → qi m' (chan_step a c).2 →
    (r ← f; v ← lift (load_var out); mret (r, v)) m =
    Done ((chan_step a c).1, dq_out (c_dq (chan_step a c).2)) m') as Hread.
  { intros f m' Ef Hm'. rewrite (bind_done _ _ _ _ _ Ef). destruct Hm' as [_ Hl' _ _].
    apply implements_out, load_var_done in Hl'. unfold lift, mbind, M_bind. rewrite Hl'.
    by destruct m'. }
  unfold act. destruct a as [d f| | | | | |].
  - destruct (snd_done m c d f Hi) as (m' & E & Hm'). eauto.
  - destruct (rcv_done m c Hi) as (m' & E & Hm'). eauto.
  - pose proof Hi as [Hq _ _ _]. destruct (c_woken c) as [|k] eqn:Hw.
    + assert (chan_step Resume c = (None, c)) as Es by (unfold chan_step; by rewrite Hw).
      exists m. rewrite Es in *. split; [|done]. apply Hread; [|done].
      erewrite bind_done; [|apply load_q_done; by rewrite Hq, lookup_insert_eq]. simpl. by rewrite ?Hw.
    + destruct (resume_done m c k Hi Hw) as (m' & E & Hm'). exists m'. split; [|done].
      apply Hread; [|done]. erewrite bind_done; [|apply load_q_done; by rewrite Hq, lookup_insert_eq].
      exact E.
  - pose proof Hi as [Hq Hl Hc Ho]. eexists. split; [apply Hread|].
    + erewrite bind_done; [|apply upd_q_done; by rewrite Hq, lookup_insert_eq]. reflexivity.
    + split; simpl; try done; destruct c as [? [] ? ?]; simpl in *; try done; by rewrite Hq, insert_insert_eq.
    + split; simpl; try done; destruct c as [? [] ? ?]; simpl in *; try done; by rewrite Hq, insert_insert_eq.
  - destruct (rmv_done m c Hi) as (m' & E & Hm'). eauto.
  - destruct (flush_done m c Hi) as (m' & E & Hm'). eauto.
  - destruct (unblock_done m c Hi) as (m' & E & Hm'). eauto.
Qed.

Lemma run_schedule_simulates acts m c :
  qi m c →
  ∃ m', run_schedule qa out acts m = Done (chan_run acts c).1 m' ∧ qi m' (chan_run acts c).2.
Proof.
  revert m c. induction acts as [|a acts IH]; intros m c Hi; simpl; [by exists m|].
  destruct (act_simulates a _ _ Hi) as (m1 & E1 & Hi1).
  destruct (IH _ _ Hi1) as (m2 & E2 & Hi2).
  exists m2. rewrite (bind_done _ _ _ _ _ E1), (bind_done _ _ _ _ _ E2).
  destruct (chan_step a c) as [r c1]. simpl in *. by destruct (chan_run acts c1).
Qed.

End simulation.

(** ** The channel is a FIFO *)

(** A reference monitor for a log of calls and results: [pending] are the accepted
    messages not yet handed out, oldest first.  It rejects a log in which a receive
    returns anything but the oldest pending message. *)
Fixpoint fifo_monitor (log : list (action * (option Z * ptr))) (pending : list ptr) : option (list ptr) :=
  match log with
  | [] => Some pending
  | (Snd d _, (Some 0%Z, _)) :: log' => fifo_monitor log' (pending ++ [d])
  | (Rcv, (Some 0%Z, v)) :: log' | (Resume, (Some 0%Z, v)) :: log' | (Rmv, (Some 0%Z, v)) :: log' =>
      match pending with
      | x :: pending' => if bool_decide (x = v) then fifo_monitor log' pending' else None
      | [] => None
      end
  | (Flush, (Some 0%Z, _)) :: log' => fifo_monitor log' []
  | _ :: log' => fifo_monitor log' pending
  end.

Definition pending_of (c : chan) : list ptr := reverse (q (c_dq c)).*1.

Lemma pending_take c :
  c_empty c = false →
  pending_of c = dq_out (c_dq (c_take c).2) :: pending_of (c_take c).2.
Proof.
  unfold pending_of, c_take, c_empty. simpl.
  destruct (last_snoc_inv (q (c_dq c))) as [->|(l & x & E)]; [done|]. intros _.
  rewrite E, last_snoc, removelast_last. simpl. by rewrite fmap_app, reverse_app.
Qed.

(** What one step does to the pending messages. *)
Lemma step_pending a c log :
  fifo_monitor ((a, ((chan_step a c).1, dq_out (c_dq (chan_step a c).2))) :: log) (pending_of c) =
  fifo_monitor log (pending_of (chan_step a c).2).
Proof.
  assert (Htake : ∀ a c, a = Rcv ∨ a = Resume ∨ a = Rmv → c_empty c = false →
    fifo_monitor ((a, (Some (c_take c).1, dq_out (c_dq (c_take c).2))) :: log) (pending_of c) =
    fifo_monitor log (pending_of (c_take c).2)).
  { clear. intros a c Ha He. rewrite (pending_take c He).
    assert ((c_take c).1 = 0%Z) as -> by (unfold c_take; by rewrite He).
    generalize ((c_take c).2). intros c'.
    destruct Ha as [-> |[-> | ->]]; cbn [fifo_monitor]; by rewrite bool_decide_eq_true_2. }
  assert (Hrcv : ∀ a c, a = Rcv ∨ a = Resume →
    fifo_monitor ((a, ((c_rcv c).1, dq_out (c_dq (c_rcv c).2))) :: log) (pending_of c) =
    fifo_monitor log (pending_of (c_rcv c).2)).
  { clear -Htake. intros a c Ha. unfold c_rcv. destruct (c_empty c) eqn:He; cbn [andb].
    - destruct (c_unblocked c); [|by destruct Ha as [-> | ->]].
      unfold c_take, c_empty in *. simpl. destruct (q (c_dq c)) eqn:Eq; [|done].
      destruct Ha as [-> | ->]; simpl; unfold pending_of; simpl; by rewrite Eq.
    - specialize (Htake a c ltac:(tauto) He). by destruct (c_take c). }
  destruct a as [[d|] f| | | | | |]; unfold chan_step; try done.
  - destruct (c_unblocked c); [done|].
    assert (∀ c', pending_of (c_signal c') = pending_of c') as Hs by (by intros [? [] ? ?]).
    cbn [fst snd]. destruct (dq_avail (c_dq c)) eqn:Hav; cbn [fifo_monitor]; rewrite Hs.
    { unfold pending_of. simpl. by rewrite Hav. }
    unfold pending_of. simpl. rewrite Hav. simpl. by rewrite reverse_cons.
  - destruct (c_unblocked c); [done|]. apply Hrcv; auto.
  - destruct (c_woken c) as [|k]; [done|]. apply (Hrcv Resume (Chan _ _ _ _)). auto.
  - by destruct c as [? [] ? ?].
  - destruct (c_unblocked c); [done|]. destruct (c_empty c) eqn:He; [done|].
    specialize (Htake Rmv c ltac:(tauto) He). by destruct (c_take c).
  - by destruct (c_unblocked c).
Qed.

Lemma run_pending acts c :
  fifo_monitor (zip acts (chan_run acts c).1) (pending_of c) = Some (pending_of (chan_run acts c).2).
Proof.
  revert c. induction acts as [|a acts IH]; intros c; [done|]. cbn [chan_run].
  pose proof (step_pending a c (zip acts (chan_run acts (chan_step a c).2).1)) as Hs.
  specialize (IH (chan_step a c).2). destruct (chan_step a c) as [r c']. cbn [fst snd] in *.
  destruct (chan_run acts c') as [rs c'']. cbn [fst snd zip_with] in *. by rewrite Hs.
Qed.

(** ** No wakeup is lost *)
Definition wake_inv (c : chan) : Prop :=
  (c_waiting c = 0 ∨ length (q (c_dq c)) ≤ c_woken c) ∧ (c_unblocked c = true → c_waiting c = 0).

Lemma take_length c : length (q (c_dq (c_take c).2)) = pred (length (q (c_dq c))).
Proof.
  unfold c_take. simpl. destruct (last_snoc_inv (q (c_dq c))) as [E|(l & x & E)]; rewrite E.
  - simpl. by rewrite E.
  - rewrite last_snoc. simpl. rewrite removelast_last, length_app. simpl. lia.
Qed.

Lemma c_empty_length c : c_empty c = true ↔ length (q (c_dq c)) = 0.
Proof. unfold c_empty. by destruct (q (c_dq c)). Qed.

Lemma rcv_wake_inv c k :
  wake_inv (Chan (c_dq c) (c_waiting c) (S k) (c_unblocked c)) →
  c_woken c = k → wake_inv (c_rcv c).2.
Proof.
  intros [H1 H2] Hk. simpl in *. unfold c_rcv. pose proof (take_length c) as Ht.
  destruct (c_empty c && negb (c_unblocked c)) eqn:Hb.
  - apply andb_true_iff in Hb as [He%c_empty_length Hu]. unfold wake_inv. simpl.
    split; [lia|]. by destruct (c_unblocked c).
  - assert (wake_inv (c_take c).2) as Hw; [|by destruct (c_take c)].
    split; [|done]. rewrite Ht. simpl. lia.
Qed.

Lemma step_wake_inv a c : wake_inv c → wake_inv (chan_step a c).2.
Proof.
  intros Hi. pose proof Hi as [H1 H2]. destruct a as [[d|] f| | | | | |]; unfold chan_step; try done.
  - destruct (c_unblocked c) eqn:Hu; [done|]. unfold wake_inv, c_signal. simpl.
    destruct (c_waiting c) eqn:Hw, (dq_avail (c_dq c)) eqn:Hav; simpl; rewrite ?Hu, ?Hw; (split; [lia|done]).
  - destruct (c_unblocked c) eqn:Hu; [done|].
    eapply (rcv_wake_inv _ (c_woken c)); [|done].
    split; simpl in *; [lia|by rewrite Hu].
  - destruct (c_woken c) as [|k] eqn:Hw; [done|].
    apply (rcv_wake_inv (Chan _ _ k _) k); [|done]. split; simpl; rewrite ?Hw in *; auto.
  - unfold wake_inv, c_signal. destruct (c_waiting c) eqn:Hw; simpl; [by rewrite Hw|].
    split; [lia|]. intros Hu. by specialize (H2 Hu).
  - destruct (c_unblocked c) eqn:Hu; [done|]. destruct (c_empty c); [done|].
    assert (wake_inv (c_take c).2) as Hw; [|by destruct (c_take c)].
    split; [rewrite take_length; simpl; lia|]. simpl. by rewrite Hu.
  - unfold wake_inv. simpl. split; [lia|done].
  - destruct (c_unblocked c) eqn:Hu; [done|]. unfold wake_inv. simpl. split; [by left|done].
Qed.

Lemma run_wake_inv acts c : wake_inv c → wake_inv (chan_run acts c).2.
Proof.
  revert c. induction acts as [|a acts IH]; intros c Hi; [done|]. cbn [chan_run].
  pose proof (step_wake_inv a c Hi) as Hs. destruct (chan_step a c) as [r c']. cbn [snd] in Hs.
  specialize (IH c' Hs). by destruct (chan_run acts c').
Qed.

(** ** After an unblock *)
Definition refused (e : action * (option Z * ptr)) : Prop :=
  match e with
  | (Snd (Some _) _, (r, _)) | (Rcv, (r, _)) | (Rmv, (r, _)) | (Unblock, (r, _)) => r = Some (-4)%Z
  | _ => True
  end.

Definition is_resume (a : action) : Prop := match a with Resume => True | _ => False end.
#[export] Instance is_resume_dec a : Decision (is_resume a).
Proof. destruct a; apply _. Defined.

Lemma step_unblocked a c :
  c_unblocked c = true → c_waiting c = 0 →
  refused (a, ((chan_step a c).1, dq_out (c_dq (chan_step a c).2))) ∧
  c_unblocked (chan_step a c).2 = true ∧ c_waiting (chan_step a c).2 = 0 ∧
  c_woken (chan_step a c).2 = c_woken c - (if decide (is_resume a) then 1 else 0) ∧
  length (q (c_dq (chan_step a c).2)) ≤ length (q (c_dq c)).
Proof.
  intros Hu Hw. destruct a as [[d|] f| | | | | |]; simpl; rewrite ?Hu, ?Hw; simpl;
    try (split_and!; done || lia).
  - destruct (c_woken c) as [|k] eqn:Hk; simpl; [split_and!; done || lia|].
    unfold c_rcv. simpl. rewrite ?Hu, andb_false_r.
    pose proof (take_length (Chan (c_dq c) (c_waiting c) k true)) as Ht. simpl in Ht.
    unfold c_take. simpl. rewrite Ht. split_and!; try done; lia.
  - unfold c_signal. rewrite Hw. split_and!; done || lia.
Qed.

Lemma run_unblocked acts c :
  c_unblocked c = true → c_waiting c = 0 →
  Forall refused (zip acts (chan_run acts c).1) ∧
  c_waiting (chan_run acts c).2 = 0 ∧ c_unblocked (chan_run acts c).2 = true ∧
  c_woken (chan_run acts c).2 = c_woken c - length (filter is_resume acts) ∧
  length (q (c_dq (chan_run acts c).2)) ≤ length (q (c_dq c)).
Proof.
  revert c. induction acts as [|a acts IH]; intros c Hu Hw.
  - simpl. split_and!; try done; lia.
  - destruct (step_unblocked a c Hu Hw) as (Hr & Hu' & Hw' & Hk & Hl). cbn [chan_run].
    destruct (chan_step a c) as [r c']. cbn [fst snd] in *.
    destruct (IH c' Hu' Hw') as (Hr' & Hw'' & Hu'' & Hk' & Hl').
    destruct (chan_run acts c') as [rs c'']. cbn [fst snd zip_with] in *.
    split_and!; try done; [by constructor| |lia].
    rewrite Hk', Hk. rewrite filter_cons. case_decide; simpl; lia.
Qed.

(** ** msg_q_init and msg_q_destroy *)
Definition same_heap (m m' : qmem) : Prop :=
  elems (ll m') = elems (ll m) ∧ (∀ k, lists (ll m') !! k = lists (ll m) !! k) ∧
  vars (ll m') = vars (ll m) ∧ avail (ll m') = avail (ll m) ∧ queues m' = queues m.

Lemma calloc_msg_q_done m n :
  avail (ll m) = S n →
  ∃ a cell, calloc_msg_q m = Done (Some a)
      (QMem (Mem (elems (ll m)) (lists (ll m)) (<[cell := None]> (vars (ll m))) n (calls (ll m)))
            (<[a := MsgQ cell 0 0 false false]> (queues m))) ∧
    queues m !! a = None ∧ vars (ll m) !! cell = None.
Proof.
  intros Hn. unfold calloc_msg_q. rewrite Hn. eexists _, _. split; [reflexivity|].
  split; apply not_elem_of_dom, is_fresh.
Qed.

Lemma free_msg_q_done m a q :
  queues m !! a = Some q →
  free_msg_q a m = Done tt (QMem (set_avail S (set_vars (delete (msg_list q)) (ll m))) (delete a (queues m))).
Proof. intros H. unfold free_msg_q. by rewrite (bind_done _ _ _ _ _ (load_q_done a m q H)). Qed.

(** A list just initialised is destroyed again on the error paths. *)
Lemma destroy_fresh l cell lh :
  lists l !! lh = Some (ListState None None) → vars l !! cell = Some (Some lh) →
  linked_list_destroy (Some cell) l =
  Done eLINKED_LIST_SUCCESS
    (Mem (elems l) (delete lh (lists l)) (<[cell := None]> (vars l)) (S (avail l)) (calls l)).
Proof.
  intros Hl Hv. unfold linked_list_destroy. step load_var_done.
  assert (linked_list_flush (Some lh) l =
    Done eLINKED_LIST_SUCCESS (set_lists <[lh := ListState None None]> l)) as Hf.
  { unfold linked_list_flush. rewrite bind_gets. simpl linked_list_flush_loop.
    rewrite bind_assoc. step load_list_done. unfold mbind at 1, M_bind at 1. simpl.
    by step upd_list_done. }
  rewrite (bind_done _ _ _ _ _ Hf). step load_var_done. unfold free_list. rewrite bind_assoc.
  step load_list_done. rewrite bind_modify. step store_var_done.
  unfold mret, M_ret, set_vars, set_avail, set_lists. simpl. by rewrite delete_insert_eq.
Qed.

Definition chan_empty (n : nat) (calls : list (addr * ptr)) (v : ptr) : chan :=
  Chan (Deque [] n calls v) 0 0 false.

(** The error paths of [msg_q_init] undo the list and the struct. *)
Lemma init_undo m n2 a cell lh hv w :
  avail (ll m) = S (S n2) → queues m !! a = None → vars (ll m) !! cell = None →
  lists (ll m) !! lh = None → vars (ll m) !! hv = Some w →
  let m2 := QMem (Mem (elems (ll m)) (<[lh := ListState None None]> (lists (ll m)))
                   (<[cell := Some lh]> (<[cell := None]> (vars (ll m)))) n2 (calls (ll m)))
                 (<[a := MsgQ cell 0 0 false false]> (queues m)) in
  ∃ m', (_ ← lift (linked_list_destroy (Some cell)); _ ← free_msg_q a; mret eMSG_Q_FAILURE_GENERAL) m2 =
          Done eMSG_Q_FAILURE_GENERAL m' ∧ same_heap m m'.
Proof.
  intros Hn Ha Hc Hl Hv m2. unfold lift at 1, mbind at 1, M_bind at 1.
  rewrite (destroy_fresh (ll m2) cell lh); [|by simpl; rewrite lookup_insert_eq..].
  erewrite bind_done; [|apply free_msg_q_done; simpl; by rewrite lookup_insert_eq].
  eexists. split; [done|]. unfold same_heap. simpl. split_and!.
  - done.
  - intros k. rewrite delete_insert_id; done.
  - by rewrite !delete_insert_eq, delete_id.
  - by rewrite Hn.
  - by rewrite delete_insert_id.
Qed.

Lemma msg_q_init_list m a cell n hv w :
  avail (ll m) = S n → vars (ll m) !! hv = Some w → vars (ll m) !! cell = None →
  let m1 := QMem (Mem (elems (ll m)) (lists (ll m)) (<[cell := None]> (vars (ll m))) n (calls (ll m)))
                 (<[a := MsgQ cell 0 0 false false]> (queues m)) in
  match n with
  | O => lift (linked_list_init (Some cell)) m1 = Done eLINKED_LIST_FAILURE_GENERAL m1
  | S n2 => ∃ lh, lists (ll m) !! lh = None ∧
      lift (linked_list_init (Some cell)) m1 = Done eLINKED_LIST_SUCCESS
        (QMem (Mem (elems (ll m)) (<[lh := ListState None None]> (lists (ll m)))
                   (<[cell := Some lh]> (<[cell := None]> (vars (ll m)))) n2 (calls (ll m)))
              (<[a := MsgQ cell 0 0 false false]> (queues m)))
  end.
Proof.
  intros Hn Hv Hc m1. destruct n as [|n2]; [done|].
  destruct (linked_list_init_done (ll m1) cell None n2) as (lh & E & Hlh); [done|by simplify_map_eq|].
  exists lh. split; [by apply not_elem_of_dom|]. unfold lift. by rewrite E.
Qed.

Lemma msg_q_init_done mutex_ok cond_ok m hv out w :
  vars (ll m) !! hv = Some w → is_Some (vars (ll m) !! out) → hv ≠ out →
  ∃ r m', msg_q_init mutex_ok cond_ok (Some hv) m = Done r m' ∧
    if bool_decide (2 ≤ avail (ll m)) && mutex_ok && cond_ok then
      r = eMSG_Q_SUCCESS ∧
      ∃ qa cell lh c, vars (ll m') !! hv = Some (Some qa) ∧ queues m !! qa = None ∧
        c_dq c = Deque [] (avail (ll m) - 2) (calls (ll m)) (dq_out (c_dq c)) ∧
        c_waiting c = 0 ∧ c_woken c = 0 ∧ c_unblocked c = false ∧
        qimpl (elems (ll m)) (lists (ll m)) (vars (ll m')) (queues m) cell lh m' qa out c
    else r = eMSG_Q_FAILURE_GENERAL ∧ same_heap m m'.
Proof.
  intros Hv [v Ho] Hne. unfold msg_q_init.
  destruct (avail (ll m)) as [|n] eqn:Hn.
  { unfold calloc_msg_q, mbind, M_bind. rewrite Hn. eexists _, m. split; [done|]. simpl. by split_and!. }
  destruct (calloc_msg_q_done m n Hn) as (a & cell & E & Ha & Hc). rewrite (bind_done _ _ _ _ _ E).
  erewrite bind_done; [|apply load_q_done; simpl; by rewrite lookup_insert_eq]. cbn [msg_list].
  pose proof (msg_q_init_list m a cell n hv w Hn Hv Hc) as Hi. destruct n as [|n2].
  { simpl in Hi. rewrite (bind_done _ _ _ _ _ Hi). cbn [linked_list_err_code Z.eqb negb].
    erewrite bind_done; [|apply free_msg_q_done; simpl; by rewrite lookup_insert_eq].
    eexists _, _. split; [done|]. simpl. split; [done|]. unfold same_heap. simpl.
    by rewrite Hn, !delete_insert_id. }
  destruct Hi as (lh & Hl & Ei). rewrite (bind_done _ _ _ _ _ Ei). cbn [linked_list_err_code Z.eqb negb].
  pose proof (init_undo m n2 a cell lh hv w Hn Ha Hc Hl Hv) as (mu & Eu & Hu).
  rewrite bool_decide_eq_true_2 by lia. cbn [andb].
  destruct mutex_ok; cbn [negb]; [|by exists eMSG_Q_FAILURE_GENERAL, mu].
  destruct cond_ok; cbn [negb]; [|by exists eMSG_Q_FAILURE_GENERAL, mu].
  assert (cell ≠ hv ∧ cell ≠ out) as [Hch Hco] by (split; intros ->; congruence).
  erewrite bind_done; [|apply upd_q_done; simpl; by rewrite lookup_insert_eq].
  erewrite bind_done; [|unfold lift; erewrite store_var_done by (simpl; by simplify_map_eq); reflexivity].
  eexists _, _. split; [done|]. split; [done|].
  exists a, cell, lh, (chan_empty n2 (calls (ll m)) v). simpl.
  split_and!; try done; [by simplify_map_eq|f_equal; lia|].
  split; simpl; [by rewrite insert_insert_eq| |by simplify_map_eq|done].
  split; simpl; try done.
  - exists []. split_and!; [by split; [apply lookup_insert_eq|constructor|]|done|set_solver|set_solver].
  - intros k Hk. by rewrite lookup_insert_ne.
  - symmetry. apply insert_id. by simplify_map_eq.
Qed.

(** * Properties *)

(** C2: the message queue is a linearizable FIFO. For every interleaving of calls of
    msg_q_snd, msg_q_rcv, msg_q_rmv, msg_q_flush, msg_q_unblock with the wakeups of
    blocked receivers (spurious ones included), every call terminates with the mutex
    released and no invalid memory access, and the log passes a FIFO monitor: each
    receive returns exactly the oldest accepted and not yet delivered or flushed
    message, so accepted messages are delivered once, in order, or flushed. *)
Theorem msg_q_fifo F L V Q cell lh m qa out c acts :
  qimpl F L V Q cell lh m qa out c →
  ∃ rs m' c', run_schedule qa out acts m = Done rs m' ∧ qimpl F L V Q cell lh m' qa out c' ∧
    fifo_monitor (zip acts rs) (pending_of c) = Some (pending_of c').
Proof.
  intros Hi. destruct (run_schedule_simulates F L V Q cell lh qa out acts m c Hi) as (m' & E & Hi').
  eexists _, m', _. split; [exact E|]. split; [exact Hi'|]. apply run_pending.
Qed.

(** C37: no wakeup is lost. From a queue with no blocked receiver, after any schedule,
    if messages are queued then either no receiver is blocked in pthread_cond_wait
    or at least as many receivers have been woken as there are messages; and once
    the queue is unblocked no receiver is blocked. *)
Theorem msg_q_no_lost_wakeup F L V Q cell lh m qa out c acts :
  qimpl F L V Q cell lh m qa out c → c_waiting c = 0 →
  ∃ rs m' c', run_schedule qa out acts m = Done rs m' ∧ qimpl F L V Q cell lh m' qa out c' ∧
    (c_waiting c' = 0 ∨ length (q (c_dq c')) ≤ c_woken c') ∧
    (c_unblocked c' = true → c_waiting c' = 0).
Proof.
  intros Hi Hw. destruct (run_schedule_simulates F L V Q cell lh qa out acts m c Hi) as (m' & E & Hi').
  eexists _, m', _. split; [exact E|]. split; [exact Hi'|]. apply run_wake_inv. split; auto.
Qed.

(** Msg_q_unblock is final and releases every receiver. After it, in any
    schedule, sends, receives, removals and further unblocks are refused with
    eMSG_Q_UNAVAILABLE_RESOURCE, the queue never grows, no thread blocks again, and
    every resume step takes one previously blocked receiver out of the queue. *)
Theorem msg_q_unblock_releases F L V Q cell lh m qa out c acts :
  qimpl F L V Q cell lh m qa out c → c_unblocked c = false →
  ∃ v rs m' c', run_schedule qa out (Unblock :: acts) m = Done ((Some 0%Z, v) :: rs) m' ∧
    qimpl F L V Q cell lh m' qa out c' ∧
    Forall refused (zip acts rs) ∧ c_waiting c' = 0 ∧
    c_woken c' = c_waiting c + c_woken c - length (filter is_resume acts) ∧
    length (q (c_dq c')) ≤ length (q (c_dq c)).
Proof.
  intros Hi Hu. destruct (run_schedule_simulates F L V Q cell lh qa out (Unblock :: acts) m c Hi) as (m' & E & Hi').
  cbn [chan_run chan_step] in *. rewrite Hu in *.
  set (c1 := Chan (c_dq c) 0 (c_waiting c + c_woken c) true) in *.
  destruct (run_unblocked acts c1 eq_refl eq_refl) as (H1 & H2 & H3 & H4 & H5).
  destruct (chan_run acts c1) as [rs c']. cbn [fst snd] in *.
  eexists _, rs, m', c'. by split_and!.
Qed.

(** Msg_q_init succeeds exactly when two allocations and both pthread
    initialisers succeed, and then the handle designates an empty, not unblocked
    queue; on every error path it frees what it allocated: the heap, the lists, the
    variables and the allocation budget are those before the call. *)
Theorem msg_q_init_all_paths mutex_ok cond_ok m hv out w :
  vars (ll m) !! hv = Some w → is_Some (vars (ll m) !! out) → hv ≠ out →
  ∃ r m', msg_q_init mutex_ok cond_ok (Some hv) m = Done r m' ∧
    if bool_decide (2 ≤ avail (ll m)) && mutex_ok && cond_ok then
      r = eMSG_Q_SUCCESS ∧
      ∃ qa cell lh c, vars (ll m') !! hv = Some (Some qa) ∧ queues m !! qa = None ∧
        c_dq c = Deque [] (avail (ll m) - 2) (calls (ll m)) (dq_out (c_dq c)) ∧
        c_waiting c = 0 ∧ c_woken c = 0 ∧ c_unblocked c = false ∧
        qimpl (elems (ll m)) (lists (ll m)) (vars (ll m')) (queues m) cell lh m' qa out c
    else r = eMSG_Q_FAILURE_GENERAL ∧ same_heap m m'.
Proof. apply msg_q_init_done. Qed.

(** ** Concrete runs *)
Definition wit_vars : gmap addr ptr := {[2%positive := None; 3%positive := Some 1%positive]}.
Definition wit_qmem (w : nat) : qmem :=
  QMem (Mem ∅ {[1%positive := ListState None None]} wit_vars 4 [])
       {[5%positive := MsgQ 3%positive w 0 false false]}.
Definition wit_chan (w : nat) : chan := Chan (Deque [] 4 [] None) w 0 false.
Definition wit_acts : list action :=
  [Rcv; Snd (Some 10%positive) None; Snd (Some 11%positive) None; Rmv; Resume; Rcv; Unblock; Resume; Rcv].

Lemma wit_qimpl w :
  qimpl ∅ ∅ wit_vars ∅ 3%positive 1%positive (wit_qmem w) 5%positive 2%positive (wit_chan w).
Proof.
  split; simpl; [done| |by vm_compute|done]. split; simpl; try done.
  - exists []. split; [by split; [|constructor|]|]. split_and!; [done|done|set_solver].
  - intros k Hk. by rewrite lookup_singleton_ne.
Qed.

Lemma msg_q_fifo_witness :
  ∃ rs m' c', run_schedule 5%positive 2%positive wit_acts (wit_qmem 0) = Done rs m' ∧
    qimpl ∅ ∅ wit_vars ∅ 3%positive 1%positive m' 5%positive 2%positive c' ∧
    fifo_monitor (zip wit_acts rs) (pending_of (wit_chan 0)) = Some (pending_of c').
Proof. apply (msg_q_fifo _ _ _ _ _ _ _ _ _ _ wit_acts (wit_qimpl 0)). Defined.

Lemma msg_q_no_lost_wakeup_witness :
  ∃ rs m' c', run_schedule 5%positive 2%positive wit_acts (wit_qmem 0) = Done rs m' ∧
    qimpl ∅ ∅ wit_vars ∅ 3%positive 1%positive m' 5%positive 2%positive c' ∧
    (c_waiting c' = 0 ∨ length (q (c_dq c')) ≤ c_woken c') ∧
    (c_unblocked c' = true → c_waiting c' = 0).
Proof. apply (msg_q_no_lost_wakeup _ _ _ _ _ _ _ _ _ _ wit_acts (wit_qimpl 0)). reflexivity. Defined.

Lemma msg_q_unblock_releases_witness :
  ∃ v rs m' c', run_schedule 5%positive 2%positive (Unblock :: [Resume; Rcv; Resume]) (wit_qmem 2)
      = Done ((Some 0%Z, v) :: rs) m' ∧
    qimpl ∅ ∅ wit_vars ∅ 3%positive 1%positive m' 5%positive 2%positive c' ∧
    Forall refused (zip [Resume; Rcv; Resume] rs) ∧ c_waiting c' = 0 ∧
    c_woken c' = 2 + 0 - length (filter is_resume [Resume; Rcv; Resume]) ∧
    length (q (c_dq c')) ≤ 0.
Proof. apply (msg_q_unblock_releases _ _ _ _ _ _ _ _ _ _ [Resume; Rcv; Resume] (wit_qimpl 2)). reflexivity. Defined.

Lemma msg_q_init_all_paths_witness :
  ∃ r m', msg_q_init true false (Some 2%positive) (wit_qmem 0) = Done r m' ∧
    r = eMSG_Q_FAILURE_GENERAL ∧ same_heap (wit_qmem 0) m'.
Proof.
  apply (msg_q_init_all_paths true false (wit_qmem 0) 2%positive 3%positive None);
    [by vm_compute|by vm_compute; eauto|done].
Defined.
