(* ===== verification/LocHeap.v ===== *)
(** * gps/utils/LocHeap.cpp : the heap of LocRankable objects.

    A [LocHeapNode*] is a tree, [Null] being the NULL pointer; the nodes are
    owned by the heap, so links are never shared.  A [LocRankable&] is an element
    of [D], whose equality is the equality of addresses and whose virtual method
    [ranks] is the class [LocRankable]. *)
From S2P Require Import Prelude.
From Stdlib Require Import Sorting.Sorted.

(** ** The interface of the ranked objects *)
Class LocRankable (D : Type) := ranks : D → D → Z.

Definition outRanks {D} `{LocRankable D} (x y : D) : bool := (0 <? ranks x y)%Z.

(** What the heap needs of an implementation of [ranks], on the objects [P]. *)
Class RankOrder {D} `{LocRankable D} (P : D → Prop) := {
  outRanks_asym x y : P x → P y → outRanks x y = true → outRanks y x = false;
  outRanks_negtrans x y z : P x → P y → P z →
    outRanks x y = false → outRanks y z = false → outRanks x z = false;
}.

Inductive LocHeapNode (D : Type) :=
  | Null
  | Node (mSize : Z) (mLeft mRight : LocHeapNode D) (mData : D).
Arguments Null {D}.
Arguments Node {D} mSize mLeft mRight mData.

Section LocHeap.
Context {D : Type} `{LocRankable D, EqDecision D}.

Definition newLocHeapNode (d : D) : LocHeapNode D := Node 1 Null Null d.

Definition isNull (t : LocHeapNode D) : bool := match t with Null => true | _ => false end.
Definition getSize (t : LocHeapNode D) : Z := match t with Null => 0 | Node sz _ _ _ => sz end.

(** [LocHeapNode::outRanks] between two subtrees that are not NULL. *)
Definition nodeOutRanks (t u : LocHeapNode D) : bool :=
  match t, u with
  | Node _ _ _ x, Node _ _ _ y => outRanks x y
  | _, _ => false
  end.

(** [node] is a detached leaf with data [d]; a swap exchanges data only. *)
Fixpoint pushNode (t : LocHeapNode D) (d : D) : LocHeapNode D :=
  match t with
  | Null => Null
  | Node sz l r x =>
      let '(x', d') := if outRanks d x then (d, x) else (x, d) in
      if isNull l then Node (sz + 1) (newLocHeapNode d') r x'
      else if isNull r then Node (sz + 1) l (newLocHeapNode d') x'
      else if (getSize l <=? getSize r)%Z then Node (sz + 1) (pushNode l d') r x'
      else Node (sz + 1) l (pushNode r d') x'
  end.

(** [popSwapped top d] is [LocHeapNode::pop(top)] when the data of [top] has just
    been exchanged for [d]: it returns the data of the node popped out at leaf
    level, and [top] as updated through its reference. *)
Fixpoint popSwapped (top : LocHeapNode D) (d : D) : option D * LocHeapNode D :=
  match top with
  | Null => (None, Null)
  | Node sz l r _ =>
      match l, r with
      | Null, Null => (Some d, Null)
      | Null, Node _ _ _ y =>
          let '(p, r') := popSwapped r d in (p, Node (sz - 1) l r' y)
      | Node _ _ _ y, Null =>
          let '(p, l') := popSwapped l d in (p, Node (sz - 1) l' r y)
      | Node _ _ _ y, Node _ _ _ z =>
          if outRanks y z then
            let '(p, l') := popSwapped l d in (p, Node (sz - 1) l' r y)
          else
            let '(p, r') := popSwapped r d in (p, Node (sz - 1) l r' z)
      end
  end.

Definition popNode (top : LocHeapNode D) : option D * LocHeapNode D :=
  match top with
  | Null => (None, Null)
  | Node _ _ _ x => popSwapped top x
  end.

Fixpoint removeNode (top : LocHeapNode D) (data : D) : option D * LocHeapNode D :=
  match top with
  | Null => (None, Null)
  | Node sz l r x =>
      if decide (data = x) then popNode top
      else if negb (outRanks data x) then
        let '(rl, l') := if isNull l then (None, l) else removeNode l data in
        let '(rr, r') := match rl with
                         | Some _ => (rl, r)
                         | None => if isNull r then (None, r) else removeNode r data
                         end in
        match rr with
        | Some _ => (rr, Node (sz - 1) l' r' x)
        | None => (None, Node sz l' r' x)
        end
      else (None, top)
  end.

Fixpoint checkNodes (t : LocHeapNode D) : bool :=
  match t with
  | Null => true
  | Node sz l r _ =>
      let checkChild c := isNull c || negb (nodeOutRanks c t || negb (checkNodes c)) in
      checkChild l && checkChild r &&
      (sz - (if isNull l then 0 else getSize l) - (if isNull r then 0 else getSize r) =? 1)%Z
  end.

(** *** class LocHeap: [mTree] *)
Definition push (mTree : LocHeapNode D) (d : D) : LocHeapNode D :=
  if isNull mTree then newLocHeapNode d else pushNode mTree d.

Definition peek (mTree : LocHeapNode D) : option D :=
  match mTree with Null => None | Node _ _ _ x => Some x end.

Definition pop (mTree : LocHeapNode D) : option D * LocHeapNode D :=
  if isNull mTree then (None, mTree) else popNode mTree.

Definition remove (mTree : LocHeapNode D) (d : D) : option D * LocHeapNode D :=
  if isNull mTree then (None, mTree) else removeNode mTree d.

Definition checkTree (mTree : LocHeapNode D) : bool := isNull mTree || checkNodes mTree.
Definition getTreeSize (mTree : LocHeapNode D) : Z := if isNull mTree then 0 else getSize mTree.

(** ** Specification *)
Fixpoint elements_of (t : LocHeapNode D) : list D :=
  match t with Null => [] | Node _ l r x => x :: elements_of l ++ elements_of r end.

Fixpoint wf (t : LocHeapNode D) : Prop :=
  match t with
  | Null => True
  | Node sz l r x =>
      wf l ∧ wf r ∧ sz = Z.of_nat (S (length (elements_of l) + length (elements_of r))) ∧
      Forall (λ y, outRanks y x = false) (elements_of l ++ elements_of r)
  end.

Context {P : D → Prop} `{!RankOrder P}.

Lemma outRanks_irrefl x : P x → outRanks x x = false.
Proof. intros Hx. destruct (outRanks x x) eqn:E; [|done]. by apply outRanks_asym in E as E'; rewrite ?E in *. Qed.

Lemma Forall_outRanks_trans l x y :
  Forall P l → P x → P y → outRanks x y = false →
  Forall (λ z, outRanks z x = false) l → Forall (λ z, outRanks z y = false) l.
Proof.
  intros Hl Hx Hy Hxy Hz. rewrite !Forall_forall in *. intros z Hi.
  eapply (outRanks_negtrans z x y); eauto.
Qed.

Lemma wf_size t : wf t → getSize t = Z.of_nat (length (elements_of t)).
Proof. destruct t; simpl; [done|]. intros (_ & _ & -> & _). by rewrite length_app. Qed.

(** *** push *)
Lemma pushNode_elements t d : isNull t = false → elements_of (pushNode t d) ≡ₚ d :: elements_of t.
Proof.
  revert d. induction t as [|sz l IHl r IHr x]; intros d; simpl; [done|intros _].
  assert (∃ x' d', (if outRanks d x then (d, x) else (x, d)) = (x', d') ∧ [x'; d'] ≡ₚ [d; x])
    as (x' & d' & -> & Hp).
  { destruct (outRanks d x); eexists _, _; (split; [done|]); [done|]. apply Permutation_swap. }
  assert (x' :: d' :: elements_of l ++ elements_of r ≡ₚ d :: x :: elements_of l ++ elements_of r) as <-.
  { by apply (Permutation_app_tail (elements_of l ++ elements_of r)) in Hp. }
  destruct (isNull l) eqn:Hl; [by destruct l|].
  destruct (isNull r) eqn:Hr; [destruct r; simpl; [|done]|].
  - rewrite app_nil_r. apply Permutation_skip. by rewrite Permutation_app_comm.
  - destruct (getSize l <=? getSize r)%Z; simpl; apply Permutation_skip.
    + by rewrite IHl.
    + rewrite IHr by done. by rewrite <-Permutation_middle.
Qed.

Lemma pushNode_wf t d : Forall P (d :: elements_of t) → wf t → isNull t = false → wf (pushNode t d).
Proof.
  revert d. induction t as [|sz l IHl r IHr x]; intros d HP; simpl; [done|].
  intros (Hwl & Hwr & -> & Hx) _.
  apply Forall_cons in HP as [HPd [HPx HPlr]%Forall_cons].
  assert (∃ x' d', (if outRanks d x then (d, x) else (x, d)) = (x', d') ∧ P x' ∧ P d' ∧
    outRanks d' x' = false ∧ outRanks x x' = false) as (x' & d' & -> & HPx' & HPd' & Hdx & Hxx).
  { destruct (outRanks d x) eqn:E; eexists _, _; (split; [done|]); split_and!; auto using outRanks_irrefl.
    - by apply outRanks_asym.
    - by apply outRanks_asym. }
  assert (Forall (λ y, outRanks y x' = false) (elements_of l ++ elements_of r)) as Hx'.
  { eapply Forall_outRanks_trans; [done| |done|exact Hxx|done]. done. }
  apply Forall_app in HPlr as [HPl HPr].
  destruct (isNull l) eqn:Hl; [destruct l; simpl in *; [|done]|].
  { split_and!; try done; [lia|]. by constructor. }
  destruct (isNull r) eqn:Hr; [destruct r; simpl in *; [|done]|].
  { rewrite app_nil_r in Hx'. split_and!; try done; [lia|].
    apply Forall_app. split; [done|]. by repeat constructor. }
  apply Forall_app in Hx' as [Hxl Hxr].
  destruct (getSize l <=? getSize r)%Z; simpl.
  - pose proof (pushNode_elements l d' Hl) as Hp.
    assert (wf (pushNode l d')) by (apply IHl; auto). split_and!; [done..|rewrite Hp; simpl; lia|].
    apply Forall_app. split; [|done]. rewrite Hp. by constructor.
  - pose proof (pushNode_elements r d' Hr) as Hp.
    assert (wf (pushNode r d')) by (apply IHr; auto). split_and!; [done..|rewrite Hp; simpl; lia|].
    apply Forall_app. split; [done|]. rewrite Hp. by constructor.
Qed.

(** *** pop *)
Lemma root_max t x : P x → wf t → peek t = Some x → Forall (λ y, outRanks y x = false) (elements_of t).
Proof.
  destruct t as [|sz l r y]; simpl; [done|]. intros HP (_ & _ & _ & Hy) [= ->].
  constructor; [by apply outRanks_irrefl|done].
Qed.

Lemma peek_not_null t : isNull t = false → ∃ x, peek t = Some x.
Proof. destruct t; [done|eauto]. Qed.

(** Rebuilding a node whose root came up from one side. *)
Lemma wf_rebuild sz l r y :
  wf l → wf r → sz = Z.of_nat (S (length (elements_of l) + length (elements_of r))) →
  Forall (λ z, outRanks z y = false) (elements_of l) →
  Forall (λ z, outRanks z y = false) (elements_of r) → wf (Node sz l r y).
Proof. intros. simpl. split_and!; try done. by apply Forall_app. Qed.

Lemma popSwapped_spec t d x :
  Forall P (elements_of t) → wf t → peek t = Some x →
  ∃ t', popSwapped t d = (Some d, t') ∧ wf t' ∧ elements_of t ≡ₚ x :: elements_of t'.
Proof.
  revert x. induction t as [|sz l IHl r IHr x0]; intros x HP; [done|].
  cbn [elements_of] in HP. simpl wf. simpl peek. apply Forall_cons in HP as [HPx [HPl HPr]%Forall_app].
  intros (Hwl & Hwr & -> & Hx) [= ->].
  assert (∀ c y, Forall P (elements_of c) → wf c → peek c = Some y →
    P y ∧ Forall (λ z, outRanks z y = false) (elements_of c)) as Hroot.
  { intros c y HPc Hwc Hy. assert (P y); [|split; [done|by apply root_max]].
    destruct c; simpl in *; simplify_eq. by apply Forall_cons in HPc as [? _]. }
  cbn [popSwapped].
  destruct l as [|szl ll lr y].
  - destruct r as [|szr rl rr z]; [by eexists|].
    destruct (IHr z HPr Hwr eq_refl) as (r' & E & Hw' & Hp). rewrite E. eexists. split; [done|].
    destruct (Hroot _ z HPr Hwr eq_refl) as [HPz Hz]. rewrite Hp in Hz. apply Forall_cons in Hz as [_ Hz].
    split; [|by cbn [elements_of app] in *; rewrite <-Hp]. apply wf_rebuild; [done..| |constructor|done].
    apply Permutation_length in Hp. simpl in *. lia.
  - destruct (Hroot _ y HPl Hwl eq_refl) as [HPy Hy]. destruct r as [|szr rl rr z].
    + destruct (IHl y HPl Hwl eq_refl) as (l' & E & Hw' & Hp). rewrite E. eexists. split; [done|].
      rewrite Hp in Hy. apply Forall_cons in Hy as [_ Hy].
      split; [|by cbn [elements_of]; rewrite !app_nil_r, <-Hp]. apply wf_rebuild; [done..| |done|constructor].
      apply Permutation_length in Hp. simpl in *. lia.
    + destruct (Hroot _ z HPr Hwr eq_refl) as [HPz Hz]. destruct (outRanks y z) eqn:Hyz.
      * destruct (IHl y HPl Hwl eq_refl) as (l' & E & Hw' & Hp). rewrite E. eexists. split; [done|].
        assert (Forall (λ w, outRanks w y = false) (elements_of (Node szr rl rr z))) as Hry.
        { eapply Forall_outRanks_trans; [done|exact HPz|done|by apply outRanks_asym|done]. }
        rewrite Hp in Hy. apply Forall_cons in Hy as [_ Hy].
        split; [|apply Permutation_skip; exact (Permutation_app_tail _ Hp)]. apply wf_rebuild; try done.
        apply Permutation_length in Hp. simpl in *. lia.
      * destruct (IHr z HPr Hwr eq_refl) as (r' & E & Hw' & Hp). rewrite E. eexists. split; [done|].
        assert (Forall (λ w, outRanks w z = false) (elements_of (Node szl ll lr y))) as Hlz.
        { eapply Forall_outRanks_trans; [done|exact HPy|done|done|done]. }
        rewrite Hp in Hz. apply Forall_cons in Hz as [_ Hz].
        split; [|apply Permutation_skip; etrans; [exact (Permutation_app_head _ Hp)|];
          symmetry; apply Permutation_middle].
        apply wf_rebuild; try done. apply Permutation_length in Hp. simpl in *. lia.
Qed.

Lemma popNode_spec t x :
  Forall P (elements_of t) → wf t → peek t = Some x →
  ∃ t', popNode t = (Some x, t') ∧ wf t' ∧ elements_of t ≡ₚ x :: elements_of t'.
Proof.
  intros HP Hw Hx. unfold popNode. destruct t as [|sz l r y]; [done|]. simpl in Hx. simplify_eq.
  by apply popSwapped_spec.
Qed.

(** *** remove *)
Lemma removeNode_if (t : LocHeapNode D) d :
  (if isNull t then (None, t) else removeNode t d) = removeNode t d.
Proof. by destruct t. Qed.

Lemma removeNode_spec t d :
  Forall P (elements_of t) → wf t →
  if bool_decide (d ∈ elements_of t)
  then ∃ t', removeNode t d = (Some d, t') ∧ wf t' ∧ elements_of t ≡ₚ d :: elements_of t'
  else removeNode t d = (None, t).
Proof.
  induction t as [|sz l IHl r IHr x]; intros HP; [done|]. intros Hw.
  pose proof HP as [HPx [HPl HPr]%Forall_app]%Forall_cons. pose proof Hw as (Hwl & Hwr & -> & Hx).
  specialize (IHl HPl Hwl). specialize (IHr HPr Hwr).
  cbn [removeNode]. destruct (decide (d = x)) as [->|Hne].
  { rewrite bool_decide_eq_true_2 by (cbn [elements_of]; set_solver).
    by apply popNode_spec. }
  destruct (outRanks d x) eqn:Hdx; cbn [negb].
  { rewrite bool_decide_eq_false_2; [done|]. cbn [elements_of]. intros [->|Hi]%elem_of_cons; [done|].
    rewrite Forall_forall in Hx. rewrite (Hx d Hi) in Hdx. done. }
  rewrite !removeNode_if. cbn [elements_of]. destruct (bool_decide (d ∈ elements_of l)) eqn:Hl.
  - apply bool_decide_eq_true in Hl. destruct IHl as (l' & E & Hw' & Hp). rewrite E.
    rewrite bool_decide_eq_true_2 by set_solver. eexists. split; [done|].
    apply Forall_app in Hx as [Hxl Hxr]. rewrite Hp in Hxl. apply Forall_cons in Hxl as [_ Hxl].
    split.
    + apply wf_rebuild; try done. apply Permutation_length in Hp. simpl in *. lia.
    + cbn [elements_of]. rewrite Hp. cbn [app]. apply Permutation_swap.
  - apply bool_decide_eq_false in Hl. rewrite IHl. destruct (bool_decide (d ∈ elements_of r)) eqn:Hr.
    + apply bool_decide_eq_true in Hr. destruct IHr as (r' & E & Hw' & Hp). rewrite E.
      rewrite bool_decide_eq_true_2 by set_solver. eexists. split; [done|].
      apply Forall_app in Hx as [Hxl Hxr]. rewrite Hp in Hxr. apply Forall_cons in Hxr as [_ Hxr].
      split.
      * apply wf_rebuild; try done. apply Permutation_length in Hp. simpl in *. lia.
      * cbn [elements_of]. rewrite Hp, <-Permutation_middle. apply Permutation_swap.
    + apply bool_decide_eq_false in Hr. rewrite IHr, bool_decide_eq_false_2; [done|]. set_solver.
Qed.

(** *** The self-check of the unit tests *)
Lemma nodeOutRanks_peek c x sz l r :
  nodeOutRanks c (Node sz l r x) = match peek c with Some y => outRanks y x | None => false end.
Proof. by destruct c. Qed.

Lemma getSize_null (c : LocHeapNode D) : (if isNull c then 0%Z else getSize c) = getSize c.
Proof. by destruct c. Qed.

Lemma checkNodes_wf t : Forall P (elements_of t) → (checkNodes t = true ↔ wf t).
Proof.
  induction t as [|sz l IHl r IHr x]; [done|]. intros HP.
  pose proof HP as [HPx [HPl HPr]%Forall_app]%Forall_cons. specialize (IHl HPl). specialize (IHr HPr).
  assert (∀ c, Forall P (elements_of c) → (checkNodes c = true ↔ wf c) →
    (isNull c || negb (nodeOutRanks c (Node sz l r x) || negb (checkNodes c))) = true ↔
    wf c ∧ Forall (λ y, outRanks y x = false) (elements_of c)) as Hc.
  { intros c HPc Hw. rewrite nodeOutRanks_peek. destruct c as [|szc lc rc y].
    - split; [intros; by split|done].
    - simpl isNull. cbn [orb peek]. rewrite negb_orb, negb_involutive, andb_true_iff, negb_true_iff, Hw.
      split; [|intros [? Hy]; split; [by apply Forall_cons in Hy as [? _]|done]].
      intros [Hyx Hwc]. split; [done|]. pose proof HPc as [HPy _]%Forall_cons.
      eapply (Forall_outRanks_trans _ y x); eauto. by apply root_max. }
  cbn [checkNodes]. rewrite !getSize_null, !andb_true_iff, (Hc l HPl IHl), (Hc r HPr IHr), Z.eqb_eq.
  cbn [wf]. rewrite Forall_app. split.
  - intros [[[Hwl Hxl] [Hwr Hxr]] Hs]. rewrite (wf_size l), (wf_size r) in Hs by done. split_and!; try done. lia.
  - intros (Hwl & Hwr & -> & Hxl & Hxr). rewrite (wf_size l), (wf_size r) by done. split_and!; try done. lia.
Qed.

(** *** Sequences of operations *)
Inductive heap_op := HPush (d : D) | HPop | HRemove (d : D).

Definition heap_exec (o : heap_op) (t : LocHeapNode D) : option D * LocHeapNode D :=
  match o with
  | HPush d => (None, push t d)
  | HPop => pop t
  | HRemove d => remove t d
  end.

Fixpoint heap_run (os : list heap_op) (t : LocHeapNode D) : list (option D) * LocHeapNode D :=
  match os with
  | [] => ([], t)
  | o :: os' => let '(r, t') := heap_exec o t in
                let '(rs, t'') := heap_run os' t' in (r :: rs, t'')
  end.

(** The contract: a priority queue over a multiset. *)
Inductive pq_step (ms : list D) : heap_op → option D → list D → Prop :=
  | pq_push d ms' : ms' ≡ₚ d :: ms → pq_step ms (HPush d) None ms'
  | pq_pop_empty ms' : ms = [] → ms' = [] → pq_step ms HPop None ms'
  | pq_pop x ms' : ms ≡ₚ x :: ms' → Forall (λ y, outRanks y x = false) ms → pq_step ms HPop (Some x) ms'
  | pq_remove d ms' : ms ≡ₚ d :: ms' → pq_step ms (HRemove d) (Some d) ms'
  | pq_remove_absent d ms' : d ∉ ms → ms' ≡ₚ ms → pq_step ms (HRemove d) None ms'.

Inductive pq_run : list D → list heap_op → list (option D) → list D → Prop :=
  | pq_run_nil ms : pq_run ms [] [] ms
  | pq_run_cons ms o r ms1 os rs ms2 :
      pq_step ms o r ms1 → pq_run ms1 os rs ms2 → pq_run ms (o :: os) (r :: rs) ms2.

Definition pushed_ok (o : heap_op) : Prop := match o with HPush d => P d | _ => True end.

Lemma heap_exec_spec o t :
  pushed_ok o → Forall P (elements_of t) → wf t →
  pq_step (elements_of t) o (heap_exec o t).1 (elements_of (heap_exec o t).2) ∧
  wf (heap_exec o t).2 ∧ Forall P (elements_of (heap_exec o t).2).
Proof.
  intros Ho HP Hw. destruct o as [d| |d]; simpl.
  - unfold push. destruct (isNull t) eqn:Ht.
    + destruct t; [|done]. simpl. split_and!; try done; constructor; done.
    + pose proof (pushNode_elements t d Ht) as Hp. split_and!.
      * by constructor.
      * apply pushNode_wf; auto.
      * rewrite Hp. by constructor.
  - unfold pop. destruct (isNull t) eqn:Ht; simpl.
    + destruct t; [|done]. split_and!; try done. by constructor.
    + destruct (peek_not_null t Ht) as [x Hx]. destruct (popNode_spec t x HP Hw Hx) as (t' & -> & Hw' & Hp).
      simpl. split_and!; [|done|by rewrite Hp in HP; apply Forall_cons in HP as [_ ?]].
      constructor; [done|]. apply root_max; [|done|done].
      destruct t; simpl in *; simplify_eq. by apply Forall_cons in HP as [? _].
  - unfold remove. rewrite removeNode_if. pose proof (removeNode_spec t d HP Hw) as Hr.
    case_bool_decide as Hd.
    + destruct Hr as (t' & -> & Hw' & Hp). simpl. split_and!; [by constructor|done|].
      rewrite Hp in HP. by apply Forall_cons in HP as [_ ?].
    + rewrite Hr. simpl. split_and!; [by constructor|done|done].
Qed.

Lemma heap_run_spec os t :
  Forall pushed_ok os → Forall P (elements_of t) → wf t →
  pq_run (elements_of t) os (heap_run os t).1 (elements_of (heap_run os t).2) ∧
  wf (heap_run os t).2 ∧ Forall P (elements_of (heap_run os t).2).
Proof.
  intros Ho. revert t. induction Ho as [|o os Ho _ IH]; intros t HP Hw; [split_and!; try done; constructor|].
  cbn [heap_run]. destruct (heap_exec_spec o t Ho HP Hw) as (Hs & Hw' & HP').
  destruct (heap_exec o t) as [r t']. cbn [fst snd] in *. destruct (IH t' HP' Hw') as (Hr & Hw'' & HP'').
  destruct (heap_run os t') as [rs t'']. cbn [fst snd] in *. split_and!; try done. by econstructor.
Qed.

(** Popping everything. *)
Fixpoint drain (n : nat) (t : LocHeapNode D) : list D :=
  match n with
  | O => []
  | S n' => match pop t with (Some x, t') => x :: drain n' t' | (None, _) => [] end
  end.

Lemma drain_spec n t :
  n = length (elements_of t) → Forall P (elements_of t) → wf t →
  drain n t ≡ₚ elements_of t ∧ StronglySorted (λ x y, outRanks y x = false) (drain n t).
Proof.
  revert t. induction n as [|n IH]; intros t Hn HP Hw; simpl.
  { destruct t; [by repeat constructor|done]. }
  unfold pop. destruct (isNull t) eqn:Ht; [by destruct t|].
  destruct (peek_not_null t Ht) as [x Hx]. destruct (popNode_spec t x HP Hw Hx) as (t' & -> & Hw' & Hp).
  pose proof HP as HP'. rewrite Hp in HP'. apply Forall_cons in HP' as [HPx HP'].
  destruct (IH t') as [Hd Hs]; [|done|done|].
  { apply Permutation_length in Hp. simpl in Hp. lia. }
  split; [by rewrite Hd|]. constructor; [done|]. rewrite Hd.
  pose proof (root_max t x HPx Hw Hx) as Hm. rewrite Hp in Hm. by apply Forall_cons in Hm as [_ ?].
Qed.

(** Pushes keep the two subtrees of every node level. *)
Fixpoint height (t : LocHeapNode D) : nat :=
  match t with Null => 0 | Node _ l r _ => S (max (height l) (height r)) end.

Fixpoint balanced (t : LocHeapNode D) : Prop :=
  match t with
  | Null => True
  | Node sz l r _ =>
      balanced l ∧ balanced r ∧ (sz = 1 + getSize l + getSize r)%Z ∧
      (0 ≤ getSize r ≤ getSize l)%Z ∧ (getSize l ≤ getSize r + 1)%Z
  end.

Lemma pushNode_size t d : isNull t = false → getSize (pushNode t d) = (getSize t + 1)%Z.
Proof.
  destruct t as [|sz l r x]; [done|]. intros _. simpl.
  destruct (if outRanks d x then _ else _). destruct (isNull l), (isNull r), (getSize l <=? getSize r)%Z; done.
Qed.

Lemma balanced_pos t : balanced t → isNull t = false → (1 ≤ getSize t)%Z.
Proof. destruct t; [done|]. simpl. lia. Qed.

Lemma push_balanced t d : balanced t → balanced (push t d).
Proof.
  unfold push. destruct (isNull t) eqn:Ht; [simpl; lia|].
  revert d Ht. induction t as [|sz l IHl r IHr x]; intros d _; [done|].
  intros (Hl & Hr & -> & Hlr & Hrl). cbn [pushNode].
  destruct (if outRanks d x then _ else _) as [x' d'].
  destruct (isNull l) eqn:El; [destruct l; [|done]|].
  { simpl in *. split_and!; try done; lia. }
  pose proof (balanced_pos l Hl El).
  destruct (isNull r) eqn:Er; [destruct r; [|done]|].
  { simpl in *. split_and!; try done; lia. }
  destruct (Z.leb_spec (getSize l) (getSize r)); cbn [balanced];
    rewrite pushNode_size by done; split_and!; auto; lia.
Qed.

Lemma balanced_height t : balanced t → isNull t = false → (2 ^ Z.of_nat (pred (height t)) ≤ getSize t)%Z.
Proof.
  induction t as [|sz l IHl r IHr x]; [done|]. intros (Hl & Hr & -> & Hlr & Hrl) _.
  cbn [height getSize pred].
  assert (∀ c, balanced c → (isNull c = false → (2 ^ Z.of_nat (pred (height c)) ≤ getSize c)%Z) →
    (getSize c ≤ getSize l)%Z → (0 ≤ getSize c)%Z →
    (2 * getSize c ≤ 1 + getSize l + getSize r)%Z → (2 ^ Z.of_nat (height c) ≤ 1 + getSize l + getSize r)%Z) as Hc.
  { intros c Hb Hi H1 H2 H3. destruct (isNull c) eqn:Ec; [destruct c; [simpl in *; lia|done]|].
    specialize (Hi eq_refl). destruct c as [|szc lc rc y]; [done|]. cbn [height pred] in *.
    rewrite Nat2Z.inj_succ, Z.pow_succ_r by lia. lia. }
  destruct (Nat.max_spec (height l) (height r)) as [[_ ->]|[_ ->]]; apply Hc; auto; lia.
Qed.
End LocHeap.

(** * Properties *)

(** C5: LocHeap implements a priority queue for any ranking that is a strict weak
    order. For every sequence of push, pop and remove calls on a new heap: pop
    returns an object nothing outranks (or NULL exactly when empty), remove takes
    out exactly the given object (by address) and returns NULL, changing nothing,
    when it is absent, no other object appears or disappears, and the unit-test
    self-check checkTree holds with getTreeSize the number of objects. *)
Theorem LocHeap_is_priority_queue {D} `{LocRankable D, EqDecision D} {P : D → Prop} `{!RankOrder P} os :
  Forall (pushed_ok (P := P)) os →
  ∃ rs t ms, heap_run os Null = (rs, t) ∧ pq_run [] os rs ms ∧ ms ≡ₚ elements_of t ∧
    checkTree t = true ∧ getTreeSize t = Z.of_nat (length ms).
Proof.
  intros Ho. destruct (heap_run_spec os Null Ho) as (Hr & Hw & HP); [constructor|done|].
  eexists _, _, _. split; [apply surjective_pairing|]. split; [exact Hr|]. split; [done|]. split.
  - unfold checkTree. apply orb_true_iff. right. by apply checkNodes_wf.
  - unfold getTreeSize. rewrite <-wf_size by done. by destruct (heap_run os Null).2.
Qed.

(** Popping a heap until it is empty returns every object it holds, once, in
    rank order: no object is returned before one that outranks it. *)
Theorem LocHeap_drain_sorted {D} `{LocRankable D, EqDecision D} {P : D → Prop} `{!RankOrder P} os :
  Forall (pushed_ok (P := P)) os →
  let t := (heap_run os Null).2 in
  drain (Z.to_nat (getTreeSize t)) t ≡ₚ elements_of t ∧
  StronglySorted (λ x y, outRanks y x = false) (drain (Z.to_nat (getTreeSize t)) t).
Proof.
  intros Ho t. destruct (heap_run_spec os Null Ho) as (Hr & Hw & HP); [constructor|done|].
  apply drain_spec; [|done|done]. subst t. unfold getTreeSize.
  destruct (heap_run os Null).2 eqn:E; [done|]. cbn [isNull]. rewrite wf_size by done. by rewrite Nat2Z.id.
Qed.

(** Pushes balance the tree: after n pushes on a new heap the subtrees of every
    node differ in size by at most one, so the height is at most log2 n + 1 and the
    recursion of push and pop is logarithmic. *)
Theorem LocHeap_push_height {D} `{LocRankable D, EqDecision D} (ds : list D) :
  let t := fold_left push ds Null in
  ds ≠ [] → balanced t ∧ getTreeSize t = Z.of_nat (length ds) ∧
  (2 ^ (Z.of_nat (height t) - 1) ≤ Z.of_nat (length ds))%Z.
Proof.
  intros t Hne.
  assert (∀ t0, balanced t0 → balanced (fold_left push ds t0) ∧
    getSize (fold_left push ds t0) = (getSize t0 + Z.of_nat (length ds))%Z) as Hall.
  { clear. induction ds as [|d ds IH]; intros t0 Hb; simpl; [split; [done|lia]|].
    destruct (IH (push t0 d)) as [Hb' Hs]; [by apply push_balanced|]. split; [done|]. rewrite Hs.
    assert (getSize (push t0 d) = getSize t0 + 1)%Z as ->; [|lia].
    unfold push. destruct (isNull t0) eqn:E; [by destruct t0|by apply pushNode_size]. }
  destruct (Hall Null I) as [Hb Hs]. fold t in Hb, Hs. simpl getSize in Hs.
  assert (getTreeSize t = getSize t) as Ht by (unfold getTreeSize; by destruct t).
  assert (isNull t = false) as Hn.
  { destruct t; [|done]. simpl in *. destruct ds; [done|simpl in *; lia]. }
  split; [done|]. split; [lia|]. pose proof (balanced_height t Hb Hn) as Hh.
  destruct t; [done|]. cbn [height pred] in *. rewrite Nat2Z.inj_succ.
  replace (Z.succ _ - 1)%Z with (Z.of_nat (height t1 `max` height t2)) by lia. lia.
Qed.

(** ** Concrete runs: objects ranked by their value *)
#[local] Instance Z_rankable : LocRankable Z := λ x y, (x - y)%Z.
#[local] Instance Z_rank_order : RankOrder (λ _ : Z, True).
Proof.
  split; unfold outRanks, ranks, Z_rankable; intros *; rewrite ?Z.ltb_lt, ?Z.ltb_ge; lia.
Qed.

Definition wit_ops : list (heap_op (D := Z)) :=
  [HPush 5%Z; HPush 9%Z; HPush 7%Z; HPush 1%Z; HRemove 7%Z; HRemove 8%Z; HPop; HPush 3%Z].

Lemma wit_pushed : Forall (pushed_ok (P := λ _ : Z, True)) wit_ops.
Proof. by repeat constructor. Qed.

Lemma LocHeap_is_priority_queue_witness :
  ∃ rs t ms, heap_run wit_ops Null = (rs, t) ∧ pq_run [] wit_ops rs ms ∧ ms ≡ₚ elements_of t ∧
    checkTree t = true ∧ getTreeSize t = Z.of_nat (length ms).
Proof. apply (LocHeap_is_priority_queue (P := λ _ : Z, True) wit_ops wit_pushed). Defined.

Lemma LocHeap_drain_sorted_witness :
  let t := (heap_run wit_ops Null).2 in
  drain (Z.to_nat (getTreeSize t)) t ≡ₚ elements_of t ∧
  StronglySorted (λ x y, outRanks y x = false) (drain (Z.to_nat (getTreeSize t)) t).
Proof. apply (LocHeap_drain_sorted (P := λ _ : Z, True) wit_ops wit_pushed). Defined.

Lemma LocHeap_push_height_witness :
  let t := fold_left push [4; 8; 15; 16; 23; 42]%Z Null in
  balanced t ∧ getTreeSize t = 6%Z ∧ (2 ^ (Z.of_nat (height t) - 1) ≤ 6)%Z.
Proof. apply (LocHeap_push_height [4; 8; 15; 16; 23; 42]%Z). discriminate. Defined.
