(* ===== verification/SetMap.v ===== *)
(** * gps/utils/LocUnorderedSetMap.h : a map from keys to non-empty sets.

    The loops over an [unordered_set] visit its elements in an unspecified order,
    here that of [elements].  Two of the functions read an iterator after erasing
    its element, which the C++ standard leaves undefined: the parameter [strict]
    chooses between that reading ([None], undefined behaviour) and the one where
    the freed node still holds what was erased. *)
From S2P Require Import Prelude.

Section SetMap.
Context {K V : Type} `{Countable K, Countable V}.
Context (strict : bool).

(** Using an iterator whose element has been erased. *)
Definition use_erased {A} (a : A) : option A := if strict then None else Some a.

(** [goneVals] is [None] when the caller passes a null pointer. *)
Definition trimSet (fromSet rVals : gset V) (goneVals : option (gset V))
    : gset V * option (gset V) :=
  foldl (λ '(fs, g) v,
    if decide (v ∈ fs) then (fs ∖ {[v]}, (λ s, {[v]} ∪ s) <$> g) else (fs, g))
    (fromSet, goneVals) (elements rVals).

(** The loop increments [b] after [s2.erase(b)]. *)
Definition removeAndReturnInterset (s1 s2 : gset V) : option (gset V * gset V * gset V) :=
  foldl (λ acc b,
    '(common, s1, s2) ← acc;
    if decide (b ∈ s1)
    then use_erased ({[b]} ∪ common, s1 ∖ {[b]}, s2 ∖ {[b]})
    else Some (common, s1, s2))
    (Some (∅, s1, s2)) (elements s2).

(** The private [trimOrRemove(iter, rVals, goneVals)], [iter] at [key] with [vals]. *)
Definition trimOrRemove_entry (mMap : gmap K (gset V)) (key : K) (vals rVals : gset V)
    (goneVals : option (gset V)) : bool * gmap K (gset V) * option (gset V) :=
  let '(vals', goneVals') := trimSet vals rVals goneVals in
  let removeEntry := bool_decide (vals' = ∅) in
  (removeEntry, if removeEntry then delete key mMap else <[key := vals']> mMap, goneVals').

(** The body of the loop of the public [trimOrRemove]; [iter->first] is read after
    the private method erased [iter]. *)
Definition trimOrRemove_key (rVals : gset V)
    (acc : option (gmap K (gset V) * option (gset K) * option (gset V))) (key : K)
    : option (gmap K (gset V) * option (gset K) * option (gset V)) :=
  '(mMap, goneKeys, goneVals) ← acc;
  match mMap !! key with
  | None => Some (mMap, goneKeys, goneVals)
  | Some vals =>
      let '(removed, mMap', goneVals') := trimOrRemove_entry mMap key vals rVals goneVals in
      match removed, goneKeys with
      | true, Some gk => first ← use_erased key; Some (mMap', Some ({[first]} ∪ gk), goneVals')
      | _, _ => Some (mMap', goneKeys, goneVals')
      end
  end.

Definition trimOrRemove (mMap : gmap K (gset V)) (keys : gset K) (rVals : gset V)
    (goneKeys : option (gset K)) (goneVals : option (gset V))
    : option (gmap K (gset V) * option (gset K) * option (gset V)) :=
  foldl (trimOrRemove_key rVals) (Some (mMap, goneKeys, goneVals)) (elements keys).

Definition getValSetPtr (mMap : gmap K (gset V)) (key : K) : option (gset V) := mMap !! key.
Definition getValSet (mMap : gmap K (gset V)) (key : K) : gset V := default ∅ (mMap !! key).
Definition getKeys (mMap : gmap K (gset V)) : gset K :=
  foldl (λ keys entry, {[entry.1]} ∪ keys) ∅ (map_to_list mMap).
Definition empty (mMap : gmap K (gset V)) : bool := bool_decide (mMap = ∅).
Definition remove (mMap : gmap K (gset V)) (key : K) : bool * gmap K (gset V) :=
  (bool_decide (is_Some (mMap !! key)), delete key mMap).

Definition add_key (mMap : gmap K (gset V)) (key : K) (newVals : gset V) : bool * gmap K (gset V) :=
  if decide (newVals = ∅) then (false, mMap)
  else match mMap !! key with
       | Some vals => (false, <[key := vals ∪ newVals]> mMap)
       | None => (true, <[key := newVals]> mMap)
       end.

(** The body of the loop of the public [add]. *)
Definition add_step (newVals : gset V) (acc : gmap K (gset V) * option (gset K)) (key : K)
    : gmap K (gset V) * option (gset K) :=
  let '(m, newKeys) := acc in
  let '(added, m') := add_key m key newVals in
  (m', if added then (λ s, {[key]} ∪ s) <$> newKeys else newKeys).

Definition add (mMap : gmap K (gset V)) (keys : gset K) (newVals : gset V)
    (newKeys : option (gset K)) : gmap K (gset V) * option (gset K) :=
  foldl (add_step newVals) (mMap, newKeys) (elements keys).

(** Returns [goneVals], the set [newVals] as left by the call, and the map. *)
Definition update (mMap : gmap K (gset V)) (key : K) (newVals : gset V)
    : option (gset V * gset V * gmap K (gset V)) :=
  if decide (newVals = ∅) then Some (∅, newVals, delete key mMap)
  else
    let curVals := default ∅ (mMap !! key) in
    let mMap' := <[key := newVals]> mMap in
    '(goneVals, _, newVals') ← removeAndReturnInterset curVals newVals;
    Some (goneVals, newVals', mMap').

(** ** Specification *)

(** The pairs of a map, and the representation invariant: no empty sets. *)
Definition rel (m : gmap K (gset V)) (k : K) (v : V) : Prop := v ∈ getValSet m k.
Definition no_empty (m : gmap K (gset V)) : Prop := ∀ k, m !! k ≠ Some ∅.

Lemma rel_lookup m k v : rel m k v ↔ ∃ s, m !! k = Some s ∧ v ∈ s.
Proof. unfold rel, getValSet. destruct (m !! k); simpl; set_solver. Qed.

Lemma no_empty_dom m k : no_empty m → (k ∈ dom m ↔ ∃ v, rel m k v).
Proof.
  intros Hm. rewrite elem_of_dom. setoid_rewrite rel_lookup. split.
  - intros [s Hs]. destruct (decide (s = ∅)) as [->|Hne]; [by destruct (Hm k)|].
    apply set_choose_L in Hne as [v Hv]. eauto.
  - naive_solver.
Qed.

Lemma rel_insert m k s k' v : rel (<[k := s]> m) k' v ↔ (k' = k ∧ v ∈ s) ∨ (k' ≠ k ∧ rel m k' v).
Proof.
  unfold rel, getValSet. destruct (decide (k' = k)) as [->|Hne].
  - rewrite lookup_insert_eq. simpl. naive_solver.
  - rewrite lookup_insert_ne by done. naive_solver.
Qed.

Lemma rel_delete m k k' v : rel (delete k m) k' v ↔ k' ≠ k ∧ rel m k' v.
Proof.
  unfold rel, getValSet. destruct (decide (k' = k)) as [->|Hne].
  - rewrite lookup_delete_eq. simpl. set_solver.
  - rewrite lookup_delete_ne by done. naive_solver.
Qed.

Lemma no_empty_insert m k s : s ≠ ∅ → no_empty m → no_empty (<[k := s]> m).
Proof.
  intros Hs Hm k'. destruct (decide (k' = k)) as [->|Hne].
  - rewrite lookup_insert_eq. congruence.
  - by rewrite lookup_insert_ne.
Qed.

Lemma no_empty_delete m k : no_empty m → no_empty (delete k m).
Proof.
  intros Hm k'. destruct (decide (k' = k)) as [->|Hne].
  - by rewrite lookup_delete_eq.
  - by rewrite lookup_delete_ne.
Qed.

(** Adding to an optional output set. *)
Definition opt_union {A} `{Countable A} (g : option (gset A)) (s : gset A) : option (gset A) :=
  (λ s0, s ∪ s0) <$> g.

Lemma trimSet_spec fs r g : trimSet fs r g = (fs ∖ r, opt_union g (fs ∩ r)).
Proof.
  unfold trimSet.
  assert (∀ l, NoDup l → foldl (λ '(fs, g) v,
    if decide (v ∈ fs) then (fs ∖ {[v]}, (λ s, {[v]} ∪ s) <$> g) else (fs, g)) (fs, g) l =
    (fs ∖ list_to_set l, opt_union g (fs ∩ list_to_set l))) as Hl.
  { intros l. revert fs g. induction l as [|v l IH]; intros fs g Hd; simpl.
    - unfold opt_union. destruct g; simpl; repeat f_equal; set_solver.
    - apply NoDup_cons in Hd as [Hv Hd]. destruct (decide (v ∈ fs)); rewrite IH by done.
      + f_equal; [set_solver|]. unfold opt_union. destruct g; simpl; [|done]. f_equal.
        apply set_eq. intros x. destruct (decide (x = v)); set_solver.
      + f_equal; [set_solver|]. unfold opt_union. destruct g; simpl; [|done]. f_equal. set_solver. }
  rewrite Hl by apply NoDup_elements. by rewrite list_to_set_elements_L.
Qed.

Lemma trimOrRemove_entry_spec m k vals r gv :
  trimOrRemove_entry m k vals r gv =
  (bool_decide (vals ⊆ r),
   if bool_decide (vals ⊆ r) then delete k m else <[k := vals ∖ r]> m, opt_union gv (vals ∩ r)).
Proof.
  unfold trimOrRemove_entry. rewrite trimSet_spec.
  assert (bool_decide (vals ∖ r = ∅) = bool_decide (vals ⊆ r)) as ->; [|done].
  apply bool_decide_ext. split; [|set_solver]. intros He x Hx. destruct (decide (x ∈ r)); set_solver.
Qed.

(** One key of the loop, when no erased iterator is read. *)
Lemma trimOrRemove_key_some m gk gv r k vals :
  m !! k = Some vals → (strict = true → gk = None ∨ ¬ vals ⊆ r) →
  trimOrRemove_key r (Some (m, gk, gv)) k =
  Some (if bool_decide (vals ⊆ r) then delete k m else <[k := vals ∖ r]> m,
        opt_union gk (if bool_decide (vals ⊆ r) then {[k]} else ∅), opt_union gv (vals ∩ r)).
Proof.
  intros Hk Hs. unfold trimOrRemove_key. cbn. rewrite Hk, trimOrRemove_entry_spec. unfold use_erased.
  case_bool_decide as Hsub; destruct gk as [g|]; cbn; try done.
  - destruct strict; [naive_solver|]. done.
  - by rewrite union_empty_l_L.
Qed.

(** Whether some entry among the keys [l] is emptied by the trim. *)
Definition emptied (m : gmap K (gset V)) (l : list K) (r : gset V) : Prop :=
  ∃ k vals, k ∈ l ∧ m !! k = Some vals ∧ vals ⊆ r.

Lemma opt_union_union {A} `{Countable A} (g : option (gset A)) s1 s2 :
  opt_union (opt_union g s1) s2 = opt_union g (s1 ∪ s2).
Proof. unfold opt_union. destruct g; simpl; [|done]. f_equal. set_solver. Qed.

Lemma opt_union_empty {A} `{Countable A} (g : option (gset A)) : opt_union g ∅ = g.
Proof. unfold opt_union. destruct g; simpl; [|done]. f_equal. set_solver. Qed.

(** Trimming one entry. *)
Lemma trim_one m k vals r :
  no_empty m → m !! k = Some vals →
  let m1 := if bool_decide (vals ⊆ r) then delete k m else <[k := vals ∖ r]> m in
  no_empty m1 ∧ (∀ k', k' ≠ k → m1 !! k' = m !! k') ∧
  (∀ k' v, rel m1 k' v ↔ rel m k' v ∧ ¬ (k' = k ∧ v ∈ r)) ∧ (k ∈ dom m1 ↔ ¬ vals ⊆ r).
Proof.
  intros Hm Hk m1.
  assert (∀ k', k' ≠ k → m1 !! k' = m !! k') as Hne.
  { intros k' Hk'. subst m1. case_bool_decide; by rewrite ?lookup_delete_ne, ?lookup_insert_ne. }
  split_and!; [|done| |].
  - subst m1. case_bool_decide as Hsub; [by apply no_empty_delete|]. apply no_empty_insert; [|done].
    intros He. apply Hsub. intros x Hx. destruct (decide (x ∈ r)); set_solver.
  - intros k' v. destruct (decide (k' = k)) as [->|Hk'].
    + assert (rel m k v ↔ v ∈ vals) as -> by (unfold rel, getValSet; by rewrite Hk).
      subst m1. case_bool_decide; rewrite ?rel_delete, ?rel_insert; set_solver.
    + unfold rel, getValSet. rewrite Hne by done. naive_solver.
  - subst m1. case_bool_decide; rewrite elem_of_dom, ?lookup_delete_eq, ?lookup_insert_eq; naive_solver.
Qed.

Lemma trimOrRemove_fold l m gk gv r :
  NoDup l → no_empty m → (strict = true → gk = None ∨ ¬ emptied m l r) →
  ∃ m' G W, foldl (trimOrRemove_key r) (Some (m, gk, gv)) l = Some (m', opt_union gk G, opt_union gv W) ∧
    no_empty m' ∧ (∀ k v, rel m' k v ↔ rel m k v ∧ ¬ (k ∈ l ∧ v ∈ r)) ∧
    (∀ k, k ∈ G ↔ k ∈ l ∧ k ∈ dom m ∧ k ∉ dom m') ∧
    (∀ v, v ∈ W ↔ v ∈ r ∧ ∃ k, k ∈ l ∧ rel m k v).
Proof.
  revert m gk gv. induction l as [|k l IH]; intros m gk gv Hd Hm Hs.
  { exists m, ∅, ∅. simpl. rewrite !opt_union_empty. split_and!; set_solver. }
  apply NoDup_cons in Hd as [Hkl Hd]. cbn [foldl]. destruct (m !! k) as [vals|] eqn:Hk.
  - rewrite (trimOrRemove_key_some _ _ _ _ _ vals); [|done|].
    2: { intros Hst. destruct (Hs Hst) as [|He]; [by left|right]. intros Hsub. apply He.
         exists k, vals. set_solver. }
    set (m1 := if bool_decide (vals ⊆ r) then delete k m else <[k := vals ∖ r]> m).
    destruct (trim_one m k vals r Hm Hk) as (Hm1 & Hne & Hr1 & Hd1). fold m1 in Hm1, Hne, Hr1, Hd1.
    destruct (IH m1 (opt_union gk (if bool_decide (vals ⊆ r) then {[k]} else ∅)) (opt_union gv (vals ∩ r)) Hd Hm1)
      as (m' & G & W & E & Hm' & Hr' & HG & HW).
    { intros Hst. destruct (Hs Hst) as [->|He]; [by left|right]. intros (k' & v' & Hk' & Hv' & Hsub).
      apply He. exists k', v'. rewrite Hne in Hv' by (intros ->; done). set_solver. }
    exists m', ((if bool_decide (vals ⊆ r) then {[k]} else ∅) ∪ G), (vals ∩ r ∪ W).
    rewrite E, !opt_union_union. split_and!; try done.
    + intros k' v. rewrite Hr', Hr1. set_solver.
    + intros k'. rewrite elem_of_union, HG, elem_of_cons.
      assert (k' ∈ dom m' → k' ∈ dom m1) as Hdm.
      { rewrite !(no_empty_dom _ _) by done. intros [v Hv]. exists v. by apply Hr' in Hv as [? _]. }
      destruct (decide (k' = k)) as [->|Hk'].
      * assert (k ∈ dom m) by (by apply elem_of_dom_2 in Hk).
        assert (k ∈ dom m1 → k ∈ dom m') as Hdm'.
        { rewrite !(no_empty_dom _ _) by done. intros [v Hv]. exists v. apply Hr'. split; [done|naive_solver]. }
        case_bool_decide; set_solver.
      * assert (k' ∈ dom m1 ↔ k' ∈ dom m) by (by rewrite !elem_of_dom, Hne).
        case_bool_decide; set_solver.
    + intros v. rewrite elem_of_union, HW. setoid_rewrite Hr1. setoid_rewrite elem_of_cons.
      assert (rel m k v ↔ v ∈ vals) as Hv by (unfold rel, getValSet; by rewrite Hk).
      split; [rewrite elem_of_intersection; naive_solver|].
      intros (Hvr & k' & [->|Hk'] & Hrel); [set_solver|]. right. split; [done|]. exists k'. naive_solver.
  - assert (trimOrRemove_key r (Some (m, gk, gv)) k = Some (m, gk, gv)) as ->.
    { unfold trimOrRemove_key. cbn. by rewrite Hk. }
    destruct (IH m gk gv Hd Hm) as (m' & G & W & E & Hm' & Hr' & HG & HW).
    { intros Hst. destruct (Hs Hst) as [->|He]; [by left|right]. intros (k' & v' & Hk' & Hv' & Hsub).
      apply He. exists k', v'. set_solver. }
    exists m', G, W. split_and!; try done.
    + intros k' v. rewrite Hr', elem_of_cons. split; [|naive_solver]. intros [Hrel Hn].
      split; [done|]. intros [[->|?] ?]; [|naive_solver]. unfold rel, getValSet in Hrel. rewrite Hk in Hrel.
      set_solver.
    + intros k'. rewrite HG, elem_of_cons. split; [naive_solver|]. intros ([->|?] & Hdm & ?); [|done].
      apply not_elem_of_dom in Hk. done.
    + intros v. rewrite HW. setoid_rewrite elem_of_cons. split; [naive_solver|].
      intros (Hv & k' & [->|?] & Hrel); [|naive_solver]. unfold rel, getValSet in Hrel. rewrite Hk in Hrel.
      set_solver.
Qed.

Lemma trimOrRemove_spec m keys gk gv r :
  no_empty m → (strict = true → gk = None ∨ ¬ emptied m (elements keys) r) →
  ∃ m' G W, trimOrRemove m keys r gk gv = Some (m', opt_union gk G, opt_union gv W) ∧
    no_empty m' ∧ (∀ k v, rel m' k v ↔ rel m k v ∧ ¬ (k ∈ keys ∧ v ∈ r)) ∧
    (∀ k, k ∈ G ↔ k ∈ keys ∧ k ∈ dom m ∧ k ∉ dom m') ∧
    (∀ v, v ∈ W ↔ v ∈ r ∧ ∃ k, k ∈ keys ∧ rel m k v).
Proof.
  intros Hm Hs.
  destruct (trimOrRemove_fold (elements keys) m gk gv r (NoDup_elements _) Hm Hs)
    as (m' & G & W & E & Hm' & Hr & HG & HW).
  exists m', G, W. split_and!; [done|done|..]; intros *;
    [rewrite Hr|rewrite HG|rewrite HW]; by setoid_rewrite elem_of_elements.
Qed.

(** Under the standard's reading a removed entry whose key is recorded is undefined. *)
Lemma trimOrRemove_fold_ub l m g gv r :
  strict = true → NoDup l → no_empty m → emptied m l r →
  foldl (trimOrRemove_key r) (Some (m, Some g, gv)) l = None.
Proof.
  intros Hst. assert (∀ l, foldl (trimOrRemove_key r) None l = None) as Hnone by (by induction l0).
  revert m g gv. induction l as [|k l IH]; intros m g gv Hd Hm (k0 & v0 & Hk0 & Hv0 & Hsub); [set_solver|].
  apply NoDup_cons in Hd as [Hkl Hd]. cbn [foldl]. destruct (m !! k) as [vals|] eqn:Hk.
  - destruct (decide (vals ⊆ r)) as [Hs|Hs].
    + assert (trimOrRemove_key r (Some (m, Some g, gv)) k = None) as ->; [|done].
      unfold trimOrRemove_key. cbn. rewrite Hk, trimOrRemove_entry_spec, bool_decide_eq_true_2 by done.
      unfold use_erased. by rewrite Hst.
    + rewrite (trimOrRemove_key_some _ _ _ _ _ vals) by (try done; intros; by right).
      rewrite bool_decide_eq_false_2 by done. destruct (trim_one m k vals r Hm Hk) as (Hm1 & Hne & _).
      rewrite bool_decide_eq_false_2 in Hm1, Hne by done. apply IH; [done|done|].
      exists k0, v0. assert (k0 ≠ k) by congruence. rewrite Hne by done. set_solver.
  - assert (trimOrRemove_key r (Some (m, Some g, gv)) k = Some (m, Some g, gv)) as ->.
    { unfold trimOrRemove_key. cbn. by rewrite Hk. }
    apply IH; [done|done|]. exists k0, v0. split; [|done]. apply elem_of_cons in Hk0 as [->|]; congruence || done.
Qed.

(** *** add *)
Lemma add_key_spec m k s :
  no_empty m →
  no_empty (add_key m k s).2 ∧ (∀ k' v, rel (add_key m k s).2 k' v ↔ rel m k' v ∨ (k' = k ∧ v ∈ s)) ∧
  ((add_key m k s).1 = true ↔ k ∉ dom m ∧ s ≠ ∅).
Proof.
  intros Hm. unfold add_key. destruct (decide (s = ∅)) as [->|Hs].
  { split_and!; [done|set_solver|naive_solver]. }
  destruct (m !! k) as [vals|] eqn:Hk; simpl; split_and!.
  - apply no_empty_insert; set_solver.
  - intros k' v. rewrite rel_insert.
    assert (rel m k v ↔ v ∈ vals) by (unfold rel, getValSet; by rewrite Hk).
    destruct (decide (k' = k)) as [->|]; set_solver.
  - apply elem_of_dom_2 in Hk. naive_solver.
  - by apply no_empty_insert.
  - intros k' v. rewrite rel_insert.
    assert (¬ rel m k v) by (unfold rel, getValSet; rewrite Hk; set_solver).
    destruct (decide (k' = k)) as [->|]; naive_solver.
  - apply not_elem_of_dom in Hk. naive_solver.
Qed.

Lemma add_spec m keys s nk :
  no_empty m →
  ∃ m' N, add m keys s nk = (m', opt_union nk N) ∧ no_empty m' ∧
    (∀ k v, rel m' k v ↔ rel m k v ∨ (k ∈ keys ∧ v ∈ s)) ∧
    (∀ k, k ∈ N ↔ k ∈ keys ∧ k ∉ dom m ∧ s ≠ ∅).
Proof.
  unfold add.
  assert (∀ l, NoDup l → ∀ m nk, no_empty m → ∃ m' N,
    foldl (add_step s) (m, nk) l = (m', opt_union nk N) ∧
    no_empty m' ∧ (∀ k v, rel m' k v ↔ rel m k v ∨ (k ∈ l ∧ v ∈ s)) ∧
    (∀ k, k ∈ N ↔ k ∈ l ∧ k ∉ dom m ∧ s ≠ ∅)) as Hl.
  { clear m nk. induction l as [|k l IH]; intros Hd m nk Hm.
    - exists m, ∅. rewrite opt_union_empty. split_and!; set_solver.
    - apply NoDup_cons in Hd as [Hkl Hd]. cbn [foldl]. unfold add_step at 2.
      destruct (add_key_spec m k s Hm) as (Hm1 & Hr1 & Ha1).
      destruct (add_key m k s) as [a m1] eqn:E1. cbn [fst snd] in *.
      destruct (IH Hd m1 (opt_union nk (if a then {[k]} else ∅)) Hm1) as (m' & N & E & Hm' & Hr' & HN).
      exists m', ((if a then {[k]} else ∅) ∪ N). split; [|split_and!; [done|..]].
      + rewrite <-opt_union_union, <-E. destruct a; [done|by rewrite opt_union_empty].
      + intros k' v. rewrite Hr', Hr1. set_solver.
      + intros k'. rewrite elem_of_union, HN, elem_of_cons.
        destruct (decide (k' = k)) as [->|Hk']; [destruct a; set_solver|].
        assert (k' ∈ dom m1 ↔ k' ∈ dom m) as ->.
        { rewrite !(no_empty_dom _ _) by done. setoid_rewrite Hr1. naive_solver. }
        destruct a; set_solver. }
  intros Hm. destruct (Hl (elements keys) (NoDup_elements _) m nk Hm) as (m' & N & E & Hm' & Hr & HN).
  exists m', N. split_and!; [done|done|..]; intros *; [rewrite Hr|rewrite HN]; by rewrite elem_of_elements.
Qed.

(** *** update *)

(** Equality of [Some] triples, component by component. *)
Ltac triple := apply f_equal, f_equal2; [apply f_equal2|].

Lemma removeAndReturnInterset_spec s1 s2 :
  removeAndReturnInterset s1 s2 =
  if strict && negb (bool_decide (s1 ∩ s2 = ∅)) then None else Some (s1 ∩ s2, s1 ∖ s2, s2 ∖ s1).
Proof.
  unfold removeAndReturnInterset.
  set (step := λ acc b, '(common, s1, s2) ← acc; _).
  assert (∀ l, foldl step None l = None) as Hnone by (by induction l).
  assert (∀ l c a b, NoDup l → list_to_set l ⊆ b →
    foldl step (Some (c, a, b)) l =
    if strict && negb (bool_decide (a ∩ list_to_set l = ∅)) then None
    else Some (c ∪ (a ∩ list_to_set l), a ∖ list_to_set l, b ∖ (a ∩ list_to_set l))) as Hl.
  { induction l as [|x l IH]; intros c a b Hd Hb.
    - cbn [foldl list_to_set]. rewrite bool_decide_eq_true_2 by set_solver. rewrite andb_false_r.
      triple; set_solver.
    - apply NoDup_cons in Hd as [Hx Hd]. cbn [foldl]. simpl in Hb.
      change (list_to_set (x :: l) : gset V) with ({[x]} ∪ list_to_set l : gset V).
      unfold step at 2. cbn. unfold use_erased. destruct (decide (x ∈ a)) as [Hxa|Hxa].
      + rewrite (bool_decide_eq_false_2 (a ∩ ({[x]} ∪ list_to_set l) = ∅)) by set_solver.
        cbn [negb]. rewrite andb_true_r.
        destruct strict eqn:Hst; [apply Hnone|]. rewrite IH by (done || set_solver). cbn [andb].
        triple; apply set_eq; intros y; destruct (decide (y = x)); set_solver.
      + rewrite IH by (done || set_solver). assert (a ∩ ({[x]} ∪ list_to_set l) = a ∩ list_to_set l) as -> by set_solver.
        destruct (strict && _); [done|]. triple; set_solver. }
  rewrite Hl; [|apply NoDup_elements|by rewrite list_to_set_elements_L].
  rewrite list_to_set_elements_L. destruct (strict && _); [done|]. triple; set_solver.
Qed.

Lemma update_spec m k s :
  s ≠ ∅ →
  update m k s =
  if strict && negb (bool_decide (getValSet m k ∩ s = ∅)) then None
  else Some (getValSet m k ∩ s, s ∖ getValSet m k, <[k := s]> m).
Proof.
  intros Hs. unfold update. rewrite decide_False by done.
  rewrite removeAndReturnInterset_spec. fold (getValSet m k). by destruct (strict && _).
Qed.
End SetMap.

(** * Both readings of the erased iterator *)

(** Where no entry is emptied both readings agree. *)
Lemma trimOrRemove_agrees {K V} `{Countable K, Countable V} (m : gmap K (gset V)) keys gk gv r :
  no_empty m → ¬ emptied m (elements keys) r → trimOrRemove true m keys r gk gv = trimOrRemove false m keys r gk gv.
Proof.
  unfold trimOrRemove. generalize (elements keys), (NoDup_elements keys). intros l Hd.
  revert m gk gv. induction l as [|k l IH]; intros m gk gv Hm He; [done|]. apply NoDup_cons in Hd as [Hkl Hd]. cbn [foldl].
  destruct (m !! k) as [vals|] eqn:Hk.
  - assert (Hs : ¬ vals ⊆ r) by (intros Hs; apply He; exists k, vals; set_solver).
    rewrite !(trimOrRemove_key_some _ _ _ _ _ _ vals) by (done || (intros _; by right)). rewrite bool_decide_eq_false_2 by done.
    pose proof (trim_one m k vals r Hm Hk) as Ht. cbv zeta in Ht. rewrite bool_decide_eq_false_2 in Ht by done.
    destruct Ht as (Hm1 & Hne & _). apply IH; [done|done|]. intros (k' & v' & Hk' & Hv' & Hsub). apply He. exists k', v'.
    rewrite Hne in Hv' by (by intros ->). set_solver.
  - assert (E : ∀ b, trimOrRemove_key b r (Some (m, gk, gv)) k = Some (m, gk, gv)) by (intros b; unfold trimOrRemove_key; cbn; by rewrite Hk).
    rewrite !E. apply IH; [done|done|]. intros (k' & v' & Hk' & ?). apply He. exists k', v'. set_solver.
Qed.
Lemma trimOrRemove_erased {K V} `{Countable K, Countable V} (m : gmap K (gset V)) keys g gv r :
  no_empty m → emptied m (elements keys) r → trimOrRemove true m keys r (Some g) gv = None.
Proof. intros. apply trimOrRemove_fold_ub; [done|apply NoDup_elements|done|done]. Qed.

(** * Properties *)

(** TrimOrRemove removes exactly the pairs (k, v) with k among the keys and v
    among the values given, erases exactly the entries this empties, reports exactly
    those keys in goneKeys and exactly the values it removed in goneVals, and keeps
    every entry non-empty; the hypothesis excludes the case in which the code reads
    an erased iterator, when that is undefined. *)
Theorem trimOrRemove_correct {K V} `{Countable K, Countable V} strict
    (m : gmap K (gset V)) keys r g w :
  no_empty m → (strict = true → ¬ emptied m (elements keys) r) →
  ∃ m' G W, trimOrRemove strict m keys r (Some g) (Some w) = Some (m', Some (G ∪ g), Some (W ∪ w)) ∧
    no_empty m' ∧ (∀ k v, rel m' k v ↔ rel m k v ∧ ¬ (k ∈ keys ∧ v ∈ r)) ∧
    (∀ k, k ∈ G ↔ k ∈ keys ∧ k ∈ dom m ∧ k ∉ dom m') ∧
    (∀ v, v ∈ W ↔ v ∈ r ∧ ∃ k, k ∈ keys ∧ rel m k v).
Proof.
  intros Hm Hs. destruct (trimOrRemove_spec strict m keys (Some g) (Some w) r Hm) as (m' & G & W & E & H4); [tauto|].
  by exists m', G, W.
Qed.

(** Update does not return "the VALs that are in effect removed" as documented:
    whenever the call is defined it returns the values the key keeps (the
    intersection of old and new), leaves in newVals the values not held before, and
    the values that really disappear, old minus new, are not reported at all. Under
    the standard's reading of erased iterators the call is undefined as soon as the
    old and new sets share a value. *)
Theorem update_reports_kept_values {K V} `{Countable K, Countable V} strict (m : gmap K (gset V)) k new :
  new ≠ ∅ →
  match update strict m k new with
  | Some (gone, rest, m') =>
      gone = getValSet m k ∩ new ∧ rest = new ∖ getValSet m k ∧ getValSet m' k = new ∧
      (getValSet m k ∖ new) ∩ gone = ∅
  | None => strict = true ∧ getValSet m k ∩ new ≠ ∅
  end.
Proof.
  intros Hn. rewrite update_spec by done. destruct strict, (bool_decide_reflect (getValSet m k ∩ new = ∅)); simpl.
  1, 3, 4: split_and!; [done|done| |set_solver]; unfold getValSet; by rewrite lookup_insert_eq.
  done.
Qed.

(** ** Concrete runs *)
Definition wit_map : gmap positive (gset positive) :=
  {[1%positive := {[10%positive; 11%positive]}; 2%positive := {[10%positive]}]}.

Lemma wit_no_empty : no_empty wit_map.
Proof.
  intros k. unfold wit_map. rewrite lookup_insert. case_decide; [intros [=]|].
  rewrite lookup_singleton. case_decide; intros [=].
Qed.

Lemma trimOrRemove_correct_witness :
  ∃ m' G W, trimOrRemove false wit_map {[1; 2]}%positive {[10]}%positive (Some ∅) (Some ∅) =
      Some (m', Some (G ∪ ∅), Some (W ∪ ∅)) ∧
    no_empty m' ∧ (∀ k v, rel m' k v ↔ rel wit_map k v ∧ ¬ (k ∈ ({[1; 2]}%positive : gset positive) ∧
                                                        v ∈ ({[10]}%positive : gset positive))) ∧
    (∀ k, k ∈ G ↔ k ∈ ({[1; 2]}%positive : gset positive) ∧ k ∈ dom wit_map ∧ k ∉ dom m') ∧
    (∀ v, v ∈ W ↔ v ∈ ({[10]}%positive : gset positive) ∧
                   ∃ k, k ∈ ({[1; 2]}%positive : gset positive) ∧ rel wit_map k v).
Proof. apply (trimOrRemove_correct false wit_map); [apply wit_no_empty|discriminate]. Defined.

Lemma update_reports_kept_values_witness :
  match update false wit_map 1%positive {[11; 12]}%positive with
  | Some (gone, rest, m') =>
      gone = getValSet wit_map 1%positive ∩ {[11; 12]}%positive ∧
      rest = {[11; 12]}%positive ∖ getValSet wit_map 1%positive ∧
      getValSet m' 1%positive = {[11; 12]}%positive ∧
      (getValSet wit_map 1%positive ∖ {[11; 12]}%positive) ∩ gone = ∅
  | None => false = true ∧ getValSet wit_map 1%positive ∩ {[11; 12]}%positive ≠ ∅
  end.
Proof. apply (update_reports_kept_values false wit_map). by vm_compute. Defined.
