(* ===== verification/OsObserver.v ===== *)
(** * gps/core/SystemStatusOsObserver.cpp : subscriptions of clients to OS data items.

    The public methods check their arguments and post a message to the MsgTask
    thread; the messages are processed one at a time, so the state only changes in
    [proc], except for the reference counts of [turnOn] / [turnOff], which the
    calling thread updates before it posts the framework call.  Data items carry a
    value in [D]; the code outside the repository that creates, compares and copies
    them is the interface [DataItems]. *)
From S2P Require Import Prelude SetMap.

(** ** The interface of the data items

    [createNewDataItem] and [copy] live in the proprietary data item library opened
    by DataItemsFactoryProxy. [copy old new] is the copied item and the [updated] flag. *)
Class DataItems (D : Type) := {
  getId : D → Z;
  createNewDataItem : Z → option D;
  copy : D → D → D * bool;
}.

(** ** What the observer asks of SystemStatus

    [eventDataItemNotify] records an item: the answer whether it was new, the item, which it may
    complete, and the new state of SystemStatus. *)
Class SystemStatusI (D Sys : Type) := {
  eventDataItemNotify : D → Sys → bool * D * Sys;
}.

Section OsObserver.
Context {D Sys : Type} `{DataItems D} `{SystemStatusI D Sys}.
Context (strict : bool).

Abbreviation client := positive (only parsing).

(** ** State *)
Inductive event :=
  | FwSubscribe (s : gset Z)
  | FwRequestData (l : list Z)
  | FwUnsubscribe (s : gset Z)
  | FwTurnOn (dit timeOut : Z)
  | FwTurnOff (dit : Z)
  | FwConnectBackhaul (clientName : string)
  | FwDisconnectBackhaul (clientName : string)
  | Notify (c : client) (items : list D).

Inductive msg :=
  | SetSubsObj
  | HandleSubscribeReq (mDataItemSet : gset Z) (diItemlist : list Z) (mClient : client) (mToRequestData : bool)
  | HandleUpdateSubscriptionReq (mDataItemSet : gset Z) (mClient : client)
  | HandleUnsubscribeReq (mDataItemSet : gset Z) (mClient : client)
  | HandleUnsubscribeAllReq (mClient : client)
  | HandleNotify (mDiVec : list (option D))
  | HandleTurnOnMsg (dit timeOut : Z)
  | HandleTurnOffMsg (dit : Z)
  | HandleConnectBackhaul (clientName : string)
  | HandleDisconnectBackhaul (clientName : string).

(** [mSystemStatus] is the object behind that pointer; [mSubscriptionObj] and [mFrameworkActionReqObj] are whether the pointers of the
    context are set; [events] is what the framework and the clients have been told. *)
Record observer := Observer {
  mSystemStatus : Sys;
  mClientToDataItems : gmap client (gset Z);
  mDataItemToClients : gmap Z (gset client);
  mDataItemCache : gmap Z D;
  mActiveRequestCount : gmap Z Z;
  mBackHaulConnReqCache : gset string;
  mSubscriptionObj : bool;
  mFrameworkActionReqObj : bool;
  queue : list msg;
  events : list event;
}.

Definition set_sys x (s : observer) : observer :=
  Observer x (mClientToDataItems s) (mDataItemToClients s) (mDataItemCache s) (mActiveRequestCount s)
    (mBackHaulConnReqCache s) (mSubscriptionObj s) (mFrameworkActionReqObj s) (queue s) (events s).
Definition set_c2d f (s : observer) : observer :=
  Observer (mSystemStatus s) (f (mClientToDataItems s)) (mDataItemToClients s) (mDataItemCache s) (mActiveRequestCount s)
    (mBackHaulConnReqCache s) (mSubscriptionObj s) (mFrameworkActionReqObj s) (queue s) (events s).
Definition set_d2c f (s : observer) : observer :=
  Observer (mSystemStatus s) (mClientToDataItems s) (f (mDataItemToClients s)) (mDataItemCache s) (mActiveRequestCount s)
    (mBackHaulConnReqCache s) (mSubscriptionObj s) (mFrameworkActionReqObj s) (queue s) (events s).
Definition set_cache f (s : observer) : observer :=
  Observer (mSystemStatus s) (mClientToDataItems s) (mDataItemToClients s) (f (mDataItemCache s)) (mActiveRequestCount s)
    (mBackHaulConnReqCache s) (mSubscriptionObj s) (mFrameworkActionReqObj s) (queue s) (events s).
Definition set_counts f (s : observer) : observer :=
  Observer (mSystemStatus s) (mClientToDataItems s) (mDataItemToClients s) (mDataItemCache s) (f (mActiveRequestCount s))
    (mBackHaulConnReqCache s) (mSubscriptionObj s) (mFrameworkActionReqObj s) (queue s) (events s).
Definition set_backhaul f (s : observer) : observer :=
  Observer (mSystemStatus s) (mClientToDataItems s) (mDataItemToClients s) (mDataItemCache s) (mActiveRequestCount s)
    (f (mBackHaulConnReqCache s)) (mSubscriptionObj s) (mFrameworkActionReqObj s) (queue s) (events s).
Definition set_subsobj b (s : observer) : observer :=
  Observer (mSystemStatus s) (mClientToDataItems s) (mDataItemToClients s) (mDataItemCache s) (mActiveRequestCount s)
    (mBackHaulConnReqCache s) b (mFrameworkActionReqObj s) (queue s) (events s).
Definition set_fwobj b (s : observer) : observer :=
  Observer (mSystemStatus s) (mClientToDataItems s) (mDataItemToClients s) (mDataItemCache s) (mActiveRequestCount s)
    (mBackHaulConnReqCache s) (mSubscriptionObj s) b (queue s) (events s).
Definition set_queue f (s : observer) : observer :=
  Observer (mSystemStatus s) (mClientToDataItems s) (mDataItemToClients s) (mDataItemCache s) (mActiveRequestCount s)
    (mBackHaulConnReqCache s) (mSubscriptionObj s) (mFrameworkActionReqObj s) (f (queue s)) (events s).
Definition emit (e : event) (s : observer) : observer :=
  Observer (mSystemStatus s) (mClientToDataItems s) (mDataItemToClients s) (mDataItemCache s) (mActiveRequestCount s)
    (mBackHaulConnReqCache s) (mSubscriptionObj s) (mFrameworkActionReqObj s) (queue s) (events s ++ [e]).

(** [mContext.mMsgTask->sendMsg] *)
Definition sendMsg (m : msg) (s : observer) : observer := set_queue (λ q, q ++ [m]) s.

Definition emit_if (b : bool) (e : event) (s : observer) : observer := if b then emit e s else s.

(** ** Helpers *)
Definition containerTransfer (l : list Z) : gset Z := foldl (λ out item, {[item]} ∪ out) ∅ l.

(** The list of items is built with [push_front]. *)
Definition sendCachedDataItems (ids : gset Z) (to : client) (s : observer) : observer :=
  let dataItems := foldl (λ l each, match mDataItemCache s !! each with
                                    | Some d => d :: l
                                    | None => l
                                    end) [] (elements ids) in
  match dataItems with
  | [] => s
  | _ => emit (Notify to dataItems) s
  end.

(** The answer, the item as SystemStatus left it, and the new state. *)
Definition updateCache (d : option D) (s : observer) : bool * option D * observer :=
  match d with
  | None => (false, None, s)
  | Some d =>
      let '(handled, d, x) := eventDataItemNotify d (mSystemStatus s) in
      let s := set_sys x s in
      if handled then
        match mDataItemCache s !! getId d with
        | None =>
            match createNewDataItem (getId d) with
            | None => (false, Some d, s)
            | Some dataitem => (true, Some d, set_cache <[getId d := (copy dataitem d).1]> s)
            end
        | Some old =>
            let '(d', updated) := copy old d in
            (updated, Some d, set_cache <[getId d := d']> s)
        end
      else (false, Some d, s)
  end.

(** ** The public methods *)
Definition setSubscriptionObj (subscriptionObj : bool) (s : observer) : observer :=
  if subscriptionObj then sendMsg SetSubsObj s else s.

Definition subscribe3 (l : list Z) (c : option client) (toRequestData : bool) (s : observer) : observer :=
  match l, c with
  | [], _ | _, None => s
  | _, Some c => sendMsg (HandleSubscribeReq (containerTransfer l) l c toRequestData) s
  end.

Definition subscribe (l : list Z) (c : option client) (s : observer) : observer := subscribe3 l c false s.
Definition requestData (l : list Z) (c : option client) (s : observer) : observer := subscribe3 l c true s.

Definition updateSubscription (l : list Z) (c : option client) (s : observer) : observer :=
  match l, c with
  | [], _ | _, None => s
  | _, Some c => sendMsg (HandleUpdateSubscriptionReq (containerTransfer l) c) s
  end.

Definition unsubscribe (l : list Z) (c : option client) (s : observer) : observer :=
  match l, c with
  | [], _ | _, None => s
  | _, Some c => sendMsg (HandleUnsubscribeReq (containerTransfer l) c) s
  end.

Definition unsubscribeAll (c : option client) (s : observer) : observer :=
  match c with
  | None => s
  | Some c => sendMsg (HandleUnsubscribeAllReq c) s
  end.

(** The vector starts with [dlist.size()] null pointers, the copies follow. *)
Definition notify (dlist : list D) (s : observer) : observer :=
  match dlist with
  | [] => s
  | _ =>
      let copies := omap (λ each, di ← createNewDataItem (getId each); Some (copy di each).1) dlist in
      sendMsg (HandleNotify (replicate (length dlist) None ++ (Some <$> copies))) s
  end.

Definition turnOn (dit timeOut : Z) (s : observer) : observer :=
  if mFrameworkActionReqObj s then
    match mActiveRequestCount s !! dit with
    | None => sendMsg (HandleTurnOnMsg dit timeOut) (set_counts <[dit := 1%Z]> s)
    | Some n => set_counts <[dit := (n + 1)%Z]> s
    end
  else s.

Definition turnOff (dit : Z) (s : observer) : observer :=
  if mFrameworkActionReqObj s then
    match mActiveRequestCount s !! dit with
    | None => s
    | Some n =>
        let n' := (n - 1)%Z in
        if decide (n' = 0%Z) then sendMsg (HandleTurnOffMsg dit) (set_counts (delete dit) s)
        else set_counts <[dit := n']> s
    end
  else s.

Definition connectBackhaul (clientName : string) (s : observer) : bool * observer :=
  if mFrameworkActionReqObj s then (true, sendMsg (HandleConnectBackhaul clientName) s)
  else (false, set_backhaul (λ b, {[clientName]} ∪ b) s).

Definition disconnectBackhaul (clientName : string) (s : observer) : bool * observer :=
  if mFrameworkActionReqObj s then (false, sendMsg (HandleDisconnectBackhaul clientName) s)
  else (false, set_backhaul (λ b, b ∖ {[clientName]}) s).

Definition setFrameworkActionReqObj (obj : bool) (s : observer) : observer :=
  let s1 := set_fwobj obj s in
  if decide (size (mBackHaulConnReqCache s1) = 0) then s1
  else set_backhaul (λ _, ∅)
         (foldl (λ st name, (connectBackhaul name st).2) s1 (elements (mBackHaulConnReqCache s1))).

(** ** The message handlers *)
Definition proc_SetSubsObj (s : observer) : observer :=
  let s1 := set_subsobj true s in
  if SetMap.empty (mDataItemToClients s1) then s1
  else
    let dis := getKeys (mDataItemToClients s1) in
    emit (FwRequestData (elements dis)) (emit (FwSubscribe dis) s1).

Definition proc_Subscribe (ids : gset Z) (l : list Z) (c : client) (toRequestData : bool) (s : observer) : observer :=
  let '(d2c, toSubscribe) := SetMap.add (mDataItemToClients s) ids {[c]} (Some ∅) in
  let dataItemsToSubscribe := default ∅ toSubscribe in
  let s1 := set_d2c (λ _, d2c) s in
  let s2 := set_c2d (λ m, (add_key m c ids).2) s1 in
  let s3 := sendCachedDataItems ids c s2 in
  if mSubscriptionObj s3 then
    if toRequestData then emit (FwRequestData l) s3
    else emit_if (negb (bool_decide (dataItemsToSubscribe = ∅))) (FwSubscribe dataItemsToSubscribe) s3
  else s3.

Definition proc_UpdateSubscription (ids : gset Z) (c : client) (s : observer) : option observer :=
  '(gone, ids', c2d) ← SetMap.update strict (mClientToDataItems s) c ids;
  let s1 := set_c2d (λ _, c2d) s in
  '(d2c, unsub, _) ← trimOrRemove strict (mDataItemToClients s1) gone {[c]} (Some ∅) None;
  let dataItemsToUnsubscribe := default ∅ unsub in
  let '(d2c', sub) := SetMap.add d2c ids' {[c]} (Some ∅) in
  let dataItemsToSubscribe := default ∅ sub in
  let s2 := set_d2c (λ _, d2c') s1 in
  let s3 := sendCachedDataItems ids' c s2 in
  Some (if mSubscriptionObj s3 then
          emit_if (negb (bool_decide (dataItemsToUnsubscribe = ∅))) (FwUnsubscribe dataItemsToUnsubscribe)
            (emit_if (negb (bool_decide (dataItemsToSubscribe = ∅))) (FwSubscribe dataItemsToSubscribe) s3)
        else s3).

Definition proc_Unsubscribe (ids : gset Z) (c : client) (s : observer) : option observer :=
  '(c2d, _, unused) ← trimOrRemove strict (mClientToDataItems s) {[c]} ids (Some ∅) (Some ∅);
  let dataItemsUnusedByClient := default ∅ unused in
  let s1 := set_c2d (λ _, c2d) s in
  '(d2c, unsub, _) ← trimOrRemove strict (mDataItemToClients s1) dataItemsUnusedByClient {[c]} (Some ∅) None;
  let dataItemsToUnsubscribe := default ∅ unsub in
  let s2 := set_d2c (λ _, d2c) s1 in
  Some (emit_if (mSubscriptionObj s2 && negb (bool_decide (dataItemsToUnsubscribe = ∅)))
          (FwUnsubscribe dataItemsToUnsubscribe) s2).

Definition proc_UnsubscribeAll (c : client) (s : observer) : option observer :=
  let diByClient := getValSet (mClientToDataItems s) c in
  if decide (diByClient = ∅) then Some s
  else
    let s1 := set_c2d (λ m, (SetMap.remove m c).2) s in
    '(d2c, unsub, _) ← trimOrRemove strict (mDataItemToClients s1) diByClient {[c]} (Some ∅) None;
    let dataItemsToUnsubscribe := default ∅ unsub in
    let s2 := set_d2c (λ _, d2c) s1 in
    Some (emit_if (negb (bool_decide (dataItemsToUnsubscribe = ∅)) && mSubscriptionObj s2)
            (FwUnsubscribe dataItemsToUnsubscribe) s2).

(** Recording the received items: the ids whose cached value changed. *)
Fixpoint notify_update (items : list (option D)) (ids : gset Z) (s : observer) : gset Z * observer :=
  match items with
  | [] => (ids, s)
  | item :: items' =>
      let '(updated, item', s') := updateCache item s in
      notify_update items'
        (match item' with Some d => if updated then {[getId d]} ∪ ids else ids | None => ids end) s'
  end.

Definition proc_Notify (items : list (option D)) (s : observer) : observer :=
  let '(dataItemIdsToBeSent, s1) := notify_update items ∅ s in
  let clientSet := foldl (λ cs each, match getValSetPtr (mDataItemToClients s1) each with
                                     | Some clients => clients ∪ cs
                                     | None => cs
                                     end) ∅ (elements dataItemIdsToBeSent) in
  foldl (λ st c, sendCachedDataItems
                   (filter (λ id, id ∈ dataItemIdsToBeSent) (getValSet (mClientToDataItems st) c)) c st)
    s1 (elements clientSet).

Definition proc (m : msg) (s : observer) : option observer :=
  match m with
  | SetSubsObj => Some (proc_SetSubsObj s)
  | HandleSubscribeReq ids l c r => Some (proc_Subscribe ids l c r s)
  | HandleUpdateSubscriptionReq ids c => proc_UpdateSubscription ids c s
  | HandleUnsubscribeReq ids c => proc_Unsubscribe ids c s
  | HandleUnsubscribeAllReq c => proc_UnsubscribeAll c s
  | HandleNotify items => Some (proc_Notify items s)
  | HandleTurnOnMsg dit t => Some (emit (FwTurnOn dit t) s)
  | HandleTurnOffMsg dit => Some (emit (FwTurnOff dit) s)
  | HandleConnectBackhaul n => Some (emit (FwConnectBackhaul n) s)
  | HandleDisconnectBackhaul n => Some (emit (FwDisconnectBackhaul n) s)
  end.

(** The MsgTask thread: process the oldest message. *)
Definition step (s : observer) : option observer :=
  match queue s with
  | [] => Some s
  | m :: q => proc m (set_queue (λ _, q) s)
  end.
End OsObserver.

(** * Specification *)
Section Spec.
Context {D Sys : Type} `{DataItems D} `{SystemStatusI D Sys}.

(** What the framework has been asked to subscribe to. *)
Definition fw_event (S : gset Z) (e : event (D:=D)) : gset Z :=
  match e with
  | FwSubscribe s => S ∪ s
  | FwUnsubscribe s => S ∖ s
  | _ => S
  end.
Definition fw_subs (es : list (event (D:=D))) : gset Z := foldl fw_event ∅ es.

(** The two maps describe the same relation between clients and items. *)
Definition inverse (c2d : gmap positive (gset Z)) (d2c : gmap Z (gset positive)) : Prop :=
  no_empty c2d ∧ no_empty d2c ∧ ∀ c d, rel c2d c d ↔ rel d2c d c.

Definition obs_inv (s : observer (D:=D) (Sys:=Sys)) : Prop :=
  inverse (mClientToDataItems s) (mDataItemToClients s) ∧
  fw_subs (events s) = if mSubscriptionObj s then dom (mDataItemToClients s) else ∅.

(** Every message except updateSubscription's and requestData's. *)
Definition plain_msg (m : msg (D:=D)) : Prop :=
  match m with
  | HandleUpdateSubscriptionReq _ _ => False
  | HandleSubscribeReq _ _ _ toRequestData => toRequestData = false
  | _ => True
  end.

Lemma fw_subs_snoc es e : fw_subs (es ++ [e]) = fw_event (fw_subs es) e.
Proof. unfold fw_subs. by rewrite foldl_app. Qed.

Lemma getKeys_dom {K V} `{Countable K, Countable V} (m : gmap K (gset V)) : getKeys m = dom m.
Proof.
  unfold getKeys.
  assert (∀ (l : list (K * gset V)) acc, foldl (λ keys entry, {[entry.1]} ∪ keys) acc l = (list_to_set l.*1 ∪ acc : gset K)) as Hl.
  { induction l as [|p l IH]; intros acc; simpl; [set_solver|]. rewrite IH. set_solver. }
  rewrite Hl, union_empty_r_L. apply set_eq. intros k.
  rewrite elem_of_list_to_set, elem_of_dom, list_elem_of_fmap. split.
  - intros ([k' v] & -> & Hin). apply elem_of_map_to_list in Hin. by exists v.
  - intros [v Hv]. exists (k, v). split; [done|]. by apply elem_of_map_to_list.
Qed.

Lemma containerTransfer_spec l : containerTransfer l = list_to_set l.
Proof.
  unfold containerTransfer. assert (∀ acc, foldl (λ out item, {[item]} ∪ out) acc l = (list_to_set l ∪ acc : gset Z)) as Hl.
  { induction l as [|x l IH]; intros acc; simpl; [set_solver|]. rewrite IH. set_solver. }
  rewrite Hl. set_solver.
Qed.

(** The cached items among some ids, in the order in which they are sent. *)
Definition cached (cache : gmap Z D) (l : list Z) : list D := reverse (omap (λ id, cache !! id) l).

Lemma sendCached_unfold ids c (s : observer (D:=D) (Sys:=Sys)) :
  sendCachedDataItems ids c s =
  match cached (mDataItemCache s) (elements ids) with
  | [] => s
  | l => emit (Notify c l) s
  end.
Proof.
  unfold sendCachedDataItems, cached.
  assert (∀ l acc, foldl (λ l each, match mDataItemCache s !! each with Some d => d :: l | None => l end) acc l =
     reverse (omap (λ id, mDataItemCache s !! id) l) ++ acc) as Hl.
  2: { rewrite Hl, app_nil_r. by destruct (reverse _). }
  induction l as [|x l IH]; intros acc; simpl; [done|]. rewrite IH.
  destruct (mDataItemCache s !! x); [|done]. by rewrite reverse_cons, <-app_assoc.
Qed.


(** Sending cached items changes nothing but the events, and not the framework's. *)
Lemma sendCached_frame ids c (s : observer (D:=D) (Sys:=Sys)) :
  let s' := sendCachedDataItems ids c s in
  mClientToDataItems s' = mClientToDataItems s ∧ mDataItemToClients s' = mDataItemToClients s ∧
  mDataItemCache s' = mDataItemCache s ∧ mSubscriptionObj s' = mSubscriptionObj s ∧ queue s' = queue s ∧
  fw_subs (events s') = fw_subs (events s).
Proof.
  rewrite sendCached_unfold. cbv zeta. destruct (cached _ _); simpl; [done|]. by rewrite fw_subs_snoc.
Qed.

Lemma updateCache_frame d (s : observer (D:=D) (Sys:=Sys)) :
  let s' := (updateCache d s).2 in
  mClientToDataItems s' = mClientToDataItems s ∧ mDataItemToClients s' = mDataItemToClients s ∧
  mSubscriptionObj s' = mSubscriptionObj s ∧ queue s' = queue s ∧ events s' = events s.
Proof.
  unfold updateCache. destruct d as [d|]; [|done]. destruct (eventDataItemNotify d _) as [[[] d'] x]; [|done]. simpl.
  destruct (_ !! _); simpl; [by destruct (copy _ _)|]. by destruct (createNewDataItem _).
Qed.

Lemma notify_update_frame items ids (s : observer (D:=D) (Sys:=Sys)) :
  let s' := (notify_update items ids s).2 in
  mClientToDataItems s' = mClientToDataItems s ∧ mDataItemToClients s' = mDataItemToClients s ∧
  mSubscriptionObj s' = mSubscriptionObj s ∧ queue s' = queue s ∧ events s' = events s.
Proof.
  revert ids s. induction items as [|d items IH]; intros ids s; simpl; [done|].
  pose proof (updateCache_frame d s) as Hu. destruct (updateCache d s) as [[u d1] s1]. simpl in Hu.
  destruct Hu as (E1 & E2 & E3 & E4 & E5).
  destruct (IH (match d1 with Some d0 => if u then {[getId d0]} ∪ ids else ids | None => ids end) s1)
    as (F1 & F2 & F3 & F4 & F5). cbv zeta in *. rewrite F1, F2, F3, F4, F5. done.
Qed.

Lemma proc_Notify_frame items (s : observer (D:=D) (Sys:=Sys)) :
  let s' := proc_Notify items s in
  mClientToDataItems s' = mClientToDataItems s ∧ mDataItemToClients s' = mDataItemToClients s ∧
  mSubscriptionObj s' = mSubscriptionObj s ∧ queue s' = queue s ∧ fw_subs (events s') = fw_subs (events s).
Proof.
  unfold proc_Notify. pose proof (notify_update_frame items ∅ s) as Hu.
  destruct (notify_update items ∅ s) as [ids s1]. simpl in Hu. destruct Hu as (<- & <- & <- & <- & E5).
  rewrite <-E5. cbv zeta. clear E5. generalize (elements (foldl
    (λ cs each, match getValSetPtr (mDataItemToClients s1) each with Some clients => clients ∪ cs | None => cs end)
    ∅ (elements ids))) as l.
  induction l as [|c l IH] using rev_ind; [done|]. rewrite foldl_app. simpl.
  destruct IH as (E1 & E2 & E3 & E4 & E5).
  destruct (sendCached_frame (filter (λ id, id ∈ ids) (getValSet (mClientToDataItems
    (foldl (λ st c, sendCachedDataItems (filter (λ id, id ∈ ids) (getValSet (mClientToDataItems st) c)) c st) s1 l)) c)) c
    (foldl (λ st c, sendCachedDataItems (filter (λ id, id ∈ ids) (getValSet (mClientToDataItems st) c)) c st) s1 l))
    as (F1 & F2 & _ & F3 & F4 & F5). cbv zeta in *. rewrite F1, F2, F3, F4, F5. done.
Qed.

(** ** Preservation of the invariant by the handlers *)
Lemma emit_if_frame b e (s : observer (D:=D) (Sys:=Sys)) :
  mClientToDataItems (emit_if b e s) = mClientToDataItems s ∧
  mDataItemToClients (emit_if b e s) = mDataItemToClients s ∧
  mSubscriptionObj (emit_if b e s) = mSubscriptionObj s ∧ queue (emit_if b e s) = queue s ∧
  fw_subs (events (emit_if b e s)) = if b then fw_event (fw_subs (events s)) e else fw_subs (events s).
Proof. destruct b; simpl; [|done]. by rewrite fw_subs_snoc. Qed.

Lemma obs_inv_subsobj (s : observer (D:=D) (Sys:=Sys)) : obs_inv s → obs_inv (proc_SetSubsObj s).
Proof.
  intros [Hinv Hfw]. unfold proc_SetSubsObj, SetMap.empty. case_bool_decide as He; simpl in *.
  - split; [done|]. simpl. rewrite He in *. rewrite Hfw. by destruct (mSubscriptionObj s); rewrite ?dom_empty_L.
  - split; [done|]. simpl. rewrite !fw_subs_snoc. simpl. rewrite getKeys_dom, Hfw.
    destruct (mSubscriptionObj s); set_solver.
Qed.

Lemma inverse_add c2d d2c ids c d2c' :
  inverse c2d d2c → no_empty d2c' → (∀ d v, rel d2c' d v ↔ rel d2c d v ∨ (d ∈ ids ∧ v ∈ ({[c]} : gset positive))) →
  inverse (add_key c2d c ids).2 d2c'.
Proof.
  intros (Hn1 & Hn2 & Hr) Hn' Hr'. destruct (add_key_spec c2d c ids Hn1) as (Hm & Ha & _).
  split_and!; [done|done|]. intros c' d. rewrite Ha, Hr', Hr. set_solver.
Qed.

Lemma proc_Subscribe_maps ids l c r (s : observer (D:=D) (Sys:=Sys)) :
  inverse (mClientToDataItems s) (mDataItemToClients s) →
  let s' := proc_Subscribe ids l c r s in
  inverse (mClientToDataItems s') (mDataItemToClients s') ∧
  mSubscriptionObj s' = mSubscriptionObj s ∧ queue s' = queue s ∧
  dom (mDataItemToClients s') = dom (mDataItemToClients s) ∪ ids ∧
  (∀ c' d, rel (mClientToDataItems s') c' d ↔ rel (mClientToDataItems s) c' d ∨ (c' = c ∧ d ∈ ids)) ∧
  fw_subs (events s') = if mSubscriptionObj s && negb r
                        then fw_subs (events s) ∪ (ids ∖ dom (mDataItemToClients s)) else fw_subs (events s).
Proof.
  intros Hinv. unfold proc_Subscribe. pose proof Hinv as (Hn1 & Hn2 & Hr).
  destruct (add_spec (mDataItemToClients s) ids ({[c]} : gset positive) (Some ∅) Hn2)
    as (d2c & N & -> & Hn' & Hr' & HN). cbn [opt_union fmap option_fmap option_map default].
  assert (N ∪ ∅ = ids ∖ dom (mDataItemToClients s)) as -> by set_solver.
  set (s2 := set_c2d _ _). destruct (sendCached_frame ids c s2) as (E1 & E2 & _ & E4 & E5 & E6). cbv zeta in *.
  set (s3 := sendCachedDataItems ids c s2) in *.
  change (mSubscriptionObj s2) with (mSubscriptionObj s) in E4.
  change (queue s2) with (queue s) in E5. change (events s2) with (events s) in E6.
  assert (inverse (mClientToDataItems s2) (mDataItemToClients s2)) as Hi2 by (by apply (inverse_add _ (mDataItemToClients s))).
  assert (dom (mDataItemToClients s2) = dom (mDataItemToClients s) ∪ ids) as Hdom.
  { apply set_eq. intros d. rewrite elem_of_union, !(no_empty_dom _ _) by done. simpl.
    setoid_rewrite Hr'. set_solver. }
  assert (∀ c' d, rel (mClientToDataItems s2) c' d ↔ rel (mClientToDataItems s) c' d ∨ (c' = c ∧ d ∈ ids)) as Hc2.
  { intros c' d. apply add_key_spec, Hn1. }
  rewrite E4. destruct (mSubscriptionObj s) eqn:Ho; [|rewrite E1, E2, E4, E5, E6; done].
  destruct r.
  - simpl. rewrite E1, E2, E4, E5, fw_subs_snoc, E6. done.
  - set (X := ids ∖ _). unfold id.
    destruct (emit_if_frame (negb (bool_decide (X = ∅))) (FwSubscribe X) s3) as (G1 & G2 & G3 & G4 & G5).
    rewrite G1, G2, G3, G4, G5, E1, E2, E4, E5, E6. split_and!; try done.
    simpl. case_bool_decide as Hx; simpl; [|done]. rewrite Hx. set_solver.
Qed.

Lemma obs_inv_subscribe ids l c (s : observer (D:=D) (Sys:=Sys)) : obs_inv s → obs_inv (proc_Subscribe ids l c false s).
Proof.
  intros [Hinv Hfw]. destruct (proc_Subscribe_maps ids l c false s Hinv) as (H1 & H2 & _ & H3 & _ & H4).
  split; [done|]. rewrite H2, H3, H4, andb_true_r, Hfw. destruct (mSubscriptionObj s); [|done].
  apply set_eq. intros d. rewrite !elem_of_union, elem_of_difference.
  destruct (decide (d ∈ dom (mDataItemToClients s))); tauto.
Qed.

(** Removing the pairs of one client from both maps. *)
Lemma inverse_trim c2d d2c c (ids keys : gset Z) d2c' c2d' (r : gset positive) :
  inverse c2d d2c → no_empty c2d' → no_empty d2c' → r = {[c]} →
  (∀ c' d, rel c2d' c' d ↔ rel c2d c' d ∧ ¬ (c' = c ∧ d ∈ ids)) →
  (∀ d c', rel d2c' d c' ↔ rel d2c d c' ∧ ¬ (d ∈ keys ∧ c' ∈ r)) →
  (∀ d, d ∈ keys ↔ d ∈ ids ∧ rel c2d c d) →
  inverse c2d' d2c'.
Proof.
  intros (_ & _ & Hr) Hn1 Hn2 -> H1 H2 H3. split_and!; [done|done|].
  intros c' d. rewrite H1, H2, Hr, H3, elem_of_singleton, Hr. naive_solver.
Qed.

Lemma proc_trim_fw (d2c d2c' : gmap Z (gset positive)) (keys G : gset Z) :
  no_empty d2c → no_empty d2c' → (∀ d c', rel d2c' d c' → rel d2c d c') →
  (∀ d, d ∉ keys → d ∈ dom d2c → d ∈ dom d2c') →
  (∀ k, k ∈ G ↔ k ∈ keys ∧ k ∈ dom d2c ∧ k ∉ dom d2c') → dom d2c' = dom d2c ∖ G.
Proof.
  intros Hn Hn' Hsub Hk HG. apply set_eq. intros d. rewrite elem_of_difference, HG.
  assert (d ∈ dom d2c' → d ∈ dom d2c) by (rewrite !(no_empty_dom _ _) by done; naive_solver).
  destruct (decide (d ∈ dom d2c')), (decide (d ∈ keys)); naive_solver.
Qed.

Lemma trim_client (d2c : gmap Z (gset positive)) (keys : gset Z) c :
  no_empty d2c → ∃ d2c' G,
  trimOrRemove false d2c keys ({[c]} : gset positive) (Some ∅) None = Some (d2c', Some G, None) ∧ no_empty d2c' ∧
  (∀ d c', rel d2c' d c' ↔ rel d2c d c' ∧ ¬ (d ∈ keys ∧ c' ∈ ({[c]} : gset positive))) ∧
  dom d2c' = dom d2c ∖ G.
Proof.
  intros Hn. destruct (trimOrRemove_spec false d2c keys (Some ∅) None {[c]} Hn) as (d2c' & G & W & -> & Hn' & Hr' & HG & _);
    [done|].
  exists d2c', G. cbn. rewrite union_empty_r_L. split_and!; [done|done|done|].
  apply (proc_trim_fw _ _ keys); [done|done|naive_solver| |done].
  intros d Hd. rewrite !(no_empty_dom _ _) by done. intros [v Hv]. exists v. apply Hr'. naive_solver.
Qed.

Lemma emit_unsub (s : observer (D:=D) (Sys:=Sys)) b G (d2c : gmap Z (gset positive)) :
  (b = mSubscriptionObj s && negb (bool_decide (G = ∅))) →
  dom (mDataItemToClients s) = dom d2c ∖ G →
  fw_subs (events s) = (if mSubscriptionObj s then dom d2c else ∅) →
  inverse (mClientToDataItems s) (mDataItemToClients s) →
  obs_inv (emit_if b (FwUnsubscribe G) s).
Proof.
  intros Hb Hd Hf Hi. destruct (emit_if_frame b (FwUnsubscribe G) s) as (G1 & G2 & G3 & _ & G5).
  split; rewrite ?G1, ?G2, ?G3, ?G5; [done|]. subst b. simpl. rewrite Hd, Hf. destruct (mSubscriptionObj s); simpl; [|done].
  case_bool_decide as Hg; simpl; [rewrite Hg; set_solver|done].
Qed.

Lemma obs_inv_unsubscribe ids c (s : observer (D:=D) (Sys:=Sys)) :
  obs_inv s → ∃ s', proc_Unsubscribe false ids c s = Some s' ∧ obs_inv s' ∧ queue s' = queue s.
Proof.
  intros [Hinv Hfw]. pose proof Hinv as (Hn1 & Hn2 & Hr). unfold proc_Unsubscribe.
  destruct (trimOrRemove_spec false (mClientToDataItems s) {[c]} (Some ∅) (Some ∅) ids Hn1)
    as (c2d & G1 & W & -> & Hn1' & Hr1 & _ & HW); [done|]. cbn.
  destruct (trim_client (mDataItemToClients s) (W ∪ ∅) c Hn2) as (d2c & G & -> & Hn2' & Hr2 & Hd). cbn.
  eexists. split; [done|]. split; [|by destruct (_ && _)].
  apply (emit_unsub _ _ _ (mDataItemToClients s)); [done|done|done|].
  apply (inverse_trim (mClientToDataItems s) (mDataItemToClients s) c ids (W ∪ ∅) _ _ {[c]}); try done; set_solver.
Qed.

Lemma obs_inv_unsubscribeAll c (s : observer (D:=D) (Sys:=Sys)) :
  obs_inv s → ∃ s', proc_UnsubscribeAll false c s = Some s' ∧ obs_inv s' ∧ queue s' = queue s.
Proof.
  intros [Hinv Hfw]. pose proof Hinv as (Hn1 & Hn2 & Hr). unfold proc_UnsubscribeAll.
  destruct (decide (getValSet (mClientToDataItems s) c = ∅)); [by exists s|].
  set (ids := getValSet (mClientToDataItems s) c) in *.
  change (mDataItemToClients (set_c2d _ s)) with (mDataItemToClients s).
  destruct (trim_client (mDataItemToClients s) ids c Hn2) as (d2c & G & -> & Hn2' & Hr2 & Hd). cbn.
  eexists. split; [done|]. split; [|by destruct (_ && _)].
  apply (emit_unsub _ _ _ (mDataItemToClients s)); [by rewrite andb_comm|done|done|].
  apply (inverse_trim (mClientToDataItems s) (mDataItemToClients s) c ids ids _ _ {[c]}); try done; cbn.
  - by apply no_empty_delete.
  - intros c' d. rewrite rel_delete. destruct (decide (c' = c)) as [->|]; [|naive_solver].
    split; [naive_solver|]. intros [? Hx]. exfalso. apply Hx. done.
  - intros d. unfold rel. fold ids. tauto.
Qed.

Lemma obs_inv_emit e (s : observer (D:=D) (Sys:=Sys)) :
  obs_inv s → fw_event (fw_subs (events s)) e = fw_subs (events s) → obs_inv (emit e s).
Proof. intros [? ?] E. split; [done|]. simpl. by rewrite fw_subs_snoc, E. Qed.

Lemma obs_inv_proc m (s : observer (D:=D) (Sys:=Sys)) :
  plain_msg m → obs_inv s → ∃ s', proc false m s = Some s' ∧ obs_inv s' ∧ queue s' = queue s.
Proof.
  intros Hm Hs. destruct m; simpl in *; try done; eauto using obs_inv_unsubscribe, obs_inv_unsubscribeAll.
  - eexists. split_and!; [done|by apply obs_inv_subsobj|]. unfold proc_SetSubsObj. by destruct (SetMap.empty _).
  - subst. eexists. split_and!; [done|by apply obs_inv_subscribe|]. apply proc_Subscribe_maps, Hs.
  - eexists. split_and!; [done| |apply proc_Notify_frame]. destruct Hs as [Hi Hf].
    destruct (proc_Notify_frame mDiVec s) as (E1 & E2 & E3 & _ & E4). unfold obs_inv. cbv zeta in *. by rewrite E1, E2, E3, E4.
  - eexists. split_and!; [done| |done]. by apply obs_inv_emit.
  - eexists. split_and!; [done| |done]. by apply obs_inv_emit.
  - eexists. split_and!; [done| |done]. by apply obs_inv_emit.
  - eexists. split_and!; [done| |done]. by apply obs_inv_emit.
Qed.

(** ** Executions: callers of the public methods interleaved with the MsgTask thread *)
Definition observer_init (x : Sys) : observer (D:=D) (Sys:=Sys) := Observer x ∅ ∅ ∅ ∅ ∅ false false [] [].

Inductive transition : observer (D:=D) (Sys:=Sys) → observer (D:=D) (Sys:=Sys) → Prop :=
  | t_setSubscriptionObj b s : transition s (setSubscriptionObj b s)
  | t_subscribe l c s : transition s (subscribe l c s)
  | t_unsubscribe l c s : transition s (unsubscribe l c s)
  | t_unsubscribeAll c s : transition s (unsubscribeAll c s)
  | t_notify l s : transition s (notify l s)
  | t_turnOn d t s : transition s (turnOn d t s)
  | t_turnOff d s : transition s (turnOff d s)
  | t_connectBackhaul n s : transition s (connectBackhaul n s).2
  | t_disconnectBackhaul n s : transition s (disconnectBackhaul n s).2
  | t_setFrameworkActionReqObj b s : transition s (setFrameworkActionReqObj b s)
  | t_step s s' : step false s = Some s' → transition s s'.

Inductive reachable : observer (D:=D) (Sys:=Sys) → Prop :=
  | reach_init x : reachable (observer_init x)
  | reach_step s s' : reachable s → transition s s' → reachable s'.

(** Posting plain messages or touching the other fields keeps the invariant. *)
Definition obs_ok (s : observer (D:=D) (Sys:=Sys)) : Prop := obs_inv s ∧ Forall plain_msg (queue s).

Lemma obs_ok_send m s : plain_msg m → obs_ok s → obs_ok (sendMsg m s).
Proof. intros Hm [? Hq]. split; [done|]. simpl. apply Forall_app. by split; [|constructor]. Qed.

Lemma obs_ok_backhaul f s : obs_ok s → obs_ok (set_backhaul f s).
Proof. done. Qed.
Lemma obs_ok_counts f s : obs_ok s → obs_ok (set_counts f s).
Proof. done. Qed.
Lemma obs_ok_fwobj b s : obs_ok s → obs_ok (set_fwobj b s).
Proof. done. Qed.

Lemma obs_ok_connect n s : obs_ok s → obs_ok (connectBackhaul n s).2.
Proof.
  intros. unfold connectBackhaul. destruct (mFrameworkActionReqObj s); [by apply obs_ok_send|by apply obs_ok_backhaul].
Qed.

Lemma obs_ok_step (s : observer (D:=D) (Sys:=Sys)) : obs_ok s → ∃ s', step false s = Some s' ∧ obs_ok s'.
Proof.
  intros [Hi Hq]. unfold step. destruct (queue s) as [|m q] eqn:E; [exists s; split; [done|split; [done|by rewrite E]]|].
  apply Forall_cons in Hq as [Hm Hq]. destruct (obs_inv_proc m (set_queue (λ _, q) s) Hm Hi) as (s' & -> & Hi' & Eq).
  exists s'. split; [done|]. split; [done|]. by rewrite Eq.
Qed.

Lemma obs_ok_transition s s' : transition s s' → obs_ok s → obs_ok s'.
Proof.
  intros Ht Hs. destruct Ht.
  - destruct b; [by apply obs_ok_send|done].
  - unfold subscribe, subscribe3. destruct l, c; try done. by apply obs_ok_send.
  - unfold unsubscribe. destruct l, c; try done. by apply obs_ok_send.
  - destruct c; [by apply obs_ok_send|done].
  - unfold notify. destruct l; [done|by apply obs_ok_send].
  - unfold turnOn. destruct (mFrameworkActionReqObj s); [|done]. destruct (_ !! _); [by apply obs_ok_counts|].
    by apply obs_ok_send, obs_ok_counts.
  - unfold turnOff. destruct (mFrameworkActionReqObj s); [|done]. destruct (_ !! _); [|done].
    destruct (decide _); [by apply obs_ok_send, obs_ok_counts|by apply obs_ok_counts].
  - by apply obs_ok_connect.
  - unfold disconnectBackhaul. destruct (mFrameworkActionReqObj s); [by apply obs_ok_send|by apply obs_ok_backhaul].
  - unfold setFrameworkActionReqObj. destruct (decide _); [by apply obs_ok_fwobj|]. apply obs_ok_backhaul.
    generalize (elements (mBackHaulConnReqCache (set_fwobj b s))) as l. intros l.
    assert (obs_ok (set_fwobj b s)) as Hb by (by apply obs_ok_fwobj). revert Hb.
    generalize (set_fwobj b s). induction l as [|nm l IH]; intros s0 Hs0; simpl; [done|].
    by apply IH, obs_ok_connect.
  - destruct (obs_ok_step s Hs) as (s1 & E & Ho). congruence.
Qed.

Lemma obs_ok_reachable s : reachable s → obs_ok s.
Proof.
  induction 1 as [|s s' _ IH Ht]; [|by apply (obs_ok_transition s)].
  split; [|constructor]. split; [|done]. unfold inverse, no_empty. split_and!.
  1, 2: intros k; simpl; by rewrite lookup_empty.
  intros c d. unfold rel, getValSet. simpl. rewrite !lookup_empty. set_solver.
Qed.

(** ** Delivery of notifications *)

(** What client [c] is told when the items [ids] changed, and telling it. *)
Definition told (s : observer (D:=D) (Sys:=Sys)) (ids : gset Z) (c : positive) : list D :=
  cached (mDataItemCache s) (elements (filter (λ id, id ∈ ids) (getValSet (mClientToDataItems s) c))).
Definition tell (del : positive → list D) (st : observer (D:=D) (Sys:=Sys)) (c : positive) : observer :=
  match del c with [] => st | l => emit (Notify c l) st end.

Lemma deliver_spec s1 (ids : gset Z) (cs : list positive) :
  foldl (λ st c, sendCachedDataItems (filter (λ id, id ∈ ids) (getValSet (mClientToDataItems st) c)) c st) s1 cs =
  foldl (tell (told s1 ids)) s1 cs.
Proof.
  assert (∀ s, mClientToDataItems s = mClientToDataItems s1 → mDataItemCache s = mDataItemCache s1 →
    foldl (λ st c, sendCachedDataItems (filter (λ id, id ∈ ids) (getValSet (mClientToDataItems st) c)) c st) s cs =
    foldl (tell (told s1 ids)) s cs) as Hs; [|by apply Hs].
  induction cs as [|c cs IH]; intros s E1 E2; simpl; [done|].
  rewrite sendCached_unfold, E1, E2. unfold tell at 2, told at 2.
  rewrite IH; [done|by destruct (cached _ _)..].
Qed.




(** ** What SystemStatus is asked to record *)

Definition records (x y : Sys) : Prop := ∃ d : D, y = (eventDataItemNotify d x).2.

Lemma updateCache_system d (s : observer (D:=D) (Sys:=Sys)) :
  rtc records (mSystemStatus s) (mSystemStatus (updateCache d s).2).
Proof.
  unfold updateCache. destruct d as [d|]; [|done].
  assert (records (mSystemStatus s) (eventDataItemNotify d (mSystemStatus s)).2) as Hr by by exists d.
  destruct (eventDataItemNotify d _) as [[h d'] x]. simpl in *. apply rtc_once in Hr. destruct h; [|done].
  destruct (mDataItemCache s !! getId d'); [by destruct (copy _ _)|]. by destruct (createNewDataItem _).
Qed.
Lemma notify_update_system items ids (s : observer (D:=D) (Sys:=Sys)) :
  rtc records (mSystemStatus s) (mSystemStatus (notify_update items ids s).2).
Proof.
  revert ids s. induction items as [|d items IH]; intros ids s; simpl; [done|].
  pose proof (updateCache_system d s) as Hu. destruct (updateCache d s) as [[u d1] s1]. simpl in Hu. by etrans.
Qed.
Lemma sendCached_system ids c (s : observer (D:=D) (Sys:=Sys)) : mSystemStatus (sendCachedDataItems ids c s) = mSystemStatus s.
Proof. rewrite sendCached_unfold. by destruct (cached _ _). Qed.
Lemma emit_if_system b e (s : observer (D:=D) (Sys:=Sys)) : mSystemStatus (emit_if b e s) = mSystemStatus s.
Proof. by destruct b. Qed.

Lemma deliver_system (s : observer (D:=D) (Sys:=Sys)) del cs : mSystemStatus (foldl (tell del) s cs) = mSystemStatus s.
Proof.
  induction cs as [|c cs IH] using rev_ind; [done|]. rewrite foldl_app. simpl. unfold tell at 1. by destruct (del c).
Qed.

Lemma proc_system m (s s' : observer (D:=D) (Sys:=Sys)) :
  proc false m s = Some s' → rtc records (mSystemStatus s) (mSystemStatus s').
Proof.
  assert (Hsame : ∀ x : Sys, x = mSystemStatus s → rtc records (mSystemStatus s) x) by by intros x ->.
  destruct m; cbn [proc]; try (by intros [= <-]).
  - intros [= <-]. apply Hsame. unfold proc_SetSubsObj. by destruct (SetMap.empty _).
  - intros [= <-]. apply Hsame. unfold proc_Subscribe. destruct (SetMap.add _ _ _ _) as [d2c sub].
    destruct (mSubscriptionObj _); [|by rewrite sendCached_system].
    destruct mToRequestData; [by simpl; rewrite sendCached_system|]. by rewrite emit_if_system, sendCached_system.
  - unfold proc_UpdateSubscription. destruct (SetMap.update _ _ _ _) as [[[gone ids'] c2d]|]; [|done]. cbn.
    destruct (trimOrRemove _ _ _ _ _ _) as [[[d2c unsub] w]|]; [|done]. cbn.
    destruct (SetMap.add _ _ _ _) as [d2c' sub]. intros [= <-]. apply Hsame.
    destruct (mSubscriptionObj _); by rewrite ?emit_if_system, ?sendCached_system.
  - unfold proc_Unsubscribe. destruct (trimOrRemove _ _ _ _ _ _) as [[[c2d w] unused]|]; [|done]. cbn.
    destruct (trimOrRemove _ _ _ _ _ _) as [[[d2c unsub] w']|]; [|done]. cbn. intros [= <-]. apply Hsame. by rewrite emit_if_system.
  - unfold proc_UnsubscribeAll. destruct (decide _); [by intros [= <-]|].
    destruct (trimOrRemove _ _ _ _ _ _) as [[[d2c unsub] w']|]; [|done]. cbn. intros [= <-]. apply Hsame. by rewrite emit_if_system.
  - intros [= <-]. unfold proc_Notify. pose proof (notify_update_system mDiVec ∅ s) as Hu.
    destruct (notify_update mDiVec ∅ s) as [ids s1]. simpl in Hu. by rewrite deliver_spec, deliver_system.
Qed.

Lemma transition_system (s s' : observer (D:=D) (Sys:=Sys)) :
  transition s s' → rtc records (mSystemStatus s) (mSystemStatus s').
Proof.
  intros Ht. assert (Hsame : ∀ x : Sys, x = mSystemStatus s → rtc records (mSystemStatus s) x) by by intros x ->.
  assert (Hc : ∀ n (o : observer (D:=D) (Sys:=Sys)), mSystemStatus (connectBackhaul n o).2 = mSystemStatus o).
  { intros n o. unfold connectBackhaul. by destruct (mFrameworkActionReqObj o). }
  destruct Ht as [b s|l c s|l c s|c s|l s|d t s|d s|n s|n s|b s|s s' Hs]; [apply Hsame ..|].
  - by destruct b.
  - unfold subscribe, subscribe3. by destruct l, c.
  - unfold unsubscribe. by destruct l, c.
  - by destruct c.
  - by destruct l.
  - unfold turnOn. destruct (mFrameworkActionReqObj s); [|done]. by destruct (_ !! _).
  - unfold turnOff. destruct (mFrameworkActionReqObj s); [|done]. destruct (_ !! _); [|done]. by destruct (decide _).
  - apply Hc.
  - unfold disconnectBackhaul. by destruct (mFrameworkActionReqObj s).
  - unfold setFrameworkActionReqObj. destruct (decide _); [done|]. simpl.
    generalize (elements (mBackHaulConnReqCache s)). intros l.
    change (mSystemStatus s) with (mSystemStatus (set_fwobj b s)). generalize (set_fwobj b s). clear Hsame.
    induction l as [|nm l IH]; intros o; simpl; [done|]. by rewrite IH, Hc.
  - unfold step in Hs. destruct (queue s) as [|m q]; [by injection Hs as [= <-]|]. apply proc_system in Hs. exact Hs.
Qed.

(** SystemStatus is only reached through its interface. *)
Lemma reachable_system (s : observer (D:=D) (Sys:=Sys)) : reachable s → ∃ x, rtc records x (mSystemStatus s).
Proof.
  induction 1 as [x|s s' _ [x IH] Ht]; [by exists x|]. exists x. etrans; [done|]. by apply transition_system.
Qed.

End Spec.

(** ** Reference counting of turnOn / turnOff *)
Inductive power_op := TurnOn (dit timeOut : Z) | TurnOff (dit : Z).

Definition power {D Sys} (s : observer (D:=D) (Sys:=Sys)) (o : power_op) : observer :=
  match o with TurnOn d t => turnOn d t s | TurnOff d => turnOff d s end.

(** How many clients hold item [d] on after some calls; a turnOff too many counts as nothing. *)
Definition balance_step (d : Z) (n : nat) (o : power_op) : nat :=
  match o with
  | TurnOn d' _ => if decide (d' = d) then S n else n
  | TurnOff d' => if decide (d' = d) then pred n else n
  end.

(** The on (true) and off (false) messages for item [d], oldest first. *)
Definition power_msgs {D} (d : Z) (q : list (msg (D:=D))) : list bool :=
  omap (λ m, match m with
             | HandleTurnOnMsg d' _ => if decide (d' = d) then Some true else None
             | HandleTurnOffMsg d' => if decide (d' = d) then Some false else None
             | _ => None
             end) q.

(** on, off, on, off, ... of length [n] *)
Fixpoint alternating (b : bool) (n : nat) : list bool :=
  match n with 0 => [] | S n => b :: alternating (negb b) n end.

Lemma alternating_snoc b n : alternating b (S n) = alternating b n ++ [xorb b (Nat.odd n)].
Proof.
  revert b. induction n as [|n IH]; intros b; [by destruct b|].
  change (alternating b (S (S n))) with (b :: alternating (negb b) (S n)). rewrite IH. cbn [alternating app].
  rewrite Nat.odd_succ, <-Nat.negb_odd. by destruct b, (Nat.odd n).
Qed.

Lemma power_msgs_snoc {D} d (q : list (msg (D:=D))) m :
  power_msgs d (q ++ [m]) = power_msgs d q ++ power_msgs d [m].
Proof. unfold power_msgs. by rewrite omap_app. Qed.

(** The counter of [d] and the messages posted for it, against the balance [n]. *)
Definition power_ok {D Sys} (d : Z) (n : nat) (s : observer (D:=D) (Sys:=Sys)) : Prop :=
  mFrameworkActionReqObj s = true ∧
  mActiveRequestCount s !! d = (if decide (n = 0) then None else Some (Z.of_nat n)) ∧
  ∃ k, power_msgs d (queue s) = alternating true k ∧ Nat.odd k = bool_decide (n ≠ 0).

Lemma power_ok_on {D Sys} d n t (s : observer (D:=D) (Sys:=Sys)) : power_ok d n s → power_ok d (S n) (turnOn d t s).
Proof.
  intros (Hf & Hc & k & Hk & Ho). unfold turnOn. rewrite Hf, Hc. destruct (decide (n = 0)) as [->|Hn]; simpl.
  - split_and!; [done|simpl; by rewrite lookup_insert_eq|]. exists (S k). simpl.
    rewrite power_msgs_snoc, Hk. unfold power_msgs. simpl. rewrite decide_True by done.
    rewrite Nat.odd_succ, <-Nat.negb_odd, Ho. split; [|done].
    change (true :: alternating false k) with (alternating true (S k)). by rewrite alternating_snoc, Ho.
  - split_and!; [done|simpl; rewrite lookup_insert_eq; f_equal; lia|]. exists k. split; [done|].
    rewrite Ho. apply bool_decide_ext. lia.
Qed.

Lemma power_ok_off {D Sys} d n (s : observer (D:=D) (Sys:=Sys)) : power_ok d n s → power_ok d (pred n) (turnOff d s).
Proof.
  intros (Hf & Hc & k & Hk & Ho). unfold turnOff. rewrite Hf, Hc. destruct n as [|n]; [by split_and!; eauto|].
  rewrite decide_False by done. cbn [pred]. destruct (decide (Z.of_nat (S n) - 1 = 0)%Z) as [Hz|Hz].
  - assert (n = 0) as -> by lia. split_and!; [done|simpl; by rewrite lookup_delete_eq|]. exists (S k). simpl.
    rewrite power_msgs_snoc, Hk. unfold power_msgs. simpl. rewrite decide_True by done.
    rewrite Nat.odd_succ, <-Nat.negb_odd, Ho. split; [|done].
    change (true :: alternating false k) with (alternating true (S k)). by rewrite alternating_snoc, Ho.
  - assert (n ≠ 0) as Hn by lia. split_and!; [done|simpl; rewrite lookup_insert_eq, decide_False by done; f_equal; lia|].
    exists k. split; [done|]. rewrite Ho. apply bool_decide_ext. lia.
Qed.

Lemma power_ok_step {D Sys} d n o (s : observer (D:=D) (Sys:=Sys)) : power_ok d n s → power_ok d (balance_step d n o) (power s o).
Proof.
  intros Hs. destruct o as [d' t|d']; simpl; destruct (decide (d' = d)) as [->|Hd];
    [by apply power_ok_on| |by apply power_ok_off|]; destruct Hs as (Hf & Hc & k & Hk & Ho).
  - unfold turnOn. rewrite Hf. destruct (mActiveRequestCount s !! d'); unfold power_ok; simpl;
      rewrite lookup_insert_ne, ?power_msgs_snoc by done; split_and!; eauto; exists k; split; [|done].
    unfold power_msgs at 2. simpl. by rewrite decide_False, app_nil_r.
  - unfold turnOff. rewrite Hf. destruct (mActiveRequestCount s !! d') as [z|]; [|by split_and!; eauto].
    destruct (decide (z - 1 = 0)%Z); unfold power_ok; simpl; rewrite ?lookup_insert_ne, ?lookup_delete_ne, ?power_msgs_snoc by done;
      split_and!; eauto; exists k; split; [|done].
    unfold power_msgs at 2. simpl. by rewrite decide_False, app_nil_r.
Qed.

(** * Properties *)

(** The message takes away the last item of a client, or the last client of an item. *)
Definition last_subscription {D Sys} (m : msg (D:=D)) (s : observer (D:=D) (Sys:=Sys)) : Prop :=
  match m with
  | HandleUnsubscribeReq ids c =>
      (∃ items, mClientToDataItems s !! c = Some items ∧ items ⊆ ids) ∨
      ∃ d, d ∈ ids ∧ mDataItemToClients s !! d = Some {[c]}
  | HandleUnsubscribeAllReq c => ∃ d, mDataItemToClients s !! d = Some {[c]}
  | _ => False
  end.

Section erased.
Context {D Sys : Type} `{DataItems D} `{SystemStatusI D Sys}.
Implicit Types (s : observer (D:=D) (Sys:=Sys)).

(** Of the items [W] of the client some has no other client. *)
Lemma emptied_items (c2d : gmap positive (gset Z)) (d2c : gmap Z (gset positive)) c (W : gset Z) :
  inverse c2d d2c → (emptied d2c (elements W) {[c]} ↔ ∃ d, d ∈ W ∧ d2c !! d = Some {[c]}).
Proof.
  intros (_ & Hn & _). unfold emptied. setoid_rewrite elem_of_elements. split.
  - intros (d & cs & Hd & Hcs & Hsub). exists d. split; [done|]. rewrite Hcs. f_equal.
    destruct (decide (cs = ∅)) as [->|Hne]; [by destruct (Hn d)|]. apply set_choose_L in Hne as [x Hx]. set_solver.
  - intros (d & Hd & Hcs). exists d, {[c]}. set_solver.
Qed.

Lemma unsubscribe_erased ids c s : inverse (mClientToDataItems s) (mDataItemToClients s) →
  (last_subscription (HandleUnsubscribeReq ids c) s → proc_Unsubscribe true ids c s = None) ∧
  (¬ last_subscription (HandleUnsubscribeReq ids c) s → proc_Unsubscribe true ids c s = proc_Unsubscribe false ids c s).
Proof.
  intros Hi. pose proof Hi as (Hn1 & Hn2 & Hr). unfold proc_Unsubscribe, last_subscription.
  assert (He : emptied (mClientToDataItems s) (elements ({[c]} : gset positive)) ids ↔ ∃ items, mClientToDataItems s !! c = Some items ∧ items ⊆ ids).
  { unfold emptied. setoid_rewrite elem_of_elements. set_solver. }
  assert (Hdec : Decision (∃ items, mClientToDataItems s !! c = Some items ∧ items ⊆ ids)).
  { destruct (mClientToDataItems s !! c) as [items|]; [|right; by intros (? & ? & _)].
    destruct (decide (items ⊆ ids)); [left; eauto|right; naive_solver]. }
  destruct Hdec as [Hc|Hc].
  { rewrite trimOrRemove_erased by (done || by apply He). split; [done|]. intros Hl. destruct Hl. by left. }
  rewrite trimOrRemove_agrees by (done || by rewrite He).
  destruct (trimOrRemove_spec false (mClientToDataItems s) {[c]} (Some ∅) (Some ∅) ids Hn1) as (c2d & G & W & E & _ & _ & _ & HW); [done|].
  rewrite E. cbn [mbind option_bind opt_union default from_option id fst snd]. set (W' := default ∅ (opt_union (Some ∅) W)).
  assert (Hw : (∃ d, d ∈ W' ∧ mDataItemToClients s !! d = Some {[c]}) ↔ ∃ d, d ∈ ids ∧ mDataItemToClients s !! d = Some {[c]}).
  { assert (∀ d, d ∈ W' ↔ d ∈ W) as HW' by (intros d; unfold W'; simpl; set_solver). setoid_rewrite HW'. setoid_rewrite HW. split.
    - intros (d & [Hd _] & Hdc). eauto.
    - intros (d & Hd & Hdc). exists d. split_and!; [done| |done]. exists c. split; [set_solver|]. apply Hr. apply rel_lookup. exists {[c]}. set_solver. }
  assert (Hd := emptied_items _ _ c W' Hi). split.
  - intros [?|Hl]; [done|]. by rewrite trimOrRemove_erased by (done || by apply Hd, Hw).
  - intros Hl. rewrite trimOrRemove_agrees; [done|done|]. rewrite Hd, Hw. intros Hx. apply Hl. by right.
Qed.

Lemma unsubscribeAll_erased c s : inverse (mClientToDataItems s) (mDataItemToClients s) →
  (last_subscription (HandleUnsubscribeAllReq c) s → proc_UnsubscribeAll true c s = None) ∧
  (¬ last_subscription (HandleUnsubscribeAllReq c) s → proc_UnsubscribeAll true c s = proc_UnsubscribeAll false c s).
Proof.
  intros Hi. pose proof Hi as (Hn1 & Hn2 & Hr). unfold proc_UnsubscribeAll, last_subscription.
  set (W := getValSet (mClientToDataItems s) c). assert (Hd := emptied_items _ _ c W Hi).
  assert (Hw : (∃ d, d ∈ W ∧ mDataItemToClients s !! d = Some {[c]}) ↔ ∃ d, mDataItemToClients s !! d = Some {[c]}).
  { split; [naive_solver|]. intros (d & Hdc). exists d. split; [|done]. apply Hr. apply rel_lookup. exists {[c]}. set_solver. }
  destruct (decide (W = ∅)) as [E|E].
  { split; [|done]. intros (d & Hdw & _)%Hw. rewrite E in Hdw. set_solver. }
  split.
  - intros Hl. by rewrite trimOrRemove_erased by (done || by apply Hd, Hw).
  - intros Hl. rewrite trimOrRemove_agrees; [done|done|]. by rewrite Hd, Hw.
Qed.

Lemma step_erased s : obs_ok s →
  (∀ m q, queue s = m :: q → last_subscription m s → step true s = None) ∧
  ((∀ m q, queue s = m :: q → ¬ last_subscription m s) → step true s = step false s).
Proof.
  intros [[Hi _] Hq]. unfold step. destruct (queue s) as [|m q] eqn:E; [by split|]. apply Forall_cons in Hq as [Hm _].
  pose proof (unsubscribe_erased) as Hu. pose proof unsubscribeAll_erased as Ha. split.
  - intros ? ? [= <- <-] Hl. destruct m; try done; simpl; [by apply Hu|by apply Ha].
  - intros Hl. specialize (Hl m q eq_refl). destruct m; try done; simpl; [by apply Hu|by apply Ha].
Qed.
End erased.

(** C35: the subscriptions agree: in every state reached by callers of setSubscriptionObj,
    subscribe, unsubscribe, unsubscribeAll, notify, turnOn, turnOff, connectBackhaul,
    disconnectBackhaul and setFrameworkActionReqObj (updateSubscription and requestData are left
    out) interleaved with the message thread, the two maps are inverses of each other without
    empty entries, the framework is subscribed to exactly the items some client is subscribed to
    (to none before the subscription object is set), and the next message is processed. In these
    executions an iterator that is read after its element was erased still gives the key that was
    erased. By the C++ standard that read is undefined: the next message is then undefined exactly
    when it takes away the last item of a client or the last client of an item, and has the same
    effect in all other cases. *)
Theorem observer_subscriptions_consistent {D Sys} `{DataItems D} `{SystemStatusI D Sys} (s : observer (D:=D) (Sys:=Sys)) :
  reachable s →
  inverse (mClientToDataItems s) (mDataItemToClients s) ∧
  fw_subs (events s) = (if mSubscriptionObj s then dom (mDataItemToClients s) else ∅) ∧
  is_Some (step false s) ∧
  (∀ m q, queue s = m :: q → last_subscription m s → step true s = None) ∧
  ((∀ m q, queue s = m :: q → ¬ last_subscription m s) → step true s = step false s).
Proof.
  intros Hs. apply obs_ok_reachable in Hs as Ho. destruct (obs_ok_step s Ho) as (s' & E & _).
  destruct (step_erased s Ho) as [H1 H2]. destruct Ho as [[? ?] _]. split_and!; [done|done| |done|done]. rewrite E. eauto.
Qed.


(** TurnOn and turnOff are reference counted: after any sequence of calls on an
    observer with a framework object and no open requests, the counter of an item is
    the number of unmatched turnOn calls (turnOff calls too many are ignored), the
    messages posted for the item alternate on, off, on, ..., and the last of them is
    "on" exactly when that number is not zero. *)
Theorem turnOn_turnOff_refcount {D Sys} (s : observer (D:=D) (Sys:=Sys)) ops d :
  mFrameworkActionReqObj s = true → mActiveRequestCount s = ∅ → queue s = [] →
  let n := foldl (balance_step d) 0 ops in
  let s' := foldl power s ops in
  mActiveRequestCount s' !! d = (if decide (n = 0) then None else Some (Z.of_nat n)) ∧
  ∃ k, power_msgs d (queue s') = alternating true k ∧ Nat.odd k = bool_decide (n ≠ 0).
Proof.
  intros Hf Hc Hq. assert (power_ok d 0 s) as H0.
  { split_and!; [done|by rewrite Hc|]. exists 0. by rewrite Hq. }
  assert (power_ok d (foldl (balance_step d) 0 ops) (foldl power s ops)) as (_ & ? & ?); [|done].
  revert H0. generalize 0 as m. revert s Hf Hc Hq. induction ops as [|o ops IH] using rev_ind; intros s Hf Hc Hq m H0; simpl; [done|].
  rewrite !foldl_app. simpl. apply power_ok_step. by apply IH.
Qed.

(** UpdateSubscription does not implement its contract (unsubscribe from the items
    no longer listed, subscribe to the new ones): because the map's update reports the
    kept items as gone, after the message for a client whose old and new sets are both
    known, an item in both sets is still listed for the client but the client is no
    longer among the item's clients, and an item only in the old set keeps the client. *)
Theorem updateSubscription_drops_kept_items {D Sys} `{DataItems D} `{SystemStatusI D Sys} (s s' : observer (D:=D) (Sys:=Sys)) ids c :
  inverse (mClientToDataItems s) (mDataItemToClients s) → ids ≠ ∅ →
  proc_UpdateSubscription false ids c s = Some s' →
  getValSet (mClientToDataItems s') c = ids ∧
  (∀ d, d ∈ ids → rel (mClientToDataItems s) c d → ¬ rel (mDataItemToClients s') d c) ∧
  (∀ d, d ∉ ids → rel (mClientToDataItems s) c d → rel (mDataItemToClients s') d c).
Proof.
  intros (Hn1 & Hn2 & Hr) Hne. unfold proc_UpdateSubscription. rewrite update_spec by done. cbn.
  destruct (trim_client (mDataItemToClients s) (getValSet (mClientToDataItems s) c ∩ ids) c Hn2)
    as (d2c & G & -> & Hn2' & Hr2 & _). cbn.
  destruct (add_spec d2c (ids ∖ getValSet (mClientToDataItems s) c) ({[c]} : gset positive) (Some ∅) Hn2')
    as (d2c' & N & -> & _ & Hr3 & _). cbn.
  match goal with |- context [sendCachedDataItems ?i ?c ?s2] =>
    destruct (sendCached_frame i c s2) as (E1 & E2 & _); set (s3 := sendCachedDataItems i c s2) in * end.
  intros [= <-].
  assert (∀ x b1 e1 b2 e2, mClientToDataItems (if x : bool then emit_if b1 e1 (emit_if b2 e2 s3) else s3) = mClientToDataItems s3 ∧
            mDataItemToClients (if x then emit_if b1 e1 (emit_if b2 e2 s3) else s3) = mDataItemToClients s3) as Hx.
  { intros x b1 e1 b2 e2. by destruct x, b1, b2. }
  match goal with |- context [if mSubscriptionObj s3 then emit_if ?b1 ?e1 (emit_if ?b2 ?e2 s3) else s3] =>
    destruct (Hx (mSubscriptionObj s3) b1 e1 b2 e2) as [X1 X2] end.
  rewrite X1, X2, E1, E2. simpl. split_and!.
  - unfold getValSet. by rewrite lookup_insert_eq.
  - intros d Hd Hrel. rewrite Hr3, Hr2. unfold rel in Hrel. set_solver.
  - intros d Hd Hrel. rewrite Hr3, Hr2, <-Hr. unfold rel in *. set_solver.
Qed.

(** RequestData records the client as a subscriber without subscribing at the
    framework, and a later subscribe of any client to the same items is then not
    forwarded either: the clients are registered, the framework is never asked. *)
Theorem requestData_hides_subscription {D Sys} `{DataItems D} `{SystemStatusI D Sys} (s : observer (D:=D) (Sys:=Sys)) ids l c l' c' :
  inverse (mClientToDataItems s) (mDataItemToClients s) →
  let s1 := proc_Subscribe ids l c true s in
  let s2 := proc_Subscribe ids l' c' false s1 in
  (∀ d, d ∈ ids → rel (mClientToDataItems s2) c d ∧ rel (mClientToDataItems s2) c' d) ∧
  fw_subs (events s2) = fw_subs (events s).
Proof.
  intros Hi. destruct (proc_Subscribe_maps ids l c true s Hi) as (Hi1 & _ & _ & Hd1 & Hr1 & Hf1).
  destruct (proc_Subscribe_maps ids l' c' false _ Hi1) as (_ & _ & _ & _ & Hr2 & Hf2). cbv zeta in *. split.
  - intros d Hd. rewrite !Hr2, !Hr1. naive_solver.
  - rewrite Hf2, Hd1, Hf1. cbn [negb]. rewrite andb_false_r. destruct (_ && true); [|done].
    assert (ids ∖ (dom (mDataItemToClients s) ∪ ids) = ∅) as -> by set_solver. by rewrite union_empty_r_L.
Qed.

(** ** Concrete runs *)
#[local] Instance wit_items : DataItems (Z * Z) := {|
  getId d := d.1;
  createNewDataItem id := Some (id, 0%Z);
  copy old new := (new, negb (bool_decide (old.2 = new.2)));
|}.
#[local] Instance wit_status : SystemStatusI (Z * Z) unit := {| eventDataItemNotify d x := (true, d, x) |}.

(** Two clients subscribe to items 1,2 and 2,3; the framework arrives; a message is processed. *)
Definition wit_obs : observer (D := Z * Z) (Sys := unit) :=
  let s := subscribe [2; 3]%Z (Some 2%positive) (subscribe [1; 2]%Z (Some 1%positive)
             (setSubscriptionObj true (observer_init tt))) in
  default (observer_init tt) (s1 ← step false s; s2 ← step false s1; step false s2).

Lemma wit_obs_reachable : reachable wit_obs.
Proof.
  set (s0 := setSubscriptionObj true (observer_init (D := Z * Z) tt)).
  set (s1 := subscribe [1; 2]%Z (Some 1%positive) s0). set (s2 := subscribe [2; 3]%Z (Some 2%positive) s1).
  eapply reach_step; [eapply reach_step; [eapply reach_step; [eapply reach_step; [eapply reach_step;
    [eapply reach_step; [apply reach_init|apply (t_setSubscriptionObj true)]|apply (t_subscribe [1; 2]%Z (Some 1%positive))]
    |apply (t_subscribe [2; 3]%Z (Some 2%positive))]|]|]|].
  - apply t_step. vm_compute. reflexivity.
  - apply t_step. vm_compute. reflexivity.
  - apply t_step. vm_compute. reflexivity.
Qed.

Lemma observer_subscriptions_consistent_witness :
  fw_subs (events wit_obs) = {[1; 2; 3]}%Z ∧ fw_subs (events wit_obs) = dom (mDataItemToClients wit_obs).
Proof.
  split; [by vm_compute|]. apply (observer_subscriptions_consistent wit_obs), wit_obs_reachable.
Defined.

Lemma wit_inverse : inverse (mClientToDataItems wit_obs) (mDataItemToClients wit_obs).
Proof. apply obs_ok_reachable, wit_obs_reachable. Qed.


Lemma turnOn_turnOff_refcount_witness :
  let s := set_fwobj true (observer_init (D := Z * Z) tt) in
  let ops := [TurnOn 5 0; TurnOn 5 0; TurnOff 5; TurnOff 5; TurnOff 5; TurnOn 5 0]%Z in
  mActiveRequestCount (foldl power s ops) !! 5%Z = Some 1%Z ∧
  ∃ k, power_msgs 5 (queue (foldl power s ops)) = alternating true k ∧ Nat.odd k = true.
Proof. apply (turnOn_turnOff_refcount (set_fwobj true (observer_init tt))); reflexivity. Defined.

Lemma updateSubscription_drops_kept_items_witness :
  ∃ s', proc_UpdateSubscription false {[2; 4]}%Z 1%positive wit_obs = Some s' ∧
    getValSet (mClientToDataItems s') 1%positive = {[2; 4]}%Z ∧
    ¬ rel (mDataItemToClients s') 2%Z 1%positive ∧ rel (mDataItemToClients s') 1%Z 1%positive.
Proof.
  destruct (proc_UpdateSubscription false {[2; 4]}%Z 1%positive wit_obs) as [s'|] eqn:E; [|by vm_compute in E].
  exists s'. destruct (updateSubscription_drops_kept_items wit_obs s' {[2; 4]}%Z 1%positive wit_inverse)
    as (E1 & E2 & E3); [by vm_compute|done|].
  split_and!; [done|done|apply E2; [by vm_compute|by vm_compute]|].
  apply E3; [by vm_compute|by vm_compute].
Defined.

Lemma requestData_hides_subscription_witness :
  let s1 := proc_Subscribe {[9]}%Z [9]%Z 1%positive true wit_obs in
  let s2 := proc_Subscribe {[9]}%Z [9]%Z 2%positive false s1 in
  (∀ d, d ∈ ({[9]}%Z : gset Z) → rel (mClientToDataItems s2) 1%positive d ∧ rel (mClientToDataItems s2) 2%positive d) ∧
  fw_subs (events s2) = fw_subs (events wit_obs).
Proof. apply (requestData_hides_subscription wit_obs), wit_inverse. Defined.
