(* ===== verification/Agps.v ===== *)
(** * gps/gnss/Agps.cpp, Agps.h : the assisted-GPS data connection state machines.

    The manager owns up to two state machines, for the AGNSS and the internet
    network interface.  Subscribers are objects behind pointers: [subs] is the store
    they live in, the lists of the machines hold addresses, and [mCurrentSubscriber]
    may alias an element of the list (releaseATL) or an object on the caller's stack
    (requestATL), so the model keeps the addresses and a dereference of a deleted or
    NULL subscriber or machine is [UB].  The callbacks into the framework and the
    modem side, which return nothing, are recorded in [log]. *)
From S2P Require Import Prelude.

(** ** Data *)
Inductive AgpsState :=
  | AGPS_STATE_INVALID | AGPS_STATE_RELEASED | AGPS_STATE_PENDING | AGPS_STATE_ACQUIRED | AGPS_STATE_RELEASING.
Inductive AgpsEvent :=
  | AGPS_EVENT_INVALID | AGPS_EVENT_SUBSCRIBE | AGPS_EVENT_UNSUBSCRIBE | AGPS_EVENT_GRANTED
  | AGPS_EVENT_RELEASED | AGPS_EVENT_DENIED.
Inductive AgpsNotificationType :=
  | AGPS_NOTIFICATION_TYPE_INVALID | AGPS_NOTIFICATION_TYPE_FOR_ALL_SUBSCRIBERS
  | AGPS_NOTIFICATION_TYPE_FOR_INACTIVE_SUBSCRIBERS | AGPS_NOTIFICATION_TYPE_FOR_ACTIVE_SUBSCRIBERS.

#[export] Instance AgpsState_eq_dec : EqDecision AgpsState.
Proof. solve_decision. Defined.

Record AgpsSubscriber := Subscriber {
  mConnHandle : Z;
  mWaitForCloseComplete : bool;
  mIsInactive : bool;
  sub_mApnTypeMask : Z;
}.

(** [mAPN] is the string before its terminator. *)
Record AgpsStateMachine := SM {
  mSubscriberList : list addr;
  mCurrentSubscriber : ptr;
  mState : AgpsState;
  mAgpsType : Z;
  mApnTypeMask : Z;
  mAPN : option (list Z);
  mAPNLen : Z;
  mBearer : Z;
}.

Inductive agps_out :=
  | FrameworkStatus (type apnTypeMask status : Z)
  | AtlOpenStatus (handle isSuccess : Z) (apn : option (list Z)) (apnLen bearer agpsType apnTypeMask : Z)
  | AtlCloseStatus (handle isSuccess : Z).

Inductive nif := AgnssNif | InternetNif.

#[export] Instance nif_eq_dec : EqDecision nif.
Proof. solve_decision. Defined.

Record world := World {
  subs : gmap addr AgpsSubscriber;
  mAgnssNif : option AgpsStateMachine;
  mInternetNif : option AgpsStateMachine;
  log : list agps_out;
}.

Definition LOC_AGPS_TYPE_INVALID : Z := -1.
Definition LOC_AGPS_TYPE_SUPL : Z := 1.
Definition LOC_AGPS_TYPE_WWAN_ANY : Z := 3.
Definition LOC_AGPS_TYPE_SUPL_ES : Z := 5.
Definition AGPS_APN_BEARER_INVALID : Z := 0.
Definition MAX_APN_LEN : Z := 100.
Definition LOC_GPS_REQUEST_AGPS_DATA_CONN : Z := 1.
Definition LOC_GPS_RELEASE_AGPS_DATA_CONN : Z := 2.
Definition LOC_APN_TYPE_MASK_SUPL : Z := 16.
Definition LOC_APN_TYPE_MASK_EMERGENCY : Z := 512.
Definition AGPS_ATL_TYPE_SUPL : Z := 1.
Definition AGPS_ATL_TYPE_SUPL_ES : Z := 2.
Definition AGPS_ATL_TYPE_WWAN : Z := 4.
Definition LOC_GPS_CAPABILITY_MSB : Z := 2.
Definition LOC_GPS_CAPABILITY_MSA : Z := 4.

(** ** Access to the world *)
Definition sm_at (n : nif) (w : world) : option AgpsStateMachine :=
  match n with AgnssNif => mAgnssNif w | InternetNif => mInternetNif w end.
Definition put_sm (n : nif) (m : AgpsStateMachine) (w : world) : world :=
  match n with
  | AgnssNif => World (subs w) (Some m) (mInternetNif w) (log w)
  | InternetNif => World (subs w) (mAgnssNif w) (Some m) (log w)
  end.
Definition set_subs (f : gmap addr AgpsSubscriber → gmap addr AgpsSubscriber) (w : world) : world :=
  World (f (subs w)) (mAgnssNif w) (mInternetNif w) (log w).
Definition out (o : agps_out) : M world unit :=
  modify (λ w, World (subs w) (mAgnssNif w) (mInternetNif w) (log w ++ [o])).

(** [this->...], where [this] may be NULL *)
Definition this (n : nif) : M world AgpsStateMachine := deref (sm_at n).
Definition set_this (n : nif) (f : AgpsStateMachine → AgpsStateMachine) : M world unit :=
  m ← this n; modify (put_sm n (f m)).

Definition set_list l (m : AgpsStateMachine) :=
  SM l (mCurrentSubscriber m) (mState m) (mAgpsType m) (mApnTypeMask m) (mAPN m) (mAPNLen m) (mBearer m).
Definition set_current p (m : AgpsStateMachine) :=
  SM (mSubscriberList m) p (mState m) (mAgpsType m) (mApnTypeMask m) (mAPN m) (mAPNLen m) (mBearer m).
Definition set_state s (m : AgpsStateMachine) :=
  SM (mSubscriberList m) (mCurrentSubscriber m) s (mAgpsType m) (mApnTypeMask m) (mAPN m) (mAPNLen m) (mBearer m).
Definition set_type t (m : AgpsStateMachine) :=
  SM (mSubscriberList m) (mCurrentSubscriber m) (mState m) t (mApnTypeMask m) (mAPN m) (mAPNLen m) (mBearer m).
Definition set_mask k (m : AgpsStateMachine) :=
  SM (mSubscriberList m) (mCurrentSubscriber m) (mState m) (mAgpsType m) k (mAPN m) (mAPNLen m) (mBearer m).
Definition set_apn a len (m : AgpsStateMachine) :=
  SM (mSubscriberList m) (mCurrentSubscriber m) (mState m) (mAgpsType m) (mApnTypeMask m) a len (mBearer m).
Definition set_bearer b (m : AgpsStateMachine) :=
  SM (mSubscriberList m) (mCurrentSubscriber m) (mState m) (mAgpsType m) (mApnTypeMask m) (mAPN m) (mAPNLen m) b.

Definition load (p : ptr) : M world AgpsSubscriber :=
  match p with Some a => deref (λ w, subs w !! a) | None => ub end.
Definition store (p : ptr) (s : AgpsSubscriber) : M world unit :=
  match p with Some a => _ ← load p; modify (set_subs <[a := s]>) | None => ub end.
Definition alloc (s : AgpsSubscriber) : M world addr := λ w,
  let a := fresh (dom (subs w)) in Done a (set_subs <[a := s]> w).
Definition delete_sub (a : addr) : M world unit := _ ← load (Some a); modify (set_subs (delete a)).

#[local] Arguments delete_sub : simpl never.
#[local] Arguments load : simpl never.
#[local] Arguments alloc : simpl never.
#[local] Arguments set_this : simpl never.

(** ** AgpsSubscriber *)
Definition equals (s t : AgpsSubscriber) : bool := bool_decide (mConnHandle s = mConnHandle t).
Definition clone (p : ptr) : M world addr :=
  s ← load p; alloc (Subscriber (mConnHandle s) (mWaitForCloseComplete s) (mIsInactive s) (sub_mApnTypeMask s)).

(** ** AgpsStateMachine *)
Definition requestOrReleaseDataConn (n : nif) (request : bool) : M world unit :=
  m ← this n;
  out (FrameworkStatus (mAgpsType m) (mApnTypeMask m)
         (if request then LOC_GPS_REQUEST_AGPS_DATA_CONN else LOC_GPS_RELEASE_AGPS_DATA_CONN)).

Definition transitionState (n : nif) (newState : AgpsState) : M world unit := set_this n (set_state newState).

(** [pre] is the part of the list the iterator has passed. *)
Fixpoint deleteSubscriber_loop (n : nif) (subscriberToDelete : ptr) (pre rest : list addr) : M world unit :=
  match rest with
  | [] => mret tt
  | a :: rest =>
      s ← load (Some a);
      t ← load subscriberToDelete;
      if equals s t then
        _ ← set_this n (set_list (pre ++ rest));
        _ ← delete_sub a;
        deleteSubscriber_loop n subscriberToDelete pre rest
      else deleteSubscriber_loop n subscriberToDelete (pre ++ [a]) rest
  end.
Definition deleteSubscriber (n : nif) (subscriberToDelete : ptr) : M world unit :=
  m ← this n; deleteSubscriber_loop n subscriberToDelete [] (mSubscriberList m).

Definition notifyEventToSubscriber (n : nif) (event : AgpsEvent) (p : ptr) (deletePostNotify : bool) : M world unit :=
  _ ← match event with
      | AGPS_EVENT_GRANTED =>
          m ← this n; s ← load p;
          out (AtlOpenStatus (mConnHandle s) 1 (mAPN m) (mAPNLen m) (mBearer m) (mAgpsType m) (mApnTypeMask m))
      | AGPS_EVENT_DENIED =>
          m ← this n; s ← load p;
          out (AtlOpenStatus (mConnHandle s) 0 (mAPN m) (mAPNLen m) (mBearer m) (mAgpsType m) (mApnTypeMask m))
      | AGPS_EVENT_UNSUBSCRIBE | AGPS_EVENT_RELEASED =>
          _ ← this n; s ← load p; out (AtlCloseStatus (mConnHandle s) 1)
      | _ => mret tt
      end;
  if deletePostNotify then deleteSubscriber n p else mret tt.

(** Which subscribers a notification type addresses. *)
Definition addressed (ty : AgpsNotificationType) (s : AgpsSubscriber) : bool :=
  match ty with
  | AGPS_NOTIFICATION_TYPE_FOR_ALL_SUBSCRIBERS => true
  | AGPS_NOTIFICATION_TYPE_FOR_INACTIVE_SUBSCRIBERS => mIsInactive s
  | AGPS_NOTIFICATION_TYPE_FOR_ACTIVE_SUBSCRIBERS => negb (mIsInactive s)
  | AGPS_NOTIFICATION_TYPE_INVALID => false
  end.

Fixpoint notifyAllSubscribers_loop (n : nif) (event : AgpsEvent) (del : bool) (ty : AgpsNotificationType)
    (pre rest : list addr) : M world unit :=
  match rest with
  | [] => mret tt
  | a :: rest =>
      s ← load (Some a);
      if addressed ty s then
        _ ← notifyEventToSubscriber n event (Some a) false;
        if del then
          _ ← set_this n (set_list (pre ++ rest));
          _ ← delete_sub a;
          notifyAllSubscribers_loop n event del ty pre rest
        else notifyAllSubscribers_loop n event del ty (pre ++ [a]) rest
      else notifyAllSubscribers_loop n event del ty (pre ++ [a]) rest
  end.
Definition notifyAllSubscribers (n : nif) (event : AgpsEvent) (del : bool) (ty : AgpsNotificationType) : M world unit :=
  m ← this n; notifyAllSubscribers_loop n event del ty [] (mSubscriberList m).

(** The search loop of [addSubscriber]: is an equal subscriber in the list? *)
Fixpoint find_equal (subscriberToAdd : ptr) (l : list addr) : M world bool :=
  match l with
  | [] => mret false
  | a :: l =>
      s ← load (Some a); t ← load subscriberToAdd;
      if equals s t then mret true else find_equal subscriberToAdd l
  end.
Definition addSubscriber (n : nif) (subscriberToAdd : ptr) : M world unit :=
  m ← this n;
  found ← find_equal subscriberToAdd (mSubscriberList m);
  if found : bool then mret tt
  else cloned ← clone subscriberToAdd;
       set_this n (λ m, set_list (mSubscriberList m ++ [cloned]) m).

Fixpoint anyActive_loop (l : list addr) : M world bool :=
  match l with
  | [] => mret false
  | a :: l => s ← load (Some a); if negb (mIsInactive s) then mret true else anyActive_loop l
  end.
Definition anyActiveSubscribers (n : nif) : M world bool :=
  m ← this n; anyActive_loop (mSubscriberList m).

(** The string comes from [new char[len + 1]] and is given to the scalar [delete], which the
    language leaves undefined. [array_delete] is whether the platform's [delete] frees such an
    array all the same, as one that calls free does. *)
Section agps.
Context (array_delete : bool).

(** [len] is unsigned int; [apn] the characters before the terminator. *)
Definition setAPN (n : nif) (apn : option (list Z)) (len : Z) : M world unit :=
  m ← this n;
  _ ← when (negb (is_null (mAPN m))) (if array_delete then set_this n (set_apn None (mAPNLen m)) else ub);
  match apn with
  | Some s => if (MAX_APN_LEN <? len)%Z || negb (Z.of_nat (length s) =? len)%Z
              then set_this n (set_apn None 0) else set_this n (set_apn (Some s) len)
  | None => set_this n (set_apn None 0)
  end.

Fixpoint getSubscriber_loop (P : AgpsSubscriber → bool) (l : list addr) : M world ptr :=
  match l with
  | [] => mret None
  | a :: l => s ← load (Some a); if P s then mret (Some a) else getSubscriber_loop P l
  end.
Definition getSubscriber (n : nif) (connHandle : Z) : M world ptr :=
  m ← this n; getSubscriber_loop (λ s, bool_decide (mConnHandle s = connHandle)) (mSubscriberList m).
Definition getFirstSubscriber (n : nif) (isInactive : bool) : M world ptr :=
  m ← this n; getSubscriber_loop (λ s, eqb (mIsInactive s) isInactive) (mSubscriberList m).

Fixpoint dropAll_loop (n : nif) (l : list addr) : M world unit :=
  match l with
  | [] => mret tt
  | a :: l => _ ← set_this n (set_list l); _ ← delete_sub a; dropAll_loop n l
  end.
Definition dropAllSubscribers (n : nif) : M world unit :=
  m ← this n; dropAll_loop n (mSubscriberList m).

Definition processAgpsEventSubscribe (n : nif) : M world unit :=
  m ← this n;
  match mState m with
  | AGPS_STATE_RELEASED =>
      _ ← addSubscriber n (mCurrentSubscriber m);
      _ ← requestOrReleaseDataConn n true;
      transitionState n AGPS_STATE_PENDING
  | AGPS_STATE_PENDING => addSubscriber n (mCurrentSubscriber m)
  | AGPS_STATE_ACQUIRED =>
      _ ← notifyEventToSubscriber n AGPS_EVENT_GRANTED (mCurrentSubscriber m) false;
      addSubscriber n (mCurrentSubscriber m)
  | AGPS_STATE_RELEASING => addSubscriber n (mCurrentSubscriber m)
  | AGPS_STATE_INVALID => mret tt
  end.

(** The subscriber waits for the close, or is told and deleted at once. *)
Definition unsubscribe_current (n : nif) : M world unit :=
  m ← this n;
  s ← load (mCurrentSubscriber m);
  if mWaitForCloseComplete s
  then store (mCurrentSubscriber m) (Subscriber (mConnHandle s) (mWaitForCloseComplete s) true (sub_mApnTypeMask s))
  else notifyEventToSubscriber n AGPS_EVENT_UNSUBSCRIBE (mCurrentSubscriber m) true.

Definition processAgpsEventUnsubscribe (n : nif) : M world unit :=
  m ← this n;
  match mState m with
  | AGPS_STATE_RELEASED => notifyEventToSubscriber n AGPS_EVENT_UNSUBSCRIBE (mCurrentSubscriber m) false
  | AGPS_STATE_PENDING | AGPS_STATE_ACQUIRED =>
      _ ← unsubscribe_current n;
      m' ← this n;
      if bool_decide (mSubscriberList m' = []) then
        _ ← transitionState n AGPS_STATE_RELEASED; requestOrReleaseDataConn n false
      else
        active ← anyActiveSubscribers n;
        if negb active then _ ← transitionState n AGPS_STATE_RELEASING; requestOrReleaseDataConn n false
        else mret tt
  | AGPS_STATE_RELEASING =>
      _ ← unsubscribe_current n;
      m' ← this n;
      if bool_decide (mSubscriberList m' = []) then transitionState n AGPS_STATE_RELEASED else mret tt
  | AGPS_STATE_INVALID => mret tt
  end.

Definition processAgpsEventGranted (n : nif) : M world unit :=
  m ← this n;
  match mState m with
  | AGPS_STATE_PENDING =>
      _ ← transitionState n AGPS_STATE_ACQUIRED;
      notifyAllSubscribers n AGPS_EVENT_GRANTED false AGPS_NOTIFICATION_TYPE_FOR_ACTIVE_SUBSCRIBERS
  | _ => mret tt
  end.

(** The common end of RELEASED and DENIED in the RELEASING state. *)
Definition releasing_done (n : nif) : M world unit :=
  _ ← notifyAllSubscribers n AGPS_EVENT_RELEASED true AGPS_NOTIFICATION_TYPE_FOR_INACTIVE_SUBSCRIBERS;
  active ← anyActiveSubscribers n;
  if active : bool then _ ← transitionState n AGPS_STATE_PENDING; requestOrReleaseDataConn n true
  else transitionState n AGPS_STATE_RELEASED.

Definition processAgpsEventReleased (n : nif) : M world unit :=
  m ← this n;
  match mState m with
  | AGPS_STATE_ACQUIRED =>
      _ ← transitionState n AGPS_STATE_RELEASED;
      notifyAllSubscribers n AGPS_EVENT_RELEASED true AGPS_NOTIFICATION_TYPE_FOR_ALL_SUBSCRIBERS
  | AGPS_STATE_RELEASING => releasing_done n
  | _ => mret tt
  end.

Definition processAgpsEventDenied (n : nif) : M world unit :=
  m ← this n;
  match mState m with
  | AGPS_STATE_RELEASING => releasing_done n
  | AGPS_STATE_PENDING =>
      _ ← transitionState n AGPS_STATE_RELEASED;
      notifyAllSubscribers n AGPS_EVENT_DENIED true AGPS_NOTIFICATION_TYPE_FOR_ALL_SUBSCRIBERS
  | _ => mret tt
  end.

Definition processAgpsEvent (n : nif) (event : AgpsEvent) : M world unit :=
  match event with
  | AGPS_EVENT_SUBSCRIBE => processAgpsEventSubscribe n
  | AGPS_EVENT_UNSUBSCRIBE => processAgpsEventUnsubscribe n
  | AGPS_EVENT_GRANTED => processAgpsEventGranted n
  | AGPS_EVENT_RELEASED => processAgpsEventReleased n
  | AGPS_EVENT_DENIED => processAgpsEventDenied n
  | AGPS_EVENT_INVALID => mret tt
  end.

(** ** AgpsManager

    [CAPABILITIES] and [USE_EMERGENCY_PDN_FOR_EMERGENCY_SUPL] are the configuration in
    ContextBase::mGps_conf; [uninit] is the value of the field the constructor of the
    state machine leaves uninitialised. *)
Definition newAgpsStateMachine (agpsType uninit : Z) : AgpsStateMachine :=
  SM [] None AGPS_STATE_RELEASED agpsType uninit None 0 AGPS_APN_BEARER_INVALID.

Definition createAgpsStateMachines (CAPABILITIES atlType uninit : Z) : M world unit :=
  let agpsCapable := negb (Z.land CAPABILITIES LOC_GPS_CAPABILITY_MSA =? 0)%Z
                  || negb (Z.land CAPABILITIES LOC_GPS_CAPABILITY_MSB =? 0)%Z in
  w ← get;
  _ ← when (is_null (mInternetNif w) && negb (Z.land atlType AGPS_ATL_TYPE_WWAN =? 0)%Z)
        (modify (put_sm InternetNif (newAgpsStateMachine LOC_AGPS_TYPE_WWAN_ANY uninit)));
  when (agpsCapable && is_null (mAgnssNif w) && negb (Z.land atlType AGPS_ATL_TYPE_SUPL =? 0)%Z
          && negb (Z.land atlType AGPS_ATL_TYPE_SUPL_ES =? 0)%Z)
    (modify (put_sm AgnssNif (newAgpsStateMachine LOC_AGPS_TYPE_SUPL uninit))).

(** The state machine for a type; it may not exist. *)
Definition getAgpsStateMachine (agpsType : Z) : nif :=
  if decide (agpsType = LOC_AGPS_TYPE_INVALID ∨ agpsType = LOC_AGPS_TYPE_SUPL ∨ agpsType = LOC_AGPS_TYPE_SUPL_ES)
  then AgnssNif else InternetNif.

(** The emergency request turned into a normal one when the configuration says so. *)
Definition adjust_request (USE_EMERGENCY_PDN agpsType apnTypeMask : Z) : Z * Z :=
  if (0 =? USE_EMERGENCY_PDN)%Z && (LOC_AGPS_TYPE_SUPL_ES =? agpsType)%Z
  then (LOC_AGPS_TYPE_SUPL, Z.lor (Z.ldiff apnTypeMask LOC_APN_TYPE_MASK_EMERGENCY) LOC_APN_TYPE_MASK_SUPL)
  else (agpsType, apnTypeMask).

Definition requestATL (USE_EMERGENCY_PDN connHandle agpsType apnTypeMask : Z) : M world unit :=
  let '(agpsType, apnTypeMask) := adjust_request USE_EMERGENCY_PDN agpsType apnTypeMask in
  let n := getAgpsStateMachine agpsType in
  sm ← gets (sm_at n);
  if is_null sm then
    out (AtlOpenStatus connHandle 0 None 0 AGPS_APN_BEARER_INVALID agpsType apnTypeMask)
  else
    _ ← set_this n (set_type agpsType);
    _ ← set_this n (set_mask apnTypeMask);
    subscriber ← alloc (Subscriber connHandle true false apnTypeMask);
    _ ← set_this n (set_current (Some subscriber));
    _ ← processAgpsEvent n AGPS_EVENT_SUBSCRIBE;
    delete_sub subscriber.

(** [mAgnssNif && (subscriber = mAgnssNif->getSubscriber(connHandle)) != NULL] *)
Definition find_in (n : nif) (connHandle : Z) : M world ptr :=
  sm ← gets (sm_at n);
  if is_null sm then mret None else getSubscriber n connHandle.

Definition releaseATL (connHandle : Z) : M world unit :=
  p ← find_in AgnssNif connHandle;
  match p with
  | Some _ =>
      _ ← set_this AgnssNif (set_current p); processAgpsEvent AgnssNif AGPS_EVENT_UNSUBSCRIBE
  | None =>
      p ← find_in InternetNif connHandle;
      match p with
      | Some _ =>
          _ ← set_this InternetNif (set_current p); processAgpsEvent InternetNif AGPS_EVENT_UNSUBSCRIBE
      | None => mret tt
      end
  end.

(** [apnLen], an int, is passed as an unsigned int. *)
Definition reportAtlOpenSuccess (agpsType : Z) (apnName : option (list Z)) (apnLen bearerType : Z) : M world unit :=
  let n := getAgpsStateMachine agpsType in
  _ ← set_this n (set_bearer bearerType);
  _ ← setAPN n apnName (uwrap 32 apnLen);
  processAgpsEvent n AGPS_EVENT_GRANTED.

Definition reportAtlOpenFailed (agpsType : Z) : M world unit :=
  processAgpsEvent (getAgpsStateMachine agpsType) AGPS_EVENT_DENIED.

Definition reportAtlClosed (agpsType : Z) : M world unit :=
  processAgpsEvent (getAgpsStateMachine agpsType) AGPS_EVENT_RELEASED.

Definition handleModemSSR : M world unit :=
  w ← get;
  _ ← when (negb (is_null (mAgnssNif w))) (dropAllSubscribers AgnssNif);
  when (negb (is_null (mInternetNif w))) (dropAllSubscribers InternetNif).

(** ** Callers *)
Inductive call :=
  | RequestATL (connHandle agpsType apnTypeMask : Z)
  | ReleaseATL (connHandle : Z)
  | OpenSuccess (agpsType : Z) (apnName : option (list Z)) (apnLen bearerType : Z)
  | OpenFailed (agpsType : Z)
  | Closed (agpsType : Z)
  | ModemSSR.

Definition exec (emergency : Z) (c : call) : M world unit :=
  match c with
  | RequestATL h t k => requestATL emergency h t k
  | ReleaseATL h => releaseATL h
  | OpenSuccess t apn len b => reportAtlOpenSuccess t apn len b
  | OpenFailed t => reportAtlOpenFailed t
  | Closed t => reportAtlClosed t
  | ModemSSR => handleModemSSR
  end.

Fixpoint execs (emergency : Z) (cs : list call) : M world unit :=
  match cs with
  | [] => mret tt
  | c :: cs => _ ← exec emergency c; execs emergency cs
  end.

(** * Abstract specification: a state machine over values, without pointers. *)
Record amach := AM {
  a_state : AgpsState;
  a_subs : list AgpsSubscriber;
  a_type : Z;
  a_mask : Z;
  a_apn : option (list Z);
  a_len : Z;
  a_bearer : Z;
}.

Definition a_set (st : AgpsState) (l : list AgpsSubscriber) (m : amach) : amach :=
  AM st l (a_type m) (a_mask m) (a_apn m) (a_len m) (a_bearer m).

Definition active (s : AgpsSubscriber) : bool := negb (mIsInactive s).
Definition a_active (l : list AgpsSubscriber) : list AgpsSubscriber := filter (λ s, active s = true) l.
Definition a_inactive (l : list AgpsSubscriber) : list AgpsSubscriber := filter (λ s, active s = false) l.

Definition a_open (ok : Z) (m : amach) (s : AgpsSubscriber) : agps_out :=
  AtlOpenStatus (mConnHandle s) ok (a_apn m) (a_len m) (a_bearer m) (a_type m) (a_mask m).
Definition a_close (s : AgpsSubscriber) : agps_out := AtlCloseStatus (mConnHandle s) 1.
Definition a_fw (request : bool) (m : amach) : agps_out :=
  FrameworkStatus (a_type m) (a_mask m)
    (if request then LOC_GPS_REQUEST_AGPS_DATA_CONN else LOC_GPS_RELEASE_AGPS_DATA_CONN).

Definition a_add (s : AgpsSubscriber) (l : list AgpsSubscriber) : list AgpsSubscriber :=
  if bool_decide (mConnHandle s ∈ mConnHandle <$> l) then l else l ++ [s].

Definition inactivate (h : Z) (s : AgpsSubscriber) : AgpsSubscriber :=
  if bool_decide (mConnHandle s = h)
  then Subscriber (mConnHandle s) (mWaitForCloseComplete s) true (sub_mApnTypeMask s) else s.

Definition a_subscribe (s : AgpsSubscriber) (m : amach) : amach * list agps_out :=
  match a_state m with
  | AGPS_STATE_RELEASED => (a_set AGPS_STATE_PENDING (a_add s (a_subs m)) m, [a_fw true m])
  | AGPS_STATE_ACQUIRED => (a_set AGPS_STATE_ACQUIRED (a_add s (a_subs m)) m, [a_open 1 m s])
  | st => (a_set st (a_add s (a_subs m)) m, [])
  end.

(** [h] is the handle of a subscriber in the list. *)
Definition a_unsubscribe (h : Z) (m : amach) : amach * list agps_out :=
  let l := inactivate h <$> a_subs m in
  match a_state m with
  | AGPS_STATE_PENDING | AGPS_STATE_ACQUIRED =>
      if decide (a_active l = []) then (a_set AGPS_STATE_RELEASING l m, [a_fw false m])
      else (a_set (a_state m) l m, [])
  | st => (a_set st l m, [])
  end.

Definition a_granted (m : amach) : amach * list agps_out :=
  match a_state m with
  | AGPS_STATE_PENDING => (a_set AGPS_STATE_ACQUIRED (a_subs m) m, a_open 1 m <$> a_active (a_subs m))
  | _ => (m, [])
  end.

Definition a_releasing_done (m : amach) : amach * list agps_out :=
  let l := a_active (a_subs m) in
  if decide (l = []) then (a_set AGPS_STATE_RELEASED [] m, a_close <$> a_inactive (a_subs m))
  else (a_set AGPS_STATE_PENDING l m, (a_close <$> a_inactive (a_subs m)) ++ [a_fw true m]).

Definition a_released (m : amach) : amach * list agps_out :=
  match a_state m with
  | AGPS_STATE_ACQUIRED => (a_set AGPS_STATE_RELEASED [] m, a_close <$> a_subs m)
  | AGPS_STATE_RELEASING => a_releasing_done m
  | _ => (m, [])
  end.

Definition a_denied (m : amach) : amach * list agps_out :=
  match a_state m with
  | AGPS_STATE_PENDING => (a_set AGPS_STATE_RELEASED [] m, a_open 0 m <$> a_subs m)
  | AGPS_STATE_RELEASING => a_releasing_done m
  | _ => (m, [])
  end.

Definition a_setAPN (apn : option (list Z)) (len bearer : Z) (m : amach) : amach :=
  match apn with
  | Some s => if (MAX_APN_LEN <? len)%Z || negb (Z.of_nat (length s) =? len)%Z
              then AM (a_state m) (a_subs m) (a_type m) (a_mask m) None 0 bearer
              else AM (a_state m) (a_subs m) (a_type m) (a_mask m) (Some s) len bearer
  | None => AM (a_state m) (a_subs m) (a_type m) (a_mask m) None 0 bearer
  end.

Record aworld := AW { a_agnss : option amach; a_internet : option amach; a_log : list agps_out }.

Definition a_at (n : nif) (w : aworld) : option amach :=
  match n with AgnssNif => a_agnss w | InternetNif => a_internet w end.

(** One machine takes a step, if it exists. *)
Definition a_on (n : nif) (f : amach → amach * list agps_out) (w : aworld) : aworld :=
  match a_at n w with
  | None => w
  | Some m => let '(m', o) := f m in
              match n with
              | AgnssNif => AW (Some m') (a_internet w) (a_log w ++ o)
              | InternetNif => AW (a_agnss w) (Some m') (a_log w ++ o)
              end
  end.

Definition a_has (n : nif) (h : Z) (w : aworld) : bool :=
  match a_at n w with Some m => bool_decide (h ∈ mConnHandle <$> a_subs m) | None => false end.

Definition a_exec (emergency : Z) (c : call) (w : aworld) : aworld :=
  match c with
  | RequestATL h t k =>
      let '(t', k') := adjust_request emergency t k in
      match a_at (getAgpsStateMachine t') w with
      | None => AW (a_agnss w) (a_internet w)
                  (a_log w ++ [AtlOpenStatus h 0 None 0 AGPS_APN_BEARER_INVALID t' k'])
      | Some _ => a_on (getAgpsStateMachine t')
                    (λ m, a_subscribe (Subscriber h true false k')
                            (AM (a_state m) (a_subs m) t' k' (a_apn m) (a_len m) (a_bearer m))) w
      end
  | ReleaseATL h =>
      if a_has AgnssNif h w then a_on AgnssNif (a_unsubscribe h) w
      else if a_has InternetNif h w then a_on InternetNif (a_unsubscribe h) w else w
  | OpenSuccess t apn len b =>
      a_on (getAgpsStateMachine t) (λ m, a_granted (a_setAPN apn (uwrap 32 len) b m)) w
  | OpenFailed t => a_on (getAgpsStateMachine t) a_denied w
  | Closed t => a_on (getAgpsStateMachine t) a_released w
  | ModemSSR => a_on InternetNif (λ m, (a_set (a_state m) [] m, []))
                  (a_on AgnssNif (λ m, (a_set (a_state m) [] m, [])) w)
  end.

Definition a_execs (emergency : Z) (cs : list call) (w : aworld) : aworld :=
  foldl (λ w c, a_exec emergency c w) w cs.

(** The data of a machine that every call preserves. *)
Definition am_inv (m : amach) : Prop :=
  NoDup (mConnHandle <$> a_subs m) ∧ Forall (λ s, mWaitForCloseComplete s = true) (a_subs m) ∧
  a_state m ≠ AGPS_STATE_INVALID ∧ (a_state m = AGPS_STATE_RELEASED → a_subs m = []).

Definition aw_inv (w : aworld) : Prop := ∀ n m, a_at n w = Some m → am_inv m.

(** ** Representation *)
Definition sm_rep (σ : gmap addr AgpsSubscriber) (m : AgpsStateMachine) (am : amach) : Prop :=
  mState m = a_state am ∧ Forall2 (λ a s, σ !! a = Some s) (mSubscriberList m) (a_subs am) ∧
  mAgpsType m = a_type am ∧ mApnTypeMask m = a_mask am ∧ mAPN m = a_apn am ∧ mAPNLen m = a_len am ∧
  mBearer m = a_bearer am.

Definition ptrs (n : nif) (w : world) : list addr :=
  match sm_at n w with Some m => mSubscriberList m | None => [] end.

(** The concrete world represents the abstract one: the machines correspond, the
    subscriber pointers are all different and alive, and nothing else is alive. *)
Definition rep (w : world) (aw : aworld) : Prop :=
  (∀ n, option_Forall2 (sm_rep (subs w)) (sm_at n w) (a_at n aw)) ∧
  NoDup (ptrs AgnssNif w ++ ptrs InternetNif w) ∧
  (∀ a, is_Some (subs w !! a) → a ∈ ptrs AgnssNif w ++ ptrs InternetNif w) ∧
  log w = a_log aw.

Definition other (n : nif) : nif := match n with AgnssNif => InternetNif | InternetNif => AgnssNif end.

(** Machine [n] with current subscriber [c] holds the subscribers of [am] at the
    addresses [l]; the rest of the store is exactly [F]. *)
Definition owns_at (n : nif) (F : gmap addr AgpsSubscriber) (c : ptr) (w : world) (am : amach) (l : list addr) : Prop :=
  ∃ m, sm_at n w = Some m ∧ mCurrentSubscriber m = c ∧ sm_rep (subs w) m am ∧ mSubscriberList m = l ∧ NoDup l ∧
    (∀ a s, F !! a = Some s → subs w !! a = Some s ∧ a ∉ l) ∧
    (∀ a, is_Some (subs w !! a) → a ∈ l ∨ is_Some (F !! a)).
Definition owns n F c w am : Prop := ∃ l, owns_at n F c w am l.

(** [op] returns [v], takes machine [n] from [am] to [am'] and sends [o]. *)
Definition spec {A} n F c (op : M world A) (v : A) (am am' : amach) (o : list agps_out) : Prop :=
  ∀ w, owns n F c w am → ∃ w', op w = Done v w' ∧ owns n F c w' am' ∧
    sm_at (other n) w' = sm_at (other n) w ∧ log w' = log w ++ o.

Lemma spec_ret {A} n F c (v : A) am : spec n F c (mret v) v am am [].
Proof. intros w Hw. exists w. by rewrite app_nil_r. Qed.

Lemma spec_bind {A B} n F c (op : M world A) (k : A → M world B) v r am1 am2 am3 o1 o2 :
  spec n F c op v am1 am2 o1 → spec n F c (k v) r am2 am3 o2 →
  spec n F c (op ≫= k) r am1 am3 (o1 ++ o2).
Proof.
  intros H1 H2 w Hw. destruct (H1 w Hw) as (w1 & E1 & Hw1 & O1 & L1).
  destruct (H2 w1 Hw1) as (w2 & E2 & Hw2 & O2 & L2). exists w2. rewrite (bind_done _ _ _ _ _ E1).
  split_and!; [done|done|congruence|]. by rewrite L2, L1, app_assoc.
Qed.

(** Same, when the first part sends nothing. *)
Lemma spec_bind0 {A B} n F c (op : M world A) (k : A → M world B) v r am1 am2 am3 o :
  spec n F c op v am1 am2 [] → spec n F c (k v) r am2 am3 o → spec n F c (op ≫= k) r am1 am3 o.
Proof. apply (spec_bind _ _ _ _ _ _ _ _ _ _ []). Qed.

(** Reading the fields of the machine. *)
Lemma spec_this {B} n F c (k : AgpsStateMachine → M world B) r am1 am2 o :
  (∀ m, mState m = a_state am1 → mCurrentSubscriber m = c → mAgpsType m = a_type am1 → mApnTypeMask m = a_mask am1 →
        mAPN m = a_apn am1 → mAPNLen m = a_len am1 → mBearer m = a_bearer am1 →
        (mSubscriberList m = [] ↔ a_subs am1 = []) → spec n F c (k m) r am1 am2 o) →
  spec n F c (this n ≫= k) r am1 am2 o.
Proof.
  intros Hk w Hw. pose proof Hw as (l & m & Em & Hc & (R1 & R2 & R3 & R4 & R5 & R6 & R7) & _).
  rewrite (bind_done _ _ _ m w) by (by apply deref_done). apply Hk; try done.
  pose proof (Forall2_length _ _ _ R2) as Hl. destruct (mSubscriberList m), (a_subs am1); naive_solver.
Qed.

Lemma sm_at_put n m w : sm_at n (put_sm n m w) = Some m.
Proof. by destruct n. Qed.
Lemma sm_at_put_other n m w : sm_at (other n) (put_sm n m w) = sm_at (other n) w.
Proof. by destruct n. Qed.
Lemma subs_put n m w : subs (put_sm n m w) = subs w.
Proof. by destruct n. Qed.
Lemma log_put n m w : log (put_sm n m w) = log w.
Proof. by destruct n. Qed.
Lemma sm_at_subs n f w : sm_at n (set_subs f w) = sm_at n w.
Proof. by destruct n. Qed.

(** ** Primitive steps *)
Lemma owns_put n F c w am l m f am' :
  owns_at n F c w am l → sm_at n w = Some m → mCurrentSubscriber (f m) = c → mSubscriberList (f m) = l →
  sm_rep (subs w) (f m) am' → owns_at n F c (put_sm n (f m) w) am' l.
Proof.
  intros (m0 & Em & _ & _ & _ & Hnd & HF & Hrest) E1 Ec El Hr. exists (f m).
  rewrite sm_at_put, subs_put. done.
Qed.

Lemma spec_set n F c f am am' :
  (∀ m, mCurrentSubscriber (f m) = mCurrentSubscriber m ∧ mSubscriberList (f m) = mSubscriberList m) →
  (∀ σ m, sm_rep σ m am → sm_rep σ (f m) am') → spec n F c (set_this n f) tt am am' [].
Proof.
  intros Hf Hr w [l Hw]. pose proof Hw as (m & Em & Hc & Hm & El & _). destruct (Hf m) as [Hf1 Hf2].
  unfold set_this. rewrite (bind_done _ _ _ m w) by (by apply deref_done). eexists. split; [done|].
  split_and!.
  - exists l. eapply owns_put; eauto; congruence.
  - by rewrite sm_at_put_other.
  - by rewrite log_put, app_nil_r.
Qed.

Lemma spec_transition n F c st am : spec n F c (transitionState n st) tt am (a_set st (a_subs am) am) [].
Proof.
  apply spec_set; [done|]. intros σ m (R1 & R2 & R3 & R4 & R5 & R6 & R7). by split_and!.
Qed.

Lemma owns_log n F c w am l o :
  owns_at n F c w am l → owns_at n F c (World (subs w) (mAgnssNif w) (mInternetNif w) (log w ++ o)) am l.
Proof. intros (m & Hm). exists m. by destruct n. Qed.

Lemma spec_out n F c o am : spec n F c (out o) tt am am [o].
Proof.
  intros w [l Hw]. eexists. split; [done|]. split_and!; [exists l; by apply owns_log|by destruct n|done].
Qed.

Lemma spec_conn n F c b am : spec n F c (requestOrReleaseDataConn n b) tt am am [a_fw b am].
Proof.
  apply spec_this. intros m _ _ -> -> _ _ _ _. apply spec_out.
Qed.

(** What a subscriber is told about an event. *)
Definition ev_out (ev : AgpsEvent) (m : amach) (s : AgpsSubscriber) : list agps_out :=
  match ev with
  | AGPS_EVENT_GRANTED => [a_open 1 m s]
  | AGPS_EVENT_DENIED => [a_open 0 m s]
  | AGPS_EVENT_UNSUBSCRIBE | AGPS_EVENT_RELEASED => [a_close s]
  | _ => []
  end.

Lemma notify_one n F c w am l ev a s :
  owns_at n F c w am l → subs w !! a = Some s →
  ∃ w', notifyEventToSubscriber n ev (Some a) false w = Done tt w' ∧ owns_at n F c w' am l ∧
    sm_at (other n) w' = sm_at (other n) w ∧ subs w' = subs w ∧ log w' = log w ++ ev_out ev am s.
Proof.
  intros Hw Ha. pose proof Hw as (m & Em & _ & (_ & _ & R3 & R4 & R5 & R6 & R7) & _).
  assert (∀ o, owns_at n F c (World (subs w) (mAgnssNif w) (mInternetNif w) (log w ++ o)) am l) as Ho
    by (intros; by apply owns_log).
  unfold notifyEventToSubscriber, this, out, load. destruct ev; mrun; rewrite ?Em; mrun; rewrite ?Ha; mrun;
    rewrite ?R3, ?R4, ?R5, ?R6, ?R7.
  1, 2: exists w; by rewrite app_nil_r.
  all: eexists; split; [reflexivity|]; split; [apply Ho|]; split; [by destruct n|by split].
Qed.

Lemma spec_notify n F c am ev a s :
  F !! a = Some s → spec n F c (notifyEventToSubscriber n ev (Some a) false) tt am am (ev_out ev am s).
Proof.
  intros Ha w [l Hw]. pose proof Hw as (m & _ & _ & _ & _ & _ & HF & _). destruct (HF _ _ Ha) as [Ha' _].
  destruct (notify_one n F c w am l ev a s Hw Ha') as (w' & E & Hw' & O & _ & L). exists w'. split_and!; try done.
  by exists l.
Qed.

(** Erasing the element the iterator is at and deleting its object. *)
Lemma erase_delete {B} n F c w am pre a rest lpre s lrest (k : M world B) :
  owns_at n F c w (a_set (a_state am) (lpre ++ s :: lrest) am) (pre ++ a :: rest) → length pre = length lpre →
  ∃ w', (_ ← set_this n (set_list (pre ++ rest)); _ ← delete_sub a; k) w = k w' ∧
    owns_at n F c w' (a_set (a_state am) (lpre ++ lrest) am) (pre ++ rest) ∧
    sm_at (other n) w' = sm_at (other n) w ∧ log w' = log w.
Proof.
  intros (m & Em & Hc & (R1 & R2 & R3 & R4 & R5 & R6 & R7) & El & Hnd & HF & Hrest) Hlen. cbn [a_subs a_set] in R2.
  rewrite El in R2. apply Forall2_app_inv in R2 as [R2a R2b]; [|done]. apply Forall2_cons in R2b as [Ha R2b].
  apply NoDup_app in Hnd as (Hnd1 & Hdis & Hnd2). apply NoDup_cons in Hnd2 as [Har Hnd2].
  unfold set_this, this, delete_sub, load. mrun. rewrite Em. mrun. rewrite subs_put, Ha. eexists. split; [done|].
  split_and!.
  - exists (set_list (pre ++ rest) m). rewrite sm_at_subs, sm_at_put. cbn [set_subs subs]. rewrite subs_put.
    assert (∀ x s', x ≠ a → subs w !! x = Some s' → delete a (subs w) !! x = Some s') as Hd
      by (intros; by rewrite lookup_delete_ne).
    split_and!; try done.
    + split_and!; try done. cbn. apply Forall2_app.
      * apply Forall2_same_length_lookup in R2a as [L1 R2a].
        apply Forall2_same_length_lookup. split; [done|]. intros i x y Hx Hy. apply Hd; [|by eapply R2a].
        intros ->. apply list_elem_of_lookup_2 in Hx. apply (Hdis a); [done|left].
      * apply Forall2_same_length_lookup in R2b as [L1 R2b].
        apply Forall2_same_length_lookup. split; [done|]. intros i x y Hx Hy. apply Hd; [|by eapply R2b].
        intros ->. by apply list_elem_of_lookup_2 in Hx.
    + apply NoDup_app. split_and!; [done| |done]. intros x Hx Hx'. apply (Hdis x Hx). by right.
    + intros x s' Hx. destruct (HF x s' Hx) as [Hx1 Hx2]. split; [apply Hd; [|done]; set_solver|set_solver].
    + intros x Hx. rewrite lookup_delete in Hx. case_decide; [by destruct Hx|]. destruct (Hrest x Hx); set_solver.
  - by rewrite sm_at_subs, sm_at_put_other.
  - cbn [set_subs log]. by rewrite log_put.
Qed.

(** ** The loops *)
Definition keep (del : bool) (ty : AgpsNotificationType) (l : list AgpsSubscriber) : list AgpsSubscriber :=
  if del then filter (λ s, addressed ty s = false) l else l.
Definition tells ev m ty (l : list AgpsSubscriber) : list agps_out :=
  filter (λ s, addressed ty s = true) l ≫= ev_out ev m.

Lemma keep_cons del ty s l :
  keep del ty (s :: l) = if del && addressed ty s then keep del ty l else s :: keep del ty l.
Proof. unfold keep. destruct del; [|done]. rewrite filter_cons. by destruct (addressed ty s). Qed.

Lemma tells_cons ev m ty s l :
  tells ev m ty (s :: l) = (if addressed ty s then ev_out ev m s else []) ++ tells ev m ty l.
Proof. unfold tells. rewrite filter_cons. by destruct (addressed ty s). Qed.

Lemma notify_loop n F c ev del ty am rest lrest :
  ∀ w pre lpre, owns_at n F c w (a_set (a_state am) (lpre ++ lrest) am) (pre ++ rest) →
  length pre = length lpre → length rest = length lrest →
  ∃ w', notifyAllSubscribers_loop n ev del ty pre rest w = Done tt w' ∧
    owns n F c w' (a_set (a_state am) (lpre ++ keep del ty lrest) am) ∧
    sm_at (other n) w' = sm_at (other n) w ∧ log w' = log w ++ tells ev am ty lrest.
Proof.
  revert lrest. induction rest as [|a rest IH]; intros [|s lrest] w pre lpre Hw Hl1 Hl2; simplify_eq/=.
  { exists w. unfold tells, keep. split_and!; [done| |done|cbn; by rewrite app_nil_r].
    destruct del; by exists (pre ++ []). }
  pose proof Hw as (m & Em & _ & (_ & R2 & _) & El & _). cbn in R2. rewrite El in R2.
  apply Forall2_app_inv in R2 as [_ R2]; [|done]. apply Forall2_cons in R2 as [Ha _].
  rewrite (bind_done _ _ _ s w) by (by apply deref_done). rewrite tells_cons, keep_cons.
  destruct (addressed ty s) eqn:Es.
  - destruct (notify_one n F c w _ _ ev a s Hw Ha) as (w1 & E1 & Hw1 & O1 & S1 & L1).
    rewrite (bind_done _ _ _ tt w1 E1). destruct del; cbn [andb].
    + destruct (erase_delete n F c w1 am pre a rest lpre s lrest
                  (notifyAllSubscribers_loop n ev true ty pre rest) Hw1 Hl1) as (w2 & -> & Hw2 & O2 & L2).
      destruct (IH lrest w2 pre lpre Hw2 Hl1 Hl2) as (w' & -> & Hw' & O' & L'). exists w'.
      split_and!; [done|done|congruence|]. rewrite L', L2, L1. by rewrite <-app_assoc.
    + destruct (IH lrest w1 (pre ++ [a]) (lpre ++ [s])) as (w' & -> & Hw' & O' & L');
        [by rewrite <-!app_assoc|by rewrite !length_app, Hl1|done|].
      exists w'. rewrite <-app_assoc in Hw'. split_and!; [done|done|congruence|]. rewrite L', L1. by rewrite <-app_assoc.
  - rewrite andb_false_r.
    destruct (IH lrest w (pre ++ [a]) (lpre ++ [s])) as (w' & -> & Hw' & O' & L');
      [by rewrite <-!app_assoc|by rewrite !length_app, Hl1|done|].
    exists w'. rewrite <-app_assoc in Hw'. by split_and!.
Qed.

Lemma a_set_id m : a_set (a_state m) (a_subs m) m = m.
Proof. by destruct m. Qed.

Lemma spec_notifyAll n F c ev del ty am :
  spec n F c (notifyAllSubscribers n ev del ty) tt am (a_set (a_state am) (keep del ty (a_subs am)) am)
    (tells ev am ty (a_subs am)).
Proof.
  intros w [l Hw]. pose proof Hw as (m & Em & _ & (_ & R2 & _) & El & _).
  unfold notifyAllSubscribers. rewrite (bind_done _ _ _ m w) by (by apply deref_done). rewrite El.
  apply (notify_loop n F c ev del ty am l (a_subs am) w [] []); [by rewrite a_set_id|done|].
  rewrite <-El. by eapply Forall2_length.
Qed.

Lemma anyActive_loop_spec (w : world) l ls :
  Forall2 (λ a s, subs w !! a = Some s) l ls → anyActive_loop l w = Done (negb (bool_decide (a_active ls = []))) w.
Proof.
  induction 1 as [|a s l ls Ha _ IH]; [done|]. cbn [anyActive_loop].
  rewrite (bind_done _ _ _ s w) by (by apply deref_done). unfold a_active, active in *. rewrite filter_cons.
  destruct (mIsInactive s); cbn; [|done]. by rewrite IH.
Qed.

Lemma spec_anyActive n F c am :
  spec n F c (anyActiveSubscribers n) (negb (bool_decide (a_active (a_subs am) = []))) am am [].
Proof.
  intros w [l Hw]. pose proof Hw as (m & Em & _ & (_ & R2 & _) & El & _). exists w.
  unfold anyActiveSubscribers. rewrite (bind_done _ _ _ m w) by (by apply deref_done).
  rewrite (anyActive_loop_spec w _ _ R2), app_nil_r. split_and!; try done. by exists l.
Qed.

Lemma find_equal_spec (w : world) p t l ls :
  subs w !! p = Some t → Forall2 (λ a s, subs w !! a = Some s) l ls →
  find_equal (Some p) l w = Done (bool_decide (mConnHandle t ∈ mConnHandle <$> ls)) w.
Proof.
  intros Hp. induction 1 as [|a s l ls Ha _ IH]; [done|]. cbn [find_equal].
  rewrite (bind_done _ _ _ s w) by (by apply deref_done).
  rewrite (bind_done _ _ _ t w) by (by apply deref_done). unfold equals.
  destruct (bool_decide_reflect (mConnHandle s = mConnHandle t)) as [E|E].
  - rewrite (bool_decide_eq_true_2 (_ ∈ _)); [done|]. rewrite <-E. by left.
  - rewrite IH. f_equal. apply bool_decide_ext. rewrite fmap_cons, elem_of_cons. naive_solver.
Qed.

Lemma spec_add n F c am p s :
  F !! p = Some s → spec n F c (addSubscriber n (Some p)) tt am (a_set (a_state am) (a_add s (a_subs am)) am) [].
Proof.
  intros Hp w [l Hw]. pose proof Hw as (m & Em & Hc & (R1 & R2 & R3 & R4 & R5 & R6 & R7) & El & Hnd & HF & Hrest).
  destruct (HF p s Hp) as [Hps _]. unfold addSubscriber. rewrite (bind_done _ _ _ m w) by (by apply deref_done).
  rewrite (bind_done _ _ _ _ w (find_equal_spec w p s _ _ Hps R2)). unfold a_add. case_bool_decide as Hin.
  { exists w. rewrite app_nil_r, a_set_id. split_and!; try done. by exists l. }
  unfold clone. unfold load at 1. mrun. rewrite Hps. mrun. unfold set_this, this, set_subs. mrun.
  set (a := fresh (dom (subs w))). assert (subs w !! a = None) as Hfr.
  { apply not_elem_of_dom, is_fresh. }
  assert (Subscriber (mConnHandle s) (mWaitForCloseComplete s) (mIsInactive s) (sub_mApnTypeMask s) = s) as -> by (by destruct s).
  assert (sm_at n (World (<[a:=s]> (subs w)) (mAgnssNif w) (mInternetNif w) (log w)) = Some m) as -> by (by destruct n).
  eexists. split; [done|]. split_and!; [|by destruct n|by rewrite log_put, app_nil_r].
  exists (l ++ [a]), (set_list (mSubscriberList m ++ [a]) m). rewrite sm_at_put, subs_put, El. cbn [subs].
  assert (a ∉ l) as Hal.
  { intros Hal. apply list_elem_of_lookup in Hal as [i Hi]. rewrite El in R2.
    destruct (Forall2_lookup_l _ _ _ _ _ R2 Hi) as (s' & _ & Hs'). congruence. }
  assert (∀ x s', subs w !! x = Some s' → <[a:=s]> (subs w) !! x = Some s') as Hm.
  { intros x s' Hx. rewrite lookup_insert_ne; [done|]. intros <-. congruence. }
  split_and!; try done.
  - split_and!; try done. cbn. rewrite El in R2. apply Forall2_app; [|constructor; [by rewrite lookup_insert_eq|done]].
    eapply Forall2_impl; [exact R2|]. intros x s' Hx. by apply Hm.
  - apply NoDup_app. split_and!; [done| |apply NoDup_singleton]. set_solver.
  - intros x s' Hx. destruct (HF x s' Hx) as [Hx1 Hx2]. split; [by apply Hm|].
    rewrite elem_of_app, list_elem_of_singleton. intros [?| ->]; [done|congruence].
  - intros x Hx. rewrite lookup_insert in Hx. rewrite elem_of_app, list_elem_of_singleton. case_decide; [naive_solver|].
    destruct (Hrest x Hx); naive_solver.
Qed.

(** ** The events *)
Lemma bind_singleton {A B} (f : A → B) (g : A → list B) l : (∀ x, g x = [f x]) → l ≫= g = f <$> l.
Proof. intros E. induction l as [|x l IH]; [done|]. cbn. rewrite E, IH. done. Qed.

Lemma tells_active ev m l f : (∀ s, ev_out ev m s = [f s]) →
  tells ev m AGPS_NOTIFICATION_TYPE_FOR_ACTIVE_SUBSCRIBERS l = f <$> a_active l.
Proof. intros E. unfold tells. by rewrite (bind_singleton f). Qed.

Lemma tells_inactive ev m l f : (∀ s, ev_out ev m s = [f s]) →
  tells ev m AGPS_NOTIFICATION_TYPE_FOR_INACTIVE_SUBSCRIBERS l = f <$> a_inactive l.
Proof.
  intros E. unfold tells. rewrite (bind_singleton f) by done. f_equal. unfold a_inactive, active. cbn.
  apply list_filter_iff. intros s. by destruct (mIsInactive s).
Qed.

Lemma tells_all ev m l f : (∀ s, ev_out ev m s = [f s]) →
  tells ev m AGPS_NOTIFICATION_TYPE_FOR_ALL_SUBSCRIBERS l = f <$> l.
Proof.
  intros E. unfold tells. rewrite (bind_singleton f) by done. f_equal. apply filter_all. by apply Forall_true.
Qed.

Lemma keep_all l : keep true AGPS_NOTIFICATION_TYPE_FOR_ALL_SUBSCRIBERS l = [].
Proof. apply filter_none. by apply Forall_true. Qed.

Lemma keep_inactive l : keep true AGPS_NOTIFICATION_TYPE_FOR_INACTIVE_SUBSCRIBERS l = a_active l.
Proof. unfold keep, a_active, active. cbn. apply list_filter_iff. intros s. by destruct (mIsInactive s). Qed.

Lemma spec_subscribe n F p s am :
  F !! p = Some s → a_state am ≠ AGPS_STATE_INVALID →
  spec n F (Some p) (processAgpsEvent n AGPS_EVENT_SUBSCRIBE) tt am (a_subscribe s am).1 (a_subscribe s am).2.
Proof.
  intros Hp Hst. apply spec_this. intros m -> -> _ _ _ _ _ _. unfold a_subscribe.
  pose proof (spec_add n F (Some p) am p s Hp) as Hadd. destruct (a_state am) eqn:Es; cbn [fst snd]; try done.
  - eapply spec_bind0; [exact Hadd|]. rewrite <-(app_nil_r [_]).
    eapply spec_bind; [apply (spec_conn _ _ _ true (a_set AGPS_STATE_RELEASED (a_add s (a_subs am)) am))|].
    apply (spec_transition _ _ _ _ (a_set AGPS_STATE_RELEASED (a_add s (a_subs am)) am)).
  - rewrite <-(app_nil_r [_]). eapply spec_bind; [by apply (spec_notify _ _ _ _ AGPS_EVENT_GRANTED)|exact Hadd].
Qed.

Lemma spec_granted n F c am :
  spec n F c (processAgpsEvent n AGPS_EVENT_GRANTED) tt am (a_granted am).1 (a_granted am).2.
Proof.
  apply spec_this. intros m -> _ _ _ _ _ _ _. unfold a_granted. destruct (a_state am) eqn:Es; cbn [fst snd]; try apply spec_ret.
  eapply spec_bind0; [apply spec_transition|].
  rewrite <-(tells_active AGPS_EVENT_GRANTED (a_set AGPS_STATE_ACQUIRED (a_subs am) am)) by done.
  apply (spec_notifyAll n F c AGPS_EVENT_GRANTED false _ (a_set AGPS_STATE_ACQUIRED (a_subs am) am)).
Qed.

Lemma spec_releasing_done n F c am :
  spec n F c (releasing_done n) tt am (a_releasing_done am).1 (a_releasing_done am).2.
Proof.
  unfold releasing_done, a_releasing_done.
  pose proof (spec_notifyAll n F c AGPS_EVENT_RELEASED true AGPS_NOTIFICATION_TYPE_FOR_INACTIVE_SUBSCRIBERS am) as Hn.
  rewrite (tells_inactive _ _ _ a_close), keep_inactive in Hn by done.
  assert (a_active (a_active (a_subs am)) = a_active (a_subs am)) as Hidem by (unfold a_active; rewrite list_filter_filter; apply list_filter_iff; naive_solver).
  destruct (decide (a_active (a_subs am) = [])) as [He|He]; cbn [fst snd].
  - rewrite <-(app_nil_r (_ <$> _)). eapply spec_bind; [exact Hn|]. eapply spec_bind0; [apply spec_anyActive|].
    cbn [a_subs a_set]. rewrite Hidem, He. apply (spec_transition _ _ _ _ (a_set (a_state am) [] am)).
  - eapply spec_bind; [exact Hn|]. eapply spec_bind0; [apply spec_anyActive|].
    cbn [a_subs a_set]. rewrite Hidem, bool_decide_eq_false_2 by done. cbn [negb].
    eapply spec_bind0; [apply spec_transition|].
    apply (spec_conn _ _ _ true (a_set AGPS_STATE_PENDING (a_active (a_subs am)) am)).
Qed.

Lemma spec_released n F c am :
  spec n F c (processAgpsEvent n AGPS_EVENT_RELEASED) tt am (a_released am).1 (a_released am).2.
Proof.
  apply spec_this. intros m -> _ _ _ _ _ _ _. unfold a_released.
  destruct (a_state am) eqn:Es; cbn [fst snd]; try apply spec_ret; [|apply spec_releasing_done].
  eapply spec_bind0; [apply spec_transition|].
  pose proof (spec_notifyAll n F c AGPS_EVENT_RELEASED true AGPS_NOTIFICATION_TYPE_FOR_ALL_SUBSCRIBERS
                (a_set AGPS_STATE_RELEASED (a_subs am) am)) as Hn.
  by rewrite (tells_all _ _ _ a_close), keep_all in Hn.
Qed.

Lemma spec_denied n F c am :
  spec n F c (processAgpsEvent n AGPS_EVENT_DENIED) tt am (a_denied am).1 (a_denied am).2.
Proof.
  apply spec_this. intros m -> _ _ _ _ _ _ _. unfold a_denied.
  destruct (a_state am) eqn:Es; cbn [fst snd]; try apply spec_ret; [|apply spec_releasing_done].
  eapply spec_bind0; [apply spec_transition|].
  pose proof (spec_notifyAll n F c AGPS_EVENT_DENIED true AGPS_NOTIFICATION_TYPE_FOR_ALL_SUBSCRIBERS
                (a_set AGPS_STATE_RELEASED (a_subs am) am)) as Hn.
  by rewrite (tells_all _ _ _ (a_open 0 am)), keep_all in Hn.
Qed.

(** Unsubscribing the subscriber at a given place of the list. *)
Lemma inactivate_insert h i s ls :
  NoDup (mConnHandle <$> ls) → ls !! i = Some s → mConnHandle s = h →
  inactivate h <$> ls =
  <[i := Subscriber (mConnHandle s) (mWaitForCloseComplete s) true (sub_mApnTypeMask s)]> ls.
Proof.
  intros Hnd Hi Hh. apply list_eq. intros j. rewrite list_lookup_fmap. unfold inactivate.
  destruct (decide (i = j)) as [<-|Hij].
  - rewrite Hi, list_lookup_insert_eq by (by eapply lookup_lt_Some). cbn. by rewrite bool_decide_eq_true_2.
  - rewrite list_lookup_insert_ne by done. destruct (ls !! j) as [t|] eqn:Hj; [|done]. cbn.
    rewrite bool_decide_eq_false_2; [done|]. intros Ht. apply Hij.
    eapply (NoDup_lookup _ i j); [exact Hnd|by rewrite list_lookup_fmap, Hi|rewrite list_lookup_fmap, Hj; cbn; congruence].
Qed.

Lemma unsubscribe_current_at n F c w am l i p s :
  owns_at n F c w am l → c = Some p → l !! i = Some p → a_subs am !! i = Some s →
  mWaitForCloseComplete s = true → NoDup (mConnHandle <$> a_subs am) →
  ∃ w', unsubscribe_current n w = Done tt w' ∧
    owns_at n F c w' (a_set (a_state am) (inactivate (mConnHandle s) <$> a_subs am) am) l ∧
    sm_at (other n) w' = sm_at (other n) w ∧ log w' = log w.
Proof.
  intros Hw Hc Hi Hs Hwait Hnd. pose proof Hw as (m & Em & Hcm & (R1 & R2 & R3 & R4 & R5 & R6 & R7) & El & Hndl & HF & Hrest).
  rewrite El in R2. pose proof (Forall2_lookup_lr _ _ _ _ _ _ R2 Hi Hs) as Hp. cbn in Hp.
  unfold unsubscribe_current. rewrite (bind_done _ _ _ m w) by (by apply deref_done). rewrite Hcm, Hc.
  rewrite (bind_done _ _ _ s w) by (by apply deref_done). rewrite Hwait. unfold store.
  rewrite (bind_done _ _ _ s w) by (by apply deref_done). eexists. split; [done|]. split_and!; [|by destruct n|done].
  exists m. rewrite sm_at_subs. cbn [set_subs subs]. split_and!; try done; [congruence| | |].
  - split_and!; try done. cbn. rewrite El. rewrite (inactivate_insert _ i s) by done. rewrite Hwait.
    apply Forall2_same_length_lookup. rewrite length_insert. split; [by eapply Forall2_length|].
    intros j x y Hx Hy. destruct (decide (i = j)) as [<-|Hij].
    + rewrite list_lookup_insert_eq in Hy by (by eapply lookup_lt_Some). rewrite Hx in Hi. simplify_eq.
      by rewrite lookup_insert_eq.
    + rewrite list_lookup_insert_ne in Hy by done. rewrite lookup_insert_ne.
      * by apply (Forall2_lookup_lr _ _ _ _ _ _ R2 Hx Hy).
      * intros <-. apply Hij. by eapply NoDup_lookup.
  - intros a t Ha. destruct (HF a t Ha) as [Ha1 Ha2]. split; [|done]. rewrite lookup_insert_ne; [done|].
    intros <-. apply Ha2. by eapply list_elem_of_lookup_2.
  - intros a Ha. rewrite lookup_insert in Ha. case_decide as E; [left; subst; by eapply list_elem_of_lookup_2|].
    by apply Hrest.
Qed.

Lemma unsubscribe_at n F c w am l i p s :
  owns_at n F c w am l → c = Some p → l !! i = Some p → a_subs am !! i = Some s → am_inv am →
  ∃ w', processAgpsEvent n AGPS_EVENT_UNSUBSCRIBE w = Done tt w' ∧
    owns n F c w' (a_unsubscribe (mConnHandle s) am).1 ∧
    sm_at (other n) w' = sm_at (other n) w ∧ log w' = log w ++ (a_unsubscribe (mConnHandle s) am).2.
Proof.
  intros Hw Hc Hi Hs (Hnd & Hwait & Hst & Hrel).
  assert (mWaitForCloseComplete s = true) as Hws by (by eapply Forall_lookup_1 in Hwait).
  destruct (unsubscribe_current_at n F c w am l i p s Hw Hc Hi Hs Hws Hnd) as (w1 & E1 & Hw1 & O1 & L1).
  pose proof Hw as (m & Em & _ & (R1 & _) & _). unfold processAgpsEvent, processAgpsEventUnsubscribe.
  rewrite (bind_done _ _ _ m w) by (by apply deref_done). rewrite R1. unfold a_unsubscribe.
  set (am1 := a_set (a_state am) (inactivate (mConnHandle s) <$> a_subs am) am) in *.
  assert (a_subs am1 ≠ []) as Hne.
  { cbn. intros E. apply fmap_nil_inv in E. by rewrite E in Hs. }
  assert (spec n F c (m' ← this n; if bool_decide (mSubscriberList m' = []) then
        _ ← transitionState n AGPS_STATE_RELEASED; requestOrReleaseDataConn n false
      else active ← anyActiveSubscribers n;
        if negb active then _ ← transitionState n AGPS_STATE_RELEASING; requestOrReleaseDataConn n false
        else mret tt) tt am1
      (if decide (a_active (a_subs am1) = []) then a_set AGPS_STATE_RELEASING (a_subs am1) am else am1)
      (if decide (a_active (a_subs am1) = []) then [a_fw false am] else [])) as Hpend.
  { apply spec_this. intros m' _ _ _ _ _ _ _ Hem. rewrite bool_decide_eq_false_2 by tauto.
    eapply spec_bind0; [apply spec_anyActive|]. rewrite negb_involutive. destruct (decide _) as [He|He].
    - rewrite bool_decide_eq_true_2 by done. eapply spec_bind0; [apply spec_transition|].
      apply (spec_conn _ _ _ false (a_set AGPS_STATE_RELEASING (a_subs am1) am)).
    - rewrite bool_decide_eq_false_2 by done. apply spec_ret. }
  destruct (a_state am) eqn:Es; try done.
  - by rewrite (Hrel eq_refl) in Hs.
  - rewrite (bind_done _ _ _ _ _ E1). destruct (Hpend w1) as (w2 & E2 & Hw2 & O2 & L2); [by eexists|]. exists w2.
    rewrite L2, L1, O2. cbn [a_subs am1 a_set] in *. by destruct (decide _).
  - rewrite (bind_done _ _ _ _ _ E1). destruct (Hpend w1) as (w2 & E2 & Hw2 & O2 & L2); [by eexists|]. exists w2.
    rewrite L2, L1, O2. cbn [a_subs am1 a_set] in *. by destruct (decide _).
  - rewrite (bind_done _ _ _ _ _ E1).
    assert (spec n F c (m' ← this n; if bool_decide (mSubscriberList m' = []) then transitionState n AGPS_STATE_RELEASED
                                    else mret tt) tt am1 am1 []) as Hrl.
    { apply spec_this. intros m' _ _ _ _ _ _ _ Hem. rewrite bool_decide_eq_false_2 by tauto. apply spec_ret. }
    destruct (Hrl w1) as (w2 & E2 & Hw2 & O2 & L2); [by eexists|]. exists w2. by rewrite L2, L1, O2.
Qed.

Lemma getSubscriber_loop_spec (w : world) P l ls :
  Forall2 (λ a s, subs w !! a = Some s) l ls →
  (∃ i p s, getSubscriber_loop P l w = Done (Some p) w ∧ l !! i = Some p ∧ ls !! i = Some s ∧ P s = true) ∨
  (getSubscriber_loop P l w = Done None w ∧ Forall (λ s, P s = false) ls).
Proof.
  induction 1 as [|a s l ls Ha _ IH]; [by right|]. cbn [getSubscriber_loop].
  rewrite (bind_done _ _ _ s w) by (by apply deref_done). destruct (P s) eqn:Ps.
  - left. by exists 0, a, s.
  - destruct IH as [(i & p & t & E & Hi & Ht & Pt)|[E Hno]]; rewrite E; [left; by exists (S i), p, t|right; by split; [|constructor]].
Qed.

Lemma dropAll_loop_spec n F c am l ls :
  ∀ w, owns_at n F c w (a_set (a_state am) ls am) l →
  ∃ w', dropAll_loop n l w = Done tt w' ∧ owns n F c w' (a_set (a_state am) [] am) ∧
    sm_at (other n) w' = sm_at (other n) w ∧ log w' = log w.
Proof.
  revert ls. induction l as [|a l IH]; intros ls w Hw; pose proof Hw as (m & _ & _ & (_ & R2 & _) & El & _); cbn in R2;
    rewrite El in R2; inversion R2; subst.
  { exists w. split_and!; try done. by exists []. }
  destruct (erase_delete n F c w am [] a l [] y l' (dropAll_loop n l) Hw eq_refl) as (w1 & E1 & Hw1 & O1 & L1).
  cbn [app dropAll_loop] in *. rewrite E1. destruct (IH l' w1 Hw1) as (w' & E & Hw' & O & L).
  exists w'. split_and!; [done|done|congruence|congruence].
Qed.

Lemma spec_drop n F c am : spec n F c (dropAllSubscribers n) tt am (a_set (a_state am) [] am) [].
Proof.
  intros w [l Hw]. pose proof Hw as (m & Em & _ & _ & El & _). unfold dropAllSubscribers.
  rewrite (bind_done _ _ _ m w) by (by apply deref_done). rewrite El, app_nil_r.
  apply (dropAll_loop_spec n F c am l (a_subs am)). by rewrite a_set_id.
Qed.

(** ** From one machine to the manager *)
Definition rest (n : nif) (w : world) : gmap addr AgpsSubscriber := filter (λ p, p.1 ∉ ptrs n w) (subs w).

Definition a_put (n : nif) (m : amach) (o : list agps_out) (w : aworld) : aworld :=
  match n with
  | AgnssNif => AW (Some m) (a_internet w) (a_log w ++ o)
  | InternetNif => AW (a_agnss w) (Some m) (a_log w ++ o)
  end.

Lemma a_on_put n f w m : a_at n w = Some m → a_on n f w = a_put n (f m).1 (f m).2 w.
Proof. intros E. unfold a_on. rewrite E. destruct (f m). by destruct n. Qed.

Lemma rest_lookup n w a s : rest n w !! a = Some s ↔ subs w !! a = Some s ∧ a ∉ ptrs n w.
Proof. unfold rest. by rewrite map_lookup_filter_Some. Qed.

Lemma rep_other w aw n : rep w aw → sm_at n w = None ↔ a_at n aw = None.
Proof. intros (Hm & _). destruct (Hm n); naive_solver. Qed.

Lemma ptrs_nodup w aw n : rep w aw → NoDup (ptrs n w) ∧ ∀ a, a ∈ ptrs n w → a ∉ ptrs (other n) w.
Proof.
  intros (_ & Hnd & _). apply NoDup_app in Hnd as (H1 & H2 & H3). destruct n; cbn; split; try done.
  intros a Ha Ha'. by apply (H2 a).
Qed.

Lemma ptrs_some n w m : sm_at n w = Some m → ptrs n w = mSubscriberList m.
Proof. unfold ptrs. by intros ->. Qed.

Lemma rep_owns w aw n am :
  rep w aw → a_at n aw = Some am →
  ∃ m, sm_at n w = Some m ∧ owns_at n (rest n w) (mCurrentSubscriber m) w am (mSubscriberList m).
Proof.
  intros Hrep Ha. pose proof (ptrs_nodup w aw n Hrep) as [Hnd _]. pose proof Hrep as (Hm & _).
  specialize (Hm n). rewrite Ha in Hm. inversion Hm as [m am' Hsm Em|]; subst. exists m. split; [done|].
  exists m. split_and!; try done.
  - by rewrite <-(ptrs_some n w m).
  - intros a s. rewrite rest_lookup, (ptrs_some n w m) by done. done.
  - intros a [s Hs]. destruct (decide (a ∈ mSubscriberList m)); [by left|right]. exists s. apply rest_lookup.
    by rewrite (ptrs_some n w m).
Qed.

Lemma owns_rep w aw n am c w' am' o :
  rep w aw → a_at n aw = Some am → owns n (rest n w) c w' am' → sm_at (other n) w' = sm_at (other n) w →
  log w' = log w ++ o → rep w' (a_put n am' o aw).
Proof.
  intros Hrep Ha (l & m & Em & _ & Hsm & El & Hnd & HF & Hrest) Ho Hl.
  pose proof (ptrs_nodup w aw (other n) Hrep) as [Hndo Hdis].
  assert (other (other n) = n) as Hoo by (by destruct n). rewrite Hoo in Hdis.
  pose proof Hrep as (Hm & _ & Halive & Hlog).
  assert (ptrs (other n) w' = ptrs (other n) w) as Epo by (unfold ptrs; by rewrite Ho).
  assert (ptrs n w' = l) as Ep by (by rewrite (ptrs_some n w' m)).
  assert (Forall (λ a, ∀ s, subs w !! a = Some s → subs w' !! a = Some s ∧ a ∉ l) (ptrs (other n) w)) as Hframe.
  { apply Forall_forall. intros a Hin s Hs. apply HF, rest_lookup. split; [done|]. by apply Hdis. }
  assert (∀ a, a ∈ ptrs (other n) w → is_Some (subs w !! a)) as Hal.
  { intros a Hin. specialize (Hm (other n)). unfold ptrs in Hin.
    destruct (sm_at (other n) w) as [m0|]; [|set_solver]. inversion Hm as [? am0 (_ & R2 & _)|]; subst.
    apply list_elem_of_lookup in Hin as [i Hi]. destruct (Forall2_lookup_l _ _ _ _ _ R2 Hi) as (s & _ & Hs). eauto. }
  assert (∀ n', option_Forall2 (sm_rep (subs w')) (sm_at n' w') (a_at n' (a_put n am' o aw))) as Hrep'.
  { intros n'. assert (n' = n ∨ n' = other n) as [->| ->] by (destruct n, n'; auto).
    - rewrite Em. destruct n; cbn; by constructor.
    - rewrite Ho. assert (a_at (other n) (a_put n am' o aw) = a_at (other n) aw) as -> by (by destruct n).
      specialize (Hm (other n)). unfold ptrs in Hframe.
      destruct (sm_at (other n) w) as [m0|]; inversion Hm as [? am0 (R1 & R2 & R3)|]; subst; constructor.
      split; [done|split; [|exact R3]].
      apply Forall2_same_length_lookup in R2 as [Hlen R2]. apply Forall2_same_length_lookup. split; [done|].
      intros i a s Hi Hs. rewrite Forall_lookup in Hframe. by apply (Hframe i a Hi s), (R2 i). }
  assert (∀ a, a ∈ l → a ∉ ptrs (other n) w) as Hdis'.
  { intros a Hin Hin'. rewrite Forall_forall in Hframe. destruct (Hal a Hin') as [s Hs]. by apply (Hframe a Hin' s). }
  split_and!; [done| | |destruct n; cbn; congruence].
  - destruct n; cbn [other] in *; rewrite Ep, Epo; apply NoDup_app; split_and!; try done. intros a H1 H2. by apply (Hdis' a).
  - intros a Has. destruct (Hrest a Has) as [Hin|[s Hs]]; [destruct n; cbn [other] in *; rewrite Ep; set_solver|].
    apply rest_lookup in Hs as [Hs Hnin]. specialize (Halive a ltac:(eauto)).
    destruct n; cbn [other] in *; rewrite Ep, Epo; set_solver.
Qed.

(** Lifting a machine step to the manager. *)
Lemma spec_lift w aw n op f am :
  rep w aw → a_at n aw = Some am → (∀ F c, spec n F c op tt am (f am).1 (f am).2) →
  ∃ w', op w = Done tt w' ∧ rep w' (a_on n f aw).
Proof.
  intros Hrep Ha Hop. destruct (rep_owns w aw n am Hrep Ha) as (m & Em & Hw).
  destruct (Hop _ _ w (ex_intro _ _ Hw)) as (w' & E & Hw' & O & L). exists w'. split; [done|].
  rewrite (a_on_put _ _ _ _ Ha). by eapply owns_rep.
Qed.

(** The subscriber object on the stack of requestATL. *)
Lemma owns_alloc n F c w am s :
  owns n F c w am →
  ∃ a w', alloc s w = Done a w' ∧ F !! a = None ∧ owns n (<[a := s]> F) c w' am ∧
    sm_at (other n) w' = sm_at (other n) w ∧ log w' = log w.
Proof.
  intros (l & m & Em & Hc & (R1 & R2 & R3) & El & Hnd & HF & Hrest).
  set (a := fresh (dom (subs w))). assert (subs w !! a = None) as Hfr by (apply not_elem_of_dom, is_fresh).
  exists a, (set_subs <[a := s]> w). assert (F !! a = None) as HFa.
  { apply eq_None_not_Some. intros [t Ht]. destruct (HF a t Ht). congruence. }
  assert (a ∉ l) as Hal.
  { intros Hal. apply list_elem_of_lookup in Hal as [i Hi]. rewrite El in R2.
    destruct (Forall2_lookup_l _ _ _ _ _ R2 Hi) as (s' & _ & Hs'). congruence. }
  assert (∀ x s', subs w !! x = Some s' → <[a:=s]> (subs w) !! x = Some s') as Hm.
  { intros x s' Hx. rewrite lookup_insert_ne; [done|]. intros <-. congruence. }
  split_and!; [done|done| |by destruct n|done]. exists l, m. rewrite sm_at_subs. cbn [set_subs subs].
  split_and!; try done.
  - split; [done|]. split; [|done]. eapply Forall2_impl; [exact R2|]. intros x t Hx. by apply Hm.
  - intros x t Hx. rewrite lookup_insert in Hx |- *. case_decide; simplify_eq; [done|]. apply HF in Hx as [Hx ?]. done.
  - intros x Hx. rewrite lookup_insert in Hx |- *. case_decide; [by right|]. by apply Hrest.
Qed.

Lemma owns_current n F c c' w am :
  owns n F c w am →
  ∃ w', set_this n (set_current c') w = Done tt w' ∧ owns n F c' w' am ∧
    sm_at (other n) w' = sm_at (other n) w ∧ log w' = log w.
Proof.
  intros (l & m & Em & Hc & Hr & El & Hnd & HF & Hrest). unfold set_this.
  rewrite (bind_done _ _ _ m w) by (by apply deref_done). eexists. split; [done|].
  rewrite sm_at_put_other, log_put. split_and!; try done. exists l, (set_current c' m). rewrite sm_at_put, subs_put. done.
Qed.

Lemma owns_free n F c w am a s :
  owns n (<[a := s]> F) c w am → F !! a = None →
  ∃ w', delete_sub a w = Done tt w' ∧ owns n F c w' am ∧ sm_at (other n) w' = sm_at (other n) w ∧ log w' = log w.
Proof.
  intros (l & m & Em & Hc & (R1 & R2 & R3) & El & Hnd & HF & Hrest) HFa.
  destruct (HF a s) as [Ha Hal]; [by rewrite lookup_insert_eq|]. unfold delete_sub.
  rewrite (bind_done _ _ _ s w) by (by apply deref_done). eexists. split; [done|].
  split_and!; [|by destruct n|done]. exists l, m. rewrite sm_at_subs. cbn [set_subs subs]. split_and!; try done.
  - split; [done|]. split; [|done]. rewrite El in *. apply Forall2_same_length_lookup in R2 as [Hlen R2].
    apply Forall2_same_length_lookup. split; [done|]. intros i x y Hx Hy. rewrite lookup_delete_ne; [by eapply R2|].
    intros <-. apply Hal. by eapply list_elem_of_lookup_2.
  - intros x t Hx. assert (a ≠ x) by (intros <-; congruence). rewrite lookup_delete_ne by done.
    apply HF. by rewrite lookup_insert_ne.
  - intros x Hx. rewrite lookup_delete in Hx. case_decide; [by destruct Hx|]. destruct (Hrest x Hx) as [|Hx']; [by left|].
    right. by rewrite lookup_insert_ne in Hx'.
Qed.

Lemma request_refines em h t k w aw :
  rep w aw → aw_inv aw → ∃ w', requestATL em h t k w = Done tt w' ∧ rep w' (a_exec em (RequestATL h t k) aw).
Proof.
  intros Hrep Hinv. unfold requestATL. cbn [a_exec]. destruct (adjust_request em t k) as [t' k'].
  set (n := getAgpsStateMachine t'). destruct (a_at n aw) as [am|] eqn:Ha.
  - destruct (rep_owns w aw n am Hrep Ha) as (m & Em & Hw). rewrite (bind_done _ _ w (sm_at n w) w) by done. rewrite Em. cbn [is_null].
    set (am1 := AM (a_state am) (a_subs am) t' k' (a_apn am) (a_len am) (a_bearer am)).
    set (am0 := AM (a_state am) (a_subs am) t' (a_mask am) (a_apn am) (a_len am) (a_bearer am)).
    assert (spec n (rest n w) (mCurrentSubscriber m) (set_this n (set_type t')) tt am am0 []) as S1.
    { apply spec_set; [done|]. intros σ m' (R1 & R2 & R3 & R4 & R5 & R6 & R7). by split_and!. }
    assert (spec n (rest n w) (mCurrentSubscriber m) (set_this n (set_mask k')) tt am0 am1 []) as S2.
    { apply spec_set; [done|]. intros σ m' (R1 & R2 & R3 & R4 & R5 & R6 & R7). by split_and!. }
    destruct (S1 w (ex_intro _ _ Hw)) as (w1 & E1 & Hw1 & O1 & L1).
    destruct (S2 w1 Hw1) as (w2 & E2 & Hw2 & O2 & L2).
    set (s := Subscriber h true false k').
    destruct (owns_alloc _ _ _ _ _ s Hw2) as (a & w3 & E3 & HFa & Hw3 & O3 & L3).
    destruct (owns_current _ _ _ (Some a) _ _ Hw3) as (w4 & E4 & Hw4 & O4 & L4).
    destruct (spec_subscribe n (<[a := s]> (rest n w)) a s am1) with (w := w4) as (w5 & E5 & Hw5 & O5 & L5).
    + by rewrite lookup_insert_eq.
    + by apply (Hinv n am Ha).
    + done.
    + destruct (owns_free _ _ _ _ _ _ _ Hw5 HFa) as (w6 & E6 & Hw6 & O6 & L6). exists w6.
      do 5 (erewrite bind_done; [|eassumption]). split; [done|].
      rewrite (a_on_put _ _ _ am) by done. fold am1. fold s.
      rewrite app_nil_r in L1, L2. eapply owns_rep; [done|done|done|congruence|congruence].
  - apply (rep_other w aw n Hrep) in Ha as Hn. rewrite (bind_done _ _ w (sm_at n w) w) by done. rewrite Hn. cbn [is_null]. eexists. split; [done|].
    destruct Hrep as (H1 & H2 & H3 & H4). split_and!; [intros n'; specialize (H1 n'); by destruct n'|done|done|].
    cbn. congruence.
Qed.

Lemma find_in_spec w aw n h :
  rep w aw →
  (a_has n h aw = true ∧ ∃ i p s am m, find_in n h w = Done (Some p) w ∧ sm_at n w = Some m ∧ a_at n aw = Some am ∧
     mSubscriberList m !! i = Some p ∧ a_subs am !! i = Some s ∧ mConnHandle s = h) ∨
  (a_has n h aw = false ∧ find_in n h w = Done None w).
Proof.
  intros Hrep. unfold find_in, a_has, gets. mrun. destruct (a_at n aw) as [am|] eqn:Ha.
  - destruct (rep_owns w aw n am Hrep Ha) as (m & Em & (m' & Em' & _ & (_ & R2 & _) & _)). rewrite Em. cbn [is_null].
    assert (m' = m) as -> by congruence. unfold getSubscriber. rewrite (bind_done _ _ _ m w) by (by apply deref_done).
    destruct (getSubscriber_loop_spec w (λ s, bool_decide (mConnHandle s = h)) _ _ R2)
      as [(i & p & s & E & Hi & Hs & Hh)|[E Hno]]; [left|right]; rewrite E.
    + apply bool_decide_eq_true in Hh. split; [|by exists i, p, s, am, m].
      apply bool_decide_eq_true_2. rewrite <-Hh. eapply list_elem_of_fmap_2, list_elem_of_lookup_2. done.
    + split; [|done]. apply bool_decide_eq_false_2. intros Hin. apply list_elem_of_fmap in Hin as (s & -> & Hin).
      rewrite Forall_forall in Hno. specialize (Hno s Hin). by apply bool_decide_eq_false in Hno.
  - right. apply (rep_other w aw n Hrep) in Ha. by rewrite Ha.
Qed.

Lemma release_in_refines w aw n h i p s am m :
  rep w aw → aw_inv aw → sm_at n w = Some m → a_at n aw = Some am → mSubscriberList m !! i = Some p →
  a_subs am !! i = Some s → mConnHandle s = h →
  ∃ w', (_ ← set_this n (set_current (Some p)); processAgpsEvent n AGPS_EVENT_UNSUBSCRIBE) w = Done tt w' ∧
    rep w' (a_on n (a_unsubscribe h) aw).
Proof.
  intros Hrep Hinv Em Ha Hi Hs <-. destruct (rep_owns w aw n am Hrep Ha) as (m' & Em' & Hw). assert (m' = m) as -> by congruence.
  pose proof Hw as (m0 & Em0 & _ & Hr & El & Hnd & HF & Hrest).
  assert (m0 = m) as -> by congruence.
  assert (set_this n (set_current (Some p)) w = Done tt (put_sm n (set_current (Some p) m) w)) as E1.
  { unfold set_this. by rewrite (bind_done _ _ _ m w) by (by apply deref_done). }
  rewrite (bind_done _ _ _ _ _ E1).
  destruct (unsubscribe_at n (rest n w) (Some p) (put_sm n (set_current (Some p) m) w) am (mSubscriberList m) i p s)
    as (w' & E2 & Hw' & O' & L'); try done.
  - exists (set_current (Some p) m). rewrite sm_at_put, subs_put. done.
  - by apply (Hinv n).
  - exists w'. split; [done|]. rewrite (a_on_put _ _ _ am) by done. rewrite sm_at_put_other in O'. rewrite log_put in L'.
    by eapply owns_rep.
Qed.

(** The machine a report is about exists. *)
Definition call_ok (c : call) (w : aworld) : Prop :=
  match c with
  | OpenSuccess t _ _ _ | OpenFailed t | Closed t => is_Some (a_at (getAgpsStateMachine t) w)
  | _ => True
  end.

(** A report that makes setAPN delete a string. *)
Definition deletes_array (c : call) (w : aworld) : bool :=
  match c with
  | OpenSuccess t _ _ _ => match a_at (getAgpsStateMachine t) w with Some m => negb (is_null (a_apn m)) | None => false end
  | _ => false
  end.
Fixpoint deletes_arrays (emergency : Z) (cs : list call) (w : aworld) : bool :=
  match cs with [] => false | c :: cs => deletes_array c w || deletes_arrays emergency cs (a_exec emergency c w) end.

Lemma spec_setAPN n F c apn len b am :
  array_delete || is_null (a_apn am) = true →
  spec n F c (setAPN n apn len) tt (AM (a_state am) (a_subs am) (a_type am) (a_mask am) (a_apn am) (a_len am) b)
    (a_setAPN apn len b am) [].
Proof.
  intros Hd. unfold setAPN. apply spec_this. intros m _ _ _ _ E6 _ _ _. rewrite E6.
  assert (Hset : ∀ a0 l0, spec n F c (match apn with
      | Some s => if (MAX_APN_LEN <? len)%Z || negb (Z.of_nat (length s) =? len)%Z
                  then set_this n (set_apn None 0) else set_this n (set_apn (Some s) len)
      | None => set_this n (set_apn None 0) end) tt
      (AM (a_state am) (a_subs am) (a_type am) (a_mask am) a0 l0 b) (a_setAPN apn len b am) []).
  { intros a0 l0. unfold a_setAPN. destruct apn as [s|]; [destruct (_ || negb (_ =? _)%Z)|];
      (apply spec_set; [done|]; intros σ m' (R1 & R2 & R3 & R4 & R5 & R6 & R7); by split_and!). }
  destruct (a_apn am) as [s0|]; cbn [is_null negb when]; [|eapply spec_bind0; [apply spec_ret|apply Hset]].
  rewrite orb_false_r in Hd. rewrite Hd.
  eapply spec_bind0; [|apply (Hset None (mAPNLen m))].
  apply spec_set; [done|]. intros σ m' (R1 & R2 & R3 & R4 & R5 & R6 & R7). by split_and!.
Qed.

Lemma exec_refines em c w aw :
  rep w aw → aw_inv aw → call_ok c aw → array_delete || negb (deletes_array c aw) = true → ∃ w', exec em c w = Done tt w' ∧ rep w' (a_exec em c aw).
Proof.
  intros Hrep Hinv Hok Hd. destruct c as [h t k|h|t apn len b|t|t|]; cbn [exec a_exec].
  - by apply request_refines.
  - unfold releaseATL.
    destruct (find_in_spec w aw AgnssNif h Hrep) as [(-> & i & p & s & am & m & E & Em & Ha & Hi & Hs & Hh)|[-> E]];
      rewrite (bind_done _ _ _ _ _ E); [by eapply (release_in_refines w aw AgnssNif)|].
    destruct (find_in_spec w aw InternetNif h Hrep) as [(-> & i & p & s & am & m & E' & Em & Ha & Hi & Hs & Hh)|[-> E']];
      rewrite (bind_done _ _ _ _ _ E'); [by eapply (release_in_refines w aw InternetNif)|by exists w].
  - destruct Hok as [am Ha]. apply (spec_lift w aw _ _ _ am Hrep Ha). intros F c. unfold reportAtlOpenSuccess.
    set (n := getAgpsStateMachine t).
    eapply spec_bind0; [|eapply spec_bind0; [|apply spec_granted]].
    + apply (spec_set n F c _ _ (AM (a_state am) (a_subs am) (a_type am) (a_mask am) (a_apn am) (a_len am) b)); [done|].
      intros σ m' (R1 & R2 & R3 & R4 & R5 & R6 & R7). by split_and!.
    + apply spec_setAPN. cbn [deletes_array] in Hd. by rewrite Ha, negb_involutive in Hd.
  - destruct Hok as [am Ha]. apply (spec_lift w aw _ _ _ am Hrep Ha). intros F c. apply spec_denied.
  - destruct Hok as [am Ha]. apply (spec_lift w aw _ _ _ am Hrep Ha). intros F c. apply spec_released.
  - unfold handleModemSSR. rewrite (bind_done _ _ _ w w) by done.
    assert (∀ n w aw, rep w aw → ∃ w', when (negb (is_null (sm_at n w))) (dropAllSubscribers n) w = Done tt w' ∧
      rep w' (a_on n (λ m, (a_set (a_state m) [] m, [])) aw) ∧ is_null (sm_at (other n) w') = is_null (sm_at (other n) w)) as Hdrop.
    { clear. intros n w aw Hrep. destruct (a_at n aw) as [am|] eqn:Ha.
      - destruct (rep_owns w aw n am Hrep Ha) as (m & Em & Hw). rewrite Em. cbn.
        destruct (spec_drop n _ _ am w (ex_intro _ _ Hw)) as (w' & E & Hw' & O & L). exists w'. split; [done|].
        rewrite (a_on_put _ _ _ _ Ha), O. split; [|done]. by eapply owns_rep.
      - apply (rep_other w aw n Hrep) in Ha as Hn. rewrite Hn. exists w. split; [done|]. split; [|done]. unfold a_on. by rewrite Ha. }
    destruct (Hdrop AgnssNif w aw Hrep) as (w1 & E1 & Hrep1 & N1). cbn [sm_at other] in *.
    rewrite (bind_done _ _ _ _ _ E1). destruct (Hdrop InternetNif w1 _ Hrep1) as (w2 & E2 & Hrep2 & _). cbn [sm_at] in *.
    rewrite <-N1. by exists w2.
Qed.

(** ** Invariants of the abstract machines *)

(** The requests (true) and releases (false) of a data connection for machine [n]. *)
Definition conn_trace (n : nif) (lg : list agps_out) : list bool :=
  omap (λ o, match o with
             | FrameworkStatus t _ st =>
                 if decide (getAgpsStateMachine t = n) then Some (bool_decide (st = LOC_GPS_REQUEST_AGPS_DATA_CONN)) else None
             | _ => None
             end) lg.

(** Every release directly follows a request. *)
Definition release_follows (tr : list bool) : Prop :=
  ∀ i, tr !! i = Some false → ∃ j, i = S j ∧ tr !! j = Some true.

Definition mach_inv (n : nif) (m : amach) (tr : list bool) : Prop :=
  am_inv m ∧ getAgpsStateMachine (a_type m) = n ∧
  (a_state m = AGPS_STATE_PENDING ∨ a_state m = AGPS_STATE_ACQUIRED → last tr = Some true) ∧
  (a_state m = AGPS_STATE_RELEASING → last tr = Some false) ∧ release_follows tr ∧
  match a_apn m with
  | Some s => Z.of_nat (length s) = a_len m ∧ (a_len m ≤ MAX_APN_LEN)%Z
  | None => a_len m = 0%Z
  end.

(** What only calls other than handleModemSSR keep. *)
Definition mach_live (m : amach) : Prop :=
  (a_state m = AGPS_STATE_PENDING ∨ a_state m = AGPS_STATE_ACQUIRED → a_active (a_subs m) ≠ []) ∧
  (a_state m = AGPS_STATE_RELEASING → a_inactive (a_subs m) ≠ []).

Lemma conn_trace_app n l1 l2 : conn_trace n (l1 ++ l2) = conn_trace n l1 ++ conn_trace n l2.
Proof. apply omap_app. Qed.

Lemma conn_trace_open n ok m l : conn_trace n (a_open ok m <$> l) = [].
Proof. induction l; done. Qed.
Lemma conn_trace_close n l : conn_trace n (a_close <$> l) = [].
Proof. induction l; done. Qed.
Lemma conn_trace_fw n b m :
  conn_trace n [a_fw b m] = if decide (getAgpsStateMachine (a_type m) = n) then [b] else [].
Proof. unfold conn_trace, a_fw. cbn. destruct (decide _); [|done]. by destruct b. Qed.

Lemma release_follows_true tr : release_follows tr → release_follows (tr ++ [true]).
Proof.
  intros Ht i Hi. apply lookup_app_Some in Hi as [Hi|[Hl Hi]].
  - destruct (Ht i Hi) as (j & -> & Hj). exists j. split; [done|]. by apply lookup_app_l_Some.
  - by destruct (i - length tr).
Qed.

Lemma release_follows_false tr : release_follows tr → last tr = Some true → release_follows (tr ++ [false]).
Proof.
  intros Ht Hl i Hi. apply lookup_app_Some in Hi as [Hi|[Hle Hi]].
  - destruct (Ht i Hi) as (j & -> & Hj). exists j. split; [done|]. by apply lookup_app_l_Some.
  - assert (i = length tr) as ->. { destruct (i - length tr) eqn:E; [lia|done]. }
    rewrite last_lookup in Hl. destruct tr as [|x tr]; [done|]. cbn in *. exists (length tr). split; [done|].
    by apply (lookup_app_l_Some (x :: tr)).
Qed.

Lemma a_active_fmap_inactivate h l :
  a_active (inactivate h <$> l) = filter (λ s, mConnHandle s ≠ h) (a_active l).
Proof.
  unfold a_active. induction l as [|s l IH]; [done|]. rewrite fmap_cons, !filter_cons, IH. clear IH.
  unfold inactivate, active. destruct (bool_decide_reflect (mConnHandle s = h)) as [E|E], (mIsInactive s) eqn:Ei;
    cbn [mIsInactive negb]; rewrite ?Ei; cbn [negb];
    rewrite ?(decide_False (P := false = true)), ?(decide_True (P := true = true)) by done; try done.
  - rewrite filter_cons, decide_False; [done|]. naive_solver.
  - rewrite filter_cons, decide_True; done.
Qed.

Lemma a_inactive_nonempty l : l ≠ [] → a_active l = [] → a_inactive l ≠ [].
Proof.
  intros Hl Ha Hi. destruct l as [|s l]; [done|]. unfold a_active, a_inactive in *. rewrite filter_cons in Ha, Hi.
  destruct (active s); done.
Qed.

Lemma inactivate_handles h (l : list AgpsSubscriber) : mConnHandle <$> (inactivate h <$> l) = mConnHandle <$> l.
Proof.
  rewrite <-list_fmap_compose. apply list_fmap_ext. intros i s _. cbn. unfold inactivate. by destruct (bool_decide _).
Qed.

Lemma a_add_inv s l :
  NoDup (mConnHandle <$> l) → Forall (λ s, mWaitForCloseComplete s = true) l → mWaitForCloseComplete s = true →
  NoDup (mConnHandle <$> a_add s l) ∧ Forall (λ s, mWaitForCloseComplete s = true) (a_add s l).
Proof.
  intros Hn Hf Hs. unfold a_add. case_bool_decide as Hin; [done|]. rewrite fmap_app. split.
  - apply NoDup_app. split_and!; [done| |apply NoDup_singleton]. set_solver.
  - apply Forall_app. by split; [|constructor].
Qed.

Lemma subscribe_inv n m tr h k :
  mach_inv n m tr → let r := a_subscribe (Subscriber h true false k) m in
  mach_inv n r.1 (tr ++ conn_trace n r.2) ∧ conn_trace (other n) r.2 = [].
Proof.
  intros ((I1 & I2 & I3 & I4) & J1 & J2 & J3 & J4 & J5). set (s := Subscriber h true false k).
  destruct (a_add_inv s (a_subs m) I1 I2 eq_refl) as [A1 A2].
  unfold a_subscribe. destruct (a_state m) eqn:Es; cbn; try done; rewrite ?app_nil_r.
  all: split; [|rewrite ?conn_trace_fw; try done; (rewrite decide_False; [done|rewrite J1; by destruct n])].
  all: split; [by split_and!|]; rewrite ?conn_trace_fw, ?decide_True by done; split_and!; try done; try naive_solver;
       rewrite ?last_snoc; try done; by apply release_follows_true.
Qed.

Lemma unsubscribe_inv n m tr h :
  mach_inv n m tr → h ∈ mConnHandle <$> a_subs m → let r := a_unsubscribe h m in
  mach_inv n r.1 (tr ++ conn_trace n r.2) ∧ conn_trace (other n) r.2 = [].
Proof.
  intros ((I1 & I2 & I3 & I4) & J1 & J2 & J3 & J4 & J5) Hh. unfold a_unsubscribe.
  set (l := inactivate h <$> a_subs m).
  assert (NoDup (mConnHandle <$> l) ∧ Forall (λ s, mWaitForCloseComplete s = true) l) as [L1 L2].
  { split; [subst l; by rewrite inactivate_handles|]. apply Forall_fmap. eapply Forall_impl; [exact I2|].
    intros s. cbn. unfold inactivate. by destruct (bool_decide _). }
  destruct (a_state m) eqn:Es; cbn; try done.
  - rewrite I4 in Hh by done. set_solver.
  - destruct (decide _); cbn; rewrite ?conn_trace_fw, ?app_nil_r.
    + rewrite decide_True, decide_False by (try done; rewrite J1; by destruct n). split; [|done].
      split_and!; try done; [by intros [?|?]|by rewrite last_snoc|apply release_follows_false; naive_solver].
    + split; [|done]. split_and!; try done; naive_solver.
  - destruct (decide _); cbn; rewrite ?conn_trace_fw, ?app_nil_r.
    + rewrite decide_True, decide_False by (try done; rewrite J1; by destruct n). split; [|done].
      split_and!; try done; [by intros [?|?]|by rewrite last_snoc|apply release_follows_false; naive_solver].
    + split; [|done]. split_and!; try done; naive_solver.
  - rewrite app_nil_r. split; [|done]. split_and!; try done; naive_solver.
Qed.

Lemma filter_handles (P : AgpsSubscriber → Prop) `{∀ s, Decision (P s)} l :
  NoDup (mConnHandle <$> l) → NoDup (mConnHandle <$> filter P l).
Proof.
  intros Hn. eapply sublist_NoDup; [exact Hn|]. apply fmap_sublist, sublist_filter.
Qed.

Lemma granted_inv n m tr :
  mach_inv n m tr → mach_inv n (a_granted m).1 (tr ++ conn_trace n (a_granted m).2) ∧ ∀ n', conn_trace n' (a_granted m).2 = [].
Proof.
  intros Hm. pose proof Hm as ((I1 & I2 & I3 & I4) & J1 & J2 & J3 & J4 & J5).
  unfold a_granted. destruct (a_state m) eqn:Es; cbn [fst snd]; rewrite ?conn_trace_open, ?app_nil_r; try done.
  split; [|intros; by apply conn_trace_open]. split_and!; try done. intros _. apply J2. by left.
Qed.

Lemma releasing_done_inv n m tr :
  mach_inv n m tr → a_state m = AGPS_STATE_RELEASING → let r := a_releasing_done m in
  mach_inv n r.1 (tr ++ conn_trace n r.2) ∧ conn_trace (other n) r.2 = [].
Proof.
  intros ((I1 & I2 & I3 & I4) & J1 & J2 & J3 & J4 & J5) Es. unfold a_releasing_done.
  destruct (decide _) as [He|He]; cbn [fst snd]; rewrite ?conn_trace_app, ?conn_trace_close, ?conn_trace_fw, ?app_nil_r.
  - split; [|done]. split_and!; try done; [split_and!; try done; constructor|by intros [?|?]].
  - cbn [app]. rewrite decide_True, decide_False by (try done; rewrite J1; by destruct n). split; [|done].
    split_and!; try done; [|by intros _; rewrite last_snoc|by apply release_follows_true].
    split_and!; try done; [by apply filter_handles|rewrite Forall_forall in I2 |- *; intros s Hs; apply list_elem_of_filter in Hs as [_ Hs]; by apply I2].
Qed.

Lemma released_inv n m tr :
  mach_inv n m tr → let r := a_released m in
  mach_inv n r.1 (tr ++ conn_trace n r.2) ∧ conn_trace (other n) r.2 = [].
Proof.
  intros Hm. pose proof Hm as ((I1 & I2 & I3 & I4) & J1 & J2 & J3 & J4 & J5). unfold a_released.
  destruct (a_state m) eqn:Es; cbn [fst snd]; rewrite ?conn_trace_close, ?app_nil_r; try done.
  - split; [|done]. split_and!; try done; [split_and!; try done; constructor|by intros [?|?]].
  - by apply releasing_done_inv.
Qed.

Lemma denied_inv n m tr :
  mach_inv n m tr → let r := a_denied m in
  mach_inv n r.1 (tr ++ conn_trace n r.2) ∧ conn_trace (other n) r.2 = [].
Proof.
  intros Hm. pose proof Hm as ((I1 & I2 & I3 & I4) & J1 & J2 & J3 & J4 & J5). unfold a_denied.
  destruct (a_state m) eqn:Es; cbn [fst snd]; rewrite ?conn_trace_open, ?app_nil_r; try done.
  - split; [|done]. split_and!; try done; [split_and!; try done; constructor|by intros [?|?]].
  - by apply releasing_done_inv.
Qed.

Lemma setAPN_inv n m tr apn len b : mach_inv n m tr → mach_inv n (a_setAPN apn len b m) tr.
Proof.
  intros (I & J1 & J2 & J3 & J4 & J5). unfold a_setAPN. destruct apn as [s|]; [|by split_and!].
  destruct (MAX_APN_LEN <? len)%Z eqn:E1; [by split_and!|]. destruct (Z.of_nat (length s) =? len)%Z eqn:E2; [|by split_and!].
  split_and!; try done; cbn; lia.
Qed.

Lemma drop_inv n m tr : mach_inv n m tr → mach_inv n (a_set (a_state m) [] m) tr.
Proof. intros ((I1 & I2 & I3 & I4) & J). split; [|done]. split_and!; try done; constructor. Qed.

(** ** The manager *)
Definition aw_ok (w : aworld) : Prop := ∀ n m, a_at n w = Some m → mach_inv n m (conn_trace n (a_log w)).

Lemma aw_ok_inv w : aw_ok w → aw_inv w.
Proof. intros Hw n m Hm. by apply (Hw n m). Qed.

Lemma a_at_put n m o w : a_at n (a_put n m o w) = Some m.
Proof. by destruct n. Qed.
Lemma a_at_put_other n m o w : a_at (other n) (a_put n m o w) = a_at (other n) w.
Proof. by destruct n. Qed.
Lemma a_log_put n m o w : a_log (a_put n m o w) = a_log w ++ o.
Proof. by destruct n. Qed.
Lemma nif_cases n n' : n' = n ∨ n' = other n.
Proof. destruct n, n'; auto. Qed.

Lemma aw_ok_on n f w :
  aw_ok w →
  (∀ m, a_at n w = Some m → mach_inv n m (conn_trace n (a_log w)) →
        mach_inv n (f m).1 (conn_trace n (a_log w) ++ conn_trace n (f m).2) ∧ conn_trace (other n) (f m).2 = []) →
  aw_ok (a_on n f w).
Proof.
  intros Hw Hf. destruct (a_at n w) as [m|] eqn:Em; [|unfold a_on; by rewrite Em].
  rewrite (a_on_put _ _ _ _ Em). destruct (Hf m eq_refl (Hw n m Em)) as [H1 H2].
  intros n' m' Hm'. rewrite a_log_put, conn_trace_app. destruct (nif_cases n n') as [->| ->].
  - rewrite a_at_put in Hm'. by simplify_eq.
  - rewrite a_at_put_other in Hm'. rewrite H2, app_nil_r. by apply Hw.
Qed.

Lemma aw_ok_exec em c w : aw_ok w → aw_ok (a_exec em c w).
Proof.
  intros Hw. destruct c as [h t k|h|t apn len b|t|t|]; cbn [a_exec].
  - destruct (adjust_request em t k) as [t' k']. destruct (a_at _ w) eqn:Ea.
    + apply aw_ok_on; [done|]. intros m _ (I & J1 & J2 & J3 & J4 & J5). apply subscribe_inv. by split_and!.
    + intros n m Hm. specialize (Hw n m). unfold conn_trace in *. cbn [a_log]. rewrite omap_app. cbn. rewrite app_nil_r. apply Hw.
      by destruct n.
  - unfold a_has. destruct (a_at AgnssNif w) as [m1|] eqn:E1; [case_bool_decide as Hin|].
    + apply aw_ok_on; [done|]. intros m Em Hm. assert (m1 = m) as -> by congruence. by apply unsubscribe_inv.
    + destruct (a_at InternetNif w) as [m2|] eqn:E2; [case_bool_decide|]; try done.
      apply aw_ok_on; [done|]. intros m Em Hm. assert (m2 = m) as -> by congruence. by apply unsubscribe_inv.
    + destruct (a_at InternetNif w) as [m2|] eqn:E2; [case_bool_decide|]; try done.
      apply aw_ok_on; [done|]. intros m Em Hm. assert (m2 = m) as -> by congruence. by apply unsubscribe_inv.
  - apply aw_ok_on; [done|]. intros m _ Hm.
    destruct (granted_inv _ _ _ (setAPN_inv _ _ _ apn (uwrap 32 len) b Hm)) as [H1 H2]. by split.
  - apply aw_ok_on; [done|]. intros m _ Hm. by apply denied_inv.
  - apply aw_ok_on; [done|]. intros m _ Hm. by apply released_inv.
  - apply aw_ok_on; [apply aw_ok_on; [done|]|]; intros m _ Hm; cbn; rewrite app_nil_r; (split; [by apply drop_inv|done]).
Qed.

Lemma a_on_exists n n' f w : is_Some (a_at n' (a_on n f w)) ↔ is_Some (a_at n' w).
Proof.
  destruct (a_at n w) as [m|] eqn:Em; [|unfold a_on; by rewrite Em].
  rewrite (a_on_put _ _ _ _ Em). destruct (nif_cases n n') as [->| ->]; [rewrite a_at_put, Em|rewrite a_at_put_other]; naive_solver.
Qed.

Lemma a_exec_exists em c w n : is_Some (a_at n (a_exec em c w)) ↔ is_Some (a_at n w).
Proof.
  destruct c as [h t k|h|t apn len b|t|t|]; cbn [a_exec]; rewrite ?a_on_exists; try done.
  - destruct (adjust_request em t k) as [t' k']. destruct (a_at (getAgpsStateMachine t') w); rewrite ?a_on_exists; [done|]. by destruct n.
  - destruct (a_has AgnssNif h w); rewrite ?a_on_exists; [done|]. destruct (a_has InternetNif h w); by rewrite ?a_on_exists.
Qed.

Lemma call_ok_exec em c c' w : call_ok c (a_exec em c' w) ↔ call_ok c w.
Proof. destruct c; cbn [call_ok]; by rewrite ?a_exec_exists. Qed.

Lemma exec_deletes em c w aw :
  rep w aw → call_ok c aw → array_delete || negb (deletes_array c aw) = false → exec em c w = UB.
Proof.
  intros (Hm & _) Hok Hd. apply orb_false_elim in Hd as [Ha Hd]. destruct c as [h t k|h|t apn len b|t|t|]; try done.
  destruct Hok as [am Hk]. cbn [deletes_array] in Hd. rewrite Hk in Hd. specialize (Hm (getAgpsStateMachine t)). rewrite Hk in Hm.
  cbn [exec]. unfold reportAtlOpenSuccess, setAPN, set_this, this. mrun.
  inversion Hm as [m ? (R1 & R2 & R3 & R4 & R5 & _) Em|]. rewrite sm_at_put. cbn [mAPN set_bearer].
  rewrite R5, Ha. by destruct (a_apn am).
Qed.

(** A sequence of calls is carried out, unless a string is deleted where that is undefined. *)
Lemma execs_refine em cs w aw :
  rep w aw → aw_ok aw → Forall (λ c, call_ok c aw) cs →
  if array_delete || negb (deletes_arrays em cs aw)
  then ∃ w', execs em cs w = Done tt w' ∧ rep w' (a_execs em cs aw) ∧ aw_ok (a_execs em cs aw)
  else execs em cs w = UB.
Proof.
  revert w aw. induction cs as [|c cs IH]; intros w aw Hrep Hok Hcs; [rewrite orb_true_r; by exists w|].
  apply Forall_cons in Hcs as [Hc Hcs]. cbn [execs a_execs foldl deletes_arrays].
  assert (Forall (λ c', call_ok c' (a_exec em c aw)) cs) as Hcs'.
  { eapply Forall_impl; [exact Hcs|]. intros c'. cbn. by rewrite call_ok_exec. }
  destruct (array_delete || negb (deletes_array c aw)) eqn:Hd.
  - destruct (exec_refines em c w aw Hrep (aw_ok_inv _ Hok) Hc Hd) as (w1 & E1 & Hrep1).
    specialize (IH w1 _ Hrep1 (aw_ok_exec em c aw Hok) Hcs'). rewrite (bind_done _ _ _ _ _ E1).
    rewrite negb_orb, orb_andb_distrib_r, Hd. exact IH.
  - rewrite negb_orb, orb_andb_distrib_r, Hd. cbn [andb]. unfold mbind, M_bind. by rewrite (exec_deletes em c w aw Hrep Hc Hd).
Qed.

(** ** Liveness of the connection states *)
Lemma a_add_active s l : active s = true → a_active l ≠ [] ∨ l = [] → a_active (a_add s l) ≠ [].
Proof.
  intros Hs Hl. unfold a_add. case_bool_decide as Hin.
  - destruct Hl as [| ->]; [done|]. cbn in Hin. set_solver.
  - unfold a_active. rewrite filter_app, filter_cons_True by done. by destruct (filter _ l).
Qed.

Lemma a_add_inactive s l : a_inactive l ≠ [] → a_inactive (a_add s l) ≠ [].
Proof.
  intros Hl. unfold a_add. case_bool_decide; [done|]. unfold a_inactive in *. rewrite filter_app.
  by destruct (filter _ l).
Qed.

Lemma a_inactive_inactivate h l : a_inactive l ≠ [] → a_inactive (inactivate h <$> l) ≠ [].
Proof.
  intros Hl Hn. apply Hl. unfold a_inactive in *. apply filter_none. apply Forall_forall. intros s Hs Hi.
  assert (inactivate h s ∈ filter (λ s, active s = false) (inactivate h <$> l)) as Hin; [|rewrite Hn in Hin; set_solver].
  apply list_elem_of_filter. split; [|by apply list_elem_of_fmap_2]. unfold inactivate, active in *. by destruct (bool_decide _).
Qed.

Definition aw_live (w : aworld) : Prop := ∀ n m, a_at n w = Some m → mach_live m.

Lemma live_on n f w :
  aw_live w → (∀ m, a_at n w = Some m → mach_live m → mach_live (f m).1) → aw_live (a_on n f w).
Proof.
  intros Hw Hf. destruct (a_at n w) as [m|] eqn:Em; [|unfold a_on; by rewrite Em].
  rewrite (a_on_put _ _ _ _ Em). intros n' m' Hm'. destruct (nif_cases n n') as [->| ->].
  - rewrite a_at_put in Hm'. simplify_eq. eauto.
  - rewrite a_at_put_other in Hm'. eauto.
Qed.

Lemma live_subscribe h k m : am_inv m → mach_live m → mach_live (a_subscribe (Subscriber h true false k) m).1.
Proof.
  intros (_ & _ & _ & I4) [L1 L2]. unfold a_subscribe.
  destruct (a_state m) eqn:Es; cbn [fst]; split; cbn [a_state a_subs a_set]; intros Hst; try done; try (by destruct Hst).
  - apply a_add_active; [done|right]. by apply I4.
  - apply a_add_active; [done|left]. by apply L1.
  - apply a_add_active; [done|left]. by apply L1.
  - apply a_add_inactive. by apply L2.
Qed.

Lemma live_unsubscribe h m : h ∈ mConnHandle <$> a_subs m → mach_live m → mach_live (a_unsubscribe h m).1.
Proof.
  intros Hh [L1 L2]. unfold a_unsubscribe.
  assert (inactivate h <$> a_subs m ≠ []) as Hne.
  { intros E. apply fmap_nil_inv in E. rewrite E in Hh. set_solver. }
  destruct (a_state m) eqn:Es; [| |destruct (decide _) as [He|He]..|];
    split; cbn [fst a_state a_subs a_set]; intros Hst; try done; try (by destruct Hst); auto using a_inactive_nonempty.
  apply a_inactive_inactivate. by apply L2.
Qed.

Lemma live_done m : mach_live (a_releasing_done m).1.
Proof.
  unfold a_releasing_done. destruct (decide _) as [He|He]; split; cbn [fst a_state a_subs a_set]; intros Hst; try done;
    try (by destruct Hst).
  unfold a_active in *. rewrite list_filter_filter. erewrite list_filter_iff; [exact He|]. naive_solver.
Qed.

Lemma live_exec em c w : c ≠ ModemSSR → aw_inv w → aw_live w → aw_live (a_exec em c w).
Proof.
  intros Hc Hi Hw. destruct c as [h t k|h|t apn len b|t|t|]; cbn [a_exec]; [| |apply live_on; [done|]; intros m Hm Hl..|done].
  - destruct (adjust_request em t k) as [t' k']. destruct (a_at _ w) eqn:Ea.
    + apply live_on; [done|]. intros m Hm Hl. apply live_subscribe; [|done]. destruct (Hi _ _ Hm) as (?&?&?&?). by split_and!.
    + intros n m Hm. apply (Hw n m). by destruct n.
  - unfold a_has. destruct (a_at AgnssNif w) as [m1|] eqn:E1; [case_bool_decide as Hin|].
    + apply live_on; [done|]. intros m Hm Hl. apply live_unsubscribe; [|done]. congruence.
    + destruct (a_at InternetNif w) as [m2|] eqn:E2; [case_bool_decide|]; try done.
      apply live_on; [done|]. intros m Hm Hl. apply live_unsubscribe; [|done]. congruence.
    + destruct (a_at InternetNif w) as [m2|] eqn:E2; [case_bool_decide|]; try done.
      apply live_on; [done|]. intros m Hm Hl. apply live_unsubscribe; [|done]. congruence.
  - assert (mach_live (a_setAPN apn (uwrap 32 len) b m)) as Hl'.
    { unfold a_setAPN. destruct apn; [by destruct (_ || _)|done]. }
    unfold a_granted. destruct (a_state _) eqn:Es; cbn [fst]; try done.
    split; cbn [a_state a_subs a_set]; [|done]. intros _. apply Hl'. by left.
  - unfold a_denied. destruct (a_state m) eqn:Es; cbn [fst]; try done; [|apply live_done].
    split; [by intros [?|?]|done].
  - unfold a_released. destruct (a_state m) eqn:Es; cbn [fst]; try done; [|apply live_done].
    split; [by intros [?|?]|done].
Qed.

Lemma execs_live em cs aw : aw_ok aw → aw_live aw → ModemSSR ∉ cs → aw_live (a_execs em cs aw).
Proof.
  revert aw. induction cs as [|c cs IH]; intros aw Hok Hl Hs; [done|].
  cbn [a_execs foldl]. apply IH; [by apply aw_ok_exec| |set_solver].
  apply live_exec; [set_solver|by apply aw_ok_inv|done].
Qed.

End agps.

(** ** The created manager *)
Definition a_new (m : AgpsStateMachine) : amach :=
  AM (mState m) [] (mAgpsType m) (mApnTypeMask m) (mAPN m) (mAPNLen m) (mBearer m).
Definition a_init (w : world) : aworld := AW (a_new <$> mAgnssNif w) (a_new <$> mInternetNif w) [].
Definition no_manager : world := World ∅ None None [].

(** The machine a report is about was created. *)
Definition report_ok (w : world) (c : call) : Prop :=
  match c with
  | OpenSuccess t _ _ _ | OpenFailed t | Closed t => is_Some (sm_at (getAgpsStateMachine t) w)
  | _ => True
  end.

Lemma create_ok cap atl uninit w0 :
  createAgpsStateMachines cap atl uninit no_manager = Done tt w0 →
  rep w0 (a_init w0) ∧ aw_ok (a_init w0) ∧ aw_live (a_init w0) ∧ ∀ c, report_ok w0 c → call_ok c (a_init w0).
Proof.
  intros E. assert (∃ b1 b2 : bool, w0 = World ∅ (if b1 then Some (newAgpsStateMachine LOC_AGPS_TYPE_SUPL uninit) else None)
     (if b2 then Some (newAgpsStateMachine LOC_AGPS_TYPE_WWAN_ANY uninit) else None) []) as (b1 & b2 & ->).
  { unfold createAgpsStateMachines, no_manager in E. mrun. revert E.
    destruct (negb (Z.land atl AGPS_ATL_TYPE_WWAN =? 0)%Z), (_ && true && _ && _); intros [= <-].
    - by exists true, true.
    - by exists false, true.
    - by exists true, false.
    - by exists false, false. }
  assert (∀ t, mach_inv (getAgpsStateMachine t) (a_new (newAgpsStateMachine t uninit)) [] ∧ mach_live (a_new (newAgpsStateMachine t uninit))) as Hnew.
  { intros t. split; [|split; [by intros [?|?]|done]]. split_and!; try done; [|by intros [?|?]].
    split_and!; try done; constructor. }
  split_and!.
  - split_and!; try done.
    + intros [|]; cbn; [destruct b1|destruct b2]; constructor; split_and!; try done; constructor.
    + destruct b1, b2; constructor.
    + intros a [s Hs]. cbn in Hs. by rewrite lookup_empty in Hs.
  - intros [|] m Hm; [destruct b1|destruct b2]; cbn in Hm; simplify_eq.
    + apply (Hnew LOC_AGPS_TYPE_SUPL).
    + apply (Hnew LOC_AGPS_TYPE_WWAN_ANY).
  - intros [|] m Hm; [destruct b1|destruct b2]; cbn in Hm; simplify_eq; apply Hnew.
  - intros c. destruct c; cbn; try done; destruct (getAgpsStateMachine _); cbn; destruct b1, b2; naive_solver.
Qed.

(** ** Subscribers leave only with an answer *)

(** The subscribers of a machine, read from the store. *)
Definition members (n : nif) (w : world) : list AgpsSubscriber := omap (λ a, subs w !! a) (ptrs n w).
Definition handles (n : nif) (w : world) : list Z := mConnHandle <$> members n w.

Lemma rep_members w aw n m : rep w aw → a_at n aw = Some m → members n w = a_subs m.
Proof.
  intros (Hm & _) Ha. specialize (Hm n). rewrite Ha in Hm. inversion Hm as [m0 ? (_ & R2 & _) E|]; subst.
  unfold members, ptrs. rewrite <-E. induction R2 as [|a s l ls Has _ IH]; [done|]. cbn. by rewrite Has, IH.
Qed.

Lemma rep_members_none w aw n : rep w aw → a_at n aw = None → members n w = [].
Proof. intros Hrep Ha. apply (rep_other w aw n Hrep) in Ha. unfold members, ptrs. by rewrite Ha. Qed.

Definition told_end (h : Z) (o : list agps_out) : Prop :=
  AtlCloseStatus h 1 ∈ o ∨ ∃ apn len b t k, AtlOpenStatus h 0 apn len b t k ∈ o.

Definition keeps_or_tells (l : list AgpsSubscriber) (r : amach * list agps_out) : Prop :=
  ∀ h, h ∈ mConnHandle <$> l → h ∈ mConnHandle <$> a_subs r.1 ∨ told_end h r.2.

Lemma told_close h l o : h ∈ mConnHandle <$> l → told_end h ((a_close <$> l) ++ o).
Proof.
  intros Hh. apply list_elem_of_fmap in Hh as (s & -> & Hs). left. apply elem_of_app. left.
  by apply (list_elem_of_fmap_2 a_close).
Qed.

Lemma kt_subscribe s m : keeps_or_tells (a_subs m) (a_subscribe s m).
Proof.
  intros h Hh. left. assert (a_subs (a_subscribe s m).1 = a_add s (a_subs m)) as -> by (unfold a_subscribe; by destruct (a_state m)).
  unfold a_add. case_bool_decide; [done|]. rewrite fmap_app. set_solver.
Qed.

Lemma kt_unsubscribe h m : keeps_or_tells (a_subs m) (a_unsubscribe h m).
Proof.
  intros x Hx. left. assert (a_subs (a_unsubscribe h m).1 = inactivate h <$> a_subs m) as ->.
  { unfold a_unsubscribe. destruct (a_state m); try done; by destruct (decide _). }
  by rewrite inactivate_handles.
Qed.

Lemma kt_granted m : keeps_or_tells (a_subs m) (a_granted m).
Proof. intros h Hh. left. unfold a_granted. by destruct (a_state m). Qed.

Lemma kt_done m : keeps_or_tells (a_subs m) (a_releasing_done m).
Proof.
  intros h Hh. apply list_elem_of_fmap in Hh as (s & -> & Hs). unfold a_releasing_done. destruct (active s) eqn:Ha.
  - left. assert (s ∈ a_active (a_subs m)) as Hin by (by apply list_elem_of_filter).
    destruct (decide _) as [He|He]; [rewrite He in Hin; set_solver|]. cbn. by apply (list_elem_of_fmap_2 mConnHandle).
  - right. assert (s ∈ a_inactive (a_subs m)) as Hin by (by apply list_elem_of_filter).
    apply (list_elem_of_fmap_2 mConnHandle) in Hin. destruct (decide _); cbn [snd]; [|by apply told_close].
    rewrite <-(app_nil_r (_ <$> _)). by apply told_close.
Qed.

Lemma kt_released m : keeps_or_tells (a_subs m) (a_released m).
Proof.
  unfold a_released. destruct (a_state m); try (intros h Hh; by left); [|apply kt_done].
  intros h Hh. right. cbn [snd]. rewrite <-(app_nil_r (_ <$> _)). by apply told_close.
Qed.

Lemma kt_denied m : keeps_or_tells (a_subs m) (a_denied m).
Proof.
  unfold a_denied. destruct (a_state m); try (intros h Hh; by left); [|apply kt_done].
  intros h Hh. right. right. apply list_elem_of_fmap in Hh as (s & -> & Hs). do 5 eexists.
  by apply (list_elem_of_fmap_2 (a_open 0 m)).
Qed.

(** At the manager: every machine keeps or tells its subscribers. *)
Definition no_drop (w w' : aworld) : Prop :=
  ∃ o, a_log w' = a_log w ++ o ∧
  ∀ n m, a_at n w = Some m → ∃ m', a_at n w' = Some m' ∧
    ∀ h, h ∈ mConnHandle <$> a_subs m → h ∈ mConnHandle <$> a_subs m' ∨ told_end h o.

Lemma no_drop_refl w : no_drop w w.
Proof. exists []. rewrite app_nil_r. split; [done|]. intros n m Hm. exists m. naive_solver. Qed.

Lemma no_drop_on n f w : (∀ m, a_at n w = Some m → keeps_or_tells (a_subs m) (f m)) → no_drop w (a_on n f w).
Proof.
  intros Hf. destruct (a_at n w) as [m|] eqn:Em; [|unfold a_on; rewrite Em; apply no_drop_refl].
  rewrite (a_on_put _ _ _ _ Em). exists (f m).2. split; [apply a_log_put|]. intros n' m' Hm'.
  destruct (nif_cases n n') as [->| ->]; [rewrite a_at_put|rewrite a_at_put_other].
  - exists (f m).1. split; [done|]. assert (m' = m) as -> by congruence. by apply Hf.
  - exists m'. naive_solver.
Qed.

Lemma no_drop_exec em c w : c ≠ ModemSSR → no_drop w (a_exec em c w).
Proof.
  intros Hc. destruct c as [h t k|h|t apn len b|t|t|]; cbn [a_exec].
  - destruct (adjust_request em t k) as [t' k']. destruct (a_at _ w) eqn:Ea.
    + apply no_drop_on. intros m Hm. apply (kt_subscribe _ (AM _ _ _ _ _ _ _)).
    + eexists. split; [done|]. intros n m Hm. exists m. split; [by destruct n|naive_solver].
  - destruct (a_has AgnssNif h w); [apply no_drop_on; intros; apply kt_unsubscribe|].
    destruct (a_has InternetNif h w); [apply no_drop_on; intros; apply kt_unsubscribe|apply no_drop_refl].
  - apply no_drop_on. intros m Hm.
    assert (a_subs m = a_subs (a_setAPN apn (uwrap 32 len) b m)) as -> by (unfold a_setAPN; destruct apn; [by destruct (_ || _)|done]).
    apply kt_granted.
  - apply no_drop_on. intros. apply kt_denied.
  - apply no_drop_on. intros. apply kt_released.
  - done.
Qed.

Lemma execs_app ad em cs1 cs2 w w1 : execs ad em cs1 w = Done tt w1 → execs ad em (cs1 ++ cs2) w = execs ad em cs2 w1.
Proof.
  revert w. induction cs1 as [|c cs1 IH]; intros w; cbn [execs app]; [by intros [= ->]|]. intros E.
  apply bind_inv in E as ([] & w' & E1 & E2). rewrite (bind_done _ _ _ _ _ E1). by apply IH.
Qed.

(** * Properties *)

(** C6: the manager with its pointers, shared subscriber objects and stack-allocated
    current subscriber implements the abstract pair of state machines. From a newly
    created manager, every sequence of ATL requests, releases, framework reports (for
    machines that were created) and modem restarts runs without undefined behaviour,
    makes the same callbacks in the same order, reaches the corresponding state, and
    leaves alive exactly the subscribers in the lists, each in one place of one list. This is so
    where the platform's scalar delete frees an array of char, and elsewhere as long as no
    report is for a machine that has an access point name; elsewhere such a report, and it alone,
    is undefined, because the name is deleted with the scalar delete. *)
Theorem agps_refines_spec array_delete cap atl uninit em cs w0 :
  createAgpsStateMachines cap atl uninit no_manager = Done tt w0 → Forall (report_ok w0) cs →
  if array_delete || negb (deletes_arrays em cs (a_init w0))
  then ∃ w, execs array_delete em cs w0 = Done tt w ∧ rep w (a_execs em cs (a_init w0))
  else execs array_delete em cs w0 = UB.
Proof.
  intros E Hcs. destruct (create_ok _ _ _ _ E) as (Hrep & Hok & _ & Hc).
  pose proof (execs_refine array_delete em cs w0 (a_init w0) Hrep Hok) as H.
  destruct (array_delete || _); [|by apply H; eapply Forall_impl; [exact Hcs|]].
  destruct H as (w & E' & Hw & _); [by eapply Forall_impl; [exact Hcs|]|by exists w].
Qed.

(** What follows is about the platforms whose delete frees such an array. *)

(** In every state reached without a modem restart, a machine in RELEASED has no
    subscriber, one in PENDING or ACQUIRED has an active subscriber and its last
    message to the framework requested the connection, one in RELEASING has an
    inactive subscriber and its last message released the connection; no two
    subscribers share a handle, every release sent to the framework directly follows a
    request, and the stored APN has the stored length, at most MAX_APN_LEN. *)
Theorem agps_state_invariant cap atl uninit em cs w0 :
  createAgpsStateMachines cap atl uninit no_manager = Done tt w0 → Forall (report_ok w0) cs → ModemSSR ∉ cs →
  ∃ w, execs true em cs w0 = Done tt w ∧ ∀ n m, sm_at n w = Some m →
    (mState m = AGPS_STATE_RELEASED → members n w = []) ∧
    (mState m = AGPS_STATE_PENDING ∨ mState m = AGPS_STATE_ACQUIRED →
       a_active (members n w) ≠ [] ∧ last (conn_trace n (log w)) = Some true) ∧
    (mState m = AGPS_STATE_RELEASING → a_inactive (members n w) ≠ [] ∧ last (conn_trace n (log w)) = Some false) ∧
    NoDup (handles n w) ∧ release_follows (conn_trace n (log w)) ∧
    match mAPN m with
    | Some s => Z.of_nat (length s) = mAPNLen m ∧ (mAPNLen m ≤ MAX_APN_LEN)%Z
    | None => mAPNLen m = 0%Z
    end.
Proof.
  intros E Hcs Hssr. destruct (create_ok _ _ _ _ E) as (Hrep & Hok & Hlive & Hc).
  assert (Forall (λ c, call_ok c (a_init w0)) cs) as Hcs' by (eapply Forall_impl; [exact Hcs|]; apply Hc).
  destruct (execs_refine true em cs w0 (a_init w0) Hrep Hok Hcs') as (w & E' & Hw & Hok').
  pose proof (execs_live em cs _ Hok Hlive Hssr) as Hl. exists w. split; [done|]. intros n m Em.
  pose proof Hw as (Hm & _ & _ & Hlog). specialize (Hm n). rewrite Em in Hm.
  inversion Hm as [? am (R1 & R2 & R3 & R4 & R5 & R6 & R7) Em2 Ea|]; subst. symmetry in Ea.
  unfold handles. rewrite (rep_members _ _ _ _ Hw Ea), R1, R5, R6, Hlog.
  destruct (Hok' n am Ea) as ((I1 & _ & _ & I4) & _ & J2 & J3 & J4 & J5). destruct (Hl n am Ea) as [L1 L2].
  split_and!; auto.
Qed.

(** No subscriber is dropped silently: if a call other than a modem restart removes
    a handle from a machine, then during that call the handle was told that its
    connection is closed or that it could not be opened. *)
Theorem agps_no_silent_drop cap atl uninit em cs c w0 w w' :
  createAgpsStateMachines cap atl uninit no_manager = Done tt w0 → Forall (report_ok w0) (cs ++ [c]) → c ≠ ModemSSR →
  execs true em cs w0 = Done tt w → exec true em c w = Done tt w' →
  ∃ o, log w' = log w ++ o ∧ ∀ n h, h ∈ handles n w → h ∈ handles n w' ∨ told_end h o.
Proof.
  intros E Hcs Hc Ew Ew'. destruct (create_ok _ _ _ _ E) as (Hrep & Hok & Hlive & Hcall).
  assert (Forall (λ c, call_ok c (a_init w0)) (cs ++ [c])) as Hcs' by (eapply Forall_impl; [exact Hcs|]; apply Hcall).
  destruct (execs_refine true em cs w0 (a_init w0) Hrep Hok) as (w1 & E1 & Hw & Hok1); [by apply Forall_app in Hcs' as [? _]|].
  assert (w1 = w) as -> by congruence.
  destruct (execs_refine true em (cs ++ [c]) w0 (a_init w0) Hrep Hok Hcs') as (w2 & E2 & Hw2 & _).
  rewrite (execs_app _ _ _ _ _ _ Ew) in E2. cbn [execs] in E2. rewrite (bind_done _ _ _ _ _ Ew') in E2.
  assert (w2 = w') as -> by (cbv in E2; congruence). unfold a_execs in Hw2. rewrite foldl_app in Hw2. cbn [foldl] in Hw2.
  fold (a_execs em cs (a_init w0)) in Hw2. set (aw := a_execs em cs (a_init w0)) in *.
  destruct (no_drop_exec em c aw Hc) as (o & Hlog & Hd). exists o.
  pose proof Hw as (_ & _ & _ & L). pose proof Hw2 as (_ & _ & _ & L2). split; [congruence|].
  intros n h. unfold handles. destruct (a_at n aw) as [m|] eqn:Ea.
  - destruct (Hd n m Ea) as (m' & Ea' & Hh). rewrite (rep_members _ _ _ _ Hw Ea), (rep_members _ _ _ _ Hw2 Ea'). apply Hh.
  - rewrite (rep_members_none _ _ _ Hw Ea). set_solver.
Qed.

(** A request whose handle is still closing is lost: when the machine is in
    RELEASING and the handle is an inactive subscriber, requestATL changes no
    subscriber and sends nothing, and the report that the connection is closed then
    removes the handle with a close notification and without ever opening it, although
    it was requested again. *)
Theorem agps_rerequest_while_closing_lost cap atl uninit em cs w0 w n m s t k :
  createAgpsStateMachines cap atl uninit no_manager = Done tt w0 → Forall (report_ok w0) cs →
  execs true em cs w0 = Done tt w → sm_at n w = Some m → mState m = AGPS_STATE_RELEASING →
  s ∈ members n w → mIsInactive s = true → getAgpsStateMachine (adjust_request em t k).1 = n →
  ∃ w1 w2 o, exec true em (RequestATL (mConnHandle s) t k) w = Done tt w1 ∧ log w1 = log w ∧ members n w1 = members n w ∧
    exec true em (Closed (adjust_request em t k).1) w1 = Done tt w2 ∧ log w2 = log w ++ o ∧
    mConnHandle s ∉ handles n w2 ∧ AtlCloseStatus (mConnHandle s) 1 ∈ o ∧
    ∀ ok apn len b t k, AtlOpenStatus (mConnHandle s) ok apn len b t k ∉ o.
Proof.
  intros E Hcs Ew Em Hst Hs Hin Hn. destruct (create_ok _ _ _ _ E) as (Hrep0 & Hok0 & _ & Hcall).
  destruct (execs_refine true em cs w0 (a_init w0) Hrep0 Hok0) as (w' & E' & Hrep & Hok);
    [by eapply Forall_impl; [exact Hcs|]; apply Hcall|].
  assert (w' = w) as -> by congruence. set (aw := a_execs em cs (a_init w0)) in *. clearbody aw. clear E Hcs Ew Hrep0 Hok0 Hcall E'.
  pose proof Hrep as (Hm & _ & _ & Hlog). specialize (Hm n). rewrite Em in Hm.
  inversion Hm as [? am (R1 & _) Em2 Ea|]; subst x. symmetry in Ea. rewrite (rep_members _ _ _ _ Hrep Ea) in Hs.
  destruct (exec_refines true em (RequestATL (mConnHandle s) t k) w aw Hrep (aw_ok_inv _ Hok) I eq_refl) as (w1 & E1 & Hrep1).
  destruct (Hok n am Ea) as ((Hnd & _) & _).
  assert (mConnHandle s ∈ mConnHandle <$> a_subs am) as Hhs by (by apply (list_elem_of_fmap_2 mConnHandle)).
  pose (am1 := AM AGPS_STATE_RELEASING (a_subs am) (adjust_request em t k).1 (adjust_request em t k).2
                  (a_apn am) (a_len am) (a_bearer am)).
  assert (a_exec em (RequestATL (mConnHandle s) t k) aw = a_put n am1 [] aw) as Eaw1.
  { cbn [a_exec]. subst am1. destruct (adjust_request em t k) as [t' k']. cbn [fst snd] in *. rewrite Hn, Ea.
    rewrite (a_on_put _ _ _ am Ea). unfold a_subscribe. cbn [a_state a_subs]. rewrite <-R1, Hst.
    unfold a_add. by rewrite bool_decide_eq_true_2. }
  rewrite Eaw1 in Hrep1.
  destruct (exec_refines true em (Closed (adjust_request em t k).1) w1 (a_put n am1 [] aw) Hrep1) as (w2 & E2 & Hrep2);
    [by rewrite <-Eaw1; apply aw_ok_inv, aw_ok_exec|cbn; rewrite Hn, a_at_put; eauto|done|].
  cbn [a_exec] in Hrep2. rewrite Hn, (a_on_put _ _ _ am1) in Hrep2 by apply a_at_put.
  pose proof Hrep1 as (_ & _ & _ & L1). pose proof Hrep2 as (_ & _ & _ & L2). rewrite !a_log_put, app_nil_r in *.
  exists w1, w2, (a_released am1).2. split_and!; try done; [congruence| |congruence|..].
  - rewrite (rep_members _ _ _ am1 Hrep1), (rep_members _ _ _ am Hrep) by (done || apply a_at_put). done.
  - unfold handles. rewrite (rep_members _ _ _ _ Hrep2 (a_at_put _ _ _ _)). cbn. unfold a_releasing_done.
    assert (mConnHandle s ∉ mConnHandle <$> a_active (a_subs am)) as Hna.
    { intros Hh. apply list_elem_of_fmap in Hh as (s' & Hh & Hs'). apply list_elem_of_filter in Hs' as [Ha' Hs'].
      assert (s = s') as <-; [|unfold active in Ha'; by rewrite Hin in Ha'].
      apply list_elem_of_lookup in Hs as [i Hi], Hs' as [j Hj]. assert (i = j) as ->; [|congruence].
      eapply NoDup_lookup; [exact Hnd|rewrite list_lookup_fmap, Hi; done|rewrite list_lookup_fmap, Hj; cbn; congruence]. }
    destruct (decide _); cbn; [set_solver|done].
  - assert (a_close s ∈ a_close <$> a_inactive (a_subs am)) as Hc.
    { apply list_elem_of_fmap_2, list_elem_of_filter. split; [unfold active; by rewrite Hin|done]. }
    cbn. unfold a_releasing_done. destruct (decide _); cbn [snd]; [exact Hc|apply elem_of_app; left; exact Hc].
  - intros ok apn len b t'' k'' Ho. cbn in Ho. unfold a_releasing_done in Ho.
    assert (∀ l : list AgpsSubscriber, AtlOpenStatus (mConnHandle s) ok apn len b t'' k'' ∉ a_close <$> l) as Hno.
    { intros l Hl. apply list_elem_of_fmap in Hl as (? & ? & _). done. }
    destruct (decide _); cbn [snd] in Ho; [by eapply Hno|]. apply elem_of_app in Ho as [Ho|Ho]; [by eapply Hno|].
    apply list_elem_of_singleton in Ho. done.
Qed.

(** When the machine for a type was not created, a request is answered at once with
    a failure, but a framework report for that type dereferences the missing machine. *)
Theorem agps_missing_machine em w h t k apn len b :
  sm_at (getAgpsStateMachine t) w = None → adjust_request em t k = (t, k) →
  requestATL em h t k w =
    Done tt (World (subs w) (mAgnssNif w) (mInternetNif w)
               (log w ++ [AtlOpenStatus h 0 None 0 AGPS_APN_BEARER_INVALID t k])) ∧
  reportAtlOpenSuccess true t apn len b w = UB ∧ reportAtlOpenFailed t w = UB ∧ reportAtlClosed t w = UB.
Proof.
  intros Hn Ha. unfold requestATL, reportAtlOpenSuccess, reportAtlOpenFailed, reportAtlClosed. rewrite Ha. split_and!.
  - rewrite (bind_done _ _ w (sm_at (getAgpsStateMachine t) w) w) by done. by rewrite Hn.
  - unfold set_this, this. mrun. by rewrite Hn.
  - unfold processAgpsEvent, processAgpsEventDenied, this. mrun. by rewrite Hn.
  - unfold processAgpsEvent, processAgpsEventReleased, this. mrun. by rewrite Hn.
Qed.

(** ** Concrete runs *)

(** A manager with both machines: MSB capability, all ATL types. *)
Definition wit_manager : world :=
  default no_manager (outcome_state (createAgpsStateMachines 2 7 0 no_manager)).

Lemma wit_manager_created : createAgpsStateMachines 2 7 0 no_manager = Done tt wit_manager.
Proof. reflexivity. Qed.

(** Two requests, granted; one release, then the other; closed. *)
Definition wit_calls : list call :=
  [RequestATL 1 1 16; RequestATL 2 1 16; OpenSuccess 1 (Some [97; 98]%Z) 2 1; ReleaseATL 1; ReleaseATL 2].

Lemma wit_report_ok : Forall (report_ok wit_manager) (wit_calls ++ [Closed 1]).
Proof. repeat constructor; by eexists. Qed.

Lemma wit_report_ok' : Forall (report_ok wit_manager) wit_calls.
Proof. repeat constructor; by eexists. Qed.

(** The name is reported twice: a platform that cannot delete it so is lost. *)
Lemma agps_refines_spec_witness :
  (∃ w, execs false 1 wit_calls wit_manager = Done tt w ∧ rep w (a_execs 1 wit_calls (a_init wit_manager)) ∧
    a_log (a_execs 1 wit_calls (a_init wit_manager)) =
      [FrameworkStatus 1 16 1; AtlOpenStatus 1 1 (Some [97; 98]%Z) 2 1 1 16;
       AtlOpenStatus 2 1 (Some [97; 98]%Z) 2 1 1 16; FrameworkStatus 1 16 2]) ∧
  execs false 1 (wit_calls ++ [OpenSuccess 1 (Some [97; 98]%Z) 2 1]) wit_manager = UB.
Proof.
  split.
  - destruct (agps_refines_spec false 2 7 0 1 wit_calls wit_manager wit_manager_created wit_report_ok') as (w & E & Hw).
    exists w. split; [exact E|]. split; [exact Hw|reflexivity].
  - apply (agps_refines_spec false 2 7 0 1 (wit_calls ++ [OpenSuccess 1 (Some [97; 98]%Z) 2 1]) wit_manager wit_manager_created).
    repeat constructor; by eexists.
Defined.

Definition wit_world : world := default no_manager (outcome_state (execs true 1 wit_calls wit_manager)).

Lemma wit_world_run : execs true 1 wit_calls wit_manager = Done tt wit_world.
Proof. vm_compute. reflexivity. Qed.

Lemma agps_state_invariant_witness :
  execs true 1 wit_calls wit_manager = Done tt wit_world ∧ a_inactive (members AgnssNif wit_world) ≠ [].
Proof.
  destruct (agps_state_invariant 2 7 0 1 wit_calls wit_manager wit_manager_created wit_report_ok') as (w & E & Hw).
  { unfold wit_calls. rewrite !elem_of_cons, elem_of_nil. naive_solver. }
  assert (w = wit_world) as -> by (pose proof wit_world_run; congruence). split; [exact E|].
  destruct (sm_at AgnssNif wit_world) as [m|] eqn:Em; [|vm_compute in Em; discriminate].
  destruct (Hw AgnssNif m Em) as (_ & _ & H3 & _). apply H3. vm_compute in Em. injection Em as <-. reflexivity.
Defined.

Lemma agps_no_silent_drop_witness :
  ∃ w' o, exec true 1 (Closed 1) wit_world = Done tt w' ∧ log w' = log wit_world ++ o ∧
    ∀ n h, h ∈ handles n wit_world → h ∈ handles n w' ∨ told_end h o.
Proof.
  destruct (exec true 1 (Closed 1) wit_world) as [[] w'| |] eqn:E; [|vm_compute in E; discriminate..].
  destruct (agps_no_silent_drop 2 7 0 1 wit_calls (Closed 1) wit_manager wit_world w' wit_manager_created wit_report_ok)
    as (o & Ho & Hd); [discriminate|exact wit_world_run|exact E|]. exists w', o. split; [reflexivity|]. split; [exact Ho|exact Hd].
Defined.

Lemma agps_rerequest_while_closing_lost_witness :
  ∃ w1 w2 o, exec true 1 (RequestATL 1 1 16) wit_world = Done tt w1 ∧ log w1 = log wit_world ∧
    exec true 1 (Closed 1) w1 = Done tt w2 ∧ log w2 = log wit_world ++ o ∧ 1%Z ∉ handles AgnssNif w2.
Proof.
  destruct (sm_at AgnssNif wit_world) as [m|] eqn:Em; [|vm_compute in Em; discriminate].
  destruct (agps_rerequest_while_closing_lost 2 7 0 1 wit_calls wit_manager wit_world AgnssNif m
              (Subscriber 1 true true 16) 1 16 wit_manager_created wit_report_ok' wit_world_run Em)
    as (w1 & w2 & o & H1 & H2 & _ & H3 & H4 & H5 & _); [|  |reflexivity|reflexivity|].
  - vm_compute in Em. injection Em as <-. reflexivity.
  - vm_compute. left.
  - exists w1, w2, o. split_and!; done.
Defined.

Lemma agps_missing_machine_witness :
  reportAtlClosed 1 no_manager = UB ∧ reportAtlOpenFailed 1 no_manager = UB.
Proof.
  destruct (agps_missing_machine 1 no_manager 5 1 16 None 0 0) as (_ & _ & H1 & H2); [reflexivity|reflexivity|].
  split; [exact H2|exact H1].
Defined.
