(* ===== verification/SyncReq.v ===== *)
(** * location/loc_api/loc_api_v02/loc_api_sync_req.cpp : synchronous requests to the modem.

    A caller of loc_sync_send_req takes one of eight slots, sends its request and
    waits on the slot's condition variable until the indication it selected arrives
    or the time is over.  Each critical section (under loc_sync_call_mutex or under a
    slot's lock) is one function; a call is a thread that runs them one after another,
    interleaved with other calls and with the thread that delivers indications.  The
    buffer for the payload of an indication belongs to the caller and lives for the
    duration of the call: a write to the buffer of a call that has returned, or past
    the end of a buffer, is undefined ([None]). *)
From S2P Require Import Prelude.

Definition LOC_SYNC_REQ_BUFFER_SIZE : nat := 8.

(** Statuses of loc_api_v02_client.h used here, and the errno values of wait_for_ind. *)
Inductive status :=
  | eLOC_CLIENT_SUCCESS | eLOC_CLIENT_FAILURE_TIMEOUT | eLOC_CLIENT_FAILURE_INTERNAL
  | eLOC_CLIENT_FAILURE_OTHER (code : Z).
Inductive wait_ret := WaitOk | ETIMEDOUT | EBUSY | EINVAL.

#[export] Instance status_eq_dec : EqDecision status.
Proof. solve_decision. Defined.

(** ** The slots *)
Definition LOC_CLIENT_INVALID_HANDLE_VALUE : Z := 0.

Record slot := Slot {
  client_handle : Z;
  ind_is_selected : bool;
  ind_is_waiting : bool;
  ind_has_arrived : bool;
  req_id : Z;
  recv_ind_payload_ptr : ptr;
  recv_ind_id : Z;
}.

Record sync_array := SyncArray {
  in_use : bool;
  slot_in_use : list bool;
  slots : list slot;
}.

Definition empty_slot : slot := Slot LOC_CLIENT_INVALID_HANDLE_VALUE false false false 0 None 0.

(** The result is whether the module is initialised, and the array. *)
Definition loc_sync_req_init (loc_sync_call_initialized : bool) (a : sync_array) : bool * sync_array :=
  if loc_sync_call_initialized then (true, a)
  else (true, SyncArray false (replicate LOC_SYNC_REQ_BUFFER_SIZE false)
                              (replicate LOC_SYNC_REQ_BUFFER_SIZE empty_slot)).

Definition loc_alloc_slot (a : sync_array) : option nat * sync_array :=
  match list_find (λ b, b = false) (slot_in_use a) with
  | Some (i, _) => (Some i, SyncArray true (<[i := true]> (slot_in_use a)) (slots a))
  | None => (None, a)
  end.

Definition loc_free_slot (select_id : nat) (a : sync_array) : sync_array :=
  let used := <[select_id := false]> (slot_in_use a) in
  SyncArray (if forallb negb used then false else in_use a) used (<[select_id := empty_slot]> (slots a)).

(** The part of loc_sync_select_ind after the allocation. *)
Definition loc_sync_select_ind (select_id : nat) (handle : Z) (ind_id reqid : Z) (payload : ptr) (a : sync_array)
    : sync_array :=
  SyncArray (in_use a) (slot_in_use a)
    (<[select_id := Slot handle true false false reqid payload ind_id]> (slots a)).

Definition set_waiting (b : bool) (s : slot) : slot :=
  Slot (client_handle s) (ind_is_selected s) b (ind_has_arrived s) (req_id s) (recv_ind_payload_ptr s) (recv_ind_id s).
Definition set_arrived (s : slot) : slot :=
  Slot (client_handle s) (ind_is_selected s) (ind_is_waiting s) true (req_id s) (recv_ind_payload_ptr s) (recv_ind_id s).
Definition set_slot (i : nat) (s : slot) (a : sync_array) : sync_array :=
  SyncArray (in_use a) (slot_in_use a) (<[i := s]> (slots a)).

(** The part of loc_sync_wait_for_ind up to the wait: [inl] is the return value when it
    does not wait. *)
Definition loc_sync_wait_enter (select_id : nat) (a : sync_array) : option (wait_ret + sync_array) :=
  used ← slot_in_use a !! select_id;
  if negb used then Some (inl EINVAL)
  else
    slot ← slots a !! select_id;
    if ind_has_arrived slot then Some (inl WaitOk)
    else if ind_is_waiting slot then Some (inl EBUSY)
    else Some (inr (set_slot select_id (set_waiting true slot) a)).

(** The part after pthread_cond_timedwait returned. *)
Definition loc_sync_wait_wake (select_id : nat) (timedout : bool) (a : sync_array) : option (wait_ret * sync_array) :=
  slot ← slots a !! select_id;
  Some (if timedout then ETIMEDOUT else WaitOk, set_slot select_id (set_waiting false slot) a).

(** memcpy into a caller's buffer *)
Definition memcpy (dst : addr) (payload : list Z) (bufs : gmap addr (list Z)) : option (gmap addr (list Z)) :=
  buf ← bufs !! dst;
  if decide (length payload ≤ length buf)
  then Some (<[dst := payload ++ drop (length payload) buf]> bufs) else None.

(** Does the slot wait for this indication? *)
Definition slot_matches (used : bool) (s : slot) (handle ind_id : Z) : bool :=
  used && (client_handle s =? handle)%Z && (ind_id =? recv_ind_id s)%Z && negb (ind_has_arrived s).

(** One iteration on slot [i]; [signalled] are the slots whose condition was signalled. *)
Record ind_state := IndState { is_array : sync_array; is_bufs : gmap addr (list Z); signalled : list nat }.

Definition process_slot (i : nat) (handle ind_id : Z) (payload : option (list Z)) (st : ind_state)
    : option (bool * bool * ind_state) :=
  let a := is_array st in
  used ← slot_in_use a !! i;
  s ← slots a !! i;
  if slot_matches used s handle ind_id then
    '(consumed, bufs) ← match recv_ind_payload_ptr s, payload with
                        | Some p, Some (x :: l) => b ← memcpy p (x :: l) (is_bufs st); Some (true, b)
                        | _, _ => Some (false, is_bufs st)
                        end;
    Some (if ind_is_waiting s
          then (used, consumed, IndState (set_slot i (Slot (client_handle s) (ind_is_selected s) (ind_is_waiting s)
                   (ind_has_arrived s) (req_id s) (recv_ind_payload_ptr s) ind_id) a) bufs (signalled st ++ [i]))
          else (used, consumed, IndState (set_slot i (set_arrived s) a) bufs (signalled st)))
  else Some (used, false, st).

Fixpoint process_loop (idx : list nat) (handle ind_id : Z) (payload : option (list Z)) (inuse consumed : bool)
    (st : ind_state) : option (bool * ind_state) :=
  match idx with
  | [] => Some (inuse, st)
  | i :: idx =>
      if consumed then Some (inuse, st)
      else
        '(u, c, st') ← process_slot i handle ind_id payload st;
        process_loop idx handle ind_id payload (inuse || u) c st'
  end.

Definition loc_sync_process_ind (handle ind_id : Z) (payload : option (list Z)) (a : sync_array)
    (bufs : gmap addr (list Z)) : option ind_state :=
  if negb (in_use a) then Some (IndState a bufs [])
  else
    '(inuse, st) ← process_loop (seq 0 LOC_SYNC_REQ_BUFFER_SIZE) handle ind_id payload false false (IndState a bufs []);
    Some (if inuse : bool then st
          else IndState (SyncArray false (slot_in_use (is_array st)) (slots (is_array st))) (is_bufs st) (signalled st)).

(** ** Calls of loc_sync_send_req as threads *)
Record req_args := Args { a_handle : Z; a_req : Z; a_ind : Z; a_buf : option (list Z) }.

(** Where a call is: before the allocation of a slot, before the selection, before the
    request is sent, before the wait, in pthread_cond_timedwait (signalled or not), and
    before the slot is freed with the status to return. *)
Inductive pc :=
  | PAlloc
  | PSelect (i : nat)
  | PSend (i : nat)
  | PWaitEnter (i : nat)
  | PWaiting (i : nat) (sig : bool)
  | PFree (i : nat) (st : status).

Inductive ev :=
  | EvSelect (t : addr)
  | EvSend (t : addr)
  | EvInd (handle ind_id : Z) (payload : option (list Z))
  | EvReturn (t : addr) (st : status) (buf : option (list Z)).

Record config := Config {
  arr : sync_array;
  calls : gmap addr (req_args * pc);
  bufs : gmap addr (list Z);
  trace : list ev;
}.

Inductive action :=
  | Call (t : addr) (ra : req_args)
  | Run (t : addr) (sent : status)
  | Wake (t : addr) (timedout : bool)
  | Ind (handle ind_id : Z) (payload : option (list Z)).

Definition set_pc (t : addr) (ra : req_args) (p : pc) (a : sync_array) (e : list ev) (c : config) : config :=
  Config a (<[t := (ra, p)]> (calls c)) (bufs c) (trace c ++ e).

Definition do_return (t : addr) (st : status) (a : sync_array) (c : config) : config :=
  Config a (delete t (calls c)) (delete t (bufs c)) (trace c ++ [EvReturn t st (bufs c !! t)]).

(** The status loc_sync_send_req derives from the result of the wait. *)
Definition status_of_wait (r : wait_ret) : status :=
  match r with
  | WaitOk => eLOC_CLIENT_SUCCESS
  | ETIMEDOUT => eLOC_CLIENT_FAILURE_TIMEOUT
  | EBUSY | EINVAL => eLOC_CLIENT_FAILURE_INTERNAL
  end.

(** The next critical section of loc_sync_send_req; [sent] is what locClientSendReq
    returns.  When no slot is free, select_id is negative, the whole body is skipped and
    the initial status, eLOC_CLIENT_SUCCESS, is returned. *)
Definition loc_sync_send_req (t : addr) (ra : req_args) (p : pc) (sent : status) (c : config) : option config :=
  match p with
  | PAlloc =>
      match loc_alloc_slot (arr c) with
      | (Some i, a) => Some (set_pc t ra (PSelect i) a [] c)
      | (None, a) => Some (do_return t eLOC_CLIENT_SUCCESS a c)
      end
  | PSelect i =>
      Some (set_pc t ra (PSend i)
              (loc_sync_select_ind i (a_handle ra) (a_ind ra) (a_req ra) (if a_buf ra then Some t else None) (arr c))
              [EvSelect t] c)
  | PSend i =>
      Some (if decide (sent = eLOC_CLIENT_SUCCESS)
            then set_pc t ra (PWaitEnter i) (arr c) [EvSend t] c
            else set_pc t ra (PFree i sent) (arr c) [EvSend t] c)
  | PWaitEnter i =>
      r ← loc_sync_wait_enter i (arr c);
      Some (match r with
            | inl EINVAL => do_return t (status_of_wait EINVAL) (arr c) c
            | inl r => set_pc t ra (PFree i (status_of_wait r)) (arr c) [] c
            | inr a => set_pc t ra (PWaiting i false) a [] c
            end)
  | PWaiting _ _ => Some c
  | PFree i st => Some (do_return t st (loc_free_slot i (arr c)) c)
  end.

(** A signal wakes the call that waits in the slot. *)
Definition signal (sigs : list nat) (cl : req_args * pc) : req_args * pc :=
  match cl.2 with
  | PWaiting i s => (cl.1, PWaiting i (s || bool_decide (i ∈ sigs)))
  | _ => cl
  end.

(** One step; an action that is not enabled changes nothing.  [spurious] allows
    pthread_cond_timedwait to return without a signal. *)
Definition step (spurious : bool) (act : action) (c : config) : option config :=
  match act with
  | Call t ra =>
      Some (if calls c !! t then c
            else Config (arr c) (<[t := (ra, PAlloc)]> (calls c))
                   (match a_buf ra with Some b => <[t := b]> (bufs c) | None => bufs c end) (trace c))
  | Run t sent =>
      match calls c !! t with
      | Some (ra, p) => loc_sync_send_req t ra p sent c
      | None => Some c
      end
  | Wake t timedout =>
      match calls c !! t with
      | Some (ra, PWaiting i sig) =>
          if timedout || sig || spurious then
            '(r, a) ← loc_sync_wait_wake i timedout (arr c);
            Some (set_pc t ra (PFree i (status_of_wait r)) a [] c)
          else Some c
      | _ => Some c
      end
  | Ind handle ind_id payload =>
      st ← loc_sync_process_ind handle ind_id payload (arr c) (bufs c);
      Some (Config (is_array st) (signal (signalled st) <$> calls c) (is_bufs st)
              (trace c ++ [EvInd handle ind_id payload]))
  end.

Fixpoint run (spurious : bool) (acts : list action) (c : config) : option config :=
  match acts with
  | [] => Some c
  | act :: acts => c' ← step spurious act c; run spurious acts c'
  end.

Definition config_init : config := Config (loc_sync_req_init false (SyncArray false [] [])).2 ∅ ∅ [].

(** * Invariant *)
Definition slot_of (p : pc) : option nat :=
  match p with
  | PAlloc => None
  | PSelect i | PSend i | PWaitEnter i | PWaiting i _ | PFree i _ => Some i
  end.
Definition selected (p : pc) : bool := match p with PAlloc | PSelect _ => false | _ => true end.
Definition waiting (p : pc) : bool := match p with PWaiting _ _ => true | _ => false end.

(** What the slot of a call holds. *)
Definition slot_for (t : addr) (ra : req_args) (p : pc) (s : slot) : Prop :=
  ind_is_waiting s = waiting p ∧
  (if selected p then client_handle s = a_handle ra ∧ recv_ind_id s = a_ind ra ∧
                      recv_ind_payload_ptr s = (if a_buf ra then Some t else None)
   else recv_ind_payload_ptr s = None).

(** The events since call [t] selected its indication. *)
Definition since_select (t : addr) (tr l : list ev) : Prop :=
  ∃ l0, tr = l0 ++ EvSelect t :: l ∧ EvSelect t ∉ l ∧ ∀ st b, EvReturn t st b ∉ l.

(** The indication the call selected has been processed since, and if it carried a
    payload and the call gave a buffer, the buffer starts with such a payload. *)
Definition evidence (t : addr) (ra : req_args) (tr : list ev) (bs : gmap addr (list Z)) : Prop :=
  ∃ l pl, since_select t tr l ∧ EvInd (a_handle ra) (a_ind ra) pl ∈ l ∧
    (pl ≠ None → pl ≠ Some [] → is_Some (a_buf ra) →
     ∃ pl' b, EvInd (a_handle ra) (a_ind ra) (Some pl') ∈ l ∧ bs !! t = Some b ∧ pl' `prefix_of` b).

Definition arrived (p : pc) (s : slot) : Prop :=
  ind_has_arrived s = true ∨ (∃ i, p = PWaiting i true) ∨ (∃ i, p = PFree i eLOC_CLIENT_SUCCESS).

Record core (spurious : bool) (a : sync_array) (cs : gmap addr (req_args * pc)) (bs : gmap addr (list Z))
    (tr : list ev) : Prop := {
  c_len1 : length (slot_in_use a) = LOC_SYNC_REQ_BUFFER_SIZE;
  c_len2 : length (slots a) = LOC_SYNC_REQ_BUFFER_SIZE;
  c_use : in_use a = true ↔ ∃ i, slot_in_use a !! i = Some true;
  c_own1 : ∀ t ra p i, cs !! t = Some (ra, p) → slot_of p = Some i → slot_in_use a !! i = Some true;
  c_own2 : ∀ i, slot_in_use a !! i = Some true → ∃ t ra p, cs !! t = Some (ra, p) ∧ slot_of p = Some i;
  c_uniq : ∀ t1 ra1 p1 t2 ra2 p2 i, cs !! t1 = Some (ra1, p1) → cs !! t2 = Some (ra2, p2) →
             slot_of p1 = Some i → slot_of p2 = Some i → t1 = t2;
  c_free : ∀ i s, slot_in_use a !! i = Some false → slots a !! i = Some s →
             recv_ind_payload_ptr s = None ∧ ind_is_waiting s = false;
  c_slot : ∀ t ra p i s, cs !! t = Some (ra, p) → slot_of p = Some i → slots a !! i = Some s → slot_for t ra p s;
  c_buf : ∀ t ra p b, cs !! t = Some (ra, p) → a_buf ra = Some b → ∃ b', bs !! t = Some b' ∧ length b' = length b;
  c_bufdom : ∀ t, is_Some (bs !! t) → is_Some (cs !! t);
  c_tr : ∀ t ra p, cs !! t = Some (ra, p) → selected p = true → ∃ l, since_select t tr l;
  c_ev : spurious = false → ∀ t ra p i s, cs !! t = Some (ra, p) → slot_of p = Some i → slots a !! i = Some s →
           selected p = true → arrived p s → evidence t ra tr bs;
}.

Definition inv (spurious : bool) (c : config) : Prop := core spurious (arr c) (calls c) (bufs c) (trace c).

Lemma core_init spurious : inv spurious config_init.
Proof.
  split; cbn [arr calls bufs trace config_init]; try done;
    try (intros *; rewrite lookup_empty; discriminate).
  - split; [done|]. intros [i Hi]. by apply (lookup_replicate_1 8 false) in Hi as [? _].
  - intros i Hi. by apply (lookup_replicate_1 8 false) in Hi as [? _].
  - intros i s _ Hs. apply (lookup_replicate_1 8 empty_slot) in Hs as [-> _]. done.
  - intros t. rewrite lookup_empty. by intros [? ?].
Qed.

(** Other threads' events do not disturb what is known since a selection. *)
Definition foreign (t : addr) (e : ev) : Prop :=
  e ≠ EvSelect t ∧ ∀ st b, e ≠ EvReturn t st b.

Lemma since_select_app t tr l e : since_select t tr l → foreign t e → since_select t (tr ++ [e]) (l ++ [e]).
Proof.
  intros (l0 & -> & Hs & Hr) [F1 F2]. exists l0. rewrite <-app_assoc. split_and!; [done| |].
  - rewrite elem_of_app, list_elem_of_singleton. naive_solver.
  - intros st b. rewrite elem_of_app, list_elem_of_singleton. specialize (Hr st b). specialize (F2 st b). naive_solver.
Qed.

Lemma evidence_app t ra tr bs e : evidence t ra tr bs → foreign t e → evidence t ra (tr ++ [e]) bs.
Proof.
  intros (l & pl & Hs & Hin & Hp) Hf. exists (l ++ [e]), pl. split_and!; [by apply since_select_app|set_solver|].
  intros H1 H2 H3. destruct (Hp H1 H2 H3) as (pl' & b & ? & ? & ?). exists pl', b. set_solver.
Qed.

Lemma evidence_bufs t ra tr bs bs' : evidence t ra tr bs → bs' !! t = bs !! t → evidence t ra tr bs'.
Proof.
  intros (l & pl & Hs & Hin & Hp) E. exists l, pl. split_and!; [done|done|]. intros. rewrite E. by apply Hp.
Qed.

Lemma core_slot_lookup spurious a cs bs tr t ra p i :
  core spurious a cs bs tr → cs !! t = Some (ra, p) → slot_of p = Some i → ∃ s, slots a !! i = Some s.
Proof.
  intros C Hc Hi. apply lookup_lt_is_Some. rewrite (c_len2 _ _ _ _ _ C), <-(c_len1 _ _ _ _ _ C).
  eapply lookup_lt_Some, (c_own1 _ _ _ _ _ C); eauto.
Qed.

(** A call moves on within its slot: the array changes at its slot only. *)
Lemma core_move spurious a cs bs tr t ra p q i s s' tr' :
  core spurious a cs bs tr → cs !! t = Some (ra, p) → slot_of p = Some i → slot_of q = Some i → slots a !! i = Some s →
  slot_for t ra q s' → (∀ t', t' ≠ t → ∀ l, since_select t' tr l → ∃ l', since_select t' tr' l') →
  (∀ t' ra', t' ≠ t → evidence t' ra' tr bs → evidence t' ra' tr' bs) →
  (selected q = true → ∃ l, since_select t tr' l) →
  (spurious = false → selected q = true → arrived q s' → evidence t ra tr' bs) →
  core spurious (set_slot i s' a) (<[t := (ra, q)]> cs) bs tr'.
Proof.
  intros C Hc Hi Hq Hs Hfor Htr Hev Hst Hevt. pose proof C as [L1 L2 U O1 O2 Q Fr Sl B Bd T E].
  assert (i < length (slots a)) as Hlt by (by eapply lookup_lt_Some).
  assert (∀ t' ra' p' i', <[t := (ra, q)]> cs !! t' = Some (ra', p') → slot_of p' = Some i' →
            (t' = t ∧ ra' = ra ∧ p' = q ∧ i' = i) ∨ (t' ≠ t ∧ cs !! t' = Some (ra', p') ∧ i' ≠ i)) as Hcase.
  { intros t' ra' p' i' Hl Hi'. rewrite lookup_insert in Hl. case_decide as Hd; [left; naive_solver|right].
    split_and!; [done|done|]. intros ->. apply Hd. by eapply (Q t ra p t' ra' p' i). }
  split; cbn [set_slot in_use slot_in_use slots]; try done.
  - by rewrite length_insert.
  - intros t' ra' p' i' Hl Hi'. destruct (Hcase _ _ _ _ Hl Hi') as [(-> & -> & -> & ->)|(_ & ? & _)]; eauto.
  - intros i' Hi'. destruct (O2 i' Hi') as (t' & ra' & p' & Hl & Hsl). destruct (decide (t' = t)) as [->|Hne].
    + exists t, ra, q. rewrite lookup_insert_eq. naive_solver.
    + exists t', ra', p'. by rewrite lookup_insert_ne.
  - intros t1 ra1 p1 t2 ra2 p2 i' H1 H2 Hi1 Hi2.
    destruct (Hcase _ _ _ _ H1 Hi1) as [(-> & _ & _ & E1)|(N1 & H1' & E1)], (Hcase _ _ _ _ H2 Hi2) as [(-> & _ & _ & E2)|(N2 & H2' & E2)];
      naive_solver.
  - intros i' s0 Hu Hs0. destruct (decide (i' = i)) as [->|Hne].
    + exfalso. specialize (O1 t ra p i Hc Hi). congruence.
    + rewrite list_lookup_insert_ne in Hs0 by done. by eapply Fr.
  - intros t' ra' p' i' s0 Hl Hi' Hs0. destruct (Hcase _ _ _ _ Hl Hi') as [(-> & -> & -> & ->)|(_ & Hl' & Hne)].
    + rewrite list_lookup_insert_eq in Hs0 by done. by simplify_eq.
    + rewrite list_lookup_insert_ne in Hs0 by done. by eapply Sl.
  - intros t' ra' p' b Hl Hb. rewrite lookup_insert in Hl. case_decide; simplify_eq; eauto.
  - intros t' Ht'. rewrite lookup_insert. case_decide; eauto.
  - intros t' ra' p' Hl Hsel. rewrite lookup_insert in Hl. case_decide; simplify_eq; [by apply Hst|].
    destruct (T t' ra' p' Hl Hsel) as [l Hl']. eauto.
  - intros Hsp t' ra' p' i' s0 Hl Hi' Hs0 Hsel Harr. destruct (Hcase _ _ _ _ Hl Hi') as [(-> & -> & -> & ->)|(Hne & Hl' & Hni)].
    + rewrite list_lookup_insert_eq in Hs0 by done. simplify_eq. auto.
    + rewrite list_lookup_insert_ne in Hs0 by done. eapply Hev; [done|]. by eapply E.
Qed.

Lemma foreign_select t t' : t' ≠ t → foreign t' (EvSelect t).
Proof. intros Hne. split; [congruence|done]. Qed.
Lemma foreign_send t t' : foreign t' (EvSend t).
Proof. by split. Qed.
Lemma foreign_ind t' h i pl : foreign t' (EvInd h i pl).
Proof. by split. Qed.
Lemma foreign_return t t' st b : t' ≠ t → foreign t' (EvReturn t st b).
Proof. intros Hne. split; [done|congruence]. Qed.

Lemma set_slot_id i s a : slots a !! i = Some s → set_slot i s a = a.
Proof. intros Hs. destruct a. unfold set_slot. cbn in *. by rewrite list_insert_id. Qed.

(** ** Each step keeps the invariant *)
Lemma core_call spurious a cs bs tr t ra :
  core spurious a cs bs tr → cs !! t = None →
  core spurious a (<[t := (ra, PAlloc)]> cs) (match a_buf ra with Some b => <[t := b]> bs | None => bs end) tr.
Proof.
  intros [L1 L2 U O1 O2 Q Fr Sl B Bd T E] Hn.
  assert (bs !! t = None) as Hbn by (apply eq_None_not_Some; intros Hb; apply Bd in Hb; rewrite Hn in Hb; by destruct Hb).
  assert (∀ t', t' ≠ t → (match a_buf ra with Some b => <[t := b]> bs | None => bs end) !! t' = bs !! t') as Hbs.
  { intros t' Hne. destruct (a_buf ra); [by rewrite lookup_insert_ne|done]. }
  assert (∀ t' ra' p', <[t := (ra, PAlloc)]> cs !! t' = Some (ra', p') →
            (t' = t ∧ ra' = ra ∧ p' = PAlloc) ∨ (t' ≠ t ∧ cs !! t' = Some (ra', p'))) as Hcase.
  { intros t' ra' p'. rewrite lookup_insert. case_decide; naive_solver. }
  split; try done.
  - intros t' ra' p' i Hl Hi. destruct (Hcase _ _ _ Hl) as [(-> & -> & ->)|[? ?]]; [done|eauto].
  - intros i Hi. destruct (O2 i Hi) as (t' & ra' & p' & Hl & Hsl). exists t', ra', p'. rewrite lookup_insert_ne; [done|congruence].
  - intros t1 ra1 p1 t2 ra2 p2 i H1 H2 Hi1 Hi2.
    destruct (Hcase _ _ _ H1) as [(-> & -> & ->)|[? ?]], (Hcase _ _ _ H2) as [(-> & -> & ->)|[? ?]]; try done; eauto.
  - intros t' ra' p' i s Hl Hi. destruct (Hcase _ _ _ Hl) as [(-> & -> & ->)|[? ?]]; [done|eauto].
  - intros t' ra' p' b Hl Hb. destruct (Hcase _ _ _ Hl) as [(-> & -> & ->)|[? ?]].
    + rewrite Hb, lookup_insert_eq. eauto.
    + rewrite Hbs by done. eauto.
  - intros t' Ht'. rewrite lookup_insert. case_decide; [eauto|]. rewrite Hbs in Ht' by done. eauto.
  - intros t' ra' p' Hl Hs. destruct (Hcase _ _ _ Hl) as [(-> & -> & ->)|[? ?]]; [done|eauto].
  - intros Hsp t' ra' p' i s Hl Hi Hs Hsel Harr. destruct (Hcase _ _ _ Hl) as [(-> & -> & ->)|[Hne Hl']]; [done|].
    eapply evidence_bufs; [by eapply E|by apply Hbs].
Qed.

Lemma core_alloc spurious a cs bs tr t ra :
  core spurious a cs bs tr → cs !! t = Some (ra, PAlloc) →
  match loc_alloc_slot a with
  | (Some i, a') => core spurious a' (<[t := (ra, PSelect i)]> cs) bs tr ∧ slot_in_use a !! i = Some false
  | (None, a') => a' = a ∧ ∀ i, i < LOC_SYNC_REQ_BUFFER_SIZE → slot_in_use a !! i = Some true
  end.
Proof.
  intros [L1 L2 U O1 O2 Q Fr Sl B Bd T E] Hc. unfold loc_alloc_slot.
  destruct (list_find _ _) as [[i b]|] eqn:Hf.
  - apply list_find_Some in Hf as (Hi & -> & _). split; [|done].
    assert (i < length (slot_in_use a)) as Hlt by (by eapply lookup_lt_Some).
    assert (∀ t' ra' p' i', <[t := (ra, PSelect i)]> cs !! t' = Some (ra', p') → slot_of p' = Some i' →
            (t' = t ∧ ra' = ra ∧ p' = PSelect i ∧ i' = i) ∨ (t' ≠ t ∧ cs !! t' = Some (ra', p') ∧ i' ≠ i)) as Hcase.
    { intros t' ra' p' i' Hl Hi'. rewrite lookup_insert in Hl. case_decide as Hd; [left; naive_solver|right].
      split_and!; [done|done|]. intros ->. specialize (O1 _ _ _ _ Hl Hi'). congruence. }
    split; cbn [in_use slot_in_use slots]; try done.
    + by rewrite length_insert.
    + split; [|done]. intros _. exists i. by rewrite list_lookup_insert_eq.
    + intros t' ra' p' i' Hl Hi'. destruct (Hcase _ _ _ _ Hl Hi') as [(-> & -> & -> & ->)|(_ & ? & ?)].
      * by rewrite list_lookup_insert_eq.
      * rewrite list_lookup_insert_ne by done. eauto.
    + intros i' Hi'. destruct (decide (i' = i)) as [->|Hne].
      * exists t, ra, (PSelect i). by rewrite lookup_insert_eq.
      * rewrite list_lookup_insert_ne in Hi' by done. destruct (O2 i' Hi') as (t' & ra' & p' & Hl & Hsl).
        exists t', ra', p'. rewrite lookup_insert_ne; [done|]. intros <-. by simplify_eq.
    + intros t1 ra1 p1 t2 ra2 p2 i' H1 H2 Hi1 Hi2.
      destruct (Hcase _ _ _ _ H1 Hi1) as [(-> & _ & _ & E1)|(N1 & H1' & E1)],
        (Hcase _ _ _ _ H2 Hi2) as [(-> & _ & _ & E2)|(N2 & H2' & E2)]; try done; eauto.
    + intros i' s Hu Hs. destruct (decide (i' = i)) as [->|Hne]; [by rewrite list_lookup_insert_eq in Hu|].
      rewrite list_lookup_insert_ne in Hu by done. by eapply Fr.
    + intros t' ra' p' i' s Hl Hi' Hs. destruct (Hcase _ _ _ _ Hl Hi') as [(-> & -> & -> & ->)|(_ & ? & ?)]; [|by eapply Sl].
      destruct (Fr i s Hi Hs). done.
    + intros t' ra' p' b Hl Hb. rewrite lookup_insert in Hl. case_decide; simplify_eq; eauto.
    + intros t' Ht'. rewrite lookup_insert. case_decide; eauto.
    + intros t' ra' p' Hl Hsel. rewrite lookup_insert in Hl. case_decide; simplify_eq; eauto.
    + intros Hsp t' ra' p' i' s Hl Hi' Hs Hsel Harr. destruct (Hcase _ _ _ _ Hl Hi') as [(-> & -> & -> & ->)|(_ & ? & ?)]; [done|].
      by eapply E.
  - split; [done|]. intros i Hi. rewrite <-L1 in Hi. apply lookup_lt_is_Some in Hi as [b Hb].
    apply list_find_None in Hf. rewrite Forall_lookup in Hf. specialize (Hf i b Hb). by destruct b.
Qed.

(** A call that owns no slot returns. *)
Lemma core_return spurious a cs bs tr t ra st b :
  core spurious a cs bs tr → cs !! t = Some (ra, PAlloc) →
  core spurious a (delete t cs) (delete t bs) (tr ++ [EvReturn t st b]).
Proof.
  intros [L1 L2 U O1 O2 Q Fr Sl B Bd T E] Hc.
  assert (∀ t' x, delete t cs !! t' = Some x → t' ≠ t ∧ cs !! t' = Some x) as Hcase.
  { intros t' x. rewrite lookup_delete_Some. naive_solver. }
  split; try done.
  - intros t' ra' p' i Hl. apply Hcase in Hl as [_ Hl]. eauto.
  - intros i Hi. destruct (O2 i Hi) as (t' & ra' & p' & Hl & Hsl). exists t', ra', p'.
    rewrite lookup_delete_ne; [done|]. intros <-. by simplify_eq.
  - intros t1 ra1 p1 t2 ra2 p2 i H1 H2. apply Hcase in H1 as [_ H1], H2 as [_ H2]. eauto.
  - intros t' ra' p' i s Hl. apply Hcase in Hl as [_ Hl]. eauto.
  - intros t' ra' p' b' Hl Hb. apply Hcase in Hl as [Hne Hl]. rewrite lookup_delete_ne by done. eauto.
  - intros t' Ht'. rewrite lookup_delete in Ht'. rewrite lookup_delete. case_decide; [by destruct Ht'|eauto].
  - intros t' ra' p' Hl Hsel. apply Hcase in Hl as [Hne Hl]. destruct (T t' ra' p' Hl Hsel) as [l Hs].
    eexists. by apply since_select_app, foreign_return.
  - intros Hsp t' ra' p' i s Hl Hi Hs Hsel Harr. apply Hcase in Hl as [Hne Hl].
    eapply evidence_bufs; [|by rewrite lookup_delete_ne]. apply evidence_app; [by eapply E|by apply foreign_return].
Qed.

(** Freeing the slot of a call leaves it without one. *)
Lemma core_free spurious a cs bs tr t ra p i :
  core spurious a cs bs tr → cs !! t = Some (ra, p) → slot_of p = Some i →
  core spurious (loc_free_slot i a) (<[t := (ra, PAlloc)]> cs) bs tr.
Proof.
  intros C Hc Hi. pose proof C as [L1 L2 U O1 O2 Q Fr Sl B Bd T E].
  destruct (core_slot_lookup _ _ _ _ _ _ _ _ _ C Hc Hi) as [s0 Hs0].
  pose proof (O1 _ _ _ _ Hc Hi) as Hu.
  assert (i < length (slots a)) as Hlt by (by eapply lookup_lt_Some).
  assert (i < length (slot_in_use a)) as Hlt' by (by eapply lookup_lt_Some).
  assert (∀ t' ra' p' i', <[t := (ra, PAlloc)]> cs !! t' = Some (ra', p') → slot_of p' = Some i' →
            t' ≠ t ∧ cs !! t' = Some (ra', p') ∧ i' ≠ i) as Hcase.
  { intros t' ra' p' i' Hl Hi'. rewrite lookup_insert in Hl. case_decide as Hd; [by simplify_eq|].
    split_and!; [done|done|]. intros ->. apply Hd. by eapply (Q t ra p t' ra' p' i). }
  unfold loc_free_slot. split; cbn [in_use slot_in_use slots]; try done.
  - by rewrite length_insert.
  - by rewrite length_insert.
  - destruct (forallb negb _) eqn:Hfb.
    + split; [done|]. intros [j Hj]. rewrite forallb_forall in Hfb. apply list_elem_of_lookup_2, list_elem_of_In in Hj.
      by specialize (Hfb _ Hj).
    + split; [|intros _; apply U; eauto]. intros _. apply not_true_iff_false in Hfb.
      destruct (list_find (λ b, b = true) (<[i := false]> (slot_in_use a))) as [[j b]|] eqn:Hf.
      * apply list_find_Some in Hf as (Hj & -> & _). eauto.
      * exfalso. apply Hfb. apply forallb_forall. intros x Hx. apply list_elem_of_In in Hx.
        apply list_find_None in Hf. rewrite Forall_forall in Hf. specialize (Hf x Hx). by destruct x.
  - intros t' ra' p' i' Hl Hi'. destruct (Hcase _ _ _ _ Hl Hi') as (? & ? & ?). rewrite list_lookup_insert_ne by done. eauto.
  - intros i' Hi'. destruct (decide (i' = i)) as [->|Hne]; [by rewrite list_lookup_insert_eq in Hi'|].
    rewrite list_lookup_insert_ne in Hi' by done. destruct (O2 i' Hi') as (t' & ra' & p' & Hl & Hsl).
    exists t', ra', p'. rewrite lookup_insert_ne; [done|]. intros <-. by simplify_eq.
  - intros t1 ra1 p1 t2 ra2 p2 i' H1 H2 Hi1 Hi2.
    destruct (Hcase _ _ _ _ H1 Hi1) as (? & ? & ?), (Hcase _ _ _ _ H2 Hi2) as (? & ? & ?). eauto.
  - intros i' s Hu' Hs. destruct (decide (i' = i)) as [->|Hne].
    + rewrite list_lookup_insert_eq in Hs by done. by simplify_eq.
    + rewrite list_lookup_insert_ne in Hu' by done. rewrite list_lookup_insert_ne in Hs by done. by eapply Fr.
  - intros t' ra' p' i' s Hl Hi' Hs. destruct (Hcase _ _ _ _ Hl Hi') as (? & ? & ?).
    rewrite list_lookup_insert_ne in Hs by done. by eapply Sl.
  - intros t' ra' p' b Hl Hb. rewrite lookup_insert in Hl. case_decide; simplify_eq; eauto.
  - intros t' Ht'. rewrite lookup_insert. case_decide; eauto.
  - intros t' ra' p' Hl Hsel. rewrite lookup_insert in Hl. case_decide; simplify_eq; eauto.
  - intros Hsp t' ra' p' i' s Hl Hi' Hs Hsel Harr. destruct (Hcase _ _ _ _ Hl Hi') as (? & ? & ?).
    rewrite list_lookup_insert_ne in Hs by done. by eapply E.
Qed.

(** The same, when only the place of the call and the trace change. *)
Lemma core_stay spurious a cs bs tr t ra p q i e :
  core spurious a cs bs tr → cs !! t = Some (ra, p) → slot_of p = Some i → slot_of q = Some i →
  selected p = true → selected q = true → waiting p = waiting q → (∀ t', foreign t' e) →
  (spurious = false → ∀ s, slots a !! i = Some s → arrived q s → arrived p s) →
  core spurious a (<[t := (ra, q)]> cs) bs (tr ++ [e]).
Proof.
  intros C Hc Hi Hq Hsp Hsq Hw Hf Harr. destruct (core_slot_lookup _ _ _ _ _ _ _ _ _ C Hc Hi) as [s Hs].
  rewrite <-(set_slot_id i s a Hs). eapply (core_move _ _ _ _ _ t ra p q i s); eauto.
  - destruct (c_slot _ _ _ _ _ C _ _ _ _ _ Hc Hi Hs) as [H1 H2]. rewrite Hsp in H2. split; [congruence|by rewrite Hsq].
  - intros t' _ l Hl. eexists. by apply since_select_app.
  - intros t' ra' _ He. by apply evidence_app.
  - intros _. destruct (c_tr _ _ _ _ _ C _ _ _ Hc Hsp) as [l Hl]. eexists. by apply since_select_app.
  - intros Hs0 _ Ha. apply evidence_app; [|done]. eapply (c_ev _ _ _ _ _ C); eauto.
Qed.

Lemma inv_return spurious c t ra p i st :
  inv spurious c → calls c !! t = Some (ra, p) → slot_of p = Some i →
  inv spurious (do_return t st (loc_free_slot i (arr c)) c).
Proof.
  intros C Hc Hi. unfold inv, do_return. cbn [arr calls bufs trace].
  pose proof (core_free _ _ _ _ _ _ _ _ _ C Hc Hi) as C1.
  assert (delete t (calls c) = delete t (<[t := (ra, PAlloc)]> (calls c))) as -> by (by rewrite delete_insert_eq).
  eapply core_return; [exact C1|]. by rewrite lookup_insert_eq.
Qed.

Lemma inv_run spurious c t ra p sent :
  inv spurious c → calls c !! t = Some (ra, p) → ∃ c', loc_sync_send_req t ra p sent c = Some c' ∧ inv spurious c'.
Proof.
  intros C Hc. destruct p as [|i|i|i|i sig|i st]; cbn [loc_sync_send_req].
  - pose proof (core_alloc _ _ _ _ _ _ _ C Hc) as Ha. destruct (loc_alloc_slot (arr c)) as [[i|] a].
    + destruct Ha as [Ha _]. eexists. split; [done|]. unfold inv, set_pc. cbn [arr calls bufs trace]. by rewrite app_nil_r.
    + destruct Ha as [-> _]. eexists. split; [done|]. by eapply core_return.
  - eexists. split; [done|]. unfold inv, set_pc. cbn [arr calls bufs trace].
    destruct (core_slot_lookup _ _ _ _ _ _ _ _ i C Hc eq_refl) as [s Hs].
    apply (core_move _ _ _ _ (trace c) t ra (PSelect i) (PSend i) i s); try done.
    + intros t' Hne l Hl. eexists. by apply since_select_app, foreign_select.
    + intros t' ra' Hne He. apply evidence_app; [done|by apply foreign_select].
    + intros _. exists [], (trace c). split_and!; [done|set_solver|set_solver].
    + intros _ _ [|[[? ?]|[? ?]]]; done.
  - eexists. split; [reflexivity|]. destruct (decide _); unfold inv, set_pc; cbn [arr calls bufs trace].
    + apply (core_stay _ _ _ _ _ t ra (PSend i) _ i); [done..|intros; apply foreign_send|]. intros _ s _ [|[[? ?]|[? ?]]]; [by left|done|done].
    + apply (core_stay _ _ _ _ _ t ra (PSend i) _ i); [done..|intros; apply foreign_send|]. intros _ s _ [|[[? ?]|[? ?]]]; [by left|done|by simplify_eq].
  - destruct (core_slot_lookup _ _ _ _ _ _ _ _ i C Hc eq_refl) as [s Hs].
    pose proof (c_own1 _ _ _ _ _ C _ _ _ i Hc eq_refl) as Hu. unfold loc_sync_wait_enter. rewrite Hu. cbn. rewrite Hs. cbn.
    destruct (c_slot _ _ _ _ _ C _ _ _ i _ Hc eq_refl Hs) as [Hw Hm]. cbn in Hw, Hm.
    rewrite Hw. destruct (ind_has_arrived s) eqn:Har.
    + eexists. split; [done|]. unfold inv, set_pc. cbn [arr calls bufs trace]. rewrite app_nil_r.
      rewrite <-(set_slot_id i s (arr c) Hs).
      apply (core_move _ _ _ _ (trace c) t ra (PWaitEnter i) (PFree i eLOC_CLIENT_SUCCESS) i s); try done; eauto.
      * intros _. by eapply (c_tr _ _ _ _ _ C).
      * intros Hsp _ _. eapply (c_ev _ _ _ _ _ C Hsp); eauto. by left.
    + eexists. split; [done|]. unfold inv, set_pc. cbn [arr calls bufs trace]. rewrite app_nil_r.
      apply (core_move _ _ _ _ (trace c) t ra (PWaitEnter i) (PWaiting i false) i s); try done; eauto.
      * intros _. by eapply (c_tr _ _ _ _ _ C).
      * intros Hsp _ [Ha|[[? ?]|[? ?]]]; [|done|done]. cbn in Ha. congruence.
  - by exists c.
  - eexists. split; [done|]. by eapply inv_return.
Qed.

Lemma inv_wake spurious c t ra i sig timedout :
  inv spurious c → calls c !! t = Some (ra, PWaiting i sig) → (timedout || sig || spurious = true) →
  ∃ r a, loc_sync_wait_wake i timedout (arr c) = Some (r, a) ∧
    inv spurious (set_pc t ra (PFree i (status_of_wait r)) a [] c).
Proof.
  intros C Hc Hen. destruct (core_slot_lookup _ _ _ _ _ _ _ _ i C Hc eq_refl) as [s Hs].
  unfold loc_sync_wait_wake. rewrite Hs. cbn. do 2 eexists. split; [done|]. unfold inv, set_pc. cbn [arr calls bufs trace].
  rewrite app_nil_r. destruct (c_slot _ _ _ _ _ C _ _ _ i _ Hc eq_refl Hs) as [Hw Hm].
  eapply (core_move _ _ _ _ (trace c) t ra (PWaiting i sig) _ i s); eauto; try done.
  - intros _. by eapply (c_tr _ _ _ _ _ C).
  - intros Hsp _ Ha. eapply (c_ev _ _ _ _ _ C Hsp); eauto. destruct timedout; cbn in *.
    + destruct Ha as [Ha|[[? ?]|[? ?]]]; [by left|done|done].
    + right. left. exists i. subst spurious. by rewrite orb_false_r in Hen; subst.
Qed.

(** ** Indications *)
Lemma core_trace_ind spurious a cs bs tr h id pl :
  core spurious a cs bs tr → core spurious a cs bs (tr ++ [EvInd h id pl]).
Proof.
  intros [L1 L2 U O1 O2 Q Fr Sl B Bd T E]. split; try done.
  - intros t ra p Hc Hs. destruct (T t ra p Hc Hs) as [l Hl]. eexists. by apply since_select_app.
  - intros Hsp t ra p i s Hc Hi Hs Hsel Ha. apply evidence_app; [by eapply E|by split].
Qed.

Lemma evidence_new t ra tr h id pl bs l :
  since_select t tr l → a_handle ra = h → a_ind ra = id →
  (∀ x pl', pl = Some (x :: pl') → is_Some (a_buf ra) → ∃ b, bs !! t = Some b ∧ (x :: pl') `prefix_of` b) →
  evidence t ra (tr ++ [EvInd h id pl]) bs.
Proof.
  intros Hs <- <- Hp. exists (l ++ [EvInd (a_handle ra) (a_ind ra) pl]), pl. split_and!.
  - by apply since_select_app.
  - set_solver.
  - intros H1 H2 Hb. destruct pl as [[|x pl']|]; [done| |done]. destruct (Hp x pl' eq_refl Hb) as (b & Hb' & Hpre).
    exists (x :: pl'), b. set_solver.
Qed.

(** The payload is written to the buffer of the call that owns a matching slot. *)
Lemma core_memcpy spurious a cs bs tr h id x pl t ra p i b :
  core spurious a cs bs (tr ++ [EvInd h id (Some (x :: pl))]) → cs !! t = Some (ra, p) → slot_of p = Some i →
  (∃ l, since_select t tr l) → a_handle ra = h → a_ind ra = id → bs !! t = Some b → length (x :: pl) ≤ length b →
  core spurious a cs (<[t := (x :: pl) ++ drop (length (x :: pl)) b]> bs) (tr ++ [EvInd h id (Some (x :: pl))]).
Proof.
  intros [L1 L2 U O1 O2 Q Fr Sl B Bd T E] Hc Hi [l Hl] Hh Hid Hb Hlen. split; try done.
  - intros t' ra' p' b' Hc' Hb'. destruct (B t' ra' p' b' Hc' Hb') as (b0 & E0 & L0). rewrite lookup_insert.
    case_decide; [|eauto]. subst t'. rewrite Hb in E0. simplify_eq. eexists. split; [done|].
    rewrite length_app, length_drop. lia.
  - intros t' Ht'. rewrite lookup_insert in Ht'. case_decide; [subst; eauto|eauto].
  - intros Hsp t' ra' p' i' s' Hc' Hi' Hs' Hsel' Ha'. destruct (decide (t' = t)) as [->|Hne].
    + assert (ra' = ra) as -> by congruence. eapply evidence_new; [done..|]. intros x' pl' [= <- <-] _.
      rewrite lookup_insert_eq. eexists. split; [done|]. by apply prefix_app_r.
    + eapply evidence_bufs; [by eapply E|]. by rewrite lookup_insert_ne.
Qed.

(** What processing one slot leaves for the rest of the loop. *)
Definition sig_ok (cs : gmap addr (req_args * pc)) (bs : gmap addr (list Z)) (tr : list ev) (sg : list nat) : Prop :=
  ∀ j t ra p, j ∈ sg → cs !! t = Some (ra, p) → slot_of p = Some j → evidence t ra tr bs.

Definition fits (cs : gmap addr (req_args * pc)) (h id : Z) (pl : option (list Z)) : Prop :=
  ∀ t ra p b l, cs !! t = Some (ra, p) → a_handle ra = h → a_ind ra = id → a_buf ra = Some b → pl = Some l →
    length l ≤ length b.

Lemma core_process_slot spurious a cs bs tr h id pl i sg :
  core spurious a cs bs (tr ++ [EvInd h id pl]) → i < LOC_SYNC_REQ_BUFFER_SIZE → fits cs h id pl →
  (∀ t ra p, cs !! t = Some (ra, p) → selected p = true → ∃ l, since_select t tr l) →
  sig_ok cs bs (tr ++ [EvInd h id pl]) sg →
  ∃ u k st, process_slot i h id pl (IndState a bs sg) = Some (u, k, st) ∧
    core spurious (is_array st) cs (is_bufs st) (tr ++ [EvInd h id pl]) ∧
    sig_ok cs (is_bufs st) (tr ++ [EvInd h id pl]) (signalled st) ∧
    slot_in_use (is_array st) = slot_in_use a ∧ in_use (is_array st) = in_use a ∧ slot_in_use a !! i = Some u ∧
    (k = true → u = true).
Proof.
  intros C Hlt Hfit Htr Hsg. pose proof C as [L1 L2 U O1 O2 Q Fr Sl B Bd T E].
  assert (is_Some (slot_in_use a !! i)) as [u Hu] by (apply lookup_lt_is_Some; lia).
  assert (is_Some (slots a !! i)) as [s Hs] by (apply lookup_lt_is_Some; lia).
  unfold process_slot. cbn [is_array is_bufs signalled]. rewrite Hu. cbn. rewrite Hs. cbn.
  destruct (slot_matches u s h id) eqn:Hm; [|exists u, false, (IndState a bs sg); done].
  unfold slot_matches in Hm. apply andb_prop in Hm as [Hm Har]. apply andb_prop in Hm as [Hm Hid].
  apply andb_prop in Hm as [Hu1 Hh]. apply Z.eqb_eq in Hh, Hid. apply negb_true_iff in Har. subst u.
  destruct (O2 i Hu) as (t & ra & p & Hc & Hi). destruct (Sl t ra p i s Hc Hi Hs) as [Hw Hp].
  assert (∀ bs' k, core spurious a cs bs' (tr ++ [EvInd h id pl]) → sig_ok cs bs' (tr ++ [EvInd h id pl]) sg →
    (selected p = true → evidence t ra (tr ++ [EvInd h id pl]) bs') →
    ∃ u k' st, Some (if ind_is_waiting s
                     then (true, k, IndState (set_slot i (Slot (client_handle s) (ind_is_selected s) (ind_is_waiting s)
                             (ind_has_arrived s) (req_id s) (recv_ind_payload_ptr s) id) a) bs' (sg ++ [i]))
                     else (true, k, IndState (set_slot i (set_arrived s) a) bs' sg)) = Some (u, k', st) ∧
      core spurious (is_array st) cs (is_bufs st) (tr ++ [EvInd h id pl]) ∧
      sig_ok cs (is_bufs st) (tr ++ [EvInd h id pl]) (signalled st) ∧
      slot_in_use (is_array st) = slot_in_use a ∧ in_use (is_array st) = in_use a ∧ Some true = Some u ∧
      (k' = true → u = true)) as Hfin.
  { intros bs' k C' Hsg' Hev.
    assert (core spurious (set_slot i (if ind_is_waiting s then Slot (client_handle s) (ind_is_selected s) (ind_is_waiting s)
       (ind_has_arrived s) (req_id s) (recv_ind_payload_ptr s) id else set_arrived s) a) cs bs' (tr ++ [EvInd h id pl])) as C2.
    { rewrite <-(insert_id cs t (ra, p) Hc). eapply (core_move _ _ _ _ _ t ra p p i s); eauto.
      - split; [destruct (ind_is_waiting s) eqn:Ew; cbn; congruence|].
        destruct (selected p); [|destruct (ind_is_waiting s); done]. destruct Hp as (? & ? & ?).
        destruct (ind_is_waiting s); cbn; split_and!; congruence. }
    destruct (ind_is_waiting s) eqn:Ew.
    - do 3 eexists. split; [done|]. cbn. split_and!; try done. intros j t' ra' p' Hj Hc' Hi'. apply elem_of_app in Hj as [Hj|Hj]; [by eapply Hsg'|].
      apply list_elem_of_singleton in Hj as ->. assert (t' = t) as -> by (by eapply Q). assert (ra' = ra) as -> by congruence.
      apply Hev. destruct p; done.
    - do 3 eexists. split; [done|]. by cbn. }
  assert (∀ x pl', pl = Some (x :: pl') → recv_ind_payload_ptr s = Some t → selected p = true →
      ∃ b, bs !! t = Some b ∧ length (x :: pl') ≤ length b ∧ a_handle ra = h ∧ a_ind ra = id) as Hbuf.
  { intros x pl' Epl Hptr Hsel. rewrite Hsel in Hp. destruct Hp as (Hp1 & Hp2 & Hp3). destruct (a_buf ra) as [b|] eqn:Eb; [|congruence].
    destruct (B t ra p b Hc Eb) as (b' & Hb' & Hlen). exists b'. split_and!; [done| |congruence|congruence]. rewrite Hlen.
    eapply Hfit; eauto; congruence. }
  assert (selected p = true → recv_ind_payload_ptr s = None ∨ pl = None ∨ pl = Some [] →
            evidence t ra (tr ++ [EvInd h id pl]) bs) as Hev0.
  { intros Hsel Hn. rewrite Hsel in Hp. destruct Hp as (Hp1 & Hp2 & Hp3). destruct (Htr t ra p Hc Hsel) as [l Hl].
    eapply evidence_new; [exact Hl|congruence|congruence|]. intros x pl' -> [b Hb]. exfalso. rewrite Hb in Hp3. naive_solver. }
  destruct (recv_ind_payload_ptr s) as [q|] eqn:Eptr.
  2: { cbn. apply (Hfin bs false); auto. }
  destruct pl as [[|x pl]|]; [cbn; apply (Hfin bs false); auto| |cbn; apply (Hfin bs false); auto].
  assert (selected p = true) as Hsel by (destruct (selected p); [done|congruence]). rewrite Hsel in Hp.
  assert (q = t) as ->. { destruct Hp as (_ & _ & Hp3). destruct (a_buf ra); congruence. }
  destruct (Hbuf x pl eq_refl eq_refl Hsel) as (b & Hb & Hlen & Hh' & Hid'). destruct (Htr t ra p Hc Hsel) as [l Hl].
  unfold memcpy. rewrite Hb. cbn -[length take drop app]. rewrite decide_True by done. cbn -[length take drop app].
  assert (core spurious a cs (<[t := (x :: pl) ++ drop (length (x :: pl)) b]> bs) (tr ++ [EvInd h id (Some (x :: pl))])) as C2.
  { eapply core_memcpy; eauto. }
  apply (Hfin _ true); auto.
  - intros j t' ra' p' Hj Hc' Hi'. destruct (decide (t' = t)) as [->|Hne].
    + assert (ra' = ra) as -> by congruence. eapply evidence_new; [done..|]. intros x' pl' [= <- <-] _.
      rewrite lookup_insert_eq. eexists. split; [done|]. by apply prefix_app_r.
    + eapply evidence_bufs; [by eapply Hsg|]. by rewrite lookup_insert_ne.
  - intros _. eapply evidence_new; [done..|]. intros x' pl' [= <- <-] _.
    rewrite lookup_insert_eq. eexists. split; [done|]. by apply prefix_app_r.
Qed.

Lemma core_process_loop spurious cs tr h id pl idx :
  Forall (λ i, i < LOC_SYNC_REQ_BUFFER_SIZE) idx → fits cs h id pl →
  (∀ t ra p, cs !! t = Some (ra, p) → selected p = true → ∃ l, since_select t tr l) →
  ∀ a bs sg inuse k, core spurious a cs bs (tr ++ [EvInd h id pl]) → sig_ok cs bs (tr ++ [EvInd h id pl]) sg →
  (k = true → inuse = true) →
  ∃ inuse' st, process_loop idx h id pl inuse k (IndState a bs sg) = Some (inuse', st) ∧
    core spurious (is_array st) cs (is_bufs st) (tr ++ [EvInd h id pl]) ∧
    sig_ok cs (is_bufs st) (tr ++ [EvInd h id pl]) (signalled st) ∧
    slot_in_use (is_array st) = slot_in_use a ∧ in_use (is_array st) = in_use a ∧
    (inuse' = false → Forall (λ i, slot_in_use a !! i = Some false) idx) ∧ (inuse = true → inuse' = true).
Proof.
  intros Hidx Hfit Htr. induction Hidx as [|i idx Hi _ IH]; intros a bs sg inuse k C Hsg Hk.
  { exists inuse, (IndState a bs sg). split_and!; try done. }
  cbn [process_loop]. destruct k.
  { rewrite (Hk eq_refl). exists true, (IndState a bs sg). by split_and!. }
  destruct (core_process_slot _ _ _ _ _ _ _ _ i sg C Hi Hfit Htr Hsg) as (u & k & [a1 bs1 sg1] & -> & C1 & Hsg1 & E1 & E2 & Hu & Hku).
  cbn in C1, Hsg1, E1, E2. cbn.
  destruct (IH a1 bs1 sg1 (inuse || u) k C1 Hsg1) as (inuse' & st & -> & C' & Hsg' & E1' & E2' & Hf & Hm).
  { intros Hk'. rewrite (Hku Hk'). by rewrite orb_true_r. }
  exists inuse', st. split_and!; try done; [congruence|congruence| |].
  - intros ->. constructor; [|rewrite <-E1; by apply Hf]. destruct u; [|done].
    specialize (Hm ltac:(by rewrite orb_true_r)). done.
  - intros ->. by apply Hm.
Qed.

(** Signalling the waiting calls of slots whose indication has arrived. *)
Lemma core_signal spurious a cs bs tr sg :
  core spurious a cs bs tr → sig_ok cs bs tr sg → core spurious a (signal sg <$> cs) bs tr.
Proof.
  intros [L1 L2 U O1 O2 Q Fr Sl B Bd T E] Hsg.
  assert (∀ t ra p, (signal sg <$> cs) !! t = Some (ra, p) → ∃ p0, cs !! t = Some (ra, p0) ∧ slot_of p = slot_of p0 ∧
     selected p = selected p0 ∧ waiting p = waiting p0 ∧
     (p = p0 ∨ ∃ i s0, p0 = PWaiting i s0 ∧ p = PWaiting i (s0 || bool_decide (i ∈ sg)))) as Hcase.
  { intros t ra p. rewrite lookup_fmap. destruct (cs !! t) as [[ra0 p0]|] eqn:E0; [|done]. cbn. intros [= Hp].
    exists p0. destruct p0; cbn in Hp; simplify_eq; split_and!; try done; eauto. }
  split; try done.
  - intros t ra p i Hl Hi. destruct (Hcase t ra p Hl) as (p0 & ? & Es & _). rewrite Es in Hi. eauto.
  - intros i Hi. destruct (O2 i Hi) as (t & ra & p & Hl & Hsl). rewrite <-Hsl in *.
    exists t, ra, (signal sg (ra, p)).2. rewrite lookup_fmap, Hl. cbn. destruct p; done.
  - intros t1 ra1 p1 t2 ra2 p2 i H1 H2 Hi1 Hi2.
    destruct (Hcase _ _ _ H1) as (q1 & ? & Es1 & _), (Hcase _ _ _ H2) as (q2 & ? & Es2 & _).
    rewrite Es1 in Hi1. rewrite Es2 in Hi2. eauto.
  - intros t ra p i s Hl Hi Hs. destruct (Hcase _ _ _ Hl) as (p0 & Hl0 & Es & Esel & Ew & _). rewrite Es in Hi.
    destruct (Sl _ _ _ _ _ Hl0 Hi Hs) as [H1 H2]. unfold slot_for. by rewrite Ew, Esel.
  - intros t ra p b Hl Hb. destruct (Hcase _ _ _ Hl) as (p0 & Hl0 & _). eauto.
  - intros t Ht. destruct (Bd t Ht) as [[ra p] Hl]. rewrite lookup_fmap, Hl. by eexists.
  - intros t ra p Hl Hsel. destruct (Hcase _ _ _ Hl) as (p0 & Hl0 & _ & Esel & _). rewrite Esel in Hsel. eauto.
  - intros Hsp t ra p i s Hl Hi Hs Hsel Ha. destruct (Hcase _ _ _ Hl) as (p0 & Hl0 & Es & Esel & _ & [->|(j & s0 & -> & ->)]).
    + by eapply E.
    + cbn in Es, Hi. simplify_eq. destruct (bool_decide_reflect (i ∈ sg)) as [Hin|Hin]; [by eapply Hsg|].
      rewrite orb_false_r in Ha. by eapply E.
Qed.

Lemma inv_ind spurious c h id pl :
  inv spurious c → fits (calls c) h id pl → ∃ c', step spurious (Ind h id pl) c = Some c' ∧ inv spurious c'.
Proof.
  intros C Hfit. cbn [step]. unfold loc_sync_process_ind. destruct (in_use (arr c)) eqn:Hu; cbn [negb].
  2: { eexists. split; [done|]. unfold inv. cbn. apply core_signal; [by apply core_trace_ind|]. intros j t ra p Hj. set_solver. }
  destruct (core_process_loop spurious (calls c) (trace c) h id pl (seq 0 LOC_SYNC_REQ_BUFFER_SIZE)) with
    (a := arr c) (bs := bufs c) (sg := @nil nat) (inuse := false) (k := false)
    as (inuse & st & -> & C' & Hsg & E1 & E2 & Hf & _); try done.
  - apply Forall_forall. intros i Hi. apply elem_of_seq in Hi. lia.
  - intros t ra p. apply (c_tr _ _ _ _ _ C).
  - by apply core_trace_ind.
  - intros j t ra p Hj. set_solver.
  - cbn. eexists. split; [done|]. unfold inv. cbn [arr calls bufs trace]. destruct inuse; [by apply core_signal|].
    apply core_signal; [|done]. exfalso. specialize (Hf eq_refl). rewrite Forall_forall in Hf.
    destruct (c_use _ _ _ _ _ C) as [Hus _]. destruct (Hus Hu) as [i Hi].
    assert (i < LOC_SYNC_REQ_BUFFER_SIZE) by (rewrite <-(c_len1 _ _ _ _ _ C); by eapply lookup_lt_Some).
    specialize (Hf i ltac:(apply elem_of_seq; lia)). congruence.
Qed.

(** The payload of an indication fits the buffers of the calls in progress that select it. *)
Definition act_fits (act : action) (c : config) : Prop :=
  match act with Ind h id pl => fits (calls c) h id pl | _ => True end.

Lemma inv_step spurious act c :
  inv spurious c → act_fits act c → ∃ c', step spurious act c = Some c' ∧ inv spurious c'.
Proof.
  intros C Hfit. destruct act as [t ra|t sent|t timedout|h id pl]; [cbn [step]..|by apply inv_ind].
  - destruct (calls c !! t) eqn:Hc; eexists; (split; [done|]); [done|]. unfold inv. cbn. by apply core_call.
  - destruct (calls c !! t) as [[ra p]|] eqn:Hc; [|by exists c]. by apply inv_run.
  - destruct (calls c !! t) as [[ra p]|] eqn:Hc; [|by exists c]. destruct p as [| | | |i sig|]; try (by exists c).
    destruct (timedout || sig || spurious) eqn:Hen; [|by exists c].
    destruct (inv_wake _ _ _ _ _ _ _ C Hc Hen) as (r & a & E & Hi). rewrite E. cbn. eauto.
Qed.

(** Every call of a run came from a Call action. *)
Lemma step_calls spurious act c c' t ra p :
  step spurious act c = Some c' → calls c' !! t = Some (ra, p) → act = Call t ra ∨ ∃ p0, calls c !! t = Some (ra, p0).
Proof.
  intros E Hc. destruct act as [t0 ra0|t0 sent|t0 timedout|h id pl]; cbn [step] in E.
  - destruct (calls c !! t0) eqn:E0; simplify_eq; [eauto|]. cbn in Hc. rewrite lookup_insert in Hc. case_decide; naive_solver.
  - destruct (calls c !! t0) as [[ra0 p0]|] eqn:E0; [|simplify_eq; eauto].
    assert (∀ q a e, calls (set_pc t0 ra0 q a e c) !! t = Some (ra, p) → ∃ p0, calls c !! t = Some (ra, p0)) as Hset.
    { intros q a e. cbn. rewrite lookup_insert. case_decide; naive_solver. }
    assert (∀ st a, calls (do_return t0 st a c) !! t = Some (ra, p) → ∃ p0, calls c !! t = Some (ra, p0)) as Hret.
    { intros st a. cbn. rewrite lookup_delete_Some. naive_solver. }
    right. destruct p0; cbn [loc_sync_send_req] in E.
    + destruct (loc_alloc_slot (arr c)) as [[?|] ?]; injection E as <-; [by eapply Hset|by eapply Hret].
    + injection E as <-. by eapply Hset.
    + injection E as <-. destruct (decide _); by eapply Hset.
    + destruct (loc_sync_wait_enter i (arr c)) as [[[]|]|]; [..|discriminate]; injection E as <-;
        first [by eapply Hset|by eapply Hret].
    + injection E as <-. eauto.
    + injection E as <-. by eapply Hret.
  - right. destruct (calls c !! t0) as [[ra0 [| | | |i sig|]]|] eqn:E0; simplify_eq; eauto.
    destruct (_ || _); simplify_eq; [|eauto]. destruct (loc_sync_wait_wake i timedout (arr c)) as [[? ?]|]; simplify_eq/=.
    rewrite lookup_insert in Hc. case_decide; naive_solver.
  - right. destruct (loc_sync_process_ind _ _ _ _ _); simplify_eq/=. rewrite lookup_fmap in Hc.
    destruct (calls c !! t) as [[ra0 p0]|]; [|done]. cbn in Hc. injection Hc as Hc.
    exists p0. unfold signal in Hc. destruct p0; cbn in Hc; congruence.
Qed.

Lemma run_cons spurious act acts c c1 : step spurious act c = Some c1 → run spurious (act :: acts) c = run spurious acts c1.
Proof. intros E. cbn [run]. by rewrite E. Qed.

Lemma run_app spurious acts1 acts2 c c1 : run spurious acts1 c = Some c1 → run spurious (acts1 ++ acts2) c = run spurious acts2 c1.
Proof.
  revert c. induction acts1 as [|act acts IH]; intros c; cbn [run app]; [by intros [= ->]|].
  destruct (step spurious act c); [|done]. cbn. apply IH.
Qed.

(** A run from a state with the invariant, all of whose payloads fit. *)
Definition acts_fit (acts : list action) : Prop :=
  ∀ t ra h id l b, Call t ra ∈ acts → Ind h id (Some l) ∈ acts → a_handle ra = h → a_ind ra = id → a_buf ra = Some b →
    length l ≤ length b.

Lemma run_fits spurious all acts c :
  acts_fit all → (∀ act, act ∈ acts → act ∈ all) → (∀ t ra p, calls c !! t = Some (ra, p) → Call t ra ∈ all) →
  inv spurious c → ∃ c', run spurious acts c = Some c' ∧ inv spurious c'.
Proof.
  intros Hall. revert c. induction acts as [|act acts IH]; intros c Hsub Hc Hi; [by exists c|].
  assert (act_fits act c) as Hf.
  { destruct act as [| | |h id pl]; try done. intros t ra p b l Ht Hh Hid Hb ->. eapply Hall; eauto. apply Hsub. by left. }
  destruct (inv_step _ _ _ Hi Hf) as (c1 & E & Hi1). cbn [run]. rewrite E. cbn. apply IH; [set_solver| |done].
  intros t ra p Ht. destruct (step_calls _ _ _ _ _ _ _ E Ht) as [->|[p0 Hp0]]; [apply Hsub; by left|eauto].
Qed.

(** ** Progress of a single call *)
Definition rank (p : pc) : nat :=
  match p with PAlloc => 5 | PSelect _ => 4 | PSend _ => 3 | PWaitEnter _ => 2 | PWaiting _ _ => 1 | PFree _ _ => 0 end.

(** The call has returned or has at most [n] sections to go. *)
Definition togo (n : nat) (t : addr) (c : config) : Prop :=
  ∀ ra p, calls c !! t = Some (ra, p) → rank p ≤ n.

Lemma run_togo spurious n t s c :
  inv spurious c → togo (S n) t c → 1 ≤ n → ∃ c', step spurious (Run t s) c = Some c' ∧ inv spurious c' ∧ togo n t c'.
Proof.
  intros Hi Ht Hn. destruct (inv_step spurious (Run t s) c Hi I) as (c' & E & Hi'). exists c'. split_and!; [done|done|].
  intros ra' p' Hc'. cbn [step] in E. destruct (calls c !! t) as [[ra p]|] eqn:Hc; [|congruence].
  specialize (Ht ra p Hc). destruct p; cbn [loc_sync_send_req rank] in *.
  - destruct (loc_alloc_slot (arr c)) as [[?|] ?]; injection E as <-; cbn in Hc'.
    + rewrite lookup_insert_eq in Hc'. simplify_eq. cbn. lia.
    + by rewrite lookup_delete_eq in Hc'.
  - injection E as <-. cbn in Hc'. rewrite lookup_insert_eq in Hc'. simplify_eq. cbn. lia.
  - injection E as <-. destruct (decide _); cbn in Hc'; rewrite lookup_insert_eq in Hc'; simplify_eq; cbn; lia.
  - destruct (loc_sync_wait_enter i (arr c)) as [[[]|]|]; [..|discriminate]; injection E as <-; cbn in Hc';
      rewrite ?lookup_insert_eq, ?lookup_delete_eq in Hc'; simplify_eq; cbn; lia.
  - injection E as <-. rewrite Hc in Hc'. simplify_eq. cbn. lia.
  - injection E as <-. cbn in Hc'. by rewrite lookup_delete_eq in Hc'.
Qed.

Lemma wake_togo spurious t c :
  inv spurious c → togo 1 t c → ∃ c', step spurious (Wake t true) c = Some c' ∧ inv spurious c' ∧ togo 0 t c'.
Proof.
  intros Hi Ht. destruct (inv_step spurious (Wake t true) c Hi I) as (c' & E & Hi'). exists c'. split_and!; [done|done|].
  intros ra' p' Hc'. cbn [step] in E. destruct (calls c !! t) as [[ra p]|] eqn:Hc; [|congruence].
  specialize (Ht ra p Hc). destruct p; cbn [rank orb] in *; try lia.
  - destruct (loc_sync_wait_wake i true (arr c)) as [[? ?]|]; [|discriminate]. injection E as <-. cbn in Hc'.
    rewrite lookup_insert_eq in Hc'. by simplify_eq.
  - injection E as <-. rewrite Hc in Hc'. by simplify_eq.
Qed.

Lemma free_togo spurious t s c :
  inv spurious c → togo 0 t c → ∃ c', step spurious (Run t s) c = Some c' ∧ inv spurious c' ∧ calls c' !! t = None.
Proof.
  intros Hi Ht. destruct (inv_step spurious (Run t s) c Hi I) as (c' & E & Hi'). exists c'. split_and!; [done|done|].
  cbn [step] in E. destruct (calls c !! t) as [[ra p]|] eqn:Hc; [|congruence].
  specialize (Ht ra p Hc). destruct p; cbn [rank] in *; try lia. injection E as <-. cbn. by rewrite lookup_delete_eq.
Qed.

(** * Properties *)

(** C36: for every interleaving of calls, wake-ups (also spurious ones), timeouts and
    indications whose payloads fit the buffers of the calls that select them, the code
    runs without writing to the buffer of a call that has returned, no two calls share a
    slot, the slots in use are exactly those of the calls in progress, and the array is
    marked in use exactly when some slot is. *)
Theorem sync_slots_exclusive spurious acts :
  acts_fit acts →
  ∃ c, run spurious acts config_init = Some c ∧
    (∀ t1 ra1 p1 t2 ra2 p2 i, calls c !! t1 = Some (ra1, p1) → calls c !! t2 = Some (ra2, p2) →
       slot_of p1 = Some i → slot_of p2 = Some i → t1 = t2) ∧
    (∀ i, slot_in_use (arr c) !! i = Some true ↔ ∃ t ra p, calls c !! t = Some (ra, p) ∧ slot_of p = Some i) ∧
    (in_use (arr c) = true ↔ ∃ t ra p, calls c !! t = Some (ra, p) ∧ p ≠ PAlloc) ∧
    (∀ t, is_Some (bufs c !! t) → is_Some (calls c !! t)).
Proof.
  intros Hf. destruct (run_fits spurious acts acts config_init) as (c & E & C); [done|done| |apply core_init|].
  { intros t ra p. cbn. by rewrite lookup_empty. }
  pose proof C as [L1 L2 U O1 O2 Q Fr Sl B Bd T Ev]. exists c. split_and!; try done.
  - intros i. split; [apply O2|]. intros (t & ra & p & Hc & Hi). by eapply O1.
  - rewrite U. split.
    + intros [i Hi]. destruct (O2 i Hi) as (t & ra & p & Hc & Hs). exists t, ra, p. split; [done|]. by intros ->.
    + intros (t & ra & p & Hc & Hp). assert (∃ i, slot_of p = Some i) as [i Hi] by (destruct p; naive_solver).
      exists i. by eapply O1.
Qed.

(** C38: a success has its indication: without spurious wake-ups of the condition variable, and as long
    as no payload is longer than the buffer a caller gives for its indication, a call that is about
    to free its slot and return success has seen, after it selected its indication, an indication
    with its client handle and id, and if the caller gave a buffer and that indication carried a
    payload, the buffer starts with the payload of such an indication. *)
Theorem sync_success_has_indication acts :
  acts_fit acts →
  ∃ c, run false acts config_init = Some c ∧
    ∀ t ra i, calls c !! t = Some (ra, PFree i eLOC_CLIENT_SUCCESS) → evidence t ra (trace c) (bufs c).
Proof.
  intros Hf. destruct (run_fits false acts acts config_init) as (c & E & C); [done|done| |apply core_init|].
  { intros t ra p. cbn. by rewrite lookup_empty. }
  exists c. split; [done|]. intros t ra i Hc.
  destruct (core_slot_lookup _ _ _ _ _ _ _ _ i C Hc eq_refl) as [s Hs].
  eapply (c_ev _ _ _ _ _ C eq_refl); eauto. right. right. by exists i.
Qed.

(** No call can block another: from every reachable state, whatever the other calls
    have done, a call in progress returns when its own thread runs and its wait times
    out, within six of its own steps. *)
Theorem sync_call_returns spurious acts t s :
  acts_fit acts →
  ∃ c c', run spurious acts config_init = Some c ∧
    run spurious [Run t s; Run t s; Run t s; Run t s; Wake t true; Run t s] c = Some c' ∧ calls c' !! t = None.
Proof.
  intros Hf. destruct (run_fits spurious acts acts config_init) as (c & E & C); [done|done| |apply core_init|].
  { intros t0 ra p. cbn. by rewrite lookup_empty. }
  exists c. assert (togo 5 t c) as H5 by (intros ra p _; destruct p; cbn; lia).
  destruct (run_togo spurious 4 t s c C H5) as (c1 & E1 & C1 & H4); [lia|].
  destruct (run_togo spurious 3 t s c1 C1 H4) as (c2 & E2 & C2 & H3); [lia|].
  destruct (run_togo spurious 2 t s c2 C2 H3) as (c3 & E3 & C3 & H2); [lia|].
  destruct (run_togo spurious 1 t s c3 C3 H2) as (c4 & E4 & C4 & H1); [lia|].
  destruct (wake_togo spurious t c4 C4 H1) as (c5 & E5 & C5 & H0).
  destruct (free_togo spurious t s c5 C5 H0) as (c6 & E6 & C6 & Hn).
  exists c6. by rewrite (run_cons _ _ _ _ _ E1), (run_cons _ _ _ _ _ E2), (run_cons _ _ _ _ _ E3), (run_cons _ _ _ _ _ E4),
    (run_cons _ _ _ _ _ E5), (run_cons _ _ _ _ _ E6).
Qed.

(** When all eight slots are taken, loc_sync_send_req reports success without
    sending its request. *)
Theorem sync_full_reports_success spurious c t ra s :
  (∀ i, i < LOC_SYNC_REQ_BUFFER_SIZE → slot_in_use (arr c) !! i = Some true) →
  length (slot_in_use (arr c)) = LOC_SYNC_REQ_BUFFER_SIZE → calls c !! t = Some (ra, PAlloc) →
  ∃ c', step spurious (Run t s) c = Some c' ∧
    trace c' = trace c ++ [EvReturn t eLOC_CLIENT_SUCCESS (bufs c !! t)] ∧ arr c' = arr c ∧ calls c' !! t = None.
Proof.
  intros Hfull Hlen Hc. cbn [step]. rewrite Hc. cbn [loc_sync_send_req]. unfold loc_alloc_slot.
  assert (list_find (λ b, b = false) (slot_in_use (arr c)) = None) as ->.
  { apply list_find_None, Forall_lookup. intros i b Hb. apply lookup_lt_Some in Hb as Hlt. rewrite Hlen in Hlt.
    specialize (Hfull i Hlt). congruence. }
  eexists. split; [done|]. cbn. by rewrite lookup_delete_eq.
Qed.

(** ** Concrete runs *)
Definition wit_args (b : option (list Z)) : req_args := Args 1 20 7 b.

(** Two calls for the same indication wait in slots 0 and 1. *)
Definition wit_two_waiting : list action :=
  [Call 1 (wit_args (Some [0%Z])); Call 2 (wit_args (Some [0%Z]));
   Run 1 eLOC_CLIENT_SUCCESS; Run 1 eLOC_CLIENT_SUCCESS; Run 1 eLOC_CLIENT_SUCCESS; Run 1 eLOC_CLIENT_SUCCESS;
   Run 2 eLOC_CLIENT_SUCCESS; Run 2 eLOC_CLIENT_SUCCESS; Run 2 eLOC_CLIENT_SUCCESS; Run 2 eLOC_CLIENT_SUCCESS]%positive.

(** Two matching indications arrive before the first call wakes up. *)
Definition wit_lost : list action :=
  wit_two_waiting ++ [Ind 1 7 (Some [5%Z]); Ind 1 7 (Some [6%Z]); Wake 1 false; Run 1 eLOC_CLIENT_SUCCESS;
                      Wake 2 true; Run 2 eLOC_CLIENT_SUCCESS]%positive.

(** Two calls that wait for the same indication can lose one: when the second
    indication arrives before the first call has woken up, it is delivered to the first
    slot again, whose buffer it overwrites, and the second call times out although two
    matching indications were processed while both were waiting. *)
Theorem sync_second_indication_lost :
  ∃ c, run false wit_lost config_init = Some c ∧
    trace c = [EvSelect 1; EvSend 1; EvSelect 2; EvSend 2; EvInd 1 7 (Some [5%Z]); EvInd 1 7 (Some [6%Z]);
               EvReturn 1 eLOC_CLIENT_SUCCESS (Some [6%Z]);
               EvReturn 2 eLOC_CLIENT_FAILURE_TIMEOUT (Some [0%Z])]%positive.
Proof. eexists. split; vm_compute; reflexivity. Qed.

(** A spurious return of pthread_cond_timedwait, which the wait does not check for,
    is reported as success although no indication was ever processed. *)
Theorem sync_spurious_wakeup_is_success :
  ∃ c, run true (wit_two_waiting ++ [Wake 1 false; Run 1 eLOC_CLIENT_SUCCESS]%positive) config_init = Some c ∧
    trace c = [EvSelect 1; EvSend 1; EvSelect 2; EvSend 2; EvReturn 1 eLOC_CLIENT_SUCCESS (Some [0%Z])]%positive.
Proof. eexists. split; vm_compute; reflexivity. Qed.

(** Boolean form of [acts_fit], for concrete runs. *)
Definition acts_fitb (acts : list action) : bool :=
  forallb (λ a, match a with
                | Call _ ra => forallb (λ b, match b, a_buf ra with
                                             | Ind h id (Some l), Some buf =>
                                                 negb ((a_handle ra =? h)%Z && (a_ind ra =? id)%Z) || (length l <=? length buf)
                                             | _, _ => true
                                             end) acts
                | _ => true
                end) acts.

Lemma acts_fitb_ok acts : acts_fitb acts = true → acts_fit acts.
Proof.
  unfold acts_fitb. rewrite forallb_forall. intros Hf t ra h id l b Hc Hi Hh Hid Hb.
  apply list_elem_of_In in Hc, Hi. specialize (Hf _ Hc). cbn in Hf. rewrite forallb_forall in Hf. specialize (Hf _ Hi).
  rewrite Hb in Hf. cbn in Hf. apply Z.eqb_eq in Hh, Hid. rewrite Hh, Hid in Hf. cbn in Hf. by apply Nat.leb_le in Hf.
Qed.

Lemma wit_fit : acts_fit wit_lost.
Proof. apply acts_fitb_ok. reflexivity. Qed.

Lemma sync_slots_exclusive_witness :
  ∃ c, run true wit_lost config_init = Some c ∧ (in_use (arr c) = true ↔ ∃ t ra p, calls c !! t = Some (ra, p) ∧ p ≠ PAlloc).
Proof.
  destruct (sync_slots_exclusive true wit_lost wit_fit) as (c & E & _ & _ & H & _). exists c. split; [exact E|exact H].
Defined.

Definition wit_success : list action := wit_two_waiting ++ [Ind 1 7 (Some [5%Z]); Wake 1 false]%positive.

Lemma sync_success_has_indication_witness :
  ∃ c, run false wit_success config_init = Some c ∧ evidence 1 (wit_args (Some [0%Z])) (trace c) (bufs c).
Proof.
  destruct (sync_success_has_indication wit_success) as (c & E & H); [apply acts_fitb_ok; reflexivity|].
  exists c. split; [exact E|]. apply (H 1%positive _ 0). vm_compute in E. injection E as <-. reflexivity.
Defined.

Lemma sync_call_returns_witness :
  ∃ c c', run false wit_two_waiting config_init = Some c ∧
    run false [Run 2 eLOC_CLIENT_SUCCESS; Run 2 eLOC_CLIENT_SUCCESS; Run 2 eLOC_CLIENT_SUCCESS; Run 2 eLOC_CLIENT_SUCCESS;
               Wake 2 true; Run 2 eLOC_CLIENT_SUCCESS]%positive c = Some c' ∧ calls c' !! 2%positive = None.
Proof. apply (sync_call_returns false wit_two_waiting). apply acts_fitb_ok. reflexivity. Defined.

Definition wit_full : config :=
  Config (SyncArray true (replicate 8 true) (replicate 8 empty_slot)) {[9%positive := (wit_args None, PAlloc)]} ∅ [].

Lemma sync_full_reports_success_witness :
  ∃ c', step false (Run 9 eLOC_CLIENT_SUCCESS) wit_full = Some c' ∧
    trace c' = [] ++ [EvReturn 9 eLOC_CLIENT_SUCCESS None]%positive ∧ arr c' = arr wit_full ∧ calls c' !! 9%positive = None.
Proof.
  apply (sync_full_reports_success false wit_full 9 (wit_args None)); [|reflexivity|reflexivity].
  intros i Hi. apply (lookup_replicate_2 8 true i Hi).
Defined.
