(* ===== verification/GnssPps.v ===== *)
(** * location/gnsspps/gnsspps.c : time stamps of the GNSS pulse per second.

    A thread fetches the kernel's time stamp of each pulse, ignores a configured number
    of pulses after the first one and after an outage, converts real-time stamps to the
    boot-time clock and publishes the result, which getPPS reads.  The file's static
    variables are the record [pps]; what the kernel and the clocks return are inputs of
    the operations; [ts_lock] is whether the mutex is held, and an operation that would
    wait for a held mutex forever has no result ([None]). [time_t] and [long] are 64
    bits wide and the sums below stay far inside; doubles are the IEEE binary64 numbers
    of [SpecFloat]. *)
From Stdlib Require Import Floats.SpecFloat.
From S2P Require Import Prelude.

Local Open Scope Z_scope.

Record timespec := TS { tv_sec : Z; tv_nsec : Z }.

#[export] Instance timespec_eq_dec : EqDecision timespec.
Proof. solve_decision. Defined.

Definition BILLION_NSEC : Z := 1000000000.
Definition EINTR : Z := 4.

Inductive kernel_reported_time_e :=
  | KERNEL_REPORTED_CLOCK_BOOTTIME | KERNEL_REPORTED_CLOCK_REALTIME | KERNEL_REPORTED_CLOCK_UNKNOWN.

Record pps := Pps {
  drsyncKernelTs : timespec;
  drsyncUserTs : timespec;
  prevDrsyncKernelTs : timespec;
  isActive : bool;
  ts_lock : bool;
  skipPPSPulseCnt : Z;
  gnssOutageInSec : Z;
  time_offset : timespec;
  isFirstPulseReceived : bool;
  skipPulseCnt : Z;
}.

(** The static initialisers. *)
Definition pps_init : pps := Pps (TS 0 0) (TS 0 0) (TS 0 0) false false 0 1 (TS 0 0) false 0.

Definition set_stamps k u (s : pps) : pps :=
  Pps k u (prevDrsyncKernelTs s) (isActive s) (ts_lock s) (skipPPSPulseCnt s) (gnssOutageInSec s) (time_offset s)
    (isFirstPulseReceived s) (skipPulseCnt s).
Definition set_offset o (s : pps) : pps :=
  Pps (drsyncKernelTs s) (drsyncUserTs s) (prevDrsyncKernelTs s) (isActive s) (ts_lock s) (skipPPSPulseCnt s)
    (gnssOutageInSec s) o (isFirstPulseReceived s) (skipPulseCnt s).
Definition set_prev p (s : pps) : pps :=
  Pps (drsyncKernelTs s) (drsyncUserTs s) p (isActive s) (ts_lock s) (skipPPSPulseCnt s)
    (gnssOutageInSec s) (time_offset s) (isFirstPulseReceived s) (skipPulseCnt s).
Definition set_skip f n (s : pps) : pps :=
  Pps (drsyncKernelTs s) (drsyncUserTs s) (prevDrsyncKernelTs s) (isActive s) (ts_lock s) (skipPPSPulseCnt s)
    (gnssOutageInSec s) (time_offset s) f n.
Definition set_active b (s : pps) : pps :=
  Pps (drsyncKernelTs s) (drsyncUserTs s) (prevDrsyncKernelTs s) b (ts_lock s) (skipPPSPulseCnt s)
    (gnssOutageInSec s) (time_offset s) (isFirstPulseReceived s) (skipPulseCnt s).
Definition set_lock b (s : pps) : pps :=
  Pps (drsyncKernelTs s) (drsyncUserTs s) (prevDrsyncKernelTs s) (isActive s) b (skipPPSPulseCnt s)
    (gnssOutageInSec s) (time_offset s) (isFirstPulseReceived s) (skipPulseCnt s).
Definition set_conf k o (s : pps) : pps :=
  Pps (drsyncKernelTs s) (drsyncUserTs s) (prevDrsyncKernelTs s) (isActive s) (ts_lock s) k o (time_offset s)
    (isFirstPulseReceived s) (skipPulseCnt s).

(** ** Time arithmetic; the conversions through double of values below 2^53 are exact *)
Definition calculate_time_difference (time1 time2 : timespec) : timespec :=
  if tv_nsec time2 <? tv_nsec time1
  then TS (tv_sec time2 - 1 - tv_sec time1) (BILLION_NSEC + tv_nsec time2 - tv_nsec time1)
  else TS (tv_sec time2 - tv_sec time1) (tv_nsec time2 - tv_nsec time1).

Definition pps_sync_time_add (time1 time2 : timespec) : timespec :=
  if BILLION_NSEC <=? tv_nsec time2 + tv_nsec time1
  then TS (tv_sec time2 + tv_sec time1 + 1) (tv_nsec time2 + tv_nsec time1 - BILLION_NSEC)
  else TS (tv_sec time2 + tv_sec time1) (tv_nsec time2 + tv_nsec time1).

Definition double_of_Z (z : Z) : spec_float := binary_normalize 53 1024 z 0 false.
(** The double nearest to 0.000001. *)
Definition double_1e_6 : spec_float := S754_finite false 4722366482869645 (-72).

Definition convertTimeToMilliSec (t : timespec) : spec_float :=
  SFadd 53 1024 (double_of_Z (tv_sec t * 1000)) (SFmul 53 1024 (double_of_Z (tv_nsec t)) double_1e_6).

Definition MAX_REALTIME_OFFSET_DELTA_DIFFERENCE : Z := 10.
Definition MAX_PPS_KERNEL_TO_USERSPACE_LATENCY : Z := 100.

Definition isTimeOffsetOk (offsetTime : timespec) : bool :=
  SFleb (SFabs (convertTimeToMilliSec offsetTime)) (double_of_Z MAX_REALTIME_OFFSET_DELTA_DIFFERENCE).

Definition get_reported_time_type (userBootTs userRealTs kernelTs : timespec) : kernel_reported_time_e :=
  let userRealMs := convertTimeToMilliSec userRealTs in
  let userBootMs := convertTimeToMilliSec userBootTs in
  let kernelTsMs := convertTimeToMilliSec kernelTs in
  if SFleb (SFabs (SFsub 53 1024 userBootMs kernelTsMs)) (double_of_Z MAX_PPS_KERNEL_TO_USERSPACE_LATENCY)
  then KERNEL_REPORTED_CLOCK_BOOTTIME
  else if SFleb (SFabs (SFsub 53 1024 userRealMs kernelTsMs)) (double_of_Z MAX_PPS_KERNEL_TO_USERSPACE_LATENCY)
  then KERNEL_REPORTED_CLOCK_REALTIME
  else KERNEL_REPORTED_CLOCK_UNKNOWN.

(** [boot] and [real] are what clock_gettime returns, [None] on failure. *)
Definition compute_real_to_boot_time (boot real : option timespec) (ppsFetchTime : timespec) (s : pps) : Z * pps :=
  match boot, real with
  | None, _ | _, None => (-1, s)
  | Some drSyncUserBootTs, Some drSyncUserRealTs =>
      match get_reported_time_type drSyncUserBootTs drSyncUserRealTs ppsFetchTime with
      | KERNEL_REPORTED_CLOCK_BOOTTIME => (0, set_stamps ppsFetchTime drSyncUserBootTs s)
      | KERNEL_REPORTED_CLOCK_REALTIME =>
          let deltaRealToBootTime := calculate_time_difference drSyncUserRealTs drSyncUserBootTs in
          let deltaOffsetTime := calculate_time_difference (time_offset s) deltaRealToBootTime in
          let '(retVal, s1) :=
            if ((0 =? tv_sec (time_offset s)) && (0 =? tv_nsec (time_offset s))) || isTimeOffsetOk deltaOffsetTime
            then (0, set_stamps (pps_sync_time_add ppsFetchTime deltaRealToBootTime) drSyncUserBootTs s)
            else (-1, s) in
          (retVal, set_offset deltaRealToBootTime s1)
      | KERNEL_REPORTED_CLOCK_UNKNOWN => (-1, s)
      end
  end.

(** [fetch] is what pps_fetch returns, [info] what it writes. The difference of the
    seconds and gnssOutageInSec are signed. *)
Definition read_pps (fetch : Z) (info : timespec) (boot real : option timespec) (s : pps) : option (Z * pps) :=
  if (fetch <? 0) && negb (fetch =? - EINTR) then Some (-1, s)
  else
    let s1 :=
      if negb (isFirstPulseReceived s) && (0 <? skipPPSPulseCnt s)
      then set_skip true (skipPPSPulseCnt s) s
      else if isFirstPulseReceived s && (0 <? skipPPSPulseCnt s)
              && (gnssOutageInSec s <? tv_sec info - tv_sec (prevDrsyncKernelTs s))
      then set_skip (isFirstPulseReceived s) (skipPPSPulseCnt s) s
      else s in
    let s2 := set_prev info s1 in
    if 0 <? skipPulseCnt s2 then Some (0, set_skip (isFirstPulseReceived s2) (skipPulseCnt s2 - 1) s2)
    else if ts_lock s2 then None
    else Some (0, (compute_real_to_boot_time boot real info s2).2).

(** What the environment gives to one iteration of the thread. *)
Record pulse := Pulse { p_fetch : Z; p_info : timespec; p_boot : option timespec; p_real : option timespec }.

Fixpoint thread_handle (ps : list pulse) (s : pps) : option pps :=
  match ps with
  | [] => Some s
  | p :: ps =>
      if isActive s then '(_, s') ← read_pps (p_fetch p) (p_info p) (p_boot p) (p_real p) s; thread_handle ps s'
      else Some s
  end.

(** [opened] and [created] are the results of open and pps_create. *)
Definition check_device (opened created : Z) : Z :=
  if opened <? 0 then opened else if created <? 0 then -1 else 0.

(** [conf] is what the configuration file sets; [thread] the result of pthread_create.
    pthread_mutex_init leaves the mutex free. *)
Definition initPPS (opened created : Z) (conf : Z * Z) (thread : Z) (s : pps) : Z * pps :=
  let s1 := set_active true s in
  if check_device opened created <? 0 then (0, s1)
  else
    let s2 := set_lock false (set_conf conf.1 conf.2 s1) in
    if negb (thread =? 0) then (0, set_active false s2) else (1, s2).

(** Returns whether the thread was joined and the source closed. *)
Definition deInitPPS (s : pps) : option (bool * pps) :=
  if ts_lock s then None
  else if negb (isActive s) then Some (false, set_lock true s)
  else Some (true, set_active false s).

(** [now] is what clock_gettime returns.  The result is the return value, the kernel and
    user time stamps when they are written, and the current time when it is. *)
Definition getPPS (now : option timespec) (s : pps)
    : option (Z * option (timespec * timespec) * option timespec) :=
  if ts_lock s then None
  else if isActive s then
    Some (if now then 1 else 0, Some (drsyncKernelTs s, drsyncUserTs s), now)
  else Some (1, None, None).

(** * Specification *)
Definition to_ns (t : timespec) : Z := tv_sec t * BILLION_NSEC + tv_nsec t.
Definition normal (t : timespec) : Prop := 0 <= tv_nsec t < BILLION_NSEC.

Lemma to_ns_inj t1 t2 : normal t1 → normal t2 → to_ns t1 = to_ns t2 → t1 = t2.
Proof.
  destruct t1 as [s1 n1], t2 as [s2 n2]. unfold normal, to_ns, BILLION_NSEC. cbn. intros.
  assert (s1 = s2) as -> by lia. f_equal. lia.
Qed.

Lemma diff_ns t1 t2 :
  normal t1 → normal t2 →
  normal (calculate_time_difference t1 t2) ∧ to_ns (calculate_time_difference t1 t2) = to_ns t2 - to_ns t1.
Proof.
  destruct t1 as [s1 n1], t2 as [s2 n2]. unfold normal, to_ns, calculate_time_difference, BILLION_NSEC. cbn. intros.
  destruct (Z.ltb_spec n2 n1); cbn; lia.
Qed.

Lemma add_ns t1 t2 :
  normal t1 → normal t2 → normal (pps_sync_time_add t1 t2) ∧ to_ns (pps_sync_time_add t1 t2) = to_ns t1 + to_ns t2.
Proof.
  destruct t1 as [s1 n1], t2 as [s2 n2]. unfold normal, to_ns, pps_sync_time_add, BILLION_NSEC. cbn. intros.
  destruct (Z.leb_spec 1000000000 (n2 + n1)); cbn; lia.
Qed.

Lemma diff_same t : calculate_time_difference t t = TS 0 0.
Proof. unfold calculate_time_difference. rewrite Z.ltb_irrefl. f_equal; lia. Qed.

Lemma offset_zero_ok : isTimeOffsetOk (TS 0 0) = true.
Proof. by vm_compute. Qed.

(** A pulse that the thread does not skip. *)
Definition fetched (p : pulse) : Prop := 0 <= p_fetch p ∨ p_fetch p = - EINTR.

Lemma read_pps_fetched p :
  fetched p → (p_fetch p <? 0) && negb (p_fetch p =? - EINTR) = false.
Proof.
  intros [H|H]; [|rewrite H; by vm_compute]. destruct (Z.ltb_spec (p_fetch p) 0); [lia|done].
Qed.

(** No outage between the previous pulse and this one. *)
Definition no_gap (prev : timespec) (outage : Z) (p : pulse) : Prop := tv_sec (p_info p) - tv_sec prev <= outage.

Fixpoint no_gaps (prev : timespec) (outage : Z) (ps : list pulse) : Prop :=
  match ps with [] => True | p :: ps => no_gap prev outage p ∧ no_gaps (p_info p) outage ps end.

(** While pulses are being skipped, only the counter and the previous stamp change. *)
Lemma skip_pulses ps s :
  Forall fetched ps → isActive s = true → isFirstPulseReceived s = true →
  no_gaps (prevDrsyncKernelTs s) (gnssOutageInSec s) ps → Z.of_nat (length ps) <= skipPulseCnt s →
  ∃ s', thread_handle ps s = Some s' ∧ drsyncKernelTs s' = drsyncKernelTs s ∧ drsyncUserTs s' = drsyncUserTs s ∧
    skipPulseCnt s' = skipPulseCnt s - Z.of_nat (length ps) ∧ isFirstPulseReceived s' = true ∧ isActive s' = true ∧
    ts_lock s' = ts_lock s ∧ skipPPSPulseCnt s' = skipPPSPulseCnt s ∧ gnssOutageInSec s' = gnssOutageInSec s ∧
    time_offset s' = time_offset s ∧ prevDrsyncKernelTs s' = default (prevDrsyncKernelTs s) (p_info <$> last ps).
Proof.
  intros Hf. revert s. induction Hf as [|p ps Hp Hf IH]; intros s Ha H1 Hg Hn.
  { exists s. cbn. rewrite Z.sub_0_r. done. }
  destruct Hg as [Hg Hgs]. cbn [thread_handle]. rewrite Ha. unfold read_pps. rewrite (read_pps_fetched p Hp), H1.
  cbn [negb andb]. unfold no_gap in Hg. destruct (Z.ltb_spec (gnssOutageInSec s) (tv_sec (p_info p) - tv_sec (prevDrsyncKernelTs s))); [lia|].
  rewrite andb_false_r. cbn [length] in Hn.
  destruct (Z.ltb_spec 0 (skipPulseCnt (set_prev (p_info p) s))) as [Hs|Hs]; [|cbn in Hs; lia]. cbn.
  edestruct IH as (s' & E & R1 & R2 & R3 & R4 & R5 & R6 & R7 & R8 & R9 & R10); [..|exists s'; rewrite E]; cbn; try done.
  - cbn in *. lia.
  - cbn in *. split_and!; try done; [lia|]. rewrite R10. destruct ps as [|p0 ps]; [done|].
    change (last (p :: p0 :: ps)) with (last (p0 :: ps)). destruct (last (p0 :: ps)) eqn:El; [done|]. by apply last_None in El.
Qed.

(** * Properties *)

(** On normalised times the difference and the sum of gnsspps.c are exact to the
    nanosecond and normalised, and adding the difference of two times to the first gives
    back the second. *)
Theorem pps_time_arithmetic t1 t2 :
  normal t1 → normal t2 →
  normal (calculate_time_difference t1 t2) ∧ to_ns (calculate_time_difference t1 t2) = to_ns t2 - to_ns t1 ∧
  normal (pps_sync_time_add t1 t2) ∧ to_ns (pps_sync_time_add t1 t2) = to_ns t1 + to_ns t2 ∧
  pps_sync_time_add t1 (calculate_time_difference t1 t2) = t2.
Proof.
  intros H1 H2. destruct (diff_ns t1 t2 H1 H2) as [D1 D2], (add_ns t1 t2 H1 H2) as [A1 A2].
  split_and!; try done. destruct (add_ns t1 _ H1 D1) as [N E]. apply to_ns_inj; [done|done|lia].
Qed.

(** A pulse that is fetched and not skipped publishes a kernel time stamp in the
    boot-time base or leaves the published stamps as they were: a boot-time stamp is
    published as it is, a real-time stamp is published shifted by exactly the current
    difference of the two clocks, unless the real-time clock has jumped, and a stamp near
    neither clock is dropped; in the real-time case the clock difference is remembered. *)
Theorem read_pps_publishes p boot real s :
  fetched p → ts_lock s = false → skipPulseCnt s <= 0 → skipPPSPulseCnt s <= 0 →
  normal (p_info p) → normal boot → normal real →
  ∃ s', read_pps (p_fetch p) (p_info p) (Some boot) (Some real) s = Some (0, s') ∧
    match get_reported_time_type boot real (p_info p) with
    | KERNEL_REPORTED_CLOCK_BOOTTIME =>
        drsyncKernelTs s' = p_info p ∧ drsyncUserTs s' = boot ∧ time_offset s' = time_offset s
    | KERNEL_REPORTED_CLOCK_REALTIME =>
        to_ns (time_offset s') = to_ns boot - to_ns real ∧
        (time_offset s = TS 0 0 ∨ isTimeOffsetOk (calculate_time_difference (time_offset s) (time_offset s')) = true →
           to_ns (drsyncKernelTs s') = to_ns (p_info p) + (to_ns boot - to_ns real) ∧ normal (drsyncKernelTs s') ∧
           drsyncUserTs s' = boot) ∧
        (time_offset s ≠ TS 0 0 → isTimeOffsetOk (calculate_time_difference (time_offset s) (time_offset s')) = false →
           drsyncKernelTs s' = drsyncKernelTs s ∧ drsyncUserTs s' = drsyncUserTs s)
    | KERNEL_REPORTED_CLOCK_UNKNOWN =>
        drsyncKernelTs s' = drsyncKernelTs s ∧ drsyncUserTs s' = drsyncUserTs s ∧ time_offset s' = time_offset s
    end.
Proof.
  intros Hf Hl Hs Hk Hi Hb Hr. unfold read_pps. rewrite (read_pps_fetched p Hf).
  destruct (Z.ltb_spec 0 (skipPPSPulseCnt s)); [lia|]. rewrite !andb_false_r. cbn [andb].
  cbn [skipPulseCnt set_prev ts_lock]. destruct (Z.ltb_spec 0 (skipPulseCnt s)); [lia|]. rewrite Hl.
  eexists. split; [done|]. cbn [compute_real_to_boot_time].
  destruct (get_reported_time_type boot real (p_info p)); [done| |done].
  destruct (diff_ns real boot Hr Hb) as [D1 D2]. cbn [time_offset set_prev].
  set (delta := calculate_time_difference real boot) in *. destruct (add_ns (p_info p) delta Hi D1) as [A1 A2].
  assert (((0 =? tv_sec (time_offset s)) && (0 =? tv_nsec (time_offset s)) = true) ↔ time_offset s = TS 0 0) as Hz.
  { rewrite andb_true_iff, !Z.eqb_eq. destruct (time_offset s). cbn. naive_solver. }
  destruct ((0 =? tv_sec (time_offset s)) && (0 =? tv_nsec (time_offset s))) eqn:E0; cbn [orb].
  { apply proj1 in Hz. specialize (Hz eq_refl). cbn. split_and!; try done. intros _. split_and!; [lia|done|done]. }
  destruct (isTimeOffsetOk (calculate_time_difference (time_offset s) delta)) eqn:E1; cbn; rewrite E1.
  - split_and!; try done. intros _. split_and!; [lia|done|done].
  - split_and!; [done| |done]. intros [Ht|Ht]; [apply Hz in Ht; discriminate|discriminate].
Qed.

(** A jump of the real-time clock costs at most one pulse: when two pulses in a row
    are real-time stamps and the clocks keep their distance between the two, the second
    one is published, whatever the first one found. *)
Theorem pps_resync_after_jump p1 p2 b1 r1 b2 r2 s :
  fetched p1 → fetched p2 → ts_lock s = false → skipPulseCnt s <= 0 → skipPPSPulseCnt s <= 0 →
  normal (p_info p2) → normal b1 → normal r1 → normal b2 → normal r2 → to_ns b2 - to_ns r2 = to_ns b1 - to_ns r1 →
  get_reported_time_type b1 r1 (p_info p1) = KERNEL_REPORTED_CLOCK_REALTIME →
  get_reported_time_type b2 r2 (p_info p2) = KERNEL_REPORTED_CLOCK_REALTIME →
  ∃ s1 s2, read_pps (p_fetch p1) (p_info p1) (Some b1) (Some r1) s = Some (0, s1) ∧
    read_pps (p_fetch p2) (p_info p2) (Some b2) (Some r2) s1 = Some (0, s2) ∧
    to_ns (drsyncKernelTs s2) = to_ns (p_info p2) + (to_ns b2 - to_ns r2) ∧ drsyncUserTs s2 = b2.
Proof.
  intros Hf1 Hf2 Hl Hs Hk Hn2 Hb1 Hr1 Hb2 Hr2 Hd T1 T2.
  destruct (diff_ns r1 b1 Hr1 Hb1) as [D1 D1'], (diff_ns r2 b2 Hr2 Hb2) as [D2 D2'].
  assert (calculate_time_difference r2 b2 = calculate_time_difference r1 b1) as Ed by (apply to_ns_inj; [done|done|lia]).
  unfold read_pps at 1. rewrite (read_pps_fetched p1 Hf1).
  destruct (Z.ltb_spec 0 (skipPPSPulseCnt s)) as [|Hk0]; [lia|]. rewrite !andb_false_r. cbn [andb].
  cbn [skipPulseCnt set_prev ts_lock]. destruct (Z.ltb_spec 0 (skipPulseCnt s)) as [|Hs0]; [lia|]. rewrite Hl.
  cbn [compute_real_to_boot_time]. rewrite T1.
  set (s1 := (let '(retVal, s1) := _ in (retVal, set_offset _ s1)).2).
  assert (skipPPSPulseCnt s1 = skipPPSPulseCnt s ∧ skipPulseCnt s1 = skipPulseCnt s ∧ ts_lock s1 = false ∧
          time_offset s1 = calculate_time_difference r1 b1) as (E1 & E2 & E3 & E4).
  { subst s1. by destruct (_ || _). }
  exists s1. clearbody s1. eexists. split; [done|]. unfold read_pps. rewrite (read_pps_fetched p2 Hf2), E1.
  destruct (Z.ltb_spec 0 (skipPPSPulseCnt s)); [lia|]. rewrite !andb_false_r. cbn [andb].
  cbn [skipPulseCnt set_prev ts_lock]. rewrite E2. destruct (Z.ltb_spec 0 (skipPulseCnt s)); [lia|]. rewrite E3.
  split; [done|]. cbn [compute_real_to_boot_time]. rewrite T2. cbn [time_offset set_prev]. rewrite E4, Ed, diff_same, offset_zero_ok, orb_true_r.
  cbn. destruct (add_ns (p_info p2) _ Hn2 D1) as [_ ->]. split; [lia|done].
Qed.

(** Exactly the configured number of pulses is ignored after the first pulse: from a
    started receiver that has seen none, with k pulses to ignore and no outage between
    them, k fetched pulses leave the published stamps unchanged and the pulse after them
    is not ignored. *)
Theorem pps_skips_after_first_pulse p ps s k :
  Forall fetched (p :: ps) → isActive s = true → isFirstPulseReceived s = false → ts_lock s = false →
  skipPPSPulseCnt s = Z.of_nat k → length (p :: ps) = k → no_gaps (p_info p) (gnssOutageInSec s) ps →
  ∃ s', thread_handle (p :: ps) s = Some s' ∧ drsyncKernelTs s' = drsyncKernelTs s ∧ drsyncUserTs s' = drsyncUserTs s ∧
    ∀ q, fetched q → no_gap (prevDrsyncKernelTs s') (gnssOutageInSec s) q →
      read_pps (p_fetch q) (p_info q) (p_boot q) (p_real q) s' =
        Some (0, (compute_real_to_boot_time (p_boot q) (p_real q) (p_info q) (set_prev (p_info q) s')).2).
Proof.
  intros Hf Ha H1 Hl Hk Hlen Hg. apply Forall_cons in Hf as [Hp Hf]. cbn [length] in Hlen.
  cbn [thread_handle]. rewrite Ha. unfold read_pps at 1. rewrite (read_pps_fetched p Hp), H1. cbn [negb andb].
  destruct (Z.ltb_spec 0 (skipPPSPulseCnt s)) as [Hpos|]; [|lia]. cbn [skipPulseCnt set_prev set_skip].
  destruct (Z.ltb_spec 0 (skipPPSPulseCnt s)) as [_|]; [|lia]. cbn.
  set (s1 := set_skip true (skipPPSPulseCnt s - 1) _).
  destruct (skip_pulses ps s1) as (s' & E & R1 & R2 & R3 & R4 & R5 & R6 & R7 & R8 & R9 & R10); try done.
  { cbn. lia. }
  exists s'. split_and!; [done|done|done|]. intros q Hq Hgap. unfold read_pps. rewrite (read_pps_fetched q Hq), R4. cbn [negb andb].
  unfold no_gap in Hgap. cbn in R8. rewrite R8.
  destruct (Z.ltb_spec (gnssOutageInSec s) (tv_sec (p_info q) - tv_sec (prevDrsyncKernelTs s'))); [lia|]. rewrite andb_false_r.
  cbn [skipPulseCnt set_prev ts_lock]. rewrite R3. cbn [skipPulseCnt s1 set_skip].
  destruct (Z.ltb_spec 0 (skipPPSPulseCnt s - 1 - Z.of_nat (length ps))); [lia|]. rewrite R6. cbn. by rewrite Hl.
Qed.

(** Two ways in which the start and stop functions leave the module broken: deInitPPS
    on an inactive receiver returns with the mutex held, after which getPPS and deInitPPS
    never return; and initPPS on a device it cannot open reports failure but leaves the
    receiver active, after which getPPS reports success with the stale stamps. *)
Theorem pps_lifecycle_defects s now opened created conf thread :
  ts_lock s = false →
  (isActive s = false → ∃ s', deInitPPS s = Some (false, s') ∧ getPPS now s' = None ∧ deInitPPS s' = None) ∧
  (opened < 0 → ∃ s', initPPS opened created conf thread s = (0, s') ∧
     getPPS (Some (TS 5 5)) s' = Some (1, Some (drsyncKernelTs s, drsyncUserTs s), Some (TS 5 5))).
Proof.
  intros Hl. split.
  - intros Ha. exists (set_lock true s). unfold deInitPPS, getPPS. rewrite Hl, Ha. done.
  - intros Ho. exists (set_active true s). unfold initPPS, check_device, getPPS.
    destruct (Z.ltb_spec opened 0); [|lia]. destruct (Z.ltb_spec opened 0); [|lia]. cbn. by rewrite Hl.
Qed.

(** ** Concrete runs *)
Lemma pps_time_arithmetic_witness :
  pps_sync_time_add (TS 5 900000000) (calculate_time_difference (TS 5 900000000) (TS 7 100000000)) = TS 7 100000000.
Proof. apply (pps_time_arithmetic (TS 5 900000000) (TS 7 100000000)); split; vm_compute; done. Defined.

(** The clocks are 1000 s apart; a real-time pulse 30 ms before it is read. *)
Definition wit_pulse : pulse := Pulse 0 (TS 1099 980000000) None None.

Lemma read_pps_publishes_witness :
  get_reported_time_type (TS 100 10000000) (TS 1100 10000000) (p_info wit_pulse) = KERNEL_REPORTED_CLOCK_REALTIME ∧
  ∃ s', read_pps 0 (p_info wit_pulse) (Some (TS 100 10000000)) (Some (TS 1100 10000000)) pps_init = Some (0, s') ∧
    drsyncKernelTs s' = TS 99 980000000.
Proof.
  split; [vm_compute; reflexivity|].
  destruct (read_pps_publishes wit_pulse (TS 100 10000000) (TS 1100 10000000) pps_init) as (s' & E & H);
    [left; vm_compute; done|reflexivity|vm_compute; done|vm_compute; done|vm_compute; done|vm_compute; done|vm_compute; done|].
  exists s'. split; [exact E|]. vm_compute in E. injection E as <-. reflexivity.
Defined.

Lemma pps_resync_after_jump_witness :
  ∃ s1 s2, read_pps 0 (TS 1099 980000000) (Some (TS 100 10000000)) (Some (TS 1100 10000000)) (set_offset (TS (-50) 0) pps_init) = Some (0, s1) ∧
    drsyncKernelTs s1 = TS 0 0 ∧
    read_pps 0 (TS 1100 980000000) (Some (TS 101 10000000)) (Some (TS 1101 10000000)) s1 = Some (0, s2) ∧
    to_ns (drsyncKernelTs s2) = 100980000000.
Proof.
  destruct (pps_resync_after_jump wit_pulse (Pulse 0 (TS 1100 980000000) None None) (TS 100 10000000) (TS 1100 10000000)
              (TS 101 10000000) (TS 1101 10000000) (set_offset (TS (-50) 0) pps_init)) as (s1 & s2 & E1 & E2 & E3 & _);
    [left; vm_compute; done|left; vm_compute; done|reflexivity|vm_compute; done|vm_compute; done|vm_compute; done..|reflexivity|
     vm_compute; reflexivity|vm_compute; reflexivity|].
  exists s1, s2. split; [exact E1|]. split; [vm_compute in E1; injection E1 as <-; reflexivity|]. split; [exact E2|exact E3].
Defined.

Lemma pps_skips_after_first_pulse_witness :
  ∃ s', thread_handle [Pulse 0 (TS 10 0) None None; Pulse 0 (TS 11 0) None None] (set_active true (set_conf 2 1 pps_init)) = Some s' ∧
    skipPulseCnt s' = 0.
Proof.
  destruct (pps_skips_after_first_pulse (Pulse 0 (TS 10 0) None None) [Pulse 0 (TS 11 0) None None]
              (set_active true (set_conf 2 1 pps_init)) 2) as (s' & E & _); try reflexivity.
  - repeat constructor; vm_compute; discriminate.
  - split; [vm_compute; discriminate|exact I].
  - exists s'. split; [exact E|]. vm_compute in E. injection E as <-. reflexivity.
Defined.

Lemma pps_lifecycle_defects_witness :
  ∃ s', deInitPPS pps_init = Some (false, s') ∧ getPPS None s' = None ∧ deInitPPS s' = None.
Proof. apply (pps_lifecycle_defects pps_init None (-1) 0 (0, 1) 0); reflexivity. Defined.
