(* ===== verification/SkipList.v ===== *)
(** * gps/utils/SkipList.h : one list with a chain of links per level.

    The nodes of the std::list are objects with stable addresses: [mMainList] is the
    order of the list, [nodes] what the addresses hold, and an iterator is an address or
    [None] for end().  Dereferencing end() or an erased node, and indexing a vector out
    of its range, is [UB]. *)
From S2P Require Import Prelude.

Record SkipNode (T : Type) := Node { mLevel : Z; mData : T; mNextInLevel : ptr }.
Arguments Node {T}. Arguments mLevel {T}. Arguments mData {T}. Arguments mNextInLevel {T}.

Record SkipList (T : Type) := SL {
  mMainList : list addr;
  nodes : gmap addr (SkipNode T);
  mHeadVec : list ptr;
  mTailVec : list ptr;
}.
Arguments SL {T}. Arguments mMainList {T}. Arguments nodes {T}. Arguments mHeadVec {T}. Arguments mTailVec {T}.

Section SkipList.
Context {T : Type}.
Abbreviation state := (SkipList T) (only parsing).

Definition newSkipList (totalLevels : nat) : state := SL [] ∅ (replicate totalLevels None) (replicate totalLevels None).

(** [v[level]] of a vector, and the assignment to it *)
Definition vec (f : state → list ptr) (level : Z) : M state ptr := λ s,
  if (level <? 0)%Z then UB else match f s !! Z.to_nat level with Some p => Done p s | None => UB end.
Definition set_head (level : Z) (p : ptr) : M state unit :=
  modify (λ s, SL (mMainList s) (nodes s) (<[Z.to_nat level := p]> (mHeadVec s)) (mTailVec s)).
Definition set_tail (level : Z) (p : ptr) : M state unit :=
  modify (λ s, SL (mMainList s) (nodes s) (mHeadVec s) (<[Z.to_nat level := p]> (mTailVec s))).

Definition load (p : ptr) : M state (SkipNode T) :=
  match p with Some a => deref (λ s, nodes s !! a) | None => ub end.
Definition set_next (p next : ptr) : M state unit :=
  n ← load p;
  match p with
  | Some a => modify (λ s, SL (mMainList s) (<[a := Node (mLevel n) (mData n) next]> (nodes s)) (mHeadVec s) (mTailVec s))
  | None => ub
  end.

(** push_back; returns the iterator at the new node *)
Definition push_back (n : SkipNode T) : M state addr := λ s,
  let a := fresh (dom (nodes s)) in
  Done a (SL (mMainList s ++ [a]) (<[a := n]> (nodes s)) (mHeadVec s) (mTailVec s)).
Definition erase (p : ptr) : M state unit :=
  _ ← load p;
  match p with
  | Some a => modify (λ s, SL (filter (λ b, b ≠ a) (mMainList s)) (delete a (nodes s)) (mHeadVec s) (mTailVec s))
  | None => ub
  end.

(** ** The methods *)
Definition append (data : T) (level : Z) : M state unit :=
  s ← get;
  if (level <? 0)%Z || (Z.of_nat (length (mHeadVec s)) <=? level)%Z then mret tt
  else
    iter ← push_back (Node level data None);
    head ← vec mHeadVec level;
    _ ← (if is_null head then set_head level (Some iter)
         else tail ← vec mTailVec level; set_next tail (Some iter));
    set_tail level (Some iter).

Definition popLevel (level : Z) : M state unit :=
  head ← vec mHeadVec level;
  if is_null head then mret tt
  else
    n ← load head;
    _ ← (if is_null (mNextInLevel n) then set_tail level None else mret tt);
    n ← load head;
    let tmp_iter := mNextInLevel n in
    _ ← erase head;
    set_head level tmp_iter.

(** [mMainList.front()] of an empty list is undefined. *)
Definition pop : M state unit :=
  s ← get;
  n ← load (head (mMainList s));
  popLevel (mLevel n).

Definition front (level : Z) : M state T :=
  h ← vec mHeadVec level; n ← load h; mret (mData n).

Definition size : M state nat := gets (λ s, length (mMainList s)).

Definition flush : M state unit :=
  modify (λ s, SL [] ∅ (replicate (length (mHeadVec s)) None) (replicate (length (mHeadVec s)) None)).

(** Iterating over the main list. *)
Fixpoint dump_loop (l : list addr) : M state (list (T * Z)) :=
  match l with
  | [] => mret []
  | a :: l => n ← load (Some a); r ← dump_loop l; mret ((mData n, mLevel n) :: r)
  end.
Definition dump : M state (list (T * Z)) := s ← get; dump_loop (mMainList s).

(** Following the links of one level; the chain has at most as many nodes as the list. *)
Fixpoint dumpLevel_loop (fuel : nat) (head : ptr) : M state (list (T * Z)) :=
  match head with
  | None => mret []
  | Some a =>
      match fuel with
      | O => nofuel
      | S fuel => n ← load (Some a); r ← dumpLevel_loop fuel (mNextInLevel n); mret ((mData n, mLevel n) :: r)
      end
  end.
Definition dumpLevel (level : Z) : M state (list (T * Z)) :=
  s ← get; h ← vec mHeadVec level; dumpLevel_loop (length (mMainList s)) h.

(** * Refinement: a list of (data, level) *)

(** The links of one level: from [p] through exactly the nodes [l]. *)
Fixpoint chain (ns : gmap addr (SkipNode T)) (p : ptr) (l : list addr) : Prop :=
  match l with
  | [] => p = None
  | a :: l => p = Some a ∧ ∃ n, ns !! a = Some n ∧ chain ns (mNextInLevel n) l
  end.

Definition at_level (v : Z) (xs : list (addr * (T * Z))) : list addr := (filter (λ x, x.2.2 = v) xs).*1.

Definition level_ok (s : state) (xs : list (addr * (T * Z))) (v : nat) : Prop :=
  ∃ h, mHeadVec s !! v = Some h ∧ chain (nodes s) h (at_level (Z.of_nat v) xs) ∧
       mTailVec s !! v = Some (last (at_level (Z.of_nat v) xs)).

(** [xs] pairs the addresses of the list with the abstract elements. *)
Record srep (N : nat) (s : state) (xs : list (addr * (T * Z))) : Prop := {
  r_main : mMainList s = xs.*1;
  r_nodup : NoDup xs.*1;
  r_nodes : ∀ a x, (a, x) ∈ xs → ∃ nx, nodes s !! a = Some (Node x.2 x.1 nx);
  r_dom : ∀ a, is_Some (nodes s !! a) → a ∈ xs.*1;
  r_len : length (mHeadVec s) = N ∧ length (mTailVec s) = N;
  r_range : ∀ a x, (a, x) ∈ xs → (0 ≤ x.2 < Z.of_nat N)%Z;
  r_levels : ∀ v, v < N → level_ok s xs v;
}.

Definition srep_list (N : nat) (s : state) (l : list (T * Z)) : Prop := ∃ xs, srep N s xs ∧ xs.*2 = l.

Lemma chain_frame ns ns' p l : (∀ a, a ∈ l → ns' !! a = ns !! a) → chain ns p l → chain ns' p l.
Proof.
  revert p. induction l as [|a l IH]; intros p Hf; cbn; [done|]. intros (-> & n & Hn & Hc). split; [done|].
  exists n. rewrite Hf by (by left). split; [done|]. apply IH; [|done]. intros b Hb. apply Hf. by right.
Qed.

Lemma chain_alive ns p l : chain ns p l → ∀ a, a ∈ l → is_Some (ns !! a).
Proof.
  revert p. induction l as [|b l IH]; intros p; cbn; [set_solver|]. intros (_ & n & Hn & Hc) a Ha.
  apply elem_of_cons in Ha as [->|Ha]; [eauto|]. by eapply IH.
Qed.

(** Linking a new last node after the last node [t]. *)
Lemma chain_snoc ns p l t n a nw :
  chain ns p (l ++ [t]) → ns !! t = Some n → NoDup ((l ++ [t]) ++ [a]) → mNextInLevel nw = None →
  chain (<[t := Node (mLevel n) (mData n) (Some a)]> (<[a := nw]> ns)) p ((l ++ [t]) ++ [a]).
Proof.
  intros Hc Ht Hnd Hnw. revert p Hc. rewrite <-app_assoc in *. induction l as [|b l IH]; intros p; cbn.
  - intros (-> & n' & Hn' & Hnx). split; [done|]. eexists. rewrite lookup_insert_eq. split; [done|]. cbn.
    split; [done|]. exists nw. apply NoDup_cons in Hnd as [Hta _]. rewrite lookup_insert_ne by set_solver.
    by rewrite lookup_insert_eq.
  - intros (-> & n' & Hn' & Hc). split; [done|]. apply NoDup_cons in Hnd as [Hb Hnd].
    exists n'. rewrite !lookup_insert_ne by set_solver. split; [done|]. by apply IH.
Qed.

Lemma at_level_app v xs ys : at_level v (xs ++ ys) = at_level v xs ++ at_level v ys.
Proof. unfold at_level. by rewrite filter_app, fmap_app. Qed.

Lemma at_level_sub v xs a : a ∈ at_level v xs → a ∈ xs.*1.
Proof. unfold at_level. rewrite !list_elem_of_fmap. intros (x & -> & Hx). apply list_elem_of_filter in Hx as [_ Hx]. eauto. Qed.

Lemma at_level_elem v xs a : a ∈ at_level v xs → ∃ d, (a, (d, v)) ∈ xs.
Proof.
  unfold at_level. rewrite list_elem_of_fmap. intros ([b [d u]] & -> & Hx). apply list_elem_of_filter in Hx as [Hu Hx].
  cbn in Hu. subst. eauto.
Qed.

Lemma at_level_nodup v xs : NoDup xs.*1 → NoDup (at_level v xs).
Proof. intros Hn. eapply sublist_NoDup; [exact Hn|]. apply fmap_sublist, sublist_filter. Qed.

(** An address has one level. *)
Lemma at_level_disjoint u v xs a : NoDup xs.*1 → a ∈ at_level u xs → a ∈ at_level v xs → u = v.
Proof.
  intros Hn Hu Hv. apply at_level_elem in Hu as [d Hd], Hv as [d' Hd'].
  apply list_elem_of_lookup in Hd as [i Hi], Hd' as [j Hj].
  assert (i = j) as ->; [|congruence].
  eapply NoDup_lookup; [exact Hn|rewrite list_lookup_fmap, Hi; done|rewrite list_lookup_fmap, Hj; done].
Qed.

Lemma vec_done f v (s : state) p :
  (0 ≤ v)%Z → f s !! Z.to_nat v = Some p → vec f v s = Done p s.
Proof. intros Hv E. unfold vec. destruct (Z.ltb_spec v 0); [lia|]. by rewrite E. Qed.

Lemma srep_new N : srep N (newSkipList N) [].
Proof.
  split; cbn; try done; try set_solver.
  - constructor.
  - intros a [x Hx]. by rewrite lookup_empty in Hx.
  - by rewrite length_replicate.
  - intros v Hv. exists None. split_and!; [by apply lookup_replicate_2|done|by apply lookup_replicate_2].
Qed.

Lemma append_spec N s xs d v :
  srep N s xs → (0 ≤ v < Z.of_nat N)%Z →
  ∃ a s', append d v s = Done tt s' ∧ srep N s' (xs ++ [(a, (d, v))]).
Proof.
  intros [R1 R2 R3 R4 [R5 R5'] R6 R7] Hv. set (a := fresh (dom (nodes s))).
  assert (nodes s !! a = None) as Hfr by (apply not_elem_of_dom, is_fresh).
  assert (a ∉ xs.*1) as Hax.
  { intros Hin. apply list_elem_of_fmap in Hin as ([b x] & Hb & Hx). cbn in Hb. subst b. destruct (R3 a x Hx) as [nx Hnx]. congruence. }
  destruct (R7 (Z.to_nat v)) as (h & Hh & Hc & Ht); [lia|]. rewrite Z2Nat.id in Hc, Ht by lia.
  unfold append. rewrite (bind_done _ _ s s s) by done.
  destruct (Z.ltb_spec v 0); [lia|]. destruct (Z.leb_spec (Z.of_nat (length (mHeadVec s))) v); [lia|]. cbn [orb].
  set (s1 := SL (mMainList s ++ [a]) (<[a := Node v d None]> (nodes s)) (mHeadVec s) (mTailVec s)).
  rewrite (bind_done _ _ s a s1) by done. rewrite (bind_done _ _ s1 h s1) by (apply vec_done; [lia|done]).
  (* the state after linking *)
  assert (∃ h' ns', (_ ← (if is_null h then set_head v (Some a) else tail ← vec mTailVec v; set_next tail (Some a)); set_tail v (Some a)) s1 =
     Done tt (SL (mMainList s ++ [a]) ns' (<[Z.to_nat v := h']> (mHeadVec s)) (<[Z.to_nat v := Some a]> (mTailVec s))) ∧
     chain ns' h' (at_level v xs ++ [a]) ∧ (∀ b, b ∉ at_level v xs → b ≠ a → ns' !! b = nodes s !! b) ∧
     ns' !! a = Some (Node v d None) ∧
     (∀ b n, nodes s !! b = Some n → ∃ nx, ns' !! b = Some (Node (mLevel n) (mData n) nx)) ∧
     (∀ b, is_Some (ns' !! b) → b = a ∨ is_Some (nodes s !! b))) as (h' & ns' & E & Hc' & Hfr' & Ha' & Hold & Hdom).
  { destruct (last_snoc_inv (at_level v xs)) as [He|(l & t & He)].
    - rewrite He in Hc, Ht |- *. cbn in Hc. subst h. cbn [is_null]. exists (Some a), (<[a := Node v d None]> (nodes s)). split_and!.
      + done.
      + cbn. split; [done|]. eexists. by rewrite lookup_insert_eq.
      + intros b _ Hb. by rewrite lookup_insert_ne.
      + by rewrite lookup_insert_eq.
      + intros b [lv dd nx] Hb. exists nx. rewrite lookup_insert_ne by congruence. done.
      + intros b Hb. rewrite lookup_insert in Hb. case_decide; auto.
    - rewrite He in Hc, Ht |- *. rewrite last_snoc in Ht.
      assert (is_null h = false) as ->. { destruct l; cbn in Hc; by destruct Hc as [-> _]. }
      destruct (chain_alive _ _ _ Hc t) as [n Hn]; [set_solver|]. assert (t ≠ a) by congruence.
      exists h, (<[t := Node (mLevel n) (mData n) (Some a)]> (<[a := Node v d None]> (nodes s))). split_and!.
      + rewrite (bind_done _ _ s1 tt (SL (mMainList s ++ [a]) (<[t := Node (mLevel n) (mData n) (Some a)]> (<[a := Node v d None]> (nodes s))) (mHeadVec s) (mTailVec s))).
        * unfold set_tail, modify. cbn. by rewrite (list_insert_id _ _ _ Hh).
        * rewrite (bind_done _ _ s1 (Some t) s1) by (apply vec_done; [lia|done]). unfold set_next.
          rewrite (bind_done _ _ s1 n s1); [done|]. apply deref_done. cbn. by rewrite lookup_insert_ne.
      + apply chain_snoc; [done|done| |done]. apply NoDup_app. split_and!; [rewrite <-He; by apply at_level_nodup| |apply NoDup_singleton].
        intros b Hb Hb'. apply list_elem_of_singleton in Hb' as ->. apply Hax. rewrite <-He in Hb. by eapply at_level_sub.
      + intros b Hb Hba. rewrite !lookup_insert_ne by set_solver. done.
      + by rewrite lookup_insert_ne, lookup_insert_eq.
      + intros b nb Hb. rewrite lookup_insert. case_decide; [subst; rewrite Hn in Hb; simplify_eq; eauto|].
        rewrite lookup_insert_ne by congruence. destruct nb as [lv dd nx]. exists nx. done.
      + intros b Hb. rewrite !lookup_insert in Hb. repeat case_decide; subst; eauto. }
  exists a. eexists. split; [exact E|]. split; cbn [mMainList nodes mHeadVec mTailVec].
  - by rewrite fmap_app, R1.
  - rewrite fmap_app. apply NoDup_app. split_and!; [done| |apply NoDup_singleton]. cbn. set_solver.
  - intros b x Hx. apply elem_of_app in Hx as [Hx|Hx].
    + destruct (R3 b x Hx) as [nx Hnx]. apply Hold in Hnx as [nx' Hnx']. eauto.
    + apply list_elem_of_singleton in Hx. simplify_eq. eauto.
  - intros b Hb. rewrite fmap_app, elem_of_app. destruct (Hdom b Hb) as [->|Hb']; [right; by left|left; eauto].
  - by rewrite !length_insert.
  - intros b x Hx. apply elem_of_app in Hx as [Hx|Hx]; [eauto|]. apply list_elem_of_singleton in Hx. by simplify_eq.
  - intros u Hu. unfold level_ok. rewrite at_level_app. cbn [mHeadVec mTailVec nodes].
    assert (at_level (Z.of_nat u) [(a, (d, v))] = if decide (v = Z.of_nat u) then [a] else []) as ->.
    { unfold at_level. rewrite filter_cons. cbn. by destruct (decide (v = Z.of_nat u)). }
    destruct (decide (v = Z.of_nat u)) as [->|Hne].
    + rewrite Nat2Z.id in *. exists h'. rewrite !list_lookup_insert_eq by lia. rewrite last_snoc. done.
    + rewrite app_nil_r. rewrite !list_lookup_insert_ne by lia. destruct (R7 u Hu) as (hu & Hhu & Hcu & Htu).
      exists hu. split_and!; [done| |done]. eapply chain_frame; [|exact Hcu]. intros b Hb. apply Hfr'.
      * intros Hb'. apply Hne. by eapply at_level_disjoint.
      * intros ->. apply Hax. by eapply at_level_sub.
Qed.

(** Removing the first element of a level. *)
Fixpoint pop_first (v : Z) (l : list (T * Z)) : list (T * Z) :=
  match l with [] => [] | x :: l => if decide (x.2 = v) then l else x :: pop_first v l end.

Lemma at_level_head v xs a l :
  at_level v xs = a :: l →
  ∃ xs1 d xs2, xs = xs1 ++ (a, (d, v)) :: xs2 ∧ at_level v xs1 = [] ∧ at_level v xs2 = l ∧
               pop_first v xs.*2 = (xs1 ++ xs2).*2.
Proof.
  unfold at_level. induction xs as [|[b [d u]] xs IH]; [done|]. rewrite filter_cons. cbn.
  destruct (decide (u = v)) as [->|Hu]; cbn.
  - intros [= -> El]. exists [], d, xs. done.
  - intros E. destruct (IH E) as (xs1 & d1 & xs2 & -> & E1 & E2 & E3). exists ((b, (d, u)) :: xs1), d1, xs2. split_and!.
    + done.
    + rewrite filter_cons. cbn. by destruct (decide (u = v)).
    + done.
    + cbn. by f_equal.
Qed.

Lemma at_level_nil v xs : at_level v xs = [] → pop_first v xs.*2 = xs.*2.
Proof.
  unfold at_level. induction xs as [|[b [d u]] xs IH]; [done|]. rewrite filter_cons. cbn. destruct (decide (u = v)); [done|].
  cbn. intros E. f_equal. by apply IH.
Qed.

Lemma popLevel_spec N s xs v :
  srep N s xs → (0 ≤ v < Z.of_nat N)%Z →
  ∃ s' xs', popLevel v s = Done tt s' ∧ srep N s' xs' ∧ xs'.*2 = pop_first v xs.*2 ∧ (at_level v xs = [] → s' = s ∧ xs' = xs).
Proof.
  intros R Hv. pose proof R as [R1 R2 R3 R4 [R5 R5'] R6 R7].
  destruct (R7 (Z.to_nat v)) as (h & Hh & Hc & Ht); [lia|]. rewrite Z2Nat.id in Hc, Ht by lia.
  unfold popLevel. rewrite (bind_done _ _ s h s) by (apply vec_done; [lia|done]).
  destruct (at_level v xs) as [|a l] eqn:El.
  { cbn in Hc. subst h. exists s, xs. by rewrite at_level_nil. }
  destruct Hc as (-> & n & Hn & Hc). cbn [is_null]. rewrite (bind_done _ _ s n s) by (by apply deref_done).
  destruct (at_level_head v xs a l El) as (xs1 & d & xs2 & -> & E1 & E2 & E3).
  set (s1 := if is_null (mNextInLevel n) then SL (mMainList s) (nodes s) (mHeadVec s) (<[Z.to_nat v := None]> (mTailVec s)) else s).
  rewrite (bind_done _ _ s tt s1) by (subst s1; by destruct (is_null _)).
  assert (nodes s1 = nodes s ∧ mMainList s1 = mMainList s ∧ mHeadVec s1 = mHeadVec s) as (N1 & N2 & N3) by (subst s1; by destruct (is_null _)).
  rewrite (bind_done _ _ s1 n s1) by (apply deref_done; by rewrite N1). unfold erase.
  set (s2 := SL (filter (λ b, b ≠ a) (mMainList s1)) (delete a (nodes s1)) (mHeadVec s1) (mTailVec s1)).
  rewrite (bind_done _ _ s1 tt s2).
  2: { rewrite (bind_done _ _ s1 n s1); [done|]. apply deref_done. by rewrite N1. }
  eexists _, (xs1 ++ xs2). split; [done|].
  assert (NoDup (xs1.*1 ++ a :: xs2.*1)) as Hnd by (by rewrite fmap_app in R2).
  apply NoDup_app in Hnd as (Hnd1 & Hdis & Hnd2). apply NoDup_cons in Hnd2 as [Ha2 Hnd2].
  assert (a ∉ xs1.*1) as Ha1 by (intros Hin; apply (Hdis a Hin); by left).
  assert (a ∉ (xs1 ++ xs2).*1) as Ha12 by (rewrite fmap_app; set_solver).
  split; [|split; [done|discriminate]]. split; cbn [mMainList nodes mHeadVec mTailVec set_head modify s2].
  - rewrite N2, R1, !fmap_app. cbn. rewrite filter_app, filter_cons_False by naive_solver.
    rewrite !filter_all; [done| |]; apply Forall_forall; intros b Hb ->; done.
  - rewrite fmap_app. apply NoDup_app. split_and!; [done| |done]. intros b Hb Hb'. apply (Hdis b Hb). by right.
  - intros b x Hx. assert (b ≠ a). { intros ->. apply Ha12. apply (list_elem_of_fmap_2 fst) in Hx. done. }
    rewrite N1, lookup_delete_ne by done. apply (R3 b x). set_solver.
  - intros b Hb. rewrite N1, lookup_delete in Hb. case_decide; [by destruct Hb|]. apply R4 in Hb. rewrite fmap_app in *. set_solver.
  - rewrite N3, length_insert. split; [done|]. subst s1. destruct (is_null _); cbn; by rewrite ?length_insert.
  - intros b x Hx. apply (R6 b x). set_solver.
  - intros u Hu. destruct (R7 u Hu) as (hu & Hhu & Hcu & Htu). unfold level_ok. cbn [mHeadVec mTailVec nodes]. rewrite N1, N3.
    rewrite at_level_app in Hcu, Htu |- *.
    assert (∀ w, at_level w ((a, (d, v)) :: xs2) = if decide (v = w) then a :: at_level w xs2 else at_level w xs2) as Hcons.
    { intros w. unfold at_level. rewrite filter_cons. cbn. by destruct (decide (v = w)). }
    rewrite Hcons in Hcu, Htu. destruct (decide (v = Z.of_nat u)) as [->|Hne].
    + rewrite Nat2Z.id in *. rewrite E1 in Hcu, Htu |- *. rewrite E2 in Hcu, Htu |- *. cbn [app] in *.
      rewrite list_lookup_insert_eq by lia. exists (mNextInLevel n). split_and!; [done| |].
      * eapply chain_frame; [|exact Hc]. intros b Hb. rewrite lookup_delete_ne; [done|]. intros <-. apply Ha2.
        rewrite <-E2 in Hb. by eapply at_level_sub.
      * subst s1. destruct l as [|b l]; cbn in Hc; [rewrite Hc|destruct Hc as [-> _]]; cbn.
        -- by rewrite Nat2Z.id, list_lookup_insert_eq by lia.
        -- rewrite Htu. done.
    + rewrite list_lookup_insert_ne by lia. exists hu. split_and!; [done| |].
      * eapply chain_frame; [|exact Hcu]. intros b Hb. rewrite lookup_delete_ne; [done|]. intros <-. apply Ha12.
        rewrite fmap_app. apply elem_of_app in Hb as [Hb|Hb]; apply at_level_sub in Hb; set_solver.
      * subst s1. destruct (is_null _); cbn; [rewrite list_lookup_insert_ne by lia|]; done.
Qed.

(** The elements of one level. *)
Definition level_of (v : Z) (l : list (T * Z)) : list (T * Z) := filter (λ x, x.2 = v) l.

Lemma level_of_fmap v (xs : list (addr * (T * Z))) : level_of v xs.*2 = (filter (λ x, x.2.2 = v) xs).*2.
Proof.
  unfold level_of. induction xs as [|[a x] xs IH]; [done|]. rewrite fmap_cons, !filter_cons. cbn [snd].
  destruct (decide (x.2 = v)); rewrite ?fmap_cons, IH; done.
Qed.

Lemma dump_loop_spec (s : state) (xs : list (addr * (T * Z))) :
  (∀ a x, (a, x) ∈ xs → ∃ nx, nodes s !! a = Some (Node x.2 x.1 nx)) → dump_loop xs.*1 s = Done xs.*2 s.
Proof.
  induction xs as [|[a x] xs IH]; intros Hx; [done|]. cbn. destruct (Hx a x) as [nx Hn]; [by left|].
  rewrite (bind_done _ _ s _ s) by (by apply deref_done). rewrite (bind_done _ _ s _ s) by (apply IH; intros; apply Hx; by right).
  by destruct x.
Qed.

Lemma dumpLevel_loop_spec (s : state) h (xs : list (addr * (T * Z))) fuel :
  (∀ a x, (a, x) ∈ xs → ∃ nx, nodes s !! a = Some (Node x.2 x.1 nx)) → chain (nodes s) h xs.*1 → length xs ≤ fuel →
  dumpLevel_loop fuel h s = Done xs.*2 s.
Proof.
  revert h fuel. induction xs as [|[a x] xs IH]; intros h fuel Hx Hc Hf.
  - cbn in Hc. subst h. by destruct fuel.
  - cbn in Hc, Hf. destruct Hc as (-> & n & Hn & Hc). destruct fuel as [|fuel]; [lia|]. cbn [dumpLevel_loop].
    destruct (Hx a x) as [nx Hnx]; [by left|]. rewrite Hnx in Hn. simplify_eq. cbn in Hc.
    rewrite (bind_done _ _ s _ s) by (by apply deref_done). cbn [mNextInLevel].
    rewrite (bind_done _ _ s xs.*2 s); [by destruct x|]. apply IH; [intros; apply Hx; by right|done|lia].
Qed.

Lemma dump_spec N (s : state) xs : srep N s xs → dump s = Done xs.*2 s.
Proof. intros [R1 R2 R3 _ _ _ _]. unfold dump. rewrite (bind_done _ _ s s s) by done. rewrite R1. by apply dump_loop_spec. Qed.

Lemma dumpLevel_spec N (s : state) xs v :
  srep N s xs → (0 ≤ v < Z.of_nat N)%Z → dumpLevel v s = Done (level_of v xs.*2) s.
Proof.
  intros [R1 R2 R3 _ _ _ R7] Hv. unfold dumpLevel. rewrite (bind_done _ _ s s s) by done.
  destruct (R7 (Z.to_nat v)) as (h & Hh & Hc & _); [lia|]. rewrite Z2Nat.id in Hc by lia.
  rewrite (bind_done _ _ s h s) by (apply vec_done; [lia|done]). rewrite level_of_fmap. apply dumpLevel_loop_spec.
  - intros a x Hx. apply list_elem_of_filter in Hx as [_ Hx]. eauto.
  - done.
  - rewrite R1, length_fmap. apply length_filter.
Qed.

Lemma front_spec N (s : state) xs v x l :
  srep N s xs → (0 ≤ v < Z.of_nat N)%Z → level_of v xs.*2 = x :: l → front v s = Done x.1 s.
Proof.
  intros [R1 R2 R3 _ _ _ R7] Hv El. destruct (R7 (Z.to_nat v)) as (h & Hh & Hc & _); [lia|]. rewrite Z2Nat.id in Hc by lia.
  unfold front. rewrite (bind_done _ _ s h s) by (apply vec_done; [lia|done]). rewrite level_of_fmap in El. unfold at_level in Hc.
  destruct (filter _ xs) as [|[a y] ys] eqn:Ef; [done|]. cbn in El, Hc. simplify_eq. destruct Hc as (-> & n & Hn & _).
  destruct (R3 a x) as [nx Hnx]; [|rewrite Hnx in Hn; simplify_eq; by rewrite (bind_done _ _ s _ s) by (by apply deref_done)].
  assert ((a, x) ∈ filter (λ x, x.2.2 = v) xs) as Hin by (rewrite Ef; by left). by apply list_elem_of_filter in Hin as [_ Hin].
Qed.

(** Reading the front of an empty level dereferences end(). *)
Lemma front_empty N (s : state) xs v :
  srep N s xs → (0 ≤ v < Z.of_nat N)%Z → level_of v xs.*2 = [] → front v s = UB.
Proof.
  intros [R1 R2 R3 _ _ _ R7] Hv El. destruct (R7 (Z.to_nat v)) as (h & Hh & Hc & _); [lia|]. rewrite Z2Nat.id in Hc by lia.
  unfold front. rewrite (bind_done _ _ s h s) by (apply vec_done; [lia|done]). rewrite level_of_fmap in El. unfold at_level in Hc.
  apply fmap_nil_inv in El. rewrite El in Hc. cbn in Hc. by subst h.
Qed.

Lemma flush_spec N (s : state) xs : srep N s xs → ∃ s', flush s = Done tt s' ∧ srep N s' [].
Proof. intros [_ _ _ _ [R5 R5'] _ _]. eexists. split; [done|]. rewrite R5. apply (srep_new N). Qed.

Lemma pop_spec N (s : state) xs x l :
  srep N s xs → xs.*2 = x :: l → ∃ s' xs', pop s = Done tt s' ∧ srep N s' xs' ∧ xs'.*2 = l.
Proof.
  intros R E. destruct xs as [|[a y] xs]; [done|]. cbn in E. simplify_eq. pose proof R as [R1 R2 R3 _ _ R6 _].
  unfold pop. rewrite (bind_done _ _ s s s) by done. rewrite R1. cbn [head list_fmap fmap fst].
  destruct (R3 a x) as [nx Hn]; [by left|]. rewrite (bind_done _ _ s (Node x.2 x.1 nx) s) by (by apply deref_done). cbn [mLevel].
  destruct (popLevel_spec N s ((a, x) :: xs) x.2 R) as (s' & xs' & E' & R' & Ex & _); [apply (R6 a); by left|].
  exists s', xs'. rewrite Ex. cbn. by rewrite decide_True.
Qed.

(** ** Sequences of calls *)
Inductive sl_op := OAppend (d : T) (v : Z) | OPopLevel (v : Z) | OPop | OFront (v : Z) | OSize | OFlush | ODump | ODumpLevel (v : Z).
Inductive sl_obs := BNone | BFront (d : T) | BSize (n : nat) | BDump (l : list (T * Z)).

Definition sl_exec (o : sl_op) : M state sl_obs :=
  match o with
  | OAppend d v => _ ← append d v; mret BNone
  | OPopLevel v => _ ← popLevel v; mret BNone
  | OPop => _ ← pop; mret BNone
  | OFront v => d ← front v; mret (BFront d)
  | OSize => n ← size; mret (BSize n)
  | OFlush => _ ← flush; mret BNone
  | ODump => l ← dump; mret (BDump l)
  | ODumpLevel v => l ← dumpLevel v; mret (BDump l)
  end.
Fixpoint sl_execs (os : list sl_op) : M state (list sl_obs) :=
  match os with [] => mret [] | o :: os => b ← sl_exec o; bs ← sl_execs os; mret (b :: bs) end.

(** The abstract list; [None] when a call is outside its contract. *)
Definition in_range (N : nat) (v : Z) : bool := (0 <=? v)%Z && (v <? Z.of_nat N)%Z.
Definition sl_spec (N : nat) (o : sl_op) (l : list (T * Z)) : option (sl_obs * list (T * Z)) :=
  match o with
  | OAppend d v => Some (BNone, if in_range N v then l ++ [(d, v)] else l)
  | OPopLevel v => if in_range N v then Some (BNone, pop_first v l) else None
  | OPop => match l with [] => None | _ :: l => Some (BNone, l) end
  | OFront v => if in_range N v then x ← head (level_of v l); Some (BFront x.1, l) else None
  | OSize => Some (BSize (length l), l)
  | OFlush => Some (BNone, [])
  | ODump => Some (BDump l, l)
  | ODumpLevel v => if in_range N v then Some (BDump (level_of v l), l) else None
  end.
Fixpoint sl_specs (N : nat) (os : list sl_op) (l : list (T * Z)) : option (list sl_obs * list (T * Z)) :=
  match os with
  | [] => Some ([], l)
  | o :: os => '(b, l1) ← sl_spec N o l; '(bs, l2) ← sl_specs N os l1; Some (b :: bs, l2)
  end.

Lemma in_range_spec N v : in_range N v = true ↔ (0 ≤ v < Z.of_nat N)%Z.
Proof. unfold in_range. rewrite andb_true_iff. lia. Qed.

Lemma sl_exec_refines N (s : state) l o b l' :
  srep_list N s l → sl_spec N o l = Some (b, l') → ∃ s', sl_exec o s = Done b s' ∧ srep_list N s' l'.
Proof.
  intros (xs & R & <-) E. destruct o as [d v|v| |v| | | |v]; cbn [sl_exec sl_spec] in *.
  - destruct (in_range N v) eqn:Ev; simplify_eq.
    + destruct (append_spec N s xs d v R) as (a & s' & E & R'); [by apply in_range_spec|]. exists s'.
      rewrite (bind_done _ _ _ _ _ E). split; [done|]. exists (xs ++ [(a, (d, v))]). by rewrite fmap_app.
    + exists s. split; [|by exists xs]. rewrite (bind_done _ _ s tt s); [done|]. unfold append. rewrite (bind_done _ _ s s s) by done.
      destruct R as [_ _ _ _ [-> _] _ _]. unfold in_range in Ev. apply andb_false_iff in Ev.
      destruct (Z.ltb_spec v 0); [done|]. destruct (Z.leb_spec (Z.of_nat N) v); [done|lia].
  - destruct (in_range N v) eqn:Ev; simplify_eq. apply in_range_spec in Ev.
    destruct (popLevel_spec N s xs v R Ev) as (s' & xs' & E & R' & Ex & _). exists s'. rewrite (bind_done _ _ _ _ _ E).
    split; [done|]. by exists xs'.
  - destruct xs.*2 as [|x l] eqn:El; simplify_eq. destruct (pop_spec N s xs x l' R El) as (s' & xs' & E & R' & Ex).
    exists s'. rewrite (bind_done _ _ _ _ _ E). split; [done|]. by exists xs'.
  - destruct (in_range N v) eqn:Ev; simplify_eq. apply in_range_spec in Ev. destruct (level_of v xs.*2) as [|x l] eqn:El; simplify_eq/=.
    exists s. rewrite (bind_done _ _ _ _ _ (front_spec N s xs v x l R Ev El)). split; [done|]. by exists xs.
  - simplify_eq. exists s. rewrite (bind_done _ _ s (length (mMainList s)) s) by done. destruct R as [R1 R']. split; [|by exists xs].
    by rewrite R1, !length_fmap.
  - simplify_eq. destruct (flush_spec N s xs R) as (s' & E & R'). exists s'. rewrite (bind_done _ _ _ _ _ E). split; [done|]. by exists [].
  - simplify_eq. exists s. rewrite (bind_done _ _ _ _ _ (dump_spec N s xs R)). split; [done|]. by exists xs.
  - destruct (in_range N v) eqn:Ev; simplify_eq. apply in_range_spec in Ev. exists s.
    rewrite (bind_done _ _ _ _ _ (dumpLevel_spec N s xs v R Ev)). split; [done|]. by exists xs.
Qed.

(** C32: the skip list with its per-level links behaves as one list of (data, level)
    pairs: for every sequence of calls inside the contract (levels in range, front only
    of a level that is not empty, pop only of a list that is not empty), the code runs
    without undefined behaviour, every front, size and dump is that of the list, and in
    particular dump(level) is the filter of dump(). *)
Theorem SkipList_refines_list N os bs l :
  sl_specs N os [] = Some (bs, l) → ∃ s, sl_execs os (newSkipList N) = Done bs s ∧ srep_list N s l.
Proof.
  assert (∀ s l0, srep_list N s l0 → sl_specs N os l0 = Some (bs, l) → ∃ s', sl_execs os s = Done bs s' ∧ srep_list N s' l) as Hind.
  2: { apply Hind. exists []. split; [apply srep_new|done]. }
  revert bs. induction os as [|o os IH]; intros bs s l0 R E; cbn [sl_specs sl_execs] in *.
  { simplify_eq. by exists s. }
  destruct (sl_spec N o l0) as [[b l1]|] eqn:E1; [|done]. cbn in E. destruct (sl_specs N os l1) as [[bs' l2]|] eqn:E2; [|done].
  cbn in E. simplify_eq. destruct (sl_exec_refines N s l0 o b l1 R E1) as (s1 & X1 & R1).
  destruct (IH bs' s1 l1 R1 E2) as (s2 & X2 & R2). exists s2. rewrite (bind_done _ _ _ _ _ X1), (bind_done _ _ _ _ _ X2). done.
Qed.
End SkipList.

(** ** A concrete run *)
Lemma SkipList_refines_list_witness :
  ∃ s, sl_execs [OAppend 10 0; OAppend 11 1; OAppend 12 0; OPopLevel 0; OFront 0; ODump; ODumpLevel 1; OPop; OSize]%Z (newSkipList 2) =
    Done [BNone; BNone; BNone; BNone; BFront 12; BDump [(11, 1); (12, 0)]; BDump [(11, 1)]; BNone; BSize 1]%Z s ∧
    srep_list 2 s [(12, 0)]%Z.
Proof. apply SkipList_refines_list. reflexivity. Defined.
