(* ===== verification/LogBuffer.v ===== *)
(** * gps/utils/LogBuffer.cpp : the in-memory log, bounded per level in number and age.

    A client of the skip list.  Timestamps are uint64_t and their differences wrap;
    the configured thresholds are uint32_t and the counter is an int that is converted
    to unsigned when it is compared. *)
From Stdlib Require Import Sorted.
From stdpp Require Import pretty.
From S2P Require Import Prelude SkipList.

Definition TOTAL_LOG_LEVELS : nat := 5.
Definition TIME_DEPTH_THRESHOLD_MINIMAL_IN_SEC : Z := 60.
Definition MAXIMUM_NUM_IN_LIST : Z := 50.

Record ConfigsInLevel := Configs { mTimeDepthThres : Z; mMaxNumThres : Z; mCurrentSize : Z }.
Record logbuf := LB { mLogList : SkipList (Z * string); mConfigVec : list ConfigsInLevel }.

Definition mLevelMap : list string := ["E"; "W"; "I"; "D"; "V"].

(** A method of [mLogList]. *)
Definition on_list {A} (m : M (SkipList (Z * string)) A) : M logbuf A := λ s,
  match m (mLogList s) with
  | Done a l => Done a (LB l (mConfigVec s))
  | UB => UB
  | NoFuel => NoFuel
  end.

(** [mConfigVec[level]] *)
Definition config (level : Z) : M logbuf ConfigsInLevel := λ s,
  if (level <? 0)%Z then UB else match mConfigVec s !! Z.to_nat level with Some c => Done c s | None => UB end.
Definition set_config (level : Z) (c : ConfigsInLevel) : M logbuf unit :=
  modify (λ s, LB (mLogList s) (<[Z.to_nat level := c]> (mConfigVec s))).
Definition set_size (n : Z) (c : ConfigsInLevel) : ConfigsInLevel := Configs (mTimeDepthThres c) (mMaxNumThres c) n.

(** [conf] is what the configuration file sets for each level: time depth and capacity. *)
Definition newLogBuffer (conf : list (option Z * option Z)) : logbuf :=
  LB (newSkipList TOTAL_LOG_LEVELS)
     ((λ p, Configs (default TIME_DEPTH_THRESHOLD_MINIMAL_IN_SEC p.1) (default MAXIMUM_NUM_IN_LIST p.2) 0) <$> conf).

(** The condition of the loop; the front is read first. *)
Definition over (level timestamp : Z) : M logbuf bool :=
  f ← on_list (front level);
  c ← config level;
  mret ((mTimeDepthThres c <? uwrap 64 (timestamp - f.1))%Z || (mMaxNumThres c <? uwrap 32 (mCurrentSize c))%Z).

Fixpoint append_loop (fuel : nat) (level timestamp : Z) : M logbuf unit :=
  match fuel with
  | O => nofuel
  | S fuel =>
      b ← over level timestamp;
      if b : bool then
        _ ← on_list (popLevel level);
        c ← config level;
        _ ← set_config level (set_size (mCurrentSize c - 1) c);
        append_loop fuel level timestamp
      else mret tt
  end.

(** The loop runs at most once per element of the list. *)
Definition append (data : string) (level timestamp : Z) : M logbuf unit :=
  _ ← on_list (SkipList.append (timestamp, data) level);
  c ← config level;
  _ ← set_config level (set_size (mCurrentSize c + 1) c);
  n ← on_list size;
  append_loop (S n) level timestamp.

(** The lines given to the callback, which is not null for the callers there are;
    indexing [mLevelMap] out of its range is undefined. *)
Definition endl : string := String (Ascii.ascii_of_nat 10) "".
Definition dump_line (item : Z * string * Z) : M logbuf string :=
  if (item.2 <? 0)%Z then ub
  else match mLevelMap !! Z.to_nat item.2 with
       | Some name => mret ("[" +:+ pretty item.1.1 +:+ "] Level " +:+ name +:+ ": " +:+ item.1.2 +:+ endl)%string
       | None => ub
       end.
Fixpoint dump_lines (li : list (Z * string * Z)) : M logbuf (list string) :=
  match li with
  | [] => mret []
  | item :: li => line ← dump_line item; rest ← dump_lines li; mret (line :: rest)
  end.
Definition dump (level : Z) : M logbuf (list string) :=
  li ← (if (level =? -1)%Z then on_list SkipList.dump else on_list (dumpLevel level));
  let ln := ("dump log buffer, level[" +:+ pretty level +:+ "], buffer size: " +:+ pretty (length li) +:+ endl)%string in
  lines ← dump_lines li;
  mret (ln :: lines).

Definition flush : M logbuf unit := on_list SkipList.flush.

(** * Specification *)
Definition entry : Type := Z * string * Z.

(** What the loop leaves of the entries of a level. *)
Fixpoint trim (timestamp depth cap : Z) (es : list entry) : list entry :=
  match es with
  | [] => []
  | e :: es' =>
      if (depth <? uwrap 64 (timestamp - e.1.1))%Z || (cap <? Z.of_nat (length es))%Z
      then trim timestamp depth cap es' else es
  end.

(** The counter of a level counts its entries, and the thresholds are proper. *)
Definition config_ok (l : list entry) (v : nat) (c : ConfigsInLevel) : Prop :=
  mCurrentSize c = Z.of_nat (length (level_of (Z.of_nat v) l)) ∧ (0 ≤ mTimeDepthThres c)%Z ∧ (1 ≤ mMaxNumThres c < 2 ^ 31)%Z ∧
  (mCurrentSize c ≤ mMaxNumThres c)%Z.

Definition lb_inv (s : logbuf) (l : list entry) : Prop :=
  srep_list TOTAL_LOG_LEVELS (mLogList s) l ∧ length (mConfigVec s) = TOTAL_LOG_LEVELS ∧
  ∀ v c, mConfigVec s !! v = Some c → config_ok l v c.

Lemma level_of_app {T} v (l1 l2 : list (T * Z)) : level_of v (l1 ++ l2) = level_of v l1 ++ level_of v l2.
Proof. apply filter_app. Qed.

Lemma level_of_single {T} v (x : T * Z) : level_of v [x] = if decide (x.2 = v) then [x] else [].
Proof. unfold level_of. rewrite filter_cons. by destruct (decide _). Qed.

Lemma level_of_length {T} v (l : list (T * Z)) : length (level_of v l) ≤ length l.
Proof. apply length_filter. Qed.

Lemma level_of_pop {T} u v (l : list (T * Z)) :
  level_of u (pop_first v l) = if decide (u = v) then tail (level_of u l) else level_of u l.
Proof.
  unfold level_of. induction l as [|x l IH]; [by destruct (decide _)|]. cbn [pop_first]. rewrite !filter_cons.
  destruct (decide (x.2 = v)) as [Hv|Hv], (decide (x.2 = u)) as [Hu|Hu]; rewrite ?filter_cons; destruct (decide (u = v)); cbn; try congruence.
  - rewrite decide_True by done. by rewrite IH.
  - rewrite decide_False by done. by rewrite IH.
  - rewrite decide_False by done. by rewrite IH.
Qed.

Lemma config_done s v c : (0 ≤ v)%Z → mConfigVec s !! Z.to_nat v = Some c → config v s = Done c s.
Proof. intros Hv E. unfold config. destruct (Z.ltb_spec v 0); [lia|]. by rewrite E. Qed.

Lemma on_list_done {A} (m : M (SkipList (Z * string)) A) s a l :
  m (mLogList s) = Done a l → on_list m s = Done a (LB l (mConfigVec s)).
Proof. intros E. unfold on_list. by rewrite E. Qed.

Lemma append_loop_spec fuel s l v ts c es e :
  srep_list TOTAL_LOG_LEVELS (mLogList s) l → (0 ≤ v < Z.of_nat TOTAL_LOG_LEVELS)%Z →
  mConfigVec s !! Z.to_nat v = Some c → level_of v l = es ++ [e] → e.1.1 = ts →
  mCurrentSize c = Z.of_nat (length (es ++ [e])) → (mCurrentSize c < 2 ^ 32)%Z → (0 ≤ mTimeDepthThres c)%Z →
  (1 ≤ mMaxNumThres c)%Z → length es < fuel →
  ∃ s' l', append_loop fuel v ts s = Done tt s' ∧ srep_list TOTAL_LOG_LEVELS (mLogList s') l' ∧
    level_of v l' = trim ts (mTimeDepthThres c) (mMaxNumThres c) (es ++ [e]) ∧ (∀ u, u ≠ v → level_of u l' = level_of u l) ∧
    mConfigVec s' = <[Z.to_nat v := set_size (Z.of_nat (length (level_of v l'))) c]> (mConfigVec s).
Proof.
  revert s l c es. induction fuel as [|fuel IH]; intros s l c es (xs & R & <-) Hv Hc Hes Hts Hcnt Hc32 Hd Hm Hf; [lia|].
  cbn [append_loop]. destruct (es ++ [e]) as [|x rest] eqn:El; [by destruct es|].
  assert (over v ts s = Done ((mTimeDepthThres c <? uwrap 64 (ts - x.1.1))%Z || (mMaxNumThres c <? Z.of_nat (length (x :: rest)))%Z) s) as Eo.
  { unfold over. rewrite (bind_done _ _ s x.1 s).
    - rewrite (bind_done _ _ s c s) by (apply config_done; [lia|done]). rewrite (uwrap_small 32 (mCurrentSize c)) by lia. by rewrite Hcnt.
    - rewrite (on_list_done _ s x.1 (mLogList s)); [by destruct s|]. by eapply front_spec. }
  rewrite (bind_done _ _ _ _ _ Eo). cbn [trim]. destruct (_ || _) eqn:Eb.
  - destruct es as [|x0 es].
    { cbn in El. simplify_eq. exfalso. rewrite Z.sub_diag in Eb. unfold uwrap in Eb. rewrite Z.mod_0_l in Eb by lia.
      apply orb_true_iff in Eb as [Eb|Eb]; apply Z.ltb_lt in Eb; cbn in Eb; lia. }
    cbn [app] in El. simplify_eq. destruct (popLevel_spec _ _ _ v R Hv) as (sl & xs' & Ep & R' & Ex & _).
    rewrite (bind_done _ _ _ _ _ (on_list_done _ s _ _ Ep)). set (s1 := LB sl (mConfigVec s)).
    rewrite (bind_done _ _ s1 c s1) by (apply config_done; [lia|done]).
    set (c1 := set_size (mCurrentSize c - 1) c). set (s2 := LB sl (<[Z.to_nat v := c1]> (mConfigVec s))).
    rewrite (bind_done _ _ s1 tt s2) by done.
    assert (Z.to_nat v < length (mConfigVec s)) as Hlt by (by eapply lookup_lt_Some).
    assert (level_of v xs'.*2 = es ++ [e]) as Hes'.
    { rewrite Ex, level_of_pop, decide_True, Hes by done. done. }
    destruct (IH s2 xs'.*2 c1 es) as (s' & l' & E & Hr & Htr & Hoth & Hcv); try done.
    + by exists xs'.
    + cbn. by rewrite list_lookup_insert_eq.
    + cbn [mCurrentSize c1 set_size]. rewrite Hcnt. cbn [length]. lia.
    + cbn [mCurrentSize c1 set_size]. lia.
    + cbn [length] in Hf. lia.
    + exists s', l'. split_and!; try done.
      * intros u Hu. rewrite Hoth by done. by rewrite Ex, level_of_pop, decide_False.
      * rewrite Hcv. cbn [mConfigVec s2]. by rewrite list_insert_insert_eq.
  - exists s, xs.*2. split_and!; [done|by exists xs|done|done|]. rewrite Hes, <-Hcnt.
    rewrite list_insert_id; [done|]. rewrite Hc. by destruct c.
Qed.

(** Reading the front of an empty level. *)
Lemma over_empty s xs v ts :
  srep TOTAL_LOG_LEVELS (mLogList s) xs → (0 ≤ v < Z.of_nat TOTAL_LOG_LEVELS)%Z → level_of v xs.*2 = [] → over v ts s = UB.
Proof.
  intros R Hv El. unfold over, mbind, M_bind, on_list. by rewrite (front_empty _ _ xs v R Hv El).
Qed.

(** Facts about the trimmed list. *)
Lemma trim_suffix ts d m es : ∃ k, trim ts d m es = drop k es.
Proof.
  induction es as [|e es [k IH]]; [by exists 0|]. cbn [trim]. destruct (_ || _); [exists (S k); done|by exists 0].
Qed.

Lemma trim_cap ts d m es : (0 ≤ m)%Z → (Z.of_nat (length (trim ts d m es)) ≤ m)%Z.
Proof.
  intros Hm. induction es as [|e es IH]; [done|]. cbn [trim]. destruct (_ || _) eqn:E; [done|].
  apply orb_false_iff in E as [_ E]. lia.
Qed.

Lemma trim_last ts d m es e :
  (0 ≤ d)%Z → (1 ≤ m)%Z → e.1.1 = ts → ∃ es', trim ts d m (es ++ [e]) = es' ++ [e].
Proof.
  intros Hd Hm He. induction es as [|x es IH]; cbn [app trim].
  - exists []. rewrite He, Z.sub_diag. unfold uwrap. rewrite Z.mod_0_l by lia. cbn [length].
    destruct (Z.ltb_spec d 0); [lia|]. destruct (Z.ltb_spec m (Z.of_nat 1)); [lia|done].
  - destruct (_ || _); [done|]. by exists (x :: es).
Qed.

(** With timestamps that do not decrease, no remaining entry is too old. *)
Lemma trim_age ts d m es :
  (∀ e, e ∈ es → (0 ≤ e.1.1 ≤ ts)%Z) → (ts < 2 ^ 64)%Z → StronglySorted (λ e1 e2 : entry, (e1.1.1 ≤ e2.1.1)%Z) es →
  ∀ e, e ∈ trim ts d m es → (ts - e.1.1 ≤ d)%Z.
Proof.
  intros Hr Hts Hs. induction Hs as [|x es Hs IH Hx]; [set_solver|]. cbn [trim]. destruct (_ || _) eqn:E; [apply IH; intros; apply Hr; by right|].
  apply orb_false_iff in E as [E _]. destruct (Hr x) as [H0 H1]; [by left|]. rewrite uwrap_small in E by lia.
  intros e He. apply elem_of_cons in He as [->|He]; [lia|]. rewrite Forall_forall in Hx. specialize (Hx e He). lia.
Qed.

Lemma lb_append_spec s l data v ts :
  lb_inv s l → (0 ≤ v < Z.of_nat TOTAL_LOG_LEVELS)%Z →
  ∃ s' l' c, append data v ts s = Done tt s' ∧ mConfigVec s !! Z.to_nat v = Some c ∧ lb_inv s' l' ∧
    level_of v l' = trim ts (mTimeDepthThres c) (mMaxNumThres c) (level_of v l ++ [((ts, data), v)]) ∧
    (∀ u, u ≠ v → level_of u l' = level_of u l).
Proof.
  intros ((xs & R & <-) & Hlen & Hcs) Hv. unfold append. set (e := ((ts, data), v)).
  destruct (SkipList.append_spec _ _ _ (ts, data) v R Hv) as (a & sl & E & R').
  rewrite (bind_done _ _ _ _ _ (on_list_done _ s _ _ E)). set (s1 := LB sl (mConfigVec s)).
  assert (is_Some (mConfigVec s !! Z.to_nat v)) as [c Hc] by (apply lookup_lt_is_Some; lia).
  destruct (Hcs _ _ Hc) as (C1 & C2 & C3 & C4). rewrite Z2Nat.id in C1 by lia.
  rewrite (bind_done _ _ s1 c s1) by (apply config_done; [lia|done]).
  set (c1 := set_size (mCurrentSize c + 1) c). set (s2 := LB sl (<[Z.to_nat v := c1]> (mConfigVec s))).
  rewrite (bind_done _ _ s1 tt s2) by done.
  rewrite (bind_done _ _ s2 (length (mMainList sl)) s2) by done.
  assert (level_of v (xs ++ [(a, e)]).*2 = level_of v xs.*2 ++ [e]) as Hlv.
  { rewrite fmap_app, level_of_app. f_equal. cbn [fmap list_fmap snd]. rewrite level_of_single. by rewrite decide_True. }
  destruct (append_loop_spec (S (length (mMainList sl))) s2 (xs ++ [(a, e)]).*2 v ts c1 (level_of v xs.*2) e)
    as (s' & l' & El & Hr & Htr & Hoth & Hcv); try done.
  - by exists (xs ++ [(a, e)]).
  - cbn. rewrite list_lookup_insert_eq by lia. done.
  - cbn [mCurrentSize c1 set_size]. rewrite C1, length_app. cbn [length]. lia.
  - cbn [mCurrentSize c1 set_size]. lia.
  - cbn [mMaxNumThres c1 set_size]. lia.
  - destruct R' as [-> _ _ _ _ _ _]. rewrite length_fmap, length_app. cbn [length].
    pose proof (level_of_length v xs.*2) as Hll. rewrite length_fmap in Hll. lia.
  - assert (∀ u, u ≠ v → level_of u l' = level_of u xs.*2) as Hoth'.
    { intros u Hu. rewrite Hoth by done. rewrite fmap_app, level_of_app. cbn [fmap list_fmap snd]. rewrite level_of_single.
      rewrite decide_False by done. by rewrite app_nil_r. }
    exists s', l', c. assert (lb_inv s' l') as Hinv; [|split_and!; try done; by rewrite <-Hlv]. unfold lb_inv. rewrite Hcv. cbn [mConfigVec s2].
    rewrite list_insert_insert_eq. split_and!; [done|by rewrite length_insert|].
    + intros u cu Hu. destruct (decide (u = Z.to_nat v)) as [->|Hne].
      * rewrite list_lookup_insert_eq in Hu by lia. simplify_eq. unfold config_ok. rewrite Z2Nat.id by lia. cbn. split_and!; try done; try lia.
        rewrite Htr. apply trim_cap. cbn. lia.
      * rewrite list_lookup_insert_ne in Hu by done. destruct (Hcs u cu Hu) as (D1 & D2 & D3 & D4). unfold config_ok.
        rewrite Hoth' by lia. done.
Qed.

Lemma lb_inv_new conf :
  length conf = TOTAL_LOG_LEVELS →
  Forall (λ p, (0 ≤ default TIME_DEPTH_THRESHOLD_MINIMAL_IN_SEC p.1)%Z ∧ (1 ≤ default MAXIMUM_NUM_IN_LIST p.2 < 2 ^ 31)%Z) conf →
  lb_inv (newLogBuffer conf) [].
Proof.
  intros Hl Hc. split_and!; [exists []; split; [apply srep_new|done]|cbn; by rewrite length_fmap|].
  intros v c Hv. cbn in Hv. rewrite list_lookup_fmap in Hv. destruct (conf !! v) as [p|] eqn:Ep; simplify_eq/=.
  eapply Forall_lookup_1 in Hc; [|exact Ep]. destruct Hc. unfold config_ok. cbn. split_and!; try done; lia.
Qed.

(** * Properties *)

(** Appending to the log keeps it within its bounds: the new entry is kept as the
    newest of its level, the level then holds at most its configured capacity, what it
    dropped are its oldest entries (those the age or the capacity rule rejects, in
    order), if the timestamps of the level do not decrease no remaining entry is older
    than the configured depth, the other levels and the counters stay right. *)
Theorem LogBuffer_append_bounded s l data v ts :
  lb_inv s l → (0 ≤ v < Z.of_nat TOTAL_LOG_LEVELS)%Z →
  ∃ s' l' c es, append data v ts s = Done tt s' ∧ lb_inv s' l' ∧ mConfigVec s !! Z.to_nat v = Some c ∧
    level_of v l' = trim ts (mTimeDepthThres c) (mMaxNumThres c) (level_of v l ++ [((ts, data), v)]) ∧
    level_of v l' = es ++ [((ts, data), v)] ∧ (Z.of_nat (length (level_of v l')) ≤ mMaxNumThres c)%Z ∧
    (∀ u, u ≠ v → level_of u l' = level_of u l) ∧
    ((∀ e, e ∈ level_of v l → (0 ≤ e.1.1 ≤ ts)%Z) → (0 ≤ ts < 2 ^ 64)%Z →
     StronglySorted (λ e1 e2 : entry, (e1.1.1 ≤ e2.1.1)%Z) (level_of v l ++ [((ts, data), v)]) →
     ∀ e, e ∈ level_of v l' → (ts - e.1.1 ≤ mTimeDepthThres c)%Z).
Proof.
  intros Hinv Hv. destruct (lb_append_spec s l data v ts Hinv Hv) as (s' & l' & c & E & Hc & Hinv' & Htr & Hoth).
  destruct Hinv as (_ & _ & Hcs). destruct (Hcs _ _ Hc) as (_ & C2 & C3 & _).
  destruct (trim_last ts (mTimeDepthThres c) (mMaxNumThres c) (level_of v l) ((ts, data), v)) as [es Hes]; [done|lia|done|].
  exists s', l', c, es. split_and!; try done; [congruence|rewrite Htr; apply trim_cap; lia|].
  intros Hr Hts Hs e He. rewrite Htr in He. eapply trim_age; [..|exact He]; [|lia|done].
  intros e' He'. apply elem_of_app in He' as [He'|He']; [by apply Hr|]. apply list_elem_of_singleton in He' as ->. cbn. lia.
Qed.

(** Flush empties the list but not the counters, so after a flush of a level that
    was full the next append to it empties the list in its loop and then reads the front
    of an empty level, which is undefined. *)
Theorem LogBuffer_flush_breaks_append s l data v ts c :
  lb_inv s l → (0 ≤ v < Z.of_nat TOTAL_LOG_LEVELS)%Z → mConfigVec s !! Z.to_nat v = Some c →
  mCurrentSize c = mMaxNumThres c →
  ∃ s1, flush s = Done tt s1 ∧ append data v ts s1 = UB.
Proof.
  intros ((xs & R & <-) & Hlen & Hcs) Hv Hc Hfull. destruct (Hcs _ _ Hc) as (C1 & C2 & C3 & C4).
  destruct (SkipList.flush_spec _ _ _ R) as (sl & Ef & R0). exists (LB sl (mConfigVec s)).
  split; [by apply on_list_done|]. unfold append.
  destruct (SkipList.append_spec _ _ _ (ts, data) v R0 Hv) as (a & sl1 & E & R1). cbn [app] in R1.
  rewrite (bind_done _ _ _ _ _ (on_list_done _ (LB sl (mConfigVec s)) _ _ E)). cbn [mConfigVec]. set (s1 := LB sl1 (mConfigVec s)).
  rewrite (bind_done _ _ s1 c s1) by (apply config_done; [lia|done]).
  set (c1 := set_size (mCurrentSize c + 1) c). set (s2 := LB sl1 (<[Z.to_nat v := c1]> (mConfigVec s))).
  rewrite (bind_done _ _ s1 tt s2) by done. rewrite (bind_done _ _ s2 (length (mMainList sl1)) s2) by done.
  rewrite (r_main _ _ _ R1). cbn [length fmap list_fmap append_loop].
  assert (Z.to_nat v < length (mConfigVec s)) as Hlt by lia.
  assert (mConfigVec s2 !! Z.to_nat v = Some c1) as Hc1 by (cbn; by rewrite list_lookup_insert_eq).
  assert (level_of v [(a, (ts, data, v))].*2 = [((ts, data), v)]) as Hlv.
  { cbn [fmap list_fmap snd]. rewrite level_of_single. by rewrite decide_True. }
  assert (over v ts s2 = Done true s2) as Eo.
  { unfold over. rewrite (bind_done _ _ s2 (ts, data) s2).
    - rewrite (bind_done _ _ s2 c1 s2) by (apply config_done; [lia|done]). rewrite (uwrap_small 32 (mCurrentSize c1)) by (cbn; lia).
      cbn [mCurrentSize mMaxNumThres c1 set_size]. unfold mret, M_ret. f_equal. apply orb_true_iff. right. lia.
    - rewrite (on_list_done _ s2 (ts, data) sl1); [done|]. by apply (front_spec _ _ _ v (ts, data, v) [] R1 Hv). }
  rewrite (bind_done _ _ _ _ _ Eo). destruct (popLevel_spec _ _ _ v R1 Hv) as (sl2 & xs' & Ep & R2 & Ex & _).
  rewrite (bind_done _ _ _ _ _ (on_list_done _ s2 _ _ Ep)). set (s3 := LB sl2 _).
  rewrite (bind_done _ _ s3 c1 s3) by (apply config_done; [lia|done]).
  set (s4 := LB sl2 (<[Z.to_nat v := set_size (mCurrentSize c1 - 1) c1]> (mConfigVec s3))).
  rewrite (bind_done _ _ s3 tt s4) by done. unfold mbind at 1, M_bind at 1.
  rewrite (over_empty s4 xs' v ts R2 Hv); [done|]. by rewrite Ex, level_of_pop, decide_True, Hlv by done.
Qed.

(** ** Concrete runs *)
Definition wit_log : logbuf := newLogBuffer (replicate 5 (None, Some 1%Z)).

Lemma wit_log_inv : lb_inv wit_log [].
Proof. apply lb_inv_new; [reflexivity|]. repeat constructor; vm_compute; discriminate. Qed.

Lemma LogBuffer_append_bounded_witness :
  ∃ s' l', append "x" 0 100 wit_log = Done tt s' ∧ lb_inv s' l' ∧ level_of 0 l' = [((100, "x"%string), 0)]%Z.
Proof.
  destruct (LogBuffer_append_bounded wit_log [] "x" 0 100 wit_log_inv) as (s' & l' & c & es & E & Hi & Hc & Ht & He & Hb & _);
    [vm_compute; split; [discriminate|reflexivity]|].
  exists s', l'. split; [exact E|]. split; [exact Hi|]. injection Hc as <-. exact Ht.
Defined.

Definition wit_full : logbuf := default wit_log (outcome_state (append "x" 0 100 wit_log)).

Lemma LogBuffer_flush_breaks_append_witness :
  ∃ s1, flush wit_full = Done tt s1 ∧ append "y" 0 101 s1 = UB.
Proof.
  destruct (lb_append_spec wit_log [] "x" 0 100 wit_log_inv) as (s' & l' & c & E & _ & Hi & _); [vm_compute; split; [discriminate|reflexivity]|].
  assert (s' = wit_full) as -> by (unfold wit_full; rewrite E; reflexivity).
  apply (LogBuffer_flush_breaks_append wit_full l' "y" 0 101 (Configs 60 1 1) Hi);
    [vm_compute; split; [discriminate|reflexivity]|vm_compute; reflexivity|reflexivity].
Defined.
