(* ===== verification/LocTimer.v ===== *)
(** * gps/utils/LocTimer.cpp : timers multiplexed on one timerfd per container.

    A client of the heap, through the class [RankOrder].  Three kinds of thread act on
    the timers: clients call start, stop and the C wrappers (each under the lock of the
    timer, one step), the poll thread handles an expired fd (one step per call it makes),
    and the message task is the only one that touches the heaps (one step per message,
    and MsgTimerExpire one step per call on the client, which other threads may race).
    Delegates and timers are objects on a store, so a use after delete is [UB].  The
    kernel's part of a container is what its fd is armed with and whether epoll has it. *)
From Stdlib Require Import Sorted.
From S2P Require Import Prelude LocHeap.

(** struct timespec *)
Record timespec := TS { tv_sec : Z; tv_nsec : Z }.
#[export] Instance timespec_eq_dec : EqDecision timespec.
Proof. solve_decision. Defined.

(** A LocTimerDelegate* together with the mFutureTime of the object, which never changes. *)
Record timer_ref := Ref { t_addr : addr; t_time : timespec }.
#[export] Instance timer_ref_eq_dec : EqDecision timer_ref.
Proof. solve_decision. Defined.

(** A LocTimerDelegate; a container is named by its wakeOnExpire. *)
Record LocTimerDelegate := Delegate { mClient : ptr; mContainer : option bool; mFutureTime : timespec }.

(** A LocTimer, and whether it is a LocTimerWrapper. *)
Record LocTimer := Timer { mTimer : option timer_ref; wrapper : bool }.

(** A LocTimerContainer; [fd] is what mDevFd is armed with, [polled] whether the poll task polls it. *)
Record LocTimerContainer := Cont { mTree : LocHeapNode timer_ref; fd : option timespec; polled : bool }.

Inductive LocMsg :=
  | MsgTimerPush (w : bool) (d : timer_ref)
  | MsgTimerRemove (w : bool) (d : timer_ref)
  | MsgTimerExpire (w : bool).

(** What is left of the calls of [expire] in the poll thread. *)
Inductive poll_call := PSettime (w : bool) | PRemovePoll (w : bool) | PSend (w : bool).

(** Where the message task is: between messages, or in MsgTimerExpire at the test of the
    loop, or in the delegate's expire before stop, before timeOutCallback, or in the
    wrapper's callback before destroy. *)
Inductive task_pc :=
  | Idle
  | Loop (w : bool) (now : timespec) (timer : option timer_ref)
  | Stopping (w : bool) (now : timespec) (client : addr)
  | Calling (w : bool) (now : timespec) (client : addr)
  | Destroying (w : bool) (now : timespec) (client : addr).

Inductive event :=
  | EStart (c : addr)        (* start returned true *)
  | EStop (c : addr)         (* a client's stop returned true *)
  | ECallback (c : addr).    (* timeOutCallback *)

#[export] Instance event_eq_dec : EqDecision event.
Proof. solve_decision. Defined.

Record world := World {
  timers : gmap addr LocTimer;
  delegates : gmap addr LocTimerDelegate;
  containers : gmap bool LocTimerContainer;
  msgs : list LocMsg;
  poll : list poll_call;
  task : task_pc;
  log : list event;
}.

Definition init : world := World ∅ ∅ ∅ [] [] Idle [].

(** ** Accessors *)
Definition load_timer (c : addr) : M world LocTimer := deref (λ s, timers s !! c).
Definition load_delegate (d : timer_ref) : M world LocTimerDelegate := deref (λ s, delegates s !! t_addr d).
Definition load_container (w : bool) : M world LocTimerContainer := deref (λ s, containers s !! w).
Definition set_timers (f : gmap addr LocTimer → gmap addr LocTimer) : M world unit :=
  modify (λ s, World (f (timers s)) (delegates s) (containers s) (msgs s) (poll s) (task s) (log s)).
Definition set_delegates (f : gmap addr LocTimerDelegate → gmap addr LocTimerDelegate) : M world unit :=
  modify (λ s, World (timers s) (f (delegates s)) (containers s) (msgs s) (poll s) (task s) (log s)).
Definition set_container (w : bool) (k : LocTimerContainer) : M world unit :=
  modify (λ s, World (timers s) (delegates s) (<[w := k]> (containers s)) (msgs s) (poll s) (task s) (log s)).
Definition set_msgs (q : list LocMsg) : M world unit :=
  modify (λ s, World (timers s) (delegates s) (containers s) q (poll s) (task s) (log s)).
Definition set_poll (p : list poll_call) : M world unit :=
  modify (λ s, World (timers s) (delegates s) (containers s) (msgs s) p (task s) (log s)).
Definition set_task (p : task_pc) : M world unit :=
  modify (λ s, World (timers s) (delegates s) (containers s) (msgs s) (poll s) p (log s)).
Definition emit (e : event) : M world unit :=
  modify (λ s, World (timers s) (delegates s) (containers s) (msgs s) (poll s) (task s) (log s ++ [e])).
Definition sendMsg (m : LocMsg) : M world unit := s ← get; set_msgs (msgs s ++ [m]).

(** ** LocTimerDelegate::ranks : differences of 64-bit longs kept in an int *)
Definition ranks_time (this timer : timespec) : Z :=
  let rank := swrap 32 (tv_sec timer - tv_sec this) in
  if (rank =? 0)%Z then swrap 32 (tv_nsec timer - tv_nsec this) else rank.
#[export] Instance timespec_rankable : LocRankable timespec := ranks_time.
#[export] Instance timer_rankable : LocRankable timer_ref := λ x y, ranks (t_time x) (t_time y).

(** ** LocTimerContainer *)
(** timerfd_settime with an absolute time; zero disarms. *)
Definition timerfd_settime (w : bool) (t : timespec) : M world unit :=
  k ← load_container w;
  set_container w (Cont (mTree k) (if decide (t = TS 0 0) then None else Some t) (polled k)).
Definition addPoll (w : bool) : M world unit :=
  k ← load_container w; set_container w (Cont (mTree k) (fd k) true).
Definition removePoll (w : bool) : M world unit :=
  k ← load_container w; set_container w (Cont (mTree k) (fd k) false).
Definition set_tree (w : bool) (t : LocHeapNode timer_ref) : M world unit :=
  k ← load_container w; set_container w (Cont t (fd k) (polled k)).

(** The factory; [ok] is whether timerfd_create succeeds. *)
Definition get_container (wakeOnExpire ok : bool) : M world bool :=
  s ← get;
  match containers s !! wakeOnExpire with
  | Some _ => mret true
  | None => if ok then _ ← set_container wakeOnExpire (Cont Null None false); mret true else mret false
  end.

Definition getSoonestTimer (w : bool) : M world (option timer_ref) := k ← load_container w; mret (peek (mTree k)).

Definition updateSoonestTime (w : bool) (priorTop : option timer_ref) : M world unit :=
  curTop ← getSoonestTimer w;
  if decide (curTop = priorTop) then mret tt
  else
    match curTop with
    | None => _ ← removePoll w; timerfd_settime w (TS 0 0)
    | Some top =>
        if (match priorTop with None => true | Some p => outRanks top p end)
        then _ ← addPoll w; timerfd_settime w (t_time top)
        else mret tt
    end.

Definition proc_Push (w : bool) (d : timer_ref) : M world unit :=
  priorTop ← getSoonestTimer w;
  _ ← load_delegate d;
  k ← load_container w;
  _ ← set_tree w (push (mTree k) d);
  updateSoonestTime w priorTop.

(** The heap's remove compares the addresses and ranks of live objects. *)
Definition proc_Remove (w : bool) (d : timer_ref) : M world unit :=
  priorTop ← getSoonestTimer w;
  _ ← load_delegate d;
  k ← load_container w;
  let '(r, t) := remove (mTree k) d in
  _ ← set_tree w t;
  _ ← (if decide (priorTop = r) then updateSoonestTime w None else mret tt);
  set_delegates (delete (t_addr d)).

Definition heap_pop (w : bool) : M world (option timer_ref) :=
  k ← load_container w;
  let '(r, t) := pop (mTree k) in
  _ ← set_tree w t; mret r.

Definition popIfOutRanks (w : bool) (timer : timespec) : M world (option timer_ref) :=
  top ← getSoonestTimer w;
  match top with
  | Some x => if negb (outRanks timer (t_time x)) then heap_pop w else mret None
  | None => mret None
  end.

(** ** LocTimerDelegate *)
Definition newLocTimerDelegate (client : addr) (futureTime : timespec) (w : bool) : M world timer_ref :=
  s ← get;
  let d := Ref (fresh (dom (delegates s))) futureTime in
  _ ← set_delegates <[t_addr d := Delegate (Some client) (Some w) futureTime]>;
  _ ← sendMsg (MsgTimerPush w d);
  mret d.

Definition destroyLocked (d : timer_ref) : M world unit :=
  o ← load_delegate d;
  _ ← set_delegates <[t_addr d := Delegate None (mContainer o) (mFutureTime o)]>;
  match mContainer o with
  | Some w =>
      _ ← set_delegates <[t_addr d := Delegate None None (mFutureTime o)]>;
      sendMsg (MsgTimerRemove w d)
  | None => mret tt
  end.

(** ** LocTimer *)
Definition future_time (now : timespec) (timeOutInMs : Z) : timespec :=
  let sec := (tv_sec now + timeOutInMs / 1000)%Z in
  let nsec := (tv_nsec now + timeOutInMs mod 1000 * 1000000)%Z in
  if (1000000000 <=? nsec)%Z then TS (sec + nsec / 1000000000) (nsec mod 1000000000) else TS sec nsec.

Definition set_mTimer (c : addr) (p : option timer_ref) : M world unit :=
  t ← load_timer c; set_timers <[c := Timer p (wrapper t)]>.

Definition start (c : addr) (timeOutInMs : Z) (wakeOnExpire : bool) (now : timespec) (ok : bool) : M world bool :=
  t ← load_timer c;
  if is_null (mTimer t) then
    container ← get_container wakeOnExpire ok;
    _ ← (if container : bool then
           d ← newLocTimerDelegate c (future_time now timeOutInMs) wakeOnExpire;
           _ ← set_mTimer c (Some d); emit (EStart c)
         else mret tt);
    t ← load_timer c;
    mret (negb (is_null (mTimer t)))
  else mret false.

Definition stop (c : addr) : M world bool :=
  t ← load_timer c;
  match mTimer t with
  | Some timer =>
      _ ← set_mTimer c None;
      _ ← destroyLocked timer;
      mret true
  | None => mret false
  end.

(** A client's call of stop, recorded. *)
Definition user_stop (c : addr) : M world bool :=
  b ← stop c; _ ← (if b : bool then emit (EStop c) else mret tt); mret b.

(** The constructor and the destructor. *)
Definition newLocTimer (is_wrapper : bool) : M world addr :=
  s ← get;
  let c := fresh (dom (timers s)) in
  _ ← set_timers <[c := Timer None is_wrapper]>; mret c.
Definition deleteLocTimer (c : addr) : M world unit :=
  _ ← user_stop c; set_timers (delete c).

(** ** LocTimerWrapper and the C interface; the callback is not NULL *)
Definition destroy (c : addr) : M world unit := _ ← load_timer c; deleteLocTimer c.
Definition loc_timer_start (msec : Z) (wake_on_expire : bool) (now : timespec) (ok : bool) : M world addr :=
  c ← newLocTimer true;
  _ ← start c (uwrap 32 msec) wake_on_expire now ok;
  mret c.
Definition loc_timer_stop (handle : addr) : M world unit := destroy handle.

(** ** The threads *)
Definition loop_next (w : bool) (now : timespec) : M world unit :=
  next ← popIfOutRanks w now; set_task (Loop w now next).

(** One step of the message task; [clock] is what clock_gettime returns in this step. *)
Definition task_step (clock : timespec) : M world unit :=
  s ← get;
  match task s with
  | Idle =>
      match msgs s with
      | [] => mret tt
      | MsgTimerPush w d :: q => _ ← set_msgs q; proc_Push w d
      | MsgTimerRemove w d :: q => _ ← set_msgs q; proc_Remove w d
      | MsgTimerExpire w :: q => _ ← set_msgs q; timer ← heap_pop w; set_task (Loop w clock timer)
      end
  | Loop w now None => _ ← updateSoonestTime w None; set_task Idle
  | Loop w now (Some timer) =>
      o ← load_delegate timer;
      match mClient o with
      | Some client => set_task (Stopping w now client)
      | None => loop_next w now
      end
  | Stopping w now client =>
      b ← stop client;
      if b : bool then set_task (Calling w now client) else loop_next w now
  | Calling w now client =>
      t ← load_timer client;
      _ ← emit (ECallback client);
      if wrapper t then set_task (Destroying w now client) else loop_next w now
  | Destroying w now client => _ ← destroy client; loop_next w now
  end.

Definition ts_le (t u : timespec) : bool :=
  (tv_sec t <? tv_sec u)%Z || ((tv_sec t =? tv_sec u)%Z && (tv_nsec t <=? tv_nsec u)%Z).

(** epoll_wait returns the fds that are polled and have expired. *)
Definition ready (s : world) (clock : timespec) (w : bool) : bool :=
  match containers s !! w with
  | Some (Cont _ (Some t) true) => ts_le t clock
  | _ => false
  end.
Definition expire_calls (w : bool) : list poll_call := [PSettime w; PRemovePoll w; PSend w].

Definition poll_step (clock : timespec) : M world unit :=
  s ← get;
  match poll s with
  | [] => set_poll (concat (map expire_calls (List.filter (ready s clock) [false; true])))
  | PSettime w :: p => _ ← set_poll p; timerfd_settime w (TS 0 0)
  | PRemovePoll w :: p => _ ← set_poll p; removePoll w
  | PSend w :: p => _ ← set_poll p; sendMsg (MsgTimerExpire w)
  end.

Inductive act :=
  | ANew
  | AStart (c : addr) (timeOutInMs : Z) (wakeOnExpire : bool) (clock : timespec) (ok : bool)
  | AStop (c : addr)
  | ADelete (c : addr)
  | ACStart (msec : Z) (wakeOnExpire : bool) (clock : timespec) (ok : bool)
  | ACStop (handle : addr)
  | APoll (clock : timespec)
  | ATask (clock : timespec).

(** Clients of the C++ interface only use timers they have not deleted; the C interface
    cannot tell, its handles are passed on as they are. *)
Definition live (c : addr) (m : M world unit) : M world unit := s ← get; if timers s !! c then m else mret tt.

Definition exec (a : act) : M world unit :=
  match a with
  | ANew => _ ← newLocTimer false; mret tt
  | AStart c ms w clock ok => live c (_ ← start c ms w clock ok; mret tt)
  | AStop c => live c (_ ← user_stop c; mret tt)
  | ADelete c => live c (deleteLocTimer c)
  | ACStart ms w clock ok => _ ← loc_timer_start ms w clock ok; mret tt
  | ACStop h => loc_timer_stop h
  | APoll clock => poll_step clock
  | ATask clock => task_step clock
  end.

Fixpoint execs (l : list act) : M world unit :=
  match l with [] => mret tt | a :: l => _ ← exec a; execs l end.

(** Clock readings that the truncations of [ranks] do not touch, and delays that fit. *)
Definition clock_ok (t : timespec) : Prop := (0 < tv_sec t < 2 ^ 31 - 4294969)%Z ∧ (0 ≤ tv_nsec t < 1000000000)%Z.
Definition act_ok (a : act) : Prop :=
  match a with
  | AStart _ ms _ clock _ => clock_ok clock ∧ (0 ≤ ms < 2 ^ 32)%Z
  | ACStart _ _ clock _ => clock_ok clock
  | APoll clock | ATask clock => clock_ok clock
  | _ => True
  end.

(** * Correctness *)

(** ** The ranking *)
Definition rank_ok (t : timespec) : Prop := (0 ≤ tv_sec t < 2 ^ 31)%Z ∧ (0 ≤ tv_nsec t < 1000000000)%Z.

(** The earlier time outranks the later one. *)
Lemma outRanks_ts x y : rank_ok x → rank_ok y → outRanks x y = negb (ts_le y x).
Proof.
  intros [Hx Hx'] [Hy Hy']. unfold outRanks, ranks, timespec_rankable, ranks_time, ts_le. rewrite !swrap32_small by lia.
  destruct (Z.eqb_spec (tv_sec y - tv_sec x) 0), (Z.ltb_spec (tv_sec y) (tv_sec x)), (Z.eqb_spec (tv_sec y) (tv_sec x)),
    (Z.leb_spec (tv_nsec y) (tv_nsec x)); cbn; try lia;
    try (apply Z.ltb_lt; lia); try (apply Z.ltb_ge; lia).
Qed.

Lemma ts_le_iff t u : ts_le t u = true ↔ (tv_sec t < tv_sec u ∨ tv_sec t = tv_sec u ∧ tv_nsec t ≤ tv_nsec u)%Z.
Proof. unfold ts_le. rewrite orb_true_iff, andb_true_iff, Z.ltb_lt, Z.eqb_eq, Z.leb_le. done. Qed.

Lemma ts_le_false t u : ts_le t u = false ↔ (tv_sec u < tv_sec t ∨ tv_sec t = tv_sec u ∧ tv_nsec u < tv_nsec t)%Z.
Proof.
  rewrite <-not_true_iff_false, ts_le_iff. lia.
Qed.

Definition ref_rank_ok (d : timer_ref) : Prop := rank_ok (t_time d).

#[export] Instance timer_rank_order : RankOrder ref_rank_ok.
Proof.
  assert (∀ x y : timer_ref, ref_rank_ok x → ref_rank_ok y → outRanks x y = negb (ts_le (t_time y) (t_time x))) as E.
  { intros x y Hx Hy. apply (outRanks_ts (t_time x) (t_time y) Hx Hy). }
  split.
  - intros x y Hx Hy. rewrite !E by done. rewrite negb_true_iff, negb_false_iff, ts_le_false, ts_le_iff. lia.
  - intros x y z Hx Hy Hz. rewrite !E by done. rewrite !negb_false_iff, !ts_le_iff. lia.
Qed.

Lemma future_time_ok now ms : clock_ok now → (0 ≤ ms < 2 ^ 32)%Z → rank_ok (future_time now ms) ∧ future_time now ms ≠ TS 0 0.
Proof.
  intros [Hs Hn] Hms. unfold future_time, rank_ok.
  pose proof (Z.div_pos ms 1000). pose proof (Z.div_lt_upper_bound ms 1000 4294968).
  pose proof (Z.mod_pos_bound ms 1000).
  set (n := (tv_nsec now + ms mod 1000 * 1000000)%Z). assert (0 ≤ n < 2000000000)%Z by (subst n; lia).
  pose proof (Z.div_pos n 1000000000). pose proof (Z.div_lt_upper_bound n 1000000000 2). pose proof (Z.mod_pos_bound n 1000000000).
  destruct (Z.leb_spec 1000000000 n); cbn; (split; [lia|intros [=]; lia]).
Qed.

(** ** What the operations do *)
Definition with_cont (w : bool) (k : LocTimerContainer) (s : world) : world :=
  World (timers s) (delegates s) (<[w := k]> (containers s)) (msgs s) (poll s) (task s) (log s).
Definition with_msgs (q : list LocMsg) (s : world) : world :=
  World (timers s) (delegates s) (containers s) q (poll s) (task s) (log s).
Definition with_poll (p : list poll_call) (s : world) : world :=
  World (timers s) (delegates s) (containers s) (msgs s) p (task s) (log s).
Definition with_task (p : task_pc) (s : world) : world :=
  World (timers s) (delegates s) (containers s) (msgs s) (poll s) p (log s).
Definition with_event (e : event) (s : world) : world :=
  World (timers s) (delegates s) (containers s) (msgs s) (poll s) (task s) (log s ++ [e]).

(** A container after updateSoonestTime. *)
Definition armed_at (t : timespec) : option timespec := if decide (t = TS 0 0) then None else Some t.
Definition update_cont (k : LocTimerContainer) (prior : option timer_ref) : LocTimerContainer :=
  if decide (peek (mTree k) = prior) then k
  else match peek (mTree k) with
       | None => Cont (mTree k) None false
       | Some top => if (match prior with None => true | Some p => outRanks top p end)
                     then Cont (mTree k) (armed_at (t_time top)) true else k
       end.

Lemma with_cont_id w k s : containers s !! w = Some k → with_cont w k s = s.
Proof. intros E. unfold with_cont. rewrite insert_id by done. by destruct s. Qed.

Lemma with_cont_twice w k k' s : with_cont w k (with_cont w k' s) = with_cont w k s.
Proof. unfold with_cont. cbn. by rewrite insert_insert_eq. Qed.

Lemma load_container_done w k s : containers s !! w = Some k → load_container w s = Done k s.
Proof. apply (deref_done (λ s : world, containers s !! w)). Qed.
Lemma load_delegate_done d o s : delegates s !! t_addr d = Some o → load_delegate d s = Done o s.
Proof. apply (deref_done (λ s : world, delegates s !! t_addr d)). Qed.
Lemma load_timer_done c t s : timers s !! c = Some t → load_timer c s = Done t s.
Proof. apply (deref_done (λ s : world, timers s !! c)). Qed.

Lemma with_cont_lookup w k s : containers (with_cont w k s) !! w = Some k.
Proof. apply lookup_insert_eq. Qed.

(** Runs the next statement, given what it loads. *)
Ltac timer_step :=
  first
    [ erewrite bind_done; [|by apply load_container_done; first [eassumption|apply with_cont_lookup]]
    | erewrite bind_done; [|by apply load_delegate_done; eassumption]
    | erewrite bind_done; [|by apply load_timer_done; eassumption]
    | erewrite bind_done; [|reflexivity] ].

Lemma settime_done w t k s :
  containers s !! w = Some k → timerfd_settime w t s = Done tt (with_cont w (Cont (mTree k) (armed_at t) (polled k)) s).
Proof. intros E. unfold timerfd_settime. by timer_step. Qed.

Lemma addPoll_done w k s : containers s !! w = Some k → addPoll w s = Done tt (with_cont w (Cont (mTree k) (fd k) true) s).
Proof. intros E. unfold addPoll. by timer_step. Qed.

Lemma removePoll_done w k s : containers s !! w = Some k → removePoll w s = Done tt (with_cont w (Cont (mTree k) (fd k) false) s).
Proof. intros E. unfold removePoll. by timer_step. Qed.

Lemma set_tree_done w t k s : containers s !! w = Some k → set_tree w t s = Done tt (with_cont w (Cont t (fd k) (polled k)) s).
Proof. intros E. unfold set_tree. by timer_step. Qed.

Lemma soonest_done w k s : containers s !! w = Some k → getSoonestTimer w s = Done (peek (mTree k)) s.
Proof. intros E. unfold getSoonestTimer. by timer_step. Qed.

Lemma updateSoonest_done w p k s :
  containers s !! w = Some k → updateSoonestTime w p s = Done tt (with_cont w (update_cont k p) s).
Proof.
  intros E. unfold updateSoonestTime, update_cont. rewrite (bind_done _ _ _ _ _ (soonest_done w k s E)).
  destruct (decide _); [by rewrite with_cont_id|]. destruct (peek (mTree k)) as [top|].
  - destruct (match p with Some _ => _ | None => _ end); [|by rewrite with_cont_id].
    rewrite (bind_done _ _ _ _ _ (addPoll_done w k s E)).
    erewrite settime_done by apply with_cont_lookup. by rewrite with_cont_twice.
  - rewrite (bind_done _ _ _ _ _ (removePoll_done w k s E)).
    erewrite settime_done by apply with_cont_lookup. by rewrite with_cont_twice.
Qed.

Lemma proc_Push_done w d k o s :
  containers s !! w = Some k → delegates s !! t_addr d = Some o →
  proc_Push w d s = Done tt (with_cont w (update_cont (Cont (push (mTree k) d) (fd k) (polled k)) (peek (mTree k))) s).
Proof.
  intros E Ed. unfold proc_Push. rewrite (bind_done _ _ _ _ _ (soonest_done w k s E)). do 2 timer_step.
  rewrite (bind_done _ _ _ _ _ (set_tree_done w _ k s E)).
  erewrite updateSoonest_done by apply with_cont_lookup. by rewrite with_cont_twice.
Qed.

Definition remove_cont (k : LocTimerContainer) (d : timer_ref) : LocTimerContainer :=
  let k' := Cont (remove (mTree k) d).2 (fd k) (polled k) in
  if decide (peek (mTree k) = (remove (mTree k) d).1) then update_cont k' None else k'.

Lemma proc_Remove_done w d k o s :
  containers s !! w = Some k → delegates s !! t_addr d = Some o →
  proc_Remove w d s = Done tt
    (World (timers s) (delete (t_addr d) (delegates s)) (<[w := remove_cont k d]> (containers s)) (msgs s) (poll s) (task s) (log s)).
Proof.
  intros E Ed. unfold proc_Remove, remove_cont. rewrite (bind_done _ _ _ _ _ (soonest_done w k s E)). do 2 timer_step.
  destruct (remove (mTree k) d) as [r t] eqn:Er. cbn [fst snd].
  rewrite (bind_done _ _ _ _ _ (set_tree_done w _ k s E)). destruct (decide _).
  - erewrite bind_done; [|by apply updateSoonest_done, with_cont_lookup]. by rewrite with_cont_twice.
  - erewrite bind_done; [|reflexivity]. done.
Qed.

Lemma heap_pop_done w k s :
  containers s !! w = Some k →
  heap_pop w s = Done (pop (mTree k)).1 (with_cont w (Cont (pop (mTree k)).2 (fd k) (polled k)) s).
Proof.
  intros E. unfold heap_pop. timer_step. destruct (pop (mTree k)) as [r t]. cbn [fst snd].
  by rewrite (bind_done _ _ _ _ _ (set_tree_done w _ k s E)).
Qed.

Definition pop_due (now : timespec) (t : LocHeapNode timer_ref) : option timer_ref * LocHeapNode timer_ref :=
  match peek t with
  | Some x => if negb (outRanks now (t_time x)) then pop t else (None, t)
  | None => (None, t)
  end.

Lemma popIf_done w now k s :
  containers s !! w = Some k →
  popIfOutRanks w now s = Done (pop_due now (mTree k)).1 (with_cont w (Cont (pop_due now (mTree k)).2 (fd k) (polled k)) s).
Proof.
  intros E. unfold popIfOutRanks, pop_due. rewrite (bind_done _ _ _ _ _ (soonest_done w k s E)).
  assert (Cont (mTree k) (fd k) (polled k) = k) as Ek by by destruct k.
  destruct (peek (mTree k)) as [x|]; [destruct (negb _)|].
  - by apply heap_pop_done.
  - cbn [fst snd]. by rewrite Ek, with_cont_id.
  - cbn [fst snd]. by rewrite Ek, with_cont_id.
Qed.

Lemma loop_next_done w now k s :
  containers s !! w = Some k →
  loop_next w now s = Done tt (with_task (Loop w now (pop_due now (mTree k)).1)
    (with_cont w (Cont (pop_due now (mTree k)).2 (fd k) (polled k)) s)).
Proof. intros E. unfold loop_next. by rewrite (bind_done _ _ _ _ _ (popIf_done w now k s E)). Qed.

Lemma stop_idle c t s : timers s !! c = Some t → mTimer t = None → stop c s = Done false s.
Proof. intros E Et. unfold stop. timer_step. by rewrite Et. Qed.

Definition stopped (c : addr) (t : LocTimer) (d : timer_ref) (o : LocTimerDelegate) (w : bool) (s : world) : world :=
  World (<[c := Timer None (wrapper t)]> (timers s)) (<[t_addr d := Delegate None None (mFutureTime o)]> (delegates s))
    (containers s) (msgs s ++ [MsgTimerRemove w d]) (poll s) (task s) (log s).

Lemma stop_running c t d o w s :
  timers s !! c = Some t → mTimer t = Some d → delegates s !! t_addr d = Some o → mContainer o = Some w →
  stop c s = Done true (stopped c t d o w s).
Proof.
  intros E Et Ed Eo. unfold stop. timer_step. rewrite Et.
  rewrite (bind_done _ _ s tt (World (<[c := Timer None (wrapper t)]> (timers s)) (delegates s) (containers s) (msgs s) (poll s) (task s) (log s)))
    by (unfold set_mTimer; by timer_step).
  erewrite bind_done; [reflexivity|]. unfold destroyLocked. erewrite bind_done; [|by apply load_delegate_done].
  erewrite bind_done; [|reflexivity]. rewrite Eo. erewrite bind_done; [|reflexivity]. unfold sendMsg, stopped. mrun. by rewrite insert_insert_eq.
Qed.

Definition new_ref (s : world) (ft : timespec) : timer_ref := Ref (fresh (dom (delegates s))) ft.

Definition started (c : addr) (t : LocTimer) (ft : timespec) (w : bool) (s : world) : world :=
  let d := new_ref s ft in
  World (<[c := Timer (Some d) (wrapper t)]> (timers s)) (<[t_addr d := Delegate (Some c) (Some w) ft]> (delegates s))
    (<[w := default (Cont Null None false) (containers s !! w)]> (containers s)) (msgs s ++ [MsgTimerPush w d]) (poll s) (task s) (log s ++ [EStart c]).

Lemma start_done c t ms w clock ok s :
  timers s !! c = Some t →
  start c ms w clock ok s =
    if is_null (mTimer t) && (ok || negb (is_null (containers s !! w)))
    then Done true (started c t (future_time clock ms) w s)
    else Done false s.
Proof.
  intros E. unfold start. timer_step. destruct (is_null (mTimer t)) eqn:En; [|done]. cbn [andb].
  assert (∀ s', timers s' = timers s → containers s' !! w = Some (default (Cont Null None false) (containers s !! w)) →
    delegates s' = delegates s → msgs s' = msgs s → poll s' = poll s → task s' = task s → log s' = log s →
    <[w := default (Cont Null None false) (containers s !! w)]> (containers s) = containers s' →
    (_ ← (d ← newLocTimerDelegate c (future_time clock ms) w; _ ← set_mTimer c (Some d); emit (EStart c));
     t ← load_timer c; mret (negb (is_null (mTimer t)))) s' = Done true (started c t (future_time clock ms) w s)) as Hgo.
  { intros s' H1 H2 H3 H4 H5 H6 H7 H8. unfold newLocTimerDelegate, set_mTimer, load_timer, set_delegates, set_timers, sendMsg, set_msgs, emit.
    mrun. rewrite H1, E. mrun. rewrite lookup_insert_eq. cbn. unfold started. by rewrite H3, H4, H5, H6, H7, H8. }
  unfold get_container. destruct (containers s !! w) as [k|] eqn:Ew.
  - rewrite orb_true_r. erewrite bind_done; [|unfold mbind, M_bind, get; by rewrite Ew].
    apply Hgo; try done. cbn. by rewrite insert_id.
  - rewrite orb_false_r. destruct ok.
    + erewrite bind_done; [|unfold mbind, M_bind, get; by rewrite Ew]. apply Hgo; try done; cbn. by rewrite lookup_insert_eq.
    + erewrite bind_done; [|unfold mbind, M_bind, get; by rewrite Ew]. mrun. unfold load_timer. mrun. rewrite E. by destruct (mTimer t).
Qed.

(** ** The invariant on the objects *)
Definition tree (s : world) (w : bool) : list timer_ref :=
  match containers s !! w with Some k => elements_of (mTree k) | None => [] end.
Definition pushes (q : list LocMsg) : list timer_ref :=
  omap (λ m, match m with MsgTimerPush _ d => Some d | _ => None end) q.
Definition removes (q : list LocMsg) : list timer_ref :=
  omap (λ m, match m with MsgTimerRemove _ d => Some d | _ => None end) q.
Definition cur (p : task_pc) : list timer_ref := match p with Loop _ _ (Some d) => [d] | _ => [] end.

(** Where a delegate is on its way through the container: each is in one place at most. *)
Definition places (s : world) : list timer_ref := pushes (msgs s) ++ tree s false ++ tree s true ++ cur (task s).

Definition held (s : world) (d : timer_ref) : Prop := ∃ c t, timers s !! c = Some t ∧ mTimer t = Some d.
Definition ref_of (s : world) (d : timer_ref) : Prop := d ∈ places s ∨ d ∈ removes (msgs s) ∨ held s d.
Definition boxed (s : world) (w : bool) (d : timer_ref) : Prop := MsgTimerPush w d ∈ msgs s ∨ d ∈ tree s w.

(** No push of a delegate is queued behind its removal. *)
Fixpoint push_first (q : list LocMsg) : Prop :=
  match q with
  | [] => True
  | MsgTimerRemove _ d :: q => d ∉ pushes q ∧ push_first q
  | _ :: q => push_first q
  end.

Definition msg_box (m : LocMsg) : bool := match m with MsgTimerPush w _ | MsgTimerRemove w _ | MsgTimerExpire w => w end.
Definition call_box (p : poll_call) : bool := match p with PSettime w | PRemovePoll w | PSend w => w end.
Definition task_box (p : task_pc) : option bool :=
  match p with Idle => None | Loop w _ _ | Stopping w _ _ | Calling w _ _ | Destroying w _ _ => Some w end.
Definition uses (s : world) (w : bool) : Prop :=
  (∃ m, m ∈ msgs s ∧ msg_box m = w) ∨ (∃ p, p ∈ poll s ∧ call_box p = w) ∨ task_box (task s) = Some w ∨
  (∃ a o, delegates s !! a = Some o ∧ mContainer o = Some w).
Definition known (s : world) : Prop := ∀ w, uses s w → is_Some (containers s !! w).
Definition trees_wf (s : world) : Prop := ∀ w k, containers s !! w = Some k → wf (mTree k).

Definition points (s : world) (d : timer_ref) (o : LocTimerDelegate) : Prop :=
  delegates s !! t_addr d = Some o ∧ mFutureTime o = t_time d.

Record minv (s : world) : Prop := {
  i_wf : trees_wf s;
  i_known : known s;
  i_nodup : NoDup (places s);
  i_rnodup : NoDup (removes (msgs s));
  i_refs : ∀ d, ref_of s d → ∃ o, points s d o;
  i_rank : ∀ a o, delegates s !! a = Some o → rank_ok (mFutureTime o) ∧ mFutureTime o ≠ TS 0 0;
  i_removes : ∀ d o, points s d o → d ∈ removes (msgs s) ↔ mContainer o = None;
  i_order : push_first (msgs s);
  i_home_r : ∀ w w' d, boxed s w d → MsgTimerRemove w' d ∈ msgs s → w' = w;
  i_home_o : ∀ w w' d o, boxed s w d → points s d o → mContainer o = Some w' → w' = w;
  i_links : ∀ c t d, timers s !! c = Some t → mTimer t = Some d →
    ∃ o w, points s d o ∧ mClient o = Some c ∧ mContainer o = Some w;
  i_client : ∀ a o c, delegates s !! a = Some o → mClient o = Some c →
    ∃ t, timers s !! c = Some t ∧ mTimer t = Some (Ref a (mFutureTime o));
}.

Lemma elem_of_pushes q d : d ∈ pushes q ↔ ∃ w, MsgTimerPush w d ∈ q.
Proof.
  unfold pushes. rewrite list_elem_of_omap. split.
  - intros ([] & Hm & [= ->]). eauto.
  - intros [w Hw]. by eexists.
Qed.
Lemma elem_of_removes q d : d ∈ removes q ↔ ∃ w, MsgTimerRemove w d ∈ q.
Proof.
  unfold removes. rewrite list_elem_of_omap. split.
  - intros ([] & Hm & [= ->]). eauto.
  - intros [w Hw]. by eexists.
Qed.

Lemma pushes_app q1 q2 : pushes (q1 ++ q2) = pushes q1 ++ pushes q2.
Proof. apply omap_app. Qed.
Lemma removes_app q1 q2 : removes (q1 ++ q2) = removes q1 ++ removes q2.
Proof. apply omap_app. Qed.

Lemma push_first_app q1 q2 :
  push_first (q1 ++ q2) ↔ push_first q1 ∧ push_first q2 ∧ (∀ d, d ∈ removes q1 → d ∉ pushes q2).
Proof.
  induction q1 as [|[w d|w d|w] q1 IH]; cbn [app push_first].
  - set_solver.
  - rewrite IH. done.
  - rewrite IH, pushes_app, not_elem_of_app. split.
    + intros ([H1 H2] & H3 & H4 & H5). split_and!; [done|done|done|]. intros d' Hd'. change (d' ∈ d :: removes q1) in Hd'.
      apply elem_of_cons in Hd' as [->|Hd']; [done|by apply H5].
    + intros ([H1 H2] & H3 & H4). assert (d ∉ pushes q2) by (apply H4; change (d ∈ d :: removes q1); by left).
      split_and!; try done. intros d' Hd'. apply H4. change (d' ∈ d :: removes q1). by right.
  - rewrite IH. done.
Qed.

(** Two references to one address are the same. *)
Lemma points_inj s d d' o o' : points s d o → points s d' o' → t_addr d = t_addr d' → d = d'.
Proof. intros [E T] [E' T'] H. destruct d, d'; cbn in *. congruence. Qed.

Lemma ref_inj s d d' : minv s → ref_of s d → ref_of s d' → t_addr d = t_addr d' → d = d'.
Proof. intros I H H' E. destruct (i_refs s I d H) as [o P], (i_refs s I d' H') as [o' P']. by eapply points_inj. Qed.

Lemma tree_places s w d : d ∈ tree s w → d ∈ places s.
Proof. unfold places. rewrite !elem_of_app. destruct w; tauto. Qed.

Lemma boxed_places s w d : boxed s w d → d ∈ places s.
Proof.
  intros [H|H]; [|by eapply tree_places]. unfold places. rewrite !elem_of_app. left. apply elem_of_pushes. eauto.
Qed.

Lemma places_rank s d : minv s → d ∈ places s → ref_rank_ok d.
Proof.
  intros I H. destruct (i_refs s I d) as (o & E & T); [by left|]. unfold ref_rank_ok. rewrite <-T. by eapply i_rank.
Qed.

Lemma tree_rank s w k : minv s → containers s !! w = Some k → Forall ref_rank_ok (elements_of (mTree k)).
Proof.
  intros I E. apply Forall_forall. intros d Hd. eapply places_rank; [done|]. apply (tree_places s w). unfold tree. by rewrite E.
Qed.

(** Steps that only move or drop references. *)
Lemma minv_move s s' :
  minv s → timers s' = timers s → delegates s' = delegates s → places s' ⊆+ places s →
  removes (msgs s') = removes (msgs s) → (∀ w d, MsgTimerRemove w d ∈ msgs s' → MsgTimerRemove w d ∈ msgs s) →
  (∀ w d, boxed s' w d → boxed s w d) → push_first (msgs s') → trees_wf s' → known s' → minv s'.
Proof.
  intros I Ht Hd Hp Hr Hrm Hb Hf Hw Hk.
  assert (∀ d, d ∈ places s' → d ∈ places s) as Hpe by (intros d Hd'; by eapply elem_of_submseteq).
  assert (∀ d o, points s' d o ↔ points s d o) as Hpt by (intros; unfold points; by rewrite Hd).
  assert (∀ d, ref_of s' d → ref_of s d) as Href.
  { intros d [H|[H|H]]; [left; auto|right; left; by rewrite <-Hr|right; right]. unfold held in *. by rewrite <-Ht. }
  destruct I as [I1 I2 I3 I4 I5 I6 I7 I8 I9 I10 I11 I12]. split; try done.
  - apply submseteq_Permutation in Hp as [k Hp]. rewrite Hp in I3. by apply NoDup_app in I3 as [? _].
  - by rewrite Hr.
  - intros d H. destruct (I5 d (Href d H)) as [o Ho]. exists o. by apply Hpt.
  - by rewrite Hd.
  - intros d o. rewrite Hpt, Hr. apply I7.
  - eauto.
  - intros w w' d o H. rewrite Hpt. eauto.
  - rewrite Ht. intros c t d E1 E2. destruct (I11 c t d E1 E2) as (o & w & H & ?). exists o, w. by rewrite Hpt.
  - by rewrite Ht, Hd.
Qed.

Lemma fresh_not {A} (m : gmap addr A) : m !! fresh (dom m) = None.
Proof. apply not_elem_of_dom, is_fresh. Qed.

(** A new timer. *)
Lemma minv_new s b :
  minv s → minv (World (<[fresh (dom (timers s)) := Timer None b]> (timers s)) (delegates s) (containers s) (msgs s) (poll s) (task s) (log s)).
Proof.
  intros I. set (c0 := fresh (dom (timers s))). assert (timers s !! c0 = None) as Hc0 by apply fresh_not.
  set (s' := World _ _ _ _ _ _ _). assert (∀ d, held s' d → held s d) as Hh.
  { intros d (c & t & E & Et). cbn in E. apply lookup_insert_Some in E as [[<- <-]|[_ E]]; [done|]. by exists c, t. }
  destruct I as [I1 I2 I3 I4 I5 I6 I7 I8 I9 I10 I11 I12]. split; try done.
  - intros d [H|[H|H]]; apply I5; [by left|by right; left|by right; right; apply Hh].
  - intros c t d E Et. cbn in E. apply lookup_insert_Some in E as [[<- <-]|[_ E]]; [done|]. by eapply I11.
  - intros a o c E Ec. destruct (I12 a o c E Ec) as (t & Et & H). exists t. split; [|done]. cbn.
    rewrite lookup_insert_ne; [done|]. intros <-. congruence.
Qed.

(** A timer that is not running is deleted. *)
Lemma minv_delete s c t :
  minv s → timers s !! c = Some t → mTimer t = None →
  minv (World (delete c (timers s)) (delegates s) (containers s) (msgs s) (poll s) (task s) (log s)).
Proof.
  intros I Hc Ht. set (s' := World _ _ _ _ _ _ _). assert (∀ d, held s' d → held s d) as Hh.
  { intros d (c' & t' & E & Et). cbn in E. apply lookup_delete_Some in E as [_ E]. by exists c', t'. }
  destruct I as [I1 I2 I3 I4 I5 I6 I7 I8 I9 I10 I11 I12]. split; try done.
  - intros d [H|[H|H]]; apply I5; [by left|by right; left|by right; right; apply Hh].
  - intros c' t' d E Et. cbn in E. apply lookup_delete_Some in E as [_ E]. by eapply I11.
  - intros a o c' E Ec. destruct (I12 a o c' E Ec) as (t' & Et & H). exists t'. split; [|done]. cbn.
    rewrite lookup_delete_ne; [done|]. intros <-. congruence.
Qed.

(** start *)
Lemma tree_default s w w' :
  elements_of (mTree (default (Cont Null None false) (containers s !! w))) = tree s w ∧
  (tree (with_cont w (default (Cont Null None false) (containers s !! w)) s) w' = tree s w').
Proof.
  unfold tree. destruct (containers s !! w) as [k|] eqn:E; cbn.
  - by rewrite insert_id.
  - split; [done|]. destruct (decide (w = w')) as [<-|H]; [by rewrite lookup_insert_eq, E|by rewrite lookup_insert_ne].
Qed.

Section start.
Context (s : world) (c : addr) (t : LocTimer) (ft : timespec) (w : bool).
Hypothesis I : minv s.
Hypothesis Hc : timers s !! c = Some t.
Hypothesis Ht : mTimer t = None.
Hypothesis Hft : rank_ok ft ∧ ft ≠ TS 0 0.
Abbreviation d := (new_ref s ft) (only parsing).
Abbreviation o := (Delegate (Some c) (Some w) ft) (only parsing).
Abbreviation s' := (started c t ft w s) (only parsing).

Lemma started_new d' : ref_of s d' → t_addr d' ≠ t_addr d.
Proof.
  intros Hr E. destruct (i_refs s I d' Hr) as (o' & Eo & _). rewrite E in Eo. unfold new_ref in Eo. cbn [t_addr] in Eo. by rewrite fresh_not in Eo.
Qed.

Lemma started_tree w' : tree s' w' = tree s w'.
Proof. apply (tree_default s w w'). Qed.

Lemma started_places : places s' ≡ₚ d :: places s.
Proof.
  unfold places. rewrite !started_tree. unfold started. cbn [msgs task]. rewrite pushes_app. cbn. solve_Permutation.
Qed.

Lemma started_removes : removes (msgs s') = removes (msgs s).
Proof. unfold started. cbn [msgs]. rewrite removes_app. apply app_nil_r. Qed.

Lemma started_remove_msg w' d' : MsgTimerRemove w' d' ∈ msgs s' → MsgTimerRemove w' d' ∈ msgs s.
Proof. unfold started. cbn. intros H. apply elem_of_app in H as [H|H]; [done|]. by apply list_elem_of_singleton in H. Qed.

Lemma started_boxed w' d' : boxed s' w' d' → (d' = d ∧ w' = w) ∨ boxed s w' d'.
Proof.
  intros [H|H]; [|right; right; by rewrite <-started_tree]. unfold started in H. cbn in H. apply elem_of_app in H as [H|H]; [by right; left|].
  apply list_elem_of_singleton in H. simplify_eq. by left.
Qed.

Lemma started_held d' : held s' d' → d' = d ∨ held s d'.
Proof.
  intros (c' & t' & E & Et). unfold started in E. cbn in E. apply lookup_insert_Some in E as [[<- <-]|[_ E]]; [left|right; by exists c', t'].
  cbn in Et. by simplify_eq.
Qed.

Lemma started_points_new : points s' d o.
Proof. split; [apply lookup_insert_eq|done]. Qed.

Lemma started_points_old d' o' : t_addr d' ≠ t_addr d → points s' d' o' ↔ points s d' o'.
Proof. intros H. unfold points, started. cbn. by rewrite lookup_insert_ne. Qed.

Lemma started_points d' o' : points s' d' o' → (d' = d ∧ o' = o) ∨ (t_addr d' ≠ t_addr d ∧ points s d' o').
Proof.
  intros H. destruct (decide (t_addr d' = t_addr d)) as [E|E]; [left|right; by rewrite <-started_points_old].
  assert (d' = d) as -> by (by eapply points_inj; [exact H|exact started_points_new|]). split; [done|].
  destruct H as [H _]. pose proof started_points_new as [Hn _]. congruence.
Qed.

Lemma started_refs d' : ref_of s' d' → d' = d ∨ ref_of s d'.
Proof.
  intros [H|[H|H]].
  - rewrite started_places in H. apply elem_of_cons in H as [->|H]; [by left|by right; left].
  - right. right. left. by rewrite <-started_removes.
  - apply started_held in H as [->|H]; [by left|by right; right; right].
Qed.

Lemma started_known : known s'.
Proof.
  assert (∀ w', w' = w ∨ is_Some (containers s !! w') → is_Some (containers s' !! w')) as Hm.
  { intros w' H. unfold started. cbn. destruct (decide (w = w')) as [<-|Hn]; [by rewrite lookup_insert_eq|rewrite lookup_insert_ne by done].
    by destruct H as [->|H]. }
  intros w' [(m & H & E)|[H|[H|(a & o' & H & E)]]].
  - unfold started in H. cbn in H. apply elem_of_app in H as [H|H]; [apply Hm; right; apply (i_known s I); left; by exists m|].
    apply list_elem_of_singleton in H as ->. cbn in E. subst. apply Hm. by left.
  - apply Hm. right. apply (i_known s I). right. by left.
  - apply Hm. right. apply (i_known s I). right. right. by left.
  - unfold started in H. cbn in H. apply lookup_insert_Some in H as [[<- <-]|[_ H]]; [cbn in E; simplify_eq; apply Hm; by left|].
    apply Hm. right. apply (i_known s I). right. right. right. by exists a, o'.
Qed.

Lemma started_links c' t' d' :
  timers s' !! c' = Some t' → mTimer t' = Some d' → ∃ o' w', points s' d' o' ∧ mClient o' = Some c' ∧ mContainer o' = Some w'.
Proof.
  intros E Et. unfold started in E. cbn in E. apply lookup_insert_Some in E as [[<- <-]|[_ E]].
  - cbn in Et. simplify_eq. eexists _, w. split_and!; [exact started_points_new|done|done].
  - destruct (i_links s I c' t' d' E Et) as (o' & w' & H & ?). exists o', w'. split; [|done].
    apply started_points_old; [|done]. apply started_new. right. right. by exists c', t'.
Qed.

Lemma started_client a o' c' :
  delegates s' !! a = Some o' → mClient o' = Some c' → ∃ t', timers s' !! c' = Some t' ∧ mTimer t' = Some (Ref a (mFutureTime o')).
Proof.
  intros E Ec. unfold started in E. cbn in E. apply lookup_insert_Some in E as [[<- <-]|[Hna E]].
  - cbn in Ec. simplify_eq. eexists. split; [apply lookup_insert_eq|done].
  - destruct (i_client s I a o' c' E Ec) as (t' & Et & H). exists t'. split; [|done]. unfold started. cbn.
    rewrite lookup_insert_ne; [done|]. intros <-. congruence.
Qed.

Lemma minv_start : minv s'.
Proof.
  assert (d ∉ removes (msgs s)) as Hdr by (intros H; apply (started_new d); [by right; left|done]).
  split; try exact started_known; try exact started_links; try exact started_client.
  - intros w' k E. unfold started in E. cbn in E. apply lookup_insert_Some in E as [[<- <-]|[_ E]]; [|by eapply i_wf].
    destruct (containers s !! w) as [k|] eqn:Ew; [by eapply i_wf|done].
  - rewrite started_places. constructor; [|by apply i_nodup]. intros H. apply (started_new d); [by left|done].
  - rewrite started_removes. by apply i_rnodup.
  - intros d' H. apply started_refs in H as [->|Hr]; [eexists; exact started_points_new|].
    destruct (i_refs s I d' Hr) as [o' Ho]. exists o'. apply started_points_old; [by apply started_new|done].
  - intros a o' E. unfold started in E. cbn in E. apply lookup_insert_Some in E as [[<- <-]|[_ E]]; [done|by eapply i_rank].
  - intros d' o' H. rewrite started_removes. apply started_points in H as [[-> ->]|[_ H]]; [cbn; naive_solver|by apply i_removes].
  - unfold started. cbn. apply push_first_app. split_and!; [by apply i_order|done|]. intros d' Hd'. cbn. rewrite list_elem_of_singleton. intros ->. done.
  - intros w1 w2 d' H1 H2. apply started_remove_msg in H2. apply started_boxed in H1 as [[-> _]|H1]; [|by eapply i_home_r].
    destruct Hdr. apply elem_of_removes. eauto.
  - intros w1 w2 d' o' H1 H2 H3. apply started_points in H2 as [[-> ->]|[Hn H2]].
    + cbn in H3. injection H3 as <-. apply started_boxed in H1 as [[_ ->]|H1]; [done|]. exfalso.
      apply (started_new d); [left; by eapply boxed_places|done].
    + apply started_boxed in H1 as [[-> _]|H1]; [done|by eapply i_home_o].
Qed.
End start.

(** stop *)
Section stop.
Context (s : world) (c : addr) (t : LocTimer) (d : timer_ref) (o : LocTimerDelegate) (w : bool).
Hypothesis I : minv s.
Hypothesis Hc : timers s !! c = Some t.
Hypothesis Ht : mTimer t = Some d.
Hypothesis Hd : points s d o.
Hypothesis Ho : mContainer o = Some w.
Abbreviation s' := (stopped c t d o w s) (only parsing).
Abbreviation o1 := (Delegate None None (mFutureTime o)) (only parsing).

Lemma stopped_d_held : held s d.
Proof. by exists c, t. Qed.

Lemma stopped_client : mClient o = Some c.
Proof.
  destruct (i_links s I c t d Hc Ht) as (o' & w' & [E _] & H & _). destruct Hd as [E' _]. congruence.
Qed.

Lemma stopped_not_removed : d ∉ removes (msgs s).
Proof. rewrite (i_removes s I d o Hd). by rewrite Ho. Qed.

Lemma stopped_places : places s' = places s.
Proof. unfold places, stopped. cbn [msgs task]. by rewrite pushes_app, app_nil_r. Qed.

Lemma stopped_removes : removes (msgs s') = removes (msgs s) ++ [d].
Proof. unfold stopped. cbn [msgs]. by rewrite removes_app. Qed.

Lemma stopped_boxed w' d' : boxed s' w' d' ↔ boxed s w' d'.
Proof.
  unfold boxed, stopped. cbn. rewrite elem_of_app, list_elem_of_singleton. naive_solver.
Qed.

Lemma stopped_held d' : held s' d' → held s d' ∧ d' ≠ d.
Proof.
  intros (c' & t' & E & Et). unfold stopped in E. cbn in E. apply lookup_insert_Some in E as [[<- <-]|[Hn E]]; [done|]. split; [by exists c', t'|].
  intros ->. destruct (i_links s I c' t' d E Et) as (o' & w' & [H _] & H' & _). destruct Hd as [H2 _]. pose proof stopped_client. congruence.
Qed.

Lemma stopped_refs d' : ref_of s' d' → ref_of s d'.
Proof.
  intros [H|[H|H]].
  - left. by rewrite <-stopped_places.
  - rewrite stopped_removes in H. apply elem_of_app in H as [H|H]; [by right; left|]. apply list_elem_of_singleton in H as ->.
    right. right. exact stopped_d_held.
  - right. right. by apply stopped_held.
Qed.

Lemma stopped_points_new : points s' d o1.
Proof. split; [apply lookup_insert_eq|]. destruct Hd. done. Qed.

Lemma stopped_points_old d' o' : t_addr d' ≠ t_addr d → points s' d' o' ↔ points s d' o'.
Proof. intros H. unfold points, stopped. cbn. by rewrite lookup_insert_ne. Qed.

Lemma stopped_points d' o' : points s' d' o' → (d' = d ∧ o' = o1) ∨ (t_addr d' ≠ t_addr d ∧ points s d' o').
Proof.
  intros H. destruct (decide (t_addr d' = t_addr d)) as [E|E]; [left|right; by rewrite <-stopped_points_old].
  assert (d' = d) as -> by (by eapply points_inj; [exact H|exact stopped_points_new|]). split; [done|].
  destruct H as [H _]. pose proof stopped_points_new as [Hn _]. congruence.
Qed.

Lemma stopped_known : known s'.
Proof.
  assert (is_Some (containers s !! w)) as Hw.
  { apply (i_known s I). right. right. right. destruct Hd as [E _]. by exists (t_addr d), o. }
  intros w' [(m & H & E)|[H|[H|(a & o' & H & E)]]].
  - unfold stopped in H. cbn in H. apply elem_of_app in H as [H|H]; [apply (i_known s I); left; by exists m|].
    apply list_elem_of_singleton in H as ->. cbn in E. by subst.
  - apply (i_known s I). right. by left.
  - apply (i_known s I). right. right. by left.
  - unfold stopped in H. cbn in H. apply lookup_insert_Some in H as [[<- <-]|[_ H]]; [done|].
    apply (i_known s I). right. right. right. by exists a, o'.
Qed.

Lemma stopped_links c' t' d' :
  timers s' !! c' = Some t' → mTimer t' = Some d' → ∃ o' w', points s' d' o' ∧ mClient o' = Some c' ∧ mContainer o' = Some w'.
Proof.
  intros E Et. assert (held s' d') as [Hh Hn]%stopped_held by (by exists c', t').
  unfold stopped in E. cbn in E. apply lookup_insert_Some in E as [[<- <-]|[_ E]]; [done|].
  destruct (i_links s I c' t' d' E Et) as (o' & w' & H & ?). exists o', w'. split; [|done].
  apply stopped_points_old; [|done]. intros Ea. apply Hn. by eapply points_inj.
Qed.

Lemma stopped_clients a o' c' :
  delegates s' !! a = Some o' → mClient o' = Some c' → ∃ t', timers s' !! c' = Some t' ∧ mTimer t' = Some (Ref a (mFutureTime o')).
Proof.
  intros E Ec. unfold stopped in E. cbn in E. apply lookup_insert_Some in E as [[<- <-]|[Hna E]]; [done|].
  destruct (i_client s I a o' c' E Ec) as (t' & Et & H). exists t'. split; [|done]. unfold stopped. cbn.
  rewrite lookup_insert_ne; [done|]. intros <-. rewrite Hc in Et. by simplify_eq.
Qed.

Lemma minv_stop : minv s'.
Proof.
  split; try exact stopped_known; try exact stopped_links; try exact stopped_clients; try exact (i_wf s I).
  - rewrite stopped_places. by apply i_nodup.
  - rewrite stopped_removes. apply NoDup_app. split_and!; [by apply i_rnodup| |apply NoDup_singleton].
    intros d' H. rewrite list_elem_of_singleton. intros ->. by apply stopped_not_removed.
  - intros d' H. destruct (decide (t_addr d' = t_addr d)) as [E|E].
    + assert (d' = d) as -> by (apply (ref_inj s); [exact I|by apply stopped_refs|right; right; exact stopped_d_held|done]). eexists. exact stopped_points_new.
    + destruct (i_refs s I d' (stopped_refs d' H)) as [o' Ho']. exists o'. by apply stopped_points_old.
  - intros a o' E. unfold stopped in E. cbn in E. apply lookup_insert_Some in E as [[<- <-]|[_ E]]; [|by eapply i_rank].
    destruct Hd as [E _]. by apply (i_rank s I _ o E).
  - intros d' o' H. rewrite stopped_removes, elem_of_app, list_elem_of_singleton.
    apply stopped_points in H as [[-> ->]|[Hn H]]; [cbn; naive_solver|]. rewrite (i_removes s I d' o' H). naive_solver.
  - unfold stopped. cbn. apply push_first_app. split_and!; [by apply i_order|cbn; set_solver|set_solver].
  - intros w1 w2 d' H1 H2. apply stopped_boxed in H1. unfold stopped in H2. cbn in H2. apply elem_of_app in H2 as [H2|H2]; [by eapply i_home_r|].
    apply list_elem_of_singleton in H2. simplify_eq. by eapply i_home_o.
  - intros w1 w2 d' o' H1 H2 H3. apply stopped_boxed in H1. apply stopped_points in H2 as [[-> ->]|[Hn H2]]; [done|by eapply i_home_o].
Qed.
End stop.

(** ** The heap, through its interface *)
Lemma heap_push t d :
  wf t → Forall ref_rank_ok (d :: elements_of t) → elements_of (push t d) ≡ₚ d :: elements_of t ∧ wf (push t d).
Proof.
  intros Hw [Hd HP]%Forall_cons. destruct (heap_exec_spec (P := ref_rank_ok) (HPush d) t Hd HP Hw) as (Hs & Hw' & _).
  cbn in *. by inversion Hs.
Qed.

Lemma heap_pop_spec t :
  wf t → Forall ref_rank_ok (elements_of t) →
  wf (pop t).2 ∧ elements_of t ≡ₚ option_list (pop t).1 ++ elements_of (pop t).2 ∧ (pop t).1 = peek t.
Proof.
  intros Hw HP. unfold pop. destruct (isNull t) eqn:Ht; [by destruct t|].
  destruct (peek_not_null t Ht) as [x Hx]. destruct (popNode_spec t x HP Hw Hx) as (t' & -> & Hw' & Hp). done.
Qed.

Lemma heap_remove_spec t d :
  wf t → Forall ref_rank_ok (elements_of t) →
  wf (remove t d).2 ∧
  (d ∈ elements_of t ∧ (remove t d).1 = Some d ∧ elements_of t ≡ₚ d :: elements_of (remove t d).2 ∨
   d ∉ elements_of t ∧ remove t d = (None, t)).
Proof.
  intros Hw HP. unfold remove. rewrite removeNode_if. pose proof (removeNode_spec t d HP Hw) as Hr.
  case_bool_decide as Hd; [|rewrite Hr; naive_solver]. destruct Hr as (t' & -> & Hw' & Hp). naive_solver.
Qed.

Lemma peek_push (t : LocHeapNode timer_ref) d : peek (push t d) = Some (match peek t with Some x => if outRanks d x then d else x | None => d end).
Proof.
  destruct t as [|sz l r x]; [done|]. unfold push. cbn [isNull pushNode peek]. destruct (outRanks d x);
    (destruct (isNull l); [done|]); (destruct (isNull r); [done|]); by destruct (_ <=? _)%Z.
Qed.

Lemma peek_none (t : LocHeapNode timer_ref) : peek t = None → elements_of t = [].
Proof. by destruct t. Qed.

Lemma peek_elem (t : LocHeapNode timer_ref) x : peek t = Some x → x ∈ elements_of t.
Proof. destruct t as [|sz l r y]; [done|]. intros [= ->]. by left. Qed.

(** Removing another object leaves the top. *)
Lemma peek_remove t d :
  wf t → Forall ref_rank_ok (elements_of t) → (remove t d).1 ≠ peek t → peek (remove t d).2 = peek t.
Proof.
  intros Hw HP Hne. destruct t as [|sz l r x]; [done|]. unfold remove in *. cbn [isNull] in *. cbn [removeNode] in *.
  destruct (decide (d = x)) as [->|Hdx].
  - destruct (popNode_spec (Node sz l r x) x HP Hw) as (t' & E & _); [done|]. rewrite E in Hne. done.
  - destruct (negb (outRanks d x)); [|done]. destruct (if isNull l then _ else _) as [[rl|] l']; cbn; [done|].
    destruct (if isNull r then _ else _) as [[rr|] r']; done.
Qed.

(** ** The steps that move references *)
Lemma tree_cont s w k w' : tree (with_cont w k s) w' = if decide (w = w') then elements_of (mTree k) else tree s w'.
Proof. unfold tree. cbn. destruct (decide _) as [<-|Hn]; [by rewrite lookup_insert_eq|by rewrite lookup_insert_ne]. Qed.

Lemma places_box s w : places s ≡ₚ tree s w ++ pushes (msgs s) ++ tree s (negb w) ++ cur (task s).
Proof. unfold places. destruct w; cbn; solve_Permutation. Qed.

Lemma places_cont s w k : places (with_cont w k s) ≡ₚ elements_of (mTree k) ++ pushes (msgs s) ++ tree s (negb w) ++ cur (task s).
Proof.
  rewrite (places_box _ w), !tree_cont. rewrite decide_True by done. by destruct w.
Qed.

Lemma trees_wf_cont s w k : trees_wf s → wf (mTree k) → trees_wf (with_cont w k s).
Proof. intros H Hk w' k' E. cbn in E. apply lookup_insert_Some in E as [[<- <-]|[_ E]]; [done|by eapply H]. Qed.

Lemma known_mono s s' : known s → (∀ w, uses s' w → uses s w ∨ is_Some (containers s' !! w)) → (∀ w, is_Some (containers s !! w) → is_Some (containers s' !! w)) → known s'.
Proof. intros K H Hm w Hu. destruct (H w Hu) as [|]; [apply Hm; by apply K|done]. Qed.

Lemma cont_mono s w k w' : is_Some (containers s !! w') → is_Some (containers (with_cont w k s) !! w').
Proof. intros H. cbn. destruct (decide (w = w')) as [<-|Hn]; [by rewrite lookup_insert_eq|by rewrite lookup_insert_ne]. Qed.

(** A container gets a tree with no more in it, and the task moves on to [p]. *)
Lemma minv_heap s w k k' p :
  minv s → containers s !! w = Some k → wf (mTree k') →
  elements_of (mTree k') ++ cur p ⊆+ elements_of (mTree k) ++ cur (task s) →
  (∀ d, d ∈ elements_of (mTree k') → d ∈ elements_of (mTree k)) →
  (∀ w', task_box p = Some w' → w' = w ∨ is_Some (containers s !! w')) →
  minv (with_task p (with_cont w k' s)).
Proof.
  intros I E Hw Hsub Hel Hp. assert (tree s w = elements_of (mTree k)) as Et by (unfold tree; by rewrite E).
  apply (minv_move s); try done.
  - change (places (with_task p (with_cont w k' s))) with (places (with_cont w k' (with_task p s))).
    rewrite places_cont, (places_box s w), Et. cbn [msgs task with_task].
    change (tree (with_task p s) (negb w)) with (tree s (negb w)).
    transitivity (pushes (msgs s) ++ tree s (negb w) ++ elements_of (mTree k') ++ cur p); [apply Permutation_submseteq; solve_Permutation|].
    transitivity (pushes (msgs s) ++ tree s (negb w) ++ elements_of (mTree k) ++ cur (task s)); [|apply Permutation_submseteq; solve_Permutation].
    by do 2 apply submseteq_skips_l.
  - intros w' d [H|H]; [by left|right]. change (d ∈ tree (with_cont w k' s) w') in H. rewrite tree_cont in H.
    destruct (decide _) as [<-|]; [rewrite Et; auto|done].
  - exact (i_order s I).
  - intros w' k1. apply (trees_wf_cont s w k'); [by apply i_wf|done].
  - apply (known_mono s); [by apply i_known| |intros w'; apply cont_mono].
    intros w' [H|[H|[H|H]]]; [left; by left|left; right; by left| |left; right; right; by right].
    right. destruct (Hp w' H) as [->|Hs]; [apply (cont_mono s w k'); by exists k|by apply (cont_mono s w k')].
Qed.

Lemma minv_kernel s w k k' : minv s → containers s !! w = Some k → mTree k' = mTree k → minv (with_cont w k' s).
Proof.
  intros I E Ek. replace (with_cont w k' s) with (with_task (task s) (with_cont w k' s)) by done.
  apply (minv_heap s w k); try done.
  - rewrite Ek. by eapply i_wf.
  - by rewrite Ek.
  - by rewrite Ek.
  - intros w' H. right. apply (i_known s I). right. right. by left.
Qed.

Lemma minv_event s e : minv s → minv (with_event e s).
Proof. intros I. apply (minv_move s); try done; [exact (i_order s I)|exact (i_wf s I)|exact (i_known s I)]. Qed.

Lemma minv_task s p :
  minv s → cur p ⊆+ cur (task s) → (∀ w, task_box p = Some w → is_Some (containers s !! w)) → minv (with_task p s).
Proof.
  intros I Hc Hp. apply (minv_move s); try done; [|exact (i_order s I)|exact (i_wf s I)|].
  - unfold places. cbn. by do 3 apply submseteq_skips_l.
  - apply (known_mono s); [by apply i_known| |done]. intros w [H|[H|[H|H]]]; [left; by left|left; right; by left|right; by apply Hp|left; right; right; by right].
Qed.

Lemma minv_poll s p : minv s → (∀ c, c ∈ p → is_Some (containers s !! call_box c)) → minv (with_poll p s).
Proof.
  intros I Hp. apply (minv_move s); try done; [exact (i_order s I)|exact (i_wf s I)|].
  apply (known_mono s); [by apply i_known| |done]. intros w [H|[(c & Hc & <-)|[H|H]]]; [left; by left|right; by apply Hp|left; right; right; by left|left; right; right; by right].
Qed.

(** Messages without a reference come and go. *)
Lemma minv_send s w : minv s → is_Some (containers s !! w) → minv (with_msgs (msgs s ++ [MsgTimerExpire w]) s).
Proof.
  intros I Hw.
  assert (∀ m, m ∈ msgs s ++ [MsgTimerExpire w] → m ∈ msgs s ∨ m = MsgTimerExpire w) as Hm.
  { intros m H. apply elem_of_app in H as [H|H]; [by left|]. apply list_elem_of_singleton in H. by right. }
  apply (minv_move s); try done.
  - unfold places. cbn. by rewrite pushes_app, app_nil_r.
  - cbn. by rewrite removes_app, app_nil_r.
  - intros w' d H. by apply Hm in H as [H|H].
  - intros w' d [H|H]; [|by right]. by apply Hm in H as [H|H]; [left|].
  - cbn. apply push_first_app. split_and!; [exact (i_order s I)|done|]. intros d _. cbn. apply not_elem_of_nil.
  - exact (i_wf s I).
  - apply (known_mono s); [by apply i_known| |done]. intros w' [(m & H & <-)|H]; [|left; by right].
    apply Hm in H as [H| ->]; [left; left; by exists m|by right].
Qed.

Lemma minv_take_expire s w q : minv s → msgs s = MsgTimerExpire w :: q → minv (with_msgs q s).
Proof.
  intros I Eq. apply (minv_move s); try done.
  - unfold places. cbn. by rewrite Eq.
  - cbn. by rewrite Eq.
  - intros w' d H. rewrite Eq. by right.
  - intros w' d [H|H]; [left; rewrite Eq; by right|by right].
  - pose proof (i_order s I) as H. rewrite Eq in H. exact H.
  - exact (i_wf s I).
  - apply (known_mono s); [by apply i_known| |done]. intros w' [(m & H & <-)|H]; [|left; by right].
    left. left. exists m. rewrite Eq. by split; [right|].
Qed.

Lemma minv_take_push s w d q k k' :
  minv s → msgs s = MsgTimerPush w d :: q → containers s !! w = Some k → mTree k' = push (mTree k) d →
  minv (with_cont w k' (with_msgs q s)).
Proof.
  intros I Eq Ek Ek'. assert (tree s w = elements_of (mTree k)) as Et by (unfold tree; by rewrite Ek).
  assert (boxed s w d) as Hb by (left; rewrite Eq; by left).
  destruct (heap_push (mTree k) d) as [Hp Hw]; [by eapply i_wf|constructor; [|by eapply tree_rank]|].
  { eapply places_rank; [done|]. by eapply boxed_places. }
  apply (minv_move s); try done.
  - rewrite places_cont, (places_box s w), Ek', Hp, Et. cbn [msgs task with_msgs]. rewrite Eq. cbn.
    change (tree (with_msgs q s) (negb w)) with (tree s (negb w)). apply Permutation_submseteq. solve_Permutation.
  - cbn. by rewrite Eq.
  - intros w' d' H. rewrite Eq. by right.
  - intros w' d' [H|H]; [left; rewrite Eq; by right|]. rewrite tree_cont in H. destruct (decide _) as [<-|]; [|by right].
    rewrite Ek', Hp in H. apply elem_of_cons in H as [->|H]; [done|right; by rewrite Et].
  - pose proof (i_order s I) as H. rewrite Eq in H. exact H.
  - apply trees_wf_cont; [exact (i_wf s I)|by rewrite Ek'].
  - apply (known_mono s); [by apply i_known| |intros w'; apply (cont_mono s)]. intros w' [(m & H & <-)|H]; [|left; by right].
    left. left. exists m. rewrite Eq. by split; [right|].
Qed.

(** The removal of a delegate that is being deleted: nothing refers to it any more. *)
Section removal.
Context (s : world) (w : bool) (d : timer_ref) (q : list LocMsg) (k k' : LocTimerContainer).
Hypothesis I : minv s.
Hypothesis Eq : msgs s = MsgTimerRemove w d :: q.
Hypothesis Ek : containers s !! w = Some k.
Hypothesis Ek' : mTree k' = (remove (mTree k) d).2.
Hypothesis Hcur : cur (task s) = [].
Abbreviation s' := (World (timers s) (delete (t_addr d) (delegates s)) (<[w := k']> (containers s)) q (poll s) (task s) (log s)) (only parsing).

Lemma removal_ref : ref_of s d.
Proof. right. left. rewrite Eq. by left. Qed.

Lemma removal_heap : wf (mTree k') ∧ ∀ d', d' ∈ elements_of (mTree k') → d' ∈ tree s w.
Proof.
  destruct (heap_remove_spec (mTree k) d) as [Hw [(H1 & H2 & H3)|[H1 H2]]]; [by eapply i_wf|by eapply tree_rank| |];
    rewrite Ek'; (split; [done|]); intros d' H; unfold tree; rewrite Ek.
  - rewrite H3. by right.
  - by rewrite H2 in H.
Qed.

Lemma removal_tree w' : tree s' w' = if decide (w = w') then elements_of (mTree k') else tree s w'.
Proof. apply (tree_cont s w k' w'). Qed.

Lemma removal_places : d ∉ places s' ∧ places s' ⊆+ places s.
Proof.
  assert (d ∉ pushes q) as Hdq by (pose proof (i_order s I) as H; rewrite Eq in H; by destruct H).
  assert (tree s w = elements_of (mTree k)) as Et by (unfold tree; by rewrite Ek).
  assert (d ∉ tree s (negb w)) as Hn.
  { intros H. assert (w = negb w); [|by destruct w]. eapply (i_home_r s I (negb w) w d); [by right|rewrite Eq; by left]. }
  assert (places s' ≡ₚ elements_of (mTree k') ++ pushes q ++ tree s (negb w)) as Hp'.
  { pose proof (places_cont (with_msgs q s) w k') as H. cbn [msgs task with_msgs] in H. rewrite Hcur, app_nil_r in H. exact H. }
  assert (places s ≡ₚ elements_of (mTree k) ++ pushes q ++ tree s (negb w)) as Hp.
  { pose proof (places_box s w) as H. rewrite Eq, Hcur, Et, app_nil_r in H. exact H. }
  pose proof (i_nodup s I) as Hnd. rewrite Hp in Hnd. rewrite Hp', Hp. apply NoDup_app in Hnd as (Hnd & _ & _).
  destruct (heap_remove_spec (mTree k) d) as [Hw [(H1 & H2 & H3)|[H1 H2]]]; [by eapply i_wf|by eapply tree_rank| |]; rewrite Ek'.
  - rewrite H3 in Hnd. apply NoDup_cons in Hnd as [Hnd _]. rewrite !not_elem_of_app, H3. split; [done|].
    apply submseteq_skips_r. by apply submseteq_cons.
  - rewrite H2. cbn [snd]. rewrite !not_elem_of_app. done.
Qed.

Lemma removal_held d' : held s d' → d' ≠ d.
Proof.
  intros (c & t & Ec & Et) ->. destruct (i_links s I c t d Ec Et) as (o & w' & Hp & _ & Ho).
  assert (mContainer o = None); [|congruence]. apply (i_removes s I d o Hp). rewrite Eq. by left.
Qed.

Lemma removal_refs d' : ref_of s' d' → ref_of s d' ∧ t_addr d' ≠ t_addr d.
Proof.
  intros H. assert (ref_of s d' ∧ d' ≠ d) as [Hr Hn].
  { destruct H as [H|[H|H]].
    - destruct removal_places as [Hd Hsub]. split; [left; by eapply elem_of_submseteq|]. by intros ->.
    - split; [right; left; rewrite Eq; by right|]. intros ->. pose proof (i_rnodup s I) as Hnd. rewrite Eq in Hnd.
      by apply NoDup_cons in Hnd as [Hnd _].
    - split; [right; by right|]. by apply removal_held. }
  split; [done|]. intros E. apply Hn. apply (ref_inj s); [exact I|done|exact removal_ref|done].
Qed.

Lemma removal_points d' o : points s' d' o → points s d' o ∧ t_addr d' ≠ t_addr d.
Proof. intros [E H]. cbn in E. apply lookup_delete_Some in E as [Hn E]. split; [done|]. congruence. Qed.

Lemma removal_boxed w' d' : boxed s' w' d' → boxed s w' d'.
Proof.
  intros [H|H]; [left; rewrite Eq; by right|right]. rewrite removal_tree in H. destruct (decide _) as [<-|]; [|done].
  by apply removal_heap.
Qed.

Lemma removal_known : known s'.
Proof.
  apply (known_mono s); [exact (i_known s I)| |intros w'; apply (cont_mono s)].
  intros w' [(m & H & <-)|[H|[H|(a & o & H & E)]]].
  - left. left. exists m. rewrite Eq. by split; [right|].
  - left. right. by left.
  - left. right. right. by left.
  - cbn in H. apply lookup_delete_Some in H as [_ H]. left. right. right. right. by exists a, o.
Qed.

Lemma minv_removal : minv s'.
Proof.
  split; try exact removal_known.
  - apply (trees_wf_cont s); [exact (i_wf s I)|apply removal_heap].
  - destruct removal_places as [_ [l Hp]%submseteq_Permutation]. pose proof (i_nodup s I) as Hnd. rewrite Hp in Hnd.
    by apply NoDup_app in Hnd as [? _].
  - pose proof (i_rnodup s I) as H. rewrite Eq in H. by apply NoDup_cons in H as [_ H].
  - intros d' [Hr Hn]%removal_refs. destruct (i_refs s I d' Hr) as (o & E & T). exists o. split; [|done]. cbn. by rewrite lookup_delete_ne.
  - intros a o E. cbn in E. apply lookup_delete_Some in E as [_ E]. by eapply i_rank.
  - intros d' o [Hp Hn]%removal_points. rewrite <-(i_removes s I d' o Hp), Eq. cbn. change (removes (MsgTimerRemove w d :: q)) with (d :: removes q).
    rewrite elem_of_cons. naive_solver.
  - pose proof (i_order s I) as H. rewrite Eq in H. by destruct H.
  - intros w1 w2 d' H1%removal_boxed H2. eapply i_home_r; [exact I|done|]. rewrite Eq. by right.
  - intros w1 w2 d' o H1%removal_boxed [Hp _]%removal_points. by eapply i_home_o.
  - intros c t d' E Et. assert (held s d') as Hh by (by exists c, t). destruct (i_links s I c t d' E Et) as (o & w' & [Hp T] & H).
    exists o, w'. split; [|done]. split; [|done]. cbn. rewrite lookup_delete_ne; [done|]. intros Ea. apply (removal_held d' Hh).
    apply (ref_inj s); [exact I|right; by right|exact removal_ref|done].
  - intros a o c E Ec. cbn in E. apply lookup_delete_Some in E as [_ E]. by apply (i_client s I).
Qed.
End removal.

(** ** The invariant on the fds *)
Definition expiring (s : world) (w : bool) : Prop :=
  PSend w ∈ poll s ∨ MsgTimerExpire w ∈ msgs s ∨ task_box (task s) = Some w.

(** Every expiry under way in the poll thread ends with its message. *)
Fixpoint poll_ok (p : list poll_call) : Prop :=
  match p with
  | [] => True
  | PSend _ :: p => poll_ok p
  | PSettime w :: p | PRemovePoll w :: p => PSend w ∈ p ∧ poll_ok p
  end.

(** The fd is polled and armed at the top of the heap. *)
Definition armed_cont (k : LocTimerContainer) : Prop :=
  ∀ top, peek (mTree k) = Some top → fd k = Some (t_time top) ∧ polled k = true.

Definition task_time (p : task_pc) : option timespec :=
  match p with Idle => None | Loop _ now _ | Stopping _ now _ | Calling _ now _ | Destroying _ now _ => Some now end.

(** The loop ends when everything left is in the future. *)
Definition drained (s : world) : Prop :=
  (∀ now, task_time (task s) = Some now → rank_ok now) ∧
  (∀ w now, task s = Loop w now None → ∀ d, d ∈ tree s w → outRanks now (t_time d) = true).

Record tinv (s : world) : Prop := {
  t_poll : poll_ok (poll s);
  t_armed : ∀ w k, containers s !! w = Some k → armed_cont k ∨ expiring s w;
  t_drained : drained s;
}.

Lemma drained_idle s : task s = Idle → drained s.
Proof. intros E. unfold drained. rewrite E. done. Qed.

Lemma armed_at_some t : t ≠ TS 0 0 → armed_at t = Some t.
Proof. intros H. unfold armed_at. by rewrite decide_False. Qed.

Lemma armed_update k : (∀ d, d ∈ elements_of (mTree k) → t_time d ≠ TS 0 0) → armed_cont (update_cont k None).
Proof.
  intros Hz top. unfold update_cont. destruct (peek (mTree k)) as [x|] eqn:E.
  - rewrite decide_False by done. cbn. rewrite E. intros [= <-]. rewrite armed_at_some; [done|]. apply Hz. by apply peek_elem.
  - rewrite decide_True by done. by rewrite E.
Qed.

Lemma armed_push k d :
  t_time d ≠ TS 0 0 → armed_cont k → armed_cont (update_cont (Cont (push (mTree k) d) (fd k) (polled k)) (peek (mTree k))).
Proof.
  intros Hz Ha top. unfold armed_cont in Ha. pose proof (peek_push (mTree k) d) as Hp. generalize dependent (push (mTree k) d). intros t' Hp.
  unfold update_cont. cbn [mTree]. rewrite Hp. destruct (peek (mTree k)) as [x|].
  - specialize (Ha x eq_refl). destruct (outRanks d x) eqn:Eo.
    + destruct (decide _) as [[= ->]|Hn]; cbn [mTree fd polled].
      * rewrite Hp. by intros [= <-].
      * rewrite Eo. cbn. rewrite Hp. intros [= <-]. by rewrite armed_at_some.
    + rewrite decide_True by done. cbn. rewrite Hp. by intros [= <-].
  - rewrite decide_False by done. cbn. rewrite Hp. intros [= <-]. by rewrite armed_at_some.
Qed.

Lemma armed_remove k d :
  wf (mTree k) → Forall ref_rank_ok (elements_of (mTree k)) → (∀ d, d ∈ elements_of (mTree k) → t_time d ≠ TS 0 0) →
  armed_cont k → armed_cont (remove_cont k d).
Proof.
  intros Hw HP Hz Ha. unfold remove_cont. destruct (decide _) as [E|E].
  - apply armed_update. cbn [mTree]. intros d' H. apply Hz.
    destruct (heap_remove_spec (mTree k) d Hw HP) as [_ [(_ & _ & Hp)|[_ Hp]]]; [rewrite Hp; by right|by rewrite Hp in H].
  - intros top. cbn [mTree fd polled]. rewrite peek_remove by (try done; congruence). apply Ha.
Qed.

Lemma update_cont_tree k p : mTree (update_cont k p) = mTree k.
Proof. unfold update_cont. destruct (decide _); [done|]. destruct (peek (mTree k)); [|done]. by destruct (match p with Some _ => _ | None => _ end). Qed.

Lemma remove_cont_tree k d : mTree (remove_cont k d) = (remove (mTree k) d).2.
Proof. unfold remove_cont. destruct (decide _); [by rewrite update_cont_tree|done]. Qed.

Definition inv (s : world) : Prop := minv s ∧ tinv s.

Lemma tree_nonzero s w k d : minv s → containers s !! w = Some k → d ∈ elements_of (mTree k) → t_time d ≠ TS 0 0.
Proof.
  intros I E H. destruct (i_refs s I d) as (o & Eo & <-).
  - left. apply (tree_places s w). unfold tree. by rewrite E.
  - by eapply i_rank.
Qed.

(** Steps that touch no container. *)
Lemma tinv_same s s' :
  tinv s → containers s' = containers s → poll_ok (poll s') → (∀ w, expiring s w → expiring s' w) → drained s' → tinv s'.
Proof.
  intros [T1 T2 T3] Hc Hp He Hd. split; [done| |done]. intros w k E. rewrite Hc in E.
  destruct (T2 w k E) as [H|H]; [by left|right; auto].
Qed.

(** Steps that touch one. *)
Lemma tinv_cont s s' w k k' :
  tinv s → containers s !! w = Some k → containers s' = <[w := k']> (containers s) → poll_ok (poll s') →
  ((armed_cont k ∨ expiring s w) → armed_cont k' ∨ expiring s' w) → (∀ w', w' ≠ w → expiring s w' → expiring s' w') →
  drained s' → tinv s'.
Proof.
  intros [T1 T2 T3] E Hc Hp Ha He Hd. split; [done| |done]. intros w' k0 E0. rewrite Hc in E0.
  apply lookup_insert_Some in E0 as [[<- <-]|[Hn E0]]; [by apply Ha, T2|].
  destruct (T2 w' k0 E0) as [H|H]; [by left|right; by apply He].
Qed.

(** A step of the task that does not leave the loop, nor end it. *)
Lemma inv_task s p :
  inv s → task_box p = task_box (task s) → task_time p = task_time (task s) → cur p ⊆+ cur (task s) →
  (∀ w now, p ≠ Loop w now None) → inv (with_task p s).
Proof.
  intros [I T] Hb Ht Hc Hn. split.
  - apply minv_task; [done|done|]. intros w H. apply (i_known s I). right. right. left. by rewrite <-Hb.
  - apply (tinv_same s); try done; [exact (t_poll s T)| |].
    + intros w [H|[H|H]]; [by left|right; by left|right; right; cbn; by rewrite Hb].
    + split; [intros now H; apply (t_drained s T); by rewrite <-Ht|]. intros w now H. by destruct (Hn w now).
Qed.

Lemma inv_event s e : inv s → inv (with_event e s).
Proof. intros [I T]. split; [by apply minv_event|]. apply (tinv_same s); try done; [exact (t_poll s T)|exact (t_drained s T)]. Qed.

Lemma inv_new s b :
  inv s → inv (World (<[fresh (dom (timers s)) := Timer None b]> (timers s)) (delegates s) (containers s) (msgs s) (poll s) (task s) (log s)).
Proof. intros [I T]. split; [by apply minv_new|]. apply (tinv_same s); try done; [exact (t_poll s T)|exact (t_drained s T)]. Qed.

Lemma inv_delete s c t :
  inv s → timers s !! c = Some t → mTimer t = None →
  inv (World (delete c (timers s)) (delegates s) (containers s) (msgs s) (poll s) (task s) (log s)).
Proof. intros [I T] ? ?. split; [by eapply minv_delete|]. apply (tinv_same s); try done; [exact (t_poll s T)|exact (t_drained s T)]. Qed.

Lemma inv_stopped s c t d o w :
  inv s → timers s !! c = Some t → mTimer t = Some d → points s d o → mContainer o = Some w → inv (stopped c t d o w s).
Proof.
  intros [I T] H1 H2 H3 H4. split; [by apply minv_stop|]. apply (tinv_same s); try done; [exact (t_poll s T)| |exact (t_drained s T)].
  intros w' [H|[H|H]]; [by left|right; left; apply elem_of_app; by left|right; by right].
Qed.

Lemma inv_started s c t ft w :
  inv s → timers s !! c = Some t → mTimer t = None → rank_ok ft ∧ ft ≠ TS 0 0 → inv (started c t ft w s).
Proof.
  intros [I T] Hc Ht Hft. assert (∀ w', expiring s w' → expiring (started c t ft w s) w') as He.
  { intros w' [H|[H|H]]; [by left|right; left; apply elem_of_app; by left|right; by right]. }
  split; [by apply minv_start|]. split; [exact (t_poll s T)| |].
  - intros w' k E. cbn in E. apply lookup_insert_Some in E as [[<- <-]|[_ E]].
    + destruct (containers s !! w) as [k|] eqn:Ew; [|by left]. destruct (t_armed s T w k Ew) as [H|H]; [by left|right; by apply He].
    + destruct (t_armed s T w' k E) as [H|H]; [by left|right; by apply He].
  - split; [exact (proj1 (t_drained s T))|]. intros w' now H d Hd. rewrite started_tree in Hd. by eapply (t_drained s T).
Qed.

(** ** The calls *)
Lemma stop_inv s c t :
  inv s → timers s !! c = Some t →
  ∃ s', stop c s = Done (negb (is_null (mTimer t))) s' ∧ inv s' ∧ timers s' = <[c := Timer None (wrapper t)]> (timers s) ∧
    containers s' = containers s ∧ task s' = task s ∧ log s' = log s.
Proof.
  intros I Hc. destruct (mTimer t) as [d|] eqn:Et.
  - destruct (i_links s (proj1 I) c t d Hc Et) as (o & w & Hp & _ & Ho). eexists. split; [|split; [by eapply inv_stopped|done]].
    destruct Hp as [Hd _]. by eapply stop_running.
  - exists s. split; [by eapply stop_idle|]. split; [done|]. rewrite insert_id; [done|]. rewrite Hc. destruct t; cbn in *. by subst.
Qed.

Lemma user_stop_inv s c t :
  inv s → timers s !! c = Some t →
  ∃ b s', user_stop c s = Done b s' ∧ inv s' ∧ timers s' = <[c := Timer None (wrapper t)]> (timers s) ∧
    containers s' = containers s ∧ task s' = task s.
Proof.
  intros I Hc. destruct (stop_inv s c t I Hc) as (s1 & E & I1 & H1 & H2 & H3 & _). unfold user_stop. rewrite (bind_done _ _ _ _ _ E).
  destruct (negb _); eexists _, _.
  - split; [reflexivity|]. split; [by apply (inv_event s1 (EStop c))|]. done.
  - split; [reflexivity|]. done.
Qed.

Lemma deleteLocTimer_inv s c t :
  inv s → timers s !! c = Some t →
  ∃ s', deleteLocTimer c s = Done tt s' ∧ inv s' ∧ containers s' = containers s ∧ task s' = task s.
Proof.
  intros I Hc. destruct (user_stop_inv s c t I Hc) as (b & s1 & E & I1 & H1 & H2 & H3). unfold deleteLocTimer.
  rewrite (bind_done _ _ _ _ _ E). eexists. split; [reflexivity|]. split; [|done].
  apply (inv_delete s1 c (Timer None (wrapper t))); [done|by rewrite H1, lookup_insert_eq|done].
Qed.

Lemma destroy_inv s c t :
  inv s → timers s !! c = Some t →
  ∃ s', destroy c s = Done tt s' ∧ inv s' ∧ containers s' = containers s ∧ task s' = task s.
Proof. intros I Hc. unfold destroy. timer_step. by eapply deleteLocTimer_inv. Qed.

Lemma start_inv s c t ms w clock ok :
  inv s → timers s !! c = Some t → clock_ok clock → (0 ≤ ms < 2 ^ 32)%Z → ∃ b s', start c ms w clock ok s = Done b s' ∧ inv s'.
Proof.
  intros I Hc Hk Hms. rewrite (start_done c t ms w clock ok s Hc). destruct (mTimer t) as [d|] eqn:Et; cbn [is_null andb]; [eauto|].
  destruct (_ || _); [|eauto]. eexists _, _. split; [done|]. apply inv_started; try done. by apply future_time_ok.
Qed.

(** ** The loop of MsgTimerExpire *)
Lemma pop_due_spec now t :
  wf t → Forall ref_rank_ok (elements_of t) → rank_ok now →
  wf (pop_due now t).2 ∧ elements_of t ≡ₚ option_list (pop_due now t).1 ++ elements_of (pop_due now t).2 ∧
  match (pop_due now t).1 with
  | Some x => ts_le (t_time x) now = true ∧ Forall (λ y, outRanks y x = false) (elements_of t)
  | None => ∀ d, d ∈ elements_of t → outRanks now (t_time d) = true
  end.
Proof.
  intros Hw HP Hn. unfold pop_due. destruct (peek t) as [x|] eqn:Ex.
  - assert (ref_rank_ok x) as Hx by (rewrite Forall_forall in HP; apply HP; by apply peek_elem).
    pose proof (root_max (P := ref_rank_ok) t x Hx Hw Ex) as Hmax.
    rewrite (outRanks_ts now (t_time x) Hn Hx). destruct (ts_le (t_time x) now) eqn:El; cbn [negb fst snd].
    + destruct (heap_pop_spec t Hw HP) as (H1 & H2 & H3). split_and!; try done. rewrite H3, Ex. done.
    + split_and!; try done. intros d Hd. rewrite Forall_forall in Hmax, HP.
      specialize (Hmax d Hd). specialize (HP d Hd). change (outRanks (t_time d) (t_time x) = false) in Hmax.
      rewrite outRanks_ts in Hmax |- * by done. apply negb_false_iff, ts_le_iff in Hmax. apply ts_le_false in El.
      apply negb_true_iff, ts_le_false. lia.
  - cbn [fst snd option_list]. split_and!; try done. intros d Hd. rewrite (peek_none t Ex) in Hd. by apply not_elem_of_nil in Hd.
Qed.

Lemma loop_next_inv s w now :
  inv s → task_box (task s) = Some w → task_time (task s) = Some now →
  ∃ k, containers s !! w = Some k ∧
  let s' := with_task (Loop w now (pop_due now (mTree k)).1) (with_cont w (Cont (pop_due now (mTree k)).2 (fd k) (polled k)) s) in
  loop_next w now s = Done tt s' ∧ inv s'.
Proof.
  intros [I T] Hb Ht. destruct (i_known s I w) as [k Ek]; [right; right; by left|]. exists k. split; [done|].
  split; [by apply loop_next_done|].
  assert (rank_ok now) as Hnow by (by apply (proj1 (t_drained s T))).
  destruct (pop_due_spec now (mTree k)) as (Hw & Hp & Hr); [by eapply i_wf|by eapply tree_rank|done|]. split.
  - apply (minv_heap s w k); try done.
    + rewrite Hp. cbn. transitivity (elements_of (pop_due now (mTree k)).2 ++ option_list (pop_due now (mTree k)).1);
        [destruct (pop_due now (mTree k)).1; cbn; done|].
      rewrite (Permutation_app_comm (option_list _)). rewrite <-(app_nil_r (elements_of _ ++ option_list _)) at 1.
      apply submseteq_skips_l. apply submseteq_nil_l.
    + intros d Hd. rewrite Hp. apply elem_of_app. by right.
    + intros w' [= <-]. by left.
  - eapply (tinv_cont s _ w k); try done; [exact (t_poll s T)| | |].
    + intros _. right. right. by right.
    + intros w' Hn [H|[H|H]]; [by left|right; by left|congruence].
    + split; [intros ? [= <-]; done|]. intros w' now' [= <- <- Hnone] d Hd. change (d ∈ tree (with_cont w (Cont (pop_due now (mTree k)).2 (fd k) (polled k)) s) w) in Hd.
      rewrite tree_cont, decide_True in Hd by done. cbn in Hd. rewrite Hnone in Hr. apply Hr. rewrite Hp. apply elem_of_app. by right.
Qed.

(** ** Every step keeps the invariant, and only one kind of step is undefined *)
Definition dangling (a : act) (s : world) : Prop :=
  match a with
  | ACStop h => timers s !! h = None
  | ATask _ => match task s with
               | Stopping _ _ c | Calling _ _ c | Destroying _ _ c => timers s !! c = None
               | _ => False
               end
  | _ => False
  end.

#[export] Instance dangling_dec a s : Decision (dangling a s).
Proof. destruct a; cbn; try apply _. destruct (task s); apply _. Defined.

Lemma poll_known s c : minv s → c ∈ poll s → ∃ k, containers s !! call_box c = Some k.
Proof. intros I H. apply (i_known s I). right. left. by exists c. Qed.

Lemma minv_poll_tail s c p : minv s → poll s = c :: p → minv (with_poll p s).
Proof. intros I E. apply minv_poll; [done|]. intros c' H. apply (poll_known s c' I). rewrite E. by right. Qed.

(** The two calls on the fd. *)
Lemma inv_poll_cont s c p w k k' :
  inv s → poll s = c :: p → PSend w ∈ p → (∀ w', c ≠ PSend w') → poll_ok p → containers s !! w = Some k → mTree k' = mTree k →
  inv (with_cont w k' (with_poll p s)).
Proof.
  intros [I T] E Hp Hc Hok Ek Ek'. split; [apply (minv_kernel _ w k); [by eapply minv_poll_tail|done|done]|].
  assert (∀ w' q, containers q = <[w := k']> (containers s) → tree q w' = tree s w') as Htr.
  { intros w' q Hq. unfold tree. rewrite Hq. destruct (decide (w = w')) as [<-|Hn]; [by rewrite lookup_insert_eq, Ek, Ek'|by rewrite lookup_insert_ne]. }
  eapply (tinv_cont s _ w k k'); try done.
  - intros _. right. by left.
  - intros w' _ [H|[H|H]]; [left|right; by left|right; by right]. rewrite E in H. apply elem_of_cons in H as [H|H]; [by destruct (Hc w')|done].
  - split; [exact (proj1 (t_drained s T))|]. intros w' now H d Hd. rewrite Htr in Hd by done. by eapply (t_drained s T).
Qed.

Lemma poll_step_inv s clock : inv s → ∃ s', poll_step clock s = Done tt s' ∧ inv s'.
Proof.
  intros Hinv. pose proof Hinv as [I T]. pose proof (t_poll s T) as Hok. unfold poll_step. erewrite bind_done; [|reflexivity].
  destruct (poll s) as [|[w|w|w] p] eqn:E.
  - eexists. split; [reflexivity|]. set (p := concat _).
    assert (∀ w, ready s clock w = true → is_Some (containers s !! w)) as Hr.
    { intros w H. unfold ready in H. destruct (containers s !! w); [eauto|done]. }
    change (inv (with_poll p s)). split.
    + apply minv_poll; [done|]. intros c Hc. apply Hr. subst p. cbn in Hc.
      destruct (ready s clock false) eqn:E0, (ready s clock true) eqn:E1; set_unfold in Hc; naive_solver.
    + apply (tinv_same s); try done; [|intros w [H|H]; [rewrite E in H; by apply not_elem_of_nil in H|by right]|exact (t_drained s T)].
      subst p. cbn. destruct (ready s clock false), (ready s clock true); cbn; set_solver.
  - destruct Hok as [Hs Hok]. destruct (poll_known s (PSettime w) I) as [k Ek]; [rewrite E; by left|].
    eexists. split; [|eapply (inv_poll_cont s (PSettime w) p w k (Cont (mTree k) (armed_at (TS 0 0)) (polled k))); done].
    erewrite bind_done; [|reflexivity]. by apply (settime_done w _ k (with_poll p s)).
  - destruct Hok as [Hs Hok]. destruct (poll_known s (PRemovePoll w) I) as [k Ek]; [rewrite E; by left|].
    eexists. split; [|eapply (inv_poll_cont s (PRemovePoll w) p w k (Cont (mTree k) (fd k) false)); done].
    erewrite bind_done; [|reflexivity]. by apply (removePoll_done w k (with_poll p s)).
  - destruct (poll_known s (PSend w) I) as [k Ek]; [rewrite E; by left|].
    eexists. split; [reflexivity|]. change (inv (with_msgs (msgs (with_poll p s) ++ [MsgTimerExpire w]) (with_poll p s))). split.
    + apply minv_send; [by eapply minv_poll_tail|by exists k].
    + apply (tinv_same s); try done; [|exact (t_drained s T)]. intros w' [H|[H|H]].
      * rewrite E in H. apply elem_of_cons in H as [[= ->]|H]; [right; left; apply elem_of_app; right; by left|by left].
      * right. left. apply elem_of_app. by left.
      * right. by right.
Qed.

Lemma msg_known s m : minv s → m ∈ msgs s → ∃ k, containers s !! msg_box m = Some k.
Proof. intros I H. apply (i_known s I). left. by exists m. Qed.

(** Handling a message while the task is idle. *)
Lemma push_inv s w d q :
  inv s → task s = Idle → msgs s = MsgTimerPush w d :: q → ∃ s', proc_Push w d (with_msgs q s) = Done tt s' ∧ inv s'.
Proof.
  intros [I T] Ei E. destruct (msg_known s (MsgTimerPush w d) I) as [k Ek]; [rewrite E; by left|].
  assert (d ∈ places s) as Hd by (apply (boxed_places s w); left; rewrite E; by left).
  destruct (i_refs s I d) as (o & Eo & To); [by left|]. eexists. split; [by eapply (proc_Push_done w d k o (with_msgs q s))|]. split.
  - eapply minv_take_push; [done|done|done|]. by rewrite update_cont_tree.
  - eapply (tinv_cont s _ w k); try done; [exact (t_poll s T)| | |].
    + intros [H|[H|[H|H]]]; [left|right; by left|right; right; left|cbn in Ek; by rewrite Ei in H].
      * apply armed_push; [rewrite <-To; by eapply i_rank|done].
      * rewrite E in H. by apply elem_of_cons in H as [H|H].
    + intros w' _ [H|[H|H]]; [by left|right; left|right; by right]. rewrite E in H. by apply elem_of_cons in H as [H|H].
    + by apply drained_idle.
Qed.

Lemma remove_inv s w d q :
  inv s → task s = Idle → msgs s = MsgTimerRemove w d :: q → ∃ s', proc_Remove w d (with_msgs q s) = Done tt s' ∧ inv s'.
Proof.
  intros [I T] Ei E. destruct (msg_known s (MsgTimerRemove w d) I) as [k Ek]; [rewrite E; by left|].
  destruct (i_refs s I d) as (o & Eo & To); [right; left; rewrite E; by left|].
  eexists. split; [by eapply (proc_Remove_done w d k o (with_msgs q s))|]. split.
  - apply (minv_removal s w d q k); try done; [apply remove_cont_tree|by rewrite Ei].
  - eapply (tinv_cont s _ w k); try done; [exact (t_poll s T)| | |].
    + intros [H|[H|[H|H]]]; [left|right; by left|right; right; left|by rewrite Ei in H].
      * apply armed_remove; [by eapply i_wf|by eapply tree_rank|by intros; eapply tree_nonzero|done].
      * rewrite E in H. by apply elem_of_cons in H as [H|H].
    + intros w' _ [H|[H|H]]; [by left|right; left|right; by right]. rewrite E in H. by apply elem_of_cons in H as [H|H].
    + by apply drained_idle.
Qed.

Lemma expire_inv s w q clock :
  inv s → task s = Idle → msgs s = MsgTimerExpire w :: q → rank_ok clock →
  ∃ k, containers s !! w = Some k ∧
  let s' := with_task (Loop w clock (peek (mTree k))) (with_cont w (Cont (pop (mTree k)).2 (fd k) (polled k)) (with_msgs q s)) in
  (timer ← heap_pop w; set_task (Loop w clock timer)) (with_msgs q s) = Done tt s' ∧ inv s'.
Proof.
  intros [I T] Ei E Hclk. destruct (msg_known s (MsgTimerExpire w) I) as [k Ek]; [rewrite E; by left|]. exists k. split; [done|].
  destruct (heap_pop_spec (mTree k)) as (Hw & Hp & Hr); [by eapply i_wf|by eapply tree_rank|]. cbn zeta. rewrite <-Hr. split.
  - by erewrite bind_done; [|by apply (heap_pop_done w k (with_msgs q s))].
  - split.
    + apply (minv_heap (with_msgs q s) w k); try done.
      * by eapply minv_take_expire.
      * cbn. rewrite Ei. cbn. rewrite app_nil_r, Hp. apply Permutation_submseteq.
        destruct (pop (mTree k)).1; cbn; solve_Permutation.
      * intros d Hd. rewrite Hp. apply elem_of_app. by right.
      * intros w' [= <-]. by left.
    + eapply (tinv_cont s _ w k); try done; [exact (t_poll s T)| | |].
      * intros _. right. right. by right.
      * intros w' Hn [H|[H|H]]; [by left| |by rewrite Ei in H]. rewrite E in H. apply elem_of_cons in H as [[= ->]|H]; [done|right; by left].
      * split; [by intros ? [= <-]|]. intros w' now' [= <- <- Hnone] d Hd.
        change (d ∈ tree (with_cont w (Cont (pop (mTree k)).2 (fd k) (polled k)) (with_msgs q s)) w) in Hd.
        rewrite tree_cont, decide_True in Hd by done. cbn in Hd. rewrite Hr in Hnone. rewrite (peek_none _ Hnone), Hr, Hnone in Hp.
        cbn in Hp. apply Permutation_nil in Hp. rewrite Hp in Hd. by apply not_elem_of_nil in Hd.
Qed.

(** The end of the loop arms the fd again. *)
Lemma loop_end_inv s w now :
  inv s → task s = Loop w now None →
  ∃ k, containers s !! w = Some k ∧ updateSoonestTime w None s = Done tt (with_cont w (update_cont k None) s) ∧
  inv (with_task Idle (with_cont w (update_cont k None) s)).
Proof.
  intros [I T] Ei. destruct (i_known s I w) as [k Ek]; [right; right; left; by rewrite Ei|]. exists k. split; [done|].
  split; [by apply updateSoonest_done|]. split.
  - apply (minv_heap s w k); try done; rewrite update_cont_tree; [by eapply i_wf|by rewrite Ei|done].
  - eapply (tinv_cont s _ w k); try done; [exact (t_poll s T)| |].
    + intros _. left. apply armed_update. by intros; eapply tree_nonzero.
    + intros w' Hn [H|[H|H]]; [by left|right; by left|]. rewrite Ei in H. cbn in H. congruence.
Qed.

Lemma clock_rank_ok t : clock_ok t → rank_ok t.
Proof. unfold clock_ok, rank_ok. lia. Qed.

Lemma loop_next_step s w now :
  inv s → task_box (task s) = Some w → task_time (task s) = Some now → ∃ s', loop_next w now s = Done tt s' ∧ inv s'.
Proof. intros I H1 H2. destruct (loop_next_inv s w now I H1 H2) as (k & _ & E & I'). eauto. Qed.

Lemma task_step_inv s clock :
  inv s → clock_ok clock → ¬ dangling (ATask clock) s → ∃ s', task_step clock s = Done tt s' ∧ inv s'.
Proof.
  intros I Hclk Hd. unfold task_step. erewrite bind_done; [|reflexivity]. cbn in Hd.
  destruct (task s) as [|w now [d|]|w now c|w now c|w now c] eqn:E.
  - destruct (msgs s) as [|[w d|w d|w] q] eqn:Em; [by exists s|..].
    + erewrite bind_done; [|reflexivity]. by eapply push_inv.
    + erewrite bind_done; [|reflexivity]. by eapply remove_inv.
    + erewrite bind_done; [|reflexivity]. destruct (expire_inv s w q clock I E Em) as (k & _ & Es & I'); [by apply clock_rank_ok|]. eauto.
  - destruct (i_refs s (proj1 I) d) as (o & Eo & _).
    { left. unfold places. rewrite E, !elem_of_app. right. right. right. by left. }
    erewrite bind_done; [|by apply load_delegate_done]. destruct (mClient o) as [c|].
    + eexists. split; [reflexivity|]. apply (inv_task s); rewrite ?E; try done. apply submseteq_nil_l.
    + apply loop_next_step; by rewrite ?E.
  - destruct (loop_end_inv s w now I E) as (k & Ek & Eu & I'). erewrite bind_done; [|exact Eu]. eauto.
  - destruct (timers s !! c) as [t|] eqn:Ec; [|done]. destruct (stop_inv s c t I Ec) as (s1 & E1 & I1 & H1 & H2 & H3 & _).
    rewrite (bind_done _ _ _ _ _ E1). destruct (negb _).
    + eexists. split; [reflexivity|]. apply (inv_task s1); rewrite ?H3, ?E; done.
    + apply loop_next_step; by rewrite ?H3, ?E.
  - destruct (timers s !! c) as [t|] eqn:Ec; [|done]. timer_step. erewrite bind_done; [|reflexivity].
    change (∃ s', (if wrapper t then set_task (Destroying w now c) else loop_next w now) (with_event (ECallback c) s) = Done () s' ∧ inv s').
    pose proof (inv_event s (ECallback c) I) as I1. destruct (wrapper t).
    + eexists. split; [reflexivity|]. apply (inv_task (with_event (ECallback c) s)); cbn; rewrite ?E; done.
    + apply loop_next_step; cbn; by rewrite ?E.
  - destruct (timers s !! c) as [t|] eqn:Ec; [|done]. destruct (destroy_inv s c t I Ec) as (s1 & E1 & I1 & H1 & H2).
    rewrite (bind_done _ _ _ _ _ E1). apply loop_next_step; by rewrite ?H2, ?E.
Qed.

Lemma live_inv s c (m : M world unit) :
  inv s → (∀ t, timers s !! c = Some t → ∃ s', m s = Done tt s' ∧ inv s') → ∃ s', live c m s = Done tt s' ∧ inv s'.
Proof.
  intros I H. unfold live. erewrite bind_done; [|reflexivity]. destruct (timers s !! c) as [t|] eqn:E; cbn; eauto.
Qed.

Lemma exec_inv a s : inv s → act_ok a → ¬ dangling a s → ∃ s', exec a s = Done tt s' ∧ inv s'.
Proof.
  intros I Ha Hd. destruct a as [|c ms w clock ok|c|c|ms w clock ok|h|clock|clock]; cbn [exec act_ok] in *.
  - eexists. split; [reflexivity|]. by apply (inv_new s false).
  - apply live_inv; [done|]. intros t Ec. destruct Ha. destruct (start_inv s c t ms w clock ok I Ec) as (b & s' & E & I'); [done..|].
    rewrite (bind_done _ _ _ _ _ E). by exists s'.
  - apply live_inv; [done|]. intros t Ec. destruct (user_stop_inv s c t I Ec) as (b & s' & E & I' & _).
    rewrite (bind_done _ _ _ _ _ E). by exists s'.
  - apply live_inv; [done|]. intros t Ec. destruct (deleteLocTimer_inv s c t I Ec) as (s' & E & I' & _). eauto.
  - unfold loc_timer_start. set (c := fresh (dom (timers s))). pose proof (inv_new s true I) as I1. set (s1 := World _ _ _ _ _ _ _) in I1.
    destruct (start_inv s1 c (Timer None true) (uwrap 32 ms) w clock ok I1) as (b & s' & E & I'); [apply lookup_insert_eq|done|by apply uwrap_range|].
    change (∃ s', (_ ← (_ ← start c (uwrap 32 ms) w clock ok; mret c); mret tt) s1 = Done tt s' ∧ inv s').
    exists s'. split; [|done]. unfold mbind, M_bind. by rewrite E.
  - cbn in Hd. destruct (timers s !! h) as [t|] eqn:Ec; [|done]. destruct (destroy_inv s h t I Ec) as (s' & E & I' & _). eauto.
  - by apply poll_step_inv.
  - by apply task_step_inv.
Qed.

Lemma exec_dangling a s : dangling a s → exec a s = UB.
Proof.
  destruct a as [| | | | |h| |clock]; cbn; try done.
  - intros E. unfold loc_timer_stop, destroy, load_timer, mbind, M_bind, deref. by rewrite E.
  - unfold task_step. rewrite (bind_done _ _ s s s) by done. destruct (task s); try done;
      intros E; unfold stop, destroy, load_timer, mbind, M_bind, deref; by rewrite E.
Qed.

Lemma inv_init : inv init.
Proof.
  split.
  - split; try done.
    + intros w [(m & H & _)|[(m & H & _)|[H|(a & o & H & _)]]]; try done; by apply not_elem_of_nil in H.
    + constructor.
    + constructor.
    + intros d [H|[H|(c & t & H & _)]]; [by apply not_elem_of_nil in H..|done].
    + intros d o [H _]. done.
    + intros w w' d _ H. by apply not_elem_of_nil in H.
    + by intros w w' d o _ [H _].
  - by split.
Qed.

Lemma execs_inv l : ∀ s s', inv s → Forall act_ok l → execs l s = Done tt s' → inv s'.
Proof.
  induction l as [|a l IH]; intros s s' I Hl E; cbn in E; [by change (Done tt s = Done tt s') in E; injection E as <-|]. apply Forall_cons in Hl as [Ha Hl].
  apply bind_inv in E as ([] & s1 & E1 & E). destruct (decide (dangling a s)) as [Hd|Hd].
  { by rewrite (exec_dangling a s Hd) in E1. }
  destruct (exec_inv a s I Ha Hd) as (s2 & E2 & I2). rewrite E1 in E2. injection E2 as <-. eauto.
Qed.

(** The states the threads can reach, and the same started in one of them. *)
Definition reachable (s : world) : Prop := ∃ l, Forall act_ok l ∧ execs l init = Done tt s.

Lemma reachable_inv s : reachable s → inv s.
Proof. intros (l & Hl & E). eapply execs_inv; [exact inv_init|done|done]. Qed.

(** ** Accounting for the callbacks *)
Definition count (e : event) (l : list event) : nat := length (filter (λ e', e' = e) l).
Definition running (s : world) (c : addr) : nat :=
  match timers s !! c with Some t => if mTimer t then 1 else 0 | None => 0 end.
Definition calling (s : world) (c : addr) : nat :=
  match task s with Calling _ _ c' => if decide (c' = c) then 1 else 0 | _ => 0 end.

(** Every start has ended in a stop or in a callback, is about to, or is running. *)
Definition balanced (s : world) : Prop :=
  ∀ c, count (EStart c) (log s) = count (EStop c) (log s) + count (ECallback c) (log s) + running s c + calling s c.

Lemma count_snoc e e' l : count e (l ++ [e']) = count e l + if decide (e' = e) then 1 else 0.
Proof. unfold count. rewrite filter_app, length_app, filter_cons. by destruct (decide _). Qed.

(** Calls that concern only the delegates, the containers and the queues. *)
Definition keeps {A} (m : M world A) : Prop :=
  ∀ s a s', m s = Done a s' → timers s' = timers s ∧ log s' = log s ∧ task s' = task s.

Lemma keeps_bind {A B} (m : M world A) (f : A → M world B) : keeps m → (∀ a, keeps (f a)) → keeps (m ≫= f).
Proof.
  intros Hm Hf s b s' (a & s1 & E1 & E2)%bind_inv.
  destruct (Hm _ _ _ E1) as (H1 & H2 & H3), (Hf a _ _ _ E2) as (H4 & H5 & H6). by rewrite H4, H5, H6.
Qed.
Lemma keeps_ret {A} (a : A) : keeps (mret a).
Proof. intros s b s' E. by injection E as _ <-. Qed.
Lemma keeps_deref {A} (f : world → option A) : keeps (deref f).
Proof. intros s b s' E. unfold deref in E. destruct (f s); [|done]. by injection E as _ <-. Qed.
Lemma keeps_get : keeps get.
Proof. intros s b s' E. by injection E as _ <-. Qed.
Lemma keeps_delegates f : keeps (set_delegates f).
Proof. intros s b s' E. by injection E as _ <-. Qed.
Lemma keeps_container w k : keeps (set_container w k).
Proof. intros s b s' E. by injection E as _ <-. Qed.
Lemma keeps_msgs q : keeps (set_msgs q).
Proof. intros s b s' E. by injection E as _ <-. Qed.
Lemma keeps_poll p : keeps (set_poll p).
Proof. intros s b s' E. by injection E as _ <-. Qed.

Create HintDb keeps discriminated.
Lemma keeps_load_container w : keeps (load_container w).
Proof. apply keeps_deref. Qed.
Lemma keeps_load_timer c : keeps (load_timer c).
Proof. apply keeps_deref. Qed.
Lemma keeps_load_delegate d : keeps (load_delegate d).
Proof. apply keeps_deref. Qed.
#[local] Hint Resolve keeps_load_container keeps_load_delegate keeps_ret keeps_get keeps_delegates keeps_container keeps_msgs keeps_poll : keeps.

Ltac keeps_tac :=
  repeat first
    [ apply keeps_bind; [|intros ?] | progress (auto with keeps nocore) | case_match
    | match goal with |- keeps (let '(_, _) := ?x in _) => destruct x end ].

Lemma keeps_updateSoonest w p : keeps (updateSoonestTime w p).
Proof. unfold updateSoonestTime, getSoonestTimer, addPoll, removePoll, timerfd_settime. keeps_tac. Qed.
Lemma keeps_send m : keeps (sendMsg m).
Proof. unfold sendMsg. keeps_tac. Qed.
#[local] Hint Resolve keeps_updateSoonest keeps_send : keeps.
Lemma keeps_Push w d : keeps (proc_Push w d).
Proof. unfold proc_Push, getSoonestTimer, set_tree. keeps_tac. Qed.
Lemma keeps_Remove w d : keeps (proc_Remove w d).
Proof. unfold proc_Remove, getSoonestTimer, set_tree. keeps_tac. Qed.
Lemma keeps_heap_pop w : keeps (heap_pop w).
Proof. unfold heap_pop, set_tree. keeps_tac. Qed.
#[local] Hint Resolve keeps_heap_pop : keeps.
Lemma keeps_popIf w now : keeps (popIfOutRanks w now).
Proof. unfold popIfOutRanks, getSoonestTimer. keeps_tac. Qed.
Lemma keeps_destroyLocked d : keeps (destroyLocked d).
Proof. unfold destroyLocked. keeps_tac. Qed.
Lemma keeps_poll_step clock : keeps (poll_step clock).
Proof. unfold poll_step, timerfd_settime, removePoll. keeps_tac. Qed.
#[local] Hint Resolve keeps_Push keeps_Remove keeps_popIf keeps_destroyLocked : keeps.

Lemma stop_effect c s b s' :
  stop c s = Done b s' →
  ∃ t, timers s !! c = Some t ∧ b = negb (is_null (mTimer t)) ∧
    timers s' = <[c := Timer None (wrapper t)]> (timers s) ∧ log s' = log s ∧ task s' = task s.
Proof.
  intros (t & s1 & E1 & E2)%bind_inv. unfold load_timer, deref in E1. destruct (timers s !! c) as [t'|] eqn:Ec; [|done].
  injection E1 as -> <-. exists t. split; [done|]. destruct (mTimer t) as [d|] eqn:Et.
  - apply bind_inv in E2 as (? & s2 & E2 & E3). apply bind_inv in E3 as (? & s3 & E3 & E4). injection E4 as <- <-.
    apply keeps_destroyLocked in E3 as (-> & -> & ->). unfold set_mTimer in E2. apply bind_inv in E2 as (t'' & s4 & E5 & E6).
    unfold load_timer, deref in E5. rewrite Ec in E5. injection E5 as <- <-. by injection E6 as _ <-.
  - injection E2 as <- <-. rewrite insert_id; [done|]. rewrite Ec. destruct t; cbn in *. by subst.
Qed.

Lemma running_insert s s' c t b c' :
  timers s !! c = Some t → b = negb (is_null (mTimer t)) → timers s' = <[c := Timer None (wrapper t)]> (timers s) →
  running s c' = running s' c' + (if decide (c = c') then if b : bool then 1 else 0 else 0).
Proof.
  intros E -> E'. unfold running. rewrite E'. destruct (decide _) as [<-|Hn]; [|rewrite lookup_insert_ne by done; lia].
  rewrite lookup_insert_eq, E. cbn. by destruct (mTimer t).
Qed.

Lemma calling_idle s c : (∀ w now c', task s ≠ Calling w now c') → calling s c = 0.
Proof. intros H. unfold calling. destruct (task s); try done. by edestruct H. Qed.

Lemma balanced_frame s s' :
  balanced s → timers s' = timers s → log s' = log s → (∀ c, calling s' c = calling s c) → balanced s'.
Proof. intros B Ht Hl Hc c. specialize (B c). rewrite Hl, Hc. unfold running in *. by rewrite Ht. Qed.

Lemma balanced_keeps {A} (m : M world A) s a s' : keeps m → m s = Done a s' → balanced s → balanced s'.
Proof.
  intros Hm E B. destruct (Hm _ _ _ E) as (H1 & H2 & H3). apply (balanced_frame s); try done. intros c. unfold calling. by rewrite H3.
Qed.

Lemma user_stop_effect c s b s' :
  user_stop c s = Done b s' → balanced s →
  balanced s' ∧ task s' = task s ∧ ∃ t, timers s !! c = Some t ∧ timers s' = <[c := Timer None (wrapper t)]> (timers s).
Proof.
  intros (b0 & s1 & E1 & E2)%bind_inv B. destruct (stop_effect c s b0 s1 E1) as (t & Ec & Hb & Ht & Hl & Htk).
  assert (balanced s' ∧ task s' = task s1 ∧ timers s' = timers s1) as (B' & H1 & H2).
  { destruct b0.
    - apply bind_inv in E2 as (? & s2 & E2 & E3). injection E3 as <- <-. injection E2 as _ <-. split_and!; [|done..].
      intros c'. specialize (B c'). pose proof (running_insert s s1 c t true c' Ec Hb Ht) as Hr. cbn [log].
      rewrite !count_snoc, Hl. unfold running, calling in *. cbn [timers task] in *. rewrite Htk.
      repeat case_decide; simplify_eq; try done; lia.
    - apply bind_inv in E2 as (? & s2 & E2 & E3). injection E3 as <- <-. injection E2 as _ <-. split_and!; [|done..].
      intros c'. specialize (B c'). pose proof (running_insert s s1 c t false c' Ec Hb Ht) as Hr.
      rewrite Hl. unfold calling in *. rewrite Htk. destruct (decide (c = c')); lia. }
  split; [done|]. split; [congruence|]. exists t. split; [done|congruence].
Qed.

Lemma deleteLocTimer_effect c s s' : deleteLocTimer c s = Done tt s' → balanced s → balanced s' ∧ task s' = task s.
Proof.
  intros (b & s1 & E1 & E2)%bind_inv B. destruct (user_stop_effect c s b s1 E1 B) as (B1 & Ht & t & Ec & Ht1). injection E2 as <-.
  split; [|done]. intros c'. specialize (B1 c'). unfold running, calling in *. cbn [timers task log]. rewrite Ht1 in *.
  destruct (decide (c = c')) as [<-|Hn]; [rewrite lookup_delete_eq; rewrite lookup_insert_eq in B1; cbn [mTimer] in B1; lia|by rewrite lookup_delete_ne].
Qed.

Lemma start_effect c ms w clock ok s b s' : start c ms w clock ok s = Done b s' → balanced s → balanced s'.
Proof.
  intros E B. destruct (timers s !! c) as [t|] eqn:Ec.
  - rewrite (start_done c t ms w clock ok s Ec) in E. destruct (is_null (mTimer t)) eqn:Et; cbn [andb] in E; [|by injection E as _ <-].
    destruct (_ || _); [|by injection E as _ <-]. injection E as _ <-. intros c'. specialize (B c'). cbn [log started]. rewrite !count_snoc.
    unfold running, calling in *. cbn [timers task started]. destruct (mTimer t) eqn:Em; [done|].
    destruct (decide (c = c')) as [<-|Hn].
    + rewrite lookup_insert_eq. rewrite Ec, Em in B. cbn [mTimer]. repeat case_decide; simplify_eq; try done; lia.
    + rewrite lookup_insert_ne by done. repeat case_decide; simplify_eq; try done; lia.
  - unfold start, mbind, M_bind, load_timer, deref in E. by rewrite Ec in E.
Qed.

Lemma loop_next_effect w now s s' :
  loop_next w now s = Done tt s' → timers s' = timers s ∧ log s' = log s ∧ ∀ c, calling s' c = 0.
Proof.
  intros (r & s1 & E1 & E2)%bind_inv. apply keeps_popIf in E1 as (H1 & H2 & _). injection E2 as <-. by split_and!.
Qed.

Lemma balanced_next w now s s' : loop_next w now s = Done tt s' → (∀ c, calling s c = 0) → balanced s → balanced s'.
Proof.
  intros E Hc B. destruct (loop_next_effect w now s s' E) as (H1 & H2 & H3). apply (balanced_frame s); try done. intros c. by rewrite H3, Hc.
Qed.

Lemma calling_other s c : (match task s with Calling _ _ _ => false | _ => true end) = true → calling s c = 0.
Proof. unfold calling. by destruct (task s). Qed.

Lemma task_step_balanced clock s s' : task_step clock s = Done tt s' → balanced s → balanced s'.
Proof.
  intros E B. unfold task_step in E. apply bind_inv in E as (? & ? & [= <- <-] & E).
  destruct (task s) as [|w now [d|]|w now c|w now c|w now c] eqn:Et.
  - destruct (msgs s) as [|[w d|w d|w] q]; [by injection E as <-|..]; apply bind_inv in E as (? & s1 & [= _ <-] & E).
    + eapply balanced_keeps; [apply keeps_Push|exact E|done].
    + eapply balanced_keeps; [apply keeps_Remove|exact E|done].
    + apply bind_inv in E as (r & s2 & E1 & E2). apply keeps_heap_pop in E1 as (H1 & H2 & H3). injection E2 as <-.
      apply (balanced_frame s); try done. intros c. unfold calling. cbn. by rewrite Et.
  - apply bind_inv in E as (o & s1 & E1 & E2). apply keeps_load_delegate in E1 as (H1 & H2 & H3). destruct (mClient o) as [c|].
    + injection E2 as <-. apply (balanced_frame s); try done. intros c'. unfold calling. cbn. by rewrite Et.
    + eapply balanced_next; [exact E2| |by eapply (balanced_frame s); try done; intros; unfold calling; rewrite H3].
      intros c. apply calling_other. by rewrite H3, Et.
  - apply bind_inv in E as (o & s1 & E1 & E2). apply keeps_updateSoonest in E1 as (H1 & H2 & H3). injection E2 as <-.
    apply (balanced_frame s); try done. intros c. unfold calling. cbn. by rewrite Et.
  - apply bind_inv in E as (b & s1 & E1 & E2). destruct (stop_effect c s b s1 E1) as (t & Ec & Hb & Ht & Hl & Htk).
    assert (∀ c', calling s1 c' = 0) as Hc0 by (intros; apply calling_other; by rewrite Htk, Et).
    destruct b.
    + injection E2 as <-. intros c'. specialize (B c'). pose proof (running_insert s s1 c t true c' Ec Hb Ht) as Hr. cbn [log]. rewrite Hl.
      unfold running, calling in *. cbn [timers task]. rewrite Et in B. destruct (decide (c = c')); lia.
    + eapply balanced_next; [exact E2|done|]. intros c'. specialize (B c'). pose proof (running_insert s s1 c t false c' Ec Hb Ht) as Hr.
      rewrite Hl, Hc0. rewrite calling_other in B by (by rewrite Et). destruct (decide (c = c')); lia.
  - apply bind_inv in E as (t & s1 & E1 & E2). apply keeps_load_timer in E1 as (H1 & H2 & H3). apply bind_inv in E2 as ([] & s2 & E2 & E3).
    injection E2 as <-.
    assert (timers s' = timers s ∧ log s' = log s ++ [ECallback c] ∧ ∀ c', calling s' c' = 0) as (H4 & H5 & H6).
    { destruct (wrapper t); [injection E3 as <-; cbn [timers log]; by rewrite H1, H2|].
      apply loop_next_effect in E3 as (-> & -> & H6). cbn [timers log]. by rewrite H1, H2. }
    intros c'. specialize (B c'). rewrite H5, H6, !count_snoc. unfold running, calling in *. rewrite H4. rewrite Et in B.
    repeat case_decide; simplify_eq; try done; lia.
  - apply bind_inv in E as ([] & s1 & E1 & E2). unfold destroy in E1. apply bind_inv in E1 as (t & s2 & E1 & E3).
    pose proof (keeps_load_timer _ _ _ _ E1) as (H1 & H2 & H3).
    destruct (deleteLocTimer_effect c s2 s1 E3) as [B1 Ht].
    { apply (balanced_frame s); try done. intros c'. unfold calling. by rewrite H3. }
    eapply balanced_next; [exact E2| |done]. intros c'. apply calling_other. by rewrite Ht, H3, Et.
Qed.

Lemma live_balanced c (m : M world unit) s s' :
  (∀ s1, m s = Done tt s1 → balanced s1) → live c m s = Done tt s' → balanced s → balanced s'.
Proof.
  intros H E B. unfold live in E. apply bind_inv in E as (? & ? & [= <- <-] & E). destruct (timers s !! c); [by apply H|]. by injection E as <-.
Qed.

Lemma new_balanced b s : balanced s → balanced (World (<[fresh (dom (timers s)) := Timer None b]> (timers s)) (delegates s) (containers s) (msgs s) (poll s) (task s) (log s)).
Proof.
  intros B c. specialize (B c). unfold running, calling in *. cbn [timers task log]. destruct (decide (fresh (dom (timers s)) = c)) as [<-|Hn].
  - rewrite lookup_insert_eq. rewrite fresh_not in B. cbn [mTimer]. done.
  - by rewrite lookup_insert_ne.
Qed.

Lemma exec_balanced a s s' : exec a s = Done tt s' → balanced s → balanced s'.
Proof.
  intros E B. destruct a as [|c ms w clock ok|c|c|ms w clock ok|h|clock|clock]; cbn [exec] in E.
  - injection E as <-. by apply (new_balanced false s).
  - eapply live_balanced; [|exact E|done]. intros s1 (b & s2 & E1 & E2)%bind_inv. injection E2 as <-. by eapply start_effect.
  - eapply live_balanced; [|exact E|done]. intros s1 (b & s2 & E1 & E2)%bind_inv. injection E2 as <-. by eapply user_stop_effect.
  - eapply live_balanced; [|exact E|done]. intros s1 E1. by eapply deleteLocTimer_effect.
  - apply bind_inv in E as (c & s1 & E & E1). injection E1 as <-. apply bind_inv in E as (c' & s2 & E & E2).
    apply bind_inv in E2 as (b & s3 & E2 & E3). injection E3 as _ <-. eapply start_effect; [exact E2|].
    injection E as _ <-. by apply (new_balanced true s).
  - unfold loc_timer_stop, destroy in E. apply bind_inv in E as (t & s1 & E1 & E2). 
    eapply deleteLocTimer_effect; [exact E2|]. eapply balanced_keeps; [apply keeps_load_timer|exact E1|done].
  - eapply balanced_keeps; [apply keeps_poll_step|exact E|done].
  - by eapply task_step_balanced.
Qed.

Lemma execs_balanced l : ∀ s s', execs l s = Done tt s' → balanced s → balanced s'.
Proof.
  induction l as [|a l IH]; intros s s' E B; cbn in E; [by injection E as <-|]. apply bind_inv in E as ([] & s1 & E1 & E).
  eapply IH; [exact E|]. by eapply exec_balanced.
Qed.






Section iteration.
Context (s : world) (w : bool) (now : timespec) (d : timer_ref) (clock : timespec).
Hypothesis I : inv s.
Hypothesis Et : task s = Loop w now (Some d).



End iteration.







(** C7: memory safety of the timer service under every interleaving of its threads: a
    delegate waits in at most one place (a queued push, a heap, the task's hands), every
    delegate that a message, a heap, the task or a timer refers to is alive and has the
    time the reference carries, and a step is undefined in exactly one kind of situation:
    it goes through a client's pointer that the client has deleted (the C handle given to
    loc_timer_stop, or the client that the message task is just expiring); every other
    step is carried out. *)
Theorem timer_memory_safety s a :
  reachable s → act_ok a →
  NoDup (places s) ∧ (∀ d, ref_of s d → ∃ o, delegates s !! t_addr d = Some o ∧ mFutureTime o = t_time d) ∧
  (exec a s = UB ↔ dangling a s) ∧ (dangling a s ∨ ∃ s', exec a s = Done tt s' ∧ inv s').
Proof.
  intros Hr Ha. pose proof (reachable_inv s Hr) as I. split; [apply i_nodup, I|]. split; [apply (i_refs s (proj1 I))|].
  destruct (decide (dangling a s)) as [Hd|Hd].
  - split; [|by left]. split; [done|]. intros _. by apply exec_dangling.
  - destruct (exec_inv a s I Ha Hd) as (s' & E & I'). split; [|right; eauto]. split; [by rewrite E|done].
Qed.

(** Each successful start of a timer is accounted for: it ended in one successful
    stop by a client, or in one callback, or it is being called back, or it is running;
    so a timer is called back at most once per start and never after a stop that
    returned true. *)
Theorem timer_callbacks_accounted l s c :
  execs l init = Done tt s →
  count (EStart c) (log s) = count (EStop c) (log s) + count (ECallback c) (log s) + running s c + calling s c.
Proof. intros E. eapply (execs_balanced l init s E). intros c'. done. Qed.

(** No timer is forgotten: whenever a container has timers, the top of its heap is a
    timer that none outranks, and either the fd is polled and armed at that time or an
    expiry is under way whose end arms it again. *)
Theorem timer_armed_at_soonest s w k top :
  reachable s → containers s !! w = Some k → peek (mTree k) = Some top →
  (∀ d, d ∈ tree s w → ts_le (t_time top) (t_time d) = true) ∧
  (fd k = Some (t_time top) ∧ polled k = true ∨ expiring s w).
Proof.
  intros Hr Ek Hp. destruct (reachable_inv s Hr) as [I T]. split.
  - intros d Hd. unfold tree in Hd. rewrite Ek in Hd. pose proof (tree_rank s w k I Ek) as HP. rewrite Forall_forall in HP.
    assert (ref_rank_ok top) as Ht by (apply HP; by apply peek_elem).
    pose proof (root_max (P := ref_rank_ok) _ top Ht (i_wf s I w k Ek) Hp) as Hm. rewrite Forall_forall in Hm.
    specialize (Hm d Hd). change (outRanks (t_time d) (t_time top) = false) in Hm. specialize (HP d Hd). rewrite outRanks_ts in Hm by done.
    by apply negb_false_iff in Hm.
  - destruct (t_armed s T w k Ek) as [H|H]; [left; by apply H|by right].
Qed.


(** ** Concrete runs *)
Definition at_sec (n : Z) : timespec := TS n 0.
Definition fire (n : Z) : list act := replicate 4 (APoll (at_sec n)).

(** The clock a step reads. *)
Definition act_clock (a : act) : Z :=
  match a with AStart _ _ _ t _ | ACStart _ _ t _ | APoll t | ATask t => tv_sec t | _ => 0 end.

(** The fd fires for timer 1, which is stopped, and timer 2 started, before the message. *)
Definition early_run : list act :=
  [ANew; ANew; AStart 1 1000 false (at_sec 100) true; ATask (at_sec 100)] ++ replicate 3 (APoll (at_sec 101)) ++
  [AStop 1; AStart 2 10000 false (at_sec 101) true; APoll (at_sec 101)] ++ replicate 6 (ATask (at_sec 101)).

(** The first pop of MsgTimerExpire is unconditional, so an expiry that overtakes a
    stop and a start fires a timer that is not due: in a run without a clock reading
    beyond second 101 a timer of ten seconds that was started at second 101 is called
    back, and its fd stays armed for the time it was due. *)
Theorem timer_expires_early :
  Forall act_ok early_run ∧ Forall (λ a, (act_clock a ≤ 101)%Z) early_run ∧
  ∃ s, execs early_run init = Done tt s ∧ log s = [EStart 1; EStop 1; EStart 2; ECallback 2] ∧
    future_time (at_sec 101) 10000 = at_sec 111 ∧ fd <$> containers s !! false = Some (Some (at_sec 111)).
Proof.
  split; [|split]; [repeat constructor; vm_compute; intuition discriminate|repeat constructor; vm_compute; discriminate|].
  eexists. split; [vm_compute; reflexivity|]. split_and!; vm_compute; reflexivity.
Qed.

(** Both kinds of dangling pointer are reached: a client that deletes its timer while it is
    being expired, and a C handle stopped after its callback. *)
Definition deleted_run : list act :=
  [ANew; AStart 1 1000 false (at_sec 100) true; ATask (at_sec 100)] ++ fire 101 ++
  [ATask (at_sec 101); ATask (at_sec 101); ADelete 1; ATask (at_sec 101)].
Definition handle_run : list act :=
  [ACStart 1000 false (at_sec 100) true; ATask (at_sec 100)] ++ fire 101 ++ replicate 6 (ATask (at_sec 101)) ++ [ACStop 1].

Theorem timer_dangling_clients :
  Forall act_ok deleted_run ∧ execs deleted_run init = UB ∧ Forall act_ok handle_run ∧ execs handle_run init = UB.
Proof.
  split_and!; first [reflexivity | repeat constructor; vm_compute; intuition discriminate].
Qed.

(** Three timers, of which the first two are due when the expiry is handled. *)
Definition wit_run : list act :=
  [ANew; ANew; ANew; AStart 1 2000 false (at_sec 100) true; AStart 2 1000 false (at_sec 100) true;
   AStart 3 9000 false (at_sec 100) true; ATask (at_sec 100); ATask (at_sec 100); ATask (at_sec 100)] ++ fire 103.
Definition wit_state : world := default init (outcome_state (execs wit_run init)).

Lemma wit_execs : execs wit_run init = Done tt wit_state.
Proof. vm_compute. reflexivity. Qed.
Lemma wit_reachable : reachable wit_state.
Proof. exists wit_run. split; [repeat constructor; vm_compute; intuition discriminate|exact wit_execs]. Qed.

Lemma timer_memory_safety_witness : exec (ATask (at_sec 103)) wit_state = UB ↔ False.
Proof.
  destruct (timer_memory_safety wit_state (ATask (at_sec 103)) wit_reachable) as (_ & _ & H & _); [vm_compute; intuition discriminate|exact H].
Defined.

Lemma timer_callbacks_accounted_witness : count (EStart 1) (log wit_state) = 1 ∧ running wit_state 1 = 1.
Proof. pose proof (timer_callbacks_accounted wit_run wit_state 1 wit_execs) as H. split; [vm_compute; reflexivity|]. vm_compute in H |- *. exact H. Defined.

Lemma timer_armed_at_soonest_witness :
  fd <$> containers wit_state !! false = Some None ∧ expiring wit_state false.
Proof.
  split; [vm_compute; reflexivity|].
  destruct (timer_armed_at_soonest wit_state false (default (Cont Null None false) (containers wit_state !! false)) (Ref 2 (at_sec 101)) wit_reachable)
    as [_ [[H _]|H]]; [vm_compute; reflexivity|vm_compute; reflexivity|vm_compute in H; discriminate|exact H].
Defined.

