(* ===== verification/PbEnums.v ===== *)
(** * The enumerations of location_api_msg_proto and of the location data types.

    One inductive type per C enum of LocationDataTypes.h and LocationApiMsg.h and per
    protobuf enum of the two .proto files that the conversions of
    LocationApiPbMsgConv.cpp mention, with the source's enumerators in their order, and
    the integer each stands for. *)
From S2P Require Import Prelude.

(** An enumeration of C: the value of each enumerator, and all of them. *)
Class CEnum (T : Type) := {
  value : T → Z;
  enumerators : list T;
  enumerators_all : ∀ x, In x enumerators;
}.

Ltac enum_all := intros []; repeat first [left; reflexivity | right].

(** The macros of DrSolutionStatusMask. *)
Definition VEHICLE_SENSOR_SPEED_INPUT_DETECTED : Z := Z.shiftl 1 0.
Definition VEHICLE_SENSOR_SPEED_INPUT_USED : Z := Z.shiftl 1 1.

(** LocationDataTypes.h:55 *)
Inductive LocationError :=
  | LOCATION_ERROR_SUCCESS | LOCATION_ERROR_GENERAL_FAILURE | LOCATION_ERROR_CALLBACK_MISSING
  | LOCATION_ERROR_INVALID_PARAMETER | LOCATION_ERROR_ID_EXISTS | LOCATION_ERROR_ID_UNKNOWN
  | LOCATION_ERROR_ALREADY_STARTED | LOCATION_ERROR_GEOFENCES_AT_MAX | LOCATION_ERROR_NOT_SUPPORTED
  | LOCATION_ERROR_TIMEOUT | LOCATION_ERROR_GNSS_DISABLED.
Definition LocationError_value (x : LocationError) : Z :=
  match x with
  | LOCATION_ERROR_SUCCESS => 0 | LOCATION_ERROR_GENERAL_FAILURE => 1 | LOCATION_ERROR_CALLBACK_MISSING => 2
  | LOCATION_ERROR_INVALID_PARAMETER => 3 | LOCATION_ERROR_ID_EXISTS => 4 | LOCATION_ERROR_ID_UNKNOWN => 5
  | LOCATION_ERROR_ALREADY_STARTED => 6 | LOCATION_ERROR_GEOFENCES_AT_MAX => 7
  | LOCATION_ERROR_NOT_SUPPORTED => 8 | LOCATION_ERROR_TIMEOUT => 9 | LOCATION_ERROR_GNSS_DISABLED => 10
  end.
#[export] Instance LocationError_enum : CEnum LocationError :=
  {| value := LocationError_value; enumerators :=
      [LOCATION_ERROR_SUCCESS; LOCATION_ERROR_GENERAL_FAILURE; LOCATION_ERROR_CALLBACK_MISSING;
       LOCATION_ERROR_INVALID_PARAMETER; LOCATION_ERROR_ID_EXISTS; LOCATION_ERROR_ID_UNKNOWN;
       LOCATION_ERROR_ALREADY_STARTED; LOCATION_ERROR_GEOFENCES_AT_MAX; LOCATION_ERROR_NOT_SUPPORTED;
       LOCATION_ERROR_TIMEOUT; LOCATION_ERROR_GNSS_DISABLED];
     enumerators_all := ltac:(enum_all) |}.

(** LocationDataTypes.h:71 *)
Inductive LocationFlagsBits :=
  | LOCATION_HAS_LAT_LONG_BIT | LOCATION_HAS_ALTITUDE_BIT | LOCATION_HAS_SPEED_BIT | LOCATION_HAS_BEARING_BIT
  | LOCATION_HAS_ACCURACY_BIT | LOCATION_HAS_VERTICAL_ACCURACY_BIT | LOCATION_HAS_SPEED_ACCURACY_BIT
  | LOCATION_HAS_BEARING_ACCURACY_BIT | LOCATION_HAS_SPOOF_MASK | LOCATION_HAS_ELAPSED_REAL_TIME
  | LOCATION_HAS_CONFORMITY_INDEX_BIT.
Definition LocationFlagsBits_value (x : LocationFlagsBits) : Z :=
  match x with
  | LOCATION_HAS_LAT_LONG_BIT => 1 | LOCATION_HAS_ALTITUDE_BIT => 2 | LOCATION_HAS_SPEED_BIT => 4
  | LOCATION_HAS_BEARING_BIT => 8 | LOCATION_HAS_ACCURACY_BIT => 16
  | LOCATION_HAS_VERTICAL_ACCURACY_BIT => 32 | LOCATION_HAS_SPEED_ACCURACY_BIT => 64
  | LOCATION_HAS_BEARING_ACCURACY_BIT => 128 | LOCATION_HAS_SPOOF_MASK => 256
  | LOCATION_HAS_ELAPSED_REAL_TIME => 512 | LOCATION_HAS_CONFORMITY_INDEX_BIT => 2 ^ 10
  end.
#[export] Instance LocationFlagsBits_enum : CEnum LocationFlagsBits :=
  {| value := LocationFlagsBits_value; enumerators :=
      [LOCATION_HAS_LAT_LONG_BIT; LOCATION_HAS_ALTITUDE_BIT; LOCATION_HAS_SPEED_BIT;
       LOCATION_HAS_BEARING_BIT; LOCATION_HAS_ACCURACY_BIT; LOCATION_HAS_VERTICAL_ACCURACY_BIT;
       LOCATION_HAS_SPEED_ACCURACY_BIT; LOCATION_HAS_BEARING_ACCURACY_BIT; LOCATION_HAS_SPOOF_MASK;
       LOCATION_HAS_ELAPSED_REAL_TIME; LOCATION_HAS_CONFORMITY_INDEX_BIT];
     enumerators_all := ltac:(enum_all) |}.

(** LocationDataTypes.h:87 *)
Inductive LocationTechnologyBits :=
  | LOCATION_TECHNOLOGY_GNSS_BIT | LOCATION_TECHNOLOGY_CELL_BIT | LOCATION_TECHNOLOGY_WIFI_BIT
  | LOCATION_TECHNOLOGY_SENSORS_BIT | LOCATION_TECHNOLOGY_REFERENCE_LOCATION_BIT
  | LOCATION_TECHNOLOGY_INJECTED_COARSE_POSITION_BIT | LOCATION_TECHNOLOGY_AFLT_BIT
  | LOCATION_TECHNOLOGY_HYBRID_BIT | LOCATION_TECHNOLOGY_PPE_BIT | LOCATION_TECHNOLOGY_VEH_BIT
  | LOCATION_TECHNOLOGY_VIS_BIT | LOCATION_TECHNOLOGY_DGNSS_BIT.
Definition LocationTechnologyBits_value (x : LocationTechnologyBits) : Z :=
  match x with
  | LOCATION_TECHNOLOGY_GNSS_BIT => 1 | LOCATION_TECHNOLOGY_CELL_BIT => 2 | LOCATION_TECHNOLOGY_WIFI_BIT => 4
  | LOCATION_TECHNOLOGY_SENSORS_BIT => 8 | LOCATION_TECHNOLOGY_REFERENCE_LOCATION_BIT => 16
  | LOCATION_TECHNOLOGY_INJECTED_COARSE_POSITION_BIT => 32 | LOCATION_TECHNOLOGY_AFLT_BIT => 64
  | LOCATION_TECHNOLOGY_HYBRID_BIT => 128 | LOCATION_TECHNOLOGY_PPE_BIT => 256
  | LOCATION_TECHNOLOGY_VEH_BIT => 512 | LOCATION_TECHNOLOGY_VIS_BIT => 2 ^ 10
  | LOCATION_TECHNOLOGY_DGNSS_BIT => 2 ^ 11
  end.
#[export] Instance LocationTechnologyBits_enum : CEnum LocationTechnologyBits :=
  {| value := LocationTechnologyBits_value; enumerators :=
      [LOCATION_TECHNOLOGY_GNSS_BIT; LOCATION_TECHNOLOGY_CELL_BIT; LOCATION_TECHNOLOGY_WIFI_BIT;
       LOCATION_TECHNOLOGY_SENSORS_BIT; LOCATION_TECHNOLOGY_REFERENCE_LOCATION_BIT;
       LOCATION_TECHNOLOGY_INJECTED_COARSE_POSITION_BIT; LOCATION_TECHNOLOGY_AFLT_BIT;
       LOCATION_TECHNOLOGY_HYBRID_BIT; LOCATION_TECHNOLOGY_PPE_BIT; LOCATION_TECHNOLOGY_VEH_BIT;
       LOCATION_TECHNOLOGY_VIS_BIT; LOCATION_TECHNOLOGY_DGNSS_BIT];
     enumerators_all := ltac:(enum_all) |}.

(** LocationDataTypes.h:109 *)
Inductive LocationReliability :=
  | LOCATION_RELIABILITY_NOT_SET | LOCATION_RELIABILITY_VERY_LOW | LOCATION_RELIABILITY_LOW
  | LOCATION_RELIABILITY_MEDIUM | LOCATION_RELIABILITY_HIGH.
Definition LocationReliability_value (x : LocationReliability) : Z :=
  match x with
  | LOCATION_RELIABILITY_NOT_SET => 0 | LOCATION_RELIABILITY_VERY_LOW => 1 | LOCATION_RELIABILITY_LOW => 2
  | LOCATION_RELIABILITY_MEDIUM => 3 | LOCATION_RELIABILITY_HIGH => 4
  end.
#[export] Instance LocationReliability_enum : CEnum LocationReliability :=
  {| value := LocationReliability_value; enumerators :=
      [LOCATION_RELIABILITY_NOT_SET; LOCATION_RELIABILITY_VERY_LOW; LOCATION_RELIABILITY_LOW;
       LOCATION_RELIABILITY_MEDIUM; LOCATION_RELIABILITY_HIGH];
     enumerators_all := ltac:(enum_all) |}.

(** LocationDataTypes.h:118 *)
Inductive GnssLocationNavSolutionBits :=
  | LOCATION_SBAS_CORRECTION_IONO_BIT | LOCATION_SBAS_CORRECTION_FAST_BIT | LOCATION_SBAS_CORRECTION_LONG_BIT
  | LOCATION_SBAS_INTEGRITY_BIT | LOCATION_NAV_CORRECTION_DGNSS_BIT | LOCATION_NAV_CORRECTION_RTK_BIT
  | LOCATION_NAV_CORRECTION_PPP_BIT | LOCATION_NAV_CORRECTION_RTK_FIXED_BIT
  | LOCATION_NAV_CORRECTION_ONLY_SBAS_CORRECTED_SV_USED_BIT.
Definition GnssLocationNavSolutionBits_value (x : GnssLocationNavSolutionBits) : Z :=
  match x with
  | LOCATION_SBAS_CORRECTION_IONO_BIT => 1 | LOCATION_SBAS_CORRECTION_FAST_BIT => 2
  | LOCATION_SBAS_CORRECTION_LONG_BIT => 4 | LOCATION_SBAS_INTEGRITY_BIT => 8
  | LOCATION_NAV_CORRECTION_DGNSS_BIT => 16 | LOCATION_NAV_CORRECTION_RTK_BIT => 32
  | LOCATION_NAV_CORRECTION_PPP_BIT => 64 | LOCATION_NAV_CORRECTION_RTK_FIXED_BIT => 128
  | LOCATION_NAV_CORRECTION_ONLY_SBAS_CORRECTED_SV_USED_BIT => 256
  end.
#[export] Instance GnssLocationNavSolutionBits_enum : CEnum GnssLocationNavSolutionBits :=
  {| value := GnssLocationNavSolutionBits_value; enumerators :=
      [LOCATION_SBAS_CORRECTION_IONO_BIT; LOCATION_SBAS_CORRECTION_FAST_BIT;
       LOCATION_SBAS_CORRECTION_LONG_BIT; LOCATION_SBAS_INTEGRITY_BIT; LOCATION_NAV_CORRECTION_DGNSS_BIT;
       LOCATION_NAV_CORRECTION_RTK_BIT; LOCATION_NAV_CORRECTION_PPP_BIT;
       LOCATION_NAV_CORRECTION_RTK_FIXED_BIT; LOCATION_NAV_CORRECTION_ONLY_SBAS_CORRECTED_SV_USED_BIT];
     enumerators_all := ltac:(enum_all) |}.

(** LocationDataTypes.h:140 *)
Inductive GnssLocationPosDataBits :=
  | LOCATION_NAV_DATA_HAS_LONG_ACCEL_BIT | LOCATION_NAV_DATA_HAS_LAT_ACCEL_BIT
  | LOCATION_NAV_DATA_HAS_VERT_ACCEL_BIT | LOCATION_NAV_DATA_HAS_YAW_RATE_BIT
  | LOCATION_NAV_DATA_HAS_PITCH_BIT | LOCATION_NAV_DATA_HAS_LONG_ACCEL_UNC_BIT
  | LOCATION_NAV_DATA_HAS_LAT_ACCEL_UNC_BIT | LOCATION_NAV_DATA_HAS_VERT_ACCEL_UNC_BIT
  | LOCATION_NAV_DATA_HAS_YAW_RATE_UNC_BIT | LOCATION_NAV_DATA_HAS_PITCH_UNC_BIT.
Definition GnssLocationPosDataBits_value (x : GnssLocationPosDataBits) : Z :=
  match x with
  | LOCATION_NAV_DATA_HAS_LONG_ACCEL_BIT => 1 | LOCATION_NAV_DATA_HAS_LAT_ACCEL_BIT => 2
  | LOCATION_NAV_DATA_HAS_VERT_ACCEL_BIT => 4 | LOCATION_NAV_DATA_HAS_YAW_RATE_BIT => 8
  | LOCATION_NAV_DATA_HAS_PITCH_BIT => 16 | LOCATION_NAV_DATA_HAS_LONG_ACCEL_UNC_BIT => 32
  | LOCATION_NAV_DATA_HAS_LAT_ACCEL_UNC_BIT => 64 | LOCATION_NAV_DATA_HAS_VERT_ACCEL_UNC_BIT => 128
  | LOCATION_NAV_DATA_HAS_YAW_RATE_UNC_BIT => 256 | LOCATION_NAV_DATA_HAS_PITCH_UNC_BIT => 512
  end.
#[export] Instance GnssLocationPosDataBits_enum : CEnum GnssLocationPosDataBits :=
  {| value := GnssLocationPosDataBits_value; enumerators :=
      [LOCATION_NAV_DATA_HAS_LONG_ACCEL_BIT; LOCATION_NAV_DATA_HAS_LAT_ACCEL_BIT;
       LOCATION_NAV_DATA_HAS_VERT_ACCEL_BIT; LOCATION_NAV_DATA_HAS_YAW_RATE_BIT;
       LOCATION_NAV_DATA_HAS_PITCH_BIT; LOCATION_NAV_DATA_HAS_LONG_ACCEL_UNC_BIT;
       LOCATION_NAV_DATA_HAS_LAT_ACCEL_UNC_BIT; LOCATION_NAV_DATA_HAS_VERT_ACCEL_UNC_BIT;
       LOCATION_NAV_DATA_HAS_YAW_RATE_UNC_BIT; LOCATION_NAV_DATA_HAS_PITCH_UNC_BIT];
     enumerators_all := ltac:(enum_all) |}.

(** LocationDataTypes.h:159 *)
Inductive GnssLocationPosDataBitsExt :=
  | LOCATION_NAV_DATA_HAS_PITCH_RATE_BIT | LOCATION_NAV_DATA_HAS_PITCH_RATE_UNC_BIT
  | LOCATION_NAV_DATA_HAS_ROLL_BIT | LOCATION_NAV_DATA_HAS_ROLL_UNC_BIT | LOCATION_NAV_DATA_HAS_ROLL_RATE_BIT
  | LOCATION_NAV_DATA_HAS_ROLL_RATE_UNC_BIT | LOCATION_NAV_DATA_HAS_YAW_BIT
  | LOCATION_NAV_DATA_HAS_YAW_UNC_BIT.
Definition GnssLocationPosDataBitsExt_value (x : GnssLocationPosDataBitsExt) : Z :=
  match x with
  | LOCATION_NAV_DATA_HAS_PITCH_RATE_BIT => 1 | LOCATION_NAV_DATA_HAS_PITCH_RATE_UNC_BIT => 2
  | LOCATION_NAV_DATA_HAS_ROLL_BIT => 4 | LOCATION_NAV_DATA_HAS_ROLL_UNC_BIT => 8
  | LOCATION_NAV_DATA_HAS_ROLL_RATE_BIT => 16 | LOCATION_NAV_DATA_HAS_ROLL_RATE_UNC_BIT => 32
  | LOCATION_NAV_DATA_HAS_YAW_BIT => 64 | LOCATION_NAV_DATA_HAS_YAW_UNC_BIT => 128
  end.
#[export] Instance GnssLocationPosDataBitsExt_enum : CEnum GnssLocationPosDataBitsExt :=
  {| value := GnssLocationPosDataBitsExt_value; enumerators :=
      [LOCATION_NAV_DATA_HAS_PITCH_RATE_BIT; LOCATION_NAV_DATA_HAS_PITCH_RATE_UNC_BIT;
       LOCATION_NAV_DATA_HAS_ROLL_BIT; LOCATION_NAV_DATA_HAS_ROLL_UNC_BIT;
       LOCATION_NAV_DATA_HAS_ROLL_RATE_BIT; LOCATION_NAV_DATA_HAS_ROLL_RATE_UNC_BIT;
       LOCATION_NAV_DATA_HAS_YAW_BIT; LOCATION_NAV_DATA_HAS_YAW_UNC_BIT];
     enumerators_all := ltac:(enum_all) |}.

(** LocationDataTypes.h:179 *)
Inductive GnssLocationInfoFlagBits :=
  | GNSS_LOCATION_INFO_ALTITUDE_MEAN_SEA_LEVEL_BIT | GNSS_LOCATION_INFO_DOP_BIT
  | GNSS_LOCATION_INFO_MAGNETIC_DEVIATION_BIT | GNSS_LOCATION_INFO_HOR_RELIABILITY_BIT
  | GNSS_LOCATION_INFO_VER_RELIABILITY_BIT | GNSS_LOCATION_INFO_HOR_ACCURACY_ELIP_SEMI_MAJOR_BIT
  | GNSS_LOCATION_INFO_HOR_ACCURACY_ELIP_SEMI_MINOR_BIT | GNSS_LOCATION_INFO_HOR_ACCURACY_ELIP_AZIMUTH_BIT
  | GNSS_LOCATION_INFO_GNSS_SV_USED_DATA_BIT | GNSS_LOCATION_INFO_NAV_SOLUTION_MASK_BIT
  | GNSS_LOCATION_INFO_SV_SOURCE_INFO_BIT | GNSS_LOCATION_INFO_POS_DYNAMICS_DATA_BIT
  | GNSS_LOCATION_INFO_EXT_DOP_BIT | GNSS_LOCATION_INFO_NORTH_STD_DEV_BIT
  | GNSS_LOCATION_INFO_EAST_STD_DEV_BIT | GNSS_LOCATION_INFO_NORTH_VEL_BIT | GNSS_LOCATION_INFO_EAST_VEL_BIT
  | GNSS_LOCATION_INFO_UP_VEL_BIT | GNSS_LOCATION_INFO_NORTH_VEL_UNC_BIT
  | GNSS_LOCATION_INFO_EAST_VEL_UNC_BIT | GNSS_LOCATION_INFO_UP_VEL_UNC_BIT
  | GNSS_LOCATION_INFO_LEAP_SECONDS_BIT | GNSS_LOCATION_INFO_TIME_UNC_BIT
  | GNSS_LOCATION_INFO_NUM_SV_USED_IN_POSITION_BIT | GNSS_LOCATION_INFO_CALIBRATION_CONFIDENCE_BIT
  | GNSS_LOCATION_INFO_CALIBRATION_STATUS_BIT | GNSS_LOCATION_INFO_OUTPUT_ENG_TYPE_BIT
  | GNSS_LOCATION_INFO_OUTPUT_ENG_MASK_BIT | GNSS_LOCATION_INFO_CONFORMITY_INDEX_BIT
  | GNSS_LOCATION_INFO_LLA_VRP_BASED_BIT | GNSS_LOCATION_INFO_ENU_VELOCITY_VRP_BASED_BIT
  | GNSS_LOCATION_INFO_DR_SOLUTION_STATUS_MASK_BIT | GNSS_LOCATION_INFO_ALTITUDE_ASSUMED_BIT
  | GNSS_LOCATION_INFO_SESSION_STATUS_BIT.
Definition GnssLocationInfoFlagBits_value (x : GnssLocationInfoFlagBits) : Z :=
  match x with
  | GNSS_LOCATION_INFO_ALTITUDE_MEAN_SEA_LEVEL_BIT => 1 | GNSS_LOCATION_INFO_DOP_BIT => 2
  | GNSS_LOCATION_INFO_MAGNETIC_DEVIATION_BIT => 4 | GNSS_LOCATION_INFO_HOR_RELIABILITY_BIT => 8
  | GNSS_LOCATION_INFO_VER_RELIABILITY_BIT => 16 | GNSS_LOCATION_INFO_HOR_ACCURACY_ELIP_SEMI_MAJOR_BIT => 32
  | GNSS_LOCATION_INFO_HOR_ACCURACY_ELIP_SEMI_MINOR_BIT => 64
  | GNSS_LOCATION_INFO_HOR_ACCURACY_ELIP_AZIMUTH_BIT => 128 | GNSS_LOCATION_INFO_GNSS_SV_USED_DATA_BIT => 256
  | GNSS_LOCATION_INFO_NAV_SOLUTION_MASK_BIT => 512 | GNSS_LOCATION_INFO_SV_SOURCE_INFO_BIT => 2 ^ 10
  | GNSS_LOCATION_INFO_POS_DYNAMICS_DATA_BIT => 2 ^ 11 | GNSS_LOCATION_INFO_EXT_DOP_BIT => 2 ^ 12
  | GNSS_LOCATION_INFO_NORTH_STD_DEV_BIT => 2 ^ 13 | GNSS_LOCATION_INFO_EAST_STD_DEV_BIT => 2 ^ 14
  | GNSS_LOCATION_INFO_NORTH_VEL_BIT => 2 ^ 15 | GNSS_LOCATION_INFO_EAST_VEL_BIT => 2 ^ 16
  | GNSS_LOCATION_INFO_UP_VEL_BIT => 2 ^ 17 | GNSS_LOCATION_INFO_NORTH_VEL_UNC_BIT => 2 ^ 18
  | GNSS_LOCATION_INFO_EAST_VEL_UNC_BIT => 2 ^ 19 | GNSS_LOCATION_INFO_UP_VEL_UNC_BIT => 2 ^ 20
  | GNSS_LOCATION_INFO_LEAP_SECONDS_BIT => 2 ^ 21 | GNSS_LOCATION_INFO_TIME_UNC_BIT => 2 ^ 22
  | GNSS_LOCATION_INFO_NUM_SV_USED_IN_POSITION_BIT => 2 ^ 23
  | GNSS_LOCATION_INFO_CALIBRATION_CONFIDENCE_BIT => 2 ^ 24
  | GNSS_LOCATION_INFO_CALIBRATION_STATUS_BIT => 2 ^ 25 | GNSS_LOCATION_INFO_OUTPUT_ENG_TYPE_BIT => 2 ^ 26
  | GNSS_LOCATION_INFO_OUTPUT_ENG_MASK_BIT => 2 ^ 27 | GNSS_LOCATION_INFO_CONFORMITY_INDEX_BIT => 2 ^ 28
  | GNSS_LOCATION_INFO_LLA_VRP_BASED_BIT => 2 ^ 29 | GNSS_LOCATION_INFO_ENU_VELOCITY_VRP_BASED_BIT => 2 ^ 30
  | GNSS_LOCATION_INFO_DR_SOLUTION_STATUS_MASK_BIT => 2 ^ 31
  | GNSS_LOCATION_INFO_ALTITUDE_ASSUMED_BIT => 2 ^ 32 | GNSS_LOCATION_INFO_SESSION_STATUS_BIT => 2 ^ 33
  end.
#[export] Instance GnssLocationInfoFlagBits_enum : CEnum GnssLocationInfoFlagBits :=
  {| value := GnssLocationInfoFlagBits_value; enumerators :=
      [GNSS_LOCATION_INFO_ALTITUDE_MEAN_SEA_LEVEL_BIT; GNSS_LOCATION_INFO_DOP_BIT;
       GNSS_LOCATION_INFO_MAGNETIC_DEVIATION_BIT; GNSS_LOCATION_INFO_HOR_RELIABILITY_BIT;
       GNSS_LOCATION_INFO_VER_RELIABILITY_BIT; GNSS_LOCATION_INFO_HOR_ACCURACY_ELIP_SEMI_MAJOR_BIT;
       GNSS_LOCATION_INFO_HOR_ACCURACY_ELIP_SEMI_MINOR_BIT; GNSS_LOCATION_INFO_HOR_ACCURACY_ELIP_AZIMUTH_BIT;
       GNSS_LOCATION_INFO_GNSS_SV_USED_DATA_BIT; GNSS_LOCATION_INFO_NAV_SOLUTION_MASK_BIT;
       GNSS_LOCATION_INFO_SV_SOURCE_INFO_BIT; GNSS_LOCATION_INFO_POS_DYNAMICS_DATA_BIT;
       GNSS_LOCATION_INFO_EXT_DOP_BIT; GNSS_LOCATION_INFO_NORTH_STD_DEV_BIT;
       GNSS_LOCATION_INFO_EAST_STD_DEV_BIT; GNSS_LOCATION_INFO_NORTH_VEL_BIT;
       GNSS_LOCATION_INFO_EAST_VEL_BIT; GNSS_LOCATION_INFO_UP_VEL_BIT; GNSS_LOCATION_INFO_NORTH_VEL_UNC_BIT;
       GNSS_LOCATION_INFO_EAST_VEL_UNC_BIT; GNSS_LOCATION_INFO_UP_VEL_UNC_BIT;
       GNSS_LOCATION_INFO_LEAP_SECONDS_BIT; GNSS_LOCATION_INFO_TIME_UNC_BIT;
       GNSS_LOCATION_INFO_NUM_SV_USED_IN_POSITION_BIT; GNSS_LOCATION_INFO_CALIBRATION_CONFIDENCE_BIT;
       GNSS_LOCATION_INFO_CALIBRATION_STATUS_BIT; GNSS_LOCATION_INFO_OUTPUT_ENG_TYPE_BIT;
       GNSS_LOCATION_INFO_OUTPUT_ENG_MASK_BIT; GNSS_LOCATION_INFO_CONFORMITY_INDEX_BIT;
       GNSS_LOCATION_INFO_LLA_VRP_BASED_BIT; GNSS_LOCATION_INFO_ENU_VELOCITY_VRP_BASED_BIT;
       GNSS_LOCATION_INFO_DR_SOLUTION_STATUS_MASK_BIT; GNSS_LOCATION_INFO_ALTITUDE_ASSUMED_BIT;
       GNSS_LOCATION_INFO_SESSION_STATUS_BIT];
     enumerators_all := ltac:(enum_all) |}.

(** LocationDataTypes.h:228 *)
Inductive GeofenceBreachTypeBits :=
  | GEOFENCE_BREACH_ENTER_BIT | GEOFENCE_BREACH_EXIT_BIT | GEOFENCE_BREACH_DWELL_IN_BIT
  | GEOFENCE_BREACH_DWELL_OUT_BIT.
Definition GeofenceBreachTypeBits_value (x : GeofenceBreachTypeBits) : Z :=
  match x with
  | GEOFENCE_BREACH_ENTER_BIT => 1 | GEOFENCE_BREACH_EXIT_BIT => 2 | GEOFENCE_BREACH_DWELL_IN_BIT => 4
  | GEOFENCE_BREACH_DWELL_OUT_BIT => 8
  end.
#[export] Instance GeofenceBreachTypeBits_enum : CEnum GeofenceBreachTypeBits :=
  {| value := GeofenceBreachTypeBits_value; enumerators :=
      [GEOFENCE_BREACH_ENTER_BIT; GEOFENCE_BREACH_EXIT_BIT; GEOFENCE_BREACH_DWELL_IN_BIT;
       GEOFENCE_BREACH_DWELL_OUT_BIT];
     enumerators_all := ltac:(enum_all) |}.

(** LocationDataTypes.h:242 *)
Inductive LocationCapabilitiesBits :=
  | LOCATION_CAPABILITIES_TIME_BASED_TRACKING_BIT | LOCATION_CAPABILITIES_TIME_BASED_BATCHING_BIT
  | LOCATION_CAPABILITIES_DISTANCE_BASED_TRACKING_BIT | LOCATION_CAPABILITIES_DISTANCE_BASED_BATCHING_BIT
  | LOCATION_CAPABILITIES_GEOFENCE_BIT | LOCATION_CAPABILITIES_GNSS_MEASUREMENTS_BIT
  | LOCATION_CAPABILITIES_GNSS_MSB_BIT | LOCATION_CAPABILITIES_GNSS_MSA_BIT
  | LOCATION_CAPABILITIES_DEBUG_NMEA_BIT | LOCATION_CAPABILITIES_OUTDOOR_TRIP_BATCHING_BIT
  | LOCATION_CAPABILITIES_CONSTELLATION_ENABLEMENT_BIT | LOCATION_CAPABILITIES_AGPM_BIT
  | LOCATION_CAPABILITIES_PRIVACY_BIT | LOCATION_CAPABILITIES_MEASUREMENTS_CORRECTION_BIT
  | LOCATION_CAPABILITIES_CONFORMITY_INDEX_BIT | LOCATION_CAPABILITIES_EDGNSS_BIT
  | LOCATION_CAPABILITIES_QWES_CARRIER_PHASE_BIT | LOCATION_CAPABILITIES_QWES_SV_POLYNOMIAL_BIT
  | LOCATION_CAPABILITIES_QWES_SV_EPHEMERIS_BIT | LOCATION_CAPABILITIES_QWES_GNSS_SINGLE_FREQUENCY
  | LOCATION_CAPABILITIES_QWES_GNSS_MULTI_FREQUENCY | LOCATION_CAPABILITIES_QWES_VPE
  | LOCATION_CAPABILITIES_QWES_CV2X_LOCATION_BASIC | LOCATION_CAPABILITIES_QWES_CV2X_LOCATION_PREMIUM
  | LOCATION_CAPABILITIES_QWES_PPE | LOCATION_CAPABILITIES_QWES_QDR2 | LOCATION_CAPABILITIES_QWES_QDR3.
Definition LocationCapabilitiesBits_value (x : LocationCapabilitiesBits) : Z :=
  match x with
  | LOCATION_CAPABILITIES_TIME_BASED_TRACKING_BIT => 1 | LOCATION_CAPABILITIES_TIME_BASED_BATCHING_BIT => 2
  | LOCATION_CAPABILITIES_DISTANCE_BASED_TRACKING_BIT => 4
  | LOCATION_CAPABILITIES_DISTANCE_BASED_BATCHING_BIT => 8 | LOCATION_CAPABILITIES_GEOFENCE_BIT => 16
  | LOCATION_CAPABILITIES_GNSS_MEASUREMENTS_BIT => 32 | LOCATION_CAPABILITIES_GNSS_MSB_BIT => 64
  | LOCATION_CAPABILITIES_GNSS_MSA_BIT => 128 | LOCATION_CAPABILITIES_DEBUG_NMEA_BIT => 256
  | LOCATION_CAPABILITIES_OUTDOOR_TRIP_BATCHING_BIT => 512
  | LOCATION_CAPABILITIES_CONSTELLATION_ENABLEMENT_BIT => 2 ^ 10 | LOCATION_CAPABILITIES_AGPM_BIT => 2 ^ 11
  | LOCATION_CAPABILITIES_PRIVACY_BIT => 2 ^ 12 | LOCATION_CAPABILITIES_MEASUREMENTS_CORRECTION_BIT => 2 ^ 13
  | LOCATION_CAPABILITIES_CONFORMITY_INDEX_BIT => 2 ^ 14 | LOCATION_CAPABILITIES_EDGNSS_BIT => 2 ^ 15
  | LOCATION_CAPABILITIES_QWES_CARRIER_PHASE_BIT => 2 ^ 16
  | LOCATION_CAPABILITIES_QWES_SV_POLYNOMIAL_BIT => 2 ^ 17
  | LOCATION_CAPABILITIES_QWES_SV_EPHEMERIS_BIT => 2 ^ 18
  | LOCATION_CAPABILITIES_QWES_GNSS_SINGLE_FREQUENCY => 2 ^ 19
  | LOCATION_CAPABILITIES_QWES_GNSS_MULTI_FREQUENCY => 2 ^ 20 | LOCATION_CAPABILITIES_QWES_VPE => 2 ^ 21
  | LOCATION_CAPABILITIES_QWES_CV2X_LOCATION_BASIC => 2 ^ 22
  | LOCATION_CAPABILITIES_QWES_CV2X_LOCATION_PREMIUM => 2 ^ 23 | LOCATION_CAPABILITIES_QWES_PPE => 2 ^ 24
  | LOCATION_CAPABILITIES_QWES_QDR2 => 2 ^ 25 | LOCATION_CAPABILITIES_QWES_QDR3 => 2 ^ 26
  end.
#[export] Instance LocationCapabilitiesBits_enum : CEnum LocationCapabilitiesBits :=
  {| value := LocationCapabilitiesBits_value; enumerators :=
      [LOCATION_CAPABILITIES_TIME_BASED_TRACKING_BIT; LOCATION_CAPABILITIES_TIME_BASED_BATCHING_BIT;
       LOCATION_CAPABILITIES_DISTANCE_BASED_TRACKING_BIT; LOCATION_CAPABILITIES_DISTANCE_BASED_BATCHING_BIT;
       LOCATION_CAPABILITIES_GEOFENCE_BIT; LOCATION_CAPABILITIES_GNSS_MEASUREMENTS_BIT;
       LOCATION_CAPABILITIES_GNSS_MSB_BIT; LOCATION_CAPABILITIES_GNSS_MSA_BIT;
       LOCATION_CAPABILITIES_DEBUG_NMEA_BIT; LOCATION_CAPABILITIES_OUTDOOR_TRIP_BATCHING_BIT;
       LOCATION_CAPABILITIES_CONSTELLATION_ENABLEMENT_BIT; LOCATION_CAPABILITIES_AGPM_BIT;
       LOCATION_CAPABILITIES_PRIVACY_BIT; LOCATION_CAPABILITIES_MEASUREMENTS_CORRECTION_BIT;
       LOCATION_CAPABILITIES_CONFORMITY_INDEX_BIT; LOCATION_CAPABILITIES_EDGNSS_BIT;
       LOCATION_CAPABILITIES_QWES_CARRIER_PHASE_BIT; LOCATION_CAPABILITIES_QWES_SV_POLYNOMIAL_BIT;
       LOCATION_CAPABILITIES_QWES_SV_EPHEMERIS_BIT; LOCATION_CAPABILITIES_QWES_GNSS_SINGLE_FREQUENCY;
       LOCATION_CAPABILITIES_QWES_GNSS_MULTI_FREQUENCY; LOCATION_CAPABILITIES_QWES_VPE;
       LOCATION_CAPABILITIES_QWES_CV2X_LOCATION_BASIC; LOCATION_CAPABILITIES_QWES_CV2X_LOCATION_PREMIUM;
       LOCATION_CAPABILITIES_QWES_PPE; LOCATION_CAPABILITIES_QWES_QDR2; LOCATION_CAPABILITIES_QWES_QDR3];
     enumerators_all := ltac:(enum_all) |}.

(** LocationDataTypes.h:479 *)
Inductive GnssSvType :=
  | GNSS_SV_TYPE_UNKNOWN | GNSS_SV_TYPE_GPS | GNSS_SV_TYPE_SBAS | GNSS_SV_TYPE_GLONASS | GNSS_SV_TYPE_QZSS
  | GNSS_SV_TYPE_BEIDOU | GNSS_SV_TYPE_GALILEO | GNSS_SV_TYPE_NAVIC.
Definition GnssSvType_value (x : GnssSvType) : Z :=
  match x with
  | GNSS_SV_TYPE_UNKNOWN => 0 | GNSS_SV_TYPE_GPS => 1 | GNSS_SV_TYPE_SBAS => 2 | GNSS_SV_TYPE_GLONASS => 3
  | GNSS_SV_TYPE_QZSS => 4 | GNSS_SV_TYPE_BEIDOU => 5 | GNSS_SV_TYPE_GALILEO => 6 | GNSS_SV_TYPE_NAVIC => 7
  end.
#[export] Instance GnssSvType_enum : CEnum GnssSvType :=
  {| value := GnssSvType_value; enumerators :=
      [GNSS_SV_TYPE_UNKNOWN; GNSS_SV_TYPE_GPS; GNSS_SV_TYPE_SBAS; GNSS_SV_TYPE_GLONASS; GNSS_SV_TYPE_QZSS;
       GNSS_SV_TYPE_BEIDOU; GNSS_SV_TYPE_GALILEO; GNSS_SV_TYPE_NAVIC];
     enumerators_all := ltac:(enum_all) |}.

(** LocationDataTypes.h:511 *)
Inductive GnssSvOptionsBits :=
  | GNSS_SV_OPTIONS_HAS_EPHEMER_BIT | GNSS_SV_OPTIONS_HAS_ALMANAC_BIT | GNSS_SV_OPTIONS_USED_IN_FIX_BIT
  | GNSS_SV_OPTIONS_HAS_CARRIER_FREQUENCY_BIT | GNSS_SV_OPTIONS_HAS_GNSS_SIGNAL_TYPE_BIT.
Definition GnssSvOptionsBits_value (x : GnssSvOptionsBits) : Z :=
  match x with
  | GNSS_SV_OPTIONS_HAS_EPHEMER_BIT => 1 | GNSS_SV_OPTIONS_HAS_ALMANAC_BIT => 2
  | GNSS_SV_OPTIONS_USED_IN_FIX_BIT => 4 | GNSS_SV_OPTIONS_HAS_CARRIER_FREQUENCY_BIT => 8
  | GNSS_SV_OPTIONS_HAS_GNSS_SIGNAL_TYPE_BIT => 16
  end.
#[export] Instance GnssSvOptionsBits_enum : CEnum GnssSvOptionsBits :=
  {| value := GnssSvOptionsBits_value; enumerators :=
      [GNSS_SV_OPTIONS_HAS_EPHEMER_BIT; GNSS_SV_OPTIONS_HAS_ALMANAC_BIT; GNSS_SV_OPTIONS_USED_IN_FIX_BIT;
       GNSS_SV_OPTIONS_HAS_CARRIER_FREQUENCY_BIT; GNSS_SV_OPTIONS_HAS_GNSS_SIGNAL_TYPE_BIT];
     enumerators_all := ltac:(enum_all) |}.

(** LocationDataTypes.h:526 *)
Inductive GnssSuplMode :=
  | GNSS_SUPL_MODE_STANDALONE | GNSS_SUPL_MODE_MSB | GNSS_SUPL_MODE_MSA.
Definition GnssSuplMode_value (x : GnssSuplMode) : Z :=
  match x with
  | GNSS_SUPL_MODE_STANDALONE => 0 | GNSS_SUPL_MODE_MSB => 1 | GNSS_SUPL_MODE_MSA => 2
  end.
#[export] Instance GnssSuplMode_enum : CEnum GnssSuplMode :=
  {| value := GnssSuplMode_value; enumerators :=
      [GNSS_SUPL_MODE_STANDALONE; GNSS_SUPL_MODE_MSB; GNSS_SUPL_MODE_MSA];
     enumerators_all := ltac:(enum_all) |}.

(** LocationDataTypes.h:532 *)
Inductive BatchingMode :=
  | BATCHING_MODE_ROUTINE | BATCHING_MODE_TRIP | BATCHING_MODE_NO_AUTO_REPORT.
Definition BatchingMode_value (x : BatchingMode) : Z :=
  match x with
  | BATCHING_MODE_ROUTINE => 0 | BATCHING_MODE_TRIP => 1 | BATCHING_MODE_NO_AUTO_REPORT => 2
  end.
#[export] Instance BatchingMode_enum : CEnum BatchingMode :=
  {| value := BatchingMode_value; enumerators :=
      [BATCHING_MODE_ROUTINE; BATCHING_MODE_TRIP; BATCHING_MODE_NO_AUTO_REPORT];
     enumerators_all := ltac:(enum_all) |}.

(** LocationDataTypes.h:538 *)
Inductive BatchingStatus :=
  | BATCHING_STATUS_TRIP_COMPLETED | BATCHING_STATUS_POSITION_AVAILABE | BATCHING_STATUS_POSITION_UNAVAILABLE.
Definition BatchingStatus_value (x : BatchingStatus) : Z :=
  match x with
  | BATCHING_STATUS_TRIP_COMPLETED => 0 | BATCHING_STATUS_POSITION_AVAILABE => 1
  | BATCHING_STATUS_POSITION_UNAVAILABLE => 2
  end.
#[export] Instance BatchingStatus_enum : CEnum BatchingStatus :=
  {| value := BatchingStatus_value; enumerators :=
      [BATCHING_STATUS_TRIP_COMPLETED; BATCHING_STATUS_POSITION_AVAILABE;
       BATCHING_STATUS_POSITION_UNAVAILABLE];
     enumerators_all := ltac:(enum_all) |}.

(** LocationDataTypes.h:545 *)
Inductive GnssMeasurementsAdrStateBits :=
  | GNSS_MEASUREMENTS_ACCUMULATED_DELTA_RANGE_STATE_UNKNOWN
  | GNSS_MEASUREMENTS_ACCUMULATED_DELTA_RANGE_STATE_VALID_BIT
  | GNSS_MEASUREMENTS_ACCUMULATED_DELTA_RANGE_STATE_RESET_BIT
  | GNSS_MEASUREMENTS_ACCUMULATED_DELTA_RANGE_STATE_CYCLE_SLIP_BIT
  | GNSS_MEASUREMENTS_ACCUMULATED_DELTA_RANGE_STATE_HALF_CYCLE_RESOLVED_BIT.
Definition GnssMeasurementsAdrStateBits_value (x : GnssMeasurementsAdrStateBits) : Z :=
  match x with
  | GNSS_MEASUREMENTS_ACCUMULATED_DELTA_RANGE_STATE_UNKNOWN => 0
  | GNSS_MEASUREMENTS_ACCUMULATED_DELTA_RANGE_STATE_VALID_BIT => 1
  | GNSS_MEASUREMENTS_ACCUMULATED_DELTA_RANGE_STATE_RESET_BIT => 2
  | GNSS_MEASUREMENTS_ACCUMULATED_DELTA_RANGE_STATE_CYCLE_SLIP_BIT => 4
  | GNSS_MEASUREMENTS_ACCUMULATED_DELTA_RANGE_STATE_HALF_CYCLE_RESOLVED_BIT => 8
  end.
#[export] Instance GnssMeasurementsAdrStateBits_enum : CEnum GnssMeasurementsAdrStateBits :=
  {| value := GnssMeasurementsAdrStateBits_value; enumerators :=
      [GNSS_MEASUREMENTS_ACCUMULATED_DELTA_RANGE_STATE_UNKNOWN;
       GNSS_MEASUREMENTS_ACCUMULATED_DELTA_RANGE_STATE_VALID_BIT;
       GNSS_MEASUREMENTS_ACCUMULATED_DELTA_RANGE_STATE_RESET_BIT;
       GNSS_MEASUREMENTS_ACCUMULATED_DELTA_RANGE_STATE_CYCLE_SLIP_BIT;
       GNSS_MEASUREMENTS_ACCUMULATED_DELTA_RANGE_STATE_HALF_CYCLE_RESOLVED_BIT];
     enumerators_all := ltac:(enum_all) |}.

(** LocationDataTypes.h:572 *)
Inductive GnssMeasurementsDataFlagsBits :=
  | GNSS_MEASUREMENTS_DATA_SV_ID_BIT | GNSS_MEASUREMENTS_DATA_SV_TYPE_BIT | GNSS_MEASUREMENTS_DATA_STATE_BIT
  | GNSS_MEASUREMENTS_DATA_RECEIVED_SV_TIME_BIT | GNSS_MEASUREMENTS_DATA_RECEIVED_SV_TIME_UNCERTAINTY_BIT
  | GNSS_MEASUREMENTS_DATA_CARRIER_TO_NOISE_BIT | GNSS_MEASUREMENTS_DATA_PSEUDORANGE_RATE_BIT
  | GNSS_MEASUREMENTS_DATA_PSEUDORANGE_RATE_UNCERTAINTY_BIT | GNSS_MEASUREMENTS_DATA_ADR_STATE_BIT
  | GNSS_MEASUREMENTS_DATA_ADR_BIT | GNSS_MEASUREMENTS_DATA_ADR_UNCERTAINTY_BIT
  | GNSS_MEASUREMENTS_DATA_CARRIER_FREQUENCY_BIT | GNSS_MEASUREMENTS_DATA_CARRIER_CYCLES_BIT
  | GNSS_MEASUREMENTS_DATA_CARRIER_PHASE_BIT | GNSS_MEASUREMENTS_DATA_CARRIER_PHASE_UNCERTAINTY_BIT
  | GNSS_MEASUREMENTS_DATA_MULTIPATH_INDICATOR_BIT | GNSS_MEASUREMENTS_DATA_SIGNAL_TO_NOISE_RATIO_BIT
  | GNSS_MEASUREMENTS_DATA_AUTOMATIC_GAIN_CONTROL_BIT | GNSS_MEASUREMENTS_DATA_FULL_ISB_BIT
  | GNSS_MEASUREMENTS_DATA_FULL_ISB_UNCERTAINTY_BIT | GNSS_MEASUREMENTS_DATA_SATELLITE_ISB_BIT
  | GNSS_MEASUREMENTS_DATA_SATELLITE_ISB_UNCERTAINTY_BIT | GNSS_MEASUREMENTS_DATA_CYCLE_SLIP_COUNT_BIT.
Definition GnssMeasurementsDataFlagsBits_value (x : GnssMeasurementsDataFlagsBits) : Z :=
  match x with
  | GNSS_MEASUREMENTS_DATA_SV_ID_BIT => 1 | GNSS_MEASUREMENTS_DATA_SV_TYPE_BIT => 2
  | GNSS_MEASUREMENTS_DATA_STATE_BIT => 4 | GNSS_MEASUREMENTS_DATA_RECEIVED_SV_TIME_BIT => 8
  | GNSS_MEASUREMENTS_DATA_RECEIVED_SV_TIME_UNCERTAINTY_BIT => 16
  | GNSS_MEASUREMENTS_DATA_CARRIER_TO_NOISE_BIT => 32 | GNSS_MEASUREMENTS_DATA_PSEUDORANGE_RATE_BIT => 64
  | GNSS_MEASUREMENTS_DATA_PSEUDORANGE_RATE_UNCERTAINTY_BIT => 128
  | GNSS_MEASUREMENTS_DATA_ADR_STATE_BIT => 256 | GNSS_MEASUREMENTS_DATA_ADR_BIT => 512
  | GNSS_MEASUREMENTS_DATA_ADR_UNCERTAINTY_BIT => 2 ^ 10
  | GNSS_MEASUREMENTS_DATA_CARRIER_FREQUENCY_BIT => 2 ^ 11
  | GNSS_MEASUREMENTS_DATA_CARRIER_CYCLES_BIT => 2 ^ 12 | GNSS_MEASUREMENTS_DATA_CARRIER_PHASE_BIT => 2 ^ 13
  | GNSS_MEASUREMENTS_DATA_CARRIER_PHASE_UNCERTAINTY_BIT => 2 ^ 14
  | GNSS_MEASUREMENTS_DATA_MULTIPATH_INDICATOR_BIT => 2 ^ 15
  | GNSS_MEASUREMENTS_DATA_SIGNAL_TO_NOISE_RATIO_BIT => 2 ^ 16
  | GNSS_MEASUREMENTS_DATA_AUTOMATIC_GAIN_CONTROL_BIT => 2 ^ 17
  | GNSS_MEASUREMENTS_DATA_FULL_ISB_BIT => 2 ^ 18 | GNSS_MEASUREMENTS_DATA_FULL_ISB_UNCERTAINTY_BIT => 2 ^ 19
  | GNSS_MEASUREMENTS_DATA_SATELLITE_ISB_BIT => 2 ^ 20
  | GNSS_MEASUREMENTS_DATA_SATELLITE_ISB_UNCERTAINTY_BIT => 2 ^ 21
  | GNSS_MEASUREMENTS_DATA_CYCLE_SLIP_COUNT_BIT => 2 ^ 22
  end.
#[export] Instance GnssMeasurementsDataFlagsBits_enum : CEnum GnssMeasurementsDataFlagsBits :=
  {| value := GnssMeasurementsDataFlagsBits_value; enumerators :=
      [GNSS_MEASUREMENTS_DATA_SV_ID_BIT; GNSS_MEASUREMENTS_DATA_SV_TYPE_BIT;
       GNSS_MEASUREMENTS_DATA_STATE_BIT; GNSS_MEASUREMENTS_DATA_RECEIVED_SV_TIME_BIT;
       GNSS_MEASUREMENTS_DATA_RECEIVED_SV_TIME_UNCERTAINTY_BIT; GNSS_MEASUREMENTS_DATA_CARRIER_TO_NOISE_BIT;
       GNSS_MEASUREMENTS_DATA_PSEUDORANGE_RATE_BIT; GNSS_MEASUREMENTS_DATA_PSEUDORANGE_RATE_UNCERTAINTY_BIT;
       GNSS_MEASUREMENTS_DATA_ADR_STATE_BIT; GNSS_MEASUREMENTS_DATA_ADR_BIT;
       GNSS_MEASUREMENTS_DATA_ADR_UNCERTAINTY_BIT; GNSS_MEASUREMENTS_DATA_CARRIER_FREQUENCY_BIT;
       GNSS_MEASUREMENTS_DATA_CARRIER_CYCLES_BIT; GNSS_MEASUREMENTS_DATA_CARRIER_PHASE_BIT;
       GNSS_MEASUREMENTS_DATA_CARRIER_PHASE_UNCERTAINTY_BIT; GNSS_MEASUREMENTS_DATA_MULTIPATH_INDICATOR_BIT;
       GNSS_MEASUREMENTS_DATA_SIGNAL_TO_NOISE_RATIO_BIT; GNSS_MEASUREMENTS_DATA_AUTOMATIC_GAIN_CONTROL_BIT;
       GNSS_MEASUREMENTS_DATA_FULL_ISB_BIT; GNSS_MEASUREMENTS_DATA_FULL_ISB_UNCERTAINTY_BIT;
       GNSS_MEASUREMENTS_DATA_SATELLITE_ISB_BIT; GNSS_MEASUREMENTS_DATA_SATELLITE_ISB_UNCERTAINTY_BIT;
       GNSS_MEASUREMENTS_DATA_CYCLE_SLIP_COUNT_BIT];
     enumerators_all := ltac:(enum_all) |}.

(** LocationDataTypes.h:599 *)
Inductive GnssMeasurementsStateBits :=
  | GNSS_MEASUREMENTS_STATE_UNKNOWN_BIT | GNSS_MEASUREMENTS_STATE_CODE_LOCK_BIT
  | GNSS_MEASUREMENTS_STATE_BIT_SYNC_BIT | GNSS_MEASUREMENTS_STATE_SUBFRAME_SYNC_BIT
  | GNSS_MEASUREMENTS_STATE_TOW_DECODED_BIT | GNSS_MEASUREMENTS_STATE_MSEC_AMBIGUOUS_BIT
  | GNSS_MEASUREMENTS_STATE_SYMBOL_SYNC_BIT | GNSS_MEASUREMENTS_STATE_GLO_STRING_SYNC_BIT
  | GNSS_MEASUREMENTS_STATE_GLO_TOD_DECODED_BIT | GNSS_MEASUREMENTS_STATE_BDS_D2_BIT_SYNC_BIT
  | GNSS_MEASUREMENTS_STATE_BDS_D2_SUBFRAME_SYNC_BIT | GNSS_MEASUREMENTS_STATE_GAL_E1BC_CODE_LOCK_BIT
  | GNSS_MEASUREMENTS_STATE_GAL_E1C_2ND_CODE_LOCK_BIT | GNSS_MEASUREMENTS_STATE_GAL_E1B_PAGE_SYNC_BIT
  | GNSS_MEASUREMENTS_STATE_SBAS_SYNC_BIT | GNSS_MEASUREMENTS_STATE_TOW_KNOWN_BIT
  | GNSS_MEASUREMENTS_STATE_GLO_TOD_KNOWN_BIT | GNSS_MEASUREMENTS_STATE_2ND_CODE_LOCK_BIT.
Definition GnssMeasurementsStateBits_value (x : GnssMeasurementsStateBits) : Z :=
  match x with
  | GNSS_MEASUREMENTS_STATE_UNKNOWN_BIT => 0 | GNSS_MEASUREMENTS_STATE_CODE_LOCK_BIT => 1
  | GNSS_MEASUREMENTS_STATE_BIT_SYNC_BIT => 2 | GNSS_MEASUREMENTS_STATE_SUBFRAME_SYNC_BIT => 4
  | GNSS_MEASUREMENTS_STATE_TOW_DECODED_BIT => 8 | GNSS_MEASUREMENTS_STATE_MSEC_AMBIGUOUS_BIT => 16
  | GNSS_MEASUREMENTS_STATE_SYMBOL_SYNC_BIT => 32 | GNSS_MEASUREMENTS_STATE_GLO_STRING_SYNC_BIT => 64
  | GNSS_MEASUREMENTS_STATE_GLO_TOD_DECODED_BIT => 128 | GNSS_MEASUREMENTS_STATE_BDS_D2_BIT_SYNC_BIT => 256
  | GNSS_MEASUREMENTS_STATE_BDS_D2_SUBFRAME_SYNC_BIT => 512
  | GNSS_MEASUREMENTS_STATE_GAL_E1BC_CODE_LOCK_BIT => 2 ^ 10
  | GNSS_MEASUREMENTS_STATE_GAL_E1C_2ND_CODE_LOCK_BIT => 2 ^ 11
  | GNSS_MEASUREMENTS_STATE_GAL_E1B_PAGE_SYNC_BIT => 2 ^ 12 | GNSS_MEASUREMENTS_STATE_SBAS_SYNC_BIT => 2 ^ 13
  | GNSS_MEASUREMENTS_STATE_TOW_KNOWN_BIT => 2 ^ 14 | GNSS_MEASUREMENTS_STATE_GLO_TOD_KNOWN_BIT => 2 ^ 15
  | GNSS_MEASUREMENTS_STATE_2ND_CODE_LOCK_BIT => 2 ^ 16
  end.
#[export] Instance GnssMeasurementsStateBits_enum : CEnum GnssMeasurementsStateBits :=
  {| value := GnssMeasurementsStateBits_value; enumerators :=
      [GNSS_MEASUREMENTS_STATE_UNKNOWN_BIT; GNSS_MEASUREMENTS_STATE_CODE_LOCK_BIT;
       GNSS_MEASUREMENTS_STATE_BIT_SYNC_BIT; GNSS_MEASUREMENTS_STATE_SUBFRAME_SYNC_BIT;
       GNSS_MEASUREMENTS_STATE_TOW_DECODED_BIT; GNSS_MEASUREMENTS_STATE_MSEC_AMBIGUOUS_BIT;
       GNSS_MEASUREMENTS_STATE_SYMBOL_SYNC_BIT; GNSS_MEASUREMENTS_STATE_GLO_STRING_SYNC_BIT;
       GNSS_MEASUREMENTS_STATE_GLO_TOD_DECODED_BIT; GNSS_MEASUREMENTS_STATE_BDS_D2_BIT_SYNC_BIT;
       GNSS_MEASUREMENTS_STATE_BDS_D2_SUBFRAME_SYNC_BIT; GNSS_MEASUREMENTS_STATE_GAL_E1BC_CODE_LOCK_BIT;
       GNSS_MEASUREMENTS_STATE_GAL_E1C_2ND_CODE_LOCK_BIT; GNSS_MEASUREMENTS_STATE_GAL_E1B_PAGE_SYNC_BIT;
       GNSS_MEASUREMENTS_STATE_SBAS_SYNC_BIT; GNSS_MEASUREMENTS_STATE_TOW_KNOWN_BIT;
       GNSS_MEASUREMENTS_STATE_GLO_TOD_KNOWN_BIT; GNSS_MEASUREMENTS_STATE_2ND_CODE_LOCK_BIT];
     enumerators_all := ltac:(enum_all) |}.

(** LocationDataTypes.h:629 *)
Inductive GnssMeasurementsMultipathIndicator :=
  | GNSS_MEASUREMENTS_MULTIPATH_INDICATOR_UNKNOWN | GNSS_MEASUREMENTS_MULTIPATH_INDICATOR_PRESENT
  | GNSS_MEASUREMENTS_MULTIPATH_INDICATOR_NOT_PRESENT.
Definition GnssMeasurementsMultipathIndicator_value (x : GnssMeasurementsMultipathIndicator) : Z :=
  match x with
  | GNSS_MEASUREMENTS_MULTIPATH_INDICATOR_UNKNOWN => 0 | GNSS_MEASUREMENTS_MULTIPATH_INDICATOR_PRESENT => 1
  | GNSS_MEASUREMENTS_MULTIPATH_INDICATOR_NOT_PRESENT => 2
  end.
#[export] Instance GnssMeasurementsMultipathIndicator_enum : CEnum GnssMeasurementsMultipathIndicator :=
  {| value := GnssMeasurementsMultipathIndicator_value; enumerators :=
      [GNSS_MEASUREMENTS_MULTIPATH_INDICATOR_UNKNOWN; GNSS_MEASUREMENTS_MULTIPATH_INDICATOR_PRESENT;
       GNSS_MEASUREMENTS_MULTIPATH_INDICATOR_NOT_PRESENT];
     enumerators_all := ltac:(enum_all) |}.

(** LocationDataTypes.h:636 *)
Inductive GnssMeasurementsClockFlagsBits :=
  | GNSS_MEASUREMENTS_CLOCK_FLAGS_LEAP_SECOND_BIT | GNSS_MEASUREMENTS_CLOCK_FLAGS_TIME_BIT
  | GNSS_MEASUREMENTS_CLOCK_FLAGS_TIME_UNCERTAINTY_BIT | GNSS_MEASUREMENTS_CLOCK_FLAGS_FULL_BIAS_BIT
  | GNSS_MEASUREMENTS_CLOCK_FLAGS_BIAS_BIT | GNSS_MEASUREMENTS_CLOCK_FLAGS_BIAS_UNCERTAINTY_BIT
  | GNSS_MEASUREMENTS_CLOCK_FLAGS_DRIFT_BIT | GNSS_MEASUREMENTS_CLOCK_FLAGS_DRIFT_UNCERTAINTY_BIT
  | GNSS_MEASUREMENTS_CLOCK_FLAGS_HW_CLOCK_DISCONTINUITY_COUNT_BIT
  | GNSS_MEASUREMENTS_CLOCK_FLAGS_ELAPSED_REAL_TIME_BIT.
Definition GnssMeasurementsClockFlagsBits_value (x : GnssMeasurementsClockFlagsBits) : Z :=
  match x with
  | GNSS_MEASUREMENTS_CLOCK_FLAGS_LEAP_SECOND_BIT => 1 | GNSS_MEASUREMENTS_CLOCK_FLAGS_TIME_BIT => 2
  | GNSS_MEASUREMENTS_CLOCK_FLAGS_TIME_UNCERTAINTY_BIT => 4
  | GNSS_MEASUREMENTS_CLOCK_FLAGS_FULL_BIAS_BIT => 8 | GNSS_MEASUREMENTS_CLOCK_FLAGS_BIAS_BIT => 16
  | GNSS_MEASUREMENTS_CLOCK_FLAGS_BIAS_UNCERTAINTY_BIT => 32 | GNSS_MEASUREMENTS_CLOCK_FLAGS_DRIFT_BIT => 64
  | GNSS_MEASUREMENTS_CLOCK_FLAGS_DRIFT_UNCERTAINTY_BIT => 128
  | GNSS_MEASUREMENTS_CLOCK_FLAGS_HW_CLOCK_DISCONTINUITY_COUNT_BIT => 256
  | GNSS_MEASUREMENTS_CLOCK_FLAGS_ELAPSED_REAL_TIME_BIT => 512
  end.
#[export] Instance GnssMeasurementsClockFlagsBits_enum : CEnum GnssMeasurementsClockFlagsBits :=
  {| value := GnssMeasurementsClockFlagsBits_value; enumerators :=
      [GNSS_MEASUREMENTS_CLOCK_FLAGS_LEAP_SECOND_BIT; GNSS_MEASUREMENTS_CLOCK_FLAGS_TIME_BIT;
       GNSS_MEASUREMENTS_CLOCK_FLAGS_TIME_UNCERTAINTY_BIT; GNSS_MEASUREMENTS_CLOCK_FLAGS_FULL_BIAS_BIT;
       GNSS_MEASUREMENTS_CLOCK_FLAGS_BIAS_BIT; GNSS_MEASUREMENTS_CLOCK_FLAGS_BIAS_UNCERTAINTY_BIT;
       GNSS_MEASUREMENTS_CLOCK_FLAGS_DRIFT_BIT; GNSS_MEASUREMENTS_CLOCK_FLAGS_DRIFT_UNCERTAINTY_BIT;
       GNSS_MEASUREMENTS_CLOCK_FLAGS_HW_CLOCK_DISCONTINUITY_COUNT_BIT;
       GNSS_MEASUREMENTS_CLOCK_FLAGS_ELAPSED_REAL_TIME_BIT];
     enumerators_all := ltac:(enum_all) |}.

(** LocationDataTypes.h:650 *)
Inductive GnssAidingDataSvBits :=
  | GNSS_AIDING_DATA_SV_EPHEMERIS_BIT | GNSS_AIDING_DATA_SV_ALMANAC_BIT | GNSS_AIDING_DATA_SV_HEALTH_BIT
  | GNSS_AIDING_DATA_SV_DIRECTION_BIT | GNSS_AIDING_DATA_SV_STEER_BIT | GNSS_AIDING_DATA_SV_ALMANAC_CORR_BIT
  | GNSS_AIDING_DATA_SV_BLACKLIST_BIT | GNSS_AIDING_DATA_SV_SA_DATA_BIT | GNSS_AIDING_DATA_SV_NO_EXIST_BIT
  | GNSS_AIDING_DATA_SV_IONOSPHERE_BIT | GNSS_AIDING_DATA_SV_TIME_BIT | GNSS_AIDING_DATA_SV_MB_DATA
  | GNSS_AIDING_DATA_SV_POLY_BIT.
Definition GnssAidingDataSvBits_value (x : GnssAidingDataSvBits) : Z :=
  match x with
  | GNSS_AIDING_DATA_SV_EPHEMERIS_BIT => 1 | GNSS_AIDING_DATA_SV_ALMANAC_BIT => 2
  | GNSS_AIDING_DATA_SV_HEALTH_BIT => 4 | GNSS_AIDING_DATA_SV_DIRECTION_BIT => 8
  | GNSS_AIDING_DATA_SV_STEER_BIT => 16 | GNSS_AIDING_DATA_SV_ALMANAC_CORR_BIT => 32
  | GNSS_AIDING_DATA_SV_BLACKLIST_BIT => 64 | GNSS_AIDING_DATA_SV_SA_DATA_BIT => 128
  | GNSS_AIDING_DATA_SV_NO_EXIST_BIT => 256 | GNSS_AIDING_DATA_SV_IONOSPHERE_BIT => 512
  | GNSS_AIDING_DATA_SV_TIME_BIT => 2 ^ 10 | GNSS_AIDING_DATA_SV_MB_DATA => 2 ^ 11
  | GNSS_AIDING_DATA_SV_POLY_BIT => 2 ^ 12
  end.
#[export] Instance GnssAidingDataSvBits_enum : CEnum GnssAidingDataSvBits :=
  {| value := GnssAidingDataSvBits_value; enumerators :=
      [GNSS_AIDING_DATA_SV_EPHEMERIS_BIT; GNSS_AIDING_DATA_SV_ALMANAC_BIT; GNSS_AIDING_DATA_SV_HEALTH_BIT;
       GNSS_AIDING_DATA_SV_DIRECTION_BIT; GNSS_AIDING_DATA_SV_STEER_BIT;
       GNSS_AIDING_DATA_SV_ALMANAC_CORR_BIT; GNSS_AIDING_DATA_SV_BLACKLIST_BIT;
       GNSS_AIDING_DATA_SV_SA_DATA_BIT; GNSS_AIDING_DATA_SV_NO_EXIST_BIT; GNSS_AIDING_DATA_SV_IONOSPHERE_BIT;
       GNSS_AIDING_DATA_SV_TIME_BIT; GNSS_AIDING_DATA_SV_MB_DATA; GNSS_AIDING_DATA_SV_POLY_BIT];
     enumerators_all := ltac:(enum_all) |}.

(** LocationDataTypes.h:698 *)
Inductive GnssSignalTypeBits :=
  | GNSS_SIGNAL_GPS_L1CA | GNSS_SIGNAL_GPS_L1C | GNSS_SIGNAL_GPS_L2 | GNSS_SIGNAL_GPS_L5
  | GNSS_SIGNAL_GLONASS_G1 | GNSS_SIGNAL_GLONASS_G2 | GNSS_SIGNAL_GALILEO_E1 | GNSS_SIGNAL_GALILEO_E5A
  | GNSS_SIGNAL_GALILEO_E5B | GNSS_SIGNAL_BEIDOU_B1 | GNSS_SIGNAL_BEIDOU_B2 | GNSS_SIGNAL_QZSS_L1CA
  | GNSS_SIGNAL_QZSS_L1S | GNSS_SIGNAL_QZSS_L2 | GNSS_SIGNAL_QZSS_L5 | GNSS_SIGNAL_SBAS_L1
  | GNSS_SIGNAL_BEIDOU_B1I | GNSS_SIGNAL_BEIDOU_B1C | GNSS_SIGNAL_BEIDOU_B2I | GNSS_SIGNAL_BEIDOU_B2AI
  | GNSS_SIGNAL_NAVIC_L5 | GNSS_SIGNAL_BEIDOU_B2AQ.
Definition GnssSignalTypeBits_value (x : GnssSignalTypeBits) : Z :=
  match x with
  | GNSS_SIGNAL_GPS_L1CA => 1 | GNSS_SIGNAL_GPS_L1C => 2 | GNSS_SIGNAL_GPS_L2 => 4 | GNSS_SIGNAL_GPS_L5 => 8
  | GNSS_SIGNAL_GLONASS_G1 => 16 | GNSS_SIGNAL_GLONASS_G2 => 32 | GNSS_SIGNAL_GALILEO_E1 => 64
  | GNSS_SIGNAL_GALILEO_E5A => 128 | GNSS_SIGNAL_GALILEO_E5B => 256 | GNSS_SIGNAL_BEIDOU_B1 => 512
  | GNSS_SIGNAL_BEIDOU_B2 => 2 ^ 10 | GNSS_SIGNAL_QZSS_L1CA => 2 ^ 11 | GNSS_SIGNAL_QZSS_L1S => 2 ^ 12
  | GNSS_SIGNAL_QZSS_L2 => 2 ^ 13 | GNSS_SIGNAL_QZSS_L5 => 2 ^ 14 | GNSS_SIGNAL_SBAS_L1 => 2 ^ 15
  | GNSS_SIGNAL_BEIDOU_B1I => 2 ^ 16 | GNSS_SIGNAL_BEIDOU_B1C => 2 ^ 17 | GNSS_SIGNAL_BEIDOU_B2I => 2 ^ 18
  | GNSS_SIGNAL_BEIDOU_B2AI => 2 ^ 19 | GNSS_SIGNAL_NAVIC_L5 => 2 ^ 20 | GNSS_SIGNAL_BEIDOU_B2AQ => 2 ^ 21
  end.
#[export] Instance GnssSignalTypeBits_enum : CEnum GnssSignalTypeBits :=
  {| value := GnssSignalTypeBits_value; enumerators :=
      [GNSS_SIGNAL_GPS_L1CA; GNSS_SIGNAL_GPS_L1C; GNSS_SIGNAL_GPS_L2; GNSS_SIGNAL_GPS_L5;
       GNSS_SIGNAL_GLONASS_G1; GNSS_SIGNAL_GLONASS_G2; GNSS_SIGNAL_GALILEO_E1; GNSS_SIGNAL_GALILEO_E5A;
       GNSS_SIGNAL_GALILEO_E5B; GNSS_SIGNAL_BEIDOU_B1; GNSS_SIGNAL_BEIDOU_B2; GNSS_SIGNAL_QZSS_L1CA;
       GNSS_SIGNAL_QZSS_L1S; GNSS_SIGNAL_QZSS_L2; GNSS_SIGNAL_QZSS_L5; GNSS_SIGNAL_SBAS_L1;
       GNSS_SIGNAL_BEIDOU_B1I; GNSS_SIGNAL_BEIDOU_B1C; GNSS_SIGNAL_BEIDOU_B2I; GNSS_SIGNAL_BEIDOU_B2AI;
       GNSS_SIGNAL_NAVIC_L5; GNSS_SIGNAL_BEIDOU_B2AQ];
     enumerators_all := ltac:(enum_all) |}.

(** LocationDataTypes.h:754 *)
Inductive Gnss_LocSvSystemEnumType :=
  | GNSS_LOC_SV_SYSTEM_UNKNOWN | GNSS_LOC_SV_SYSTEM_MIN | GNSS_LOC_SV_SYSTEM_GPS | GNSS_LOC_SV_SYSTEM_GALILEO
  | GNSS_LOC_SV_SYSTEM_SBAS | GNSS_LOC_SV_SYSTEM_GLONASS | GNSS_LOC_SV_SYSTEM_BDS | GNSS_LOC_SV_SYSTEM_QZSS
  | GNSS_LOC_SV_SYSTEM_NAVIC | GNSS_LOC_SV_SYSTEM_MAX.
Definition Gnss_LocSvSystemEnumType_value (x : Gnss_LocSvSystemEnumType) : Z :=
  match x with
  | GNSS_LOC_SV_SYSTEM_UNKNOWN => 0 | GNSS_LOC_SV_SYSTEM_MIN => 1 | GNSS_LOC_SV_SYSTEM_GPS => 1
  | GNSS_LOC_SV_SYSTEM_GALILEO => 2 | GNSS_LOC_SV_SYSTEM_SBAS => 3 | GNSS_LOC_SV_SYSTEM_GLONASS => 4
  | GNSS_LOC_SV_SYSTEM_BDS => 5 | GNSS_LOC_SV_SYSTEM_QZSS => 6 | GNSS_LOC_SV_SYSTEM_NAVIC => 7
  | GNSS_LOC_SV_SYSTEM_MAX => 7
  end.
#[export] Instance Gnss_LocSvSystemEnumType_enum : CEnum Gnss_LocSvSystemEnumType :=
  {| value := Gnss_LocSvSystemEnumType_value; enumerators :=
      [GNSS_LOC_SV_SYSTEM_UNKNOWN; GNSS_LOC_SV_SYSTEM_MIN; GNSS_LOC_SV_SYSTEM_GPS;
       GNSS_LOC_SV_SYSTEM_GALILEO; GNSS_LOC_SV_SYSTEM_SBAS; GNSS_LOC_SV_SYSTEM_GLONASS;
       GNSS_LOC_SV_SYSTEM_BDS; GNSS_LOC_SV_SYSTEM_QZSS; GNSS_LOC_SV_SYSTEM_NAVIC; GNSS_LOC_SV_SYSTEM_MAX];
     enumerators_all := ltac:(enum_all) |}.

(** LocationDataTypes.h:803 *)
Inductive PositioningEngineBits :=
  | STANDARD_POSITIONING_ENGINE | DEAD_RECKONING_ENGINE | PRECISE_POSITIONING_ENGINE | VP_POSITIONING_ENGINE.
Definition PositioningEngineBits_value (x : PositioningEngineBits) : Z :=
  match x with
  | STANDARD_POSITIONING_ENGINE => 1 | DEAD_RECKONING_ENGINE => 2 | PRECISE_POSITIONING_ENGINE => 4
  | VP_POSITIONING_ENGINE => 8
  end.
#[export] Instance PositioningEngineBits_enum : CEnum PositioningEngineBits :=
  {| value := PositioningEngineBits_value; enumerators :=
      [STANDARD_POSITIONING_ENGINE; DEAD_RECKONING_ENGINE; PRECISE_POSITIONING_ENGINE; VP_POSITIONING_ENGINE];
     enumerators_all := ltac:(enum_all) |}.

(** LocationDataTypes.h:814 *)
Inductive LocEngineRunState :=
  | LOC_ENGINE_RUN_STATE_PAUSE | LOC_ENGINE_RUN_STATE_RESUME.
Definition LocEngineRunState_value (x : LocEngineRunState) : Z :=
  match x with
  | LOC_ENGINE_RUN_STATE_PAUSE => 1 | LOC_ENGINE_RUN_STATE_RESUME => 2
  end.
#[export] Instance LocEngineRunState_enum : CEnum LocEngineRunState :=
  {| value := LocEngineRunState_value; enumerators :=
      [LOC_ENGINE_RUN_STATE_PAUSE; LOC_ENGINE_RUN_STATE_RESUME];
     enumerators_all := ltac:(enum_all) |}.

(** LocationDataTypes.h:824 *)
Inductive GnssDataBits :=
  | GNSS_LOC_DATA_JAMMER_IND_BIT | GNSS_LOC_DATA_AGC_BIT.
Definition GnssDataBits_value (x : GnssDataBits) : Z :=
  match x with
  | GNSS_LOC_DATA_JAMMER_IND_BIT => 1 | GNSS_LOC_DATA_AGC_BIT => 2
  end.
#[export] Instance GnssDataBits_enum : CEnum GnssDataBits :=
  {| value := GnssDataBits_value; enumerators :=
      [GNSS_LOC_DATA_JAMMER_IND_BIT; GNSS_LOC_DATA_AGC_BIT];
     enumerators_all := ltac:(enum_all) |}.

(** LocationDataTypes.h:832 *)
Inductive GnssSystemTimeTypeBits :=
  | GNSS_SYSTEM_TIME_WEEK_VALID | GNSS_SYSTEM_TIME_WEEK_MS_VALID | GNSS_SYSTEM_CLK_TIME_BIAS_VALID
  | GNSS_SYSTEM_CLK_TIME_BIAS_UNC_VALID | GNSS_SYSTEM_REF_FCOUNT_VALID | GNSS_SYSTEM_NUM_CLOCK_RESETS_VALID.
Definition GnssSystemTimeTypeBits_value (x : GnssSystemTimeTypeBits) : Z :=
  match x with
  | GNSS_SYSTEM_TIME_WEEK_VALID => 1 | GNSS_SYSTEM_TIME_WEEK_MS_VALID => 2
  | GNSS_SYSTEM_CLK_TIME_BIAS_VALID => 4 | GNSS_SYSTEM_CLK_TIME_BIAS_UNC_VALID => 8
  | GNSS_SYSTEM_REF_FCOUNT_VALID => 16 | GNSS_SYSTEM_NUM_CLOCK_RESETS_VALID => 32
  end.
#[export] Instance GnssSystemTimeTypeBits_enum : CEnum GnssSystemTimeTypeBits :=
  {| value := GnssSystemTimeTypeBits_value; enumerators :=
      [GNSS_SYSTEM_TIME_WEEK_VALID; GNSS_SYSTEM_TIME_WEEK_MS_VALID; GNSS_SYSTEM_CLK_TIME_BIAS_VALID;
       GNSS_SYSTEM_CLK_TIME_BIAS_UNC_VALID; GNSS_SYSTEM_REF_FCOUNT_VALID; GNSS_SYSTEM_NUM_CLOCK_RESETS_VALID];
     enumerators_all := ltac:(enum_all) |}.

(** LocationDataTypes.h:842 *)
Inductive GnssGloTimeTypeBits :=
  | GNSS_CLO_DAYS_VALID | GNSS_GLO_MSEC_VALID | GNSS_GLO_CLK_TIME_BIAS_VALID
  | GNSS_GLO_CLK_TIME_BIAS_UNC_VALID | GNSS_GLO_REF_FCOUNT_VALID | GNSS_GLO_NUM_CLOCK_RESETS_VALID
  | GNSS_GLO_FOUR_YEAR_VALID.
Definition GnssGloTimeTypeBits_value (x : GnssGloTimeTypeBits) : Z :=
  match x with
  | GNSS_CLO_DAYS_VALID => 1 | GNSS_GLO_MSEC_VALID => 2 | GNSS_GLO_CLK_TIME_BIAS_VALID => 4
  | GNSS_GLO_CLK_TIME_BIAS_UNC_VALID => 8 | GNSS_GLO_REF_FCOUNT_VALID => 16
  | GNSS_GLO_NUM_CLOCK_RESETS_VALID => 32 | GNSS_GLO_FOUR_YEAR_VALID => 64
  end.
#[export] Instance GnssGloTimeTypeBits_enum : CEnum GnssGloTimeTypeBits :=
  {| value := GnssGloTimeTypeBits_value; enumerators :=
      [GNSS_CLO_DAYS_VALID; GNSS_GLO_MSEC_VALID; GNSS_GLO_CLK_TIME_BIAS_VALID;
       GNSS_GLO_CLK_TIME_BIAS_UNC_VALID; GNSS_GLO_REF_FCOUNT_VALID; GNSS_GLO_NUM_CLOCK_RESETS_VALID;
       GNSS_GLO_FOUR_YEAR_VALID];
     enumerators_all := ltac:(enum_all) |}.

(** LocationDataTypes.h:872 *)
Inductive DrEngineAidingDataBits :=
  | DR_ENGINE_AIDING_DATA_CALIBRATION_BIT.
Definition DrEngineAidingDataBits_value (x : DrEngineAidingDataBits) : Z :=
  match x with
  | DR_ENGINE_AIDING_DATA_CALIBRATION_BIT => 1
  end.
#[export] Instance DrEngineAidingDataBits_enum : CEnum DrEngineAidingDataBits :=
  {| value := DrEngineAidingDataBits_value; enumerators :=
      [DR_ENGINE_AIDING_DATA_CALIBRATION_BIT];
     enumerators_all := ltac:(enum_all) |}.

(** LocationDataTypes.h:885 *)
Inductive DrCalibrationStatusBits :=
  | DR_ROLL_CALIBRATION_NEEDED | DR_PITCH_CALIBRATION_NEEDED | DR_YAW_CALIBRATION_NEEDED
  | DR_ODO_CALIBRATION_NEEDED | DR_GYRO_CALIBRATION_NEEDED.
Definition DrCalibrationStatusBits_value (x : DrCalibrationStatusBits) : Z :=
  match x with
  | DR_ROLL_CALIBRATION_NEEDED => 1 | DR_PITCH_CALIBRATION_NEEDED => 2 | DR_YAW_CALIBRATION_NEEDED => 4
  | DR_ODO_CALIBRATION_NEEDED => 8 | DR_GYRO_CALIBRATION_NEEDED => 16
  end.
#[export] Instance DrCalibrationStatusBits_enum : CEnum DrCalibrationStatusBits :=
  {| value := DrCalibrationStatusBits_value; enumerators :=
      [DR_ROLL_CALIBRATION_NEEDED; DR_PITCH_CALIBRATION_NEEDED; DR_YAW_CALIBRATION_NEEDED;
       DR_ODO_CALIBRATION_NEEDED; DR_GYRO_CALIBRATION_NEEDED];
     enumerators_all := ltac:(enum_all) |}.

(** LocationDataTypes.h:918 *)
Inductive LocReqEngineTypeMask :=
  | LOC_REQ_ENGINE_FUSED_BIT | LOC_REQ_ENGINE_SPE_BIT | LOC_REQ_ENGINE_PPE_BIT | LOC_REQ_ENGINE_VPE_BIT.
Definition LocReqEngineTypeMask_value (x : LocReqEngineTypeMask) : Z :=
  match x with
  | LOC_REQ_ENGINE_FUSED_BIT => 1 | LOC_REQ_ENGINE_SPE_BIT => 2 | LOC_REQ_ENGINE_PPE_BIT => 4
  | LOC_REQ_ENGINE_VPE_BIT => 8
  end.
#[export] Instance LocReqEngineTypeMask_enum : CEnum LocReqEngineTypeMask :=
  {| value := LocReqEngineTypeMask_value; enumerators :=
      [LOC_REQ_ENGINE_FUSED_BIT; LOC_REQ_ENGINE_SPE_BIT; LOC_REQ_ENGINE_PPE_BIT; LOC_REQ_ENGINE_VPE_BIT];
     enumerators_all := ltac:(enum_all) |}.

(** LocationDataTypes.h:925 *)
Inductive LocOutputEngineType :=
  | LOC_OUTPUT_ENGINE_FUSED | LOC_OUTPUT_ENGINE_SPE | LOC_OUTPUT_ENGINE_PPE | LOC_OUTPUT_ENGINE_VPE
  | LOC_OUTPUT_ENGINE_COUNT.
Definition LocOutputEngineType_value (x : LocOutputEngineType) : Z :=
  match x with
  | LOC_OUTPUT_ENGINE_FUSED => 0 | LOC_OUTPUT_ENGINE_SPE => 1 | LOC_OUTPUT_ENGINE_PPE => 2
  | LOC_OUTPUT_ENGINE_VPE => 3 | LOC_OUTPUT_ENGINE_COUNT => 4
  end.
#[export] Instance LocOutputEngineType_enum : CEnum LocOutputEngineType :=
  {| value := LocOutputEngineType_value; enumerators :=
      [LOC_OUTPUT_ENGINE_FUSED; LOC_OUTPUT_ENGINE_SPE; LOC_OUTPUT_ENGINE_PPE; LOC_OUTPUT_ENGINE_VPE;
       LOC_OUTPUT_ENGINE_COUNT];
     enumerators_all := ltac:(enum_all) |}.

(** LocationDataTypes.h:1190 *)
Inductive loc_sess_status :=
  | LOC_SESS_SUCCESS | LOC_SESS_INTERMEDIATE | LOC_SESS_FAILURE.
Definition loc_sess_status_value (x : loc_sess_status) : Z :=
  match x with
  | LOC_SESS_SUCCESS => 0 | LOC_SESS_INTERMEDIATE => 1 | LOC_SESS_FAILURE => 2
  end.
#[export] Instance loc_sess_status_enum : CEnum loc_sess_status :=
  {| value := loc_sess_status_value; enumerators :=
      [LOC_SESS_SUCCESS; LOC_SESS_INTERMEDIATE; LOC_SESS_FAILURE];
     enumerators_all := ltac:(enum_all) |}.

(** LocationDataTypes.h:1521 *)
Inductive GnssConfigRobustLocationValidMask :=
  | GNSS_CONFIG_ROBUST_LOCATION_ENABLED_VALID_BIT | GNSS_CONFIG_ROBUST_LOCATION_ENABLED_FOR_E911_VALID_BIT
  | GNSS_CONFIG_ROBUST_LOCATION_VERSION_VALID_BIT.
Definition GnssConfigRobustLocationValidMask_value (x : GnssConfigRobustLocationValidMask) : Z :=
  match x with
  | GNSS_CONFIG_ROBUST_LOCATION_ENABLED_VALID_BIT => 1
  | GNSS_CONFIG_ROBUST_LOCATION_ENABLED_FOR_E911_VALID_BIT => 2
  | GNSS_CONFIG_ROBUST_LOCATION_VERSION_VALID_BIT => 4
  end.
#[export] Instance GnssConfigRobustLocationValidMask_enum : CEnum GnssConfigRobustLocationValidMask :=
  {| value := GnssConfigRobustLocationValidMask_value; enumerators :=
      [GNSS_CONFIG_ROBUST_LOCATION_ENABLED_VALID_BIT; GNSS_CONFIG_ROBUST_LOCATION_ENABLED_FOR_E911_VALID_BIT;
       GNSS_CONFIG_ROBUST_LOCATION_VERSION_VALID_BIT];
     enumerators_all := ltac:(enum_all) |}.

(** LocationDataTypes.h:1561 *)
Inductive GnssSvTypesMaskBits :=
  | GNSS_SV_TYPES_MASK_GLO_BIT | GNSS_SV_TYPES_MASK_BDS_BIT | GNSS_SV_TYPES_MASK_QZSS_BIT
  | GNSS_SV_TYPES_MASK_GAL_BIT | GNSS_SV_TYPES_MASK_NAVIC_BIT | GNSS_SV_TYPES_MASK_GPS_BIT.
Definition GnssSvTypesMaskBits_value (x : GnssSvTypesMaskBits) : Z :=
  match x with
  | GNSS_SV_TYPES_MASK_GLO_BIT => 1 | GNSS_SV_TYPES_MASK_BDS_BIT => 2 | GNSS_SV_TYPES_MASK_QZSS_BIT => 4
  | GNSS_SV_TYPES_MASK_GAL_BIT => 8 | GNSS_SV_TYPES_MASK_NAVIC_BIT => 16 | GNSS_SV_TYPES_MASK_GPS_BIT => 32
  end.
#[export] Instance GnssSvTypesMaskBits_enum : CEnum GnssSvTypesMaskBits :=
  {| value := GnssSvTypesMaskBits_value; enumerators :=
      [GNSS_SV_TYPES_MASK_GLO_BIT; GNSS_SV_TYPES_MASK_BDS_BIT; GNSS_SV_TYPES_MASK_QZSS_BIT;
       GNSS_SV_TYPES_MASK_GAL_BIT; GNSS_SV_TYPES_MASK_NAVIC_BIT; GNSS_SV_TYPES_MASK_GPS_BIT];
     enumerators_all := ltac:(enum_all) |}.

(** LocationDataTypes.h:1675 *)
Inductive LeapSecondSysInfoDataBits :=
  | LEAP_SECOND_SYS_INFO_CURRENT_LEAP_SECONDS_BIT | LEAP_SECOND_SYS_INFO_LEAP_SECOND_CHANGE_BIT.
Definition LeapSecondSysInfoDataBits_value (x : LeapSecondSysInfoDataBits) : Z :=
  match x with
  | LEAP_SECOND_SYS_INFO_CURRENT_LEAP_SECONDS_BIT => 1 | LEAP_SECOND_SYS_INFO_LEAP_SECOND_CHANGE_BIT => 2
  end.
#[export] Instance LeapSecondSysInfoDataBits_enum : CEnum LeapSecondSysInfoDataBits :=
  {| value := LeapSecondSysInfoDataBits_value; enumerators :=
      [LEAP_SECOND_SYS_INFO_CURRENT_LEAP_SECONDS_BIT; LEAP_SECOND_SYS_INFO_LEAP_SECOND_CHANGE_BIT];
     enumerators_all := ltac:(enum_all) |}.

(** LocationDataTypes.h:1716 *)
Inductive LocationSystemInfoDataBits :=
  | LOCATION_SYS_INFO_LEAP_SECOND.
Definition LocationSystemInfoDataBits_value (x : LocationSystemInfoDataBits) : Z :=
  match x with
  | LOCATION_SYS_INFO_LEAP_SECOND => 1
  end.
#[export] Instance LocationSystemInfoDataBits_enum : CEnum LocationSystemInfoDataBits :=
  {| value := LocationSystemInfoDataBits_value; enumerators :=
      [LOCATION_SYS_INFO_LEAP_SECOND];
     enumerators_all := ltac:(enum_all) |}.

(** LocationDataTypes.h:1727 *)
Inductive TerrestrialTechMask :=
  | TERRESTRIAL_TECH_GTP_WWAN.
Definition TerrestrialTechMask_value (x : TerrestrialTechMask) : Z :=
  match x with
  | TERRESTRIAL_TECH_GTP_WWAN => 1
  end.
#[export] Instance TerrestrialTechMask_enum : CEnum TerrestrialTechMask :=
  {| value := TerrestrialTechMask_value; enumerators :=
      [TERRESTRIAL_TECH_GTP_WWAN];
     enumerators_all := ltac:(enum_all) |}.

(** LocationDataTypes.h:1743 *)
Inductive LeverArmTypeBits :=
  | LEVER_ARM_TYPE_GNSS_TO_VRP_BIT | LEVER_ARM_TYPE_DR_IMU_TO_GNSS_BIT | LEVER_ARM_TYPE_VEPP_IMU_TO_GNSS_BIT.
Definition LeverArmTypeBits_value (x : LeverArmTypeBits) : Z :=
  match x with
  | LEVER_ARM_TYPE_GNSS_TO_VRP_BIT => 1 | LEVER_ARM_TYPE_DR_IMU_TO_GNSS_BIT => 2
  | LEVER_ARM_TYPE_VEPP_IMU_TO_GNSS_BIT => 4
  end.
#[export] Instance LeverArmTypeBits_enum : CEnum LeverArmTypeBits :=
  {| value := LeverArmTypeBits_value; enumerators :=
      [LEVER_ARM_TYPE_GNSS_TO_VRP_BIT; LEVER_ARM_TYPE_DR_IMU_TO_GNSS_BIT; LEVER_ARM_TYPE_VEPP_IMU_TO_GNSS_BIT];
     enumerators_all := ltac:(enum_all) |}.

(** LocationDataTypes.h:1796 *)
Inductive DeadReckoningEngineConfigValidBit :=
  | BODY_TO_SENSOR_MOUNT_PARAMS_BIT | VEHICLE_SPEED_SCALE_FACTOR_BIT | VEHICLE_SPEED_SCALE_FACTOR_UNC_BIT
  | GYRO_SCALE_FACTOR_BIT | GYRO_SCALE_FACTOR_UNC_BIT.
Definition DeadReckoningEngineConfigValidBit_value (x : DeadReckoningEngineConfigValidBit) : Z :=
  match x with
  | BODY_TO_SENSOR_MOUNT_PARAMS_BIT => 1 | VEHICLE_SPEED_SCALE_FACTOR_BIT => 2
  | VEHICLE_SPEED_SCALE_FACTOR_UNC_BIT => 4 | GYRO_SCALE_FACTOR_BIT => 8 | GYRO_SCALE_FACTOR_UNC_BIT => 16
  end.
#[export] Instance DeadReckoningEngineConfigValidBit_enum : CEnum DeadReckoningEngineConfigValidBit :=
  {| value := DeadReckoningEngineConfigValidBit_value; enumerators :=
      [BODY_TO_SENSOR_MOUNT_PARAMS_BIT; VEHICLE_SPEED_SCALE_FACTOR_BIT; VEHICLE_SPEED_SCALE_FACTOR_UNC_BIT;
       GYRO_SCALE_FACTOR_BIT; GYRO_SCALE_FACTOR_UNC_BIT];
     enumerators_all := ltac:(enum_all) |}.

(** LocationApiMsg.h:144 *)
Inductive ClientType :=
  | LOCATION_CLIENT_API | LOCATION_INTEGRATION_API.
Definition ClientType_value (x : ClientType) : Z :=
  match x with
  | LOCATION_CLIENT_API => 1 | LOCATION_INTEGRATION_API => 2
  end.
#[export] Instance ClientType_enum : CEnum ClientType :=
  {| value := ClientType_value; enumerators :=
      [LOCATION_CLIENT_API; LOCATION_INTEGRATION_API];
     enumerators_all := ltac:(enum_all) |}.

(** LocationApiMsg.h:188 *)
Inductive ELocMsgID :=
  | E_LOCAPI_UNDEFINED_MSG_ID | E_LOCAPI_CLIENT_REGISTER_MSG_ID | E_LOCAPI_CLIENT_DEREGISTER_MSG_ID
  | E_LOCAPI_CAPABILILTIES_MSG_ID | E_LOCAPI_HAL_READY_MSG_ID | E_LOCAPI_START_TRACKING_MSG_ID
  | E_LOCAPI_STOP_TRACKING_MSG_ID | E_LOCAPI_UPDATE_CALLBACKS_MSG_ID
  | E_LOCAPI_UPDATE_TRACKING_OPTIONS_MSG_ID | E_LOCAPI_CONTROL_UPDATE_CONFIG_MSG_ID
  | E_LOCAPI_CONTROL_DELETE_AIDING_DATA_MSG_ID | E_LOCAPI_CONTROL_UPDATE_NETWORK_AVAILABILITY_MSG_ID
  | E_LOCAPI_LOCATION_MSG_ID | E_LOCAPI_LOCATION_INFO_MSG_ID | E_LOCAPI_SATELLITE_VEHICLE_MSG_ID
  | E_LOCAPI_NMEA_MSG_ID | E_LOCAPI_DATA_MSG_ID | E_LOCAPI_GET_GNSS_ENGERY_CONSUMED_MSG_ID
  | E_LOCAPI_LOCATION_SYSTEM_INFO_MSG_ID | E_LOCAPI_ENGINE_LOCATIONS_INFO_MSG_ID
  | E_LOCAPI_START_BATCHING_MSG_ID | E_LOCAPI_STOP_BATCHING_MSG_ID | E_LOCAPI_UPDATE_BATCHING_OPTIONS_MSG_ID
  | E_LOCAPI_BATCHING_MSG_ID | E_LOCAPI_ADD_GEOFENCES_MSG_ID | E_LOCAPI_REMOVE_GEOFENCES_MSG_ID
  | E_LOCAPI_MODIFY_GEOFENCES_MSG_ID | E_LOCAPI_PAUSE_GEOFENCES_MSG_ID | E_LOCAPI_RESUME_GEOFENCES_MSG_ID
  | E_LOCAPI_GEOFENCE_BREACH_MSG_ID | E_LOCAPI_MEAS_MSG_ID | E_LOCAPI_GET_SINGLE_TERRESTRIAL_POS_REQ_MSG_ID
  | E_LOCAPI_GET_SINGLE_TERRESTRIAL_POS_RESP_MSG_ID | E_LOCAPI_PINGTEST_MSG_ID
  | E_INTAPI_CONFIG_CONSTRAINTED_TUNC_MSG_ID | E_INTAPI_CONFIG_POSITION_ASSISTED_CLOCK_ESTIMATOR_MSG_ID
  | E_INTAPI_CONFIG_SV_CONSTELLATION_MSG_ID | E_INTAPI_CONFIG_AIDING_DATA_DELETION_MSG_ID
  | E_INTAPI_CONFIG_LEVER_ARM_MSG_ID | E_INTAPI_CONFIG_ROBUST_LOCATION_MSG_ID
  | E_INTAPI_CONFIG_MIN_GPS_WEEK_MSG_ID | E_INTAPI_CONFIG_DEAD_RECKONING_ENGINE_MSG_ID
  | E_INTAPI_CONFIG_MIN_SV_ELEVATION_MSG_ID | E_INTAPI_CONFIG_CONSTELLATION_SECONDARY_BAND_MSG_ID
  | E_INTAPI_CONFIG_ENGINE_RUN_STATE_MSG_ID | E_INTAPI_CONFIG_USER_CONSENT_TERRESTRIAL_POSITIONING_MSG_ID
  | E_INTAPI_GET_ROBUST_LOCATION_CONFIG_REQ_MSG_ID | E_INTAPI_GET_ROBUST_LOCATION_CONFIG_RESP_MSG_ID
  | E_INTAPI_GET_MIN_GPS_WEEK_REQ_MSG_ID | E_INTAPI_GET_MIN_GPS_WEEK_RESP_MSG_ID
  | E_INTAPI_GET_MIN_SV_ELEVATION_REQ_MSG_ID | E_INTAPI_GET_MIN_SV_ELEVATION_RESP_MSG_ID
  | E_INTAPI_GET_CONSTELLATION_SECONDARY_BAND_CONFIG_REQ_MSG_ID
  | E_INTAPI_GET_CONSTELLATION_SECONDARY_BAND_CONFIG_RESP_MSG_ID.
Definition ELocMsgID_value (x : ELocMsgID) : Z :=
  match x with
  | E_LOCAPI_UNDEFINED_MSG_ID => 0 | E_LOCAPI_CLIENT_REGISTER_MSG_ID => 1
  | E_LOCAPI_CLIENT_DEREGISTER_MSG_ID => 2 | E_LOCAPI_CAPABILILTIES_MSG_ID => 3
  | E_LOCAPI_HAL_READY_MSG_ID => 4 | E_LOCAPI_START_TRACKING_MSG_ID => 5 | E_LOCAPI_STOP_TRACKING_MSG_ID => 6
  | E_LOCAPI_UPDATE_CALLBACKS_MSG_ID => 7 | E_LOCAPI_UPDATE_TRACKING_OPTIONS_MSG_ID => 8
  | E_LOCAPI_CONTROL_UPDATE_CONFIG_MSG_ID => 9 | E_LOCAPI_CONTROL_DELETE_AIDING_DATA_MSG_ID => 10
  | E_LOCAPI_CONTROL_UPDATE_NETWORK_AVAILABILITY_MSG_ID => 11 | E_LOCAPI_LOCATION_MSG_ID => 12
  | E_LOCAPI_LOCATION_INFO_MSG_ID => 13 | E_LOCAPI_SATELLITE_VEHICLE_MSG_ID => 14
  | E_LOCAPI_NMEA_MSG_ID => 15 | E_LOCAPI_DATA_MSG_ID => 16 | E_LOCAPI_GET_GNSS_ENGERY_CONSUMED_MSG_ID => 17
  | E_LOCAPI_LOCATION_SYSTEM_INFO_MSG_ID => 18 | E_LOCAPI_ENGINE_LOCATIONS_INFO_MSG_ID => 19
  | E_LOCAPI_START_BATCHING_MSG_ID => 20 | E_LOCAPI_STOP_BATCHING_MSG_ID => 21
  | E_LOCAPI_UPDATE_BATCHING_OPTIONS_MSG_ID => 22 | E_LOCAPI_BATCHING_MSG_ID => 23
  | E_LOCAPI_ADD_GEOFENCES_MSG_ID => 24 | E_LOCAPI_REMOVE_GEOFENCES_MSG_ID => 25
  | E_LOCAPI_MODIFY_GEOFENCES_MSG_ID => 26 | E_LOCAPI_PAUSE_GEOFENCES_MSG_ID => 27
  | E_LOCAPI_RESUME_GEOFENCES_MSG_ID => 28 | E_LOCAPI_GEOFENCE_BREACH_MSG_ID => 29
  | E_LOCAPI_MEAS_MSG_ID => 30 | E_LOCAPI_GET_SINGLE_TERRESTRIAL_POS_REQ_MSG_ID => 31
  | E_LOCAPI_GET_SINGLE_TERRESTRIAL_POS_RESP_MSG_ID => 32 | E_LOCAPI_PINGTEST_MSG_ID => 99
  | E_INTAPI_CONFIG_CONSTRAINTED_TUNC_MSG_ID => 200
  | E_INTAPI_CONFIG_POSITION_ASSISTED_CLOCK_ESTIMATOR_MSG_ID => 201
  | E_INTAPI_CONFIG_SV_CONSTELLATION_MSG_ID => 202 | E_INTAPI_CONFIG_AIDING_DATA_DELETION_MSG_ID => 203
  | E_INTAPI_CONFIG_LEVER_ARM_MSG_ID => 204 | E_INTAPI_CONFIG_ROBUST_LOCATION_MSG_ID => 205
  | E_INTAPI_CONFIG_MIN_GPS_WEEK_MSG_ID => 206 | E_INTAPI_CONFIG_DEAD_RECKONING_ENGINE_MSG_ID => 207
  | E_INTAPI_CONFIG_MIN_SV_ELEVATION_MSG_ID => 208
  | E_INTAPI_CONFIG_CONSTELLATION_SECONDARY_BAND_MSG_ID => 209
  | E_INTAPI_CONFIG_ENGINE_RUN_STATE_MSG_ID => 210
  | E_INTAPI_CONFIG_USER_CONSENT_TERRESTRIAL_POSITIONING_MSG_ID => 211
  | E_INTAPI_GET_ROBUST_LOCATION_CONFIG_REQ_MSG_ID => 300
  | E_INTAPI_GET_ROBUST_LOCATION_CONFIG_RESP_MSG_ID => 301 | E_INTAPI_GET_MIN_GPS_WEEK_REQ_MSG_ID => 302
  | E_INTAPI_GET_MIN_GPS_WEEK_RESP_MSG_ID => 303 | E_INTAPI_GET_MIN_SV_ELEVATION_REQ_MSG_ID => 304
  | E_INTAPI_GET_MIN_SV_ELEVATION_RESP_MSG_ID => 305
  | E_INTAPI_GET_CONSTELLATION_SECONDARY_BAND_CONFIG_REQ_MSG_ID => 306
  | E_INTAPI_GET_CONSTELLATION_SECONDARY_BAND_CONFIG_RESP_MSG_ID => 307
  end.
#[export] Instance ELocMsgID_enum : CEnum ELocMsgID :=
  {| value := ELocMsgID_value; enumerators :=
      [E_LOCAPI_UNDEFINED_MSG_ID; E_LOCAPI_CLIENT_REGISTER_MSG_ID; E_LOCAPI_CLIENT_DEREGISTER_MSG_ID;
       E_LOCAPI_CAPABILILTIES_MSG_ID; E_LOCAPI_HAL_READY_MSG_ID; E_LOCAPI_START_TRACKING_MSG_ID;
       E_LOCAPI_STOP_TRACKING_MSG_ID; E_LOCAPI_UPDATE_CALLBACKS_MSG_ID;
       E_LOCAPI_UPDATE_TRACKING_OPTIONS_MSG_ID; E_LOCAPI_CONTROL_UPDATE_CONFIG_MSG_ID;
       E_LOCAPI_CONTROL_DELETE_AIDING_DATA_MSG_ID; E_LOCAPI_CONTROL_UPDATE_NETWORK_AVAILABILITY_MSG_ID;
       E_LOCAPI_LOCATION_MSG_ID; E_LOCAPI_LOCATION_INFO_MSG_ID; E_LOCAPI_SATELLITE_VEHICLE_MSG_ID;
       E_LOCAPI_NMEA_MSG_ID; E_LOCAPI_DATA_MSG_ID; E_LOCAPI_GET_GNSS_ENGERY_CONSUMED_MSG_ID;
       E_LOCAPI_LOCATION_SYSTEM_INFO_MSG_ID; E_LOCAPI_ENGINE_LOCATIONS_INFO_MSG_ID;
       E_LOCAPI_START_BATCHING_MSG_ID; E_LOCAPI_STOP_BATCHING_MSG_ID;
       E_LOCAPI_UPDATE_BATCHING_OPTIONS_MSG_ID; E_LOCAPI_BATCHING_MSG_ID; E_LOCAPI_ADD_GEOFENCES_MSG_ID;
       E_LOCAPI_REMOVE_GEOFENCES_MSG_ID; E_LOCAPI_MODIFY_GEOFENCES_MSG_ID; E_LOCAPI_PAUSE_GEOFENCES_MSG_ID;
       E_LOCAPI_RESUME_GEOFENCES_MSG_ID; E_LOCAPI_GEOFENCE_BREACH_MSG_ID; E_LOCAPI_MEAS_MSG_ID;
       E_LOCAPI_GET_SINGLE_TERRESTRIAL_POS_REQ_MSG_ID; E_LOCAPI_GET_SINGLE_TERRESTRIAL_POS_RESP_MSG_ID;
       E_LOCAPI_PINGTEST_MSG_ID; E_INTAPI_CONFIG_CONSTRAINTED_TUNC_MSG_ID;
       E_INTAPI_CONFIG_POSITION_ASSISTED_CLOCK_ESTIMATOR_MSG_ID; E_INTAPI_CONFIG_SV_CONSTELLATION_MSG_ID;
       E_INTAPI_CONFIG_AIDING_DATA_DELETION_MSG_ID; E_INTAPI_CONFIG_LEVER_ARM_MSG_ID;
       E_INTAPI_CONFIG_ROBUST_LOCATION_MSG_ID; E_INTAPI_CONFIG_MIN_GPS_WEEK_MSG_ID;
       E_INTAPI_CONFIG_DEAD_RECKONING_ENGINE_MSG_ID; E_INTAPI_CONFIG_MIN_SV_ELEVATION_MSG_ID;
       E_INTAPI_CONFIG_CONSTELLATION_SECONDARY_BAND_MSG_ID; E_INTAPI_CONFIG_ENGINE_RUN_STATE_MSG_ID;
       E_INTAPI_CONFIG_USER_CONSENT_TERRESTRIAL_POSITIONING_MSG_ID;
       E_INTAPI_GET_ROBUST_LOCATION_CONFIG_REQ_MSG_ID; E_INTAPI_GET_ROBUST_LOCATION_CONFIG_RESP_MSG_ID;
       E_INTAPI_GET_MIN_GPS_WEEK_REQ_MSG_ID; E_INTAPI_GET_MIN_GPS_WEEK_RESP_MSG_ID;
       E_INTAPI_GET_MIN_SV_ELEVATION_REQ_MSG_ID; E_INTAPI_GET_MIN_SV_ELEVATION_RESP_MSG_ID;
       E_INTAPI_GET_CONSTELLATION_SECONDARY_BAND_CONFIG_REQ_MSG_ID;
       E_INTAPI_GET_CONSTELLATION_SECONDARY_BAND_CONFIG_RESP_MSG_ID];
     enumerators_all := ltac:(enum_all) |}.

(** LocationApiMsg.h:280 *)
Inductive ELocationCallbacksOption :=
  | E_LOC_CB_DISTANCE_BASED_TRACKING_BIT | E_LOC_CB_GNSS_LOCATION_INFO_BIT | E_LOC_CB_GNSS_SV_BIT
  | E_LOC_CB_GNSS_NMEA_BIT | E_LOC_CB_GNSS_DATA_BIT | E_LOC_CB_SYSTEM_INFO_BIT | E_LOC_CB_BATCHING_BIT
  | E_LOC_CB_BATCHING_STATUS_BIT | E_LOC_CB_GEOFENCE_BREACH_BIT | E_LOC_CB_ENGINE_LOCATIONS_INFO_BIT
  | E_LOC_CB_SIMPLE_LOCATION_INFO_BIT | E_LOC_CB_GNSS_MEAS_BIT.
Definition ELocationCallbacksOption_value (x : ELocationCallbacksOption) : Z :=
  match x with
  | E_LOC_CB_DISTANCE_BASED_TRACKING_BIT => 1 | E_LOC_CB_GNSS_LOCATION_INFO_BIT => 2
  | E_LOC_CB_GNSS_SV_BIT => 4 | E_LOC_CB_GNSS_NMEA_BIT => 8 | E_LOC_CB_GNSS_DATA_BIT => 16
  | E_LOC_CB_SYSTEM_INFO_BIT => 32 | E_LOC_CB_BATCHING_BIT => 64 | E_LOC_CB_BATCHING_STATUS_BIT => 128
  | E_LOC_CB_GEOFENCE_BREACH_BIT => 256 | E_LOC_CB_ENGINE_LOCATIONS_INFO_BIT => 512
  | E_LOC_CB_SIMPLE_LOCATION_INFO_BIT => 2 ^ 10 | E_LOC_CB_GNSS_MEAS_BIT => 2 ^ 11
  end.
#[export] Instance ELocationCallbacksOption_enum : CEnum ELocationCallbacksOption :=
  {| value := ELocationCallbacksOption_value; enumerators :=
      [E_LOC_CB_DISTANCE_BASED_TRACKING_BIT; E_LOC_CB_GNSS_LOCATION_INFO_BIT; E_LOC_CB_GNSS_SV_BIT;
       E_LOC_CB_GNSS_NMEA_BIT; E_LOC_CB_GNSS_DATA_BIT; E_LOC_CB_SYSTEM_INFO_BIT; E_LOC_CB_BATCHING_BIT;
       E_LOC_CB_BATCHING_STATUS_BIT; E_LOC_CB_GEOFENCE_BREACH_BIT; E_LOC_CB_ENGINE_LOCATIONS_INFO_BIT;
       E_LOC_CB_SIMPLE_LOCATION_INFO_BIT; E_LOC_CB_GNSS_MEAS_BIT];
     enumerators_all := ltac:(enum_all) |}.

(** LocationApiDataTypes.proto:53 *)
Inductive PBGnssSuplMode :=
  | PB_GNSS_SUPL_MODE_STANDALONE | PB_GNSS_SUPL_MODE_MSB | PB_GNSS_SUPL_MODE_MSA.
Definition PBGnssSuplMode_value (x : PBGnssSuplMode) : Z :=
  match x with
  | PB_GNSS_SUPL_MODE_STANDALONE => 0 | PB_GNSS_SUPL_MODE_MSB => 1 | PB_GNSS_SUPL_MODE_MSA => 2
  end.
#[export] Instance PBGnssSuplMode_enum : CEnum PBGnssSuplMode :=
  {| value := PBGnssSuplMode_value; enumerators :=
      [PB_GNSS_SUPL_MODE_STANDALONE; PB_GNSS_SUPL_MODE_MSB; PB_GNSS_SUPL_MODE_MSA];
     enumerators_all := ltac:(enum_all) |}.

(** LocationApiDataTypes.proto:60 *)
Inductive PBGnssSignalTypeMask :=
  | PB_GNSS_SIGNAL_TYPE_MASK_INVALID | PB_GNSS_SIGNAL_GPS_L1CA_BIT | PB_GNSS_SIGNAL_GPS_L1C_BIT
  | PB_GNSS_SIGNAL_GPS_L2_BIT | PB_GNSS_SIGNAL_GPS_L5_BIT | PB_GNSS_SIGNAL_GLONASS_G1_BIT
  | PB_GNSS_SIGNAL_GLONASS_G2_BIT | PB_GNSS_SIGNAL_GALILEO_E1_BIT | PB_GNSS_SIGNAL_GALILEO_E5A_BIT
  | PB_GNSS_SIGNAL_GALILEO_E5B_BIT | PB_GNSS_SIGNAL_BEIDOU_B1_BIT | PB_GNSS_SIGNAL_BEIDOU_B2_BIT
  | PB_GNSS_SIGNAL_QZSS_L1CA_BIT | PB_GNSS_SIGNAL_QZSS_L1S_BIT | PB_GNSS_SIGNAL_QZSS_L2_BIT
  | PB_GNSS_SIGNAL_QZSS_L5_BIT | PB_GNSS_SIGNAL_SBAS_L1_BIT | PB_GNSS_SIGNAL_BEIDOU_B1I_BIT
  | PB_GNSS_SIGNAL_BEIDOU_B1C_BIT | PB_GNSS_SIGNAL_BEIDOU_B2I_BIT | PB_GNSS_SIGNAL_BEIDOU_B2AI_BIT
  | PB_GNSS_SIGNAL_NAVIC_L5_BIT | PB_GNSS_SIGNAL_BEIDOU_B2AQ_BIT.
Definition PBGnssSignalTypeMask_value (x : PBGnssSignalTypeMask) : Z :=
  match x with
  | PB_GNSS_SIGNAL_TYPE_MASK_INVALID => 0 | PB_GNSS_SIGNAL_GPS_L1CA_BIT => 1
  | PB_GNSS_SIGNAL_GPS_L1C_BIT => 2 | PB_GNSS_SIGNAL_GPS_L2_BIT => 4 | PB_GNSS_SIGNAL_GPS_L5_BIT => 8
  | PB_GNSS_SIGNAL_GLONASS_G1_BIT => 16 | PB_GNSS_SIGNAL_GLONASS_G2_BIT => 32
  | PB_GNSS_SIGNAL_GALILEO_E1_BIT => 64 | PB_GNSS_SIGNAL_GALILEO_E5A_BIT => 128
  | PB_GNSS_SIGNAL_GALILEO_E5B_BIT => 256 | PB_GNSS_SIGNAL_BEIDOU_B1_BIT => 512
  | PB_GNSS_SIGNAL_BEIDOU_B2_BIT => 2 ^ 10 | PB_GNSS_SIGNAL_QZSS_L1CA_BIT => 2 ^ 11
  | PB_GNSS_SIGNAL_QZSS_L1S_BIT => 2 ^ 12 | PB_GNSS_SIGNAL_QZSS_L2_BIT => 2 ^ 13
  | PB_GNSS_SIGNAL_QZSS_L5_BIT => 2 ^ 14 | PB_GNSS_SIGNAL_SBAS_L1_BIT => 2 ^ 15
  | PB_GNSS_SIGNAL_BEIDOU_B1I_BIT => 2 ^ 16 | PB_GNSS_SIGNAL_BEIDOU_B1C_BIT => 2 ^ 17
  | PB_GNSS_SIGNAL_BEIDOU_B2I_BIT => 2 ^ 18 | PB_GNSS_SIGNAL_BEIDOU_B2AI_BIT => 2 ^ 19
  | PB_GNSS_SIGNAL_NAVIC_L5_BIT => 2 ^ 20 | PB_GNSS_SIGNAL_BEIDOU_B2AQ_BIT => 2 ^ 21
  end.
#[export] Instance PBGnssSignalTypeMask_enum : CEnum PBGnssSignalTypeMask :=
  {| value := PBGnssSignalTypeMask_value; enumerators :=
      [PB_GNSS_SIGNAL_TYPE_MASK_INVALID; PB_GNSS_SIGNAL_GPS_L1CA_BIT; PB_GNSS_SIGNAL_GPS_L1C_BIT;
       PB_GNSS_SIGNAL_GPS_L2_BIT; PB_GNSS_SIGNAL_GPS_L5_BIT; PB_GNSS_SIGNAL_GLONASS_G1_BIT;
       PB_GNSS_SIGNAL_GLONASS_G2_BIT; PB_GNSS_SIGNAL_GALILEO_E1_BIT; PB_GNSS_SIGNAL_GALILEO_E5A_BIT;
       PB_GNSS_SIGNAL_GALILEO_E5B_BIT; PB_GNSS_SIGNAL_BEIDOU_B1_BIT; PB_GNSS_SIGNAL_BEIDOU_B2_BIT;
       PB_GNSS_SIGNAL_QZSS_L1CA_BIT; PB_GNSS_SIGNAL_QZSS_L1S_BIT; PB_GNSS_SIGNAL_QZSS_L2_BIT;
       PB_GNSS_SIGNAL_QZSS_L5_BIT; PB_GNSS_SIGNAL_SBAS_L1_BIT; PB_GNSS_SIGNAL_BEIDOU_B1I_BIT;
       PB_GNSS_SIGNAL_BEIDOU_B1C_BIT; PB_GNSS_SIGNAL_BEIDOU_B2I_BIT; PB_GNSS_SIGNAL_BEIDOU_B2AI_BIT;
       PB_GNSS_SIGNAL_NAVIC_L5_BIT; PB_GNSS_SIGNAL_BEIDOU_B2AQ_BIT];
     enumerators_all := ltac:(enum_all) |}.

(** LocationApiDataTypes.proto:108 *)
Inductive PBLocApiGnss_LocSvSystemEnumType :=
  | PB_GNSS_LOC_SV_SYSTEM_INVALID | PB_GNSS_LOC_SV_SYSTEM_GPS | PB_GNSS_LOC_SV_SYSTEM_GALILEO
  | PB_GNSS_LOC_SV_SYSTEM_SBAS | PB_GNSS_LOC_SV_SYSTEM_GLONASS | PB_GNSS_LOC_SV_SYSTEM_BDS
  | PB_GNSS_LOC_SV_SYSTEM_QZSS | PB_GNSS_LOC_SV_SYSTEM_NAVIC.
Definition PBLocApiGnss_LocSvSystemEnumType_value (x : PBLocApiGnss_LocSvSystemEnumType) : Z :=
  match x with
  | PB_GNSS_LOC_SV_SYSTEM_INVALID => 0 | PB_GNSS_LOC_SV_SYSTEM_GPS => 1 | PB_GNSS_LOC_SV_SYSTEM_GALILEO => 2
  | PB_GNSS_LOC_SV_SYSTEM_SBAS => 3 | PB_GNSS_LOC_SV_SYSTEM_GLONASS => 4 | PB_GNSS_LOC_SV_SYSTEM_BDS => 5
  | PB_GNSS_LOC_SV_SYSTEM_QZSS => 6 | PB_GNSS_LOC_SV_SYSTEM_NAVIC => 7
  end.
#[export] Instance PBLocApiGnss_LocSvSystemEnumType_enum : CEnum PBLocApiGnss_LocSvSystemEnumType :=
  {| value := PBLocApiGnss_LocSvSystemEnumType_value; enumerators :=
      [PB_GNSS_LOC_SV_SYSTEM_INVALID; PB_GNSS_LOC_SV_SYSTEM_GPS; PB_GNSS_LOC_SV_SYSTEM_GALILEO;
       PB_GNSS_LOC_SV_SYSTEM_SBAS; PB_GNSS_LOC_SV_SYSTEM_GLONASS; PB_GNSS_LOC_SV_SYSTEM_BDS;
       PB_GNSS_LOC_SV_SYSTEM_QZSS; PB_GNSS_LOC_SV_SYSTEM_NAVIC];
     enumerators_all := ltac:(enum_all) |}.

(** LocationApiDataTypes.proto:126 *)
Inductive PBLocApiOutputEngineType :=
  | PB_LOC_OUTPUT_ENGINE_FUSED | PB_LOC_OUTPUT_ENGINE_SPE | PB_LOC_OUTPUT_ENGINE_PPE
  | PB_LOC_OUTPUT_ENGINE_COUNT.
Definition PBLocApiOutputEngineType_value (x : PBLocApiOutputEngineType) : Z :=
  match x with
  | PB_LOC_OUTPUT_ENGINE_FUSED => 0 | PB_LOC_OUTPUT_ENGINE_SPE => 1 | PB_LOC_OUTPUT_ENGINE_PPE => 2
  | PB_LOC_OUTPUT_ENGINE_COUNT => 3
  end.
#[export] Instance PBLocApiOutputEngineType_enum : CEnum PBLocApiOutputEngineType :=
  {| value := PBLocApiOutputEngineType_value; enumerators :=
      [PB_LOC_OUTPUT_ENGINE_FUSED; PB_LOC_OUTPUT_ENGINE_SPE; PB_LOC_OUTPUT_ENGINE_PPE;
       PB_LOC_OUTPUT_ENGINE_COUNT];
     enumerators_all := ltac:(enum_all) |}.

(** LocationApiDataTypes.proto:135 *)
Inductive PBLocationReliability :=
  | PB_LOCATION_RELIABILITY_NOT_SET | PB_LOCATION_RELIABILITY_VERY_LOW | PB_LOCATION_RELIABILITY_LOW
  | PB_LOCATION_RELIABILITY_MEDIUM | PB_LOCATION_RELIABILITY_HIGH.
Definition PBLocationReliability_value (x : PBLocationReliability) : Z :=
  match x with
  | PB_LOCATION_RELIABILITY_NOT_SET => 0 | PB_LOCATION_RELIABILITY_VERY_LOW => 1
  | PB_LOCATION_RELIABILITY_LOW => 2 | PB_LOCATION_RELIABILITY_MEDIUM => 3
  | PB_LOCATION_RELIABILITY_HIGH => 4
  end.
#[export] Instance PBLocationReliability_enum : CEnum PBLocationReliability :=
  {| value := PBLocationReliability_value; enumerators :=
      [PB_LOCATION_RELIABILITY_NOT_SET; PB_LOCATION_RELIABILITY_VERY_LOW; PB_LOCATION_RELIABILITY_LOW;
       PB_LOCATION_RELIABILITY_MEDIUM; PB_LOCATION_RELIABILITY_HIGH];
     enumerators_all := ltac:(enum_all) |}.

(** LocationApiDataTypes.proto:143 *)
Inductive PBGnssLocationInfoFlagMask :=
  | PB_GNSS_LOCATION_INFO_INVALID | PB_GNSS_LOCATION_INFO_ALTITUDE_MEAN_SEA_LEVEL_BIT
  | PB_GNSS_LOCATION_INFO_DOP_BIT | PB_GNSS_LOCATION_INFO_EXT_DOP_BIT
  | PB_GNSS_LOCATION_INFO_MAGNETIC_DEVIATION_BIT | PB_GNSS_LOCATION_INFO_HOR_RELIABILITY_BIT
  | PB_GNSS_LOCATION_INFO_VER_RELIABILITY_BIT | PB_GNSS_LOCATION_INFO_HOR_ACCURACY_ELIP_SEMI_MAJOR_BIT
  | PB_GNSS_LOCATION_INFO_HOR_ACCURACY_ELIP_SEMI_MINOR_BIT
  | PB_GNSS_LOCATION_INFO_HOR_ACCURACY_ELIP_AZIMUTH_BIT | PB_GNSS_LOCATION_INFO_GNSS_SV_USED_DATA_BIT
  | PB_GNSS_LOCATION_INFO_NAV_SOLUTION_MASK_BIT | PB_GNSS_LOCATION_INFO_POS_DYNAMICS_DATA_BIT
  | PB_GNSS_LOCATION_INFO_NORTH_STD_DEV_BIT | PB_GNSS_LOCATION_INFO_EAST_STD_DEV_BIT
  | PB_GNSS_LOCATION_INFO_NORTH_VEL_BIT | PB_GNSS_LOCATION_INFO_EAST_VEL_BIT
  | PB_GNSS_LOCATION_INFO_UP_VEL_BIT | PB_GNSS_LOCATION_INFO_NORTH_VEL_UNC_BIT
  | PB_GNSS_LOCATION_INFO_EAST_VEL_UNC_BIT | PB_GNSS_LOCATION_INFO_UP_VEL_UNC_BIT
  | PB_GNSS_LOCATION_INFO_LEAP_SECONDS_BIT | PB_GNSS_LOCATION_INFO_TIME_UNC_BIT
  | PB_GNSS_LOCATION_INFO_NUM_SV_USED_IN_POSITION_BIT
  | PB_GNSS_LOCATION_INFO_CALIBRATION_CONFIDENCE_PERCENT_BIT | PB_GNSS_LOCATION_INFO_CALIBRATION_STATUS_BIT
  | PB_GNSS_LOCATION_INFO_OUTPUT_ENG_TYPE_BIT | PB_GNSS_LOCATION_INFO_OUTPUT_ENG_MASK_BIT
  | PB_GNSS_LOCATION_INFO_CONFORMITY_INDEX_BIT | PB_GNSS_LOCATION_INFO_LLA_VRP_BASED_BIT
  | PB_GNSS_LOCATION_INFO_ENU_VELOCITY_VRP_BASED_BIT | PB_GNSS_LOCATION_INFO_DR_SOLUTION_STATUS_MASK_BIT.
Definition PBGnssLocationInfoFlagMask_value (x : PBGnssLocationInfoFlagMask) : Z :=
  match x with
  | PB_GNSS_LOCATION_INFO_INVALID => 0 | PB_GNSS_LOCATION_INFO_ALTITUDE_MEAN_SEA_LEVEL_BIT => 1
  | PB_GNSS_LOCATION_INFO_DOP_BIT => 2 | PB_GNSS_LOCATION_INFO_EXT_DOP_BIT => 4
  | PB_GNSS_LOCATION_INFO_MAGNETIC_DEVIATION_BIT => 8 | PB_GNSS_LOCATION_INFO_HOR_RELIABILITY_BIT => 16
  | PB_GNSS_LOCATION_INFO_VER_RELIABILITY_BIT => 32
  | PB_GNSS_LOCATION_INFO_HOR_ACCURACY_ELIP_SEMI_MAJOR_BIT => 64
  | PB_GNSS_LOCATION_INFO_HOR_ACCURACY_ELIP_SEMI_MINOR_BIT => 128
  | PB_GNSS_LOCATION_INFO_HOR_ACCURACY_ELIP_AZIMUTH_BIT => 256
  | PB_GNSS_LOCATION_INFO_GNSS_SV_USED_DATA_BIT => 512
  | PB_GNSS_LOCATION_INFO_NAV_SOLUTION_MASK_BIT => 2 ^ 10
  | PB_GNSS_LOCATION_INFO_POS_DYNAMICS_DATA_BIT => 2 ^ 11 | PB_GNSS_LOCATION_INFO_NORTH_STD_DEV_BIT => 2 ^ 12
  | PB_GNSS_LOCATION_INFO_EAST_STD_DEV_BIT => 2 ^ 13 | PB_GNSS_LOCATION_INFO_NORTH_VEL_BIT => 2 ^ 14
  | PB_GNSS_LOCATION_INFO_EAST_VEL_BIT => 2 ^ 15 | PB_GNSS_LOCATION_INFO_UP_VEL_BIT => 2 ^ 16
  | PB_GNSS_LOCATION_INFO_NORTH_VEL_UNC_BIT => 2 ^ 17 | PB_GNSS_LOCATION_INFO_EAST_VEL_UNC_BIT => 2 ^ 18
  | PB_GNSS_LOCATION_INFO_UP_VEL_UNC_BIT => 2 ^ 19 | PB_GNSS_LOCATION_INFO_LEAP_SECONDS_BIT => 2 ^ 20
  | PB_GNSS_LOCATION_INFO_TIME_UNC_BIT => 2 ^ 21
  | PB_GNSS_LOCATION_INFO_NUM_SV_USED_IN_POSITION_BIT => 2 ^ 22
  | PB_GNSS_LOCATION_INFO_CALIBRATION_CONFIDENCE_PERCENT_BIT => 2 ^ 23
  | PB_GNSS_LOCATION_INFO_CALIBRATION_STATUS_BIT => 2 ^ 24
  | PB_GNSS_LOCATION_INFO_OUTPUT_ENG_TYPE_BIT => 2 ^ 25 | PB_GNSS_LOCATION_INFO_OUTPUT_ENG_MASK_BIT => 2 ^ 26
  | PB_GNSS_LOCATION_INFO_CONFORMITY_INDEX_BIT => 2 ^ 27 | PB_GNSS_LOCATION_INFO_LLA_VRP_BASED_BIT => 2 ^ 28
  | PB_GNSS_LOCATION_INFO_ENU_VELOCITY_VRP_BASED_BIT => 2 ^ 29
  | PB_GNSS_LOCATION_INFO_DR_SOLUTION_STATUS_MASK_BIT => 2 ^ 30
  end.
#[export] Instance PBGnssLocationInfoFlagMask_enum : CEnum PBGnssLocationInfoFlagMask :=
  {| value := PBGnssLocationInfoFlagMask_value; enumerators :=
      [PB_GNSS_LOCATION_INFO_INVALID; PB_GNSS_LOCATION_INFO_ALTITUDE_MEAN_SEA_LEVEL_BIT;
       PB_GNSS_LOCATION_INFO_DOP_BIT; PB_GNSS_LOCATION_INFO_EXT_DOP_BIT;
       PB_GNSS_LOCATION_INFO_MAGNETIC_DEVIATION_BIT; PB_GNSS_LOCATION_INFO_HOR_RELIABILITY_BIT;
       PB_GNSS_LOCATION_INFO_VER_RELIABILITY_BIT; PB_GNSS_LOCATION_INFO_HOR_ACCURACY_ELIP_SEMI_MAJOR_BIT;
       PB_GNSS_LOCATION_INFO_HOR_ACCURACY_ELIP_SEMI_MINOR_BIT;
       PB_GNSS_LOCATION_INFO_HOR_ACCURACY_ELIP_AZIMUTH_BIT; PB_GNSS_LOCATION_INFO_GNSS_SV_USED_DATA_BIT;
       PB_GNSS_LOCATION_INFO_NAV_SOLUTION_MASK_BIT; PB_GNSS_LOCATION_INFO_POS_DYNAMICS_DATA_BIT;
       PB_GNSS_LOCATION_INFO_NORTH_STD_DEV_BIT; PB_GNSS_LOCATION_INFO_EAST_STD_DEV_BIT;
       PB_GNSS_LOCATION_INFO_NORTH_VEL_BIT; PB_GNSS_LOCATION_INFO_EAST_VEL_BIT;
       PB_GNSS_LOCATION_INFO_UP_VEL_BIT; PB_GNSS_LOCATION_INFO_NORTH_VEL_UNC_BIT;
       PB_GNSS_LOCATION_INFO_EAST_VEL_UNC_BIT; PB_GNSS_LOCATION_INFO_UP_VEL_UNC_BIT;
       PB_GNSS_LOCATION_INFO_LEAP_SECONDS_BIT; PB_GNSS_LOCATION_INFO_TIME_UNC_BIT;
       PB_GNSS_LOCATION_INFO_NUM_SV_USED_IN_POSITION_BIT;
       PB_GNSS_LOCATION_INFO_CALIBRATION_CONFIDENCE_PERCENT_BIT;
       PB_GNSS_LOCATION_INFO_CALIBRATION_STATUS_BIT; PB_GNSS_LOCATION_INFO_OUTPUT_ENG_TYPE_BIT;
       PB_GNSS_LOCATION_INFO_OUTPUT_ENG_MASK_BIT; PB_GNSS_LOCATION_INFO_CONFORMITY_INDEX_BIT;
       PB_GNSS_LOCATION_INFO_LLA_VRP_BASED_BIT; PB_GNSS_LOCATION_INFO_ENU_VELOCITY_VRP_BASED_BIT;
       PB_GNSS_LOCATION_INFO_DR_SOLUTION_STATUS_MASK_BIT];
     enumerators_all := ltac:(enum_all) |}.

(** LocationApiDataTypes.proto:190 *)
Inductive PBGnssLocationInfoExtFlagMask :=
  | PB_GNSS_LOCATION_INFO_EXT_INVALID | PB_GNSS_LOCATION_INFO_ALTITUDE_ASSUMED_BIT
  | PB_GNSS_LOCATION_INFO_SESSION_STATUS_BIT.
Definition PBGnssLocationInfoExtFlagMask_value (x : PBGnssLocationInfoExtFlagMask) : Z :=
  match x with
  | PB_GNSS_LOCATION_INFO_EXT_INVALID => 0 | PB_GNSS_LOCATION_INFO_ALTITUDE_ASSUMED_BIT => 1
  | PB_GNSS_LOCATION_INFO_SESSION_STATUS_BIT => 2
  end.
#[export] Instance PBGnssLocationInfoExtFlagMask_enum : CEnum PBGnssLocationInfoExtFlagMask :=
  {| value := PBGnssLocationInfoExtFlagMask_value; enumerators :=
      [PB_GNSS_LOCATION_INFO_EXT_INVALID; PB_GNSS_LOCATION_INFO_ALTITUDE_ASSUMED_BIT;
       PB_GNSS_LOCATION_INFO_SESSION_STATUS_BIT];
     enumerators_all := ltac:(enum_all) |}.

(** LocationApiDataTypes.proto:196 *)
Inductive PBGnssLocationNavSolutionMask :=
  | PB_LOCATION_NAV_SOLUTION_MASK_INVALID | PB_LOCATION_SBAS_CORRECTION_IONO_BIT
  | PB_LOCATION_SBAS_CORRECTION_FAST_BIT | PB_LOCATION_SBAS_CORRECTION_LONG_BIT
  | PB_LOCATION_SBAS_INTEGRITY_BIT | PB_LOCATION_NAV_CORRECTION_DGNSS_BIT
  | PB_LOCATION_NAV_CORRECTION_RTK_BIT | PB_LOCATION_NAV_CORRECTION_PPP_BIT
  | PB_LOCATION_NAV_CORRECTION_RTK_FIXED_BIT | PB_LOCATION_NAV_CORRECTION_ONLY_SBAS_CORRECTED_SV_USED_BIT.
Definition PBGnssLocationNavSolutionMask_value (x : PBGnssLocationNavSolutionMask) : Z :=
  match x with
  | PB_LOCATION_NAV_SOLUTION_MASK_INVALID => 0 | PB_LOCATION_SBAS_CORRECTION_IONO_BIT => 1
  | PB_LOCATION_SBAS_CORRECTION_FAST_BIT => 2 | PB_LOCATION_SBAS_CORRECTION_LONG_BIT => 4
  | PB_LOCATION_SBAS_INTEGRITY_BIT => 8 | PB_LOCATION_NAV_CORRECTION_DGNSS_BIT => 16
  | PB_LOCATION_NAV_CORRECTION_RTK_BIT => 32 | PB_LOCATION_NAV_CORRECTION_PPP_BIT => 64
  | PB_LOCATION_NAV_CORRECTION_RTK_FIXED_BIT => 128
  | PB_LOCATION_NAV_CORRECTION_ONLY_SBAS_CORRECTED_SV_USED_BIT => 256
  end.
#[export] Instance PBGnssLocationNavSolutionMask_enum : CEnum PBGnssLocationNavSolutionMask :=
  {| value := PBGnssLocationNavSolutionMask_value; enumerators :=
      [PB_LOCATION_NAV_SOLUTION_MASK_INVALID; PB_LOCATION_SBAS_CORRECTION_IONO_BIT;
       PB_LOCATION_SBAS_CORRECTION_FAST_BIT; PB_LOCATION_SBAS_CORRECTION_LONG_BIT;
       PB_LOCATION_SBAS_INTEGRITY_BIT; PB_LOCATION_NAV_CORRECTION_DGNSS_BIT;
       PB_LOCATION_NAV_CORRECTION_RTK_BIT; PB_LOCATION_NAV_CORRECTION_PPP_BIT;
       PB_LOCATION_NAV_CORRECTION_RTK_FIXED_BIT; PB_LOCATION_NAV_CORRECTION_ONLY_SBAS_CORRECTED_SV_USED_BIT];
     enumerators_all := ltac:(enum_all) |}.

(** LocationApiDataTypes.proto:210 *)
Inductive PBGnssSvTypesMask :=
  | PB_GNSS_SV_TYPES_MASK_INVALID | PB_GNSS_SV_TYPES_MASK_GLO_BIT | PB_GNSS_SV_TYPES_MASK_BDS_BIT
  | PB_GNSS_SV_TYPES_MASK_QZSS_BIT | PB_GNSS_SV_TYPES_MASK_GAL_BIT | PB_GNSS_SV_TYPES_MASK_NAVIC_BIT
  | PB_GNSS_SV_TYPES_MASK_GPS_BIT.
Definition PBGnssSvTypesMask_value (x : PBGnssSvTypesMask) : Z :=
  match x with
  | PB_GNSS_SV_TYPES_MASK_INVALID => 0 | PB_GNSS_SV_TYPES_MASK_GLO_BIT => 1
  | PB_GNSS_SV_TYPES_MASK_BDS_BIT => 2 | PB_GNSS_SV_TYPES_MASK_QZSS_BIT => 4
  | PB_GNSS_SV_TYPES_MASK_GAL_BIT => 8 | PB_GNSS_SV_TYPES_MASK_NAVIC_BIT => 16
  | PB_GNSS_SV_TYPES_MASK_GPS_BIT => 32
  end.
#[export] Instance PBGnssSvTypesMask_enum : CEnum PBGnssSvTypesMask :=
  {| value := PBGnssSvTypesMask_value; enumerators :=
      [PB_GNSS_SV_TYPES_MASK_INVALID; PB_GNSS_SV_TYPES_MASK_GLO_BIT; PB_GNSS_SV_TYPES_MASK_BDS_BIT;
       PB_GNSS_SV_TYPES_MASK_QZSS_BIT; PB_GNSS_SV_TYPES_MASK_GAL_BIT; PB_GNSS_SV_TYPES_MASK_NAVIC_BIT;
       PB_GNSS_SV_TYPES_MASK_GPS_BIT];
     enumerators_all := ltac:(enum_all) |}.

(** LocationApiDataTypes.proto:220 *)
Inductive PBLocApiGnssSvOptionsMask :=
  | PB_GNSS_SV_OPTIONS_INVALID | PB_GNSS_SV_OPTIONS_HAS_EPHEMER_BIT | PB_GNSS_SV_OPTIONS_HAS_ALMANAC_BIT
  | PB_GNSS_SV_OPTIONS_USED_IN_FIX_BIT | PB_GNSS_SV_OPTIONS_HAS_CARRIER_FREQUENCY_BIT
  | PB_GNSS_SV_OPTIONS_HAS_GNSS_SIGNAL_TYPE_BIT.
Definition PBLocApiGnssSvOptionsMask_value (x : PBLocApiGnssSvOptionsMask) : Z :=
  match x with
  | PB_GNSS_SV_OPTIONS_INVALID => 0 | PB_GNSS_SV_OPTIONS_HAS_EPHEMER_BIT => 1
  | PB_GNSS_SV_OPTIONS_HAS_ALMANAC_BIT => 2 | PB_GNSS_SV_OPTIONS_USED_IN_FIX_BIT => 4
  | PB_GNSS_SV_OPTIONS_HAS_CARRIER_FREQUENCY_BIT => 8 | PB_GNSS_SV_OPTIONS_HAS_GNSS_SIGNAL_TYPE_BIT => 16
  end.
#[export] Instance PBLocApiGnssSvOptionsMask_enum : CEnum PBLocApiGnssSvOptionsMask :=
  {| value := PBLocApiGnssSvOptionsMask_value; enumerators :=
      [PB_GNSS_SV_OPTIONS_INVALID; PB_GNSS_SV_OPTIONS_HAS_EPHEMER_BIT; PB_GNSS_SV_OPTIONS_HAS_ALMANAC_BIT;
       PB_GNSS_SV_OPTIONS_USED_IN_FIX_BIT; PB_GNSS_SV_OPTIONS_HAS_CARRIER_FREQUENCY_BIT;
       PB_GNSS_SV_OPTIONS_HAS_GNSS_SIGNAL_TYPE_BIT];
     enumerators_all := ltac:(enum_all) |}.

(** LocationApiDataTypes.proto:229 *)
Inductive PBGnssGloTimeStructTypeFlags :=
  | PB_GNSS_CLO_TIME_UNKNOWN | PB_GNSS_GLO_FOUR_YEAR_VALID | PB_GNSS_CLO_DAYS_VALID | PB_GNSS_GLO_MSEC_VALID
  | PB_GNSS_GLO_CLK_TIME_BIAS_VALID | PB_GNSS_GLO_CLK_TIME_BIAS_UNC_VALID | PB_GNSS_GLO_REF_FCOUNT_VALID
  | PB_GNSS_GLO_NUM_CLOCK_RESETS_VALID.
Definition PBGnssGloTimeStructTypeFlags_value (x : PBGnssGloTimeStructTypeFlags) : Z :=
  match x with
  | PB_GNSS_CLO_TIME_UNKNOWN => 0 | PB_GNSS_GLO_FOUR_YEAR_VALID => 1 | PB_GNSS_CLO_DAYS_VALID => 2
  | PB_GNSS_GLO_MSEC_VALID => 4 | PB_GNSS_GLO_CLK_TIME_BIAS_VALID => 8
  | PB_GNSS_GLO_CLK_TIME_BIAS_UNC_VALID => 16 | PB_GNSS_GLO_REF_FCOUNT_VALID => 32
  | PB_GNSS_GLO_NUM_CLOCK_RESETS_VALID => 64
  end.
#[export] Instance PBGnssGloTimeStructTypeFlags_enum : CEnum PBGnssGloTimeStructTypeFlags :=
  {| value := PBGnssGloTimeStructTypeFlags_value; enumerators :=
      [PB_GNSS_CLO_TIME_UNKNOWN; PB_GNSS_GLO_FOUR_YEAR_VALID; PB_GNSS_CLO_DAYS_VALID; PB_GNSS_GLO_MSEC_VALID;
       PB_GNSS_GLO_CLK_TIME_BIAS_VALID; PB_GNSS_GLO_CLK_TIME_BIAS_UNC_VALID; PB_GNSS_GLO_REF_FCOUNT_VALID;
       PB_GNSS_GLO_NUM_CLOCK_RESETS_VALID];
     enumerators_all := ltac:(enum_all) |}.

(** LocationApiDataTypes.proto:240 *)
Inductive PBGnssMeasurementsClockFlagsMask :=
  | PB_GNSS_MEASUREMENTS_CLOCK_FLAGS_INVALID | PB_GNSS_MEASUREMENTS_CLOCK_FLAGS_LEAP_SECOND_BIT
  | PB_GNSS_MEASUREMENTS_CLOCK_FLAGS_TIME_BIT | PB_GNSS_MEASUREMENTS_CLOCK_FLAGS_TIME_UNCERTAINTY_BIT
  | PB_GNSS_MEASUREMENTS_CLOCK_FLAGS_FULL_BIAS_BIT | PB_GNSS_MEASUREMENTS_CLOCK_FLAGS_BIAS_BIT
  | PB_GNSS_MEASUREMENTS_CLOCK_FLAGS_BIAS_UNCERTAINTY_BIT | PB_GNSS_MEASUREMENTS_CLOCK_FLAGS_DRIFT_BIT
  | PB_GNSS_MEASUREMENTS_CLOCK_FLAGS_DRIFT_UNCERTAINTY_BIT
  | PB_GNSS_MEASUREMENTS_CLOCK_FLAGS_HW_CLOCK_DISCONTINUITY_COUNT_BIT.
Definition PBGnssMeasurementsClockFlagsMask_value (x : PBGnssMeasurementsClockFlagsMask) : Z :=
  match x with
  | PB_GNSS_MEASUREMENTS_CLOCK_FLAGS_INVALID => 0 | PB_GNSS_MEASUREMENTS_CLOCK_FLAGS_LEAP_SECOND_BIT => 1
  | PB_GNSS_MEASUREMENTS_CLOCK_FLAGS_TIME_BIT => 2
  | PB_GNSS_MEASUREMENTS_CLOCK_FLAGS_TIME_UNCERTAINTY_BIT => 4
  | PB_GNSS_MEASUREMENTS_CLOCK_FLAGS_FULL_BIAS_BIT => 8 | PB_GNSS_MEASUREMENTS_CLOCK_FLAGS_BIAS_BIT => 16
  | PB_GNSS_MEASUREMENTS_CLOCK_FLAGS_BIAS_UNCERTAINTY_BIT => 32
  | PB_GNSS_MEASUREMENTS_CLOCK_FLAGS_DRIFT_BIT => 64
  | PB_GNSS_MEASUREMENTS_CLOCK_FLAGS_DRIFT_UNCERTAINTY_BIT => 128
  | PB_GNSS_MEASUREMENTS_CLOCK_FLAGS_HW_CLOCK_DISCONTINUITY_COUNT_BIT => 256
  end.
#[export] Instance PBGnssMeasurementsClockFlagsMask_enum : CEnum PBGnssMeasurementsClockFlagsMask :=
  {| value := PBGnssMeasurementsClockFlagsMask_value; enumerators :=
      [PB_GNSS_MEASUREMENTS_CLOCK_FLAGS_INVALID; PB_GNSS_MEASUREMENTS_CLOCK_FLAGS_LEAP_SECOND_BIT;
       PB_GNSS_MEASUREMENTS_CLOCK_FLAGS_TIME_BIT; PB_GNSS_MEASUREMENTS_CLOCK_FLAGS_TIME_UNCERTAINTY_BIT;
       PB_GNSS_MEASUREMENTS_CLOCK_FLAGS_FULL_BIAS_BIT; PB_GNSS_MEASUREMENTS_CLOCK_FLAGS_BIAS_BIT;
       PB_GNSS_MEASUREMENTS_CLOCK_FLAGS_BIAS_UNCERTAINTY_BIT; PB_GNSS_MEASUREMENTS_CLOCK_FLAGS_DRIFT_BIT;
       PB_GNSS_MEASUREMENTS_CLOCK_FLAGS_DRIFT_UNCERTAINTY_BIT;
       PB_GNSS_MEASUREMENTS_CLOCK_FLAGS_HW_CLOCK_DISCONTINUITY_COUNT_BIT];
     enumerators_all := ltac:(enum_all) |}.

(** LocationApiDataTypes.proto:253 *)
Inductive PBLocApiGnssSystemTimeStructTypeFlags :=
  | PB_GNSS_SYSTEM_TIME_FLAG_INVALID | PB_GNSS_SYSTEM_TIME_WEEK_VALID | PB_GNSS_SYSTEM_TIME_WEEK_MS_VALID
  | PB_GNSS_SYSTEM_CLK_TIME_BIAS_VALID | PB_GNSS_SYSTEM_CLK_TIME_BIAS_UNC_VALID
  | PB_GNSS_SYSTEM_REF_FCOUNT_VALID | PB_GNSS_SYSTEM_NUM_CLOCK_RESETS_VALID.
Definition PBLocApiGnssSystemTimeStructTypeFlags_value (x : PBLocApiGnssSystemTimeStructTypeFlags) : Z :=
  match x with
  | PB_GNSS_SYSTEM_TIME_FLAG_INVALID => 0 | PB_GNSS_SYSTEM_TIME_WEEK_VALID => 1
  | PB_GNSS_SYSTEM_TIME_WEEK_MS_VALID => 2 | PB_GNSS_SYSTEM_CLK_TIME_BIAS_VALID => 4
  | PB_GNSS_SYSTEM_CLK_TIME_BIAS_UNC_VALID => 8 | PB_GNSS_SYSTEM_REF_FCOUNT_VALID => 16
  | PB_GNSS_SYSTEM_NUM_CLOCK_RESETS_VALID => 32
  end.
#[export] Instance PBLocApiGnssSystemTimeStructTypeFlags_enum : CEnum PBLocApiGnssSystemTimeStructTypeFlags :=
  {| value := PBLocApiGnssSystemTimeStructTypeFlags_value; enumerators :=
      [PB_GNSS_SYSTEM_TIME_FLAG_INVALID; PB_GNSS_SYSTEM_TIME_WEEK_VALID; PB_GNSS_SYSTEM_TIME_WEEK_MS_VALID;
       PB_GNSS_SYSTEM_CLK_TIME_BIAS_VALID; PB_GNSS_SYSTEM_CLK_TIME_BIAS_UNC_VALID;
       PB_GNSS_SYSTEM_REF_FCOUNT_VALID; PB_GNSS_SYSTEM_NUM_CLOCK_RESETS_VALID];
     enumerators_all := ltac:(enum_all) |}.

(** LocationApiDataTypes.proto:265 *)
Inductive PBGnssConfigRobustLocationValidMask :=
  | PB_GNSS_CONFIG_ROBUST_LOCATION_INVALID | PB_GNSS_CONFIG_ROBUST_LOCATION_ENABLED_VALID_BIT
  | PB_GNSS_CONFIG_ROBUST_LOCATION_ENABLED_FOR_E911_VALID_BIT
  | PB_GNSS_CONFIG_ROBUST_LOCATION_VERSION_VALID_BIT.
Definition PBGnssConfigRobustLocationValidMask_value (x : PBGnssConfigRobustLocationValidMask) : Z :=
  match x with
  | PB_GNSS_CONFIG_ROBUST_LOCATION_INVALID => 0 | PB_GNSS_CONFIG_ROBUST_LOCATION_ENABLED_VALID_BIT => 1
  | PB_GNSS_CONFIG_ROBUST_LOCATION_ENABLED_FOR_E911_VALID_BIT => 2
  | PB_GNSS_CONFIG_ROBUST_LOCATION_VERSION_VALID_BIT => 4
  end.
#[export] Instance PBGnssConfigRobustLocationValidMask_enum : CEnum PBGnssConfigRobustLocationValidMask :=
  {| value := PBGnssConfigRobustLocationValidMask_value; enumerators :=
      [PB_GNSS_CONFIG_ROBUST_LOCATION_INVALID; PB_GNSS_CONFIG_ROBUST_LOCATION_ENABLED_VALID_BIT;
       PB_GNSS_CONFIG_ROBUST_LOCATION_ENABLED_FOR_E911_VALID_BIT;
       PB_GNSS_CONFIG_ROBUST_LOCATION_VERSION_VALID_BIT];
     enumerators_all := ltac:(enum_all) |}.

(** LocationApiDataTypes.proto:275 *)
Inductive PBLocationSystemInfoMask :=
  | PB_LOCATION_SYS_INFO_INVALID | PB_LOCATION_SYS_INFO_LEAP_SECOND.
Definition PBLocationSystemInfoMask_value (x : PBLocationSystemInfoMask) : Z :=
  match x with
  | PB_LOCATION_SYS_INFO_INVALID => 0 | PB_LOCATION_SYS_INFO_LEAP_SECOND => 1
  end.
#[export] Instance PBLocationSystemInfoMask_enum : CEnum PBLocationSystemInfoMask :=
  {| value := PBLocationSystemInfoMask_value; enumerators :=
      [PB_LOCATION_SYS_INFO_INVALID; PB_LOCATION_SYS_INFO_LEAP_SECOND];
     enumerators_all := ltac:(enum_all) |}.

(** LocationApiDataTypes.proto:281 *)
Inductive PBLocApiDrCalibrationStatusMask :=
  | PB_DR_CALIBRATION_INVALID | PB_DR_ROLL_CALIBRATION_NEEDED | PB_DR_PITCH_CALIBRATION_NEEDED
  | PB_DR_YAW_CALIBRATION_NEEDED | PB_DR_ODO_CALIBRATION_NEEDED | PB_DR_GYRO_CALIBRATION_NEEDED.
Definition PBLocApiDrCalibrationStatusMask_value (x : PBLocApiDrCalibrationStatusMask) : Z :=
  match x with
  | PB_DR_CALIBRATION_INVALID => 0 | PB_DR_ROLL_CALIBRATION_NEEDED => 1 | PB_DR_PITCH_CALIBRATION_NEEDED => 2
  | PB_DR_YAW_CALIBRATION_NEEDED => 4 | PB_DR_ODO_CALIBRATION_NEEDED => 8
  | PB_DR_GYRO_CALIBRATION_NEEDED => 16
  end.
#[export] Instance PBLocApiDrCalibrationStatusMask_enum : CEnum PBLocApiDrCalibrationStatusMask :=
  {| value := PBLocApiDrCalibrationStatusMask_value; enumerators :=
      [PB_DR_CALIBRATION_INVALID; PB_DR_ROLL_CALIBRATION_NEEDED; PB_DR_PITCH_CALIBRATION_NEEDED;
       PB_DR_YAW_CALIBRATION_NEEDED; PB_DR_ODO_CALIBRATION_NEEDED; PB_DR_GYRO_CALIBRATION_NEEDED];
     enumerators_all := ltac:(enum_all) |}.

(** LocationApiDataTypes.proto:295 *)
Inductive PBLeapSecondSysInfoMask :=
  | PB_LEAP_SECOND_SYS_INFO_INVALID | PB_LEAP_SECOND_SYS_INFO_CURRENT_LEAP_SECONDS_BIT
  | PB_LEAP_SECOND_SYS_INFO_LEAP_SECOND_CHANGE_BIT.
Definition PBLeapSecondSysInfoMask_value (x : PBLeapSecondSysInfoMask) : Z :=
  match x with
  | PB_LEAP_SECOND_SYS_INFO_INVALID => 0 | PB_LEAP_SECOND_SYS_INFO_CURRENT_LEAP_SECONDS_BIT => 1
  | PB_LEAP_SECOND_SYS_INFO_LEAP_SECOND_CHANGE_BIT => 2
  end.
#[export] Instance PBLeapSecondSysInfoMask_enum : CEnum PBLeapSecondSysInfoMask :=
  {| value := PBLeapSecondSysInfoMask_value; enumerators :=
      [PB_LEAP_SECOND_SYS_INFO_INVALID; PB_LEAP_SECOND_SYS_INFO_CURRENT_LEAP_SECONDS_BIT;
       PB_LEAP_SECOND_SYS_INFO_LEAP_SECOND_CHANGE_BIT];
     enumerators_all := ltac:(enum_all) |}.

(** LocationApiDataTypes.proto:313 *)
Inductive PBTerrestrialTechMask :=
  | PB_TERRESTRIAL_TECH_INVALID | PB_TERRESTRIAL_TECH_GTP_WWAN.
Definition PBTerrestrialTechMask_value (x : PBTerrestrialTechMask) : Z :=
  match x with
  | PB_TERRESTRIAL_TECH_INVALID => 0 | PB_TERRESTRIAL_TECH_GTP_WWAN => 1
  end.
#[export] Instance PBTerrestrialTechMask_enum : CEnum PBTerrestrialTechMask :=
  {| value := PBTerrestrialTechMask_value; enumerators :=
      [PB_TERRESTRIAL_TECH_INVALID; PB_TERRESTRIAL_TECH_GTP_WWAN];
     enumerators_all := ltac:(enum_all) |}.

(** LocationApiDataTypes.proto:318 *)
Inductive PBLocApiGnssLocationPosDataMask :=
  | PB_LOCATION_NAV_DATA_INVALID | PB_LOCATION_NAV_DATA_HAS_LONG_ACCEL_BIT
  | PB_LOCATION_NAV_DATA_HAS_LAT_ACCEL_BIT | PB_LOCATION_NAV_DATA_HAS_VERT_ACCEL_BIT
  | PB_LOCATION_NAV_DATA_HAS_YAW_RATE_BIT | PB_LOCATION_NAV_DATA_HAS_YAW_RATE_UNC_BIT
  | PB_LOCATION_NAV_DATA_HAS_YAW_BIT | PB_LOCATION_NAV_DATA_HAS_YAW_UNC_BIT
  | PB_LOCATION_NAV_DATA_HAS_PITCH_BIT | PB_LOCATION_NAV_DATA_HAS_PITCH_UNC_BIT
  | PB_LOCATION_NAV_DATA_HAS_PITCH_RATE_BIT | PB_LOCATION_NAV_DATA_HAS_PITCH_RATE_UNC_BIT
  | PB_LOCATION_NAV_DATA_HAS_LONG_ACCEL_UNC_BIT | PB_LOCATION_NAV_DATA_HAS_LAT_ACCEL_UNC_BIT
  | PB_LOCATION_NAV_DATA_HAS_VERT_ACCEL_UNC_BIT | PB_LOCATION_NAV_DATA_HAS_ROLL_BIT
  | PB_LOCATION_NAV_DATA_HAS_ROLL_UNC_BIT | PB_LOCATION_NAV_DATA_HAS_ROLL_RATE_BIT
  | PB_LOCATION_NAV_DATA_HAS_ROLL_RATE_UNC_BIT.
Definition PBLocApiGnssLocationPosDataMask_value (x : PBLocApiGnssLocationPosDataMask) : Z :=
  match x with
  | PB_LOCATION_NAV_DATA_INVALID => 0 | PB_LOCATION_NAV_DATA_HAS_LONG_ACCEL_BIT => 1
  | PB_LOCATION_NAV_DATA_HAS_LAT_ACCEL_BIT => 2 | PB_LOCATION_NAV_DATA_HAS_VERT_ACCEL_BIT => 4
  | PB_LOCATION_NAV_DATA_HAS_YAW_RATE_BIT => 8 | PB_LOCATION_NAV_DATA_HAS_YAW_RATE_UNC_BIT => 16
  | PB_LOCATION_NAV_DATA_HAS_YAW_BIT => 32 | PB_LOCATION_NAV_DATA_HAS_YAW_UNC_BIT => 64
  | PB_LOCATION_NAV_DATA_HAS_PITCH_BIT => 128 | PB_LOCATION_NAV_DATA_HAS_PITCH_UNC_BIT => 256
  | PB_LOCATION_NAV_DATA_HAS_PITCH_RATE_BIT => 512 | PB_LOCATION_NAV_DATA_HAS_PITCH_RATE_UNC_BIT => 2 ^ 10
  | PB_LOCATION_NAV_DATA_HAS_LONG_ACCEL_UNC_BIT => 2 ^ 11
  | PB_LOCATION_NAV_DATA_HAS_LAT_ACCEL_UNC_BIT => 2 ^ 12
  | PB_LOCATION_NAV_DATA_HAS_VERT_ACCEL_UNC_BIT => 2 ^ 13 | PB_LOCATION_NAV_DATA_HAS_ROLL_BIT => 2 ^ 14
  | PB_LOCATION_NAV_DATA_HAS_ROLL_UNC_BIT => 2 ^ 15 | PB_LOCATION_NAV_DATA_HAS_ROLL_RATE_BIT => 2 ^ 16
  | PB_LOCATION_NAV_DATA_HAS_ROLL_RATE_UNC_BIT => 2 ^ 17
  end.
#[export] Instance PBLocApiGnssLocationPosDataMask_enum : CEnum PBLocApiGnssLocationPosDataMask :=
  {| value := PBLocApiGnssLocationPosDataMask_value; enumerators :=
      [PB_LOCATION_NAV_DATA_INVALID; PB_LOCATION_NAV_DATA_HAS_LONG_ACCEL_BIT;
       PB_LOCATION_NAV_DATA_HAS_LAT_ACCEL_BIT; PB_LOCATION_NAV_DATA_HAS_VERT_ACCEL_BIT;
       PB_LOCATION_NAV_DATA_HAS_YAW_RATE_BIT; PB_LOCATION_NAV_DATA_HAS_YAW_RATE_UNC_BIT;
       PB_LOCATION_NAV_DATA_HAS_YAW_BIT; PB_LOCATION_NAV_DATA_HAS_YAW_UNC_BIT;
       PB_LOCATION_NAV_DATA_HAS_PITCH_BIT; PB_LOCATION_NAV_DATA_HAS_PITCH_UNC_BIT;
       PB_LOCATION_NAV_DATA_HAS_PITCH_RATE_BIT; PB_LOCATION_NAV_DATA_HAS_PITCH_RATE_UNC_BIT;
       PB_LOCATION_NAV_DATA_HAS_LONG_ACCEL_UNC_BIT; PB_LOCATION_NAV_DATA_HAS_LAT_ACCEL_UNC_BIT;
       PB_LOCATION_NAV_DATA_HAS_VERT_ACCEL_UNC_BIT; PB_LOCATION_NAV_DATA_HAS_ROLL_BIT;
       PB_LOCATION_NAV_DATA_HAS_ROLL_UNC_BIT; PB_LOCATION_NAV_DATA_HAS_ROLL_RATE_BIT;
       PB_LOCATION_NAV_DATA_HAS_ROLL_RATE_UNC_BIT];
     enumerators_all := ltac:(enum_all) |}.

(** LocationApiDataTypes.proto:358 *)
Inductive PBBatchingMode :=
  | PB_BATCHING_MODE_ROUTINE | PB_BATCHING_MODE_TRIP | PB_BATCHING_MODE_NO_AUTO_REPORT.
Definition PBBatchingMode_value (x : PBBatchingMode) : Z :=
  match x with
  | PB_BATCHING_MODE_ROUTINE => 0 | PB_BATCHING_MODE_TRIP => 1 | PB_BATCHING_MODE_NO_AUTO_REPORT => 2
  end.
#[export] Instance PBBatchingMode_enum : CEnum PBBatchingMode :=
  {| value := PBBatchingMode_value; enumerators :=
      [PB_BATCHING_MODE_ROUTINE; PB_BATCHING_MODE_TRIP; PB_BATCHING_MODE_NO_AUTO_REPORT];
     enumerators_all := ltac:(enum_all) |}.

(** LocationApiDataTypes.proto:367 *)
Inductive PBBatchingStatus :=
  | PB_BATCHING_STATUS_TRIP_COMPLETED | PB_BATCHING_STATUS_POSITION_AVAILABE
  | PB_BATCHING_STATUS_POSITION_UNAVAILABLE.
Definition PBBatchingStatus_value (x : PBBatchingStatus) : Z :=
  match x with
  | PB_BATCHING_STATUS_TRIP_COMPLETED => 0 | PB_BATCHING_STATUS_POSITION_AVAILABE => 1
  | PB_BATCHING_STATUS_POSITION_UNAVAILABLE => 2
  end.
#[export] Instance PBBatchingStatus_enum : CEnum PBBatchingStatus :=
  {| value := PBBatchingStatus_value; enumerators :=
      [PB_BATCHING_STATUS_TRIP_COMPLETED; PB_BATCHING_STATUS_POSITION_AVAILABE;
       PB_BATCHING_STATUS_POSITION_UNAVAILABLE];
     enumerators_all := ltac:(enum_all) |}.

(** LocationApiDataTypes.proto:373 *)
Inductive PBLocationError :=
  | PB_LOCATION_ERROR_SUCCESS | PB_LOCATION_ERROR_INVALID_PARAMETER | PB_LOCATION_ERROR_NOT_SUPPORTED
  | PB_LOCATION_ERROR_GENERAL_FAILURE | PB_LOCATION_ERROR_TIMEOUT.
Definition PBLocationError_value (x : PBLocationError) : Z :=
  match x with
  | PB_LOCATION_ERROR_SUCCESS => 0 | PB_LOCATION_ERROR_INVALID_PARAMETER => 1
  | PB_LOCATION_ERROR_NOT_SUPPORTED => 2 | PB_LOCATION_ERROR_GENERAL_FAILURE => 3
  | PB_LOCATION_ERROR_TIMEOUT => 4
  end.
#[export] Instance PBLocationError_enum : CEnum PBLocationError :=
  {| value := PBLocationError_value; enumerators :=
      [PB_LOCATION_ERROR_SUCCESS; PB_LOCATION_ERROR_INVALID_PARAMETER; PB_LOCATION_ERROR_NOT_SUPPORTED;
       PB_LOCATION_ERROR_GENERAL_FAILURE; PB_LOCATION_ERROR_TIMEOUT];
     enumerators_all := ltac:(enum_all) |}.

(** LocationApiDataTypes.proto:381 *)
Inductive PBLocReqEngineTypeMask :=
  | PB_LOC_REQ_ENGINE_INVALID | PB_LOC_REQ_ENGINE_FUSED_BIT | PB_LOC_REQ_ENGINE_SPE_BIT
  | PB_LOC_REQ_ENGINE_PPE_BIT.
Definition PBLocReqEngineTypeMask_value (x : PBLocReqEngineTypeMask) : Z :=
  match x with
  | PB_LOC_REQ_ENGINE_INVALID => 0 | PB_LOC_REQ_ENGINE_FUSED_BIT => 1 | PB_LOC_REQ_ENGINE_SPE_BIT => 2
  | PB_LOC_REQ_ENGINE_PPE_BIT => 4
  end.
#[export] Instance PBLocReqEngineTypeMask_enum : CEnum PBLocReqEngineTypeMask :=
  {| value := PBLocReqEngineTypeMask_value; enumerators :=
      [PB_LOC_REQ_ENGINE_INVALID; PB_LOC_REQ_ENGINE_FUSED_BIT; PB_LOC_REQ_ENGINE_SPE_BIT;
       PB_LOC_REQ_ENGINE_PPE_BIT];
     enumerators_all := ltac:(enum_all) |}.

(** LocationApiDataTypes.proto:388 *)
Inductive PBLocApiPositioningEngineMask :=
  | PB_POS_ENG_MASK_INVALID | PB_STANDARD_POSITIONING_ENGINE | PB_DEAD_RECKONING_ENGINE
  | PB_PRECISE_POSITIONING_ENGINE.
Definition PBLocApiPositioningEngineMask_value (x : PBLocApiPositioningEngineMask) : Z :=
  match x with
  | PB_POS_ENG_MASK_INVALID => 0 | PB_STANDARD_POSITIONING_ENGINE => 1 | PB_DEAD_RECKONING_ENGINE => 2
  | PB_PRECISE_POSITIONING_ENGINE => 4
  end.
#[export] Instance PBLocApiPositioningEngineMask_enum : CEnum PBLocApiPositioningEngineMask :=
  {| value := PBLocApiPositioningEngineMask_value; enumerators :=
      [PB_POS_ENG_MASK_INVALID; PB_STANDARD_POSITIONING_ENGINE; PB_DEAD_RECKONING_ENGINE;
       PB_PRECISE_POSITIONING_ENGINE];
     enumerators_all := ltac:(enum_all) |}.

(** LocationApiDataTypes.proto:395 *)
Inductive PBLocEngineRunState :=
  | PB_LOC_ENGINE_RUN_STATE_INVALID | PB_LOC_ENGINE_RUN_STATE_PAUSE | PB_LOC_ENGINE_RUN_STATE_RESUME.
Definition PBLocEngineRunState_value (x : PBLocEngineRunState) : Z :=
  match x with
  | PB_LOC_ENGINE_RUN_STATE_INVALID => 0 | PB_LOC_ENGINE_RUN_STATE_PAUSE => 1
  | PB_LOC_ENGINE_RUN_STATE_RESUME => 2
  end.
#[export] Instance PBLocEngineRunState_enum : CEnum PBLocEngineRunState :=
  {| value := PBLocEngineRunState_value; enumerators :=
      [PB_LOC_ENGINE_RUN_STATE_INVALID; PB_LOC_ENGINE_RUN_STATE_PAUSE; PB_LOC_ENGINE_RUN_STATE_RESUME];
     enumerators_all := ltac:(enum_all) |}.

(** LocationApiDataTypes.proto:401 *)
Inductive PBDrEngineAidingDataMask :=
  | PB_DR_ENGINE_AIDING_DATA_INVALID | PB_DR_ENGINE_AIDING_DATA_CALIBRATION_BIT.
Definition PBDrEngineAidingDataMask_value (x : PBDrEngineAidingDataMask) : Z :=
  match x with
  | PB_DR_ENGINE_AIDING_DATA_INVALID => 0 | PB_DR_ENGINE_AIDING_DATA_CALIBRATION_BIT => 1
  end.
#[export] Instance PBDrEngineAidingDataMask_enum : CEnum PBDrEngineAidingDataMask :=
  {| value := PBDrEngineAidingDataMask_value; enumerators :=
      [PB_DR_ENGINE_AIDING_DATA_INVALID; PB_DR_ENGINE_AIDING_DATA_CALIBRATION_BIT];
     enumerators_all := ltac:(enum_all) |}.

(** LocationApiDataTypes.proto:407 *)
Inductive PBGnssMeasurementsAdrStateMask :=
  | PB_GNSS_MEASUREMENTS_ACCUMULATED_DELTA_RANGE_STATE_UNKNOWN
  | PB_GNSS_MEASUREMENTS_ACCUMULATED_DELTA_RANGE_STATE_VALID_BIT
  | PB_GNSS_MEASUREMENTS_ACCUMULATED_DELTA_RANGE_STATE_RESET_BIT
  | PB_GNSS_MEASUREMENTS_ACCUMULATED_DELTA_RANGE_STATE_CYCLE_SLIP_BIT.
Definition PBGnssMeasurementsAdrStateMask_value (x : PBGnssMeasurementsAdrStateMask) : Z :=
  match x with
  | PB_GNSS_MEASUREMENTS_ACCUMULATED_DELTA_RANGE_STATE_UNKNOWN => 0
  | PB_GNSS_MEASUREMENTS_ACCUMULATED_DELTA_RANGE_STATE_VALID_BIT => 1
  | PB_GNSS_MEASUREMENTS_ACCUMULATED_DELTA_RANGE_STATE_RESET_BIT => 2
  | PB_GNSS_MEASUREMENTS_ACCUMULATED_DELTA_RANGE_STATE_CYCLE_SLIP_BIT => 4
  end.
#[export] Instance PBGnssMeasurementsAdrStateMask_enum : CEnum PBGnssMeasurementsAdrStateMask :=
  {| value := PBGnssMeasurementsAdrStateMask_value; enumerators :=
      [PB_GNSS_MEASUREMENTS_ACCUMULATED_DELTA_RANGE_STATE_UNKNOWN;
       PB_GNSS_MEASUREMENTS_ACCUMULATED_DELTA_RANGE_STATE_VALID_BIT;
       PB_GNSS_MEASUREMENTS_ACCUMULATED_DELTA_RANGE_STATE_RESET_BIT;
       PB_GNSS_MEASUREMENTS_ACCUMULATED_DELTA_RANGE_STATE_CYCLE_SLIP_BIT];
     enumerators_all := ltac:(enum_all) |}.

(** LocationApiDataTypes.proto:414 *)
Inductive PBGnssMeasurementsDataFlagsMask :=
  | PB_GNSS_MEASUREMENTS_DATA_INVALID | PB_GNSS_MEASUREMENTS_DATA_SV_ID_BIT
  | PB_GNSS_MEASUREMENTS_DATA_SV_TYPE_BIT | PB_GNSS_MEASUREMENTS_DATA_STATE_BIT
  | PB_GNSS_MEASUREMENTS_DATA_RECEIVED_SV_TIME_BIT
  | PB_GNSS_MEASUREMENTS_DATA_RECEIVED_SV_TIME_UNCERTAINTY_BIT
  | PB_GNSS_MEASUREMENTS_DATA_CARRIER_TO_NOISE_BIT | PB_GNSS_MEASUREMENTS_DATA_PSEUDORANGE_RATE_BIT
  | PB_GNSS_MEASUREMENTS_DATA_PSEUDORANGE_RATE_UNCERTAINTY_BIT | PB_GNSS_MEASUREMENTS_DATA_ADR_STATE_BIT
  | PB_GNSS_MEASUREMENTS_DATA_ADR_BIT | PB_GNSS_MEASUREMENTS_DATA_ADR_UNCERTAINTY_BIT
  | PB_GNSS_MEASUREMENTS_DATA_CARRIER_FREQUENCY_BIT | PB_GNSS_MEASUREMENTS_DATA_CARRIER_CYCLES_BIT
  | PB_GNSS_MEASUREMENTS_DATA_CARRIER_PHASE_BIT | PB_GNSS_MEASUREMENTS_DATA_CARRIER_PHASE_UNCERTAINTY_BIT
  | PB_GNSS_MEASUREMENTS_DATA_MULTIPATH_INDICATOR_BIT | PB_GNSS_MEASUREMENTS_DATA_SIGNAL_TO_NOISE_RATIO_BIT
  | PB_GNSS_MEASUREMENTS_DATA_AUTOMATIC_GAIN_CONTROL_BIT | PB_GNSS_MEASUREMENTS_DATA_FULL_ISB_BIT
  | PB_GNSS_MEASUREMENTS_DATA_FULL_ISB_UNCERTAINTY_BIT | PB_GNSS_MEASUREMENTS_DATA_CYCLE_SLIP_COUNT_BIT.
Definition PBGnssMeasurementsDataFlagsMask_value (x : PBGnssMeasurementsDataFlagsMask) : Z :=
  match x with
  | PB_GNSS_MEASUREMENTS_DATA_INVALID => 0 | PB_GNSS_MEASUREMENTS_DATA_SV_ID_BIT => 1
  | PB_GNSS_MEASUREMENTS_DATA_SV_TYPE_BIT => 2 | PB_GNSS_MEASUREMENTS_DATA_STATE_BIT => 4
  | PB_GNSS_MEASUREMENTS_DATA_RECEIVED_SV_TIME_BIT => 8
  | PB_GNSS_MEASUREMENTS_DATA_RECEIVED_SV_TIME_UNCERTAINTY_BIT => 16
  | PB_GNSS_MEASUREMENTS_DATA_CARRIER_TO_NOISE_BIT => 32
  | PB_GNSS_MEASUREMENTS_DATA_PSEUDORANGE_RATE_BIT => 64
  | PB_GNSS_MEASUREMENTS_DATA_PSEUDORANGE_RATE_UNCERTAINTY_BIT => 128
  | PB_GNSS_MEASUREMENTS_DATA_ADR_STATE_BIT => 256 | PB_GNSS_MEASUREMENTS_DATA_ADR_BIT => 512
  | PB_GNSS_MEASUREMENTS_DATA_ADR_UNCERTAINTY_BIT => 2 ^ 10
  | PB_GNSS_MEASUREMENTS_DATA_CARRIER_FREQUENCY_BIT => 2 ^ 11
  | PB_GNSS_MEASUREMENTS_DATA_CARRIER_CYCLES_BIT => 2 ^ 12
  | PB_GNSS_MEASUREMENTS_DATA_CARRIER_PHASE_BIT => 2 ^ 13
  | PB_GNSS_MEASUREMENTS_DATA_CARRIER_PHASE_UNCERTAINTY_BIT => 2 ^ 14
  | PB_GNSS_MEASUREMENTS_DATA_MULTIPATH_INDICATOR_BIT => 2 ^ 15
  | PB_GNSS_MEASUREMENTS_DATA_SIGNAL_TO_NOISE_RATIO_BIT => 2 ^ 16
  | PB_GNSS_MEASUREMENTS_DATA_AUTOMATIC_GAIN_CONTROL_BIT => 2 ^ 17
  | PB_GNSS_MEASUREMENTS_DATA_FULL_ISB_BIT => 2 ^ 18
  | PB_GNSS_MEASUREMENTS_DATA_FULL_ISB_UNCERTAINTY_BIT => 2 ^ 19
  | PB_GNSS_MEASUREMENTS_DATA_CYCLE_SLIP_COUNT_BIT => 2 ^ 20
  end.
#[export] Instance PBGnssMeasurementsDataFlagsMask_enum : CEnum PBGnssMeasurementsDataFlagsMask :=
  {| value := PBGnssMeasurementsDataFlagsMask_value; enumerators :=
      [PB_GNSS_MEASUREMENTS_DATA_INVALID; PB_GNSS_MEASUREMENTS_DATA_SV_ID_BIT;
       PB_GNSS_MEASUREMENTS_DATA_SV_TYPE_BIT; PB_GNSS_MEASUREMENTS_DATA_STATE_BIT;
       PB_GNSS_MEASUREMENTS_DATA_RECEIVED_SV_TIME_BIT;
       PB_GNSS_MEASUREMENTS_DATA_RECEIVED_SV_TIME_UNCERTAINTY_BIT;
       PB_GNSS_MEASUREMENTS_DATA_CARRIER_TO_NOISE_BIT; PB_GNSS_MEASUREMENTS_DATA_PSEUDORANGE_RATE_BIT;
       PB_GNSS_MEASUREMENTS_DATA_PSEUDORANGE_RATE_UNCERTAINTY_BIT; PB_GNSS_MEASUREMENTS_DATA_ADR_STATE_BIT;
       PB_GNSS_MEASUREMENTS_DATA_ADR_BIT; PB_GNSS_MEASUREMENTS_DATA_ADR_UNCERTAINTY_BIT;
       PB_GNSS_MEASUREMENTS_DATA_CARRIER_FREQUENCY_BIT; PB_GNSS_MEASUREMENTS_DATA_CARRIER_CYCLES_BIT;
       PB_GNSS_MEASUREMENTS_DATA_CARRIER_PHASE_BIT; PB_GNSS_MEASUREMENTS_DATA_CARRIER_PHASE_UNCERTAINTY_BIT;
       PB_GNSS_MEASUREMENTS_DATA_MULTIPATH_INDICATOR_BIT;
       PB_GNSS_MEASUREMENTS_DATA_SIGNAL_TO_NOISE_RATIO_BIT;
       PB_GNSS_MEASUREMENTS_DATA_AUTOMATIC_GAIN_CONTROL_BIT; PB_GNSS_MEASUREMENTS_DATA_FULL_ISB_BIT;
       PB_GNSS_MEASUREMENTS_DATA_FULL_ISB_UNCERTAINTY_BIT; PB_GNSS_MEASUREMENTS_DATA_CYCLE_SLIP_COUNT_BIT];
     enumerators_all := ltac:(enum_all) |}.

(** LocationApiDataTypes.proto:439 *)
Inductive PBGnssMeasurementsStateMask :=
  | PB_GNSS_MEASUREMENTS_STATE_UNKNOWN_BIT | PB_GNSS_MEASUREMENTS_STATE_CODE_LOCK_BIT
  | PB_GNSS_MEASUREMENTS_STATE_BIT_SYNC_BIT | PB_GNSS_MEASUREMENTS_STATE_SUBFRAME_SYNC_BIT
  | PB_GNSS_MEASUREMENTS_STATE_TOW_DECODED_BIT | PB_GNSS_MEASUREMENTS_STATE_MSEC_AMBIGUOUS_BIT
  | PB_GNSS_MEASUREMENTS_STATE_SYMBOL_SYNC_BIT | PB_GNSS_MEASUREMENTS_STATE_GLO_STRING_SYNC_BIT
  | PB_GNSS_MEASUREMENTS_STATE_GLO_TOD_DECODED_BIT | PB_GNSS_MEASUREMENTS_STATE_BDS_D2_BIT_SYNC_BIT
  | PB_GNSS_MEASUREMENTS_STATE_BDS_D2_SUBFRAME_SYNC_BIT | PB_GNSS_MEASUREMENTS_STATE_GAL_E1BC_CODE_LOCK_BIT
  | PB_GNSS_MEASUREMENTS_STATE_GAL_E1C_2ND_CODE_LOCK_BIT | PB_GNSS_MEASUREMENTS_STATE_GAL_E1B_PAGE_SYNC_BIT
  | PB_GNSS_MEASUREMENTS_STATE_SBAS_SYNC_BIT.
Definition PBGnssMeasurementsStateMask_value (x : PBGnssMeasurementsStateMask) : Z :=
  match x with
  | PB_GNSS_MEASUREMENTS_STATE_UNKNOWN_BIT => 0 | PB_GNSS_MEASUREMENTS_STATE_CODE_LOCK_BIT => 1
  | PB_GNSS_MEASUREMENTS_STATE_BIT_SYNC_BIT => 2 | PB_GNSS_MEASUREMENTS_STATE_SUBFRAME_SYNC_BIT => 4
  | PB_GNSS_MEASUREMENTS_STATE_TOW_DECODED_BIT => 8 | PB_GNSS_MEASUREMENTS_STATE_MSEC_AMBIGUOUS_BIT => 16
  | PB_GNSS_MEASUREMENTS_STATE_SYMBOL_SYNC_BIT => 32 | PB_GNSS_MEASUREMENTS_STATE_GLO_STRING_SYNC_BIT => 64
  | PB_GNSS_MEASUREMENTS_STATE_GLO_TOD_DECODED_BIT => 128
  | PB_GNSS_MEASUREMENTS_STATE_BDS_D2_BIT_SYNC_BIT => 256
  | PB_GNSS_MEASUREMENTS_STATE_BDS_D2_SUBFRAME_SYNC_BIT => 512
  | PB_GNSS_MEASUREMENTS_STATE_GAL_E1BC_CODE_LOCK_BIT => 2 ^ 10
  | PB_GNSS_MEASUREMENTS_STATE_GAL_E1C_2ND_CODE_LOCK_BIT => 2 ^ 11
  | PB_GNSS_MEASUREMENTS_STATE_GAL_E1B_PAGE_SYNC_BIT => 2 ^ 12
  | PB_GNSS_MEASUREMENTS_STATE_SBAS_SYNC_BIT => 2 ^ 13
  end.
#[export] Instance PBGnssMeasurementsStateMask_enum : CEnum PBGnssMeasurementsStateMask :=
  {| value := PBGnssMeasurementsStateMask_value; enumerators :=
      [PB_GNSS_MEASUREMENTS_STATE_UNKNOWN_BIT; PB_GNSS_MEASUREMENTS_STATE_CODE_LOCK_BIT;
       PB_GNSS_MEASUREMENTS_STATE_BIT_SYNC_BIT; PB_GNSS_MEASUREMENTS_STATE_SUBFRAME_SYNC_BIT;
       PB_GNSS_MEASUREMENTS_STATE_TOW_DECODED_BIT; PB_GNSS_MEASUREMENTS_STATE_MSEC_AMBIGUOUS_BIT;
       PB_GNSS_MEASUREMENTS_STATE_SYMBOL_SYNC_BIT; PB_GNSS_MEASUREMENTS_STATE_GLO_STRING_SYNC_BIT;
       PB_GNSS_MEASUREMENTS_STATE_GLO_TOD_DECODED_BIT; PB_GNSS_MEASUREMENTS_STATE_BDS_D2_BIT_SYNC_BIT;
       PB_GNSS_MEASUREMENTS_STATE_BDS_D2_SUBFRAME_SYNC_BIT;
       PB_GNSS_MEASUREMENTS_STATE_GAL_E1BC_CODE_LOCK_BIT;
       PB_GNSS_MEASUREMENTS_STATE_GAL_E1C_2ND_CODE_LOCK_BIT;
       PB_GNSS_MEASUREMENTS_STATE_GAL_E1B_PAGE_SYNC_BIT; PB_GNSS_MEASUREMENTS_STATE_SBAS_SYNC_BIT];
     enumerators_all := ltac:(enum_all) |}.

(** LocationApiDataTypes.proto:457 *)
Inductive PBGnssMeasurementsMultipathIndicator :=
  | PB_GNSS_MEASUREMENTS_MULTIPATH_INDICATOR_UNKNOWN | PB_GNSS_MEASUREMENTS_MULTIPATH_INDICATOR_PRESENT
  | PB_GNSS_MEASUREMENTS_MULTIPATH_INDICATOR_NOT_PRESENT.
Definition PBGnssMeasurementsMultipathIndicator_value (x : PBGnssMeasurementsMultipathIndicator) : Z :=
  match x with
  | PB_GNSS_MEASUREMENTS_MULTIPATH_INDICATOR_UNKNOWN => 0
  | PB_GNSS_MEASUREMENTS_MULTIPATH_INDICATOR_PRESENT => 1
  | PB_GNSS_MEASUREMENTS_MULTIPATH_INDICATOR_NOT_PRESENT => 2
  end.
#[export] Instance PBGnssMeasurementsMultipathIndicator_enum : CEnum PBGnssMeasurementsMultipathIndicator :=
  {| value := PBGnssMeasurementsMultipathIndicator_value; enumerators :=
      [PB_GNSS_MEASUREMENTS_MULTIPATH_INDICATOR_UNKNOWN; PB_GNSS_MEASUREMENTS_MULTIPATH_INDICATOR_PRESENT;
       PB_GNSS_MEASUREMENTS_MULTIPATH_INDICATOR_NOT_PRESENT];
     enumerators_all := ltac:(enum_all) |}.

(** LocationApiDataTypes.proto:463 *)
Inductive PBLocApiGnssAidingDataSvMask :=
  | PB_AIDING_DATA_SV_MASK_INVALID | PB_AIDING_DATA_SV_EPHEMERIS_BIT.
Definition PBLocApiGnssAidingDataSvMask_value (x : PBLocApiGnssAidingDataSvMask) : Z :=
  match x with
  | PB_AIDING_DATA_SV_MASK_INVALID => 0 | PB_AIDING_DATA_SV_EPHEMERIS_BIT => 1
  end.
#[export] Instance PBLocApiGnssAidingDataSvMask_enum : CEnum PBLocApiGnssAidingDataSvMask :=
  {| value := PBLocApiGnssAidingDataSvMask_value; enumerators :=
      [PB_AIDING_DATA_SV_MASK_INVALID; PB_AIDING_DATA_SV_EPHEMERIS_BIT];
     enumerators_all := ltac:(enum_all) |}.

(** LocationApiDataTypes.proto:471 *)
Inductive PBLocationFlagsMask :=
  | PB_LOCATION_FLAGS_INVALID | PB_LOCATION_HAS_LAT_LONG_BIT | PB_LOCATION_HAS_ALTITUDE_BIT
  | PB_LOCATION_HAS_SPEED_BIT | PB_LOCATION_HAS_BEARING_BIT | PB_LOCATION_HAS_ACCURACY_BIT
  | PB_LOCATION_HAS_VERTICAL_ACCURACY_BIT | PB_LOCATION_HAS_SPEED_ACCURACY_BIT
  | PB_LOCATION_HAS_BEARING_ACCURACY_BIT | PB_LOCATION_HAS_TIMESTAMP_BIT.
Definition PBLocationFlagsMask_value (x : PBLocationFlagsMask) : Z :=
  match x with
  | PB_LOCATION_FLAGS_INVALID => 0 | PB_LOCATION_HAS_LAT_LONG_BIT => 1 | PB_LOCATION_HAS_ALTITUDE_BIT => 2
  | PB_LOCATION_HAS_SPEED_BIT => 4 | PB_LOCATION_HAS_BEARING_BIT => 8 | PB_LOCATION_HAS_ACCURACY_BIT => 16
  | PB_LOCATION_HAS_VERTICAL_ACCURACY_BIT => 32 | PB_LOCATION_HAS_SPEED_ACCURACY_BIT => 64
  | PB_LOCATION_HAS_BEARING_ACCURACY_BIT => 128 | PB_LOCATION_HAS_TIMESTAMP_BIT => 256
  end.
#[export] Instance PBLocationFlagsMask_enum : CEnum PBLocationFlagsMask :=
  {| value := PBLocationFlagsMask_value; enumerators :=
      [PB_LOCATION_FLAGS_INVALID; PB_LOCATION_HAS_LAT_LONG_BIT; PB_LOCATION_HAS_ALTITUDE_BIT;
       PB_LOCATION_HAS_SPEED_BIT; PB_LOCATION_HAS_BEARING_BIT; PB_LOCATION_HAS_ACCURACY_BIT;
       PB_LOCATION_HAS_VERTICAL_ACCURACY_BIT; PB_LOCATION_HAS_SPEED_ACCURACY_BIT;
       PB_LOCATION_HAS_BEARING_ACCURACY_BIT; PB_LOCATION_HAS_TIMESTAMP_BIT];
     enumerators_all := ltac:(enum_all) |}.

(** LocationApiDataTypes.proto:493 *)
Inductive PBLocationTechnologyMask :=
  | PB_LOCATION_TECHNOLOGY_INVALID | PB_LOCATION_TECHNOLOGY_GNSS_BIT | PB_LOCATION_TECHNOLOGY_CELL_BIT
  | PB_LOCATION_TECHNOLOGY_WIFI_BIT | PB_LOCATION_TECHNOLOGY_SENSORS_BIT
  | PB_LOCATION_TECHNOLOGY_REFERENCE_LOCATION_BIT | PB_LOCATION_TECHNOLOGY_INJECTED_COARSE_POSITION_BIT
  | PB_LOCATION_TECHNOLOGY_AFLT_BIT | PB_LOCATION_TECHNOLOGY_HYBRID_BIT | PB_LOCATION_TECHNOLOGY_PPE_BIT
  | PB_LOCATION_TECHNOLOGY_VEH_BIT | PB_LOCATION_TECHNOLOGY_VIS_BIT.
Definition PBLocationTechnologyMask_value (x : PBLocationTechnologyMask) : Z :=
  match x with
  | PB_LOCATION_TECHNOLOGY_INVALID => 0 | PB_LOCATION_TECHNOLOGY_GNSS_BIT => 1
  | PB_LOCATION_TECHNOLOGY_CELL_BIT => 2 | PB_LOCATION_TECHNOLOGY_WIFI_BIT => 4
  | PB_LOCATION_TECHNOLOGY_SENSORS_BIT => 8 | PB_LOCATION_TECHNOLOGY_REFERENCE_LOCATION_BIT => 16
  | PB_LOCATION_TECHNOLOGY_INJECTED_COARSE_POSITION_BIT => 32 | PB_LOCATION_TECHNOLOGY_AFLT_BIT => 64
  | PB_LOCATION_TECHNOLOGY_HYBRID_BIT => 128 | PB_LOCATION_TECHNOLOGY_PPE_BIT => 256
  | PB_LOCATION_TECHNOLOGY_VEH_BIT => 512 | PB_LOCATION_TECHNOLOGY_VIS_BIT => 2 ^ 10
  end.
#[export] Instance PBLocationTechnologyMask_enum : CEnum PBLocationTechnologyMask :=
  {| value := PBLocationTechnologyMask_value; enumerators :=
      [PB_LOCATION_TECHNOLOGY_INVALID; PB_LOCATION_TECHNOLOGY_GNSS_BIT; PB_LOCATION_TECHNOLOGY_CELL_BIT;
       PB_LOCATION_TECHNOLOGY_WIFI_BIT; PB_LOCATION_TECHNOLOGY_SENSORS_BIT;
       PB_LOCATION_TECHNOLOGY_REFERENCE_LOCATION_BIT; PB_LOCATION_TECHNOLOGY_INJECTED_COARSE_POSITION_BIT;
       PB_LOCATION_TECHNOLOGY_AFLT_BIT; PB_LOCATION_TECHNOLOGY_HYBRID_BIT; PB_LOCATION_TECHNOLOGY_PPE_BIT;
       PB_LOCATION_TECHNOLOGY_VEH_BIT; PB_LOCATION_TECHNOLOGY_VIS_BIT];
     enumerators_all := ltac:(enum_all) |}.

(** LocationApiDataTypes.proto:519 *)
Inductive PBLocationCapabilitiesMask :=
  | PB_LOCATION_CAPS_INVALID | PB_LOCATION_CAPS_TIME_BASED_TRACKING_BIT
  | PB_LOCATION_CAPS_TIME_BASED_BATCHING_BIT | PB_LOCATION_CAPS_DISTANCE_BASED_TRACKING_BIT
  | PB_LOCATION_CAPS_DISTANCE_BASED_BATCHING_BIT | PB_LOCATION_CAPS_GEOFENCE_BIT
  | PB_LOCATION_CAPS_OUTDOOR_TRIP_BATCHING_BIT | PB_LOCATION_CAPS_GNSS_MEASUREMENTS_BIT
  | PB_LOCATION_CAPS_CONSTELLATION_ENABLEMENT_BIT | PB_LOCATION_CAPS_QWES_CARRIER_PHASE_BIT
  | PB_LOCATION_CAPS_QWES_SV_POLYNOMIAL_BIT | PB_LOCATION_CAPS_QWES_GNSS_SINGLE_FREQUENCY
  | PB_LOCATION_CAPS_QWES_GNSS_MULTI_FREQUENCY | PB_LOCATION_CAPS_QWES_VPE
  | PB_LOCATION_CAPS_QWES_CV2X_LOCATION_BASIC | PB_LOCATION_CAPS_QWES_CV2X_LOCATION_PREMIUM
  | PB_LOCATION_CAPS_QWES_PPE | PB_LOCATION_CAPS_QWES_QDR2 | PB_LOCATION_CAPS_QWES_QDR3.
Definition PBLocationCapabilitiesMask_value (x : PBLocationCapabilitiesMask) : Z :=
  match x with
  | PB_LOCATION_CAPS_INVALID => 0 | PB_LOCATION_CAPS_TIME_BASED_TRACKING_BIT => 1
  | PB_LOCATION_CAPS_TIME_BASED_BATCHING_BIT => 2 | PB_LOCATION_CAPS_DISTANCE_BASED_TRACKING_BIT => 4
  | PB_LOCATION_CAPS_DISTANCE_BASED_BATCHING_BIT => 8 | PB_LOCATION_CAPS_GEOFENCE_BIT => 16
  | PB_LOCATION_CAPS_OUTDOOR_TRIP_BATCHING_BIT => 32 | PB_LOCATION_CAPS_GNSS_MEASUREMENTS_BIT => 64
  | PB_LOCATION_CAPS_CONSTELLATION_ENABLEMENT_BIT => 128 | PB_LOCATION_CAPS_QWES_CARRIER_PHASE_BIT => 256
  | PB_LOCATION_CAPS_QWES_SV_POLYNOMIAL_BIT => 512 | PB_LOCATION_CAPS_QWES_GNSS_SINGLE_FREQUENCY => 2 ^ 10
  | PB_LOCATION_CAPS_QWES_GNSS_MULTI_FREQUENCY => 2 ^ 11 | PB_LOCATION_CAPS_QWES_VPE => 2 ^ 12
  | PB_LOCATION_CAPS_QWES_CV2X_LOCATION_BASIC => 2 ^ 13
  | PB_LOCATION_CAPS_QWES_CV2X_LOCATION_PREMIUM => 2 ^ 14 | PB_LOCATION_CAPS_QWES_PPE => 2 ^ 15
  | PB_LOCATION_CAPS_QWES_QDR2 => 2 ^ 16 | PB_LOCATION_CAPS_QWES_QDR3 => 2 ^ 17
  end.
#[export] Instance PBLocationCapabilitiesMask_enum : CEnum PBLocationCapabilitiesMask :=
  {| value := PBLocationCapabilitiesMask_value; enumerators :=
      [PB_LOCATION_CAPS_INVALID; PB_LOCATION_CAPS_TIME_BASED_TRACKING_BIT;
       PB_LOCATION_CAPS_TIME_BASED_BATCHING_BIT; PB_LOCATION_CAPS_DISTANCE_BASED_TRACKING_BIT;
       PB_LOCATION_CAPS_DISTANCE_BASED_BATCHING_BIT; PB_LOCATION_CAPS_GEOFENCE_BIT;
       PB_LOCATION_CAPS_OUTDOOR_TRIP_BATCHING_BIT; PB_LOCATION_CAPS_GNSS_MEASUREMENTS_BIT;
       PB_LOCATION_CAPS_CONSTELLATION_ENABLEMENT_BIT; PB_LOCATION_CAPS_QWES_CARRIER_PHASE_BIT;
       PB_LOCATION_CAPS_QWES_SV_POLYNOMIAL_BIT; PB_LOCATION_CAPS_QWES_GNSS_SINGLE_FREQUENCY;
       PB_LOCATION_CAPS_QWES_GNSS_MULTI_FREQUENCY; PB_LOCATION_CAPS_QWES_VPE;
       PB_LOCATION_CAPS_QWES_CV2X_LOCATION_BASIC; PB_LOCATION_CAPS_QWES_CV2X_LOCATION_PREMIUM;
       PB_LOCATION_CAPS_QWES_PPE; PB_LOCATION_CAPS_QWES_QDR2; PB_LOCATION_CAPS_QWES_QDR3];
     enumerators_all := ltac:(enum_all) |}.

(** LocationApiDataTypes.proto:601 *)
Inductive PBGnssDataMask :=
  | PB_GNSS_LOC_DATA_INVALID | PB_GNSS_LOC_DATA_JAMMER_IND_BIT | PB_GNSS_LOC_DATA_AGC_BIT.
Definition PBGnssDataMask_value (x : PBGnssDataMask) : Z :=
  match x with
  | PB_GNSS_LOC_DATA_INVALID => 0 | PB_GNSS_LOC_DATA_JAMMER_IND_BIT => 1 | PB_GNSS_LOC_DATA_AGC_BIT => 2
  end.
#[export] Instance PBGnssDataMask_enum : CEnum PBGnssDataMask :=
  {| value := PBGnssDataMask_value; enumerators :=
      [PB_GNSS_LOC_DATA_INVALID; PB_GNSS_LOC_DATA_JAMMER_IND_BIT; PB_GNSS_LOC_DATA_AGC_BIT];
     enumerators_all := ltac:(enum_all) |}.

(** LocationApiDataTypes.proto:609 *)
Inductive PBLIALeverArmTypeMask :=
  | PB_LEVER_ARM_TYPE_INVALID | PB_LEVER_ARM_TYPE_GNSS_TO_VRP_BIT | PB_LEVER_ARM_TYPE_DR_IMU_TO_GNSS_BIT
  | PB_LEVER_ARM_TYPE_VEPP_IMU_TO_GNSS_BIT.
Definition PBLIALeverArmTypeMask_value (x : PBLIALeverArmTypeMask) : Z :=
  match x with
  | PB_LEVER_ARM_TYPE_INVALID => 0 | PB_LEVER_ARM_TYPE_GNSS_TO_VRP_BIT => 1
  | PB_LEVER_ARM_TYPE_DR_IMU_TO_GNSS_BIT => 2 | PB_LEVER_ARM_TYPE_VEPP_IMU_TO_GNSS_BIT => 4
  end.
#[export] Instance PBLIALeverArmTypeMask_enum : CEnum PBLIALeverArmTypeMask :=
  {| value := PBLIALeverArmTypeMask_value; enumerators :=
      [PB_LEVER_ARM_TYPE_INVALID; PB_LEVER_ARM_TYPE_GNSS_TO_VRP_BIT; PB_LEVER_ARM_TYPE_DR_IMU_TO_GNSS_BIT;
       PB_LEVER_ARM_TYPE_VEPP_IMU_TO_GNSS_BIT];
     enumerators_all := ltac:(enum_all) |}.

(** LocationApiDataTypes.proto:624 *)
Inductive PBDrSolutionStatusMask :=
  | PB_VEHICLE_DRSOLUTION_INVALID | PB_VEHICLE_SENSOR_SPEED_INPUT_DETECTED
  | PB_VEHICLE_SENSOR_SPEED_INPUT_USED.
Definition PBDrSolutionStatusMask_value (x : PBDrSolutionStatusMask) : Z :=
  match x with
  | PB_VEHICLE_DRSOLUTION_INVALID => 0 | PB_VEHICLE_SENSOR_SPEED_INPUT_DETECTED => 1
  | PB_VEHICLE_SENSOR_SPEED_INPUT_USED => 2
  end.
#[export] Instance PBDrSolutionStatusMask_enum : CEnum PBDrSolutionStatusMask :=
  {| value := PBDrSolutionStatusMask_value; enumerators :=
      [PB_VEHICLE_DRSOLUTION_INVALID; PB_VEHICLE_SENSOR_SPEED_INPUT_DETECTED;
       PB_VEHICLE_SENSOR_SPEED_INPUT_USED];
     enumerators_all := ltac:(enum_all) |}.

(** LocationApiDataTypes.proto:630 *)
Inductive PBLocationSessionStatus :=
  | PB_LOCATION_SESS_SUCCESS | PB_LOCATION_SESS_INTERMEDIATE | PB_LOCATION_SESS_FAILURE.
Definition PBLocationSessionStatus_value (x : PBLocationSessionStatus) : Z :=
  match x with
  | PB_LOCATION_SESS_SUCCESS => 0 | PB_LOCATION_SESS_INTERMEDIATE => 1 | PB_LOCATION_SESS_FAILURE => 2
  end.
#[export] Instance PBLocationSessionStatus_enum : CEnum PBLocationSessionStatus :=
  {| value := PBLocationSessionStatus_value; enumerators :=
      [PB_LOCATION_SESS_SUCCESS; PB_LOCATION_SESS_INTERMEDIATE; PB_LOCATION_SESS_FAILURE];
     enumerators_all := ltac:(enum_all) |}.

(** LocationApiDataTypes.proto:638 *)
Inductive PBDeadReckoningEngineConfigValidMask :=
  | PB_DR_RECKON_ENGINE_CONFIG_INVALID | PB_BODY_TO_SENSOR_MOUNT_PARAMS_BIT
  | PB_VEHICLE_SPEED_SCALE_FACTOR_BIT | PB_VEHICLE_SPEED_SCALE_FACTOR_UNC_BIT | PB_GYRO_SCALE_FACTOR_BIT
  | PB_GYRO_SCALE_FACTOR_UNC_BIT.
Definition PBDeadReckoningEngineConfigValidMask_value (x : PBDeadReckoningEngineConfigValidMask) : Z :=
  match x with
  | PB_DR_RECKON_ENGINE_CONFIG_INVALID => 0 | PB_BODY_TO_SENSOR_MOUNT_PARAMS_BIT => 1
  | PB_VEHICLE_SPEED_SCALE_FACTOR_BIT => 2 | PB_VEHICLE_SPEED_SCALE_FACTOR_UNC_BIT => 4
  | PB_GYRO_SCALE_FACTOR_BIT => 8 | PB_GYRO_SCALE_FACTOR_UNC_BIT => 16
  end.
#[export] Instance PBDeadReckoningEngineConfigValidMask_enum : CEnum PBDeadReckoningEngineConfigValidMask :=
  {| value := PBDeadReckoningEngineConfigValidMask_value; enumerators :=
      [PB_DR_RECKON_ENGINE_CONFIG_INVALID; PB_BODY_TO_SENSOR_MOUNT_PARAMS_BIT;
       PB_VEHICLE_SPEED_SCALE_FACTOR_BIT; PB_VEHICLE_SPEED_SCALE_FACTOR_UNC_BIT; PB_GYRO_SCALE_FACTOR_BIT;
       PB_GYRO_SCALE_FACTOR_UNC_BIT];
     enumerators_all := ltac:(enum_all) |}.

(** LocationApiMsg.proto:56 *)
Inductive PBELocMsgID :=
  | PB_E_LOCAPI_UNDEFINED_MSG_ID | PB_E_LOCAPI_CLIENT_REGISTER_MSG_ID | PB_E_LOCAPI_CLIENT_DEREGISTER_MSG_ID
  | PB_E_LOCAPI_CAPABILILTIES_MSG_ID | PB_E_LOCAPI_HAL_READY_MSG_ID | PB_E_LOCAPI_START_TRACKING_MSG_ID
  | PB_E_LOCAPI_STOP_TRACKING_MSG_ID | PB_E_LOCAPI_UPDATE_CALLBACKS_MSG_ID
  | PB_E_LOCAPI_UPDATE_TRACKING_OPTIONS_MSG_ID | PB_E_LOCAPI_CONTROL_UPDATE_CONFIG_MSG_ID
  | PB_E_LOCAPI_CONTROL_DELETE_AIDING_DATA_MSG_ID | PB_E_LOCAPI_CONTROL_UPDATE_NETWORK_AVAILABILITY_MSG_ID
  | PB_E_LOCAPI_LOCATION_MSG_ID | PB_E_LOCAPI_LOCATION_INFO_MSG_ID | PB_E_LOCAPI_SATELLITE_VEHICLE_MSG_ID
  | PB_E_LOCAPI_NMEA_MSG_ID | PB_E_LOCAPI_DATA_MSG_ID | PB_E_LOCAPI_GET_GNSS_ENGERY_CONSUMED_MSG_ID
  | PB_E_LOCAPI_LOCATION_SYSTEM_INFO_MSG_ID | PB_E_LOCAPI_ENGINE_LOCATIONS_INFO_MSG_ID
  | PB_E_LOCAPI_START_BATCHING_MSG_ID | PB_E_LOCAPI_STOP_BATCHING_MSG_ID
  | PB_E_LOCAPI_UPDATE_BATCHING_OPTIONS_MSG_ID | PB_E_LOCAPI_BATCHING_MSG_ID
  | PB_E_LOCAPI_ADD_GEOFENCES_MSG_ID | PB_E_LOCAPI_REMOVE_GEOFENCES_MSG_ID
  | PB_E_LOCAPI_MODIFY_GEOFENCES_MSG_ID | PB_E_LOCAPI_PAUSE_GEOFENCES_MSG_ID
  | PB_E_LOCAPI_RESUME_GEOFENCES_MSG_ID | PB_E_LOCAPI_GEOFENCE_BREACH_MSG_ID | PB_E_LOCAPI_MEAS_MSG_ID
  | PB_E_LOCAPI_GET_SINGLE_TERRESTRIAL_POS_REQ_MSG_ID | PB_E_LOCAPI_GET_SINGLE_TERRESTRIAL_POS_RESP_MSG_ID
  | PB_E_LOCAPI_PINGTEST_MSG_ID | PB_E_INTAPI_CONFIG_CONSTRAINTED_TUNC_MSG_ID
  | PB_E_INTAPI_CONFIG_POSITION_ASSISTED_CLOCK_ESTIMATOR_MSG_ID | PB_E_INTAPI_CONFIG_SV_CONSTELLATION_MSG_ID
  | PB_E_INTAPI_CONFIG_AIDING_DATA_DELETION_MSG_ID | PB_E_INTAPI_CONFIG_LEVER_ARM_MSG_ID
  | PB_E_INTAPI_CONFIG_ROBUST_LOCATION_MSG_ID | PB_E_INTAPI_CONFIG_MIN_GPS_WEEK_MSG_ID
  | PB_E_INTAPI_CONFIG_DEAD_RECKONING_ENGINE_MSG_ID | PB_E_INTAPI_CONFIG_MIN_SV_ELEVATION_MSG_ID
  | PB_E_INTAPI_CONFIG_CONSTELLATION_SECONDARY_BAND_MSG_ID | PB_E_INTAPI_CONFIG_ENGINE_RUN_STATE_MSG_ID
  | PB_E_INTAPI_CONFIG_USER_CONSENT_TERRESTRIAL_POSITIONING_MSG_ID
  | PB_E_INTAPI_GET_ROBUST_LOCATION_CONFIG_REQ_MSG_ID | PB_E_INTAPI_GET_ROBUST_LOCATION_CONFIG_RESP_MSG_ID
  | PB_E_INTAPI_GET_MIN_GPS_WEEK_REQ_MSG_ID | PB_E_INTAPI_GET_MIN_GPS_WEEK_RESP_MSG_ID
  | PB_E_INTAPI_GET_MIN_SV_ELEVATION_REQ_MSG_ID | PB_E_INTAPI_GET_MIN_SV_ELEVATION_RESP_MSG_ID
  | PB_E_INTAPI_GET_CONSTELLATION_SECONDARY_BAND_CONFIG_REQ_MSG_ID
  | PB_E_INTAPI_GET_CONSTELLATION_SECONDARY_BAND_CONFIG_RESP_MSG_ID.
Definition PBELocMsgID_value (x : PBELocMsgID) : Z :=
  match x with
  | PB_E_LOCAPI_UNDEFINED_MSG_ID => 0 | PB_E_LOCAPI_CLIENT_REGISTER_MSG_ID => 1
  | PB_E_LOCAPI_CLIENT_DEREGISTER_MSG_ID => 2 | PB_E_LOCAPI_CAPABILILTIES_MSG_ID => 3
  | PB_E_LOCAPI_HAL_READY_MSG_ID => 4 | PB_E_LOCAPI_START_TRACKING_MSG_ID => 5
  | PB_E_LOCAPI_STOP_TRACKING_MSG_ID => 6 | PB_E_LOCAPI_UPDATE_CALLBACKS_MSG_ID => 7
  | PB_E_LOCAPI_UPDATE_TRACKING_OPTIONS_MSG_ID => 8 | PB_E_LOCAPI_CONTROL_UPDATE_CONFIG_MSG_ID => 9
  | PB_E_LOCAPI_CONTROL_DELETE_AIDING_DATA_MSG_ID => 10
  | PB_E_LOCAPI_CONTROL_UPDATE_NETWORK_AVAILABILITY_MSG_ID => 11 | PB_E_LOCAPI_LOCATION_MSG_ID => 12
  | PB_E_LOCAPI_LOCATION_INFO_MSG_ID => 13 | PB_E_LOCAPI_SATELLITE_VEHICLE_MSG_ID => 14
  | PB_E_LOCAPI_NMEA_MSG_ID => 15 | PB_E_LOCAPI_DATA_MSG_ID => 16
  | PB_E_LOCAPI_GET_GNSS_ENGERY_CONSUMED_MSG_ID => 17 | PB_E_LOCAPI_LOCATION_SYSTEM_INFO_MSG_ID => 18
  | PB_E_LOCAPI_ENGINE_LOCATIONS_INFO_MSG_ID => 19 | PB_E_LOCAPI_START_BATCHING_MSG_ID => 20
  | PB_E_LOCAPI_STOP_BATCHING_MSG_ID => 21 | PB_E_LOCAPI_UPDATE_BATCHING_OPTIONS_MSG_ID => 22
  | PB_E_LOCAPI_BATCHING_MSG_ID => 23 | PB_E_LOCAPI_ADD_GEOFENCES_MSG_ID => 24
  | PB_E_LOCAPI_REMOVE_GEOFENCES_MSG_ID => 25 | PB_E_LOCAPI_MODIFY_GEOFENCES_MSG_ID => 26
  | PB_E_LOCAPI_PAUSE_GEOFENCES_MSG_ID => 27 | PB_E_LOCAPI_RESUME_GEOFENCES_MSG_ID => 28
  | PB_E_LOCAPI_GEOFENCE_BREACH_MSG_ID => 29 | PB_E_LOCAPI_MEAS_MSG_ID => 30
  | PB_E_LOCAPI_GET_SINGLE_TERRESTRIAL_POS_REQ_MSG_ID => 31
  | PB_E_LOCAPI_GET_SINGLE_TERRESTRIAL_POS_RESP_MSG_ID => 32 | PB_E_LOCAPI_PINGTEST_MSG_ID => 99
  | PB_E_INTAPI_CONFIG_CONSTRAINTED_TUNC_MSG_ID => 200
  | PB_E_INTAPI_CONFIG_POSITION_ASSISTED_CLOCK_ESTIMATOR_MSG_ID => 201
  | PB_E_INTAPI_CONFIG_SV_CONSTELLATION_MSG_ID => 202 | PB_E_INTAPI_CONFIG_AIDING_DATA_DELETION_MSG_ID => 203
  | PB_E_INTAPI_CONFIG_LEVER_ARM_MSG_ID => 204 | PB_E_INTAPI_CONFIG_ROBUST_LOCATION_MSG_ID => 205
  | PB_E_INTAPI_CONFIG_MIN_GPS_WEEK_MSG_ID => 206 | PB_E_INTAPI_CONFIG_DEAD_RECKONING_ENGINE_MSG_ID => 207
  | PB_E_INTAPI_CONFIG_MIN_SV_ELEVATION_MSG_ID => 208
  | PB_E_INTAPI_CONFIG_CONSTELLATION_SECONDARY_BAND_MSG_ID => 209
  | PB_E_INTAPI_CONFIG_ENGINE_RUN_STATE_MSG_ID => 210
  | PB_E_INTAPI_CONFIG_USER_CONSENT_TERRESTRIAL_POSITIONING_MSG_ID => 211
  | PB_E_INTAPI_GET_ROBUST_LOCATION_CONFIG_REQ_MSG_ID => 300
  | PB_E_INTAPI_GET_ROBUST_LOCATION_CONFIG_RESP_MSG_ID => 301
  | PB_E_INTAPI_GET_MIN_GPS_WEEK_REQ_MSG_ID => 302 | PB_E_INTAPI_GET_MIN_GPS_WEEK_RESP_MSG_ID => 303
  | PB_E_INTAPI_GET_MIN_SV_ELEVATION_REQ_MSG_ID => 304 | PB_E_INTAPI_GET_MIN_SV_ELEVATION_RESP_MSG_ID => 305
  | PB_E_INTAPI_GET_CONSTELLATION_SECONDARY_BAND_CONFIG_REQ_MSG_ID => 306
  | PB_E_INTAPI_GET_CONSTELLATION_SECONDARY_BAND_CONFIG_RESP_MSG_ID => 307
  end.
#[export] Instance PBELocMsgID_enum : CEnum PBELocMsgID :=
  {| value := PBELocMsgID_value; enumerators :=
      [PB_E_LOCAPI_UNDEFINED_MSG_ID; PB_E_LOCAPI_CLIENT_REGISTER_MSG_ID;
       PB_E_LOCAPI_CLIENT_DEREGISTER_MSG_ID; PB_E_LOCAPI_CAPABILILTIES_MSG_ID; PB_E_LOCAPI_HAL_READY_MSG_ID;
       PB_E_LOCAPI_START_TRACKING_MSG_ID; PB_E_LOCAPI_STOP_TRACKING_MSG_ID;
       PB_E_LOCAPI_UPDATE_CALLBACKS_MSG_ID; PB_E_LOCAPI_UPDATE_TRACKING_OPTIONS_MSG_ID;
       PB_E_LOCAPI_CONTROL_UPDATE_CONFIG_MSG_ID; PB_E_LOCAPI_CONTROL_DELETE_AIDING_DATA_MSG_ID;
       PB_E_LOCAPI_CONTROL_UPDATE_NETWORK_AVAILABILITY_MSG_ID; PB_E_LOCAPI_LOCATION_MSG_ID;
       PB_E_LOCAPI_LOCATION_INFO_MSG_ID; PB_E_LOCAPI_SATELLITE_VEHICLE_MSG_ID; PB_E_LOCAPI_NMEA_MSG_ID;
       PB_E_LOCAPI_DATA_MSG_ID; PB_E_LOCAPI_GET_GNSS_ENGERY_CONSUMED_MSG_ID;
       PB_E_LOCAPI_LOCATION_SYSTEM_INFO_MSG_ID; PB_E_LOCAPI_ENGINE_LOCATIONS_INFO_MSG_ID;
       PB_E_LOCAPI_START_BATCHING_MSG_ID; PB_E_LOCAPI_STOP_BATCHING_MSG_ID;
       PB_E_LOCAPI_UPDATE_BATCHING_OPTIONS_MSG_ID; PB_E_LOCAPI_BATCHING_MSG_ID;
       PB_E_LOCAPI_ADD_GEOFENCES_MSG_ID; PB_E_LOCAPI_REMOVE_GEOFENCES_MSG_ID;
       PB_E_LOCAPI_MODIFY_GEOFENCES_MSG_ID; PB_E_LOCAPI_PAUSE_GEOFENCES_MSG_ID;
       PB_E_LOCAPI_RESUME_GEOFENCES_MSG_ID; PB_E_LOCAPI_GEOFENCE_BREACH_MSG_ID; PB_E_LOCAPI_MEAS_MSG_ID;
       PB_E_LOCAPI_GET_SINGLE_TERRESTRIAL_POS_REQ_MSG_ID; PB_E_LOCAPI_GET_SINGLE_TERRESTRIAL_POS_RESP_MSG_ID;
       PB_E_LOCAPI_PINGTEST_MSG_ID; PB_E_INTAPI_CONFIG_CONSTRAINTED_TUNC_MSG_ID;
       PB_E_INTAPI_CONFIG_POSITION_ASSISTED_CLOCK_ESTIMATOR_MSG_ID;
       PB_E_INTAPI_CONFIG_SV_CONSTELLATION_MSG_ID; PB_E_INTAPI_CONFIG_AIDING_DATA_DELETION_MSG_ID;
       PB_E_INTAPI_CONFIG_LEVER_ARM_MSG_ID; PB_E_INTAPI_CONFIG_ROBUST_LOCATION_MSG_ID;
       PB_E_INTAPI_CONFIG_MIN_GPS_WEEK_MSG_ID; PB_E_INTAPI_CONFIG_DEAD_RECKONING_ENGINE_MSG_ID;
       PB_E_INTAPI_CONFIG_MIN_SV_ELEVATION_MSG_ID; PB_E_INTAPI_CONFIG_CONSTELLATION_SECONDARY_BAND_MSG_ID;
       PB_E_INTAPI_CONFIG_ENGINE_RUN_STATE_MSG_ID;
       PB_E_INTAPI_CONFIG_USER_CONSENT_TERRESTRIAL_POSITIONING_MSG_ID;
       PB_E_INTAPI_GET_ROBUST_LOCATION_CONFIG_REQ_MSG_ID; PB_E_INTAPI_GET_ROBUST_LOCATION_CONFIG_RESP_MSG_ID;
       PB_E_INTAPI_GET_MIN_GPS_WEEK_REQ_MSG_ID; PB_E_INTAPI_GET_MIN_GPS_WEEK_RESP_MSG_ID;
       PB_E_INTAPI_GET_MIN_SV_ELEVATION_REQ_MSG_ID; PB_E_INTAPI_GET_MIN_SV_ELEVATION_RESP_MSG_ID;
       PB_E_INTAPI_GET_CONSTELLATION_SECONDARY_BAND_CONFIG_REQ_MSG_ID;
       PB_E_INTAPI_GET_CONSTELLATION_SECONDARY_BAND_CONFIG_RESP_MSG_ID];
     enumerators_all := ltac:(enum_all) |}.

(** LocationApiMsg.proto:148 *)
Inductive PBClientType :=
  | PB_LOCATION_CLIENT_TYPE_INVALID | PB_LOCATION_CLIENT_API | PB_LOCATION_INTEGRATION_API.
Definition PBClientType_value (x : PBClientType) : Z :=
  match x with
  | PB_LOCATION_CLIENT_TYPE_INVALID => 0 | PB_LOCATION_CLIENT_API => 1 | PB_LOCATION_INTEGRATION_API => 2
  end.
#[export] Instance PBClientType_enum : CEnum PBClientType :=
  {| value := PBClientType_value; enumerators :=
      [PB_LOCATION_CLIENT_TYPE_INVALID; PB_LOCATION_CLIENT_API; PB_LOCATION_INTEGRATION_API];
     enumerators_all := ltac:(enum_all) |}.

(** LocationApiMsg.proto:154 *)
Inductive PBLocationCallbacksMask :=
  | PB_E_LOC_CB_INVALID | PB_E_LOC_CB_DISTANCE_BASED_TRACKING_BIT | PB_E_LOC_CB_GNSS_LOCATION_INFO_BIT
  | PB_E_LOC_CB_GNSS_SV_BIT | PB_E_LOC_CB_GNSS_NMEA_BIT | PB_E_LOC_CB_GNSS_DATA_BIT
  | PB_E_LOC_CB_SYSTEM_INFO_BIT | PB_E_LOC_CB_BATCHING_BIT | PB_E_LOC_CB_BATCHING_STATUS_BIT
  | PB_E_LOC_CB_GEOFENCE_BREACH_BIT | PB_E_LOC_CB_ENGINE_LOCATIONS_INFO_BIT
  | PB_E_LOC_CB_SIMPLE_LOCATION_INFO_BIT | PB_E_LOC_CB_GNSS_MEAS_BIT.
Definition PBLocationCallbacksMask_value (x : PBLocationCallbacksMask) : Z :=
  match x with
  | PB_E_LOC_CB_INVALID => 0 | PB_E_LOC_CB_DISTANCE_BASED_TRACKING_BIT => 1
  | PB_E_LOC_CB_GNSS_LOCATION_INFO_BIT => 2 | PB_E_LOC_CB_GNSS_SV_BIT => 4 | PB_E_LOC_CB_GNSS_NMEA_BIT => 8
  | PB_E_LOC_CB_GNSS_DATA_BIT => 16 | PB_E_LOC_CB_SYSTEM_INFO_BIT => 32 | PB_E_LOC_CB_BATCHING_BIT => 64
  | PB_E_LOC_CB_BATCHING_STATUS_BIT => 128 | PB_E_LOC_CB_GEOFENCE_BREACH_BIT => 256
  | PB_E_LOC_CB_ENGINE_LOCATIONS_INFO_BIT => 512 | PB_E_LOC_CB_SIMPLE_LOCATION_INFO_BIT => 2 ^ 10
  | PB_E_LOC_CB_GNSS_MEAS_BIT => 2 ^ 11
  end.
#[export] Instance PBLocationCallbacksMask_enum : CEnum PBLocationCallbacksMask :=
  {| value := PBLocationCallbacksMask_value; enumerators :=
      [PB_E_LOC_CB_INVALID; PB_E_LOC_CB_DISTANCE_BASED_TRACKING_BIT; PB_E_LOC_CB_GNSS_LOCATION_INFO_BIT;
       PB_E_LOC_CB_GNSS_SV_BIT; PB_E_LOC_CB_GNSS_NMEA_BIT; PB_E_LOC_CB_GNSS_DATA_BIT;
       PB_E_LOC_CB_SYSTEM_INFO_BIT; PB_E_LOC_CB_BATCHING_BIT; PB_E_LOC_CB_BATCHING_STATUS_BIT;
       PB_E_LOC_CB_GEOFENCE_BREACH_BIT; PB_E_LOC_CB_ENGINE_LOCATIONS_INFO_BIT;
       PB_E_LOC_CB_SIMPLE_LOCATION_INFO_BIT; PB_E_LOC_CB_GNSS_MEAS_BIT];
     enumerators_all := ltac:(enum_all) |}.

(** LocationApiMsg.proto:190 *)
Inductive PBGeofenceBreachTypeMask :=
  | PB_GEOFENCE_BREACH_INVALID | PB_GEOFENCE_BREACH_ENTER_BIT | PB_GEOFENCE_BREACH_EXIT_BIT
  | PB_GEOFENCE_BREACH_DWELL_IN_BIT | PB_GEOFENCE_BREACH_DWELL_OUT_BIT.
Definition PBGeofenceBreachTypeMask_value (x : PBGeofenceBreachTypeMask) : Z :=
  match x with
  | PB_GEOFENCE_BREACH_INVALID => 0 | PB_GEOFENCE_BREACH_ENTER_BIT => 1 | PB_GEOFENCE_BREACH_EXIT_BIT => 2
  | PB_GEOFENCE_BREACH_DWELL_IN_BIT => 4 | PB_GEOFENCE_BREACH_DWELL_OUT_BIT => 8
  end.
#[export] Instance PBGeofenceBreachTypeMask_enum : CEnum PBGeofenceBreachTypeMask :=
  {| value := PBGeofenceBreachTypeMask_value; enumerators :=
      [PB_GEOFENCE_BREACH_INVALID; PB_GEOFENCE_BREACH_ENTER_BIT; PB_GEOFENCE_BREACH_EXIT_BIT;
       PB_GEOFENCE_BREACH_DWELL_IN_BIT; PB_GEOFENCE_BREACH_DWELL_OUT_BIT];
     enumerators_all := ltac:(enum_all) |}.
