(* ===== verification/PbMsgConv.v ===== *)
(** * location_api_msg_proto/src/LocationApiPbMsgConv.cpp : enumerations and masks across the IPC.

    The daemon and its clients exchange protobuf messages; these functions translate the
    enumerations and bit masks of the location API to those of the messages and back.
    An argument is any integer, as the C type of an enum admits; a switch or an if-else
    chain is [switch], a sequence of [if (mask & A) result |= B] is [collect].  The names
    of the functions and of the enumerators are the source's. *)
From S2P Require Import Prelude PbEnums.

Local Open Scope Z_scope.

#[local] Notation "a ↦ b" := (value a, value b) (at level 60).

(** The value of the first case that matches, or the initial one. *)
Fixpoint switch (x : Z) (cases : list (Z * Z)) (default : Z) : Z :=
  match cases with
  | [] => default
  | (a, b) :: cases => if x =? a then b else switch x cases default
  end.

(** [if (mask & bit) result |= out;], once per row. *)
Fixpoint collect (mask : Z) (rows : list (Z * Z)) (result : Z) : Z :=
  match rows with
  | [] => result
  | (bit, out) :: rows => collect mask rows (if Z.land mask bit =? 0 then result else Z.lor result out)
  end.

(** ** The functions *)
Definition getEnumForPBELocMsgID (pbLocMsgId : Z) : Z :=
  switch pbLocMsgId
    [ PB_E_LOCAPI_UNDEFINED_MSG_ID ↦ E_LOCAPI_UNDEFINED_MSG_ID;
      PB_E_LOCAPI_CLIENT_REGISTER_MSG_ID ↦ E_LOCAPI_CLIENT_REGISTER_MSG_ID;
      PB_E_LOCAPI_CLIENT_DEREGISTER_MSG_ID ↦ E_LOCAPI_CLIENT_DEREGISTER_MSG_ID;
      PB_E_LOCAPI_CAPABILILTIES_MSG_ID ↦ E_LOCAPI_CAPABILILTIES_MSG_ID;
      PB_E_LOCAPI_HAL_READY_MSG_ID ↦ E_LOCAPI_HAL_READY_MSG_ID;
      PB_E_LOCAPI_START_TRACKING_MSG_ID ↦ E_LOCAPI_START_TRACKING_MSG_ID;
      PB_E_LOCAPI_STOP_TRACKING_MSG_ID ↦ E_LOCAPI_STOP_TRACKING_MSG_ID;
      PB_E_LOCAPI_UPDATE_CALLBACKS_MSG_ID ↦ E_LOCAPI_UPDATE_CALLBACKS_MSG_ID;
      PB_E_LOCAPI_UPDATE_TRACKING_OPTIONS_MSG_ID ↦ E_LOCAPI_UPDATE_TRACKING_OPTIONS_MSG_ID;
      PB_E_LOCAPI_CONTROL_UPDATE_CONFIG_MSG_ID ↦ E_LOCAPI_CONTROL_UPDATE_CONFIG_MSG_ID;
      PB_E_LOCAPI_CONTROL_DELETE_AIDING_DATA_MSG_ID ↦ E_LOCAPI_CONTROL_DELETE_AIDING_DATA_MSG_ID;
      PB_E_LOCAPI_CONTROL_UPDATE_NETWORK_AVAILABILITY_MSG_ID ↦ E_LOCAPI_CONTROL_UPDATE_NETWORK_AVAILABILITY_MSG_ID;
      PB_E_LOCAPI_LOCATION_MSG_ID ↦ E_LOCAPI_LOCATION_MSG_ID;
      PB_E_LOCAPI_LOCATION_INFO_MSG_ID ↦ E_LOCAPI_LOCATION_INFO_MSG_ID;
      PB_E_LOCAPI_SATELLITE_VEHICLE_MSG_ID ↦ E_LOCAPI_SATELLITE_VEHICLE_MSG_ID;
      PB_E_LOCAPI_NMEA_MSG_ID ↦ E_LOCAPI_NMEA_MSG_ID;
      PB_E_LOCAPI_DATA_MSG_ID ↦ E_LOCAPI_DATA_MSG_ID;
      PB_E_LOCAPI_GET_GNSS_ENGERY_CONSUMED_MSG_ID ↦ E_LOCAPI_GET_GNSS_ENGERY_CONSUMED_MSG_ID;
      PB_E_LOCAPI_LOCATION_SYSTEM_INFO_MSG_ID ↦ E_LOCAPI_LOCATION_SYSTEM_INFO_MSG_ID;
      PB_E_LOCAPI_ENGINE_LOCATIONS_INFO_MSG_ID ↦ E_LOCAPI_ENGINE_LOCATIONS_INFO_MSG_ID;
      PB_E_LOCAPI_START_BATCHING_MSG_ID ↦ E_LOCAPI_START_BATCHING_MSG_ID;
      PB_E_LOCAPI_STOP_BATCHING_MSG_ID ↦ E_LOCAPI_STOP_BATCHING_MSG_ID;
      PB_E_LOCAPI_UPDATE_BATCHING_OPTIONS_MSG_ID ↦ E_LOCAPI_UPDATE_BATCHING_OPTIONS_MSG_ID;
      PB_E_LOCAPI_BATCHING_MSG_ID ↦ E_LOCAPI_BATCHING_MSG_ID;
      PB_E_LOCAPI_ADD_GEOFENCES_MSG_ID ↦ E_LOCAPI_ADD_GEOFENCES_MSG_ID;
      PB_E_LOCAPI_REMOVE_GEOFENCES_MSG_ID ↦ E_LOCAPI_REMOVE_GEOFENCES_MSG_ID;
      PB_E_LOCAPI_MODIFY_GEOFENCES_MSG_ID ↦ E_LOCAPI_MODIFY_GEOFENCES_MSG_ID;
      PB_E_LOCAPI_PAUSE_GEOFENCES_MSG_ID ↦ E_LOCAPI_PAUSE_GEOFENCES_MSG_ID;
      PB_E_LOCAPI_RESUME_GEOFENCES_MSG_ID ↦ E_LOCAPI_RESUME_GEOFENCES_MSG_ID;
      PB_E_LOCAPI_GEOFENCE_BREACH_MSG_ID ↦ E_LOCAPI_GEOFENCE_BREACH_MSG_ID;
      PB_E_LOCAPI_MEAS_MSG_ID ↦ E_LOCAPI_MEAS_MSG_ID;
      PB_E_LOCAPI_GET_SINGLE_TERRESTRIAL_POS_REQ_MSG_ID ↦ E_LOCAPI_GET_SINGLE_TERRESTRIAL_POS_REQ_MSG_ID;
      PB_E_LOCAPI_GET_SINGLE_TERRESTRIAL_POS_RESP_MSG_ID ↦ E_LOCAPI_GET_SINGLE_TERRESTRIAL_POS_RESP_MSG_ID;
      PB_E_LOCAPI_PINGTEST_MSG_ID ↦ E_LOCAPI_PINGTEST_MSG_ID;
      PB_E_INTAPI_CONFIG_CONSTRAINTED_TUNC_MSG_ID ↦ E_INTAPI_CONFIG_CONSTRAINTED_TUNC_MSG_ID;
      PB_E_INTAPI_CONFIG_POSITION_ASSISTED_CLOCK_ESTIMATOR_MSG_ID ↦ E_INTAPI_CONFIG_POSITION_ASSISTED_CLOCK_ESTIMATOR_MSG_ID;
      PB_E_INTAPI_CONFIG_SV_CONSTELLATION_MSG_ID ↦ E_INTAPI_CONFIG_SV_CONSTELLATION_MSG_ID;
      PB_E_INTAPI_CONFIG_AIDING_DATA_DELETION_MSG_ID ↦ E_INTAPI_CONFIG_AIDING_DATA_DELETION_MSG_ID;
      PB_E_INTAPI_CONFIG_LEVER_ARM_MSG_ID ↦ E_INTAPI_CONFIG_LEVER_ARM_MSG_ID;
      PB_E_INTAPI_CONFIG_ROBUST_LOCATION_MSG_ID ↦ E_INTAPI_CONFIG_ROBUST_LOCATION_MSG_ID;
      PB_E_INTAPI_CONFIG_MIN_GPS_WEEK_MSG_ID ↦ E_INTAPI_CONFIG_MIN_GPS_WEEK_MSG_ID;
      PB_E_INTAPI_CONFIG_DEAD_RECKONING_ENGINE_MSG_ID ↦ E_INTAPI_CONFIG_DEAD_RECKONING_ENGINE_MSG_ID;
      PB_E_INTAPI_CONFIG_MIN_SV_ELEVATION_MSG_ID ↦ E_INTAPI_CONFIG_MIN_SV_ELEVATION_MSG_ID;
      PB_E_INTAPI_CONFIG_CONSTELLATION_SECONDARY_BAND_MSG_ID ↦ E_INTAPI_CONFIG_CONSTELLATION_SECONDARY_BAND_MSG_ID;
      PB_E_INTAPI_CONFIG_ENGINE_RUN_STATE_MSG_ID ↦ E_INTAPI_CONFIG_ENGINE_RUN_STATE_MSG_ID;
      PB_E_INTAPI_CONFIG_USER_CONSENT_TERRESTRIAL_POSITIONING_MSG_ID ↦ E_INTAPI_CONFIG_USER_CONSENT_TERRESTRIAL_POSITIONING_MSG_ID;
      PB_E_INTAPI_GET_ROBUST_LOCATION_CONFIG_REQ_MSG_ID ↦ E_INTAPI_GET_ROBUST_LOCATION_CONFIG_REQ_MSG_ID;
      PB_E_INTAPI_GET_ROBUST_LOCATION_CONFIG_RESP_MSG_ID ↦ E_INTAPI_GET_ROBUST_LOCATION_CONFIG_RESP_MSG_ID;
      PB_E_INTAPI_GET_MIN_GPS_WEEK_REQ_MSG_ID ↦ E_INTAPI_GET_MIN_GPS_WEEK_REQ_MSG_ID;
      PB_E_INTAPI_GET_MIN_GPS_WEEK_RESP_MSG_ID ↦ E_INTAPI_GET_MIN_GPS_WEEK_RESP_MSG_ID;
      PB_E_INTAPI_GET_MIN_SV_ELEVATION_REQ_MSG_ID ↦ E_INTAPI_GET_MIN_SV_ELEVATION_REQ_MSG_ID;
      PB_E_INTAPI_GET_MIN_SV_ELEVATION_RESP_MSG_ID ↦ E_INTAPI_GET_MIN_SV_ELEVATION_RESP_MSG_ID;
      PB_E_INTAPI_GET_CONSTELLATION_SECONDARY_BAND_CONFIG_REQ_MSG_ID ↦ E_INTAPI_GET_CONSTELLATION_SECONDARY_BAND_CONFIG_REQ_MSG_ID;
      PB_E_INTAPI_GET_CONSTELLATION_SECONDARY_BAND_CONFIG_RESP_MSG_ID ↦ E_INTAPI_GET_CONSTELLATION_SECONDARY_BAND_CONFIG_RESP_MSG_ID ]
    (value E_LOCAPI_UNDEFINED_MSG_ID).

Definition getEnumForPBLocationError (pbLocErr : Z) : Z :=
  switch pbLocErr
    [ PB_LOCATION_ERROR_SUCCESS ↦ LOCATION_ERROR_SUCCESS;
      PB_LOCATION_ERROR_INVALID_PARAMETER ↦ LOCATION_ERROR_INVALID_PARAMETER;
      PB_LOCATION_ERROR_NOT_SUPPORTED ↦ LOCATION_ERROR_NOT_SUPPORTED;
      PB_LOCATION_ERROR_TIMEOUT ↦ LOCATION_ERROR_TIMEOUT ]
    (value LOCATION_ERROR_GENERAL_FAILURE).

Definition getEnumForPBClientType (pbClntTyp : Z) : Z :=
  switch pbClntTyp
    [ PB_LOCATION_INTEGRATION_API ↦ LOCATION_INTEGRATION_API ]
    (value LOCATION_CLIENT_API).

Definition getEnumForPBBatchingMode (pbBatchMode : Z) : Z :=
  switch pbBatchMode
    [ PB_BATCHING_MODE_TRIP ↦ BATCHING_MODE_TRIP;
      PB_BATCHING_MODE_NO_AUTO_REPORT ↦ BATCHING_MODE_NO_AUTO_REPORT ]
    (value BATCHING_MODE_ROUTINE).

Definition getEnumForPBGnssSuplMode (pbGnssSuplMode : Z) : Z :=
  switch pbGnssSuplMode
    [ PB_GNSS_SUPL_MODE_MSB ↦ GNSS_SUPL_MODE_MSB;
      PB_GNSS_SUPL_MODE_MSA ↦ GNSS_SUPL_MODE_MSA ]
    (value GNSS_SUPL_MODE_STANDALONE).

Definition getEnumForPBBatchingStatus (pbBatchStat : Z) : Z :=
  switch pbBatchStat
    [ PB_BATCHING_STATUS_TRIP_COMPLETED ↦ BATCHING_STATUS_TRIP_COMPLETED;
      PB_BATCHING_STATUS_POSITION_AVAILABE ↦ BATCHING_STATUS_POSITION_AVAILABE;
      PB_BATCHING_STATUS_POSITION_UNAVAILABLE ↦ BATCHING_STATUS_POSITION_UNAVAILABLE ]
    (value BATCHING_STATUS_POSITION_UNAVAILABLE).

Definition getEnumForPBGnssMeasMultipathIndic (pbGnssMeasMultipathIndic : Z) : Z :=
  switch pbGnssMeasMultipathIndic
    [ PB_GNSS_MEASUREMENTS_MULTIPATH_INDICATOR_UNKNOWN ↦ GNSS_MEASUREMENTS_MULTIPATH_INDICATOR_UNKNOWN;
      PB_GNSS_MEASUREMENTS_MULTIPATH_INDICATOR_PRESENT ↦ GNSS_MEASUREMENTS_MULTIPATH_INDICATOR_PRESENT;
      PB_GNSS_MEASUREMENTS_MULTIPATH_INDICATOR_NOT_PRESENT ↦ GNSS_MEASUREMENTS_MULTIPATH_INDICATOR_NOT_PRESENT ]
    (value GNSS_MEASUREMENTS_MULTIPATH_INDICATOR_UNKNOWN).

Definition getEnumForPBLocReliability (pbLocReliability : Z) : Z :=
  switch pbLocReliability
    [ PB_LOCATION_RELIABILITY_NOT_SET ↦ LOCATION_RELIABILITY_NOT_SET;
      PB_LOCATION_RELIABILITY_VERY_LOW ↦ LOCATION_RELIABILITY_VERY_LOW;
      PB_LOCATION_RELIABILITY_LOW ↦ LOCATION_RELIABILITY_LOW;
      PB_LOCATION_RELIABILITY_MEDIUM ↦ LOCATION_RELIABILITY_MEDIUM;
      PB_LOCATION_RELIABILITY_HIGH ↦ LOCATION_RELIABILITY_HIGH ]
    (value LOCATION_RELIABILITY_NOT_SET).

Definition getEnumForPBGnssLocSvSystem (pbGnssLocSvSysEnumType : Z) : Z :=
  switch pbGnssLocSvSysEnumType
    [ PB_GNSS_LOC_SV_SYSTEM_INVALID ↦ GNSS_LOC_SV_SYSTEM_UNKNOWN;
      PB_GNSS_LOC_SV_SYSTEM_GPS ↦ GNSS_LOC_SV_SYSTEM_GPS;
      PB_GNSS_LOC_SV_SYSTEM_GALILEO ↦ GNSS_LOC_SV_SYSTEM_GALILEO;
      PB_GNSS_LOC_SV_SYSTEM_SBAS ↦ GNSS_LOC_SV_SYSTEM_SBAS;
      PB_GNSS_LOC_SV_SYSTEM_GLONASS ↦ GNSS_LOC_SV_SYSTEM_GLONASS;
      PB_GNSS_LOC_SV_SYSTEM_BDS ↦ GNSS_LOC_SV_SYSTEM_BDS;
      PB_GNSS_LOC_SV_SYSTEM_QZSS ↦ GNSS_LOC_SV_SYSTEM_QZSS;
      PB_GNSS_LOC_SV_SYSTEM_NAVIC ↦ GNSS_LOC_SV_SYSTEM_NAVIC ]
    (value GNSS_LOC_SV_SYSTEM_UNKNOWN).

Definition getEnumForPBLocOutputEngineType (pbLocOpEngType : Z) : Z :=
  switch pbLocOpEngType
    [ PB_LOC_OUTPUT_ENGINE_FUSED ↦ LOC_OUTPUT_ENGINE_FUSED;
      PB_LOC_OUTPUT_ENGINE_SPE ↦ LOC_OUTPUT_ENGINE_SPE;
      PB_LOC_OUTPUT_ENGINE_PPE ↦ LOC_OUTPUT_ENGINE_PPE ]
    (value LOC_OUTPUT_ENGINE_FUSED).

Definition getEnumForPBLocEngineRunState (pbLocEngRunState : Z) : Z :=
  switch pbLocEngRunState
    [ PB_LOC_ENGINE_RUN_STATE_PAUSE ↦ LOC_ENGINE_RUN_STATE_PAUSE;
      PB_LOC_ENGINE_RUN_STATE_RESUME ↦ LOC_ENGINE_RUN_STATE_RESUME ]
    (0).

Definition getPBEnumForLocEngineRunState (locEngineRunState : Z) : Z :=
  switch locEngineRunState
    [ LOC_ENGINE_RUN_STATE_PAUSE ↦ PB_LOC_ENGINE_RUN_STATE_PAUSE;
      LOC_ENGINE_RUN_STATE_RESUME ↦ PB_LOC_ENGINE_RUN_STATE_RESUME ]
    (value PB_LOC_ENGINE_RUN_STATE_INVALID).

Definition getTerrestrialTechMaskFromPB_table : list (Z * Z) :=
    [ PB_TERRESTRIAL_TECH_GTP_WWAN ↦ TERRESTRIAL_TECH_GTP_WWAN ].
Definition getTerrestrialTechMaskFromPB (pbTerrestrialTechMask : Z) : Z := collect pbTerrestrialTechMask getTerrestrialTechMaskFromPB_table 0.

Definition getPBMaskForTerrestrialTechMask_table : list (Z * Z) :=
    [ TERRESTRIAL_TECH_GTP_WWAN ↦ PB_TERRESTRIAL_TECH_GTP_WWAN ].
Definition getPBMaskForTerrestrialTechMask (terrestrialTechMask : Z) : Z := collect terrestrialTechMask getPBMaskForTerrestrialTechMask_table (value PB_TERRESTRIAL_TECH_INVALID).

Definition getGnssSvTypeFromPBGnssLocSvSystemEnumType (pbGnssLocSvSysEnum : Z) : Z :=
  switch pbGnssLocSvSysEnum
    [ PB_GNSS_LOC_SV_SYSTEM_GPS ↦ GNSS_SV_TYPE_GPS;
      PB_GNSS_LOC_SV_SYSTEM_GALILEO ↦ GNSS_SV_TYPE_GALILEO;
      PB_GNSS_LOC_SV_SYSTEM_SBAS ↦ GNSS_SV_TYPE_SBAS;
      PB_GNSS_LOC_SV_SYSTEM_GLONASS ↦ GNSS_SV_TYPE_GLONASS;
      PB_GNSS_LOC_SV_SYSTEM_BDS ↦ GNSS_SV_TYPE_BEIDOU;
      PB_GNSS_LOC_SV_SYSTEM_QZSS ↦ GNSS_SV_TYPE_QZSS;
      PB_GNSS_LOC_SV_SYSTEM_NAVIC ↦ GNSS_SV_TYPE_NAVIC ]
    (value GNSS_SV_TYPE_UNKNOWN).

Definition getPBEnumForELocMsgID (eLocMsgId : Z) : Z :=
  switch eLocMsgId
    [ E_LOCAPI_CLIENT_REGISTER_MSG_ID ↦ PB_E_LOCAPI_CLIENT_REGISTER_MSG_ID;
      E_LOCAPI_CLIENT_DEREGISTER_MSG_ID ↦ PB_E_LOCAPI_CLIENT_DEREGISTER_MSG_ID;
      E_LOCAPI_CAPABILILTIES_MSG_ID ↦ PB_E_LOCAPI_CAPABILILTIES_MSG_ID;
      E_LOCAPI_HAL_READY_MSG_ID ↦ PB_E_LOCAPI_HAL_READY_MSG_ID;
      E_LOCAPI_START_TRACKING_MSG_ID ↦ PB_E_LOCAPI_START_TRACKING_MSG_ID;
      E_LOCAPI_STOP_TRACKING_MSG_ID ↦ PB_E_LOCAPI_STOP_TRACKING_MSG_ID;
      E_LOCAPI_UPDATE_CALLBACKS_MSG_ID ↦ PB_E_LOCAPI_UPDATE_CALLBACKS_MSG_ID;
      E_LOCAPI_UPDATE_TRACKING_OPTIONS_MSG_ID ↦ PB_E_LOCAPI_UPDATE_TRACKING_OPTIONS_MSG_ID;
      E_LOCAPI_CONTROL_UPDATE_CONFIG_MSG_ID ↦ PB_E_LOCAPI_CONTROL_UPDATE_CONFIG_MSG_ID;
      E_LOCAPI_CONTROL_DELETE_AIDING_DATA_MSG_ID ↦ PB_E_LOCAPI_CONTROL_DELETE_AIDING_DATA_MSG_ID;
      E_LOCAPI_CONTROL_UPDATE_NETWORK_AVAILABILITY_MSG_ID ↦ PB_E_LOCAPI_CONTROL_UPDATE_NETWORK_AVAILABILITY_MSG_ID;
      E_LOCAPI_LOCATION_MSG_ID ↦ PB_E_LOCAPI_LOCATION_MSG_ID;
      E_LOCAPI_LOCATION_INFO_MSG_ID ↦ PB_E_LOCAPI_LOCATION_INFO_MSG_ID;
      E_LOCAPI_SATELLITE_VEHICLE_MSG_ID ↦ PB_E_LOCAPI_SATELLITE_VEHICLE_MSG_ID;
      E_LOCAPI_NMEA_MSG_ID ↦ PB_E_LOCAPI_NMEA_MSG_ID;
      E_LOCAPI_DATA_MSG_ID ↦ PB_E_LOCAPI_DATA_MSG_ID;
      E_LOCAPI_GET_GNSS_ENGERY_CONSUMED_MSG_ID ↦ PB_E_LOCAPI_GET_GNSS_ENGERY_CONSUMED_MSG_ID;
      E_LOCAPI_LOCATION_SYSTEM_INFO_MSG_ID ↦ PB_E_LOCAPI_LOCATION_SYSTEM_INFO_MSG_ID;
      E_LOCAPI_ENGINE_LOCATIONS_INFO_MSG_ID ↦ PB_E_LOCAPI_ENGINE_LOCATIONS_INFO_MSG_ID;
      E_LOCAPI_START_BATCHING_MSG_ID ↦ PB_E_LOCAPI_START_BATCHING_MSG_ID;
      E_LOCAPI_STOP_BATCHING_MSG_ID ↦ PB_E_LOCAPI_STOP_BATCHING_MSG_ID;
      E_LOCAPI_UPDATE_BATCHING_OPTIONS_MSG_ID ↦ PB_E_LOCAPI_UPDATE_BATCHING_OPTIONS_MSG_ID;
      E_LOCAPI_BATCHING_MSG_ID ↦ PB_E_LOCAPI_BATCHING_MSG_ID;
      E_LOCAPI_ADD_GEOFENCES_MSG_ID ↦ PB_E_LOCAPI_ADD_GEOFENCES_MSG_ID;
      E_LOCAPI_REMOVE_GEOFENCES_MSG_ID ↦ PB_E_LOCAPI_REMOVE_GEOFENCES_MSG_ID;
      E_LOCAPI_MODIFY_GEOFENCES_MSG_ID ↦ PB_E_LOCAPI_MODIFY_GEOFENCES_MSG_ID;
      E_LOCAPI_PAUSE_GEOFENCES_MSG_ID ↦ PB_E_LOCAPI_PAUSE_GEOFENCES_MSG_ID;
      E_LOCAPI_RESUME_GEOFENCES_MSG_ID ↦ PB_E_LOCAPI_RESUME_GEOFENCES_MSG_ID;
      E_LOCAPI_GEOFENCE_BREACH_MSG_ID ↦ PB_E_LOCAPI_GEOFENCE_BREACH_MSG_ID;
      E_LOCAPI_MEAS_MSG_ID ↦ PB_E_LOCAPI_MEAS_MSG_ID;
      E_LOCAPI_GET_SINGLE_TERRESTRIAL_POS_REQ_MSG_ID ↦ PB_E_LOCAPI_GET_SINGLE_TERRESTRIAL_POS_REQ_MSG_ID;
      E_LOCAPI_GET_SINGLE_TERRESTRIAL_POS_RESP_MSG_ID ↦ PB_E_LOCAPI_GET_SINGLE_TERRESTRIAL_POS_RESP_MSG_ID;
      E_LOCAPI_PINGTEST_MSG_ID ↦ PB_E_LOCAPI_PINGTEST_MSG_ID;
      E_INTAPI_CONFIG_CONSTRAINTED_TUNC_MSG_ID ↦ PB_E_INTAPI_CONFIG_CONSTRAINTED_TUNC_MSG_ID;
      E_INTAPI_CONFIG_POSITION_ASSISTED_CLOCK_ESTIMATOR_MSG_ID ↦ PB_E_INTAPI_CONFIG_POSITION_ASSISTED_CLOCK_ESTIMATOR_MSG_ID;
      E_INTAPI_CONFIG_SV_CONSTELLATION_MSG_ID ↦ PB_E_INTAPI_CONFIG_SV_CONSTELLATION_MSG_ID;
      E_INTAPI_CONFIG_AIDING_DATA_DELETION_MSG_ID ↦ PB_E_INTAPI_CONFIG_AIDING_DATA_DELETION_MSG_ID;
      E_INTAPI_CONFIG_LEVER_ARM_MSG_ID ↦ PB_E_INTAPI_CONFIG_LEVER_ARM_MSG_ID;
      E_INTAPI_CONFIG_ROBUST_LOCATION_MSG_ID ↦ PB_E_INTAPI_CONFIG_ROBUST_LOCATION_MSG_ID;
      E_INTAPI_CONFIG_MIN_GPS_WEEK_MSG_ID ↦ PB_E_INTAPI_CONFIG_MIN_GPS_WEEK_MSG_ID;
      E_INTAPI_CONFIG_DEAD_RECKONING_ENGINE_MSG_ID ↦ PB_E_INTAPI_CONFIG_DEAD_RECKONING_ENGINE_MSG_ID;
      E_INTAPI_CONFIG_MIN_SV_ELEVATION_MSG_ID ↦ PB_E_INTAPI_CONFIG_MIN_SV_ELEVATION_MSG_ID;
      E_INTAPI_CONFIG_CONSTELLATION_SECONDARY_BAND_MSG_ID ↦ PB_E_INTAPI_CONFIG_CONSTELLATION_SECONDARY_BAND_MSG_ID;
      E_INTAPI_CONFIG_ENGINE_RUN_STATE_MSG_ID ↦ PB_E_INTAPI_CONFIG_ENGINE_RUN_STATE_MSG_ID;
      E_INTAPI_CONFIG_USER_CONSENT_TERRESTRIAL_POSITIONING_MSG_ID ↦ PB_E_INTAPI_CONFIG_USER_CONSENT_TERRESTRIAL_POSITIONING_MSG_ID;
      E_INTAPI_GET_ROBUST_LOCATION_CONFIG_REQ_MSG_ID ↦ PB_E_INTAPI_GET_ROBUST_LOCATION_CONFIG_REQ_MSG_ID;
      E_INTAPI_GET_ROBUST_LOCATION_CONFIG_RESP_MSG_ID ↦ PB_E_INTAPI_GET_ROBUST_LOCATION_CONFIG_RESP_MSG_ID;
      E_INTAPI_GET_MIN_GPS_WEEK_REQ_MSG_ID ↦ PB_E_INTAPI_GET_MIN_GPS_WEEK_REQ_MSG_ID;
      E_INTAPI_GET_MIN_GPS_WEEK_RESP_MSG_ID ↦ PB_E_INTAPI_GET_MIN_GPS_WEEK_RESP_MSG_ID;
      E_INTAPI_GET_MIN_SV_ELEVATION_REQ_MSG_ID ↦ PB_E_INTAPI_GET_MIN_SV_ELEVATION_REQ_MSG_ID;
      E_INTAPI_GET_MIN_SV_ELEVATION_RESP_MSG_ID ↦ PB_E_INTAPI_GET_MIN_SV_ELEVATION_RESP_MSG_ID;
      E_INTAPI_GET_CONSTELLATION_SECONDARY_BAND_CONFIG_REQ_MSG_ID ↦ PB_E_INTAPI_GET_CONSTELLATION_SECONDARY_BAND_CONFIG_REQ_MSG_ID;
      E_INTAPI_GET_CONSTELLATION_SECONDARY_BAND_CONFIG_RESP_MSG_ID ↦ PB_E_INTAPI_GET_CONSTELLATION_SECONDARY_BAND_CONFIG_RESP_MSG_ID ]
    (value PB_E_LOCAPI_UNDEFINED_MSG_ID).

Definition getPBEnumForClientType (clientTyp : Z) : Z :=
  switch clientTyp
    [ LOCATION_CLIENT_API ↦ PB_LOCATION_CLIENT_API ]
    (value PB_LOCATION_INTEGRATION_API).

Definition getPBEnumForBatchingMode (batchMode : Z) : Z :=
  switch batchMode
    [ BATCHING_MODE_ROUTINE ↦ PB_BATCHING_MODE_ROUTINE;
      BATCHING_MODE_TRIP ↦ PB_BATCHING_MODE_TRIP;
      BATCHING_MODE_NO_AUTO_REPORT ↦ PB_BATCHING_MODE_NO_AUTO_REPORT ]
    (value PB_BATCHING_MODE_ROUTINE).

Definition getPBEnumForLocationError (locErr : Z) : Z :=
  switch locErr
    [ LOCATION_ERROR_SUCCESS ↦ PB_LOCATION_ERROR_SUCCESS;
      LOCATION_ERROR_INVALID_PARAMETER ↦ PB_LOCATION_ERROR_INVALID_PARAMETER;
      LOCATION_ERROR_NOT_SUPPORTED ↦ PB_LOCATION_ERROR_NOT_SUPPORTED;
      LOCATION_ERROR_TIMEOUT ↦ PB_LOCATION_ERROR_TIMEOUT ]
    (value PB_LOCATION_ERROR_GENERAL_FAILURE).

Definition getPBEnumForGnssSuplMode (gnssSuplMode : Z) : Z :=
  switch gnssSuplMode
    [ GNSS_SUPL_MODE_STANDALONE ↦ PB_GNSS_SUPL_MODE_STANDALONE;
      GNSS_SUPL_MODE_MSB ↦ PB_GNSS_SUPL_MODE_MSB;
      GNSS_SUPL_MODE_MSA ↦ PB_GNSS_SUPL_MODE_MSA ]
    (value PB_GNSS_SUPL_MODE_STANDALONE).

Definition getPBEnumForBatchingStatus (batchStatus : Z) : Z :=
  switch batchStatus
    [ BATCHING_STATUS_TRIP_COMPLETED ↦ PB_BATCHING_STATUS_TRIP_COMPLETED;
      BATCHING_STATUS_POSITION_AVAILABE ↦ PB_BATCHING_STATUS_POSITION_AVAILABE;
      BATCHING_STATUS_POSITION_UNAVAILABLE ↦ PB_BATCHING_STATUS_POSITION_UNAVAILABLE ]
    (value PB_BATCHING_STATUS_POSITION_UNAVAILABLE).

Definition getPBEnumForLocationReliability (locReliab : Z) : Z :=
  switch locReliab
    [ LOCATION_RELIABILITY_NOT_SET ↦ PB_LOCATION_RELIABILITY_NOT_SET;
      LOCATION_RELIABILITY_VERY_LOW ↦ PB_LOCATION_RELIABILITY_VERY_LOW;
      LOCATION_RELIABILITY_LOW ↦ PB_LOCATION_RELIABILITY_LOW;
      LOCATION_RELIABILITY_MEDIUM ↦ PB_LOCATION_RELIABILITY_MEDIUM;
      LOCATION_RELIABILITY_HIGH ↦ PB_LOCATION_RELIABILITY_HIGH ]
    (value PB_LOCATION_RELIABILITY_NOT_SET).

Definition getPBEnumForLocOutputEngineType (locOpEng : Z) : Z :=
  switch locOpEng
    [ LOC_OUTPUT_ENGINE_FUSED ↦ PB_LOC_OUTPUT_ENGINE_FUSED;
      LOC_OUTPUT_ENGINE_SPE ↦ PB_LOC_OUTPUT_ENGINE_SPE;
      LOC_OUTPUT_ENGINE_PPE ↦ PB_LOC_OUTPUT_ENGINE_PPE ]
    (value PB_LOC_OUTPUT_ENGINE_FUSED).

Definition getPBEnumForGnssMeasMultiPathIndic (gnssMeasMultiPathIndic : Z) : Z :=
  switch gnssMeasMultiPathIndic
    [ GNSS_MEASUREMENTS_MULTIPATH_INDICATOR_UNKNOWN ↦ PB_GNSS_MEASUREMENTS_MULTIPATH_INDICATOR_UNKNOWN;
      GNSS_MEASUREMENTS_MULTIPATH_INDICATOR_PRESENT ↦ PB_GNSS_MEASUREMENTS_MULTIPATH_INDICATOR_PRESENT;
      GNSS_MEASUREMENTS_MULTIPATH_INDICATOR_NOT_PRESENT ↦ PB_GNSS_MEASUREMENTS_MULTIPATH_INDICATOR_NOT_PRESENT ]
    (value PB_GNSS_MEASUREMENTS_MULTIPATH_INDICATOR_UNKNOWN).

Definition getPBEnumForGnssLocSvSystem (gnssLocSvSysEnumType : Z) : Z :=
  switch gnssLocSvSysEnumType
    [ GNSS_LOC_SV_SYSTEM_GPS ↦ PB_GNSS_LOC_SV_SYSTEM_GPS;
      GNSS_LOC_SV_SYSTEM_GALILEO ↦ PB_GNSS_LOC_SV_SYSTEM_GALILEO;
      GNSS_LOC_SV_SYSTEM_SBAS ↦ PB_GNSS_LOC_SV_SYSTEM_SBAS;
      GNSS_LOC_SV_SYSTEM_GLONASS ↦ PB_GNSS_LOC_SV_SYSTEM_GLONASS;
      GNSS_LOC_SV_SYSTEM_BDS ↦ PB_GNSS_LOC_SV_SYSTEM_BDS;
      GNSS_LOC_SV_SYSTEM_QZSS ↦ PB_GNSS_LOC_SV_SYSTEM_QZSS;
      GNSS_LOC_SV_SYSTEM_NAVIC ↦ PB_GNSS_LOC_SV_SYSTEM_NAVIC ]
    (value PB_GNSS_LOC_SV_SYSTEM_INVALID).

Definition getPBGnssLocSvSysEnumFromGnssSvType (gnssSvType : Z) : Z :=
  switch gnssSvType
    [ GNSS_SV_TYPE_UNKNOWN ↦ PB_GNSS_LOC_SV_SYSTEM_INVALID;
      GNSS_SV_TYPE_GPS ↦ PB_GNSS_LOC_SV_SYSTEM_GPS;
      GNSS_SV_TYPE_SBAS ↦ PB_GNSS_LOC_SV_SYSTEM_SBAS;
      GNSS_SV_TYPE_GLONASS ↦ PB_GNSS_LOC_SV_SYSTEM_GLONASS;
      GNSS_SV_TYPE_QZSS ↦ PB_GNSS_LOC_SV_SYSTEM_QZSS;
      GNSS_SV_TYPE_BEIDOU ↦ PB_GNSS_LOC_SV_SYSTEM_BDS;
      GNSS_SV_TYPE_GALILEO ↦ PB_GNSS_LOC_SV_SYSTEM_GALILEO;
      GNSS_SV_TYPE_NAVIC ↦ PB_GNSS_LOC_SV_SYSTEM_NAVIC ]
    (value PB_GNSS_LOC_SV_SYSTEM_INVALID).

Definition getPBMaskForLocationCallbacksMask_table : list (Z * Z) :=
    [ E_LOC_CB_DISTANCE_BASED_TRACKING_BIT ↦ PB_E_LOC_CB_DISTANCE_BASED_TRACKING_BIT;
      E_LOC_CB_GNSS_LOCATION_INFO_BIT ↦ PB_E_LOC_CB_GNSS_LOCATION_INFO_BIT;
      E_LOC_CB_GNSS_SV_BIT ↦ PB_E_LOC_CB_GNSS_SV_BIT;
      E_LOC_CB_GNSS_NMEA_BIT ↦ PB_E_LOC_CB_GNSS_NMEA_BIT;
      E_LOC_CB_GNSS_DATA_BIT ↦ PB_E_LOC_CB_GNSS_DATA_BIT;
      E_LOC_CB_SYSTEM_INFO_BIT ↦ PB_E_LOC_CB_SYSTEM_INFO_BIT;
      E_LOC_CB_BATCHING_BIT ↦ PB_E_LOC_CB_BATCHING_BIT;
      E_LOC_CB_BATCHING_STATUS_BIT ↦ PB_E_LOC_CB_BATCHING_STATUS_BIT;
      E_LOC_CB_GEOFENCE_BREACH_BIT ↦ PB_E_LOC_CB_GEOFENCE_BREACH_BIT;
      E_LOC_CB_ENGINE_LOCATIONS_INFO_BIT ↦ PB_E_LOC_CB_ENGINE_LOCATIONS_INFO_BIT;
      E_LOC_CB_SIMPLE_LOCATION_INFO_BIT ↦ PB_E_LOC_CB_SIMPLE_LOCATION_INFO_BIT;
      E_LOC_CB_GNSS_MEAS_BIT ↦ PB_E_LOC_CB_GNSS_MEAS_BIT ].
Definition getPBMaskForLocationCallbacksMask (locCbMask : Z) : Z := collect locCbMask getPBMaskForLocationCallbacksMask_table 0.

Definition getPBMaskForLocationCapabilitiesMask_table : list (Z * Z) :=
    [ LOCATION_CAPABILITIES_TIME_BASED_TRACKING_BIT ↦ PB_LOCATION_CAPS_TIME_BASED_TRACKING_BIT;
      LOCATION_CAPABILITIES_TIME_BASED_BATCHING_BIT ↦ PB_LOCATION_CAPS_TIME_BASED_BATCHING_BIT;
      LOCATION_CAPABILITIES_DISTANCE_BASED_TRACKING_BIT ↦ PB_LOCATION_CAPS_DISTANCE_BASED_TRACKING_BIT;
      LOCATION_CAPABILITIES_DISTANCE_BASED_BATCHING_BIT ↦ PB_LOCATION_CAPS_DISTANCE_BASED_BATCHING_BIT;
      LOCATION_CAPABILITIES_GEOFENCE_BIT ↦ PB_LOCATION_CAPS_GEOFENCE_BIT;
      LOCATION_CAPABILITIES_OUTDOOR_TRIP_BATCHING_BIT ↦ PB_LOCATION_CAPS_OUTDOOR_TRIP_BATCHING_BIT;
      LOCATION_CAPABILITIES_GNSS_MEASUREMENTS_BIT ↦ PB_LOCATION_CAPS_GNSS_MEASUREMENTS_BIT;
      LOCATION_CAPABILITIES_CONSTELLATION_ENABLEMENT_BIT ↦ PB_LOCATION_CAPS_CONSTELLATION_ENABLEMENT_BIT;
      LOCATION_CAPABILITIES_QWES_CARRIER_PHASE_BIT ↦ PB_LOCATION_CAPS_QWES_CARRIER_PHASE_BIT;
      LOCATION_CAPABILITIES_QWES_SV_POLYNOMIAL_BIT ↦ PB_LOCATION_CAPS_QWES_SV_POLYNOMIAL_BIT;
      LOCATION_CAPABILITIES_QWES_GNSS_SINGLE_FREQUENCY ↦ PB_LOCATION_CAPS_QWES_GNSS_SINGLE_FREQUENCY;
      LOCATION_CAPABILITIES_QWES_GNSS_MULTI_FREQUENCY ↦ PB_LOCATION_CAPS_QWES_GNSS_MULTI_FREQUENCY;
      LOCATION_CAPABILITIES_QWES_VPE ↦ PB_LOCATION_CAPS_QWES_VPE;
      LOCATION_CAPABILITIES_QWES_CV2X_LOCATION_BASIC ↦ PB_LOCATION_CAPS_QWES_CV2X_LOCATION_BASIC;
      LOCATION_CAPABILITIES_QWES_CV2X_LOCATION_PREMIUM ↦ PB_LOCATION_CAPS_QWES_CV2X_LOCATION_PREMIUM;
      LOCATION_CAPABILITIES_QWES_PPE ↦ PB_LOCATION_CAPS_QWES_PPE;
      LOCATION_CAPABILITIES_QWES_QDR2 ↦ PB_LOCATION_CAPS_QWES_QDR2;
      LOCATION_CAPABILITIES_QWES_QDR3 ↦ PB_LOCATION_CAPS_QWES_QDR3 ].
Definition getPBMaskForLocationCapabilitiesMask (locCapabMask : Z) : Z := collect locCapabMask getPBMaskForLocationCapabilitiesMask_table 0.

Definition getPBMaskForPositioningEngineMask_table : list (Z * Z) :=
    [ STANDARD_POSITIONING_ENGINE ↦ PB_STANDARD_POSITIONING_ENGINE;
      DEAD_RECKONING_ENGINE ↦ PB_DEAD_RECKONING_ENGINE;
      PRECISE_POSITIONING_ENGINE ↦ PB_PRECISE_POSITIONING_ENGINE ].
Definition getPBMaskForPositioningEngineMask (posEngMask : Z) : Z := collect posEngMask getPBMaskForPositioningEngineMask_table 0.

Definition getPBMaskForLeverArmTypeMask_table : list (Z * Z) :=
    [ LEVER_ARM_TYPE_GNSS_TO_VRP_BIT ↦ PB_LEVER_ARM_TYPE_GNSS_TO_VRP_BIT;
      LEVER_ARM_TYPE_DR_IMU_TO_GNSS_BIT ↦ PB_LEVER_ARM_TYPE_DR_IMU_TO_GNSS_BIT;
      LEVER_ARM_TYPE_VEPP_IMU_TO_GNSS_BIT ↦ PB_LEVER_ARM_TYPE_VEPP_IMU_TO_GNSS_BIT ].
Definition getPBMaskForLeverArmTypeMask (leverArmTypeMask : Z) : Z := collect leverArmTypeMask getPBMaskForLeverArmTypeMask_table 0.

Definition getPBMaskForLocReqEngineTypeMask_table : list (Z * Z) :=
    [ LOC_REQ_ENGINE_FUSED_BIT ↦ PB_LOC_REQ_ENGINE_FUSED_BIT;
      LOC_REQ_ENGINE_SPE_BIT ↦ PB_LOC_REQ_ENGINE_SPE_BIT;
      LOC_REQ_ENGINE_PPE_BIT ↦ PB_LOC_REQ_ENGINE_PPE_BIT ].
Definition getPBMaskForLocReqEngineTypeMask (locReqEngTypeMask : Z) : Z := collect locReqEngTypeMask getPBMaskForLocReqEngineTypeMask_table 0.

Definition getPBMaskForGnssCfgRobustLocValidMask_table : list (Z * Z) :=
    [ GNSS_CONFIG_ROBUST_LOCATION_ENABLED_VALID_BIT ↦ PB_GNSS_CONFIG_ROBUST_LOCATION_ENABLED_VALID_BIT;
      GNSS_CONFIG_ROBUST_LOCATION_ENABLED_FOR_E911_VALID_BIT ↦ PB_GNSS_CONFIG_ROBUST_LOCATION_ENABLED_FOR_E911_VALID_BIT;
      GNSS_CONFIG_ROBUST_LOCATION_VERSION_VALID_BIT ↦ PB_GNSS_CONFIG_ROBUST_LOCATION_VERSION_VALID_BIT ].
Definition getPBMaskForGnssCfgRobustLocValidMask (gnssCfgRobustLocValidMask : Z) : Z := collect gnssCfgRobustLocValidMask getPBMaskForGnssCfgRobustLocValidMask_table 0.

Definition getPBMaskForLocSysInfoMask_table : list (Z * Z) :=
    [ LOCATION_SYS_INFO_LEAP_SECOND ↦ PB_LOCATION_SYS_INFO_LEAP_SECOND ].
Definition getPBMaskForLocSysInfoMask (locSysInfoMask : Z) : Z := collect locSysInfoMask getPBMaskForLocSysInfoMask_table 0.

Definition getPBMaskForGnssDataMask_table : list (Z * Z) :=
    [ GNSS_LOC_DATA_JAMMER_IND_BIT ↦ PB_GNSS_LOC_DATA_JAMMER_IND_BIT;
      GNSS_LOC_DATA_AGC_BIT ↦ PB_GNSS_LOC_DATA_AGC_BIT ].
Definition getPBMaskForGnssDataMask (gnssDataMask : Z) : Z := collect gnssDataMask getPBMaskForGnssDataMask_table 0.

Definition getPBMaskForGnssAidingDataSvMask_table : list (Z * Z) :=
    [ GNSS_AIDING_DATA_SV_EPHEMERIS_BIT ↦ PB_AIDING_DATA_SV_EPHEMERIS_BIT ].
Definition getPBMaskForGnssAidingDataSvMask (gnssAidDataSvMask : Z) : Z := collect gnssAidDataSvMask getPBMaskForGnssAidingDataSvMask_table 0.

Definition getPBMaskForLeapSecondSysInfoMask_table : list (Z * Z) :=
    [ LEAP_SECOND_SYS_INFO_CURRENT_LEAP_SECONDS_BIT ↦ PB_LEAP_SECOND_SYS_INFO_CURRENT_LEAP_SECONDS_BIT;
      LEAP_SECOND_SYS_INFO_LEAP_SECOND_CHANGE_BIT ↦ PB_LEAP_SECOND_SYS_INFO_LEAP_SECOND_CHANGE_BIT ].
Definition getPBMaskForLeapSecondSysInfoMask (leapSecSysInfoMask : Z) : Z := collect leapSecSysInfoMask getPBMaskForLeapSecondSysInfoMask_table 0.

Definition getPBMaskForGnssSystemTimeStructTypeFlags_table : list (Z * Z) :=
    [ GNSS_SYSTEM_TIME_WEEK_VALID ↦ PB_GNSS_SYSTEM_TIME_WEEK_VALID;
      GNSS_SYSTEM_TIME_WEEK_MS_VALID ↦ PB_GNSS_SYSTEM_TIME_WEEK_MS_VALID;
      GNSS_SYSTEM_CLK_TIME_BIAS_VALID ↦ PB_GNSS_SYSTEM_CLK_TIME_BIAS_VALID;
      GNSS_SYSTEM_CLK_TIME_BIAS_UNC_VALID ↦ PB_GNSS_SYSTEM_CLK_TIME_BIAS_UNC_VALID;
      GNSS_SYSTEM_REF_FCOUNT_VALID ↦ PB_GNSS_SYSTEM_REF_FCOUNT_VALID;
      GNSS_SYSTEM_NUM_CLOCK_RESETS_VALID ↦ PB_GNSS_SYSTEM_NUM_CLOCK_RESETS_VALID ].
Definition getPBMaskForGnssSystemTimeStructTypeFlags (gnssSysTimeStructTypeFlg : Z) : Z := collect gnssSysTimeStructTypeFlg getPBMaskForGnssSystemTimeStructTypeFlags_table 0.

Definition getPBMaskForLocationFlagsMask_table : list (Z * Z) :=
    [ LOCATION_HAS_LAT_LONG_BIT ↦ PB_LOCATION_HAS_LAT_LONG_BIT;
      LOCATION_HAS_ALTITUDE_BIT ↦ PB_LOCATION_HAS_ALTITUDE_BIT;
      LOCATION_HAS_SPEED_BIT ↦ PB_LOCATION_HAS_SPEED_BIT;
      LOCATION_HAS_BEARING_BIT ↦ PB_LOCATION_HAS_BEARING_BIT;
      LOCATION_HAS_ACCURACY_BIT ↦ PB_LOCATION_HAS_ACCURACY_BIT;
      LOCATION_HAS_VERTICAL_ACCURACY_BIT ↦ PB_LOCATION_HAS_VERTICAL_ACCURACY_BIT;
      LOCATION_HAS_SPEED_ACCURACY_BIT ↦ PB_LOCATION_HAS_SPEED_ACCURACY_BIT;
      LOCATION_HAS_BEARING_ACCURACY_BIT ↦ PB_LOCATION_HAS_BEARING_ACCURACY_BIT ].
Definition getPBMaskForLocationFlagsMask (locFlagsMask : Z) : Z := collect locFlagsMask getPBMaskForLocationFlagsMask_table 0.

Definition getPBMaskForLocationTechnologyMask_table : list (Z * Z) :=
    [ LOCATION_TECHNOLOGY_GNSS_BIT ↦ PB_LOCATION_TECHNOLOGY_GNSS_BIT;
      LOCATION_TECHNOLOGY_CELL_BIT ↦ PB_LOCATION_TECHNOLOGY_CELL_BIT;
      LOCATION_TECHNOLOGY_WIFI_BIT ↦ PB_LOCATION_TECHNOLOGY_WIFI_BIT;
      LOCATION_TECHNOLOGY_SENSORS_BIT ↦ PB_LOCATION_TECHNOLOGY_SENSORS_BIT;
      LOCATION_TECHNOLOGY_REFERENCE_LOCATION_BIT ↦ PB_LOCATION_TECHNOLOGY_REFERENCE_LOCATION_BIT;
      LOCATION_TECHNOLOGY_INJECTED_COARSE_POSITION_BIT ↦ PB_LOCATION_TECHNOLOGY_INJECTED_COARSE_POSITION_BIT;
      LOCATION_TECHNOLOGY_AFLT_BIT ↦ PB_LOCATION_TECHNOLOGY_AFLT_BIT;
      LOCATION_TECHNOLOGY_HYBRID_BIT ↦ PB_LOCATION_TECHNOLOGY_HYBRID_BIT;
      LOCATION_TECHNOLOGY_PPE_BIT ↦ PB_LOCATION_TECHNOLOGY_PPE_BIT;
      LOCATION_TECHNOLOGY_VEH_BIT ↦ PB_LOCATION_TECHNOLOGY_VEH_BIT;
      LOCATION_TECHNOLOGY_VIS_BIT ↦ PB_LOCATION_TECHNOLOGY_VIS_BIT ].
Definition getPBMaskForLocationTechnologyMask (locTechMask : Z) : Z := collect locTechMask getPBMaskForLocationTechnologyMask_table 0.

Definition getPBMaskForGnssLocationInfoFlagMask_table : list (Z * Z) :=
    [ GNSS_LOCATION_INFO_ALTITUDE_MEAN_SEA_LEVEL_BIT ↦ PB_GNSS_LOCATION_INFO_ALTITUDE_MEAN_SEA_LEVEL_BIT;
      GNSS_LOCATION_INFO_DOP_BIT ↦ PB_GNSS_LOCATION_INFO_DOP_BIT;
      GNSS_LOCATION_INFO_MAGNETIC_DEVIATION_BIT ↦ PB_GNSS_LOCATION_INFO_MAGNETIC_DEVIATION_BIT;
      GNSS_LOCATION_INFO_HOR_RELIABILITY_BIT ↦ PB_GNSS_LOCATION_INFO_HOR_RELIABILITY_BIT;
      GNSS_LOCATION_INFO_VER_RELIABILITY_BIT ↦ PB_GNSS_LOCATION_INFO_VER_RELIABILITY_BIT;
      GNSS_LOCATION_INFO_HOR_ACCURACY_ELIP_SEMI_MAJOR_BIT ↦ PB_GNSS_LOCATION_INFO_HOR_ACCURACY_ELIP_SEMI_MAJOR_BIT;
      GNSS_LOCATION_INFO_HOR_ACCURACY_ELIP_SEMI_MINOR_BIT ↦ PB_GNSS_LOCATION_INFO_HOR_ACCURACY_ELIP_SEMI_MINOR_BIT;
      GNSS_LOCATION_INFO_HOR_ACCURACY_ELIP_AZIMUTH_BIT ↦ PB_GNSS_LOCATION_INFO_HOR_ACCURACY_ELIP_AZIMUTH_BIT;
      GNSS_LOCATION_INFO_GNSS_SV_USED_DATA_BIT ↦ PB_GNSS_LOCATION_INFO_GNSS_SV_USED_DATA_BIT;
      GNSS_LOCATION_INFO_NAV_SOLUTION_MASK_BIT ↦ PB_GNSS_LOCATION_INFO_NAV_SOLUTION_MASK_BIT;
      GNSS_LOCATION_INFO_POS_DYNAMICS_DATA_BIT ↦ PB_GNSS_LOCATION_INFO_POS_DYNAMICS_DATA_BIT;
      GNSS_LOCATION_INFO_EXT_DOP_BIT ↦ PB_GNSS_LOCATION_INFO_EXT_DOP_BIT;
      GNSS_LOCATION_INFO_NORTH_STD_DEV_BIT ↦ PB_GNSS_LOCATION_INFO_NORTH_STD_DEV_BIT;
      GNSS_LOCATION_INFO_EAST_STD_DEV_BIT ↦ PB_GNSS_LOCATION_INFO_EAST_STD_DEV_BIT;
      GNSS_LOCATION_INFO_NORTH_VEL_BIT ↦ PB_GNSS_LOCATION_INFO_NORTH_VEL_BIT;
      GNSS_LOCATION_INFO_EAST_VEL_BIT ↦ PB_GNSS_LOCATION_INFO_EAST_VEL_BIT;
      GNSS_LOCATION_INFO_UP_VEL_BIT ↦ PB_GNSS_LOCATION_INFO_UP_VEL_BIT;
      GNSS_LOCATION_INFO_NORTH_VEL_UNC_BIT ↦ PB_GNSS_LOCATION_INFO_NORTH_VEL_UNC_BIT;
      GNSS_LOCATION_INFO_EAST_VEL_UNC_BIT ↦ PB_GNSS_LOCATION_INFO_EAST_VEL_UNC_BIT;
      GNSS_LOCATION_INFO_UP_VEL_UNC_BIT ↦ PB_GNSS_LOCATION_INFO_UP_VEL_UNC_BIT;
      GNSS_LOCATION_INFO_LEAP_SECONDS_BIT ↦ PB_GNSS_LOCATION_INFO_LEAP_SECONDS_BIT;
      GNSS_LOCATION_INFO_TIME_UNC_BIT ↦ PB_GNSS_LOCATION_INFO_TIME_UNC_BIT;
      GNSS_LOCATION_INFO_NUM_SV_USED_IN_POSITION_BIT ↦ PB_GNSS_LOCATION_INFO_NUM_SV_USED_IN_POSITION_BIT;
      GNSS_LOCATION_INFO_CALIBRATION_CONFIDENCE_BIT ↦ PB_GNSS_LOCATION_INFO_CALIBRATION_CONFIDENCE_PERCENT_BIT;
      GNSS_LOCATION_INFO_CALIBRATION_STATUS_BIT ↦ PB_GNSS_LOCATION_INFO_CALIBRATION_STATUS_BIT;
      GNSS_LOCATION_INFO_OUTPUT_ENG_TYPE_BIT ↦ PB_GNSS_LOCATION_INFO_OUTPUT_ENG_TYPE_BIT;
      GNSS_LOCATION_INFO_OUTPUT_ENG_MASK_BIT ↦ PB_GNSS_LOCATION_INFO_OUTPUT_ENG_MASK_BIT;
      GNSS_LOCATION_INFO_CONFORMITY_INDEX_BIT ↦ PB_GNSS_LOCATION_INFO_CONFORMITY_INDEX_BIT;
      GNSS_LOCATION_INFO_LLA_VRP_BASED_BIT ↦ PB_GNSS_LOCATION_INFO_LLA_VRP_BASED_BIT;
      GNSS_LOCATION_INFO_ENU_VELOCITY_VRP_BASED_BIT ↦ PB_GNSS_LOCATION_INFO_ENU_VELOCITY_VRP_BASED_BIT;
      GNSS_LOCATION_INFO_DR_SOLUTION_STATUS_MASK_BIT ↦ PB_GNSS_LOCATION_INFO_DR_SOLUTION_STATUS_MASK_BIT ].
Definition getPBMaskForGnssLocationInfoFlagMask (gnssLocInfoFlagMask : Z) : Z := collect gnssLocInfoFlagMask getPBMaskForGnssLocationInfoFlagMask_table 0.

Definition getPBMaskForGnssLocationInfoExtFlagMask_table : list (Z * Z) :=
    [ GNSS_LOCATION_INFO_ALTITUDE_ASSUMED_BIT ↦ PB_GNSS_LOCATION_INFO_ALTITUDE_ASSUMED_BIT;
      GNSS_LOCATION_INFO_SESSION_STATUS_BIT ↦ PB_GNSS_LOCATION_INFO_SESSION_STATUS_BIT ].
Definition getPBMaskForGnssLocationInfoExtFlagMask (gnssLocInfoFlagMask : Z) : Z := collect gnssLocInfoFlagMask getPBMaskForGnssLocationInfoExtFlagMask_table 0.

Definition getPBMaskForGnssLocationNavSolutionMask_table : list (Z * Z) :=
    [ LOCATION_SBAS_CORRECTION_IONO_BIT ↦ PB_LOCATION_SBAS_CORRECTION_IONO_BIT;
      LOCATION_SBAS_CORRECTION_FAST_BIT ↦ PB_LOCATION_SBAS_CORRECTION_FAST_BIT;
      LOCATION_SBAS_CORRECTION_LONG_BIT ↦ PB_LOCATION_SBAS_CORRECTION_LONG_BIT;
      LOCATION_SBAS_INTEGRITY_BIT ↦ PB_LOCATION_SBAS_INTEGRITY_BIT;
      LOCATION_NAV_CORRECTION_DGNSS_BIT ↦ PB_LOCATION_NAV_CORRECTION_DGNSS_BIT;
      LOCATION_NAV_CORRECTION_RTK_BIT ↦ PB_LOCATION_NAV_CORRECTION_RTK_BIT;
      LOCATION_NAV_CORRECTION_PPP_BIT ↦ PB_LOCATION_NAV_CORRECTION_PPP_BIT;
      LOCATION_NAV_CORRECTION_RTK_FIXED_BIT ↦ PB_LOCATION_NAV_CORRECTION_RTK_FIXED_BIT;
      LOCATION_NAV_CORRECTION_ONLY_SBAS_CORRECTED_SV_USED_BIT ↦ PB_LOCATION_NAV_CORRECTION_ONLY_SBAS_CORRECTED_SV_USED_BIT ].
Definition getPBMaskForGnssLocationNavSolutionMask (gnssLocNavSolnMask : Z) : Z := collect gnssLocNavSolnMask getPBMaskForGnssLocationNavSolutionMask_table 0.

Definition getPBMaskForDrCalibrationStatusMask_table : list (Z * Z) :=
    [ DR_ROLL_CALIBRATION_NEEDED ↦ PB_DR_ROLL_CALIBRATION_NEEDED;
      DR_PITCH_CALIBRATION_NEEDED ↦ PB_DR_PITCH_CALIBRATION_NEEDED;
      DR_YAW_CALIBRATION_NEEDED ↦ PB_DR_YAW_CALIBRATION_NEEDED;
      DR_ODO_CALIBRATION_NEEDED ↦ PB_DR_ODO_CALIBRATION_NEEDED;
      DR_GYRO_CALIBRATION_NEEDED ↦ PB_DR_GYRO_CALIBRATION_NEEDED ].
Definition getPBMaskForDrCalibrationStatusMask (drCalibStatusMask : Z) : Z := collect drCalibStatusMask getPBMaskForDrCalibrationStatusMask_table 0.

Definition getPBMaskForGnssMeasurementsDataFlagsMask_table : list (Z * Z) :=
    [ GNSS_MEASUREMENTS_DATA_SV_ID_BIT ↦ PB_GNSS_MEASUREMENTS_DATA_SV_ID_BIT;
      GNSS_MEASUREMENTS_DATA_SV_TYPE_BIT ↦ PB_GNSS_MEASUREMENTS_DATA_SV_TYPE_BIT;
      GNSS_MEASUREMENTS_DATA_STATE_BIT ↦ PB_GNSS_MEASUREMENTS_DATA_STATE_BIT;
      GNSS_MEASUREMENTS_DATA_RECEIVED_SV_TIME_BIT ↦ PB_GNSS_MEASUREMENTS_DATA_RECEIVED_SV_TIME_BIT;
      GNSS_MEASUREMENTS_DATA_RECEIVED_SV_TIME_UNCERTAINTY_BIT ↦ PB_GNSS_MEASUREMENTS_DATA_RECEIVED_SV_TIME_UNCERTAINTY_BIT;
      GNSS_MEASUREMENTS_DATA_CARRIER_TO_NOISE_BIT ↦ PB_GNSS_MEASUREMENTS_DATA_CARRIER_TO_NOISE_BIT;
      GNSS_MEASUREMENTS_DATA_PSEUDORANGE_RATE_BIT ↦ PB_GNSS_MEASUREMENTS_DATA_PSEUDORANGE_RATE_BIT;
      GNSS_MEASUREMENTS_DATA_PSEUDORANGE_RATE_UNCERTAINTY_BIT ↦ PB_GNSS_MEASUREMENTS_DATA_PSEUDORANGE_RATE_UNCERTAINTY_BIT;
      GNSS_MEASUREMENTS_DATA_ADR_STATE_BIT ↦ PB_GNSS_MEASUREMENTS_DATA_ADR_STATE_BIT;
      GNSS_MEASUREMENTS_DATA_ADR_BIT ↦ PB_GNSS_MEASUREMENTS_DATA_ADR_BIT;
      GNSS_MEASUREMENTS_DATA_ADR_UNCERTAINTY_BIT ↦ PB_GNSS_MEASUREMENTS_DATA_ADR_UNCERTAINTY_BIT;
      GNSS_MEASUREMENTS_DATA_CARRIER_FREQUENCY_BIT ↦ PB_GNSS_MEASUREMENTS_DATA_CARRIER_FREQUENCY_BIT;
      GNSS_MEASUREMENTS_DATA_CARRIER_CYCLES_BIT ↦ PB_GNSS_MEASUREMENTS_DATA_CARRIER_CYCLES_BIT;
      GNSS_MEASUREMENTS_DATA_CARRIER_PHASE_BIT ↦ PB_GNSS_MEASUREMENTS_DATA_CARRIER_PHASE_BIT;
      GNSS_MEASUREMENTS_DATA_CARRIER_PHASE_UNCERTAINTY_BIT ↦ PB_GNSS_MEASUREMENTS_DATA_CARRIER_PHASE_UNCERTAINTY_BIT;
      GNSS_MEASUREMENTS_DATA_MULTIPATH_INDICATOR_BIT ↦ PB_GNSS_MEASUREMENTS_DATA_MULTIPATH_INDICATOR_BIT;
      GNSS_MEASUREMENTS_DATA_SIGNAL_TO_NOISE_RATIO_BIT ↦ PB_GNSS_MEASUREMENTS_DATA_SIGNAL_TO_NOISE_RATIO_BIT;
      GNSS_MEASUREMENTS_DATA_AUTOMATIC_GAIN_CONTROL_BIT ↦ PB_GNSS_MEASUREMENTS_DATA_AUTOMATIC_GAIN_CONTROL_BIT;
      GNSS_MEASUREMENTS_DATA_FULL_ISB_BIT ↦ PB_GNSS_MEASUREMENTS_DATA_FULL_ISB_BIT;
      GNSS_MEASUREMENTS_DATA_FULL_ISB_UNCERTAINTY_BIT ↦ PB_GNSS_MEASUREMENTS_DATA_FULL_ISB_UNCERTAINTY_BIT;
      GNSS_MEASUREMENTS_DATA_CYCLE_SLIP_COUNT_BIT ↦ PB_GNSS_MEASUREMENTS_DATA_CYCLE_SLIP_COUNT_BIT ].
Definition getPBMaskForGnssMeasurementsDataFlagsMask (gnssMeasDataFlagsMask : Z) : Z := collect gnssMeasDataFlagsMask getPBMaskForGnssMeasurementsDataFlagsMask_table 0.

Definition getPBMaskForGnssMeasurementsStateMask_table : list (Z * Z) :=
    [ GNSS_MEASUREMENTS_STATE_UNKNOWN_BIT ↦ PB_GNSS_MEASUREMENTS_STATE_UNKNOWN_BIT;
      GNSS_MEASUREMENTS_STATE_CODE_LOCK_BIT ↦ PB_GNSS_MEASUREMENTS_STATE_CODE_LOCK_BIT;
      GNSS_MEASUREMENTS_STATE_BIT_SYNC_BIT ↦ PB_GNSS_MEASUREMENTS_STATE_BIT_SYNC_BIT;
      GNSS_MEASUREMENTS_STATE_SUBFRAME_SYNC_BIT ↦ PB_GNSS_MEASUREMENTS_STATE_SUBFRAME_SYNC_BIT;
      GNSS_MEASUREMENTS_STATE_TOW_DECODED_BIT ↦ PB_GNSS_MEASUREMENTS_STATE_TOW_DECODED_BIT;
      GNSS_MEASUREMENTS_STATE_MSEC_AMBIGUOUS_BIT ↦ PB_GNSS_MEASUREMENTS_STATE_MSEC_AMBIGUOUS_BIT;
      GNSS_MEASUREMENTS_STATE_SYMBOL_SYNC_BIT ↦ PB_GNSS_MEASUREMENTS_STATE_SYMBOL_SYNC_BIT;
      GNSS_MEASUREMENTS_STATE_GLO_STRING_SYNC_BIT ↦ PB_GNSS_MEASUREMENTS_STATE_GLO_STRING_SYNC_BIT;
      GNSS_MEASUREMENTS_STATE_GLO_TOD_DECODED_BIT ↦ PB_GNSS_MEASUREMENTS_STATE_GLO_TOD_DECODED_BIT;
      GNSS_MEASUREMENTS_STATE_BDS_D2_BIT_SYNC_BIT ↦ PB_GNSS_MEASUREMENTS_STATE_BDS_D2_BIT_SYNC_BIT;
      GNSS_MEASUREMENTS_STATE_BDS_D2_SUBFRAME_SYNC_BIT ↦ PB_GNSS_MEASUREMENTS_STATE_BDS_D2_SUBFRAME_SYNC_BIT;
      GNSS_MEASUREMENTS_STATE_GAL_E1BC_CODE_LOCK_BIT ↦ PB_GNSS_MEASUREMENTS_STATE_GAL_E1BC_CODE_LOCK_BIT;
      GNSS_MEASUREMENTS_STATE_GAL_E1C_2ND_CODE_LOCK_BIT ↦ PB_GNSS_MEASUREMENTS_STATE_GAL_E1C_2ND_CODE_LOCK_BIT;
      GNSS_MEASUREMENTS_STATE_GAL_E1B_PAGE_SYNC_BIT ↦ PB_GNSS_MEASUREMENTS_STATE_GAL_E1B_PAGE_SYNC_BIT;
      GNSS_MEASUREMENTS_STATE_SBAS_SYNC_BIT ↦ PB_GNSS_MEASUREMENTS_STATE_SBAS_SYNC_BIT ].
Definition getPBMaskForGnssMeasurementsStateMask (gnssMeasStateMask : Z) : Z := collect gnssMeasStateMask getPBMaskForGnssMeasurementsStateMask_table 0.

Definition getPBMaskForGnssMeasurementsAdrStateMask_table : list (Z * Z) :=
    [ GNSS_MEASUREMENTS_ACCUMULATED_DELTA_RANGE_STATE_UNKNOWN ↦ PB_GNSS_MEASUREMENTS_ACCUMULATED_DELTA_RANGE_STATE_UNKNOWN;
      GNSS_MEASUREMENTS_ACCUMULATED_DELTA_RANGE_STATE_VALID_BIT ↦ PB_GNSS_MEASUREMENTS_ACCUMULATED_DELTA_RANGE_STATE_VALID_BIT;
      GNSS_MEASUREMENTS_ACCUMULATED_DELTA_RANGE_STATE_RESET_BIT ↦ PB_GNSS_MEASUREMENTS_ACCUMULATED_DELTA_RANGE_STATE_RESET_BIT;
      GNSS_MEASUREMENTS_ACCUMULATED_DELTA_RANGE_STATE_CYCLE_SLIP_BIT ↦ PB_GNSS_MEASUREMENTS_ACCUMULATED_DELTA_RANGE_STATE_CYCLE_SLIP_BIT ].
Definition getPBMaskForGnssMeasurementsAdrStateMask (gnssMeasAdrStateMask : Z) : Z := collect gnssMeasAdrStateMask getPBMaskForGnssMeasurementsAdrStateMask_table 0.

Definition getPBMaskForGnssLocationPosDataMask_table : list (Z * Z) :=
    [ LOCATION_NAV_DATA_HAS_LONG_ACCEL_BIT ↦ PB_LOCATION_NAV_DATA_HAS_LONG_ACCEL_BIT;
      LOCATION_NAV_DATA_HAS_LAT_ACCEL_BIT ↦ PB_LOCATION_NAV_DATA_HAS_LAT_ACCEL_BIT;
      LOCATION_NAV_DATA_HAS_VERT_ACCEL_BIT ↦ PB_LOCATION_NAV_DATA_HAS_VERT_ACCEL_BIT;
      LOCATION_NAV_DATA_HAS_YAW_RATE_BIT ↦ PB_LOCATION_NAV_DATA_HAS_YAW_RATE_BIT;
      LOCATION_NAV_DATA_HAS_PITCH_BIT ↦ PB_LOCATION_NAV_DATA_HAS_PITCH_BIT;
      LOCATION_NAV_DATA_HAS_LONG_ACCEL_UNC_BIT ↦ PB_LOCATION_NAV_DATA_HAS_LONG_ACCEL_UNC_BIT;
      LOCATION_NAV_DATA_HAS_LAT_ACCEL_UNC_BIT ↦ PB_LOCATION_NAV_DATA_HAS_LAT_ACCEL_UNC_BIT;
      LOCATION_NAV_DATA_HAS_VERT_ACCEL_UNC_BIT ↦ PB_LOCATION_NAV_DATA_HAS_VERT_ACCEL_UNC_BIT;
      LOCATION_NAV_DATA_HAS_YAW_RATE_UNC_BIT ↦ PB_LOCATION_NAV_DATA_HAS_YAW_RATE_UNC_BIT;
      LOCATION_NAV_DATA_HAS_PITCH_UNC_BIT ↦ PB_LOCATION_NAV_DATA_HAS_PITCH_UNC_BIT ].
Definition getPBMaskForGnssLocationPosDataMask_table2 : list (Z * Z) :=
    [ LOCATION_NAV_DATA_HAS_PITCH_RATE_BIT ↦ PB_LOCATION_NAV_DATA_HAS_PITCH_RATE_BIT;
      LOCATION_NAV_DATA_HAS_PITCH_RATE_UNC_BIT ↦ PB_LOCATION_NAV_DATA_HAS_PITCH_RATE_UNC_BIT;
      LOCATION_NAV_DATA_HAS_ROLL_BIT ↦ PB_LOCATION_NAV_DATA_HAS_ROLL_BIT;
      LOCATION_NAV_DATA_HAS_ROLL_UNC_BIT ↦ PB_LOCATION_NAV_DATA_HAS_ROLL_UNC_BIT;
      LOCATION_NAV_DATA_HAS_ROLL_RATE_BIT ↦ PB_LOCATION_NAV_DATA_HAS_ROLL_RATE_BIT;
      LOCATION_NAV_DATA_HAS_ROLL_RATE_UNC_BIT ↦ PB_LOCATION_NAV_DATA_HAS_ROLL_RATE_UNC_BIT;
      LOCATION_NAV_DATA_HAS_YAW_BIT ↦ PB_LOCATION_NAV_DATA_HAS_YAW_BIT;
      LOCATION_NAV_DATA_HAS_YAW_UNC_BIT ↦ PB_LOCATION_NAV_DATA_HAS_YAW_UNC_BIT ].
Definition getPBMaskForGnssLocationPosDataMask (gnssLocPosDataMask gnssLocPosDataMaskExt : Z) : Z :=
  collect gnssLocPosDataMaskExt getPBMaskForGnssLocationPosDataMask_table2 (collect gnssLocPosDataMask getPBMaskForGnssLocationPosDataMask_table 0).

Definition getPBMaskForGnssMeasurementsClockFlagsMask_table : list (Z * Z) :=
    [ GNSS_MEASUREMENTS_CLOCK_FLAGS_LEAP_SECOND_BIT ↦ PB_GNSS_MEASUREMENTS_CLOCK_FLAGS_LEAP_SECOND_BIT;
      GNSS_MEASUREMENTS_CLOCK_FLAGS_TIME_BIT ↦ PB_GNSS_MEASUREMENTS_CLOCK_FLAGS_TIME_BIT;
      GNSS_MEASUREMENTS_CLOCK_FLAGS_TIME_UNCERTAINTY_BIT ↦ PB_GNSS_MEASUREMENTS_CLOCK_FLAGS_TIME_UNCERTAINTY_BIT;
      GNSS_MEASUREMENTS_CLOCK_FLAGS_FULL_BIAS_BIT ↦ PB_GNSS_MEASUREMENTS_CLOCK_FLAGS_FULL_BIAS_BIT;
      GNSS_MEASUREMENTS_CLOCK_FLAGS_BIAS_BIT ↦ PB_GNSS_MEASUREMENTS_CLOCK_FLAGS_BIAS_BIT;
      GNSS_MEASUREMENTS_CLOCK_FLAGS_BIAS_UNCERTAINTY_BIT ↦ PB_GNSS_MEASUREMENTS_CLOCK_FLAGS_BIAS_UNCERTAINTY_BIT;
      GNSS_MEASUREMENTS_CLOCK_FLAGS_DRIFT_BIT ↦ PB_GNSS_MEASUREMENTS_CLOCK_FLAGS_DRIFT_BIT;
      GNSS_MEASUREMENTS_CLOCK_FLAGS_DRIFT_UNCERTAINTY_BIT ↦ PB_GNSS_MEASUREMENTS_CLOCK_FLAGS_DRIFT_UNCERTAINTY_BIT;
      GNSS_MEASUREMENTS_CLOCK_FLAGS_HW_CLOCK_DISCONTINUITY_COUNT_BIT ↦ PB_GNSS_MEASUREMENTS_CLOCK_FLAGS_HW_CLOCK_DISCONTINUITY_COUNT_BIT ].
Definition getPBMaskForGnssMeasurementsClockFlagsMask (gnssMeasClockFlagsMask : Z) : Z := collect gnssMeasClockFlagsMask getPBMaskForGnssMeasurementsClockFlagsMask_table 0.

Definition getPBMaskForGnssGloTimeStructTypeFlags_table : list (Z * Z) :=
    [ GNSS_CLO_DAYS_VALID ↦ PB_GNSS_CLO_DAYS_VALID;
      GNSS_GLO_MSEC_VALID ↦ PB_GNSS_GLO_MSEC_VALID;
      GNSS_GLO_CLK_TIME_BIAS_VALID ↦ PB_GNSS_GLO_CLK_TIME_BIAS_VALID;
      GNSS_GLO_CLK_TIME_BIAS_UNC_VALID ↦ PB_GNSS_GLO_CLK_TIME_BIAS_UNC_VALID;
      GNSS_GLO_REF_FCOUNT_VALID ↦ PB_GNSS_GLO_REF_FCOUNT_VALID;
      GNSS_GLO_NUM_CLOCK_RESETS_VALID ↦ PB_GNSS_GLO_NUM_CLOCK_RESETS_VALID;
      GNSS_GLO_FOUR_YEAR_VALID ↦ PB_GNSS_GLO_FOUR_YEAR_VALID ].
Definition getPBMaskForGnssGloTimeStructTypeFlags (gnssGloTimeStructTypeFlags : Z) : Z := collect gnssGloTimeStructTypeFlags getPBMaskForGnssGloTimeStructTypeFlags_table 0.

Definition getPBMaskForGnssSvOptionsMask_table : list (Z * Z) :=
    [ GNSS_SV_OPTIONS_HAS_EPHEMER_BIT ↦ PB_GNSS_SV_OPTIONS_HAS_EPHEMER_BIT;
      GNSS_SV_OPTIONS_HAS_ALMANAC_BIT ↦ PB_GNSS_SV_OPTIONS_HAS_ALMANAC_BIT;
      GNSS_SV_OPTIONS_USED_IN_FIX_BIT ↦ PB_GNSS_SV_OPTIONS_USED_IN_FIX_BIT;
      GNSS_SV_OPTIONS_HAS_CARRIER_FREQUENCY_BIT ↦ PB_GNSS_SV_OPTIONS_HAS_CARRIER_FREQUENCY_BIT;
      GNSS_SV_OPTIONS_HAS_GNSS_SIGNAL_TYPE_BIT ↦ PB_GNSS_SV_OPTIONS_HAS_GNSS_SIGNAL_TYPE_BIT ].
Definition getPBMaskForGnssSvOptionsMask (gnssSvOptMask : Z) : Z := collect gnssSvOptMask getPBMaskForGnssSvOptionsMask_table 0.

Definition getPBMaskForGnssSignalTypeMask_table : list (Z * Z) :=
    [ GNSS_SIGNAL_GPS_L1CA ↦ PB_GNSS_SIGNAL_GPS_L1CA_BIT;
      GNSS_SIGNAL_GPS_L1C ↦ PB_GNSS_SIGNAL_GPS_L1C_BIT;
      GNSS_SIGNAL_GPS_L2 ↦ PB_GNSS_SIGNAL_GPS_L2_BIT;
      GNSS_SIGNAL_GPS_L5 ↦ PB_GNSS_SIGNAL_GPS_L5_BIT;
      GNSS_SIGNAL_GLONASS_G1 ↦ PB_GNSS_SIGNAL_GLONASS_G1_BIT;
      GNSS_SIGNAL_GLONASS_G2 ↦ PB_GNSS_SIGNAL_GLONASS_G2_BIT;
      GNSS_SIGNAL_GALILEO_E1 ↦ PB_GNSS_SIGNAL_GALILEO_E1_BIT;
      GNSS_SIGNAL_GALILEO_E5A ↦ PB_GNSS_SIGNAL_GALILEO_E5A_BIT;
      GNSS_SIGNAL_GALILEO_E5B ↦ PB_GNSS_SIGNAL_GALILEO_E5B_BIT;
      GNSS_SIGNAL_BEIDOU_B1 ↦ PB_GNSS_SIGNAL_BEIDOU_B1_BIT;
      GNSS_SIGNAL_BEIDOU_B2 ↦ PB_GNSS_SIGNAL_BEIDOU_B2_BIT;
      GNSS_SIGNAL_QZSS_L1CA ↦ PB_GNSS_SIGNAL_QZSS_L1CA_BIT;
      GNSS_SIGNAL_QZSS_L1S ↦ PB_GNSS_SIGNAL_QZSS_L1S_BIT;
      GNSS_SIGNAL_QZSS_L2 ↦ PB_GNSS_SIGNAL_QZSS_L2_BIT;
      GNSS_SIGNAL_QZSS_L5 ↦ PB_GNSS_SIGNAL_QZSS_L5_BIT;
      GNSS_SIGNAL_SBAS_L1 ↦ PB_GNSS_SIGNAL_SBAS_L1_BIT;
      GNSS_SIGNAL_BEIDOU_B1I ↦ PB_GNSS_SIGNAL_BEIDOU_B1I_BIT;
      GNSS_SIGNAL_BEIDOU_B1C ↦ PB_GNSS_SIGNAL_BEIDOU_B1C_BIT;
      GNSS_SIGNAL_BEIDOU_B2I ↦ PB_GNSS_SIGNAL_BEIDOU_B2I_BIT;
      GNSS_SIGNAL_BEIDOU_B2AI ↦ PB_GNSS_SIGNAL_BEIDOU_B2AI_BIT;
      GNSS_SIGNAL_NAVIC_L5 ↦ PB_GNSS_SIGNAL_NAVIC_L5_BIT;
      GNSS_SIGNAL_BEIDOU_B2AQ ↦ PB_GNSS_SIGNAL_BEIDOU_B2AQ_BIT ].
Definition getPBMaskForGnssSignalTypeMask (gnssSignalTypeMask : Z) : Z := collect gnssSignalTypeMask getPBMaskForGnssSignalTypeMask_table 0.

Definition getPBMaskForGeofenceBreachTypeMask_table : list (Z * Z) :=
    [ GEOFENCE_BREACH_ENTER_BIT ↦ PB_GEOFENCE_BREACH_ENTER_BIT;
      GEOFENCE_BREACH_EXIT_BIT ↦ PB_GEOFENCE_BREACH_EXIT_BIT;
      GEOFENCE_BREACH_DWELL_IN_BIT ↦ PB_GEOFENCE_BREACH_DWELL_IN_BIT;
      GEOFENCE_BREACH_DWELL_OUT_BIT ↦ PB_GEOFENCE_BREACH_DWELL_OUT_BIT ].
Definition getPBMaskForGeofenceBreachTypeMask (gfBreachTypeMask : Z) : Z := collect gfBreachTypeMask getPBMaskForGeofenceBreachTypeMask_table 0.

Definition getPBMaskForDeadReckoningEngineConfigValidMask_table : list (Z * Z) :=
    [ BODY_TO_SENSOR_MOUNT_PARAMS_BIT ↦ PB_BODY_TO_SENSOR_MOUNT_PARAMS_BIT;
      VEHICLE_SPEED_SCALE_FACTOR_BIT ↦ PB_VEHICLE_SPEED_SCALE_FACTOR_BIT;
      VEHICLE_SPEED_SCALE_FACTOR_UNC_BIT ↦ PB_VEHICLE_SPEED_SCALE_FACTOR_UNC_BIT;
      GYRO_SCALE_FACTOR_BIT ↦ PB_GYRO_SCALE_FACTOR_BIT;
      GYRO_SCALE_FACTOR_UNC_BIT ↦ PB_GYRO_SCALE_FACTOR_UNC_BIT ].
Definition getPBMaskForDeadReckoningEngineConfigValidMask (drEngCfgValidMask : Z) : Z := collect drEngCfgValidMask getPBMaskForDeadReckoningEngineConfigValidMask_table 0.

Definition getPBMaskForDrEngineAidingDataMask_table : list (Z * Z) :=
    [ DR_ENGINE_AIDING_DATA_CALIBRATION_BIT ↦ PB_DR_ENGINE_AIDING_DATA_CALIBRATION_BIT ].
Definition getPBMaskForDrEngineAidingDataMask (drEngAidDataMask : Z) : Z := collect drEngAidDataMask getPBMaskForDrEngineAidingDataMask_table 0.

Definition getPBMaskForDrSolutionStatusMask_table : list (Z * Z) :=
    [ (VEHICLE_SENSOR_SPEED_INPUT_DETECTED, value PB_VEHICLE_SENSOR_SPEED_INPUT_DETECTED);
      (VEHICLE_SENSOR_SPEED_INPUT_USED, value PB_VEHICLE_SENSOR_SPEED_INPUT_USED) ].
Definition getPBMaskForDrSolutionStatusMask (drSolnStatusMask : Z) : Z := collect drSolnStatusMask getPBMaskForDrSolutionStatusMask_table 0.

Definition getLocationCapabilitiesMaskFromPB_table : list (Z * Z) :=
    [ PB_LOCATION_CAPS_TIME_BASED_TRACKING_BIT ↦ LOCATION_CAPABILITIES_TIME_BASED_TRACKING_BIT;
      PB_LOCATION_CAPS_TIME_BASED_BATCHING_BIT ↦ LOCATION_CAPABILITIES_TIME_BASED_BATCHING_BIT;
      PB_LOCATION_CAPS_DISTANCE_BASED_TRACKING_BIT ↦ LOCATION_CAPABILITIES_DISTANCE_BASED_TRACKING_BIT;
      PB_LOCATION_CAPS_DISTANCE_BASED_BATCHING_BIT ↦ LOCATION_CAPABILITIES_DISTANCE_BASED_BATCHING_BIT;
      PB_LOCATION_CAPS_GEOFENCE_BIT ↦ LOCATION_CAPABILITIES_GEOFENCE_BIT;
      PB_LOCATION_CAPS_OUTDOOR_TRIP_BATCHING_BIT ↦ LOCATION_CAPABILITIES_OUTDOOR_TRIP_BATCHING_BIT;
      PB_LOCATION_CAPS_GNSS_MEASUREMENTS_BIT ↦ LOCATION_CAPABILITIES_GNSS_MEASUREMENTS_BIT;
      PB_LOCATION_CAPS_CONSTELLATION_ENABLEMENT_BIT ↦ LOCATION_CAPABILITIES_CONSTELLATION_ENABLEMENT_BIT;
      PB_LOCATION_CAPS_QWES_CARRIER_PHASE_BIT ↦ LOCATION_CAPABILITIES_QWES_CARRIER_PHASE_BIT;
      PB_LOCATION_CAPS_QWES_SV_POLYNOMIAL_BIT ↦ LOCATION_CAPABILITIES_QWES_SV_POLYNOMIAL_BIT;
      PB_LOCATION_CAPS_QWES_GNSS_SINGLE_FREQUENCY ↦ LOCATION_CAPABILITIES_QWES_GNSS_SINGLE_FREQUENCY;
      PB_LOCATION_CAPS_QWES_GNSS_MULTI_FREQUENCY ↦ LOCATION_CAPABILITIES_QWES_GNSS_MULTI_FREQUENCY;
      PB_LOCATION_CAPS_QWES_VPE ↦ LOCATION_CAPABILITIES_QWES_VPE;
      PB_LOCATION_CAPS_QWES_CV2X_LOCATION_BASIC ↦ LOCATION_CAPABILITIES_QWES_CV2X_LOCATION_BASIC;
      PB_LOCATION_CAPS_QWES_CV2X_LOCATION_PREMIUM ↦ LOCATION_CAPABILITIES_QWES_CV2X_LOCATION_PREMIUM;
      PB_LOCATION_CAPS_QWES_PPE ↦ LOCATION_CAPABILITIES_QWES_PPE;
      PB_LOCATION_CAPS_QWES_QDR2 ↦ LOCATION_CAPABILITIES_QWES_QDR2;
      PB_LOCATION_CAPS_QWES_QDR3 ↦ LOCATION_CAPABILITIES_QWES_QDR3 ].
Definition getLocationCapabilitiesMaskFromPB (pbLocCapabMask : Z) : Z := collect pbLocCapabMask getLocationCapabilitiesMaskFromPB_table 0.

Definition getLocationCallbacksMaskFromPB_table : list (Z * Z) :=
    [ PB_E_LOC_CB_DISTANCE_BASED_TRACKING_BIT ↦ E_LOC_CB_DISTANCE_BASED_TRACKING_BIT;
      PB_E_LOC_CB_GNSS_LOCATION_INFO_BIT ↦ E_LOC_CB_GNSS_LOCATION_INFO_BIT;
      PB_E_LOC_CB_GNSS_SV_BIT ↦ E_LOC_CB_GNSS_SV_BIT;
      PB_E_LOC_CB_GNSS_NMEA_BIT ↦ E_LOC_CB_GNSS_NMEA_BIT;
      PB_E_LOC_CB_GNSS_DATA_BIT ↦ E_LOC_CB_GNSS_DATA_BIT;
      PB_E_LOC_CB_SYSTEM_INFO_BIT ↦ E_LOC_CB_SYSTEM_INFO_BIT;
      PB_E_LOC_CB_BATCHING_BIT ↦ E_LOC_CB_BATCHING_BIT;
      PB_E_LOC_CB_BATCHING_STATUS_BIT ↦ E_LOC_CB_BATCHING_STATUS_BIT;
      PB_E_LOC_CB_GEOFENCE_BREACH_BIT ↦ E_LOC_CB_GEOFENCE_BREACH_BIT;
      PB_E_LOC_CB_ENGINE_LOCATIONS_INFO_BIT ↦ E_LOC_CB_ENGINE_LOCATIONS_INFO_BIT;
      PB_E_LOC_CB_SIMPLE_LOCATION_INFO_BIT ↦ E_LOC_CB_SIMPLE_LOCATION_INFO_BIT;
      PB_E_LOC_CB_GNSS_MEAS_BIT ↦ E_LOC_CB_GNSS_MEAS_BIT ].
Definition getLocationCallbacksMaskFromPB (pbLocCbMask : Z) : Z := collect pbLocCbMask getLocationCallbacksMaskFromPB_table 0.

Definition getLeverArmTypeMaskFromPB_table : list (Z * Z) :=
    [ PB_LEVER_ARM_TYPE_GNSS_TO_VRP_BIT ↦ LEVER_ARM_TYPE_GNSS_TO_VRP_BIT;
      PB_LEVER_ARM_TYPE_DR_IMU_TO_GNSS_BIT ↦ LEVER_ARM_TYPE_DR_IMU_TO_GNSS_BIT;
      PB_LEVER_ARM_TYPE_VEPP_IMU_TO_GNSS_BIT ↦ LEVER_ARM_TYPE_VEPP_IMU_TO_GNSS_BIT ].
Definition getLeverArmTypeMaskFromPB (pbLeverTypeMask : Z) : Z := collect pbLeverTypeMask getLeverArmTypeMaskFromPB_table 0.

Definition getEnumForPBPositioningEngineMask_table : list (Z * Z) :=
    [ PB_STANDARD_POSITIONING_ENGINE ↦ STANDARD_POSITIONING_ENGINE;
      PB_PRECISE_POSITIONING_ENGINE ↦ PRECISE_POSITIONING_ENGINE;
      PB_DEAD_RECKONING_ENGINE ↦ DEAD_RECKONING_ENGINE ].
Definition getEnumForPBPositioningEngineMask (pbPosEngMask : Z) : Z := collect pbPosEngMask getEnumForPBPositioningEngineMask_table 0.

Definition getGnssSvTypesMaskFromPB_table : list (Z * Z) :=
    [ PB_GNSS_SV_TYPES_MASK_GLO_BIT ↦ GNSS_SV_TYPES_MASK_GLO_BIT;
      PB_GNSS_SV_TYPES_MASK_BDS_BIT ↦ GNSS_SV_TYPES_MASK_BDS_BIT;
      PB_GNSS_SV_TYPES_MASK_QZSS_BIT ↦ GNSS_SV_TYPES_MASK_QZSS_BIT;
      PB_GNSS_SV_TYPES_MASK_GAL_BIT ↦ GNSS_SV_TYPES_MASK_GAL_BIT;
      PB_GNSS_SV_TYPES_MASK_NAVIC_BIT ↦ GNSS_SV_TYPES_MASK_NAVIC_BIT;
      PB_GNSS_SV_TYPES_MASK_GPS_BIT ↦ GNSS_SV_TYPES_MASK_GPS_BIT ].
Definition getGnssSvTypesMaskFromPB (pbGnssSvTypesMask : Z) : Z := collect pbGnssSvTypesMask getGnssSvTypesMaskFromPB_table 0.

Definition getGnssAidingDataSvMaskFromPB_table : list (Z * Z) :=
    [ PB_AIDING_DATA_SV_EPHEMERIS_BIT ↦ GNSS_AIDING_DATA_SV_EPHEMERIS_BIT ].
Definition getGnssAidingDataSvMaskFromPB (pbGnssAidDataSvMask : Z) : Z := collect pbGnssAidDataSvMask getGnssAidingDataSvMaskFromPB_table 0.

Definition getLocReqEngineTypeMaskFromPB_table : list (Z * Z) :=
    [ PB_LOC_REQ_ENGINE_FUSED_BIT ↦ LOC_REQ_ENGINE_FUSED_BIT;
      PB_LOC_REQ_ENGINE_SPE_BIT ↦ LOC_REQ_ENGINE_SPE_BIT;
      PB_LOC_REQ_ENGINE_PPE_BIT ↦ LOC_REQ_ENGINE_PPE_BIT ].
Definition getLocReqEngineTypeMaskFromPB (pbLocReqEngTypeMask : Z) : Z := collect pbLocReqEngTypeMask getLocReqEngineTypeMaskFromPB_table 0.

Definition getLocationSystemInfoMaskFromPB_table : list (Z * Z) :=
    [ PB_LOCATION_SYS_INFO_LEAP_SECOND ↦ LOCATION_SYS_INFO_LEAP_SECOND ].
Definition getLocationSystemInfoMaskFromPB (pbLocSysInfoMask : Z) : Z := collect pbLocSysInfoMask getLocationSystemInfoMaskFromPB_table (value PB_LOCATION_SYS_INFO_INVALID).

Definition getGnssDataMaskFromPB_table : list (Z * Z) :=
    [ PB_GNSS_LOC_DATA_JAMMER_IND_BIT ↦ GNSS_LOC_DATA_JAMMER_IND_BIT;
      PB_GNSS_LOC_DATA_AGC_BIT ↦ GNSS_LOC_DATA_AGC_BIT ].
Definition getGnssDataMaskFromPB (pbGnssDataMask : Z) : Z := collect pbGnssDataMask getGnssDataMaskFromPB_table 0.

Definition getLeapSecSysInfoMaskFromPB_table : list (Z * Z) :=
    [ PB_LEAP_SECOND_SYS_INFO_CURRENT_LEAP_SECONDS_BIT ↦ LEAP_SECOND_SYS_INFO_CURRENT_LEAP_SECONDS_BIT;
      PB_LEAP_SECOND_SYS_INFO_LEAP_SECOND_CHANGE_BIT ↦ LEAP_SECOND_SYS_INFO_LEAP_SECOND_CHANGE_BIT ].
Definition getLeapSecSysInfoMaskFromPB (pbLeapSecSysInfoMask : Z) : Z := collect pbLeapSecSysInfoMask getLeapSecSysInfoMaskFromPB_table 0.

Definition getGnssSystemTimeStructTypeFlagsFromPB_table : list (Z * Z) :=
    [ PB_GNSS_SYSTEM_TIME_WEEK_VALID ↦ GNSS_SYSTEM_TIME_WEEK_VALID;
      PB_GNSS_SYSTEM_TIME_WEEK_MS_VALID ↦ GNSS_SYSTEM_TIME_WEEK_MS_VALID;
      PB_GNSS_SYSTEM_CLK_TIME_BIAS_VALID ↦ GNSS_SYSTEM_CLK_TIME_BIAS_VALID;
      PB_GNSS_SYSTEM_CLK_TIME_BIAS_UNC_VALID ↦ GNSS_SYSTEM_CLK_TIME_BIAS_UNC_VALID;
      PB_GNSS_SYSTEM_REF_FCOUNT_VALID ↦ GNSS_SYSTEM_REF_FCOUNT_VALID;
      PB_GNSS_SYSTEM_NUM_CLOCK_RESETS_VALID ↦ GNSS_SYSTEM_NUM_CLOCK_RESETS_VALID ].
Definition getGnssSystemTimeStructTypeFlagsFromPB (pbGnssSysTimeStrctType : Z) : Z := collect pbGnssSysTimeStrctType getGnssSystemTimeStructTypeFlagsFromPB_table 0.

Definition getGnssSignalTypeMaskFromPB_table : list (Z * Z) :=
    [ PB_GNSS_SIGNAL_GPS_L1CA_BIT ↦ GNSS_SIGNAL_GPS_L1CA;
      PB_GNSS_SIGNAL_GPS_L1C_BIT ↦ GNSS_SIGNAL_GPS_L1C;
      PB_GNSS_SIGNAL_GPS_L2_BIT ↦ GNSS_SIGNAL_GPS_L2;
      PB_GNSS_SIGNAL_GPS_L5_BIT ↦ GNSS_SIGNAL_GPS_L5;
      PB_GNSS_SIGNAL_GLONASS_G1_BIT ↦ GNSS_SIGNAL_GLONASS_G1;
      PB_GNSS_SIGNAL_GLONASS_G2_BIT ↦ GNSS_SIGNAL_GLONASS_G2;
      PB_GNSS_SIGNAL_GALILEO_E1_BIT ↦ GNSS_SIGNAL_GALILEO_E1;
      PB_GNSS_SIGNAL_GALILEO_E5A_BIT ↦ GNSS_SIGNAL_GALILEO_E5A;
      PB_GNSS_SIGNAL_GALILEO_E5B_BIT ↦ GNSS_SIGNAL_GALILEO_E5B;
      PB_GNSS_SIGNAL_BEIDOU_B1_BIT ↦ GNSS_SIGNAL_BEIDOU_B1;
      PB_GNSS_SIGNAL_BEIDOU_B2_BIT ↦ GNSS_SIGNAL_BEIDOU_B2;
      PB_GNSS_SIGNAL_QZSS_L1CA_BIT ↦ GNSS_SIGNAL_QZSS_L1CA;
      PB_GNSS_SIGNAL_QZSS_L1S_BIT ↦ GNSS_SIGNAL_QZSS_L1S;
      PB_GNSS_SIGNAL_QZSS_L2_BIT ↦ GNSS_SIGNAL_QZSS_L2;
      PB_GNSS_SIGNAL_QZSS_L5_BIT ↦ GNSS_SIGNAL_QZSS_L5;
      PB_GNSS_SIGNAL_SBAS_L1_BIT ↦ GNSS_SIGNAL_SBAS_L1;
      PB_GNSS_SIGNAL_BEIDOU_B1I_BIT ↦ GNSS_SIGNAL_BEIDOU_B1I;
      PB_GNSS_SIGNAL_BEIDOU_B1C_BIT ↦ GNSS_SIGNAL_BEIDOU_B1C;
      PB_GNSS_SIGNAL_BEIDOU_B2I_BIT ↦ GNSS_SIGNAL_BEIDOU_B2I;
      PB_GNSS_SIGNAL_BEIDOU_B2AI_BIT ↦ GNSS_SIGNAL_BEIDOU_B2AI;
      PB_GNSS_SIGNAL_NAVIC_L5_BIT ↦ GNSS_SIGNAL_NAVIC_L5;
      PB_GNSS_SIGNAL_BEIDOU_B2AQ_BIT ↦ GNSS_SIGNAL_BEIDOU_B2AQ ].
Definition getGnssSignalTypeMaskFromPB (pbGnssSignalTypeMask : Z) : Z := collect pbGnssSignalTypeMask getGnssSignalTypeMaskFromPB_table 0.

Definition getGnssSvOptionsMaskFromPB_table : list (Z * Z) :=
    [ PB_GNSS_SV_OPTIONS_HAS_EPHEMER_BIT ↦ GNSS_SV_OPTIONS_HAS_EPHEMER_BIT;
      PB_GNSS_SV_OPTIONS_HAS_ALMANAC_BIT ↦ GNSS_SV_OPTIONS_HAS_ALMANAC_BIT;
      PB_GNSS_SV_OPTIONS_USED_IN_FIX_BIT ↦ GNSS_SV_OPTIONS_USED_IN_FIX_BIT;
      PB_GNSS_SV_OPTIONS_HAS_CARRIER_FREQUENCY_BIT ↦ GNSS_SV_OPTIONS_HAS_CARRIER_FREQUENCY_BIT;
      PB_GNSS_SV_OPTIONS_HAS_GNSS_SIGNAL_TYPE_BIT ↦ GNSS_SV_OPTIONS_HAS_GNSS_SIGNAL_TYPE_BIT ].
Definition getGnssSvOptionsMaskFromPB (pbGnssSvOptMask : Z) : Z := collect pbGnssSvOptMask getGnssSvOptionsMaskFromPB_table 0.

Definition getGfBreachTypeMaskFromPB_table : list (Z * Z) :=
    [ PB_GEOFENCE_BREACH_ENTER_BIT ↦ GEOFENCE_BREACH_ENTER_BIT;
      PB_GEOFENCE_BREACH_EXIT_BIT ↦ GEOFENCE_BREACH_EXIT_BIT;
      PB_GEOFENCE_BREACH_DWELL_IN_BIT ↦ GEOFENCE_BREACH_DWELL_IN_BIT;
      PB_GEOFENCE_BREACH_DWELL_OUT_BIT ↦ GEOFENCE_BREACH_DWELL_OUT_BIT ].
Definition getGfBreachTypeMaskFromPB (pbGfBreackTypMask : Z) : Z := collect pbGfBreackTypMask getGfBreachTypeMaskFromPB_table 0.

Definition getLocationFlagsMaskFromPB_table : list (Z * Z) :=
    [ PB_LOCATION_HAS_LAT_LONG_BIT ↦ LOCATION_HAS_LAT_LONG_BIT;
      PB_LOCATION_HAS_ALTITUDE_BIT ↦ LOCATION_HAS_ALTITUDE_BIT;
      PB_LOCATION_HAS_SPEED_BIT ↦ LOCATION_HAS_SPEED_BIT;
      PB_LOCATION_HAS_BEARING_BIT ↦ LOCATION_HAS_BEARING_BIT;
      PB_LOCATION_HAS_ACCURACY_BIT ↦ LOCATION_HAS_ACCURACY_BIT;
      PB_LOCATION_HAS_VERTICAL_ACCURACY_BIT ↦ LOCATION_HAS_VERTICAL_ACCURACY_BIT;
      PB_LOCATION_HAS_SPEED_ACCURACY_BIT ↦ LOCATION_HAS_SPEED_ACCURACY_BIT;
      PB_LOCATION_HAS_BEARING_ACCURACY_BIT ↦ LOCATION_HAS_BEARING_ACCURACY_BIT ].
Definition getLocationFlagsMaskFromPB (pbLocFlagsMask : Z) : Z := collect pbLocFlagsMask getLocationFlagsMaskFromPB_table 0.

Definition getLocationTechnologyMaskFromPB_table : list (Z * Z) :=
    [ PB_LOCATION_TECHNOLOGY_GNSS_BIT ↦ LOCATION_TECHNOLOGY_GNSS_BIT;
      PB_LOCATION_TECHNOLOGY_CELL_BIT ↦ LOCATION_TECHNOLOGY_CELL_BIT;
      PB_LOCATION_TECHNOLOGY_WIFI_BIT ↦ LOCATION_TECHNOLOGY_WIFI_BIT;
      PB_LOCATION_TECHNOLOGY_SENSORS_BIT ↦ LOCATION_TECHNOLOGY_SENSORS_BIT;
      PB_LOCATION_TECHNOLOGY_REFERENCE_LOCATION_BIT ↦ LOCATION_TECHNOLOGY_REFERENCE_LOCATION_BIT;
      PB_LOCATION_TECHNOLOGY_INJECTED_COARSE_POSITION_BIT ↦ LOCATION_TECHNOLOGY_INJECTED_COARSE_POSITION_BIT;
      PB_LOCATION_TECHNOLOGY_AFLT_BIT ↦ LOCATION_TECHNOLOGY_AFLT_BIT;
      PB_LOCATION_TECHNOLOGY_HYBRID_BIT ↦ LOCATION_TECHNOLOGY_HYBRID_BIT;
      PB_LOCATION_TECHNOLOGY_PPE_BIT ↦ LOCATION_TECHNOLOGY_PPE_BIT;
      PB_LOCATION_TECHNOLOGY_VEH_BIT ↦ LOCATION_TECHNOLOGY_VEH_BIT;
      PB_LOCATION_TECHNOLOGY_VIS_BIT ↦ LOCATION_TECHNOLOGY_VIS_BIT ].
Definition getLocationTechnologyMaskFromPB (pbLocTechMask : Z) : Z := collect pbLocTechMask getLocationTechnologyMaskFromPB_table 0.

Definition getGnssMeasurementsClockFlagsMaskFromPB_table : list (Z * Z) :=
    [ PB_GNSS_MEASUREMENTS_CLOCK_FLAGS_LEAP_SECOND_BIT ↦ GNSS_MEASUREMENTS_CLOCK_FLAGS_LEAP_SECOND_BIT;
      PB_GNSS_MEASUREMENTS_CLOCK_FLAGS_TIME_BIT ↦ GNSS_MEASUREMENTS_CLOCK_FLAGS_TIME_BIT;
      PB_GNSS_MEASUREMENTS_CLOCK_FLAGS_TIME_UNCERTAINTY_BIT ↦ GNSS_MEASUREMENTS_CLOCK_FLAGS_TIME_UNCERTAINTY_BIT;
      PB_GNSS_MEASUREMENTS_CLOCK_FLAGS_FULL_BIAS_BIT ↦ GNSS_MEASUREMENTS_CLOCK_FLAGS_FULL_BIAS_BIT;
      PB_GNSS_MEASUREMENTS_CLOCK_FLAGS_BIAS_BIT ↦ GNSS_MEASUREMENTS_CLOCK_FLAGS_BIAS_BIT;
      PB_GNSS_MEASUREMENTS_CLOCK_FLAGS_BIAS_UNCERTAINTY_BIT ↦ GNSS_MEASUREMENTS_CLOCK_FLAGS_BIAS_UNCERTAINTY_BIT;
      PB_GNSS_MEASUREMENTS_CLOCK_FLAGS_DRIFT_BIT ↦ GNSS_MEASUREMENTS_CLOCK_FLAGS_DRIFT_BIT;
      PB_GNSS_MEASUREMENTS_CLOCK_FLAGS_DRIFT_UNCERTAINTY_BIT ↦ GNSS_MEASUREMENTS_CLOCK_FLAGS_DRIFT_UNCERTAINTY_BIT;
      PB_GNSS_MEASUREMENTS_CLOCK_FLAGS_HW_CLOCK_DISCONTINUITY_COUNT_BIT ↦ GNSS_MEASUREMENTS_CLOCK_FLAGS_HW_CLOCK_DISCONTINUITY_COUNT_BIT ].
Definition getGnssMeasurementsClockFlagsMaskFromPB (pbGnssMeasClockFlgMask : Z) : Z := collect pbGnssMeasClockFlgMask getGnssMeasurementsClockFlagsMaskFromPB_table 0.

Definition getGnssMeasurementsDataFlagsMaskFromPB_table : list (Z * Z) :=
    [ PB_GNSS_MEASUREMENTS_DATA_SV_ID_BIT ↦ GNSS_MEASUREMENTS_DATA_SV_ID_BIT;
      PB_GNSS_MEASUREMENTS_DATA_SV_TYPE_BIT ↦ GNSS_MEASUREMENTS_DATA_SV_TYPE_BIT;
      PB_GNSS_MEASUREMENTS_DATA_STATE_BIT ↦ GNSS_MEASUREMENTS_DATA_STATE_BIT;
      PB_GNSS_MEASUREMENTS_DATA_RECEIVED_SV_TIME_BIT ↦ GNSS_MEASUREMENTS_DATA_RECEIVED_SV_TIME_BIT;
      PB_GNSS_MEASUREMENTS_DATA_RECEIVED_SV_TIME_UNCERTAINTY_BIT ↦ GNSS_MEASUREMENTS_DATA_RECEIVED_SV_TIME_UNCERTAINTY_BIT;
      PB_GNSS_MEASUREMENTS_DATA_CARRIER_TO_NOISE_BIT ↦ GNSS_MEASUREMENTS_DATA_CARRIER_TO_NOISE_BIT;
      PB_GNSS_MEASUREMENTS_DATA_PSEUDORANGE_RATE_BIT ↦ GNSS_MEASUREMENTS_DATA_PSEUDORANGE_RATE_BIT;
      PB_GNSS_MEASUREMENTS_DATA_PSEUDORANGE_RATE_UNCERTAINTY_BIT ↦ GNSS_MEASUREMENTS_DATA_PSEUDORANGE_RATE_UNCERTAINTY_BIT;
      PB_GNSS_MEASUREMENTS_DATA_ADR_STATE_BIT ↦ GNSS_MEASUREMENTS_DATA_ADR_STATE_BIT;
      PB_GNSS_MEASUREMENTS_DATA_ADR_BIT ↦ GNSS_MEASUREMENTS_DATA_ADR_BIT;
      PB_GNSS_MEASUREMENTS_DATA_ADR_UNCERTAINTY_BIT ↦ GNSS_MEASUREMENTS_DATA_ADR_UNCERTAINTY_BIT;
      PB_GNSS_MEASUREMENTS_DATA_CARRIER_FREQUENCY_BIT ↦ GNSS_MEASUREMENTS_DATA_CARRIER_FREQUENCY_BIT;
      PB_GNSS_MEASUREMENTS_DATA_CARRIER_CYCLES_BIT ↦ GNSS_MEASUREMENTS_DATA_CARRIER_CYCLES_BIT;
      PB_GNSS_MEASUREMENTS_DATA_CARRIER_PHASE_BIT ↦ GNSS_MEASUREMENTS_DATA_CARRIER_PHASE_BIT;
      PB_GNSS_MEASUREMENTS_DATA_CARRIER_PHASE_UNCERTAINTY_BIT ↦ GNSS_MEASUREMENTS_DATA_CARRIER_PHASE_UNCERTAINTY_BIT;
      PB_GNSS_MEASUREMENTS_DATA_MULTIPATH_INDICATOR_BIT ↦ GNSS_MEASUREMENTS_DATA_MULTIPATH_INDICATOR_BIT;
      PB_GNSS_MEASUREMENTS_DATA_SIGNAL_TO_NOISE_RATIO_BIT ↦ GNSS_MEASUREMENTS_DATA_SIGNAL_TO_NOISE_RATIO_BIT;
      PB_GNSS_MEASUREMENTS_DATA_AUTOMATIC_GAIN_CONTROL_BIT ↦ GNSS_MEASUREMENTS_DATA_AUTOMATIC_GAIN_CONTROL_BIT;
      PB_GNSS_MEASUREMENTS_DATA_FULL_ISB_BIT ↦ GNSS_MEASUREMENTS_DATA_FULL_ISB_BIT;
      PB_GNSS_MEASUREMENTS_DATA_FULL_ISB_UNCERTAINTY_BIT ↦ GNSS_MEASUREMENTS_DATA_FULL_ISB_UNCERTAINTY_BIT;
      PB_GNSS_MEASUREMENTS_DATA_CYCLE_SLIP_COUNT_BIT ↦ GNSS_MEASUREMENTS_DATA_CYCLE_SLIP_COUNT_BIT ].
Definition getGnssMeasurementsDataFlagsMaskFromPB (pbGnssMeasDataFlgMask : Z) : Z := collect pbGnssMeasDataFlgMask getGnssMeasurementsDataFlagsMaskFromPB_table 0.

Definition getGnssMeasurementsAdrStateMaskFromPB_table : list (Z * Z) :=
    [ PB_GNSS_MEASUREMENTS_ACCUMULATED_DELTA_RANGE_STATE_VALID_BIT ↦ GNSS_MEASUREMENTS_ACCUMULATED_DELTA_RANGE_STATE_VALID_BIT;
      PB_GNSS_MEASUREMENTS_ACCUMULATED_DELTA_RANGE_STATE_RESET_BIT ↦ GNSS_MEASUREMENTS_ACCUMULATED_DELTA_RANGE_STATE_RESET_BIT;
      PB_GNSS_MEASUREMENTS_ACCUMULATED_DELTA_RANGE_STATE_CYCLE_SLIP_BIT ↦ GNSS_MEASUREMENTS_ACCUMULATED_DELTA_RANGE_STATE_CYCLE_SLIP_BIT ].
Definition getGnssMeasurementsAdrStateMaskFromPB (pbGnssMeasAdrStateMask : Z) : Z := collect pbGnssMeasAdrStateMask getGnssMeasurementsAdrStateMaskFromPB_table 0.

Definition getGnssLocationInfoFlagMaskFromPB_table : list (Z * Z) :=
    [ PB_GNSS_LOCATION_INFO_ALTITUDE_MEAN_SEA_LEVEL_BIT ↦ GNSS_LOCATION_INFO_ALTITUDE_MEAN_SEA_LEVEL_BIT;
      PB_GNSS_LOCATION_INFO_DOP_BIT ↦ PB_GNSS_LOCATION_INFO_DOP_BIT;
      PB_GNSS_LOCATION_INFO_MAGNETIC_DEVIATION_BIT ↦ GNSS_LOCATION_INFO_MAGNETIC_DEVIATION_BIT;
      PB_GNSS_LOCATION_INFO_HOR_RELIABILITY_BIT ↦ GNSS_LOCATION_INFO_HOR_RELIABILITY_BIT;
      PB_GNSS_LOCATION_INFO_VER_RELIABILITY_BIT ↦ GNSS_LOCATION_INFO_VER_RELIABILITY_BIT;
      PB_GNSS_LOCATION_INFO_HOR_ACCURACY_ELIP_SEMI_MAJOR_BIT ↦ GNSS_LOCATION_INFO_HOR_ACCURACY_ELIP_SEMI_MAJOR_BIT;
      PB_GNSS_LOCATION_INFO_HOR_ACCURACY_ELIP_SEMI_MINOR_BIT ↦ GNSS_LOCATION_INFO_HOR_ACCURACY_ELIP_SEMI_MINOR_BIT;
      PB_GNSS_LOCATION_INFO_HOR_ACCURACY_ELIP_AZIMUTH_BIT ↦ GNSS_LOCATION_INFO_HOR_ACCURACY_ELIP_AZIMUTH_BIT;
      PB_GNSS_LOCATION_INFO_GNSS_SV_USED_DATA_BIT ↦ GNSS_LOCATION_INFO_GNSS_SV_USED_DATA_BIT;
      PB_GNSS_LOCATION_INFO_NAV_SOLUTION_MASK_BIT ↦ GNSS_LOCATION_INFO_NAV_SOLUTION_MASK_BIT;
      PB_GNSS_LOCATION_INFO_POS_DYNAMICS_DATA_BIT ↦ GNSS_LOCATION_INFO_POS_DYNAMICS_DATA_BIT;
      PB_GNSS_LOCATION_INFO_EXT_DOP_BIT ↦ GNSS_LOCATION_INFO_EXT_DOP_BIT;
      PB_GNSS_LOCATION_INFO_NORTH_STD_DEV_BIT ↦ GNSS_LOCATION_INFO_NORTH_STD_DEV_BIT;
      PB_GNSS_LOCATION_INFO_EAST_STD_DEV_BIT ↦ GNSS_LOCATION_INFO_EAST_STD_DEV_BIT;
      PB_GNSS_LOCATION_INFO_NORTH_VEL_BIT ↦ GNSS_LOCATION_INFO_NORTH_VEL_BIT;
      PB_GNSS_LOCATION_INFO_EAST_VEL_BIT ↦ GNSS_LOCATION_INFO_EAST_VEL_BIT;
      PB_GNSS_LOCATION_INFO_UP_VEL_BIT ↦ GNSS_LOCATION_INFO_UP_VEL_BIT;
      PB_GNSS_LOCATION_INFO_NORTH_VEL_UNC_BIT ↦ GNSS_LOCATION_INFO_NORTH_VEL_UNC_BIT;
      PB_GNSS_LOCATION_INFO_EAST_VEL_UNC_BIT ↦ GNSS_LOCATION_INFO_EAST_VEL_UNC_BIT;
      PB_GNSS_LOCATION_INFO_UP_VEL_UNC_BIT ↦ GNSS_LOCATION_INFO_UP_VEL_UNC_BIT;
      PB_GNSS_LOCATION_INFO_LEAP_SECONDS_BIT ↦ GNSS_LOCATION_INFO_LEAP_SECONDS_BIT;
      PB_GNSS_LOCATION_INFO_TIME_UNC_BIT ↦ GNSS_LOCATION_INFO_TIME_UNC_BIT;
      PB_GNSS_LOCATION_INFO_NUM_SV_USED_IN_POSITION_BIT ↦ GNSS_LOCATION_INFO_NUM_SV_USED_IN_POSITION_BIT;
      PB_GNSS_LOCATION_INFO_CALIBRATION_CONFIDENCE_PERCENT_BIT ↦ GNSS_LOCATION_INFO_CALIBRATION_CONFIDENCE_BIT;
      PB_GNSS_LOCATION_INFO_CALIBRATION_STATUS_BIT ↦ GNSS_LOCATION_INFO_CALIBRATION_STATUS_BIT;
      PB_GNSS_LOCATION_INFO_OUTPUT_ENG_TYPE_BIT ↦ GNSS_LOCATION_INFO_OUTPUT_ENG_TYPE_BIT;
      PB_GNSS_LOCATION_INFO_OUTPUT_ENG_MASK_BIT ↦ GNSS_LOCATION_INFO_OUTPUT_ENG_MASK_BIT;
      PB_GNSS_LOCATION_INFO_CONFORMITY_INDEX_BIT ↦ GNSS_LOCATION_INFO_CONFORMITY_INDEX_BIT;
      PB_GNSS_LOCATION_INFO_LLA_VRP_BASED_BIT ↦ GNSS_LOCATION_INFO_LLA_VRP_BASED_BIT;
      PB_GNSS_LOCATION_INFO_ENU_VELOCITY_VRP_BASED_BIT ↦ GNSS_LOCATION_INFO_ENU_VELOCITY_VRP_BASED_BIT;
      PB_GNSS_LOCATION_INFO_DR_SOLUTION_STATUS_MASK_BIT ↦ GNSS_LOCATION_INFO_DR_SOLUTION_STATUS_MASK_BIT ].
Definition getGnssLocationInfoFlagMaskFromPB_table2 : list (Z * Z) :=
    [ PB_GNSS_LOCATION_INFO_ALTITUDE_ASSUMED_BIT ↦ GNSS_LOCATION_INFO_ALTITUDE_ASSUMED_BIT;
      PB_GNSS_LOCATION_INFO_SESSION_STATUS_BIT ↦ GNSS_LOCATION_INFO_SESSION_STATUS_BIT ].
Definition getGnssLocationInfoFlagMaskFromPB (pbGnssLocInfoFlagMask pbGnssLocInfoExtFlagMask : Z) : Z :=
  collect pbGnssLocInfoExtFlagMask getGnssLocationInfoFlagMaskFromPB_table2 (collect pbGnssLocInfoFlagMask getGnssLocationInfoFlagMaskFromPB_table 0).

Definition getGnssLocationNavSolutionMaskFromPB_table : list (Z * Z) :=
    [ PB_LOCATION_SBAS_CORRECTION_IONO_BIT ↦ LOCATION_SBAS_CORRECTION_IONO_BIT;
      PB_LOCATION_SBAS_CORRECTION_FAST_BIT ↦ LOCATION_SBAS_CORRECTION_FAST_BIT;
      PB_LOCATION_SBAS_CORRECTION_LONG_BIT ↦ LOCATION_SBAS_CORRECTION_LONG_BIT;
      PB_LOCATION_SBAS_INTEGRITY_BIT ↦ LOCATION_SBAS_INTEGRITY_BIT;
      PB_LOCATION_NAV_CORRECTION_DGNSS_BIT ↦ LOCATION_NAV_CORRECTION_DGNSS_BIT;
      PB_LOCATION_NAV_CORRECTION_RTK_BIT ↦ LOCATION_NAV_CORRECTION_RTK_BIT;
      PB_LOCATION_NAV_CORRECTION_PPP_BIT ↦ LOCATION_NAV_CORRECTION_PPP_BIT;
      PB_LOCATION_NAV_CORRECTION_RTK_FIXED_BIT ↦ LOCATION_NAV_CORRECTION_RTK_FIXED_BIT;
      PB_LOCATION_NAV_CORRECTION_ONLY_SBAS_CORRECTED_SV_USED_BIT ↦ LOCATION_NAV_CORRECTION_ONLY_SBAS_CORRECTED_SV_USED_BIT ].
Definition getGnssLocationNavSolutionMaskFromPB (pbGnssLocNavSoln : Z) : Z := collect pbGnssLocNavSoln getGnssLocationNavSolutionMaskFromPB_table 0.

Definition getDrCalibrationStatusMaskFromPB_table : list (Z * Z) :=
    [ PB_DR_ROLL_CALIBRATION_NEEDED ↦ DR_ROLL_CALIBRATION_NEEDED;
      PB_DR_PITCH_CALIBRATION_NEEDED ↦ DR_PITCH_CALIBRATION_NEEDED;
      PB_DR_YAW_CALIBRATION_NEEDED ↦ DR_YAW_CALIBRATION_NEEDED;
      PB_DR_ODO_CALIBRATION_NEEDED ↦ DR_ODO_CALIBRATION_NEEDED;
      PB_DR_GYRO_CALIBRATION_NEEDED ↦ DR_GYRO_CALIBRATION_NEEDED ].
Definition getDrCalibrationStatusMaskFromPB (pbDrCalibStatus : Z) : Z := collect pbDrCalibStatus getDrCalibrationStatusMaskFromPB_table 0.

Definition getGnssLocationPosDataMaskFromPB_table : list (Z * Z) :=
    [ PB_LOCATION_NAV_DATA_HAS_LONG_ACCEL_BIT ↦ LOCATION_NAV_DATA_HAS_LONG_ACCEL_BIT;
      PB_LOCATION_NAV_DATA_HAS_LAT_ACCEL_BIT ↦ LOCATION_NAV_DATA_HAS_LAT_ACCEL_BIT;
      PB_LOCATION_NAV_DATA_HAS_VERT_ACCEL_BIT ↦ LOCATION_NAV_DATA_HAS_VERT_ACCEL_BIT;
      PB_LOCATION_NAV_DATA_HAS_YAW_RATE_BIT ↦ LOCATION_NAV_DATA_HAS_YAW_RATE_BIT;
      PB_LOCATION_NAV_DATA_HAS_PITCH_BIT ↦ LOCATION_NAV_DATA_HAS_PITCH_BIT;
      PB_LOCATION_NAV_DATA_HAS_LONG_ACCEL_UNC_BIT ↦ LOCATION_NAV_DATA_HAS_LONG_ACCEL_UNC_BIT;
      PB_LOCATION_NAV_DATA_HAS_LAT_ACCEL_UNC_BIT ↦ LOCATION_NAV_DATA_HAS_LAT_ACCEL_UNC_BIT;
      PB_LOCATION_NAV_DATA_HAS_VERT_ACCEL_UNC_BIT ↦ LOCATION_NAV_DATA_HAS_VERT_ACCEL_UNC_BIT;
      PB_LOCATION_NAV_DATA_HAS_YAW_RATE_UNC_BIT ↦ LOCATION_NAV_DATA_HAS_YAW_RATE_UNC_BIT;
      PB_LOCATION_NAV_DATA_HAS_PITCH_UNC_BIT ↦ LOCATION_NAV_DATA_HAS_PITCH_UNC_BIT ].
Definition getGnssLocationPosDataMaskFromPB (pbGnssLocPosDataMask : Z) : Z := collect pbGnssLocPosDataMask getGnssLocationPosDataMaskFromPB_table 0.

Definition getGnssLocationPosDataMaskExtFromPB_table : list (Z * Z) :=
    [ PB_LOCATION_NAV_DATA_HAS_PITCH_RATE_BIT ↦ LOCATION_NAV_DATA_HAS_PITCH_RATE_BIT;
      PB_LOCATION_NAV_DATA_HAS_PITCH_RATE_UNC_BIT ↦ LOCATION_NAV_DATA_HAS_PITCH_RATE_UNC_BIT;
      PB_LOCATION_NAV_DATA_HAS_ROLL_BIT ↦ LOCATION_NAV_DATA_HAS_ROLL_BIT;
      PB_LOCATION_NAV_DATA_HAS_ROLL_UNC_BIT ↦ LOCATION_NAV_DATA_HAS_ROLL_UNC_BIT;
      PB_LOCATION_NAV_DATA_HAS_ROLL_RATE_BIT ↦ LOCATION_NAV_DATA_HAS_ROLL_RATE_BIT;
      PB_LOCATION_NAV_DATA_HAS_ROLL_RATE_UNC_BIT ↦ LOCATION_NAV_DATA_HAS_ROLL_RATE_UNC_BIT;
      PB_LOCATION_NAV_DATA_HAS_YAW_BIT ↦ LOCATION_NAV_DATA_HAS_YAW_BIT;
      PB_LOCATION_NAV_DATA_HAS_YAW_UNC_BIT ↦ LOCATION_NAV_DATA_HAS_YAW_UNC_BIT ].
Definition getGnssLocationPosDataMaskExtFromPB (pbGnssLocPosDataMask : Z) : Z := collect pbGnssLocPosDataMask getGnssLocationPosDataMaskExtFromPB_table 0.

Definition getGnssGloTimeStructTypeFlagsFromPB_table : list (Z * Z) :=
    [ PB_GNSS_CLO_DAYS_VALID ↦ GNSS_CLO_DAYS_VALID;
      PB_GNSS_GLO_MSEC_VALID ↦ GNSS_GLO_MSEC_VALID;
      PB_GNSS_GLO_CLK_TIME_BIAS_VALID ↦ GNSS_GLO_CLK_TIME_BIAS_VALID;
      PB_GNSS_GLO_CLK_TIME_BIAS_UNC_VALID ↦ GNSS_GLO_CLK_TIME_BIAS_UNC_VALID;
      PB_GNSS_GLO_REF_FCOUNT_VALID ↦ GNSS_GLO_REF_FCOUNT_VALID;
      PB_GNSS_GLO_NUM_CLOCK_RESETS_VALID ↦ GNSS_GLO_NUM_CLOCK_RESETS_VALID;
      PB_GNSS_GLO_FOUR_YEAR_VALID ↦ GNSS_GLO_FOUR_YEAR_VALID ].
Definition getGnssGloTimeStructTypeFlagsFromPB (pbGnssGloTimeStruct : Z) : Z := collect pbGnssGloTimeStruct getGnssGloTimeStructTypeFlagsFromPB_table 0.

Definition getGnssConfigRobustLocationValidMaskFromPB_table : list (Z * Z) :=
    [ PB_GNSS_CONFIG_ROBUST_LOCATION_ENABLED_VALID_BIT ↦ GNSS_CONFIG_ROBUST_LOCATION_ENABLED_VALID_BIT;
      PB_GNSS_CONFIG_ROBUST_LOCATION_ENABLED_FOR_E911_VALID_BIT ↦ GNSS_CONFIG_ROBUST_LOCATION_ENABLED_FOR_E911_VALID_BIT;
      PB_GNSS_CONFIG_ROBUST_LOCATION_VERSION_VALID_BIT ↦ GNSS_CONFIG_ROBUST_LOCATION_VERSION_VALID_BIT ].
Definition getGnssConfigRobustLocationValidMaskFromPB (pbGnssCfgRobstLocValidMask : Z) : Z := collect pbGnssCfgRobstLocValidMask getGnssConfigRobustLocationValidMaskFromPB_table 0.

Definition getDeadReckoningEngineConfigValidMaskFromPB_table : list (Z * Z) :=
    [ PB_BODY_TO_SENSOR_MOUNT_PARAMS_BIT ↦ BODY_TO_SENSOR_MOUNT_PARAMS_BIT;
      PB_VEHICLE_SPEED_SCALE_FACTOR_BIT ↦ VEHICLE_SPEED_SCALE_FACTOR_BIT;
      PB_VEHICLE_SPEED_SCALE_FACTOR_UNC_BIT ↦ VEHICLE_SPEED_SCALE_FACTOR_UNC_BIT;
      PB_GYRO_SCALE_FACTOR_BIT ↦ GYRO_SCALE_FACTOR_BIT;
      PB_GYRO_SCALE_FACTOR_UNC_BIT ↦ GYRO_SCALE_FACTOR_UNC_BIT ].
Definition getDeadReckoningEngineConfigValidMaskFromPB (pbDrEngCfgVldMask : Z) : Z := collect pbDrEngCfgVldMask getDeadReckoningEngineConfigValidMaskFromPB_table 0.

Definition getDrEngineAidingDataMaskFromPB_table : list (Z * Z) :=
    [ PB_DR_ENGINE_AIDING_DATA_CALIBRATION_BIT ↦ DR_ENGINE_AIDING_DATA_CALIBRATION_BIT ].
Definition getDrEngineAidingDataMaskFromPB (pbDrEngAidDataMask : Z) : Z := collect pbDrEngAidDataMask getDrEngineAidingDataMaskFromPB_table 0.

Definition getDrSolutionStatusMaskFromPB_table : list (Z * Z) :=
    [ (value PB_VEHICLE_SENSOR_SPEED_INPUT_DETECTED, VEHICLE_SENSOR_SPEED_INPUT_DETECTED);
      (value PB_VEHICLE_SENSOR_SPEED_INPUT_USED, VEHICLE_SENSOR_SPEED_INPUT_USED) ].
Definition getDrSolutionStatusMaskFromPB (pbDrSolnStatusMask : Z) : Z := collect pbDrSolnStatusMask getDrSolutionStatusMaskFromPB_table 0.

Definition getPBEnumForLocSessionStatus (status : Z) : Z :=
  switch status
    [ LOC_SESS_SUCCESS ↦ PB_LOCATION_SESS_SUCCESS;
      LOC_SESS_INTERMEDIATE ↦ PB_LOCATION_SESS_INTERMEDIATE ]
    (value PB_LOCATION_SESS_FAILURE).

Definition getLocSessionStatusFromPB (pbStatus : Z) : Z :=
  switch pbStatus
    [ PB_LOCATION_SESS_SUCCESS ↦ LOC_SESS_SUCCESS;
      PB_LOCATION_SESS_INTERMEDIATE ↦ LOC_SESS_INTERMEDIATE ]
    (value LOC_SESS_FAILURE).

(** * Correctness *)

(** ** Masks *)
Definition single_bit (a : Z) : bool := (0 <? a) && (a =? 2 ^ Z.log2 a).

(** The rows that can fire. *)
Definition live_rows (t : list (Z * Z)) : list (Z * Z) := List.filter (λ r, negb (r.1 =? 0)) t.

(** [u] undoes [t]: the rows are single bits, distinct on both sides, and every row of [u]
    that a result of [t] can trigger is the converse of a row of [t], and each is there. *)
Definition row_eqb (r s : Z * Z) : bool := (r.1 =? s.1) && (r.2 =? s.2).
Definition undoes (t u : list (Z * Z)) : bool :=
  forallb (λ r, single_bit r.1 && single_bit r.2 && existsb (row_eqb (r.2, r.1)) u &&
                forallb (λ r', negb (r.2 =? r'.2) || (r.1 =? r'.1)) t) t &&
  forallb (λ s, (s.1 =? 0) || single_bit s.1 && (negb (existsb (λ r, r.2 =? s.1) t) || existsb (row_eqb (s.2, s.1)) t)) u.

(** The bits a conversion carries. *)
Definition carried (t : list (Z * Z)) : Z := foldr (λ r m, Z.lor r.1 m) 0 t.
Definition all_bits (T : Type) `{CEnum T} : Z := foldr (λ x m, Z.lor (value x) m) 0 enumerators.

Lemma single_bit_spec a : single_bit a = true → ∃ j, 0 ≤ j ∧ a = 2 ^ j.
Proof.
  unfold single_bit. rewrite andb_true_iff, Z.ltb_lt, Z.eqb_eq. intros [H E]. exists (Z.log2 a). split; [apply Z.log2_nonneg|done].
Qed.

Lemma testbit_single i j : 0 ≤ j → 0 ≤ i → Z.testbit (2 ^ j) i = (i =? j).
Proof.
  intros Hj Hi. destruct (Z.eqb_spec i j) as [->|Hn]; [by rewrite Z.pow2_bits_true|]. rewrite Z.pow2_bits_false; [done|lia].
Qed.

(** [mask & bit] for one bit. *)
Lemma land_single m j : 0 ≤ j → negb (Z.land m (2 ^ j) =? 0) = Z.testbit m j.
Proof.
  intros Hj. destruct (Z.testbit m j) eqn:E.
  - apply negb_true_iff, Z.eqb_neq. intros H. assert (Z.testbit (Z.land m (2 ^ j)) j = false) as Hb by (by rewrite H, Z.testbit_0_l).
    rewrite Z.land_spec, E, Z.pow2_bits_true in Hb by done. done.
  - apply negb_false_iff, Z.eqb_eq. apply Z.bits_inj'. intros i Hi. rewrite Z.land_spec, Z.testbit_0_l, testbit_single by done.
    destruct (Z.eqb_spec i j) as [->|]; [by rewrite E|by rewrite andb_false_r].
Qed.

Lemma collect_testbit m t r i :
  Z.testbit (collect m t r) i = Z.testbit r i || existsb (λ s, negb (Z.land m s.1 =? 0) && Z.testbit s.2 i) t.
Proof.
  revert r. induction t as [|[a b] t IH]; intros r; cbn [collect existsb fst snd]; [by rewrite orb_false_r|].
  rewrite IH. destruct (Z.land m a =? 0); cbn [negb andb orb]; [done|]. by rewrite Z.lor_spec, orb_assoc.
Qed.

Lemma carried_testbit t i : Z.testbit (carried t) i = existsb (λ r, Z.testbit r.1 i) t.
Proof. induction t as [|r t IH]; [apply Z.testbit_0_l|]. cbn [existsb]. rewrite <-IH. apply Z.lor_spec. Qed.

Lemma collect_live m t r : collect m (live_rows t) r = collect m t r.
Proof.
  revert r. induction t as [|[a b] t IH]; intros r; [done|]. cbn [live_rows List.filter collect fst].
  destruct (Z.eqb_spec a 0) as [->|Ha]; cbn [negb]; [by rewrite Z.land_0_r|cbn [collect]; apply IH].
Qed.

Lemma existsb_in {A} (f : A → bool) l : existsb f l = true ↔ ∃ x, In x l ∧ f x = true.
Proof. apply existsb_exists. Qed.

(** A mask that is encoded with [t] and decoded with [u] keeps the bits [t] carries. *)
Lemma collect_undoes t u m : undoes t u = true → collect (collect m t 0) u 0 = Z.land m (carried t).
Proof.
  intros H. unfold undoes in H. apply andb_true_iff in H as [Ht Hu]. rewrite forallb_forall in Ht, Hu.
  apply Z.bits_inj'. intros i Hi. rewrite collect_testbit, Z.testbit_0_l, Z.land_spec, carried_testbit. cbn [orb].
  apply eq_true_iff_eq. rewrite andb_true_iff, !existsb_in. split.
  - intros (s & Hs & [Hm Hb]%andb_true_iff). specialize (Hu s Hs). apply orb_true_iff in Hu as [Hz|[Hs1 Hu]%andb_true_iff].
    { apply Z.eqb_eq in Hz. by rewrite Hz, Z.land_0_r in Hm. }
    apply single_bit_spec in Hs1 as (k & Hk & Es). rewrite Es, land_single, collect_testbit, Z.testbit_0_l in Hm by done. cbn [orb] in Hm.
    apply existsb_in in Hm as (r & Hr & [Hmr Hrk]%andb_true_iff).
    pose proof (Ht r Hr) as Hrr. rewrite !andb_true_iff in Hrr. destruct Hrr as [[[H1 H2] _] H4].
    apply single_bit_spec in H1 as (j & Hj & Ej). apply single_bit_spec in H2 as (k' & Hk' & Ek).
    rewrite Ek, testbit_single in Hrk by done. apply Z.eqb_eq in Hrk as <-.
    apply orb_true_iff in Hu as [Hu|Hu].
    { apply negb_true_iff in Hu. assert (existsb (λ r, r.2 =? s.1) t = true); [|congruence].
      apply existsb_in. exists r. split; [done|]. apply Z.eqb_eq. congruence. }
    apply existsb_in in Hu as (r' & Hr' & He). unfold row_eqb in He. cbn [fst snd] in He. rewrite andb_true_iff, !Z.eqb_eq in He. destruct He as [E1 E2].
    rewrite forallb_forall in H4. specialize (H4 r' Hr'). rewrite <-E2, Es, Ek, Z.eqb_refl in H4. cbn [negb orb] in H4. apply Z.eqb_eq in H4.
    assert (i = j) as ->. { rewrite E1, <-H4, Ej, testbit_single in Hb by done. by apply Z.eqb_eq in Hb. }
    split; [by rewrite Ej, land_single in Hmr|]. exists r. split; [done|]. by rewrite Ej, Z.pow2_bits_true.
  - intros (Hm & r & Hr & Hb). pose proof (Ht r Hr) as Hrr. rewrite !andb_true_iff in Hrr. destruct Hrr as [[[H1 H2] H3] _].
    apply single_bit_spec in H1 as (j & Hj & Ej). apply single_bit_spec in H2 as (k & Hk & Ek).
    rewrite Ej, testbit_single in Hb by done. apply Z.eqb_eq in Hb as ->.
    apply existsb_in in H3 as (s & Hs & He). unfold row_eqb in He. cbn [fst snd] in He. rewrite andb_true_iff, !Z.eqb_eq in He. destruct He as [E1 E2].
    exists s. split; [done|]. rewrite <-E1, <-E2, Ek, Ej, land_single, Z.pow2_bits_true, andb_true_r by done.
    rewrite collect_testbit, Z.testbit_0_l. cbn [orb]. apply existsb_in. exists r. split; [done|].
    by rewrite Ej, Ek, land_single, Hm, Z.pow2_bits_true by done.
Qed.

Lemma mask_roundtrip t u m : undoes (live_rows t) u = true → collect (collect m t 0) u 0 = Z.land m (carried (live_rows t)).
Proof. intros H. rewrite <-(collect_live m t). by apply collect_undoes. Qed.

(** The result of a conversion has only the bits of its rows. *)
Definition produced (t : list (Z * Z)) : Z := foldr (λ r m, Z.lor r.2 m) 0 t.
Lemma produced_testbit t i : Z.testbit (produced t) i = existsb (λ r, Z.testbit r.2 i) t.
Proof. induction t as [|r t IH]; [apply Z.testbit_0_l|]. cbn [existsb]. rewrite <-IH. apply Z.lor_spec. Qed.

Lemma collect_produced m t : Z.land (collect m t 0) (produced t) = collect m t 0.
Proof.
  apply Z.bits_inj'. intros i Hi. rewrite Z.land_spec, collect_testbit, Z.testbit_0_l, produced_testbit. cbn [orb].
  apply eq_true_iff_eq. rewrite andb_true_iff, !existsb_in. split; [by intros [H _]|]. intros (s & Hs & H). split; [by exists s|].
  apply andb_true_iff in H as [_ H]. by exists s.
Qed.

(** Masks with two parts. *)
Lemma collect_lor m t r : collect m t r = Z.lor r (collect m t 0).
Proof.
  apply Z.bits_inj'. intros i Hi. by rewrite Z.lor_spec, !collect_testbit, Z.testbit_0_l.
Qed.

Lemma collect_irrelevant x y u r : Z.land y (carried u) = 0 → collect (Z.lor x y) u r = collect x u r.
Proof.
  revert r. induction u as [|[a b] u IH]; intros r H; [done|]. cbn [collect].
  change (Z.land y (Z.lor a (carried u)) = 0) in H. rewrite Z.land_lor_distr_r in H. apply Z.lor_eq_0_iff in H as [H1 H2].
  rewrite Z.land_lor_distr_l, H1, Z.lor_0_r. by apply IH.
Qed.

(** The rows of [t] set no bit that [u] tests. *)
Lemma collect_apart m t u : Z.land (produced t) (carried u) = 0 → Z.land (collect m t 0) (carried u) = 0.
Proof.
  intros H. rewrite <-(collect_produced m t), <-Z.land_assoc, H. apply Z.land_0_r.
Qed.

Lemma mask_roundtrip_fst t1 t2 u m1 m2 :
  undoes (live_rows t1) u = true → Z.land (produced t2) (carried u) = 0 →
  collect (collect m2 t2 (collect m1 t1 0)) u 0 = Z.land m1 (carried (live_rows t1)).
Proof. intros H Ha. rewrite (collect_lor m2 t2), collect_irrelevant by (by apply collect_apart). by apply mask_roundtrip. Qed.

Lemma mask_roundtrip_snd t1 t2 u m1 m2 :
  undoes (live_rows t2) u = true → Z.land (produced t1) (carried u) = 0 →
  collect (collect m2 t2 (collect m1 t1 0)) u 0 = Z.land m2 (carried (live_rows t2)).
Proof.
  intros H Ha. rewrite (collect_lor m2 t2), Z.lor_comm, collect_irrelevant by (by apply collect_apart). by apply mask_roundtrip.
Qed.

Lemma mask_roundtrip_join t1 t2 u1 u2 m :
  undoes (live_rows t1) u1 = true → undoes (live_rows t2) u2 = true →
  collect (collect m t2 0) u2 (collect (collect m t1 0) u1 0) = Z.land m (Z.lor (carried (live_rows t1)) (carried (live_rows t2))).
Proof. intros H1 H2. rewrite (collect_lor (collect m t2 0)), !mask_roundtrip by done. by rewrite Z.land_lor_distr_r. Qed.

(** A mask that only one side converts. *)
Lemma land_one_bit m j : 0 ≤ j → Z.land m (2 ^ j) = if Z.land m (2 ^ j) =? 0 then 0 else 2 ^ j.
Proof.
  intros Hj. destruct (Z.eqb_spec (Z.land m (2 ^ j)) 0) as [E|E]; [done|]. pose proof (land_single m j Hj) as Hs.
  rewrite (proj2 (Z.eqb_neq _ _) E) in Hs. apply Z.bits_inj'. intros i Hi. rewrite Z.land_spec, testbit_single by done.
  destruct (Z.eqb_spec i j) as [->|]; [by rewrite <- Hs|by rewrite andb_false_r].
Qed.
Lemma collect_same m t r : forallb (λ s, (s.1 =? s.2) && (single_bit s.1 || (s.1 =? 0))) t = true →
  collect m t r = Z.lor r (Z.land m (carried t)).
Proof.
  revert r. induction t as [|[a b] t IH]; intros r; cbn [forallb collect carried foldr fst snd]; [by rewrite Z.land_0_r, Z.lor_0_r|].
  intros [[E%Z.eqb_eq H]%andb_true_iff Ht]%andb_true_iff. fold (carried t). rewrite IH, Z.land_lor_distr_r, Z.lor_assoc by done. f_equal. subst b.
  apply orb_true_iff in H as [(j & Hj & ->)%single_bit_spec| ->%Z.eqb_eq]; [|by rewrite Z.land_0_r, Z.lor_0_r].
  rewrite (land_one_bit m j) at 2 by done. destruct (_ =? 0); [by rewrite Z.lor_0_r|done].
Qed.

(** ** Enumerations *)
Lemma switch_default x cases d : (∀ r, In r cases → r.1 ≠ x) → switch x cases d = d.
Proof.
  induction cases as [|[a b] cases IH]; intros H; [done|]. cbn [switch]. destruct (Z.eqb_spec x a) as [->|_].
  - by destruct (H (a, b)); [left|].
  - apply IH. intros r Hr. apply H. by right.
Qed.

(** What arrives when an enumerator is sent. *)
Definition carries (T : Type) `{CEnum T} (enc dec : Z → Z) (arrives : T → T) : Prop :=
  ∀ x, dec (enc (value x)) = value (arrives x).

(** What arrives when a mask is sent: its bits in [all_bits T] but those in [lost]. *)
Definition carries_mask (T : Type) `{CEnum T} (enc dec : Z → Z) (lost : list T) : Prop :=
  ∀ m, dec (enc m) = Z.land m (Z.ldiff (all_bits T) (foldr (λ x l, Z.lor (value x) l) 0 lost)).

Ltac mask_close L m := rewrite L by (vm_compute; reflexivity); apply (f_equal (Z.land m)); vm_compute; reflexivity.
Ltac mask_tac :=
  let m := fresh "m" in intros m; match goal with |- ?dec (?enc m) = _ => unfold dec, enc end; mask_close mask_roundtrip m.

(** * Properties *)

(** C22: the enumerations that the protocol knows entirely cross the IPC unchanged: each
    enumerator of the message ids, client types, batching modes and status, SUPL modes,
    reliabilities, multipath indicators, satellite systems, engine states and session
    status is decoded to itself after being encoded, and a message id that is not one of
    the protocol is decoded as undefined. *)
Theorem pb_enum_roundtrip :
  carries ELocMsgID getPBEnumForELocMsgID getEnumForPBELocMsgID id ∧
  carries ClientType getPBEnumForClientType getEnumForPBClientType id ∧
  carries BatchingMode getPBEnumForBatchingMode getEnumForPBBatchingMode id ∧
  carries BatchingStatus getPBEnumForBatchingStatus getEnumForPBBatchingStatus id ∧
  carries GnssSuplMode getPBEnumForGnssSuplMode getEnumForPBGnssSuplMode id ∧
  carries LocationReliability getPBEnumForLocationReliability getEnumForPBLocReliability id ∧
  carries GnssMeasurementsMultipathIndicator getPBEnumForGnssMeasMultiPathIndic getEnumForPBGnssMeasMultipathIndic id ∧
  carries Gnss_LocSvSystemEnumType getPBEnumForGnssLocSvSystem getEnumForPBGnssLocSvSystem id ∧
  carries GnssSvType getPBGnssLocSvSysEnumFromGnssSvType getGnssSvTypeFromPBGnssLocSvSystemEnumType id ∧
  carries LocEngineRunState getPBEnumForLocEngineRunState getEnumForPBLocEngineRunState id ∧
  carries loc_sess_status getPBEnumForLocSessionStatus getLocSessionStatusFromPB id ∧
  (∀ v, (∀ x : PBELocMsgID, v ≠ value x) → getEnumForPBELocMsgID v = value E_LOCAPI_UNDEFINED_MSG_ID).
Proof.
  split_and!; try (intros []; reflexivity).
  intros v Hv. apply switch_default. intros r Hr E. cbn [In] in Hr.
  repeat destruct Hr as [<-|Hr]; try (by eapply Hv; symmetry; exact E). done.
Qed.

(** C21: what arrives of a mask: for every mask type that these functions convert and any mask,
    each bit of the type arrives where it was and no other bit does, but for these, which are
    dropped: all bits of the aiding data of satellites but the ephemeris; nine capabilities; the
    VPE engine among the engines and the engines asked for; three location flags, the DGNSS
    technology, two flags of the measurements' data, the half-cycle state, the elapsed time of
    the clock, three bits of the measurements' state, and the SV source of a location's
    information (each by name in the statement). The state of the measurements is encoded and
    taken as it is, the types of satellites are sent as they are and decoded. *)
Theorem pb_mask_roundtrip :
  carries_mask TerrestrialTechMask getPBMaskForTerrestrialTechMask getTerrestrialTechMaskFromPB [] ∧
  carries_mask ELocationCallbacksOption getPBMaskForLocationCallbacksMask getLocationCallbacksMaskFromPB [] ∧
  carries_mask LeverArmTypeBits getPBMaskForLeverArmTypeMask getLeverArmTypeMaskFromPB [] ∧
  carries_mask GnssConfigRobustLocationValidMask getPBMaskForGnssCfgRobustLocValidMask getGnssConfigRobustLocationValidMaskFromPB [] ∧
  carries_mask LocationSystemInfoDataBits getPBMaskForLocSysInfoMask getLocationSystemInfoMaskFromPB [] ∧
  carries_mask GnssDataBits getPBMaskForGnssDataMask getGnssDataMaskFromPB [] ∧
  carries_mask LeapSecondSysInfoDataBits getPBMaskForLeapSecondSysInfoMask getLeapSecSysInfoMaskFromPB [] ∧
  carries_mask GnssSystemTimeTypeBits getPBMaskForGnssSystemTimeStructTypeFlags getGnssSystemTimeStructTypeFlagsFromPB [] ∧
  carries_mask GnssLocationNavSolutionBits getPBMaskForGnssLocationNavSolutionMask getGnssLocationNavSolutionMaskFromPB [] ∧
  carries_mask DrCalibrationStatusBits getPBMaskForDrCalibrationStatusMask getDrCalibrationStatusMaskFromPB [] ∧
  carries_mask GnssGloTimeTypeBits getPBMaskForGnssGloTimeStructTypeFlags getGnssGloTimeStructTypeFlagsFromPB [] ∧
  carries_mask GnssSvOptionsBits getPBMaskForGnssSvOptionsMask getGnssSvOptionsMaskFromPB [] ∧
  carries_mask GnssSignalTypeBits getPBMaskForGnssSignalTypeMask getGnssSignalTypeMaskFromPB [] ∧
  carries_mask GeofenceBreachTypeBits getPBMaskForGeofenceBreachTypeMask getGfBreachTypeMaskFromPB [] ∧
  carries_mask DeadReckoningEngineConfigValidBit getPBMaskForDeadReckoningEngineConfigValidMask getDeadReckoningEngineConfigValidMaskFromPB [] ∧
  carries_mask DrEngineAidingDataBits getPBMaskForDrEngineAidingDataMask getDrEngineAidingDataMaskFromPB [] ∧
  carries_mask GnssAidingDataSvBits getPBMaskForGnssAidingDataSvMask getGnssAidingDataSvMaskFromPB
    [GNSS_AIDING_DATA_SV_ALMANAC_BIT; GNSS_AIDING_DATA_SV_HEALTH_BIT; GNSS_AIDING_DATA_SV_DIRECTION_BIT;
     GNSS_AIDING_DATA_SV_STEER_BIT; GNSS_AIDING_DATA_SV_ALMANAC_CORR_BIT; GNSS_AIDING_DATA_SV_BLACKLIST_BIT;
     GNSS_AIDING_DATA_SV_SA_DATA_BIT; GNSS_AIDING_DATA_SV_NO_EXIST_BIT; GNSS_AIDING_DATA_SV_IONOSPHERE_BIT;
     GNSS_AIDING_DATA_SV_TIME_BIT; GNSS_AIDING_DATA_SV_MB_DATA; GNSS_AIDING_DATA_SV_POLY_BIT] ∧
  carries_mask LocationCapabilitiesBits getPBMaskForLocationCapabilitiesMask getLocationCapabilitiesMaskFromPB
    [LOCATION_CAPABILITIES_GNSS_MSB_BIT; LOCATION_CAPABILITIES_GNSS_MSA_BIT; LOCATION_CAPABILITIES_DEBUG_NMEA_BIT;
     LOCATION_CAPABILITIES_AGPM_BIT; LOCATION_CAPABILITIES_PRIVACY_BIT; LOCATION_CAPABILITIES_MEASUREMENTS_CORRECTION_BIT;
     LOCATION_CAPABILITIES_CONFORMITY_INDEX_BIT; LOCATION_CAPABILITIES_EDGNSS_BIT; LOCATION_CAPABILITIES_QWES_SV_EPHEMERIS_BIT] ∧
  carries_mask PositioningEngineBits getPBMaskForPositioningEngineMask getEnumForPBPositioningEngineMask [VP_POSITIONING_ENGINE] ∧
  carries_mask LocReqEngineTypeMask getPBMaskForLocReqEngineTypeMask getLocReqEngineTypeMaskFromPB [LOC_REQ_ENGINE_VPE_BIT] ∧
  carries_mask LocationFlagsBits getPBMaskForLocationFlagsMask getLocationFlagsMaskFromPB
    [LOCATION_HAS_SPOOF_MASK; LOCATION_HAS_ELAPSED_REAL_TIME; LOCATION_HAS_CONFORMITY_INDEX_BIT] ∧
  carries_mask LocationTechnologyBits getPBMaskForLocationTechnologyMask getLocationTechnologyMaskFromPB [LOCATION_TECHNOLOGY_DGNSS_BIT] ∧
  carries_mask GnssMeasurementsDataFlagsBits getPBMaskForGnssMeasurementsDataFlagsMask getGnssMeasurementsDataFlagsMaskFromPB
    [GNSS_MEASUREMENTS_DATA_SATELLITE_ISB_BIT; GNSS_MEASUREMENTS_DATA_SATELLITE_ISB_UNCERTAINTY_BIT] ∧
  carries_mask GnssMeasurementsAdrStateBits getPBMaskForGnssMeasurementsAdrStateMask getGnssMeasurementsAdrStateMaskFromPB
    [GNSS_MEASUREMENTS_ACCUMULATED_DELTA_RANGE_STATE_HALF_CYCLE_RESOLVED_BIT] ∧
  carries_mask GnssMeasurementsClockFlagsBits getPBMaskForGnssMeasurementsClockFlagsMask getGnssMeasurementsClockFlagsMaskFromPB
    [GNSS_MEASUREMENTS_CLOCK_FLAGS_ELAPSED_REAL_TIME_BIT] ∧
  carries_mask GnssMeasurementsStateBits getPBMaskForGnssMeasurementsStateMask id
    [GNSS_MEASUREMENTS_STATE_TOW_KNOWN_BIT; GNSS_MEASUREMENTS_STATE_GLO_TOD_KNOWN_BIT; GNSS_MEASUREMENTS_STATE_2ND_CODE_LOCK_BIT] ∧
  carries_mask GnssSvTypesMaskBits id getGnssSvTypesMaskFromPB [] ∧
  (∀ m, getDrSolutionStatusMaskFromPB (getPBMaskForDrSolutionStatusMask m) =
        Z.land m (Z.lor VEHICLE_SENSOR_SPEED_INPUT_DETECTED VEHICLE_SENSOR_SPEED_INPUT_USED)) ∧
  (∀ m ext, getGnssLocationPosDataMaskFromPB (getPBMaskForGnssLocationPosDataMask m ext) = Z.land m (all_bits GnssLocationPosDataBits) ∧
            getGnssLocationPosDataMaskExtFromPB (getPBMaskForGnssLocationPosDataMask m ext) = Z.land ext (all_bits GnssLocationPosDataBitsExt)) ∧
  (∀ m, getGnssLocationInfoFlagMaskFromPB (getPBMaskForGnssLocationInfoFlagMask m) (getPBMaskForGnssLocationInfoExtFlagMask m) =
        Z.land m (Z.ldiff (all_bits GnssLocationInfoFlagBits) (value GNSS_LOCATION_INFO_SV_SOURCE_INFO_BIT))).
Proof.
  split_and!; try mask_tac.
  - intros m. unfold id, getPBMaskForGnssMeasurementsStateMask. mask_close collect_same m.
  - intros m. unfold id, getGnssSvTypesMaskFromPB. mask_close collect_same m.
  - intros m ext. unfold getGnssLocationPosDataMaskFromPB, getGnssLocationPosDataMaskExtFromPB, getPBMaskForGnssLocationPosDataMask.
    split; [mask_close mask_roundtrip_fst m|mask_close mask_roundtrip_snd ext].
  - intros m. unfold getGnssLocationInfoFlagMaskFromPB, getPBMaskForGnssLocationInfoFlagMask, getPBMaskForGnssLocationInfoExtFlagMask.
    mask_close mask_roundtrip_join m.
Qed.

(** The two enumerations that the protocol does not carry entirely: six of the location errors
    arrive as a general failure, the VPE engine as the fused one. *)
Theorem pb_lost_values :
  carries LocationError getPBEnumForLocationError getEnumForPBLocationError
    (λ e, match e with
          | LOCATION_ERROR_CALLBACK_MISSING | LOCATION_ERROR_ID_EXISTS | LOCATION_ERROR_ID_UNKNOWN
          | LOCATION_ERROR_ALREADY_STARTED | LOCATION_ERROR_GEOFENCES_AT_MAX | LOCATION_ERROR_GNSS_DISABLED => LOCATION_ERROR_GENERAL_FAILURE
          | _ => e
          end) ∧
  carries LocOutputEngineType getPBEnumForLocOutputEngineType getEnumForPBLocOutputEngineType
    (λ e, match e with LOC_OUTPUT_ENGINE_VPE | LOC_OUTPUT_ENGINE_COUNT => LOC_OUTPUT_ENGINE_FUSED | _ => e end).
Proof. split_and!; intros []; reflexivity. Qed.
