(* ===== verification/LocEvents.v ===== *)
(** * The events an adapter registers for, and the events of the modem they stand for.

    The bits of the event masks of gps/utils/gps_extended_c.h, by the index each has in
    loc_api_adapter_event_index, and those of the QMI location service. *)
From S2P Require Import Prelude.
Local Open Scope Z_scope.

(** ** enum loc_api_adapter_event_index *)
Definition LOC_API_ADAPTER_REPORT_POSITION : Z := 0.
Definition LOC_API_ADAPTER_REPORT_SATELLITE : Z := 1.
Definition LOC_API_ADAPTER_REPORT_NMEA_1HZ : Z := 2.
Definition LOC_API_ADAPTER_REPORT_NMEA_POSITION : Z := 3.
Definition LOC_API_ADAPTER_REQUEST_NI_NOTIFY_VERIFY : Z := 4.
Definition LOC_API_ADAPTER_REQUEST_ASSISTANCE_DATA : Z := 5.
Definition LOC_API_ADAPTER_REQUEST_LOCATION_SERVER : Z := 6.
Definition LOC_API_ADAPTER_REPORT_IOCTL : Z := 7.
Definition LOC_API_ADAPTER_REPORT_STATUS : Z := 8.
Definition LOC_API_ADAPTER_REQUEST_WIFI : Z := 9.
Definition LOC_API_ADAPTER_SENSOR_STATUS : Z := 10.
Definition LOC_API_ADAPTER_REQUEST_TIME_SYNC : Z := 11.
Definition LOC_API_ADAPTER_REPORT_SPI : Z := 12.
Definition LOC_API_ADAPTER_REPORT_NI_GEOFENCE : Z := 13.
Definition LOC_API_ADAPTER_GEOFENCE_GEN_ALERT : Z := 14.
Definition LOC_API_ADAPTER_REPORT_GENFENCE_BREACH : Z := 15.
Definition LOC_API_ADAPTER_PEDOMETER_CTRL : Z := 16.
Definition LOC_API_ADAPTER_MOTION_CTRL : Z := 17.
Definition LOC_API_ADAPTER_REQUEST_WIFI_AP_DATA : Z := 18.
Definition LOC_API_ADAPTER_BATCH_FULL : Z := 19.
Definition LOC_API_ADAPTER_BATCHED_POSITION_REPORT : Z := 20.
Definition LOC_API_ADAPTER_BATCHED_GENFENCE_BREACH_REPORT : Z := 21.
Definition LOC_API_ADAPTER_GNSS_MEASUREMENT_REPORT : Z := 22.
Definition LOC_API_ADAPTER_GNSS_SV_POLYNOMIAL_REPORT : Z := 23.
Definition LOC_API_ADAPTER_GDT_UPLOAD_BEGIN_REQ : Z := 24.
Definition LOC_API_ADAPTER_GDT_UPLOAD_END_REQ : Z := 25.
Definition LOC_API_ADAPTER_GNSS_MEASUREMENT : Z := 26.
Definition LOC_API_ADAPTER_REQUEST_TIMEZONE : Z := 27.
Definition LOC_API_ADAPTER_REPORT_GENFENCE_DWELL_REPORT : Z := 28.
Definition LOC_API_ADAPTER_REQUEST_SRN_DATA : Z := 29.
Definition LOC_API_ADAPTER_REQUEST_POSITION_INJECTION : Z := 30.
Definition LOC_API_ADAPTER_BATCH_STATUS : Z := 31.
Definition LOC_API_ADAPTER_FDCL_SERVICE_REQ : Z := 32.
Definition LOC_API_ADAPTER_REPORT_UNPROPAGATED_POSITION : Z := 33.
Definition LOC_API_ADAPTER_BS_OBS_DATA_SERVICE_REQ : Z := 34.
Definition LOC_API_ADAPTER_GNSS_SV_EPHEMERIS_REPORT : Z := 35.
Definition LOC_API_ADAPTER_LOC_SYSTEM_INFO : Z := 36.
Definition LOC_API_ADAPTER_GNSS_NHZ_MEASUREMENT_REPORT : Z := 37.
Definition LOC_API_ADAPTER_EVENT_REPORT_INFO : Z := 38.
Definition LOC_API_ADAPTER_LATENCY_INFORMATION_REPORT : Z := 39.

(** ** LOC_API_ADAPTER_EVENT_MASK_T *)
Definition LOC_API_ADAPTER_BIT_PARSED_POSITION_REPORT : Z := Z.shiftl 1 LOC_API_ADAPTER_REPORT_POSITION.
Definition LOC_API_ADAPTER_BIT_SATELLITE_REPORT : Z := Z.shiftl 1 LOC_API_ADAPTER_REPORT_SATELLITE.
Definition LOC_API_ADAPTER_BIT_NMEA_1HZ_REPORT : Z := Z.shiftl 1 LOC_API_ADAPTER_REPORT_NMEA_1HZ.
Definition LOC_API_ADAPTER_BIT_NMEA_POSITION_REPORT : Z := Z.shiftl 1 LOC_API_ADAPTER_REPORT_NMEA_POSITION.
Definition LOC_API_ADAPTER_BIT_NI_NOTIFY_VERIFY_REQUEST : Z :=
  Z.shiftl 1 LOC_API_ADAPTER_REQUEST_NI_NOTIFY_VERIFY.
Definition LOC_API_ADAPTER_BIT_ASSISTANCE_DATA_REQUEST : Z :=
  Z.shiftl 1 LOC_API_ADAPTER_REQUEST_ASSISTANCE_DATA.
Definition LOC_API_ADAPTER_BIT_LOCATION_SERVER_REQUEST : Z :=
  Z.shiftl 1 LOC_API_ADAPTER_REQUEST_LOCATION_SERVER.
Definition LOC_API_ADAPTER_BIT_IOCTL_REPORT : Z := Z.shiftl 1 LOC_API_ADAPTER_REPORT_IOCTL.
Definition LOC_API_ADAPTER_BIT_STATUS_REPORT : Z := Z.shiftl 1 LOC_API_ADAPTER_REPORT_STATUS.
Definition LOC_API_ADAPTER_BIT_REQUEST_WIFI : Z := Z.shiftl 1 LOC_API_ADAPTER_REQUEST_WIFI.
Definition LOC_API_ADAPTER_BIT_SENSOR_STATUS : Z := Z.shiftl 1 LOC_API_ADAPTER_SENSOR_STATUS.
Definition LOC_API_ADAPTER_BIT_REQUEST_TIME_SYNC : Z := Z.shiftl 1 LOC_API_ADAPTER_REQUEST_TIME_SYNC.
Definition LOC_API_ADAPTER_BIT_REPORT_SPI : Z := Z.shiftl 1 LOC_API_ADAPTER_REPORT_SPI.
Definition LOC_API_ADAPTER_BIT_REPORT_NI_GEOFENCE : Z := Z.shiftl 1 LOC_API_ADAPTER_REPORT_NI_GEOFENCE.
Definition LOC_API_ADAPTER_BIT_GEOFENCE_GEN_ALERT : Z := Z.shiftl 1 LOC_API_ADAPTER_GEOFENCE_GEN_ALERT.
Definition LOC_API_ADAPTER_BIT_REPORT_GENFENCE_BREACH : Z :=
  Z.shiftl 1 LOC_API_ADAPTER_REPORT_GENFENCE_BREACH.
Definition LOC_API_ADAPTER_BIT_BATCHED_GENFENCE_BREACH_REPORT : Z :=
  Z.shiftl 1 LOC_API_ADAPTER_BATCHED_GENFENCE_BREACH_REPORT.
Definition LOC_API_ADAPTER_BIT_PEDOMETER_CTRL : Z := Z.shiftl 1 LOC_API_ADAPTER_PEDOMETER_CTRL.
Definition LOC_API_ADAPTER_BIT_MOTION_CTRL : Z := Z.shiftl 1 LOC_API_ADAPTER_MOTION_CTRL.
Definition LOC_API_ADAPTER_BIT_REQUEST_WIFI_AP_DATA : Z := Z.shiftl 1 LOC_API_ADAPTER_REQUEST_WIFI_AP_DATA.
Definition LOC_API_ADAPTER_BIT_BATCH_FULL : Z := Z.shiftl 1 LOC_API_ADAPTER_BATCH_FULL.
Definition LOC_API_ADAPTER_BIT_BATCHED_POSITION_REPORT : Z :=
  Z.shiftl 1 LOC_API_ADAPTER_BATCHED_POSITION_REPORT.
Definition LOC_API_ADAPTER_BIT_GNSS_MEASUREMENT_REPORT : Z :=
  Z.shiftl 1 LOC_API_ADAPTER_GNSS_MEASUREMENT_REPORT.
Definition LOC_API_ADAPTER_BIT_GNSS_SV_POLYNOMIAL_REPORT : Z :=
  Z.shiftl 1 LOC_API_ADAPTER_GNSS_SV_POLYNOMIAL_REPORT.
Definition LOC_API_ADAPTER_BIT_GDT_UPLOAD_BEGIN_REQ : Z := Z.shiftl 1 LOC_API_ADAPTER_GDT_UPLOAD_BEGIN_REQ.
Definition LOC_API_ADAPTER_BIT_GDT_UPLOAD_END_REQ : Z := Z.shiftl 1 LOC_API_ADAPTER_GDT_UPLOAD_END_REQ.
Definition LOC_API_ADAPTER_BIT_GNSS_MEASUREMENT : Z := Z.shiftl 1 LOC_API_ADAPTER_GNSS_MEASUREMENT.
Definition LOC_API_ADAPTER_BIT_REQUEST_TIMEZONE : Z := Z.shiftl 1 LOC_API_ADAPTER_REQUEST_TIMEZONE.
Definition LOC_API_ADAPTER_BIT_REPORT_GENFENCE_DWELL : Z :=
  Z.shiftl 1 LOC_API_ADAPTER_REPORT_GENFENCE_DWELL_REPORT.
Definition LOC_API_ADAPTER_BIT_REQUEST_SRN_DATA : Z := Z.shiftl 1 LOC_API_ADAPTER_REQUEST_SRN_DATA.
Definition LOC_API_ADAPTER_BIT_POSITION_INJECTION_REQUEST : Z :=
  Z.shiftl 1 LOC_API_ADAPTER_REQUEST_POSITION_INJECTION.
Definition LOC_API_ADAPTER_BIT_BATCH_STATUS : Z := Z.shiftl 1 LOC_API_ADAPTER_BATCH_STATUS.
Definition LOC_API_ADAPTER_BIT_FDCL_SERVICE_REQ : Z := Z.shiftl 1 LOC_API_ADAPTER_FDCL_SERVICE_REQ.
Definition LOC_API_ADAPTER_BIT_PARSED_UNPROPAGATED_POSITION_REPORT : Z :=
  Z.shiftl 1 LOC_API_ADAPTER_REPORT_UNPROPAGATED_POSITION.
Definition LOC_API_ADAPTER_BIT_BS_OBS_DATA_SERVICE_REQ : Z :=
  Z.shiftl 1 LOC_API_ADAPTER_BS_OBS_DATA_SERVICE_REQ.
Definition LOC_API_ADAPTER_BIT_GNSS_SV_EPHEMERIS_REPORT : Z :=
  Z.shiftl 1 LOC_API_ADAPTER_GNSS_SV_EPHEMERIS_REPORT.
Definition LOC_API_ADAPTER_BIT_LOC_SYSTEM_INFO : Z := Z.shiftl 1 LOC_API_ADAPTER_LOC_SYSTEM_INFO.
Definition LOC_API_ADAPTER_BIT_GNSS_NHZ_MEASUREMENT : Z :=
  Z.shiftl 1 LOC_API_ADAPTER_GNSS_NHZ_MEASUREMENT_REPORT.
Definition LOC_API_ADAPTER_BIT_EVENT_REPORT_INFO : Z := Z.shiftl 1 LOC_API_ADAPTER_EVENT_REPORT_INFO.
Definition LOC_API_ADAPTER_BIT_LATENCY_INFORMATION : Z :=
  Z.shiftl 1 LOC_API_ADAPTER_LATENCY_INFORMATION_REPORT.

(** ** qmiLocEventRegMaskT_v02 *)
Definition QMI_LOC_EVENT_MASK_POSITION_REPORT_V02 : Z := 0x00000001.
Definition QMI_LOC_EVENT_MASK_GNSS_SV_INFO_V02 : Z := 0x00000002.
Definition QMI_LOC_EVENT_MASK_NMEA_V02 : Z := 0x00000004.
Definition QMI_LOC_EVENT_MASK_NI_NOTIFY_VERIFY_REQ_V02 : Z := 0x00000008.
Definition QMI_LOC_EVENT_MASK_INJECT_TIME_REQ_V02 : Z := 0x00000010.
Definition QMI_LOC_EVENT_MASK_INJECT_PREDICTED_ORBITS_REQ_V02 : Z := 0x00000020.
Definition QMI_LOC_EVENT_MASK_INJECT_POSITION_REQ_V02 : Z := 0x00000040.
Definition QMI_LOC_EVENT_MASK_ENGINE_STATE_V02 : Z := 0x00000080.
Definition QMI_LOC_EVENT_MASK_FIX_SESSION_STATE_V02 : Z := 0x00000100.
Definition QMI_LOC_EVENT_MASK_WIFI_REQ_V02 : Z := 0x00000200.
Definition QMI_LOC_EVENT_MASK_SENSOR_STREAMING_READY_STATUS_V02 : Z := 0x00000400.
Definition QMI_LOC_EVENT_MASK_TIME_SYNC_REQ_V02 : Z := 0x00000800.
Definition QMI_LOC_EVENT_MASK_SET_SPI_STREAMING_REPORT_V02 : Z := 0x00001000.
Definition QMI_LOC_EVENT_MASK_LOCATION_SERVER_CONNECTION_REQ_V02 : Z := 0x00002000.
Definition QMI_LOC_EVENT_MASK_NI_GEOFENCE_NOTIFICATION_V02 : Z := 0x00004000.
Definition QMI_LOC_EVENT_MASK_GEOFENCE_GEN_ALERT_V02 : Z := 0x00008000.
Definition QMI_LOC_EVENT_MASK_GEOFENCE_BREACH_NOTIFICATION_V02 : Z := 0x00010000.
Definition QMI_LOC_EVENT_MASK_PEDOMETER_CONTROL_V02 : Z := 0x00020000.
Definition QMI_LOC_EVENT_MASK_MOTION_DATA_CONTROL_V02 : Z := 0x00040000.
Definition QMI_LOC_EVENT_MASK_BATCH_FULL_NOTIFICATION_V02 : Z := 0x00080000.
Definition QMI_LOC_EVENT_MASK_LIVE_BATCHED_POSITION_REPORT_V02 : Z := 0x00100000.
Definition QMI_LOC_EVENT_MASK_INJECT_WIFI_AP_DATA_REQ_V02 : Z := 0x00200000.
Definition QMI_LOC_EVENT_MASK_GEOFENCE_BATCH_BREACH_NOTIFICATION_V02 : Z := 0x00400000.
Definition QMI_LOC_EVENT_MASK_VEHICLE_DATA_READY_STATUS_V02 : Z := 0x00800000.
Definition QMI_LOC_EVENT_MASK_GNSS_MEASUREMENT_REPORT_V02 : Z := 0x01000000.
Definition QMI_LOC_EVENT_MASK_GNSS_SV_POLYNOMIAL_REPORT_V02 : Z := 0x02000000.
Definition QMI_LOC_EVENT_MASK_GEOFENCE_PROXIMITY_NOTIFICATION_V02 : Z := 0x04000000.
Definition QMI_LOC_EVENT_MASK_GDT_UPLOAD_BEGIN_REQ_V02 : Z := 0x08000000.
Definition QMI_LOC_EVENT_MASK_GDT_UPLOAD_END_REQ_V02 : Z := 0x10000000.
Definition QMI_LOC_EVENT_MASK_GEOFENCE_BATCH_DWELL_NOTIFICATION_V02 : Z := 0x20000000.
Definition QMI_LOC_EVENT_MASK_GET_TIME_ZONE_REQ_V02 : Z := 0x40000000.
Definition QMI_LOC_EVENT_MASK_BATCHING_STATUS_V02 : Z := 0x80000000.
Definition QMI_LOC_EVENT_MASK_INTERNAL_STATUS_REPORT_V02 : Z := 0x100000000.
Definition QMI_LOC_EVENT_MASK_INJECT_SRN_AP_DATA_REQ_V02 : Z := 0x200000000.
Definition QMI_LOC_EVENT_MASK_GNSS_ONLY_POSITION_REPORT_V02 : Z := 0x400000000.
Definition QMI_LOC_EVENT_MASK_FDCL_SERVICE_REQ_V02 : Z := 0x800000000.
Definition QMI_LOC_EVENT_MASK_DC_REPORT_V02 : Z := 0x1000000000.
Definition QMI_LOC_EVENT_MASK_ENGINE_LOCK_STATE_V02 : Z := 0x2000000000.
Definition QMI_LOC_EVENT_MASK_UNPROPAGATED_POSITION_REPORT_V02 : Z := 0x4000000000.
Definition QMI_LOC_EVENT_MASK_BS_OBS_DATA_SERVICE_REQ_V02 : Z := 0x8000000000.
Definition QMI_LOC_EVENT_MASK_EPHEMERIS_REPORT_V02 : Z := 0x10000000000.
Definition QMI_LOC_EVENT_MASK_NEXT_LS_INFO_REPORT_V02 : Z := 0x20000000000.
Definition QMI_LOC_EVENT_MASK_GET_BAND_MEASUREMENT_METRICS_V02 : Z := 0x40000000000.
Definition QMI_LOC_EVENT_MASK_GNSS_NHZ_MEASUREMENT_REPORT_V02 : Z := 0x80000000000.
Definition QMI_LOC_EVENT_MASK_GNSS_EVENT_REPORT_V02 : Z := 0x100000000000.
Definition QMI_LOC_EVENT_MASK_QUERY_XTRA_INFO_V02 : Z := 0x200000000000.
Definition QMI_LOC_EVENT_MASK_SAP_INS_PARAMETERS_REPORT_V02 : Z := 0x400000000000.
Definition QMI_LOC_EVENT_MASK_LATENCY_INFORMATION_REPORT_V02 : Z := 0x800000000000.
