(* ===== verification/LocApi.v ===== *)
(** * LocApiV02 : the geofence requests to the modem, and what modem reports become.

    The operations of LocApiV02.cpp that the geofence adapter calls, and the expansion of a
    batched breach or dwell indication into the list of breached geofences. Every operation
    runs on the message task of the API: it builds a QMI request, sends it synchronously
    (LOC_SEND_SYNC_REQ, whose waiting half is the file SyncReq) and turns the answer into a
    LocationError. The modem is a parameter: its answer may depend on all the requests it
    has received. Doubles and floats are values of the standard library's [spec_float]
    (binary64 and binary32, round to nearest even), whose operations compute. *)
From Stdlib Require Import SpecFloat.
From S2P Require Import Prelude PbEnums.
Local Open Scope Z_scope.

(** ** Floating point *)
Definition double : Type := spec_float.
Definition float : Type := spec_float.
Definition d_of_Z (z : Z) : double := binary_normalize 53 1024 z 0 false.
Definition d_zero : double := S754_zero false.
Definition d_le (a b : double) : bool := SFleb a b.
Definition d_mul (a b : double) : double := SFmul 53 1024 a b.
Definition f_mul (a b : float) : float := SFmul 24 128 a b.
Definition f_add (a b : float) : float := SFadd 24 128 a b.
Definition f_sqrt (a : float) : float := SFsqrt 24 128 a.

(** The implicit conversion of a float to a double, which is exact. *)
Definition d_of_float (a : float) : double :=
  match a with
  | S754_finite s m e => binary_normalize 53 1024 (if s then Zneg m else Zpos m) e s
  | _ => a
  end.

(** ** The enumerations of the QMI location service that the requests use *)
Inductive qmiLocStatusEnumT_v02 :=
  | eQMI_LOC_SUCCESS_V02 | eQMI_LOC_GENERAL_FAILURE_V02 | eQMI_LOC_UNSUPPORTED_V02
  | eQMI_LOC_INVALID_PARAMETER_V02 | eQMI_LOC_ENGINE_BUSY_V02 | eQMI_LOC_PHONE_OFFLINE_V02
  | eQMI_LOC_TIMEOUT_V02 | eQMI_LOC_CONFIG_NOT_SUPPORTED_V02 | eQMI_LOC_INSUFFICIENT_MEMORY_V02
  | eQMI_LOC_MAX_GEOFENCE_PROGRAMMED_V02 | eQMI_LOC_XTRA_VERSION_CHECK_FAILURE_V02
  | eQMI_LOC_GNSS_DISABLED_V02.
Inductive qmiLocGeofenceStateEnumT_v02 :=
  | eQMI_LOC_GEOFENCE_STATE_ACTIVE_V02 | eQMI_LOC_GEOFENCE_STATE_SUSPEND_V02.
Inductive qmiLocGeofenceResponsivenessEnumT_v02 :=
  | eQMI_LOC_GEOFENCE_RESPONSIVENESS_LOW_V02 | eQMI_LOC_GEOFENCE_RESPONSIVENESS_MED_V02
  | eQMI_LOC_GEOFENCE_RESPONSIVENESS_HIGH_V02 | eQMI_LOC_GEOFENCE_RESPONSIVENESS_ULTRA_HIGH_V02
  | eQMI_LOC_GEOFENCE_RESPONSIVENESS_CUSTOM_V02.
Inductive qmiLocGeofenceConfidenceEnumT_v02 :=
  | eQMI_LOC_GEOFENCE_CONFIDENCE_LOW_V02 | eQMI_LOC_GEOFENCE_CONFIDENCE_MED_V02
  | eQMI_LOC_GEOFENCE_CONFIDENCE_HIGH_V02.
Inductive qmiLocBatchingTypeEnumT_v02 :=
  | eQMI_LOC_LOCATION_BATCHING_V02 | eQMI_LOC_OUTDOOR_TRIP_BATCHING_V02.
Inductive qmiLocAccuracyLevelEnumT_v02 :=
  | eQMI_LOC_ACCURACY_LOW_V02 | eQMI_LOC_ACCURACY_MED_V02 | eQMI_LOC_ACCURACY_HIGH_V02.
Inductive qmiLocOperModeEnumT_v02 :=
  | eQMI_LOC_OPER_MODE_DEFAULT_V02 | eQMI_LOC_OPER_MODE_MSB_V02 | eQMI_LOC_OPER_MODE_MSA_V02
  | eQMI_LOC_OPER_MODE_STANDALONE_V02 | eQMI_LOC_OPER_MODE_CELL_ID_V02 | eQMI_LOC_OPER_MODE_WWAN_V02.
Inductive qmiLocFixRecurrenceEnumT_v02 := eQMI_LOC_RECURRENCE_PERIODIC_V02 | eQMI_LOC_RECURRENCE_SINGLE_V02.
Inductive qmiLocAltitudeAssumedEnumT_v02 :=
  | eQMI_LOC_ALTITUDE_ASSUMED_IN_GNSS_SV_INFO_ENABLED_V02
  | eQMI_LOC_ALTITUDE_ASSUMED_IN_GNSS_SV_INFO_DISABLED_V02.
Inductive qmiLocPowerModeEnumT_v02 :=
  | QMILOCPOWERMODEENUMT_MIN_ENUM_VAL_V02 | eQMI_LOC_POWER_MODE_IMPROVED_ACCURACY_V02
  | eQMI_LOC_POWER_MODE_NORMAL_V02 | eQMI_LOC_POWER_MODE_BACKGROUND_DEFINED_POWER_V02
  | eQMI_LOC_POWER_MODE_BACKGROUND_DEFINED_TIME_V02 | eQMI_LOC_POWER_MODE_BACKGROUND_KEEP_WARM_V02.
Inductive qmiLocGeofenceBreachTypeEnumT_v02 :=
  | eQMI_LOC_GEOFENCE_BREACH_TYPE_ENTERING_V02 | eQMI_LOC_GEOFENCE_BREACH_TYPE_LEAVING_V02.
Inductive qmiLocGeofenceDwellTypeEnumT_v02 :=
  | eQMI_LOC_GEOFENCE_DWELL_TYPE_INSIDE_V02 | eQMI_LOC_GEOFENCE_DWELL_TYPE_OUTSIDE_V02.
Inductive qmiLocGeofenceGenAlertEnumT_v02 :=
  | eQMI_LOC_GEOFENCE_GEN_ALERT_GNSS_UNAVAILABLE_V02 | eQMI_LOC_GEOFENCE_GEN_ALERT_GNSS_AVAILABLE_V02
  | eQMI_LOC_GEOFENCE_GEN_ALERT_OOS_V02 | eQMI_LOC_GEOFENCE_GEN_ALERT_TIME_INVALID_V02.

#[export] Instance qmiLocStatus_eq : EqDecision qmiLocStatusEnumT_v02.
Proof. solve_decision. Defined.
#[export] Instance LocationError_eq : EqDecision LocationError.
Proof. solve_decision. Defined.
#[export] Instance BatchingMode_eq : EqDecision BatchingMode.
Proof. solve_decision. Defined.

Inductive GeofenceBreachType :=
  | GEOFENCE_BREACH_ENTER | GEOFENCE_BREACH_EXIT | GEOFENCE_BREACH_DWELL_IN
  | GEOFENCE_BREACH_DWELL_OUT | GEOFENCE_BREACH_UNKNOWN.
Inductive GeofenceStatusAvailable := GEOFENCE_STATUS_AVAILABILE_NO | GEOFENCE_STATUS_AVAILABILE_YES.

Definition QMI_LOC_GEOFENCE_BREACH_ENTERING_MASK_V02 : Z := 1.
Definition QMI_LOC_GEOFENCE_BREACH_LEAVING_MASK_V02 : Z := 2.
Definition QMI_LOC_GEOFENCE_DWELL_TYPE_INSIDE_MASK_V02 : Z := 1.
Definition QMI_LOC_GEOFENCE_DWELL_TYPE_OUTSIDE_MASK_V02 : Z := 2.

(** ** The data of the requests. A field with a validity flag is an option. *)
Record GeofenceOption := { breachTypeMask : Z; responsiveness : Z; dwellTime : Z }.
Record GeofenceInfo := { gi_latitude : double; gi_longitude : double; gi_radius : double }.

Record qmiLocAddCircularGeofenceReq := {
  add_breachMask : Z;
  add_confidence : option qmiLocGeofenceConfidenceEnumT_v02;
  add_customResponsivenessValue : option Z;
  add_dwellTime : option Z;
  add_dwellTypeMask : option Z;
  add_latitude : double; add_longitude : double; add_radius : double;
  add_includePosition : bool;
  add_transactionId : Z }.

Record qmiLocEditGeofenceReq := {
  edit_geofenceId : Z;
  edit_transactionId : Z;
  edit_geofenceState : option qmiLocGeofenceStateEnumT_v02;
  edit_breachMask : option Z;
  edit_responsiveness : option qmiLocGeofenceResponsivenessEnumT_v02 }.

Record qmiLocStartBatchingReq := {
  sb_minInterval : option Z; sb_minDistance : option Z;
  sb_horizontalAccuracyLevel : option qmiLocAccuracyLevelEnumT_v02;
  sb_fixSessionTimeout : option Z; sb_requestId : option Z; sb_batchAllPos : option bool }.

Record qmiLocStartOutdoorTripBatchingReq := {
  ot_batchDistance : Z; ot_minTimeInterval : Z; ot_batchAllPos : option bool;
  ot_fixSessionTimeout : option Z }.

Record qmiLocStartReq := {
  sr_sessionId : Z;
  sr_minInterval : option Z; sr_minIntermediatePositionReportInterval : option Z;
  sr_horizontalAccuracyLevel : option qmiLocAccuracyLevelEnumT_v02;
  sr_fixRecurrence : option qmiLocFixRecurrenceEnumT_v02;
  sr_configAltitudeAssumed : option qmiLocAltitudeAssumedEnumT_v02;
  sr_powerMode : option (qmiLocPowerModeEnumT_v02 * Z) }.   (* the mode and timeBetweenMeasurement *)

Inductive Request :=
  | AddCircularGeofence (r : qmiLocAddCircularGeofenceReq)
  | DeleteGeofence (geofenceId transactionId : Z)
  | EditGeofence (r : qmiLocEditGeofenceReq)
  | SetOperationMode (operationMode : qmiLocOperModeEnumT_v02)
  | GetBatchSize (transactionId batchSize : Z) (batchType : option qmiLocBatchingTypeEnumT_v02)
  | ReleaseBatch (transactionId : Z) (batchType : option qmiLocBatchingTypeEnumT_v02)
  | StartBatching (r : qmiLocStartBatchingReq)
  | StopBatching (requestId : option Z) (batchType : option qmiLocBatchingTypeEnumT_v02)
  | StartOutdoorTripBatching (r : qmiLocStartOutdoorTripBatchingReq)
  | ReadFromBatch (numberOfEntries transactionId : Z) (batchType : option qmiLocBatchingTypeEnumT_v02)
  | QueryOTBAccumulatedDistance
  | RegEvents (eventRegMask : Z)
  | NotifyWifiStatusAvailable
  | SetGNSSConstRepConfig (measReportConfig svPolyReportConfig : Z)
  | Start (r : qmiLocStartReq)
  | Stop (sessionId : Z)
  | StartDbt (reqId minDistance maxLatency : Z)
  | StopDbt (reqId : Z)
  | SetNmeaTypes (nmeaSentenceType : Z)
  | ClientOpen               (* locClientOpen, of the client library: whether there is a connection *)
  | SupportMsgCheck          (* locClientSupportMsgCheck *)
  | ModemRestart.            (* not a request: the modem has restarted, and lost its sessions *)

Record qmiLocBatchedReportStruct := {
  br_validFields : Z; br_latitude : double; br_longitude : double; br_horUncCircular : float;
  br_speedHorizontal : float; br_speedUnc : float; br_altitudeWrtEllipsoid : float;
  br_heading : float; br_headingUnc : float; br_technologyMask : Z; br_timestampUtc : Z;
  br_vertUnc : float }.

(** The fields of the indications that the code reads. The requests of an indication that
    does not carry a field leave it as memset does. *)
Record Ind := {
  status : qmiLocStatusEnumT_v02;
  geofenceId : option Z;
  ind_batchSize : Z;
  ind_numberOfEntries : option Z;
  batchedReportList : option (list qmiLocBatchedReportStruct);
  ind_accumulatedDistance : Z;
  ind_batchedPosition : Z }.

(** ** The state of the API, and its conversation with the modem *)
Record Location := {
  flags : Z; timestamp : Z; latitude : double; longitude : double; altitude : double;
  speed : float; bearing : float; accuracy : float; verticalAccuracy : float;
  speedAccuracy : float; bearingAccuracy : float; techMask : Z }.

(** memset(&location, 0, sizeof(Location)) *)
Definition Location_zero : Location :=
  {| flags := 0; timestamp := 0; latitude := d_zero; longitude := d_zero; altitude := d_zero;
     speed := d_zero; bearing := d_zero; accuracy := d_zero; verticalAccuracy := d_zero;
     speedAccuracy := d_zero; bearingAccuracy := d_zero; techMask := 0 |}.

(** What the API hands up to the adapters. *)
Inductive Report :=
  | reportLocations (locations : list Location) (count : Z) (batchingMode : BatchingMode)
  | reportCompletedTrips (accumulatedDistance : Z).

(** What the API knows of the tracking session and of the events it has registered for.
    [mMaster] is isMaster(), which depends on the adapters the API was given; [calResets] counts
    the resets of mPositionElapsedRealTimeCal and mMeasElapsedRealTimeCal, [mGnssMeasurements] is
    whether that buffer is allocated, and [clientHandle] whether the handle is valid. *)
Inductive GnssPowerMode :=
  | GNSS_POWER_MODE_INVALID | GNSS_POWER_MODE_M1 | GNSS_POWER_MODE_M2 | GNSS_POWER_MODE_M3
  | GNSS_POWER_MODE_M4 | GNSS_POWER_MODE_M5.
#[export] Instance GnssPowerMode_eq : EqDecision GnssPowerMode.
Proof. solve_decision. Defined.
Record Session := mkSession {
  mMask : Z; mQmiMask : Z; mExcludedMask : Z; mMaster : bool; mMasterRegisterNotSupported : bool;
  mInSession : bool; mMeasurementsStarted : bool; mEngineOn : bool; mPowerMode : GnssPowerMode;
  mMinInterval : Z; mIsFirstFinalFixReported : bool; mGnssMeasurements : bool; calResets : nat;
  mNmeaMask : Z; clientHandle : bool }.

Record ApiState := {
  mBatchSize : Z; mDesiredBatchSize : Z; mTripBatchSize : Z; mDesiredTripBatchSize : Z;
  session : Session;
  requests : list Request;
  reports : list Report }.

(** The constructor of LocApiV02, for an API with the bits of [excluded] masked out. *)
Definition session_init (excluded : Z) (master : bool) : Session :=
  mkSession 0 0 excluded master false false false false GNSS_POWER_MODE_INVALID 1000 false false 0 0 false.
Definition api_init (excluded : Z) (master : bool) : ApiState :=
  {| mBatchSize := 0; mDesiredBatchSize := 0; mTripBatchSize := 0; mDesiredTripBatchSize := 0;
     session := session_init excluded master; requests := []; reports := [] |}.
(** An API that has been opened, for no event. *)
Definition api_opened (excluded : Z) (master : bool) : ApiState :=
  {| mBatchSize := 0; mDesiredBatchSize := 0; mTripBatchSize := 0; mDesiredTripBatchSize := 0;
     session := mkSession 0 0 excluded master false false false false GNSS_POWER_MODE_INVALID 1000 false false 0 0 true;
     requests := []; reports := [] |}.

(** The events that the modem was last registered for. *)
Definition note_events (m : Z) (r : Request) : Z :=
  match r with RegEvents q => q | ModemRestart => 0 | _ => m end.
Definition modem_events (l : list Request) : Z := foldl note_events 0 l.
Lemma modem_events_snoc l r : modem_events (l ++ [r]) = note_events (modem_events l) r.
Proof. unfold modem_events. by rewrite foldl_snoc. Qed.

(** The modem with the client library in front of it, which refuses what is sent without a
    connection: the answer to the last request of a conversation, that is whether locSyncSendReq
    returned eLOC_CLIENT_SUCCESS, and the indication. *)
Definition Modem : Type := list Request → bool * Ind.

Section LocApiV02.
Context (modem : Modem).

Definition send_request (r : Request) (s : ApiState) : ApiState :=
  {| mBatchSize := mBatchSize s; mDesiredBatchSize := mDesiredBatchSize s;
     mTripBatchSize := mTripBatchSize s; mDesiredTripBatchSize := mDesiredTripBatchSize s;
     session := session s; requests := requests s ++ [r]; reports := reports s |}.

(** LOC_SEND_SYNC_REQ: [rv] and [ind]. *)
Definition LOC_SEND_SYNC_REQ (r : Request) : M ApiState (bool * Ind) :=
  _ ← modify (send_request r);
  '(st, ind) ← gets (λ s, modem (requests s));
  mret (st && bool_decide (status ind = eQMI_LOC_SUCCESS_V02), ind).

(** ** Geofences *)
Definition has_bit {T} `{CEnum T} (mask : Z) (b : T) : bool := negb (Z.land mask (value b) =? 0).

Definition geofence_breachMask (mask : Z) : Z :=
  let m := if has_bit mask GEOFENCE_BREACH_ENTER_BIT
           then Z.lor 0 QMI_LOC_GEOFENCE_BREACH_ENTERING_MASK_V02 else 0 in
  if has_bit mask GEOFENCE_BREACH_EXIT_BIT
  then Z.lor m QMI_LOC_GEOFENCE_BREACH_LEAVING_MASK_V02 else m.

Definition UINT16_MAX : Z := 65535.

(** The request that addGeofence builds. *)
Definition addGeofence_req (clientId : Z) (options : GeofenceOption) (info : GeofenceInfo)
    : qmiLocAddCircularGeofenceReq :=
  {| add_breachMask := geofence_breachMask (breachTypeMask options);
     add_confidence := Some eQMI_LOC_GEOFENCE_CONFIDENCE_HIGH_V02;
     add_customResponsivenessValue :=
       Some (if responsiveness options <? 1000 then 1
             else Z.min (responsiveness options / 1000) UINT16_MAX);
     add_dwellTime := if 0 <? dwellTime options then Some (dwellTime options) else None;
     add_dwellTypeMask :=
       if 0 <? dwellTime options
       then Some (
         let m := if has_bit (breachTypeMask options) GEOFENCE_BREACH_DWELL_IN_BIT
                  then Z.lor 0 QMI_LOC_GEOFENCE_DWELL_TYPE_INSIDE_MASK_V02 else 0 in
         if has_bit (breachTypeMask options) GEOFENCE_BREACH_DWELL_OUT_BIT
         then Z.lor m QMI_LOC_GEOFENCE_DWELL_TYPE_OUTSIDE_MASK_V02 else m)
       else None;
     add_latitude := gi_latitude info; add_longitude := gi_longitude info;
     add_radius := gi_radius info;
     add_includePosition := true;
     add_transactionId := clientId |}.

(** addGeofence: the error and, in the data of the response, the identifier of the geofence;
    [None] is the uninitialised [data.hwId] of a failed request. *)
Definition addGeofence (clientId : Z) (options : GeofenceOption) (info : GeofenceInfo)
    : M ApiState (LocationError * option Z) :=
  '(rv, ind) ← LOC_SEND_SYNC_REQ (AddCircularGeofence (addGeofence_req clientId options info));
  mret match rv, geofenceId ind with
       | true, Some id => (LOCATION_ERROR_SUCCESS, Some id)
       | _, _ => (if decide (status ind = eQMI_LOC_MAX_GEOFENCE_PROGRAMMED_V02)
                  then LOCATION_ERROR_GEOFENCES_AT_MAX else LOCATION_ERROR_GENERAL_FAILURE, None)
       end.

Definition rv_error (rv : bool) : LocationError :=
  if rv then LOCATION_ERROR_SUCCESS else LOCATION_ERROR_GENERAL_FAILURE.

Definition removeGeofence (hwId clientId : Z) : M ApiState LocationError :=
  '(rv, _) ← LOC_SEND_SYNC_REQ (DeleteGeofence hwId clientId);
  mret (rv_error rv).

Definition pauseGeofence (hwId clientId : Z) : M ApiState LocationError :=
  '(rv, _) ← LOC_SEND_SYNC_REQ (EditGeofence
     {| edit_geofenceId := hwId; edit_transactionId := clientId;
        edit_geofenceState := Some eQMI_LOC_GEOFENCE_STATE_SUSPEND_V02;
        edit_breachMask := None; edit_responsiveness := None |});
  mret (rv_error rv).

Definition resumeGeofence (hwId clientId : Z) : M ApiState LocationError :=
  '(rv, _) ← LOC_SEND_SYNC_REQ (EditGeofence
     {| edit_geofenceId := hwId; edit_transactionId := clientId;
        edit_geofenceState := Some eQMI_LOC_GEOFENCE_STATE_ACTIVE_V02;
        edit_breachMask := None; edit_responsiveness := None |});
  mret (rv_error rv).

Definition GF_RESPONSIVENESS_THRESHOLD_MSEC_HIGH : Z := 120000.
Definition GF_RESPONSIVENESS_THRESHOLD_MSEC_MEDIUM : Z := 900000.

Definition geofence_responsiveness (r : Z) : qmiLocGeofenceResponsivenessEnumT_v02 :=
  if r <=? GF_RESPONSIVENESS_THRESHOLD_MSEC_HIGH then eQMI_LOC_GEOFENCE_RESPONSIVENESS_HIGH_V02
  else if r <=? GF_RESPONSIVENESS_THRESHOLD_MSEC_MEDIUM then eQMI_LOC_GEOFENCE_RESPONSIVENESS_MED_V02
  else eQMI_LOC_GEOFENCE_RESPONSIVENESS_LOW_V02.

Definition modifyGeofence (hwId clientId : Z) (options : GeofenceOption) : M ApiState LocationError :=
  '(rv, _) ← LOC_SEND_SYNC_REQ (EditGeofence
     {| edit_geofenceId := hwId; edit_transactionId := clientId; edit_geofenceState := None;
        edit_breachMask := Some (geofence_breachMask (breachTypeMask options));
        edit_responsiveness := Some (geofence_responsiveness (responsiveness options)) |});
  mret (rv_error rv).
End LocApiV02.

(** ** Breach and dwell reports *)

(** The conversions of a breach, dwell and status indication. An enumerator outside the
    switch takes the default branch. *)
Definition breach_type (t : option qmiLocGeofenceBreachTypeEnumT_v02) : GeofenceBreachType :=
  match t with
  | Some eQMI_LOC_GEOFENCE_BREACH_TYPE_ENTERING_V02 => GEOFENCE_BREACH_ENTER
  | Some eQMI_LOC_GEOFENCE_BREACH_TYPE_LEAVING_V02 => GEOFENCE_BREACH_EXIT
  | None => GEOFENCE_BREACH_UNKNOWN
  end.

Definition dwell_type (t : option qmiLocGeofenceDwellTypeEnumT_v02) : GeofenceBreachType :=
  match t with
  | Some eQMI_LOC_GEOFENCE_DWELL_TYPE_INSIDE_V02 => GEOFENCE_BREACH_DWELL_IN
  | Some eQMI_LOC_GEOFENCE_DWELL_TYPE_OUTSIDE_V02 => GEOFENCE_BREACH_DWELL_OUT
  | None => GEOFENCE_BREACH_UNKNOWN
  end.

(** geofenceStatusEvent: [None] is the early return. *)
Definition geofenceStatusEvent (alert : option qmiLocGeofenceGenAlertEnumT_v02)
    : option GeofenceStatusAvailable :=
  match alert with
  | Some eQMI_LOC_GEOFENCE_GEN_ALERT_GNSS_UNAVAILABLE_V02 => Some GEOFENCE_STATUS_AVAILABILE_NO
  | Some eQMI_LOC_GEOFENCE_GEN_ALERT_GNSS_AVAILABLE_V02 => Some GEOFENCE_STATUS_AVAILABILE_YES
  | _ => None
  end.

Record qmiLocGeofencePosition := {
  gp_timestampUtc : Z; gp_latitude : double; gp_longitude : double;
  gp_horUncEllipseSemiMinor : float; gp_horUncEllipseSemiMajor : float;
  gp_speedHorizontal : option float; gp_altitudeWrtEllipsoid : float;
  gp_heading : option float }.

(** .000005364418 as a binary64 number. *)
Definition LAT_LONG_TO_RADIANS : double := S754_finite false 6333186940825654 (-70).

Definition in_degrees (lat lon : double) : bool :=
  d_le (d_of_Z (-90)) lat && d_le lat (d_of_Z 90) &&
  d_le (d_of_Z (-180)) lon && d_le lon (d_of_Z 180).

(** The [location] of a report: with [tech] the technology bit that the breach events set
    and the dwell event does not. *)
Definition geofence_location (tech : bool) (p : option qmiLocGeofencePosition) : Location :=
  match p with
  | None => Location_zero
  | Some g =>
      let ok := in_degrees (gp_latitude g) (gp_longitude g) in
      let f0 := Z.lor 0 (value LOCATION_HAS_LAT_LONG_BIT) in
      let f1 := Z.lor f0 (value LOCATION_HAS_ALTITUDE_BIT) in
      let f2 := match gp_speedHorizontal g with
                | Some _ => Z.lor f1 (value LOCATION_HAS_SPEED_BIT) | None => f1 end in
      let f3 := match gp_heading g with
                | Some _ => Z.lor f2 (value LOCATION_HAS_BEARING_BIT) | None => f2 end in
      {| flags := Z.lor f3 (value LOCATION_HAS_ACCURACY_BIT);
         timestamp := gp_timestampUtc g;
         latitude := if ok then gp_latitude g else d_mul (gp_latitude g) LAT_LONG_TO_RADIANS;
         longitude := if ok then gp_longitude g else d_mul (gp_longitude g) LAT_LONG_TO_RADIANS;
         altitude := d_of_float (gp_altitudeWrtEllipsoid g);
         speed := default d_zero (gp_speedHorizontal g);
         bearing := default d_zero (gp_heading g);
         accuracy := f_sqrt (f_add
           (f_mul (gp_horUncEllipseSemiMinor g) (gp_horUncEllipseSemiMinor g))
           (f_mul (gp_horUncEllipseSemiMajor g) (gp_horUncEllipseSemiMajor g)));
         verticalAccuracy := d_zero; speedAccuracy := d_zero; bearingAccuracy := d_zero;
         techMask := if tech then value LOCATION_TECHNOLOGY_GNSS_BIT else 0 |}
  end.

(** A range of the continuous list of geofence identifiers. *)
Record qmiLocGeofenceIdContinuousStruct := { idLow : Z; idHigh : Z }.

(** The number of identifiers: [idHigh - idLow + 1] is a uint32_t, the sum a size_t. *)
Definition breach_count (discrete : list Z) (continuous : list qmiLocGeofenceIdContinuousStruct) : Z :=
  foldl (λ count c, uwrap 64 (count + uwrap 32 (idHigh c - idLow c + 1)))
        (Z.of_nat (length discrete)) continuous.

(** The array being filled ([None] is an element not yet written) and the index. *)
Definition Fill : Type := list (option Z) * Z.

(** if (index < count) { hwIds[index++] = j; } *)
Definition put_id (count : Z) (j : Z) : M Fill unit := λ '(hwIds, index),
  if index <? count
  then if decide (Z.to_nat index < length hwIds)%nat
       then Done tt (<[Z.to_nat index := Some j]> hwIds, uwrap 32 (index + 1))
       else UB
  else Done tt (hwIds, index).

Fixpoint discrete_loop (count : Z) (ids : list Z) : M Fill unit :=
  match ids with
  | [] => mret tt
  | j :: ids => _ ← put_id count j; discrete_loop count ids
  end.

(** for (uint32_t j = idLow; j <= idHigh; j++) *)
Fixpoint range_loop (fuel : nat) (count j high : Z) : M Fill unit :=
  match fuel with
  | O => nofuel
  | S fuel =>
      if j <=? high then _ ← put_id count j; range_loop fuel count (uwrap 32 (j + 1)) high
      else mret tt
  end.

Fixpoint continuous_loop (fuel : nat) (count : Z) (l : list qmiLocGeofenceIdContinuousStruct)
    : M Fill unit :=
  match l with
  | [] => mret tt
  | c :: l => _ ← range_loop fuel count (idLow c) (idHigh c); continuous_loop fuel count l
  end.

(** The identifiers of a batched indication: an empty indication reports nothing. *)
Definition breach_hwIds (fuel : nat) (discrete : option (list Z))
    (continuous : option (list qmiLocGeofenceIdContinuousStruct)) : M Fill unit :=
  let d := default [] discrete in
  let c := default [] continuous in
  let count := breach_count d c in
  if count =? 0 then mret tt
  else
    _ ← put (replicate (Z.to_nat count) None, 0);
    _ ← discrete_loop count d;
    continuous_loop fuel count c.

(** geofenceBreachEvent and geofenceDwellEvent on a batched indication: what is handed to
    geofenceBreach, where [hwIds] lists the whole array. *)
Definition batchedEvent (fuel : nat) (discrete : option (list Z))
    (continuous : option (list qmiLocGeofenceIdContinuousStruct)) : outcome Fill (option (list (option Z))) :=
  match breach_hwIds fuel discrete continuous ([], 0) with
  | Done _ (hwIds, index) =>
      Done (if breach_count (default [] discrete) (default [] continuous) =? 0
            then None else Some hwIds) (hwIds, index)
  | UB => UB
  | NoFuel => NoFuel
  end.

(** *** What the expansion yields *)
Definition range_ids (c : qmiLocGeofenceIdContinuousStruct) : list Z :=
  seqZ (idLow c) (idHigh c - idLow c + 1).

(** A range that goes up and stops before the largest uint32_t. *)
Definition range_wf (c : qmiLocGeofenceIdContinuousStruct) : Prop :=
  0 ≤ idLow c ≤ idHigh c ∧ idHigh c < 2 ^ 32 - 1.

(** [hwIds] has been filled with [done], and [k] more elements remain. *)
Definition filled (count : Z) (ids : list Z) (k : nat) (f : Fill) : Prop :=
  f = ((Some <$> ids) ++ replicate k None, Z.of_nat (length ids)) ∧
  count = Z.of_nat (length ids + k) ∧ count < 2 ^ 32.

Lemma put_id_filled count ids k j f :
  filled count ids (S k) f → ∃ f', put_id count j f = Done tt f' ∧ filled count (ids ++ [j]) k f'.
Proof.
  intros (-> & Hc & Hlt). unfold put_id. rewrite Nat2Z.id.
  rewrite (proj2 (Z.ltb_lt _ _)) by lia. rewrite decide_True by (rewrite length_app, length_fmap, length_replicate; lia).
  eexists; split; [reflexivity|]. unfold filled. rewrite length_app, fmap_app. simpl. split_and!; try lia.
  f_equal.
  - rewrite <-(Nat.add_0_r (length ids)), <-(length_fmap Some ids).
    rewrite insert_app_r. simpl. by rewrite <-app_assoc.
  - rewrite uwrap_small; lia.
Qed.

Lemma discrete_filled count l ids k f :
  filled count ids (length l + k) f →
  ∃ f', discrete_loop count l f = Done tt f' ∧ filled count (ids ++ l) k f'.
Proof.
  revert ids f. induction l as [|j l IH]; intros ids f Hf; simpl.
  { exists f. by rewrite app_nil_r. }
  destruct (put_id_filled _ _ _ j _ Hf) as (f1 & E1 & H1).
  rewrite (bind_done _ _ _ _ _ E1). destruct (IH _ _ H1) as (f' & E' & H').
  exists f'. split; [done|]. by rewrite <-app_assoc in H'.
Qed.

Lemma range_filled fuel count low high ids k f :
  0 ≤ low → high < 2 ^ 32 - 1 → (Z.to_nat (high - low + 1) < fuel)%nat →
  filled count ids (Z.to_nat (high - low + 1) + k) f →
  ∃ f', range_loop fuel count low high f = Done tt f' ∧
        filled count (ids ++ seqZ low (high - low + 1)) k f'.
Proof.
  revert low ids f. induction fuel as [|fuel IH]; intros low ids f H0 Hh Hfuel Hf; [lia|].
  simpl. destruct (Z.leb_spec low high) as [Hle|Hgt]; cycle 1.
  { exists f. split; [done|]. rewrite seqZ_nil by lia. rewrite app_nil_r.
    by replace (Z.to_nat (high - low + 1) + k)%nat with k in Hf by lia. }
  replace (Z.to_nat (high - low + 1) + k)%nat
    with (S (Z.to_nat (high - (low + 1) + 1) + k)) in Hf by lia.
  destruct (put_id_filled _ _ _ low _ Hf) as (f1 & E1 & H1).
  rewrite (bind_done _ _ _ _ _ E1). rewrite uwrap_small by lia.
  destruct (IH (low + 1) _ f1 ltac:(lia) Hh ltac:(lia) H1) as (f' & E' & H').
  exists f'. split; [done|]. rewrite seqZ_cons by lia.
  replace (Z.succ low) with (low + 1) by lia.
  replace (Z.pred (high - low + 1)) with (high - (low + 1) + 1) by lia.
  by rewrite <-app_assoc in H'.
Qed.

Lemma continuous_filled fuel count l ids k f :
  Forall range_wf l → Forall (λ c, (Z.to_nat (idHigh c - idLow c + 1) < fuel)%nat) l →
  filled count ids (length (l ≫= range_ids) + k) f →
  ∃ f', continuous_loop fuel count l f = Done tt f' ∧ filled count (ids ++ l ≫= range_ids) k f'.
Proof.
  intros Hwf. revert ids f. induction Hwf as [|c l [Hc1 Hc2] Hwf IH]; intros ids f Hfuel Hf; simpl.
  { exists f. by rewrite app_nil_r. }
  apply Forall_cons in Hfuel as [Hc Hfuel].
  rewrite bind_cons, length_app, <-Nat.add_assoc in Hf. unfold range_ids in Hf at 1.
  rewrite length_seqZ in Hf.
  destruct (range_filled fuel count _ _ _ _ _ (proj1 Hc1) Hc2 Hc Hf) as (f1 & E1 & H1).
  rewrite (bind_done _ _ _ _ _ E1). destruct (IH _ _ Hfuel H1) as (f' & E' & H').
  exists f'. split; [done|]. by rewrite <-app_assoc in H'.
Qed.

Lemma breach_count_ranges d l n :
  Forall range_wf l → n = Z.of_nat (length d) → n + Z.of_nat (length (l ≫= range_ids)) < 2 ^ 64 →
  foldl (λ count c, uwrap 64 (count + uwrap 32 (idHigh c - idLow c + 1))) n l
  = Z.of_nat (length (d ++ l ≫= range_ids)).
Proof.
  intros Hwf ->. revert d. induction Hwf as [|c l [Hc1 Hc2] Hwf IH]; intros d Hlt.
  { simpl. by rewrite app_nil_r. }
  rewrite bind_cons in *. rewrite length_app in Hlt. simpl.
  rewrite (uwrap_small 32) by lia.
  assert (Hlen : Z.of_nat (length (range_ids c)) = idHigh c - idLow c + 1)
    by (unfold range_ids; rewrite length_seqZ; lia).
  rewrite uwrap_small by lia.
  replace (Z.of_nat (length d) + (idHigh c - idLow c + 1)) with (Z.of_nat (length (d ++ range_ids c)))
    by (rewrite length_app; lia).
  rewrite IH by (rewrite length_app; lia). f_equal. by rewrite <-app_assoc.
Qed.

(** A batched breach or dwell indication with upward ranges that end below the largest
    uint32_t is expanded, with fuel for the longest range, into exactly the discrete
    identifiers followed by the ranges in order: every element of the array handed to
    geofenceBreach is written, none is written outside it, and the loops end. *)
Theorem breach_expands fuel discrete continuous :
  Forall range_wf continuous →
  Forall (λ c, (Z.to_nat (idHigh c - idLow c + 1) < fuel)%nat) continuous →
  Z.of_nat (length (discrete ++ continuous ≫= range_ids)) < 2 ^ 32 →
  outcome_value (batchedEvent fuel (Some discrete) (Some continuous)) =
    Some (if decide (discrete ++ continuous ≫= range_ids = []) then None
          else Some (Some <$> (discrete ++ continuous ≫= range_ids))).
Proof.
  intros Hwf Hfuel Hlt. unfold batchedEvent, breach_hwIds.
  change (default [] (Some discrete)) with discrete. change (default [] (Some continuous)) with continuous.
  assert (Hcount : breach_count discrete continuous
                   = Z.of_nat (length (discrete ++ continuous ≫= range_ids))).
  { apply breach_count_ranges; [done..|]. rewrite length_app in Hlt. lia. }
  rewrite Hcount. case_decide as Hnil.
  { rewrite Hnil. done. }
  rewrite (proj2 (Z.eqb_neq _ 0)) by (destruct (discrete ++ _); [done|simpl; lia]).
  set (n := length _) in *. rewrite Nat2Z.id. cbn beta iota.
  destruct (discrete_filled (Z.of_nat n) discrete [] (length (continuous ≫= range_ids))
              (replicate n None, 0)) as (f1 & E1 & H1).
  { unfold filled, n. rewrite length_app. simpl. split_and!; [done|lia|unfold n in Hlt; rewrite length_app in Hlt; lia]. }
  erewrite (bind_done (put _)); [|reflexivity].
  rewrite (bind_done _ _ _ _ _ E1). rewrite <-(Nat.add_0_r (length _)) in H1.
  destruct (continuous_filled _ _ _ _ _ _ Hwf Hfuel H1) as (f2 & E2 & H2).
  rewrite E2. destruct H2 as (-> & _). simpl. by rewrite app_nil_r.
Qed.

Lemma range_loop_max fuel count j hwIds index :
  0 ≤ j < 2 ^ 32 → count ≤ index →
  range_loop fuel count j (2 ^ 32 - 1) (hwIds, index) = NoFuel.
Proof.
  revert j. induction fuel as [|fuel IH]; intros j Hj Hidx; [done|].
  simpl. rewrite (proj2 (Z.leb_le _ _)) by lia.
  unfold put_id at 1, mbind, M_bind. rewrite (proj2 (Z.ltb_ge _ _)) by lia.
  apply IH; [apply uwrap_range; lia|done].
Qed.

(** The range loop never ends on a range whose last identifier is the largest uint32_t: once
    the array is full the counter wraps from [idHigh] to 0 and starts again. *)
Theorem breach_range_diverges :
  ∀ fuel, batchedEvent fuel None (Some [{| idLow := 2 ^ 32 - 1; idHigh := 2 ^ 32 - 1 |}]) = NoFuel.
Proof.
  intros fuel. unfold batchedEvent, breach_hwIds. change (breach_count _ _) with 1.
  enough (E : range_loop fuel 1 (2 ^ 32 - 1) (2 ^ 32 - 1) ([None], 0) = NoFuel).
  { unfold mbind, M_bind. cbn -[range_loop Z.pow].
    unfold mbind, M_bind. change (replicate (Z.to_nat 1) None) with [@None Z]. by rewrite E. }
  destruct fuel as [|fuel]; [done|]. cbn [range_loop]. rewrite Z.leb_refl.
  apply (range_loop_max fuel 1 _ [Some (2 ^ 32 - 1)]); [by apply uwrap_range|done].
Qed.

Lemma breach_expands_witness :
  outcome_value (batchedEvent 9 (Some [7; 40]) (Some [{| idLow := 10; idHigh := 12 |}])) =
    Some (Some [Some 7; Some 40; Some 10; Some 11; Some 12]).
Proof.
  rewrite (breach_expands 9 [7; 40] [{| idLow := 10; idHigh := 12 |}]);
    [reflexivity|by repeat constructor|repeat constructor; vm_compute; lia|by vm_compute].
Defined.
