(* ===== verification/LocApiBatch.v ===== *)
(** * LocApiV02 : batching.

    The batching requests of LocApiV02.cpp, the loops that read the batched positions out of
    the modem (getBatchedLocationsSync, getBatchedTripLocationsSync) and the handling of a
    batch-full indication. *)
From stdpp Require Import sorting.
From S2P Require Import Prelude PbEnums LocApi.
Local Open Scope Z_scope.

Definition QMI_LOC_READ_FROM_BATCH_MAX_SIZE_V02 : Z := 5.
Definition FLP_BATCHING_MINIMUN_INTERVAL : Z := 1000.
Definition FLP_BATCHING_MIN_TRIP_DISTANCE : Z := 1.

Definition QMI_LOC_BATCHED_REPORT_MASK_VALID_LATITUDE_V02 : Z := 0x1.
Definition QMI_LOC_BATCHED_REPORT_MASK_VALID_LONGITUDE_V02 : Z := 0x2.
Definition QMI_LOC_BATCHED_REPORT_MASK_VALID_HOR_CIR_UNC_V02 : Z := 0x4.
Definition QMI_LOC_BATCHED_REPORT_MASK_VALID_SPEED_HOR_V02 : Z := 0x8.
Definition QMI_LOC_BATCHED_REPORT_MASK_VALID_SPEED_UNC_V02 : Z := 0x10.
Definition QMI_LOC_BATCHED_REPORT_MASK_VALID_ALT_WRT_ELP_V02 : Z := 0x20.
Definition QMI_LOC_BATCHED_REPORT_MASK_VALID_HEADING_V02 : Z := 0x80.
Definition QMI_LOC_BATCHED_REPORT_MASK_VALID_HEADING_UNC_V02 : Z := 0x100.
Definition QMI_LOC_BATCHED_REPORT_MASK_VALID_TECH_MASK_V02 : Z := 0x200.
Definition QMI_LOC_BATCHED_REPORT_MASK_VALID_TIMESTAMP_UTC_V02 : Z := 0x400.
Definition QMI_LOC_BATCHED_REPORT_MASK_VALID_VERT_UNC_V02 : Z := 0x2000.
Definition QMI_LOC_POS_TECH_MASK_SATELLITE_V02 : Z := 1.
Definition QMI_LOC_POS_TECH_MASK_CELLID_V02 : Z := 2.
Definition QMI_LOC_POS_TECH_MASK_WIFI_V02 : Z := 4.
Definition QMI_LOC_POS_TECH_MASK_SENSORS_V02 : Z := 8.

(** Options of a session, as LocationDataTypes.h declares them. [options_size], the field size,
    is 0 when the caller did not fill them in; locReqEngTypeMask, which batching never reads,
    is left out. An enumerator outside BatchingMode is not a value of the type. *)
Record BatchingOptions := {
  options_size : Z; minInterval : Z; minDistance : Z; mode : GnssSuplMode; batchingMode : BatchingMode }.

(** The default constructor. *)
Definition BatchingOptions_default : BatchingOptions :=
  {| options_size := 0; minInterval := 0; minDistance := 0; mode := GNSS_SUPL_MODE_STANDALONE;
     batchingMode := BATCHING_MODE_ROUTINE |}.

Definition test_bits (mask bits : Z) : bool := negb (Z.land mask bits =? 0).

(** One entry of the indication as a Location. *)
Definition location_of_report (r : qmiLocBatchedReportStruct) : Location :=
  let valid b := test_bits (br_validFields r) b in
  let tech b := test_bits b (br_technologyMask r) in
  let flag (b : bool) (bit : LocationFlagsBits) f := if b then Z.lor f (value bit) else f in
  let bit (b : bool) (t : LocationTechnologyBits) m := if b then Z.lor m (value t) else m in
  let latlon := valid QMI_LOC_BATCHED_REPORT_MASK_VALID_LATITUDE_V02 &&
                valid QMI_LOC_BATCHED_REPORT_MASK_VALID_LONGITUDE_V02 in
  let alt := valid QMI_LOC_BATCHED_REPORT_MASK_VALID_ALT_WRT_ELP_V02 in
  let acc := valid QMI_LOC_BATCHED_REPORT_MASK_VALID_HOR_CIR_UNC_V02 in
  let head := valid QMI_LOC_BATCHED_REPORT_MASK_VALID_HEADING_V02 in
  let spd := valid QMI_LOC_BATCHED_REPORT_MASK_VALID_SPEED_HOR_V02 in
  let vunc := valid QMI_LOC_BATCHED_REPORT_MASK_VALID_VERT_UNC_V02 in
  let sunc := valid QMI_LOC_BATCHED_REPORT_MASK_VALID_SPEED_UNC_V02 in
  let hunc := valid QMI_LOC_BATCHED_REPORT_MASK_VALID_HEADING_UNC_V02 in
  {| flags :=
       flag hunc LOCATION_HAS_BEARING_ACCURACY_BIT
      (flag sunc LOCATION_HAS_SPEED_ACCURACY_BIT
      (flag vunc LOCATION_HAS_VERTICAL_ACCURACY_BIT
      (flag spd LOCATION_HAS_SPEED_BIT
      (flag head LOCATION_HAS_BEARING_BIT
      (flag acc LOCATION_HAS_ACCURACY_BIT
      (flag alt LOCATION_HAS_ALTITUDE_BIT
      (flag latlon LOCATION_HAS_LAT_LONG_BIT 0)))))));
     timestamp := if valid QMI_LOC_BATCHED_REPORT_MASK_VALID_TIMESTAMP_UTC_V02
                  then br_timestampUtc r else 0;
     latitude := if latlon then br_latitude r else d_zero;
     longitude := if latlon then br_longitude r else d_zero;
     altitude := if alt then d_of_float (br_altitudeWrtEllipsoid r) else d_zero;
     speed := if spd then br_speedHorizontal r else d_zero;
     bearing := if head then br_heading r else d_zero;
     accuracy := if acc then br_horUncCircular r else d_zero;
     verticalAccuracy := if vunc then br_vertUnc r else d_zero;
     speedAccuracy := if sunc then br_speedUnc r else d_zero;
     bearingAccuracy := if hunc then br_headingUnc r else d_zero;
     techMask := if valid QMI_LOC_BATCHED_REPORT_MASK_VALID_TECH_MASK_V02 then
       bit (tech QMI_LOC_POS_TECH_MASK_SENSORS_V02) LOCATION_TECHNOLOGY_SENSORS_BIT
      (bit (tech QMI_LOC_POS_TECH_MASK_WIFI_V02) LOCATION_TECHNOLOGY_WIFI_BIT
      (bit (tech QMI_LOC_POS_TECH_MASK_CELLID_V02) LOCATION_TECHNOLOGY_CELL_BIT
      (bit (tech QMI_LOC_POS_TECH_MASK_SATELLITE_V02) LOCATION_TECHNOLOGY_GNSS_BIT 0)))
      else 0 |}.

(** An entry of the array that memset left alone. *)
Definition report_zero : qmiLocBatchedReportStruct :=
  {| br_validFields := 0; br_latitude := d_zero; br_longitude := d_zero; br_horUncCircular := d_zero;
     br_speedHorizontal := d_zero; br_speedUnc := d_zero; br_altitudeWrtEllipsoid := d_zero;
     br_heading := d_zero; br_headingUnc := d_zero; br_technologyMask := 0; br_timestampUtc := 0;
     br_vertUnc := d_zero |}.

Definition batch_type_is_routine (m : BatchingMode) : qmiLocBatchingTypeEnumT_v02 :=
  if decide (m = BATCHING_MODE_ROUTINE) then eQMI_LOC_LOCATION_BATCHING_V02
  else eQMI_LOC_OUTDOOR_TRIP_BATCHING_V02.

(** ** Arrays of positions *)

(** The copy of a chunk into the array of a routine batch, from its end downwards; [i] counts
    the entries of the chunk. An index outside the array drops the entry. *)
Fixpoint store_down (total got i : Z) (chunk : list Location) (arr : list Location) : list Location :=
  match chunk with
  | [] => arr
  | x :: chunk =>
      let index := uwrap 64 (total - got - i) in
      let arr := if (index <=? total) && (0 <=? swrap 32 index)
                 then <[Z.to_nat index := x]> arr else arr in
      store_down total got (i + 1) chunk arr
  end.

(** The copy of a chunk into the array of a trip batch, upwards from [idx]. *)
Fixpoint store_up (total idx : Z) (chunk : list Location) (arr : list Location) : list Location :=
  match chunk with
  | [] => arr
  | x :: chunk =>
      let arr := if idx <? total then <[Z.to_nat idx := x]> arr else arr in
      store_up total (idx + 1) chunk arr
  end.

Definition elem (arr : list Location) (i : nat) : Location := default Location_zero (arr !! i).

(** for (size_t j=i; j<entriesToReadInTotal; j++) arr[j] = arr[j+1], [n] iterations. *)
Fixpoint shift_down (n j : nat) (arr : list Location) : list Location :=
  match n with
  | O => arr
  | S n => shift_down n (S j) (<[j := elem arr (S j)]> arr)
  end.

(** The search for the location that is out of order, over the [n] elements before the one
    whose time stamp is [current]: it is moved to the end, index [total]. *)
Fixpoint reorder_loop (n : nat) (current : Z) (total : nat) (arr : list Location) : list Location :=
  match n with
  | O => arr
  | S i =>
      let x := elem arr i in
      if current <? timestamp x
      then <[total := x]> (shift_down (total - i) i arr)
      else reorder_loop i (timestamp x) total arr
  end.

(** The code runs the search on an [int] that starts at [entriesToReadInTotal - 1]. *)
Definition reorder (total : Z) (arr : list Location) : list Location :=
  reorder_loop (Z.to_nat (swrap 32 (total - 1) + 1)) (timestamp (elem arr (Z.to_nat total)))
    (Z.to_nat total) arr.

Definition report (r : Report) (s : ApiState) : ApiState :=
  {| mBatchSize := mBatchSize s; mDesiredBatchSize := mDesiredBatchSize s;
     mTripBatchSize := mTripBatchSize s; mDesiredTripBatchSize := mDesiredTripBatchSize s;
     session := session s; requests := requests s; reports := reports s ++ [r] |}.
Definition set_BatchSize (z : Z) (s : ApiState) : ApiState :=
  {| mBatchSize := z; mDesiredBatchSize := mDesiredBatchSize s;
     mTripBatchSize := mTripBatchSize s; mDesiredTripBatchSize := mDesiredTripBatchSize s;
     session := session s; requests := requests s; reports := reports s |}.
Definition set_TripBatchSize (z : Z) (s : ApiState) : ApiState :=
  {| mBatchSize := mBatchSize s; mDesiredBatchSize := mDesiredBatchSize s;
     mTripBatchSize := z; mDesiredTripBatchSize := mDesiredTripBatchSize s;
     session := session s; requests := requests s; reports := reports s |}.

(** The locations at [arr + offset], [count] of them, are handed to the adapters, which copy
    them: a read outside the array is undefined. *)
Definition report_locations (arr : list Location) (offset count : Z) (m : BatchingMode) : M ApiState unit :=
  if offset + count <=? Z.of_nat (length arr)
  then modify (report (reportLocations (take (Z.to_nat count) (drop (Z.to_nat offset) arr)) count m))
  else ub.

Section Batching.
Context (modem : Modem).
Notation send := (LOC_SEND_SYNC_REQ modem).

Definition setBatchSize (sz : Z) : M ApiState unit := modify (λ s,
  {| mBatchSize := 0; mDesiredBatchSize := sz; mTripBatchSize := mTripBatchSize s;
     mDesiredTripBatchSize := mDesiredTripBatchSize s; session := session s; requests := requests s; reports := reports s |}).

Definition setTripBatchSize (sz : Z) : M ApiState unit := modify (λ s,
  {| mBatchSize := mBatchSize s; mDesiredBatchSize := mDesiredBatchSize s; mTripBatchSize := 0;
     mDesiredTripBatchSize := sz; session := session s; requests := requests s; reports := reports s |}).

(** queryBatchBuffer: the error and the allocated size, which every path writes. *)
Definition queryBatchBuffer (desiredSize : Z) (batchMode : BatchingMode) : M ApiState (LocationError * Z) :=
  let result sz := (if sz =? 0 then LOCATION_ERROR_GENERAL_FAILURE else LOCATION_ERROR_SUCCESS, sz) in
  '(rv, ind) ← send (GetBatchSize 1 (uwrap 32 desiredSize) (Some (batch_type_is_routine batchMode)));
  if rv : bool then mret (result (ind_batchSize ind))
  else if bool_decide (batchMode = BATCHING_MODE_TRIP) &&
          bool_decide (status ind = eQMI_LOC_INVALID_PARAMETER_V02) && (0 <? ind_batchSize ind) then
    '(rv, ind) ← send (GetBatchSize 1 (ind_batchSize ind) (Some (batch_type_is_routine batchMode)));
    if rv : bool then mret (result (ind_batchSize ind))
    else mret (LOCATION_ERROR_GENERAL_FAILURE, 0)
  else mret (LOCATION_ERROR_GENERAL_FAILURE, 0).

Definition releaseBatchBuffer (batchMode : BatchingMode) : M ApiState LocationError :=
  let release t :=
    '(rv, _) ← send (ReleaseBatch 1 (Some t));
    _ ← when rv (modify (set_TripBatchSize 0));
    mret (rv_error rv) in
  match batchMode with
  | BATCHING_MODE_ROUTINE => release eQMI_LOC_LOCATION_BATCHING_V02
  | BATCHING_MODE_TRIP => release eQMI_LOC_OUTDOOR_TRIP_BATCHING_V02
  | _ => mret LOCATION_ERROR_INVALID_PARAMETER
  end.

Definition setOperationMode (m : GnssSuplMode) : M ApiState unit :=
  _ ← send (SetOperationMode
    match m with
    | GNSS_SUPL_MODE_MSB => eQMI_LOC_OPER_MODE_MSB_V02
    | GNSS_SUPL_MODE_MSA => eQMI_LOC_OPER_MODE_MSA_V02
    | _ => eQMI_LOC_OPER_MODE_STANDALONE_V02
    end);
  mret tt.

Definition startBatching_req (sessionId : Z) (options : BatchingOptions) (acc timeout : Z)
    : qmiLocStartBatchingReq :=
  {| sb_minInterval := Some (if FLP_BATCHING_MINIMUN_INTERVAL <=? minInterval options
                             then minInterval options else FLP_BATCHING_MINIMUN_INTERVAL);
     sb_minDistance := Some (minDistance options);
     sb_horizontalAccuracyLevel := Some (
       if acc =? 0 then eQMI_LOC_ACCURACY_LOW_V02 else if acc =? 1 then eQMI_LOC_ACCURACY_MED_V02
       else if acc =? 2 then eQMI_LOC_ACCURACY_HIGH_V02 else eQMI_LOC_ACCURACY_LOW_V02);
     sb_fixSessionTimeout := if 0 <? timeout then Some timeout else None;
     sb_requestId := Some sessionId; sb_batchAllPos := Some true |}.

Definition startBatching (sessionId : Z) (options : BatchingOptions) (acc timeout : Z)
    : M ApiState LocationError :=
  _ ← setOperationMode (mode options);
  sz ← gets mBatchSize;
  ok ← (if sz =? 0 then
          d ← gets mDesiredBatchSize;
          '(err, allocated) ← queryBatchBuffer d BATCHING_MODE_ROUTINE;
          _ ← modify (set_BatchSize allocated);
          mret (bool_decide (err = LOCATION_ERROR_SUCCESS))
        else mret true);
  if ok : bool then
    '(rv, ind) ← send (StartBatching (startBatching_req sessionId options acc timeout));
    mret (if rv : bool then LOCATION_ERROR_SUCCESS
          else if decide (status ind = eQMI_LOC_GNSS_DISABLED_V02) then LOCATION_ERROR_GNSS_DISABLED
          else LOCATION_ERROR_GENERAL_FAILURE)
  else mret LOCATION_ERROR_GENERAL_FAILURE.

Definition stopBatching (sessionId : Z) : M ApiState LocationError :=
  '(rv, _) ← send (StopBatching (Some sessionId) (Some eQMI_LOC_LOCATION_BATCHING_V02));
  mret (rv_error rv).

Definition startOutdoorTripBatchingSync (tripDistance tripTbf timeout : Z) : M ApiState LocationError :=
  sz ← gets mTripBatchSize;
  ok ← (if sz =? 0 then
          d ← gets mDesiredTripBatchSize;
          '(err, allocated) ← queryBatchBuffer d BATCHING_MODE_TRIP;
          _ ← modify (set_TripBatchSize allocated);
          mret (bool_decide (err = LOCATION_ERROR_SUCCESS))
        else mret true);
  if ok : bool then
    '(rv, _) ← send (StartOutdoorTripBatching
      {| ot_batchDistance := if 0 <? tripDistance then tripDistance else FLP_BATCHING_MIN_TRIP_DISTANCE;
         ot_minTimeInterval := if FLP_BATCHING_MINIMUN_INTERVAL <=? tripTbf then tripTbf
                               else FLP_BATCHING_MINIMUN_INTERVAL;
         ot_batchAllPos := Some true;
         ot_fixSessionTimeout := if 0 <? timeout then Some timeout else None |});
    mret (rv_error rv)
  else mret LOCATION_ERROR_GENERAL_FAILURE.

Definition stopOutdoorTripBatchingSync (deallocBatchBuffer : bool) : M ApiState LocationError :=
  '(rv, _) ← send (StopBatching None (Some eQMI_LOC_OUTDOOR_TRIP_BATCHING_V02));
  if rv : bool then
    if deallocBatchBuffer then releaseBatchBuffer BATCHING_MODE_TRIP else mret LOCATION_ERROR_SUCCESS
  else mret LOCATION_ERROR_GENERAL_FAILURE.

(** queryAccumulatedTripDistanceSync: the error, and the distance and number of positions when
    it succeeded. *)
Definition queryAccumulatedTripDistanceSync : M ApiState (LocationError * option (Z * Z)) :=
  '(rv, ind) ← send QueryOTBAccumulatedDistance;
  mret (if rv : bool
        then (LOCATION_ERROR_SUCCESS, Some (ind_accumulatedDistance ind, ind_batchedPosition ind))
        else (LOCATION_ERROR_GENERAL_FAILURE, None)).

(** readModemLocations: the entries written to [pLocationPiece]. Neither the array of the
    indication nor the caller's has more than QMI_LOC_READ_FROM_BATCH_MAX_SIZE_V02 entries. *)
Definition readModemLocations (count : Z) (m : BatchingMode) : M ApiState (list Location) :=
  '(rv, ind) ← send (ReadFromBatch count (if count =? 0 then 0 else 1) (Some (batch_type_is_routine m)));
  match (if rv : bool then ind_numberOfEntries ind else None), batchedReportList ind with
  | Some n, Some l =>
      if n <=? QMI_LOC_READ_FROM_BATCH_MAX_SIZE_V02
      then mret ((λ i, location_of_report (default report_zero (l !! i))) <$> seq 0 (Z.to_nat n))
      else ub
  | _, _ => mret []
  end.

(** The loop both reads share: [store got chunk arr] is the inner loop that copies a chunk when
    [got] entries have been read before (in a trip batch [idxLocationFromModem] is that number
    as well). *)
Fixpoint read_loop (store : Z → list Location → list Location → list Location) (m : BatchingMode)
    (fuel : nat) (total toRead got : Z) (arr : list Location) : M ApiState (list Location * Z) :=
  match fuel with
  | O => nofuel
  | S fuel =>
      chunk ← readModemLocations toRead m;
      let n := Z.of_nat (length chunk) in
      let arr := store got chunk arr in
      let got := uwrap 64 (got + n) in
      let toRead := Z.min (uwrap 64 (total - got)) QMI_LOC_READ_FROM_BATCH_MAX_SIZE_V02 in
      if (0 <? n) && (0 <? toRead) then read_loop store m fuel total toRead got arr
      else mret (arr, got)
  end.

Definition routine_loop (fuel : nat) (total : Z) : M ApiState (list Location * Z) :=
  read_loop (λ got, store_down total got 0) BATCHING_MODE_ROUTINE fuel total
    (Z.min total QMI_LOC_READ_FROM_BATCH_MAX_SIZE_V02) 0
    (replicate (Z.to_nat (total + 1)) Location_zero).

Definition trip_loop (fuel : nat) (total : Z) : M ApiState (list Location * Z) :=
  read_loop (store_up total) BATCHING_MODE_TRIP fuel total
    (Z.min total QMI_LOC_READ_FROM_BATCH_MAX_SIZE_V02) 0
    (replicate (Z.to_nat total) Location_zero).

Definition getBatchedLocationsSync (fuel : nat) (count : Z) : M ApiState LocationError :=
  sz ← gets mBatchSize;
  let total := Z.min sz count in
  _ ← (if total =? 0 then modify (report (reportLocations [] 0 BATCHING_MODE_ROUTINE))
       else
         '(arr, got) ← routine_loop fuel total;
         if got <? total then report_locations arr (uwrap 32 (1 + total - got)) got BATCHING_MODE_ROUTINE
         else if total <? got then report_locations (reorder total arr) 0 got BATCHING_MODE_ROUTINE
         else report_locations arr 1 got BATCHING_MODE_ROUTINE);
  mret LOCATION_ERROR_SUCCESS.

Definition getBatchedTripLocationsSync (fuel : nat) (count accumulatedDistance : Z) : M ApiState LocationError :=
  sz ← gets mTripBatchSize;
  let total := Z.min sz count in
  _ ← (if total =? 0 then modify (report (reportLocations [] 0 BATCHING_MODE_TRIP))
       else
         '(arr, got) ← trip_loop fuel total;
         _ ← report_locations arr 0 got BATCHING_MODE_TRIP;
         when (negb (accumulatedDistance =? 0)) (modify (report (reportCompletedTrips accumulatedDistance))));
  mret LOCATION_ERROR_SUCCESS.

(** reStartOutdoorTripBatching: reads out what the ongoing batch holds, stops it and starts it
    with the new parameters. The error is that of the start. *)
Definition reStartOutdoorTripBatching (fuel : nat) (ongoingTripDistance ongoingTripInterval batchingTimeout : Z)
    : M ApiState LocationError :=
  '(_, data) ← queryAccumulatedTripDistanceSync;
  let numOfBatchedPositions := default 0 (snd <$> data) in
  _ ← when (negb (numOfBatchedPositions =? 0))
        (_ ← getBatchedTripLocationsSync fuel numOfBatchedPositions 0; mret tt);
  _ ← stopOutdoorTripBatchingSync false;
  startOutdoorTripBatchingSync ongoingTripDistance ongoingTripInterval batchingTimeout.

(** The message a batch-full indication becomes: a trip batch only when the engine supports
    outdoor trip batching. *)
Definition batchFullEvent (fuel : nat) (tripSupported : bool) (batchCount : Z) (accDistance : option Z)
    (batchType : option qmiLocBatchingTypeEnumT_v02) : M ApiState LocationError :=
  match default eQMI_LOC_LOCATION_BATCHING_V02 batchType, tripSupported with
  | eQMI_LOC_OUTDOOR_TRIP_BATCHING_V02, true =>
      getBatchedTripLocationsSync fuel batchCount (default 0 accDistance)
  | _, _ => getBatchedLocationsSync fuel batchCount
  end.
End Batching.

(** ** The batching requests leave the tracking session and the registered events alone *)
Definition same_session {X} (m : M ApiState X) : Prop := ∀ a x a', m a = Done x a' →
  session a' = session a ∧ modem_events (requests a') = modem_events (requests a).

Lemma same_session_bind {X Y} (m : M ApiState X) (f : X → M ApiState Y) :
  same_session m → (∀ x, same_session (f x)) → same_session (m ≫= f).
Proof.
  intros Hm Hf a y a' (x & a1 & E1 & E2)%bind_inv. destruct (Hf _ _ _ _ E2) as [-> ->]. exact (Hm _ _ _ E1).
Qed.
Lemma same_session_ret {X} (x : X) : same_session (mret x).
Proof. by intros a y a' [= <- <-]. Qed.
Lemma same_session_gets {X} (f : ApiState → X) : same_session (gets f).
Proof. by intros a y a' [= <- <-]. Qed.
Lemma same_session_modify f :
  (∀ a, session (f a) = session a ∧ modem_events (requests (f a)) = modem_events (requests a)) → same_session (modify f).
Proof. intros Hf a y a' [= <- <-]. apply Hf. Qed.
Lemma same_session_ub {X} : same_session (X:=X) ub.
Proof. by intros a x a'. Qed.
Lemma same_session_nofuel {X} : same_session (X:=X) nofuel.
Proof. by intros a x a'. Qed.
Lemma same_session_when b m : same_session m → same_session (when b m).
Proof. intros Hm. destruct b; [done|apply same_session_ret]. Qed.

Create HintDb same_session discriminated.
#[export] Hint Resolve same_session_ret same_session_gets same_session_ub same_session_nofuel : same_session.

Ltac same_session :=
  repeat first
    [ progress intros
    | match goal with |- same_session (_ ≫= _) => apply same_session_bind end
    | match goal with |- same_session (when _ _) => apply same_session_when end
    | match goal with |- same_session (modify _) => apply same_session_modify; done end
    | solve [auto with same_session nocore]
    | match goal with |- same_session (match ?x with _ => _ end) => destruct x end ].

Section same_session.
Context (modem : Modem).
Lemma same_session_send r : (∀ m, note_events m r = m) → same_session (LOC_SEND_SYNC_REQ modem r).
Proof.
  intros Hr. unfold LOC_SEND_SYNC_REQ. apply same_session_bind; [|same_session].
  apply same_session_modify. intros a. split; [done|]. simpl. by rewrite modem_events_snoc, Hr.
Qed.
#[local] Hint Extern 1 (same_session (LOC_SEND_SYNC_REQ _ _)) => apply same_session_send; intros ?; reflexivity : same_session.
Lemma same_session_report_locations arr o n m : same_session (report_locations arr o n m).
Proof. unfold report_locations. same_session. Qed.
Lemma same_session_queryBatchBuffer n m : same_session (queryBatchBuffer modem n m).
Proof. unfold queryBatchBuffer. same_session. Qed.
Lemma same_session_setOperationMode m : same_session (setOperationMode modem m).
Proof. unfold setOperationMode. same_session. Qed.
#[local] Hint Resolve same_session_report_locations same_session_queryBatchBuffer same_session_setOperationMode : same_session.
Lemma same_session_startBatching id o a t : same_session (startBatching modem id o a t).
Proof. unfold startBatching. same_session. Qed.
Lemma same_session_stopBatching id : same_session (stopBatching modem id).
Proof. unfold stopBatching. same_session. Qed.
Lemma same_session_read_loop store m n total r got arr : same_session (read_loop modem store m n total r got arr).
Proof.
  revert r got arr. induction n as [|n IH]; intros r got arr; cbn [read_loop]; [same_session|].
  apply same_session_bind; [unfold readModemLocations; same_session|].
  intros l. case_match; [apply IH|same_session].
Qed.
#[local] Hint Resolve same_session_read_loop : same_session.
Lemma same_session_getBatchedLocationsSync n c : same_session (getBatchedLocationsSync modem n c).
Proof. unfold getBatchedLocationsSync, routine_loop. same_session. Qed.
Lemma same_session_getBatchedTripLocationsSync n c d : same_session (getBatchedTripLocationsSync modem n c d).
Proof. unfold getBatchedTripLocationsSync, trip_loop. same_session. Qed.
#[local] Hint Resolve same_session_getBatchedLocationsSync same_session_getBatchedTripLocationsSync : same_session.
Lemma same_session_batchFullEvent n s c d t : same_session (batchFullEvent modem n s c d t).
Proof. unfold batchFullEvent. same_session. Qed.
Lemma same_session_setBatchSize n : same_session (setBatchSize n).
Proof. unfold setBatchSize. same_session. Qed.
Lemma same_session_setTripBatchSize n : same_session (setTripBatchSize n).
Proof. unfold setTripBatchSize. same_session. Qed.
End same_session.
#[export] Hint Resolve same_session_startBatching same_session_stopBatching same_session_getBatchedLocationsSync
  same_session_getBatchedTripLocationsSync same_session_batchFullEvent same_session_setBatchSize
  same_session_setTripBatchSize : same_session.

(** ** The out-of-order location *)
Lemma elem_app_r l1 l2 i : elem (l1 ++ l2) (length l1 + i) = elem l2 i.
Proof. unfold elem. by rewrite lookup_app_r, Nat.add_comm, Nat.add_sub by lia. Qed.

Lemma elem_middle l1 x l2 : elem (l1 ++ x :: l2) (length l1) = x.
Proof. rewrite <-(Nat.add_0_r (length l1)). by rewrite elem_app_r. Qed.

Lemma shift_down_spec l1 x l2 :
  ∃ y, shift_down (length l2) (length l1) (l1 ++ x :: l2) = l1 ++ l2 ++ [y].
Proof.
  revert l1 x. induction l2 as [|y l2 IH]; intros l1 x; [by exists x|].
  cbn [shift_down length]. rewrite <-Nat.add_1_r, elem_app_r.
  change (elem (x :: y :: l2) 1) with y.
  rewrite insert_app_r_alt, Nat.sub_diag by lia. cbn [insert list_insert].
  destruct (IH (l1 ++ [y]) y) as (w & E).
  rewrite length_app, <-!app_assoc in E. by exists w.
Qed.

Lemma move_to_end l1 x l2 n total :
  n = length l2 → total = (length l1 + n)%nat →
  <[total := x]> (shift_down n (length l1) (l1 ++ x :: l2)) = l1 ++ l2 ++ [x].
Proof.
  intros -> ->. destruct (shift_down_spec l1 x l2) as (y & ->).
  rewrite app_assoc, <-length_app, insert_app_r_alt, Nat.sub_diag by lia. simpl.
  by rewrite app_assoc.
Qed.

Definition earlier (a b : Location) : Prop := timestamp a ≤ timestamp b.
#[export] Instance earlier_dec a b : Decision (earlier a b) := Z_le_dec _ _.
#[export] Instance earlier_total : Total earlier.
Proof. intros a b. unfold earlier. lia. Qed.
#[export] Instance earlier_trans : Transitive earlier.
Proof. intros a b c. unfold earlier. lia. Qed.

(** The search passes over elements that are in order. *)
Lemma reorder_skip k j total arr :
  (j ≤ k)%nat →
  (∀ i, (j ≤ i < k)%nat → earlier (elem arr i) (elem arr (S i))) →
  reorder_loop k (timestamp (elem arr k)) total arr
  = reorder_loop j (timestamp (elem arr j)) total arr.
Proof.
  induction k as [|k IH]; intros Hj Hs; [by replace j with 0%nat by lia|].
  destruct (decide (j = S k)) as [->|Hne]; [done|]. cbn [reorder_loop].
  rewrite (proj2 (Z.ltb_ge _ _)) by (apply Hs; lia). apply IH; [lia|]. intros i Hi. apply Hs. lia.
Qed.

Lemma sorted_adjacent l i :
  StronglySorted earlier l → (S i < length l)%nat → earlier (elem l i) (elem l (S i)).
Proof.
  intros Hs. revert i. induction Hs as [|a l Hs IH Hall]; intros i Hi; [simpl in Hi; lia|].
  simpl in Hi. destruct i as [|i]; [|apply IH; lia].
  destruct l as [|b l]; [simpl in Hi; lia|]. by apply Forall_cons in Hall as [? _].
Qed.

Lemma reorder_loop_moves l1 x l2 total :
  StronglySorted earlier (l1 ++ l2) → Forall (λ a, timestamp a < timestamp x) (l1 ++ l2) →
  total = (length l1 + length l2)%nat →
  reorder_loop total (timestamp (elem (l1 ++ x :: l2) total)) total (l1 ++ x :: l2)
  = l1 ++ l2 ++ [x].
Proof.
  intros Hs Hx Htot. destruct l2 as [|y l2].
  - rewrite app_nil_r in *. simpl in Htot. rewrite (reorder_skip _ 0 _); [done|lia|].
    intros i Hi. apply sorted_adjacent; [|rewrite length_app; simpl; lia].
    apply StronglySorted_app_2; [|done|by repeat constructor].
    intros a b Ha ->%list_elem_of_singleton. rewrite Forall_forall in Hx. specialize (Hx a Ha).
    unfold earlier. lia.
  - simpl in Htot. rewrite (reorder_skip _ (S (length l1)) _); [|lia|].
    + cbn [reorder_loop]. rewrite elem_middle.
      rewrite <-(Nat.add_1_r (length l1)), elem_app_r. change (elem (x :: y :: l2) 1) with y.
      rewrite (proj2 (Z.ltb_lt _ _)).
      * apply move_to_end; simpl; lia.
      * rewrite Forall_app, Forall_cons in Hx. tauto.
    + intros i Hi. replace i with (length l1 + S (i - S (length l1)))%nat by lia.
      rewrite <-Nat.add_succ_r, !elem_app_r. change (x :: ?l) with ([x] ++ l).
      rewrite <-!(Nat.add_1_l (S _)), <-!(Nat.add_1_l (i - _)), !(elem_app_r [x]).
      apply sorted_adjacent; [|simpl in *; lia].
      by apply StronglySorted_app_1_r in Hs.
Qed.

(** When the positions of a routine batch are in order of time but for the newest one, the
    pass over the array leaves exactly what sorting the array by time stamp would: that
    position is moved to the end. *)
Theorem reorder_is_sort total arr l1 x l2 :
  arr = l1 ++ x :: l2 → total = Z.of_nat (length l1 + length l2) → total < 2 ^ 31 →
  StronglySorted earlier (l1 ++ l2) → NoDup (timestamp <$> (l1 ++ l2)) →
  Forall (λ a, timestamp a < timestamp x) (l1 ++ l2) →
  reorder total arr = merge_sort earlier arr.
Proof.
  intros -> -> Hlt Hs Hnd Hx. unfold reorder. rewrite !Nat2Z.id.
  assert (Hn : Z.to_nat (swrap 32 (Z.of_nat (length l1 + length l2) - 1) + 1)
               = (length l1 + length l2)%nat).
  { unfold swrap. destruct (decide (length l1 + length l2 = 0)%nat) as [->|]; [done|].
    rewrite Z.mod_small by lia. rewrite (proj2 (Z.ltb_lt _ _)) by lia. lia. }
  rewrite Hn, reorder_loop_moves by done.
  assert (Hsort : StronglySorted earlier (l1 ++ l2 ++ [x])).
  { rewrite app_assoc. apply StronglySorted_app_2; [|done|by repeat constructor].
    intros a b Ha ->%list_elem_of_singleton. rewrite Forall_forall in Hx.
    specialize (Hx a Ha). unfold earlier. lia. }
  apply (StronglySorted_unique_strong earlier);
    [|done|apply Sorted_StronglySorted, Sorted_merge_sort; apply _|].
  - assert (Hnd' : NoDup (timestamp <$> (l1 ++ l2 ++ [x]))).
    { rewrite app_assoc, fmap_app. apply NoDup_app. split_and!; [done| |apply NoDup_singleton].
      intros z (a & -> & Ha)%list_elem_of_fmap Hz%list_elem_of_singleton.
      rewrite Forall_forall in Hx. specialize (Hx a Ha). lia. }
    intros a b Ha Hb Hab Hba. rewrite merge_sort_Permutation in Hb.
    assert (Hb' : b ∈ l1 ++ l2 ++ [x]) by (revert Hb; rewrite !elem_of_app, elem_of_cons, list_elem_of_singleton; tauto).
    apply list_elem_of_lookup in Ha as [i Ha], Hb' as [j Hb'].
    assert (i = j) as ->; [|congruence].
    assert (Hts : timestamp b = timestamp a) by (unfold earlier in *; lia).
    apply (NoDup_lookup _ i j (timestamp a) Hnd'); rewrite list_lookup_fmap.
    + by rewrite Ha.
    + rewrite Hb'. simpl. by rewrite Hts.
  - rewrite merge_sort_Permutation. solve_Permutation.
Qed.

(** ** Reading a batch *)

(** The locations in the answer that ends the conversation [h]. *)
Definition answer_locations (modem : Modem) (h : list Request) : list Location :=
  let '(st, ind) := modem h in
  match (if st && bool_decide (status ind = eQMI_LOC_SUCCESS_V02) then ind_numberOfEntries ind else None),
        batchedReportList ind with
  | Some n, Some l => (λ i, location_of_report (default report_zero (l !! i))) <$> seq 0 (Z.to_nat n)
  | _, _ => []
  end.

(** All the locations in the answers to [reads], sent one after another. *)
Fixpoint conversation (modem : Modem) (h reads : list Request) : list Location :=
  match reads with
  | [] => []
  | r :: reads => answer_locations modem (h ++ [r]) ++ conversation modem (h ++ [r]) reads
  end.

(** A modem that never returns more entries than it was asked for. *)
Definition honours_count (modem : Modem) : Prop :=
  ∀ h n tr b k, ind_numberOfEntries (snd (modem (h ++ [ReadFromBatch n tr b]))) = Some k → 0 ≤ k ≤ n.

Definition is_read (m : BatchingMode) (r : Request) : Prop :=
  ∃ n, 0 < n ≤ QMI_LOC_READ_FROM_BATCH_MAX_SIZE_V02 ∧ r = ReadFromBatch n 1 (Some (batch_type_is_routine m)).

Definition send_all (reads : list Request) (s : ApiState) : ApiState := foldl (flip send_request) s reads.

Section Reading.
Context (modem : Modem) (Hmodem : honours_count modem).

Lemma readModemLocations_done count m s :
  0 < count ≤ QMI_LOC_READ_FROM_BATCH_MAX_SIZE_V02 →
  ∃ r, is_read m r ∧
    readModemLocations modem count m s = Done (answer_locations modem (requests s ++ [r])) (send_request r s) ∧
    Z.of_nat (length (answer_locations modem (requests s ++ [r]))) ≤ count.
Proof.
  intros Hc. set (r := ReadFromBatch count 1 (Some (batch_type_is_routine m))).
  exists r. split; [by exists count|].
  unfold readModemLocations. rewrite (proj2 (Z.eqb_neq _ _)) by lia. fold r.
  unfold LOC_SEND_SYNC_REQ, answer_locations. mrun.
  pose proof (Hmodem (requests s) count 1 (Some (batch_type_is_routine m))) as Hk. fold r in Hk.
  destruct (modem (requests s ++ [r])) as [st ind]. simpl in *.
  destruct (st && bool_decide _); [|split; [done|simpl; lia]].
  destruct (ind_numberOfEntries ind) as [n|]; [|split; [done|simpl; lia]].
  destruct (batchedReportList ind) as [l|]; [|split; [done|simpl; lia]].
  specialize (Hk n eq_refl). rewrite (proj2 (Z.leb_le _ _)) by lia.
  split; [done|]. rewrite length_fmap, length_seq. lia.
Qed.

(** What a read loop needs of the inner loop that stores a chunk: [shape l] is the array
    once [l] has been read. *)
Context (total : Z) (store : Z → list Location → list Location → list Location)
        (shape : list Location → list Location).
Context (Htotal : 0 < total < 2 ^ 31)
  (Hstore : ∀ l chunk, Z.of_nat (length (l ++ chunk)) ≤ total →
     store (Z.of_nat (length l)) chunk (shape l) = shape (l ++ chunk)).

(** The loop ends within [total] rounds: each but the last brings at least one entry. It
    collects every entry the modem returned, until there are [total] or a read returns none. *)
Lemma read_loop_collects m fuel l s :
  Z.of_nat (length l) < total → total ≤ Z.of_nat (length l) + Z.of_nat fuel →
  ∃ reads, let l' := l ++ conversation modem (requests s) reads in
    read_loop modem store m fuel total (Z.min (total - Z.of_nat (length l)) QMI_LOC_READ_FROM_BATCH_MAX_SIZE_V02)
      (Z.of_nat (length l)) (shape l) s = Done (shape l', Z.of_nat (length l')) (send_all reads s) ∧
    Forall (is_read m) reads ∧ Z.of_nat (length l') ≤ total ∧
    (Z.of_nat (length l') = total ∨
     ∃ reads' r, reads = reads' ++ [r] ∧ answer_locations modem (requests s ++ reads) = []).
Proof.
  revert l s. induction fuel as [|fuel IH]; intros l s Hl Hfuel; [lia|].
  destruct (readModemLocations_done (Z.min (total - Z.of_nat (length l)) QMI_LOC_READ_FROM_BATCH_MAX_SIZE_V02) m s)
    as (r & Hr & E & Hlen); [unfold QMI_LOC_READ_FROM_BATCH_MAX_SIZE_V02; lia|].
  cbn [read_loop]. rewrite (bind_done _ _ _ _ _ E).
  set (chunk := answer_locations modem (requests s ++ [r])) in *.
  assert (Hsum : Z.of_nat (length (l ++ chunk)) ≤ total) by (rewrite length_app; lia).
  rewrite Hstore by done. rewrite (uwrap_small 64 (Z.of_nat (length l) + _)) by lia.
  replace (Z.of_nat (length l) + Z.of_nat (length chunk)) with (Z.of_nat (length (l ++ chunk)))
    by (rewrite length_app; lia).
  rewrite uwrap_small by lia.
  destruct (Z.ltb_spec 0 (Z.of_nat (length chunk))) as [Hpos|Hzero]; cycle 1.
  { exists [r]. simpl. fold chunk. rewrite app_nil_r. split_and!; [done|by constructor|done|].
    right. exists [], r. split; [done|]. apply nil_length_inv. fold chunk. lia. }
  destruct (Z.ltb_spec 0 (Z.min (total - Z.of_nat (length (l ++ chunk))) QMI_LOC_READ_FROM_BATCH_MAX_SIZE_V02))
    as [Hmore|Hfull]; cycle 1.
  { unfold QMI_LOC_READ_FROM_BATCH_MAX_SIZE_V02 in Hfull.
    exists [r]. simpl. fold chunk. rewrite app_nil_r. split_and!; [done|by constructor|done|]. left. lia. }
  cbn [andb].
  destruct (IH (l ++ chunk) (send_request r s)) as (reads & E' & Hreads & Hle & Hend);
    [unfold QMI_LOC_READ_FROM_BATCH_MAX_SIZE_V02 in Hmore; lia|rewrite length_app; lia|].
  simpl in E', Hle, Hend. rewrite <-app_assoc in E', Hle, Hend.
  exists (r :: reads). simpl. fold chunk. split_and!; [done|by constructor|done|].
  destruct Hend as [?|(reads' & r' & -> & Hend)]; [by left|].
  right. exists (r :: reads'), r'. split; [done|]. by rewrite <-app_assoc in Hend.
Qed.
End Reading.

Definition shape_down (total : Z) (l : list Location) : list Location :=
  replicate (Z.to_nat (total + 1) - length l) Location_zero ++ reverse l.
Definition shape_up (total : Z) (l : list Location) : list Location :=
  l ++ replicate (Z.to_nat total - length l) Location_zero.

Lemma store_down_shape total l got i chunk :
  0 < total < 2 ^ 31 → 0 ≤ i → Z.of_nat (length l) = got + i → Z.of_nat (length (l ++ chunk)) ≤ total →
  store_down total got i chunk (shape_down total l) = shape_down total (l ++ chunk).
Proof.
  intros Ht. revert l i. induction chunk as [|x chunk IH]; intros l i Hi Hl Hle; cbn [store_down].
  { by rewrite app_nil_r. }
  rewrite length_app in Hle. simpl in Hle.
  rewrite (uwrap_small 64) by lia. rewrite (proj2 (Z.leb_le _ total)) by lia.
  assert (Hpos : 0 ≤ swrap 32 (total - got - i)).
  { unfold swrap. rewrite Z.mod_small by lia. destruct (_ <? _) eqn:E; lia. }
  rewrite (proj2 (Z.leb_le _ _) Hpos). cbn [andb].
  change (x :: chunk) with ([x] ++ chunk). rewrite app_assoc.
  rewrite <-(IH (l ++ [x]) (i + 1)); [|lia|rewrite length_app; simpl; lia
                                      |rewrite !length_app; simpl; lia].
  f_equal. unfold shape_down. rewrite reverse_snoc, length_app. simpl.
  replace (Z.to_nat (total + 1) - length l)%nat
    with (S (Z.to_nat (total + 1) - (length l + 1)))%nat by lia.
  set (k := (Z.to_nat (total + 1) - (length l + 1))%nat).
  replace (Z.to_nat (total - got - i)) with k by lia.
  rewrite replicate_S_end, <-app_assoc.
  rewrite insert_app_r_alt; rewrite length_replicate; [|lia]. by rewrite Nat.sub_diag.
Qed.

Lemma store_up_shape total l chunk :
  0 < total → Z.of_nat (length (l ++ chunk)) ≤ total →
  store_up total (Z.of_nat (length l)) chunk (shape_up total l) = shape_up total (l ++ chunk).
Proof.
  intros Ht. revert l. induction chunk as [|x chunk IH]; intros l Hle; cbn [store_up].
  { by rewrite app_nil_r. }
  rewrite length_app in Hle. simpl in Hle.
  rewrite (proj2 (Z.ltb_lt _ _)) by lia. rewrite Nat2Z.id.
  change (x :: chunk) with ([x] ++ chunk). rewrite app_assoc.
  rewrite <-(IH (l ++ [x])) by (rewrite !length_app; simpl; lia).
  rewrite length_app, Nat2Z.inj_add. f_equal. unfold shape_up.
  rewrite insert_app_r_alt, Nat.sub_diag by lia. rewrite length_app, <-app_assoc. simpl.
  by replace (Z.to_nat total - length l)%nat with (S (Z.to_nat total - (length l + 1)))%nat by lia.
Qed.

Lemma send_all_spec reads s :
  requests (send_all reads s) = requests s ++ reads ∧ reports (send_all reads s) = reports s ∧
  mBatchSize (send_all reads s) = mBatchSize s ∧ mTripBatchSize (send_all reads s) = mTripBatchSize s.
Proof.
  revert s. induction reads as [|r reads IH]; intros s; [by rewrite app_nil_r|].
  destruct (IH (send_request r s)) as (H1 & H2 & H3 & H4). simpl in *.
  unfold send_all in *. simpl. rewrite H1, H2, H3, H4. split_and!; try done. by rewrite <-app_assoc.
Qed.

(** C20: from a modem that never returns more positions than it was asked for,
    getBatchedLocationsSync ends within as many reads as positions were requested and reports
    every position read, newest last (the modem returns the newest first): the requested
    number of them, or all there were when a read came back empty. *)
Theorem getBatchedLocations_reads_all modem fuel count s :
  honours_count modem →
  let total := Z.min (mBatchSize s) count in
  0 < total < 2 ^ 31 → total ≤ Z.of_nat fuel →
  ∃ reads s',
    getBatchedLocationsSync modem fuel count s = Done LOCATION_ERROR_SUCCESS s' ∧
    requests s' = requests s ++ reads ∧ Forall (is_read BATCHING_MODE_ROUTINE) reads ∧
    let l := conversation modem (requests s) reads in
    reports s' = reports s ++ [reportLocations (reverse l) (Z.of_nat (length l)) BATCHING_MODE_ROUTINE] ∧
    Z.of_nat (length l) ≤ total ∧
    (Z.of_nat (length l) = total ∨ answer_locations modem (requests s ++ reads) = []).
Proof.
  intros Hm total Ht Hfuel.
  destruct (read_loop_collects modem Hm total (λ got, store_down total got 0) (shape_down total) Ht
              (λ l chunk H, store_down_shape total l (Z.of_nat (length l)) 0 chunk Ht ltac:(lia) ltac:(lia) H)
              BATCHING_MODE_ROUTINE fuel [] s) as (reads & E & Hreads & Hle & Hend); [simpl; lia..|].
  set (l := conversation modem (requests s) reads) in *. cbn [app] in *.
  destruct (send_all_spec reads s) as (Hreq & Hrep & _).
  exists reads, (report (reportLocations (reverse l) (Z.of_nat (length l)) BATCHING_MODE_ROUTINE) (send_all reads s)).
  assert (Hreport : ∀ off, off = 1 + total - Z.of_nat (length l) →
    report_locations (shape_down total l) off (Z.of_nat (length l)) BATCHING_MODE_ROUTINE (send_all reads s)
    = Done tt (report (reportLocations (reverse l) (Z.of_nat (length l)) BATCHING_MODE_ROUTINE) (send_all reads s))).
  { intros off ->. unfold report_locations, shape_down.
    rewrite length_app, length_replicate, length_reverse.
    rewrite (proj2 (Z.leb_le _ _)) by lia. unfold modify. do 3 f_equal.
    rewrite Nat2Z.id, drop_app_length' by (rewrite length_replicate; lia).
    apply take_ge. by rewrite length_reverse. }
  split; [|simpl; rewrite Hreq, Hrep; split_and!; [done..|destruct Hend as [?|(? & ? & ? & ?)]; by auto]].
  unfold getBatchedLocationsSync. erewrite (bind_done (gets _)); [|done]. fold total.
  rewrite (proj2 (Z.eqb_neq total 0)) by lia. cbn beta iota zeta.
  unfold routine_loop. change (Z.of_nat (length [])) with 0 in E. rewrite Z.sub_0_r in E.
  change (shape_down total []) with (replicate (Z.to_nat (total + 1) - 0) Location_zero ++ []) in E.
  rewrite app_nil_r, Nat.sub_0_r in E.
  erewrite (bind_done (_ ≫= _)); [reflexivity|]. rewrite (bind_done _ _ _ _ _ E).
  destruct (Z.ltb_spec (Z.of_nat (length l)) total); [apply Hreport; rewrite uwrap_small; lia|].
  destruct (Z.ltb_spec total (Z.of_nat (length l))); [lia|]. apply Hreport. lia.
Qed.

(** The same for a trip batch, which the modem returns oldest first, followed by the distance
    of the trip when the indication carried one. *)
Theorem getBatchedTripLocations_reads_all modem fuel count acc s :
  honours_count modem →
  let total := Z.min (mTripBatchSize s) count in
  0 < total < 2 ^ 31 → total ≤ Z.of_nat fuel →
  ∃ reads s',
    getBatchedTripLocationsSync modem fuel count acc s = Done LOCATION_ERROR_SUCCESS s' ∧
    requests s' = requests s ++ reads ∧ Forall (is_read BATCHING_MODE_TRIP) reads ∧
    let l := conversation modem (requests s) reads in
    reports s' = reports s ++ reportLocations l (Z.of_nat (length l)) BATCHING_MODE_TRIP
                   :: (if acc =? 0 then [] else [reportCompletedTrips acc]) ∧
    Z.of_nat (length l) ≤ total ∧
    (Z.of_nat (length l) = total ∨ answer_locations modem (requests s ++ reads) = []).
Proof.
  intros Hm total Ht Hfuel.
  destruct (read_loop_collects modem Hm total (store_up total) (shape_up total) Ht
              (λ l chunk H, store_up_shape total l chunk (proj1 Ht) H)
              BATCHING_MODE_TRIP fuel [] s) as (reads & E & Hreads & Hle & Hend); [simpl; lia..|].
  set (l := conversation modem (requests s) reads) in *. cbn [app] in *.
  destruct (send_all_spec reads s) as (Hreq & Hrep & _).
  set (s1 := report (reportLocations l (Z.of_nat (length l)) BATCHING_MODE_TRIP) (send_all reads s)).
  exists reads, (if acc =? 0 then s1 else report (reportCompletedTrips acc) s1).
  assert (Hreport : report_locations (shape_up total l) 0 (Z.of_nat (length l)) BATCHING_MODE_TRIP (send_all reads s)
    = Done tt s1).
  { unfold report_locations, shape_up. rewrite length_app, length_replicate.
    rewrite (proj2 (Z.leb_le _ _)) by lia. unfold modify, s1. do 3 f_equal.
    by rewrite Nat2Z.id, drop_0, take_app_length. }
  split; cycle 1.
  { split_and!; [by destruct (acc =? 0)|done| |done|destruct Hend as [?|(? & ? & ? & ?)]; by auto].
    destruct (acc =? 0); simpl; rewrite Hrep; [done|by rewrite <-app_assoc]. }
  unfold getBatchedTripLocationsSync. erewrite (bind_done (gets _)); [|done]. fold total.
  rewrite (proj2 (Z.eqb_neq total 0)) by lia. cbn beta iota zeta.
  unfold trip_loop. change (Z.of_nat (length [])) with 0 in E. rewrite Z.sub_0_r in E.
  change (shape_up total []) with (replicate (Z.to_nat total - 0) Location_zero) in E.
  rewrite Nat.sub_0_r in E.
  erewrite (bind_done (_ ≫= _)); [reflexivity|]. rewrite (bind_done _ _ _ _ _ E).
  rewrite (bind_done _ _ _ _ _ Hreport). by destruct (acc =? 0).
Qed.

(** *** Concrete modems *)
Definition ind_zero : Ind :=
  {| status := eQMI_LOC_SUCCESS_V02; geofenceId := None; ind_batchSize := 0; ind_numberOfEntries := None;
     batchedReportList := None; ind_accumulatedDistance := 0; ind_batchedPosition := 0 |}.

Definition report_at (t : Z) : qmiLocBatchedReportStruct :=
  {| br_validFields := QMI_LOC_BATCHED_REPORT_MASK_VALID_TIMESTAMP_UTC_V02; br_latitude := d_zero;
     br_longitude := d_zero; br_horUncCircular := d_zero; br_speedHorizontal := d_zero;
     br_speedUnc := d_zero; br_altitudeWrtEllipsoid := d_zero; br_heading := d_zero;
     br_headingUnc := d_zero; br_technologyMask := 0; br_timestampUtc := t; br_vertUnc := d_zero |}.

Definition entries_ind (n : Z) (l : list Z) : Ind :=
  {| status := eQMI_LOC_SUCCESS_V02; geofenceId := None; ind_batchSize := 0; ind_numberOfEntries := Some n;
     batchedReportList := Some (report_at <$> l); ind_accumulatedDistance := 0; ind_batchedPosition := 0 |}.

(** It returns at most two entries per read, time stamps decreasing with the conversation. *)
Definition two_by_two : Modem := λ h,
  match last h with
  | Some (ReadFromBatch n _ _) =>
      let t := 100 - 10 * Z.of_nat (length h) in
      (true, if 0 <=? n then entries_ind (Z.min n 2) [t; t - 1] else ind_zero)
  | _ => (true, ind_zero)
  end.

Lemma two_by_two_honours : honours_count two_by_two.
Proof.
  intros h n tr b k. unfold two_by_two. rewrite last_snoc. simpl.
  destruct (Z.leb_spec 0 n); [|done]. intros [= <-]. lia.
Qed.

Definition batch_of (n : Z) : ApiState :=
  {| mBatchSize := n; mDesiredBatchSize := n; mTripBatchSize := n; mDesiredTripBatchSize := n;
     session := session_init 0 false; requests := []; reports := [] |}.

Lemma getBatchedLocations_reads_all_witness :
  (λ s, (λ r, match r with reportLocations l n _ => (timestamp <$> l, n) | _ => ([], 0) end) <$> reports s)
    <$> outcome_state (getBatchedLocationsSync two_by_two 3 100 (batch_of 3))
  = Some [([80; 89; 90], 3)].
Proof.
  destruct (getBatchedLocations_reads_all two_by_two 3 100 (batch_of 3) two_by_two_honours
              ltac:(by vm_compute) ltac:(by vm_compute)) as (reads & s' & _).
  by vm_compute.
Defined.

Lemma getBatchedTripLocations_reads_all_witness :
  (λ s, (λ r, match r with reportLocations l n _ => (timestamp <$> l, n)
                         | reportCompletedTrips d => ([], d) end) <$> reports s)
    <$> outcome_state (getBatchedTripLocationsSync two_by_two 3 100 250 (batch_of 3))
  = Some [([90; 89; 80], 3); ([], 250)].
Proof.
  destruct (getBatchedTripLocations_reads_all two_by_two 3 100 250 (batch_of 3) two_by_two_honours
              ltac:(by vm_compute) ltac:(by vm_compute)) as (reads & s' & _).
  by vm_compute.
Defined.

Lemma reorder_is_sort_witness :
  timestamp <$> reorder 3 (location_of_report ∘ report_at <$> [10; 40; 20; 30]) = [10; 20; 30; 40].
Proof.
  rewrite (reorder_is_sort 3 _ (location_of_report ∘ report_at <$> [10])
             (location_of_report (report_at 40)) (location_of_report ∘ report_at <$> [20; 30]));
    [by vm_compute|done|by vm_compute|by vm_compute|..].
  - repeat constructor; vm_compute; discriminate.
  - apply (bool_decide_unpack _). by vm_compute.
  - repeat constructor.
Defined.

(** A batch that grows while it is read: the first answer has one entry more than asked, the
    second is [extra]. *)
Definition one_more (extra : list Z) : Modem := λ h,
  match last h with
  | Some (ReadFromBatch n _ _) =>
      (true, if decide (length h = 1%nat) then entries_ind (n + 1) [50; 40; 30; 20; 10]
             else if decide (length h = 2%nat) then entries_ind (Z.of_nat (length extra)) extra
             else ind_zero)
  | _ => (true, ind_zero)
  end.

(** One extra entry makes [entriesToReadInTotal - entriesGotInTotal] wrap around, so that the
    loop reads on: when nothing more comes the routine batch still reports everything, in
    order of time; when one more entry comes it reports more positions than its array holds,
    and a trip batch does so already at the first extra entry. *)
Theorem getBatchedLocations_overread :
  (λ s, (λ r, match r with reportLocations l n _ => (timestamp <$> l, n) | _ => ([], 0) end) <$> reports s)
    <$> outcome_state (getBatchedLocationsSync (one_more []) 10 2 (batch_of 2)) = Some [([30; 40; 50], 3)] ∧
  last (requests (default (batch_of 0)
    (outcome_state (getBatchedLocationsSync (one_more []) 10 2 (batch_of 2))))) =
    Some (ReadFromBatch 5 1 (Some eQMI_LOC_LOCATION_BATCHING_V02)) ∧
  getBatchedLocationsSync (one_more [5]) 10 2 (batch_of 2) = UB ∧
  getBatchedTripLocationsSync (one_more []) 10 2 0 (batch_of 2) = UB.
Proof. split_and!; by vm_compute. Qed.
