(* ===== verification/LocApiTrack.v ===== *)
(** * LocApiV02 : tracking sessions and the registration for events.

    The requests of LocApiV02.cpp that start and stop time-based and distance-based tracking,
    and registerEventMask, which turns the events the adapters want into those the modem is
    asked for: some of them only while a session runs or the engine is on. *)
From S2P Require Import Prelude PbEnums LocApi LocApiBatch LocEvents.
Local Open Scope Z_scope.

(** ** The options of a tracking session: a struct TrackingOptions, of which a LocationOptions is
    the part [lo]. *)
Record LocationOptions := mkLocationOptions {
  options_size : Z; minInterval : Z; minDistance : Z; mode : GnssSuplMode; locReqEngTypeMask : Z }.
Record TrackingOptions := mkTrackingOptions { lo :> LocationOptions; powerMode : GnssPowerMode; tbm : Z }.

Definition GnssPowerMode_value (x : GnssPowerMode) : Z :=
  match x with
  | GNSS_POWER_MODE_INVALID => 0 | GNSS_POWER_MODE_M1 => 1 | GNSS_POWER_MODE_M2 => 2
  | GNSS_POWER_MODE_M3 => 3 | GNSS_POWER_MODE_M4 => 4 | GNSS_POWER_MODE_M5 => 5
  end.

(** ** Updates of the session *)
Definition update_session (f : Session → Session) (s : ApiState) : ApiState :=
  {| mBatchSize := mBatchSize s; mDesiredBatchSize := mDesiredBatchSize s;
     mTripBatchSize := mTripBatchSize s; mDesiredTripBatchSize := mDesiredTripBatchSize s;
     session := f (session s); requests := requests s; reports := reports s |}.
Definition upd_session (f : Session → Session) : M ApiState unit := modify (update_session f).

Definition set_masks (m q : Z) (s : Session) : Session :=
  mkSession m q (mExcludedMask s) (mMaster s) (mMasterRegisterNotSupported s) (mInSession s)
    (mMeasurementsStarted s) (mEngineOn s) (mPowerMode s) (mMinInterval s) (mIsFirstFinalFixReported s)
    (mGnssMeasurements s) (calResets s) (mNmeaMask s) (clientHandle s).
Definition set_inSession (b : bool) (s : Session) : Session :=
  mkSession (mMask s) (mQmiMask s) (mExcludedMask s) (mMaster s) (mMasterRegisterNotSupported s) b
    (mMeasurementsStarted s) (mEngineOn s) (mPowerMode s) (mMinInterval s) (mIsFirstFinalFixReported s)
    (mGnssMeasurements s) (calResets s) (mNmeaMask s) (clientHandle s).
Definition set_measurementsStarted (b : bool) (s : Session) : Session :=
  mkSession (mMask s) (mQmiMask s) (mExcludedMask s) (mMaster s) (mMasterRegisterNotSupported s) (mInSession s)
    b (mEngineOn s) (mPowerMode s) (mMinInterval s) (mIsFirstFinalFixReported s)
    (mGnssMeasurements s) (calResets s) (mNmeaMask s) (clientHandle s).
Definition set_engineOn (b : bool) (s : Session) : Session :=
  mkSession (mMask s) (mQmiMask s) (mExcludedMask s) (mMaster s) (mMasterRegisterNotSupported s) (mInSession s)
    (mMeasurementsStarted s) b (mPowerMode s) (mMinInterval s) (mIsFirstFinalFixReported s)
    (mGnssMeasurements s) (calResets s) (mNmeaMask s) (clientHandle s).
Definition set_powerMode (p : GnssPowerMode) (s : Session) : Session :=
  mkSession (mMask s) (mQmiMask s) (mExcludedMask s) (mMaster s) (mMasterRegisterNotSupported s) (mInSession s)
    (mMeasurementsStarted s) (mEngineOn s) p (mMinInterval s) (mIsFirstFinalFixReported s)
    (mGnssMeasurements s) (calResets s) (mNmeaMask s) (clientHandle s).
Definition set_minInterval (z : Z) (s : Session) : Session :=
  mkSession (mMask s) (mQmiMask s) (mExcludedMask s) (mMaster s) (mMasterRegisterNotSupported s) (mInSession s)
    (mMeasurementsStarted s) (mEngineOn s) (mPowerMode s) z (mIsFirstFinalFixReported s)
    (mGnssMeasurements s) (calResets s) (mNmeaMask s) (clientHandle s).
Definition set_firstFix (b : bool) (s : Session) : Session :=
  mkSession (mMask s) (mQmiMask s) (mExcludedMask s) (mMaster s) (mMasterRegisterNotSupported s) (mInSession s)
    (mMeasurementsStarted s) (mEngineOn s) (mPowerMode s) (mMinInterval s) b (mGnssMeasurements s) (calResets s) (mNmeaMask s) (clientHandle s).
Definition set_gnssMeasurements (b : bool) (s : Session) : Session :=
  mkSession (mMask s) (mQmiMask s) (mExcludedMask s) (mMaster s) (mMasterRegisterNotSupported s) (mInSession s)
    (mMeasurementsStarted s) (mEngineOn s) (mPowerMode s) (mMinInterval s) (mIsFirstFinalFixReported s) b
    (calResets s) (mNmeaMask s) (clientHandle s).
Definition reset_cal (s : Session) : Session :=
  mkSession (mMask s) (mQmiMask s) (mExcludedMask s) (mMaster s) (mMasterRegisterNotSupported s) (mInSession s)
    (mMeasurementsStarted s) (mEngineOn s) (mPowerMode s) (mMinInterval s) (mIsFirstFinalFixReported s)
    (mGnssMeasurements s) (S (calResets s)) (mNmeaMask s) (clientHandle s).
Definition set_nmeaMask (m : Z) (s : Session) : Session :=
  mkSession (mMask s) (mQmiMask s) (mExcludedMask s) (mMaster s) (mMasterRegisterNotSupported s) (mInSession s)
    (mMeasurementsStarted s) (mEngineOn s) (mPowerMode s) (mMinInterval s) (mIsFirstFinalFixReported s)
    (mGnssMeasurements s) (calResets s) m (clientHandle s).
Definition set_clientHandle (b : bool) (s : Session) : Session :=
  mkSession (mMask s) (mQmiMask s) (mExcludedMask s) (mMaster s) (mMasterRegisterNotSupported s) (mInSession s)
    (mMeasurementsStarted s) (mEngineOn s) (mPowerMode s) (mMinInterval s) (mIsFirstFinalFixReported s)
    (mGnssMeasurements s) (calResets s) (mNmeaMask s) b.

(** ** The event mask *)

(** [if (mask & bits) eventMask |= events], from top to bottom. *)
Definition convertMask_table (batchedBreach : bool) : list (Z * Z) :=
  [ (LOC_API_ADAPTER_BIT_PARSED_POSITION_REPORT, QMI_LOC_EVENT_MASK_POSITION_REPORT_V02);
    (LOC_API_ADAPTER_BIT_PARSED_UNPROPAGATED_POSITION_REPORT, QMI_LOC_EVENT_MASK_UNPROPAGATED_POSITION_REPORT_V02);
    (LOC_API_ADAPTER_BIT_SATELLITE_REPORT, QMI_LOC_EVENT_MASK_GNSS_SV_INFO_V02);
    (Z.lor LOC_API_ADAPTER_BIT_NMEA_POSITION_REPORT LOC_API_ADAPTER_BIT_NMEA_1HZ_REPORT,
       Z.lor QMI_LOC_EVENT_MASK_NMEA_V02 QMI_LOC_EVENT_MASK_ENGINE_STATE_V02);
    (LOC_API_ADAPTER_BIT_NI_NOTIFY_VERIFY_REQUEST, QMI_LOC_EVENT_MASK_NI_NOTIFY_VERIFY_REQ_V02);
    (LOC_API_ADAPTER_BIT_ASSISTANCE_DATA_REQUEST,
       Z.lor QMI_LOC_EVENT_MASK_INJECT_PREDICTED_ORBITS_REQ_V02 QMI_LOC_EVENT_MASK_INJECT_TIME_REQ_V02);
    (LOC_API_ADAPTER_BIT_POSITION_INJECTION_REQUEST, QMI_LOC_EVENT_MASK_INJECT_POSITION_REQ_V02);
    (LOC_API_ADAPTER_BIT_STATUS_REPORT, QMI_LOC_EVENT_MASK_ENGINE_STATE_V02);
    (LOC_API_ADAPTER_BIT_LOCATION_SERVER_REQUEST, QMI_LOC_EVENT_MASK_LOCATION_SERVER_CONNECTION_REQ_V02);
    (LOC_API_ADAPTER_BIT_REQUEST_WIFI, QMI_LOC_EVENT_MASK_WIFI_REQ_V02);
    (LOC_API_ADAPTER_BIT_SENSOR_STATUS, QMI_LOC_EVENT_MASK_SENSOR_STREAMING_READY_STATUS_V02);
    (LOC_API_ADAPTER_BIT_REQUEST_TIME_SYNC, QMI_LOC_EVENT_MASK_TIME_SYNC_REQ_V02);
    (LOC_API_ADAPTER_BIT_REPORT_SPI, QMI_LOC_EVENT_MASK_SET_SPI_STREAMING_REPORT_V02);
    (LOC_API_ADAPTER_BIT_REPORT_NI_GEOFENCE, QMI_LOC_EVENT_MASK_NI_GEOFENCE_NOTIFICATION_V02);
    (LOC_API_ADAPTER_BIT_GEOFENCE_GEN_ALERT, QMI_LOC_EVENT_MASK_GEOFENCE_GEN_ALERT_V02);
    (LOC_API_ADAPTER_BIT_REPORT_GENFENCE_BREACH, QMI_LOC_EVENT_MASK_GEOFENCE_BREACH_NOTIFICATION_V02);
    (LOC_API_ADAPTER_BIT_BATCHED_GENFENCE_BREACH_REPORT,
       if batchedBreach then QMI_LOC_EVENT_MASK_GEOFENCE_BATCH_BREACH_NOTIFICATION_V02
       else QMI_LOC_EVENT_MASK_GEOFENCE_BREACH_NOTIFICATION_V02);
    (LOC_API_ADAPTER_BIT_PEDOMETER_CTRL, QMI_LOC_EVENT_MASK_PEDOMETER_CONTROL_V02);
    (LOC_API_ADAPTER_BIT_REPORT_GENFENCE_DWELL, QMI_LOC_EVENT_MASK_GEOFENCE_BATCH_DWELL_NOTIFICATION_V02);
    (LOC_API_ADAPTER_BIT_MOTION_CTRL, QMI_LOC_EVENT_MASK_MOTION_DATA_CONTROL_V02);
    (LOC_API_ADAPTER_BIT_REQUEST_WIFI_AP_DATA, QMI_LOC_EVENT_MASK_INJECT_WIFI_AP_DATA_REQ_V02);
    (LOC_API_ADAPTER_BIT_BATCH_FULL, QMI_LOC_EVENT_MASK_BATCH_FULL_NOTIFICATION_V02);
    (LOC_API_ADAPTER_BIT_BATCH_STATUS, QMI_LOC_EVENT_MASK_BATCHING_STATUS_V02);
    (LOC_API_ADAPTER_BIT_BATCHED_POSITION_REPORT, QMI_LOC_EVENT_MASK_LIVE_BATCHED_POSITION_REPORT_V02);
    (LOC_API_ADAPTER_BIT_GNSS_MEASUREMENT_REPORT, QMI_LOC_EVENT_MASK_GNSS_MEASUREMENT_REPORT_V02);
    (LOC_API_ADAPTER_BIT_GNSS_SV_POLYNOMIAL_REPORT, QMI_LOC_EVENT_MASK_GNSS_SV_POLYNOMIAL_REPORT_V02);
    (LOC_API_ADAPTER_BIT_GNSS_SV_EPHEMERIS_REPORT, QMI_LOC_EVENT_MASK_EPHEMERIS_REPORT_V02);
    (LOC_API_ADAPTER_BIT_GDT_UPLOAD_BEGIN_REQ, QMI_LOC_EVENT_MASK_GDT_UPLOAD_BEGIN_REQ_V02);
    (LOC_API_ADAPTER_BIT_GDT_UPLOAD_END_REQ, QMI_LOC_EVENT_MASK_GDT_UPLOAD_END_REQ_V02);
    (LOC_API_ADAPTER_BIT_GNSS_MEASUREMENT, QMI_LOC_EVENT_MASK_GNSS_MEASUREMENT_REPORT_V02);
    (LOC_API_ADAPTER_BIT_REQUEST_TIMEZONE, QMI_LOC_EVENT_MASK_GET_TIME_ZONE_REQ_V02);
    (LOC_API_ADAPTER_BIT_REQUEST_SRN_DATA, QMI_LOC_EVENT_MASK_INJECT_SRN_AP_DATA_REQ_V02);
    (LOC_API_ADAPTER_BIT_FDCL_SERVICE_REQ, QMI_LOC_EVENT_MASK_FDCL_SERVICE_REQ_V02);
    (LOC_API_ADAPTER_BIT_BS_OBS_DATA_SERVICE_REQ, QMI_LOC_EVENT_MASK_BS_OBS_DATA_SERVICE_REQ_V02);
    (LOC_API_ADAPTER_BIT_LOC_SYSTEM_INFO, QMI_LOC_EVENT_MASK_NEXT_LS_INFO_REPORT_V02);
    (LOC_API_ADAPTER_BIT_EVENT_REPORT_INFO, QMI_LOC_EVENT_MASK_GNSS_EVENT_REPORT_V02);
    (LOC_API_ADAPTER_BIT_GNSS_NHZ_MEASUREMENT, QMI_LOC_EVENT_MASK_GNSS_NHZ_MEASUREMENT_REPORT_V02);
    (LOC_API_ADAPTER_BIT_LATENCY_INFORMATION, QMI_LOC_EVENT_MASK_LATENCY_INFORMATION_REPORT_V02) ].

Definition convert_bits (mask eventMask : Z) (row : Z * Z) : Z :=
  if test_bits mask row.1 then Z.lor eventMask row.2 else eventMask.
Definition convertMask (batchedBreach : bool) (mask : Z) : Z :=
  foldl (convert_bits mask) 0 (convertMask_table batchedBreach).

Lemma convert_keeps mask l acc n :
  Z.testbit acc n = true → Z.testbit (foldl (convert_bits mask) acc l) n = true.
Proof.
  revert acc. induction l as [|row l IH]; intros acc Ha; [done|]. apply IH. unfold convert_bits.
  destruct (test_bits mask row.1); [|done]. by rewrite Z.lor_spec, Ha.
Qed.
(** An event of a row whose bits are wanted. *)
Lemma convertMask_row batchedBreach mask row n :
  row ∈ convertMask_table batchedBreach → test_bits mask row.1 = true → Z.testbit row.2 n = true →
  Z.testbit (convertMask batchedBreach mask) n = true.
Proof.
  intros (l1 & l2 & E)%list_elem_of_split Hm Hn. unfold convertMask. rewrite E, foldl_app. cbn [foldl]. apply convert_keeps.
  unfold convert_bits. rewrite Hm. by rewrite Z.lor_spec, Hn, orb_true_r.
Qed.
Lemma test_bits_single mask n : 0 ≤ n → test_bits mask (Z.shiftl 1 n) = Z.testbit mask n.
Proof.
  intros Hn. unfold test_bits. rewrite Z.shiftl_1_l. destruct (Z.testbit mask n) eqn:E.
  - apply negb_true_iff, Z.eqb_neq. intros H. assert (Hb : Z.testbit (Z.land mask (2 ^ n)) n = false) by by rewrite H, Z.bits_0.
    by rewrite Z.land_spec, E, Z.pow2_bits_true in Hb by done.
  - apply negb_false_iff, Z.eqb_eq, Z.bits_inj'. intros k Hk. rewrite Z.land_spec, Z.bits_0, Z.pow2_bits_eqb by done.
    destruct (Z.eqb_spec n k) as [->|]; [by rewrite E|by rewrite andb_false_r].
Qed.

(** The events that are of no use outside a session. *)
Definition session_events : Z :=
  foldr Z.lor 0
    [QMI_LOC_EVENT_MASK_POSITION_REPORT_V02; QMI_LOC_EVENT_MASK_UNPROPAGATED_POSITION_REPORT_V02;
     QMI_LOC_EVENT_MASK_GNSS_SV_INFO_V02; QMI_LOC_EVENT_MASK_NMEA_V02; QMI_LOC_EVENT_MASK_ENGINE_STATE_V02;
     QMI_LOC_EVENT_MASK_GNSS_MEASUREMENT_REPORT_V02; QMI_LOC_EVENT_MASK_GNSS_NHZ_MEASUREMENT_REPORT_V02;
     QMI_LOC_EVENT_MASK_GNSS_SV_POLYNOMIAL_REPORT_V02; QMI_LOC_EVENT_MASK_EPHEMERIS_REPORT_V02;
     QMI_LOC_EVENT_MASK_GNSS_EVENT_REPORT_V02; QMI_LOC_EVENT_MASK_NEXT_LS_INFO_REPORT_V02;
     QMI_LOC_EVENT_MASK_LATENCY_INFORMATION_REPORT_V02].
Definition adjustMaskIfNoSessionOrEngineOff (s : Session) (qmiMask : Z) : Z :=
  if negb (mInSession s) then Z.ldiff qmiMask session_events
  else if negb (mEngineOn s) then Z.ldiff qmiMask QMI_LOC_EVENT_MASK_NMEA_V02
  else qmiMask.

(** All the constellations: eQMI_SYSTEM_GPS_V02, GLO, BDS, GAL, QZSS and NAVIC. *)
Definition svConstellation : Z := foldr Z.lor 0 [0x01; 0x02; 0x04; 0x08; 0x10; 0x20].

Definition setSvMeasurementConstellation_req (s : Session) (mask : Z) : Request :=
  SetGNSSConstRepConfig
    (if test_bits mask QMI_LOC_EVENT_MASK_GNSS_MEASUREMENT_REPORT_V02 || mMasterRegisterNotSupported s
     then svConstellation else 0)
    (if test_bits mask QMI_LOC_EVENT_MASK_GNSS_SV_POLYNOMIAL_REPORT_V02 then svConstellation else 0).

Definition LOC_API_V02_DEF_SESSION_ID : Z := 1.

Definition convertPowerMode (p : GnssPowerMode) : qmiLocPowerModeEnumT_v02 :=
  match p with
  | GNSS_POWER_MODE_M1 => eQMI_LOC_POWER_MODE_IMPROVED_ACCURACY_V02
  | GNSS_POWER_MODE_M2 => eQMI_LOC_POWER_MODE_NORMAL_V02
  | GNSS_POWER_MODE_M3 => eQMI_LOC_POWER_MODE_BACKGROUND_DEFINED_POWER_V02
  | GNSS_POWER_MODE_M4 => eQMI_LOC_POWER_MODE_BACKGROUND_DEFINED_TIME_V02
  | GNSS_POWER_MODE_M5 => eQMI_LOC_POWER_MODE_BACKGROUND_KEEP_WARM_V02
  | GNSS_POWER_MODE_INVALID => QMILOCPOWERMODEENUMT_MIN_ENUM_VAL_V02
  end.

(** The message of startTimeBasedTracking, with the fields it sets. *)
Definition start_req (options : TrackingOptions) : qmiLocStartReq :=
  {| sr_sessionId := 1;
     sr_minInterval := Some (minInterval options);
     sr_minIntermediatePositionReportInterval := Some (minInterval options);
     sr_horizontalAccuracyLevel :=
       Some (match powerMode options with
             | GNSS_POWER_MODE_M3 | GNSS_POWER_MODE_M4 | GNSS_POWER_MODE_M5 => eQMI_LOC_ACCURACY_LOW_V02
             | _ => eQMI_LOC_ACCURACY_HIGH_V02
             end);
     sr_fixRecurrence := Some eQMI_LOC_RECURRENCE_PERIODIC_V02;
     sr_configAltitudeAssumed := Some eQMI_LOC_ALTITUDE_ASSUMED_IN_GNSS_SV_INFO_DISABLED_V02;
     sr_powerMode :=
       match powerMode options with
       | GNSS_POWER_MODE_INVALID => None
       | GNSS_POWER_MODE_M4 => Some (convertPowerMode GNSS_POWER_MODE_M4, minInterval options)
       | p => Some (convertPowerMode p, tbm options)
       end |}.

Section LocApiV02.
Context (modem : Modem).
(** What ContextBase knows of the modem: LOC_API_ADAPTER_MESSAGE_BATCHED_GENFENCE_BREACH, and
    gnssConstellationConfig(). *)
Context (batchedBreach constellationConfig : bool).

(** locClientSendReq: whether the request was sent; no indication is waited for. *)
Definition locClientSendReq (r : Request) : M ApiState bool :=
  _ ← modify (send_request r); gets (λ s, fst (modem (requests s))).
Definition failure_unless (sent : bool) : LocationError :=
  if sent then LOCATION_ERROR_SUCCESS else LOCATION_ERROR_GENERAL_FAILURE.

(** The modem is told when the events it should report have changed. *)
Definition register_changed (adapterMask : Z) : M ApiState unit :=
  s ← gets session;
  let qmiMask := adjustMaskIfNoSessionOrEngineOff s (convertMask batchedBreach adapterMask) in
  ok ← (if qmiMask =? mQmiMask s then mret false else locClientSendReq (RegEvents qmiMask));
  when ok
    (let maskDiff := Z.lxor qmiMask (mQmiMask s) in
     _ ← when (test_bits (Z.land maskDiff qmiMask) QMI_LOC_EVENT_MASK_WIFI_REQ_V02)
           (_ ← LOC_SEND_SYNC_REQ modem NotifyWifiStatusAvailable; mret tt);
     _ ← when (mMaster s && test_bits maskDiff QMI_LOC_EVENT_MASK_GNSS_SV_POLYNOMIAL_REPORT_V02)
           (_ ← LOC_SEND_SYNC_REQ modem (setSvMeasurementConstellation_req s
                  (if constellationConfig
                   then Z.lor qmiMask QMI_LOC_EVENT_MASK_GNSS_MEASUREMENT_REPORT_V02
                   else Z.ldiff qmiMask QMI_LOC_EVENT_MASK_GNSS_MEASUREMENT_REPORT_V02)); mret tt);
     upd_session (λ s, set_masks (mMask s) qmiMask s)).
Definition registerEventMask (adapterMask : Z) : M ApiState unit :=
  _ ← register_changed adapterMask;
  upd_session (λ s, set_masks adapterMask (mQmiMask s) s).

(** open: whether it returns LOC_API_ADAPTER_ERR_SUCCESS. Of a new connection the master asks
    whether measurements are supported; nothing is registered when the check of the supported
    messages fails, which is a success all the same. The other queries, which set what ContextBase
    knows of the modem, are left out, and [mMasterRegisterNotSupported], the answer to
    registerMasterClient, is taken to be the same at every connection. *)
Definition open (mask : Z) : M ApiState bool :=
  s ← gets session;
  let newMask := Z.ldiff mask (mExcludedMask s) in
  if clientHandle s then _ ← registerEventMask newMask; mret true
  else
    opened ← locClientSendReq ClientOpen;
    if opened : bool then
      _ ← upd_session (set_clientHandle true);
      _ ← when (mMaster s)
            (_ ← LOC_SEND_SYNC_REQ modem (setSvMeasurementConstellation_req s QMI_LOC_EVENT_MASK_GNSS_MEASUREMENT_REPORT_V02); mret tt);
      checked ← locClientSendReq SupportMsgCheck;
      _ ← when checked (registerEventMask newMask);
      mret true
    else
      _ ← upd_session (λ s, set_nmeaMask 0 (set_masks 0 0 s));
      mret false.

(** close. The result of locClientClose only becomes that of close, which no caller reads. *)
Definition close : M ApiState unit :=
  upd_session (λ s, set_clientHandle false (set_inSession false (set_masks 0 0 s))).

(** proc of MsgUpdateEngineState, but for the failed commands it sends again. *)
Definition updateEngineState (engineOn : bool) : M ApiState unit :=
  _ ← upd_session (set_engineOn engineOn);
  s ← gets session;
  registerEventMask (mMask s).

Definition startTimeBasedTracking (options : TrackingOptions) : M ApiState LocationError :=
  s ← gets session;
  _ ← when (negb (mInSession s)) (upd_session reset_cal);
  _ ← upd_session (λ s, set_measurementsStarted true (set_inSession true s));
  _ ← registerEventMask (mMask s);
  _ ← setOperationMode modem (mode options);
  _ ← upd_session (set_minInterval (minInterval options));
  sent ← locClientSendReq (Start (start_req options));
  mret (failure_unless sent).

Definition stopTimeBasedTracking : M ApiState LocationError :=
  sent ← locClientSendReq (Stop 1);
  _ ← when sent
    (_ ← upd_session (λ s, set_powerMode GNSS_POWER_MODE_INVALID (set_inSession false s));
     s ← gets session;
     when (negb (mEngineOn s)) (registerEventMask (mMask s)));
  mret (failure_unless sent).

(** The buffer is freed when there is none: [if (!mGnssMeasurements)]. *)
Definition stopFix : M ApiState LocationError :=
  sent ← locClientSendReq (Stop LOC_API_V02_DEF_SESSION_ID);
  _ ← upd_session (λ s, set_powerMode GNSS_POWER_MODE_INVALID (set_inSession false (set_firstFix false s)));
  s ← gets session;
  _ ← when (negb (mEngineOn s)) (registerEventMask (mMask s));
  allocated ← gets (λ a, mGnssMeasurements (session a));
  _ ← when (negb allocated) (upd_session (set_gnssMeasurements false));
  mret (failure_unless sent).

(** The answer of the modem is logged, not returned. *)
Definition startDistanceBasedTracking (sessionId : Z) (options : LocationOptions) : M ApiState LocationError :=
  let latency := minInterval options / 1000 in
  _ ← LOC_SEND_SYNC_REQ modem (StartDbt sessionId (minDistance options) (if latency =? 0 then 1 else latency));
  mret LOCATION_ERROR_SUCCESS.
Definition stopDistanceBasedTracking (sessionId : Z) : M ApiState LocationError :=
  _ ← LOC_SEND_SYNC_REQ modem (StopDbt sessionId);
  mret LOCATION_ERROR_SUCCESS.

(** The mask is kept whether or not the modem took it. *)
Definition setNMEATypesSync (typesMask : Z) : M ApiState unit :=
  s ← gets session;
  when (negb (typesMask =? mNmeaMask s))
    (_ ← LOC_SEND_SYNC_REQ modem (SetNmeaTypes typesMask);
     upd_session (set_nmeaMask typesMask)).
End LocApiV02.

(** ** Code that changes the API only as [R] allows, whatever the modem *)
Section changes.
Context (R : relation ApiState) `{!PreOrder R} (modem : Modem).

Lemma changes_upd f : (∀ a, R a (update_session f a)) → changes R (upd_session f).
Proof. apply changes_modify. Qed.
Lemma changes_send r : (∀ a, R a (send_request r a)) → changes R (locClientSendReq modem r).
Proof. intros HR a. by eexists _, (send_request r a). Qed.
Lemma changes_sync r : (∀ a, R a (send_request r a)) → changes R (LOC_SEND_SYNC_REQ modem r).
Proof. intros HR a. unfold LOC_SEND_SYNC_REQ. mrun. destruct (modem _). by eexists _, (send_request r a). Qed.
End changes.

Ltac changes :=
  repeat first
    [ progress intros
    | match goal with
      | |- changes _ (LOC_SEND_SYNC_REQ _ _) => apply changes_sync
      | |- changes _ (locClientSendReq _ _) => apply changes_send
      end; intros; done
    | lazymatch goal with
      | |- changes _ (gets (λ a, mGnssMeasurements (session a)) ≫= _) => fail
      | |- changes _ (_ ≫= _) => apply changes_bind; [apply _| |]
      end
    | apply changes_when; [apply _|] | apply changes_gets; apply _ | apply changes_ret; apply _
    | apply changes_upd; done
    | match goal with |- changes _ (match ?x with _ => _ end) => destruct x end ].

(** The requests that register for events. *)
Definition registration (r : Request) : Prop :=
  match r with
  | RegEvents _ | NotifyWifiStatusAvailable | SetGNSSConstRepConfig _ _ | ClientOpen | SupportMsgCheck => True
  | _ => False
  end.
#[export] Instance registration_dec r : Decision (registration r).
Proof. destruct r; apply _. Defined.
Definition registering : relation ApiState := λ a a',
  (∃ l, requests a' = requests a ++ l ∧ Forall registration l) ∧
  reports a' = reports a ∧ mExcludedMask (session a') = mExcludedMask (session a) ∧
  (mBatchSize a', mTripBatchSize a') = (mBatchSize a, mTripBatchSize a).
#[export] Instance registering_preorder : PreOrder registering.
Proof.
  split.
  - intros a. split; [|done]. exists []. by rewrite app_nil_r.
  - intros a1 a2 a3 ((l1 & E1 & HF1) & ? & ? & ?) ((l2 & E2 & HF2) & ? & ? & ?). split_and!; [|congruence..].
    exists (l1 ++ l2). rewrite E2, E1, <- app_assoc. split; [done|]. by apply Forall_app.
Qed.
Lemma registering_send r a : registration r → registering a (send_request r a).
Proof. intros Hr. split; [|done]. exists [r]. split; [done|]. by repeat constructor. Qed.

Section any_modem.
Context (modem : Modem) (batchedBreach constellationConfig : bool).

Lemma startTimeBasedTracking_powerMode options a :
  mPowerMode ∘ session <$> outcome_state (startTimeBasedTracking modem batchedBreach constellationConfig options a)
  = Some (mPowerMode (session a)).
Proof.
  assert (H : changes (agree (λ a, mPowerMode (session a)))
                (startTimeBasedTracking modem batchedBreach constellationConfig options)).
  { unfold startTimeBasedTracking, registerEventMask, register_changed, setOperationMode. changes. }
  destruct (H a) as (x & a' & -> & E). simpl. by rewrite <- E.
Qed.

(** The buffer is there and stays, or there is none to free. *)
Lemma stopFix_measurements a :
  mGnssMeasurements ∘ session <$> outcome_state (stopFix modem batchedBreach constellationConfig a)
  = Some (mGnssMeasurements (session a)).
Proof.
  assert (H : changes (agree (λ a, mGnssMeasurements (session a))) (stopFix modem batchedBreach constellationConfig)).
  { unfold stopFix, registerEventMask, register_changed. changes.
    intros a1. destruct (mGnssMeasurements (session a1)) eqn:E.
    - eexists _, a1. split; [mrun; rewrite E; reflexivity|done].
    - eexists _, _. split; [mrun; rewrite E; reflexivity|]. unfold agree. by rewrite E. }
  destruct (H a) as (x & a' & -> & E). simpl. by rewrite <- E.
Qed.

(** Opening the API with another mask. *)
Lemma registerEventMask_run mask a :
  ∃ a', registerEventMask modem batchedBreach constellationConfig mask a = Done tt a' ∧ registering a a' ∧
        mMask (session a') = mask ∧ clientHandle (session a') = clientHandle (session a).
Proof.
  assert (H : changes registering (register_changed modem batchedBreach constellationConfig mask)).
  { unfold register_changed. changes; try (first [apply changes_sync|apply changes_send]; intros; by apply registering_send).
    apply changes_upd. intros a1. split; [|done]. exists []. by rewrite app_nil_r. }
  assert (H' : changes (agree (λ a, clientHandle (session a))) (register_changed modem batchedBreach constellationConfig mask)).
  { unfold register_changed. changes. }
  destruct (H a) as ([] & a1 & E1 & H1). destruct (H' a) as ([] & a2 & E2 & H2). rewrite E1 in E2. injection E2 as <-.
  exists (update_session (λ s, set_masks mask (mQmiMask s) s) a1).
  unfold registerEventMask. rewrite (bind_done _ _ _ _ _ E1). split_and!; [done| |done|by symmetry].
  etrans; [exact H1|]. split; [|done]. exists []. by rewrite app_nil_r.
Qed.

Lemma open_registering mask : changes registering (open modem batchedBreach constellationConfig mask).
Proof.
  assert (Hs : ∀ r, registration r → changes registering (LOC_SEND_SYNC_REQ modem r)).
  { intros r Hr. apply changes_sync. intros. by apply registering_send. }
  assert (Hl : ∀ r, registration r → changes registering (locClientSendReq modem r)).
  { intros r Hr. apply changes_send. intros. by apply registering_send. }
  assert (Hu : ∀ f, (∀ s, mExcludedMask (f s) = mExcludedMask s) → changes registering (upd_session f)).
  { intros f Hf. apply changes_upd. intros a. split; [exists []; by rewrite app_nil_r|]. split; [done|]. split; [apply Hf|done]. }
  assert (Hr : ∀ m, changes registering (registerEventMask modem batchedBreach constellationConfig m)).
  { intros m a. destruct (registerEventMask_run m a) as (a' & E & H & _). by exists tt, a'. }
  unfold open. changes; first [apply Hr|apply Hs|apply Hl|apply Hu]; done.
Qed.
(** It succeeds when the connection can be made. *)
Lemma open_done mask a : fst (modem (requests a ++ [ClientOpen])) = true →
  ∃ a', open modem batchedBreach constellationConfig mask a = Done true a'.
Proof.
  intros Hc. destruct (open_registering mask a) as (ok & a' & E & _). exists a'. rewrite E. revert E. unfold open.
  rewrite (bind_done _ _ a (session a) a) by done. cbv zeta. destruct (clientHandle (session a)).
  - destruct (registerEventMask_run (Z.ldiff mask (mExcludedMask (session a))) a) as (a1 & E1 & _).
    rewrite (bind_done _ _ _ _ _ E1). by intros [= <- _].
  - rewrite (bind_done _ _ a true (send_request ClientOpen a)) by (unfold locClientSendReq; mrun; by rewrite Hc).
    intros ([] & a1 & _ & ([] & a2 & _ & (k & a3 & _ & ([] & a4 & _ & [= <- _])%bind_inv)%bind_inv)%bind_inv)%bind_inv. done.
Qed.
(** Whether the connection exists, or can be made. *)
Definition connects (a : ApiState) : bool :=
  clientHandle (session a) ||
  (let h := requests a ++ [ClientOpen] in
   let query := if mMaster (session a)
                then [setSvMeasurementConstellation_req (session a) QMI_LOC_EVENT_MASK_GNSS_MEASUREMENT_REPORT_V02] else [] in
   fst (modem h) && fst (modem (h ++ query ++ [SupportMsgCheck]))).
Lemma open_connected mask a : connects a = true →
  ∃ a', open modem batchedBreach constellationConfig mask a = Done true a' ∧ registering a a' ∧
        clientHandle (session a') = true ∧ mMask (session a') = Z.ldiff mask (mExcludedMask (session a)).
Proof.
  intros Hc. unfold open. rewrite (bind_done _ _ a (session a) a) by done. cbv zeta. unfold connects in Hc. cbv zeta in Hc.
  destruct (clientHandle (session a)) eqn:Eh.
  { destruct (registerEventMask_run (Z.ldiff mask (mExcludedMask (session a))) a) as (a' & E & H & Hm & Hh).
    exists a'. rewrite (bind_done _ _ _ _ _ E). split_and!; [done..|congruence|done]. }
  simpl in Hc. apply andb_prop in Hc as [H1 H2].
  rewrite (bind_done _ _ a true (send_request ClientOpen a)) by (unfold locClientSendReq; mrun; by rewrite H1).
  set (a2 := update_session (set_clientHandle true) (send_request ClientOpen a)).
  rewrite (bind_done _ _ _ tt a2) by done.
  set (r := setSvMeasurementConstellation_req _ _) in *. set (q := if mMaster (session a) then [r] else []) in *.
  assert (Hq : ∃ a3, when (mMaster (session a)) (_ ← LOC_SEND_SYNC_REQ modem r; mret tt) a2 = Done tt a3 ∧
    requests a3 = requests a2 ++ q ∧ session a3 = session a2 ∧ registering a a3).
  { unfold q. destruct (mMaster (session a)); simpl.
    - unfold LOC_SEND_SYNC_REQ. mrun. destruct (modem ((requests a ++ [ClientOpen]) ++ [r])). eexists. split; [reflexivity|]. split_and!; [done..|].
      split; [|done]. exists [ClientOpen; r]. simpl. rewrite <- app_assoc. split; [done|]. by repeat constructor.
    - exists a2. rewrite app_nil_r. split_and!; [done..|]. split; [|done]. exists [ClientOpen]. split; [done|]. by repeat constructor. }
  destruct Hq as (a3 & E3 & Er3 & Es3 & HR3). rewrite (bind_done _ _ _ _ _ E3).
  rewrite (bind_done _ _ a3 true (send_request SupportMsgCheck a3)).
  2: { unfold locClientSendReq. mrun. rewrite Er3. simpl. rewrite <- app_assoc. by rewrite H2. }
  destruct (registerEventMask_run (Z.ldiff mask (mExcludedMask (session a))) (send_request SupportMsgCheck a3)) as (a5 & E5 & H5 & Hm5 & Hh5).
  exists a5. unfold when at 1. rewrite (bind_done _ _ _ _ _ E5). split_and!; [done| |by rewrite Hh5; simpl; rewrite Es3|done].
  etrans; [exact HR3|]. etrans; [|exact H5]. by apply registering_send.
Qed.
End any_modem.

Section operations.
Context (modem : Modem) (batchedBreach constellationConfig : bool).

(** proc of LocSsrMsg, after a restart of the modem, up to the call of the adapters. *)
Definition reopen (mask : Z) : M ApiState bool :=
  _ ← close;
  _ ← modify (send_request ModemRestart);
  open modem batchedBreach constellationConfig mask.

(** What happens to the API, one message of its task after another. *)
Inductive SessionOp :=
  | OpOpen (mask : Z)
  | OpReopen (mask : Z)
  | OpEngineState (engineOn : bool)
  | OpStart (options : TrackingOptions)
  | OpStop
  | OpStopFix
  | OpStartDbt (sessionId : Z) (options : LocationOptions)
  | OpStopDbt (sessionId : Z).
Definition session_op (o : SessionOp) : M ApiState unit :=
  match o with
  | OpOpen mask => _ ← open modem batchedBreach constellationConfig mask; mret tt
  | OpReopen mask => _ ← reopen mask; mret tt
  | OpEngineState b => updateEngineState modem batchedBreach constellationConfig b
  | OpStart options => _ ← startTimeBasedTracking modem batchedBreach constellationConfig options; mret tt
  | OpStop => _ ← stopTimeBasedTracking modem batchedBreach constellationConfig; mret tt
  | OpStopFix => _ ← stopFix modem batchedBreach constellationConfig; mret tt
  | OpStartDbt id options => _ ← startDistanceBasedTracking modem id options; mret tt
  | OpStopDbt id => _ ← stopDistanceBasedTracking modem id; mret tt
  end.
Fixpoint session_ops (l : list SessionOp) : M ApiState unit :=
  match l with
  | [] => mret tt
  | o :: l => _ ← session_op o; session_ops l
  end.
End operations.

(** ** What the modem reports *)

Definition grants_events (modem : Modem) : Prop := ∀ h q, fst (modem (h ++ [RegEvents q])) = true.

(** It says which messages it supports; a connection can always be made. *)
Definition answers_check (modem : Modem) : Prop := ∀ h, fst (modem (h ++ [SupportMsgCheck])) = true.
Definition connectable (modem : Modem) : Prop := ∀ h, fst (modem (h ++ [ClientOpen])) = true.
Definition opens (o : SessionOp) : Prop := match o with OpOpen _ | OpReopen _ => True | _ => False end.

Section registered.
Context (modem : Modem) (batchedBreach constellationConfig : bool) (excluded : Z) (Hgrant : grants_events modem).
Notation wanted s := (adjustMaskIfNoSessionOrEngineOff s (convertMask batchedBreach (mMask s))).

(** The modem reports what is wanted, but for the time between the end of a session and the
    moment the engine is off. *)
Record Registered (m : Z) (a : ApiState) : Prop := {
  re_mask : mMask (session a) = m;
  re_excluded : mExcludedMask (session a) = excluded;
  re_modem : modem_events (requests a) = mQmiMask (session a);
  re_wanted : mInSession (session a) = true ∨ mEngineOn (session a) = false →
              mQmiMask (session a) = wanted (session a);
  re_closed : clientHandle (session a) = false → m = 0 ∧ mQmiMask (session a) = 0 }.

(** Code that leaves alone the events and what they depend on. *)
Definition events_of (s : Session) : Z * Z * Z * bool * bool * bool :=
  (mExcludedMask s, mMask s, mQmiMask s, mInSession s, mEngineOn s, clientHandle s).
Definition no_events (m : M ApiState unit) : Prop :=
  ∀ a, ∃ a', m a = Done tt a' ∧ events_of (session a') = events_of (session a) ∧
             modem_events (requests a') = modem_events (requests a).

Lemma no_events_upd f : (∀ s, events_of (f s) = events_of s) → no_events (upd_session f).
Proof. intros Hf a. eexists. split; [reflexivity|]. split; [apply Hf|done]. Qed.
Lemma no_events_bind m k : no_events m → no_events k → no_events (_ ← m; k).
Proof.
  intros Hm Hk a. destruct (Hm a) as (a1 & E1 & Es1 & Er1). destruct (Hk a1) as (a2 & E2 & Es2 & Er2).
  exists a2. rewrite (bind_done _ _ _ _ _ E1). split; [done|]. split; congruence.
Qed.
Lemma no_events_when b m : no_events m → no_events (when b m).
Proof. intros Hm. destruct b; [done|]. intros a. by exists a. Qed.
Lemma no_events_send r : (∀ m, note_events m r = m) → no_events (_ ← LOC_SEND_SYNC_REQ modem r; mret tt).
Proof.
  intros Hr a. unfold LOC_SEND_SYNC_REQ. mrun. destruct (modem _). simpl. eexists. split; [reflexivity|].
  split; [done|]. simpl. by rewrite modem_events_snoc, Hr.
Qed.
Lemma no_events_setOperationMode m : no_events (setOperationMode modem m).
Proof.
  intros a. destruct (no_events_send (SetOperationMode match m with
    | GNSS_SUPL_MODE_MSB => eQMI_LOC_OPER_MODE_MSB_V02 | GNSS_SUPL_MODE_MSA => eQMI_LOC_OPER_MODE_MSA_V02
    | _ => eQMI_LOC_OPER_MODE_STANDALONE_V02 end) (λ _, eq_refl) a) as (a' & E & H).
  exists a'. split; [|done]. exact E.
Qed.

Lemma adjust_session s s' q :
  mInSession s' = mInSession s → mEngineOn s' = mEngineOn s →
  adjustMaskIfNoSessionOrEngineOff s' q = adjustMaskIfNoSessionOrEngineOff s q.
Proof. unfold adjustMaskIfNoSessionOrEngineOff. by intros -> ->. Qed.

Lemma register_changed_spec mask a :
  modem_events (requests a) = mQmiMask (session a) →
  ∃ a', register_changed modem batchedBreach constellationConfig mask a = Done tt a' ∧
        events_of (session a') =
          (mExcludedMask (session a), mMask (session a),
           adjustMaskIfNoSessionOrEngineOff (session a) (convertMask batchedBreach mask),
           mInSession (session a), mEngineOn (session a), clientHandle (session a)) ∧
        modem_events (requests a') = mQmiMask (session a').
Proof.
  intros Hr. unfold register_changed. rewrite (bind_done _ _ _ (session a) a) by done. cbv zeta.
  set (q := adjustMaskIfNoSessionOrEngineOff _ _). destruct (Z.eqb_spec q (mQmiMask (session a))) as [Eq|Nq].
  { exists a. split; [done|]. unfold events_of. by rewrite Eq. }
  rewrite (bind_done _ _ _ true (send_request (RegEvents q) a)).
  2: { unfold locClientSendReq. mrun. by rewrite Hgrant. }
  match goal with |- context [when true ?m] => change (when true m) with m end.
  set (a1 := send_request (RegEvents q) a).
  assert (E1 : modem_events (requests a1) = q) by (simpl; by rewrite modem_events_snoc).
  match goal with |- context [(when ?b1 ?m1) ≫= _] =>
    destruct (no_events_when b1 m1 (no_events_send NotifyWifiStatusAvailable (λ _, eq_refl)) a1)
      as (a2 & E2 & Es2 & Er2) end.
  match goal with |- context [when ?c (LOC_SEND_SYNC_REQ modem (setSvMeasurementConstellation_req ?s ?x) ≫= _)] =>
    destruct (no_events_when c _ (no_events_send (setSvMeasurementConstellation_req s x) (λ _, eq_refl)) a2)
      as (a3 & E3 & Es3 & Er3) end.
  assert (Es : events_of (session a3) = events_of (session a)) by (by rewrite Es3, Es2).
  unfold events_of in Es. injection Es as F0 F1 F2 F3 F4 F5.
  exists (update_session (λ s, set_masks (mMask s) q s) a3). split.
  - rewrite (bind_done _ _ _ _ _ E2), (bind_done _ _ _ _ _ E3). reflexivity.
  - unfold events_of. simpl. rewrite F0, F1, F3, F4, F5. split; [done|]. congruence.
Qed.
Lemma registerEventMask_spec mask a :
  modem_events (requests a) = mQmiMask (session a) →
  ∃ a', registerEventMask modem batchedBreach constellationConfig mask a = Done tt a' ∧
        events_of (session a') =
          (mExcludedMask (session a), mask,
           adjustMaskIfNoSessionOrEngineOff (session a) (convertMask batchedBreach mask),
           mInSession (session a), mEngineOn (session a), clientHandle (session a)) ∧
        modem_events (requests a') = mQmiMask (session a').
Proof.
  intros Hr. destruct (register_changed_spec mask a Hr) as (a1 & E1 & [= F0 F1 F2 F3 F4 F5] & Er).
  exists (update_session (λ s, set_masks mask (mQmiMask s) s) a1). unfold registerEventMask.
  rewrite (bind_done _ _ _ _ _ E1). unfold events_of. simpl. rewrite F0, F2, F3, F4, F5. split_and!; [done..|congruence].
Qed.
Lemma registerEventMask_registered mask a :
  modem_events (requests a) = mQmiMask (session a) → mExcludedMask (session a) = excluded →
  (clientHandle (session a) = false → mask = 0) →
  ∃ a', registerEventMask modem batchedBreach constellationConfig mask a = Done tt a' ∧ Registered mask a' ∧
        clientHandle (session a') = clientHandle (session a).
Proof.
  intros Hr Hx Hc. destruct (registerEventMask_spec mask a Hr) as (a' & E & [= E0 E1 E2 E3 E4 E5] & Er).
  exists a'. split; [done|]. split; [|done]. split; [done|congruence|done| |].
  - intros _. rewrite E1, E2. symmetry. by apply adjust_session.
  - rewrite E5, E2. intros ->%Hc. split; [done|]. unfold adjustMaskIfNoSessionOrEngineOff.
    destruct batchedBreach, (mInSession (session a)), (mEngineOn (session a)); reflexivity.
Qed.

(** The same state for the invariant. *)
Lemma registered_same m a a' :
  events_of (session a') = events_of (session a) → modem_events (requests a') = modem_events (requests a) →
  Registered m a → Registered m a'.
Proof.
  intros [= E0 E1 E2 E3 E4 E5] Er [Hk Hx Hm Hw Hc]. split; [congruence..| |by rewrite E2, E5].
  rewrite E1, E2, E3, E4. intros H. rewrite (Hw H). symmetry. by apply adjust_session.
Qed.

Lemma locClientSendReq_done r a :
  locClientSendReq modem r a = Done (fst (modem (requests a ++ [r]))) (send_request r a).
Proof. done. Qed.

Definition keeps_registered (m : M ApiState unit) : Prop :=
  ∀ k a, Registered k a → ∃ a', m a = Done tt a' ∧ Registered k a' ∧ clientHandle (session a') = clientHandle (session a).

Lemma registered_no_events m : no_events m → keeps_registered m.
Proof.
  intros Hm k a Ha. destruct (Hm a) as (a' & E & Es & Er). exists a'. split; [done|].
  split; [by eapply registered_same|]. by injection Es.
Qed.

Lemma registered_start options :
  keeps_registered (_ ← startTimeBasedTracking modem batchedBreach constellationConfig options; mret tt).
Proof.
  intros k a [Hk Hx Hm _ Hc]. unfold startTimeBasedTracking.
  destruct (no_events_when (negb (mInSession (session a))) _ (no_events_upd reset_cal (λ _, eq_refl)) a)
    as (a1 & E1 & Es1 & Er1).
  injection Es1 as F0 F1 F2 F3 F4 F5.
  set (f := λ s, set_measurementsStarted true (set_inSession true s)).
  set (a2 := update_session f a1).
  destruct (registerEventMask_registered (mMask (session a)) a2) as (a3 & E3 & H3 & C3); [simpl; congruence..| |].
  { simpl. rewrite F5, Hk. by intros [? _]%Hc. }
  rewrite Hk in H3.
  destruct (no_events_setOperationMode (mode options) a3) as (a4 & E4 & Es4 & Er4).
  pose proof (registered_same _ _ _ Es4 Er4 H3) as H4.
  set (a5 := update_session (set_minInterval (minInterval options)) a4).
  exists (send_request (Start (start_req options)) a5). split.
  - rewrite (bind_done _ _ _ (failure_unless (fst (modem (requests a4 ++ [Start (start_req options)]))))
      (send_request (Start (start_req options)) a5)); [done|].
    rewrite (bind_done _ _ a (session a) a) by done. rewrite (bind_done _ _ _ _ _ E1).
    rewrite (bind_done _ _ a1 tt a2) by done. rewrite (bind_done _ _ _ _ _ E3).
    rewrite (bind_done _ _ _ _ _ E4). reflexivity.
  - split; [apply (registered_same _ a4); [done| |done]; simpl; by rewrite modem_events_snoc|].
    injection Es4 as _ _ _ _ _ Eh. simpl. rewrite Eh, C3. exact F5.
Qed.

(** The end of a session: when the engine is on, the events are given up when it goes off. *)
Lemma registered_ended f r k a :
  (∀ s, mMask (f s) = mMask s ∧ mExcludedMask (f s) = mExcludedMask s ∧ mQmiMask (f s) = mQmiMask s ∧ mInSession (f s) = false ∧ mEngineOn (f s) = mEngineOn s ∧
     clientHandle (f s) = clientHandle s) →
  (∀ m, note_events m r = m) → Registered k a →
  ∃ a', (_ ← upd_session f;
         s ← gets session;
         when (negb (mEngineOn s)) (registerEventMask modem batchedBreach constellationConfig (mMask s)))
        (send_request r a) = Done tt a' ∧ Registered k a' ∧ clientHandle (session a') = clientHandle (session a).
Proof.
  intros Hf Hr [Hk Hx Hm _ Hc]. set (a1 := send_request r a). destruct (Hf (session a)) as (F1 & F2 & F3 & F4 & F5 & F6).
  assert (Hm1 : modem_events (requests a1) = mQmiMask (f (session a1))).
  { simpl. rewrite modem_events_snoc, Hr. congruence. }
  set (a2 := update_session f a1).
  rewrite (bind_done _ _ a1 tt a2) by done. rewrite (bind_done _ _ a2 (session a2) a2) by done.
  destruct (mEngineOn (session a2)) eqn:Ee; simpl negb; cbv iota.
  - exists a2. split; [done|]. split; [|exact F6]. split; [simpl; congruence|simpl; congruence|exact Hm1| |].
    2: { change (clientHandle (f (session a)) = false → k = 0 ∧ mQmiMask (f (session a)) = 0). by rewrite F6, F3. }
    intros [Hi|?]; [|congruence]. simpl in Hi. congruence.
  - destruct (registerEventMask_registered (mMask (session a2)) a2 Hm1) as (a3 & E3 & H3 & C3); [simpl; congruence| |].
    { simpl. rewrite F1, F6, Hk. by intros [? _]%Hc. }
    exists a3. split; [exact E3|]. simpl in H3. rewrite F1, Hk in H3. split; [done|]. rewrite C3. exact F6.
Qed.

Lemma registered_stop :
  keeps_registered (_ ← stopTimeBasedTracking modem batchedBreach constellationConfig; mret tt).
Proof.
  intros k a Ha. unfold stopTimeBasedTracking.
  destruct (registered_ended (λ s, set_powerMode GNSS_POWER_MODE_INVALID (set_inSession false s)) (Stop 1) k a)
    as (a1 & E1 & H1); [done..|].
  destruct (fst (modem (requests a ++ [Stop 1]))) eqn:Em.
  - exists a1. split; [|done]. rewrite (bind_done _ _ _ LOCATION_ERROR_SUCCESS a1); [done|].
    rewrite (bind_done _ _ _ _ _ (locClientSendReq_done (Stop 1) a)), Em. by rewrite (bind_done _ _ _ _ _ E1).
  - exists (send_request (Stop 1) a). split.
    + rewrite (bind_done _ _ _ LOCATION_ERROR_GENERAL_FAILURE (send_request (Stop 1) a)); [done|].
      by rewrite (bind_done _ _ _ _ _ (locClientSendReq_done (Stop 1) a)), Em.
    + split; [|done]. apply (registered_same _ a); [done| |done]. simpl. by rewrite modem_events_snoc.
Qed.

Lemma bind_assoc_run {X Y Z} (m : M ApiState X) (k : X → M ApiState Y) (l : Y → M ApiState Z) a :
  ((m ≫= k) ≫= l) a = (m ≫= λ x, k x ≫= l) a.
Proof. unfold mbind, M_bind. by destruct (m a). Qed.

Lemma registered_stopFix : keeps_registered (_ ← stopFix modem batchedBreach constellationConfig; mret tt).
Proof.
  intros k a Ha. unfold stopFix.
  set (f := λ s, set_powerMode GNSS_POWER_MODE_INVALID (set_inSession false (set_firstFix false s))).
  set (r := Stop LOC_API_V02_DEF_SESSION_ID).
  destruct (registered_ended f r k a) as (a1 & E1 & H1 & C1); [done..|].
  set (a2 := {| mBatchSize := mBatchSize a; mDesiredBatchSize := mDesiredBatchSize a;
     mTripBatchSize := mTripBatchSize a; mDesiredTripBatchSize := mDesiredTripBatchSize a;
     session := f (session a); requests := requests a ++ [r]; reports := reports a |}).
  rewrite (bind_done _ _ (send_request r a) tt a2), (bind_done _ _ a2 (session a2) a2) in E1 by done.
  destruct (no_events_when (negb (mGnssMeasurements (session a1))) _ (no_events_upd (set_gnssMeasurements false) (λ _, eq_refl)) a1)
    as (a3 & E3 & Es3 & Er3).
  exists a3. split; [|split; [by apply (registered_same _ a1)|injection Es3 as _ _ _ _ _ ->; exact C1]].
  rewrite (bind_done _ _ _ (failure_unless (fst (modem (requests a ++ [r])))) a3); [done|].
  rewrite (bind_done _ _ _ _ _ (locClientSendReq_done r a)).
  rewrite (bind_done _ _ (send_request r a) tt a2), (bind_done _ _ a2 (session a2) a2) by done.
  rewrite (bind_done _ _ _ _ _ E1), (bind_done _ _ a1 (mGnssMeasurements (session a1)) a1) by done.
  by rewrite (bind_done _ _ _ _ _ E3).
Qed.

(** The events the adapters want, after [o]. *)
Definition mask_after (m : Z) (o : SessionOp) : Z :=
  match o with OpOpen mask | OpReopen mask => Z.ldiff mask excluded | _ => m end.

(** The modem is registered for the mask [k], or there is no connection. *)
Definition Linked (k : Z) (a : ApiState) : Prop := Registered (if clientHandle (session a) then k else 0) a.

Context (Hcheck : answers_check modem).
Lemma registered_open mask m a : Registered m a →
  ∃ ok a', open modem batchedBreach constellationConfig mask a = Done ok a' ∧ Linked (Z.ldiff mask excluded) a' ∧
           (connectable modem → clientHandle (session a') = true).
Proof.
  intros Ha. unfold open. rewrite (bind_done _ _ a (session a) a) by done. cbv zeta. rewrite (re_excluded _ _ Ha).
  set (k := Z.ldiff mask excluded). destruct (clientHandle (session a)) eqn:Eh.
  { destruct (registerEventMask_registered k a) as (a' & E & H & Eh'); [apply Ha..|congruence|].
    exists true, a'. rewrite (bind_done _ _ _ _ _ E). unfold Linked. by rewrite Eh', Eh. }
  destruct (re_closed _ _ Ha Eh) as [-> Hq]. rewrite (bind_done _ _ _ _ _ (locClientSendReq_done ClientOpen a)).
  assert (Hm : modem_events (requests a ++ [ClientOpen]) = 0).
  { rewrite modem_events_snoc. simpl. by rewrite (re_modem _ _ Ha). }
  destruct (fst (modem (requests a ++ [ClientOpen]))) eqn:Eo.
  - set (a2 := update_session (set_clientHandle true) (send_request ClientOpen a)). rewrite (bind_done _ _ _ tt a2) by done.
    destruct (no_events_when (mMaster (session a)) _ (no_events_send (setSvMeasurementConstellation_req (session a)
      QMI_LOC_EVENT_MASK_GNSS_MEASUREMENT_REPORT_V02) (λ _, eq_refl)) a2) as (a3 & E3 & Es3 & Er3).
    rewrite (bind_done _ _ _ _ _ E3), (bind_done _ _ _ _ _ (locClientSendReq_done SupportMsgCheck a3)), Hcheck.
    injection Es3 as F0 F1 F2 F3 F4 F5. simpl in F0, F1, F2, F5. unfold when.
    destruct (registerEventMask_registered k (send_request SupportMsgCheck a3)) as (a' & E & H & Eh'); simpl.
    + rewrite modem_events_snoc. simpl. rewrite Er3. simpl. congruence.
    + rewrite F0. apply Ha.
    + congruence.
    + exists true, a'. rewrite (bind_done _ _ _ _ _ E). unfold Linked. rewrite Eh'. simpl. by rewrite F5.
  - eexists false, _. split; [reflexivity|]. split; [|intros Hc; by rewrite Hc in Eo].
    unfold Linked. simpl. rewrite Eh. split; simpl; try done; [apply Ha|].
    intros H. pose proof (re_wanted _ _ Ha H) as Hw. rewrite (re_mask _ _ Ha), Hq in Hw. rewrite Hw at 1. by apply adjust_session.
Qed.

Lemma registered_op o k a :
  Linked k a →
  ∃ a', session_op modem batchedBreach constellationConfig o a = Done tt a' ∧ Linked (mask_after k o) a' ∧
        (connectable modem → opens o ∨ clientHandle (session a) = true → clientHandle (session a') = true).
Proof.
  intros Ha. assert (Hkeep : ∀ m, keeps_registered m → ∃ a', m a = Done tt a' ∧ Linked k a' ∧
    (connectable modem → False ∨ clientHandle (session a) = true → clientHandle (session a') = true)).
  { intros m Hm. destruct (Hm _ a Ha) as (a' & E & H & Eh). exists a'. unfold Linked. rewrite Eh. split_and!; [done..|].
    by intros _ [?|?]. }
  destruct o as [m|m|b|o| | |i o|i]; cbn [session_op mask_after opens].
  - destruct (registered_open m _ a Ha) as (ok & a' & E & H & Hc). exists a'. rewrite (bind_done _ _ _ _ _ E). by split_and!; auto.
  - set (f := λ s, set_clientHandle false (set_inSession false (set_masks 0 0 s))).
    set (a1 := send_request ModemRestart (update_session f a)).
    destruct (registered_open m 0 a1) as (ok & a' & E & H & Hc).
    { split; simpl; try done; [apply Ha|by rewrite modem_events_snoc]. }
    exists a'. split_and!; [|done|auto]. rewrite (bind_done _ _ _ ok a'); [done|]. unfold reopen.
    rewrite (bind_done _ _ a tt (update_session f a)) by done. by rewrite (bind_done _ _ _ tt a1).
  - apply Hkeep. intros m a1 H1. unfold updateEngineState. mrun. rewrite (re_mask _ _ H1).
    apply (registerEventMask_registered m (update_session (set_engineOn b) a1)); [apply H1..|].
    by intros [? _]%(re_closed _ _ H1).
  - apply Hkeep, registered_start.
  - apply Hkeep, registered_stop.
  - apply Hkeep, registered_stopFix.
  - destruct (Hkeep _ (registered_no_events _ (no_events_send (StartDbt i (minDistance o)
      (if minInterval o / 1000 =? 0 then 1 else minInterval o / 1000)) (λ _, eq_refl)))) as (a' & E & H').
    exists a'. split; [|done]. rewrite <- E. unfold startDistanceBasedTracking. by rewrite bind_assoc_run.
  - destruct (Hkeep _ (registered_no_events _ (no_events_send (StopDbt i) (λ _, eq_refl)))) as (a' & E & H').
    exists a'. split; [|done]. rewrite <- E. unfold stopDistanceBasedTracking. by rewrite bind_assoc_run.
Qed.

Lemma registered_ops l k a :
  Linked k a →
  ∃ a', session_ops modem batchedBreach constellationConfig l a = Done tt a' ∧ Linked (foldl mask_after k l) a' ∧
        (connectable modem → Exists opens l ∨ clientHandle (session a) = true → clientHandle (session a') = true).
Proof.
  revert k a. induction l as [|o l IH]; intros k a Ha.
  { exists a. split_and!; [done..|]. by intros _ [?%Exists_nil|?]. }
  destruct (registered_op o k a Ha) as (a1 & E1 & H1 & C1). destruct (IH _ a1 H1) as (a2 & E2 & H2 & C2).
  exists a2. split_and!; [|done|].
  - cbn [session_ops]. by rewrite (bind_done _ _ _ _ _ E1).
  - rewrite Exists_cons. tauto.
Qed.
End registered.

(** C18: the modem is registered for the right events: from a modem that accepts registrations and
    says which messages it supports, after any sequence of masks, sessions, engine states and modem
    restarts: while there is a connection, whenever a session runs or the engine is off, the modem
    was last registered for exactly the events that the adapters' last mask stands for, less those
    of a session when none runs, and less NMEA while the engine is off; so nothing that belongs to
    a session is reported without one. After an attempt to connect that failed it is registered for
    nothing, and when none fails there is a connection from the first mask on. *)
Theorem events_registered modem batchedBreach constellationConfig excluded master l :
  grants_events modem → answers_check modem →
  ∃ a, session_ops modem batchedBreach constellationConfig l (api_init excluded master) = Done tt a ∧
    (clientHandle (session a) = true → mInSession (session a) = true ∨ mEngineOn (session a) = false →
     modem_events (requests a) =
       adjustMaskIfNoSessionOrEngineOff (session a)
         (convertMask batchedBreach (foldl (mask_after excluded) 0 l))) ∧
    (mInSession (session a) = false → mEngineOn (session a) = false →
     Z.land (modem_events (requests a)) session_events = 0) ∧
    (clientHandle (session a) = false → modem_events (requests a) = 0) ∧
    (connectable modem → Exists opens l → clientHandle (session a) = true).
Proof.
  intros Hg Hk0. destruct (registered_ops modem batchedBreach constellationConfig excluded Hg Hk0 l 0 (api_init excluded master))
    as (a & E & [Hk Hx Hm Hw Hz] & Hc).
  { by split. }
  exists a. split; [done|]. split_and!.
  - intros Hh H. rewrite Hm, (Hw H), Hk. by rewrite Hh.
  - intros Hs He. rewrite Hm, Hw by auto. unfold adjustMaskIfNoSessionOrEngineOff. rewrite Hs.
    apply Z.bits_inj. intros n. rewrite Z.land_spec. simpl negb. cbv iota.
    rewrite Z.ldiff_spec, Z.bits_0. by destruct (Z.testbit session_events n), (Z.testbit (convertMask _ _) n).
  - intros Hh. rewrite Hm. by apply Hz.
  - intros H1 H2. auto.
Qed.

(** *** The NMEA types *)
Lemma setNMEATypesSync_kept modem types a a' : setNMEATypesSync modem types a = Done tt a' → mNmeaMask (session a') = types.
Proof.
  unfold setNMEATypesSync, LOC_SEND_SYNC_REQ. mrun. destruct (Z.eqb_spec types (mNmeaMask (session a))); simpl.
  - by intros [= <-].
  - destruct (modem _). by intros [= <-].
Qed.
Lemma reopen_nmea modem b c mask types a : connectable modem →
  mNmeaMask (session a) = types →
  (_ ← reopen modem b c mask; setNMEATypesSync modem types) a = (_ ← reopen modem b c mask; mret tt) a.
Proof.
  intros Hc Ht. unfold reopen, close. set (f := λ s, set_clientHandle false (set_inSession false (set_masks 0 0 s))).
  set (a1 := send_request ModemRestart (update_session f a)).
  assert (H : ∃ ok a', open modem b c mask a1 = Done ok a' ∧ mNmeaMask (session a') = types).
  { unfold open. rewrite (bind_done _ _ a1 (session a1) a1) by done. cbv zeta. change (clientHandle (session a1)) with false. cbv iota.
    rewrite (bind_done _ _ a1 true (send_request ClientOpen a1)) by (unfold locClientSendReq; mrun; by rewrite Hc).
    match goal with |- ∃ ok a', ?m _ = _ ∧ _ => assert (H : changes (agree (λ a, mNmeaMask (session a))) m) end.
    { unfold registerEventMask, register_changed. changes. }
    destruct (H (send_request ClientOpen a1)) as (ok & a' & E & E1). exists ok, a'. split; [exact E|]. unfold agree in E1. rewrite E1. exact Ht. }
  destruct H as (ok & a2 & E & E1). rewrite !bind_assoc_run, !(bind_done _ _ a tt (update_session f a)) by done.
  rewrite !bind_assoc_run, !(bind_done _ _ (update_session f a) tt a1) by done. rewrite !(bind_done _ _ _ _ _ E).
  unfold setNMEATypesSync. rewrite (bind_done _ _ a2 (session a2) a2) by done. by rewrite E1, Z.eqb_refl.
Qed.

Definition always : Modem := λ _,
  (true, {| status := eQMI_LOC_SUCCESS_V02; geofenceId := None; ind_batchSize := 0; ind_numberOfEntries := None;
            batchedReportList := None; ind_accumulatedDistance := 0; ind_batchedPosition := 0 |}).
Definition fast : TrackingOptions := mkTrackingOptions (mkLocationOptions 32 100 0 GNSS_SUPL_MODE_MSB 0) GNSS_POWER_MODE_M1 0.

(** A session is started and stopped while the engine is on, then the engine goes off. *)
Lemma events_registered_witness :
  let l := [OpOpen 0x8000b; OpStart fast; OpEngineState true; OpStopFix; OpEngineState false] in
  grants_events always ∧ answers_check always ∧
  modem_events <$> (requests <$> outcome_state (session_ops always true true l (api_init 0 true))) = Some 0x80000 ∧
  ∃ a, session_ops always true true l (api_init 0 true) = Done tt a ∧
    (clientHandle (session a) = true → mInSession (session a) = true ∨ mEngineOn (session a) = false →
     modem_events (requests a) =
       adjustMaskIfNoSessionOrEngineOff (session a) (convertMask true (foldl (mask_after 0) 0 l))) ∧
    (mInSession (session a) = false → mEngineOn (session a) = false →
     Z.land (modem_events (requests a)) session_events = 0) ∧
    (clientHandle (session a) = false → modem_events (requests a) = 0) ∧
    (connectable always → Exists opens l → clientHandle (session a) = true).
Proof.
  intros l. assert (Hg : grants_events always) by done. assert (Hk : answers_check always) by done.
  split; [done|]. split; [done|]. split; [by vm_compute|].
  exact (events_registered always true true 0 true l Hg Hk).
Defined.

(** What the tracking requests get wrong, whatever the modem: a distance-based session that the
    modem refuses to start or to stop is reported as a success; startTimeBasedTracking never
    records the power mode, so that hwClockDiscontinuityCount is advanced in full power mode too,
    which the code means to exclude; after a restart of a modem that can be connected to again, and
    that has lost them, the NMEA types that were set before are not sent again, because close keeps
    mNmeaMask; and stopFix frees the measurement buffer only when there is none, so that it keeps
    the buffer it should free. *)
Theorem tracking_requests_flaws :
  (∀ modem id options a, outcome_value (startDistanceBasedTracking modem id options a) = Some LOCATION_ERROR_SUCCESS) ∧
  (∀ modem id a, outcome_value (stopDistanceBasedTracking modem id a) = Some LOCATION_ERROR_SUCCESS) ∧
  (∀ modem b c options a,
     mPowerMode ∘ session <$> outcome_state (startTimeBasedTracking modem b c options a) = Some (mPowerMode (session a))) ∧
  (∀ modem b c types mask a, connectable modem →
     (_ ← setNMEATypesSync modem types; _ ← reopen modem b c mask; setNMEATypesSync modem types) a
     = (_ ← setNMEATypesSync modem types; _ ← reopen modem b c mask; mret tt) a) ∧
  (∀ modem b c a,
     mGnssMeasurements ∘ session <$> outcome_state (stopFix modem b c a) = Some (mGnssMeasurements (session a))).
Proof.
  split_and!.
  - intros. unfold startDistanceBasedTracking, LOC_SEND_SYNC_REQ. mrun. by destruct (modem _).
  - intros. unfold stopDistanceBasedTracking, LOC_SEND_SYNC_REQ. mrun. by destruct (modem _).
  - intros. apply startTimeBasedTracking_powerMode.
  - intros modem b c types mask a Hc. destruct (setNMEATypesSync modem types a) as [[] a'| |] eqn:E;
      unfold mbind at 1 3, M_bind at 1 3; rewrite E; [|done..].
    by apply (reopen_nmea modem b c mask types a' Hc), (setNMEATypesSync_kept modem types a).
  - intros. apply stopFix_measurements.
Qed.
