(* ===== verification/LocAdapter.v ===== *)
(** * LocAdapterBase : what the adapters share, and the two message tasks they run on.

    LocAdapterBase.cpp/.h keep the clients, the event mask and the messages put aside until
    the engine is up. An adapter runs on the message task of its context; its calls to the
    LocApi are messages of a second task, whose answers come back as messages of the first
    (LocApiResponse of ContextBase.h). The messages of the adapter's task are heap objects
    that the task deletes after [proc] (MsgTask.cpp): the queue holds pointers, and a pointer
    that is queued again after it was deleted is a dangling one. *)
From stdpp Require Export sorting relations.
From S2P Require Export Prelude PbEnums LocEvents LocApi.
From S2P Require LocApiTrack.
Local Open Scope Z_scope.

(** ** std::map: iteration in the order of the keys *)
Definition in_order {K V} `{Countable K} (R : K → K → Prop) `{∀ x y, Decision (R x y)}
    (m : gmap K V) : list (K * V) :=
  merge_sort (λ p q, R p.1 q.1) (map_to_list m).

Lemma in_order_perm {K V} `{Countable K} (R : K → K → Prop) `{∀ x y, Decision (R x y)} (m : gmap K V) :
  in_order R m ≡ₚ map_to_list m.
Proof. apply merge_sort_Permutation. Qed.

Lemma elem_of_in_order {K V} `{Countable K} (R : K → K → Prop) `{∀ x y, Decision (R x y)}
    (m : gmap K V) k v : (k, v) ∈ in_order R m ↔ m !! k = Some v.
Proof. by rewrite in_order_perm, elem_of_map_to_list. Qed.

Lemma NoDup_in_order {K V} `{Countable K} (R : K → K → Prop) `{∀ x y, Decision (R x y)} (m : gmap K V) :
  NoDup ((in_order R m).*1).
Proof. rewrite in_order_perm. apply NoDup_fst_map_to_list. Qed.

(** ** The callbacks of a client: whether each is non-null *)
Record LocationCallbacks := {
  capabilitiesCb : bool; responseCb : bool; collectiveResponseCb : bool; trackingCb : bool;
  batchingCb : bool; geofenceBreachCb : bool; geofenceStatusCb : bool; gnssLocationInfoCb : bool;
  gnssNiCb : bool; gnssSvCb : bool; gnssNmeaCb : bool; gnssDataCb : bool; gnssMeasurementsCb : bool;
  batchingStatusCb : bool; locationSystemInfoCb : bool; engineLocationsInfoCb : bool }.

(** LocationCallbacks callbacks = {} *)
Definition no_callbacks : LocationCallbacks :=
  {| capabilitiesCb := false; responseCb := false; collectiveResponseCb := false; trackingCb := false;
     batchingCb := false; geofenceBreachCb := false; geofenceStatusCb := false; gnssLocationInfoCb := false;
     gnssNiCb := false; gnssSvCb := false; gnssNmeaCb := false; gnssDataCb := false;
     gnssMeasurementsCb := false; batchingStatusCb := false; locationSystemInfoCb := false;
     engineLocationsInfoCb := false |}.

(** A [LocationAPI*]: a client of the adapters. *)
Abbreviation client := positive (only parsing).
Definition client_lt : positive → positive → Prop := Pos.le.
#[export] Instance client_lt_dec x y : Decision (client_lt x y) := decide (x ≤ y)%positive.

(** The sessions of the clients, by client and identifier. *)
Record LocationSessionKey := mkKey { key_client : client; key_id : Z }.
#[export] Instance LocationSessionKey_eq : EqDecision LocationSessionKey.
Proof. solve_decision. Defined.
#[export] Instance LocationSessionKey_countable : Countable LocationSessionKey.
Proof.
  refine (inj_countable' (λ k, (key_client k, key_id k)) (λ p, mkKey p.1 p.2) _).
  by intros [].
Defined.

(** operator < on keys, and its reflexive closure in which std::map iterates. *)
Definition LocationSessionKey_lt (l r : LocationSessionKey) : bool :=
  (key_id l <? key_id r) || ((key_id l =? key_id r) && (key_client l <? key_client r)%positive).
Definition LocationSessionKey_le (l r : LocationSessionKey) : Prop := l = r ∨ LocationSessionKey_lt l r = true.
#[export] Instance LocationSessionKey_le_dec l r : Decision (LocationSessionKey_le l r).
Proof. unfold LocationSessionKey_le. solve_decision. Defined.

Inductive EngineLockState :=
  | ENGINE_LOCK_STATE_INVALID | ENGINE_LOCK_STATE_ENABLED | ENGINE_LOCK_STATE_DISABLED.
#[export] Instance EngineLockState_eq : EqDecision EngineLockState.
Proof. solve_decision. Defined.

Inductive loc_registration_mask_status :=
  | LOC_REGISTRATION_MASK_ENABLED | LOC_REGISTRATION_MASK_DISABLED | LOC_REGISTRATION_MASK_SET.

(** ** The features ContextBase knows of the engine *)
Record Features := {
  msg_DISTANCE_BASE_LOCATION_BATCHING : bool; msg_DISTANCE_BASE_TRACKING : bool;
  msg_OUTDOOR_TRIP_BATCHING : bool; msg_BATCHED_GENFENCE_BREACH : bool; gnssConstellationConfig : bool; carrierCapabilities : Z;
  feature_DEBUG_NMEA : bool; feature_CONSTELLATION_ENABLEMENT : bool; feature_AGPM : bool;
  feature_LOCATION_PRIVACY : bool; feature_MEASUREMENTS_CORRECTION : bool;
  feature_ROBUST_LOCATION : bool; feature_EDGNSS : bool }.

Definition LOC_GPS_CAPABILITY_MSB : Z := Z.shiftl 1 1.
Definition LOC_GPS_CAPABILITY_MSA : Z := Z.shiftl 1 2.

(** getCapabilities: the mask accumulated from top to bottom. *)
Definition getCapabilities (known : bool) (f : Features) : Z :=
  let bit (b : bool) (c : LocationCapabilitiesBits) m := if b then Z.lor m (value c) else m in
  if known then
     bit (feature_EDGNSS f) LOCATION_CAPABILITIES_EDGNSS_BIT
    (bit (feature_ROBUST_LOCATION f) LOCATION_CAPABILITIES_CONFORMITY_INDEX_BIT
    (bit (feature_MEASUREMENTS_CORRECTION f) LOCATION_CAPABILITIES_MEASUREMENTS_CORRECTION_BIT
    (bit (feature_LOCATION_PRIVACY f) LOCATION_CAPABILITIES_PRIVACY_BIT
    (bit (feature_AGPM f) LOCATION_CAPABILITIES_AGPM_BIT
    (bit (feature_CONSTELLATION_ENABLEMENT f) LOCATION_CAPABILITIES_CONSTELLATION_ENABLEMENT_BIT
    (bit (feature_DEBUG_NMEA f) LOCATION_CAPABILITIES_DEBUG_NMEA_BIT
    (bit (negb (Z.land LOC_GPS_CAPABILITY_MSA (carrierCapabilities f) =? 0)) LOCATION_CAPABILITIES_GNSS_MSA_BIT
    (bit (negb (Z.land (carrierCapabilities f) LOC_GPS_CAPABILITY_MSB =? 0)) LOCATION_CAPABILITIES_GNSS_MSB_BIT
    (bit (gnssConstellationConfig f) LOCATION_CAPABILITIES_GNSS_MEASUREMENTS_BIT
    (bit true LOCATION_CAPABILITIES_GEOFENCE_BIT
    (bit (msg_OUTDOOR_TRIP_BATCHING f) LOCATION_CAPABILITIES_OUTDOOR_TRIP_BATCHING_BIT
    (bit (msg_DISTANCE_BASE_TRACKING f) LOCATION_CAPABILITIES_DISTANCE_BASED_TRACKING_BIT
    (bit (msg_DISTANCE_BASE_LOCATION_BATCHING f) LOCATION_CAPABILITIES_DISTANCE_BASED_BATCHING_BIT
    (bit (msg_DISTANCE_BASE_LOCATION_BATCHING f) LOCATION_CAPABILITIES_TIME_BASED_BATCHING_BIT
    (bit true LOCATION_CAPABILITIES_TIME_BASED_TRACKING_BIT 0)))))))))))))))
  else 0.

(** ** The state *)
Record Base := {
  mIsEngineCapabilitiesKnown : bool;
  mEvtMask : Z;
  mClientData : gmap positive LocationCallbacks;
  mSessionIdCounter : Z;
  mPendingMsgs : list positive;
  mPendingGnssEnabledMsgs : list positive }.

(** The messages of LocAdapterBase, and those of the adapter itself. *)
Inductive Msg (A : Type) :=
  | MsgAddClient (c : client) (callbacks : LocationCallbacks)
  | MsgRemoveClient (c : client) (rmClientCb : bool)
  | MsgRequestCapabilities (c : client)
  | Own (a : A).
Arguments MsgAddClient {A} c callbacks.
Arguments MsgRemoveClient {A} c rmClientCb.
Arguments MsgRequestCapabilities {A} c.
Arguments Own {A} a.

(** The messages of the LocApi's task: LocOpenMsg, and the adapter's requests. *)
Inductive ApiMsg (L : Type) := LocOpenMsg | ApiOwn (l : L).
Arguments LocOpenMsg {L}.
Arguments ApiOwn {L} l.

(** What leaves the adapter: callbacks of clients. *)
Inductive Event (E : Type) :=
  | EvCapabilities (c : client) (mask : Z)
  | EvRemoved (c : client)
  | EvOwn (e : E).
Arguments EvCapabilities {E} c mask.
Arguments EvRemoved {E} c.
Arguments EvOwn {E} e.

Record World (S A L E : Type) := mkWorld {
  st : S;
  base : Base;
  heap : gmap positive (Msg A);
  next : positive;
  task : list positive;
  apiTask : list (ApiMsg L);
  api : ApiState;
  lock : EngineLockState;
  out : list (Event E) }.
Arguments mkWorld {S A L E}.
Arguments st {S A L E}.
Arguments base {S A L E}.
Arguments heap {S A L E}.
Arguments next {S A L E}.
Arguments task {S A L E}.
Arguments apiTask {S A L E}.
Arguments api {S A L E}.
Arguments lock {S A L E}.
Arguments out {S A L E}.

Section operations.
Context {S A L E : Type}.
Notation W := (World S A L E).

Definition set_st (s : S) (w : W) : W :=
  mkWorld s (base w) (heap w) (next w) (task w) (apiTask w) (api w) (lock w) (out w).
Definition set_base (b : Base) (w : W) : W :=
  mkWorld (st w) b (heap w) (next w) (task w) (apiTask w) (api w) (lock w) (out w).
Definition set_apiTask (l : list (ApiMsg L)) (w : W) : W :=
  mkWorld (st w) (base w) (heap w) (next w) (task w) l (api w) (lock w) (out w).
Definition set_task (h : gmap positive (Msg A)) (n : positive) (t : list positive) (w : W) : W :=
  mkWorld (st w) (base w) h n t (apiTask w) (api w) (lock w) (out w).
Definition set_api (a : ApiState) (w : W) : W :=
  mkWorld (st w) (base w) (heap w) (next w) (task w) (apiTask w) a (lock w) (out w).
(** The events the modem was last registered for. *)
Definition modemMask (w : W) : Z := modem_events (requests (api w)).
Definition set_lock (k : EngineLockState) (w : W) : W :=
  mkWorld (st w) (base w) (heap w) (next w) (task w) (apiTask w) (api w) k (out w).
Definition set_out (o : list (Event E)) (w : W) : W :=
  mkWorld (st w) (base w) (heap w) (next w) (task w) (apiTask w) (api w) (lock w) o.

Definition upd_st (f : S → S) : M W unit := modify (λ w, set_st (f (st w)) w).
Definition upd_base (f : Base → Base) : M W unit := modify (λ w, set_base (f (base w)) w).

(** new Msg(...): a fresh address. *)
Definition new_msg (a : Msg A) : M W positive := λ w,
  Done (next w) (set_task (<[next w := a]> (heap w)) (Pos.succ (next w)) (task w) w).
(** MsgTask::sendMsg: msg_q_snd of the pointer. *)
Definition sendMsg (p : positive) : M W unit :=
  modify (λ w, set_task (heap w) (next w) (task w ++ [p]) w).
Definition send_new (a : Msg A) : M W unit := p ← new_msg a; sendMsg p.
(** delete msg *)
Definition delete_msg (p : positive) : M W unit := λ w,
  match heap w !! p with
  | Some _ => Done tt (set_task (delete p (heap w)) (next w) (task w) w)
  | None => UB
  end.

(** A request run by the LocApi on its own state. *)
Definition run_api {X} (m : M ApiState X) : M W X := λ w,
  match m (api w) with
  | Done x a => Done x (set_api a w)
  | UB => UB
  | NoFuel => NoFuel
  end.

(** LocApiBase::sendMsg *)
Definition sendApi (l : ApiMsg L) : M W unit := modify (λ w, set_apiTask (apiTask w ++ [l]) w).
Definition emit (e : Event E) : M W unit := modify (λ w, set_out (out w ++ [e]) w).
Definition emit_all (l : list (Event E)) : M W unit := modify (λ w, set_out (out w ++ l) w).

Definition set_clients (c : gmap positive LocationCallbacks) (b : Base) : Base :=
  {| mIsEngineCapabilitiesKnown := mIsEngineCapabilitiesKnown b; mEvtMask := mEvtMask b; mClientData := c;
     mSessionIdCounter := mSessionIdCounter b; mPendingMsgs := mPendingMsgs b;
     mPendingGnssEnabledMsgs := mPendingGnssEnabledMsgs b |}.
Definition set_evtMask (m : Z) (b : Base) : Base :=
  {| mIsEngineCapabilitiesKnown := mIsEngineCapabilitiesKnown b; mEvtMask := m; mClientData := mClientData b;
     mSessionIdCounter := mSessionIdCounter b; mPendingMsgs := mPendingMsgs b;
     mPendingGnssEnabledMsgs := mPendingGnssEnabledMsgs b |}.
Definition set_known (k : bool) (b : Base) : Base :=
  {| mIsEngineCapabilitiesKnown := k; mEvtMask := mEvtMask b; mClientData := mClientData b;
     mSessionIdCounter := mSessionIdCounter b; mPendingMsgs := mPendingMsgs b;
     mPendingGnssEnabledMsgs := mPendingGnssEnabledMsgs b |}.
Definition set_counter (n : Z) (b : Base) : Base :=
  {| mIsEngineCapabilitiesKnown := mIsEngineCapabilitiesKnown b; mEvtMask := mEvtMask b;
     mClientData := mClientData b; mSessionIdCounter := n; mPendingMsgs := mPendingMsgs b;
     mPendingGnssEnabledMsgs := mPendingGnssEnabledMsgs b |}.
Definition set_pending (l : list positive) (b : Base) : Base :=
  {| mIsEngineCapabilitiesKnown := mIsEngineCapabilitiesKnown b; mEvtMask := mEvtMask b;
     mClientData := mClientData b; mSessionIdCounter := mSessionIdCounter b; mPendingMsgs := l;
     mPendingGnssEnabledMsgs := mPendingGnssEnabledMsgs b |}.
Definition set_pendingGnss (l : list positive) (b : Base) : Base :=
  {| mIsEngineCapabilitiesKnown := mIsEngineCapabilitiesKnown b; mEvtMask := mEvtMask b;
     mClientData := mClientData b; mSessionIdCounter := mSessionIdCounter b; mPendingMsgs := mPendingMsgs b;
     mPendingGnssEnabledMsgs := l |}.

(** ** LocAdapterBase *)

(** generateSessionId: 1 again when the counter reaches 0xFFFFFFFF. *)
Definition generateSessionId : M W Z :=
  c ← gets (λ w, uwrap 32 (mSessionIdCounter (base w) + 1));
  let c := if c =? 0xFFFFFFFF then 1 else c in
  _ ← upd_base (set_counter c);
  mret c.

Definition updateEvtMask (event : Z) (status : loc_registration_mask_status) : M W unit :=
  _ ← upd_base (λ b, set_evtMask
        match status with
        | LOC_REGISTRATION_MASK_ENABLED => Z.lor (mEvtMask b) event
        | LOC_REGISTRATION_MASK_DISABLED => Z.land (mEvtMask b) (Z.lnot event)
        | LOC_REGISTRATION_MASK_SET => event
        end b);
  sendApi LocOpenMsg.

Definition getClientCallbacks (c : client) (b : Base) : LocationCallbacks :=
  default no_callbacks (mClientData b !! c).

(** LocApiV02::reportEngineLockStatus up to the call of the adapters: whether the state changed. *)
Definition reportEngineLockStatus (k : EngineLockState) : M W bool :=
  old ← gets lock;
  if bool_decide (k ≠ old) && bool_decide (k ≠ ENGINE_LOCK_STATE_INVALID)
  then _ ← modify (set_lock k); mret true else mret false.

Definition broadcastCapabilities (mask : Z) : M W unit :=
  l ← gets (λ w, in_order client_lt (mClientData (base w)));
  emit_all (omap (λ p : positive * LocationCallbacks,
                    if capabilitiesCb p.2 then Some (EvCapabilities p.1 mask) else None) l).

(** A message put aside: a copy of it on the heap. *)
Definition push_pending (a : Msg A) : M W unit :=
  p ← new_msg a; upd_base (λ b, set_pending (mPendingMsgs b ++ [p]) b).

(** The messages put aside are sent again. *)
Fixpoint send_all_msgs (l : list positive) : M W unit :=
  match l with
  | [] => mret tt
  | p :: l => _ ← sendMsg p; send_all_msgs l
  end.

Definition addClientCommand (c : client) (callbacks : LocationCallbacks) : M W unit :=
  send_new (MsgAddClient c callbacks).
Definition removeClientCommand (c : client) (rmClientCb : bool) : M W unit :=
  send_new (MsgRemoveClient c rmClientCb).
Definition requestCapabilitiesCommand (c : client) : M W unit := send_new (MsgRequestCapabilities c).
End operations.

(** ** The interface of an adapter

    The virtual methods LocAdapterBase calls, the [proc] of the adapter's own messages, what
    its requests do on the task of the LocApi, and its commands and events. *)
Class Adapter (S A L E C : Type) := {
  updateClientsEventMask : M (World S A L E) unit;
  stopClientSessions : client → M (World S A L E) unit;
  own_proc : Features → A → M (World S A L E) unit;
  own_api : Features → Modem → L → M (World S A L E) unit;
  call : Features → C → M (World S A L E) unit }.

Section adapter.
Context {S A L E C : Type} `{!Adapter S A L E C} (modem : Modem) (features : Features).
Notation W := (World S A L E).

Definition saveClient (c : client) (callbacks : LocationCallbacks) : M W unit :=
  _ ← upd_base (λ b, set_clients (<[c := callbacks]> (mClientData b)) b);
  updateClientsEventMask.

Definition eraseClient (c : client) : M W unit :=
  _ ← upd_base (λ b, set_clients (delete c (mClientData b)) b);
  updateClientsEventMask.

(** LocMsg::proc *)
Definition proc (a : Msg A) : M W unit :=
  match a with
  | MsgAddClient c callbacks => saveClient c callbacks
  | MsgRemoveClient c rmClientCb =>
      _ ← stopClientSessions c;
      _ ← eraseClient c;
      when rmClientCb (emit (EvRemoved c))
  | MsgRequestCapabilities c =>
      b ← gets base;
      if mIsEngineCapabilitiesKnown b
      then when (capabilitiesCb (getClientCallbacks c b)) (emit (EvCapabilities c (getCapabilities true features)))
      else push_pending a
  | Own a => own_proc features a
  end.

(** MTRunnable::run of the adapter's task: the message at the head of the queue is processed
    and deleted. A blocked receive changes nothing. *)
Definition task_step : M W unit :=
  q ← gets task;
  match q with
  | [] => mret tt
  | p :: q =>
      _ ← modify (λ w, set_task (heap w) (next w) q w);
      a ← deref (λ w, heap w !! p);
      _ ← proc a;
      delete_msg p
  end.

(** LocOpenMsg::proc, when it is not for an adapter that has just been added: nothing depends on
    the result. *)
Definition open_api : M W unit :=
  mask ← gets (λ w, mEvtMask (base w));
  _ ← run_api (LocApiTrack.open modem (msg_BATCHED_GENFENCE_BREACH features) (gnssConstellationConfig features) mask);
  mret tt.

(** The same of the LocApi's task. Its messages are not kept by anyone else. LocOpenMsg
    registers the event mask of the adapter with the modem. *)
Definition api_step : M W unit :=
  q ← gets apiTask;
  match q with
  | [] => mret tt
  | l :: q =>
      _ ← modify (set_apiTask q);
      match l with
      | LocOpenMsg => open_api
      | ApiOwn l => own_api features modem l
      end
  end.

Inductive Label :=
  | LCall (c : C)                                   (* a command or an event of another thread *)
  | LAddClient (c : client) (callbacks : LocationCallbacks)
  | LRemoveClient (c : client) (rmClientCb : bool)
  | LRequestCapabilities (c : client)
  | LTask | LApi.

Definition exec (l : Label) : M W unit :=
  match l with
  | LCall c => call features c
  | LAddClient c callbacks => addClientCommand c callbacks
  | LRemoveClient c b => removeClientCommand c b
  | LRequestCapabilities c => requestCapabilitiesCommand c
  | LTask => task_step
  | LApi => api_step
  end.

Fixpoint execs (l : list Label) : M W unit :=
  match l with
  | [] => mret tt
  | a :: l => _ ← exec a; execs l
  end.

(** One step of the two tasks and the threads that call the adapter. *)
Definition step (w w' : W) : Prop := ∃ l, exec l w = Done tt w'.
Definition reachable (w0 w : W) : Prop := rtc step w0 w.

(** What holds at the start and is kept by every step holds in every reachable state. *)
Lemma reachable_invariant (I : W → Prop) w0 w :
  I w0 → (∀ l w w', I w → exec l w = Done tt w' → I w') → reachable w0 w → I w.
Proof. intros H0 Hstep Hr. induction Hr as [|w1 w2 w3 [l Hl] Hr IH]; eauto. Qed.
End adapter.

Section execs.
Context {S A L E C : Type} `{!Adapter S A L E C} (modem : Modem) (features : Features).

(** The same for executions, when only the labels of [P] occur. *)
Lemma execs_invariant (P : Label (C:=C) → Prop) (I : World S A L E → Prop) ls w w' :
  (∀ l w w', P l → I w → exec modem features l w = Done tt w' → I w') →
  I w → Forall P ls → execs modem features ls w = Done tt w' → I w'.
Proof.
  intros Hstep Hw Hls. revert w Hw. induction Hls as [|l ls Hl Hls IH]; intros w Hw H.
  - by injection H as <-.
  - apply bind_inv in H as ([] & w1 & E1 & E2). eauto.
Qed.
(** An execution ends in a reachable state. *)
Lemma reachable_execs ls (w w' : World S A L E) :
  execs modem features ls w = Done tt w' → reachable modem features w w'.
Proof.
  revert w. induction ls as [|l ls IH]; intros w H; [injection H as <-; constructor|].
  apply bind_inv in H as ([] & w1 & E1 & E2). eapply rtc_l; [by exists l|by apply IH].
Qed.
End execs.
