(* ===== verification/Geofence.v ===== *)
(** * GeofenceAdapter : the geofences of the clients.

    GeofenceAdapter.cpp maps the identifiers of the clients' geofences to those of the modem.
    A command on several geofences becomes one request per geofence, whose answers are
    collected in arrays shared by all the requests of the command and freed by the answer to
    the last one. The adapter is an instance of the interface of LocAdapter, and its requests
    are those of LocApi. *)
From S2P Require Import Prelude PbEnums LocApi LocAdapter.
Local Open Scope Z_scope.

(** ** The data *)
Record GeofenceKey := mkKey { key_client : client; key_id : Z }.
#[export] Instance GeofenceKey_eq : EqDecision GeofenceKey.
Proof. solve_decision. Defined.
#[export] Instance GeofenceKey_countable : Countable GeofenceKey.
Proof.
  refine (inj_countable' (λ k, (key_client k, key_id k)) (λ p, mkKey p.1 p.2) _).
  by intros [].
Defined.

(** operator < on keys, and its reflexive closure in which std::map iterates. *)
Definition GeofenceKey_lt (l r : GeofenceKey) : bool :=
  (key_id l <? key_id r) || ((key_id l =? key_id r) && (key_client l <? key_client r)%positive).
Definition GeofenceKey_le (l r : GeofenceKey) : Prop := l = r ∨ GeofenceKey_lt l r = true.
#[export] Instance GeofenceKey_le_dec l r : Decision (GeofenceKey_le l r).
Proof. unfold GeofenceKey_le. solve_decision. Defined.

Record GeofenceObject := mkObject {
  key : GeofenceKey;
  go_breachMask : Z; go_responsiveness : Z; go_dwellTime : Z;
  go_latitude : double; go_longitude : double; go_radius : double;
  paused : bool }.

(** An array of the heap. An element of [errs] is [None] until it is written. *)
Inductive Arr :=
  | Errs (l : list (option LocationError))
  | Ids (l : list Z)
  | Options (l : list GeofenceOption)
  | Infos (l : list GeofenceInfo).

(** The fields of the adapter, and the arrays of the commands under way. [uninit] is what
    [data.hwId] holds when addGeofence fails and leaves it uninitialised. *)
Record Geo := mkGeo {
  mGeofences : gmap Z GeofenceObject;
  mGeofenceIds : gmap GeofenceKey Z;
  arrays : gmap positive Arr;
  next_arr : positive;
  uninit : Z }.

Inductive Kind := KAdd | KRemove | KPause | KResume | KModify.
#[export] Instance Kind_eq : EqDecision Kind.
Proof. solve_decision. Defined.

(** What the closures of one command capture: its client, its size and its arrays. *)
Record Command := mkCommand {
  kind : Kind; cmd_client : client; mCount : nat; mIds : positive;
  mOptions : option positive; mInfos : option positive }.

(** The closures given to the LocApi as responses. *)
Inductive Resp :=
  | RItem (c : Command) (errs : positive) (i : nat) (hwId : Z)   (* an item of remove, pause, resume, modify *)
  | RStop (hwId : Z)                                             (* stopClientSessions *)
  | RIgnore.                                                     (* [] (LocationError err ) {} *)
Inductive AddResp :=
  | RAdd (c : Command) (errs : positive) (i : nat)
  | RRestart (object : GeofenceObject) (options : GeofenceOption) (info : GeofenceInfo).

(** The messages of the adapter's task. *)
Inductive GMsg :=
  | MsgEngineLockStateEvent (k : EngineLockState)
  | MsgSSREvent
  | MsgCommand (c : Command)                        (* MsgAddGeofences ... MsgModifyGeofences *)
  | MsgGeofenceBreach (hwIds : list Z) (location : Location) (breachType : GeofenceBreachType) (ts : Z)
  | MsgGeofenceStatus (available : GeofenceStatusAvailable)
  | Called (c : Command) (errs : positive) (i : nat)   (* the response of addToCallQueue *)
  | Response (r : Resp) (err : LocationError)
  | AddResponse (r : AddResp) (err : LocationError) (hwId : option Z).

(** The messages of the LocApi's task. *)
Inductive GApi :=
  | addToCallQueue (c : Command) (errs : positive) (i : nat)
  | ApiAdd (clientId : Z) (options : GeofenceOption) (info : GeofenceInfo) (r : AddResp)
  | ApiRemove (hwId clientId : Z) (r : Resp)
  | ApiPause (hwId clientId : Z) (r : Resp)
  | ApiResume (hwId clientId : Z) (r : Resp)
  | ApiModify (hwId clientId : Z) (options : GeofenceOption) (r : Resp).

(** The callbacks of the clients, and the arrays the commands return. *)
Inductive GEvent :=
  | EvCollectiveResponse (c : client) (count : nat) (errs : list (option LocationError)) (ids : list Z)
  | EvBreach (c : client) (ids : list Z) (location : Location) (breachType : GeofenceBreachType) (ts : Z)
  | EvStatus (c : client) (available : GeofenceStatusAvailable)
  | EvIds (c : client) (ids : option positive).

(** The calls from other threads. [CReadIds] is the caller of addGeofences reading the array
    it returned (locAPIAddGeofences of LocationAPIClientBase.cpp). *)
Inductive GCall :=
  | CAdd (c : client) (count : nat) (options : option (list GeofenceOption)) (infos : option (list GeofenceInfo))
  | CRemove (c : client) (count : nat) (ids : option (list Z))
  | CPause (c : client) (count : nat) (ids : option (list Z))
  | CResume (c : client) (count : nat) (ids : option (list Z))
  | CModify (c : client) (count : nat) (ids : option (list Z)) (options : option (list GeofenceOption))
  | CReadIds (ids : positive)
  | CEngineUp
  | CEngineLock (k : EngineLockState)
  | CBreach (count : nat) (hwIds : option (list Z)) (location : Location) (breachType : GeofenceBreachType) (ts : Z)
  | CStatus (available : GeofenceStatusAvailable).

Abbreviation GW := (World Geo GMsg GApi GEvent) (only parsing).

(** ** Setters and arrays *)
Definition set_maps (g : gmap Z GeofenceObject) (ids : gmap GeofenceKey Z) (s : Geo) : Geo :=
  mkGeo g ids (arrays s) (next_arr s) (uninit s).
Definition set_arrays (a : gmap positive Arr) (n : positive) (s : Geo) : Geo :=
  mkGeo (mGeofences s) (mGeofenceIds s) a n (uninit s).

Definition new_arr (a : Arr) : M GW positive := λ w,
  let s := st w in
  Done (next_arr s) (set_st (set_arrays (<[next_arr s := a]> (arrays s)) (Pos.succ (next_arr s)) s) w).
Definition del_arr (p : positive) : M GW unit := λ w,
  match arrays (st w) !! p with
  | Some _ => Done tt (set_st (set_arrays (delete p (arrays (st w))) (next_arr (st w)) (st w)) w)
  | None => UB
  end.
Definition del_opt (p : option positive) : M GW unit :=
  match p with Some p => del_arr p | None => mret tt end.

Definition read_ids (p : positive) : M GW (list Z) :=
  deref (λ w, match arrays (st w) !! p with Some (Ids l) => Some l | _ => None end).
Definition read_errs (p : positive) : M GW (list (option LocationError)) :=
  deref (λ w, match arrays (st w) !! p with Some (Errs l) => Some l | _ => None end).
(** mIds[i], mOptions[i], mInfos[i] *)
Definition read_id (p : positive) (i : nat) : M GW Z :=
  deref (λ w, match arrays (st w) !! p with Some (Ids l) => l !! i | _ => None end).
Definition read_option (p : option positive) (i : nat) : M GW GeofenceOption :=
  deref (λ w, p ← p; match arrays (st w) !! p with Some (Options l) => l !! i | _ => None end).
Definition read_info (p : option positive) (i : nat) : M GW GeofenceInfo :=
  deref (λ w, p ← p; match arrays (st w) !! p with Some (Infos l) => l !! i | _ => None end).
(** errs[i] = err *)
Definition write_err (p : positive) (i : nat) (err : LocationError) : M GW unit := λ w,
  match arrays (st w) !! p with
  | Some (Errs l) =>
      if decide (i < length l)%nat
      then Done tt (set_st (set_arrays (<[p := Errs (<[i := Some err]> l)]> (arrays (st w))) (next_arr (st w)) (st w)) w)
      else UB
  | _ => UB
  end.

(** ** The maps *)
Definition getHwIdFromClient (c : client) (clientId : Z) (s : Geo) : LocationError * Z :=
  match mGeofenceIds s !! mkKey c clientId with
  | Some hwId => (LOCATION_ERROR_SUCCESS, hwId)
  | None => (LOCATION_ERROR_ID_UNKNOWN, 0)
  end.

Definition getGeofenceKeyFromHwId (hwId : Z) (s : Geo) : option GeofenceKey :=
  key <$> mGeofences s !! hwId.

Definition saveGeofenceItem (c : client) (clientId hwId : Z) (options : GeofenceOption) (info : GeofenceInfo)
    (s : Geo) : Geo :=
  let k := mkKey c clientId in
  let object := mkObject k (breachTypeMask options) (responsiveness options) (dwellTime options)
                  (gi_latitude info) (gi_longitude info) (gi_radius info) false in
  set_maps (<[hwId := object]> (mGeofences s)) (<[k := hwId]> (mGeofenceIds s)) s.

Definition removeGeofenceItem (hwId : Z) (s : Geo) : Geo :=
  match getGeofenceKeyFromHwId hwId s with
  | None => s
  | Some k =>
      match mGeofenceIds s !! k with
      | None => s
      | Some _ => set_maps (delete hwId (mGeofences s)) (delete k (mGeofenceIds s)) s
      end
  end.

Definition upd_object (f : GeofenceObject → GeofenceObject) (hwId : Z) (s : Geo) : Geo :=
  match mGeofences s !! hwId with
  | Some o => set_maps (<[hwId := f o]> (mGeofences s)) (mGeofenceIds s) s
  | None => s
  end.

Definition set_paused (b : bool) (o : GeofenceObject) : GeofenceObject :=
  mkObject (key o) (go_breachMask o) (go_responsiveness o) (go_dwellTime o)
    (go_latitude o) (go_longitude o) (go_radius o) b.
Definition pauseGeofenceItem : Z → Geo → Geo := upd_object (set_paused true).
Definition resumeGeofenceItem : Z → Geo → Geo := upd_object (set_paused false).
Definition modifyGeofenceItem (hwId : Z) (options : GeofenceOption) : Geo → Geo :=
  upd_object (λ o, mkObject (key o) (breachTypeMask options) (responsiveness options) (dwellTime options)
    (go_latitude o) (go_longitude o) (go_radius o) (paused o)) hwId.

(** ** Reports to the clients *)
Definition reportResponse (c : client) (count : nat) (errs ids : positive) : M GW unit :=
  errs ← read_errs errs;
  ids ← read_ids ids;
  data ← gets (λ w, mClientData (base w) !! c);
  match data with
  | Some cb => when (collectiveResponseCb cb) (emit (EvOwn (EvCollectiveResponse c count errs ids)))
  | None => mret tt
  end.

(** The identifiers of [c] among the breached geofences. *)
Definition breached_ids (s : Geo) (hwIds : list Z) (c : client) : list Z :=
  omap (λ h, k ← getGeofenceKeyFromHwId h s; if decide (key_client k = c) then Some (key_id k) else None) hwIds.

Definition geofenceBreach (hwIds : list Z) (location : Location) (breachType : GeofenceBreachType) (ts : Z)
    : M GW unit :=
  w ← get;
  emit_all (omap (λ p : positive * LocationCallbacks,
      let ids := breached_ids (st w) hwIds p.1 in
      if (0 <? Z.of_nat (length ids)) && geofenceBreachCb p.2
      then Some (EvOwn (EvBreach p.1 ids location breachType ts)) else None)
    (in_order client_lt (mClientData (base w)))).

Definition geofenceStatus (available : GeofenceStatusAvailable) : M GW unit :=
  l ← gets (λ w, in_order client_lt (mClientData (base w)));
  emit_all (omap (λ p : positive * LocationCallbacks,
      if geofenceStatusCb p.2 then Some (EvOwn (EvStatus p.1 available)) else None) l).

(** ** The virtual methods *)
Definition clients_mask (l : list (positive * LocationCallbacks)) : Z :=
  foldl (λ mask (p : positive * LocationCallbacks),
    let mask := if geofenceBreachCb p.2
      then Z.lor (Z.lor mask LOC_API_ADAPTER_BIT_BATCHED_GENFENCE_BREACH_REPORT)
             LOC_API_ADAPTER_BIT_REPORT_GENFENCE_DWELL else mask in
    if geofenceStatusCb p.2 then Z.lor mask LOC_API_ADAPTER_BIT_GEOFENCE_GEN_ALERT else mask) 0 l.

Definition geo_updateClientsEventMask : M GW unit :=
  l ← gets (λ w, in_order client_lt (mClientData (base w)));
  updateEvtMask (clients_mask l) LOC_REGISTRATION_MASK_SET.

(** The loop of stopClientSessions over the entries of mGeofenceIds. *)
Fixpoint stop_loop (c : client) (l : list (GeofenceKey * Z)) : M GW unit :=
  match l with
  | [] => mret tt
  | (k, hwId) :: l =>
      _ ← when (bool_decide (c = key_client k))
            (_ ← upd_st (λ s, set_maps (mGeofences s) (delete k (mGeofenceIds s)) s);
             sendApi (ApiOwn (ApiRemove hwId (key_id k) (RStop hwId))));
      stop_loop c l
  end.

Definition geo_stopClientSessions (c : client) : M GW unit :=
  l ← gets (λ w, in_order GeofenceKey_le (mGeofenceIds (st w)));
  stop_loop c l.

(** ** Commands *)

(** COPY_IF_NOT_NULL into a new array of [count] elements: [count] elements are read. *)
Definition copy_array {T} (src : option (list T)) (count : nat) : option (option (list T)) :=
  match src with
  | None => Some None
  | Some l => if decide (count ≤ length l)%nat then Some (Some (take count l)) else None
  end.

Definition new_opt {T} (f : list T → Arr) (l : option (list T)) : M GW (option positive) :=
  match l with
  | None => mret None
  | Some l => p ← new_arr (f l); mret (Some p)
  end.

Fixpoint generate_ids (n : nat) : M GW (list Z) :=
  match n with
  | O => mret []
  | S n => x ← generateSessionId; l ← generate_ids n; mret (x :: l)
  end.

Definition addGeofencesCommand (c : client) (count : nat) (options : option (list GeofenceOption))
    (infos : option (list GeofenceInfo)) : M GW unit :=
  if decide (count = 0)%nat then emit (EvOwn (EvIds c None))
  else
    ids ← generate_ids count;
    p ← new_arr (Ids ids);
    options ← deref (λ _, copy_array options count);
    o ← new_opt Options options;
    infos ← deref (λ _, copy_array infos count);
    i ← new_opt Infos infos;
    _ ← send_new (Own (MsgCommand (mkCommand KAdd c count p o i)));
    emit (EvOwn (EvIds c (Some p))).

(** remove, pause, resume (and modify, with options). A NULL [ids] leaves the copy
    uninitialised, which no caller does: it is undefined here. *)
Definition editGeofencesCommand (k : Kind) (c : client) (count : nat) (ids : option (list Z))
    (options : option (list GeofenceOption)) : M GW unit :=
  if decide (count = 0)%nat then mret tt
  else
    ids ← deref (λ _, mjoin (copy_array ids count));
    p ← new_arr (Ids ids);
    options ← deref (λ _, copy_array options count);
    o ← new_opt Options options;
    send_new (Own (MsgCommand (mkCommand k c count p o None))).

Definition removeGeofencesCommand (c : client) (count : nat) (ids : option (list Z)) : M GW unit :=
  editGeofencesCommand KRemove c count ids None.
Definition pauseGeofencesCommand (c : client) (count : nat) (ids : option (list Z)) : M GW unit :=
  editGeofencesCommand KPause c count ids None.
Definition resumeGeofencesCommand (c : client) (count : nat) (ids : option (list Z)) : M GW unit :=
  editGeofencesCommand KResume c count ids None.
Definition modifyGeofencesCommand (c : client) (count : nat) (ids : option (list Z))
    (options : option (list GeofenceOption)) : M GW unit :=
  editGeofencesCommand KModify c count ids options.

(** The loop of a command's message over its items. *)
Fixpoint command_loop (cmd : Command) (errs : positive) (n i : nat) : M GW unit :=
  match n with
  | O => mret tt
  | S n =>
      let missing := match kind cmd with
                     | KAdd => is_null (mOptions cmd) || is_null (mInfos cmd)
                     | KModify => is_null (mOptions cmd)
                     | _ => false
                     end in
      _ ← (if missing : bool then write_err errs i LOCATION_ERROR_INVALID_PARAMETER
           else sendApi (ApiOwn (addToCallQueue cmd errs i)));
      command_loop cmd errs n (S i)
  end.

Definition proc_command (cmd : Command) : M GW unit :=
  errs ← new_arr (Errs (replicate (mCount cmd) None));
  command_loop cmd errs (mCount cmd) 0.

(** Send aggregated response on last item and cleanup *)
Definition last_item (cmd : Command) (errs : positive) (i : nat) : M GW unit :=
  when (i =? mCount cmd - 1)%nat
    (_ ← reportResponse (cmd_client cmd) (mCount cmd) errs (mIds cmd);
     _ ← del_arr errs;
     _ ← del_arr (mIds cmd);
     _ ← del_opt (mOptions cmd);
     del_opt (mInfos cmd)).

(** The response of addToCallQueue: the request of item [i]. *)
Definition called_add (cmd : Command) (errs : positive) (i : nat) : M GW unit :=
  id ← read_id (mIds cmd) i;
  o ← read_option (mOptions cmd) i;
  info ← read_info (mInfos cmd) i;
  sendApi (ApiOwn (ApiAdd id o info (RAdd cmd errs i))).

Definition called_edit (cmd : Command) (errs : positive) (i : nat) : M GW unit :=
  id ← read_id (mIds cmd) i;
  '(err, hwId) ← gets (λ w, getHwIdFromClient (cmd_client cmd) id (st w));
  _ ← write_err errs i err;
  if decide (err = LOCATION_ERROR_SUCCESS) then
    let r := RItem cmd errs i hwId in
    match kind cmd with
    | KRemove => sendApi (ApiOwn (ApiRemove hwId id r))
    | KPause => sendApi (ApiOwn (ApiPause hwId id r))
    | KResume => sendApi (ApiOwn (ApiResume hwId id r))
    | _ => o ← read_option (mOptions cmd) i; sendApi (ApiOwn (ApiModify hwId id o r))
    end
  else last_item cmd errs i.

Definition proc_called (cmd : Command) (errs : positive) (i : nat) : M GW unit :=
  if decide (kind cmd = KAdd) then called_add cmd errs i else called_edit cmd errs i.

Definition ok_or_disabled (k : EngineLockState) (err : LocationError) : bool :=
  bool_decide (k = ENGINE_LOCK_STATE_DISABLED) || bool_decide (err = LOCATION_ERROR_SUCCESS).

(** The response to the request of item [i] of remove, pause, resume and modify. *)
Definition proc_removed (cmd : Command) (errs : positive) (i : nat) (hwId : Z) (err : LocationError) : M GW unit :=
  k ← gets lock;
  _ ← when (ok_or_disabled k err) (upd_st (removeGeofenceItem hwId));
  _ ← write_err errs i err;
  last_item cmd errs i.

Definition proc_paused (cmd : Command) (errs : positive) (i : nat) (hwId : Z) (err : LocationError) : M GW unit :=
  _ ← when (bool_decide (err = LOCATION_ERROR_SUCCESS)) (upd_st (pauseGeofenceItem hwId));
  _ ← write_err errs i err;
  last_item cmd errs i.

Definition proc_resumed (cmd : Command) (errs : positive) (i : nat) (hwId : Z) (err : LocationError) : M GW unit :=
  when (bool_decide (err = LOCATION_ERROR_SUCCESS))
    (_ ← write_err errs i err;
     _ ← upd_st (resumeGeofenceItem hwId);
     last_item cmd errs i).

Definition proc_modified (cmd : Command) (errs : positive) (i : nat) (hwId : Z) (err : LocationError) : M GW unit :=
  k ← gets lock;
  _ ← when (ok_or_disabled k err)
        (_ ← write_err errs i err;
         o ← read_option (mOptions cmd) i;
         upd_st (modifyGeofenceItem hwId o));
  last_item cmd errs i.

Definition proc_item (cmd : Command) : positive → nat → Z → LocationError → M GW unit :=
  match kind cmd with
  | KRemove => proc_removed cmd
  | KPause => proc_paused cmd
  | KResume => proc_resumed cmd
  | _ => proc_modified cmd
  end.

(** The response of addGeofence to a command, and to restartGeofences. *)
Definition proc_added (cmd : Command) (errs : positive) (i : nat) (err : LocationError) (hwId : option Z)
    : M GW unit :=
  k ← gets lock;
  _ ← when (ok_or_disabled k err)
        (id ← read_id (mIds cmd) i;
         o ← read_option (mOptions cmd) i;
         info ← read_info (mInfos cmd) i;
         upd_st (λ s, saveGeofenceItem (cmd_client cmd) id (default (uninit s) hwId) o info s));
  _ ← write_err errs i err;
  last_item cmd errs i.

Definition proc_restarted (object : GeofenceObject) (options : GeofenceOption) (info : GeofenceInfo)
    (err : LocationError) (hwId : option Z) : M GW unit :=
  when (bool_decide (err = LOCATION_ERROR_SUCCESS))
    (h ← gets (λ w, default (uninit (st w)) hwId);
     _ ← when (paused object) (sendApi (ApiOwn (ApiPause h (key_id (key object)) RIgnore)));
     upd_st (saveGeofenceItem (key_client (key object)) (key_id (key object)) h options info)).

(** ** Engine restart *)
Definition restart_one (object : GeofenceObject) : ApiMsg GApi :=
  let options := {| breachTypeMask := go_breachMask object; responsiveness := go_responsiveness object;
                    dwellTime := go_dwellTime object |} in
  let info := {| gi_latitude := go_latitude object; gi_longitude := go_longitude object;
                 gi_radius := go_radius object |} in
  ApiOwn (ApiAdd (key_id (key object)) options info (RRestart object options info)).

Fixpoint restart_loop (l : list (Z * GeofenceObject)) : M GW unit :=
  match l with
  | [] => mret tt
  | (_, object) :: l => _ ← sendApi (restart_one object); restart_loop l
  end.

Definition restartGeofences : M GW unit :=
  old ← gets (λ w, mGeofences (st w));
  if bool_decide (old = ∅) then mret tt
  else
    _ ← upd_st (set_maps ∅ ∅);
    restart_loop (in_order Z.le old).

Definition proc_SSR (f : Features) : M GW unit :=
  _ ← upd_base (set_known true);
  _ ← broadcastCapabilities (getCapabilities true f);
  k ← gets lock;
  when (bool_decide (k = ENGINE_LOCK_STATE_ENABLED))
    (_ ← restartGeofences;
     l ← gets (λ w, mPendingMsgs (base w));
     send_all_msgs l).

Definition handleEngineLockStatus (k : EngineLockState) : M GW unit :=
  when (bool_decide (k = ENGINE_LOCK_STATE_ENABLED))
    (l ← gets (λ w, mPendingGnssEnabledMsgs (base w));
     _ ← send_all_msgs l;
     upd_base (set_pendingGnss [])).

(** ** The instance *)
Definition geo_proc (f : Features) (a : GMsg) : M GW unit :=
  match a with
  | MsgEngineLockStateEvent k => handleEngineLockStatus k
  | MsgSSREvent => proc_SSR f
  | MsgCommand cmd => proc_command cmd
  | MsgGeofenceBreach hwIds location breachType ts => geofenceBreach hwIds location breachType ts
  | MsgGeofenceStatus available => geofenceStatus available
  | Called cmd errs i => proc_called cmd errs i
  | Response (RItem cmd errs i hwId) err => proc_item cmd errs i hwId err
  | Response (RStop hwId) err =>
      when (bool_decide (err = LOCATION_ERROR_SUCCESS))
        (upd_st (λ s, set_maps (delete hwId (mGeofences s)) (mGeofenceIds s) s))
  | Response RIgnore _ => mret tt
  | AddResponse (RAdd cmd errs i) err hwId => proc_added cmd errs i err hwId
  | AddResponse (RRestart object options info) err hwId => proc_restarted object options info err hwId
  end.

Definition geo_api (modem : Modem) (l : GApi) : M GW unit :=
  match l with
  | addToCallQueue cmd errs i => send_new (Own (Called cmd errs i))
  | ApiAdd id options info r =>
      '(err, hwId) ← run_api (addGeofence modem id options info);
      send_new (Own (AddResponse r err hwId))
  | ApiRemove hwId id r => err ← run_api (removeGeofence modem hwId id); send_new (Own (Response r err))
  | ApiPause hwId id r => err ← run_api (pauseGeofence modem hwId id); send_new (Own (Response r err))
  | ApiResume hwId id r => err ← run_api (resumeGeofence modem hwId id); send_new (Own (Response r err))
  | ApiModify hwId id options r =>
      err ← run_api (modifyGeofence modem hwId id options); send_new (Own (Response r err))
  end.

(** The events of the LocApi, from the QMI thread. *)
Definition geofenceBreachEvent (count : nat) (hwIds : option (list Z)) (location : Location)
    (breachType : GeofenceBreachType) (ts : Z) : M GW unit :=
  if decide (count = 0)%nat then mret tt
  else match hwIds with
       | None => mret tt
       | Some _ =>
           hwIds ← deref (λ _, mjoin (copy_array hwIds count));
           send_new (Own (MsgGeofenceBreach hwIds location breachType ts))
       end.
Definition geofenceStatusEvent (available : GeofenceStatusAvailable) : M GW unit :=
  send_new (Own (MsgGeofenceStatus available)).
Definition handleEngineUpEvent : M GW unit := send_new (Own MsgSSREvent).
Definition handleEngineLockStatusEvent (k : EngineLockState) : M GW unit :=
  changed ← reportEngineLockStatus k;
  when changed (send_new (Own (MsgEngineLockStateEvent k))).

Definition geo_call (f : Features) (c : GCall) : M GW unit :=
  match c with
  | CAdd c count options infos => addGeofencesCommand c count options infos
  | CRemove c count ids => removeGeofencesCommand c count ids
  | CPause c count ids => pauseGeofencesCommand c count ids
  | CResume c count ids => resumeGeofencesCommand c count ids
  | CModify c count ids options => modifyGeofencesCommand c count ids options
  | CReadIds p => _ ← read_ids p; mret tt
  | CEngineUp => handleEngineUpEvent
  | CEngineLock k => handleEngineLockStatusEvent k
  | CBreach count hwIds location breachType ts => geofenceBreachEvent count hwIds location breachType ts
  | CStatus available => geofenceStatusEvent available
  end.

#[export] Instance GeofenceAdapter : Adapter Geo GMsg GApi GEvent GCall := {
  updateClientsEventMask := geo_updateClientsEventMask;
  stopClientSessions := geo_stopClientSessions;
  own_proc := geo_proc;
  own_api := λ _, geo_api;
  call := geo_call }.

(** ** The start *)
Definition geo_init (garbage : Z) : GW :=
  mkWorld (mkGeo ∅ ∅ ∅ 1 garbage)
    {| mIsEngineCapabilitiesKnown := false; mEvtMask := 0; mClientData := ∅; mSessionIdCounter := 1;
       mPendingMsgs := []; mPendingGnssEnabledMsgs := [] |}
    ∅ 1 [] [] (api_opened 0 false) ENGINE_LOCK_STATE_ENABLED [].

(** ** The two maps stay consistent *)

(** Every identifier of a client's geofence leads to the object it was saved with. *)
Definition consistent (s : Geo) : Prop :=
  ∀ k h, mGeofenceIds s !! k = Some h → ∃ o, mGeofences s !! h = Some o ∧ key o = k.

Lemma consistent_inj s k1 k2 h :
  consistent s → mGeofenceIds s !! k1 = Some h → mGeofenceIds s !! k2 = Some h → k1 = k2.
Proof. intros Hc (o1 & E1 & <-)%Hc (o2 & E2 & <-)%Hc. congruence. Qed.

Lemma save_consistent c id h o i s :
  consistent s → mGeofences s !! h = None → consistent (saveGeofenceItem c id h o i s).
Proof.
  intros Hc Hh k h'. simpl. intros [[<- <-]|[Hk Hk']]%lookup_insert_Some.
  { eexists. by rewrite lookup_insert_eq. }
  destruct (Hc _ _ Hk') as (ob & E & Ek). exists ob. rewrite lookup_insert_ne by congruence. done.
Qed.

Lemma remove_consistent h s : consistent s → consistent (removeGeofenceItem h s).
Proof.
  intros Hc. unfold removeGeofenceItem, getGeofenceKeyFromHwId.
  destruct (mGeofences s !! h) as [o|] eqn:Eo; [|done]. simpl.
  destruct (mGeofenceIds s !! key o) eqn:Ek; [|done].
  intros k h'. simpl. intros [Hk Hk']%lookup_delete_Some. destruct (Hc _ _ Hk') as (ob & E & Ekk).
  exists ob. split; [|done]. simpl. rewrite lookup_delete_ne by congruence. done.
Qed.

Lemma upd_consistent f h s : (∀ o, key (f o) = key o) → consistent s → consistent (upd_object f h s).
Proof.
  intros Hf Hc. unfold upd_object. destruct (mGeofences s !! h) as [o|] eqn:Eo; [|done].
  intros k h' Hk. destruct (Hc _ _ Hk) as (ob & E & <-). simpl.
  destruct (decide (h' = h)) as [->|]; [|exists ob; by rewrite lookup_insert_ne].
  exists (f o). rewrite lookup_insert_eq, Hf. naive_solver.
Qed.

Lemma delete_consistent h s :
  consistent s → (∀ k, mGeofenceIds s !! k ≠ Some h) →
  consistent (set_maps (delete h (mGeofences s)) (mGeofenceIds s) s).
Proof.
  intros Hc Hno k h' Hk. simpl in *. destruct (Hc _ _ Hk) as (o & E & Ek). exists o.
  rewrite lookup_delete_ne by naive_solver. done.
Qed.

(** *** What the modem has returned *)
Section ids.
Context (modem : Modem).

Definition add_id (h : list Request) : option Z :=
  match last h with
  | Some (AddCircularGeofence _) =>
      let '(ok, ind) := modem h in
      if ok && bool_decide (status ind = eQMI_LOC_SUCCESS_V02) then geofenceId ind else None
  | _ => None
  end.

(** The identifiers of the successful additions of a conversation, which begins with [h]. *)
Fixpoint returned_from (h l : list Request) : list Z :=
  match l with
  | [] => []
  | r :: l => option_list (add_id (h ++ [r])) ++ returned_from (h ++ [r]) l
  end.
Definition returned : list Request → list Z := returned_from [].

Lemma returned_from_snoc h0 h r :
  returned_from h0 (h ++ [r]) = returned_from h0 h ++ option_list (add_id (h0 ++ h ++ [r])).
Proof.
  revert h0. induction h as [|a h IH]; intros h0; simpl; [by rewrite app_nil_r|].
  by rewrite IH, <-!app_assoc.
Qed.

Lemma returned_snoc h r : returned (h ++ [r]) = returned h ++ option_list (add_id (h ++ [r])).
Proof. apply (returned_from_snoc []). Qed.

(** The modem never gives a geofence the identifier of an earlier one. *)
Definition unique_ids : Prop := ∀ h r i, add_id (h ++ [r]) = Some i → i ∉ returned h.

Lemma addGeofence_spec id o i a :
  ∃ err hwId a', addGeofence modem id o i a = Done (err, hwId) a' ∧
    requests a' = requests a ++ [AddCircularGeofence (addGeofence_req id o i)] ∧
    hwId = add_id (requests a') ∧ (err = LOCATION_ERROR_SUCCESS ↔ is_Some hwId).
Proof.
  unfold addGeofence, LOC_SEND_SYNC_REQ. mrun. unfold add_id.
  set (h := requests a ++ [_]). destruct (modem h) as [ok ind] eqn:Em.
  assert (Hlast : last h = Some (AddCircularGeofence (addGeofence_req id o i))) by (unfold h; apply last_snoc).
  destruct (ok && bool_decide _) eqn:Eok, (geofenceId ind) eqn:Eid;
    eexists _, _, _; (split; [reflexivity|]); simpl; fold h;
    rewrite Hlast, Em, Eok, ?Eid; (split; [done|]); (split; [done|]);
    split; first [by intros [] | by intros; eexists | intros Hs; by destruct (decide _)].
Qed.

(** The other requests add nothing to what the modem has returned. *)
Definition edits {X} (m : M ApiState X) : Prop :=
  ∀ a, ∃ x a', m a = Done x a' ∧ returned (requests a') = returned (requests a).

Lemma edits_request r (f : bool → LocationError) :
  (∀ q, r ≠ AddCircularGeofence q) →
  edits ('(rv, _) ← LOC_SEND_SYNC_REQ modem r; mret (f rv)).
Proof.
  intros Hr a. unfold LOC_SEND_SYNC_REQ. mrun. destruct (modem _) as [ok ind].
  eexists _, _. split; [reflexivity|]. simpl. rewrite returned_snoc.
  unfold add_id. rewrite last_snoc. destruct r; simpl; try by rewrite app_nil_r. naive_solver.
Qed.
End ids.

Lemma edits_remove modem h id : edits modem (removeGeofence modem h id).
Proof. by apply edits_request. Qed.
Lemma edits_pause modem h id : edits modem (pauseGeofence modem h id).
Proof. by apply edits_request. Qed.
Lemma edits_resume modem h id : edits modem (resumeGeofence modem h id).
Proof. by apply edits_request. Qed.
Lemma edits_modify modem h id o : edits modem (modifyGeofence modem h id o).
Proof. by apply edits_request. Qed.
Lemma edits_open modem b c mask : edits modem (LocApiTrack.open modem b c mask).
Proof.
  intros a. destruct (LocApiTrack.open_registering modem b c mask a) as (ok & a' & E & ((l & El & Hl) & _)).
  exists ok, a'. split; [done|]. rewrite El. clear El. revert Hl. induction l as [|r l IH] using rev_ind; [by rewrite app_nil_r|].
  intros [Hl Hr]%Forall_app. apply Forall_cons in Hr as [Hr _]. rewrite app_assoc, returned_snoc, IH by done.
  unfold add_id. rewrite last_snoc. destruct r; try done; by rewrite app_nil_r.
Qed.
#[export] Hint Resolve edits_remove edits_pause edits_resume edits_modify : gps.

(** *** Steps that leave the maps alone *)
Definition is_add (m : Msg GMsg) (e : LocationError) (h : option Z) : Prop :=
  ∃ r, m = Own (AddResponse r e h).
Definition is_stop (m : Msg GMsg) (h : Z) : Prop := ∃ e, m = Own (Response (RStop h) e).
Definition is_api_stop (l : ApiMsg GApi) (h : Z) : Prop :=
  match l with
  | ApiOwn (ApiRemove _ _ r) | ApiOwn (ApiPause _ _ r) | ApiOwn (ApiResume _ _ r)
  | ApiOwn (ApiModify _ _ _ r) => r = RStop h
  | _ => False
  end.
Definition plain (m : Msg GMsg) : Prop := (∀ e h, ¬ is_add m e h) ∧ (∀ h, ¬ is_stop m h).
Definition plain_api (l : ApiMsg GApi) : Prop := ∀ h, ¬ is_api_stop l h.

Definition returned_w (modem : Modem) (w : GW) : list Z := returned modem (requests (api w)).

(** [w'] differs from [w] by plain messages, arrays, callbacks and the fields of the base. *)
Record quiet (modem : Modem) (w w' : GW) : Prop := {
  q_geo : mGeofences (st w') = mGeofences (st w);
  q_ids : mGeofenceIds (st w') = mGeofenceIds (st w);
  q_ret : returned_w modem w' = returned_w modem w;
  q_lock : lock w' = lock w;
  q_next : (next w ≤ next w')%positive;
  q_heap : ∀ p m, heap w' !! p = Some m → heap w !! p = Some m ∨ ((next w ≤ p < next w')%positive ∧ plain m);
  q_api : ∀ l, l ∈ apiTask w' → l ∈ apiTask w ∨ plain_api l }.

Definition quietly (modem : Modem) {X} (m : M GW X) : Prop :=
  ∀ w x w', m w = Done x w' → quiet modem w w'.

Section quiet.
Context (modem : Modem).
Notation quiet := (quiet modem).
Notation quietly := (quietly modem).

#[export] Instance quiet_refl : Reflexive quiet.
Proof. intros w. split; try done; [|]; by left. Qed.

Lemma quiet_trans w1 w2 w3 : quiet w1 w2 → quiet w2 w3 → quiet w1 w3.
Proof.
  intros [A1 A2 A3 A4 A5 A6 A7] [B1 B2 B3 B4 B5 B6 B7]. split; try congruence; [lia|..].
  - intros p m [Hm|[Hp Hm]]%B6; [|right; split; [lia|done]].
    apply A6 in Hm as [?|[Hp Hm]]; [by left|right; split; [lia|done]].
  - intros l [Hl|Hl]%B7; [by apply A7|by right].
Qed.

Lemma quietly_bind {X Y} (m : M GW X) (f : X → M GW Y) :
  quietly m → (∀ x, quietly (f x)) → quietly (m ≫= f).
Proof.
  intros Hm Hf w y w' (x & w1 & E1 & E2)%bind_inv. eapply quiet_trans; [by eapply Hm|by eapply Hf].
Qed.
Lemma quietly_ret {X} (x : X) : quietly (mret x).
Proof. intros w ? w' [=<- <-]. reflexivity. Qed.
Lemma quietly_gets {X} (f : GW → X) : quietly (gets f).
Proof. intros w ? w' [=<- <-]. reflexivity. Qed.
Lemma quietly_get : quietly get.
Proof. intros w ? w' [=<- <-]. reflexivity. Qed.
Lemma quietly_deref {X} (f : GW → option X) : quietly (deref f).
Proof. intros w x w' H. unfold deref in H. destruct (f w); simplify_eq. reflexivity. Qed.
Lemma quietly_when b (m : M GW unit) : quietly m → quietly (when b m).
Proof. intros Hm. destruct b; [done|apply quietly_ret]. Qed.
Lemma quietly_base f : quietly (upd_base f).
Proof. intros w x w' [=<- <-]. split; try done; [|]; by left. Qed.
Lemma quietly_emit e : quietly (emit e).
Proof. intros w x w' [=<- <-]. split; try done; [|]; by left. Qed.
Lemma quietly_emit_all e : quietly (emit_all e).
Proof. intros w x w' [=<- <-]. split; try done; [|]; by left. Qed.
Lemma quietly_sendMsg p : quietly (sendMsg p).
Proof. intros w x w' [=<- <-]. split; try done; [|]; by left. Qed.
Lemma quietly_sendApi l : plain_api l → quietly (sendApi l).
Proof.
  intros Hl w x w' [=<- <-]. split; try done; [by left|]. simpl.
  intros l' [?| ->%list_elem_of_singleton]%elem_of_app; [by left|by right].
Qed.
Lemma quietly_new_msg m : plain m → quietly (new_msg m).
Proof.
  intros Hm w x w' [=<- <-]. split; try done; simpl; [lia| |by left].
  intros p m' [[<- <-]|[_ ?]]%lookup_insert_Some; [right; split; [lia|done]|by left].
Qed.
Lemma quietly_new_arr a : quietly (new_arr a).
Proof. intros w x w' [=<- <-]. split; try done; [|]; by left. Qed.
Lemma quietly_del_arr p : quietly (del_arr p).
Proof.
  intros w x w' H. unfold del_arr in H. destruct (arrays _ !! p); simplify_eq. split; try done; [|]; by left.
Qed.
Lemma quietly_write_err p i e : quietly (write_err p i e).
Proof.
  intros w x w' H. unfold write_err in H. repeat (case_match || case_decide); simplify_eq.
  split; try done; [|]; by left.
Qed.
End quiet.

Create HintDb quiet discriminated.
#[export] Hint Resolve quietly_bind quietly_ret quietly_gets quietly_get quietly_deref quietly_when
  quietly_base quietly_emit quietly_emit_all quietly_sendMsg quietly_sendApi quietly_new_msg
  quietly_new_arr quietly_del_arr quietly_write_err : quiet.

Ltac plain := first
  [ done | by split; intros; intros [? ?] | by intros ? ?
  | by split; [intros ? ? [? ?]|intros ? [? ?]] ].
(** Decides that monadic code is quiet: binds, branches and the lemmas of the database. *)
Ltac quietly := repeat first
  [ progress intros
  | match goal with |- quietly _ (_ ≫= _) => apply quietly_bind end
  | match goal with |- quietly _ (when _ _) => apply quietly_when end
  | progress (eauto 2 with quiet nocore)
  | apply quietly_sendApi | apply quietly_new_msg
  | match goal with |- quietly _ (match ?x with _ => _ end) => destruct x end
  | progress unfold when
  | plain ].

Section quiet_ops.
Context (modem : Modem).
Notation quietly := (quietly modem).

Lemma quietly_send_new m : plain m → quietly (send_new m).
Proof. intros. unfold send_new. quietly. Qed.
Lemma quietly_del_opt p : quietly (del_opt p).
Proof. unfold del_opt. quietly. Qed.
Lemma quietly_new_opt {T} (f : list T → Arr) l : quietly (new_opt f l).
Proof. unfold new_opt. quietly. Qed.
Lemma quietly_generateSessionId : quietly generateSessionId.
Proof. unfold generateSessionId. quietly. Qed.
Lemma quietly_updateEvtMask e s : quietly (updateEvtMask e s).
Proof. unfold updateEvtMask. quietly. Qed.
Lemma quietly_delete_msg p : quietly (delete_msg p).
Proof.
  intros w x w' H. unfold delete_msg in H. destruct (heap w !! p); simplify_eq.
  split; simpl; try done; [|by left]. intros q m' [_ Hm]%lookup_delete_Some. by left.
Qed.
End quiet_ops.
Ltac quietly_msg := repeat first [progress quietly | apply quietly_send_new].
#[export] Hint Resolve quietly_send_new quietly_del_opt quietly_new_opt quietly_generateSessionId
  quietly_updateEvtMask : quiet.

Section quiet_ops2.
Context (modem : Modem).
Notation quietly := (quietly modem).

Lemma quietly_generate_ids n : quietly (generate_ids n).
Proof. induction n; simpl; quietly. Qed.
Lemma quietly_send_all_msgs l : quietly (send_all_msgs l).
Proof. induction l; simpl; quietly. Qed.
Lemma quietly_command_loop cmd errs n i : quietly (command_loop cmd errs n i).
Proof. revert i. induction n; intros i; cbn [command_loop]; quietly. Qed.
Lemma quietly_reportResponse c n e i : quietly (reportResponse c n e i).
Proof. unfold reportResponse, read_errs, read_ids. quietly. Qed.
End quiet_ops2.
#[export] Hint Resolve quietly_generate_ids quietly_send_all_msgs quietly_command_loop quietly_reportResponse : quiet.

Section quiet_ops3.
Context (modem : Modem).
Notation quietly := (quietly modem).

Lemma quietly_last_item cmd errs i : quietly (last_item cmd errs i).
Proof. unfold last_item. quietly. Qed.
Lemma quietly_command cmd : quietly (proc_command cmd).
Proof. unfold proc_command. quietly. Qed.
Lemma quietly_addGeofences c n o i : quietly (addGeofencesCommand c n o i).
Proof. unfold addGeofencesCommand. quietly_msg. Qed.
Lemma quietly_editGeofences k c n ids o : quietly (editGeofencesCommand k c n ids o).
Proof. unfold editGeofencesCommand. quietly_msg. Qed.
Lemma quietly_lock_status k : quietly (handleEngineLockStatus k).
Proof. unfold handleEngineLockStatus. quietly. Qed.
Lemma quietly_breach h l b t : quietly (geofenceBreach h l b t).
Proof. unfold geofenceBreach. quietly. Qed.
Lemma quietly_status a : quietly (geofenceStatus a).
Proof. unfold geofenceStatus. quietly. Qed.
Lemma quietly_mask : quietly geo_updateClientsEventMask.
Proof. unfold geo_updateClientsEventMask. quietly. Qed.
End quiet_ops3.
#[export] Hint Resolve quietly_last_item quietly_command quietly_addGeofences quietly_editGeofences
  quietly_lock_status quietly_breach quietly_status quietly_mask : quiet.

Lemma quietly_called modem cmd errs i : quietly modem (proc_called cmd errs i).
Proof. unfold proc_called, called_add, called_edit, read_id, read_option, read_info.
  case_decide; [quietly|]. destruct (kind cmd); quietly. Qed.
#[export] Hint Resolve quietly_called : quiet.

(** *** The invariant

    [X] is the message being processed, if any, whose effect is under way. *)
Definition adding (X : option positive) (w : GW) (p : positive) (h : Z) : Prop :=
  Some p ≠ X ∧ ∃ r, heap w !! p = Some (Own (AddResponse r LOCATION_ERROR_SUCCESS (Some h))).
Definition stopping (X : option positive) (w : GW) (h : Z) : Prop :=
  (∃ p m, Some p ≠ X ∧ heap w !! p = Some m ∧ is_stop m h) ∨ (∃ l, l ∈ apiTask w ∧ is_api_stop l h).

Record Inv (modem : Modem) (X : option positive) (w : GW) : Prop := {
  i_cons : consistent (st w);
  i_ret : ∀ h, is_Some (mGeofences (st w) !! h) → h ∈ returned_w modem w;
  i_add : ∀ p h, adding X w p h →
    h ∈ returned_w modem w ∧ mGeofences (st w) !! h = None ∧ ¬ stopping X w h ∧
    ∀ p', adding X w p' h → p' = p;
  i_succ : ∀ p r hw, heap w !! p = Some (Own (AddResponse r LOCATION_ERROR_SUCCESS hw)) → is_Some hw;
  i_stop : ∀ h, stopping X w h → (∀ k, mGeofenceIds (st w) !! k ≠ Some h) ∧ h ∈ returned_w modem w;
  i_next : ∀ p m, heap w !! p = Some m → (p < next w)%positive;
  i_lock : lock w ≠ ENGINE_LOCK_STATE_DISABLED }.

Section inv.
Context (modem : Modem).
Notation Inv := (Inv modem).
Notation quiet := (quiet modem).

Lemma quiet_adding X w w' p h : quiet w w' → adding X w' p h → adding X w p h.
Proof.
  intros Q [HX [r Hp]]. split; [done|]. exists r.
  apply (q_heap _ _ _ Q) in Hp as [?|[_ [Hp _]]]; [done|]. exfalso. eapply Hp. by eexists.
Qed.

Lemma quiet_stopping X w w' h : quiet w w' → stopping X w' h → stopping X w h.
Proof.
  intros Q [(p & m & HX & Hp & Hm)|(l & Hl & Hs)].
  - left. exists p, m. split_and!; try done.
    apply (q_heap _ _ _ Q) in Hp as [?|[_ [_ Hp]]]; [done|]. exfalso. by eapply Hp.
  - right. exists l. split; [|done]. apply (q_api _ _ _ Q) in Hl as [?|Hp]; [done|]. exfalso. by eapply Hp.
Qed.

Lemma quiet_inv X w w' : quiet w w' → Inv X w → Inv X w'.
Proof.
  intros Q [Hc Hr Ha Hs Ht Hn Hk]. split.
  - intros k h. unfold consistent in Hc. rewrite (q_geo _ _ _ Q), (q_ids _ _ _ Q). apply Hc.
  - intros h. rewrite (q_geo _ _ _ Q), (q_ret _ _ _ Q). apply Hr.
  - intros p h Hp%(quiet_adding _ _ _ _ _ Q). destruct (Ha _ _ Hp) as (H1 & H2 & H3 & H4).
    rewrite (q_geo _ _ _ Q), (q_ret _ _ _ Q). split_and!; [done..| |].
    + by intros ?%(quiet_stopping _ _ _ _ Q).
    + intros p' ?%(quiet_adding _ _ _ _ _ Q). by apply H4.
  - intros p r hw Hp. apply (q_heap _ _ _ Q) in Hp as [?|[_ [Hp _]]]; [by eapply Hs|].
    exfalso. eapply Hp. by eexists.
  - intros h Hh%(quiet_stopping _ _ _ _ Q). rewrite (q_ids _ _ _ Q), (q_ret _ _ _ Q). by apply Ht.
  - intros p m Hp. apply (q_heap _ _ _ Q) in Hp as [Hp|[? _]]; [|lia].
    apply Hn in Hp. pose proof (q_next _ _ _ Q). lia.
  - by rewrite (q_lock _ _ _ Q).
Qed.

Lemma quietly_inv {Y} (m : M GW Y) X w y w' : quietly modem m → Inv X w → m w = Done y w' → Inv X w'.
Proof. intros Q HI H. eapply quiet_inv; [by eapply Q|done]. Qed.

(** Maps that lose entries. *)
Lemma shrink_inv X w s :
  consistent s →
  (∀ h, is_Some (mGeofences s !! h) → is_Some (mGeofences (st w) !! h)) →
  (∀ k h, mGeofenceIds s !! k = Some h → mGeofenceIds (st w) !! k = Some h) →
  Inv X w → Inv X (set_st s w).
Proof.
  intros Hcs Hg Hi [Hc Hr Ha Hs Ht Hn Hk]. split; try done.
  - intros h Hh. by apply Hr, Hg.
  - intros p h Hp. destruct (Ha _ _ Hp) as (H1 & H2 & H3 & H4). split_and!; [done| |done|done].
    apply eq_None_not_Some. intros Hh%Hg. rewrite H2 in Hh. by destruct Hh.
  - intros h Hh. destruct (Ht _ Hh) as [H1 H2]. split; [|done]. intros k Hk'%Hi. by eapply H1.
Qed.

Lemma upd_object_inv f X h w : (∀ o, key (f o) = key o) → Inv X w → Inv X (set_st (upd_object f h (st w)) w).
Proof.
  intros Hf HI. apply shrink_inv; [by apply upd_consistent, HI|..|done];
    unfold upd_object; destruct (mGeofences (st w) !! h) as [o|] eqn:E; try done.
  intros h' [o' Hh]. simpl in Hh. apply lookup_insert_Some in Hh as [[<- _]|[_ ?]]; [by rewrite E|by eexists].
Qed.

Lemma removeItem_inv X h w : Inv X w → Inv X (set_st (removeGeofenceItem h (st w)) w).
Proof.
  intros HI. apply shrink_inv; [by apply remove_consistent, HI|..|done];
    unfold removeGeofenceItem; destruct (getGeofenceKeyFromHwId h (st w)) as [k|]; try done;
    destruct (mGeofenceIds (st w) !! k); try done; simpl.
  - intros h' [o Ho]. apply lookup_delete_Some in Ho as [_ Ho]. by eexists.
  - intros k' h' [_ ?]%lookup_delete_Some. done.
Qed.

Lemma save_inv X c id h o i w :
  Inv X w → h ∈ returned_w modem w → mGeofences (st w) !! h = None → ¬ stopping X w h →
  (∀ p, ¬ adding X w p h) → Inv X (set_st (saveGeofenceItem c id h o i (st w)) w).
Proof.
  intros [Hc Hr Ha Hs Ht Hn Hk] Hh Hnone Hstop Hadd. split; try done.
  - by apply save_consistent.
  - intros h'. simpl. intros [ob [[<- _]|[_ ?]]%lookup_insert_Some]; [done|by apply Hr].
  - intros p h' Hp. destruct (Ha _ _ Hp) as (H1 & H2 & H3 & H4). split_and!; [done| |done|done].
    simpl. rewrite lookup_insert_ne; [done|]. intros ->. by eapply Hadd.
  - intros h' Hh'. destruct (Ht _ Hh') as [H1 H2]. split; [|done]. intros k. simpl.
    intros [[<- <-]|[_ ?]]%lookup_insert_Some; [by apply Hstop|by eapply H1].
Qed.

Lemma stop_loop_inv X c l w w' :
  Inv X w → (∀ k h, (k, h) ∈ l → mGeofenceIds (st w) !! k = Some h) → NoDup l.*1 →
  stop_loop c l w = Done tt w' → Inv X w'.
Proof.
  revert w. induction l as [|[k h] l IH]; intros w HI Hl Hnd H; [by injection H as <-|].
  cbn [stop_loop] in H. apply NoDup_cons in Hnd as [Hk Hnd].
  apply bind_inv in H as ([] & w1 & E1 & E2).
  destruct (bool_decide (c = key_client k)) eqn:Ec; cycle 1.
  { injection E1 as <-. eapply IH; [done| |done|done]. intros k' h' ?. apply Hl. by right. }
  unfold upd_st, sendApi, modify in E1. mrun. injection E1 as <-.
  assert (Ekh : mGeofenceIds (st w) !! k = Some h) by (apply Hl; by left).
  destruct HI as [Hc Hr Ha Hs Ht Hn Hlk].
  destruct (Hc _ _ Ekh) as (o & Eo & Eko).
  assert (Hstop : ∀ h', stopping X (set_apiTask (apiTask w ++ [ApiOwn (ApiRemove h (key_id k) (RStop h))])
                          (set_st (set_maps (mGeofences (st w)) (delete k (mGeofenceIds (st w))) (st w)) w)) h' →
                        stopping X w h' ∨ h' = h).
  { intros h' [?|(l' & [Hl'| ->%list_elem_of_singleton]%elem_of_app & Hs')].
    - left. by left.
    - left. right. by exists l'.
    - injection Hs' as ->. by right. }
  eapply IH; [| |done|exact E2]; cycle 1.
  { intros k' h' Hin. simpl. rewrite lookup_delete_ne; [apply Hl; by right|].
    intros ->. apply Hk. apply (list_elem_of_fmap_2 fst) in Hin. done. }
  split; try done.
  - intros k' h'. simpl. intros [_ ?]%lookup_delete_Some. by apply Hc.
  - intros p h' Hp. destruct (Ha _ _ Hp) as (H1 & H2 & H3 & H4). split_and!; try done.
    intros [?| ->]%Hstop; [done|]. simpl in *. congruence.
  - intros h' Hh'. simpl. destruct (Hstop _ Hh') as [Hold| ->].
    + destruct (Ht _ Hold) as [H1 H2]. split; [|done]. intros k' [_ ?]%lookup_delete_Some. by eapply H1.
    + split; [|by apply Hr; rewrite Eo]. intros k' [Hne Hk']%lookup_delete_Some.
      destruct (Hc _ _ Hk') as (o' & Eo' & <-). congruence.
Qed.
End inv.

Section inv_steps.
Context (modem : Modem) (Hunique : unique_ids modem) (f : Features).
Notation Inv := (Inv modem).

Lemma quietly_restart_loop l : quietly modem (restart_loop l).
Proof. induction l as [|[h o] l IH]; simpl; quietly. Qed.

Lemma restart_inv X w w' : Inv X w → restartGeofences w = Done tt w' → Inv X w'.
Proof.
  intros HI H. unfold restartGeofences in H. apply bind_inv in H as (old & w1 & [=<- <-] & H).
  case_bool_decide; [by injection H as <-|].
  apply bind_inv in H as ([] & w1 & E1 & E2). injection E1 as <-.
  eapply (quietly_inv modem _ X _ _ _ (quietly_restart_loop _)); [|exact E2].
  apply shrink_inv; [|by intros ? []|done|done]. intros k h Hk. done.
Qed.

Lemma SSR_inv X w w' : Inv X w → proc_SSR f w = Done tt w' → Inv X w'.
Proof.
  intros HI H. unfold proc_SSR in H.
  apply bind_inv in H as ([] & w1 & E1 & H). apply bind_inv in H as ([] & w2 & E2 & H).
  assert (HI2 : Inv X w2).
  { eapply (quietly_inv _ (broadcastCapabilities (getCapabilities true f))); [|by eapply (quietly_inv _ (upd_base _)); eauto with quiet|done].
    unfold broadcastCapabilities. quietly. }
  apply bind_inv in H as (k & w3 & [=<- <-] & H).
  destruct (bool_decide _); [|by injection H as <-].
  apply bind_inv in H as ([] & w4 & E4 & H). apply (restart_inv _ _ _ HI2) in E4.
  eapply (quietly_inv modem _ X); [|exact E4|exact H]. quietly.
Qed.

(** The request of item [i] answered. *)
Lemma upd_when_inv X (g : Geo → Geo) b w w' :
  (∀ w, Inv X w → Inv X (set_st (g (st w)) w)) → Inv X w → when b (upd_st g) w = Done tt w' → Inv X w'.
Proof. intros Hg HI. destruct b; intros [=<-]; [by apply Hg|done]. Qed.

Lemma removed_inv X cmd errs i h err w w' :
  Inv X w → proc_removed cmd errs i h err w = Done tt w' → Inv X w'.
Proof.
  intros HI H. unfold proc_removed in H. apply bind_inv in H as (k & w1 & [=<- <-] & H).
  apply bind_inv in H as ([] & w1 & E1 & H). apply (upd_when_inv X) in E1; [|apply removeItem_inv|done].
  eapply (quietly_inv modem _ X); [|exact E1|exact H]. quietly.
Qed.
Lemma paused_inv X cmd errs i h err w w' :
  Inv X w → proc_paused cmd errs i h err w = Done tt w' → Inv X w'.
Proof.
  intros HI H. unfold proc_paused in H. apply bind_inv in H as ([] & w1 & E1 & H).
  apply (upd_when_inv X) in E1; [|by intros; apply upd_object_inv|done].
  eapply (quietly_inv modem _ X); [|exact E1|exact H]. quietly.
Qed.
Lemma resumed_inv X cmd errs i h err w w' :
  Inv X w → proc_resumed cmd errs i h err w = Done tt w' → Inv X w'.
Proof.
  intros HI H. unfold proc_resumed in H. destruct (bool_decide _); [|by injection H as <-].
  apply bind_inv in H as ([] & w1 & E1 & H). apply bind_inv in H as ([] & w2 & E2 & H).
  eapply (quietly_inv modem (write_err errs i err) X) in E1; [|eauto with quiet|done].
  apply (upd_when_inv X _ true) in E2; [|by intros; apply upd_object_inv|done].
  eapply (quietly_inv modem _ X); [|exact E2|exact H]. quietly.
Qed.
Lemma modified_inv X cmd errs i h err w w' :
  Inv X w → proc_modified cmd errs i h err w = Done tt w' → Inv X w'.
Proof.
  intros HI H. unfold proc_modified in H. apply bind_inv in H as (k & w1 & [=<- <-] & H).
  apply bind_inv in H as ([] & w1 & E1 & H).
  eapply (quietly_inv modem (last_item cmd errs i) X); [eauto with quiet| |exact H].
  destruct (ok_or_disabled _ _); [|by injection E1 as <-].
  apply bind_inv in E1 as ([] & w2 & E1 & E2). apply bind_inv in E2 as (o & w3 & E2 & E3).
  pose proof (quietly_deref modem _ _ _ _ E2) as Q.
  eapply (quietly_inv modem (write_err errs i err) X) in E1; [|eauto with quiet|done].
  apply (upd_when_inv X _ true) in E3; [done|by intros; apply upd_object_inv|by eapply quiet_inv].
Qed.
Lemma item_inv X cmd errs i h err w w' :
  Inv X w → proc_item cmd errs i h err w = Done tt w' → Inv X w'.
Proof.
  intros HI H. unfold proc_item in H.
  destruct (kind cmd); eauto using removed_inv, paused_inv, resumed_inv, modified_inv.
Qed.

(** A new geofence answered: [Some p] is its message, which carried [hw]. *)
Lemma saved_inv p r err hw w c id o i :
  Inv None w → heap w !! p = Some (Own (AddResponse r err hw)) → err = LOCATION_ERROR_SUCCESS →
  Inv (Some p) (set_st (saveGeofenceItem c id (default (uninit (st w)) hw) o i (st w)) w).
Proof.
  intros HI Hp ->. destruct (i_succ _ _ _ HI _ _ _ Hp) as [h ->]. simpl.
  destruct (i_add _ _ _ HI p h) as (H1 & H2 & H3 & H4); [split; [done|by eexists]|].
  assert (Hadd : ∀ p' h', adding (Some p) w p' h' → adding None w p' h') by (intros ?? [? ?]; done).
  assert (Hstop : ∀ h', stopping (Some p) w h' → stopping None w h').
  { intros h' [(q & m & _ & ? & ?)|?]; [left; by exists q, m|by right]. }
  apply save_inv; [|done|done|by intros ?%Hstop|].
  - destruct HI as [Hc Hr Ha Hs Ht Hn Hk]. split; try done.
    + intros q h' Hq. destruct (Ha _ _ (Hadd _ _ Hq)) as (G1 & G2 & G3 & G4).
      split_and!; [done|done|by intros ?%Hstop|]. intros q' ?%Hadd. by apply G4.
    + intros h' ?%Hstop. by apply Ht.
  - intros q Hq. pose proof (H4 _ (Hadd _ _ Hq)) as ->. by destruct Hq as [? _].
Qed.

Lemma weaken_inv p w : Inv None w → Inv (Some p) w.
Proof.
  intros [Hc Hr Ha Hs Ht Hn Hk].
  assert (Hadd : ∀ p' h', adding (Some p) w p' h' → adding None w p' h') by (intros ?? [? ?]; done).
  assert (Hstop : ∀ h', stopping (Some p) w h' → stopping None w h').
  { intros h' [(q & m & _ & ? & ?)|?]; [left; by exists q, m|by right]. }
  split; try done.
  - intros q h' Hq. destruct (Ha _ _ (Hadd _ _ Hq)) as (G1 & G2 & G3 & G4).
    split_and!; [done|done|by intros ?%Hstop|]. intros q' ?%Hadd. by apply G4.
  - intros h' ?%Hstop. by apply Ht.
Qed.

Lemma delete_inv p w w' : Inv (Some p) w → delete_msg p w = Done tt w' → Inv None w'.
Proof.
  intros [Hc Hr Ha Hs Ht Hn Hk] H. unfold delete_msg in H. destruct (heap w !! p) as [mp|]; [|done]. injection H as <-.
  set (w' := set_task _ _ _ _).
  assert (Hheap : ∀ q m, heap w' !! q = Some m → p ≠ q ∧ heap w !! q = Some m)
    by (intros q m; apply lookup_delete_Some).
  assert (Hadd : ∀ q h', adding None w' q h' → adding (Some p) w q h').
  { intros q h' [_ [r [Hne Hr']%Hheap]]. split; [congruence|by exists r]. }
  assert (Hstop : ∀ h', stopping None w' h' → stopping (Some p) w h').
  { intros h' [(q & m & _ & [Hne ?]%Hheap & ?)|?]; [left|by right]. exists q, m. split; [congruence|done]. }
  split; try done.
  - intros q h' Hq%Hadd. destruct (Ha _ _ Hq) as (G1 & G2 & G3 & G4).
    split_and!; [done|done|by intros ?%Hstop|]. intros q' ?%Hadd. by apply G4.
  - intros q r hw [_ Hq]%Hheap. by eapply Hs.
  - intros h' ?%Hstop. by apply Ht.
  - intros q m [_ Hq]%Hheap. by eapply Hn.
Qed.

(** Processing the message [p]. *)
Lemma proc_inv p m w w' :
  Inv None w → heap w !! p = Some m → proc f m w = Done tt w' → Inv (Some p) w'.
Proof.
  intros HI Hp H. pose proof (weaken_inv p _ HI) as HX.
  assert (Hq : ∀ m0 : M GW unit, quietly modem m0 → m0 w = Done tt w' → Inv (Some p) w')
    by (intros m0 Hm0 E; by eapply quietly_inv).
  destruct m as [c cb|c b|c|a]; cbn [proc] in H.
  - eapply Hq, H. unfold saveClient. simpl. quietly.
  - apply bind_inv in H as ([] & w1 & E1 & H). cbn in E1. unfold geo_stopClientSessions in E1.
    apply bind_inv in E1 as (l & w2 & [=<- <-] & E1).
    apply (stop_loop_inv modem (Some p)) in E1; [|done|by intros k h ?%elem_of_in_order|apply NoDup_in_order].
    eapply (quietly_inv modem _ (Some p)); [|exact E1|exact H]. unfold eraseClient. simpl. quietly.
  - eapply Hq, H. unfold push_pending. quietly.
  - simpl in H. destruct a as [k| |cmd|hw l b t|a|cmd errs i|r err|r err hw]; cbn [geo_proc] in H.
    1: by eapply Hq, H; eauto with quiet.
    1: by eapply SSR_inv.
    1-4: by eapply Hq, H; eauto with quiet.
    + destruct r as [cmd errs i h|h|]; [by eapply item_inv| |by injection H as <-].
      destruct (bool_decide _); injection H as <-; [|done].
      destruct (i_stop _ _ _ HI h) as [Hno _]; [left; exists p; eexists; split_and!; [done|done|by eexists]|].
      apply shrink_inv; [apply delete_consistent; [apply HI|done]| |done|done].
      intros h' [o Ho]. simpl in Ho. apply lookup_delete_Some in Ho as [_ ?]. by eexists.
    + destruct r as [cmd errs i|ob o i]; cbn [geo_proc] in H.
      * unfold proc_added in H. apply bind_inv in H as (k & w1 & [=<- <-] & H).
        apply bind_inv in H as ([] & w1 & E1 & H).
        eapply (quietly_inv modem _ (Some p)); [| |exact H]; [quietly|].
        unfold ok_or_disabled in E1. rewrite bool_decide_false in E1 by apply HI. simpl in E1.
        case_bool_decide as Herr; [|by injection E1 as <-].
        apply bind_inv in E1 as (id & w2 & E2 & E1). apply bind_inv in E1 as (oo & w3 & E3 & E1).
        apply bind_inv in E1 as (ii & w4 & E4 & E1).
        unfold read_id, read_option, read_info, deref in E2, E3, E4.
        repeat case_match; simplify_eq. injection E1 as <-. by eapply saved_inv.
      * unfold proc_restarted in H. case_bool_decide as Herr; [|by injection H as <-].
        apply bind_inv in H as (h & w1 & [=<- <-] & H). apply bind_inv in H as ([] & w1 & E1 & H).
        assert (HI1 : Inv None w1 ∧ heap w1 !! p = heap w !! p ∧ st w1 = st w).
        { destruct (paused ob); [|by injection E1 as <-]. split; [|by injection E1 as <-].
          eapply (quietly_inv modem _ None); [|exact HI|exact E1]. quietly. }
        destruct HI1 as (HI1 & Hp1 & Est). injection H as <-. rewrite Hp in Hp1.
        rewrite <-Est. by eapply saved_inv.
Qed.
End inv_steps.

Section inv_exec.
Context (modem : Modem) (Hunique : unique_ids modem) (f : Features).
Notation Inv := (Inv modem).

(** A step of the adapter's task. *)
Lemma task_inv w w' : Inv None w → task_step f w = Done tt w' → Inv None w'.
Proof.
  intros HI H. unfold task_step in H. apply bind_inv in H as (q & w1 & [=<- <-] & H).
  destruct (task w) as [|p q]; [by injection H as <-|].
  apply bind_inv in H as ([] & w1 & [=<-] & H). apply bind_inv in H as (m & w2 & E2 & H).
  unfold deref in E2. simpl in E2. destruct (heap w !! p) as [m0|] eqn:Ep; simplify_eq.
  apply bind_inv in H as ([] & w3 & E3 & H).
  eapply delete_inv, H. eapply proc_inv, E3; [|done].
  destruct HI as [Hc Hr Ha Hs Ht Hn Hk]. by split.
Qed.

Lemma quietly_run_api {X} (m : M ApiState X) : edits modem m → quietly modem (run_api m).
Proof.
  intros Hm w x w' H. unfold run_api in H. destruct (Hm (api w)) as (y & a & E & Hr).
  rewrite E in H. injection H as -> <-. split; try done; by left.
Qed.

(** The message at the head of the LocApi's task has been taken. *)
Lemma pop_api_quiet w l q : apiTask w = l :: q → quiet modem w (set_apiTask q w).
Proof. intros E. split; try done; simpl; [by left|]. intros l' ?. left. rewrite E. by right. Qed.

(** An answer of the LocApi that is neither to an addition nor to stopClientSessions. *)
Lemma plain_response r e : (∀ h, r ≠ RStop h) → plain (Own (Response r e)).
Proof. intros Hr. split; [by intros ? ? [? ?]|]. intros h [? [= ]]. naive_solver. Qed.

Lemma respond_inv (m : M ApiState LocationError) r w w' :
  edits modem m → (∀ h, r = RStop h → (∀ k, mGeofenceIds (st w) !! k ≠ Some h) ∧ h ∈ returned_w modem w ∧
                               ∀ p, ¬ adding None w p h) →
  Inv None w → (err ← run_api m; send_new (Own (Response r err))) w = Done tt w' → Inv None w'.
Proof.
  intros Hm Hr HI H. apply bind_inv in H as (err & w1 & E1 & H).
  pose proof (quietly_run_api m Hm _ _ _ E1) as Q. pose proof (quiet_inv _ _ _ _ Q HI) as [Hc Hre Ha Hs Ht Hn Hk].
  injection H as <-. set (w2 := set_task _ _ _ _).
  assert (Hheap : ∀ p m0, heap w2 !! p = Some m0 → heap w1 !! p = Some m0 ∨ (p = next w1 ∧ m0 = Own (Response r err))).
  { intros p m0. simpl. rewrite lookup_insert_Some. naive_solver. }
  assert (Hadd : ∀ p h, adding None w2 p h → adding None w1 p h).
  { intros p h [_ [r' [?|[_ ?]]%Hheap]]; [|done]. split; [done|by exists r']. }
  assert (Hstop : ∀ h, stopping None w2 h → stopping None w1 h ∨ r = RStop h).
  { intros h [(p & m0 & _ & [?|[_ ->]]%Hheap & Hm0)|?]; [left; left; by exists p, m0|right|left; by right].
    destruct Hm0 as [? [=]]. done. }
  split; try done.
  - intros p h Hp%Hadd. destruct (Ha _ _ Hp) as (G1 & G2 & G3 & G4). split_and!; try done.
    + intros [?|E]%Hstop; [done|]. destruct (Hr _ E) as (_ & _ & Hno). eapply Hno, quiet_adding; done.
    + intros p' ?%Hadd. by apply G4.
  - intros p r' hw [?|[_ ?]]%Hheap; [by eapply Hs|done].
  - intros h [?|E]%Hstop; [by apply Ht|]. destruct (Hr _ E) as (H1 & H2 & _).
    change (mGeofenceIds (st w2)) with (mGeofenceIds (st w1)). change (returned_w modem w2) with (returned_w modem w1).
    by rewrite (q_ids _ _ _ Q), (q_ret _ _ _ Q).
  - intros p m0 [Hp%Hn|[-> _]]%Hheap; simpl; lia.
Qed.

Lemma add_inv id o i r w w' :
  Inv None w →
  ('(err, hwId) ← run_api (addGeofence modem id o i); send_new (Own (AddResponse r err hwId))) w = Done tt w' →
  Inv None w'.
Proof.
  intros [Hc Hre Ha Hs Ht Hn Hk] H.
  apply bind_inv in H as ([err hw] & w1 & E1 & H). unfold run_api in E1.
  destruct (addGeofence_spec modem id o i (api w)) as (err0 & hw0 & a & E & Hreq & Hhw & Herr).
  rewrite E in E1. injection E1 as -> -> <-. injection H as <-.
  set (w2 := set_task _ _ _ _).
  assert (Hret : returned_w modem w2 = returned_w modem w ++ option_list hw).
  { unfold returned_w. simpl. rewrite Hreq, returned_snoc, <-Hreq. by rewrite <-Hhw. }
  assert (Hfresh : ∀ h, hw = Some h → h ∉ returned_w modem w).
  { intros h ->. apply Hunique with (AddCircularGeofence (addGeofence_req id o i)). by rewrite <-Hreq. }
  assert (Hheap : ∀ p m0, heap w2 !! p = Some m0 → heap w !! p = Some m0 ∨ (p = next w ∧ m0 = Own (AddResponse r err hw))).
  { intros p m0. simpl. rewrite lookup_insert_Some. naive_solver. }
  assert (Hadd : ∀ p h, adding None w2 p h → adding None w p h ∨ (p = next w ∧ hw = Some h)).
  { intros p h [_ [r' [?|[-> [=]]]%Hheap]]; [left; split; [done|by exists r']|by right]. }
  assert (Hstop : ∀ h, stopping None w2 h → stopping None w h).
  { intros h [(p & m0 & _ & [?|[_ ->]]%Hheap & Hm0)|?]; [left; by exists p, m0|by destruct Hm0|by right]. }
  split; try done.
  - intros h Hh. rewrite Hret. apply elem_of_app. left. by apply Hre.
  - intros p h [Hp|[-> ->]]%Hadd; rewrite Hret, elem_of_app.
    + destruct (Ha _ _ Hp) as (G1 & G2 & G3 & G4). split_and!; [by left|done|by intros ?%Hstop|].
      intros p' [?|[-> ->]]%Hadd; [by apply G4|]. by apply Hfresh in G1.
    + specialize (Hfresh h eq_refl). split_and!; [right; by left|..].
      * apply eq_None_not_Some. intros ?%Hre. done.
      * intros [_ ?]%Hstop%Ht. done.
      * intros p' [Hp'|[-> _]]%Hadd; [|done]. by destruct (Ha _ _ Hp') as [? _].
  - intros p r' hw' [?|[_ [= -> <- ->]]]%Hheap; [by eapply Hs|]. by apply Herr.
  - intros h Hh%Hstop. rewrite Hret, elem_of_app. destruct (Ht _ Hh). tauto.
  - intros p m0 [Hp%Hn|[-> _]]%Hheap; simpl; lia.
Qed.

(** A step of the LocApi's task. *)
Lemma api_inv w w' : Inv None w → api_step modem f w = Done tt w' → Inv None w'.
Proof.
  intros HI H. unfold api_step in H. apply bind_inv in H as (q & w1 & [=<- <-] & H).
  destruct (apiTask w) as [|l q] eqn:Eq; [by injection H as <-|].
  apply bind_inv in H as ([] & w1 & [=<-] & H).
  pose proof (pop_api_quiet _ _ _ Eq) as Q. pose proof (quiet_inv _ _ _ _ Q HI) as HI1.
  assert (Hst : ∀ h, is_api_stop l h → (∀ k, mGeofenceIds (st (set_apiTask q w)) !! k ≠ Some h) ∧
            h ∈ returned_w modem (set_apiTask q w) ∧ ∀ p, ¬ adding None (set_apiTask q w) p h).
  { intros h Hl. assert (Hstop : stopping None w h) by (right; exists l; rewrite Eq; split; [by left|done]).
    destruct (i_stop _ _ _ HI h Hstop) as [H1 H2]. split_and!; [done..|].
    intros p Hp. by destruct (i_add _ _ _ HI p h Hp) as (_ & _ & ? & _). }
  destruct l as [|l].
  { eapply quietly_inv; [|exact HI1|exact H]. unfold open_api.
    apply quietly_bind; [apply quietly_gets|]. intros mask.
    apply quietly_bind; [apply quietly_run_api, edits_open|intros; apply quietly_ret]. }
  simpl in H. destruct l as [cmd errs i|id o i r|h id r|h id r|h id r|h id o r]; cbn [geo_api] in H.
  - eapply quietly_inv; [|exact HI1|exact H]. apply quietly_send_new. plain.
  - by eapply add_inv.
  - eapply respond_inv; [apply edits_remove| |exact HI1|exact H]. intros h0 ->. by eapply Hst.
  - eapply respond_inv; [apply edits_pause| |exact HI1|exact H]. intros h0 ->. by eapply Hst.
  - eapply respond_inv; [apply edits_resume| |exact HI1|exact H]. intros h0 ->. by eapply Hst.
  - eapply respond_inv; [apply edits_modify| |exact HI1|exact H]. intros h0 ->. by eapply Hst.
Qed.

(** Every step but the indication that the engine is locked. *)
Definition stays_unlocked (l : Label (C:=GCall)) : Prop := l ≠ LCall (CEngineLock ENGINE_LOCK_STATE_DISABLED).

Lemma geo_exec_inv l w w' : stays_unlocked l → Inv None w → exec modem f l w = Done tt w' → Inv None w'.
Proof.
  intros Hl HI H. destruct l as [c|c cb|c b|c| |]; simpl in H.
  2-4: eapply quietly_inv; [|exact HI|exact H]; apply quietly_send_new; plain.
  2: by eapply task_inv.
  2: by eapply api_inv.
  destruct c as [c n o i|c n ids|c n ids|c n ids|c n ids o|p| |k|n hw l b t|a]; cbn [geo_call] in H.
  1-5: eapply quietly_inv; [|exact HI|exact H].
  - eauto with quiet.
  - unfold removeGeofencesCommand. eauto with quiet.
  - unfold pauseGeofencesCommand. eauto with quiet.
  - unfold resumeGeofencesCommand. eauto with quiet.
  - unfold modifyGeofencesCommand. eauto with quiet.
  - eapply quietly_inv; [|exact HI|exact H]. unfold read_ids. quietly.
  - eapply quietly_inv; [|exact HI|exact H]. apply quietly_send_new. plain.
  - apply bind_inv in H as (b & w1 & E1 & H).
    assert (HI1 : Inv None w1).
    { unfold reportEngineLockStatus in E1. apply bind_inv in E1 as (old & w2 & [=<- <-] & E1).
      destruct (_ && _); [|by injection E1 as <- <-].
      apply bind_inv in E1 as ([] & w2 & [=<-] & E1). injection E1 as <- <-.
      destruct HI. split; try done. simpl. unfold stays_unlocked in Hl. congruence. }
    eapply quietly_inv; [|exact HI1|exact H]. apply quietly_when, quietly_send_new. plain.
  - eapply quietly_inv; [|exact HI|exact H]. unfold geofenceBreachEvent. destruct (decide _); [quietly|].
    destruct hw; [|quietly]. apply quietly_bind; [quietly|]. intros. apply quietly_send_new. plain.
  - eapply quietly_inv; [|exact HI|exact H]. apply quietly_send_new. plain.
Qed.

Lemma init_inv g : Inv None (geo_init g).
Proof.
  split; simpl; try done.
  - by intros h [? ?].
  - by intros p h [_ [? ?]].
  - intros h [(p & m & _ & ? & _)|(l & Hl & _)]; [done|by apply not_elem_of_nil in Hl].
Qed.
End inv_exec.

(** C10: in every execution of the two tasks and the clients, as long as the modem does not give an
    identifier twice and the engine is not locked, each identifier a client knows leads to
    the geofence it was added as, no two clients' geofences share an identifier of the modem,
    and a breach of it is reported to its client under its identifier and to nobody else. *)
Theorem geofence_maps_consistent modem f garbage ls w :
  unique_ids modem → Forall stays_unlocked ls →
  execs modem f ls (geo_init garbage) = Done tt w →
  (∀ k h, mGeofenceIds (st w) !! k = Some h → ∃ o, mGeofences (st w) !! h = Some o ∧ key o = k) ∧
  (∀ k1 k2 h, mGeofenceIds (st w) !! k1 = Some h → mGeofenceIds (st w) !! k2 = Some h → k1 = k2) ∧
  (∀ k h c, mGeofenceIds (st w) !! k = Some h →
     breached_ids (st w) [h] c = if decide (key_client k = c) then [key_id k] else []).
Proof.
  intros Hu Hls H.
  assert (HI : Inv modem None w).
  { eapply (execs_invariant modem f stays_unlocked (Inv modem None)); [|apply init_inv|done|done].
    intros l w1 w2 Hl HI E. by eapply geo_exec_inv. }
  split_and!; [apply HI|intros k1 k2 h; apply consistent_inj, HI|].
  intros k h c (o & Eo & <-)%(i_cons _ _ _ HI).
  unfold breached_ids, getGeofenceKeyFromHwId. simpl. rewrite Eo. simpl. by case_decide.
Qed.

(** ** Concrete executions *)
Definition ind_of (s : qmiLocStatusEnumT_v02) (id : option Z) : Ind :=
  {| status := s; geofenceId := id; ind_batchSize := 0; ind_numberOfEntries := None;
     batchedReportList := None; ind_accumulatedDistance := 0; ind_batchedPosition := 0 |}.

#[local] Existing Instance LocApiTrack.registration_dec.
Definition geofence_count (h : list Request) : Z :=
  Z.of_nat (length (filter (λ r, ¬ LocApiTrack.registration r) h)).
Lemma geofence_count_snoc h r :
  geofence_count (h ++ [r]) = geofence_count h + (if decide (LocApiTrack.registration r) then 0 else 1).
Proof.
  unfold geofence_count. rewrite filter_app, length_app. simpl. unfold filter. simpl.
  destruct (decide (LocApiTrack.registration r)), (decide (¬ LocApiTrack.registration r)); simpl; try lia; tauto.
Qed.

(** A modem that numbers its geofences and rejects the edits of those in [refused]. *)
Definition numbering (refused : list Z) : Modem := λ h,
  (true,
   match last h with
   | Some (AddCircularGeofence _) => ind_of eQMI_LOC_SUCCESS_V02 (Some (geofence_count h))
   | Some (DeleteGeofence id _) | Some (EditGeofence {| edit_geofenceId := id |}) =>
       ind_of (if decide (id ∈ refused) then eQMI_LOC_GENERAL_FAILURE_V02 else eQMI_LOC_SUCCESS_V02) None
   | _ => ind_of eQMI_LOC_SUCCESS_V02 None
   end).

Lemma numbering_unique l : unique_ids (numbering l).
Proof.
  assert (Hb : ∀ h i, i ∈ returned (numbering l) h → i ≤ geofence_count h).
  { intros h. induction h as [|r h IH] using rev_ind; intros i.
    { by intros ?%elem_of_nil. }
    rewrite returned_snoc, elem_of_app, geofence_count_snoc. intros [?%IH|Hi]; [case_decide; lia|].
    unfold add_id in Hi. rewrite last_snoc in Hi. destruct r; simpl in Hi; try by apply elem_of_nil in Hi.
    unfold numbering in Hi. rewrite last_snoc in Hi. simpl in Hi.
    rewrite geofence_count_snoc in Hi. apply list_elem_of_singleton in Hi. subst i. done. }
  intros h r i Hi Hin%Hb. unfold add_id in Hi. rewrite last_snoc in Hi. destruct r; try done.
  unfold numbering in Hi. rewrite last_snoc in Hi. simpl in Hi. rewrite geofence_count_snoc in Hi.
  injection Hi. simpl. lia.
Qed.

Definition all_callbacks : LocationCallbacks :=
  {| capabilitiesCb := true; responseCb := true; collectiveResponseCb := true; trackingCb := true;
     batchingCb := true; geofenceBreachCb := true; geofenceStatusCb := true; gnssLocationInfoCb := true;
     gnssNiCb := true; gnssSvCb := true; gnssNmeaCb := true; gnssDataCb := true; gnssMeasurementsCb := true;
     batchingStatusCb := true; locationSystemInfoCb := true; engineLocationsInfoCb := true |}.
Definition no_features : Features :=
  {| msg_DISTANCE_BASE_LOCATION_BATCHING := false; msg_DISTANCE_BASE_TRACKING := false; msg_BATCHED_GENFENCE_BREACH := false;
     msg_OUTDOOR_TRIP_BATCHING := false; gnssConstellationConfig := false; carrierCapabilities := 0;
     feature_DEBUG_NMEA := false; feature_CONSTELLATION_ENABLEMENT := false; feature_AGPM := false;
     feature_LOCATION_PRIVACY := false; feature_MEASUREMENTS_CORRECTION := false;
     feature_ROBUST_LOCATION := false; feature_EDGNSS := false |}.

Definition an_option (breach : Z) : GeofenceOption :=
  {| breachTypeMask := breach; responsiveness := 4000; dwellTime := 0 |}.
Definition an_info : GeofenceInfo :=
  {| gi_latitude := d_of_Z 48; gi_longitude := d_of_Z 2; gi_radius := d_of_Z 100 |}.

(** Both tasks take turns [n] times. *)
Definition turns (n : nat) : list (Label (C:=GCall)) := mjoin (replicate n [LTask; LApi]).
(** Client 1 adds [n] geofences, whose identifiers are 2, 3, ... *)
Definition adds (n : nat) : list (Label (C:=GCall)) :=
  LAddClient 1 all_callbacks ::
  LCall (CAdd 1 n (Some (replicate n (an_option 3))) (Some (replicate n an_info))) :: turns (3 * n + 3).
Definition run (refused : list Z) (ls : list (Label (C:=GCall))) : outcome GW unit :=
  execs (numbering refused) no_features ls (geo_init 77).
Definition run_out (refused : list Z) (ls : list (Label (C:=GCall))) : option (list GEvent) :=
  (λ w, omap (λ e, match e with EvOwn e => Some e | _ => None end) (out w)) <$> outcome_state (run refused ls).

Lemma turns_unlocked n : Forall stays_unlocked (turns n).
Proof. induction n; [constructor|]. constructor; [done|]. by constructor. Qed.
Lemma adds_unlocked n : Forall stays_unlocked (adds n).
Proof. constructor; [done|]. constructor; [done|]. apply turns_unlocked. Qed.

(** Two geofences are added and the first is removed. *)
Definition add_and_remove : list (Label (C:=GCall)) :=
  adds 2 ++ LCall (CRemove 1 1 (Some [2])) :: turns 4.
Lemma add_and_remove_unlocked : Forall stays_unlocked add_and_remove.
Proof. apply Forall_app. split; [apply adds_unlocked|]. constructor; [done|apply turns_unlocked]. Qed.

Lemma geofence_maps_consistent_witness :
  (λ w, (map_to_list (mGeofenceIds (st w)), breached_ids (st w) [1; 2] 1)) <$> outcome_state (run [] add_and_remove)
    = Some ([(mkKey 1 3, 2)], [3]) ∧
  ∀ w, execs (numbering []) no_features add_and_remove (geo_init 77) = Done tt w →
    ∀ k h, mGeofenceIds (st w) !! k = Some h → ∃ o, mGeofences (st w) !! h = Some o ∧ key o = k.
Proof.
  split; [by vm_compute|]. intros w E.
  exact (proj1 (geofence_maps_consistent (numbering []) no_features 77 add_and_remove w
                  (numbering_unique []) add_and_remove_unlocked E)).
Defined.

(** ** An addition is answered

    One addGeofences command on its own: from two empty queues, under every interleaving of
    the two tasks. *)

(** The answer to the last request of [h], an addition. *)
Definition add_answer (modem : Modem) (h : list Request) : LocationError * option Z :=
  let '(ok, ind) := modem h in
  match ok && bool_decide (status ind = eQMI_LOC_SUCCESS_V02), geofenceId ind with
  | true, Some id => (LOCATION_ERROR_SUCCESS, Some id)
  | _, _ => (if decide (status ind = eQMI_LOC_MAX_GEOFENCE_PROGRAMMED_V02)
             then LOCATION_ERROR_GEOFENCES_AT_MAX else LOCATION_ERROR_GENERAL_FAILURE, None)
  end.

Abbreviation Item := (Z * GeofenceOption * GeofenceInfo)%type (only parsing).
Definition item_req (x : Item) : Request := AddCircularGeofence (addGeofence_req x.1.1 x.1.2 x.2).

(** The modem's answers to the additions of [items], sent in that order after [h]. *)
Fixpoint add_answers (modem : Modem) (h : list Request) (items : list Item) : list (LocationError * option Z) :=
  match items with
  | [] => []
  | x :: items => add_answer modem (h ++ [item_req x]) :: add_answers modem (h ++ [item_req x]) items
  end.

(** The geofence of an answered item is saved. *)
Definition save_answered (c : client) (k : EngineLockState) (s : Geo) (x : Item * (LocationError * option Z)) : Geo :=
  let '((id, o, i), (err, hwId)) := x in
  if ok_or_disabled k err then saveGeofenceItem c id (default (uninit s) hwId) o i s else s.

Lemma add_answers_lookup modem h items i x :
  items !! i = Some x → add_answers modem h items !! i = Some (add_answer modem (h ++ (item_req <$> take (S i) items))).
Proof.
  revert h i. induction items as [|y items IH]; intros h [|i] Hx; simplify_eq/=; [done|].
  rewrite (IH _ _ Hx). by rewrite <-app_assoc.
Qed.
Lemma add_answers_length modem h items : length (add_answers modem h items) = length items.
Proof. revert h. induction items; intros h; simpl; auto. Qed.

Lemma run_addGeofence modem x (w : GW) :
  run_api (addGeofence modem x.1.1 x.1.2 x.2) w
  = Done (add_answer modem (requests (api w) ++ [item_req x]))
         (set_api (send_request (item_req x) (api w)) w).
Proof.
  unfold run_api, addGeofence, LOC_SEND_SYNC_REQ, add_answer. mrun. fold (item_req x).
  by destruct (modem _) as [[] ind].
Qed.


(** *** The two queues *)

(** The queue of the adapter's task holds the messages [tm]. *)
Record Queue (tm : list (Msg GMsg)) (w : GW) : Prop := {
  qu_heap : Forall2 (λ p m, heap w !! p = Some m) (task w) tm;
  qu_nodup : NoDup (task w);
  qu_next : Forall (λ p, (p < next w)%positive) (task w) }.

Definition sent (m : Msg GMsg) (w : GW) : GW :=
  set_task (<[next w := m]> (heap w)) (Pos.succ (next w)) (task w ++ [next w]) w.

Lemma queue_send tm m w : Queue tm w → Queue (tm ++ [m]) (sent m w).
Proof.
  intros [Hh Hn Hx]. rewrite Forall_forall in Hx.
  assert (Hnew : next w ∉ task w) by (intros ?%Hx; lia).
  unfold sent. split; simpl.
  - apply Forall2_app; [|repeat constructor; by rewrite lookup_insert_eq].
    clear Hx Hn. induction Hh as [|p m' l tm' E Hh IH]; constructor; [|apply IH; set_solver].
    rewrite lookup_insert_ne; [done|set_solver].
  - apply NoDup_app. split_and!; [done|set_solver|]. apply NoDup_singleton.
  - apply Forall_app. split; [|by repeat constructor; lia].
    apply Forall_forall. intros p ?%Hx. lia.
Qed.

(** [w1] has the queue of [w] but for the message being processed. *)
Definition same_queue (w w1 : GW) : Prop :=
  heap w1 = heap w ∧ next w1 = next w ∧ task w1 = tail (task w).

Lemma queue_pop f tm m w w1 :
  Queue (m :: tm) w → proc f m (set_task (heap w) (next w) (tail (task w)) w) = Done tt w1 → same_queue w w1 →
  ∃ h, task_step f w = Done tt (set_task h (next w1) (task w1) w1) ∧ Queue tm (set_task h (next w1) (task w1) w1).
Proof.
  intros [Hh Hn Hx] Hp (E1 & E2 & E3). destruct (task w) as [|p q] eqn:Et; [by inversion Hh|].
  apply Forall2_cons in Hh as [Hp' Hh]. apply NoDup_cons in Hn as [Hpq Hn]. apply Forall_cons in Hx as [_ Hx].
  exists (delete p (heap w1)). split.
  - unfold task_step. mrun. rewrite Et, Hp'. simpl in Hp. rewrite Hp. unfold delete_msg. by rewrite E1, Hp'.
  - simpl in E3. split; simpl; rewrite ?E1, ?E2, ?E3; try done.
    clear -Hh Hpq. induction Hh as [|p' m' l tm' E Hh IH]; constructor; [|apply IH; set_solver].
    rewrite lookup_delete_ne; [done|set_solver].
Qed.

(** The fields of the adapter that the arrays of a command are not. *)
Definition same_maps (s s' : Geo) : Prop :=
  mGeofences s = mGeofences s' ∧ mGeofenceIds s = mGeofenceIds s' ∧ uninit s = uninit s'.

Lemma saved_same c k x s s' : same_maps s s' → same_maps (save_answered c k s x) (save_answered c k s' x).
Proof.
  intros (E1 & E2 & E3). destruct x as [[[id o] i] [err hw]]. unfold save_answered. case_match; [|done].
  unfold same_maps. simpl. by rewrite E1, E2, E3.
Qed.

Section pipeline.
Context (modem : Modem) (f : Features).
(** The command, its arrays, and the state it was issued in. *)
Context (c : client) (cb : LocationCallbacks) (items : list Item) (pI pO pF pE : positive)
        (arrays0 : gmap positive Arr) (req0 : list Request) (s0 : Geo) (out0 : list (Event GEvent))
        (k0 : EngineLockState).
Notation n := (length items).
Notation answers := (add_answers modem req0 items).
Definition cmd : Command := mkCommand KAdd c n pI (Some pO) (Some pF).
Context (Hn : n ≠ 0%nat) (Hnd : NoDup [pI; pO; pF; pE])
        (Hfresh : ∀ p, p ∈ [pI; pO; pF; pE] → arrays0 !! p = None) (Hcb : collectiveResponseCb cb = true).

Definition arrays_at (es : list (option LocationError)) : gmap positive Arr :=
  <[pE := Errs es]> (<[pF := Infos (items.*2)]> (<[pO := Options (items.*1.*2)]>
    (<[pI := Ids (items.*1.*1)]> arrays0))).
Definition errs_at (k : nat) : list (option LocationError) :=
  (Some <$> take k (answers.*1)) ++ replicate (n - k) None.
Definition geo_at (k : nat) : Geo := foldl (save_answered c k0) s0 (take k (zip items answers)).

Definition p4 (m : Msg GMsg) : option nat := match m with Own (AddResponse (RAdd _ _ i) _ _) => Some i | _ => None end.
Definition p2 (m : Msg GMsg) : option nat := match m with Own (Called _ _ i) => Some i | _ => None end.
Definition p3 (l : ApiMsg GApi) : option nat := match l with ApiOwn (ApiAdd _ _ _ (RAdd _ _ i)) => Some i | _ => None end.
Definition p1 (l : ApiMsg GApi) : option nat := match l with ApiOwn (addToCallQueue _ _ i) => Some i | _ => None end.

Inductive good_msg : Msg GMsg → Prop :=
  | good_called i : good_msg (Own (Called cmd pE i))
  | good_added i e h : answers !! i = Some (e, h) → good_msg (Own (AddResponse (RAdd cmd pE i) e h)).
Inductive good_api : ApiMsg GApi → Prop :=
  | good_queue i : good_api (ApiOwn (addToCallQueue cmd pE i))
  | good_add i x : items !! i = Some x → good_api (ApiOwn (ApiAdd x.1.1 x.1.2 x.2 (RAdd cmd pE i))).

(** [k] items are done; the others are in flight in the two queues, in the command's order. *)
Record Flow (k : nat) (tm : list (Msg GMsg)) (am : list (ApiMsg GApi)) : Prop := {
  fl_tm : Forall good_msg tm;
  fl_am : Forall good_api am;
  fl_seq : omap p4 tm ++ omap p3 am ++ omap p2 tm ++ omap p1 am = seq k (n - k);
  fl_k : (k ≤ n)%nat }.
(** The steps left. *)
Definition left_of (tm : list (Msg GMsg)) (am : list (ApiMsg GApi)) : nat :=
  (length (omap p4 tm) + 2 * length (omap p3 am) + 3 * length (omap p2 tm) + 4 * length (omap p1 am))%nat.

(** [k] items are done, and the modem has answered [j]. *)
Record Progress (k j : nat) (w : GW) : Prop := {
  pr_req : requests (api w) = req0 ++ (item_req <$> take j items);
  pr_lock : lock w = k0;
  pr_client : mClientData (base w) !! c = Some cb;
  pr_maps : same_maps (st w) (geo_at k);
  pr_arrays : arrays (st w) = if decide (k = n) then arrays0 else arrays_at (errs_at k);
  pr_out : out w = out0 ++ (if decide (k = n) then
             [EvOwn (EvCollectiveResponse c n (Some <$> answers.*1) (items.*1.*1))] else []) }.

Definition Pipe (φ : nat) (w : GW) : Prop := ∃ k tm,
  Queue tm w ∧ Flow k tm (apiTask w) ∧ Progress k (k + length (omap p4 tm)) w ∧ φ = left_of tm (apiTask w).

Lemma seq_head (l1 l2 : list nat) i k m : l1 ++ i :: l2 = seq k m → i = (k + length l1)%nat ∧ (length l1 < m)%nat.
Proof.
  intros H. assert (Hi : seq k m !! length l1 = Some i) by (rewrite <-H; by apply list_lookup_middle).
  by apply lookup_seq in Hi as [-> ?].
Qed.

(** *** The arrays *)
Lemma arrays_at_lookup es :
  arrays_at es !! pI = Some (Ids (items.*1.*1)) ∧ arrays_at es !! pO = Some (Options (items.*1.*2)) ∧
  arrays_at es !! pF = Some (Infos (items.*2)) ∧ arrays_at es !! pE = Some (Errs es).
Proof.
  clear Hfresh. unfold arrays_at. apply NoDup_cons in Hnd as [H1 [H2 [H3 _]%NoDup_cons]%NoDup_cons].
  split_and!; by simplify_map_eq by set_solver.
Qed.

Lemma arrays_freed es : delete pF (delete pO (delete pI (delete pE (arrays_at es)))) = arrays0.
Proof.
  apply map_eq. intros p. destruct (decide (p ∈ [pI; pO; pF; pE])) as [Hp|Hp].
  - rewrite (Hfresh p Hp). rewrite !elem_of_cons, elem_of_nil in Hp. rewrite !lookup_delete.
    repeat case_decide; naive_solver.
  - rewrite !not_elem_of_cons in Hp. unfold arrays_at.
    rewrite !lookup_delete_ne, !lookup_insert_ne by naive_solver. done.
Qed.

Lemma errs_next k e h : answers !! k = Some (e, h) → <[k := Some e]> (errs_at k) = errs_at (S k).
Proof.
  intros Hk. pose proof (lookup_lt_Some _ _ _ Hk) as Hlt. rewrite add_answers_length in Hlt.
  unfold errs_at. erewrite take_S_r by (rewrite list_lookup_fmap, Hk; reflexivity).
  rewrite fmap_app, <-app_assoc. replace (n - k)%nat with (S (n - S k)) by lia. simpl.
  assert (Hl : length (Some <$> take k answers.*1) = k)
    by (rewrite length_fmap, length_take, length_fmap, add_answers_length; lia).
  rewrite <-Hl at 1. rewrite <-(Nat.add_0_r (length (Some <$> take k _))). by rewrite insert_app_r.
Qed.

Lemma errs_length k : (k ≤ n)%nat → length (errs_at k) = n.
Proof.
  intros. unfold errs_at. rewrite length_app, length_fmap, length_take, length_replicate, length_fmap, add_answers_length. lia.
Qed.

Lemma errs_all : errs_at n = Some <$> answers.*1.
Proof.
  unfold errs_at. rewrite Nat.sub_diag, app_nil_r, take_ge; [done|]. by rewrite length_fmap, add_answers_length.
Qed.

Lemma geo_next k x e h :
  items !! k = Some x → answers !! k = Some (e, h) → geo_at (S k) = save_answered c k0 (geo_at k) (x, (e, h)).
Proof.
  intros Hx Ha. unfold geo_at. erewrite take_S_r by (apply lookup_zip_Some; eauto). by rewrite foldl_app.
Qed.

(** *** The steps of the two tasks *)
Lemma omap_cons_list {A B} (g : A → option B) x l : omap g (x :: l) = option_list (g x) ++ omap g l.
Proof. simpl. by destruct (g x). Qed.

(** Steps that only touch the queues and the conversation with the modem. *)
Lemma progress_frame k j j' w w' :
  st w' = st w → base w' = base w → lock w' = lock w → out w' = out w →
  requests (api w') = req0 ++ (item_req <$> take j' items) → Progress k j w → Progress k j' w'.
Proof. intros E1 E2 E3 E4 E5 []. split; congruence. Qed.

Lemma pipe_api φ w :
  Pipe φ w → apiTask w ≠ [] → ∃ φ' w', api_step modem f w = Done tt w' ∧ Pipe φ' w' ∧ (φ' < φ)%nat.
Proof.
  intros (k & tm & HQ & [Htm Ham Hseq Hk] & HP & ->) Hne.
  destruct (apiTask w) as [|l q] eqn:Eq; [done|]. apply Forall_cons in Ham as [Hl Hq].
  destruct Hl as [i|i x Hx].
  - assert (HF : Flow k (tm ++ [Own (Called cmd pE i)]) q).
    { split; [|done|..|done]; [by apply Forall_app; repeat constructor|].
      rewrite !omap_app. rewrite !omap_cons_list in Hseq. simpl in *. by rewrite app_nil_r, <-!app_assoc. }
    exists (left_of (tm ++ [Own (Called cmd pE i)]) q), (sent (Own (Called cmd pE i)) (set_apiTask q w)).
    split; [unfold api_step; mrun; by rewrite Eq|]. split; [|unfold left_of; rewrite ?omap_cons_list, !omap_app, !length_app; simpl; lia].
    exists k, (tm ++ [Own (Called cmd pE i)]). split_and!; [|done| |done].
    + by apply queue_send; destruct HQ.
    + rewrite omap_app. simpl. rewrite app_nil_r. by eapply (progress_frame k _ _ w); [..|exact (pr_req _ _ _ HP)|exact HP].
  - rewrite omap_cons_list in Hseq. destruct (seq_head _ _ _ _ _ Hseq) as [Hi Hlt].
    destruct (add_answer modem (requests (api w) ++ [item_req x])) as [e h] eqn:Ea.
    assert (Hans : answers !! i = Some (e, h)).
    { rewrite (add_answers_lookup _ _ _ _ _ Hx), (take_S_r items i x Hx), fmap_app, app_assoc, <-Ea, (pr_req _ _ _ HP).
      by rewrite <-Hi. }
    set (m := Own (AddResponse (RAdd cmd pE i) e h)).
    set (w1 := set_api (send_request (item_req x) (api w)) (set_apiTask q w)).
    assert (HF : Flow k (tm ++ [m]) q).
    { split; [|done|..|done]; [by apply Forall_app; repeat constructor|].
      rewrite !omap_app. rewrite !omap_cons_list in Hseq. simpl in *. by rewrite app_nil_r, <-!app_assoc. }
    exists (left_of (tm ++ [m]) q), (sent m w1).
    split; [|split; [|unfold left_of; rewrite ?omap_cons_list, !omap_app, !length_app; simpl; lia]].
    + unfold api_step. unfold gets at 1, mbind at 1, M_bind at 1. rewrite Eq.
      rewrite (bind_done _ _ _ tt (set_apiTask q w)) by done. simpl. unfold geo_api.
      rewrite (bind_done _ _ _ _ _ (run_addGeofence modem x (set_apiTask q w))). simpl. by rewrite Ea.
    + exists k, (tm ++ [m]). split_and!; [|done| |done].
      * by apply queue_send; destruct HQ.
      * rewrite omap_app, length_app. simpl. eapply (progress_frame k _ _ w); [done..| |exact HP].
        simpl. rewrite (pr_req _ _ _ HP), Nat.add_assoc, Nat.add_1_r, <-Hi, (take_S_r items i x Hx), fmap_app, app_assoc.
        done.
Qed.

Lemma read_item es w i x :
  arrays (st w) = arrays_at es → items !! i = Some x →
  read_id pI i w = Done x.1.1 w ∧ read_option (Some pO) i w = Done x.1.2 w ∧ read_info (Some pF) i w = Done x.2 w.
Proof.
  intros Ea Hx. destruct (arrays_at_lookup es) as (H1 & H2 & H3 & _).
  split_and!; apply deref_done; simpl; rewrite Ea, ?H1, ?H2, ?H3, !list_lookup_fmap, Hx; done.
Qed.

Lemma called_run es w i x :
  arrays (st w) = arrays_at es → items !! i = Some x →
  proc_called cmd pE i w
  = Done tt (set_apiTask (apiTask w ++ [ApiOwn (ApiAdd x.1.1 x.1.2 x.2 (RAdd cmd pE i))]) w).
Proof.
  intros Ea Hx. destruct (read_item _ _ _ _ Ea Hx) as (H1 & H2 & H3).
  unfold proc_called, called_add. rewrite decide_True by done. by rewrite (bind_done _ _ _ _ _ H1), (bind_done _ _ _ _ _ H2), (bind_done _ _ _ _ _ H3).
Qed.

(** The state with the arrays [a]. *)
Definition with_arrays (a : gmap positive Arr) (w : GW) : GW := set_st (set_arrays a (next_arr (st w)) (st w)) w.

Lemma last_item_run es w i :
  arrays (st w) = arrays_at es → mClientData (base w) !! c = Some cb →
  last_item cmd pE i w = Done tt
    (if decide (S i = n)
     then with_arrays arrays0 (set_out (out w ++ [EvOwn (EvCollectiveResponse c n es (items.*1.*1))]) w) else w).
Proof.
  intros Ea Hc. destruct (arrays_at_lookup es) as (H1 & H2 & H3 & H4). unfold last_item. simpl.
  destruct (decide (S i = n)) as [E|E]; cycle 1.
  { replace (i =? n - 1)%nat with false by (symmetry; apply Nat.eqb_neq; lia). done. }
  replace (i =? n - 1)%nat with true by (symmetry; apply Nat.eqb_eq; lia).
  apply NoDup_cons in Hnd as [N1 [N2 [N3 _]%NoDup_cons]%NoDup_cons].
  set (w1 := set_out (out w ++ [EvOwn (EvCollectiveResponse c n es (items.*1.*1))]) w).
  assert (R : reportResponse c n pE pI w = Done tt w1).
  { unfold reportResponse. rewrite (bind_done _ _ w es w) by (apply deref_done; by rewrite Ea, H4).
    rewrite (bind_done _ _ w (items.*1.*1) w) by (apply deref_done; by rewrite Ea, H1).
    rewrite (bind_done _ _ w (Some cb) w) by (unfold gets; by rewrite Hc). by rewrite Hcb. }
  assert (Hd : ∀ p a b X (m : M GW X), a !! p = Some b →
    (_ ← del_arr p; m) (with_arrays a w1) = m (with_arrays (delete p a) w1)).
  { intros p a b X m Hp. rewrite (bind_done _ _ _ tt (with_arrays (delete p a) w1)); [done|]. unfold del_arr. simpl. by rewrite Hp. }
  unfold when. rewrite (bind_done _ _ _ _ _ R). unfold del_opt.
  assert (Hw1 : w1 = with_arrays (arrays_at es) w1).
  { unfold w1, with_arrays, set_arrays. rewrite <-Ea. by destruct w as [[] ?]. }
  rewrite Hw1 at 1. erewrite Hd by done.
  erewrite Hd by (rewrite lookup_delete_ne by set_solver; done).
  erewrite Hd by (rewrite !lookup_delete_ne by set_solver; done).
  unfold del_arr. simpl. rewrite !lookup_delete_ne, H3 by set_solver. unfold with_arrays at 1. by rewrite arrays_freed.
Qed.

(** The effect of the answer of item [k]. *)
Lemma added_run k j x e h w :
  Progress k j w → items !! k = Some x → answers !! k = Some (e, h) →
  ∃ w', proc_added cmd pE k e h w = Done tt w' ∧ Progress (S k) j w' ∧
        heap w' = heap w ∧ next w' = next w ∧ task w' = task w ∧ apiTask w' = apiTask w.
Proof.
  intros HP Hx Hans. pose proof (lookup_lt_Some _ _ _ Hx) as Hlt. destruct HP as [Hr Hk Hc Hm Ha Ho].
  rewrite decide_False in Ha by lia. rewrite decide_False, app_nil_r in Ho by lia.
  destruct (read_item _ _ _ _ Ha Hx) as (H1 & H2 & H3).
  set (w1 := set_st (save_answered c k0 (st w) (x, (e, h))) w).
  assert (E1 : ∀ Y (m : M GW Y), (_ ← when (ok_or_disabled (lock w) e)
        (id ← read_id pI k; o ← read_option (Some pO) k; info ← read_info (Some pF) k;
         upd_st (λ s, saveGeofenceItem c id (default (uninit s) h) o info s)); m) w = m w1).
  { intros Y m. unfold w1, save_answered. rewrite Hk. destruct x as [[id o] i], (ok_or_disabled k0 e).
    - unfold when. rewrite (bind_done _ _ w tt (set_st (saveGeofenceItem c id (default (uninit (st w)) h) o i (st w)) w)); [done|].
      by rewrite (bind_done _ _ _ _ _ H1), (bind_done _ _ _ _ _ H2), (bind_done _ _ _ _ _ H3).
    - by destruct w. }
  assert (Ha1 : arrays (st w1) = arrays_at (errs_at k)).
  { unfold w1, save_answered. destruct x as [[id o] i], (ok_or_disabled k0 e); done. }
  set (w2 := with_arrays (arrays_at (errs_at (S k))) w1).
  assert (E2 : write_err pE k e w1 = Done tt w2).
  { unfold write_err. rewrite Ha1. destruct (arrays_at_lookup (errs_at k)) as (_ & _ & _ & ->).
    rewrite decide_True by (rewrite errs_length; lia). unfold w2, with_arrays, arrays_at.
    by rewrite insert_insert_eq, (errs_next _ _ _ Hans). }
  eexists. split; [|split].
  - unfold proc_added. unfold gets at 1, mbind at 1, M_bind at 1. rewrite E1.
    rewrite (bind_done _ _ _ _ _ E2). by apply (last_item_run (errs_at (S k))).
  - assert (Hm1 : same_maps (st w1) (geo_at (S k))).
    { rewrite (geo_next _ _ _ _ Hx Hans). by apply saved_same. }
    destruct (decide (S k = n)) as [E|E]; split; try done; try (by rewrite decide_True by done);
      try by rewrite decide_False by done.
    + rewrite decide_True by done. simpl. rewrite Ho, E, errs_all. done.
    + simpl. by rewrite decide_False, app_nil_r.
  - by destruct (decide _).
Qed.

Lemma progress_task k j w h nx t : Progress k j w → Progress k j (set_task h nx t w).
Proof. intros HP. apply (progress_frame k j _ w); try done. apply HP. Qed.

Lemma pipe_task φ w :
  Pipe φ w → task w ≠ [] → ∃ φ' w', task_step f w = Done tt w' ∧ Pipe φ' w' ∧ (φ' < φ)%nat.
Proof.
  intros (k & tm & HQ & [Htm Ham Hseq Hk] & HP & ->) Hne.
  destruct tm as [|m tm]; [by destruct HQ as [Hh _ _]; inversion Hh; congruence|].
  apply Forall_cons in Htm as [Hm Htm].
  set (w0 := set_task (heap w) (next w) (tail (task w)) w).
  assert (HP0 : Progress k (k + length (omap p4 (m :: tm))) w0) by by apply progress_task.
  rewrite !omap_cons_list in Hseq. destruct Hm as [i|i e h Hans]; simpl in Hseq.
  - rewrite app_assoc in Hseq. destruct (seq_head _ _ _ _ _ Hseq) as [Hi Hlt].
    destruct (lookup_lt_is_Some_2 items i) as [x Hx]; [lia|].
    assert (Ha : arrays (st w0) = arrays_at (errs_at k)).
    { rewrite (pr_arrays _ _ _ HP0). by rewrite decide_False by lia. }
    set (l := ApiOwn (ApiAdd x.1.1 x.1.2 x.2 (RAdd cmd pE i))).
    destruct (queue_pop f tm _ w _ HQ (called_run _ _ _ _ Ha Hx)) as (h & E & HQ'); [done|].
    eexists (left_of tm (apiTask w ++ [l])), _. split; [exact E|]. split.
    + exists k, tm. split_and!; [done| |apply progress_task|done].
      * split; [done|by apply Forall_app; repeat constructor| |done].
        simpl. rewrite !omap_app. simpl. by rewrite app_nil_r, <-Hseq, <-!app_assoc.
      * by apply (progress_frame k (k + length (omap p4 tm)) _ w0); [..|apply HP0|].
    + unfold left_of. rewrite !omap_cons_list, !omap_app, !length_app. simpl. lia.
  - destruct (seq_head [] _ _ _ _ Hseq) as [Hi Hlt]. simpl in Hi, Hlt. rewrite Nat.add_0_r in Hi. subst i.
    destruct (lookup_lt_is_Some_2 items k) as [x Hx]; [lia|].
    destruct (added_run _ _ _ _ _ _ HP0 Hx Hans) as (w1 & E1 & HP1 & Eh & En & Et & Eq).
    destruct (queue_pop f tm _ w w1 HQ E1) as (h' & E & HQ'); [done|].
    eexists (left_of tm (apiTask w)), _. split; [exact E|]. split.
    + exists (S k), tm. split_and!; [done| |apply progress_task|simpl; by rewrite Eq].
      * simpl. rewrite Eq. split; [done..| |lia].
        replace (n - k)%nat with (S (n - S k)) in Hseq by lia. by injection Hseq.
      * replace (S k + length (omap p4 tm))%nat 
          with (k + length (omap p4 (Own (AddResponse (RAdd cmd pE k) e h) :: tm)))%nat
          by (rewrite omap_cons_list, length_app; simpl; lia). done.
    + unfold left_of. rewrite !omap_cons_list, !length_app. simpl. lia.
Qed.

(** *** The command's own message *)
Record Start (w : GW) : Prop := {
  sa_queue : Queue [Own (MsgCommand cmd)] w;
  sa_api : apiTask w = [];
  sa_req : requests (api w) = req0;
  sa_lock : lock w = k0;
  sa_client : mClientData (base w) !! c = Some cb;
  sa_maps : same_maps (st w) s0;
  sa_arrays : arrays (st w) =
    <[pF := Infos (items.*2)]> (<[pO := Options (items.*1.*2)]> (<[pI := Ids (items.*1.*1)]> arrays0));
  sa_next : next_arr (st w) = pE;
  sa_out : out w = out0 }.

Lemma command_loop_run m i (w : GW) :
  command_loop cmd pE m i w
  = Done tt (set_apiTask (apiTask w ++ ((λ j, ApiOwn (addToCallQueue cmd pE j)) <$> seq i m)) w).
Proof.
  revert i w. induction m as [|m IH]; intros i w; [simpl; rewrite app_nil_r; by destruct w|].
  cbn [command_loop].
  rewrite (bind_done _ _ w tt (set_apiTask (apiTask w ++ [ApiOwn (addToCallQueue cmd pE i)]) w)) by done. rewrite IH.
  simpl. by rewrite <-app_assoc.
Qed.

Lemma omap_calls i m :
  omap p1 ((λ j, ApiOwn (addToCallQueue cmd pE j)) <$> seq i m) = seq i m ∧
  omap p3 ((λ j, ApiOwn (addToCallQueue cmd pE j)) <$> seq i m) = [].
Proof.
  revert i. induction m as [|m IH]; intros i; [done|].
  cbn [seq]. rewrite fmap_cons, !omap_cons_list. destruct (IH (S i)) as [-> ->]. done.
Qed.

Lemma start_task w : Start w → ∃ w', task_step f w = Done tt w' ∧ Pipe (4 * n) w'.
Proof.
  intros [HQ Hq Hr Hk Hc Hm Ha Hx Ho].
  set (w0 := set_task (heap w) (next w) (tail (task w)) w).
  set (am := (λ j, ApiOwn (addToCallQueue cmd pE j)) <$> seq 0 n).
  assert (E : proc_command cmd w0 = Done tt (set_apiTask am (set_st
      (set_arrays (arrays_at (errs_at 0)) (Pos.succ pE) (st w)) w0))).
  { unfold proc_command. rewrite (bind_done _ _ w0 pE (set_st (set_arrays (arrays_at (errs_at 0)) (Pos.succ pE) (st w)) w0)).
    - rewrite command_loop_run. simpl. by rewrite Hq.
    - unfold new_arr. simpl. rewrite Hx, Ha. unfold errs_at. by rewrite Nat.sub_0_r. }
  destruct (queue_pop f [] _ w _ HQ E) as (h & E' & HQ'); [done|].
  eexists. split; [exact E'|]. destruct (omap_calls 0 n) as [Hp1 Hp3].
  exists 0%nat, []. split_and!; [done| |apply progress_task|].
  - simpl. split; [done| | |lia]; [by apply Forall_fmap, Forall_true; constructor|].
    unfold am. rewrite Hp1, Hp3. simpl. by rewrite Nat.sub_0_r.
  - simpl. split; try done; simpl; try (by rewrite decide_False by lia).
    + by rewrite Hr, app_nil_r.
    + by rewrite decide_False, app_nil_r by lia.
  - unfold left_of. simpl. unfold am. rewrite Hp1, Hp3, length_seq. simpl. lia.
Qed.

(** *** Every schedule of the two tasks *)
Definition Alive (φ : nat) (w : GW) : Prop := (φ = 4 * n + 1 ∧ Start w)%nat ∨ Pipe φ w.

Lemma pipe_idle φ w : Pipe φ w → (φ = 0%nat ↔ task w = [] ∧ apiTask w = []).
Proof.
  intros (k & tm & [Hh _ _] & [Htm Ham _ _] & _ & ->). unfold left_of. split.
  - intros H0. destruct tm as [|m tm].
    + apply Forall2_nil_inv_r in Hh. split; [done|]. destruct (apiTask w) as [|l q]; [done|].
      apply Forall_cons in Ham as [Hl _]; destruct Hl; rewrite !omap_cons_list in H0; simpl in H0; lia.
    + apply Forall_cons in Htm as [Hm _]; destruct Hm; rewrite !omap_cons_list in H0; simpl in H0; lia.
  - intros [Et Eq]. rewrite Et in Hh. apply Forall2_nil_inv_l in Hh. by rewrite Eq, Hh.
Qed.

Lemma alive_idle φ w : Alive φ w → (φ = 0%nat ↔ task w = [] ∧ apiTask w = []).
Proof.
  intros [[-> HS]|HP]; [|by apply pipe_idle]. split; [lia|]. intros [Et _].
  destruct HS as [[Hh _ _] _ _ _ _ _ _ _ _]. rewrite Et in Hh. by inversion Hh.
Qed.

(** A step of a task that is not blocked is a step towards the end. *)
Definition blocked (l : Label (C:=GCall)) (w : GW) : Prop :=
  match l with LTask => task w = [] | LApi => apiTask w = [] | _ => False end.
Definition is_turn (l : Label (C:=GCall)) : Prop := l = LTask ∨ l = LApi.

Lemma alive_step φ w l : is_turn l → Alive φ w → ∃ φ' w', exec modem f l w = Done tt w' ∧ Alive φ' w' ∧
  ((blocked l w ∧ w' = w ∧ φ' = φ) ∨ (φ' < φ)%nat).
Proof.
  intros [-> | ->] HA; cbn [exec].
  - destruct (decide (task w = [])) as [Et|Et].
    { exists φ, w. split; [unfold task_step; mrun; by rewrite Et|]. split; [done|by left]. }
    destruct HA as [[-> HS]|HP].
    + destruct (start_task w HS) as (w' & E & HP). exists (4 * n)%nat, w'. split_and!; [done|by right|right; lia].
    + destruct (pipe_task φ w HP Et) as (φ' & w' & E & HP' & Hlt). exists φ', w'. split_and!; [done|by right|by right].
  - destruct (decide (apiTask w = [])) as [Et|Et].
    { exists φ, w. split; [unfold api_step; mrun; by rewrite Et|]. split; [done|by left]. }
    destruct HA as [[-> HS]|HP]; [by destruct HS|].
    destruct (pipe_api φ w HP Et) as (φ' & w' & E & HP' & Hlt). exists φ', w'. split_and!; [done|by right|by right].
Qed.

Lemma alive_execs φ w ls : Forall is_turn ls → Alive φ w → ∃ φ' w', execs modem f ls w = Done tt w' ∧ Alive φ' w' ∧ (φ' ≤ φ)%nat.
Proof.
  intros Hls. revert φ w. induction Hls as [|l ls Hl Hls IH]; intros φ w HA; [by exists φ, w|].
  destruct (alive_step _ _ _ Hl HA) as (φ1 & w1 & E1 & HA1 & H1).
  destruct (IH _ _ HA1) as (φ2 & w2 & E2 & HA2 & H2). exists φ2, w2. split; [|split; [done|lia]].
  cbn [execs]. by rewrite (bind_done _ _ _ _ _ E1).
Qed.

Lemma alive_turn φ w :
  Alive φ w → ∃ φ' w', execs modem f [LTask; LApi] w = Done tt w' ∧ Alive φ' w' ∧ (φ' ≤ φ - 1)%nat.
Proof.
  intros HA. destruct (alive_step φ w LTask (or_introl eq_refl) HA) as (φ1 & w1 & E1 & HA1 & H1).
  destruct (alive_step φ1 w1 LApi (or_intror eq_refl) HA1) as (φ2 & w2 & E2 & HA2 & H2).
  exists φ2, w2. split; [cbn [execs]; by rewrite (bind_done _ _ _ _ _ E1), (bind_done _ _ _ _ _ E2)|].
  split; [done|]. destruct H1 as [(Hb1 & -> & ->)|?]; [|lia]. destruct H2 as [(Hb2 & -> & ->)|?]; [|lia].
  pose proof (proj2 (alive_idle _ _ HA) (conj Hb1 Hb2)). lia.
Qed.

Lemma alive_turns m φ w :
  Alive φ w → ∃ φ' w', execs modem f (turns m) w = Done tt w' ∧ Alive φ' w' ∧ (φ' ≤ φ - m)%nat.
Proof.
  revert φ w. induction m as [|m IH]; intros φ w HA; [exists φ, w; split; [done|split; [done|lia]]|].
  destruct (alive_turn _ _ HA) as (φ1 & w1 & E1 & HA1 & H1). destruct (IH _ _ HA1) as (φ2 & w2 & E2 & HA2 & H2).
  exists φ2, w2. split; [|split; [done|lia]]. unfold turns in *. cbn [execs mjoin replicate list_join app] in *.
  apply bind_inv in E1 as ([] & wa & Ea & E1). apply bind_inv in E1 as ([] & wb & Eb & [= ->]).
  by rewrite (bind_done _ _ _ _ _ Ea), (bind_done _ _ _ _ _ Eb).
Qed.

Lemma alive_end w : Alive 0 w → Progress n n w.
Proof.
  intros [[? _]|HP]; [lia|]. pose proof (proj1 (pipe_idle _ _ HP) eq_refl) as [Et Eq].
  destruct HP as (k & tm & [Hh _ _] & [_ _ Hs Hk] & HP & _). rewrite Et in Hh. apply Forall2_nil_inv_l in Hh as ->.
  rewrite Eq in Hs. simpl in Hs. apply (f_equal length) in Hs. rewrite length_seq in Hs. simpl in Hs.
  replace n with k by lia. simpl in HP. by rewrite Nat.add_0_r in HP.
Qed.
End pipeline.

Lemma generate_ids_run m (w : GW) :
  ∃ ids b, generate_ids m w = Done ids (set_base b w) ∧ length ids = m ∧ mClientData b = mClientData (base w).
Proof.
  revert w. induction m as [|m IH]; intros w; [exists [], (base w); by destruct w|].
  cbn [generate_ids]. unfold generateSessionId. mrun.
  match goal with |- context [generate_ids m ?w1] => destruct (IH w1) as (ids & b & -> & Hl & Hb) end.
  eexists (_ :: ids), b. split; [reflexivity|]. simpl. by rewrite Hl.
Qed.

(** What an answered addition leaves: the collective response, the maps with the geofences the
    modem accepted, and no array. *)
Record Answered (modem : Modem) (c : client) (items : list Item) (w w' : GW) : Prop := {
  an_out : ∃ p, out w' = out w ++
    [EvOwn (EvIds c (Some p));
     EvOwn (EvCollectiveResponse c (length items)
       (Some <$> (add_answers modem (requests (api w)) items).*1) (items.*1.*1))];
  an_req : requests (api w') = requests (api w) ++ (item_req <$> items);
  an_maps : same_maps (st w') (foldl (save_answered c (lock w)) (st w)
              (zip items (add_answers modem (requests (api w)) items)));
  an_arrays : arrays (st w') = arrays (st w) }.

Definition fresh_arrays (w : GW) : Prop := ∀ p, is_Some (arrays (st w) !! p) → (p < next_arr (st w))%positive.

(** The command puts its message in the queue and returns its identifiers. *)
Lemma add_command modem f c cb options infos (w : GW) n :
  n ≠ 0%nat → length options = n → length infos = n → task w = [] → apiTask w = [] →
  mClientData (base w) !! c = Some cb →
  let p := next_arr (st w) in
  ∃ ids w', length ids = n ∧
    exec modem f (LCall (CAdd c n (Some options) (Some infos))) w = Done tt w' ∧
    Start c cb (zip (zip ids options) infos) p (Pos.succ p) (Pos.succ (Pos.succ p))
      (Pos.succ (Pos.succ (Pos.succ p))) (arrays (st w)) (requests (api w)) (st w)
      (out w ++ [EvOwn (EvIds c (Some p))]) (lock w) w'.
Proof.
  intros Hn Ho Hi Et Eq Hc p. destruct (generate_ids_run n w) as (ids & b & Eg & Hl & Hb).
  assert (Hlen : length (zip (zip ids options) infos) = n) by (rewrite !length_zip; lia).
  exists ids. eexists. split; [done|]. split.
  { cbn [exec call GeofenceAdapter geo_call]. unfold addGeofencesCommand. rewrite decide_False by done.
    rewrite (bind_done _ _ _ _ _ Eg). unfold copy_array. rewrite !decide_True by lia. rewrite !take_ge by lia.
    reflexivity. }
  split; simpl; rewrite ?Eq, ?Hb; try done.
  - unfold cmd. rewrite Hlen, Et. fold p. split; simpl.
    + constructor; [by rewrite lookup_insert_eq|constructor].
    + apply NoDup_singleton.
    + constructor; [lia|constructor].
  - fold p. rewrite !fst_zip, !snd_zip; rewrite ?fst_zip, ?snd_zip; rewrite ?length_zip; try lia. done.
Qed.

(** C4: An addGeofences command that runs on its own is answered: whatever the schedule of the
    two tasks, no step is undefined, and once both queues are empty the client has been given
    one collective response that holds the modem's answer to each geofence, in order, the
    geofences that the modem accepted are in the maps, and every array of the command has been
    freed; 4n+1 turns of the tasks are enough. *)
Theorem geofence_add_answered modem f (w : GW) c cb n options infos :
  n ≠ 0%nat → length options = n → length infos = n → task w = [] → apiTask w = [] → fresh_arrays w →
  mClientData (base w) !! c = Some cb → collectiveResponseCb cb = true →
  ∃ ids w1, length ids = n ∧
    exec modem f (LCall (CAdd c n (Some options) (Some infos))) w = Done tt w1 ∧
    (∀ ls, Forall is_turn ls → ∃ w2, execs modem f ls w1 = Done tt w2 ∧
       (task w2 = [] → apiTask w2 = [] → Answered modem c (zip (zip ids options) infos) w w2)) ∧
    ∃ w2, execs modem f (turns (4 * n + 1)) w1 = Done tt w2 ∧ task w2 = [] ∧ apiTask w2 = [].
Proof.
  intros Hn Ho Hi Et Eq Hfr Hc Hcb. set (p := next_arr (st w)).
  destruct (add_command modem f c cb options infos w n) as (ids & w1 & Hl & E & HS); try done.
  set (items := zip (zip ids options) infos) in *.
  assert (Hlen : length items = n) by (unfold items; rewrite !length_zip; lia).
  assert (Hnd : NoDup [p; Pos.succ p; Pos.succ (Pos.succ p); Pos.succ (Pos.succ (Pos.succ p))]).
  { repeat (apply NoDup_cons; split; [rewrite ?not_elem_of_cons; repeat split; lia || apply not_elem_of_nil|]).
    apply NoDup_nil_2. }
  assert (Hf : ∀ q, q ∈ [p; Pos.succ p; Pos.succ (Pos.succ p); Pos.succ (Pos.succ (Pos.succ p))] →
             arrays (st w) !! q = None).
  { intros q Hq. apply eq_None_not_Some. intros Hs%Hfr. fold p in Hs.
    rewrite !elem_of_cons, elem_of_nil in Hq. lia. }
  rewrite <-Hlen in Hn.
  assert (HA : Alive modem c cb items p (Pos.succ p) (Pos.succ (Pos.succ p)) (Pos.succ (Pos.succ (Pos.succ p)))
    (arrays (st w)) (requests (api w)) (st w) (out w ++ [EvOwn (EvIds c (Some p))]) (lock w)
    (4 * length items + 1) w1) by by left.
  exists ids, w1. split_and!; [done|done| |].
  - intros ls Hls. destruct (alive_execs modem f c cb items _ _ _ _ _ _ _ _ _ Hn Hnd Hf Hcb _ _ _ Hls HA)
      as (φ & w2 & E2 & HA2 & _).
    exists w2. split; [done|]. intros Et2 Eq2.
    assert (φ = 0%nat) as -> by (by eapply alive_idle).
    apply alive_end in HA2 as [Hr Hk _ Hm Ha Hout]; [|done]. rewrite !decide_True in * by done.
    split; [|by rewrite Hr, take_ge| |done].
    + exists p. by rewrite Hout, <-app_assoc.
    + unfold geo_at in Hm. by rewrite take_ge in Hm by (rewrite length_zip; lia).
  - destruct (alive_turns modem f c cb items _ _ _ _ _ _ _ _ _ Hn Hnd Hf Hcb (4 * n + 1) _ _ HA)
      as (φ & w2 & E2 & HA2 & Hφ).
    exists w2. split; [done|]. eapply alive_idle; [exact Hn|exact HA2|lia].
Qed.

(** Client 1, whose callbacks are set, adds two geofences to a fresh adapter. *)
Definition start_world : GW := set_base (set_clients {[1%positive := all_callbacks]} (base (geo_init 77))) (geo_init 77).

Lemma geofence_add_answered_witness :
  ∃ ids w1, length ids = 2%nat ∧
    exec (numbering []) no_features
      (LCall (CAdd 1 2 (Some [an_option 3; an_option 4]) (Some [an_info; an_info]))) start_world = Done tt w1 ∧
    (∀ ls, Forall is_turn ls → ∃ w2, execs (numbering []) no_features ls w1 = Done tt w2 ∧
       (task w2 = [] → apiTask w2 = [] →
        Answered (numbering []) 1 (zip (zip ids [an_option 3; an_option 4]) [an_info; an_info]) start_world w2)) ∧
    ∃ w2, execs (numbering []) no_features (turns (4 * 2 + 1)) w1 = Done tt w2 ∧ task w2 = [] ∧ apiTask w2 = [].
Proof.
  apply (geofence_add_answered (numbering []) no_features start_world 1 all_callbacks 2
           [an_option 3; an_option 4] [an_info; an_info]);
    [done|done|done|done|done| |reflexivity|done].
  intros p [a Ha]. done.
Defined.

(** ** Where the commands go wrong *)

(** The arrays and messages shared by reference are used after they were freed in three
    ordinary executions: a removal whose last identifier is unknown, so that the arrays are
    freed while the first item is at the modem; the caller of addGeofences reading the
    identifiers it was returned after the response freed them; and the messages put aside
    until the engine is up, which are queued again, already deleted, at its next restart. *)
Theorem geofence_use_after_free :
  run [] (adds 2 ++ LCall (CRemove 1 2 (Some [2; 9])) :: turns 6) = UB ∧
  run [] (adds 2 ++ [LCall (CReadIds 1)]) = UB ∧
  run [] (LAddClient 1 all_callbacks :: LRequestCapabilities 1 :: turns 3 ++
          LCall CEngineUp :: turns 3 ++ LCall CEngineUp :: turns 3) = UB.
Proof. split_and!; by vm_compute. Qed.

(** Errors of the modem are lost: a modification of two geofences that the modem refuses
    is reported as a success; the refusal of the last geofence of a resume, and an addition
    without options, are never reported, and their arrays are never freed. *)
Theorem geofence_errors_lost :
  let edit c := adds 2 ++ LCall c :: turns 9 in
  let added := [EvIds 1 (Some 1%positive);
                EvCollectiveResponse 1 2 [Some LOCATION_ERROR_SUCCESS; Some LOCATION_ERROR_SUCCESS] [2; 3]] in
  let leaked o := (λ w, (task w, length (apiTask w), size (arrays (st w)))) <$> outcome_state o in
  let modify := CModify 1 2 (Some [2; 3]) (Some [an_option 1; an_option 1]) in
  let resume := CResume 1 2 (Some [2; 3]) in
  let add := [LAddClient 1 all_callbacks; LCall (CAdd 1 1 None (Some [an_info]))] ++ turns 9 in
  run_out [1; 2] (edit modify)
    = Some (added ++ [EvCollectiveResponse 1 2 [Some LOCATION_ERROR_SUCCESS; Some LOCATION_ERROR_SUCCESS] [2; 3]]) ∧
  run_out [2] (edit resume) = Some added ∧ leaked (run [2] (edit resume)) = Some ([], 0%nat, 2%nat) ∧
  run_out [] add = Some [EvIds 1 (Some 1%positive)] ∧ leaked (run [] add) = Some ([], 0%nat, 3%nat).
Proof. split_and!; by vm_compute. Qed.
