(* ===== verification/Batching.v ===== *)
(** * BatchingAdapter : the batching sessions of the clients.

    BatchingAdapter.cpp keeps the batching sessions and multiplexes the outdoor trips of the
    clients onto the single trip batch of the modem. The adapter is an instance of the
    interface of LocAdapter; its requests are the operations of LocApiBatch. *)
From S2P Require Import Prelude PbEnums LocApi LocApiBatch LocAdapter.
Local Open Scope Z_scope.

(** ** The data *)
Record TripSessionStatus := mkTrip {
  accumulatedDistanceOngoingBatch : Z;
  accumulatedDistanceThisTrip : Z;
  accumulatedDistanceOnTripRestart : Z;
  tripDistance : Z;
  tripTBFInterval : Z }.

(** The values of flp.conf, 0 where the file has none. *)
Record FlpConf := { BATCH_SIZE : Z; OUTDOOR_TRIP_BATCH_SIZE : Z; BATCH_SESSION_TIMEOUT : Z; ACCURACY : Z }.

(** [uninit] is what an LocApiBatchData holds when the query failed and left it alone. *)
Record Batching := mkBatching {
  mBatchingSessions : gmap LocationSessionKey BatchingOptions;
  mTripSessions : gmap Z TripSessionStatus;
  mOngoingTripDistance : Z;
  mOngoingTripTBFInterval : Z;
  mTripWithOngoingTBFDropped : bool;
  mTripWithOngoingTripDistanceDropped : bool;
  conf : FlpConf;
  uninit : Z * Z }.

(** The closures given to the LocApi as responses. *)
Inductive Resp :=
  | RStarted (c : client) (id : Z) (options : BatchingOptions) (pendingMsg : option positive)
  | RStopped (c : client) (id : Z) (flpOptions : BatchingOptions) (restartNeeded : bool) (options : BatchingOptions)
  | RReport (c : client) (id : Z)                       (* reports the response, nothing else *)
  | RTripStarted (c : client) (id : Z) (options : BatchingOptions)
  | RTripStopped (c : client) (id : Z) (restartNeeded : bool) (options : BatchingOptions)
  | RTripRestarted (accumulatedDistance ongoingTripDistance ongoingTripInterval : Z)
  | RSessionsRestarted
  | RIgnore.
Inductive QueryResp :=
  | QNewTrip (c : client) (id : Z) (options : BatchingOptions)
  | QRestart (queryAccumulatedDistance : bool) (minRemainingDistance minTBFInterval accDist : Z).

(** The messages of the adapter's task. *)
Inductive BMsg :=
  | MsgReadConfig (file : FlpConf)
  | MsgSetConfig
  | MsgEngineLockStateEvent (k : EngineLockState)
  | MsgSSREvent
  | MsgStartBatching (c : client) (id : Z) (options : BatchingOptions)
  | MsgUpdateBatching (c : client) (id : Z) (options : BatchingOptions)
  | MsgStopBatching (c : client) (id : Z)
  | MsgGetBatchedLocations (c : client) (id : Z) (count : Z)
  | MsgReportLocations (locations : list Location) (count : Z) (batchingMode : BatchingMode)
  | MsgReportCompletedTrips (accumulatedDistance : Z)
  | MsgReportBatchStatus (batchStatus : BatchingStatus)
  | Response (r : Resp) (err : LocationError)
  | QueryResponse (r : QueryResp) (err : LocationError) (data : option (Z * Z)).

(** The messages of the LocApi's task. *)
Inductive BApi :=
  | ApiStartBatching (id : Z) (options : BatchingOptions) (accuracy timeout : Z) (r : Resp)
  | ApiStopBatching (id : Z) (r : Resp)
  | ApiGetBatchedLocations (count : Z) (r : Resp)
  | ApiGetBatchedTripLocations (count : Z) (r : Resp)
  | ApiStartOutdoorTripBatching (distance interval timeout : Z) (r : Resp)
  | ApiStopOutdoorTripBatching (r : Resp)
  | ApiReStartOutdoorTripBatching (distance interval timeout : Z) (r : Resp)
  | ApiQueryAccumulatedTripDistance (r : QueryResp)
  | ApiBatchFull (tripSupported : bool) (count : Z) (accDistance : option Z)
                 (batchType : option qmiLocBatchingTypeEnumT_v02).

(** The callbacks of the clients, and what startBatchingCommand returns. *)
Inductive BEvent :=
  | EvResponse (c : client) (err : LocationError) (id : Z)
  | EvBatching (c : client) (count : Z) (locations : list Location) (batchingMode : BatchingMode)
  | EvStatus (c : client) (batchStatus : BatchingStatus) (completedTrips : list Z)
  | EvSession (c : client) (id : Z).

Inductive BCall :=
  | CStart (c : client) (options : BatchingOptions)
  | CUpdate (c : client) (id : Z) (options : BatchingOptions)
  | CStop (c : client) (id : Z)
  | CGet (c : client) (id count : Z)
  | CEngineUp
  | CEngineLock (k : EngineLockState)
  | CBatchFull (count : Z) (accDistance : option Z) (batchType : option qmiLocBatchingTypeEnumT_v02)
  | CBatchStatus (batchStatus : BatchingStatus).

Abbreviation BW := (World Batching BMsg BApi BEvent) (only parsing).

(** ** Setters *)
Definition set_sessions (m : gmap LocationSessionKey BatchingOptions) (s : Batching) : Batching :=
  mkBatching m (mTripSessions s) (mOngoingTripDistance s) (mOngoingTripTBFInterval s)
    (mTripWithOngoingTBFDropped s) (mTripWithOngoingTripDistanceDropped s) (conf s) (uninit s).
Definition set_trips (m : gmap Z TripSessionStatus) (s : Batching) : Batching :=
  mkBatching (mBatchingSessions s) m (mOngoingTripDistance s) (mOngoingTripTBFInterval s)
    (mTripWithOngoingTBFDropped s) (mTripWithOngoingTripDistanceDropped s) (conf s) (uninit s).
Definition set_ongoing (distance interval : Z) (s : Batching) : Batching :=
  mkBatching (mBatchingSessions s) (mTripSessions s) distance interval
    (mTripWithOngoingTBFDropped s) (mTripWithOngoingTripDistanceDropped s) (conf s) (uninit s).
Definition set_dropped (tbf distance : bool) (s : Batching) : Batching :=
  mkBatching (mBatchingSessions s) (mTripSessions s) (mOngoingTripDistance s) (mOngoingTripTBFInterval s)
    tbf distance (conf s) (uninit s).
Definition set_conf (c : FlpConf) (s : Batching) : Batching :=
  mkBatching (mBatchingSessions s) (mTripSessions s) (mOngoingTripDistance s) (mOngoingTripTBFInterval s)
    (mTripWithOngoingTBFDropped s) (mTripWithOngoingTripDistanceDropped s) c (uninit s).

(** ** Utilities *)
Definition hasBatchingCallback (c : client) (w : BW) : bool :=
  match mClientData (base w) !! c with Some cb => batchingCb cb | None => false end.
Definition isBatchingSession (c : client) (id : Z) (s : Batching) : bool :=
  negb (is_null (mBatchingSessions s !! mkKey c id)).
Definition isTripSession (id : Z) (s : Batching) : bool := negb (is_null (mTripSessions s !! id)).
Definition saveBatchingSession (c : client) (id : Z) (options : BatchingOptions) (s : Batching) : Batching :=
  set_sessions (<[mkKey c id := options]> (mBatchingSessions s)) s.
Definition eraseBatchingSession (c : client) (id : Z) (s : Batching) : Batching :=
  set_sessions (delete (mkKey c id) (mBatchingSessions s)) s.

Definition auto_report (o : BatchingOptions) : bool :=
  bool_decide (batchingMode o ≠ BATCHING_MODE_NO_AUTO_REPORT).
Definition auto_sessions (m : gmap LocationSessionKey BatchingOptions) : gmap LocationSessionKey BatchingOptions :=
  filter (λ p, auto_report p.2 = true) m.
(** autoReportBatchingSessionsCount, a uint32_t that no number of sessions overflows. *)
Definition autoReportBatchingSessionsCount (s : Batching) : nat :=
  (size (auto_sessions (mBatchingSessions s)) + size (mTripSessions s))%nat.

Definition reportResponse (c : client) (err : LocationError) (id : Z) : M BW unit :=
  data ← gets (λ w, mClientData (base w) !! c);
  match data with
  | Some cb => when (responseCb cb) (emit (EvOwn (EvResponse c err id)))
  | None => mret tt
  end.

Definition ba_reportLocations (locations : list Location) (count : Z) (m : BatchingMode) : M BW unit :=
  l ← gets (λ w, in_order client_lt (mClientData (base w)));
  emit_all (omap (λ p : positive * LocationCallbacks,
    if batchingCb p.2 then Some (EvOwn (EvBatching p.1 count locations m)) else None) l).

Definition reportBatchStatusChange (batchStatus : BatchingStatus) (completedTrips : list Z) : M BW unit :=
  l ← gets (λ w, in_order client_lt (mClientData (base w)));
  emit_all (omap (λ p : positive * LocationCallbacks,
    if batchingStatusCb p.2 then Some (EvOwn (EvStatus p.1 batchStatus completedTrips)) else None) l).

(** updateEvtMask of the batch-full event when [b]. *)
Definition register_batch_full (b : bool) : M BW unit :=
  when b (updateEvtMask LOC_API_ADAPTER_BIT_BATCH_FULL LOC_REGISTRATION_MASK_ENABLED).
Definition unregister_batch_full (b : bool) : M BW unit :=
  when b (updateEvtMask LOC_API_ADAPTER_BIT_BATCH_FULL LOC_REGISTRATION_MASK_DISABLED).

Definition clients_mask (l : list (positive * LocationCallbacks)) : Z :=
  foldl (λ mask (p : positive * LocationCallbacks),
    if batchingCb p.2 then Z.lor mask LOC_API_ADAPTER_BIT_BATCH_STATUS else mask) 0 l.
Definition ba_updateClientsEventMask : M BW unit :=
  w ← get;
  let mask := clients_mask (in_order client_lt (mClientData (base w))) in
  updateEvtMask (if (0 <? autoReportBatchingSessionsCount (st w))%nat
                 then Z.lor mask LOC_API_ADAPTER_BIT_BATCH_FULL else mask) LOC_REGISTRATION_MASK_SET.

(** ** Starting and stopping routine batching *)
Definition startBatching (c : client) (id : Z) (options : BatchingOptions) (pendingMsg : option positive) : M BW unit :=
  w ← get;
  _ ← register_batch_full (auto_report options && (autoReportBatchingSessionsCount (st w) =? 0)%nat);
  _ ← upd_st (saveBatchingSession c id options);
  sendApi (ApiOwn (ApiStartBatching id options (ACCURACY (conf (st w))) (BATCH_SESSION_TIMEOUT (conf (st w)))
                     (RStarted c id options pendingMsg))).

(** The response of startBatching. *)
Definition proc_started (c : client) (id : Z) (options : BatchingOptions) (pendingMsg : option positive)
    (err : LocationError) : M BW unit :=
  k ← gets lock;
  let failed := bool_decide (err ≠ LOCATION_ERROR_SUCCESS) in
  _ ← when (bool_decide (k = ENGINE_LOCK_STATE_ENABLED) && failed) (upd_st (eraseBatchingSession c id));
  n ← gets (λ w, autoReportBatchingSessionsCount (st w));
  _ ← unregister_batch_full (failed && auto_report options && (n =? 0)%nat);
  _ ← match pendingMsg with
      | None => mret tt
      | Some p =>
          if decide (err = LOCATION_ERROR_GNSS_DISABLED)
          then upd_base (λ b, set_pendingGnss (mPendingGnssEnabledMsgs b ++ [p]) b)
          else delete_msg p
      end;
  reportResponse c err id.

Definition stopBatching (c : client) (id : Z) (restartNeeded : bool) (options : BatchingOptions) : M BW unit :=
  it ← gets (λ w, mBatchingSessions (st w) !! mkKey c id);
  match it with
  | None => mret tt
  | Some flpOptions =>
      _ ← upd_st (eraseBatchingSession c id);
      sendApi (ApiOwn (ApiStopBatching id (RStopped c id flpOptions restartNeeded options)))
  end.

(** ** Trips *)
Definition usub (a b : Z) : Z := uwrap 32 (a - b).
Definition uadd (a b : Z) : Z := uwrap 32 (a + b).

Definition startTripBatchingMultiplex (c : client) (id : Z) (options : BatchingOptions) : M BW unit :=
  w ← get;
  if decide (mTripSessions (st w) = ∅) then
    _ ← register_batch_full (autoReportBatchingSessionsCount (st w) =? 0)%nat;
    _ ← upd_st (saveBatchingSession c id options);
    _ ← upd_st (λ s, set_trips (<[id := mkTrip 0 0 0 (minDistance options) (minInterval options)]> (mTripSessions s)) s);
    sendApi (ApiOwn (ApiStartOutdoorTripBatching (minDistance options) (minInterval options)
                       (BATCH_SESSION_TIMEOUT (conf (st w))) (RTripStarted c id options)))
  else sendApi (ApiOwn (ApiQueryAccumulatedTripDistance (QNewTrip c id options))).

(** The response of startOutdoorTripBatching. *)
Definition proc_trip_started (c : client) (id : Z) (options : BatchingOptions) (err : LocationError) : M BW unit :=
  k ← gets lock;
  _ ← (if bool_decide (k = ENGINE_LOCK_STATE_DISABLED) || bool_decide (err = LOCATION_ERROR_SUCCESS)
       then upd_st (set_ongoing (minDistance options) (minInterval options))
       else
         _ ← upd_st (eraseBatchingSession c id);
         _ ← upd_st (λ s, set_trips (delete id (mTripSessions s)) s);
         n ← gets (λ w, autoReportBatchingSessionsCount (st w));
         unregister_batch_full (n =? 0)%nat);
  reportResponse c err id.

(** accumulatedDistanceOngoingBatch = 0 and accumulatedDistanceOnTripRestart =
    accumulatedDistanceThisTrip, for each session. *)
Definition reset_ongoing (t : TripSessionStatus) : TripSessionStatus :=
  mkTrip 0 (accumulatedDistanceThisTrip t) (accumulatedDistanceThisTrip t) (tripDistance t) (tripTBFInterval t).

(** The response of queryAccumulatedTripDistance to a new trip. *)
Definition proc_new_trip (c : client) (id : Z) (options : BatchingOptions) (err : LocationError)
    (data : option (Z * Z)) : M BW unit :=
  s ← gets st;
  let accumulated := (default (uninit s) data).1 in
  let faster := minInterval options <? mOngoingTripTBFInterval s in
  let interval := if faster then minInterval options else mOngoingTripTBFInterval s in
  '(distance, needsRestart) ←
    (if decide (err ≠ LOCATION_ERROR_SUCCESS) then
       mret (if minDistance options <? mOngoingTripDistance s then (minDistance options, true)
             else (mOngoingTripDistance s, faster))
     else
       let remaining := usub (mOngoingTripDistance s) accumulated in
       _ ← upd_st (λ s, set_trips (<[id := mkTrip accumulated 0 0 (minDistance options) (minInterval options)]>
                                     (mTripSessions s)) s);
       mret (if minDistance options <? remaining then (minDistance options, true)
             else (if faster then remaining else mOngoingTripDistance s, faster)));
  if needsRestart : bool then
    _ ← upd_st (set_ongoing distance interval);
    _ ← upd_st (λ s, set_trips (reset_ongoing <$> mTripSessions s) s);
    sendApi (ApiOwn (ApiReStartOutdoorTripBatching distance interval (BATCH_SESSION_TIMEOUT (conf s)) (RReport c id)))
  else reportResponse c LOCATION_ERROR_SUCCESS id.

(** One iteration of the search for the shortest remaining distance and the shortest interval:
    0 stands for none yet. *)
Definition shortest (s : Z * Z) (p : Z * TripSessionStatus) : Z * Z :=
  let '(distance, interval) := s in
  let remaining := usub (tripDistance p.2) (accumulatedDistanceThisTrip p.2) in
  (if (distance =? 0) || (remaining <? distance) then remaining else distance,
   if (interval =? 0) || (tripTBFInterval p.2 <? interval) then tripTBFInterval p.2 else interval).

Definition restartTripBatching (queryAccumulatedDistance : bool) (accDist : Z) : M BW unit :=
  s ← gets st;
  if decide (mTripSessions s = ∅) then
    _ ← sendApi (ApiOwn (ApiStopOutdoorTripBatching RIgnore));
    _ ← upd_st (set_ongoing 0 0);
    n ← gets (λ w, autoReportBatchingSessionsCount (st w));
    unregister_batch_full (n =? 0)%nat
  else
    let '(distance, interval) := foldl shortest (0, 0) (in_order Z.le (mTripSessions s)) in
    sendApi (ApiOwn (ApiQueryAccumulatedTripDistance (QRestart queryAccumulatedDistance distance interval accDist))).

(** The response of queryAccumulatedTripDistance to restartTripBatching. *)
Definition proc_restart (queryAccumulatedDistance : bool) (minRemainingDistance minTBFInterval accDist : Z)
    (data : option (Z * Z)) : M BW unit :=
  s ← gets st;
  let accumulated := if queryAccumulatedDistance then (default (uninit s) data).1 else accDist in
  let remaining := usub (mOngoingTripDistance s) accumulated in
  let '(distance, r1) :=
    if negb (mTripWithOngoingTripDistanceDropped s) && negb (remaining =? 0)
    then if minRemainingDistance <? remaining then (minRemainingDistance, true) else (mOngoingTripDistance s, false)
    else if negb (minRemainingDistance =? 0) then (minRemainingDistance, true)
    else (mOngoingTripDistance s, false) in
  let r2 := (minTBFInterval <? mOngoingTripTBFInterval s) ||
            (negb (minTBFInterval =? mOngoingTripTBFInterval s) && mTripWithOngoingTBFDropped s) in
  let interval := if r2 then minTBFInterval else mOngoingTripTBFInterval s in
  when (r1 || r2)
    (sendApi (ApiOwn (ApiReStartOutdoorTripBatching distance interval (BATCH_SESSION_TIMEOUT (conf s))
                        (RTripRestarted accumulated distance interval)))).

(** The distance of a trip after [accumulated] of the ongoing batch. *)
Definition distance_of (accumulated : Z) (t : TripSessionStatus) : Z :=
  uadd (accumulatedDistanceOnTripRestart t) (usub accumulated (accumulatedDistanceOngoingBatch t)).
Definition set_thisTrip (d : Z) (t : TripSessionStatus) : TripSessionStatus :=
  mkTrip (accumulatedDistanceOngoingBatch t) d (accumulatedDistanceOnTripRestart t) (tripDistance t) (tripTBFInterval t).
Definition set_ongoingBatch (d : Z) (t : TripSessionStatus) : TripSessionStatus :=
  mkTrip d (accumulatedDistanceThisTrip t) (accumulatedDistanceOnTripRestart t) (tripDistance t) (tripTBFInterval t).

(** The response of reStartOutdoorTripBatching to restartTripBatching. *)
Definition proc_trip_restarted (accumulated distance interval : Z) (err : LocationError) : M BW unit :=
  when (bool_decide (err = LOCATION_ERROR_SUCCESS))
    (_ ← upd_st (λ s, set_trips ((λ t, reset_ongoing (set_thisTrip (distance_of accumulated t) t)) <$> mTripSessions s) s);
     upd_st (set_ongoing distance interval)).

(** tripSess = itt->second, where itt may be end(). *)
Definition stopTripBatchingMultiplexCommon (err : LocationError) (c : client) (id : Z) (restartNeeded : bool)
    (options : BatchingOptions) : M BW unit :=
  tripSess ← deref (λ w, mTripSessions (st w) !! id);
  _ ← upd_st (λ s, set_dropped
        (mTripWithOngoingTBFDropped s || (tripTBFInterval tripSess =? mOngoingTripTBFInterval s))
        (mTripWithOngoingTripDistanceDropped s || (tripDistance tripSess =? mOngoingTripDistance s)) s);
  _ ← upd_st (λ s, set_trips (delete id (mTripSessions s)) s);
  none ← gets (λ w, bool_decide (mTripSessions (st w) = ∅));
  _ ← (if none : bool then upd_st (set_ongoing 0 0) else restartTripBatching true 0);
  _ ← when restartNeeded
        (_ ← upd_st (eraseBatchingSession c id);
         match batchingMode options with
         | BATCHING_MODE_TRIP => startTripBatchingMultiplex c id options
         | _ => startBatching c id options None
         end);
  reportResponse c err id.

Definition stopTripBatchingMultiplex (c : client) (id : Z) (restartNeeded : bool) (options : BatchingOptions)
    : M BW unit :=
  n ← gets (λ w, size (mTripSessions (st w)));
  if (n =? 1)%nat
  then sendApi (ApiOwn (ApiStopOutdoorTripBatching (RTripStopped c id restartNeeded options)))
  else stopTripBatchingMultiplexCommon LOCATION_ERROR_SUCCESS c id restartNeeded options.

(** The response of stopOutdoorTripBatching. *)
Definition proc_trip_stopped (c : client) (id : Z) (restartNeeded : bool) (options : BatchingOptions)
    (err : LocationError) : M BW unit :=
  n ← gets (λ w, autoReportBatchingSessionsCount (st w));
  _ ← unregister_batch_full (bool_decide (err = LOCATION_ERROR_SUCCESS) && (n =? 1)%nat);
  stopTripBatchingMultiplexCommon err c id restartNeeded options.

(** The response of stopBatching. *)
Definition proc_stopped (c : client) (id : Z) (flpOptions : BatchingOptions) (restartNeeded : bool)
    (options : BatchingOptions) (err : LocationError) : M BW unit :=
  k ← gets lock;
  _ ← (if bool_decide (k = ENGINE_LOCK_STATE_ENABLED) && bool_decide (err ≠ LOCATION_ERROR_SUCCESS)
       then upd_st (saveBatchingSession c id options)
       else
         n ← gets (λ w, autoReportBatchingSessionsCount (st w));
         _ ← unregister_batch_full ((n =? 0)%nat && auto_report flpOptions);
         when restartNeeded
           match batchingMode options with
           | BATCHING_MODE_TRIP => startTripBatchingMultiplex c id options
           | _ => startBatching c id options None
           end);
  reportResponse c err id.

(** *** Completed trips

    The loop over mTripSessions by the keys it holds at the start: it erases the entry it is
    at, and then reads the erased entry through the reference [tripSession]. *)
Fixpoint completed_loop (accumulated : Z) (ids : list Z) : M BW (list Z) :=
  match ids with
  | [] => mret []
  | id :: ids =>
      t ← deref (λ w, mTripSessions (st w) !! id);
      _ ← upd_st (λ s, set_trips (<[id := set_thisTrip (distance_of accumulated t) t]> (mTripSessions s)) s);
      if tripDistance t <=? distance_of accumulated t then
        _ ← upd_st (λ s, set_trips (delete id (mTripSessions s)) s);
        t ← deref (λ w, mTripSessions (st w) !! id);
        _ ← upd_st (λ s, set_dropped
              (mTripWithOngoingTBFDropped s || (tripTBFInterval t =? mOngoingTripTBFInterval s))
              (mTripWithOngoingTripDistanceDropped s || (tripDistance t =? mOngoingTripDistance s)) s);
        l ← completed_loop accumulated ids;
        mret (id :: l)
      else completed_loop accumulated ids
  end.

Definition proc_completed_trips (accumulated : Z) : M BW unit :=
  ids ← gets (λ w, (in_order Z.le (mTripSessions (st w))).*1);
  completed ← completed_loop accumulated ids;
  match completed with
  | [] => mret tt
  | _ => _ ← reportBatchStatusChange BATCHING_STATUS_TRIP_COMPLETED completed;
         restartTripBatching false accumulated
  end.

(** ** Client sessions and restarts *)
Fixpoint stop_sessions (l : list (LocationSessionKey * BatchingOptions)) : M BW unit :=
  match l with
  | [] => mret tt
  | (k, o) :: l =>
      _ ← (if decide (batchingMode o = BATCHING_MODE_TRIP)
           then stopTripBatchingMultiplex (key_client k) (key_id k) false BatchingOptions_default
           else stopBatching (key_client k) (key_id k) false BatchingOptions_default);
      stop_sessions l
  end.
Definition ba_stopClientSessions (c : client) : M BW unit :=
  l ← gets (λ w, in_order LocationSessionKey_le (mBatchingSessions (st w)));
  stop_sessions (filter (λ p : LocationSessionKey * BatchingOptions, key_client p.1 = c) l).

Fixpoint restart_routine (l : list (LocationSessionKey * BatchingOptions)) (accuracy timeout : Z) : M BW unit :=
  match l with
  | [] => mret tt
  | (k, o) :: l =>
      _ ← when (bool_decide (batchingMode o ≠ BATCHING_MODE_TRIP))
            (sendApi (ApiOwn (ApiStartBatching (key_id k) o accuracy timeout RIgnore)));
      restart_routine l accuracy timeout
  end.

(** The loop over the trips is over copies of them: the reset of accumulatedDistanceOngoingBatch
    in it changes nothing. *)
Definition restartSessions : M BW unit :=
  n ← gets (λ w, autoReportBatchingSessionsCount (st w));
  _ ← register_batch_full (0 <? n)%nat;
  s ← gets st;
  let timeout := BATCH_SESSION_TIMEOUT (conf s) in
  _ ← restart_routine (in_order LocationSessionKey_le (mBatchingSessions s)) (ACCURACY (conf s)) timeout;
  if decide (mTripSessions s = ∅) then mret tt
  else
    let '(distance, interval) := foldl shortest (0, 0) (in_order Z.le (mTripSessions s)) in
    _ ← upd_st (set_ongoing distance interval);
    sendApi (ApiOwn (ApiStartOutdoorTripBatching distance interval timeout RSessionsRestarted)).

Definition proc_sessions_restarted (err : LocationError) : M BW unit :=
  when (bool_decide (err ≠ LOCATION_ERROR_SUCCESS)) (upd_st (set_ongoing 0 0)).

(** The sizes of the batches go to the LocApi at once, not as a message. *)
Definition set_batch_sizes : M BW unit :=
  s ← gets st;
  _ ← run_api (setBatchSize (BATCH_SIZE (conf s)));
  run_api (setTripBatchSize (OUTDOOR_TRIP_BATCH_SIZE (conf s))).

Definition proc_SSR (f : Features) : M BW unit :=
  _ ← upd_base (set_known true);
  _ ← broadcastCapabilities (getCapabilities true f);
  _ ← set_batch_sizes;
  k ← gets lock;
  when (bool_decide (k = ENGINE_LOCK_STATE_ENABLED))
    (_ ← restartSessions;
     l ← gets (λ w, mPendingMsgs (base w));
     _ ← send_all_msgs l;
     upd_base (set_pending [])).

Definition handleEngineLockStatus (k : EngineLockState) : M BW unit :=
  when (bool_decide (k = ENGINE_LOCK_STATE_ENABLED))
    (l ← gets (λ w, mPendingGnssEnabledMsgs (base w));
     _ ← send_all_msgs l;
     upd_base (set_pendingGnss [])).

(** ** The messages of the commands *)

(** A message that is put aside until the engine is up, or processed. *)
Definition when_known (m : BMsg) (proc : M BW unit) : M BW unit :=
  b ← gets base;
  if mIsEngineCapabilitiesKnown b then proc else push_pending (Own m).

Definition proc_start (f : Features) (c : client) (id : Z) (options : BatchingOptions) : M BW unit :=
  ok ← gets (λ w, hasBatchingCallback c w && negb (options_size options =? 0) &&
                  msg_DISTANCE_BASE_LOCATION_BATCHING f);
  when ok
    match batchingMode options with
    | BATCHING_MODE_TRIP => startTripBatchingMultiplex c id options
    | _ => p ← new_msg (Own (MsgStartBatching c id options)); startBatching c id options (Some p)
    end.

Definition proc_update (c : client) (id : Z) (options : BatchingOptions) : M BW unit :=
  s ← gets st;
  when (isBatchingSession c id s && negb (options_size options =? 0))
    (if isTripSession id s then stopTripBatchingMultiplex c id true options
     else stopBatching c id true options).

Definition proc_stop (c : client) (id : Z) : M BW unit :=
  s ← gets st;
  when (isBatchingSession c id s)
    (if isTripSession id s then stopTripBatchingMultiplex c id false BatchingOptions_default
     else stopBatching c id false BatchingOptions_default).

Definition proc_get (c : client) (id count : Z) : M BW unit :=
  w ← get;
  if negb (hasBatchingCallback c w) then reportResponse c LOCATION_ERROR_CALLBACK_MISSING id
  else if negb (isBatchingSession c id (st w)) then reportResponse c LOCATION_ERROR_ID_UNKNOWN id
  else if isTripSession id (st w) then sendApi (ApiOwn (ApiGetBatchedTripLocations count (RReport c id)))
  else sendApi (ApiOwn (ApiGetBatchedLocations count (RReport c id))).

Definition proc_response (r : Resp) (err : LocationError) : M BW unit :=
  match r with
  | RStarted c id options pendingMsg => proc_started c id options pendingMsg err
  | RStopped c id flpOptions restartNeeded options => proc_stopped c id flpOptions restartNeeded options err
  | RReport c id => reportResponse c err id
  | RTripStarted c id options => proc_trip_started c id options err
  | RTripStopped c id restartNeeded options => proc_trip_stopped c id restartNeeded options err
  | RTripRestarted accumulated distance interval => proc_trip_restarted accumulated distance interval err
  | RSessionsRestarted => proc_sessions_restarted err
  | RIgnore => mret tt
  end.

(** ** The instance *)
Definition ba_proc (f : Features) (a : BMsg) : M BW unit :=
  match a with
  | MsgReadConfig file => upd_st (set_conf file)
  | MsgSetConfig => set_batch_sizes
  | MsgEngineLockStateEvent k => handleEngineLockStatus k
  | MsgSSREvent => proc_SSR f
  | MsgStartBatching c id options => when_known a (proc_start f c id options)
  | MsgUpdateBatching c id options => when_known a (proc_update c id options)
  | MsgStopBatching c id => when_known a (proc_stop c id)
  | MsgGetBatchedLocations c id count => when_known a (proc_get c id count)
  | MsgReportLocations locations count m => ba_reportLocations locations count m
  | MsgReportCompletedTrips accumulated => proc_completed_trips accumulated
  | MsgReportBatchStatus batchStatus => reportBatchStatusChange batchStatus []
  | Response r err => proc_response r err
  | QueryResponse (QNewTrip c id options) err data => proc_new_trip c id options err data
  | QueryResponse (QRestart q distance interval accDist) _ data => proc_restart q distance interval accDist data
  end.

(** reportLocations and reportCompletedTrips of LocApiBase reach the adapter as messages. *)
Definition report_msg (r : Report) : BMsg :=
  match r with
  | reportLocations l n m => MsgReportLocations l n m
  | reportCompletedTrips d => MsgReportCompletedTrips d
  end.
Fixpoint deliver (l : list Report) : M BW unit :=
  match l with
  | [] => mret tt
  | r :: l => _ ← send_new (Own (report_msg r)); deliver l
  end.

(** A request that may report positions: the reports it made are sent to the adapter. *)
Definition run_reporting {X} (m : M ApiState X) : M BW X :=
  n ← gets (λ w, length (reports (api w)));
  x ← run_api m;
  l ← gets (λ w, drop n (reports (api w)));
  _ ← deliver l;
  mret x.

(** Enough iterations to read a whole batch. *)
Definition batch_fuel (a : ApiState) : nat := S (Z.to_nat (Z.max (mBatchSize a) (mTripBatchSize a))).

Definition respond (r : Resp) (m : M BW LocationError) : M BW unit :=
  err ← m; send_new (Own (Response r err)).

Definition ba_api (modem : Modem) (l : BApi) : M BW unit :=
  fuel ← gets (λ w, batch_fuel (api w));
  match l with
  | ApiStartBatching id options accuracy timeout r =>
      respond r (run_api (LocApiBatch.startBatching modem id options accuracy timeout))
  | ApiStopBatching id r => respond r (run_api (LocApiBatch.stopBatching modem id))
  | ApiGetBatchedLocations count r => respond r (run_reporting (getBatchedLocationsSync modem fuel count))
  | ApiGetBatchedTripLocations count r =>
      respond r (run_reporting (getBatchedTripLocationsSync modem fuel count 0))
  | ApiStartOutdoorTripBatching distance interval timeout r =>
      respond r (run_api (startOutdoorTripBatchingSync modem distance interval timeout))
  | ApiStopOutdoorTripBatching r => respond r (run_api (stopOutdoorTripBatchingSync modem true))
  | ApiReStartOutdoorTripBatching distance interval timeout r =>
      respond r (run_reporting (reStartOutdoorTripBatching modem fuel distance interval timeout))
  | ApiQueryAccumulatedTripDistance r =>
      '(err, data) ← run_api (queryAccumulatedTripDistanceSync modem);
      send_new (Own (QueryResponse r err data))
  | ApiBatchFull supported count accDistance batchType =>
      _ ← run_reporting (batchFullEvent modem fuel supported count accDistance batchType); mret tt
  end.

(** The commands. startBatchingCommand returns the new session. *)
Definition startBatchingCommand (c : client) (options : BatchingOptions) : M BW unit :=
  id ← generateSessionId;
  _ ← send_new (Own (MsgStartBatching c id options));
  emit (EvOwn (EvSession c id)).
Definition updateBatchingOptionsCommand (c : client) (id : Z) (options : BatchingOptions) : M BW unit :=
  send_new (Own (MsgUpdateBatching c id options)).
Definition stopBatchingCommand (c : client) (id : Z) : M BW unit := send_new (Own (MsgStopBatching c id)).
Definition getBatchedLocationsCommand (c : client) (id count : Z) : M BW unit :=
  send_new (Own (MsgGetBatchedLocations c id count)).
(** The events. *)
Definition handleEngineUpEvent : M BW unit := send_new (Own MsgSSREvent).
Definition handleEngineLockStatusEvent (k : EngineLockState) : M BW unit :=
  changed ← reportEngineLockStatus k;
  when changed (send_new (Own (MsgEngineLockStateEvent k))).
Definition reportBatchStatusChangeEvent (batchStatus : BatchingStatus) : M BW unit :=
  send_new (Own (MsgReportBatchStatus batchStatus)).

Definition ba_call (f : Features) (c : BCall) : M BW unit :=
  match c with
  | CStart c options => startBatchingCommand c options
  | CUpdate c id options => updateBatchingOptionsCommand c id options
  | CStop c id => stopBatchingCommand c id
  | CGet c id count => getBatchedLocationsCommand c id count
  | CEngineUp => handleEngineUpEvent
  | CEngineLock k => handleEngineLockStatusEvent k
  | CBatchFull count accDistance batchType =>
      sendApi (ApiOwn (ApiBatchFull (msg_OUTDOOR_TRIP_BATCHING f) count accDistance batchType))
  | CBatchStatus batchStatus => reportBatchStatusChangeEvent batchStatus
  end.

#[export] Instance BatchingAdapter : Adapter Batching BMsg BApi BEvent BCall := {
  updateClientsEventMask := ba_updateClientsEventMask;
  stopClientSessions := ba_stopClientSessions;
  own_proc := ba_proc;
  own_api := λ _, ba_api;
  call := ba_call }.

(** The constructor sends readConfigCommand and setConfigCommand. *)
Definition ba_init (file : FlpConf) (garbage : Z * Z) : BW :=
  mkWorld (mkBatching ∅ ∅ 0 0 false false
             {| BATCH_SIZE := 0; OUTDOOR_TRIP_BATCH_SIZE := 0; BATCH_SESSION_TIMEOUT := 0; ACCURACY := 1 |} garbage)
    {| mIsEngineCapabilitiesKnown := false; mEvtMask := 0; mClientData := ∅; mSessionIdCounter := 1;
       mPendingMsgs := []; mPendingGnssEnabledMsgs := [] |}
    {[1%positive := Own (MsgReadConfig file); 2%positive := Own MsgSetConfig]} 3 [1%positive; 2%positive] []
    (api_opened 0 false) ENGINE_LOCK_STATE_ENABLED [].

(** ** The batch-full event is registered while a session wants it

    For the executions without outdoor trips, when the modem grants every stop. *)
Definition routine (o : BatchingOptions) : Prop := batchingMode o ≠ BATCHING_MODE_TRIP.

Definition routine_resp (r : Resp) (err : option LocationError) : Prop :=
  match r with
  | RStarted _ _ o _ => routine o
  | RStopped _ _ _ _ o => routine o ∧ (∀ e, err = Some e → e = LOCATION_ERROR_SUCCESS)
  | RReport _ _ | RIgnore => True
  | _ => False
  end.
Definition routine_msg (m : Msg BMsg) : Prop :=
  match m with
  | Own (MsgStartBatching _ _ o) | Own (MsgUpdateBatching _ _ o) => routine o
  | Own (Response r err) => routine_resp r (Some err)
  | Own (QueryResponse _ _ _) => False
  | _ => True
  end.
Definition stops (r : Resp) : Prop := match r with RStopped _ _ _ _ _ => True | _ => False end.
Definition routine_api (l : ApiMsg BApi) : Prop :=
  match l with
  | ApiOwn (ApiStartBatching _ _ _ _ r) | ApiOwn (ApiGetBatchedLocations _ r) => routine_resp r None ∧ ¬ stops r
  | ApiOwn (ApiStopBatching _ r) => routine_resp r None
  | LocOpenMsg | ApiOwn (ApiBatchFull _ _ _ _) => True
  | _ => False
  end.

Definition registered (w : BW) : Prop := Z.testbit (mEvtMask (base w)) LOC_API_ADAPTER_BATCH_FULL = true.

(** Whether the engine reports breaches in batches, on which the events of a mask depend. *)
Section batch_full.
Context (breach : bool).

Record Routine (w : BW) : Prop := {
  ro_trips : mTripSessions (st w) = ∅;
  ro_sessions : ∀ k o, mBatchingSessions (st w) !! k = Some o → routine o;
  ro_heap : ∀ p m, heap w !! p = Some m → routine_msg m;
  ro_api : Forall routine_api (apiTask w);
  ro_link : clientHandle (session (api w)) = true ∧ mInSession (session (api w)) = false ∧ mEngineOn (session (api w)) = false;
  ro_registered : LocApiTrack.Registered breach 0 (mMask (session (api w))) (api w);
  ro_sync : mMask (session (api w)) = mEvtMask (base w) ∨ LocOpenMsg ∈ apiTask w }.
Definition Reg (w : BW) : Prop :=
  Routine w ∧ (autoReportBatchingSessionsCount (st w) ≠ 0%nat → registered w).

(** Code that keeps the invariant. *)
Definition keeps {X} (m : M BW X) : Prop := ∀ w x w', m w = Done x w' → Reg w → Reg w'.

Lemma bkeeps_bind {X Y} (m : M BW X) (f : X → M BW Y) : keeps m → (∀ x, keeps (f x)) → keeps (m ≫= f).
Proof. intros Hm Hf w y w' (x & w1 & E1 & E2)%bind_inv HR. eapply Hf, Hm; eauto. Qed.
Lemma bkeeps_ret {X} (x : X) : keeps (mret x).
Proof. by intros w ? w' [=<- <-]. Qed.
Lemma bkeeps_gets {X} (f : BW → X) : keeps (gets f).
Proof. by intros w ? w' [=<- <-]. Qed.
Lemma bkeeps_get : keeps get.
Proof. by intros w ? w' [=<- <-]. Qed.
Lemma bkeeps_when b (m : M BW unit) : keeps m → keeps (when b m).
Proof. intros Hm. destruct b; [done|apply bkeeps_ret]. Qed.
Lemma bkeeps_emit e : keeps (emit e).
Proof. intros w x w' [=<- <-] [[] ?]. by split. Qed.
Lemma bkeeps_emit_all e : keeps (emit_all e).
Proof. intros w x w' [=<- <-] [[] ?]. by split. Qed.
Lemma bkeeps_sendMsg p : keeps (sendMsg p).
Proof. intros w x w' [=<- <-] [[] ?]. by split. Qed.
Lemma bkeeps_base f : (∀ b, mEvtMask (f b) = mEvtMask b) → keeps (upd_base f).
Proof.
  intros Hf w x w' [=<- <-] [[] ?]. unfold Reg, registered. simpl. rewrite Hf. split; [|done].
  split; try done. simpl. by rewrite Hf.
Qed.
Lemma bkeeps_new_msg m : routine_msg m → keeps (new_msg m).
Proof.
  intros Hm w x w' [=<- <-] [[] ?]. split; [|done]. split; try done. simpl.
  intros p m' [[_ <-]|[_ ?]]%lookup_insert_Some; eauto.
Qed.
Lemma bkeeps_delete_msg p : keeps (delete_msg p).
Proof.
  intros w x w' H [[] ?]. unfold delete_msg in H. destruct (heap w !! p); simplify_eq. split; [|done].
  split; try done. simpl. intros q m' [_ ?]%lookup_delete_Some. eauto.
Qed.
Lemma bkeeps_sendApi l : routine_api l → keeps (sendApi l).
Proof.
  intros Hl w x w' [=<- <-] [[] ?]. split; [|done]. split; try done; simpl.
  - apply Forall_app. by repeat constructor.
  - rewrite elem_of_app. tauto.
Qed.
Lemma bkeeps_run_api {X} (m : M ApiState X) : same_session m → keeps (run_api m).
Proof.
  intros Hm w x w' H [[] ?]. unfold run_api in H. destruct (m (api w)) as [y a| |] eqn:E; simplify_eq.
  apply Hm in E as [E Er]. split; [|done]. split; try done; simpl; rewrite E; try done.
  eapply LocApiTrack.registered_same; [by rewrite E|exact Er|done].
Qed.
Lemma bkeeps_reportEngineLockStatus k : keeps (reportEngineLockStatus k).
Proof.
  apply bkeeps_bind; [apply bkeeps_gets|]. intros old. destruct (_ && _); [|apply bkeeps_ret].
  apply bkeeps_bind; [|intros; apply bkeeps_ret]. intros w x w' [=<- <-] [[] ?]. by split.
Qed.

(** [Reg] after a change of the event mask. *)
Lemma updateEvtMask_reg e s w w' :
  Routine w → updateEvtMask e s w = Done tt w' →
  st w' = st w ∧ Routine w' ∧
  mEvtMask (base w') = match s with
    | LOC_REGISTRATION_MASK_ENABLED => Z.lor (mEvtMask (base w)) e
    | LOC_REGISTRATION_MASK_DISABLED => Z.land (mEvtMask (base w)) (Z.lnot e)
    | LOC_REGISTRATION_MASK_SET => e
    end.
Proof.
  intros [] H. injection H as <-. split_and!; [done| |done]. split; try done; simpl.
  - apply Forall_app. by repeat constructor.
  - right. apply elem_of_app. right. by left.
Qed.

Lemma batch_full_lor m : Z.testbit (Z.lor m LOC_API_ADAPTER_BIT_BATCH_FULL) LOC_API_ADAPTER_BATCH_FULL = true.
Proof. rewrite Z.lor_spec. by rewrite orb_true_r. Qed.

Lemma register_reg b w w' :
  Reg w → register_batch_full b w = Done tt w' →
  st w' = st w ∧ Reg w' ∧ (b = true ∨ registered w → registered w').
Proof.
  intros [HR Hn] H. unfold register_batch_full, when in H. destruct b; [|injection H as <-; split_and!; try done; by intros [?|?]].
  destruct (updateEvtMask_reg _ _ _ _ HR H) as (Es & HR' & Em).
  assert (Hreg : registered w') by (unfold registered; rewrite Em; apply batch_full_lor).
  split_and!; [done|by split|done].
Qed.
Lemma bkeeps_register b : keeps (register_batch_full b).
Proof. intros w [] w' H HR. by apply (register_reg _ _ _ HR H). Qed.

(** The event is only given up when no session wants it. *)
Lemma bkeeps_unregister {Y} (g : nat → bool) (m : M BW Y) :
  (∀ n, g n = true → n = 0%nat) → keeps m →
  keeps (n ← gets (λ w, autoReportBatchingSessionsCount (st w)); _ ← unregister_batch_full (g n); m).
Proof.
  intros Hg Hm w y w' H [HR Hn]. apply bind_inv in H as (n & w1 & [=<- <-] & H).
  apply bind_inv in H as ([] & w1 & E1 & H). eapply Hm; [exact H|].
  unfold unregister_batch_full, when in E1.   destruct (g _) eqn:Eg; [|by injection E1 as <-]. apply Hg in Eg.
  destruct (updateEvtMask_reg _ _ _ _ HR E1) as (Es & HR' & _). split; [done|]. by rewrite Es, Eg.
Qed.

Lemma bkeeps_updateClientsEventMask : keeps ba_updateClientsEventMask.
Proof.
  intros w [] w' H [HR Hn]. unfold ba_updateClientsEventMask in H. apply bind_inv in H as (w1 & w2 & [=<- <-] & H).
  destruct (updateEvtMask_reg _ _ _ _ HR H) as (Es & HR' & Em). split; [done|]. intros Hc.
  unfold registered. rewrite Em. rewrite Es in Hc.
  destruct (Nat.ltb_spec 0 (autoReportBatchingSessionsCount (st w))); [apply batch_full_lor|lia].
Qed.

(** Fewer sessions. *)
Lemma count_mono s s' :
  auto_sessions (mBatchingSessions s') ⊆ auto_sessions (mBatchingSessions s) →
  mTripSessions s = ∅ → mTripSessions s' = ∅ →
  autoReportBatchingSessionsCount s' ≠ 0%nat → autoReportBatchingSessionsCount s ≠ 0%nat.
Proof.
  intros Hs E1 E2 Hn. unfold autoReportBatchingSessionsCount in *. rewrite E1. rewrite E2 in Hn.
  pose proof (map_subseteq_size _ _ Hs). lia.
Qed.

Lemma bkeeps_erase c id : keeps (upd_st (eraseBatchingSession c id)).
Proof.
  intros w x w' [=<- <-] [[] Hn]. split.
  - split; try done; simpl. intros k o [_ ?]%lookup_delete_Some. eauto.
  - intros Hc. apply Hn. eapply count_mono, Hc; [|done|done]. simpl.
    apply map_filter_subseteq_mono, delete_subseteq.
Qed.

(** A session is saved once it has been registered for. *)
Lemma save_reg c id o w :
  Reg w → routine o → (auto_report o = true → registered w) →
  Reg (set_st (saveBatchingSession c id o (st w)) w).
Proof.
  intros [[] Hn] Ho Hreg. split.
  - split; try done; simpl. intros k o' [[_ <-]|[_ ?]]%lookup_insert_Some; [done|eauto].
  - intros Hc. destruct (auto_report o) eqn:Ea; [by apply Hreg|]. apply Hn.
    eapply count_mono, Hc; [|done|done]. simpl. unfold auto_sessions.
    rewrite map_filter_insert_False by (simpl; congruence).
    apply map_filter_subseteq_mono, delete_subseteq.
Qed.

Lemma bkeeps_startBatching c id o p : routine o → keeps (startBatching c id o p).
Proof.
  intros Ho w [] w' H HR. unfold startBatching in H. apply bind_inv in H as (w0 & w1 & [=<- <-] & H).
  apply bind_inv in H as ([] & w1 & E1 & H). apply bind_inv in H as ([] & w2 & [=<-] & H).
  destruct (register_reg _ _ _ HR E1) as (Es & HR1 & Hreg).
  eapply bkeeps_sendApi; [|exact H|]; [simpl; tauto|]. apply save_reg; [done|done|].
  intros Ha. apply Hreg. rewrite Ha. simpl. destruct (Nat.eqb_spec (autoReportBatchingSessionsCount (st w)) 0); [by left|].
  right. by apply HR.
Qed.

Create HintDb keeps discriminated.
#[local] Hint Resolve same_session_startBatching same_session_setBatchSize same_session_setTripBatchSize : keeps.
#[local] Hint Resolve bkeeps_bind bkeeps_ret bkeeps_gets bkeeps_get bkeeps_when bkeeps_emit bkeeps_emit_all
  bkeeps_sendMsg bkeeps_delete_msg bkeeps_run_api bkeeps_register bkeeps_updateClientsEventMask bkeeps_erase
  bkeeps_startBatching bkeeps_reportEngineLockStatus : keeps.

Ltac keeps := repeat first
  [ progress intros
  | match goal with |- keeps (_ ≫= _) => apply bkeeps_bind end
  | progress (eauto 2 with keeps nocore)
  | apply bkeeps_sendApi; simpl; tauto | apply bkeeps_new_msg; simpl; tauto | by apply bkeeps_base
  | match goal with |- keeps (match ?x with _ => _ end) => destruct x end
  | progress unfold when ].

Lemma bkeeps_reportResponse c e id : keeps (reportResponse c e id).
Proof. unfold reportResponse. keeps. Qed.
Lemma bkeeps_send_new m : routine_msg m → keeps (send_new m).
Proof. intros. unfold send_new. keeps. Qed.
Lemma bkeeps_push_pending m : routine_msg m → keeps (push_pending m).
Proof. intros. unfold push_pending. keeps. Qed.
Lemma bkeeps_send_all_msgs l : keeps (send_all_msgs l).
Proof. induction l; simpl; keeps. Qed.
Lemma bkeeps_generateSessionId : keeps generateSessionId.
Proof. unfold generateSessionId. keeps. Qed.
Lemma bkeeps_broadcast m : keeps (broadcastCapabilities m).
Proof. unfold broadcastCapabilities. keeps. Qed.
Lemma bkeeps_set_batch_sizes : keeps set_batch_sizes.
Proof. unfold set_batch_sizes. keeps. Qed.
Lemma bkeeps_set_conf f : keeps (upd_st (set_conf f)).
Proof. intros w x w' [=<- <-] [[] ?]. by split. Qed.
#[local] Hint Resolve bkeeps_reportResponse bkeeps_send_all_msgs bkeeps_generateSessionId bkeeps_broadcast
  bkeeps_set_batch_sizes bkeeps_set_conf : keeps.

(** The routine branches of the handlers. *)
Lemma bkeeps_stopBatching c id r o : routine o → keeps (stopBatching c id r o).
Proof. intros. unfold stopBatching. keeps. apply bkeeps_sendApi. split; [done|]. by intros ? [=]. Qed.

Lemma bkeeps_restart_start c id o : routine o →
  keeps match batchingMode o with
        | BATCHING_MODE_TRIP => startTripBatchingMultiplex c id o
        | _ => startBatching c id o None
        end.
Proof. intros Ho. destruct (batchingMode o) eqn:E; [keeps|by destruct (Ho E)|keeps]. Qed.

Lemma bkeeps_started c id o p e : routine o → keeps (proc_started c id o p e).
Proof.
  intros Ho. unfold proc_started. apply bkeeps_bind; [keeps|]. intros k. apply bkeeps_bind; [keeps|]. intros [].
  apply bkeeps_unregister; [|keeps].
  intros n. rewrite andb_true_iff. intros [_ ?%Nat.eqb_eq]. done.
Qed.

Lemma bkeeps_stopped c id o r o' : routine o' → keeps (proc_stopped c id o r o' LOCATION_ERROR_SUCCESS).
Proof.
  intros Ho. unfold proc_stopped. apply bkeeps_bind; [keeps|]. intros k. rewrite andb_false_r.
  apply bkeeps_bind; [|keeps]. apply bkeeps_unregister.
  - intros n. rewrite andb_true_iff. by intros [?%Nat.eqb_eq _].
  - apply bkeeps_when. by apply bkeeps_restart_start.
Qed.

(** With no trip. *)
Lemma bkeeps_no_trips {X} (m : M BW X) :
  (∀ w, mTripSessions (st w) = ∅ → ∃ x, m w = Done x w) → keeps m.
Proof. intros Hm w x w' E HR. destruct (Hm w) as [y Ey]; [apply HR|]. rewrite Ey in E. by injection E as <- <-. Qed.

Lemma isTripSession_empty id s : mTripSessions s = ∅ → isTripSession id s = false.
Proof. intros E. unfold isTripSession. by rewrite E, lookup_empty. Qed.

(** The branch on a trip is not taken. *)
Lemma bkeeps_not_trip id (f : Batching → bool) (m m' : M BW unit) :
  keeps m' → keeps (s ← gets st; when (f s) (if isTripSession id s then m else m')).
Proof.
  intros Hm w x w' H HR. apply bind_inv in H as (s & w1 & [=<- <-] & H).
  rewrite isTripSession_empty in H by apply HR. by eapply (bkeeps_when _ _ Hm).
Qed.

Lemma bkeeps_update c id o : routine o → keeps (proc_update c id o).
Proof. intros. apply bkeeps_not_trip. by apply bkeeps_stopBatching. Qed.
Lemma bkeeps_stop c id : keeps (proc_stop c id).
Proof. apply bkeeps_not_trip. by apply bkeeps_stopBatching. Qed.

Lemma bkeeps_get_locations c id n : keeps (proc_get c id n).
Proof.
  intros w x w' H HR. unfold proc_get in H. apply bind_inv in H as (w0 & w1 & [=<- <-] & H).
  rewrite isTripSession_empty in H by apply HR.
  destruct (negb _); [by eapply bkeeps_reportResponse|]. destruct (negb _); [by eapply bkeeps_reportResponse|].
  eapply bkeeps_sendApi; [|exact H|done]. split; [done|]. by intros [].
Qed.

Lemma bkeeps_completed d : keeps (proc_completed_trips d).
Proof.
  apply bkeeps_no_trips. intros w Ew. exists tt. unfold proc_completed_trips, gets, mbind, M_bind. rewrite Ew. done.
Qed.

Lemma bkeeps_restart_routine l a t : Forall (λ p, routine p.2) l → keeps (restart_routine l a t).
Proof.
  induction 1 as [|[k o] l Ho Hl IH]; simpl; keeps.
Qed.

Lemma bkeeps_restartSessions : keeps restartSessions.
Proof.
  unfold restartSessions. apply bkeeps_bind; [keeps|]. intros n. apply bkeeps_bind; [keeps|]. intros [].
  intros w x w' H HR. apply bind_inv in H as (s & w1 & [=<- <-] & H). cbv zeta in H.
  rewrite decide_True in H by apply HR.
  apply bind_inv in H as ([] & w1 & E & H). injection H as <- <-. eapply bkeeps_restart_routine; [|exact E|done].
  apply Forall_forall. intros [k o] Hin. apply elem_of_in_order in Hin. by eapply (ro_sessions _ (proj1 HR)).
Qed.

Lemma bkeeps_SSR f : keeps (proc_SSR f).
Proof.
  unfold proc_SSR. keeps. apply bkeeps_restartSessions.
Qed.
Lemma bkeeps_lock_status k : keeps (handleEngineLockStatus k).
Proof. unfold handleEngineLockStatus. keeps. Qed.

Lemma bkeeps_stop_sessions l : Forall (λ p, routine p.2) l → keeps (stop_sessions l).
Proof.
  induction 1 as [|[k o] l Ho Hl IH]; simpl; [keeps|]. rewrite decide_False by done.
  apply bkeeps_bind; [by apply bkeeps_stopBatching|by intros []].
Qed.
Lemma bkeeps_stopClientSessions c : keeps (ba_stopClientSessions c).
Proof.
  intros w x w' H HR. unfold ba_stopClientSessions in H. apply bind_inv in H as (l & w1 & [=<- <-] & H).
  eapply bkeeps_stop_sessions; [|exact H|done]. apply Forall_forall. intros [k o] Hin.
  apply list_elem_of_filter in Hin as [_ Hin]. apply elem_of_in_order in Hin. by eapply (ro_sessions _ (proj1 HR)).
Qed.

Lemma bkeeps_response r e : routine_resp r (Some e) → keeps (proc_response r e).
Proof.
  destruct r; simpl; try done; intros Hr.
  - by apply bkeeps_started.
  - destruct Hr as [Ho He]. rewrite (He e eq_refl). by apply bkeeps_stopped.
  - keeps.
  - keeps.
Qed.

Lemma bkeeps_when_known m (p : M BW unit) : routine_msg (Own m) → keeps p → keeps (when_known m p).
Proof. intros. unfold when_known. keeps. by apply bkeeps_push_pending. Qed.

Lemma bkeeps_start f c id o : routine o → keeps (proc_start f c id o).
Proof.
  intros Ho. unfold proc_start. apply bkeeps_bind; [keeps|]. intros b. apply bkeeps_when.
  destruct (batchingMode o) eqn:E; [|by destruct (Ho E)|]; (apply bkeeps_bind; [by apply bkeeps_new_msg|]); keeps.
Qed.

Lemma bkeeps_proc f m : routine_msg m → keeps (proc f m).
Proof.
  destruct m as [c cb|c b|c|m]; cbn [proc]; intros Hm.
  - apply bkeeps_bind; [by apply bkeeps_base|intros; apply bkeeps_updateClientsEventMask].
  - apply bkeeps_bind; [apply bkeeps_stopClientSessions|]. intros []. unfold eraseClient. keeps.
  - keeps. by apply bkeeps_push_pending.
  - destruct m; cbn [own_proc BatchingAdapter ba_proc]; simpl in Hm; try done.
    + keeps.
    + keeps.
    + apply bkeeps_lock_status.
    + apply bkeeps_SSR.
    + apply bkeeps_when_known; [done|by apply bkeeps_start].
    + apply bkeeps_when_known; [done|by apply bkeeps_update].
    + apply bkeeps_when_known; [done|apply bkeeps_stop].
    + apply bkeeps_when_known; [done|apply bkeeps_get_locations].
    + unfold ba_reportLocations. keeps.
    + apply bkeeps_completed.
    + unfold reportBatchStatusChange. keeps.
    + by apply bkeeps_response.
Qed.

(** The modem never refuses to stop a batching session. *)
Definition grants_stops (modem : Modem) : Prop := ∀ h id,
  let '(ok, ind) := modem (h ++ [StopBatching (Some id) (Some eQMI_LOC_LOCATION_BATCHING_V02)]) in
  ok = true ∧ status ind = eQMI_LOC_SUCCESS_V02.

Section registered.
Context (modem : Modem) (f : Features) (Hbreach : breach = msg_BATCHED_GENFENCE_BREACH f).
Context (Hstop : grants_stops modem) (Hev : LocApiTrack.grants_events modem).

Lemma stopBatching_granted id a : ∃ a', LocApiBatch.stopBatching modem id a = Done LOCATION_ERROR_SUCCESS a'.
Proof.
  unfold LocApiBatch.stopBatching, LOC_SEND_SYNC_REQ. mrun. pose proof (Hstop (requests a) id) as H.
  destruct (modem _) as [ok ind]. destruct H as [-> ->]. by eexists.
Qed.

Lemma bkeeps_deliver l : keeps (deliver l).
Proof.
  induction l as [|r l IH]; simpl; [keeps|]. apply bkeeps_bind; [|by intros []].
  apply bkeeps_send_new. by destruct r.
Qed.
Lemma bkeeps_run_reporting {X} (m : M ApiState X) : same_session m → keeps (run_reporting m).
Proof. intros. unfold run_reporting. keeps. apply bkeeps_deliver. Qed.

Lemma bkeeps_respond r m : routine_resp r None → ¬ stops r → keeps m → keeps (respond r m).
Proof.
  intros Hr Hs Hm. unfold respond. apply bkeeps_bind; [done|]. intros e. apply bkeeps_send_new.
  destruct r; simpl in *; tauto.
Qed.

Lemma bkeeps_api l : routine_api (ApiOwn l) → keeps (ba_api modem l).
Proof.
  intros Hl. apply bkeeps_bind; [keeps|]. intros fuel. destruct l; simpl in Hl; try done.
  - apply bkeeps_respond; [tauto|tauto|keeps].
  - intros w [] w' H HR. unfold respond in H. apply bind_inv in H as (e & w1 & E1 & H).
    pose proof (bkeeps_run_api _ (same_session_stopBatching modem id) _ _ _ E1 HR) as HR1.
    unfold run_api in E1. destruct (stopBatching_granted id (api w)) as [a Ea]. rewrite Ea in E1. injection E1 as <- <-.
    eapply bkeeps_send_new; [|exact H|exact HR1].
    destruct r; simpl in *; try done. split; [tauto|]. by intros ? [=].
  - apply bkeeps_respond; [tauto|tauto|apply bkeeps_run_reporting; auto with same_session].
  - apply bkeeps_bind; [apply bkeeps_run_reporting; auto with same_session|intros; apply bkeeps_ret].
Qed.

Lemma bkeeps_task_step : keeps (task_step f).
Proof.
  intros w x w' H HR. unfold task_step in H. apply bind_inv in H as (q & w1 & [=<- <-] & H).
  destruct (task w) as [|p q]; [by injection H as <- <-|].
  apply bind_inv in H as ([] & w1 & [=<-] & H). apply bind_inv in H as (m & w2 & E2 & H).
  unfold deref in E2. simpl in E2. destruct (heap w !! p) as [m0|] eqn:Ep; simplify_eq.
  apply bind_inv in H as ([] & w3 & E3 & H). eapply bkeeps_delete_msg; [exact H|].
  eapply bkeeps_proc; [|exact E3|].
  - by eapply (ro_heap _ (proj1 HR)).
  - destruct HR as [[] ?]. by split.
Qed.

Lemma bkeeps_api_step : keeps (api_step modem f).
Proof.
  intros w x w' H HR. unfold api_step in H. apply bind_inv in H as (q & w1 & [=<- <-] & H).
  destruct (apiTask w) as [|l q] eqn:Eq; [by injection H as <- <-|].
  apply bind_inv in H as ([] & w1 & [=<-] & H). destruct HR as [[Ht Hse Hh Ha Hlk Hrg Hsy] Hn].
  rewrite Eq in Ha, Hsy. apply Forall_cons in Ha as [Hl Ha].
  destruct l as [|l].
  - unfold open_api in H. apply bind_inv in H as (mask & w1 & [=<- <-] & H). apply bind_inv in H as (ok & w1 & E1 & [=<-]).
    unfold run_api, LocApiTrack.open in E1. simpl in E1. rewrite <- Hbreach in E1. destruct Hlk as (Eh & Ei & Ee).
    rewrite (bind_done _ _ (api w) (session (api w)) (api w)), Eh, (LocApiTrack.re_excluded _ _ _ _ Hrg), Z.ldiff_0_r in E1 by done.
    destruct (LocApiTrack.registerEventMask_spec modem breach (gnssConstellationConfig f) Hev
      (mEvtMask (base w)) (api w)) as (a & E & [= F0 F1 F2 F3 F4 F5] & Er); [apply Hrg|].
    destruct (LocApiTrack.registerEventMask_registered modem breach (gnssConstellationConfig f) 0 Hev
      (mEvtMask (base w)) (api w)) as (a' & E' & Hrg' & _); [apply Hrg..|congruence|].
    rewrite E in E'. injection E' as <-. rewrite (bind_done _ _ _ _ _ E) in E1. injection E1. intros. subst.
    split; [|done]. split; try done; simpl; [by split_and!; congruence|by rewrite F1|by left].
  - eapply bkeeps_api; [exact Hl|exact H|]. split; [|done]. split; try done. simpl.
    destruct Hsy as [?|[?|?]%elem_of_cons]; [by left|done|by right].
Qed.

Definition routine_label (l : Label (C:=BCall)) : Prop :=
  match l with LCall (CStart _ o) | LCall (CUpdate _ _ o) => routine o | _ => True end.

Lemma bkeeps_exec l : routine_label l → keeps (exec modem f l).
Proof.
  intros Hl. destruct l as [c|c cb|c b|c| |]; cbn [exec].
  - destruct c; cbn [call BatchingAdapter ba_call]; simpl in Hl;
      unfold startBatchingCommand, updateBatchingOptionsCommand, stopBatchingCommand, getBatchedLocationsCommand,
        handleEngineUpEvent, handleEngineLockStatusEvent, reportBatchStatusChangeEvent;
      keeps; apply bkeeps_send_new; first [done|by apply Hl].
  - by apply bkeeps_send_new.
  - by apply bkeeps_send_new.
  - by apply bkeeps_send_new.
  - apply bkeeps_task_step.
  - apply bkeeps_api_step.
Qed.

Lemma init_reg file g : Reg (ba_init file g).
Proof.
  split; [|done]. split; [done|done| |by constructor|done| |by left].
  2: { by split. }
  intros p m. simpl. intros [[<- <-]|[_ [<- <-]%lookup_singleton_Some]]%lookup_insert_Some; done.
Qed.
End registered.
End batch_full.

Lemma batch_full_events b m : Z.testbit m LOC_API_ADAPTER_BATCH_FULL = true →
  test_bits (Z.ldiff (LocApiTrack.convertMask b m) LocApiTrack.session_events) QMI_LOC_EVENT_MASK_BATCH_FULL_NOTIFICATION_V02 = true.
Proof.
  intros Hm. change QMI_LOC_EVENT_MASK_BATCH_FULL_NOTIFICATION_V02 with (Z.shiftl 1 19).
  rewrite LocApiTrack.test_bits_single, Z.ldiff_spec by done. apply andb_true_iff. split; [|reflexivity].
  eapply (LocApiTrack.convertMask_row _ _ (LOC_API_ADAPTER_BIT_BATCH_FULL, QMI_LOC_EVENT_MASK_BATCH_FULL_NOTIFICATION_V02));
    [|unfold fst, LOC_API_ADAPTER_BIT_BATCH_FULL; by rewrite LocApiTrack.test_bits_single|reflexivity].
  unfold LocApiTrack.convertMask_table. rewrite !elem_of_cons. do 21 right. by left.
Qed.

(** C17: While a session wants its batches reported, the event of a full batch is registered:
    in every execution without outdoor trips, on a connection that lasts, with a modem that grants
    the stops and the registrations: the event mask of the adapter has BATCH_FULL whenever the
    number of automatically reported sessions is not zero; and whenever the LocApi's queue is empty
    the modem was last registered for exactly the events of that mask, less those of a tracking
    session, of which there is none, so that it then reports when a batch is full. *)
Theorem batch_full_registered modem f file g ls w :
  grants_stops modem → LocApiTrack.grants_events modem →
  Forall routine_label ls → execs modem f ls (ba_init file g) = Done tt w →
  (autoReportBatchingSessionsCount (st w) ≠ 0%nat → registered w) ∧
  (apiTask w = [] →
     modemMask w = Z.ldiff (LocApiTrack.convertMask (msg_BATCHED_GENFENCE_BREACH f) (mEvtMask (base w))) LocApiTrack.session_events ∧
     (autoReportBatchingSessionsCount (st w) ≠ 0%nat → test_bits (modemMask w) QMI_LOC_EVENT_MASK_BATCH_FULL_NOTIFICATION_V02 = true)).
Proof.
  intros Hs Hev Hls H.
  assert (HR : Reg (msg_BATCHED_GENFENCE_BREACH f) w).
  { eapply (execs_invariant modem f routine_label (Reg (msg_BATCHED_GENFENCE_BREACH f))); [|apply init_reg|done|done].
    intros l w1 w2 Hl HR E. by eapply bkeeps_exec. }
  split; [apply HR|]. intros Eq. destruct HR as [[_ _ _ _ (Eh & Ei & Ee) Hrg Hsy] Hn].
  destruct Hsy as [Hm|Hin]; [|rewrite Eq in Hin; by apply elem_of_nil in Hin].
  assert (E : modemMask w = Z.ldiff (LocApiTrack.convertMask (msg_BATCHED_GENFENCE_BREACH f) (mEvtMask (base w)))
                              LocApiTrack.session_events).
  { unfold modemMask. rewrite (LocApiTrack.re_modem _ _ _ _ Hrg), (LocApiTrack.re_wanted _ _ _ _ Hrg) by auto.
    unfold LocApiTrack.adjustMaskIfNoSessionOrEngineOff. by rewrite Ei, Hm. }
  split; [done|]. intros Hc%Hn. rewrite E. by apply batch_full_events.
Qed.

(** ** A routine session is started *)

(** The adapter's task runs its only message. *)
Lemma task_step_one f (w : BW) p m w1 :
  task w = [p] → heap w !! p = Some m →
  proc f m (set_task (heap w) (next w) [] w) = Done tt w1 → heap w1 !! p = Some m →
  task_step f w = Done tt (set_task (delete p (heap w1)) (next w1) (task w1) w1).
Proof.
  intros Et Ep E1 Ep1. unfold task_step. rewrite (bind_done _ _ w [p] w) by (unfold gets; by rewrite Et).
  rewrite (bind_done _ _ w tt (set_task (heap w) (next w) [] w)) by done.
  rewrite (bind_done _ _ _ m (set_task (heap w) (next w) [] w)) by (apply deref_done; done).
  rewrite (bind_done _ _ _ _ _ E1). unfold delete_msg. by rewrite Ep1.
Qed.

Lemma startBatching_total modem id o acc t a :
  ∃ err a', LocApiBatch.startBatching modem id o acc t a = Done err a'.
Proof.
  unfold LocApiBatch.startBatching, setOperationMode, queryBatchBuffer, LOC_SEND_SYNC_REQ. mrun.
  repeat (case_match; simplify_eq/=); eauto.
Qed.

#[local] Existing Instance LocApiTrack.registering_preorder.
Section start_answered.
Context (modem : Modem) (f : Features) (c : client) (cb : LocationCallbacks) (o : BatchingOptions).
Context (Hbatch : batchingCb cb = true) (Hresp : responseCb cb = true) (Hsize : options_size o ≠ 0)
        (Ho : routine o) (Hf : msg_DISTANCE_BASE_LOCATION_BATCHING f = true).

(** The client is known, and so is the engine, which is not locked. *)
Record Ready (w : BW) : Prop := {
  re_client : mClientData (base w) !! c = Some cb;
  re_known : mIsEngineCapabilitiesKnown (base w) = true;
  re_lock : lock w = ENGINE_LOCK_STATE_ENABLED }.

Definition pending_of (err : LocationError) (p : positive) : list positive :=
  if decide (err = LOCATION_ERROR_GNSS_DISABLED) then [p] else [].

(** The LocApi's queue after an update of the event mask, or none. *)
Definition opens (l : list (ApiMsg BApi)) : Prop := l = [] ∨ l = [LocOpenMsg].

Lemma startBatching_run id p (w : BW) :
  ∃ l b, opens l ∧ startBatching c id o p w = Done tt
    (set_apiTask (apiTask w ++ l ++ [ApiOwn (ApiStartBatching id o (ACCURACY (conf (st w))) (BATCH_SESSION_TIMEOUT (conf (st w)))
                                               (RStarted c id o p))])
       (set_st (saveBatchingSession c id o (st w)) (set_base b w))) ∧
    (∃ m, b = set_evtMask m (base w)).
Proof.
  unfold startBatching, register_batch_full, updateEvtMask, sendApi, when. mrun.
  destruct (auto_report o && _); simpl.
  - eexists [LocOpenMsg], _. split; [by right|]. split; [by rewrite <-app_assoc|by eexists].
  - exists [], (base w). split; [by left|]. split; [by destruct w|]. exists (mEvtMask (base w)). by destruct (base w).
Qed.

Lemma proc_start_run id p (w : BW) :
  Ready w → heap w !! p = Some (Own (MsgStartBatching c id o)) → task w = [p] → apiTask w = [] →
  (p < next w)%positive →
  ∃ w' l, task_step f w = Done tt w' ∧ Ready w' ∧ task w' = [] ∧ opens l ∧
    apiTask w' = l ++ [ApiOwn (ApiStartBatching id o (ACCURACY (conf (st w))) (BATCH_SESSION_TIMEOUT (conf (st w)))
                                 (RStarted c id o (Some (next w))))] ∧
    heap w' !! next w = Some (Own (MsgStartBatching c id o)) ∧ next w' = Pos.succ (next w) ∧
    st w' = saveBatchingSession c id o (st w) ∧ out w' = out w ∧ api w' = api w ∧
    mPendingGnssEnabledMsgs (base w') = mPendingGnssEnabledMsgs (base w).
Proof.
  intros [Hc Hk Hl] Hp Ht Ha Hlt.
  set (w1 := set_task (heap w) (next w) [] w).
  set (w2 := set_task (<[next w := Own (MsgStartBatching c id o)]> (heap w)) (Pos.succ (next w)) [] w).
  destruct (startBatching_run id (Some (next w)) w2) as (l & b & Hopen & E & m & ->).
  assert (E1 : proc f (Own (MsgStartBatching c id o)) w1 = startBatching c id o (Some (next w)) w2).
  { cbn [proc own_proc BatchingAdapter ba_proc]. unfold when_known.
    rewrite (bind_done _ _ w1 (base w) w1) by done. rewrite Hk. unfold proc_start.
    assert (Hok : hasBatchingCallback c w1 && negb (options_size o =? 0) && msg_DISTANCE_BASE_LOCATION_BATCHING f = true).
    { unfold hasBatchingCallback. simpl. rewrite Hc, Hf, Hbatch. apply Z.eqb_neq in Hsize. by rewrite Hsize. }
    rewrite (bind_done _ _ w1 true w1) by (unfold gets; by rewrite Hok). unfold when.
    destruct (batchingMode o) eqn:Em; [| by destruct (Ho Em) |];
      by rewrite (bind_done _ _ w1 (next w) w2). }
  rewrite E in E1. eexists _, l. split.
  { apply (task_step_one f w p _ _ Ht Hp E1). simpl. by rewrite lookup_insert_ne by lia. }
  split; [by split|]. simpl. rewrite Ha. split_and!; try done.
  rewrite lookup_delete_ne by lia. by rewrite lookup_insert_eq.
Qed.

Lemma api_open_run (w : BW) q : apiTask w = LocOpenMsg :: q →
  ∃ a, LocApiTrack.registering (api w) a ∧ api_step modem f w = Done tt (set_api a (set_apiTask q w)).
Proof.
  intros E. destruct (LocApiTrack.open_registering modem (msg_BATCHED_GENFENCE_BREACH f) (gnssConstellationConfig f)
      (mEvtMask (base w)) (api w)) as (ok & a & Ea & Hr).
  exists a. split; [done|]. unfold api_step. rewrite (bind_done _ _ w (apiTask w) w) by done. rewrite E.
  rewrite (bind_done _ _ w tt (set_apiTask q w)) by done. unfold open_api.
  rewrite (bind_done _ _ _ (mEvtMask (base w)) (set_apiTask q w)) by done.
  rewrite (bind_done _ _ _ ok (set_api a (set_apiTask q w))); [done|]. unfold run_api. simpl. by rewrite Ea.
Qed.

Lemma api_start_run (w : BW) id a t r err a' :
  apiTask w = [ApiOwn (ApiStartBatching id o a t r)] →
  LocApiBatch.startBatching modem id o a t (api w) = Done err a' →
  api_step modem f w = Done tt (set_task (<[next w := Own (Response r err)]> (heap w)) (Pos.succ (next w)) (task w ++ [next w])
                                (set_api a' (set_apiTask [] w))).
Proof.
  intros E Es. unfold api_step. rewrite (bind_done _ _ w (apiTask w) w) by done. rewrite E.
  rewrite (bind_done _ _ w tt (set_apiTask [] w)) by done. cbn [own_api BatchingAdapter]. unfold ba_api, respond.
  rewrite (bind_done _ _ _ (batch_fuel (api w)) (set_apiTask [] w)) by done.
  rewrite (bind_done _ _ _ err (set_api a' (set_apiTask [] w))); [done|].
  unfold run_api. simpl. by rewrite Es.
Qed.

Lemma proc_started_run id p m err (w : BW) :
  Ready w → heap w !! p = Some m →
  ∃ w' l, proc_started c id o (Some p) err w = Done tt w' ∧ Ready w' ∧ opens l ∧
    task w' = task w ∧ apiTask w' = apiTask w ++ l ∧ next w' = next w ∧
    (∀ q, q ≠ p ∨ err = LOCATION_ERROR_GNSS_DISABLED → heap w' !! q = heap w !! q) ∧
    st w' = (if decide (err = LOCATION_ERROR_SUCCESS) then st w else eraseBatchingSession c id (st w)) ∧
    out w' = out w ++ [EvOwn (EvResponse c err id)] ∧ api w' = api w ∧
    mPendingGnssEnabledMsgs (base w') = mPendingGnssEnabledMsgs (base w) ++ pending_of err p.
Proof.
  intros [Hc Hk Hl] Hp. unfold proc_started. rewrite (bind_done _ _ w (lock w) w) by done. rewrite Hl.
  set (s1 := if decide (err = LOCATION_ERROR_SUCCESS) then st w else eraseBatchingSession c id (st w)).
  set (w1 := set_st s1 w).
  rewrite (bind_done _ _ w tt w1).
  2: { unfold w1, s1, when. rewrite bool_decide_true by done. simpl.
       destruct (decide (err = LOCATION_ERROR_SUCCESS)) as [->|Hne]; [by destruct w|]. by rewrite bool_decide_true. }
  rewrite (bind_done _ _ w1 (autoReportBatchingSessionsCount s1) w1) by done.
  assert (Hun : ∀ b, ∃ w2 l, unregister_batch_full b w1 = Done tt w2 ∧ opens l ∧ st w2 = s1 ∧ heap w2 = heap w ∧
    next w2 = next w ∧ task w2 = task w ∧ apiTask w2 = apiTask w ++ l ∧ api w2 = api w ∧ lock w2 = lock w ∧ out w2 = out w ∧
    mClientData (base w2) = mClientData (base w) ∧ mIsEngineCapabilitiesKnown (base w2) = mIsEngineCapabilitiesKnown (base w) ∧
    mPendingGnssEnabledMsgs (base w2) = mPendingGnssEnabledMsgs (base w)).
  { intros []; [eexists _, [LocOpenMsg]; split; [reflexivity|]; split; [by right|done]|].
    eexists w1, []. split; [done|]. split; [by left|]. by rewrite app_nil_r. }
  match goal with |- context [unregister_batch_full ?b] =>
    destruct (Hun b) as (w2 & l & E2 & Hop & Es & Eh & En & Et & Ea & Eapi & El & Eo & Ec & Ek & Eg) end.
  rewrite (bind_done _ _ _ _ _ E2).
  assert (Hre : ∀ w3, mClientData (base w3) = mClientData (base w) →
    reportResponse c err id w3 = Done tt (set_out (out w3 ++ [EvOwn (EvResponse c err id)]) w3)).
  { intros w3 E3. unfold reportResponse. rewrite (bind_done _ _ w3 (Some cb) w3) by (unfold gets; by rewrite E3, Hc).
    by rewrite Hresp. }
  unfold pending_of. destruct (decide (err = LOCATION_ERROR_GNSS_DISABLED)) as [Eg'|Eg'].
  - eexists _, l. split; [rewrite (bind_done _ _ w2 tt (set_base (set_pendingGnss (mPendingGnssEnabledMsgs (base w2) ++ [p]) (base w2)) w2)) by done; by apply Hre|].
    split; [split; simpl; congruence|]. simpl. rewrite Eh, Eg, Eo. by split_and!.
  - assert (Ed : delete_msg p w2 = Done tt (set_task (delete p (heap w2)) (next w2) (task w2) w2)).
    { unfold delete_msg. by rewrite Eh, Hp. }
    eexists _, l. split; [rewrite (bind_done _ _ _ _ _ Ed); by apply Hre|].
    split; [split; simpl; congruence|]. simpl. rewrite Eh, Eg, Eo, app_nil_r. split_and!; try done.
    intros q [Hq|?]; [by rewrite lookup_delete_ne|done].
Qed.

(** The LocApi sends the request and the answer. *)
Lemma api_phase id a t (r : Resp) l (w : BW) :
  Ready w → task w = [] → opens l → apiTask w = l ++ [ApiOwn (ApiStartBatching id o a t r)] →
  ∃ a0 err a' w', LocApiTrack.registering (api w) a0 ∧ LocApiBatch.startBatching modem id o a t a0 = Done err a' ∧
    execs modem f [LApi; LApi] w = Done tt w' ∧ Ready w' ∧ task w' = [next w] ∧ apiTask w' = [] ∧
    heap w' = <[next w := Own (Response r err)]> (heap w) ∧ st w' = st w ∧ out w' = out w ∧ api w' = a' ∧
    mPendingGnssEnabledMsgs (base w') = mPendingGnssEnabledMsgs (base w).
Proof.
  intros [] Et Hl Ea. destruct Hl as [->| ->]; cbn [execs exec].
  - destruct (startBatching_total modem id o a t (api w)) as (err & a' & Es). exists (api w), err, a'.
    rewrite (bind_done _ _ _ _ _ (api_start_run w id _ _ r err a' Ea Es)).
    unfold api_step. mrun. eexists. split; [reflexivity|]. split; [done|]. split; [reflexivity|].
    split; [by split|]. simpl. by rewrite Et.
  - destruct (api_open_run w _ Ea) as (a0 & Hr & E0). rewrite (bind_done _ _ _ _ _ E0).
    set (w1 := set_api a0 (set_apiTask _ w)).
    destruct (startBatching_total modem id o a t a0) as (err & a' & Es). exists a0, err, a'.
    rewrite (bind_done _ _ _ _ _ (api_start_run w1 id _ _ r err a' eq_refl Es)).
    eexists. split; [done|]. split; [done|]. split; [reflexivity|]. split; [by split|]. simpl. by rewrite Et.
Qed.

(** The LocApi registers the event mask, if it has to. *)
Lemma open_phase l (w : BW) :
  opens l → apiTask w = l →
  ∃ w', api_step modem f w = Done tt w' ∧ apiTask w' = [] ∧ task w' = task w ∧ heap w' = heap w ∧ st w' = st w ∧
    out w' = out w ∧ LocApiTrack.registering (api w) (api w') ∧ base w' = base w.
Proof.
  intros [->| ->] Ea.
  - exists w. split; [unfold api_step; mrun; by rewrite Ea|]. by split_and!.
  - destruct (api_open_run w [] Ea) as (a & Hr & E). eexists. by split; [exact E|].
Qed.

(** The adapter handles the answer. *)
Lemma answer_phase id p q m err (w : BW) :
  Ready w → task w = [q] → apiTask w = [] → p ≠ q → heap w !! p = Some m →
  heap w !! q = Some (Own (Response (RStarted c id o (Some p)) err)) →
  ∃ w' l, task_step f w = Done tt w' ∧ opens l ∧ task w' = [] ∧ apiTask w' = l ∧
    (err = LOCATION_ERROR_GNSS_DISABLED → heap w' !! p = Some m) ∧
    st w' = (if decide (err = LOCATION_ERROR_SUCCESS) then st w else eraseBatchingSession c id (st w)) ∧
    out w' = out w ++ [EvOwn (EvResponse c err id)] ∧ api w' = api w ∧
    mPendingGnssEnabledMsgs (base w') = mPendingGnssEnabledMsgs (base w) ++ pending_of err p.
Proof.
  intros [] Et Ea Hpq Hp Hq. set (w0 := set_task (heap w) (next w) [] w).
  destruct (proc_started_run id p m err w0) as (w1 & l & E & _ & Hl & Et1 & Ea1 & En1 & Eh1 & Es1 & Eo1 & Eapi1 & Eg1);
    [by split|done|].
  eexists _, l. split.
  { apply (task_step_one f w q (Own (Response (RStarted c id o (Some p)) err)) w1 Et Hq E).
    rewrite Eh1; [done|by left]. }
  simpl. simpl in Ea1. rewrite Ea in Ea1. split_and!; try done.
  intros Hg. rewrite lookup_delete_ne by done. rewrite Eh1; [done|by right].
Qed.
End start_answered.

(** What an answered start leaves. Before and after the request the LocApi may register for
    events; [p] is the copy of the command kept for a locked engine. *)
Record Started (modem : Modem) (c : client) (o : BatchingOptions) (w w' : BW) : Prop := {
  sd_answer : ∃ id err a0 a p,
    LocApiTrack.registering (api w) a0 ∧
    LocApiBatch.startBatching modem id o (ACCURACY (conf (st w))) (BATCH_SESSION_TIMEOUT (conf (st w))) a0 = Done err a ∧
    LocApiTrack.registering a (api w') ∧ out w' = out w ++ [EvOwn (EvSession c id); EvOwn (EvResponse c err id)] ∧
    st w' = (let s := saveBatchingSession c id o (st w) in
             if decide (err = LOCATION_ERROR_SUCCESS) then s else eraseBatchingSession c id s) ∧
    mPendingGnssEnabledMsgs (base w') = mPendingGnssEnabledMsgs (base w) ++ pending_of err p ∧
    (err = LOCATION_ERROR_GNSS_DISABLED → heap w' !! p = Some (Own (MsgStartBatching c id o)));
  sd_task : task w' = [];
  sd_apiTask : apiTask w' = [] }.

Definition steps_of_start : list (Label (C:=BCall)) := [LTask; LApi; LApi; LTask; LApi].

(** C9: a routine session that can be started is answered on every outcome. From empty queues, for
    a client with a batching and a response callback and options whose size is set, while the
    capabilities of the engine are known, batching among them, and its lock is reported as enabled:
    whatever the modem answers, five turns of the tasks give the client exactly one answer, that of
    the LocApi; keep the session exactly when that is a success; put the command aside exactly when
    it is that GNSS is disabled; and leave the queues empty. (Without these the command is dropped
    unanswered or waits for the engine, and under a lock that is reported a refused session is
    kept.) *)
Theorem batch_start_answered modem f (w : BW) c cb o :
  batchingCb cb = true → responseCb cb = true → options_size o ≠ 0 → routine o →
  msg_DISTANCE_BASE_LOCATION_BATCHING f = true → Ready c cb w → task w = [] → apiTask w = [] →
  ∃ w1 w2, exec modem f (LCall (CStart c o)) w = Done tt w1 ∧
    execs modem f steps_of_start w1 = Done tt w2 ∧ Started modem c o w w2.
Proof.
  intros Hb Hr Hs Ho Hf [Rc Rk Rl] Et Ea.
  set (id := let n := uwrap 32 (mSessionIdCounter (base w) + 1) in if n =? 0xFFFFFFFF then 1 else n).
  set (p := next w).
  set (w1 := set_out (out w ++ [EvOwn (EvSession c id)])
    (set_task (<[p := Own (MsgStartBatching c id o)]> (heap w)) (Pos.succ p) [p] (set_base (set_counter id (base w)) w))).
  assert (E1 : exec modem f (LCall (CStart c o)) w = Done tt w1).
  { cbn [exec call BatchingAdapter ba_call]. unfold startBatchingCommand, generateSessionId, send_new. mrun.
    by rewrite Et. }
  destruct (proc_start_run f c cb o Hb Hs Ho Hf id p w1)
    as (w2 & l & E2 & R2 & Et2 & Hl & Ea2 & Hp2 & En2 & Es2 & Eo2 & Eapi2 & Eg2);
    [by split|by rewrite <-(lookup_insert_eq (heap w) p)|done|done|simpl; lia|].
  simpl in Ea2, Es2, Eo2, Eapi2, Eg2, En2, Hp2. set (p2 := Pos.succ p) in *.
  destruct (api_phase modem f c cb o id _ _ (RStarted c id o (Some p2)) l w2 R2 Et2 Hl Ea2)
    as (a0 & err & a & w3 & Hr0 & Eerr & E3 & R3 & Et3 & Ea3 & Eh3 & Es3 & Eo3 & Eapi3 & Eg3).
  destruct (answer_phase f c cb o Hr id p2 (next w2) (Own (MsgStartBatching c id o)) err w3)
    as (w4 & l' & E4 & Hl' & Et4 & Ea4 & Hp4 & Es4 & Eo4 & Eapi4 & Eg4);
    [done|done|done|rewrite En2; lia|by rewrite Eh3, lookup_insert_ne by (rewrite En2; lia)|by rewrite Eh3, lookup_insert_eq|].
  destruct (open_phase modem f l' w4 Hl' Ea4) as (w5 & E5 & Ea5 & Et5 & Eh5 & Es5 & Eo5 & Eapi5 & Eb5).
  exists w1, w5. split; [done|]. split.
  { cbn [execs exec] in *. unfold steps_of_start. cbn [execs exec]. rewrite (bind_done _ _ _ _ _ E2).
    apply bind_inv in E3 as ([] & wa & Ea' & E3). apply bind_inv in E3 as ([] & wb & Eb' & [= ->]).
    by rewrite (bind_done _ _ _ _ _ Ea'), (bind_done _ _ _ _ _ Eb'), (bind_done _ _ _ _ _ E4), (bind_done _ _ _ _ _ E5). }
  split; [|congruence|done]. exists id, err, a0, a, p2.
  rewrite Eapi2 in Hr0. rewrite Eapi4, Eapi3 in Eapi5. rewrite Eo5, Eo4, Eo3, Eo2, Eb5, Eg4, Eg3, Eg2, Es5, Es4, Es3, Es2, Eh5. simpl.
  rewrite <-app_assoc. by split_and!.
Qed.

(** ** Outdoor trips *)

Lemma distance_of_reset t : distance_of 0 (reset_ongoing t) = uwrap 32 (accumulatedDistanceThisTrip t).
Proof.
  unfold distance_of, reset_ongoing, uadd, usub, uwrap. simpl.
  by rewrite Z.sub_0_r, Z.mod_0_l, Z.add_0_r by done.
Qed.

(** A restart of the trip batch keeps the distance of every trip: when the restart with new
    parameters succeeds, each trip has travelled, at the start of the new batch, what it had at
    the end of the old one, and its own distance and interval are unchanged. *)
Theorem trip_restart_keeps_distance accumulated distance interval (w w' : BW) :
  proc_trip_restarted accumulated distance interval LOCATION_ERROR_SUCCESS w = Done tt w' →
  mOngoingTripDistance (st w') = distance ∧ mOngoingTripTBFInterval (st w') = interval ∧
  ∀ id, (∀ t, mTripSessions (st w) !! id = Some t → ∃ t', mTripSessions (st w') !! id = Some t' ∧
           distance_of 0 t' = distance_of accumulated t ∧ accumulatedDistanceThisTrip t' = distance_of accumulated t ∧
           tripDistance t' = tripDistance t ∧ tripTBFInterval t' = tripTBFInterval t) ∧
        (mTripSessions (st w) !! id = None → mTripSessions (st w') !! id = None).
Proof.
  intros [= <-]. simpl. split_and!; try done. intros id. rewrite lookup_fmap. split; [|by intros ->].
  intros t ->. simpl. eexists. split; [done|]. rewrite distance_of_reset. simpl. split_and!; try done.
  unfold distance_of, uadd, uwrap. by rewrite Z.mod_mod.
Qed.

Lemma completed_loop_ub accumulated ids (w : BW) id t :
  id ∈ ids → NoDup ids → (∀ i, i ∈ ids → is_Some (mTripSessions (st w) !! i)) →
  mTripSessions (st w) !! id = Some t → tripDistance t ≤ distance_of accumulated t →
  completed_loop accumulated ids w = UB.
Proof.
  revert w. induction ids as [|i ids IH]; intros w Hin Hnd Hall Ht Hd; [by apply elem_of_nil in Hin|].
  apply NoDup_cons in Hnd as [Hi Hnd]. cbn [completed_loop].
  destruct (Hall i ltac:(by left)) as [ti Eti]. rewrite (bind_done _ _ w ti w) by by apply deref_done.
  set (w1 := set_st (set_trips (<[i := set_thisTrip (distance_of accumulated ti) ti]> (mTripSessions (st w))) (st w)) w).
  rewrite (bind_done _ _ w tt w1) by done.
  destruct (Z.leb_spec (tripDistance ti) (distance_of accumulated ti)).
  - mrun. by rewrite lookup_delete_eq.
  - apply elem_of_cons in Hin as [->|Hin]; [rewrite Eti in Ht; simplify_eq; lia|].
    apply IH; try done; simpl.
    + intros j Hj. rewrite lookup_insert_ne by (by intros ->). apply Hall. by right.
    + rewrite lookup_insert_ne by (by intros ->). done.
Qed.

(** The completion of a trip is undefined behaviour: whenever the accumulated distance
    completes one of the trips, the handler reads the session it has just erased from the map. *)
Theorem trip_completion_undefined f accumulated id t (w : BW) :
  mTripSessions (st w) !! id = Some t → tripDistance t ≤ distance_of accumulated t →
  proc f (Own (MsgReportCompletedTrips accumulated)) w = UB.
Proof.
  intros Ht Hd. cbn [proc own_proc BatchingAdapter ba_proc]. unfold proc_completed_trips.
  set (ids := (in_order Z.le (mTripSessions (st w))).*1).
  rewrite (bind_done _ _ w ids w) by done.
  assert (Hids : ∀ i, i ∈ ids ↔ is_Some (mTripSessions (st w) !! i)).
  { intros i. unfold ids. rewrite list_elem_of_fmap. split.
    - intros ([j x] & -> & Hx). apply elem_of_in_order in Hx. by eexists.
    - intros [x Hx]. exists (i, x). by rewrite elem_of_in_order. }
  unfold mbind, M_bind. rewrite (completed_loop_ub accumulated ids w id t); [done|..|done|done].
  - apply Hids. by rewrite Ht.
  - apply NoDup_in_order.
  - intros i Hi. by apply Hids.
Qed.

(** ** Concrete executions *)
Definition ind_of (s : qmiLocStatusEnumT_v02) (travelled : Z) : Ind :=
  {| status := s; geofenceId := None; ind_batchSize := 20; ind_numberOfEntries := None;
     batchedReportList := None; ind_accumulatedDistance := travelled; ind_batchedPosition := 0 |}.

(** A modem that refuses the requests of [refused], and says how far the device has travelled. *)
Definition obliging (refused : Request → bool) (travelled : Z) : Modem := λ h,
  (true, ind_of (if match last h with Some r => refused r | None => false end
                 then eQMI_LOC_GENERAL_FAILURE_V02 else eQMI_LOC_SUCCESS_V02) travelled).
Definition nothing (r : Request) : bool := false.
Definition any_stop (r : Request) : bool := match r with StopBatching _ _ => true | _ => false end.
Definition any_trip (r : Request) : bool := match r with StartOutdoorTripBatching _ => true | _ => false end.

Lemma obliging_grants d : grants_stops (obliging nothing d).
Proof. intros h id. unfold obliging. by rewrite last_snoc. Qed.

Definition all_callbacks : LocationCallbacks :=
  {| capabilitiesCb := true; responseCb := true; collectiveResponseCb := true; trackingCb := true;
     batchingCb := true; geofenceBreachCb := true; geofenceStatusCb := true; gnssLocationInfoCb := true;
     gnssNiCb := true; gnssSvCb := true; gnssNmeaCb := true; gnssDataCb := true; gnssMeasurementsCb := true;
     batchingStatusCb := true; locationSystemInfoCb := true; engineLocationsInfoCb := true |}.
Definition batching_features : Features :=
  {| msg_DISTANCE_BASE_LOCATION_BATCHING := true; msg_DISTANCE_BASE_TRACKING := true; msg_BATCHED_GENFENCE_BREACH := true;
     msg_OUTDOOR_TRIP_BATCHING := true; gnssConstellationConfig := false; carrierCapabilities := 0;
     feature_DEBUG_NMEA := false; feature_CONSTELLATION_ENABLEMENT := false; feature_AGPM := false;
     feature_LOCATION_PRIVACY := false; feature_MEASUREMENTS_CORRECTION := false;
     feature_ROBUST_LOCATION := false; feature_EDGNSS := false |}.
Definition options (m : BatchingMode) (distance interval : Z) : BatchingOptions :=
  {| options_size := 24; minInterval := interval; minDistance := distance;
     mode := GNSS_SUPL_MODE_STANDALONE; batchingMode := m |}.
Definition flp_conf : FlpConf :=
  {| BATCH_SIZE := 20; OUTDOOR_TRIP_BATCH_SIZE := 20; BATCH_SESSION_TIMEOUT := 0; ACCURACY := 1 |}.

Definition turns (n : nat) : list (Label (C:=BCall)) := mjoin (replicate n [LTask; LApi]).
(** Client 1 registers, and the engine comes up. *)
Definition engine_up : list (Label (C:=BCall)) := LAddClient 1 all_callbacks :: LCall CEngineUp :: turns 5.
(** A call, and time for it to be answered. *)
Definition answered (c : BCall) : list (Label (C:=BCall)) := LCall c :: turns 5.
Definition run (modem : Modem) (ls : list (Label (C:=BCall))) : outcome BW unit :=
  execs modem batching_features (engine_up ++ ls) (ba_init flp_conf (0, 0)).
Definition own_out (w : BW) : list BEvent := omap (λ e, match e with EvOwn e => Some e | _ => None end) (out w).
Definition start_routine (o : BatchingMode) : BCall := CStart 1 (options o 0 1000).
Definition start_trip (distance interval : Z) : BCall := CStart 1 (options BATCHING_MODE_TRIP distance interval).

Lemma turns_routine n : Forall routine_label (turns n).
Proof. induction n; [constructor|]. constructor; [done|]. by constructor. Qed.
Lemma engine_up_routine : Forall routine_label engine_up.
Proof. constructor; [done|]. constructor; [done|]. apply turns_routine. Qed.
Lemma answered_routine c : routine_label (LCall c) → Forall routine_label (answered c).
Proof. intros. constructor; [done|]. apply turns_routine. Qed.

Lemma batch_full_registered_witness :
  let ls := engine_up ++ answered (start_routine BATCHING_MODE_ROUTINE) in
  (λ w, (autoReportBatchingSessionsCount (st w), length (apiTask w), modemMask w))
    <$> outcome_state (execs (obliging nothing 0) batching_features ls (ba_init flp_conf (0, 0)))
    = Some (1%nat, 0%nat, Z.lor QMI_LOC_EVENT_MASK_BATCHING_STATUS_V02 QMI_LOC_EVENT_MASK_BATCH_FULL_NOTIFICATION_V02) ∧
  ∀ w, execs (obliging nothing 0) batching_features ls (ba_init flp_conf (0, 0)) = Done tt w → apiTask w = [] →
    autoReportBatchingSessionsCount (st w) ≠ 0%nat →
    registered w ∧ test_bits (modemMask w) QMI_LOC_EVENT_MASK_BATCH_FULL_NOTIFICATION_V02 = true.
Proof.
  split; [by vm_compute|]. intros w E Eq Hc.
  destruct (batch_full_registered (obliging nothing 0) batching_features flp_conf (0, 0) _ w
              (obliging_grants 0) (λ _ _, eq_refl) (ltac:(by apply Forall_app; split; [apply engine_up_routine|apply answered_routine]) : Forall routine_label (engine_up ++ answered (start_routine BATCHING_MODE_ROUTINE))) E) as [H1 H2].
  split; [by apply H1|]. by apply (proj2 (H2 Eq)).
Defined.

(** An adapter whose only client is known, with the engine up. *)
Definition ready_world : BW :=
  mkWorld (st (ba_init flp_conf (0, 0)))
    {| mIsEngineCapabilitiesKnown := true; mEvtMask := 0; mClientData := {[1%positive := all_callbacks]};
       mSessionIdCounter := 1; mPendingMsgs := []; mPendingGnssEnabledMsgs := [] |}
    ∅ 1 [] [] (api_opened 0 false) ENGINE_LOCK_STATE_ENABLED [].

Lemma batch_start_answered_witness :
  ∃ w1 w2, exec (obliging nothing 0) batching_features (LCall (start_routine BATCHING_MODE_ROUTINE)) ready_world = Done tt w1 ∧
    execs (obliging nothing 0) batching_features steps_of_start w1 = Done tt w2 ∧
    Started (obliging nothing 0) 1 (options BATCHING_MODE_ROUTINE 0 1000) ready_world w2.
Proof.
  apply (batch_start_answered (obliging nothing 0) batching_features ready_world 1 all_callbacks
           (options BATCHING_MODE_ROUTINE 0 1000)); try reflexivity; try done.
Defined.

(** A trip of 1000 metres, 600 of which are travelled, 250 of them in the ongoing batch. *)
Definition a_trip : TripSessionStatus := mkTrip 50 350 400 1000 2000.
Definition trip_world : BW := set_st (set_trips {[7 := a_trip]} (st ready_world)) ready_world.

Lemma trip_restart_keeps_distance_witness :
  distance_of 250 a_trip = 600 ∧
  ∃ w', proc_trip_restarted 250 400 1000 LOCATION_ERROR_SUCCESS trip_world = Done tt w' ∧
    ∃ t', mTripSessions (st w') !! 7 = Some t' ∧ distance_of 0 t' = 600.
Proof.
  split; [reflexivity|]. eexists. split; [reflexivity|].
  destruct (trip_restart_keeps_distance 250 400 1000 trip_world _ eq_refl) as (_ & _ & H).
  destruct (proj1 (H 7) a_trip eq_refl) as (t' & E & D & _). exists t'. split; [exact E|]. rewrite D. reflexivity.
Defined.

Lemma trip_completion_undefined_witness :
  distance_of 700 a_trip = 1050 ∧
  proc batching_features (Own (MsgReportCompletedTrips 700)) trip_world = UB.
Proof.
  split; [reflexivity|].
  apply (trip_completion_undefined batching_features 700 7 a_trip trip_world); [reflexivity|by vm_compute].
Defined.

(** A trip that is stopped stays in the map of the batching sessions: removing its client
    afterwards looks it up among the trips and dereferences the end of the map. *)
Theorem trip_stopped_dangling :
  run (obliging nothing 0) (answered (start_trip 1000 1000) ++ answered (CStop 1 2) ++ LRemoveClient 1 false :: turns 3)
  = UB.
Proof. by vm_compute. Qed.

(** What the multiplexing of trips gets wrong, with a modem that works: (1) a second trip
    cannot be stopped, and the client is not told; (2) a trip that joins while the start of the
    first is still to fail is reported as started, although nothing runs and the event is not
    registered; (3) a faster trip that joins after 600 metres forgets what the first one has
    travelled; and (4) a refused stop restores the session with default options, which are
    reported automatically, without registering the event. *)
Theorem batching_goes_wrong :
  let trips w := (λ p, (p.1, distance_of 0 p.2)) <$> map_to_list (mTripSessions (st w)) in
  let view w := (own_out w, trips w, Z.testbit (mEvtMask (base w)) LOC_API_ADAPTER_BATCH_FULL) in
  let ok c id := EvResponse c LOCATION_ERROR_SUCCESS id in
  let failed c id := EvResponse c LOCATION_ERROR_GENERAL_FAILURE id in
  (view <$> outcome_state (run (obliging nothing 0)
     (answered (start_trip 1000 1000) ++ answered (start_trip 5000 1000) ++ answered (CStop 1 3))))
    = Some ([EvSession 1 2; ok 1%positive 2; EvSession 1 3; ok 1%positive 3], [(3, 0); (2, 0)], true) ∧
  (view <$> outcome_state (run (obliging any_trip 0)
     (LCall (start_trip 1000 1000) :: answered (start_trip 5000 1000))))
    = Some ([EvSession 1 2; EvSession 1 3; failed 1%positive 2; ok 1%positive 3], [(3, 0)], false) ∧
  (view <$> outcome_state (run (obliging nothing 600)
     (answered (start_trip 1000 2000) ++ answered (start_trip 5000 1000))))
    = Some ([EvSession 1 2; ok 1%positive 2; EvSession 1 3; ok 1%positive 3], [(3, 0); (2, 0)], true) ∧
  (λ w, (view w, (λ p, batchingMode p.2) <$> map_to_list (mBatchingSessions (st w))))
    <$> outcome_state (run (obliging any_stop 0)
     (answered (start_routine BATCHING_MODE_NO_AUTO_REPORT) ++ answered (CStop 1 2)))
    = Some (([EvSession 1 2; ok 1%positive 2; failed 1%positive 2], [], false), [BATCHING_MODE_ROUTINE]).
Proof. split_and!; by vm_compute. Qed.
