(* ===== verification/Tracking.v ===== *)
(** * GnssAdapter : the tracking sessions of the clients.

    The part of GnssAdapter.cpp that multiplexes the time-based sessions of all the clients onto
    the single tracking session of the modem, forwards the distance-based ones, and keeps both
    over restarts of the modem and changes of its configuration. The adapter is an instance of the
    interface of LocAdapter; its requests are the operations of LocApiTrack. Its calls of the
    engine hub (a library loaded at run time), of the source of DGNSS corrections and of the parts
    of GnssAdapter that are not modelled are recorded as events. *)
From S2P Require Import Prelude PbEnums LocApi LocApiBatch LocApiTrack LocAdapter.
Local Open Scope Z_scope.

(** ** The data *)
Inductive LocPositionMode :=
  | LOC_POSITION_MODE_INVALID | LOC_POSITION_MODE_STANDALONE | LOC_POSITION_MODE_MS_BASED | LOC_POSITION_MODE_MS_ASSISTED.
Inductive LocGpsPositionRecurrence := LOC_GPS_POSITION_RECURRENCE_PERIODIC | LOC_GPS_POSITION_RECURRENCE_SINGLE.
#[export] Instance LocPositionMode_eq : EqDecision LocPositionMode.
Proof. solve_decision. Defined.
#[export] Instance LocGpsPositionRecurrence_eq : EqDecision LocGpsPositionRecurrence.
Proof. solve_decision. Defined.

Record LocPosMode := mkLocPosMode {
  pm_mode : LocPositionMode; pm_recurrence : LocGpsPositionRecurrence; pm_min_interval : Z;
  pm_preferred_accuracy : Z; pm_preferred_time : Z; pm_share_position : bool;
  pm_credentials : string; pm_provider : string; pm_powerMode : GnssPowerMode;
  pm_timeBetweenMeasurements : Z }.

Definition GPS_DEFAULT_FIX_INTERVAL_MS : Z := 1000.
Definition LocPosMode_default : LocPosMode :=
  mkLocPosMode LOC_POSITION_MODE_MS_BASED LOC_GPS_POSITION_RECURRENCE_PERIODIC GPS_DEFAULT_FIX_INTERVAL_MS
    50 120000 true EmptyString EmptyString GNSS_POWER_MODE_INVALID GPS_DEFAULT_FIX_INTERVAL_MS.
Definition LocPosMode_equals (a b : LocPosMode) : bool :=
  bool_decide (pm_mode a = pm_mode b) && bool_decide (pm_recurrence a = pm_recurrence b) &&
  (pm_min_interval a =? pm_min_interval b) && (pm_preferred_accuracy a =? pm_preferred_accuracy b) &&
  (pm_preferred_time a =? pm_preferred_time b) && bool_decide (pm_powerMode a = pm_powerMode b) &&
  (pm_timeBetweenMeasurements a =? pm_timeBetweenMeasurements b) &&
  String.eqb (pm_credentials a) (pm_credentials b) && String.eqb (pm_provider a) (pm_provider b).

Record GnssNtripConnectionParams := {
  useSSL : bool; hostNameOrIp : string; port : Z; mountPoint : string; username : string;
  password : string; requiresNmeaLocation : bool }.
#[export] Instance GnssNtripConnectionParams_eq : EqDecision GnssNtripConnectionParams.
Proof. solve_decision. Defined.

(** What does not change while the adapter runs: EXTERNAL_DR_ENABLED of the configuration,
    whether the library of the engine hub is there, whether the AGPS and the ODCPI callbacks have
    been registered, whether latencies are logged, mNmeaMask (setConfig, which writes it, is one of
    the calls that are recorded only), whether system information is cached, the QWES features,
    and the power state. *)
Record Env := {
  EXTERNAL_DR_ENABLED : bool; engHub : bool; agpsRegistered : bool; odcpiRequestCb : bool;
  logEnabled : bool; mNmeaMask : Z; systemInfo : bool; qwesFeatures : Z; powerStateKnown : bool }.

Record Tracking := mkTracking {
  mTimeBasedTrackingSessions : gmap LocationSessionKey TrackingOptions;
  mDistanceBasedTrackingSessions : gmap LocationSessionKey LocationOptions;
  mLocPositionMode : LocPosMode;
  mNHzNeeded : bool;
  mSPEAlreadyRunningAtHighestInterval : bool;
  mPowerOn : bool;
  mPowerStateCb : bool;                       (* whether it is non-null *)
  mOdcpiRequestActive : bool;
  mPrevNmeaRptTimeNsec : Z;
  mDgnssState : Z;
  mSendNmeaConsent : bool;
  ntripParams : GnssNtripConnectionParams;
  nmea : string;
  mDgnssLastNmeaBootTimeMilli : Z;
  bootTime : Z;                               (* getBootTimeMilliSec *)
  env : Env }.

(** The closures given to the LocApi as responses. *)
Inductive Resp :=
  | RStartTimeBased (c : client) (id : Z)
  | RUpdate (c : client) (id : Z) (oldOptions : TrackingOptions)
  | RStopFix (c : client) (id : Z)
  | RStartDistance (c : client) (id : Z)
  | RSwitchToTimeBased (c : client) (id : Z) (options : TrackingOptions)
  | RRestartDistance (c : client) (id : Z) (options : TrackingOptions)
  | RRestartedDistance (c : client) (id : Z) (options : TrackingOptions)
  | RStopDistance (c : client) (id : Z)
  | RStopClient (c : client) (id : Z)
  | RIgnore.

(** The messages of the adapter's task. *)
Inductive TMsg :=
  | MsgReadConfig
  | MsgAddClientInfo (c : client) (callbacks : LocationCallbacks)
  | MsgEngineLockStateEvent (k : EngineLockState)
  | MsgHandleEngineUpEvent
  | MsgStartTracking (c : client) (id : Z) (options : TrackingOptions)
  | MsgUpdateTracking (c : client) (id : Z) (options : TrackingOptions)
  | MsgStopTracking (c : client) (id : Z)
  | MsgPowerStateChanges (powerStateCb : bool)
  | MsgConfigMinGpsWeek
  | MsgEnableNtrip (params : GnssNtripConnectionParams)
  | MsgDisableNtrip
  | Response (r : Resp) (err : LocationError).

(** The messages of the LocApi's task. *)
Inductive TApi :=
  | ApiStartTimeBasedTracking (options : TrackingOptions) (r : option Resp)
  | ApiStopFix (r : option Resp)
  | ApiStartDistanceBasedTracking (id : Z) (options : LocationOptions) (r : Resp)
  | ApiStopDistanceBasedTracking (id : Z) (r : Resp)
  | ApiSetNmeaMask (mask : Z)
  | ApiEngineState (engineOn : bool)
  | ApiSsr.

(** What leaves the adapter. [EvCall] is a call of code that is not modelled. *)
Inductive OtherCall :=
  | setConfig | gnssSvIdConfigUpdate | gnssSvTypeConfigUpdate | updateSystemPowerState
  | gnssSecondaryBandConfigUpdate | initCDFWService | configMinGpsWeek.
Inductive TEvent :=
  | EvResponse (c : client) (err : LocationError) (id : Z)
  | EvSession (c : client) (id : Z)
  | EvPowerState (on : bool)
  | EvSystemInfo (c : client)
  | EvSetFixMode (mode : LocPosMode)
  | EvStartFix
  | EvStopFix
  | EvStartDgnssSource (params : GnssNtripConnectionParams) (nmea : string)
  | EvUpdateNmea (nmea : string)
  | EvStopDgnssSource
  | EvCall (f : OtherCall).

Inductive TCall :=
  | CAddClient (c : client) (callbacks : LocationCallbacks)
  | CStart (c : client) (options : TrackingOptions)
  | CUpdate (c : client) (id : Z) (options : TrackingOptions)
  | CStop (c : client) (id : Z)
  | CPowerStateChanges (powerStateCb : bool)
  | CConfigMinGpsWeek
  | CEnableNtrip (params : GnssNtripConnectionParams)
  | CDisableNtrip
  | CNtripConsent (consentAccepted : bool)
  | CUpdateNHz (nHzNeeded nHzMeasNeeded : bool)
  | CEngineLock (k : EngineLockState)
  | CEngineState (engineOn : bool)
  | CModemRestart
  | CClock (t : Z).

Abbreviation TW := (World Tracking TMsg TApi TEvent) (only parsing).

Definition MIN_TRACKING_INTERVAL : Z := 100.
Definition TRACKING_TBM_THRESHOLD_MILLIS : Z := 480000.
Definition LOC_NMEA_MASK_DEBUG_V02 : Z := 0x20000.
Definition DGNSS_STATE_ENABLE_NTRIP_COMMAND : Z := 0x1.
Definition DGNSS_STATE_NO_NMEA_PENDING : Z := 0x2.
Definition DGNSS_STATE_NTRIP_SESSION_STARTED : Z := 0x4.
Definition DGNSS_RANGE_UPDATE_TIME_10MIN_IN_MILLI : Z := 600000.

(** ** Setters *)
Definition set_time (m : gmap LocationSessionKey TrackingOptions) (s : Tracking) : Tracking :=
  mkTracking m (mDistanceBasedTrackingSessions s) (mLocPositionMode s) (mNHzNeeded s)
    (mSPEAlreadyRunningAtHighestInterval s) (mPowerOn s) (mPowerStateCb s) (mOdcpiRequestActive s)
    (mPrevNmeaRptTimeNsec s) (mDgnssState s) (mSendNmeaConsent s) (ntripParams s) (nmea s)
    (mDgnssLastNmeaBootTimeMilli s) (bootTime s) (env s).
Definition set_distance (m : gmap LocationSessionKey LocationOptions) (s : Tracking) : Tracking :=
  mkTracking (mTimeBasedTrackingSessions s) m (mLocPositionMode s) (mNHzNeeded s)
    (mSPEAlreadyRunningAtHighestInterval s) (mPowerOn s) (mPowerStateCb s) (mOdcpiRequestActive s)
    (mPrevNmeaRptTimeNsec s) (mDgnssState s) (mSendNmeaConsent s) (ntripParams s) (nmea s)
    (mDgnssLastNmeaBootTimeMilli s) (bootTime s) (env s).
Definition set_mode (m : LocPosMode) (s : Tracking) : Tracking :=
  mkTracking (mTimeBasedTrackingSessions s) (mDistanceBasedTrackingSessions s) m (mNHzNeeded s)
    (mSPEAlreadyRunningAtHighestInterval s) (mPowerOn s) (mPowerStateCb s) (mOdcpiRequestActive s)
    (mPrevNmeaRptTimeNsec s) (mDgnssState s) (mSendNmeaConsent s) (ntripParams s) (nmea s)
    (mDgnssLastNmeaBootTimeMilli s) (bootTime s) (env s).
Definition set_nhz (b : bool) (s : Tracking) : Tracking :=
  mkTracking (mTimeBasedTrackingSessions s) (mDistanceBasedTrackingSessions s) (mLocPositionMode s) b
    (mSPEAlreadyRunningAtHighestInterval s) (mPowerOn s) (mPowerStateCb s) (mOdcpiRequestActive s)
    (mPrevNmeaRptTimeNsec s) (mDgnssState s) (mSendNmeaConsent s) (ntripParams s) (nmea s)
    (mDgnssLastNmeaBootTimeMilli s) (bootTime s) (env s).
Definition set_spe (b : bool) (s : Tracking) : Tracking :=
  mkTracking (mTimeBasedTrackingSessions s) (mDistanceBasedTrackingSessions s) (mLocPositionMode s)
    (mNHzNeeded s) b (mPowerOn s) (mPowerStateCb s) (mOdcpiRequestActive s) (mPrevNmeaRptTimeNsec s)
    (mDgnssState s) (mSendNmeaConsent s) (ntripParams s) (nmea s) (mDgnssLastNmeaBootTimeMilli s)
    (bootTime s) (env s).
Definition set_powerOn (b : bool) (s : Tracking) : Tracking :=
  mkTracking (mTimeBasedTrackingSessions s) (mDistanceBasedTrackingSessions s) (mLocPositionMode s)
    (mNHzNeeded s) (mSPEAlreadyRunningAtHighestInterval s) b (mPowerStateCb s) (mOdcpiRequestActive s)
    (mPrevNmeaRptTimeNsec s) (mDgnssState s) (mSendNmeaConsent s) (ntripParams s) (nmea s)
    (mDgnssLastNmeaBootTimeMilli s) (bootTime s) (env s).
Definition set_powerCb (b : bool) (s : Tracking) : Tracking :=
  mkTracking (mTimeBasedTrackingSessions s) (mDistanceBasedTrackingSessions s) (mLocPositionMode s)
    (mNHzNeeded s) (mSPEAlreadyRunningAtHighestInterval s) (mPowerOn s) b (mOdcpiRequestActive s)
    (mPrevNmeaRptTimeNsec s) (mDgnssState s) (mSendNmeaConsent s) (ntripParams s) (nmea s)
    (mDgnssLastNmeaBootTimeMilli s) (bootTime s) (env s).
Definition set_odcpi (b : bool) (s : Tracking) : Tracking :=
  mkTracking (mTimeBasedTrackingSessions s) (mDistanceBasedTrackingSessions s) (mLocPositionMode s)
    (mNHzNeeded s) (mSPEAlreadyRunningAtHighestInterval s) (mPowerOn s) (mPowerStateCb s) b
    (mPrevNmeaRptTimeNsec s) (mDgnssState s) (mSendNmeaConsent s) (ntripParams s) (nmea s)
    (mDgnssLastNmeaBootTimeMilli s) (bootTime s) (env s).
Definition set_prevNmea (t : Z) (s : Tracking) : Tracking :=
  mkTracking (mTimeBasedTrackingSessions s) (mDistanceBasedTrackingSessions s) (mLocPositionMode s)
    (mNHzNeeded s) (mSPEAlreadyRunningAtHighestInterval s) (mPowerOn s) (mPowerStateCb s)
    (mOdcpiRequestActive s) t (mDgnssState s) (mSendNmeaConsent s) (ntripParams s) (nmea s)
    (mDgnssLastNmeaBootTimeMilli s) (bootTime s) (env s).
Definition set_dgnss (z : Z) (s : Tracking) : Tracking :=
  mkTracking (mTimeBasedTrackingSessions s) (mDistanceBasedTrackingSessions s) (mLocPositionMode s)
    (mNHzNeeded s) (mSPEAlreadyRunningAtHighestInterval s) (mPowerOn s) (mPowerStateCb s)
    (mOdcpiRequestActive s) (mPrevNmeaRptTimeNsec s) z (mSendNmeaConsent s) (ntripParams s) (nmea s)
    (mDgnssLastNmeaBootTimeMilli s) (bootTime s) (env s).
Definition set_consent (b : bool) (s : Tracking) : Tracking :=
  mkTracking (mTimeBasedTrackingSessions s) (mDistanceBasedTrackingSessions s) (mLocPositionMode s)
    (mNHzNeeded s) (mSPEAlreadyRunningAtHighestInterval s) (mPowerOn s) (mPowerStateCb s)
    (mOdcpiRequestActive s) (mPrevNmeaRptTimeNsec s) (mDgnssState s) b (ntripParams s) (nmea s)
    (mDgnssLastNmeaBootTimeMilli s) (bootTime s) (env s).
Definition set_ntrip (p : GnssNtripConnectionParams) (s : Tracking) : Tracking :=
  mkTracking (mTimeBasedTrackingSessions s) (mDistanceBasedTrackingSessions s) (mLocPositionMode s)
    (mNHzNeeded s) (mSPEAlreadyRunningAtHighestInterval s) (mPowerOn s) (mPowerStateCb s)
    (mOdcpiRequestActive s) (mPrevNmeaRptTimeNsec s) (mDgnssState s) (mSendNmeaConsent s) p (nmea s)
    (mDgnssLastNmeaBootTimeMilli s) (bootTime s) (env s).
Definition set_nmea (n : string) (s : Tracking) : Tracking :=
  mkTracking (mTimeBasedTrackingSessions s) (mDistanceBasedTrackingSessions s) (mLocPositionMode s)
    (mNHzNeeded s) (mSPEAlreadyRunningAtHighestInterval s) (mPowerOn s) (mPowerStateCb s)
    (mOdcpiRequestActive s) (mPrevNmeaRptTimeNsec s) (mDgnssState s) (mSendNmeaConsent s)
    (ntripParams s) n (mDgnssLastNmeaBootTimeMilli s) (bootTime s) (env s).
Definition set_lastNmea (t : Z) (s : Tracking) : Tracking :=
  mkTracking (mTimeBasedTrackingSessions s) (mDistanceBasedTrackingSessions s) (mLocPositionMode s)
    (mNHzNeeded s) (mSPEAlreadyRunningAtHighestInterval s) (mPowerOn s) (mPowerStateCb s)
    (mOdcpiRequestActive s) (mPrevNmeaRptTimeNsec s) (mDgnssState s) (mSendNmeaConsent s)
    (ntripParams s) (nmea s) t (bootTime s) (env s).
Definition set_clock (t : Z) (s : Tracking) : Tracking :=
  mkTracking (mTimeBasedTrackingSessions s) (mDistanceBasedTrackingSessions s) (mLocPositionMode s)
    (mNHzNeeded s) (mSPEAlreadyRunningAtHighestInterval s) (mPowerOn s) (mPowerStateCb s)
    (mOdcpiRequestActive s) (mPrevNmeaRptTimeNsec s) (mDgnssState s) (mSendNmeaConsent s)
    (ntripParams s) (nmea s) (mDgnssLastNmeaBootTimeMilli s) t (env s).

(** ** Utilities *)
Definition isTimeBasedTrackingSession (c : client) (id : Z) (s : Tracking) : bool :=
  negb (is_null (mTimeBasedTrackingSessions s !! mkKey c id)).
Definition isDistanceBasedTrackingSession (c : client) (id : Z) (s : Tracking) : bool :=
  negb (is_null (mDistanceBasedTrackingSessions s !! mkKey c id)).
Definition hasCallbacksToStartTracking (c : client) (b : Base) : bool :=
  match mClientData b !! c with
  | Some cb => trackingCb cb || gnssLocationInfoCb cb || engineLocationsInfoCb cb || gnssMeasurementsCb cb ||
               gnssDataCb cb || gnssSvCb cb || gnssNmeaCb cb
  | None => false
  end.

Definition emit_own (e : TEvent) : M TW unit := emit (EvOwn e).

Definition reportPowerStateIfChanged : M TW unit :=
  s ← gets st;
  let newPowerOn := negb (bool_decide (mTimeBasedTrackingSessions s = ∅)) ||
                    negb (bool_decide (mDistanceBasedTrackingSessions s = ∅)) in
  when (negb (Bool.eqb newPowerOn (mPowerOn s)))
    (_ ← upd_st (set_powerOn newPowerOn);
     when (mPowerStateCb s) (emit_own (EvPowerState newPowerOn))).

(** A session is distance-based when it has a distance and the modem supports that. *)
Definition is_distance (f : Features) (o : LocationOptions) : bool :=
  (0 <? minDistance o) && msg_DISTANCE_BASE_TRACKING f.

(** The distance-based sessions are kept without power mode and tbm. *)
Definition saveTrackingSession (f : Features) (c : client) (id : Z) (options : TrackingOptions) : M TW unit :=
  _ ← (if is_distance f options
       then upd_st (λ s, set_distance (<[mkKey c id := lo options]> (mDistanceBasedTrackingSessions s)) s)
       else upd_st (λ s, set_time (<[mkKey c id := options]> (mTimeBasedTrackingSessions s)) s));
  reportPowerStateIfChanged.

Definition eraseTrackingSession (c : client) (id : Z) : M TW unit :=
  _ ← upd_st (λ s,
        if isTimeBasedTrackingSession c id s
        then set_time (delete (mkKey c id) (mTimeBasedTrackingSessions s)) s
        else set_distance (delete (mkKey c id) (mDistanceBasedTrackingSessions s)) s);
  reportPowerStateIfChanged.

Definition setLocPositionMode (m : LocPosMode) : M TW unit :=
  upd_st (λ s, if LocPosMode_equals (mLocPositionMode s) m then s else set_mode m s).

Definition reportResponse (c : client) (err : LocationError) (id : Z) : M TW unit :=
  data ← gets (λ w, mClientData (base w) !! c);
  match data with
  | Some cb => when (responseCb cb) (emit_own (EvResponse c err id))
  | None => mret tt
  end.

Definition convertOptions (o : TrackingOptions) : LocPosMode :=
  let d := LocPosMode_default in
  mkLocPosMode
    match mode o with
    | GNSS_SUPL_MODE_MSB => LOC_POSITION_MODE_MS_BASED
    | GNSS_SUPL_MODE_MSA => LOC_POSITION_MODE_MS_ASSISTED
    | GNSS_SUPL_MODE_STANDALONE => LOC_POSITION_MODE_STANDALONE
    end
    (pm_recurrence d) (minInterval o) (pm_preferred_accuracy d) (pm_preferred_time d) true
    (pm_credentials d) (pm_provider d) (powerMode o) (tbm o).

Definition set_minInterval (z : Z) (o : TrackingOptions) : TrackingOptions :=
  mkTrackingOptions (mkLocationOptions (options_size o) z (minDistance o) (mode o) (locReqEngTypeMask o))
    (powerMode o) (tbm o).
Definition set_power (p : GnssPowerMode) (o : TrackingOptions) : TrackingOptions :=
  mkTrackingOptions (lo o) p (tbm o).
(** memset(&options, 0, sizeof(options)) *)
Definition options_zero : TrackingOptions :=
  mkTrackingOptions (mkLocationOptions 0 0 0 GNSS_SUPL_MODE_STANDALONE 0) GNSS_POWER_MODE_INVALID 0.
Definition SIZEOF_TRACKING_OPTIONS : Z := 28.
(** TrackingOptions::setLocationOptions *)
Definition setLocationOptions (l : LocationOptions) (o : TrackingOptions) : TrackingOptions :=
  mkTrackingOptions (mkLocationOptions SIZEOF_TRACKING_OPTIONS (minInterval l) (minDistance l) (mode l)
                       (locReqEngTypeMask l)) (powerMode o) (tbm o).

(** *** DGNSS *)
Definition isDgnssNmeaRequired (s : Tracking) : bool := mSendNmeaConsent s && requiresNmeaLocation (ntripParams s).
Definition isInSession (s : Tracking) : bool := negb (bool_decide (mTimeBasedTrackingSessions s = ∅)).

Definition checkUpdateDgnssNtrip (isLocationValid : bool) : M TW unit :=
  s ← gets st;
  when (isInSession s)
    (if mDgnssState s =? Z.lor DGNSS_STATE_ENABLE_NTRIP_COMMAND DGNSS_STATE_NO_NMEA_PENDING then
       _ ← upd_st (set_dgnss (Z.lor (mDgnssState s) DGNSS_STATE_NTRIP_SESSION_STARTED));
       _ ← emit_own (EvStartDgnssSource (ntripParams s) (nmea s));
       when (isDgnssNmeaRequired s) (upd_st (set_lastNmea (bootTime s)))
     else when (test_bits (mDgnssState s) DGNSS_STATE_NTRIP_SESSION_STARTED && isLocationValid &&
                isDgnssNmeaRequired s &&
                (DGNSS_RANGE_UPDATE_TIME_10MIN_IN_MILLI <? uwrap 64 (bootTime s - mDgnssLastNmeaBootTimeMilli s)))
       (_ ← emit_own (EvUpdateNmea (nmea s));
        upd_st (set_lastNmea (bootTime s)))).

Definition stopDgnssNtrip : M TW unit :=
  _ ← upd_st (set_nmea EmptyString);
  s ← gets st;
  when (test_bits (mDgnssState s) DGNSS_STATE_NTRIP_SESSION_STARTED)
    (_ ← upd_st (set_dgnss (Z.ldiff (mDgnssState s) DGNSS_STATE_NTRIP_SESSION_STARTED));
     emit_own EvStopDgnssSource).

(** NMEA is awaited again, when the source needs it. *)
Definition await_nmea : M TW unit :=
  upd_st (λ s, if isDgnssNmeaRequired s then set_dgnss (Z.ldiff (mDgnssState s) DGNSS_STATE_NO_NMEA_PENDING) s else s).

Definition handleEnablePPENtrip (p : GnssNtripConnectionParams) : M TW unit :=
  s ← gets st;
  if bool_decide (ntripParams s = p) && test_bits (mDgnssState s) DGNSS_STATE_ENABLE_NTRIP_COMMAND then mret tt
  else
    _ ← upd_st (λ s, set_dgnss (Z.ldiff (Z.lor (Z.lor (mDgnssState s) DGNSS_STATE_ENABLE_NTRIP_COMMAND)
                                           DGNSS_STATE_NO_NMEA_PENDING) DGNSS_STATE_NTRIP_SESSION_STARTED) s);
    _ ← upd_st (λ s, set_nmea EmptyString (set_ntrip p s));
    if mSendNmeaConsent s && requiresNmeaLocation p
    then upd_st (λ s, set_lastNmea 0 (set_dgnss (Z.ldiff (mDgnssState s) DGNSS_STATE_NO_NMEA_PENDING) s))
    else checkUpdateDgnssNtrip false.

Definition handleDisablePPENtrip : M TW unit :=
  _ ← upd_st (λ s, set_dgnss (Z.lor (Z.ldiff (mDgnssState s) DGNSS_STATE_ENABLE_NTRIP_COMMAND)
                                 DGNSS_STATE_NO_NMEA_PENDING) s);
  stopDgnssNtrip.

(** ** Multiplexing the time-based sessions *)

(** checkAndSetSPEToRunforNHz: whether the session runs at the highest rate already, and the
    options, whose interval may be shortened. *)
Definition checkAndSetSPEToRunforNHz (out : TrackingOptions) : M TW (bool * TrackingOptions) :=
  s ← gets st;
  if negb (mNHzNeeded s) then mret (false, out)
  else if mSPEAlreadyRunningAtHighestInterval s then mret (true, out)
  else if MIN_TRACKING_INTERVAL <? minInterval out then
    _ ← upd_st (set_spe true); mret (false, set_minInterval MIN_TRACKING_INTERVAL out)
  else mret (false, out).

(** startTimeBasedTracking and updateTracking differ in the response. *)
Definition run_time_based (c : client) (id : Z) (options : TrackingOptions) (r : Resp) : M TW unit :=
  _ ← setLocPositionMode (convertOptions options);
  m ← gets (λ w, mLocPositionMode (st w));
  _ ← emit_own (EvSetFixMode m);
  _ ← emit_own EvStartFix;
  '(running, tempOptions) ← checkAndSetSPEToRunforNHz options;
  if running : bool then reportResponse c LOCATION_ERROR_SUCCESS id
  else sendApi (ApiOwn (ApiStartTimeBasedTracking tempOptions (Some r))).
Definition startTimeBasedTracking (c : client) (id : Z) (options : TrackingOptions) : M TW unit :=
  run_time_based c id options (RStartTimeBased c id).
Definition updateTracking (c : client) (id : Z) (updatedOptions oldOptions : TrackingOptions) : M TW unit :=
  run_time_based c id updatedOptions (RUpdate c id oldOptions).

Definition stopTracking (c : client) (id : Z) : M TW unit :=
  _ ← emit_own EvStopFix;
  _ ← sendApi (ApiOwn (ApiStopFix (Some (RStopFix c id))));
  _ ← await_nmea;
  _ ← stopDgnssNtrip;
  upd_st (set_spe false).

(** One iteration of the loops over the sessions that are not [skip]ped: the options of the one
    with the shortest interval, where a size of 0 stands for none yet, and the smallest power
    mode. *)
Definition faster (skip : LocationSessionKey → bool) (acc : TrackingOptions * GnssPowerMode)
    (p : LocationSessionKey * TrackingOptions) : TrackingOptions * GnssPowerMode :=
  let '(multiplexedOptions, multiplexedPowerMode) := acc in
  if skip p.1 then acc else
  (if (options_size multiplexedOptions =? 0) || (minInterval p.2 <? minInterval multiplexedOptions)
   then p.2 else multiplexedOptions,
   if bool_decide (multiplexedPowerMode = GNSS_POWER_MODE_INVALID) ||
      (GnssPowerMode_value (powerMode p.2) <? GnssPowerMode_value multiplexedPowerMode)
   then powerMode p.2 else multiplexedPowerMode).
Definition fastest (skip : LocationSessionKey → bool) (m : gmap LocationSessionKey TrackingOptions)
    : TrackingOptions * GnssPowerMode :=
  foldl (faster skip) (options_zero, GNSS_POWER_MODE_INVALID) (in_order LocationSessionKey_le m).

(** The multiplexed options with the demands of [options], and whether they have changed. *)
Definition demand (options : TrackingOptions) (acc : TrackingOptions * GnssPowerMode) : TrackingOptions * bool :=
  let '(multiplexedOptions, multiplexedPowerMode) := acc in
  let b1 := minInterval options <? minInterval multiplexedOptions in
  let o1 := if b1 then set_minInterval (minInterval options) multiplexedOptions else multiplexedOptions in
  let b2 := GnssPowerMode_value (powerMode options) <? GnssPowerMode_value multiplexedPowerMode in
  (if b2 then set_power (powerMode options) o1 else o1, b1 || b2).

(** The three return reportToClientWithNoWait. *)
Definition startTimeBasedTrackingMultiplex (c : client) (id : Z) (options : TrackingOptions) : M TW bool :=
  s ← gets st;
  if decide (mTimeBasedTrackingSessions s = ∅) then
    _ ← upd_st (set_prevNmea 0);
    _ ← startTimeBasedTracking c id options;
    mret false
  else
    let '(multiplexedOptions, updateOptions) :=
      demand options (fastest (λ _, false) (mTimeBasedTrackingSessions s)) in
    if updateOptions : bool then _ ← startTimeBasedTracking c id multiplexedOptions; mret false
    else mret true.

(** With the options the session has had so far. *)
Definition update_from (c : client) (id : Z) (trackingOptions oldOptions : TrackingOptions)
    (sessions : gmap LocationSessionKey TrackingOptions) : M TW bool :=
  if negb (minInterval oldOptions =? minInterval trackingOptions) ||
     bool_decide (powerMode oldOptions ≠ powerMode trackingOptions) then
    let '(o1, b1) := demand trackingOptions (fastest (λ k, bool_decide (k = mkKey c id)) sessions) in
    let '(multiplexedOptions, updateOptions) :=
      if (size sessions =? 1)%nat then (trackingOptions, true) else (o1, b1) in
    if updateOptions : bool then _ ← updateTracking c id multiplexedOptions oldOptions; mret false
    else mret true
  else mret true.
Definition updateTrackingMultiplex (c : client) (id : Z) (trackingOptions : TrackingOptions) : M TW bool :=
  s ← gets st;
  oldOptions ← deref (λ w, mTimeBasedTrackingSessions (st w) !! mkKey c id);
  update_from c id trackingOptions oldOptions (mTimeBasedTrackingSessions s).

Definition stopTimeBasedTrackingMultiplex (c : client) (id : Z) : M TW bool :=
  let key := mkKey c id in
  s ← gets st;
  if (size (mTimeBasedTrackingSessions s) =? 1)%nat then _ ← stopTracking c id; mret false
  else
    match (mTimeBasedTrackingSessions s !! key : option TrackingOptions) with
    | None => mret true
    | Some o =>
        let '(multiplexedOptions, multiplexedPowerMode) :=
          fastest (λ k, bool_decide (k = key)) (mTimeBasedTrackingSessions s) in
        if (minInterval o <? minInterval multiplexedOptions) ||
           (GnssPowerMode_value (powerMode o) <? GnssPowerMode_value multiplexedPowerMode)
        then _ ← startTimeBasedTracking c id (set_power multiplexedPowerMode multiplexedOptions); mret false
        else mret true
    end.

(** *** Restarts *)

(** One iteration of the loop of checkAndRestartTimeBasedSession. *)
Definition restart_step (acc : TrackingOptions * TrackingOptions) (p : LocationSessionKey * TrackingOptions)
    : TrackingOptions * TrackingOptions :=
  let '(smallestIntervalOptions, highestPowerTrackingOptions) := acc in
  (if (options_size smallestIntervalOptions =? 0) || (minInterval p.2 <? minInterval smallestIntervalOptions)
   then p.2 else smallestIntervalOptions,
   if (options_size highestPowerTrackingOptions =? 0) ||
      (bool_decide (powerMode p.2 ≠ GNSS_POWER_MODE_INVALID) &&
       (GnssPowerMode_value (powerMode p.2) <? GnssPowerMode_value (powerMode highestPowerTrackingOptions)))
   then p.2 else highestPowerTrackingOptions).
Definition restart_options (m : gmap LocationSessionKey TrackingOptions) : TrackingOptions :=
  let '(smallest, highest) := foldl restart_step (options_zero, options_zero) (in_order LocationSessionKey_le m) in
  setLocationOptions smallest highest.

Definition checkAndRestartTimeBasedSession : M TW unit :=
  s ← gets st;
  if decide (mTimeBasedTrackingSessions s = ∅) then mret tt
  else
    '(running, options) ← checkAndSetSPEToRunforNHz (restart_options (mTimeBasedTrackingSessions s));
    if running : bool then mret tt else sendApi (ApiOwn (ApiStartTimeBasedTracking options None)).

Fixpoint restart_distance (l : list (LocationSessionKey * LocationOptions)) : M TW unit :=
  match l with
  | [] => mret tt
  | (k, o) :: l =>
      _ ← sendApi (ApiOwn (ApiStartDistanceBasedTracking (key_id k) o RIgnore));
      restart_distance l
  end.

Definition checkAndRestartSPESession : M TW unit :=
  _ ← upd_st (set_spe false);
  _ ← checkAndRestartTimeBasedSession;
  l ← gets (λ w, in_order LocationSessionKey_le (mDistanceBasedTrackingSessions (st w)));
  restart_distance l.

Definition restartSessions (modemSSR : bool) : M TW unit :=
  _ ← when modemSSR (upd_st (set_odcpi false));
  _ ← upd_st (set_spe false);
  s ← gets st;
  _ ← when (isInSession s)
        (_ ← emit_own (EvSetFixMode (mLocPositionMode s));
         _ ← emit_own EvStartFix;
         checkUpdateDgnssNtrip false);
  checkAndRestartSPESession.

Definition suspendSessions : M TW unit :=
  s ← gets st;
  when (isInSession s)
    (_ ← emit_own EvStopFix;
     _ ← sendApi (ApiOwn (ApiStopFix None));
     _ ← await_nmea;
     _ ← stopDgnssNtrip;
     upd_st (set_spe false)).

(** *** The sessions of a client that goes *)
Fixpoint stop_time_based (ks : list LocationSessionKey) : M TW unit :=
  match ks with
  | [] => mret tt
  | k :: ks =>
      _ ← stopTimeBasedTrackingMultiplex (key_client k) (key_id k);
      _ ← eraseTrackingSession (key_client k) (key_id k);
      stop_time_based ks
  end.
Fixpoint stop_distance_based (ks : list LocationSessionKey) : M TW unit :=
  match ks with
  | [] => mret tt
  | k :: ks =>
      _ ← sendApi (ApiOwn (ApiStopDistanceBasedTracking (key_id k) (RStopClient (key_client k) (key_id k))));
      stop_distance_based ks
  end.
Definition keys_of {V} (c : client) (m : gmap LocationSessionKey V) : list LocationSessionKey :=
  filter (λ k, key_client k = c) (in_order LocationSessionKey_le m).*1.
Definition tr_stopClientSessions (c : client) : M TW unit :=
  ks ← gets (λ w, keys_of c (mTimeBasedTrackingSessions (st w)));
  _ ← stop_time_based ks;
  ks ← gets (λ w, keys_of c (mDistanceBasedTrackingSessions (st w)));
  stop_distance_based ks.

(** ** The messages *)

(** A message that needs the capabilities of the engine is put aside until they are known. *)
Definition when_known (m : TMsg) (needed : bool) (proc : M TW unit) : M TW unit :=
  b ← gets base;
  if negb (mIsEngineCapabilitiesKnown b) && needed then push_pending (Own m) else proc.

(** The options with the limits that start and update impose. *)
Definition at_least_min (o : TrackingOptions) : TrackingOptions :=
  if minInterval o <? MIN_TRACKING_INTERVAL then set_minInterval MIN_TRACKING_INTERVAL o else o.
Definition tbm_fallback (o : TrackingOptions) : TrackingOptions :=
  if bool_decide (powerMode o = GNSS_POWER_MODE_M4) && (TRACKING_TBM_THRESHOLD_MILLIS <? tbm o)
  then set_power GNSS_POWER_MODE_M2 o else o.

(** A time-based session is multiplexed, saved, and answered at once when the modem need not know. *)
Definition start_time_based (f : Features) (c : client) (id : Z) (o : TrackingOptions) : M TW unit :=
  noWait ← startTimeBasedTrackingMultiplex c id o;
  _ ← saveTrackingSession f c id o;
  when noWait (reportResponse c LOCATION_ERROR_SUCCESS id).

(** An error is computed and not reported. *)
Definition proc_start (f : Features) (c : client) (id : Z) (options : TrackingOptions) : M TW unit :=
  b ← gets base;
  if negb (hasCallbacksToStartTracking c b) then mret tt
  else if options_size options =? 0 then mret tt
  else
    let o := at_least_min options in
    if is_distance f o then
      _ ← saveTrackingSession f c id o;
      sendApi (ApiOwn (ApiStartDistanceBasedTracking id o (RStartDistance c id)))
    else start_time_based f c id (tbm_fallback o).

Definition proc_update (f : Features) (c : client) (id : Z) (options : TrackingOptions) : M TW unit :=
  s ← gets st;
  let isTimeBased := isTimeBasedTrackingSession c id s in
  let isDistanceBased := isDistanceBasedTrackingSession c id s in
  if negb isTimeBased && negb isDistanceBased then reportResponse c LOCATION_ERROR_ID_UNKNOWN id
  else if options_size options =? 0 then reportResponse c LOCATION_ERROR_INVALID_PARAMETER id
  else
    let o := at_least_min (tbm_fallback options) in
    if isTimeBased && (0 <? minDistance o) then
      noWait ← stopTimeBasedTrackingMultiplex c id;
      _ ← eraseTrackingSession c id;
      _ ← when noWait (reportResponse c LOCATION_ERROR_SUCCESS id);
      _ ← saveTrackingSession f c id o;
      sendApi (ApiOwn (ApiStartDistanceBasedTracking id o RIgnore))
    else if isDistanceBased && (minDistance o =? 0) then
      _ ← eraseTrackingSession c id;
      sendApi (ApiOwn (ApiStopDistanceBasedTracking id (RSwitchToTimeBased c id o)))
    else if isTimeBased then
      noWait ← updateTrackingMultiplex c id o;
      _ ← saveTrackingSession f c id o;
      when noWait (reportResponse c LOCATION_ERROR_SUCCESS id)
    else sendApi (ApiOwn (ApiStopDistanceBasedTracking id (RRestartDistance c id o))).

Definition proc_stop (c : client) (id : Z) : M TW unit :=
  s ← gets st;
  if isTimeBasedTrackingSession c id s then
    noWait ← stopTimeBasedTrackingMultiplex c id;
    _ ← eraseTrackingSession c id;
    when noWait (reportResponse c LOCATION_ERROR_SUCCESS id)
  else if isDistanceBasedTrackingSession c id s then
    sendApi (ApiOwn (ApiStopDistanceBasedTracking id (RStopDistance c id)))
  else reportResponse c LOCATION_ERROR_ID_UNKNOWN id.

(** The responses of the LocApi. *)
Definition failed (k : EngineLockState) (err : LocationError) : bool :=
  bool_decide (k = ENGINE_LOCK_STATE_ENABLED) && bool_decide (err ≠ LOCATION_ERROR_SUCCESS).
Definition proc_response (f : Features) (r : Resp) (err : LocationError) : M TW unit :=
  k ← gets lock;
  let done := bool_decide (k = ENGINE_LOCK_STATE_DISABLED) || bool_decide (err = LOCATION_ERROR_SUCCESS) in
  match r with
  | RStartTimeBased c id =>
      _ ← (if failed k err then eraseTrackingSession c id else checkUpdateDgnssNtrip false);
      reportResponse c err id
  | RUpdate c id oldOptions =>
      _ ← when (failed k err) (saveTrackingSession f c id oldOptions);
      reportResponse c err id
  | RStopFix c id => reportResponse c err id
  | RStartDistance c id =>
      _ ← when (failed k err) (eraseTrackingSession c id);
      reportResponse c err id
  | RSwitchToTimeBased c id options => start_time_based f c id options
  | RRestartDistance c id options =>
      when (bool_decide (err = LOCATION_ERROR_SUCCESS))
        (sendApi (ApiOwn (ApiStartDistanceBasedTracking id options (RRestartedDistance c id options))))
  | RRestartedDistance c id options =>
      _ ← when done (saveTrackingSession f c id options);
      reportResponse c err id
  | RStopDistance c id =>
      _ ← when done (eraseTrackingSession c id);
      reportResponse c err id
  | RStopClient c id => when (bool_decide (err = LOCATION_ERROR_SUCCESS)) (eraseTrackingSession c id)
  | RIgnore => mret tt
  end.

Definition gnss_getCapabilities (f : Features) (qwes : Z) : Z :=
  let bit (b : bool) (c : LocationCapabilitiesBits) m := if b then Z.lor m (value c) else m in
  Z.lor
   (bit (feature_AGPM f) LOCATION_CAPABILITIES_AGPM_BIT
   (bit (feature_CONSTELLATION_ENABLEMENT f) LOCATION_CAPABILITIES_CONSTELLATION_ENABLEMENT_BIT
   (bit (feature_DEBUG_NMEA f) LOCATION_CAPABILITIES_DEBUG_NMEA_BIT
   (bit (gnssConstellationConfig f) LOCATION_CAPABILITIES_GNSS_MEASUREMENTS_BIT
   (bit (msg_OUTDOOR_TRIP_BATCHING f) LOCATION_CAPABILITIES_OUTDOOR_TRIP_BATCHING_BIT
   (bit (msg_DISTANCE_BASE_TRACKING f) LOCATION_CAPABILITIES_DISTANCE_BASED_TRACKING_BIT
   (bit (msg_DISTANCE_BASE_LOCATION_BATCHING f) LOCATION_CAPABILITIES_DISTANCE_BASED_BATCHING_BIT
   (bit (msg_DISTANCE_BASE_LOCATION_BATCHING f) LOCATION_CAPABILITIES_TIME_BASED_BATCHING_BIT
   (bit (negb (Z.land LOC_GPS_CAPABILITY_MSA (carrierCapabilities f) =? 0)) LOCATION_CAPABILITIES_GNSS_MSA_BIT
   (bit (negb (Z.land (carrierCapabilities f) LOC_GPS_CAPABILITY_MSB =? 0)) LOCATION_CAPABILITIES_GNSS_MSB_BIT
   (bit true LOCATION_CAPABILITIES_GEOFENCE_BIT
   (bit true LOCATION_CAPABILITIES_TIME_BASED_TRACKING_BIT 0))))))))))))
   qwes.

(** MsgHandleEngineUpEvent. The messages put aside are sent, and stay in the list. *)
Definition proc_engine_up (f : Features) : M TW unit :=
  _ ← upd_base (set_known true);
  e ← gets (λ w, env (st w));
  _ ← broadcastCapabilities (gnss_getCapabilities f (qwesFeatures e));
  _ ← emit_own (EvCall setConfig);
  _ ← emit_own (EvCall gnssSvIdConfigUpdate);
  _ ← emit_own (EvCall gnssSvTypeConfigUpdate);
  _ ← when (powerStateKnown e) (emit_own (EvCall updateSystemPowerState));
  _ ← emit_own (EvCall gnssSecondaryBandConfigUpdate);
  _ ← emit_own (EvCall initCDFWService);
  k ← gets lock;
  when (bool_decide (k = ENGINE_LOCK_STATE_ENABLED))
    (_ ← restartSessions true;
     l ← gets (λ w, mPendingMsgs (base w));
     send_all_msgs l).

Definition handleEngineLockStatus (k : EngineLockState) : M TW unit :=
  when (bool_decide (k = ENGINE_LOCK_STATE_ENABLED))
    (l ← gets (λ w, mPendingGnssEnabledMsgs (base w));
     _ ← send_all_msgs l;
     upd_base (set_pendingGnss [])).

(** notifyClientOfCachedLocationSystemInfo: a client that registers for it anew is told at once. *)
Definition notifyClientOfCachedLocationSystemInfo (c : client) (callbacks : LocationCallbacks) : M TW unit :=
  e ← gets (λ w, env (st w));
  b ← gets base;
  when (systemInfo e && locationSystemInfoCb callbacks && negb (locationSystemInfoCb (getClientCallbacks c b)))
    (emit_own (EvSystemInfo c)).

(** The bits of the callbacks of one client. *)
Definition client_bits (e : Env) (mask : Z) (cb : LocationCallbacks) : Z :=
  let bit (b : bool) (x : Z) m := if b then Z.lor m x else m in
  bit (gnssDataCb cb) LOC_API_ADAPTER_BIT_NMEA_1HZ_REPORT
  (bit (gnssDataCb cb) LOC_API_ADAPTER_BIT_PARSED_POSITION_REPORT
  (bit (gnssMeasurementsCb cb) LOC_API_ADAPTER_BIT_GNSS_MEASUREMENT
  (bit (gnssNmeaCb cb && negb (mNmeaMask e =? 0)) LOC_API_ADAPTER_BIT_NMEA_1HZ_REPORT
  (bit (gnssSvCb cb) LOC_API_ADAPTER_BIT_SATELLITE_REPORT
  (bit (trackingCb cb || gnssLocationInfoCb cb || engineLocationsInfoCb cb)
     LOC_API_ADAPTER_BIT_PARSED_POSITION_REPORT mask))))).
(** And those of the rest of the adapter. *)
Definition adapter_bits (e : Env) (evtMask mask : Z) : Z :=
  let bit (b : bool) (x : Z) m := if b then Z.lor m x else m in
  let auto := EXTERNAL_DR_ENABLED e || engHub e in
  let mask := bit auto (Z.land evtMask LOC_API_ADAPTER_BIT_GNSS_NHZ_MEASUREMENT)
    (bit auto LOC_API_ADAPTER_BIT_GNSS_SV_EPHEMERIS_REPORT
    (bit auto LOC_API_ADAPTER_BIT_PARSED_UNPROPAGATED_POSITION_REPORT
    (bit auto LOC_API_ADAPTER_BIT_GNSS_SV_POLYNOMIAL_REPORT
    (bit auto LOC_API_ADAPTER_BIT_GNSS_MEASUREMENT mask)))) in
  let mask := bit true LOC_API_ADAPTER_BIT_NI_NOTIFY_VERIFY_REQUEST
    (bit true LOC_API_ADAPTER_BIT_LOC_SYSTEM_INFO
    (bit (odcpiRequestCb e) LOC_API_ADAPTER_BIT_REQUEST_WIFI
    (bit (agpsRegistered e) LOC_API_ADAPTER_BIT_LOCATION_SERVER_REQUEST mask))) in
  bit (test_bits mask LOC_API_ADAPTER_BIT_GNSS_MEASUREMENT && logEnabled e)
    LOC_API_ADAPTER_BIT_LATENCY_INFORMATION mask.

(** A client with gnssDataCb has the NMEA types set: once for each such client. *)
Fixpoint update_nmea_masks (l : list (client * LocationCallbacks)) : M TW unit :=
  match l with
  | [] => mret tt
  | (_, cb) :: l =>
      e ← gets (λ w, env (st w));
      _ ← when (gnssDataCb cb) (sendApi (ApiOwn (ApiSetNmeaMask (Z.lor (mNmeaMask e) LOC_NMEA_MASK_DEBUG_V02))));
      update_nmea_masks l
  end.
Definition tr_updateClientsEventMask : M TW unit :=
  l ← gets (λ w, in_order client_lt (mClientData (base w)));
  _ ← update_nmea_masks l;
  e ← gets (λ w, env (st w));
  evt ← gets (λ w, mEvtMask (base w));
  let mask := foldl (client_bits e)
    (Z.lor LOC_API_ADAPTER_BIT_LOC_SYSTEM_INFO LOC_API_ADAPTER_BIT_EVENT_REPORT_INFO) l.*2 in
  updateEvtMask (adapter_bits e evt mask) LOC_REGISTRATION_MASK_SET.

(** A listener of the power state is told it. A null one is called all the same. *)
Definition proc_power_state (cb : bool) : M TW unit :=
  _ ← upd_st (set_powerCb cb);
  s ← gets st;
  if cb then emit_own (EvPowerState (mPowerOn s)) else ub.

Definition proc_configMinGpsWeek : M TW unit :=
  _ ← suspendSessions;
  _ ← emit_own (EvCall configMinGpsWeek);
  restartSessions false.

Definition tr_proc (f : Features) (m : TMsg) : M TW unit :=
  match m with
  | MsgReadConfig => mret tt
  | MsgAddClientInfo c callbacks =>
      _ ← notifyClientOfCachedLocationSystemInfo c callbacks;
      _ ← upd_base (λ b, set_clients (<[c := callbacks]> (mClientData b)) b);
      tr_updateClientsEventMask
  | MsgEngineLockStateEvent k => handleEngineLockStatus k
  | MsgHandleEngineUpEvent => proc_engine_up f
  | MsgStartTracking c id options => when_known m (0 <? minDistance options) (proc_start f c id options)
  | MsgUpdateTracking c id options => when_known m (0 <? minDistance options) (proc_update f c id options)
  | MsgStopTracking c id => proc_stop c id
  | MsgPowerStateChanges cb => proc_power_state cb
  | MsgConfigMinGpsWeek => proc_configMinGpsWeek
  | MsgEnableNtrip params => handleEnablePPENtrip params
  | MsgDisableNtrip => handleDisablePPENtrip
  | Response r err => proc_response f r err
  end.

(** ** The requests, on the task of the LocApi *)
Definition respond (r : option Resp) (m : M TW LocationError) : M TW unit :=
  err ← m;
  match r with Some r => send_new (Own (Response r err)) | None => mret tt end.

(** The LocApi tells its adapters that the engine is up. *)
Definition handleEngineUpEvent : M TW unit :=
  _ ← send_new (Own MsgReadConfig);
  send_new (Own MsgHandleEngineUpEvent).

Definition tr_api (f : Features) (modem : Modem) (l : TApi) : M TW unit :=
  let breach := msg_BATCHED_GENFENCE_BREACH f in
  let constellation := gnssConstellationConfig f in
  match l with
  | ApiStartTimeBasedTracking options r =>
      respond r (run_api (LocApiTrack.startTimeBasedTracking modem breach constellation options))
  | ApiStopFix r => respond r (run_api (LocApiTrack.stopFix modem breach constellation))
  | ApiStartDistanceBasedTracking id options r =>
      respond (Some r) (run_api (LocApiTrack.startDistanceBasedTracking modem id options))
  | ApiStopDistanceBasedTracking id r =>
      respond (Some r) (run_api (LocApiTrack.stopDistanceBasedTracking modem id))
  | ApiSetNmeaMask mask => run_api (LocApiTrack.setNMEATypesSync modem mask)
  | ApiEngineState engineOn => run_api (LocApiTrack.updateEngineState modem breach constellation engineOn)
  | ApiSsr =>
      mask ← gets (λ w, mEvtMask (base w));
      ok ← run_api (LocApiTrack.reopen modem breach constellation mask);
      when ok handleEngineUpEvent
  end.

(** ** The commands and events *)
Definition startTrackingCommand (c : client) (options : TrackingOptions) : M TW unit :=
  id ← generateSessionId;
  _ ← send_new (Own (MsgStartTracking c id options));
  emit_own (EvSession c id).
Definition handleEngineLockStatusEvent (k : EngineLockState) : M TW unit :=
  changed ← reportEngineLockStatus k;
  when changed (send_new (Own (MsgEngineLockStateEvent k))).

(** The engine hub calls this on a thread of its own. *)
Definition updateNHzRequirement (nHzNeeded nHzMeasNeeded : bool) : M TW unit :=
  b ← gets base;
  let registered := test_bits (mEvtMask b) LOC_API_ADAPTER_BIT_GNSS_NHZ_MEASUREMENT in
  _ ← (if nHzMeasNeeded && negb registered
       then updateEvtMask LOC_API_ADAPTER_BIT_GNSS_NHZ_MEASUREMENT LOC_REGISTRATION_MASK_ENABLED
       else when registered
              (updateEvtMask LOC_API_ADAPTER_BIT_GNSS_NHZ_MEASUREMENT LOC_REGISTRATION_MASK_DISABLED));
  s ← gets st;
  when (negb (Bool.eqb (mNHzNeeded s) nHzNeeded))
    (_ ← upd_st (set_nhz nHzNeeded); checkAndRestartSPESession).

Definition tr_call (f : Features) (c : TCall) : M TW unit :=
  match c with
  | CAddClient c callbacks => send_new (Own (MsgAddClientInfo c callbacks))
  | CStart c options => startTrackingCommand c options
  | CUpdate c id options => send_new (Own (MsgUpdateTracking c id options))
  | CStop c id => send_new (Own (MsgStopTracking c id))
  | CPowerStateChanges cb => send_new (Own (MsgPowerStateChanges cb))
  | CConfigMinGpsWeek => _ ← generateSessionId; send_new (Own MsgConfigMinGpsWeek)
  | CEnableNtrip params => send_new (Own (MsgEnableNtrip params))
  | CDisableNtrip => send_new (Own MsgDisableNtrip)
  | CNtripConsent consentAccepted => upd_st (set_consent consentAccepted)
  | CUpdateNHz nHzNeeded nHzMeasNeeded => updateNHzRequirement nHzNeeded nHzMeasNeeded
  | CEngineLock k => handleEngineLockStatusEvent k
  | CEngineState engineOn => sendApi (ApiOwn (ApiEngineState engineOn))
  | CModemRestart => sendApi (ApiOwn ApiSsr)
  | CClock t => upd_st (set_clock t)
  end.

#[export] Instance GnssAdapter : Adapter Tracking TMsg TApi TEvent TCall := {
  updateClientsEventMask := tr_updateClientsEventMask;
  stopClientSessions := tr_stopClientSessions;
  own_proc := tr_proc;
  own_api := tr_api;
  call := tr_call }.

Definition no_ntrip : GnssNtripConnectionParams :=
  {| useSSL := false; hostNameOrIp := EmptyString; port := 0; mountPoint := EmptyString; username := EmptyString;
     password := EmptyString; requiresNmeaLocation := false |}.
(** The constructor sends readConfigCommand. *)
Definition tr_init (e : Env) : TW :=
  mkWorld
    {| mTimeBasedTrackingSessions := ∅; mDistanceBasedTrackingSessions := ∅;
       mLocPositionMode :=
         mkLocPosMode LOC_POSITION_MODE_INVALID LOC_GPS_POSITION_RECURRENCE_PERIODIC GPS_DEFAULT_FIX_INTERVAL_MS
           50 120000 true EmptyString EmptyString GNSS_POWER_MODE_INVALID GPS_DEFAULT_FIX_INTERVAL_MS;
       mNHzNeeded := false; mSPEAlreadyRunningAtHighestInterval := false; mPowerOn := false;
       mPowerStateCb := false; mOdcpiRequestActive := false; mPrevNmeaRptTimeNsec := 0; mDgnssState := 0;
       mSendNmeaConsent := false; ntripParams := no_ntrip; nmea := EmptyString; mDgnssLastNmeaBootTimeMilli := 0;
       bootTime := 0; env := e |}
    {| mIsEngineCapabilitiesKnown := false; mEvtMask := 0; mClientData := ∅; mSessionIdCounter := 1;
       mPendingMsgs := []; mPendingGnssEnabledMsgs := [] |}
    {[1%positive := Own MsgReadConfig]} 2 [1%positive] [] (api_opened 0 true) ENGINE_LOCK_STATE_ENABLED [].
