(* ===== verification/TrackingSpec.v ===== *)
(** * GnssAdapter : what the tracking sessions promise.

    The theorems about Tracking: the options the modem is given are those of the fastest
    session and the highest power; the modem always tracks at least as fast as every time-based
    session asks for, over starts, updates, stops, clients that go, restarts of the modem and
    changes of the rate of the engine hub; a start is answered whatever the modem says; the
    listener of the power state is up to date; and what goes wrong. *)
From S2P Require Import Prelude PbEnums LocApi LocApiBatch LocApiTrack LocAdapter Tracking.
Local Open Scope Z_scope.

(** ** The options of several sessions *)

(** A fold that keeps the element with the least [f], of those that are not skipped. *)
Section least.
Context {A B : Type} (skip : A → bool) (unset : B → bool) (f : A → Z) (v : B → Z) (g : A → B).
Definition keep_least (acc : B) (x : A) : B :=
  if skip x then acc else if unset acc || (f x <? v acc) then g x else acc.

Lemma keep_least_none b l : (∀ x, x ∈ l → skip x = true) → foldl keep_least b l = b.
Proof.
  revert b. induction l as [|x l IH]; intros b H; [done|]. simpl. unfold keep_least at 2.
  rewrite (H x) by constructor. apply IH. intros y Hy. apply H. by constructor.
Qed.

Lemma keep_least_from x0 l :
  skip x0 = false → (∀ x, x ∈ x0 :: l → skip x = false → unset (g x) = false ∧ v (g x) = f x) →
  ∃ x, x ∈ x0 :: l ∧ skip x = false ∧ foldl keep_least (g x0) l = g x ∧
       ∀ y, y ∈ x0 :: l → skip y = false → f x ≤ f y.
Proof.
  revert x0. induction l as [|x1 l IH]; intros x0 Hs H.
  { exists x0. split_and!; [constructor|done..|]. intros y [->|Hy]%elem_of_cons _; [lia|]. by apply elem_of_nil in Hy. }
  simpl. unfold keep_least at 2. destruct (skip x1) eqn:E1.
  - destruct (IH x0 Hs) as (x & Hx & Hsx & E & Hmin).
    { intros y [->|Hy]%elem_of_cons; apply H; [constructor|]. do 2 apply list_elem_of_further. done. }
    exists x. split_and!; [|done..|].
    + apply elem_of_cons in Hx as [->|Hx]; [constructor|]. do 2 apply list_elem_of_further. done.
    + intros y Hy Hsy. apply Hmin; [|done]. rewrite !elem_of_cons in Hy. rewrite elem_of_cons. naive_solver congruence.
  - destruct (H x0 ltac:(constructor) Hs) as [-> ->]. simpl.
    assert (Hx1 : ∃ x2, x2 ∈ [x0; x1] ∧ (if f x1 <? f x0 then g x1 else g x0) = g x2 ∧ skip x2 = false ∧
                        f x2 ≤ f x0 ∧ f x2 ≤ f x1).
    { destruct (Z.ltb_spec (f x1) (f x0)); [exists x1|exists x0]; (split; [set_solver|]); split_and!; done || lia. }
    destruct Hx1 as (x2 & Hx2 & -> & Hs2 & Hle0 & Hle1).
    destruct (IH x2 Hs2) as (x & Hx & Hsx & E & Hmin).
    { intros y Hy. apply H. set_solver. }
    exists x. split_and!; [set_solver|done..|].
    intros y Hy Hsy. rewrite !elem_of_cons in Hy. pose proof (Hmin x2 ltac:(constructor) Hs2).
    destruct Hy as [->|[->|Hy]]; [lia..|]. apply Hmin; [set_solver|done].
Qed.

Lemma keep_least_spec b l :
  unset b = true → (∀ x, x ∈ l → skip x = false → unset (g x) = false ∧ v (g x) = f x) →
  (∃ x, x ∈ l ∧ skip x = false) →
  ∃ x, x ∈ l ∧ skip x = false ∧ foldl keep_least b l = g x ∧ ∀ y, y ∈ l → skip y = false → f x ≤ f y.
Proof.
  intros Hb. induction l as [|x0 l IH]; intros H (x & Hx & Hsx); [by apply elem_of_nil in Hx|].
  simpl. unfold keep_least at 2. destruct (skip x0) eqn:E0.
  - destruct IH as (y & Hy & Hsy & E & Hmin).
    { intros y Hy. apply H. by constructor. }
    { exists x. split; [|done]. apply elem_of_cons in Hx as [->|Hx]; [congruence|done]. }
    exists y. split_and!; [by constructor|done..|]. intros z Hz Hsz. apply Hmin; [|done].
    apply elem_of_cons in Hz as [->|Hz]; [congruence|done].
  - rewrite Hb. simpl. by apply keep_least_from.
Qed.
End least.

Lemma foldl_step_ext {A B} (s t : B → A → B) b l : (∀ b x, x ∈ l → s b x = t b x) → foldl s b l = foldl t b l.
Proof.
  revert b. induction l as [|x l IH]; intros b H; [done|]. simpl. rewrite H by constructor.
  apply IH. intros b' y Hy. apply H. by constructor.
Qed.
Lemma foldl_pair {A B C} (s : B → A → B) (t : C → A → C) (st : B * C → A → B * C) b c l :
  (∀ b c x, st (b, c) x = (s b x, t c x)) → foldl st (b, c) l = (foldl s b l, foldl t c l).
Proof. intros H. revert b c. induction l as [|x l IH]; intros b c; [done|]. simpl. by rewrite H, IH. Qed.

(** The sessions the adapter keeps: the size is set and the interval is not below the limit. *)
Definition ok_options (o : TrackingOptions) : Prop := options_size o ≠ 0 ∧ MIN_TRACKING_INTERVAL ≤ minInterval o.
Definition ok_sessions (m : gmap LocationSessionKey TrackingOptions) : Prop := map_Forall (λ _, ok_options) m.
Definition with_power (m : gmap LocationSessionKey TrackingOptions) : Prop :=
  map_Forall (λ _ o, powerMode o ≠ GNSS_POWER_MODE_INVALID) m.
Definition power_value (o : TrackingOptions) : Z := GnssPowerMode_value (powerMode o).

Definition size_unset (o : TrackingOptions) : bool := options_size o =? 0.
Definition entry : Type := LocationSessionKey * TrackingOptions.
Definition options_of (p : entry) : TrackingOptions := p.2.
Definition interval_of (o : TrackingOptions) : Z := minInterval o.
Lemma fastest_fold skip m :
  fastest skip m =
    (foldl (keep_least (λ p : entry, skip p.1) size_unset (interval_of ∘ options_of) interval_of options_of)
       options_zero (in_order LocationSessionKey_le m),
     foldl (keep_least (λ p : entry, skip p.1) (λ x, bool_decide (x = GNSS_POWER_MODE_INVALID)) (power_value ∘ options_of)
              GnssPowerMode_value (powerMode ∘ options_of))
       GNSS_POWER_MODE_INVALID (in_order LocationSessionKey_le m)).
Proof. apply foldl_pair. intros b c [k o]. unfold faster, keep_least, size_unset, power_value, interval_of, options_of. simpl. by destruct (skip k). Qed.

(** [z] is the least [f] of the sessions that are not skipped. *)
Definition least_of (f : TrackingOptions → Z) (skip : LocationSessionKey → bool)
    (m : gmap LocationSessionKey TrackingOptions) (z : Z) : Prop :=
  (∃ k o, m !! k = Some o ∧ skip k = false ∧ f o = z) ∧ (∀ k o, m !! k = Some o → skip k = false → z ≤ f o).

Lemma least_of_unique f skip m z1 z2 : least_of f skip m z1 → least_of f skip m z2 → z1 = z2.
Proof.
  intros [(k1 & o1 & E1 & S1 & F1) H1] [(k2 & o2 & E2 & S2 & F2) H2].
  pose proof (H1 k2 o2 E2 S2). pose proof (H2 k1 o1 E1 S1). lia.
Qed.

Section fastest.
Context (skip : LocationSessionKey → bool) (m : gmap LocationSessionKey TrackingOptions).
Context (Hok : ok_sessions m).

Lemma in_order_of {V} (n : gmap LocationSessionKey V) p : p ∈ in_order LocationSessionKey_le n ↔ n !! p.1 = Some p.2.
Proof. destruct p as [k o]. apply elem_of_in_order. Qed.

Lemma fastest_interval :
  (∃ k o, m !! k = Some o ∧ skip k = false) →
  ∃ k, m !! k = Some (fastest skip m).1 ∧ skip k = false ∧
       least_of interval_of skip m (interval_of (fastest skip m).1).
Proof.
  intros (k & o & Hk & Hs). rewrite fastest_fold. simpl.
  destruct (keep_least_spec (λ p : entry, skip p.1) size_unset
              (interval_of ∘ options_of) interval_of options_of options_zero (in_order LocationSessionKey_le m))
    as ([k' o'] & Hx & Hsx & -> & Hmin).
  - done.
  - intros p Hp%in_order_of _. split; [|done]. apply Z.eqb_neq. by apply (Hok _ _ Hp).
  - exists (k, o). split; [by apply in_order_of|done].
  - apply in_order_of in Hx. exists k'. split_and!; [done..|]. split; [by exists k', o'|].
    intros k1 o1 H1 Hs1. apply (Hmin (k1, o1)); [by apply in_order_of|done].
Qed.
Lemma fastest_power :
  with_power m → (∃ k o, m !! k = Some o ∧ skip k = false) →
  least_of power_value skip m (GnssPowerMode_value (fastest skip m).2).
Proof.
  intros Hp (k & o & Hk & Hs). rewrite fastest_fold. simpl.
  destruct (keep_least_spec (λ p : entry, skip p.1)
              (λ x, bool_decide (x = GNSS_POWER_MODE_INVALID)) (power_value ∘ options_of)
              GnssPowerMode_value (powerMode ∘ options_of) GNSS_POWER_MODE_INVALID (in_order LocationSessionKey_le m))
    as ([k' o'] & Hx & Hsx & -> & Hmin).
  - done.
  - intros p Hx%in_order_of _. split; [|done]. apply bool_decide_eq_false. by apply (Hp _ _ Hx).
  - exists (k, o). split; [by apply in_order_of|done].
  - apply in_order_of in Hx. split; [by exists k', o'|].
    intros k1 o1 H1 Hs1. apply (Hmin (k1, o1)); [by apply in_order_of|done].
Qed.
Lemma fastest_none : (∀ k o, m !! k = Some o → skip k = true) → fastest skip m = (options_zero, GNSS_POWER_MODE_INVALID).
Proof.
  intros H. rewrite fastest_fold. by f_equal; apply keep_least_none; intros [k o] Hx%in_order_of; apply (H k o).
Qed.
End fastest.

(** The folds of checkAndRestartTimeBasedSession. *)
Lemma restart_fold m :
  foldl restart_step (options_zero, options_zero) (in_order LocationSessionKey_le m) =
    (foldl (keep_least (λ _ : entry, false) size_unset (interval_of ∘ options_of) interval_of options_of)
       options_zero (in_order LocationSessionKey_le m),
     foldl (λ acc p, if size_unset acc || (bool_decide (powerMode p.2 ≠ GNSS_POWER_MODE_INVALID) &&
                                           (power_value p.2 <? power_value acc)) then p.2 else acc)
       options_zero (in_order LocationSessionKey_le m)).
Proof. by apply foldl_pair. Qed.
Lemma restart_interval m : interval_of (restart_options m) = interval_of (fastest (λ _, false) m).1.
Proof. unfold restart_options. rewrite fastest_fold, restart_fold. done. Qed.
Lemma restart_power m :
  ok_sessions m → with_power m → m ≠ ∅ → least_of power_value (λ _, false) m (power_value (restart_options m)).
Proof.
  intros Hok Hp Hne. unfold restart_options. rewrite restart_fold. unfold power_value at 2. simpl.
  rewrite (foldl_step_ext _ (keep_least (λ _ : entry, false) size_unset (power_value ∘ options_of) power_value options_of)).
  2: { intros acc p Hx%in_order_of. unfold keep_least. rewrite bool_decide_eq_true_2; [done|]. by apply (Hp _ _ Hx). }
  destruct (map_choose _ Hne) as (k & o & Hk).
  destruct (keep_least_spec (λ _ : entry, false) size_unset
              (power_value ∘ options_of) power_value options_of options_zero (in_order LocationSessionKey_le m))
    as ([k' o'] & Hx & Hsx & -> & Hmin).
  - done.
  - intros p Hx%in_order_of _. split; [|done]. apply Z.eqb_neq. by apply (Hok _ _ Hx).
  - exists (k, o). split; [by apply in_order_of|done].
  - apply in_order_of in Hx. split; [by exists k', o'|].
    intros k1 o1 H1 Hs1. apply (Hmin (k1, o1)); [by apply in_order_of|done].
Qed.

(** C26: the options the modem gets when sessions are restarted are a function of the set of the
    sessions, when there are some, each with options of a size, an interval not below the limit and
    a power mode other than INVALID: the least interval that any of them asks for, with the smallest power mode,
    the one with the highest power; and they are the interval and the power mode that a new session
    is multiplexed with. *)
Theorem restart_options_multiplex m :
  ok_sessions m → with_power m → m ≠ ∅ →
  least_of interval_of (λ _, false) m (interval_of (restart_options m)) ∧
  least_of power_value (λ _, false) m (power_value (restart_options m)) ∧
  interval_of (restart_options m) = interval_of (fastest (λ _, false) m).1 ∧
  power_value (restart_options m) = GnssPowerMode_value (fastest (λ _, false) m).2.
Proof.
  intros Hok Hp Hne. assert (Hex : ∃ k o, m !! k = Some o ∧ (λ _ : LocationSessionKey, false) k = false).
  { destruct (map_choose _ Hne) as (k & o & Hk). by exists k, o. }
  assert (Hpow := restart_power m Hok Hp Hne). rewrite restart_interval. split_and!; [|done|done|].
  - by destruct (fastest_interval _ m Hok Hex) as (? & _ & _ & ?).
  - by eapply least_of_unique, fastest_power.
Qed.

(** ** What the modem has been asked for *)

(** The interval of the session of the modem, after the requests it was sent, and after those
    that wait for the LocApi's task. *)
Definition note_request (k : option Z) (r : Request) : option Z :=
  match r with Start q => sr_minInterval q | Stop _ | ModemRestart => None | _ => k end.
Definition note_api (k : option Z) (m : ApiMsg TApi) : option Z :=
  match m with
  | ApiOwn (ApiStartTimeBasedTracking o _) => Some (minInterval o)
  | ApiOwn (ApiStopFix _) | ApiOwn ApiSsr => None
  | _ => k
  end.
Definition tracked (a : ApiState) : option Z := foldl note_request None (requests a).
Definition asked (w : TW) : option Z := foldl note_api (tracked (api w)) (apiTask w).

Definition is_ssr (m : ApiMsg TApi) : bool := match m with ApiOwn ApiSsr => true | _ => false end.
Definition is_engine_up (m : option (Msg TMsg)) : bool :=
  match m with Some (Own MsgHandleEngineUpEvent) => true | _ => false end.
(** The modem has restarted, and the adapter has not handled that yet. *)
Definition restarting (w : TW) : bool :=
  existsb is_ssr (apiTask w) || existsb (λ p, is_engine_up (heap w !! p)) (task w).

Notation sessions w := (mTimeBasedTrackingSessions (st w)).
Notation flag w := (mSPEAlreadyRunningAtHighestInterval (st w)).
Notation nhz w := (mNHzNeeded (st w)).

(** The modem tracks at least as fast as every session asks for, and only when there is one. *)
Definition covers (k : option Z) (m : gmap LocationSessionKey TrackingOptions) : Prop :=
  match k with
  | None => m = ∅
  | Some i => m ≠ ∅ ∧ map_Forall (λ _ o, i ≤ interval_of o) m
  end.
Definition at_highest (w : TW) : Prop := flag w = true → asked w = Some MIN_TRACKING_INTERVAL.
Definition Covered (w : TW) (m : gmap LocationSessionKey TrackingOptions) : Prop :=
  (m = ∅ → asked w = None) ∧ (restarting w = false → at_highest w ∧ covers (asked w) m).

(** *** Executions without distance-based sessions *)
Definition tame_response (r : Resp) : Prop :=
  match r with RStartTimeBased _ _ | RUpdate _ _ _ | RStopFix _ _ => True | _ => False end.
Definition tame_option (r : option Resp) : Prop := match r with Some r => tame_response r | None => True end.
Definition tame_request (m : ApiMsg TApi) : Prop :=
  match m with
  | LocOpenMsg | ApiOwn (ApiSetNmeaMask _) => True
  | ApiOwn (ApiStartTimeBasedTracking o r) => MIN_TRACKING_INTERVAL ≤ minInterval o ∧ tame_option r
  | ApiOwn (ApiStopFix r) => tame_option r
  | _ => False
  end.
Definition tame_api (m : ApiMsg TApi) : Prop :=
  match m with ApiOwn ApiSsr | ApiOwn (ApiEngineState _) => True | _ => tame_request m end.
Definition tame_msg (m : Msg TMsg) : Prop :=
  match m with
  | MsgRequestCapabilities _ => False
  | Own (MsgStartTracking _ _ o) | Own (MsgUpdateTracking _ _ o) => minDistance o = 0
  | Own (MsgPowerStateChanges cb) => cb = true
  | Own (MsgEngineLockStateEvent k) => False
  | Own (Response r err) => tame_response r ∧ err = LOCATION_ERROR_SUCCESS
  | _ => True
  end.
Definition tame_label (l : Label (C:=TCall)) : Prop :=
  match l with
  | LCall (CStart _ o) | LCall (CUpdate _ _ o) => minDistance o = 0
  | LCall (CPowerStateChanges cb) => cb = true
  | LCall (CEngineLock k) => k ≠ ENGINE_LOCK_STATE_DISABLED
  | LRequestCapabilities _ => False
  | _ => True
  end.

(** What the code of the adapter's task leaves alone, but for the sessions. *)
Definition frame (w : TW) :=
  (lock w, heap w, next w, task w, api w, mDistanceBasedTrackingSessions (st w), nhz w,
   mPendingMsgs (base w), mPendingGnssEnabledMsgs (base w)).
Definition Framed (w w' : TW) : Prop :=
  frame w' = frame w ∧ ∃ l, apiTask w' = apiTask w ++ l ∧ Forall tame_request l.
#[export] Instance Framed_preorder : PreOrder Framed.
Proof.
  split.
  - intros w. split; [done|]. exists []. by rewrite app_nil_r.
  - intros w1 w2 w3 [E1 (l1 & A1 & H1)] [E2 (l2 & A2 & H2)]. split; [congruence|].
    exists (l1 ++ l2). rewrite A2, A1, app_assoc. split; [done|]. by apply Forall_app.
Qed.
(** And code that has nothing to do with the sessions. *)
Definition Calm (w w' : TW) : Prop :=
  Framed w w' ∧ sessions w' = sessions w ∧ flag w' = flag w ∧ asked w' = asked w.
#[export] Instance Calm_preorder : PreOrder Calm.
Proof.
  split; [done|]. intros w1 w2 w3 (F1 & S1 & G1 & A1) (F2 & S2 & G2 & A2).
  split; [by etrans|]. split_and!; congruence.
Qed.

Lemma asked_snoc w m : asked (set_apiTask (apiTask w ++ [m]) w) = note_api (asked w) m.
Proof. unfold asked. simpl. by rewrite foldl_app. Qed.
Lemma framed_same w w' : frame w' = frame w → apiTask w' = apiTask w → Framed w w'.
Proof. intros E A. split; [done|]. exists []. by rewrite app_nil_r. Qed.
Lemma framed_send m w : tame_request m → Framed w (set_apiTask (apiTask w ++ [m]) w).
Proof. intros Hm. split; [done|]. exists [m]. split; [done|]. by repeat constructor. Qed.
Lemma calm_same w w' :
  frame w' = frame w → apiTask w' = apiTask w → sessions w' = sessions w → flag w' = flag w → Calm w w'.
Proof.
  intros E A S G. split; [by apply framed_same|]. split_and!; [done..|]. injection E as _ _ _ _ E _ _ _ _.
  unfold asked. by rewrite E, A.
Qed.

(** Idle requests. *)
Definition idle (m : ApiMsg TApi) : Prop := match m with LocOpenMsg | ApiOwn (ApiSetNmeaMask _) => True | _ => False end.
Lemma calm_send m : idle m → changes Calm (sendApi m : M TW unit).
Proof.
  intros Hm. apply changes_modify. intros w. split; [apply framed_send; by destruct m as [|[]]|].
  split_and!; [done..|]. rewrite asked_snoc. by destruct m as [|[]].
Qed.
Definition calm_setter (f : Tracking → Tracking) : Prop := ∀ s,
  (mTimeBasedTrackingSessions (f s), mDistanceBasedTrackingSessions (f s), mNHzNeeded (f s),
   mSPEAlreadyRunningAtHighestInterval (f s)) =
  (mTimeBasedTrackingSessions s, mDistanceBasedTrackingSessions s, mNHzNeeded s,
   mSPEAlreadyRunningAtHighestInterval s).
Lemma calm_st f : calm_setter f → changes Calm (upd_st f : M TW unit).
Proof.
  intros Hf. apply changes_modify. intros w. injection (Hf (st w)) as E1 E2 E3 E4.
  apply calm_same; unfold frame; simpl; congruence.
Qed.
Lemma calm_base f :
  (∀ b, mPendingMsgs (f b) = mPendingMsgs b ∧ mPendingGnssEnabledMsgs (f b) = mPendingGnssEnabledMsgs b) →
  changes Calm (upd_base f : M TW unit).
Proof.
  intros Hf. apply changes_modify. intros w. destruct (Hf (base w)) as [E1 E2].
  apply calm_same; unfold frame; simpl; congruence.
Qed.
Lemma calm_emit e : changes Calm (emit e : M TW unit).
Proof. apply changes_modify. intros w. by apply calm_same. Qed.
Lemma calm_emit_all l : changes Calm (emit_all l : M TW unit).
Proof. apply changes_modify. intros w. by apply calm_same. Qed.

Ltac calm :=
  repeat first
    [ progress intros
    | match goal with
      | |- changes Calm (upd_st _) => apply calm_st; intros ?; reflexivity
      | |- changes Calm (upd_base _) => apply calm_base; intros ?; split; reflexivity
      | |- changes Calm (sendApi _) => apply calm_send; exact I
      | |- changes Calm (emit _) => apply calm_emit
      | |- changes Calm (emit_own _) => apply calm_emit
      | |- changes Calm (emit_all _) => apply calm_emit_all
      | |- changes Calm (_ ≫= _) => apply changes_bind; [apply _| |]
      | |- changes Calm (when _ _) => apply changes_when; [apply _|]
      | |- changes Calm (gets _) => apply changes_gets; apply _
      | |- changes Calm (mret _) => apply changes_ret; apply _
      | |- changes Calm (let _ := _ in _) => cbv zeta
      | |- changes Calm (match ?x with _ => _ end) => destruct x
      end ].

Lemma calm_power : changes Calm reportPowerStateIfChanged.
Proof. unfold reportPowerStateIfChanged. calm. Qed.
Lemma calm_response c err id : changes Calm (reportResponse c err id).
Proof. unfold reportResponse. calm. Qed.
Lemma calm_setLocPositionMode m : changes Calm (setLocPositionMode m).
Proof. apply calm_st. intros s. by destruct (LocPosMode_equals _ _). Qed.
Lemma calm_checkUpdate b : changes Calm (checkUpdateDgnssNtrip b).
Proof. unfold checkUpdateDgnssNtrip. calm. Qed.
Lemma calm_stopDgnss : changes Calm stopDgnssNtrip.
Proof. unfold stopDgnssNtrip. calm. Qed.
Lemma calm_await : changes Calm await_nmea.
Proof. apply calm_st. intros s. by destruct (isDgnssNmeaRequired s). Qed.
Lemma calm_enable p : changes Calm (handleEnablePPENtrip p).
Proof. unfold handleEnablePPENtrip. calm. apply calm_checkUpdate. Qed.
Lemma calm_disable : changes Calm handleDisablePPENtrip.
Proof. unfold handleDisablePPENtrip. calm. apply calm_stopDgnss. Qed.
Lemma calm_nmea_masks l : changes Calm (update_nmea_masks l).
Proof. induction l as [|[c cb] l IH]; cbn [update_nmea_masks]; calm. apply IH. Qed.
Lemma calm_updateEvtMask e s : changes Calm (updateEvtMask e s : M TW unit).
Proof. unfold updateEvtMask. calm. Qed.
Lemma calm_updateClients : changes Calm tr_updateClientsEventMask.
Proof. unfold tr_updateClientsEventMask. calm; [apply calm_nmea_masks|apply calm_updateEvtMask]. Qed.
Lemma calm_info c cb : changes Calm (notifyClientOfCachedLocationSystemInfo c cb).
Proof. unfold notifyClientOfCachedLocationSystemInfo. calm. Qed.
#[local] Hint Resolve calm_power calm_response calm_setLocPositionMode calm_checkUpdate calm_stopDgnss calm_await
  calm_enable calm_disable calm_updateEvtMask calm_updateClients calm_info : gps.

(** *** The state between two messages, and while the messages of [held] are processed *)
Section held.
Context (held : list positive).

Record Queue (w : TW) : Prop := {
  q_nodup : NoDup (held ++ task w);
  q_msgs : Forall (λ p, ∃ m, heap w !! p = Some m ∧ tame_msg m) (held ++ task w);
  q_fresh : ∀ p, is_Some (heap w !! p) → (p < next w)%positive }.
Record Sound (w : TW) : Prop := {
  s_lock : lock w = ENGINE_LOCK_STATE_ENABLED;
  s_sessions : ok_sessions (sessions w);
  s_distance : mDistanceBasedTrackingSessions (st w) = ∅;
  s_pending : mPendingMsgs (base w) = [] ∧ mPendingGnssEnabledMsgs (base w) = [];
  s_flag : flag w = true → nhz w = true;
  s_api : Forall tame_api (apiTask w);
  s_queue : Queue w }.

Lemma tame_request_api m : tame_request m → tame_api m.
Proof. by destruct m as [|[]]. Qed.
Lemma tame_request_ssr l : Forall tame_request l → existsb is_ssr l = false.
Proof. induction 1 as [|m l Hm _ IH]; [done|]. simpl. by destruct m as [|[]]. Qed.
Lemma restarting_framed w w' : Framed w w' → restarting w' = restarting w.
Proof.
  intros [[= _ Eh _ Et _ _ _ _ _] (l & Ea & Hl)]. unfold restarting. rewrite Ea, Eh, Et, existsb_app.
  by rewrite (tame_request_ssr l), orb_false_r.
Qed.
Lemma sound_framed w w' :
  Sound w → Framed w w' → ok_sessions (sessions w') → (flag w' = true → nhz w' = true) → Sound w'.
Proof.
  intros [Hk _ Hd Hp _ Ha [Hn Hm Hf]] [[= Ek Eh En Et _ Ed _ E1 E2] (l & Ea & Hl)] Hs' Hg'.
  split; [congruence|done|congruence|destruct Hp; split; congruence|done|..].
  - rewrite Ea. apply Forall_app. split; [done|]. eapply Forall_impl; [done|]. apply tame_request_api.
  - split; rewrite ?Et, ?Eh, ?En; done.
Qed.
Lemma sound_same w w' :
  Sound w → Framed w w' → sessions w' = sessions w → flag w' = flag w → Sound w'.
Proof.
  intros Hw HF Es Ef. apply (sound_framed w); [done..| |].
  - rewrite Es. apply Hw.
  - destruct HF as [[= _ _ _ _ _ _ En _ _] _]. rewrite Ef, En. apply Hw.
Qed.
Lemma covered_same w w' m :
  restarting w' = restarting w → flag w' = flag w → asked w' = asked w → Covered w m → Covered w' m.
Proof. unfold Covered, at_highest. by intros -> -> ->. Qed.

(** Between the messages the sessions are covered. *)
Definition Inv (w : TW) : Prop := Sound w ∧ Covered w (sessions w).

Lemma calm_inv {X} (m : M TW X) w : changes Calm m → Inv w → ∃ x w', m w = Done x w' ∧ Inv w'.
Proof.
  intros Hm [Hs Hc]. destruct (Hm w) as (x & w' & E & HF & Es & Ef & Ea). exists x, w'. split; [done|].
  split; [by apply (sound_same w)|]. rewrite Es. eapply covered_same; [by apply restarting_framed|done..].
Qed.

(** *** Running the session of the modem *)

(** The session runs with interval at most [b]. *)
Record Runs (b : Z) (w w' : TW) : Prop := {
  r_framed : Framed w w';
  r_sessions : sessions w' = sessions w;
  r_flag : flag w' = true → nhz w' = true;
  r_asked : at_highest w → ∃ i, asked w' = Some i ∧ i ≤ b ∧ (flag w' = true → i = MIN_TRACKING_INTERVAL) }.

Lemma checkAndSetSPE_spec (o : TrackingOptions) (w : TW) :
  (flag w = true → nhz w = true) → MIN_TRACKING_INTERVAL ≤ minInterval o →
  ∃ (o' : TrackingOptions) (w' : TW), checkAndSetSPEToRunforNHz o w = Done (flag w, o') w' ∧ Framed w w' ∧ sessions w' = sessions w ∧
    asked w' = asked w ∧
    (flag w = true → flag w' = true) ∧ (flag w' = true → nhz w' = true) ∧
    MIN_TRACKING_INTERVAL ≤ minInterval o' ≤ minInterval o ∧
    (flag w' = true → flag w = false → minInterval o' = MIN_TRACKING_INTERVAL).
Proof.
  intros Hf Ho. unfold checkAndSetSPEToRunforNHz. rewrite (bind_done _ _ w (st w) w) by done.
  destruct (nhz w) eqn:En; simpl.
  2: { assert (Ef : flag w = false) by (destruct (flag w); [by specialize (Hf eq_refl)|done]). rewrite Ef.
       exists o, w. split_and!; intros; first [done|lia|congruence]. }
  destruct (flag w) eqn:Ef; simpl.
  { exists o, w. split_and!; intros; first [done|lia|congruence]. }
  destruct (Z.ltb_spec MIN_TRACKING_INTERVAL (minInterval o)).
  - eexists _, _. split; [reflexivity|]. split_and!; try done; simpl; try lia. by apply framed_same.
  - exists o, w. split_and!; intros; first [done|lia|congruence].
Qed.

Lemma run_time_based_spec c id (o : TrackingOptions) r w :
  Sound w → MIN_TRACKING_INTERVAL ≤ minInterval o → tame_response r →
  ∃ w', run_time_based c id o r w = Done tt w' ∧ Runs (minInterval o) w w'.
Proof.
  intros Hw Ho Hr. unfold run_time_based.
  destruct (calm_setLocPositionMode (convertOptions o) w) as ([] & w1 & E1 & F1 & S1 & G1 & A1).
  set (w2 := set_out (out w1 ++ [EvOwn (EvSetFixMode (mLocPositionMode (st w1)))]) w1).
  set (w3 := set_out (out w2 ++ [EvOwn EvStartFix]) w2).
  assert (Hw3 : Calm w3 w3 ∧ Framed w w3 ∧ sessions w3 = sessions w ∧ flag w3 = flag w ∧ nhz w3 = nhz w ∧ asked w3 = asked w).
  { split; [done|]. split; [etrans; [exact F1|by apply framed_same]|].
    split_and!; [done|done|by destruct F1 as [[= _ _ _ _ _ _ ? _ _] _]|exact A1]. }
  destruct Hw3 as (_ & F3 & S3 & G3 & N3 & A3).
  rewrite (bind_done _ _ _ _ _ E1), (bind_done _ _ w1 (mLocPositionMode (st w1)) w1) by done.
  rewrite (bind_done _ _ w1 tt w2), (bind_done _ _ w2 tt w3) by done.
  destruct (checkAndSetSPE_spec o w3) as (o' & w4 & E4 & F4 & S4 & A4 & G4 & N4 & Ho' & Hi).
  { rewrite G3, N3. apply Hw. } { done. }
  rewrite (bind_done _ _ _ _ _ E4). destruct (flag w3) eqn:Ef.
  - destruct (calm_response c LOCATION_ERROR_SUCCESS id w4) as ([] & w5 & E5 & F5 & S5 & G5 & A5).
    exists w5. split; [done|]. split; [by etrans; [|etrans]|congruence| |].
    + rewrite G5. destruct F5 as [[= _ _ _ _ _ _ -> _ _] _]. done.
    + intros Hh. exists MIN_TRACKING_INTERVAL. rewrite A5, A4, A3, Hh by congruence. split_and!; [done|lia|done].
  - set (req := ApiOwn (ApiStartTimeBasedTracking o' (Some r))).
    exists (set_apiTask (apiTask w4 ++ [req]) w4). split; [done|]. split.
    + etrans; [exact F3|]. etrans; [exact F4|]. apply framed_send. simpl. split; [lia|done].
    + simpl. congruence.
    + done.
    + intros _. exists (minInterval o'). rewrite asked_snoc. split_and!; [done|lia|]. auto.
Qed.
Lemma start_spec c id (o : TrackingOptions) w :
  Sound w → MIN_TRACKING_INTERVAL ≤ minInterval o →
  ∃ w', startTimeBasedTracking c id o w = Done tt w' ∧ Runs (minInterval o) w w'.
Proof. intros. by apply run_time_based_spec. Qed.

(** A session that runs covers the sessions that ask for no more. *)
Lemma runs_covered b w w' m :
  Runs b w w' → (restarting w = false → at_highest w) → m ≠ ∅ → map_Forall (λ _ o, b ≤ interval_of o) m → Covered w' m.
Proof.
  intros [HF _ _ Ha] Hh Hne Hm. split; [done|]. rewrite (restarting_framed _ _ HF). intros Hr.
  destruct (Ha (Hh Hr)) as (i & Ei & Hi & Hf). split.
  - intros Hg. rewrite Ei. by rewrite Hf.
  - rewrite Ei. split; [done|]. intros k o Hk. pose proof (Hm k o Hk). simpl in *. lia.
Qed.
Lemma runs_sound b w w' : Sound w → Runs b w w' → Sound w'.
Proof. intros Hw [HF Hs Hf _]. apply (sound_framed w); [done..| |done]. rewrite Hs. apply Hw. Qed.

(** *** Multiplexing keeps the sessions covered *)

(** Sessions that ask for no more than those that are covered. *)
Lemma covered_le w m m' :
  m' ≠ ∅ → (∀ k o, m' !! k = Some o → ∃ k' o', m !! k' = Some o' ∧ interval_of o' ≤ interval_of o) →
  Covered w m → Covered w m'.
Proof.
  intros Hne Hle [_ Hc]. split; [done|]. intros Hr. destruct (Hc Hr) as [Hh Hk]. split; [done|].
  destruct (map_choose _ Hne) as (k & o & Hko). destruct (Hle k o Hko) as (k' & o' & Hk' & _).
  destruct (asked w) as [i|]; simpl in *; [|subst m; by rewrite lookup_empty in Hk'].
  split; [done|]. intros k1 o1 H1. destruct (Hle k1 o1 H1) as (k2 & o2 & H2 & Hi).
  pose proof (proj2 Hk k2 o2 H2) as Hi2. simpl in Hi2. lia.
Qed.

Lemma demand_interval (o : TrackingOptions) acc :
  interval_of (demand o acc).1 = Z.min (interval_of o) (interval_of acc.1) ∧
  ((demand o acc).2 = false → interval_of acc.1 ≤ interval_of o).
Proof.
  destruct acc as [a p]. unfold demand, interval_of. simpl. destruct (Z.ltb_spec (minInterval o) (minInterval a)).
  - by destruct (_ <? _); simpl; split; intros; try lia.
  - destruct (_ <? _); simpl; split; intros; try lia.
Qed.

(** What multiplexing does: the code ends, and the sessions [m] will be covered. *)
Definition Multiplexed (m : gmap LocationSessionKey TrackingOptions) (w w' : TW) : Prop :=
  Sound w' ∧ Framed w w' ∧ sessions w' = sessions w ∧ Covered w' m.

Lemma runs_multiplexed b m w w' :
  Inv w → Runs b w w' → m ≠ ∅ → map_Forall (λ _ o, b ≤ interval_of o) m → Multiplexed m w w'.
Proof.
  intros [Hw [_ Hc]] HR Hne Hm. split; [by eapply runs_sound|]. split; [apply HR|]. split; [apply HR|].
  eapply runs_covered; [done| |done|done]. intros Hr. by apply Hc.
Qed.

(** Another session than [k]. *)
Lemma delete_size {V} (m : gmap LocationSessionKey V) k x : m !! k = Some x → delete k m = ∅ ↔ size m = 1%nat.
Proof.
  intros Hk. rewrite <- map_size_empty_iff, map_size_delete_Some by by eexists.
  assert (size m ≠ 0%nat) by (intros E%map_size_empty_inv; subst m; by rewrite lookup_empty in Hk). lia.
Qed.
Lemma other_session {V} (m : gmap LocationSessionKey V) k x :
  m !! k = Some x → size m ≠ 1%nat → ∃ k' x', m !! k' = Some x' ∧ bool_decide (k' = k) = false.
Proof.
  intros Hk Hn. destruct (decide (delete k m = ∅)) as [E|N].
  - by apply (delete_size _ _ _ Hk) in E.
  - destruct (map_choose _ N) as (k' & x' & Hx). apply lookup_delete_Some in Hx as [Hne Hx].
    exists k', x'. split; [done|]. by apply bool_decide_eq_false.
Qed.
Lemma only_session {V} (m : gmap LocationSessionKey V) k x k' x' :
  m !! k = Some x → size m = 1%nat → m !! k' = Some x' → k' = k.
Proof.
  intros Hk E%(delete_size _ _ _ Hk) Hk'. destruct (decide (k' = k)) as [|N]; [done|].
  by rewrite <- (lookup_delete_ne m k k'), E, lookup_empty in Hk'.
Qed.

Lemma multiplexed_same m w : Sound w → Covered w m → Multiplexed m w w.
Proof. by intros Hw Hc. Qed.

Lemma startMultiplex_spec c id k (o : TrackingOptions) w :
  Inv w → ok_options o →
  ∃ b w', startTimeBasedTrackingMultiplex c id o w = Done b w' ∧ Multiplexed (<[k := o]> (sessions w)) w w'.
Proof.
  intros HI Ho. pose proof HI as [Hw Hc]. unfold startTimeBasedTrackingMultiplex.
  rewrite (bind_done _ _ w (st w) w) by done. pose proof (insert_non_empty (sessions w) k o) as Hne.
  destruct (decide (sessions w = ∅)) as [E|N].
  - set (w1 := set_st (set_prevNmea 0 (st w)) w). assert (Hw1 : Inv w1).
    { destruct (calm_inv (upd_st (set_prevNmea 0)) w) as (? & ? & [= <- <-] & H); [by apply calm_st|done|done]. }
    destruct (start_spec c id o w1) as (w2 & E2 & H2); [apply Hw1|apply Ho|].
    exists false, w2. rewrite (bind_done _ _ w tt w1), (bind_done _ _ _ _ _ E2) by done. split; [done|].
    destruct (runs_multiplexed _ (<[k := o]> (sessions w)) _ _ Hw1 H2 Hne) as (? & F & ?).
    { rewrite E. intros k' o' Hk'. apply lookup_insert_Some in Hk' as [[_ <-]|[_ H]]; [unfold interval_of; lia|by rewrite lookup_empty in H]. }
    split; [done|]. split; [|done]. etrans; [|exact F]. by apply framed_same.
  - destruct (demand_interval o (fastest (λ _, false) (sessions w))) as [Hi Hu].
    destruct (fastest_interval (λ _, false) _ (s_sessions _ Hw)) as (k1 & Hk1 & _ & (_ & Hmin)).
    { destruct (map_choose _ N) as (k' & o' & ?). by exists k', o'. }
    set (f := (fastest (λ _, false) (sessions w))) in *. pose proof (s_sessions _ Hw _ _ Hk1) as [_ Hmf].
    destruct Ho as [_ Ho]. unfold interval_of in *. destruct (demand o f) as [o' [|]]; simpl in *.
    + destruct (start_spec c id o' w) as (w' & E' & H'); [done|lia|].
      exists false, w'. rewrite (bind_done _ _ _ _ _ E'). split; [done|]. eapply runs_multiplexed; [done..|].
      intros k' x Hx. unfold interval_of. apply lookup_insert_Some in Hx as [[_ <-]|[_ Hx]]; [lia|].
      pose proof (Hmin k' x Hx eq_refl). lia.
    + exists true, w. split; [done|]. apply multiplexed_same; [done|].
      eapply covered_le; [done| |exact Hc]. intros k' x Hx.
      apply lookup_insert_Some in Hx as [[_ <-]|[_ Hx]]; [exists k1, f.1|exists k', x];
        (split; [done|]); [by apply Hu|unfold interval_of; lia].
Qed.

Lemma updateMultiplex_spec c id (o : TrackingOptions) old w :
  Inv w → ok_options o → sessions w !! mkKey c id = Some old →
  ∃ b w', updateTrackingMultiplex c id o w = Done b w' ∧ Multiplexed (<[mkKey c id := o]> (sessions w)) w w'.
Proof.
  intros HI Ho Hold. pose proof HI as [Hw Hc]. unfold updateTrackingMultiplex.
  rewrite (bind_done _ _ w (st w) w), (bind_done _ _ w old w) by first [done|by apply deref_done].
  set (k := mkKey c id) in *. pose proof (insert_non_empty (sessions w) k o) as Hne.
  assert (Hsame : ∀ m, Covered w m → Multiplexed m w w) by (by intros; apply multiplexed_same).
  unfold update_from. destruct (negb _ || _) eqn:Ech.
  2: { exists true, w. split; [done|]. apply Hsame. apply orb_false_iff in Ech as [Ei _].
       apply negb_false_iff, Z.eqb_eq in Ei. eapply covered_le; [done| |exact Hc].
       intros k' x Hx. apply lookup_insert_Some in Hx as [[<- <-]|[_ Hx]]; [exists k, old|exists k', x];
         (split; [done|]); unfold interval_of; lia. }
  fold k. set (skip := λ k0, bool_decide (k0 = k)).
  destruct (demand_interval o (fastest skip (sessions w))) as [Hi Hu].
  destruct (demand o (fastest skip (sessions w))) as [o1 b1]. simpl in Hi, Hu. destruct (Nat.eqb_spec (size (sessions w)) 1) as [E1|N1].
  - destruct (run_time_based_spec c id o (RUpdate c id old) w) as (w' & E' & H'); [done|apply Ho|done|].
    exists false, w'. unfold updateTracking. rewrite (bind_done _ _ _ _ _ E'). split; [done|]. eapply runs_multiplexed; [done..|].
    intros k' x Hx. unfold interval_of. apply lookup_insert_Some in Hx as [[_ <-]|[Hne' Hx]]; [lia|].
    by destruct Hne'; rewrite (only_session _ _ _ _ _ Hold E1 Hx).
  - destruct (fastest_interval skip _ (s_sessions _ Hw)) as (k1 & Hk1 & Hs1 & (_ & Hmin)).
    { by eapply other_session. }
    set (f := fastest skip (sessions w)) in *. pose proof (s_sessions _ Hw _ _ Hk1) as [_ Hmf].
    destruct Ho as [_ Ho]. unfold interval_of in *. destruct b1; simpl in *.
    + destruct (run_time_based_spec c id o1 (RUpdate c id old) w) as (w' & E' & H'); [done|lia|done|].
      exists false, w'. unfold updateTracking. rewrite (bind_done _ _ _ _ _ E'). split; [done|]. eapply runs_multiplexed; [done..|].
      intros k' x Hx. unfold interval_of. apply lookup_insert_Some in Hx as [[_ <-]|[Hk' Hx]]; [lia|].
      pose proof (Hmin k' x Hx ltac:(by apply bool_decide_eq_false)). lia.
    + exists true, w. split; [done|]. apply Hsame. eapply covered_le; [done| |exact Hc]. intros k' x Hx.
      apply lookup_insert_Some in Hx as [[_ <-]|[_ Hx]]; [exists k1, f.1|exists k', x];
        (split; [done|]); [by apply Hu|unfold interval_of; lia].
Qed.

Lemma stopTracking_spec c id k w :
  Inv w → (size (sessions w) = 1)%nat → is_Some (sessions w !! k) →
  ∃ w', stopTracking c id w = Done tt w' ∧ Multiplexed (delete k (sessions w)) w w'.
Proof.
  intros [Hw Hc] Es [o Hk]. unfold stopTracking.
  set (req := ApiOwn (ApiStopFix (Some (RStopFix c id)))).
  set (w1 := set_out (out w ++ [EvOwn EvStopFix]) w). set (w2 := set_apiTask (apiTask w1 ++ [req]) w1).
  assert (F2 : Framed w w2) by (etrans; [by apply (framed_same w w1)|by apply framed_send]).
  assert (H : changes Calm (_ ← await_nmea; stopDgnssNtrip)) by (calm; auto with gps).
  destruct (H w2) as ([] & w3 & E3 & F3 & S3 & G3 & A3).
  exists (set_st (set_spe false (st w3)) w3).
  rewrite (bind_done _ _ w tt w1), (bind_done _ _ w1 tt w2) by done.
  apply bind_inv in E3 as ([] & w4 & E4 & E5). rewrite (bind_done _ _ _ _ _ E4), (bind_done _ _ _ _ _ E5).
  assert (F : Framed w (set_st (set_spe false (st w3)) w3)) by (etrans; [|etrans; [|by apply framed_same]]; done).
  split; [done|]. split; [|split; [done|split; [exact S3|]]].
  - apply (sound_framed w); [done..| |done]. simpl. rewrite S3. apply Hw.
  - assert (A : asked (set_st (set_spe false (st w3)) w3) = None).
    { change (asked w3 = None). rewrite A3. unfold w2. by rewrite asked_snoc. }
    split; [done|]. intros _. split; [done|]. rewrite A. by apply (delete_size _ _ o).
Qed.

Lemma stopMultiplex_spec c id w :
  Inv w → is_Some (sessions w !! mkKey c id) →
  ∃ b w', stopTimeBasedTrackingMultiplex c id w = Done b w' ∧ Multiplexed (delete (mkKey c id) (sessions w)) w w'.
Proof.
  intros HI [o Ho]. pose proof HI as [Hw Hc]. unfold stopTimeBasedTrackingMultiplex.
  rewrite (bind_done _ _ w (st w) w) by done. set (k := mkKey c id) in *.
  destruct (Nat.eqb_spec (size (sessions w)) 1) as [E1|N1].
  { destruct (stopTracking_spec c id k w) as (w' & E' & H'); [done..|].
    exists false, w'. by rewrite (bind_done _ _ _ _ _ E'). }
  rewrite Ho. set (skip := λ k0, bool_decide (k0 = k)).
  assert (Hne : delete k (sessions w) ≠ ∅) by (intros E; by apply (delete_size _ _ o) in E).
  destruct (fastest_interval skip _ (s_sessions _ Hw)) as (k1 & Hk1 & Hs1 & (_ & Hmin)).
  { by eapply other_session. }
  assert (Hle : ∀ k' x, delete k (sessions w) !! k' = Some x → interval_of (fastest skip (sessions w)).1 ≤ interval_of x).
  { intros k' x [Hk' Hx]%lookup_delete_Some. apply (Hmin k'); [done|]. by apply bool_decide_eq_false. }
  pose proof (s_sessions _ Hw _ _ Hk1) as [_ Hmf]. destruct (fastest skip (sessions w)) as [f p]. simpl in *.
  destruct (_ || _).
  - destruct (start_spec c id (set_power p f) w) as (w' & E' & H'); [done..|].
    exists false, w'. rewrite (bind_done _ _ _ _ _ E'). split; [done|]. by eapply runs_multiplexed.
  - exists true, w. split; [done|]. apply multiplexed_same; [done|]. eapply covered_le; [done| |exact Hc].
    intros k' x [_ Hx]%lookup_delete_Some. by exists k', x.
Qed.

(** *** Saving and erasing *)
Lemma calm_last {X} (m : M TW X) w : changes Calm m → Inv w → ∃ x w', m w = Done x w' ∧ Inv w' ∧ sessions w' = sessions w.
Proof.
  intros Hm [Hs Hc]. destruct (Hm w) as (x & w' & E & HF & Es & Ef & Ea). exists x, w'. split; [done|].
  split; [|done]. split; [by apply (sound_same w)|]. rewrite Es. eapply covered_same; [by apply restarting_framed|done..].
Qed.
Lemma set_time_inv m w :
  Sound w → ok_sessions m → Covered w m → Inv (set_st (set_time m (st w)) w).
Proof. intros [? ? ? ? ? ? [? ? ?]] Hm Hc. split; [split; [done..|by split]|exact Hc]. Qed.

Lemma save_spec f c id (o : TrackingOptions) w :
  Sound w → Covered w (<[mkKey c id := o]> (sessions w)) → ok_options o → minDistance o = 0 →
  ∃ w', saveTrackingSession f c id o w = Done tt w' ∧ Inv w' ∧ sessions w' = <[mkKey c id := o]> (sessions w).
Proof.
  intros Hw Hc Ho Hd. unfold saveTrackingSession. replace (is_distance f o) with false by (unfold is_distance; by rewrite Hd).
  set (m := <[mkKey c id := o]> (sessions w)). set (w1 := set_st (set_time m (st w)) w).
  destruct (calm_last _ w1 calm_power) as ([] & w' & E & H & S).
  { apply set_time_inv; [done| |done]. apply map_Forall_insert_2; [done|apply Hw]. }
  exists w'. by rewrite (bind_done _ _ w tt w1).
Qed.
Lemma erase_spec c id w :
  Sound w → Covered w (delete (mkKey c id) (sessions w)) → is_Some (sessions w !! mkKey c id) →
  ∃ w', eraseTrackingSession c id w = Done tt w' ∧ Inv w' ∧ sessions w' = delete (mkKey c id) (sessions w).
Proof.
  intros Hw Hc [o Ho]. unfold eraseTrackingSession.
  set (m := delete (mkKey c id) (sessions w)). set (w1 := set_st (set_time m (st w)) w).
  destruct (calm_last _ w1 calm_power) as ([] & w' & E & H & S).
  { apply set_time_inv; [done| |done]. apply map_Forall_delete, Hw. }
  exists w'. rewrite (bind_done _ _ w tt w1); [done|]. unfold upd_st, modify. f_equal. unfold w1. f_equal.
  unfold isTimeBasedTrackingSession. by rewrite Ho.
Qed.

(** *** Restarts *)

(** After a restart of the modem there may be sessions it does not know. *)
Definition Weak (w : TW) : Prop := Sound w ∧ (sessions w = ∅ → asked w = None).
Lemma inv_weak w : Inv w → Weak w.
Proof. by intros [H [? _]]. Qed.
Lemma calm_weak {X} (m : M TW X) w : changes Calm m → Weak w → ∃ x w', m w = Done x w' ∧ Weak w' ∧ sessions w' = sessions w.
Proof.
  intros Hm [Hs Hc]. destruct (Hm w) as (x & w' & E & HF & Es & Ef & Ea). exists x, w'. split; [done|].
  split; [|done]. split; [by apply (sound_same w)|]. by rewrite Es, Ea.
Qed.
Lemma spe_weak w : Weak w → Weak (set_st (set_spe false (st w)) w).
Proof. intros [[? ? ? ? ? ? [? ? ?]] Hc]. split; [split; [done..|by split]|exact Hc]. Qed.

Lemma checkAndRestart_spec w :
  Weak w → ∃ w', checkAndRestartSPESession w = Done tt w' ∧ Inv w' ∧ sessions w' = sessions w.
Proof.
  intros Hwk. unfold checkAndRestartSPESession. apply spe_weak in Hwk as [Hw He].
  set (w1 := set_st (set_spe false (st w)) w) in *. rewrite (bind_done _ _ w tt w1) by done.
  assert (Hend : ∀ w', mDistanceBasedTrackingSessions (st w') = ∅ →
    (l ← gets (λ w : TW, in_order LocationSessionKey_le (mDistanceBasedTrackingSessions (st w))); restart_distance l) w' = Done tt w').
  { intros w' E. unfold mbind, M_bind, gets. by rewrite E. }
  unfold checkAndRestartTimeBasedSession. destruct (decide (sessions w = ∅)) as [E|N].
  - exists w1. rewrite (bind_done _ _ w1 tt w1).
    2: { rewrite (bind_done _ _ w1 (st w1) w1) by done. by rewrite decide_True. }
    rewrite Hend by apply Hw. split; [done|]. split; [|done]. split; [done|]. split; [done|]. intros _. split; [done|].
    by rewrite (He E).
  - destruct (fastest_interval (λ _, false) _ (s_sessions _ Hw)) as (k1 & Hk1 & _ & (_ & Hmin)).
    { destruct (map_choose _ N) as (k' & o' & ?). by exists k', o'. }
    pose proof (s_sessions _ Hw _ _ Hk1) as [_ Hm]. change (MIN_TRACKING_INTERVAL ≤ interval_of (fastest (λ _, false) (sessions w1)).1) in Hm.
    rewrite <- restart_interval in Hm, Hmin.
    destruct (checkAndSetSPE_spec (restart_options (sessions w1)) w1) as (o' & w2 & E2 & F2 & S2 & A2 & G2 & N2 & Ho' & Hi);
      [apply Hw|exact Hm|].
    set (req := ApiOwn (ApiStartTimeBasedTracking o' None)). set (w3 := set_apiTask (apiTask w2 ++ [req]) w2).
    assert (F3 : Framed w1 w3) by (etrans; [done|]; apply framed_send; split; [lia|done]).
    assert (Hw3 : Sound w3) by (apply (sound_framed w1); [done..| |done]; simpl; rewrite S2; apply Hw).
    exists w3. rewrite (bind_done _ _ w1 tt w3).
    2: { rewrite (bind_done _ _ w1 (st w1) w1) by done. rewrite decide_False by done. by rewrite (bind_done _ _ _ _ _ E2). }
    rewrite Hend by apply Hw3. split; [done|]. split; [|exact S2]. split; [done|].
    split; [intros E; simpl in E; by rewrite S2 in E|]. intros _.
    assert (A3 : asked w3 = Some (minInterval o')) by (unfold w3; by rewrite asked_snoc). split.
    + intros Hg. rewrite A3. by rewrite Hi.
    + rewrite A3. change (sessions w3) with (sessions w2). rewrite S2. split; [done|].
      intros k x Hx. pose proof (Hmin k x Hx eq_refl). unfold interval_of in *. simpl in *. lia.
Qed.

Lemma odcpi_weak b w : Weak w → Weak (set_st (set_odcpi b (st w)) w).
Proof. intros [[? ? ? ? ? ? [? ? ?]] Hc]. split; [split; [done..|by split]|exact Hc]. Qed.
Lemma restartSessions_spec ssr w :
  Weak w → ∃ w', restartSessions ssr w = Done tt w' ∧ Inv w' ∧ sessions w' = sessions w.
Proof.
  intros Hw. unfold restartSessions.
  destruct (calm_weak (when ssr (upd_st (set_odcpi false))) w) as ([] & w1 & E1 & H1 & S1); [calm|done|].
  apply spe_weak in H1. set (w2 := set_st (set_spe false (st w1)) w1) in *.
  rewrite (bind_done _ _ _ _ _ E1), (bind_done _ _ w1 tt w2), (bind_done _ _ w2 (st w2) w2) by done.
  match goal with |- context [when ?b ?m ≫= _] =>
    destruct (calm_weak (when b m) w2) as ([] & w3 & E3 & H3 & S3); [calm; auto with gps|done|] end.
  rewrite (bind_done _ _ _ _ _ E3). destruct (checkAndRestart_spec w3 H3) as (w4 & E4 & H4 & S4).
  exists w4. split_and!; [done..|]. rewrite S4, S3. exact S1.
Qed.

Lemma suspend_spec w : Weak w → ∃ w', suspendSessions w = Done tt w' ∧ Weak w'.
Proof.
  intros Hw. unfold suspendSessions. rewrite (bind_done _ _ w (st w) w) by done.
  destruct (isInSession (st w)) eqn:Es; [|by exists w]. cbn [when].
  set (w1 := set_out (out w ++ [EvOwn EvStopFix]) w). set (w2 := set_apiTask (apiTask w1 ++ [ApiOwn (ApiStopFix None)]) w1).
  rewrite (bind_done _ _ w tt w1), (bind_done _ _ w1 tt w2) by done.
  assert (H2 : Weak w2).
  { destruct Hw as [Hw _]. split; [|intros _; unfold w2; by rewrite asked_snoc].
    apply (sound_same w); [done| |done..]. etrans; [by apply (framed_same w w1)|by apply framed_send]. }
  destruct (calm_weak _ w2 calm_await) as ([] & w3 & E3 & H3 & S3); [done|]. rewrite (bind_done _ _ _ _ _ E3).
  destruct (calm_weak _ w3 calm_stopDgnss) as ([] & w4 & E4 & H4 & S4); [done|]. rewrite (bind_done _ _ _ _ _ E4).
  exists (set_st (set_spe false (st w4)) w4). split; [done|]. by apply spe_weak.
Qed.

(** *** The messages *)
Definition Kept {X} (m : M TW X) : Prop := ∀ w, Inv w → ∃ x w', m w = Done x w' ∧ Inv w'.
Lemma kept_calm {X} (m : M TW X) : changes Calm m → Kept m.
Proof. intros Hm w. by apply calm_inv. Qed.
Lemma kept_bind {X Y} (m : M TW X) (k : X → M TW Y) : Kept m → (∀ x, Kept (k x)) → Kept (m ≫= k).
Proof.
  intros Hm Hk w Hw. destruct (Hm w Hw) as (x & w1 & E1 & H1). destruct (Hk x w1 H1) as (y & w2 & E2 & H2).
  exists y, w2. by rewrite (bind_done _ _ _ _ _ E1).
Qed.

Lemma ok_at_least (o : TrackingOptions) : options_size o ≠ 0 → ok_options (at_least_min o).
Proof.
  intros Ho. unfold at_least_min, ok_options. destruct (Z.ltb_spec (minInterval o) MIN_TRACKING_INTERVAL); simpl; split; done || lia.
Qed.
Lemma ok_fallback (o : TrackingOptions) : ok_options o → ok_options (tbm_fallback o).
Proof. unfold tbm_fallback. by destruct (_ && _). Qed.
Lemma fallback_size (o : TrackingOptions) : options_size (tbm_fallback o) = options_size o.
Proof. unfold tbm_fallback. by destruct (_ && _). Qed.
Lemma at_least_distance (o : TrackingOptions) : minDistance (at_least_min o) = minDistance o.
Proof. unfold at_least_min. by destruct (_ <? _). Qed.
Lemma fallback_distance (o : TrackingOptions) : minDistance (tbm_fallback o) = minDistance o.
Proof. unfold tbm_fallback. by destruct (_ && _). Qed.

(** Saving the options the modem was asked for, and the answer. *)
Lemma save_answer f c id (o : TrackingOptions) b w m :
  m = <[mkKey c id := o]> (sessions w) → Sound w → Covered w m → ok_options o → minDistance o = 0 →
  ∃ w', (_ ← saveTrackingSession f c id o; when b (reportResponse c LOCATION_ERROR_SUCCESS id)) w = Done tt w' ∧ Inv w'.
Proof.
  intros -> Hw Hc Ho Hd. destruct (save_spec f c id o w) as (w1 & E1 & H1 & _); [done..|].
  rewrite (bind_done _ _ _ _ _ E1).
  destruct (calm_inv (when b (reportResponse c LOCATION_ERROR_SUCCESS id)) w1) as ([] & w2 & E2 & H2); [|done|by exists w2].
  calm. auto with gps.
Qed.

Lemma start_time_based_kept f c id (o : TrackingOptions) :
  ok_options o → minDistance o = 0 → Kept (start_time_based f c id o).
Proof.
  intros Ho Hd w Hw. unfold start_time_based.
  destruct (startMultiplex_spec c id (mkKey c id) o w) as (b & w1 & E1 & H1 & F1 & S1 & C1); [done..|].
  rewrite (bind_done _ _ _ _ _ E1). destruct (save_answer f c id o b w1 _ eq_refl) as (w2 & E2 & H2); rewrite ?S1; [done..|].
  by exists tt, w2.
Qed.

Lemma proc_start_kept f c id (o : TrackingOptions) : minDistance o = 0 → Kept (proc_start f c id o).
Proof.
  intros Hd w Hw. unfold proc_start. rewrite (bind_done _ _ w (base w) w) by done.
  destruct (hasCallbacksToStartTracking c (base w)); [|by exists tt, w]. simpl negb. cbv iota.
  destruct (Z.eqb_spec (options_size o) 0) as [|Hs]; [by exists tt, w|]. cbv zeta.
  replace (is_distance f (at_least_min o)) with false by (unfold is_distance; by rewrite at_least_distance, Hd).
  apply start_time_based_kept; [by apply ok_fallback, ok_at_least|by rewrite fallback_distance, at_least_distance|done].
Qed.

Lemma is_session c id (w : TW) : isTimeBasedTrackingSession c id (st w) = true → ∃ o, sessions w !! mkKey c id = Some o.
Proof. unfold isTimeBasedTrackingSession. destruct (_ !! _); [by eexists|done]. Qed.
Lemma no_distance c id (w : TW) : Sound w → isDistanceBasedTrackingSession c id (st w) = false.
Proof. intros Hw. unfold isDistanceBasedTrackingSession. by rewrite (s_distance _ Hw), lookup_empty. Qed.

Lemma proc_update_kept f c id (o : TrackingOptions) : minDistance o = 0 → Kept (proc_update f c id o).
Proof.
  intros Hd w Hw. unfold proc_update. rewrite (bind_done _ _ w (st w) w) by done. cbv zeta.
  rewrite no_distance by apply Hw. cbn [negb]. rewrite andb_true_r.
  destruct (isTimeBasedTrackingSession c id (st w)) eqn:Et; cbn [negb andb]; cbv iota;
    [|apply kept_calm; [auto with gps|done]].
  destruct (Z.eqb_spec (options_size o) 0) as [|Hs]; [apply kept_calm; [auto with gps|done]|].
  set (o' := at_least_min (tbm_fallback o)).
  assert (Hd' : minDistance o' = 0) by (unfold o'; by rewrite at_least_distance, fallback_distance).
  assert (Ho' : ok_options o') by (apply ok_at_least; by rewrite fallback_size).
  rewrite Hd'. simpl. apply is_session in Et as [old Eo].
  destruct (updateMultiplex_spec c id o' old w) as (b & w1 & E1 & H1 & F1 & S1 & C1); [done..|].
  rewrite (bind_done _ _ _ _ _ E1). destruct (save_answer f c id o' b w1 _ eq_refl) as (w2 & E2 & H2); rewrite ?S1; [done..|].
  by exists tt, w2.
Qed.

Lemma stop_erase c id w :
  Inv w → is_Some (sessions w !! mkKey c id) →
  ∃ b w1 w2, stopTimeBasedTrackingMultiplex c id w = Done b w1 ∧ eraseTrackingSession c id w1 = Done tt w2 ∧
    Inv w2 ∧ sessions w2 = delete (mkKey c id) (sessions w).
Proof.
  intros Hw Hk. destruct (stopMultiplex_spec c id w Hw Hk) as (b & w1 & E1 & H1 & F1 & S1 & C1).
  destruct (erase_spec c id w1) as (w2 & E2 & H2 & S2); [done|by rewrite S1..|].
  exists b, w1, w2. by rewrite S2, S1.
Qed.

Lemma proc_stop_kept c id : Kept (proc_stop c id).
Proof.
  intros w Hw. unfold proc_stop. rewrite (bind_done _ _ w (st w) w) by done.
  rewrite no_distance by apply Hw. destruct (isTimeBasedTrackingSession c id (st w)) eqn:Et.
  - apply is_session in Et as [o Eo]. destruct (stop_erase c id w Hw) as (b & w1 & w2 & E1 & E2 & H2 & _); [by eexists|].
    rewrite (bind_done _ _ _ _ _ E1), (bind_done _ _ _ _ _ E2). apply kept_calm; [|done]. calm. auto with gps.
  - apply kept_calm; [auto with gps|done].
Qed.

Lemma proc_response_kept f r : tame_response r → Kept (proc_response f r LOCATION_ERROR_SUCCESS).
Proof.
  intros Hr w Hw. unfold proc_response. rewrite (bind_done _ _ w (lock w) w), (s_lock _ (proj1 Hw)) by done.
  replace (failed ENGINE_LOCK_STATE_ENABLED LOCATION_ERROR_SUCCESS) with false by done.
  apply kept_calm; [|done]. destruct r; try done; cbn [when]; calm; auto with gps.
Qed.

Lemma stop_time_based_kept ks w :
  NoDup ks → Inv w → (∀ k, k ∈ ks → is_Some (sessions w !! k)) → ∃ w', stop_time_based ks w = Done tt w' ∧ Inv w'.
Proof.
  revert w. induction ks as [|[c id] ks IH]; intros w Hnd Hw Hk; [by exists w|]. cbn [stop_time_based key_client key_id].
  apply NoDup_cons in Hnd as [Hni Hnd].
  destruct (stop_erase c id w Hw) as (b & w1 & w2 & E1 & E2 & H2 & S2); [apply Hk; constructor|].
  rewrite (bind_done _ _ _ _ _ E1), (bind_done _ _ _ _ _ E2). apply IH; [done..|].
  intros k Hin. rewrite S2, lookup_delete_ne by congruence. apply Hk. by constructor.
Qed.
Lemma keys_of_spec {V} c (m : gmap LocationSessionKey V) :
  NoDup (keys_of c m) ∧ ∀ k, k ∈ keys_of c m → is_Some (m !! k).
Proof.
  unfold keys_of. split; [apply NoDup_filter, NoDup_in_order|].
  intros k [_ ([k' o] & -> & Hx)%list_elem_of_fmap]%list_elem_of_filter. apply elem_of_in_order in Hx. by eexists.
Qed.
Lemma stopClientSessions_kept c : Kept (tr_stopClientSessions c).
Proof.
  intros w Hw. unfold tr_stopClientSessions. destruct (keys_of_spec c (sessions w)) as [Hn Hk].
  rewrite (bind_done _ _ w (keys_of c (sessions w)) w) by done.
  destruct (stop_time_based_kept _ w Hn Hw Hk) as (w1 & E1 & H1). rewrite (bind_done _ _ _ _ _ E1).
  exists tt, w1. split; [|done]. unfold mbind, M_bind, gets. by rewrite (s_distance _ (proj1 H1)).
Qed.

(** *** The adapter's task *)

(** A task whose queue is extended by tame messages. *)
Lemma queue_fresh w p : Queue w → p ∈ held ++ task w → (p < next w)%positive.
Proof.
  intros [_ Hm Hf] Hp. rewrite Forall_forall in Hm. destruct (Hm _ Hp) as (x & Hx & _). apply Hf. by eexists.
Qed.
Lemma new_queue (w : TW) m :
  Queue w → tame_msg m →
  Queue (set_task (<[next w := m]> (heap w)) (Pos.succ (next w)) (task w ++ [next w]) w).
Proof.
  intros Hq Ht. pose proof Hq as [Hn Hm Hf].
  assert (Hlt : ∀ p, p ∈ held ++ task w → (p < next w)%positive) by (intros; by apply queue_fresh).
  split; cbn; rewrite ?app_assoc.
  - apply NoDup_app. split; [done|]. split; [|apply NoDup_singleton].
    intros p Hp ->%list_elem_of_singleton. pose proof (Hlt _ Hp). lia.
  - apply Forall_app. split; [|constructor; [|done]; exists m; by rewrite lookup_insert_eq].
    eapply Forall_impl; [apply Forall_and; split; [exact Hm|apply Forall_forall; exact Hlt]|].
    intros p [(x & Hx & Hxt) Hp]. exists x. by rewrite lookup_insert_ne by (simpl in Hp; lia).
  - intros p [x Hx]. apply lookup_insert_Some in Hx as [[<- _]|[_ Hx]]; [lia|].
    assert (p < next w)%positive by (apply Hf; by eexists). lia.
Qed.
Lemma send_new_run (m : Msg TMsg) (w : TW) :
  send_new m w = Done tt (set_task (<[next w := m]> (heap w)) (Pos.succ (next w)) (task w ++ [next w]) w).
Proof. done. Qed.

Lemma existsb_engine_insert (w : TW) (m : Msg TMsg) l :
  (∀ p, p ∈ l → p ≠ next w) →
  existsb (λ p, is_engine_up (<[next w := m]> (heap w) !! p)) l = existsb (λ p, is_engine_up (heap w !! p)) l.
Proof.
  induction l as [|p l IH]; intros H; [done|]. simpl. rewrite lookup_insert_ne by (symmetry; apply H; constructor).
  rewrite IH; [done|]. intros q Hq. apply H. by constructor.
Qed.
Lemma restarting_new (w : TW) m :
  Queue w →
  restarting (set_task (<[next w := m]> (heap w)) (Pos.succ (next w)) (task w ++ [next w]) w)
  = restarting w || is_engine_up (Some m).
Proof.
  intros Hq. unfold restarting. cbn. rewrite existsb_app, existsb_engine_insert.
  2: { intros p Hp ->. pose proof (queue_fresh w (next w) Hq (proj2 (elem_of_app _ _ _) (or_intror Hp))). lia. }
  simpl. rewrite lookup_insert_eq, orb_false_r. by rewrite orb_assoc.
Qed.

(** A message is sent to the adapter. *)
Lemma send_sound w m :
  Sound w → tame_msg m →
  Sound (set_task (<[next w := m]> (heap w)) (Pos.succ (next w)) (task w ++ [next w]) w).
Proof. intros [? ? ? ? ? ? Hq] Hm. split; [done..|]. by apply new_queue. Qed.
Lemma send_kept m : tame_msg m → Kept (send_new m : M TW unit).
Proof.
  intros Hm w [Hw Hc]. eexists tt, _. split; [apply send_new_run|]. split; [by apply send_sound|].
  destruct Hc as [H1 H2]. split; [exact H1|]. rewrite restarting_new by apply Hw.
  intros [Hr _]%orb_false_iff. by apply H2.
Qed.

Lemma proc_engine_up_spec f w : Weak w → ∃ w', proc_engine_up f w = Done tt w' ∧ Inv w'.
Proof.
  intros Hw. unfold proc_engine_up.
  do 2 match goal with |- context [(upd_base ?g ≫= ?k) ?x] =>
    destruct (calm_weak (upd_base g) x) as ([] & w1 & E1 & H1 & _); [calm|done|]; rewrite (bind_done _ _ _ _ _ E1); clear E1
  | |- context [(gets (λ w, env (st w)) ≫= ?k) ?x] => rewrite (bind_done _ _ x (env (st x)) x) by done
  end.
  rename w1 into w0.
  assert (Hpre : ∀ k : M TW unit,
    (_ ← broadcastCapabilities (gnss_getCapabilities f (qwesFeatures (env (st w0))));
     _ ← emit_own (EvCall setConfig); _ ← emit_own (EvCall gnssSvIdConfigUpdate);
     _ ← emit_own (EvCall gnssSvTypeConfigUpdate);
     _ ← when (powerStateKnown (env (st w0))) (emit_own (EvCall updateSystemPowerState));
     _ ← emit_own (EvCall gnssSecondaryBandConfigUpdate);
     _ ← emit_own (EvCall initCDFWService); k) w0 =
    ((_ ← broadcastCapabilities (gnss_getCapabilities f (qwesFeatures (env (st w0))));
     _ ← emit_own (EvCall setConfig); _ ← emit_own (EvCall gnssSvIdConfigUpdate);
     _ ← emit_own (EvCall gnssSvTypeConfigUpdate);
     _ ← when (powerStateKnown (env (st w0))) (emit_own (EvCall updateSystemPowerState));
     _ ← emit_own (EvCall gnssSecondaryBandConfigUpdate);
     emit_own (EvCall initCDFWService)) ≫= λ _, k) w0) by (intros k; by destruct (powerStateKnown (env (st w0)))).
  rewrite Hpre. clear Hpre. match goal with |- context [(?m ≫= ?k) w0] =>
    destruct (calm_weak m w0) as ([] & w1 & E1 & H2 & _); [unfold broadcastCapabilities; calm|done|] end.
  rewrite (bind_done _ _ _ _ _ E1), (bind_done _ _ w1 (lock w1) w1), (s_lock _ (proj1 H2)) by done. cbn [when bool_decide].
  destruct (restartSessions_spec true w1 H2) as (w2 & E2 & H3 & _).
  exists w2. split; [|done].
  change (when _ ?m) with m. rewrite (bind_done _ _ _ _ _ E2).
  unfold mbind, M_bind, gets. by rewrite (proj1 (s_pending _ (proj1 H3))).
Qed.

End held.

(** The message at the head is taken, and deleted after it was processed. *)
Definition popped (q : list positive) (w : TW) : TW := set_task (heap w) (next w) q w.
Definition freed (p : positive) (w : TW) : TW := set_task (delete p (heap w)) (next w) (task w) w.
Lemma existsb_engine_delete (h : gmap positive (Msg TMsg)) p l :
  p ∉ l → existsb (λ p0, is_engine_up (delete p h !! p0)) l = existsb (λ p0, is_engine_up (h !! p0)) l.
Proof.
  induction l as [|q l IH]; intros H; [done|]. apply not_elem_of_cons in H as [Hq Hl].
  simpl. by rewrite lookup_delete_ne, IH.
Qed.
Lemma popped_queue p q w : Queue [] w → task w = p :: q → Queue [p] (popped q w).
Proof. intros [Hn Hm Hf] Ht. rewrite Ht in Hn, Hm. by split. Qed.
Lemma freed_inv p w : Inv [p] w → Inv [] (freed p w).
Proof.
  intros [[? ? ? ? ? ? [[Hp Hn]%NoDup_cons [_ Hm]%Forall_cons Hf]] Hc]. split.
  - split; [done..|]. split; cbn; [done| |].
    + apply Forall_forall. intros x Hx. rewrite Forall_forall in Hm. destruct (Hm x Hx) as (m & Em & Ht).
      exists m. by rewrite lookup_delete_ne by congruence.
    + intros x [m [_ Hx]%lookup_delete_Some]. apply Hf. by eexists.
  - apply (covered_same w (freed p w) (sessions w)); [|done..]. unfold restarting. cbn. by rewrite existsb_engine_delete.
Qed.
(** What is true when a message is processed that was popped. *)
Definition is_engine_msg (m : Msg TMsg) : bool := is_engine_up (Some m).
Lemma popped_inv p q w m :
  Inv [] w → task w = p :: q → heap w !! p = Some m → is_engine_msg m = false → Inv [p] (popped q w).
Proof.
  intros [[? ? ? ? ? ? Hq] Hc] Ht Hp Hm. split; [split; [done..|by apply popped_queue]|].
  apply (covered_same w (popped q w) (sessions w)); [|done..]. unfold restarting. cbn. rewrite Ht. simpl. rewrite Hp.
  change (is_engine_up (Some m)) with (is_engine_msg m). by rewrite Hm.
Qed.
Lemma popped_weak p q w : Inv [] w → task w = p :: q → Weak [p] (popped q w).
Proof. intros [[? ? ? ? ? ? Hq] [Hc _]] Ht. split; [split; [done..|by apply popped_queue]|exact Hc]. Qed.

Lemma proc_kept features p m :
  tame_msg m → is_engine_msg m = false → Kept [p] (proc features m).
Proof.
  intros Ht Hm. destruct m as [c cb|c rm|c|m]; cbn [proc updateClientsEventMask stopClientSessions own_proc GnssAdapter].
  - apply kept_calm. unfold saveClient. calm. apply calm_updateClients.
  - apply kept_bind; [apply stopClientSessions_kept|]. intros _. apply kept_calm. unfold eraseClient. calm. apply calm_updateClients.
  - done.
  - destruct m; cbn [tr_proc tame_msg] in *; try done.
    + apply kept_calm. calm.
    + apply kept_calm. calm; auto with gps.
    + rewrite Ht. unfold when_known. apply kept_bind; [apply kept_calm; calm|]. intros b. rewrite andb_false_r.
      by apply proc_start_kept.
    + rewrite Ht. unfold when_known. apply kept_bind; [apply kept_calm; calm|]. intros b. rewrite andb_false_r.
      by apply proc_update_kept.
    + apply proc_stop_kept.
    + subst. apply kept_calm. unfold proc_power_state. calm.
    + intros w Hw. unfold proc_configMinGpsWeek. destruct (suspend_spec [p] w (inv_weak _ _ Hw)) as (w1 & E1 & H1).
      rewrite (bind_done _ _ _ _ _ E1). set (w2 := set_out (out w1 ++ [EvOwn (EvCall configMinGpsWeek)]) w1).
      rewrite (bind_done _ _ w1 tt w2) by done.
      destruct (calm_weak [p] (emit_own (EvCall configMinGpsWeek)) w1) as ([] & ? & [= <-] & H2 & _); [calm|done|].
      destruct (restartSessions_spec [p] false _ H2) as (w3 & E3 & H3 & _). by exists tt, w3.
    + apply kept_calm, calm_enable.
    + apply kept_calm, calm_disable.
    + destruct Ht as [Hr ->]. by apply proc_response_kept.
Qed.

Lemma task_step_kept features : Kept [] (task_step features).
Proof.
  intros w Hw. unfold task_step. rewrite (bind_done _ _ w (task w) w) by done.
  destruct (task w) as [|p q] eqn:Et; [by exists tt, w|].
  rewrite (bind_done _ _ w tt (popped q w)) by done.
  pose proof (q_msgs _ _ (s_queue _ _ (proj1 Hw))) as Hm. simpl in Hm. rewrite Et in Hm.
  apply Forall_cons in Hm as [(m & Hp & Ht) _].
  rewrite (bind_done _ _ (popped q w) m (popped q w)) by by apply deref_done.
  assert (H : ∃ x w', proc features m (popped q w) = Done x w' ∧ Inv [p] w').
  { destruct (is_engine_msg m) eqn:Em.
    - destruct m as [| | |[]]; try done. destruct (proc_engine_up_spec [p] features (popped q w)) as (w' & E & H').
      + by eapply popped_weak.
      + by exists tt, w'.
    - apply proc_kept; [done..|]. by eapply popped_inv. }
  destruct H as (x & w' & E & H'). rewrite (bind_done _ _ _ _ _ E).
  exists tt, (freed p w'). split; [|by apply freed_inv]. unfold delete_msg.
  pose proof (q_msgs _ _ (s_queue _ _ (proj1 H'))) as Hm'. apply Forall_cons in Hm' as [(m' & -> & _) _]. done.
Qed.

(** *** The requests *)

(** A modem that starts and stops the sessions it is asked to, and to which a connection can be
    made. *)
Definition grants_tracking (modem : Modem) : Prop :=
  (∀ h q, fst (modem (h ++ [Start q])) = true) ∧ (∀ h i, fst (modem (h ++ [Stop i])) = true) ∧ connectable modem.

Lemma tracked_send r a : tracked (send_request r a) = note_request (tracked a) r.
Proof. unfold tracked. simpl. by rewrite foldl_app. Qed.

(** Code of the LocApi that neither starts nor stops. *)
Definition Still : relation ApiState := agree tracked.
Lemma still_send r a : (∀ k, note_request k r = k) → Still a (send_request r a).
Proof. intros H. unfold Still, agree. by rewrite tracked_send. Qed.
Ltac still :=
  changes; try (first [apply changes_send|apply changes_sync]; intros; by apply still_send).
Lemma still_register modem b c mask : changes Still (registerEventMask modem b c mask).
Proof. unfold registerEventMask, register_changed, setSvMeasurementConstellation_req. still. Qed.
Lemma still_open modem b c mask : changes Still (open modem b c mask).
Proof. unfold open. still. all: apply still_register. Qed.
Lemma still_engineState modem b c on : changes Still (updateEngineState modem b c on).
Proof. unfold updateEngineState. still. apply still_register. Qed.
Lemma still_nmea modem mask : changes Still (setNMEATypesSync modem mask).
Proof. unfold setNMEATypesSync. still. Qed.

Section granted.
Context (modem : Modem) (b c : bool) (Hg : grants_tracking modem).

Lemma start_granted (o : TrackingOptions) a :
  ∃ a', LocApiTrack.startTimeBasedTracking modem b c o a = Done LOCATION_ERROR_SUCCESS a' ∧
        tracked a' = Some (minInterval o).
Proof.
  unfold LocApiTrack.startTimeBasedTracking. rewrite (bind_done _ _ a (session a) a) by done.
  match goal with |- context [when ?x ?m ≫= _] =>
    destruct ((changes_when Still x m ltac:(still)) a) as ([] & a1 & E1 & _) end. rewrite (bind_done _ _ _ _ _ E1).
  set (f := λ s, set_measurementsStarted true (set_inSession true s)).
  rewrite (bind_done _ _ a1 tt (update_session f a1)) by done.
  destruct (still_register modem b c (mMask (session a)) (update_session f a1)) as ([] & a3 & E3 & _).
  rewrite (bind_done _ _ _ _ _ E3).
  assert (Hm : changes Still (setOperationMode modem (mode o))) by (unfold setOperationMode; still).
  destruct (Hm a3) as ([] & a4 & E4 & _). rewrite (bind_done _ _ _ _ _ E4).
  set (a5 := update_session (LocApiTrack.set_minInterval (minInterval o)) a4).
  rewrite (bind_done _ _ a4 tt a5) by done. exists (send_request (Start (start_req o)) a5).
  rewrite (bind_done _ _ a5 true (send_request (Start (start_req o)) a5)).
  - split; [done|]. by rewrite tracked_send.
  - unfold locClientSendReq. mrun. by rewrite (proj1 Hg).
Qed.
Lemma stop_granted a :
  ∃ a', LocApiTrack.stopFix modem b c a = Done LOCATION_ERROR_SUCCESS a' ∧ tracked a' = None.
Proof.
  unfold stopFix. set (r := Stop LOC_API_V02_DEF_SESSION_ID). set (a1 := send_request r a).
  rewrite (bind_done _ _ a true a1).
  2: { unfold locClientSendReq, r. mrun. by rewrite (proj1 (proj2 Hg)). }
  match goal with |- context [(upd_session ?f ≫= _) a1] => set (a2 := update_session f a1);
    rewrite (bind_done _ _ a1 tt a2), (bind_done _ _ a2 (session a2) a2) by done end.
  destruct (changes_when Still (negb (mEngineOn (session a2))) _ (still_register modem b c (mMask (session a2))) a2)
    as ([] & a3 & E3 & H3).
  rewrite (bind_done _ _ _ _ _ E3), (bind_done _ _ a3 (mGnssMeasurements (session a3)) a3) by done.
  match goal with |- context [(when ?x ?m ≫= _) a3] =>
    destruct ((changes_when Still x m ltac:(still)) a3) as ([] & a4 & E4 & H4) end.
  exists a4. rewrite (bind_done _ _ _ _ _ E4). split; [done|]. rewrite H4, H3.
  change (tracked a2) with (tracked a1). unfold a1. by rewrite tracked_send.
Qed.
Lemma reopen_tracked mask a : ∃ a', reopen modem b c mask a = Done true a' ∧ tracked a' = None.
Proof.
  unfold reopen, close. set (f := λ s, set_clientHandle false (set_inSession false (set_masks 0 0 s))).
  rewrite (bind_done _ _ a tt (update_session f a)) by done.
  set (a1 := send_request ModemRestart (update_session f a)).
  rewrite (bind_done _ _ (update_session f a) tt a1) by done.
  destruct (still_open modem b c mask a1) as (ok & a2 & E2 & H2). exists a2.
  destruct (open_done modem b c mask a1) as (a3 & E3); [apply (proj2 (proj2 Hg))|]. rewrite E2 in E3. injection E3 as -> <-.
  split; [done|]. rewrite H2.
  unfold a1. by rewrite tracked_send.
Qed.
End granted.

(** A request is taken, and changes the API as was foreseen. *)
Lemma api_taken w l q a :
  Inv [] w → apiTask w = l :: q → tracked a = note_api (tracked (api w)) l →
  Weak [] (set_api a (set_apiTask q w)) ∧ (is_ssr l = false → Inv [] (set_api a (set_apiTask q w))).
Proof.
  intros [[? ? ? ? ? Ha [? ? ?]] [He Hc]] Eq Ht.
  assert (Hs : Sound [] (set_api a (set_apiTask q w))).
  { split; [done..| |by split]. cbn. rewrite Eq in Ha. by apply Forall_cons in Ha as [_ ?]. }
  assert (Eask : asked (set_api a (set_apiTask q w)) = asked w) by (unfold asked; cbn; by rewrite Ht, Eq).
  split; [split; [done|by rewrite Eask]|]. intros Hl. split; [done|].
  apply (covered_same w _ (sessions w)); [|done|done|by split]. unfold restarting. cbn. rewrite Eq. simpl. by rewrite Hl.
Qed.

Lemma run_api_done {X} (m : M ApiState X) (w : TW) x a : m (api w) = Done x a → run_api m w = Done x (set_api a w).
Proof. intros E. unfold run_api. by rewrite E. Qed.
Lemma respond_kept r (m : M TW LocationError) w w1 :
  tame_option r → m w = Done LOCATION_ERROR_SUCCESS w1 → Inv [] w1 → ∃ x w', respond r m w = Done x w' ∧ Inv [] w'.
Proof.
  intros Hr E H1. unfold respond. rewrite (bind_done _ _ _ _ _ E). destruct r as [r|]; [|by exists tt, w1].
  by apply send_kept.
Qed.

Lemma restarting_engine_up w :
  Weak [] w → ∃ x w', handleEngineUpEvent w = Done x w' ∧ Inv [] w'.
Proof.
  intros [Hw He]. unfold handleEngineUpEvent.
  set (w1 := set_task (<[next w := Own MsgReadConfig]> (heap w)) (Pos.succ (next w)) (task w ++ [next w]) w).
  assert (H1 : Sound [] w1) by by apply send_sound.
  rewrite (bind_done _ _ w tt w1) by done. eexists tt, _. split; [apply send_new_run|].
  split; [by apply send_sound|]. split; [exact He|].
  rewrite (restarting_new [] w1 (Own MsgHandleEngineUpEvent)) by apply H1. by rewrite orb_true_r.
Qed.

Lemma api_step_kept modem features : grants_tracking modem → Kept [] (api_step modem features).
Proof.
  intros Hg w Hw. unfold api_step. rewrite (bind_done _ _ w (apiTask w) w) by done.
  destruct (apiTask w) as [|l q] eqn:Eq; [by exists tt, w|].
  set (w1 := set_apiTask q w). rewrite (bind_done _ _ w tt w1) by done.
  pose proof (s_api _ _ (proj1 Hw)) as Ha. rewrite Eq in Ha. apply Forall_cons in Ha as [Hl _].
  set (breach := msg_BATCHED_GENFENCE_BREACH features). set (cc := gnssConstellationConfig features).
  destruct l as [|[o r|r|i o r|i r|mask|on|]]; try done; cbn [own_api GnssAdapter tr_api].
  - unfold open_api. rewrite (bind_done _ _ w1 (mEvtMask (base w1)) w1) by done.
    destruct (still_open modem breach cc (mEvtMask (base w1)) (api w1)) as (ok & a & E & H).
    exists tt, (set_api a w1). split; [|by apply (api_taken w LocOpenMsg q a)].
    rewrite (bind_done _ _ w1 ok (set_api a w1)); [done|by apply run_api_done].
  - destruct (start_granted modem breach cc Hg o (api w1)) as (a & E & H).
    apply (respond_kept r _ w1 (set_api a w1)); [apply Hl|by apply run_api_done|].
    by apply (api_taken w (ApiOwn (ApiStartTimeBasedTracking o r)) q a).
  - destruct (stop_granted modem breach cc Hg (api w1)) as (a & E & H).
    apply (respond_kept r _ w1 (set_api a w1)); [apply Hl|by apply run_api_done|].
    by apply (api_taken w (ApiOwn (ApiStopFix r)) q a).
  - destruct (still_nmea modem mask (api w1)) as ([] & a & E & H).
    exists tt, (set_api a w1). split; [by apply run_api_done|]. by apply (api_taken w (ApiOwn (ApiSetNmeaMask mask)) q a).
  - destruct (still_engineState modem breach cc on (api w1)) as ([] & a & E & H).
    exists tt, (set_api a w1). split; [by apply run_api_done|]. by apply (api_taken w (ApiOwn (ApiEngineState on)) q a).
  - rewrite (bind_done _ _ w1 (mEvtMask (base w1)) w1) by done.
    destruct (reopen_tracked modem breach cc Hg (mEvtMask (base w1)) (api w1)) as (a & E & H).
    rewrite (bind_done _ _ w1 true (set_api a w1)) by by apply run_api_done. unfold when.
    apply restarting_engine_up. by apply (api_taken w (ApiOwn ApiSsr) q a).
Qed.

(** *** The commands *)
Lemma calm_counter : changes Calm (generateSessionId : M TW Z).
Proof. unfold generateSessionId. calm. Qed.
Lemma send_api_inv w m w' :
  Inv [] w → tame_api m → note_api (asked w) m = asked w ∨ is_ssr m = true →
  w' = set_apiTask (apiTask w ++ [m]) w → (is_ssr m = true → asked w' = None) → Inv [] w'.
Proof.
  intros [[? ? ? ? ? Ha [? ? ?]] [He Hc]] Hm Hn -> Hs. split.
  { split; [done..| |by split]. cbn. apply Forall_app. split; [done|]. by constructor. }
  assert (Er : restarting (set_apiTask (apiTask w ++ [m]) w) = restarting w || is_ssr m).
  { unfold restarting. cbn. rewrite existsb_app. simpl. rewrite orb_false_r. by destruct (existsb _ _), (is_ssr m), (existsb _ _). }
  destruct Hn as [Hn|Hn].
  - destruct (is_ssr m) eqn:Es; [by split; [intros _; apply Hs|rewrite Er, orb_true_r]|].
    apply (covered_same w _ (sessions w)); [by rewrite Er, orb_false_r|done| |by split]. by rewrite asked_snoc.
  - split; [by intros; apply Hs|]. by rewrite Er, Hn, orb_true_r.
Qed.

Lemma nhz_weak n w : Weak [] w → Weak [] (set_st (set_spe false (set_nhz n (st w))) w).
Proof. intros [[? ? ? ? ? ? [? ? ?]] Hc]. split; [split; [done..|by split]|exact Hc]. Qed.

Lemma updateNHz_kept n m : Kept [] (updateNHzRequirement n m).
Proof.
  unfold updateNHzRequirement. apply kept_bind; [apply kept_calm; calm|]. intros b.
  apply kept_bind; [apply kept_calm; calm; auto with gps|]. intros _ w Hw.
  rewrite (bind_done _ _ w (st w) w) by done. destruct (Bool.eqb (nhz w) n) eqn:En; [by exists tt, w|].
  cbn [negb when]. set (w1 := set_st (set_nhz n (st w)) w). rewrite (bind_done _ _ w tt w1) by done.
  set (w2 := set_st (set_spe false (st w1)) w1).
  destruct (checkAndRestart_spec [] w2) as (w3 & E3 & H3 & _); [by apply (nhz_weak n w), inv_weak|].
  exists tt, w3. split; [|done]. etrans; [|exact E3]. reflexivity.
Qed.

Lemma call_kept features (l : TCall) : tame_label (LCall l) → Kept [] (tr_call features l).
Proof.
  intros Hl. destruct l; cbn [tr_call tame_label] in *; try by apply send_kept.
  - unfold startTrackingCommand. apply kept_bind; [apply kept_calm, calm_counter|]. intros i.
    apply kept_bind; [by apply send_kept|]. intros _. apply kept_calm. calm.
  - apply kept_bind; [apply kept_calm, calm_counter|]. intros i. by apply send_kept.
  - apply kept_calm. calm.
  - apply updateNHz_kept.
  - intros w Hw. unfold handleEngineLockStatusEvent, reportEngineLockStatus.
    exists tt, w. split; [|done]. mrun. rewrite (s_lock _ _ (proj1 Hw)). by destruct k.
  - intros w Hw. eexists tt, _. split; [reflexivity|]. by eapply (send_api_inv w (ApiOwn (ApiEngineState _))); [| |left| |].
  - intros w Hw. eexists tt, _. split; [reflexivity|]. eapply (send_api_inv w (ApiOwn ApiSsr)); [done|done|by right|reflexivity|].
    intros _. by rewrite asked_snoc.
  - apply kept_calm. calm.
Qed.

Lemma exec_kept modem features l : grants_tracking modem → tame_label l → Kept [] (exec modem features l).
Proof.
  intros Hg Hl. destruct l; cbn [exec]; try by apply send_kept.
  - by apply call_kept.
  - apply task_step_kept.
  - by apply api_step_kept.
Qed.
Lemma execs_kept modem features ls : grants_tracking modem → Forall tame_label ls → Kept [] (execs modem features ls).
Proof.
  intros Hg. induction 1 as [|l ls Hl _ IH]; cbn [execs]; [apply kept_calm; calm|].
  apply kept_bind; [by apply exec_kept|]. by intros _.
Qed.
Lemma tr_init_inv e : Inv [] (tr_init e).
Proof.
  split; [|by split].
  split; try done. split.
  - apply NoDup_singleton.
  - constructor; [|done]. by exists (Own MsgReadConfig).
  - intros p [m Hm]. cbn in Hm. apply lookup_singleton_Some in Hm as [<- _]. cbn. lia.
Qed.

(** C3: the modem serves every client of time-based sessions. However the tasks interleave - sessions
    are started, updated and stopped, clients come and go, the engine hub changes its rate, the
    modem restarts, its configuration changes - the code runs without undefined behaviour; and
    whenever no restart of the modem is still to be handled, the last request made of it is to track
    when and only when there is a session, at an interval no longer than that of any session. When
    no request waits, the modem itself has been told so. This is so as long as every session is by
    time alone (a distance of 0), the modem grants the starts, the stops and the connections, the
    lock of the engine is never reported as disabled (the sessions are then not restarted), no
    client asks for the capabilities (before the engine is up such a request is put aside, and used
    after it was freed), and no null listener of the power state is registered (it is called). *)
Theorem modem_serves_all_sessions modem features e ls :
  grants_tracking modem → Forall tame_label ls →
  ∃ w, execs modem features ls (tr_init e) = Done tt w ∧
    (restarting w = false → covers (asked w) (sessions w)) ∧
    (restarting w = false → apiTask w = [] → covers (tracked (api w)) (sessions w)) ∧
    map_Forall (λ _ o, MIN_TRACKING_INTERVAL ≤ interval_of o) (sessions w).
Proof.
  intros Hg Hls. destruct (execs_kept modem features ls Hg Hls _ (tr_init_inv e)) as ([] & w & E & [Hw [_ Hc]]).
  exists w. split; [done|]. split; [intros Hr; by apply Hc|]. split.
  - intros Hr Ha. destruct (Hc Hr) as [_ H]. unfold asked in H. by rewrite Ha in H.
  - intros k o Hk. by apply (s_sessions _ _ Hw k o).
Qed.

(** ** Concrete executions *)
Definition tracking_callbacks : LocationCallbacks :=
  {| capabilitiesCb := true; responseCb := true; collectiveResponseCb := true; trackingCb := true;
     batchingCb := false; geofenceBreachCb := false; geofenceStatusCb := false; gnssLocationInfoCb := false;
     gnssNiCb := false; gnssSvCb := false; gnssNmeaCb := false; gnssDataCb := false; gnssMeasurementsCb := false;
     batchingStatusCb := false; locationSystemInfoCb := false; engineLocationsInfoCb := false |}.
Definition tracking_features (distance : bool) : Features :=
  {| msg_DISTANCE_BASE_LOCATION_BATCHING := true; msg_DISTANCE_BASE_TRACKING := distance;
     msg_BATCHED_GENFENCE_BREACH := true; msg_OUTDOOR_TRIP_BATCHING := true; gnssConstellationConfig := false;
     carrierCapabilities := 0; feature_DEBUG_NMEA := false; feature_CONSTELLATION_ENABLEMENT := false;
     feature_AGPM := false; feature_LOCATION_PRIVACY := false; feature_MEASUREMENTS_CORRECTION := false;
     feature_ROBUST_LOCATION := false; feature_EDGNSS := false |}.
Definition plain_env : Env :=
  {| EXTERNAL_DR_ENABLED := false; engHub := false; agpsRegistered := false; odcpiRequestCb := false;
     logEnabled := false; mNmeaMask := 0; systemInfo := false; qwesFeatures := 0; powerStateKnown := false |}.
Definition request (interval distance : Z) (p : GnssPowerMode) : TrackingOptions :=
  mkTrackingOptions (mkLocationOptions SIZEOF_TRACKING_OPTIONS interval distance GNSS_SUPL_MODE_STANDALONE 0) p 0.

Definition turns (n : nat) : list (Label (C:=TCall)) := mjoin (replicate n [LTask; LApi]).
(** Client 1 registers, and the engine comes up. *)
Definition engine_up : list (Label (C:=TCall)) :=
  LCall (CAddClient 1 tracking_callbacks) :: LCall CModemRestart :: turns 6.
(** A call, and time for it to be answered. *)
Definition answered (c : TCall) : list (Label (C:=TCall)) := LCall c :: turns 6.
Definition run (modem : Modem) (distance : bool) (ls : list (Label (C:=TCall))) : outcome TW unit :=
  execs modem (tracking_features distance) (engine_up ++ ls) (tr_init plain_env).
Definition start (interval : Z) (p : GnssPowerMode) : TCall := CStart 1 (request interval 0 p).
Definition updating (id interval distance : Z) : TCall := CUpdate 1 id (request interval distance GNSS_POWER_MODE_M2).

(** What the clients were told, but for the events of the engine hub and the rest. *)
Definition told (w : TW) : list TEvent :=
  omap (λ e, match e with EvOwn (EvResponse c err id) => Some (EvResponse c err id) | _ => None end) (out w).
(** The sessions of the modem: the interval and the power mode of the last start that is not stopped. *)
Definition note_start (k : option (option Z * option (qmiLocPowerModeEnumT_v02 * Z))) (r : Request) :=
  match r with Start q => Some (sr_minInterval q, sr_powerMode q) | Stop _ | ModemRestart => None | _ => k end.
Definition modem_session (w : TW) := foldl note_start None (requests (api w)).
Definition running (w : TW) : list (Z * Z) :=
  (λ p : entry, (key_id p.1, interval_of p.2)) <$> in_order LocationSessionKey_le (sessions w).

(** A session of 1000 ms is joined by one of 500 ms, the modem restarts, and the faster one stops. *)
Definition served : list (Label (C:=TCall)) :=
  engine_up ++ answered (start 1000 GNSS_POWER_MODE_M2) ++ answered (start 500 GNSS_POWER_MODE_M2) ++
  answered CModemRestart ++ answered (CStop 1 3).
Lemma always_grants : grants_tracking always.
Proof. done. Qed.
Lemma modem_serves_all_sessions_witness :
  (λ w, (restarting w, asked w, running w)) <$> outcome_state (execs always (tracking_features true) served (tr_init plain_env))
    = Some (false, Some 1000, [(2, 1000)]) ∧
  ∃ w, execs always (tracking_features true) served (tr_init plain_env) = Done tt w ∧
    (restarting w = false → covers (asked w) (sessions w)) ∧
    (restarting w = false → apiTask w = [] → covers (tracked (api w)) (sessions w)) ∧
    map_Forall (λ _ o, MIN_TRACKING_INTERVAL ≤ interval_of o) (sessions w).
Proof.
  split; [by vm_compute|]. apply (modem_serves_all_sessions always (tracking_features true) plain_env served always_grants).
  unfold served, engine_up, answered, turns. repeat constructor.
Defined.

(** Two sessions, of which one is faster and the other has more power. *)
Definition two_sessions : gmap LocationSessionKey TrackingOptions :=
  {[mkKey 1 2 := request 1000 0 GNSS_POWER_MODE_M1; mkKey 2 3 := request 500 0 GNSS_POWER_MODE_M4]}.
Lemma restart_options_multiplex_witness :
  (interval_of (restart_options two_sessions), power_value (restart_options two_sessions)) = (500, 1) ∧
  least_of interval_of (λ _, false) two_sessions (interval_of (restart_options two_sessions)) ∧
  least_of power_value (λ _, false) two_sessions (power_value (restart_options two_sessions)) ∧
  interval_of (restart_options two_sessions) = interval_of (fastest (λ _, false) two_sessions).1 ∧
  power_value (restart_options two_sessions) = GnssPowerMode_value (fastest (λ _, false) two_sessions).2.
Proof.
  split; [by vm_compute|]. apply restart_options_multiplex.
  - apply map_Forall_insert_2; [done|]. apply map_Forall_singleton. done.
  - apply map_Forall_insert_2; [done|]. by apply map_Forall_singleton.
  - done.
Defined.
