(* ===== verification/TrackingClients.v ===== *)
(** * GnssAdapter : what the clients of the tracking sessions see.

    The listener of the power state is always up to date, whatever the modem and the clients do;
    a client that starts a session is answered once, on every outcome of the modem, and the
    session is kept if and only if the answer is a success; and the executions in which the
    adapter goes wrong. *)
From S2P Require Import Prelude PbEnums LocEvents LocApi LocApiBatch LocApiTrack LocAdapter Tracking TrackingSpec.
Local Open Scope Z_scope.

(** ** The listener of the power state *)
Definition note_power (b : option bool) (e : Event TEvent) : option bool :=
  match e with EvOwn (EvPowerState on) => Some on | _ => b end.
(** What the listener was last told. *)
Definition last_power (w : TW) : option bool := foldl note_power None (out w).
Definition in_session (w : TW) : bool :=
  negb (bool_decide (mTimeBasedTrackingSessions (st w) = ∅)) ||
  negb (bool_decide (mDistanceBasedTrackingSessions (st w) = ∅)).

(** The listener knows mPowerOn. *)
Definition Told (w : TW) : Prop := mPowerStateCb (st w) = true → last_power w = Some (mPowerOn (st w)).
Definition Powered (w : TW) : Prop := Told w ∧ mPowerOn (st w) = in_session w.
Definition Keep : relation TW := λ w w', Powered w → Powered w'.
#[export] Instance Keep_preorder : PreOrder Keep.
Proof. split; [intros w H; exact H|]. intros w1 w2 w3 H1 H2 H. by apply H2, H1. Qed.
#[local] Hint Extern 0 (PreOrder Keep) => apply Keep_preorder : typeclass_instances.

Definition power_view (w : TW) :=
  (mPowerStateCb (st w), mPowerOn (st w), mTimeBasedTrackingSessions (st w), mDistanceBasedTrackingSessions (st w),
   last_power w).
Lemma keep_view w w' : power_view w' = power_view w → Keep w w'.
Proof.
  unfold power_view, Keep, Powered, Told, in_session. intros [= E1 E2 E3 E4 E5]. by rewrite E1, E2, E3, E4, E5.
Qed.

Lemma stays_st f : (∀ s, (mPowerStateCb (f s), mPowerOn (f s), mTimeBasedTrackingSessions (f s),
    mDistanceBasedTrackingSessions (f s)) = (mPowerStateCb s, mPowerOn s, mTimeBasedTrackingSessions s,
    mDistanceBasedTrackingSessions s)) → stays Keep (upd_st f : M TW unit).
Proof.
  intros Hf. apply stays_modify. intros w. apply keep_view. unfold power_view, last_power. cbn.
  injection (Hf (st w)) as -> -> -> ->. done.
Qed.
Lemma last_power_snoc w e : last_power (set_out (out w ++ [e]) w) = note_power (last_power w) e.
Proof. unfold last_power. cbn. by rewrite foldl_app. Qed.
Lemma stays_emit e : (∀ b, note_power b e = b) → stays Keep (emit e : M TW unit).
Proof.
  intros He. apply stays_modify. intros w. apply keep_view. unfold power_view. by rewrite last_power_snoc, He.
Qed.
Lemma stays_emit_all l : Forall (λ e, ∀ b, note_power b e = b) l → stays Keep (emit_all l : M TW unit).
Proof.
  intros Hl. apply stays_modify. intros w. apply keep_view. unfold power_view, last_power. cbn. rewrite foldl_app.
  f_equal. induction Hl as [|e l He _ IH] in |- *; [done|]. simpl. by rewrite He.
Qed.
Lemma stays_run {X} (m : M ApiState X) : stays Keep (run_api m : M TW X).
Proof. intros w x w'. unfold run_api. destruct (m (api w)); try done. intros [= <- <-]. by apply keep_view. Qed.
Lemma stays_new m : stays Keep (new_msg m : M TW positive).
Proof. intros w x w' [= <- <-]. by apply keep_view. Qed.
Lemma stays_delete p : stays Keep (delete_msg p : M TW unit).
Proof. intros w x w'. unfold delete_msg. destruct (heap w !! p); [|done]. intros [= <- <-]. by apply keep_view. Qed.

(** Saving and erasing: reportPowerStateIfChanged tells the listener. *)
Lemma report_powered w x w' : Told w → reportPowerStateIfChanged w = Done x w' → Powered w'.
Proof.
  intros Ht. unfold reportPowerStateIfChanged. rewrite (bind_done _ _ w (st w) w) by done. cbv zeta.
  fold (in_session w). destruct (Bool.eqb (in_session w) (mPowerOn (st w))) eqn:E; cbn [negb when].
  - intros [= <- <-]. split; [done|]. symmetry. by apply eqb_prop.
  - set (w1 := set_st (set_powerOn (in_session w) (st w)) w). rewrite (bind_done _ _ w tt w1) by done.
    destruct (mPowerStateCb (st w)) eqn:Ec; cbn [when].
    + intros [= <- <-]. split; [|done]. intros _.
      change (last_power (set_out (out w1 ++ [EvOwn (EvPowerState (in_session w))]) w1) = Some (in_session w)).
      by rewrite last_power_snoc.
    + intros [= <- <-]. split; [|done]. intros H. cbn in H. congruence.
Qed.
Lemma stays_report f :
  (∀ s, (mPowerStateCb (f s), mPowerOn (f s)) = (mPowerStateCb s, mPowerOn s)) →
  stays Keep (_ ← upd_st f; reportPowerStateIfChanged).
Proof.
  intros Hf w x w' E [Ht _]. rewrite (bind_done _ _ w tt (set_st (f (st w)) w)) in E by done.
  eapply report_powered; [|exact E]. unfold Told, last_power. cbn. injection (Hf (st w)) as -> ->. done.
Qed.
Lemma stays_save f c id o : stays Keep (saveTrackingSession f c id o).
Proof. unfold saveTrackingSession. destruct (is_distance f o); by apply stays_report. Qed.
Lemma stays_erase c id : stays Keep (eraseTrackingSession c id).
Proof. apply stays_report. intros s. by destruct (isTimeBasedTrackingSession c id s). Qed.
Lemma stays_proc_power cb : stays Keep (proc_power_state cb).
Proof.
  intros w x w'. unfold proc_power_state. set (w1 := set_st (set_powerCb cb (st w)) w).
  rewrite (bind_done _ _ w tt w1), (bind_done _ _ w1 (st w1) w1) by done. destruct cb; [|done].
  intros [= <- <-] [_ Hp]. split; [|exact Hp]. intros _.
  change (last_power (set_out (out w1 ++ [EvOwn (EvPowerState (mPowerOn (st w1)))]) w1) = Some (mPowerOn (st w))).
  by rewrite last_power_snoc.
Qed.

Ltac stay :=
  repeat first
    [ progress intros
    | match goal with
      | |- stays Keep (upd_st _) => apply stays_st; intros ?; first [reflexivity|by case_match]
      | |- stays Keep (upd_base _) => apply stays_modify; intros ?; by apply keep_view
      | |- stays Keep (modify _) => apply stays_modify; intros ?; by apply keep_view
      | |- stays Keep (sendApi _) => apply stays_modify; intros ?; by apply keep_view
      | |- stays Keep (sendMsg _) => apply stays_modify; intros ?; by apply keep_view
      | |- stays Keep (emit _) => apply stays_emit; done
      | |- stays Keep (emit_own _) => apply stays_emit; done
      | |- stays Keep (run_api _) => apply stays_run
      | |- stays Keep (new_msg _) => apply stays_new
      | |- stays Keep (delete_msg _) => apply stays_delete
      | |- stays Keep (saveTrackingSession _ _ _ _) => apply stays_save
      | |- stays Keep (eraseTrackingSession _ _) => apply stays_erase
      | |- stays Keep (_ ≫= _) => apply stays_bind; [apply _| |]
      | |- stays Keep (when _ _) => apply stays_when; [apply _|]
      | |- stays Keep (gets _) => apply stays_gets; apply _
      | |- stays Keep (mret _) => apply stays_ret; apply _
      | |- stays Keep (deref _) => apply stays_deref; apply _
      | |- stays Keep ub => apply stays_ub
      | |- stays Keep (let _ := _ in _) => cbv zeta
      | |- stays Keep (match ?x with _ => _ end) => destruct x
      end ].

Lemma stays_response c err id : stays Keep (reportResponse c err id).
Proof. unfold reportResponse. stay. Qed.
Lemma stays_checkUpdate b : stays Keep (checkUpdateDgnssNtrip b).
Proof. unfold checkUpdateDgnssNtrip. stay. Qed.
Lemma stays_stopDgnss : stays Keep stopDgnssNtrip.
Proof. unfold stopDgnssNtrip. stay. Qed.
Lemma stays_await : stays Keep await_nmea.
Proof. unfold await_nmea. stay. Qed.
Lemma stays_SPE o : stays Keep (checkAndSetSPEToRunforNHz o).
Proof. unfold checkAndSetSPEToRunforNHz. stay. Qed.
Lemma stays_send_new m : stays Keep (send_new m : M TW unit).
Proof. unfold send_new. stay. Qed.
Lemma stays_send_all l : stays Keep (send_all_msgs l : M TW unit).
Proof. induction l; cbn [send_all_msgs]; stay. done. Qed.
Lemma stays_push m : stays Keep (push_pending m : M TW unit).
Proof. unfold push_pending. stay. Qed.
#[local] Hint Resolve stays_response stays_checkUpdate stays_stopDgnss stays_await stays_SPE stays_send_new
  stays_send_all stays_push stays_save stays_erase stays_proc_power : gps.

Lemma stays_run_time_based c id o r : stays Keep (run_time_based c id o r).
Proof. unfold run_time_based, setLocPositionMode. stay; auto with gps. Qed.
Lemma stays_stopTracking c id : stays Keep (stopTracking c id).
Proof. unfold stopTracking. stay; auto with gps. Qed.
Lemma stays_startMultiplex c id o : stays Keep (startTimeBasedTrackingMultiplex c id o).
Proof. unfold startTimeBasedTrackingMultiplex. stay; apply stays_run_time_based. Qed.
Lemma stays_updateMultiplex c id o : stays Keep (updateTrackingMultiplex c id o).
Proof. unfold updateTrackingMultiplex, update_from. stay; apply stays_run_time_based. Qed.
Lemma stays_stopMultiplex c id : stays Keep (stopTimeBasedTrackingMultiplex c id).
Proof. unfold stopTimeBasedTrackingMultiplex. stay; [apply stays_stopTracking|apply stays_run_time_based]. Qed.
#[local] Hint Resolve stays_run_time_based stays_stopTracking stays_startMultiplex stays_updateMultiplex
  stays_stopMultiplex : gps.

Lemma stays_restart_distance l : stays Keep (restart_distance l).
Proof. induction l as [|[k o] l IH]; cbn [restart_distance]; stay. done. Qed.
Lemma stays_checkAndRestart : stays Keep checkAndRestartSPESession.
Proof. unfold checkAndRestartSPESession, checkAndRestartTimeBasedSession. stay; auto using stays_restart_distance with gps. Qed.
Lemma stays_restartSessions b : stays Keep (restartSessions b).
Proof. unfold restartSessions. stay; auto using stays_checkAndRestart with gps. Qed.
Lemma stays_suspend : stays Keep suspendSessions.
Proof. unfold suspendSessions. stay; auto with gps. Qed.
Lemma stays_start_time_based f c id o : stays Keep (start_time_based f c id o).
Proof. unfold start_time_based. stay; auto with gps. Qed.
#[local] Hint Resolve stays_checkAndRestart stays_restartSessions stays_suspend stays_start_time_based : gps.

Lemma stays_proc_start f c id o : stays Keep (proc_start f c id o).
Proof. unfold proc_start. stay; auto with gps. Qed.
Lemma stays_proc_update f c id o : stays Keep (proc_update f c id o).
Proof. unfold proc_update. stay; auto with gps. Qed.
Lemma stays_proc_stop c id : stays Keep (proc_stop c id).
Proof. unfold proc_stop. stay; auto with gps. Qed.
Lemma stays_proc_response f r err : stays Keep (proc_response f r err).
Proof. unfold proc_response. stay; auto with gps. Qed.
Lemma stays_stop_time_based l : stays Keep (stop_time_based l).
Proof. induction l; cbn [stop_time_based]; stay; auto with gps. Qed.
Lemma stays_stop_distance_based l : stays Keep (stop_distance_based l).
Proof. induction l; cbn [stop_distance_based]; stay; auto with gps. Qed.
Lemma stays_stopClientSessions c : stays Keep (tr_stopClientSessions c).
Proof. unfold tr_stopClientSessions. stay; auto using stays_stop_time_based, stays_stop_distance_based. Qed.
Lemma stays_nmea_masks l : stays Keep (update_nmea_masks l).
Proof. induction l as [|[c cb] l IH]; cbn [update_nmea_masks]; stay. done. Qed.
Lemma stays_updateEvtMask e s : stays Keep (updateEvtMask e s : M TW unit).
Proof. unfold updateEvtMask. stay. Qed.
Lemma stays_updateClients : stays Keep tr_updateClientsEventMask.
Proof. unfold tr_updateClientsEventMask. stay; auto using stays_nmea_masks, stays_updateEvtMask. Qed.
Lemma stays_broadcast m : stays Keep (broadcastCapabilities m : M TW unit).
Proof.
  unfold broadcastCapabilities. stay. apply stays_emit_all, Forall_forall.
  intros e ([c cb] & Hx & He)%list_elem_of_omap. simpl in He. destruct (capabilitiesCb cb); [|done]. by injection He as <-.
Qed.
Lemma stays_engine_up f : stays Keep (proc_engine_up f).
Proof. unfold proc_engine_up. stay; auto using stays_broadcast with gps. Qed.
Lemma stays_enable p : stays Keep (handleEnablePPENtrip p).
Proof. unfold handleEnablePPENtrip. stay; auto with gps. Qed.
#[local] Hint Resolve stays_proc_start stays_proc_update stays_proc_stop stays_proc_response stays_stopClientSessions
  stays_updateEvtMask stays_updateClients stays_engine_up stays_enable : gps.

Lemma stays_tr_proc f m : stays Keep (tr_proc f m).
Proof.
  destruct m; cbn [tr_proc]; unfold when_known, notifyClientOfCachedLocationSystemInfo, handleEngineLockStatus,
    proc_configMinGpsWeek, handleDisablePPENtrip; stay; auto with gps.
Qed.
Lemma stays_proc f m : stays Keep (proc f m).
Proof.
  destruct m; cbn [proc updateClientsEventMask stopClientSessions own_proc GnssAdapter]; unfold saveClient, eraseClient;
    stay; auto using stays_tr_proc with gps.
Qed.
Lemma stays_api_step modem f : stays Keep (api_step modem f).
Proof.
  unfold api_step. stay; cbn [own_api GnssAdapter]; unfold open_api; stay.
  unfold tr_api, respond, handleEngineUpEvent. stay; auto with gps.
Qed.
Lemma stays_call f l : stays Keep (tr_call f l).
Proof.
  destruct l; cbn [tr_call]; unfold startTrackingCommand, generateSessionId, handleEngineLockStatusEvent,
    reportEngineLockStatus, updateNHzRequirement; stay; auto with gps.
Qed.
Lemma stays_exec modem f l : stays Keep (exec modem f l).
Proof.
  destruct l; cbn [exec call GnssAdapter]; unfold addClientCommand, removeClientCommand, requestCapabilitiesCommand;
    auto using stays_call, stays_api_step with gps.
  unfold task_step. stay. apply stays_proc.
Qed.

(** The listener of the power state is always up to date: in every reachable state, whatever
    the modem answers, mPowerOn says whether there is a session, time-based or distance-based, and
    a listener that is registered was last told just that. *)
Theorem power_state_reported modem f e w :
  reachable modem f (tr_init e) w →
  mPowerOn (st w) = in_session w ∧ (mPowerStateCb (st w) = true → last_power w = Some (in_session w)).
Proof.
  intros Hr. assert (H : Powered w).
  { eapply (reachable_invariant _ _ Powered); [..|exact Hr]; [done|]. intros l w1 w2 H1 E. by eapply stays_exec. }
  destruct H as [Ht Hp]. split; [done|]. by rewrite <- Hp.
Qed.

(** A listener registers, and a session starts and ends. *)
Definition listened : list (Label (C:=TCall)) :=
  engine_up ++ LCall (CPowerStateChanges true) :: answered (start 1000 GNSS_POWER_MODE_M2).
Lemma power_state_reported_witness :
  ∃ w, outcome_state (execs always (tracking_features true) listened (tr_init plain_env)) = Some w ∧
    last_power w = Some true ∧ mPowerOn (st w) = in_session w ∧
    (mPowerStateCb (st w) = true → last_power w = Some (in_session w)).
Proof.
  destruct (outcome_state (execs always (tracking_features true) listened (tr_init plain_env))) as [w|] eqn:E.
  - exists w. split; [done|]. split.
    + apply (f_equal (λ o, o ≫= last_power)) in E. transitivity (Some w ≫= last_power); [done|]. rewrite <- E. by vm_compute.
    + apply (power_state_reported always (tracking_features true) plain_env).
      destruct (outcome_state_done _ _ E) as [[] E']. by eapply reachable_execs.
  - apply (f_equal is_null) in E. by vm_compute in E.
Defined.

(** ** A client that starts a session is answered *)

(** What the clients were told, the tasks and the sessions. *)
Definition quiet_view (w : TW) :=
  (told w, task w, apiTask w, heap w, next w, mClientData (base w), lock w, api w,
   mTimeBasedTrackingSessions (st w)).
Definition Quiet : relation TW := agree quiet_view.
#[local] Hint Extern 0 (PreOrder Quiet) => apply agree_preorder : typeclass_instances.

Lemma quiet_st f : (∀ s, mTimeBasedTrackingSessions (f s) = mTimeBasedTrackingSessions s) → changes Quiet (upd_st f : M TW unit).
Proof. intros Hf. apply changes_modify. intros w. unfold Quiet, agree, quiet_view. cbn. by rewrite Hf. Qed.
Lemma told_snoc w e : told (set_out (out w ++ [EvOwn e]) w)
  = told w ++ match e with EvResponse c err id => [EvResponse c err id] | _ => [] end.
Proof. unfold told. cbn. rewrite omap_app. by destruct e. Qed.
Lemma quiet_emit e : match e with EvResponse _ _ _ => False | _ => True end → changes Quiet (emit_own e).
Proof.
  intros He. apply changes_modify. intros w. unfold Quiet, agree, quiet_view. rewrite told_snoc.
  destruct e; try done; by rewrite app_nil_r.
Qed.
Ltac quiet :=
  repeat first
    [ progress intros
    | match goal with
      | |- changes Quiet (upd_st _) => apply quiet_st; intros ?; first [reflexivity|by case_match]
      | |- changes Quiet (emit_own _) => apply quiet_emit; exact I
      | |- changes Quiet (_ ≫= _) => apply changes_bind; [apply _| |]
      | |- changes Quiet (when _ _) => apply changes_when; [apply _|]
      | |- changes Quiet (gets _) => apply changes_gets; apply _
      | |- changes Quiet (mret _) => apply changes_ret; apply _
      | |- changes Quiet (let _ := _ in _) => cbv zeta
      | |- changes Quiet (match ?x with _ => _ end) => destruct x
      end ].
Lemma quiet_mode m : changes Quiet (setLocPositionMode m).
Proof. unfold setLocPositionMode. quiet. Qed.
Lemma quiet_power : changes Quiet reportPowerStateIfChanged.
Proof. unfold reportPowerStateIfChanged. quiet. Qed.
Lemma quiet_SPE o : changes Quiet (checkAndSetSPEToRunforNHz o).
Proof. unfold checkAndSetSPEToRunforNHz. quiet. Qed.
Lemma quiet_checkUpdate b : changes Quiet (checkUpdateDgnssNtrip b).
Proof. unfold checkUpdateDgnssNtrip. quiet. Qed.

(** The client is one that is told its answers. *)
Definition listens (c : client) (w : TW) : Prop := responseCb <$> mClientData (base w) !! c = Some true.
Lemma response_told c err id w :
  listens c w →
  reportResponse c err id w = Done tt (set_out (out w ++ [EvOwn (EvResponse c err id)]) w).
Proof.
  intros Hc. unfold reportResponse. rewrite (bind_done _ _ w (mClientData (base w) !! c) w) by done.
  unfold listens in Hc. destruct (mClientData (base w) !! c) as [cb|]; [|done]. injection Hc as ->. done.
Qed.

(** The state of the adapter between calls: [l] are the answers of one, [q] the requests it made. *)
Record After (w : TW) (l : list TEvent) (q : list (ApiMsg TApi)) (m : gmap LocationSessionKey TrackingOptions)
    (w' : TW) : Prop := {
  af_told : told w' = told w ++ l;
  af_api_task : apiTask w' = apiTask w ++ q;
  af_same : (task w', heap w', next w', mClientData (base w'), lock w', api w')
            = (task w, heap w, next w, mClientData (base w), lock w, api w);
  af_sessions : mTimeBasedTrackingSessions (st w') = m }.
Lemma after_quiet w l q m w1 w2 : After w l q m w1 → Quiet w1 w2 → After w l q m w2.
Proof. intros [A B C D] [= E1 E2 E3 E4 E5 E6 E7 E8 E9]. split; congruence. Qed.
Lemma after_here w : After w [] [] (mTimeBasedTrackingSessions (st w)) w.
Proof. split; rewrite ?app_nil_r; done. Qed.
Lemma after_answer w q m w1 c err id :
  After w [] q m w1 → After w [EvResponse c err id] q m (set_out (out w1 ++ [EvOwn (EvResponse c err id)]) w1).
Proof. intros [A B C D]. rewrite app_nil_r in A. split; [|done..]. rewrite told_snoc. by rewrite A. Qed.
Lemma after_request w l m w1 r : After w l [] m w1 → After w l [r] m (set_apiTask (apiTask w1 ++ [r]) w1).
Proof. intros [A B C D]. rewrite app_nil_r in B. split; [done| |done..]. cbn. by rewrite B. Qed.
Lemma after_sessions w l q m m' w1 : After w l q m w1 → After w l q m' (set_st (set_time m' (st w1)) w1).
Proof. intros [A B C D]. by split. Qed.
Lemma after_listens c w l q m w1 : After w l q m w1 → listens c w → listens c w1.
Proof. intros [_ _ [= _ _ _ E _ _] _]. unfold listens. by rewrite E. Qed.

(** The modem is asked, or the client is answered at once. *)
Inductive Asked (c : client) (id : Z) (w : TW) (m : gmap LocationSessionKey TrackingOptions) (w' : TW) : Prop :=
  | asked_modem (o : TrackingOptions) :
      After w [] [ApiOwn (ApiStartTimeBasedTracking o (Some (RStartTimeBased c id)))] m w' → Asked c id w m w'
  | asked_nothing : After w [EvResponse c LOCATION_ERROR_SUCCESS id] [] m w' → Asked c id w m w'.
Lemma run_time_based_asked c id o w w0 l m :
  After w l [] m w0 → l = [] → listens c w →
  ∃ w', startTimeBasedTracking c id o w0 = Done tt w' ∧ Asked c id w m w'.
Proof.
  intros H0 -> Hc. unfold startTimeBasedTracking, run_time_based.
  destruct (quiet_mode (convertOptions o) w0) as ([] & w1 & E1 & Q1). rewrite (bind_done _ _ _ _ _ E1).
  rewrite (bind_done _ _ w1 (mLocPositionMode (st w1)) w1) by done.
  assert (Hq : changes Quiet (_ ← emit_own (EvSetFixMode (mLocPositionMode (st w1))); emit_own EvStartFix)) by quiet.
  destruct (Hq w1) as ([] & w3 & E3 & Q3). apply bind_inv in E3 as ([] & w2 & E2 & E3).
  rewrite (bind_done _ _ _ _ _ E2), (bind_done _ _ _ _ _ E3).
  destruct (quiet_SPE o w3) as ([b o'] & w4 & E4 & Q4). rewrite (bind_done _ _ _ _ _ E4).
  assert (H4 : After w [] [] m w4) by (do 3 (eapply after_quiet; [|done]); done). destruct b.
  - rewrite response_told by by eapply after_listens. eexists. split; [done|]. right. by apply after_answer.
  - eexists. split; [done|]. left with o'. by apply after_request.
Qed.

Lemma asked_save f c id k (o : TrackingOptions) w m w1 :
  Asked c id w m w1 → k = mkKey c id → minDistance o = 0 →
  ∃ w', saveTrackingSession f c id o w1 = Done tt w' ∧ Asked c id w (<[k := o]> m) w'.
Proof.
  intros H1 -> Hd. unfold saveTrackingSession.
  replace (is_distance f o) with false by (unfold is_distance; by rewrite Hd).
  assert (Hm : mTimeBasedTrackingSessions (st w1) = m) by (destruct H1 as [? H1|H1]; apply H1).
  set (w2 := set_st (set_time (<[mkKey c id := o]> m) (st w1)) w1).
  assert (E : upd_st (λ s, set_time (<[mkKey c id := o]> (mTimeBasedTrackingSessions s)) s) w1 = Done tt w2).
  { unfold upd_st, modify, w2. by rewrite Hm. }
  rewrite (bind_done _ _ _ _ _ E). destruct (quiet_power w2) as ([] & w3 & E3 & Q3).
  exists w3. split; [done|]. destruct H1 as [o' H1|H1]; [left with o'|right]; (eapply after_quiet; [|done]); by eapply after_sessions.
Qed.
Lemma after_save f c id k (o : TrackingOptions) w m w1 :
  After w [] [] m w1 → k = mkKey c id → minDistance o = 0 → listens c w →
  ∃ w', (_ ← saveTrackingSession f c id o; reportResponse c LOCATION_ERROR_SUCCESS id) w1 = Done tt w' ∧
        Asked c id w (<[k := o]> m) w'.
Proof.
  intros H1 -> Hd Hc. unfold saveTrackingSession.
  replace (is_distance f o) with false by (unfold is_distance; by rewrite Hd).
  set (w2 := set_st (set_time (<[mkKey c id := o]> m) (st w1)) w1).
  destruct (quiet_power w2) as ([] & w3 & E3 & Q3).
  assert (E : (_ ← upd_st (λ s, set_time (<[mkKey c id := o]> (mTimeBasedTrackingSessions s)) s); reportPowerStateIfChanged) w1
              = Done tt w3).
  { rewrite (bind_done _ _ w1 tt w2); [done|]. unfold upd_st, modify, w2. by rewrite (af_sessions _ _ _ _ _ H1). }
  rewrite (bind_done _ _ _ _ _ E).
  assert (H3 : After w [] [] (<[mkKey c id := o]> m) w3) by (eapply after_quiet; [|done]; by eapply after_sessions).
  rewrite response_told by by eapply after_listens. eexists. split; [done|]. right. by apply after_answer.
Qed.

Lemma proc_start_asked f c id (o : TrackingOptions) w :
  hasCallbacksToStartTracking c (base w) = true → listens c w → options_size o ≠ 0 → minDistance o = 0 →
  ∃ o' w', proc_start f c id o w = Done tt w' ∧
           Asked c id w (<[mkKey c id := o']> (mTimeBasedTrackingSessions (st w))) w'.
Proof.
  intros Hcb Hc Hs Hd. unfold proc_start. rewrite (bind_done _ _ w (base w) w), Hcb by done. cbn [negb].
  destruct (Z.eqb_spec (options_size o) 0) as [|_]; [done|]. cbv zeta.
  replace (is_distance f (at_least_min o)) with false by (unfold is_distance; by rewrite at_least_distance, Hd).
  set (o' := tbm_fallback (at_least_min o)). exists o'.
  assert (Hd' : minDistance o' = 0) by (unfold o'; by rewrite fallback_distance, at_least_distance).
  unfold start_time_based, startTimeBasedTrackingMultiplex. set (m := mTimeBasedTrackingSessions (st w)).
  assert (H : ∃ b w1, startTimeBasedTrackingMultiplex c id o' w = Done b w1 ∧
    (b = false ∧ Asked c id w m w1 ∨ b = true ∧ After w [] [] m w1)).
  { unfold startTimeBasedTrackingMultiplex. rewrite (bind_done _ _ w (st w) w) by done. fold m.
    destruct (decide (m = ∅)) as [E|N].
    - set (w0 := set_st (set_prevNmea 0 (st w)) w). rewrite (bind_done _ _ w tt w0) by done.
      destruct (run_time_based_asked c id o' w w0 [] m) as (w1 & E1 & H1); [|done..|].
      { eapply after_quiet; [apply after_here|done]. }
      exists false, w1. rewrite (bind_done _ _ _ _ _ E1). split; [done|]. by left.
    - destruct (demand o' (fastest (λ _, false) m)) as [o1 [|]].
      + destruct (run_time_based_asked c id o1 w w [] m) as (w1 & E1 & H1); [apply after_here|done..|].
        exists false, w1. rewrite (bind_done _ _ _ _ _ E1). split; [done|]. by left.
      + exists true, w. split; [done|]. right. split; [done|]. apply after_here. }
  destruct H as (b & w1 & E1 & H1). unfold startTimeBasedTrackingMultiplex in E1. rewrite (bind_done _ _ _ _ _ E1).
  destruct H1 as [[-> H1]|[-> H1]]; cbn [when].
  - destruct (asked_save f c id _ o' w m w1 H1 eq_refl Hd') as (w2 & E2 & H2).
    exists w2. rewrite (bind_done _ _ _ _ _ E2). by split.
  - by apply (after_save f c id _ o' w m w1).
Qed.

(** The answer of the modem. *)
Lemma start_ends modem b cc (o : TrackingOptions) a :
  ∃ err a', LocApiTrack.startTimeBasedTracking modem b cc o a = Done err a'.
Proof.
  assert (H : changes (λ _ _ : ApiState, True) (LocApiTrack.startTimeBasedTracking modem b cc o)).
  { unfold LocApiTrack.startTimeBasedTracking, registerEventMask, register_changed, setOperationMode.
    assert (PreOrder (λ _ _ : ApiState, True)) by by split. changes. }
  destruct (H a) as (err & a' & E & _). by exists err, a'.
Qed.
Lemma response_start f c id err w :
  lock w = ENGINE_LOCK_STATE_ENABLED → listens c w → is_Some (mTimeBasedTrackingSessions (st w) !! mkKey c id) →
  ∃ w', proc_response f (RStartTimeBased c id) err w = Done tt w' ∧
    After w [EvResponse c err id] []
      (if decide (err = LOCATION_ERROR_SUCCESS) then mTimeBasedTrackingSessions (st w)
       else delete (mkKey c id) (mTimeBasedTrackingSessions (st w))) w'.
Proof.
  intros Hl Hc [o Ho]. unfold proc_response. rewrite (bind_done _ _ w (lock w) w), Hl by done. cbv zeta.
  unfold failed. rewrite (bool_decide_eq_true_2 (ENGINE_LOCK_STATE_ENABLED = ENGINE_LOCK_STATE_ENABLED)) by done.
  simpl andb. destruct (decide (err = LOCATION_ERROR_SUCCESS)) as [->|Ne].
  - rewrite bool_decide_eq_false_2 by auto. destruct (quiet_checkUpdate false w) as ([] & w1 & E1 & Q1).
    rewrite (bind_done _ _ _ _ _ E1). pose proof (after_quiet _ _ _ _ _ _ (after_here w) Q1) as H1.
    rewrite response_told by by eapply after_listens. eexists. split; [done|]. by apply after_answer.
  - rewrite bool_decide_eq_true_2 by done. unfold eraseTrackingSession.
    set (m := delete (mkKey c id) (mTimeBasedTrackingSessions (st w))). set (w1 := set_st (set_time m (st w)) w).
    destruct (quiet_power w1) as ([] & w2 & E2 & Q2).
    rewrite (bind_done _ _ w tt w2).
    + assert (H2 : After w [] [] m w2) by (eapply after_quiet; [|done]; eapply after_sessions, after_here).
      rewrite response_told by by eapply after_listens. eexists. split; [done|]. by apply after_answer.
    + rewrite (bind_done _ _ w tt w1); [done|]. unfold upd_st, modify. f_equal. unfold w1. f_equal.
      unfold isTimeBasedTrackingSession. by rewrite Ho.
Qed.

(** A task that has only the message [m]. *)
Lemma task_one f (w w1 : TW) p m :
  task w = [p] → heap w !! p = Some m → proc f m (popped [] w) = Done tt w1 → is_Some (heap w1 !! p) →
  task_step f w = Done tt (freed p w1).
Proof.
  intros Ht Hp E [x Hx]. unfold task_step. rewrite (bind_done _ _ w [p] w) by (unfold gets; by rewrite Ht).
  rewrite (bind_done _ _ w tt (popped [] w)) by done.
  rewrite (bind_done _ _ (popped [] w) m (popped [] w)) by by apply deref_done.
  rewrite (bind_done _ _ _ _ _ E). unfold delete_msg. by rewrite Hx.
Qed.
Lemma api_none modem f (w : TW) : apiTask w = [] → api_step modem f w = Done tt w.
Proof. intros H. unfold api_step. by rewrite (bind_done _ _ w [] w) by (unfold gets; by rewrite H). Qed.
Lemma task_none f (w : TW) : task w = [] → task_step f w = Done tt w.
Proof. intros H. unfold task_step. by rewrite (bind_done _ _ w [] w) by (unfold gets; by rewrite H). Qed.

(** What a start is to end in: the answer [err], and the session kept if that is a success. *)
Definition Answered (c : client) (id : Z) (err : LocationError) (w w' : TW) : Prop :=
  told w' = told w ++ [EvResponse c err id] ∧ task w' = [] ∧ apiTask w' = [] ∧
  (is_Some (mTimeBasedTrackingSessions (st w') !! mkKey c id) ↔ err = LOCATION_ERROR_SUCCESS) ∧
  (∀ k, k ≠ mkKey c id → mTimeBasedTrackingSessions (st w') !! k = mTimeBasedTrackingSessions (st w) !! k).

(** From the moment the message was processed. *)
Lemma asked_answered modem f c id (o : TrackingOptions) w w1 :
  Asked c id w (<[mkKey c id := o]> (mTimeBasedTrackingSessions (st w))) w1 →
  task w = [] → apiTask w = [] → lock w = ENGINE_LOCK_STATE_ENABLED → listens c w →
  ∃ err w', (_ ← api_step modem f; task_step f) w1 = Done tt w' ∧ Answered c id err w w'.
Proof.
  intros Ha Ht Hq Hl Hc. set (m := <[mkKey c id := o]> (mTimeBasedTrackingSessions (st w))) in *.
  destruct Ha as [o' [Et Eq [= T1 H1 N1 C1 L1 A1] Es]|[Et Eq [= T1 H1 N1 C1 L1 A1] Es]].
  - assert (Hc1 : listens c w1) by (unfold listens; by rewrite C1). rewrite Hq in Eq. simpl in Eq.
    set (breach := msg_BATCHED_GENFENCE_BREACH f). set (cc := gnssConstellationConfig f).
    destruct (start_ends modem breach cc o' (api w1)) as (err & a & E). exists err.
    set (w2 := set_api a (set_apiTask [] w1)). set (r := RStartTimeBased c id).
    set (w3 := set_task (<[next w2 := Own (Response r err)]> (heap w2)) (Pos.succ (next w2)) [next w2] w2).
    rewrite (bind_done _ _ w1 tt w3).
    2: { unfold api_step. rewrite (bind_done _ _ w1 (apiTask w1) w1), Eq by done.
         rewrite (bind_done _ _ w1 tt (set_apiTask [] w1)) by done. cbn [own_api GnssAdapter tr_api respond].
         unfold respond. rewrite (bind_done _ _ (set_apiTask [] w1) err w2) by by apply run_api_done.
         rewrite send_new_run. unfold w3. cbn. by rewrite T1, Ht. }
    destruct (response_start f c id err (popped [] w3)) as (w4 & E4 & [At Aq [= T4 H4 N4 C4 L4 A4] As]).
    { cbn. congruence. } { exact Hc1. } { cbn. rewrite Es. unfold m. by rewrite lookup_insert_eq. }
    exists (freed (next w2) w4). split.
    { eapply task_one; [reflexivity|cbn; apply lookup_insert_eq|exact E4|]. rewrite H4. cbn. by rewrite lookup_insert_eq. }
    split; [change (told w4 = told w ++ [EvResponse c err id]); rewrite At; change (told (popped [] w3)) with (told w1);
            by rewrite Et, app_nil_r|].
    split; [exact T4|]. split; [change (apiTask w4 = []); by rewrite Aq|].
    change (mTimeBasedTrackingSessions (st (freed (next w2) w4))) with (mTimeBasedTrackingSessions (st w4)).
    rewrite As. change (mTimeBasedTrackingSessions (st (popped [] w3))) with (mTimeBasedTrackingSessions (st w1)).
    rewrite Es. unfold m. destruct (decide (err = LOCATION_ERROR_SUCCESS)) as [->|Ne].
    + split; [by rewrite lookup_insert_eq|]. intros k Hk. by rewrite lookup_insert_ne.
    + split; [rewrite lookup_delete_eq; split; [by intros []|done]|].
      intros k Hk. by rewrite lookup_delete_ne, lookup_insert_ne.
  - exists LOCATION_ERROR_SUCCESS, w1. rewrite Hq in Eq. rewrite (bind_done _ _ w1 tt w1) by by apply api_none.
    split; [apply task_none; by rewrite T1|]. split; [done|]. split; [by rewrite T1|]. split; [done|]. rewrite Es. unfold m.
    split; [by rewrite lookup_insert_eq|]. intros k Hk. by rewrite lookup_insert_ne.
Qed.

(** The identifier of the next session. *)
Definition next_id (w : TW) : Z :=
  let c := uwrap 32 (mSessionIdCounter (base w) + 1) in if c =? 0xFFFFFFFF then 1 else c.

(** C8: a start is answered. A client that has callbacks for its positions and for its answers
    starts a session by time alone (its options have a size, and the distance is 0), with nothing
    else under way and the lock of the engine reported as enabled: whatever the modem does with the
    request, after one turn of the tasks the client has been told exactly one result for the
    session, it is in the table of the sessions if and only if that result is a success, no other
    session has changed, and the two tasks are idle again. (Without a size nothing is answered;
    under a lock a refused session is kept.) *)
Theorem tracking_start_answered modem f w c (options : TrackingOptions) :
  task w = [] → apiTask w = [] → lock w = ENGINE_LOCK_STATE_ENABLED →
  listens c w → hasCallbacksToStartTracking c (base w) = true → options_size options ≠ 0 → minDistance options = 0 →
  ∃ err w', execs modem f [LCall (CStart c options); LTask; LApi; LTask] w = Done tt w' ∧
            Answered c (next_id w) err w w'.
Proof.
  intros Ht Hq Hl Hc Hcb Hs Hd. set (id := next_id w). set (msg := Own (MsgStartTracking c id options)).
  set (w0 := set_base (set_counter id (base w)) w). set (p := next w).
  set (w1 := set_out (out w0 ++ [EvOwn (EvSession c id)])
               (set_task (<[p := msg]> (heap w0)) (Pos.succ p) (task w0 ++ [p]) w0)).
  assert (Hcall : exec modem f (LCall (CStart c options)) w = Done tt w1) by done.
  set (w2 := popped [] w1). assert (H2t : told w2 = told w).
  { change (told w2) with (told (set_out (out w ++ [EvOwn (EvSession c id)]) w)). by rewrite told_snoc, app_nil_r. }
  destruct (proc_start_asked f c id options w2 Hcb Hc Hs Hd) as (o' & w3 & E3 & H3).
  assert (Hp : proc f msg w2 = Done tt w3).
  { cbn [proc own_proc GnssAdapter tr_proc msg]. unfold when_known. rewrite (bind_done _ _ w2 (base w2) w2) by done.
    rewrite Hd, andb_false_r. exact E3. }
  assert (Hh : heap w3 !! p = Some msg).
  { assert (heap w3 = heap w2) as -> by (destruct H3 as [? [_ _ [=] _]|[_ _ [=] _]]; done). cbn. by rewrite lookup_insert_eq. }
  set (w4 := freed p w3).
  assert (H4 : Asked c id (freed p w2) (<[mkKey c id := o']> (mTimeBasedTrackingSessions (st (freed p w2)))) w4).
  { destruct H3 as [o3 [A B [= C1 C2 C3 C4 C5 C6] D]|[A B [= C1 C2 C3 C4 C5 C6] D]]; [left with o3|right];
      (split; [exact A|exact B| |exact D]); cbn; by rewrite C1, C2, C3, C4, C5, C6. }
  destruct (asked_answered modem f c id o' (freed p w2) w4 H4) as (err & w5 & E5 & A1 & A2 & A3 & A4 & A5);
    [done|exact Hq|exact Hl|exact Hc|].
  exists err, w5. split; [|split; [by rewrite A1; change (told (freed p w2)) with (told w2); rewrite H2t|by split_and!]].
  cbn [execs]. rewrite (bind_done _ _ _ _ _ Hcall). cbn [exec].
  rewrite (bind_done _ _ w1 tt w4).
  2: { apply (task_one f w1 w3 p msg); [cbn; by rewrite Ht|cbn; apply lookup_insert_eq|exact Hp|by rewrite Hh]. }
  apply bind_inv in E5 as ([] & w' & E5 & E6). rewrite (bind_done _ _ _ _ _ E5). by rewrite (bind_done _ _ _ _ _ E6).
Qed.

(** The client of [engine_up], and a modem that refuses to start. *)
Definition refuses_start : Modem := λ h, (match last h with Some (Start _) => false | _ => true end, snd (always h)).
Definition idle_world : TW :=
  mkWorld (st (tr_init plain_env))
    {| mIsEngineCapabilitiesKnown := true; mEvtMask := 0; mClientData := {[1%positive := tracking_callbacks]};
       mSessionIdCounter := 1; mPendingMsgs := []; mPendingGnssEnabledMsgs := [] |}
    ∅ 1 [] [] (api_init 0 true) ENGINE_LOCK_STATE_ENABLED [].
Lemma tracking_start_answered_witness :
  told <$> outcome_state (execs refuses_start (tracking_features true)
    [LCall (start 1000 GNSS_POWER_MODE_M2); LTask; LApi; LTask] idle_world)
    = Some [EvResponse 1 LOCATION_ERROR_GENERAL_FAILURE 2] ∧
  ∃ err w', execs refuses_start (tracking_features true) [LCall (start 1000 GNSS_POWER_MODE_M2); LTask; LApi; LTask] idle_world
    = Done tt w' ∧ Answered 1 (next_id idle_world) err idle_world w'.
Proof.
  split; [by vm_compute|].
  apply (tracking_start_answered refuses_start (tracking_features true) idle_world 1 (request 1000 0 GNSS_POWER_MODE_M2));
    reflexivity || done.
Defined.

(** ** What goes wrong *)
Definition view (w : TW) := (told w, running w, modem_session w).
Definition ok (id : Z) : TEvent := EvResponse 1 LOCATION_ERROR_SUCCESS id.
Definition no_size : TrackingOptions :=
  mkTrackingOptions (mkLocationOptions 0 1000 0 GNSS_SUPL_MODE_STANDALONE 0) GNSS_POWER_MODE_M2 0.
Definition start_distance : TCall := CStart 1 (request 1000 10 GNSS_POWER_MODE_M2).
Definition with_M2 (interval : Z) := Some (Some interval, Some (eQMI_LOC_POWER_MODE_NORMAL_V02, 0)).
Definition nhz_registered (w : TW) : bool := test_bits (mEvtMask (base w)) LOC_API_ADAPTER_BIT_GNSS_NHZ_MEASUREMENT.

(** What goes wrong, on concrete executions: (1) a start with options of size 0 is an error
    that the client is never told; (2) a session that joins with a shorter interval and less power
    takes the modem from the high power that another session asked for to the low power of a
    third; (3) a session that joins while the first start is on its way to a modem that refuses it is
    told it has succeeded, and is never tracked; (4) a session that turns distance-based on a modem
    without distance-based tracking stays in the table while the modem is stopped, and is told twice
    that it succeeded; (5) a restart of the modem while the engine is locked loses the sessions;
    (6) an engine hub that repeats that it needs measurements at a high rate has them
    unregistered; and (7) a stop that crosses a switch to time-based tracking removes the session
    and leaves the modem tracking for nobody. *)
Theorem tracking_goes_wrong :
  (view <$> outcome_state (run always true (answered (CStart 1 no_size)))) = Some ([], [], None) ∧
  (view <$> outcome_state (run always true (answered (start 1000 GNSS_POWER_MODE_M4) ++
     answered (start 5000 GNSS_POWER_MODE_M1) ++ answered (start 500 GNSS_POWER_MODE_M5))))
    = Some ([ok 2; ok 3; ok 4], [(2, 1000); (3, 5000); (4, 500)],
            Some (Some 500, Some (eQMI_LOC_POWER_MODE_BACKGROUND_DEFINED_TIME_V02, 500))) ∧
  (view <$> outcome_state (run refuses_start true
     (LCall (start 1000 GNSS_POWER_MODE_M2) :: answered (start 5000 GNSS_POWER_MODE_M2))))
    = Some ([ok 3; EvResponse 1 LOCATION_ERROR_GENERAL_FAILURE 2], [(3, 5000)], with_M2 1000) ∧
  (view <$> outcome_state (run always false (answered (start 1000 GNSS_POWER_MODE_M2) ++ answered (updating 2 1000 10))))
    = Some ([ok 2; ok 2], [(2, 1000)], None) ∧
  (view <$> outcome_state (run always true (answered (start 1000 GNSS_POWER_MODE_M2) ++
     answered (CEngineLock ENGINE_LOCK_STATE_DISABLED) ++ answered CModemRestart ++
     answered (CEngineLock ENGINE_LOCK_STATE_ENABLED))))
    = Some ([ok 2], [(2, 1000)], None) ∧
  (nhz_registered <$> outcome_state (run always true [LCall (CUpdateNHz true true)])) = Some true ∧
  (nhz_registered <$> outcome_state (run always true [LCall (CUpdateNHz true true); LCall (CUpdateNHz true true)]))
    = Some false ∧
  (view <$> outcome_state (run always true (answered start_distance ++
     [LCall (updating 2 1000 20); LTask; LApi; LTask; LCall (updating 2 1000 0); LTask; LApi; LTask; LCall (CStop 1 2)] ++
     turns 8)))
    = Some ([ok 2; ok 2; ok 2; ok 2], [], with_M2 1000).
Proof. split_and!; by vm_compute. Qed.

(** A message that is put aside is used after it was freed: a client that starts a
    distance-based session before the capabilities of the engine are known is served when the
    engine comes up; the message is then deleted, but stays in the list, and when the modem
    restarts a second time the adapter's task reads it again. *)
Theorem pending_message_used_after_free :
  let early := LCall (CAddClient 1 tracking_callbacks) :: answered start_distance in
  (told <$> outcome_state (execs always (tracking_features true) (early ++ answered CModemRestart) (tr_init plain_env)))
    = Some [ok 2] ∧
  execs always (tracking_features true) (early ++ answered CModemRestart ++ answered CModemRestart) (tr_init plain_env)
    = UB.
Proof. split; by vm_compute. Qed.
