(* ===== verification/CString.v ===== *)
(** * C strings : what the parsers of the configuration files use of the C library.

    A buffer that holds a C string is the list of its characters, without the
    terminator; [cstr] is how the string functions see a buffer with bytes of its own.
    [char] is a byte, the locale is "C", [long] has 64 bits and [int] 32.  None of
    these definitions models code of the repository. *)
From Stdlib Require Import Ascii.
From Stdlib Require Import Floats.SpecFloat.
From stdpp Require Import pretty.
From S2P Require Import Prelude.

Abbreviation str := (list ascii) (only parsing).

(** A string literal. *)
Definition lit : string → str := String.list_ascii_of_string.
Arguments lit _%_string.

#[export] Instance ascii_eq_dec : EqDecision ascii := ascii_dec.

Definition NUL : ascii := "000".
Definition NL : ascii := "010".

Definition code (c : ascii) : Z := Z.of_N (N_of_ascii c).

(** Up to the first NUL. *)
Fixpoint cstr (buf : str) : str :=
  match buf with
  | [] => []
  | c :: r => if decide (c = NUL) then [] else c :: cstr r
  end.

Definition isspace (c : ascii) : bool := ((9 <=? code c) && (code c <=? 13))%Z || (code c =? 32)%Z.
Definition isupper (c : ascii) : bool := ((65 <=? code c) && (code c <=? 90))%Z.
Definition tolower (c : ascii) : Z := if isupper c then (code c + 32)%Z else code c.

Definition strcmp0 (a b : str) : bool := bool_decide (a = b).

(** ** strtok_r, strlcpy, strlcat, strrchr *)

Fixpoint strspn_drop (delims s : str) : str :=
  match s with
  | c :: r => if decide (c ∈ delims) then strspn_drop delims r else s
  | [] => []
  end.

(** The token that starts here, and what follows its delimiter. *)
Fixpoint strtok_split (delims s : str) : str * str :=
  match s with
  | c :: r => if decide (c ∈ delims) then ([], r) else let '(t, rest) := strtok_split delims r in (c :: t, rest)
  | [] => ([], [])
  end.

(** The token and what [lasts] points at afterwards. *)
Definition strtok_r (delims s : str) : option (str * str) :=
  match strspn_drop delims s with
  | [] => None
  | t => Some (strtok_split delims t)
  end.

Definition strlcpy (dst src : str) (size : nat) : str :=
  match size with O => dst | S n => take n src end.
Definition strlcat (dst src : str) (size : nat) : str :=
  if decide (length dst < size) then dst ++ take (size - length dst - 1) src else dst.

(** What follows the last [c], if there is one. *)
Fixpoint strrchr_next (s : str) (c : ascii) : option str :=
  match s with
  | [] => None
  | d :: r => match strrchr_next r c with
              | Some t => Some t
              | None => if decide (d = c) then Some r else None
              end
  end.

(** ** strtol, atoi *)

Definition digit_val (base : Z) (c : ascii) : option Z :=
  let n := code c in
  let v := if ((48 <=? n) && (n <=? 57))%Z then Some (n - 48)%Z
           else if ((97 <=? n) && (n <=? 122))%Z then Some (n - 87)%Z
           else if ((65 <=? n) && (n <=? 90))%Z then Some (n - 55)%Z
           else None in
  v ≫= λ d, if (d <? base)%Z then Some d else None.

Fixpoint digits (base acc : Z) (s : str) : Z :=
  match s with
  | c :: r => match digit_val base c with Some d => digits base (acc * base + d) r | None => acc end
  | [] => acc
  end.

Fixpoint skip_spaces (s : str) : str :=
  match s with c :: r => if isspace c then skip_spaces r else s | [] => [] end.

Definition sign (s : str) : bool * str :=
  match s with
  | c :: r => if decide (c = "-"%char) then (true, r) else if decide (c = "+"%char) then (false, r) else (false, s)
  | [] => (false, [])
  end.

(** With base 16 an optional "0x" is skipped. *)
Definition hex_prefix (base : Z) (s : str) : str :=
  match s with
  | z :: x :: r => if (base =? 16)%Z && bool_decide (z = "0"%char) && (tolower x =? 120)%Z then r else s
  | _ => s
  end.

Definition LONG_MAX : Z := 2 ^ 63 - 1.
Definition LONG_MIN : Z := - 2 ^ 63.

Definition strtol (s : str) (base : Z) : Z :=
  let '(neg, r) := sign (skip_spaces s) in
  let v := digits base 0 (hex_prefix base r) in
  Z.max LONG_MIN (Z.min LONG_MAX (if neg then - v else v))%Z.

Definition atoi (s : str) : Z := swrap 32 (strtol s 10).

(** ** strtoull, atof

    A double or a float is a datum of IEEE 754 as the Standard Library specifies it; [atof]
    rounds the number that the text writes to the nearest one, ties to even. *)

Definition strtoull (s : str) (base : Z) : Z :=
  let '(neg, r) := sign (skip_spaces s) in
  let v := digits base 0 (hex_prefix base r) in
  if (2 ^ 64 <=? v)%Z then (2 ^ 64 - 1)%Z else uwrap 64 (if neg then - v else v).

Definition double : Type := spec_float.
Definition float : Type := spec_float.
Definition zero_double : double := S754_zero false.

(** [==] of two doubles: a NaN equals nothing, the two zeros are equal. *)
Definition feq (x y : spec_float) : bool := SFeqb x y.

(** The digits that start here: their value, how many they are, what follows. *)
Fixpoint mantissa (base acc : Z) (n : nat) (s : str) : Z * nat * str :=
  match s with
  | c :: r => match digit_val base c with
              | Some d => mantissa base (acc * base + d) (S n) r
              | None => (acc, n, s)
              end
  | [] => (acc, n, [])
  end.

(** Digits with a point among them: the number is the first component divided by the base to the
    power of the second; the third says whether there was a digit. *)
Definition pointed (base : Z) (s : str) : Z * nat * bool * str :=
  let '(a, n, r) := mantissa base 0 0 s in
  match r with
  | c :: r' => if decide (c = "."%char) then
                 let '(b, k, r2) := mantissa base a 0 r' in (b, k, bool_decide (n + k ≠ 0), r2)
               else (a, 0, bool_decide (n ≠ 0), r)
  | [] => (a, 0, bool_decide (n ≠ 0), [])
  end.

(** The exponent after the letter [mark], which counts only with a digit behind it. *)
Definition exponent (mark : ascii) (s : str) : Z :=
  match s with
  | c :: r => if (tolower c =? code mark)%Z then
                let '(neg, r') := sign r in
                if neg then - digits 10 0 r' else digits 10 0 r'
              else 0
  | [] => 0
  end%Z.

(** [m] times ten to the power of [k], rounded once. *)
Definition round_decimal (prec emax : Z) (neg : bool) (m k : Z) : spec_float :=
  match m with
  | Zpos p => if (0 <=? k)%Z then binary_normalize prec emax ((if neg then -1 else 1) * (m * 10 ^ k)) 0 neg
              else SFdiv prec emax (S754_finite neg p 0) (S754_finite false (Z.to_pos (10 ^ (- k))) 0)
  | _ => S754_zero neg
  end.

Definition istarts (w s : str) : bool := bool_decide ((tolower <$> take (length w) s) = (code <$> w)).

Definition strtod (prec emax : Z) (s : str) : spec_float :=
  let '(neg, r) := sign (skip_spaces s) in
  if istarts (lit "inf") r then S754_infinity neg
  else if istarts (lit "nan") r then S754_nan
  else if istarts (lit "0x") r then
    let '(m, n, some, r') := pointed 16 (drop 2 r) in
    if some then binary_normalize prec emax (if neg then - m else m) (exponent "p" r' - 4 * Z.of_nat n) neg
    else S754_zero neg
  else
    let '(m, n, some, r') := pointed 10 r in
    if some then round_decimal prec emax neg m (exponent "e" r' - Z.of_nat n) else S754_zero neg.

Definition atof (s : str) : double := strtod 53 1024 s.

(** The conversion of a double or of an int to a float. *)
Definition to_float (d : double) : float :=
  match d with
  | S754_finite neg m e => binary_normalize 24 128 (if neg then Zneg m else Zpos m) e neg
  | _ => d
  end.
Definition float_of_int (z : Z) : float := binary_normalize 24 128 z 0 false.

#[export] Instance spec_float_eq_dec : EqDecision spec_float.
Proof. solve_decision. Defined.

(** ** fgets *)

(** At most [k] characters, up to the end of the line: what is read and what is left. *)
Fixpoint getline (k : nat) (f : str) : str * str :=
  match k, f with
  | S k, c :: r => if decide (c = NL) then ([c], r) else let '(l, rest) := getline k r in (c :: l, rest)
  | _, _ => ([], f)
  end.

Definition fgets (n : nat) (f : str) : option (str * str) :=
  match n with
  | O => None
  | S O => Some ([], f)
  | S k => match f with [] => None | _ => Some (getline k f) end
  end.

(** ** Lemmas *)

Definition no (c : ascii) (s : str) : Prop := Forall (λ d, d ≠ c) s.
#[export] Instance no_dec c s : Decision (no c s) := _.

(** A string without NUL is what the string functions see. *)
Lemma cstr_id s : no NUL s → cstr s = s.
Proof. induction 1; simpl; [done|]. rewrite decide_False by done. by f_equal. Qed.

Lemma strtok_split_at d s r : no d s → strtok_split [d] (s ++ d :: r) = (s, r).
Proof.
  induction 1 as [|c s Hc _ IH]; simpl; [by rewrite decide_True by set_solver|].
  rewrite decide_False by set_solver. by rewrite IH.
Qed.
Lemma strtok_split_end d s : no d s → strtok_split [d] s = (s, []).
Proof. induction 1 as [|c s Hc _ IH]; simpl; [done|]. rewrite decide_False by set_solver. by rewrite IH. Qed.
Lemma strtok_split_nil s : strtok_split [] s = (s, []).
Proof. induction s as [|c s IH]; [done|]. cbn [strtok_split]. rewrite decide_False by apply not_elem_of_nil. by rewrite IH. Qed.

Lemma strspn_drop_id delims c s : c ∉ delims → strspn_drop delims (c :: s) = c :: s.
Proof. intros. cbn [strspn_drop]. by rewrite decide_False. Qed.

(** The token before the delimiter [d], when it is not empty. *)
Lemma strtok_at d s r : s ≠ [] → no d s → strtok_r [d] (s ++ d :: r) = Some (s, r).
Proof.
  intros Hne Hs. unfold strtok_r. destruct s as [|c s]; [done|]. inversion Hs; subst.
  rewrite <- (strtok_split_at d (c :: s) r) by done. simpl app. by rewrite strspn_drop_id by set_solver.
Qed.
Lemma strtok_end d s : s ≠ [] → no d s → strtok_r [d] s = Some (s, []).
Proof.
  intros Hne Hs. unfold strtok_r. destruct s as [|c s]; [done|]. inversion Hs; subst.
  rewrite strspn_drop_id by set_solver. by rewrite strtok_split_end.
Qed.
Lemma strtok_rest s : strtok_r [] s = match s with [] => None | _ => Some (s, []) end.
Proof. destruct s as [|c s]; [done|]. unfold strtok_r. rewrite strspn_drop_id by apply not_elem_of_nil. by rewrite strtok_split_nil. Qed.

(** A line that fits is read whole. *)
Lemma fgets_line n s r : no NL s → length s + 1 < n → fgets n (s ++ NL :: r) = Some (s ++ [NL], r).
Proof.
  intros Hs Hn. destruct n as [|[|n]]; [lia..|].
  assert (G : ∀ k, length s < k → getline k (s ++ NL :: r) = (s ++ [NL], r)).
  { clear Hn. induction Hs as [|c s Hc _ IH]; intros k Hk; (destruct k as [|k]; [simpl in *; lia|]).
    - done.
    - simpl. rewrite decide_False by done. by rewrite IH by (simpl in *; lia). }
  unfold fgets. rewrite G by lia. by destruct s.
Qed.

(** Something is read of a file that is not at its end. *)
Lemma fgets_shorter n f b r : 2 ≤ n → fgets n f = Some (b, r) → length r < length f.
Proof.
  intros Hn. assert (G : ∀ k f b r, getline k f = (b, r) → length r ≤ length f).
  { clear. intros k. induction k as [|k IH]; intros f b r; simpl; [by intros [= <- <-]|].
    destruct f as [|c f]; [by intros [= <- <-]|]. destruct (decide (c = NL)); [intros [= <- <-]; simpl; lia|].
    destruct (getline k f) as [l rest] eqn:E. intros [= <- <-]. apply IH in E. simpl. lia. }
  destruct n as [|[|n]]; [lia..|]. unfold fgets. destruct f as [|c f]; [done|]. intros [= E]. simpl in E.
  destruct (decide (c = NL)); [injection E as [= <- <-]; simpl; lia|].
  destruct (getline n f) as [l rest] eqn:E'. injection E as [= <- <-]. apply G in E'. simpl. lia.
Qed.

(** ** Decimal numbers: atoi reads what "%d" prints *)

Definition is_digit (c : ascii) : Prop := ∃ d, digit_val 10 c = Some d ∧ isspace c = false ∧ c ≠ "-"%char ∧ c ≠ "+"%char.

Lemma pretty_char_digit x : (x < 10)%N →
  digit_val 10 (pretty_N_char x) = Some (Z.of_N x) ∧ is_digit (pretty_N_char x).
Proof.
  intros Hx. assert (x = 0 ∨ x = 1 ∨ x = 2 ∨ x = 3 ∨ x = 4 ∨ x = 5 ∨ x = 6 ∨ x = 7 ∨ x = 8 ∨ x = 9)%N as H by lia.
  repeat destruct H as [-> | H]; try subst x; (split; [done|]); eexists; split_and!; vm_compute; try reflexivity; discriminate.
Qed.

Lemma digits_pretty x s : (0 < x)%N → digits 10 0 (lit (pretty_N_go x s)) = digits 10 (Z.of_N x) (lit s).
Proof.
  revert s. induction (N.lt_wf_0 x) as [x _ IH]. intros s Hx. rewrite pretty_N_go_step by done.
  assert ((x `mod` 10 < 10)%N) as Hm by (apply N.mod_lt; lia).
  assert (Hd : Z.of_N x = (Z.of_N (x `div` 10) * 10 + Z.of_N (x `mod` 10))%Z) by (pose proof (N.div_mod x 10); lia).
  destruct (decide (0 < x `div` 10)%N) as [Hq|Hq].
  - rewrite IH by (try apply N.div_lt; lia).
    change (lit (String ?c s)) with (c :: lit s). simpl. rewrite (proj1 (pretty_char_digit _ Hm)). by rewrite <- Hd.
  - replace (x `div` 10)%N with 0%N in * by lia. rewrite pretty_N_go_0.
    change (lit (String ?c s)) with (c :: lit s). simpl. rewrite (proj1 (pretty_char_digit _ Hm)).
    f_equal. lia.
Qed.

Lemma pretty_go_digits x s : Forall is_digit (lit s) → Forall is_digit (lit (pretty_N_go x s)).
Proof.
  revert s. induction (N.lt_wf_0 x) as [x _ IH]. intros s Hs. destruct (decide (0 < x)%N) as [Hx|Hx].
  - rewrite pretty_N_go_step by done. apply IH; [apply N.div_lt; lia|].
    constructor; [|done]. apply pretty_char_digit. apply N.mod_lt. lia.
  - replace x with 0%N by lia. by rewrite pretty_N_go_0.
Qed.

(** What "%d" prints of an int. *)
Definition print_int (z : Z) : str := lit (pretty z).

Lemma print_pos p : ∃ c s, print_int (Zpos p) = c :: s ∧ Forall is_digit (c :: s) ∧ digits 10 0 (c :: s) = Zpos p.
Proof.
  unfold print_int. change (pretty (Z.pos p)) with (pretty_N_go (N.pos p) "").
  pose proof (digits_pretty (N.pos p) "" eq_refl) as Hd.
  pose proof (pretty_go_digits (N.pos p) "" (Forall_nil_2 _)) as Hf.
  destruct (lit (pretty_N_go (N.pos p) "")) as [|c s]; [done|]. by exists c, s.
Qed.

Lemma print_neg p : print_int (Zneg p) = "-"%char :: print_int (Zpos p).
Proof. done. Qed.

Lemma strtol_digits c s (neg : bool) : is_digit c →
  strtol ((if neg then ["-"%char] else []) ++ c :: s) 10 =
  Z.max LONG_MIN (Z.min LONG_MAX (if neg then - digits 10 0 (c :: s) else digits 10 0 (c :: s))).
Proof.
  intros (d & Hd & Hs & Hm & Hp). unfold strtol.
  assert (E : hex_prefix 10 (c :: s) = c :: s) by by destruct s.
  destruct neg.
  - change (sign (skip_spaces (["-"%char] ++ c :: s))) with (true, c :: s). cbv beta iota zeta. by rewrite E.
  - change ([] ++ c :: s) with (c :: s).
    replace (skip_spaces (c :: s)) with (c :: s) by (simpl; by rewrite Hs).
    replace (sign (c :: s)) with (false, c :: s) by (simpl; by rewrite !decide_False).
    cbv beta iota zeta. by rewrite E.
Qed.

(** Printing a number and reading it back, with any of the readers. *)
Lemma strtol_print z : (LONG_MIN ≤ z ≤ LONG_MAX)%Z → strtol (print_int z) 10 = z.
Proof.
  intros Hz. destruct z as [|p|p]; [done| |].
  - destruct (print_pos p) as (c & s & -> & Hf & Hd). apply Forall_cons in Hf as [Hc _].
    rewrite (strtol_digits c s false Hc : strtol (c :: s) 10 = _), Hd. rewrite Z.min_r, Z.max_r by lia. done.
  - rewrite print_neg. destruct (print_pos p) as (c & s & -> & Hf & Hd). apply Forall_cons in Hf as [Hc _].
    rewrite (strtol_digits c s true Hc : strtol ("-"%char :: c :: s) 10 = _), Hd. simpl Z.opp.
    rewrite Z.min_r, Z.max_r by lia. done.
Qed.
Lemma long_small z : (- 2 ^ 32 ≤ z < 2 ^ 32)%Z → (LONG_MIN ≤ z ≤ LONG_MAX)%Z.
Proof. unfold LONG_MIN, LONG_MAX. lia. Qed.
Lemma atoi_print z : (- 2 ^ 31 ≤ z < 2 ^ 31)%Z → atoi (print_int z) = z.
Proof. intros Hz. unfold atoi. rewrite strtol_print by (apply long_small; lia). by apply swrap32_small. Qed.
Lemma atoi_print_unsigned w z : (0 ≤ w ≤ 32)%Z → (0 ≤ z < 2 ^ w)%Z → uwrap w (atoi (print_int z)) = z.
Proof.
  intros Hw Hz. assert (2 ^ w ≤ 2 ^ 32)%Z by (apply Z.pow_le_mono_r; lia).
  assert (2 ^ w * 2 ^ (32 - w) = 2 ^ 32)%Z as Hp by (rewrite <- Z.pow_add_r by lia; f_equal; lia).
  unfold atoi. rewrite strtol_print by (apply long_small; lia).
  unfold swrap. rewrite Z.mod_small by lia. destruct (Z.ltb_spec z (2 ^ (32 - 1))); [by apply uwrap_small|].
  unfold uwrap. rewrite <- Hp. replace (z - 2 ^ w * 2 ^ (32 - w))%Z with (z + - 2 ^ (32 - w) * 2 ^ w)%Z by ring.
  rewrite Z_mod_plus_full. by apply Z.mod_small.
Qed.
Lemma strtoull_print z : (0 ≤ z < 2 ^ 64)%Z → strtoull (print_int z) 10 = z.
Proof.
  intros Hz. destruct z as [|p|p]; [done| |lia].
  destruct (print_pos p) as (c & s & -> & Hf & Hd). apply Forall_cons in Hf as [(d & Hc & Hs & Hm & Hp) _].
  unfold strtoull. replace (skip_spaces (c :: s)) with (c :: s) by (simpl; by rewrite Hs).
  replace (sign (c :: s)) with (false, c :: s) by (simpl; by rewrite !decide_False).
  replace (hex_prefix 10 (c :: s)) with (c :: s) by by destruct s. rewrite Hd.
  destruct (Z.leb_spec (2 ^ 64) (Z.pos p)); [lia|]. by apply uwrap_small.
Qed.

(** A printed number has no spaces and no "0x". *)
Definition int_char (c : ascii) : Prop := is_digit c ∨ c = "-"%char.
Lemma print_chars z : print_int z ≠ [] ∧ Forall int_char (print_int z).
Proof.
  assert (G : ∀ s, Forall is_digit s → Forall int_char s) by (intros s Hs; eapply Forall_impl; [done|by left]).
  destruct z as [|p|p].
  - split; [done|]. constructor; [left; by apply (pretty_char_digit 0)|constructor].
  - destruct (print_pos p) as (c & s & -> & Hf & _). auto.
  - rewrite print_neg. destruct (print_pos p) as (c & s & -> & Hf & _). split; [done|]. constructor; [by right|auto].
Qed.

Lemma int_char_plain c : int_char c → isspace c = false ∧ c ≠ NUL ∧ c ≠ NL ∧ c ≠ "="%char ∧ tolower c ≠ 120%Z.
Proof.
  intros [(d & Hd & Hs & _)| ->]; [|by split_and!]. split; [done|].
  assert (H : ∀ c', digit_val 10 c' = None → c ≠ c') by (intros c' Hc' ->; congruence).
  split_and!; try by apply H. intros Hx. revert Hd. unfold tolower in Hx.
  unfold digit_val. destruct (isupper c) eqn:Hu.
  - replace (code c) with 88%Z by lia. done.
  - by rewrite Hx.
Qed.

(** ** Hexadecimal numbers: strtol reads what "%x" prints *)

Definition hex_char (d : Z) : ascii := ascii_of_N (Z.to_N (if (d <? 10)%Z then d + 48 else d + 87)).

(** The digits of [z] before [s]; one turn per digit. *)
Fixpoint print_hex_go (fuel : nat) (z : Z) (s : str) : str :=
  match fuel with
  | O => s
  | S fuel => if (z <? 16)%Z then hex_char z :: s else print_hex_go fuel (z / 16) (hex_char (z mod 16) :: s)
  end.
(** "%x" of a number of up to 64 bits. *)
Definition print_hex (z : Z) : str := print_hex_go 16 z [].

Definition hex_digit (c : ascii) : Prop :=
  (∃ d, digit_val 16 c = Some d) ∧ isspace c = false ∧ c ≠ "-"%char ∧ c ≠ "+"%char ∧ tolower c ≠ 120%Z ∧
  c ≠ ","%char ∧ c ≠ "*"%char.
Lemma hex_char_ok d : (0 ≤ d < 16)%Z → digit_val 16 (hex_char d) = Some d ∧ hex_digit (hex_char d).
Proof.
  intros Hd. assert (d = 0 ∨ d = 1 ∨ d = 2 ∨ d = 3 ∨ d = 4 ∨ d = 5 ∨ d = 6 ∨ d = 7 ∨ d = 8 ∨ d = 9 ∨ d = 10 ∨
    d = 11 ∨ d = 12 ∨ d = 13 ∨ d = 14 ∨ d = 15)%Z as H by lia.
  repeat destruct H as [-> | H]; try subst d; (split; [done|]); split_and!; try (vm_compute; by eauto); done.
Qed.

Lemma print_hex_go_ok fuel z s :
  (0 ≤ z < 16 ^ Z.of_nat fuel)%Z → fuel ≠ 0 →
  ∃ c r, print_hex_go fuel z s = c :: r ++ s ∧ Forall hex_digit (c :: r) ∧ digits 16 0 (c :: r ++ s) = digits 16 z s.
Proof.
  revert z s. induction fuel as [|fuel IH]; intros z s Hz Hf; [done|]. simpl print_hex_go.
  destruct (Z.ltb_spec z 16) as [Hs|Hs].
  - destruct (hex_char_ok z ltac:(lia)) as [Hd Hx]. exists (hex_char z), []. split; [done|].
    split; [by constructor|]. simpl. by rewrite Hd.
  - pose proof (Z.mod_pos_bound z 16 ltac:(lia)) as Hm. destruct (hex_char_ok _ Hm) as [Hd Hx].
    rewrite Nat2Z.inj_succ, Z.pow_succ_r in Hz by lia.
    destruct (IH (z / 16)%Z (hex_char (z mod 16) :: s)) as (c & r & -> & Hr & Ed).
    + split; [by apply Z.div_pos; lia|]. apply Z.div_lt_upper_bound; lia.
    + intros ->. rewrite Z.pow_0_r in Hz. lia.
    + exists c, (r ++ [hex_char (z mod 16)]). split; [by rewrite <- app_assoc|]. split.
      * rewrite app_comm_cons. apply Forall_app. by split; [|constructor].
      * rewrite <- app_assoc. simpl app in *. rewrite Ed. simpl. rewrite Hd. f_equal.
        pose proof (Z.div_mod z 16). lia.
Qed.

Lemma print_hex_chars z : (0 ≤ z < 2 ^ 64)%Z → Forall hex_digit (print_hex z).
Proof.
  intros Hz. destruct (print_hex_go_ok 16 z []) as (c & r & E & Hf & _); [done|done|].
  unfold print_hex. by rewrite E, app_nil_r.
Qed.

Lemma strtol_print_hex z : (0 ≤ z < 2 ^ 64)%Z → strtol (print_hex z) 16 = Z.min LONG_MAX z.
Proof.
  intros Hz. destruct (print_hex_go_ok 16 z []) as (c & r & E & Hf & Hd); [lia|done|].
  unfold print_hex. rewrite E, app_nil_r in *. apply Forall_cons in Hf as [(_ & Hs & Hm & Hp & _) Hr].
  unfold strtol. replace (skip_spaces (c :: r)) with (c :: r) by (simpl; by rewrite Hs).
  replace (sign (c :: r)) with (false, c :: r) by (simpl; by rewrite !decide_False).
  replace (hex_prefix 16 (c :: r)) with (c :: r).
  - rewrite Hd. simpl digits. unfold LONG_MIN, LONG_MAX. rewrite Z.max_r by lia. done.
  - destruct r as [|x r]; [done|]. apply Forall_cons in Hr as [(_ & _ & _ & _ & Hx & _) _]. simpl.
    apply Z.eqb_neq in Hx. by rewrite Hx, andb_false_r.
Qed.
Lemma strtol_print_hex_unsigned w z :
  (0 ≤ w ≤ 64)%Z → (0 ≤ z < 2 ^ w)%Z → uwrap w (strtol (print_hex z) 16) = Z.min LONG_MAX z.
Proof.
  intros Hw Hz. assert (2 ^ w ≤ 2 ^ 64)%Z by (apply Z.pow_le_mono_r; lia). unfold LONG_MAX.
  rewrite strtol_print_hex by lia. apply uwrap_small. unfold LONG_MAX. lia.
Qed.
