(* ===== verification/LocCfg.v ===== *)
(** * gps/utils/loc_cfg.cpp and the string functions of gps/utils/loc_misc_utils.cpp :
    the readers of the configuration files.

    A table says where the value of each parameter goes.  [memory] holds the variables
    that tables point at; a file is its characters and a FILE the part not read yet.
    A table that is shorter than its [table_length], and a string variable shorter than
    [string_len], are the caller's errors and are not modelled. *)
From Stdlib Require Import Ascii.
From stdpp Require Import pretty.
From S2P Require Import Prelude CString.

(** ** loc_misc_utils.cpp *)

(** The loop over the characters of loc_util_split_string: the number of strings so far
    is the length of [acc], [cur] the string that has begun (reversed).  It stops at the
    terminator or at the delimiter that completes the last string allowed. *)
Fixpoint split_loop (max_num_substrings : Z) (delimiter : ascii) (acc : list str) (cur s : str) : list str :=
  match s with
  | [] => acc ++ [rev cur]
  | c :: r =>
    if decide (c = delimiter) then
      if (Z.of_nat (length acc + 1) <? max_num_substrings)%Z
      then split_loop max_num_substrings delimiter (acc ++ [rev cur]) [] r
      else acc ++ [rev cur]
    else split_loop max_num_substrings delimiter acc (c :: cur) r
  end.

(** The strings, in [split_strings_ptr], and what [raw_string] reads as afterwards: the
    first delimiter has been overwritten by a NUL. *)
Definition loc_util_split_string (raw_string : str) (max_num_substrings : Z) (delimiter : ascii) : list str * str :=
  let strings := split_loop max_num_substrings delimiter [] [] raw_string in
  (strings, default [] (head strings)).

(** One character of loc_util_trim_space: what [write_ptr] has written, and its place
    after the last non-space ([None] when there is none yet). *)
Definition trim_step (st : str * option nat) (c : ascii) : str * option nat :=
  let '(written, last_nonspace) := st in
  let first_nonspace := negb (isspace c) || negb (bool_decide (written = [])) in
  if first_nonspace then
    let written := written ++ [c] in
    (written, if isspace c then last_nonspace else Some (length written))
  else st.

Definition loc_util_trim_space (org_string : str) : str :=
  let '(written, last_nonspace) := fold_left trim_step org_string ([], None) in
  let buf := written ++ drop (length written) org_string in
  match last_nonspace with Some n => take n buf | None => buf end.

(** ** The parameter tables *)

Definition LOC_MAX_PARAM_STRING : nat := 172.

Record loc_param_s_type := Param {
  param_name : str;
  param_ptr : option string;
  param_set : option string;
  param_type : ascii
}.

Record loc_param_v_type := ParamValue {
  v_param_name : str;
  param_str_value : str;
  param_int_value : Z;
  param_double_value : double
}.

(** The variables that tables point at. *)
Inductive cval := CStr (s : str) | CInt (n : Z) | CDouble (d : double).
Abbreviation memory := (gmap string cval) (only parsing).

Definition str_at (mem : memory) (p : string) : str := match mem !! p with Some (CStr s) => s | _ => [] end.
Definition int_at (mem : memory) (p : string) : Z := match mem !! p with Some (CInt n) => n | _ => 0%Z end.

Definition set_flag (e : loc_param_s_type) (mem : memory) : memory :=
  match param_set e with Some p => <[p := CInt 1]> mem | None => mem end.

(** The value returned and the variables. *)
Definition loc_set_config_entry (config_entry : option loc_param_s_type) (config_value : option loc_param_v_type)
    (string_len : nat) (mem : memory) : Z * memory :=
  match config_entry, config_value with
  | Some e, Some v =>
    match param_ptr e with
    | Some p =>
      if strcmp0 (param_name e) (v_param_name v) then
        if decide (param_type e = "s"%char) then
          let s := if strcmp0 (param_str_value v) (lit "NULL") then []
                   else strlcpy (str_at mem p) (param_str_value v) string_len in
          (0%Z, set_flag e (<[p := CStr s]> mem))
        else if decide (param_type e = "n"%char) then (0%Z, set_flag e (<[p := CInt (param_int_value v)]> mem))
        else if decide (param_type e = "f"%char) then (0%Z, set_flag e (<[p := CDouble (param_double_value v)]> mem))
        else ((-1)%Z, mem)
      else ((-1)%Z, mem)
    | None => ((-1)%Z, mem)
    end
  | _, _ => ((-1)%Z, mem)
  end.

(** ** loc_fill_conf_item *)

Definition is_hex (s : str) : bool :=
  match s with z :: x :: _ :: _ => bool_decide (z = "0"%char) && (tolower x =? 120)%Z | _ => false end.

(** [config_value] from the two operands, trimmed. *)
Definition config_value (name value : str) : loc_param_v_type :=
  if is_hex value
  then ParamValue name value (swrap 32 (strtol (drop 2 value) 16)) zero_double
  else ParamValue name value (atoi value) (atof value).

(** [config_value] from a line, when it has two operands. *)
Definition conf_item (input_buf : str) : option loc_param_v_type :=
  '(name, lasts) ← strtok_r (lit "=") (cstr input_buf);
  '(value, _) ← strtok_r [] lasts;
  Some (config_value (loc_util_trim_space name) (loc_util_trim_space value)).

(** The loop over the table: how many entries took the value. *)
Fixpoint fill_entries (table : list loc_param_s_type) (v : loc_param_v_type) (string_len : nat)
    (ret : Z) (mem : memory) : Z * memory :=
  match table with
  | [] => (ret, mem)
  | e :: table =>
    let '(rc, mem) := loc_set_config_entry (Some e) (Some v) string_len mem in
    fill_entries table v string_len (if (rc =? 0)%Z then ret + 1 else ret)%Z mem
  end.

Definition loc_fill_conf_item (input_buf : option str) (config_table : option (list loc_param_s_type))
    (table_length string_len : nat) (mem : memory) : Z * memory :=
  match input_buf, config_table with
  | Some buf, Some table =>
    match conf_item buf with
    | Some v => fill_entries (take table_length table) v string_len 0 mem
    | None => (0%Z, mem)
    end
  | _, _ => (0%Z, mem)
  end.

(** ** Files and buffers *)

(** Every [param_set] of the table becomes 0. *)
Definition clear_flags (table : list loc_param_s_type) (mem : memory) : memory :=
  fold_left (λ mem e, match param_set e with Some p => <[p := CInt 0]> mem | None => mem end) table mem.

(** The loop of loc_read_conf_r_long.  [num_params] is an unsigned int; the result is the
    memory and what is left of the file, [None] when the fuel runs out. *)
Fixpoint conf_read_loop (fuel : nat) (table : option (list loc_param_s_type)) (table_length string_len : nat)
    (num_params : Z) (mem : memory) (conf_fp : str) : option (memory * str) :=
  match fuel with
  | O => None
  | S fuel =>
    if (num_params =? 0)%Z then Some (mem, conf_fp) else
    match fgets string_len conf_fp with
    | None => Some (mem, conf_fp)
    | Some (input_buf, conf_fp) =>
      let '(n, mem) := loc_fill_conf_item (Some input_buf) table table_length string_len mem in
      conf_read_loop fuel table table_length string_len (uwrap 32 (num_params - n)) mem conf_fp
    end
  end.

Definition loc_read_conf_r_long (fuel : nat) (conf_fp : option str) (config_table : option (list loc_param_s_type))
    (table_length string_len : nat) (mem : memory) : option (Z * memory * option str) :=
  match conf_fp with
  | None => Some ((-1)%Z, mem, None)
  | Some f =>
    let mem := match config_table with Some t => clear_flags (take table_length t) mem | None => mem end in
    '(mem, f) ← conf_read_loop fuel config_table table_length string_len (Z.of_nat table_length) mem f;
    Some (0%Z, mem, Some f)
  end.

(** The loop of loc_update_conf_long over the lines of the copy. *)
Fixpoint update_loop (fuel : nat) (table : option (list loc_param_s_type)) (table_length string_len : nat)
    (num_params ret : Z) (input_buf : option (str * str)) (mem : memory) : option (Z * memory) :=
  match fuel with
  | O => None
  | S fuel =>
    match input_buf with
    | Some (line, saveptr) =>
      if (num_params =? 0)%Z then Some (ret, mem) else
      let '(n, mem) := loc_fill_conf_item (Some line) table table_length string_len mem in
      update_loop fuel table table_length string_len (uwrap 32 (num_params - n)) (ret + 1)%Z
                  (strtok_r [NL] saveptr) mem
    | None => Some (ret, mem)
    end
  end.

(** [None]: the copy runs past the end of [conf_data], or the fuel runs out.  An allocation
    of a negative [length] other than -1 fails; one of -1 is of no byte and is overrun. *)
Definition loc_update_conf_long (fuel : nat) (conf_data : option str) (length : Z)
    (config_table : option (list loc_param_s_type)) (table_length string_len : nat) (mem : memory) : option (Z * memory) :=
  match conf_data, config_table with
  | Some data, Some table =>
    if (length =? 0)%Z || (table_length =? 0)%nat then Some ((-1)%Z, mem)
    else if (length <? -1)%Z then Some ((-1)%Z, mem)
    else if (length =? -1)%Z || (Z.of_nat (List.length data) <? length)%Z then None
    else
      let conf_copy := take (Z.to_nat length) data in
      update_loop fuel config_table table_length string_len (Z.of_nat table_length - 1) 0
                  (strtok_r [NL] (cstr conf_copy)) mem
  | _, _ => Some ((-1)%Z, mem)
  end.

(** The parameters that every file may have. *)
Definition loc_param_table : list loc_param_s_type :=
  [Param (lit "DEBUG_LEVEL") (Some "DEBUG_LEVEL") None "n";
   Param (lit "TIMESTAMP") (Some "TIMESTAMP") None "n";
   Param (lit "DATUM_TYPE") (Some "DATUM_TYPE") None "n";
   Param (lit "LOG_BUFFER_ENABLED") (Some "sLogBufferEnabled") None "n"].
Definition loc_param_num : nat := length loc_param_table.

(** The variables of the file before anything is read; the others are 0. *)
Definition static_data : memory := {["DEBUG_LEVEL" := CInt 255]}.

Definition loc_get_datum_type (mem : memory) : Z := int_at mem "DATUM_TYPE".

(** Enough fuel for a file. *)
Definition file_fuel (f : str) : nat := length f + 2.

(** The file is read twice, for the caller's table and for [loc_param_table]; the
    initialisation of the loggers that follows is not part of the model.  [None]: the
    fuel runs out. *)
Definition loc_read_conf_long (files : str → option str) (conf_file_name : str)
    (config_table : option (list loc_param_s_type)) (table_length string_len : nat) (mem : memory) : option memory :=
  match files conf_file_name with
  | None => Some mem
  | Some f =>
    mem ← (if negb (table_length =? 0)%nat && negb (is_null config_table)
           then '(_, mem, _) ← loc_read_conf_r_long (file_fuel f) (Some f) config_table table_length string_len mem;
                Some mem
           else Some mem);
    '(_, mem, _) ← loc_read_conf_r_long (file_fuel f) (Some f) (Some loc_param_table) loc_param_num string_len mem;
    Some mem
  end.

Definition loc_read_conf (files : str → option str) (conf_file_name : str)
    (config_table : option (list loc_param_s_type)) (table_length : nat) (mem : memory) : option memory :=
  loc_read_conf_long files conf_file_name config_table table_length LOC_MAX_PARAM_STRING mem.

Definition loc_read_conf_r (fuel : nat) (conf_fp : option str) (config_table : option (list loc_param_s_type))
    (table_length : nat) (mem : memory) : option (Z * memory * option str) :=
  loc_read_conf_r_long fuel conf_fp config_table table_length LOC_MAX_PARAM_STRING mem.

Definition loc_update_conf (fuel : nat) (conf_data : option str) (length : Z)
    (config_table : option (list loc_param_s_type)) (table_length : nat) (mem : memory) : option (Z * memory) :=
  loc_update_conf_long fuel conf_data length config_table table_length LOC_MAX_PARAM_STRING mem.

(** * Correctness *)

(** ** loc_util_split_string against splitting at every delimiter *)

(** The strings between the delimiters. *)
Fixpoint split_on (d : ascii) (s : str) : list str :=
  match s with
  | [] => [[]]
  | c :: r => if decide (c = d) then [] :: split_on d r
              else match split_on d r with w :: ws => (c :: w) :: ws | [] => [[c]] end
  end.

Fixpoint join_with (d : ascii) (ws : list str) : str :=
  match ws with [] => [] | [w] => w | w :: ws => w ++ d :: join_with d ws end.

Lemma split_on_cons d s : ∃ w ws, split_on d s = w :: ws.
Proof. destruct s as [|c s]; simpl; [eauto|]. destruct (decide (c = d)); [eauto|]. destruct (split_on d s); eauto. Qed.

Lemma join_split d s : join_with d (split_on d s) = s.
Proof.
  induction s as [|c s IH]; simpl; [done|]. destruct (split_on_cons d s) as (w & ws & E). rewrite E in *.
  destruct (decide (c = d)) as [->|]; simpl; [by f_equal|].
  rewrite <- IH. by destruct ws.
Qed.

Lemma split_on_no d s : Forall (no d) (split_on d s).
Proof.
  induction s as [|c s IH]; simpl; [by repeat constructor|]. destruct (decide (c = d)); [by constructor; [constructor|]|].
  destruct (split_on_cons d s) as (w & ws & E). rewrite E in *. apply Forall_cons in IH as [Hw Hws].
  constructor; [by constructor|done].
Qed.

Lemma split_loop_take max d acc cur s : (Z.of_nat (length acc) < max)%Z →
  split_loop max d acc cur s =
  acc ++ take (Z.to_nat max - length acc)
    (match split_on d s with w :: ws => (rev cur ++ w) :: ws | [] => [] end).
Proof.
  revert acc cur. induction s as [|c s IH]; intros acc cur Hl; simpl.
  - destruct (Z.to_nat max - length acc) eqn:E; [lia|]. simpl. by rewrite app_nil_r, take_nil.
  - destruct (split_on_cons d s) as (w & ws & E).
    destruct (Z.to_nat max - length acc) as [|k] eqn:Ek; [lia|].
    destruct (decide (c = d)).
    + destruct (Z.ltb_spec (Z.of_nat (length acc + 1)) max).
      * rewrite IH by (rewrite length_app; simpl; lia). rewrite E, length_app, <- app_assoc. simpl.
        replace (Z.to_nat max - (length acc + 1)) with k by lia. by rewrite app_nil_r.
      * replace k with 0 by lia. simpl. by rewrite app_nil_r.
    + rewrite IH by done. rewrite E, Ek. simpl. by rewrite <- app_assoc.
Qed.

(** Loc_util_split_string with room for at least one string stores the first
    [max_num_substrings] strings between the delimiters of its argument: joined by the
    delimiter all of them give the argument back, and none contains it.  The argument
    itself reads as the first of them afterwards. *)
Theorem split_string_splits raw max d : (0 < max)%Z →
  ∃ all, join_with d all = raw ∧ Forall (no d) all ∧
    loc_util_split_string raw max d = (take (Z.to_nat max) all, default [] (head all)).
Proof.
  intros Hm. exists (split_on d raw). split_and!; [apply join_split|apply split_on_no|].
  unfold loc_util_split_string. rewrite split_loop_take by (simpl; lia). simpl.
  destruct (split_on_cons d raw) as (w & ws & ->). rewrite Nat.sub_0_r. f_equal.
  destruct (Z.to_nat max) eqn:E; [lia|done].
Qed.

Lemma split_string_splits_witness :
  (0 < 3)%Z ∧ ∃ all, join_with " " all = lit "a b c d" ∧ Forall (no " ") all ∧
    loc_util_split_string (lit "a b c d") 3 " " = (take (Z.to_nat 3) all, default [] (head all)).
Proof. split; [lia|]. apply (split_string_splits (lit "a b c d") 3 " "). lia. Defined.

(** ** loc_util_trim_space *)

Definition blank (s : str) : Prop := Forall (λ c, isspace c = true) s.

(** Neither begins nor ends with a space. *)
Definition trimmed (s : str) : Prop :=
  (∃ c r, s = c :: r ∧ isspace c = false) ∧ (∃ r c, s = r ++ [c] ∧ isspace c = false).

Lemma trim_prefix s l : blank s → fold_left trim_step s ([], l) = ([], l).
Proof. induction 1 as [|c s Hc _ IH]; [done|]. simpl. by rewrite Hc. Qed.

Lemma trim_step_in w l c : w ≠ [] ∨ isspace c = false →
  trim_step (w, l) c = (w ++ [c], if isspace c then l else Some (S (length w))).
Proof.
  intros H. unfold trim_step. rewrite length_app, Nat.add_1_r.
  replace (negb (isspace c) || negb (bool_decide (w = []))) with true; [done|].
  destruct H as [H| ->]; [|done]. rewrite bool_decide_false by done. by rewrite orb_true_r.
Qed.

Lemma trim_written s w l : w ≠ [] → (fold_left trim_step s (w, l)).1 = w ++ s.
Proof.
  revert w l. induction s as [|c s IH]; intros w l Hw; [by rewrite app_nil_r|].
  cbn [fold_left]. rewrite trim_step_in by auto. rewrite IH by (by destruct w). by rewrite <- app_assoc.
Qed.

Lemma trim_trailing s w l : w ≠ [] → blank s → fold_left trim_step s (w, l) = (w ++ s, l).
Proof.
  intros Hw Hs. revert w Hw. induction Hs as [|c s Hc _ IH]; intros w Hw; [by rewrite app_nil_r|].
  cbn [fold_left]. rewrite trim_step_in, Hc by auto. rewrite IH by (by destruct w). by rewrite <- app_assoc.
Qed.

Lemma trim_core t l : trimmed t → fold_left trim_step t ([], l) = (t, Some (length t)).
Proof.
  intros [(c & r & Et & Hc) (r' & c' & Et' & Hc')].
  assert (H : (fold_left trim_step r' ([], l)).1 = r').
  { destruct r' as [|c0 r0]; [done|]. assert (c0 = c) as -> by (subst; simpl in *; congruence).
    cbn [fold_left]. rewrite trim_step_in, Hc by auto. by rewrite trim_written. }
  rewrite Et'. rewrite fold_left_app. destruct (fold_left trim_step r' ([], l)) as [w l'] eqn:E.
  simpl in H. subst w. cbn [fold_left]. rewrite trim_step_in, Hc' by auto. by rewrite length_app, Nat.add_1_r.
Qed.

Lemma trimmed_ne t : trimmed t → t ≠ [].
Proof. by intros [(c & r & -> & _) _]. Qed.

Lemma trim_padded pre t post : blank pre → trimmed t → blank post → loc_util_trim_space (pre ++ t ++ post) = t.
Proof.
  intros Hpre Ht Hpost. unfold loc_util_trim_space.
  rewrite !fold_left_app, trim_prefix, trim_core by done. rewrite trim_trailing by (done || by apply trimmed_ne).
  rewrite <- app_assoc. by rewrite take_app_length.
Qed.

Lemma trim_blank s : blank s → loc_util_trim_space s = s.
Proof. intros Hs. unfold loc_util_trim_space. by rewrite trim_prefix. Qed.

Lemma trim_parts s : blank s ∨ ∃ pre t post, s = pre ++ t ++ post ∧ blank pre ∧ blank post ∧ trimmed t.
Proof.
  induction s as [|c s IH]; [left; constructor|]. destruct (isspace c) eqn:Hc.
  - destruct IH as [H|(pre & t & post & -> & Hpre & Hpost & Ht)]; [left; by constructor|].
    right. exists (c :: pre), t, post. split_and!; [done|by constructor|done..].
  - right. exists [].
    assert (G : ∀ r, ∃ r' post, r = r' ++ post ∧ blank post ∧ (r' = [] ∨ ∃ q d, r' = q ++ [d] ∧ isspace d = false)).
    { clear. intros r. induction r as [|d r IH] using rev_ind; [exists [], []; split_and!; [done|constructor|by left]|].
      destruct IH as (r' & post & -> & Hpost & Hr). destruct (isspace d) eqn:Hd.
      - exists r', (post ++ [d]). split_and!; [by rewrite app_assoc| |done]. apply Forall_app. by repeat constructor.
      - exists ((r' ++ post) ++ [d]), []. split_and!; [by rewrite app_nil_r|constructor|right; eauto]. }
    destruct (G s) as (r' & post & -> & Hpost & Hr). exists (c :: r'), post. split_and!; [done|constructor|done|].
    split; [eauto|]. destruct Hr as [-> |(q & d & -> & Hd)]; [by exists [], c|by exists (c :: q), d].
Qed.

(** C0: loc_util_trim_space takes the spaces at both ends away and nothing else: what is
    left is a part of the string, with only spaces before and after it, that neither
    begins nor ends with a space; except that a string of spaces is left as it is. *)
Theorem trim_space_trims s :
  (blank s ∧ loc_util_trim_space s = s) ∨
  ∃ pre post, s = pre ++ loc_util_trim_space s ++ post ∧ blank pre ∧ blank post ∧ trimmed (loc_util_trim_space s).
Proof.
  destruct (trim_parts s) as [H|(pre & t & post & -> & Hpre & Hpost & Ht)]; [left; auto using trim_blank|].
  right. exists pre, post. by rewrite trim_padded.
Qed.

(** ** The text of a configuration file *)

(** A line: a setting, with spaces around its two operands, or anything without a "=". *)
Inductive line :=
  | Setting (p0 key p1 p2 val p3 : str)
  | Other (text : str).

Definition line_text (l : line) : str :=
  match l with
  | Setting p0 key p1 p2 val p3 => (p0 ++ key ++ p1) ++ "="%char :: (p2 ++ val ++ p3)
  | Other text => text
  end.

Definition line_ok (string_len : nat) (l : line) : Prop :=
  no NUL (line_text l) ∧ no NL (line_text l) ∧ length (line_text l) + 1 < string_len ∧
  match l with
  | Setting p0 key p1 p2 val p3 =>
    (blank p0 ∧ blank p1 ∧ blank p2 ∧ blank p3) ∧ trimmed key ∧ trimmed val ∧ no "=" key
  | Other text => no "=" text
  end.

Definition text (ls : list line) : str := concat (map (λ l, line_text l ++ [NL]) ls).

Definition line_item (l : line) : option loc_param_v_type :=
  match l with Setting _ key _ _ val _ => Some (config_value key val) | Other _ => None end.

Lemma config_value_name k v : v_param_name (config_value k v) = k ∧ param_str_value (config_value k v) = v.
Proof. unfold config_value. by destruct (is_hex v). Qed.

Lemma blank_no_eq s : blank s → no "=" s.
Proof. intros Hs. eapply Forall_impl; [done|]. by intros c Hc ->. Qed.

(** What loc_fill_conf_item finds in a line of a file. *)
Lemma conf_item_line sl l : line_ok sl l → conf_item (line_text l ++ [NL]) = line_item l.
Proof.
  intros (Hnul & _ & _ & Hl). unfold conf_item.
  rewrite cstr_id by (apply Forall_app; split; [done|by repeat constructor]).
  assert (Hnl : blank [NL]) by by repeat constructor.
  change (lit "=") with ["="%char]. destruct l as [p0 key p1 p2 val p3|t]; simpl in *.
  - destruct Hl as ((H0 & H1 & H2 & H3) & Hk & Hv & Heq).
    rewrite <- !app_assoc. simpl. rewrite (app_assoc key), (app_assoc p0).
    rewrite strtok_at; [|apply trimmed_ne in Hk; by destruct p0, key|].
    2:{ apply Forall_app; split; [by apply blank_no_eq|]. apply Forall_app. split; [done|by apply blank_no_eq]. }
    cbn [mbind option_bind]. rewrite strtok_rest.
    destruct ((p2 ++ val ++ p3) ++ [NL]) as [|c r] eqn:E; [by destruct (p2 ++ val ++ p3)|].
    cbn [mbind option_bind]. rewrite <- E, trim_padded by done. rewrite <- !app_assoc, trim_padded; [done..|].
    apply Forall_app. by split.
  - rewrite strtok_end; [|by destruct t|apply Forall_app; split; [done|by repeat constructor]].
    done.
Qed.

(** ** The table and one line *)

Definition locs (e : loc_param_s_type) : list string := option_list (param_ptr e) ++ option_list (param_set e).

(** A table whose parameters and variables are all different, of the three known types. *)
Definition good_table (table : list loc_param_s_type) : Prop :=
  NoDup (param_name <$> table) ∧ NoDup (table ≫= locs) ∧
  Forall (λ e, is_Some (param_ptr e) ∧ param_type e ∈ ["s"; "n"; "f"]%char) table.

Definition stored (string_len : nat) (e : loc_param_s_type) (v : loc_param_v_type) : cval :=
  if decide (param_type e = "s"%char)
  then CStr (if strcmp0 (param_str_value v) (lit "NULL") then [] else take (string_len - 1) (param_str_value v))
  else if decide (param_type e = "n"%char) then CInt (param_int_value v) else CDouble (param_double_value v).

Definition write_entry (string_len : nat) (e : loc_param_s_type) (v : loc_param_v_type) (mem : memory) : memory :=
  match param_ptr e with Some p => set_flag e (<[p := stored string_len e v]> mem) | None => mem end.

Definition named (v : loc_param_v_type) (e : loc_param_s_type) : bool := strcmp0 (param_name e) (v_param_name v).

Lemma set_config_entry_good sl e v mem : 0 < sl → is_Some (param_ptr e) ∧ param_type e ∈ ["s"; "n"; "f"]%char →
  loc_set_config_entry (Some e) (Some v) sl mem = if named v e then (0%Z, write_entry sl e v mem) else ((-1)%Z, mem).
Proof.
  intros Hsl [[p Hp] Ht]. unfold loc_set_config_entry, write_entry, named, stored. rewrite Hp.
  destruct (strcmp0 (param_name e) (v_param_name v)); [|done].
  destruct sl as [|sl]; [lia|]. rewrite Nat.sub_succ, Nat.sub_0_r. unfold strlcpy.
  destruct (decide (param_type e = "s"%char)); [done|]. destruct (decide (param_type e = "n"%char)); [done|].
  rewrite decide_True by set_solver. done.
Qed.

(** With different names at most one entry takes the value. *)
Lemma fill_entries_none sl table v ret mem :
  Forall (λ e, is_Some (param_ptr e) ∧ param_type e ∈ ["s"; "n"; "f"]%char) table → 0 < sl →
  v_param_name v ∉ param_name <$> table → fill_entries table v sl ret mem = (ret, mem).
Proof.
  intros Hf Hsl. induction Hf as [|e table He _ IH]; [done|]. intros Hn. cbn [fmap list_fmap] in Hn.
  cbn [fill_entries]. rewrite set_config_entry_good by done. unfold named, strcmp0. rewrite bool_decide_false by set_solver.
  apply IH. set_solver.
Qed.

Lemma fill_entries_find sl table v ret mem : good_table table → 0 < sl →
  fill_entries table v sl ret mem =
  match find (named v) table with Some e => (ret + 1, write_entry sl e v mem)%Z | None => (ret, mem) end.
Proof.
  intros (Hn & _ & Hf) Hsl. induction Hf as [|e table He Hf IH]; [done|].
  cbn [fmap list_fmap] in Hn. apply NoDup_cons in Hn as [He' Hn].
  cbn [fill_entries find]. rewrite set_config_entry_good by done.
  destruct (named v e) eqn:E; [|by apply IH].
  unfold named, strcmp0 in E. apply bool_decide_eq_true in E. apply fill_entries_none; [done..|by rewrite <- E].
Qed.

Definition line_entry (table : list loc_param_s_type) (l : line) : option (loc_param_s_type * loc_param_v_type) :=
  v ← line_item l; e ← find (named v) table; Some (e, v).

Definition apply_line (sl : nat) (table : list loc_param_s_type) (mem : memory) (l : line) : memory :=
  match line_entry table l with Some (e, v) => write_entry sl e v mem | None => mem end.

Lemma fill_line sl table n l mem : good_table (take n table) → line_ok sl l →
  loc_fill_conf_item (Some (line_text l ++ [NL])) (Some table) n sl mem =
  (match line_entry (take n table) l with Some _ => 1 | None => 0 end%Z, apply_line sl (take n table) mem l).
Proof.
  intros Ht Hl. unfold loc_fill_conf_item, apply_line, line_entry. rewrite (conf_item_line sl) by done.
  destruct (line_item l) as [v|]; [|done]. simpl.
  rewrite fill_entries_find by (done || destruct Hl as (_ & _ & H & _); lia).
  by destruct (find (named v) (take n table)).
Qed.

(** ** Reading lines *)

(** The lines up to the [k]-th that gives a parameter of the table, and the others. *)
Fixpoint upto (table : list loc_param_s_type) (k : nat) (ls : list line) : list line * list line :=
  match ls with
  | [] => ([], [])
  | l :: r =>
    match k with
    | O => ([], ls)
    | S k' => let '(a, b) := upto table (if line_entry table l then k' else k) r in (l :: a, b)
    end
  end.

Definition apply_lines (sl : nat) (table : list loc_param_s_type) (mem : memory) (ls : list line) : memory :=
  fold_left (apply_line sl table) ls mem.

Lemma fgets_text sl l ls : line_ok sl l →
  fgets sl (text (l :: ls)) = Some (line_text l ++ [NL], text ls).
Proof.
  intros (_ & Hnl & Hlen & _). unfold text. cbn [map concat].
  replace ((line_text l ++ [NL]) ++ concat (map (λ l, line_text l ++ [NL]) ls))
    with (line_text l ++ NL :: concat (map (λ l, line_text l ++ [NL]) ls)) by (by rewrite <- app_assoc).
  by apply fgets_line.
Qed.

(** The loop reads the lines up to the one that completes the count. *)
Lemma conf_read_loop_lines sl table n ls : 2 ≤ sl → good_table (take n table) → Forall (line_ok sl) ls →
  ∀ fuel k mem, length ls + 1 < fuel → (Z.of_nat k < 2 ^ 32)%Z →
  conf_read_loop fuel (Some table) n sl (Z.of_nat k) mem (text ls) =
  Some (apply_lines sl (take n table) mem (upto (take n table) k ls).1, text (upto (take n table) k ls).2).
Proof.
  intros Hsl Ht Hls. induction Hls as [|l ls Hl _ IH]; intros fuel k mem Hf Hk; (destruct fuel as [|fuel]; [simpl in *; lia|]).
  - cbn [conf_read_loop]. destruct (Z.eqb_spec (Z.of_nat k) 0); [by destruct k|].
    replace (fgets sl (text [])) with (None : option (str * str)) by (by destruct sl as [|[|sl]]; [lia|lia|]). done.
  - cbn [conf_read_loop]. destruct k as [|k]; [done|]. destruct (Z.eqb_spec (Z.of_nat (S k)) 0); [lia|].
    rewrite fgets_text by done. rewrite fill_line by done. cbn [upto]. simpl in Hf.
    destruct (line_entry (take n table) l) as [[e v]|] eqn:E; rewrite uwrap_small by lia.
    + replace (Z.of_nat (S k) - 1)%Z with (Z.of_nat k) by lia. rewrite IH by lia.
      by destruct (upto (take n table) k ls).
    + rewrite Z.sub_0_r. rewrite IH by lia. by destruct (upto (take n table) (S k) ls).
Qed.

(** Lines without a parameter of the table change nothing. *)
Lemma apply_lines_none sl table mem ls : Forall (λ l, line_entry table l = None) ls → apply_lines sl table mem ls = mem.
Proof. unfold apply_lines. induction 1 as [|l ls Hl _ IH]; [done|]. cbn [fold_left]. unfold apply_line. by rewrite Hl. Qed.

(** How many lines give a parameter of the table. *)
Definition given (table : list loc_param_s_type) (ls : list line) : list str :=
  omap (λ l, option_map (λ p, param_name p.1) (line_entry table l)) ls.

Lemma given_cons table l ls : given table (l :: ls) =
  match line_entry table l with Some (e, _) => param_name e :: given table ls | None => given table ls end.
Proof. unfold given. simpl. by destruct (line_entry table l) as [[e v]|]. Qed.

Lemma upto_parts table k ls : let '(a, b) := upto table k ls in
  ls = a ++ b ∧ (length (given table ls) ≤ k → Forall (λ l, line_entry table l = None) b).
Proof.
  revert k. induction ls as [|l ls IH]; intros k; [by split|]. cbn [upto].
  destruct k as [|k].
  - split; [done|]. rewrite given_cons. intros Hk. apply Forall_cons.
    specialize (IH 0). destruct (line_entry table l) as [[e v]|]; simpl in Hk; [lia|]. split; [done|].
    assert (upto table 0 ls = ([], ls)) as E by by destruct ls. rewrite E in IH. by apply IH.
  - specialize (IH (if line_entry table l then k else S k)).
    destruct (upto table (if line_entry table l then k else S k) ls) as [a b]. destruct IH as [-> IH].
    split; [done|]. rewrite given_cons. intros Hk. apply IH.
    destruct (line_entry table l) as [[e v]|]; simpl in Hk; lia.
Qed.

(** When the count is not exceeded, the loop does what all the lines say. *)
Lemma conf_read_loop_all sl table ls fuel k mem : 2 ≤ sl → good_table table → Forall (line_ok sl) ls →
  length ls + 1 < fuel → (Z.of_nat k < 2 ^ 32)%Z → length (given table ls) ≤ k →
  ∃ rest, conf_read_loop fuel (Some table) (length table) sl (Z.of_nat k) mem (text ls) = Some (apply_lines sl table mem ls, rest).
Proof.
  intros Hsl Ht Hls Hf Hk Hg. pose proof (upto_parts table k ls) as Hu.
  rewrite conf_read_loop_lines by (done || by rewrite firstn_all). rewrite firstn_all.
  destruct (upto table k ls) as [a b]. destruct Hu as [-> Hb]. simpl. exists (text b).
  unfold apply_lines. rewrite fold_left_app. fold (apply_lines sl table (fold_left (apply_line sl table) a mem) b).
  rewrite apply_lines_none; auto.
Qed.

Lemma text_fuel ls : length ls + 1 < file_fuel (text ls).
Proof.
  unfold file_fuel. enough (length ls ≤ length (text ls)) by lia.
  induction ls as [|l ls IH]; [done|]. unfold text in *. cbn [map concat]. rewrite !length_app. simpl. lia.
Qed.

(** ** What the variables hold afterwards *)

(** The value that the file gives a parameter. *)
Fixpoint setting_of (name : str) (ls : list line) : option str :=
  match ls with
  | [] => None
  | Setting _ key _ _ val _ :: ls => if decide (key = name) then Some val else setting_of name ls
  | Other _ :: ls => setting_of name ls
  end.

(** What a variable of the table holds for it: a string, "NULL" for the empty one; an int, decimal
    as atoi reads it or in hexadecimal after "0x"; a double as atof reads it, 0 if the text looks
    like a hexadecimal number. *)
Definition hexadecimal (val : str) : bool := bool_decide (take 2 val ∈ [lit "0x"; lit "0X"]) && (3 <=? length val).
Definition int_of_text (val : str) : Z := if hexadecimal val then swrap 32 (strtol (drop 2 val) 16) else atoi val.
Definition double_of_text (val : str) : double := if hexadecimal val then zero_double else atof val.
Definition param_value (e : loc_param_s_type) (val : str) : cval :=
  if decide (param_type e = "s"%char) then CStr (if bool_decide (val = lit "NULL") then [] else val)
  else if decide (param_type e = "n"%char) then CInt (int_of_text val) else CDouble (double_of_text val).

Lemma is_hex_hexadecimal s : is_hex s = hexadecimal s.
Proof.
  unfold hexadecimal. destruct s as [|z [|x [|d r]]]; try (by rewrite ?andb_false_r). simpl. rewrite andb_true_r.
  assert (Hx : (tolower x =? 120)%Z = bool_decide (x ∈ ["x"; "X"]%char)) by (destruct x as [[] [] [] [] [] [] [] []]; vm_compute; reflexivity).
  rewrite Hx. apply eq_true_iff_eq. rewrite andb_true_iff, !bool_decide_eq_true. set_unfold. naive_solver.
Qed.
Lemma config_value_numbers k v : param_int_value (config_value k v) = int_of_text v ∧ param_double_value (config_value k v) = double_of_text v.
Proof. unfold config_value, int_of_text, double_of_text. rewrite is_hex_hexadecimal. by destruct (hexadecimal v). Qed.

(** Hexadecimal numbers as printf writes them. *)
Lemma hex_text_value z : (0 ≤ z < 2 ^ 32)%Z → int_of_text (lit "0x" ++ print_hex z) = swrap 32 z.
Proof.
  intros Hz. assert (Hne : print_hex z ≠ []).
  { unfold print_hex. destruct (print_hex_go_ok 16 z []) as (c & r & -> & _); [lia|done|done]. }
  unfold int_of_text, hexadecimal. destruct (print_hex z) as [|c r] eqn:E; [done|]. simpl. rewrite <- E.
  rewrite strtol_print_hex by lia. f_equal. unfold LONG_MAX. lia.
Qed.

Lemma find_named table e v : NoDup (param_name <$> table) → e ∈ table → v_param_name v = param_name e →
  find (named v) table = Some e.
Proof.
  intros Hn He Hv. induction He as [e table|e e' table He IH]; cbn [fmap list_fmap find] in *; unfold named, strcmp0.
  - by rewrite bool_decide_true.
  - apply NoDup_cons in Hn as [He' Hn]. rewrite bool_decide_false; [by apply IH|].
    rewrite Hv. intros E. apply He'. rewrite E. apply list_elem_of_fmap. eauto.
Qed.

Lemma line_entry_some table l e v : line_entry table l = Some (e, v) →
  e ∈ table ∧ ∃ p0 p1 p2 val p3, l = Setting p0 (param_name e) p1 p2 val p3 ∧ v = config_value (param_name e) val.
Proof.
  unfold line_entry. destruct l as [p0 key p1 p2 val p3|t]; [|done]. simpl.
  destruct (find _ table) as [e'|] eqn:E; [|done]. intros [= -> <-]. apply find_some in E as [He E].
  unfold named, strcmp0 in E. apply bool_decide_eq_true in E. rewrite (proj1 (config_value_name _ _)) in E. subst key.
  split; [by apply list_elem_of_In|]. eauto 10.
Qed.

Lemma line_entry_here table e p0 p1 p2 val p3 : good_table table → e ∈ table →
  line_entry table (Setting p0 (param_name e) p1 p2 val p3) = Some (e, config_value (param_name e) val).
Proof.
  intros (Hn & _) He. unfold line_entry. simpl.
  by rewrite (find_named table e) by (done || apply config_value_name).
Qed.

(** Variables of different entries are different. *)
Lemma good_locs table e e' x : NoDup (table ≫= locs) → e ∈ table → e' ∈ table → x ∈ locs e → x ∈ locs e' → e = e'.
Proof.
  intros Hn. induction table as [|a table IH]; [by intros ?%elem_of_nil|]. cbn [mbind list_bind] in Hn.
  apply NoDup_app in Hn as (_ & Hd & Hn). rewrite !elem_of_cons.
  assert (G : ∀ b, b ∈ table → x ∈ locs a → x ∈ locs b → False).
  { intros b Hb Ha Hxb. apply (Hd x Ha). apply list_elem_of_bind. eauto. }
  intros [->|He] [->|He'] Hx Hx'; [done|by destruct (G e')|by destruct (G e)|by apply IH].
Qed.

Lemma locs_nodup table e : NoDup (table ≫= locs) → e ∈ table → NoDup (locs e).
Proof.
  intros Hn He. induction He as [e table|e e' table He IH]; cbn [mbind list_bind] in Hn; apply NoDup_app in Hn as (? & _ & ?); auto.
Qed.

Lemma write_entry_other sl e v mem x : x ∉ locs e → write_entry sl e v mem !! x = mem !! x.
Proof.
  unfold write_entry, set_flag, locs. intros H. destruct (param_ptr e) as [p|], (param_set e) as [q|]; try done; cbn in H;
    repeat rewrite lookup_insert_ne by (intros ->; set_solver); done.
Qed.

Lemma write_entry_own sl e v mem x : NoDup (locs e) → is_Some (param_ptr e) → x ∈ locs e →
  write_entry sl e v mem !! x = Some (if bool_decide (param_ptr e = Some x) then stored sl e v else CInt 1).
Proof.
  intros Hn [p Hp] Hx. unfold write_entry, set_flag, locs in *. rewrite Hp in *.
  destruct (param_set e) as [q|]; simpl in *.
  - apply NoDup_cons in Hn as [Hn _]. apply elem_of_cons in Hx as [->|Hx%list_elem_of_singleton].
    + rewrite lookup_insert_ne by set_solver. by rewrite lookup_insert_eq, bool_decide_true.
    + subst q. rewrite lookup_insert_eq, bool_decide_false; [done|]. set_solver.
  - apply list_elem_of_singleton in Hx as ->. by rewrite lookup_insert_eq, bool_decide_true.
Qed.

Lemma setting_not_given table e ls : good_table table → e ∈ table → param_name e ∉ given table ls →
  setting_of (param_name e) ls = None.
Proof.
  intros Ht He. induction ls as [|l ls IH]; [done|]. rewrite given_cons. intros Hn.
  destruct l as [p0 key p1 p2 val p3|t]; [|by apply IH]. cbn [setting_of]. destruct (decide (key = param_name e)) as [->|Hk].
  - rewrite line_entry_here in Hn by done. set_solver.
  - apply IH. destruct (line_entry table _) as [[e' v']|]; set_solver.
Qed.

Lemma apply_lines_at sl table ls e x : good_table table → e ∈ table → x ∈ locs e → NoDup (given table ls) →
  ∀ mem, apply_lines sl table mem ls !! x =
  match setting_of (param_name e) ls with
  | Some val => Some (if bool_decide (param_ptr e = Some x) then stored sl e (config_value (param_name e) val) else CInt 1)
  | None => mem !! x
  end.
Proof.
  intros Ht He Hx. assert (He' : is_Some (param_ptr e)) by (destruct Ht as (_ & _ & Hf); rewrite Forall_forall in Hf; by apply Hf).
  induction ls as [|l ls IH]; intros Hg mem; [done|]. rewrite given_cons in Hg.
  change (apply_lines sl table mem (l :: ls)) with (apply_lines sl table (apply_line sl table mem l) ls).
  unfold apply_line. destruct (line_entry table l) as [[e1 v1]|] eqn:E.
  - apply NoDup_cons in Hg as [Hg1 Hg]. rewrite IH by done.
    destruct (line_entry_some _ _ _ _ E) as (He1 & p0 & p1 & p2 & val & p3 & -> & ->). cbn [setting_of].
    destruct (decide (param_name e1 = param_name e)) as [Hk|Hk].
    + assert (e1 = e) as ->.
      { destruct Ht as (Hn & _). set (v := config_value (param_name e) []).
        assert (Hv : v_param_name v = param_name e) by apply config_value_name.
        pose proof (find_named table e v Hn He Hv). pose proof (find_named table e1 v Hn He1 (eq_trans Hv (eq_sym Hk))). congruence. }
      rewrite setting_not_given with (table := table) by done.
      destruct Ht as (_ & Hn & _). by rewrite write_entry_own by (done || by eapply locs_nodup).
    + destruct (setting_of (param_name e) ls); [done|]. apply write_entry_other.
      intros Hx1. apply Hk. destruct Ht as (_ & Hn & _). by rewrite (good_locs table e1 e x).
  - rewrite IH by done. destruct l as [p0 key p1 p2 val p3|t]; [|done]. cbn [setting_of].
    destruct (decide (key = param_name e)) as [->|Hk]; [|done]. by rewrite line_entry_here in E.
Qed.

Lemma apply_lines_off sl table ls x mem : x ∉ table ≫= locs → apply_lines sl table mem ls !! x = mem !! x.
Proof.
  intros Hx. revert mem. induction ls as [|l ls IH]; intros mem; [done|].
  change (apply_lines sl table mem (l :: ls)) with (apply_lines sl table (apply_line sl table mem l) ls).
  rewrite IH. unfold apply_line. destruct (line_entry table l) as [[e v]|] eqn:E; [|done].
  apply write_entry_other. intros Hx'. apply Hx. apply list_elem_of_bind. apply line_entry_some in E. naive_solver.
Qed.

Lemma clear_flags_at table mem x :
  clear_flags table mem !! x = if decide (x ∈ omap param_set table) then Some (CInt 0) else mem !! x.
Proof.
  unfold clear_flags. revert mem. induction table as [|e table IH]; intros mem; [done|]. cbn [fold_left].
  change (omap param_set (e :: table)) with
    (match param_set e with Some q => q :: omap param_set table | None => omap param_set table end).
  rewrite IH. destruct (param_set e) as [q|]; [|done].
  destruct (decide (x ∈ omap param_set table)) as [H|H].
  - rewrite decide_True; [done|]. by right.
  - destruct (decide (x = q)) as [->|Hq].
    + rewrite lookup_insert_eq, decide_True; [done|]. by left.
    + rewrite lookup_insert_ne, decide_False by set_solver. done.
Qed.

(** The memory [mem'] is [mem] with what the lines say about the parameters of the table. *)
Definition file_values (table : list loc_param_s_type) (ls : list line) (mem mem' : memory) : Prop :=
  (∀ e p, e ∈ table → param_ptr e = Some p →
     mem' !! p = match setting_of (param_name e) ls with Some val => Some (param_value e val) | None => mem !! p end) ∧
  (∀ e q, e ∈ table → param_set e = Some q →
     mem' !! q = Some (CInt (match setting_of (param_name e) ls with Some _ => 1 | None => 0 end))) ∧
  (∀ x, x ∉ table ≫= locs → mem' !! x = mem !! x).

Lemma setting_of_ok sl ls name val : Forall (line_ok sl) ls → setting_of name ls = Some val → length val + 1 < sl.
Proof.
  induction 1 as [|l ls Hl _ IH]; [done|]. destruct l as [p0 key p1 p2 v p3|t]; [|done]. cbn [setting_of].
  destruct (decide (key = name)); [|done]. intros [= ->]. destruct Hl as (_ & _ & Hl & _).
  simpl in Hl. rewrite !length_app in Hl. simpl in Hl. rewrite !length_app in Hl. lia.
Qed.

Lemma stored_param_value sl e val : length val + 1 < sl → stored sl e (config_value (param_name e) val) = param_value e val.
Proof.
  intros Hl. unfold stored, param_value. destruct (config_value_numbers (param_name e) val) as [-> ->].
  rewrite (proj2 (config_value_name _ _)). rewrite take_ge by lia. done.
Qed.

Lemma given_names table ls : Forall (λ k, k ∈ param_name <$> table) (given table ls).
Proof.
  induction ls as [|l ls IH]; [constructor|]. rewrite given_cons. destruct (line_entry table l) as [[e v]|] eqn:E; [|done].
  constructor; [|done]. apply list_elem_of_fmap. apply line_entry_some in E. naive_solver.
Qed.

Lemma given_bound table ls : NoDup (given table ls) → length (given table ls) ≤ length table.
Proof.
  intros Hn. rewrite <- (length_fmap param_name table). apply submseteq_length, NoDup_submseteq; [done|].
  apply Forall_forall, given_names.
Qed.

Lemma in_locs table e x : e ∈ table → x ∈ locs e → x ∈ table ≫= locs.
Proof. intros. apply list_elem_of_bind. eauto. Qed.

Lemma flag_in_locs table q : q ∈ omap param_set table → q ∈ table ≫= locs.
Proof. intros (e & He & Hq)%list_elem_of_omap. apply (in_locs _ e); [done|]. unfold locs. rewrite Hq. set_solver. Qed.

(** Reading a file whose lines give no parameter twice. *)
Lemma read_conf_values sl table ls mem : 2 ≤ sl → (Z.of_nat (length table) < 2 ^ 32)%Z →
  good_table table → Forall (line_ok sl) ls → NoDup (given table ls) →
  ∃ mem' rest,
    loc_read_conf_r_long (file_fuel (text ls)) (Some (text ls)) (Some table) (length table) sl mem = Some (0%Z, mem', Some rest)
    ∧ file_values table ls mem mem'.
Proof.
  intros Hsl Hlen Ht Hls Hg. unfold loc_read_conf_r_long. rewrite firstn_all.
  destruct (conf_read_loop_all sl table ls (file_fuel (text ls)) (length table) (clear_flags table mem)) as [rest ->];
    auto using text_fuel, given_bound.
  eexists _, rest. split; [done|]. pose proof Ht as (_ & Hn & _). unfold file_values.
  assert (Hv : ∀ e x, e ∈ table → x ∈ locs e →
    apply_lines sl table (clear_flags table mem) ls !! x =
    match setting_of (param_name e) ls with
    | Some val => Some (if bool_decide (param_ptr e = Some x) then param_value e val else CInt 1)
    | None => clear_flags table mem !! x
    end).
  { intros e x He Hx. rewrite (apply_lines_at sl table ls e) by done.
    destruct (setting_of (param_name e) ls) as [val|] eqn:E; [|done]. rewrite stored_param_value; [done|]. by eapply setting_of_ok. }
  split_and!.
  - intros e p He Hp. rewrite (Hv e) by (done || unfold locs; rewrite Hp; set_solver). rewrite bool_decide_true by done.
    destruct (setting_of (param_name e) ls); [done|]. rewrite clear_flags_at, decide_False; [done|].
    intros (e' & He' & Hq)%list_elem_of_omap. assert (e' = e) as ->.
    { apply (good_locs table e' e p); [done..| |]; unfold locs; [rewrite Hq|rewrite Hp]; set_solver. }
    pose proof (locs_nodup table e Hn He) as Hd. unfold locs in Hd. rewrite Hp, Hq in Hd.
    apply NoDup_cons in Hd as [Hd _]. apply Hd. by left.
  - intros e q He Hq. rewrite (Hv e) by (done || unfold locs; rewrite Hq; set_solver).
    pose proof (locs_nodup table e Hn He) as Hd. unfold locs in Hd. rewrite Hq in Hd.
    rewrite bool_decide_false; [|intros Hp; rewrite Hp in Hd; apply NoDup_cons in Hd as [Hd _]; apply Hd; by left].
    destruct (setting_of (param_name e) ls); [done|]. rewrite clear_flags_at, decide_True; [done|].
    apply list_elem_of_omap. eauto.
  - intros x Hx. rewrite apply_lines_off by done. rewrite clear_flags_at, decide_False; [done|]. by intros ?%flag_in_locs.
Qed.

(** * The readers *)

Lemma loc_param_table_good : good_table loc_param_table.
Proof. split_and!; [by apply (bool_decide_unpack _)..|]. repeat constructor; set_solver. Qed.

Lemma file_values_app t1 t2 ls m0 m1 m2 :
  (∀ x, x ∈ t1 ≫= locs → x ∉ t2 ≫= locs) → file_values t1 ls m0 m1 → file_values t2 ls m1 m2 →
  file_values (t1 ++ t2) ls m0 m2.
Proof.
  intros Hd (A1 & B1 & C1) (A2 & B2 & C2).
  assert (Hp : ∀ e p, param_ptr e = Some p → p ∈ locs e) by (intros e p E; unfold locs; rewrite E; set_solver).
  assert (Hq : ∀ e q, param_set e = Some q → q ∈ locs e) by (intros e q E; unfold locs; rewrite E; set_solver).
  split_and!.
  - intros e p [He|He]%elem_of_app E.
    + rewrite C2 by (apply Hd; eapply in_locs; eauto). by apply A1.
    + rewrite (A2 e p He E). destruct (setting_of (param_name e) ls); [done|]. apply C1.
      intros Hx. apply (Hd p Hx). eapply in_locs; eauto.
  - intros e q [He|He]%elem_of_app E; [|by apply B2]. rewrite C2 by (apply Hd; eapply in_locs; eauto). by apply B1.
  - intros x Hx. rewrite bind_app, not_elem_of_app in Hx. destruct Hx. by rewrite C2, C1.
Qed.

Lemma read_conf_file_values files name ls table mem :
  files name = Some (text ls) → Forall (line_ok LOC_MAX_PARAM_STRING) ls →
  good_table table → (Z.of_nat (length table) < 2 ^ 32)%Z → (∀ x, x ∈ table ≫= locs → x ∉ loc_param_table ≫= locs) →
  NoDup (given table ls) → NoDup (given loc_param_table ls) →
  ∃ mem', loc_read_conf files name (Some table) (length table) mem = Some mem' ∧
          file_values (table ++ loc_param_table) ls mem mem'.
Proof.
  intros Hf Hls Ht Hlen Hd Hg1 Hg2. unfold loc_read_conf, loc_read_conf_long. rewrite Hf.
  assert (H1 : ∃ m1, (if negb (length table =? 0)%nat && negb (is_null (Some table))
    then '(_, m, _) ← loc_read_conf_r_long (file_fuel (text ls)) (Some (text ls)) (Some table) (length table) LOC_MAX_PARAM_STRING mem; Some m
    else Some mem) = Some m1 ∧ file_values table ls mem m1).
  { destruct table as [|e table]; [exists mem; split; [done|]; split_and!; [by intros ?? ?%elem_of_nil..|done]|].
    destruct (read_conf_values LOC_MAX_PARAM_STRING (e :: table) ls mem) as (m1 & rest & E & Hv); [unfold LOC_MAX_PARAM_STRING; lia|done..|].
    exists m1. split; [|done]. cbn [length Nat.eqb negb andb is_null] in *. by rewrite E. }
  destruct H1 as (m1 & -> & Hv1).
  destruct (read_conf_values LOC_MAX_PARAM_STRING loc_param_table ls m1) as (m2 & rest & E & Hv2);
    [unfold LOC_MAX_PARAM_STRING; lia|done|apply loc_param_table_good|done..|].
  exists m2. split; [cbn [mbind option_bind]; unfold loc_param_num; by rewrite E|]. by eapply file_values_app.
Qed.

Lemma is_hex_print z : is_hex (print_int z) = false.
Proof.
  destruct (print_chars z) as [_ Hf]. destruct (print_int z) as [|a [|x [|b s]]]; [done..|]. simpl.
  apply Forall_cons in Hf as [_ [Hx _]%Forall_cons]. apply int_char_plain in Hx as (_ & _ & _ & _ & Hx).
  rewrite (proj2 (Z.eqb_neq _ _)) by done. by rewrite andb_false_r.
Qed.

(** C25: loc_read_conf on a file of settings, in any order and with any spacing, among
    lines without a "=": each variable of the caller's table, and of the table of the logging
    parameters, gets the value that the file gives its parameter and keeps its own when the file
    does not mention it; its flag tells which; nothing else changes. The value is the text for a
    parameter of type s ("NULL" is the empty string), what atof reads for type f (but 0 when the
    text looks like a hexadecimal number), and for type n what atoi reads, or the number after
    "0x": so an int in decimal and a number of 32 bits in hexadecimal arrive as that int. The
    parameters of each table are set at most once in the file, every line with a "=" has a name
    before it and a value after it, no line exceeds the buffer, the parameters and variables of a
    table are different and of the three types, and the two tables share no variable. *)
Theorem config_file_read files name ls table mem :
  files name = Some (text ls) → Forall (line_ok LOC_MAX_PARAM_STRING) ls →
  good_table table → (Z.of_nat (length table) < 2 ^ 32)%Z → (∀ x, x ∈ table ≫= locs → x ∉ loc_param_table ≫= locs) →
  NoDup (given table ls) → NoDup (given loc_param_table ls) →
  ∃ mem', loc_read_conf files name (Some table) (length table) mem = Some mem' ∧
          file_values (table ++ loc_param_table) ls mem mem' ∧
          ∀ e p val, e ∈ table ++ loc_param_table → param_ptr e = Some p → param_type e = "n"%char →
            setting_of (param_name e) ls = Some val →
            (∀ z, val = print_int z → (- 2 ^ 31 ≤ z < 2 ^ 31)%Z → mem' !! p = Some (CInt z)) ∧
            (∀ z, val = lit "0x" ++ print_hex z → (0 ≤ z < 2 ^ 32)%Z → mem' !! p = Some (CInt (swrap 32 z))).
Proof.
  intros Hf Hls Ht Hlen Hd Hg1 Hg2.
  assert (H : ∃ mem', loc_read_conf files name (Some table) (length table) mem = Some mem' ∧ file_values (table ++ loc_param_table) ls mem mem').
  { by apply read_conf_file_values. }
  destruct H as (mem' & E & Hv). exists mem'. split_and!; [done..|]. intros e p val He Hp Ht' Hs.
  pose proof (proj1 Hv e p He Hp) as Hm. rewrite Hs in Hm. unfold param_value in Hm. rewrite Ht' in Hm. cbn [decide] in Hm.
  split; intros z -> Hz; rewrite Hm; simpl; do 2 f_equal.
  - unfold int_of_text. rewrite <- is_hex_hexadecimal, is_hex_print. by apply atoi_print.
  - by apply hex_text_value.
Qed.

Definition flp_table : list loc_param_s_type :=
  [Param (lit "BATCH_SIZE") (Some "batch_size") (Some "batch_set") "n"; Param (lit "ACCURACY") (Some "accuracy") None "s"].
Definition flp_lines : list line :=
  [Other (lit "### FLP settings"); Setting [] (lit "DEBUG_LEVEL") [] [] (lit "3") [];
   Setting (lit " ") (lit "BATCH_SIZE") (lit " ") (lit " ") (lit "0x14") []; Other []].

Lemma config_file_read_witness : ∃ mem',
  loc_read_conf (λ _, Some (text flp_lines)) [] (Some flp_table) (length flp_table) static_data = Some mem' ∧
  file_values (flp_table ++ loc_param_table) flp_lines static_data mem' ∧ mem' !! "batch_size" = Some (CInt 20).
Proof.
  destruct (config_file_read (λ _, Some (text flp_lines)) [] flp_lines flp_table static_data) as (mem' & E & Hv & Hn);
    [done| |split_and!| | | | |].
  - repeat constructor; try (apply (bool_decide_unpack _); vm_compute; exact I); unfold blank, trimmed;
      try (eexists _, _; split; [reflexivity|done]); try (vm_compute; lia).
    all: try (split; [by eexists _, _|]).
    + by exists (lit "DEBUG_LEVE"), "L"%char.
    + by exists [], "3"%char.
    + by exists (lit "BATCH_SIZ"), "E"%char.
    + by exists (lit "0x1"), "4"%char.
  - by apply (bool_decide_unpack _).
  - by apply (bool_decide_unpack _).
  - repeat constructor; set_solver.
  - done.
  - intros x Hx. apply (bool_decide_unpack _). revert x Hx. apply Forall_forall. by apply (bool_decide_unpack _).
  - by apply (bool_decide_unpack _).
  - by apply (bool_decide_unpack _).
  - exists mem'. split_and!; [done..|].
    apply (proj2 (Hn (Param (lit "BATCH_SIZE") (Some "batch_size") (Some "batch_set") "n") "batch_size" (lit "0x14")
      (list_elem_of_here _ _) eq_refl eq_refl eq_refl) 20%Z); [reflexivity|lia].
Defined.

(** ** The loops end *)

Lemma conf_read_loop_total sl table n : sl ≠ 1 →
  ∀ fuel k mem f, length f + 1 < fuel → is_Some (conf_read_loop fuel table n sl k mem f).
Proof.
  intros Hsl. induction fuel as [|fuel IH]; intros k mem f Hf; [lia|]. cbn [conf_read_loop].
  destruct (k =? 0)%Z; [by eauto|]. destruct (fgets sl f) as [[b r]|] eqn:E; [|by eauto].
  destruct (loc_fill_conf_item _ _ _ _ _) as [m mem']. apply IH.
  destruct sl as [|[|sl]]; [done|lia|]. apply fgets_shorter in E; lia.
Qed.

(** A buffer of one byte reads nothing and never reaches the end of the file. *)
Lemma conf_read_loop_stuck table n k mem f : (0 < k < 2 ^ 32)%Z → ∀ fuel, conf_read_loop fuel table n 1 k mem f = None.
Proof.
  intros Hk. induction fuel as [|fuel IH]; [done|]. cbn [conf_read_loop fgets]. destruct (Z.eqb_spec k 0); [lia|].
  destruct table as [table|]; simpl; rewrite Z.sub_0_r, uwrap_small by lia; apply IH.
Qed.

Lemma strtok_shorter d s t r : strtok_r d s = Some (t, r) → length r < length s.
Proof.
  assert (G : ∀ s t r, strtok_split d s = (t, r) → length r ≤ length s).
  { intros s'. induction s' as [|c s' IH]; intros t' r'; simpl; [by intros [= <- <-]|].
    destruct (decide (c ∈ d)); [intros [= <- <-]; simpl; lia|]. destruct (strtok_split d s') as [t1 r1].
    intros [= <- <-]. specialize (IH _ _ eq_refl). simpl. lia. }
  unfold strtok_r. induction s as [|c s IH]; [done|]. cbn [strspn_drop]. destruct (decide (c ∈ d)) as [H|H].
  - intros E. apply IH in E. simpl. lia.
  - intros [= E]. cbn [strtok_split] in E. rewrite decide_False in E by done.
    destruct (strtok_split d s) as [t1 r1] eqn:E1. injection E as [= <- <-]. apply G in E1. simpl. lia.
Qed.

Lemma update_loop_total sl table n : ∀ fuel k ret b mem,
  match b with Some (_, r) => S (length r) | None => 0 end < fuel → is_Some (update_loop fuel table n sl k ret b mem).
Proof.
  induction fuel as [|fuel IH]; intros k ret b mem Hf; [lia|]. cbn [update_loop]. destruct b as [[l r]|]; [|by eauto].
  destruct (k =? 0)%Z; [by eauto|]. destruct (loc_fill_conf_item _ _ _ _ _) as [m mem']. apply IH.
  destruct (strtok_r [NL] r) as [[l' r']|] eqn:E; [|lia]. apply strtok_shorter in E. lia.
Qed.

Lemma cstr_length s : length (cstr s) ≤ length s.
Proof. induction s as [|c s IH]; simpl; [done|]. destruct (decide (c = NUL)); simpl; lia. Qed.

(** C31: whatever the bytes of the file, the table and its length, loc_read_conf_r_long
    comes back, after at most one more read than the file has bytes, and so does
    loc_update_conf_long with at most one round for each byte; except that with a
    [string_len] of one loc_read_conf_r_long reads nothing and never comes back. *)
Theorem config_readers_terminate :
  (∀ f table n sl mem, sl ≠ 1 →
     ∃ mem' rest, loc_read_conf_r_long (file_fuel f) (Some f) table n sl mem = Some (0%Z, mem', Some rest)) ∧
  (∀ data len table n sl mem, (len ≠ -1)%Z → (len ≤ Z.of_nat (length data))%Z →
     ∃ ret mem', loc_update_conf_long (length data + 2) (Some data) len table n sl mem = Some (ret, mem')) ∧
  (∀ fuel f table n mem, (0 < Z.of_nat n < 2 ^ 32)%Z →
     loc_read_conf_r_long fuel (Some f) table n 1 mem = None).
Proof.
  split_and!.
  - intros f table n sl mem Hsl. unfold loc_read_conf_r_long.
    destruct (conf_read_loop_total sl table n Hsl (file_fuel f) (Z.of_nat n)
      (match table with Some t => clear_flags (take n t) mem | None => mem end) f) as [[m r] ->]; [unfold file_fuel; lia|by eexists _, _].
  - intros data len table n sl mem H1 H2. unfold loc_update_conf_long. destruct table as [table|]; [|by eauto].
    destruct ((len =? 0)%Z || (n =? 0)%nat); [by eauto|]. destruct (Z.ltb_spec len (-1)); [by eauto|].
    rewrite (proj2 (Z.eqb_neq len (-1))) by done. rewrite (proj2 (Z.ltb_ge _ _)) by done. cbn [orb].
    edestruct update_loop_total as [[r m] E]; [|by exists r, m].
    destruct (strtok_r [NL] _) as [[l r]|] eqn:E; [|lia]. apply strtok_shorter in E.
    pose proof (cstr_length (take (Z.to_nat len) data)) as Hc. rewrite length_take in Hc. lia.
  - intros fuel f table n mem Hn. unfold loc_read_conf_r_long. by rewrite conf_read_loop_stuck.
Qed.

(** ** Round trip *)

Definition value_text (mem : memory) (e : loc_param_s_type) : str :=
  match param_ptr e ≫= λ p, mem !! p with
  | Some (CStr s) => s
  | Some (CInt z) => print_int z
  | _ => []
  end.

(** "NAME = VALUE" *)
Definition print_line (mem : memory) (e : loc_param_s_type) : line :=
  Setting [] (param_name e) (lit " ") (lit " ") (value_text mem e) [].

(** Strings that are neither empty nor surrounded by spaces, and ints. *)
Definition printable (mem : memory) (e : loc_param_s_type) : Prop :=
  (trimmed (param_name e) ∧ no NUL (param_name e) ∧ no NL (param_name e) ∧ no "=" (param_name e)) ∧
  length (param_name e) + length (value_text mem e) + 5 ≤ LOC_MAX_PARAM_STRING ∧
  ((∃ p s, param_ptr e = Some p ∧ mem !! p = Some (CStr s) ∧ param_type e = "s"%char ∧
           trimmed s ∧ no NUL s ∧ no NL s ∧ s ≠ lit "NULL") ∨
   (∃ p z, param_ptr e = Some p ∧ mem !! p = Some (CInt z) ∧ param_type e = "n"%char ∧ (- 2 ^ 31 ≤ z < 2 ^ 31)%Z)).

Lemma print_trimmed z : trimmed (print_int z) ∧ no NUL (print_int z) ∧ no NL (print_int z).
Proof.
  destruct (print_chars z) as [Hne Hf]. split_and!.
  - split.
    + destruct (print_int z) as [|c s]; [done|]. exists c, s. split; [done|]. apply int_char_plain. by inversion Hf.
    + destruct (last_snoc_inv (print_int z)) as [E|(s & c & E)]; [done|]. rewrite E in *. exists s, c. split; [done|].
      apply Forall_app in Hf as [_ Hf]. apply int_char_plain. by inversion Hf.
  - eapply Forall_impl; [done|]. intros c Hc. by apply int_char_plain.
  - eapply Forall_impl; [done|]. intros c Hc. by apply int_char_plain.
Qed.

Lemma printable_value mem e : printable mem e →
  trimmed (value_text mem e) ∧ no NUL (value_text mem e) ∧ no NL (value_text mem e) ∧
  ∃ p, param_ptr e = Some p ∧ mem !! p = Some (param_value e (value_text mem e)).
Proof.
  intros (_ & _ & [(p & s & Hp & Hm & Ht & Hs & H0 & Hnl & Hnull)|(p & z & Hp & Hm & Ht & Hz)]);
    unfold value_text; rewrite Hp; cbn [mbind option_bind]; rewrite Hm.
  - split_and!; [done..|]. exists p. split; [done|]. rewrite Hm. unfold param_value. rewrite decide_True by done.
    by rewrite bool_decide_false.
  - destruct (print_trimmed z) as (? & ? & ?). split_and!; [done..|]. exists p. split; [done|]. rewrite Hm.
    unfold param_value. rewrite Ht. cbn [decide]. unfold int_of_text. rewrite <- is_hex_hexadecimal, is_hex_print. simpl. by rewrite atoi_print.
Qed.

Lemma print_line_ok mem e : printable mem e → line_ok LOC_MAX_PARAM_STRING (print_line mem e).
Proof.
  intros Hp. destruct (printable_value mem e Hp) as (Hv & Hv0 & Hvn & _). destruct Hp as ((Hk & Hk0 & Hkn & Hke) & Hl & _).
  unfold line_ok, print_line, line_text. rewrite app_nil_r. simpl app.
  assert (Hsp : blank (lit " ")) by by repeat constructor.
  assert (G : ∀ c, no c (param_name e) → no c (value_text mem e) → no c (lit " =  ") →
    no c ((param_name e ++ lit " ") ++ "="%char :: " "%char :: value_text mem e)).
  { intros c H1 H2 H3. inversion H3 as [|?? H4 [|?? H5 ]]; subst. apply Forall_app. split; [apply Forall_app; split; [done|by constructor]|].
    by repeat constructor. }
  split_and!; [apply G; [done..|by apply (bool_decide_unpack _)]|apply G; [done..|by apply (bool_decide_unpack _)]| |constructor|done|done|constructor|done..].
  rewrite !length_app. simpl. unfold LOC_MAX_PARAM_STRING in *. lia.
Qed.

Lemma setting_of_print mem table e : NoDup (param_name <$> table) → e ∈ table →
  setting_of (param_name e) (print_line mem <$> table) = Some (value_text mem e).
Proof.
  intros Hn He. induction He as [e table|e e' table He IH]; cbn [fmap list_fmap setting_of print_line] in *.
  - by rewrite decide_True.
  - apply NoDup_cons in Hn as [He' Hn]. rewrite decide_False; [by apply IH|]. intros E. apply He'.
    rewrite E. apply list_elem_of_fmap. eauto.
Qed.

Lemma given_print mem table all : good_table all → table ⊆ all → given all (print_line mem <$> table) = param_name <$> table.
Proof.
  intros Ht. induction table as [|e table IH]; intros Hs; [done|]. cbn [fmap list_fmap]. rewrite given_cons.
  unfold print_line at 1. rewrite line_entry_here by (done || apply Hs; by left). f_equal. apply IH. set_solver.
Qed.

(** C27: what is printed is read back: the lines "NAME = VALUE" of the variables of a
    table, with the ints in decimal, give every variable its value again, over any other
    values.  The strings are neither empty, nor "NULL", nor surrounded by spaces. *)
Theorem config_roundtrip table mem mem0 :
  good_table table → (Z.of_nat (length table) < 2 ^ 32)%Z → Forall (printable mem) table →
  let f := text (print_line mem <$> table) in
  ∃ mem' rest, loc_read_conf_r (file_fuel f) (Some f) (Some table) (length table) mem0 = Some (0%Z, mem', Some rest) ∧
    ∀ e p, e ∈ table → param_ptr e = Some p → mem' !! p = mem !! p.
Proof.
  intros Ht Hlen Hp f. pose proof Ht as (Hn & _ & _).
  destruct (read_conf_values LOC_MAX_PARAM_STRING table (print_line mem <$> table) mem0) as (mem' & rest & E & Hv & _).
  - unfold LOC_MAX_PARAM_STRING. lia.
  - done.
  - done.
  - apply Forall_fmap. eapply Forall_impl; [done|]. intros e. apply print_line_ok.
  - by rewrite given_print.
  - exists mem', rest. split; [done|]. intros e p He Hpe. rewrite (Hv e p He Hpe). rewrite setting_of_print by done.
    rewrite Forall_forall in Hp. destruct (printable_value mem e (Hp e He)) as (_ & _ & _ & p' & Hp' & Hm).
    assert (p' = p) as -> by congruence. by rewrite Hm.
Qed.

Definition flp_memory : memory := {["batch_size" := CInt (-40); "accuracy" := CStr (lit "HIGH ACC = 1")]}.

Lemma config_roundtrip_witness :
  let f := text (print_line flp_memory <$> flp_table) in
  ∃ mem' rest, loc_read_conf_r (file_fuel f) (Some f) (Some flp_table) (length flp_table) ∅ = Some (0%Z, mem', Some rest) ∧
    ∀ e p, e ∈ flp_table → param_ptr e = Some p → mem' !! p = flp_memory !! p.
Proof.
  apply config_roundtrip; [split_and!|done|].
  - by apply (bool_decide_unpack _).
  - by apply (bool_decide_unpack _).
  - repeat constructor; set_solver.
  - constructor; [|constructor; [|constructor]]; (split; [split_and!|split]).
    all: try (apply (bool_decide_unpack _); vm_compute; exact I).
    + split; [by eexists _, _|by exists (lit "BATCH_SIZ"), "E"%char].
    + right. exists "batch_size", (-40)%Z. by split_and!.
    + split; [by eexists _, _|by exists (lit "ACCURAC"), "Y"%char].
    + left. exists "accuracy", (lit "HIGH ACC = 1"). split_and!; try done; try (apply (bool_decide_unpack _); vm_compute; exact I).
      split; [by eexists _, _|by exists (lit "HIGH ACC = "), "1"%char].
Defined.

(** ** What goes wrong *)

(** One parameter, so many times that the count is used up. *)
Definition repeats (e : loc_param_s_type) (vals : list str) : list line :=
  (λ v, Setting [] (param_name e) [] [] v []) <$> vals.

Lemma upto_repeats table e vals ls : good_table table → e ∈ table →
  upto table (length vals) (repeats e vals ++ ls) = (repeats e vals, ls).
Proof.
  intros Ht He. induction vals as [|v vals IH]; [by destruct ls|]. cbn [repeats fmap list_fmap app upto length].
  rewrite line_entry_here by done. unfold repeats in IH. by rewrite IH.
Qed.

(** A comment line that is longer than the buffer. *)
Definition long_comment (s : str) : str := lit "#" ++ repeat "x"%char 170 ++ s ++ [NL].

(** Four ways in which a configuration file is not read as it is written.  (1) A
    parameter that is given as many times as the table has entries uses up the count: no
    line after it is looked at, whatever it says.  (2) A line longer than the buffer goes
    on as a line of its own, so the end of a comment sets a parameter.  (3) A parameter
    with an empty value gets the end of the line as its value.  (4) loc_update_conf_long
    stops one parameter short of the table: of a table of one nothing is ever read, and
    what it returns is the number of lines it looked at and not of the entries set. *)
Theorem config_file_misread :
  (∀ table e vals ls mem, good_table table → e ∈ table → length vals = length table →
     (Z.of_nat (length table) < 2 ^ 32)%Z → Forall (line_ok LOC_MAX_PARAM_STRING) (repeats e vals ++ ls) →
     ∃ mem', loc_read_conf_r (file_fuel (text (repeats e vals ++ ls))) (Some (text (repeats e vals ++ ls))) (Some table)
               (length table) mem = Some (0%Z, mem', Some (text ls)) ∧
             ∀ x, x ∉ locs e → mem' !! x = clear_flags table mem !! x) ∧
  (let f := long_comment (lit "BATCH_SIZE=7") in
   option_map (λ r, int_at r.1.2 "batch_size") (loc_read_conf_r (file_fuel f) (Some f) (Some flp_table) 2 ∅) = Some 7%Z) ∧
  (let f := lit "ACCURACY=" ++ [NL] in
   option_map (λ r, str_at r.1.2 "accuracy") (loc_read_conf_r (file_fuel f) (Some f) (Some flp_table) 2 ∅) = Some [NL]) ∧
  (∀ data len e sl mem, (0 < len ≤ Z.of_nat (length data))%Z →
     loc_update_conf_long (length data + 2) (Some data) len (Some [e]) 1 sl mem = Some (0%Z, mem)) ∧
  (let f := lit "# one" ++ NL :: lit "# two" ++ NL :: lit "BATCH_SIZE=7" ++ NL :: lit "ACCURACY=HIGH" in
   option_map (λ r, (r.1, int_at r.2 "batch_size", str_at r.2 "accuracy"))
     (loc_update_conf (length f + 2) (Some f) (Z.of_nat (length f)) (Some flp_table) 2 ∅) = Some (3%Z, 7%Z, [])).
Proof.
  split_and!; [|vm_compute; reflexivity|vm_compute; reflexivity| |vm_compute; reflexivity].
  - intros table e vals ls mem Ht He Hvals Hlen Hls. unfold loc_read_conf_r, loc_read_conf_r_long. rewrite firstn_all.
    rewrite conf_read_loop_lines; [|unfold LOC_MAX_PARAM_STRING; lia|by rewrite firstn_all|done|apply text_fuel|done].
    rewrite firstn_all, <- Hvals, upto_repeats by done. cbn [fst snd mbind option_bind].
    eexists. split; [done|]. intros x Hx. generalize (clear_flags table mem). clear -Ht He Hx.
    induction vals as [|v vals IH]; intros m; [done|]. cbn [repeats fmap list_fmap].
    change (apply_lines ?sl table m (?l :: ?r)) with (apply_lines sl table (apply_line sl table m l) r).
    unfold repeats in IH. rewrite IH. unfold apply_line. rewrite line_entry_here by done. by apply write_entry_other.
  - intros data len e sl mem Hlen. unfold loc_update_conf_long.
    rewrite (proj2 (Z.eqb_neq len 0)), (proj2 (Z.ltb_ge len (-1))), (proj2 (Z.eqb_neq len (-1))), (proj2 (Z.ltb_ge _ _)) by lia.
    cbn [orb Nat.eqb]. rewrite Nat.add_comm. cbn [Nat.add update_loop]. by destruct (strtok_r [NL] _) as [[l r]|].
Qed.
