(* ===== verification/LocProcessConf.v ===== *)
(** * gps/utils/loc_cfg.cpp, loc_read_process_conf : which daemons the launcher starts, and with what.

    The properties of the device, the groups and the files are inputs.  The variable
    [conf] lives in [memory], one location per field, and keeps its values from one
    process to the next, as in the code.  An index outside an array is [None]. *)
From Stdlib Require Import Ascii.
From stdpp Require Import pretty.
From S2P Require Import Prelude CString LocCfg.

Definition MAX_NUM_STRINGS : Z := 20.
Definition LOC_PROCESS_MAX_NUM_GROUPS : nat := 20.
Definition LOC_PROCESS_MAX_NUM_ARGS : nat := 25.
Definition LOC_PROCESS_MAX_ARG_STR_LENGTH : nat := 32.

Definition CONFIG_MASK_TARGET_ALL : Z := 0x01.
Definition CONFIG_MASK_TARGET_FOUND : Z := 0x02.
Definition CONFIG_MASK_TARGET_CHECK : Z := 0x03.
Definition CONFIG_MASK_BASEBAND_ALL : Z := 0x04.
Definition CONFIG_MASK_BASEBAND_FOUND : Z := 0x08.
Definition CONFIG_MASK_BASEBAND_CHECK : Z := 0x0c.
Definition CONFIG_MASK_AUTOPLATFORM_ALL : Z := 0x10.
Definition CONFIG_MASK_AUTOPLATFORM_FOUND : Z := 0x20.
Definition CONFIG_MASK_AUTOPLATFORM_CHECK : Z := 0x30.
Definition CONFIG_MASK_SOCID_ALL : Z := 0x40.
Definition CONFIG_MASK_SOCID_FOUND : Z := 0x80.
Definition CONFIG_MASK_SOCID_CHECK : Z := 0xc0.

Definition LOC_FEATURE_MASK_GTP_WIFI_BASIC : Z := 0x01.
Definition LOC_FEATURE_MASK_GTP_WIFI_PREMIUM : Z := 0x02.
Definition LOC_FEATURE_MASK_GTP_CELL_BASIC : Z := 0x04.
Definition LOC_FEATURE_MASK_GTP_CELL_PREMIUM : Z := 0x08.
Definition LOC_FEATURE_MASK_SAP_BASIC : Z := 0x40.
Definition LOC_FEATURE_MASK_SAP_PREMIUM : Z := 0x80.
Definition LOC_FEATURE_MASK_GTP_WAA_BASIC : Z := 0x100.
Definition LOC_FEATURE_MASK_GTP_MODEM_CELL_BASIC : Z := 0x400.
Definition LOC_FEATURE_MASK_ODCPI : Z := 0x1000.
Definition LOC_FEATURE_MASK_FREE_WIFI_SCAN_INJECT : Z := 0x2000.
Definition LOC_FEATURE_MASK_SUPL_WIFI : Z := 0x4000.
Definition LOC_FEATURE_MASK_WIFI_SUPPLICANT_INFO : Z := 0x8000.

Inductive loc_process_e_status :=
  ENABLED | RUNNING | DISABLED | DISABLED_FROM_CONF | DISABLED_VIA_VENDOR_ENHANCED_CHECK.
#[export] Instance process_status_dec : EqDecision loc_process_e_status.
Proof. solve_decision. Defined.

(** [name] is name[0]; name[1] is never written. *)
Record loc_process_info_s_type := ProcessInfo {
  proc_status : loc_process_e_status;
  proc_id : Z;
  name : str;
  group_list : list Z;
  num_groups : nat;
  args : list str;
  argumentString : str
}.

(** What calloc gives. *)
Definition zero_process_info : loc_process_info_s_type :=
  ProcessInfo ENABLED 0 [] (replicate LOC_PROCESS_MAX_NUM_GROUPS 0%Z) 0 (replicate LOC_PROCESS_MAX_NUM_ARGS []) [].

Definition set_status (s : loc_process_e_status) (p : loc_process_info_s_type) : loc_process_info_s_type :=
  ProcessInfo s (proc_id p) (name p) (group_list p) (num_groups p) (args p) (argumentString p).
Definition set_name (s : str) (p : loc_process_info_s_type) : loc_process_info_s_type :=
  ProcessInfo (proc_status p) (proc_id p) s (group_list p) (num_groups p) (args p) (argumentString p).
Definition set_groups (l : list Z) (n : nat) (p : loc_process_info_s_type) : loc_process_info_s_type :=
  ProcessInfo (proc_status p) (proc_id p) (name p) l n (args p) (argumentString p).
Definition set_args (l : list str) (p : loc_process_info_s_type) : loc_process_info_s_type :=
  ProcessInfo (proc_status p) (proc_id p) (name p) (group_list p) (num_groups p) l (argumentString p).
Definition set_argumentString (s : str) (p : loc_process_info_s_type) : loc_process_info_s_type :=
  ProcessInfo (proc_status p) (proc_id p) (name p) (group_list p) (num_groups p) (args p) s.

(** The device: its properties, its groups, whether calloc succeeds, the build flag. *)
Record device := Device {
  platform_name : str;
  baseband_name : str;
  autoplatform_name : str;
  low_ram_target : bool;
  socid_value : str;
  isXtraDaemonEnabled : bool;
  isVendorEnhanced : bool;
  getgrnam : str → option Z;
  calloc_ok : bool;
  use_glib : bool
}.

(** ** The tables of [conf] *)

Definition gps_conf_parameter_table : list loc_param_s_type :=
  [Param (lit "SGLTE_TARGET") (Some "conf.sglte_target") None "n"].

Definition loc_feature_conf_table : list loc_param_s_type :=
  [Param (lit "GTP_MODE") (Some "conf.feature_gtp_mode") None "s";
   Param (lit "GTP_WAA") (Some "conf.feature_gtp_waa") None "s";
   Param (lit "SAP") (Some "conf.feature_sap") None "s";
   Param (lit "ODCPI") (Some "conf.feature_odcpi") None "s";
   Param (lit "FREE_WIFI_SCAN_INJECT") (Some "conf.feature_free_wifi_scan_inject") None "s";
   Param (lit "SUPL_WIFI") (Some "conf.feature_supl_wifi") None "s";
   Param (lit "WIFI_SUPPLICANT_INFO") (Some "conf.feature_wifi_supplicant_info") None "s"].

Definition loc_process_conf_parameter_table : list loc_param_s_type :=
  [Param (lit "PROCESS_NAME") (Some "conf.proc_name") None "s";
   Param (lit "PROCESS_ARGUMENT") (Some "conf.proc_argument") None "s";
   Param (lit "PROCESS_STATE") (Some "conf.proc_status") None "s";
   Param (lit "PROCESS_GROUPS") (Some "conf.group_list") None "s";
   Param (lit "PREMIUM_FEATURE") (Some "conf.premium_feature") None "n";
   Param (lit "IZAT_FEATURE_MASK") (Some "conf.loc_feature_mask") None "n";
   Param (lit "PLATFORMS") (Some "conf.platform_list") None "s";
   Param (lit "SOC_IDS") (Some "conf.soc_id_list") None "s";
   Param (lit "BASEBAND") (Some "conf.baseband") None "s";
   Param (lit "LOW_RAM_TARGETS") (Some "conf.low_ram_targets") None "s";
   Param (lit "HARDWARE_TYPE") (Some "conf.auto_platform") None "s";
   Param (lit "VENDOR_ENHANCED_PROCESS") (Some "conf.vendor_enhanced_process") None "n"].

(** ** The features of the device *)

Definition bits (b : bool) (mask : Z) : Z := if b then mask else 0%Z.

(** BASIC and PREMIUM turn these features on. *)
Definition basic_or_premium (s : str) : bool := strcmp0 s (lit "BASIC") || strcmp0 s (lit "PREMIUM").

Definition sap_mask (use_glib : bool) (sap : str) : Z :=
  if strcmp0 sap (lit "PREMIUM") || strcmp0 sap (lit "PREMIUM_ENV_AIDING") then LOC_FEATURE_MASK_SAP_PREMIUM
  else if strcmp0 sap (lit "BASIC") then LOC_FEATURE_MASK_SAP_BASIC
  else if strcmp0 sap (lit "MODEM_DEFAULT") then LOC_FEATURE_MASK_SAP_BASIC
  else if strcmp0 sap (lit "DISABLED") then bits use_glib LOC_FEATURE_MASK_SAP_BASIC
  else LOC_FEATURE_MASK_SAP_BASIC.

Definition gtp_mask (mode : str) : Z :=
  if strcmp0 mode (lit "DISABLED") then 0%Z
  else if strcmp0 mode (lit "LEGACY_WWAN") then LOC_FEATURE_MASK_GTP_MODEM_CELL_BASIC
  else if strcmp0 mode (lit "SDK") then LOC_FEATURE_MASK_GTP_WIFI_BASIC
  else if strcmp0 mode (lit "SDK_WIFI") then LOC_FEATURE_MASK_GTP_WIFI_BASIC
  else 0%Z.

Definition loc_service_mask (d : device) (mem : memory) : Z :=
  fold_left Z.lor
    [gtp_mask (str_at mem "conf.feature_gtp_mode");
     bits (strcmp0 (str_at mem "conf.feature_gtp_waa") (lit "BASIC")) LOC_FEATURE_MASK_GTP_WAA_BASIC;
     sap_mask (use_glib d) (str_at mem "conf.feature_sap");
     bits (basic_or_premium (str_at mem "conf.feature_odcpi")) LOC_FEATURE_MASK_ODCPI;
     bits (basic_or_premium (str_at mem "conf.feature_free_wifi_scan_inject")) LOC_FEATURE_MASK_FREE_WIFI_SCAN_INJECT;
     bits (basic_or_premium (str_at mem "conf.feature_supl_wifi")) LOC_FEATURE_MASK_SUPL_WIFI;
     bits (basic_or_premium (str_at mem "conf.feature_wifi_supplicant_info")) LOC_FEATURE_MASK_WIFI_SUPPLICANT_INFO] 0%Z.

(** The names of the options: "--" and the feature. *)
Definition arg_of (feature : str) : str := strlcat (lit "--") feature (LOC_PROCESS_MAX_ARG_STR_LENGTH - 3).
Definition arg_gtp_waa : str := arg_of (lit "gtp-waa").
Definition arg_gtp_modem_cell : str := arg_of (lit "gtp-modem-cell").
Definition arg_gtp_wifi : str := arg_of (lit "gtp-wifi").
Definition arg_sap : str := arg_of (lit "sap").
Definition arg_disabled : str := lit "DISABLED".
Definition arg_basic : str := lit "BASIC".
Definition arg_premium : str := lit "PREMIUM".

(** ** One process *)

(** A list of [conf] split at the spaces, which overwrites it. *)
Definition split_field (field : string) (mem : memory) : list str * memory :=
  let '(strings, raw) := loc_util_split_string (str_at mem field) MAX_NUM_STRINGS " " in
  (strings, <[field := CStr raw]> mem).

(** The gids of the groups that exist. *)
Fixpoint add_groups (d : device) (names : list str) (group_list : list Z) (num_groups : nat) : option (list Z * nat) :=
  match names with
  | [] => Some (group_list, num_groups)
  | g :: names =>
    match getgrnam d g with
    | Some gid => if decide (num_groups < length group_list)
                  then add_groups d names (<[num_groups := gid]> group_list) (S num_groups) else None
    | None => add_groups d names group_list num_groups
    end
  end.

(** The lists PLATFORMS, SOC_IDS and BASEBAND: "all", "all exclude" with the names left
    out, or the names; [also] is another way to match one of the names. *)
Definition check_list (ALL FOUND : Z) (name : str) (also : str → bool) (strings : list str) (config_mask : Z) : Z :=
  let nstrings := length strings in
  let second := nth 1 strings [] in
  if strcmp0 (lit "all") (nth 0 strings []) then
    if (nstrings =? 1)%nat || ((nstrings =? 2)%nat && strcmp0 (lit "exclude") second)
    then Z.lor config_mask ALL
    else if (2 <? nstrings)%nat && strcmp0 (lit "exclude") second
    then let config_mask := Z.lor config_mask FOUND in
         if existsb (strcmp0 name) (drop 2 strings) then Z.ldiff config_mask FOUND else config_mask
    else config_mask
  else if existsb (λ s, strcmp0 name s || also s) strings then Z.lor config_mask FOUND else config_mask.

Definition check_auto (name : str) (strings : list str) (config_mask : Z) : Z :=
  if strcmp0 (lit "all") (nth 0 strings []) then Z.lor config_mask CONFIG_MASK_AUTOPLATFORM_ALL
  else if existsb (strcmp0 name) strings then Z.lor config_mask CONFIG_MASK_AUTOPLATFORM_FOUND else config_mask.

(** strlcpy(args[i++], s): the arguments and the next index. *)
Definition push_arg (st : list str * nat) (s : str) : option (list str * nat) :=
  let '(args, i) := st in
  if decide (i < length args) then Some (<[i := strlcpy [] s LOC_PROCESS_MAX_ARG_STR_LENGTH]> args, S i) else None.

(** An option and its mode. *)
Definition push_feature (feature mode : str) (st : list str * nat) : option (list str * nat) :=
  st ← push_arg st feature; push_arg st mode.

Definition has (mask features : Z) : bool := negb (Z.land mask features =? 0)%Z.

(** The options for the features that the process asks for. *)
Definition feature_args (loc_feature_mask service_mask : Z) (st : list str * nat) : option (list str * nat) :=
  st ← (if has loc_feature_mask (Z.lor LOC_FEATURE_MASK_GTP_WIFI_BASIC LOC_FEATURE_MASK_GTP_WIFI_PREMIUM) then
          push_feature arg_gtp_wifi
            (if has service_mask LOC_FEATURE_MASK_GTP_WIFI_BASIC then arg_basic
             else if has service_mask LOC_FEATURE_MASK_GTP_WIFI_PREMIUM then arg_premium else arg_disabled) st
        else Some st);
  st ← (if has loc_feature_mask (Z.lor LOC_FEATURE_MASK_GTP_CELL_BASIC LOC_FEATURE_MASK_GTP_CELL_PREMIUM) then
          push_feature arg_gtp_modem_cell
            (if has service_mask LOC_FEATURE_MASK_GTP_MODEM_CELL_BASIC then arg_basic else arg_disabled) st
        else Some st);
  st ← (if has loc_feature_mask (Z.lor LOC_FEATURE_MASK_SAP_BASIC LOC_FEATURE_MASK_SAP_PREMIUM) then
          push_feature arg_sap
            (if has service_mask LOC_FEATURE_MASK_SAP_BASIC then arg_basic
             else if has service_mask LOC_FEATURE_MASK_SAP_PREMIUM then arg_premium else arg_disabled) st
        else Some st);
  if has loc_feature_mask LOC_FEATURE_MASK_GTP_WAA_BASIC then
    push_feature arg_gtp_waa
      (if has service_mask LOC_FEATURE_MASK_GTP_WAA_BASIC then arg_basic else arg_disabled) st
  else Some st.

(** The loop that copies the arguments of the configuration file: those of [temp_args]
    from [i] on, which end at the first NULL or at the end of the array. *)
Fixpoint copy_args (temp_args : list str) (st : list str * nat) : option (list str * nat) :=
  match temp_args with
  | [] => Some st
  | a :: rest => if (st.2 <? LOC_PROCESS_MAX_NUM_ARGS)%nat then st ← push_arg st a; copy_args rest st else Some st
  end.

(** What follows the last "/" of an absolute path. *)
Definition base_name (n : str) : str :=
  match n with
  | c :: _ => if decide (c = "/"%char) then default [] (strrchr_next n "/") else n
  | [] => n
  end.

(** Arguments and state of a process that the device may run. *)
Definition launch (service_mask : Z) (mem : memory) (p : loc_process_info_s_type) : option loc_process_info_s_type :=
  st ← push_arg (args p, 0) (base_name (name p));
  '(status, st) ←
    (if (int_at mem "conf.premium_feature" =? 0)%Z then Some (ENABLED, st)
     else if has (int_at mem "conf.loc_feature_mask") service_mask
     then st ← feature_args (int_at mem "conf.loc_feature_mask") service_mask st; Some (ENABLED, st)
     else Some (proc_status p, st));
  let p := set_status status p in
  let proc_argument := str_at mem "conf.proc_argument" in
  if bool_decide (proc_argument = []) then Some (set_args st.1 p)
  else
    let '(temp_args, raw) :=
      loc_util_split_string (strlcpy [] proc_argument LOC_MAX_PARAM_STRING)
        (Z.of_nat LOC_PROCESS_MAX_NUM_ARGS - Z.of_nat st.2) " " in
    st ← copy_args temp_args st;
    Some (set_argumentString raw (set_args st.1 p)).

(** The fields without which a process is skipped. *)
Definition required_fields : list string :=
  ["conf.proc_name"; "conf.group_list"; "conf.platform_list"; "conf.baseband"; "conf.proc_status";
   "conf.auto_platform"; "conf.soc_id_list"].

(** The body of the loop for one process, after its parameters have been read. *)
Definition describe (d : device) (service_mask : Z) (mem : memory) : option (loc_process_info_s_type * memory) :=
  let p := set_status DISABLED zero_process_info in
  let proc_name := str_at mem "conf.proc_name" in
  if existsb (λ f, bool_decide (str_at mem f = [])) required_fields then Some (p, mem)
  else if strcmp0 proc_name (lit "xtra-daemon") && negb (isXtraDaemonEnabled d)
  then Some (set_status DISABLED_FROM_CONF p, mem)
  else if negb (isVendorEnhanced d) && negb (int_at mem "conf.vendor_enhanced_process" =? 0)%Z
  then Some (set_status DISABLED_VIA_VENDOR_ENHANCED_CHECK p, mem)
  else if strcmp0 (str_at mem "conf.proc_status") (lit "DISABLED")
  then Some (set_status DISABLED_FROM_CONF p, mem)
  else if (LOC_MAX_PARAM_STRING <? length proc_name + 1)%nat then Some (p, mem)
  else
    let p := set_name (strlcpy [] proc_name LOC_MAX_PARAM_STRING) p in
    let '(groups, mem) := split_field "conf.group_list" mem in
    '(gids, n) ← add_groups d groups (group_list p) 0;
    let p := set_groups gids n p in
    let '(platforms, mem) := split_field "conf.platform_list" mem in
    let config_mask := check_list CONFIG_MASK_TARGET_ALL CONFIG_MASK_TARGET_FOUND (platform_name d) (λ _, false) platforms 0 in
    let '(socs, mem) := split_field "conf.soc_id_list" mem in
    let config_mask := check_list CONFIG_MASK_SOCID_ALL CONFIG_MASK_SOCID_FOUND (socid_value d) (λ _, false) socs config_mask in
    let '(basebands, mem) := split_field "conf.baseband" mem in
    let sglte := λ s, strcmp0 (lit "sglte") s && negb (int_at mem "conf.sglte_target" =? 0)%Z in
    let config_mask := check_list CONFIG_MASK_BASEBAND_ALL CONFIG_MASK_BASEBAND_FOUND (baseband_name d) sglte basebands config_mask in
    let '(autos, mem) := split_field "conf.auto_platform" mem in
    let config_mask := check_auto (autoplatform_name d) autos config_mask in
    let '(low_ram, mem) := split_field "conf.low_ram_targets" mem in
    if strcmp0 (lit "DISABLED") (nth 0 low_ram []) && low_ram_target d then Some (set_status DISABLED p, mem)
    else if has config_mask CONFIG_MASK_TARGET_CHECK && has config_mask CONFIG_MASK_BASEBAND_CHECK
            && has config_mask CONFIG_MASK_AUTOPLATFORM_CHECK && has config_mask CONFIG_MASK_SOCID_CHECK
            && negb (bool_decide (proc_status p = DISABLED_FROM_CONF))
            && negb (bool_decide (proc_status p = DISABLED_VIA_VENDOR_ENHANCED_CHECK))
    then p ← launch service_mask mem p; Some (p, mem)
    else Some (p, mem).

(** ** The file *)

(** The first pass counts the names, in an unsigned char. *)
Fixpoint count_loop (fuel : nat) (proc_list_length : Z) (mem : memory) (conf_fp : str) : option (Z * memory) :=
  match fuel with
  | O => None
  | S fuel =>
    let mem := <["conf.proc_name" := CStr []]> mem in
    '(_, mem, fp) ← loc_read_conf_r (file_fuel conf_fp) (Some conf_fp) (Some loc_process_conf_parameter_table) 1 mem;
    if bool_decide (str_at mem "conf.proc_name" = []) then Some (proc_list_length, mem)
    else count_loop fuel (uwrap 8 (proc_list_length + 1)) mem (default [] fp)
  end.

(** The second pass reads the parameters of one process at a time. *)
Fixpoint processes_loop (d : device) (service_mask : Z) (n : nat) (mem : memory) (conf_fp : str) :
    option (list loc_process_info_s_type * memory) :=
  match n with
  | O => Some ([], mem)
  | S n =>
    '(_, mem, fp) ← loc_read_conf_r (file_fuel conf_fp) (Some conf_fp) (Some loc_process_conf_parameter_table)
                      (length loc_process_conf_parameter_table) mem;
    '(p, mem) ← describe d service_mask mem;
    '(ps, mem) ← processes_loop d service_mask n mem (default [] fp);
    Some (p :: ps, mem)
  end.

(** The value returned, the number of processes, their table and the memory; [None]: an
    index outside an array, or a loop that does not end. *)
Definition loc_read_process_conf (d : device) (gps_conf : str) (files : str → option str) (conf_file_name : str)
    (outputs_null : bool) (mem : memory) : option (Z * Z * option (list loc_process_info_s_type) * memory) :=
  if outputs_null then Some ((-1)%Z, 0%Z, None, mem) else
  mem ← loc_read_conf files gps_conf (Some gps_conf_parameter_table) (length gps_conf_parameter_table) mem;
  mem ← loc_read_conf files conf_file_name (Some loc_feature_conf_table) (length loc_feature_conf_table) mem;
  let service_mask := loc_service_mask d mem in
  match files conf_file_name with
  | None => Some ((-1)%Z, 0%Z, None, mem)
  | Some f =>
    '(proc_list_length, mem) ← count_loop (length f + 2) 0 mem f;
    if negb (calloc_ok d) then Some ((-1)%Z, 0%Z, None, mem) else
    '(ps, mem) ← processes_loop d service_mask (Z.to_nat proc_list_length) mem f;
    Some (0%Z, proc_list_length, Some ps, mem)
  end.

(** * What one process gets, without indices and leftovers *)

(** The parameters of one process and SGLTE_TARGET of gps.conf. *)
Record fields := Fields {
  f_proc_name : str; f_proc_argument : str; f_proc_status : str; f_groups : str;
  f_premium_feature : Z; f_loc_feature_mask : Z; f_platforms : str; f_soc_ids : str;
  f_baseband : str; f_low_ram_targets : str; f_auto_platform : str; f_vendor_enhanced : Z;
  f_sglte_target : Z
}.

Definition fields_of (mem : memory) : fields :=
  Fields (str_at mem "conf.proc_name") (str_at mem "conf.proc_argument") (str_at mem "conf.proc_status")
    (str_at mem "conf.group_list") (int_at mem "conf.premium_feature") (int_at mem "conf.loc_feature_mask")
    (str_at mem "conf.platform_list") (str_at mem "conf.soc_id_list") (str_at mem "conf.baseband")
    (str_at mem "conf.low_ram_targets") (str_at mem "conf.auto_platform") (int_at mem "conf.vendor_enhanced_process")
    (int_at mem "conf.sglte_target").

(** The first [n] words of a list. *)
Definition words (n : nat) (s : str) : list str := take n (split_on " " s).

(** A list of names allows a device: it says "all", or "all exclude" and not the device,
    or the device. *)
Definition allows (name : str) (also : str → bool) (ws : list str) : bool :=
  match ws with
  | w :: rest =>
    if strcmp0 (lit "all") w then
      match rest with
      | [] => true
      | x :: excluded => strcmp0 (lit "exclude") x && negb (existsb (strcmp0 name) excluded)
      end
    else existsb (λ s, strcmp0 name s || also s) ws
  | [] => false
  end.

Definition allows_auto (name : str) (ws : list str) : bool :=
  strcmp0 (lit "all") (nth 0 ws []) || existsb (strcmp0 name) ws.

Definition sglte (f : fields) (s : str) : bool := strcmp0 (lit "sglte") s && negb (f_sglte_target f =? 0)%Z.

(** The device is on all four lists. *)
Definition eligible (d : device) (f : fields) : bool :=
  allows (platform_name d) (λ _, false) (words 20 (f_platforms f)) &&
  allows (baseband_name d) (sglte f) (words 20 (f_baseband f)) &&
  allows_auto (autoplatform_name d) (words 20 (f_auto_platform f)) &&
  allows (socid_value d) (λ _, false) (words 20 (f_soc_ids f)).

(** A premium process needs a feature that the device has. *)
Definition licensed (service_mask : Z) (f : fields) : bool :=
  (f_premium_feature f =? 0)%Z || has (f_loc_feature_mask f) service_mask.

Definition incomplete (f : fields) : bool :=
  existsb (λ s, bool_decide (s = []))
    [f_proc_name f; f_groups f; f_platforms f; f_baseband f; f_proc_status f; f_auto_platform f; f_soc_ids f].

Definition low_ram_excluded (d : device) (f : fields) : bool :=
  strcmp0 (lit "DISABLED") (nth 0 (words 20 (f_low_ram_targets f)) []) && low_ram_target d.

(** Why a process is left out before its lists are looked at. *)
Definition left_out (d : device) (f : fields) : option loc_process_e_status :=
  if incomplete f then Some DISABLED
  else if strcmp0 (f_proc_name f) (lit "xtra-daemon") && negb (isXtraDaemonEnabled d) then Some DISABLED_FROM_CONF
  else if negb (isVendorEnhanced d) && negb (f_vendor_enhanced f =? 0)%Z then Some DISABLED_VIA_VENDOR_ENHANCED_CHECK
  else if strcmp0 (f_proc_status f) (lit "DISABLED") then Some DISABLED_FROM_CONF
  else if (LOC_MAX_PARAM_STRING <? length (f_proc_name f) + 1)%nat then Some DISABLED
  else None.

(** The options of the features that a premium process asks for. *)
Definition feature_options (asked service_mask : Z) : list str :=
  (if has asked 3 then [arg_gtp_wifi; if has service_mask 1 then arg_basic else if has service_mask 2 then arg_premium else arg_disabled] else []) ++
  (if has asked 12 then [arg_gtp_modem_cell; if has service_mask 0x400 then arg_basic else arg_disabled] else []) ++
  (if has asked 0xc0 then [arg_sap; if has service_mask 0x40 then arg_basic else if has service_mask 0x80 then arg_premium else arg_disabled] else []) ++
  (if has asked 0x100 then [arg_gtp_waa; if has service_mask 0x100 then arg_basic else arg_disabled] else []).

Definition own_args (service_mask : Z) (f : fields) : list str :=
  base_name (f_proc_name f) ::
  (if negb (f_premium_feature f =? 0)%Z && licensed service_mask f
   then feature_options (f_loc_feature_mask f) service_mask else []).

(** The name and the options first, then the words of PROCESS_ARGUMENT that fit. *)
Definition all_args (service_mask : Z) (f : fields) : list str :=
  own_args service_mask f ++
  (if bool_decide (f_proc_argument f = []) then []
   else words (25 - length (own_args service_mask f)) (take 171 (f_proc_argument f))).

(** Filled up with what calloc left. *)
Definition pad {A} (x : A) (n : nat) (l : list A) : list A := l ++ replicate (n - length l) x.

Definition described (d : device) (service_mask : Z) (f : fields) : loc_process_info_s_type :=
  match left_out d f with
  | Some status => set_status status zero_process_info
  | None =>
    let gids := omap (getgrnam d) (words 20 (f_groups f)) in
    let run := negb (low_ram_excluded d f) && eligible d f in
    ProcessInfo (if run && licensed service_mask f then ENABLED else DISABLED) 0 (f_proc_name f)
      (pad 0%Z 20 gids) (length gids)
      (if run then pad [] 25 (take 31 <$> all_args service_mask f) else replicate 25 [])
      (if run then nth 0 (split_on " " (take 171 (f_proc_argument f))) [] else [])
  end.

Lemma split_field_words field mem :
  split_field field mem = (words 20 (str_at mem field),
                           <[field := CStr (nth 0 (words 20 (str_at mem field)) [])]> mem).
Proof.
  unfold split_field, loc_util_split_string, words. rewrite split_loop_take by done. simpl.
  destruct (split_on_cons " " (str_at mem field)) as (w & ws & ->). done.
Qed.

Lemma words_cons n s : ∃ w ws, words (S n) s = w :: ws.
Proof. unfold words. destruct (split_on_cons " " s) as (w & ws & ->). simpl. eauto. Qed.

Lemma words_length n s : length (words n s) ≤ n.
Proof. unfold words. rewrite length_take. lia. Qed.

(** What a check adds to the mask. *)
Lemma check_list_adds ALL FOUND name also ws m : ws ≠ [] → Z.ldiff (Z.lor m FOUND) FOUND = m →
  ∃ g, check_list ALL FOUND name also ws m = Z.lor m g ∧
       (g = 0%Z ∧ allows name also ws = false ∨ (g = ALL ∨ g = FOUND) ∧ allows name also ws = true).
Proof.
  intros Hws Hm. destruct ws as [|w ws]; [done|]. unfold check_list, allows. cbn [nth length].
  destruct (strcmp0 (lit "all") w).
  - destruct ws as [|x ws]; [exists ALL; auto|]. cbn [nth length Nat.eqb Nat.ltb Nat.leb skipn].
    destruct (strcmp0 (lit "exclude") x).
    + destruct ws as [|y ws]; [exists ALL; auto|]. cbn [length Nat.eqb andb orb].
      change (drop 0 (y :: ws)) with (y :: ws).
      destruct (existsb (strcmp0 name) (y :: ws)); [exists 0%Z; rewrite Hm, Z.lor_0_r; auto|exists FOUND; auto].
    + rewrite !andb_false_r. exists 0%Z. rewrite Z.lor_0_r. auto.
  - destruct (existsb _ _); [exists FOUND; auto|exists 0%Z; rewrite Z.lor_0_r; auto].
Qed.

Lemma check_auto_adds name ws m :
  ∃ g, check_auto name ws m = Z.lor m g ∧
       (g = 0%Z ∧ allows_auto name ws = false ∨
        (g = CONFIG_MASK_AUTOPLATFORM_ALL ∨ g = CONFIG_MASK_AUTOPLATFORM_FOUND) ∧ allows_auto name ws = true).
Proof.
  unfold check_auto, allows_auto. destruct (strcmp0 (lit "all") (nth 0 ws [])); [eauto 6|].
  destruct (existsb _ _); [eauto 6|]. exists 0%Z. rewrite Z.lor_0_r. auto.
Qed.

(** The mask of the four checks. *)
Definition config_mask_of (d : device) (f : fields) : Z :=
  let m := check_list CONFIG_MASK_TARGET_ALL CONFIG_MASK_TARGET_FOUND (platform_name d) (λ _, false) (words 20 (f_platforms f)) 0 in
  let m := check_list CONFIG_MASK_SOCID_ALL CONFIG_MASK_SOCID_FOUND (socid_value d) (λ _, false) (words 20 (f_soc_ids f)) m in
  let m := check_list CONFIG_MASK_BASEBAND_ALL CONFIG_MASK_BASEBAND_FOUND (baseband_name d) (sglte f) (words 20 (f_baseband f)) m in
  check_auto (autoplatform_name d) (words 20 (f_auto_platform f)) m.

Lemma words_ne n s : words (S n) s ≠ [].
Proof. destruct (words_cons n s) as (w & ws & ->). done. Qed.

Lemma config_mask_eligible d f :
  has (config_mask_of d f) CONFIG_MASK_TARGET_CHECK && has (config_mask_of d f) CONFIG_MASK_BASEBAND_CHECK &&
  has (config_mask_of d f) CONFIG_MASK_AUTOPLATFORM_CHECK && has (config_mask_of d f) CONFIG_MASK_SOCID_CHECK = eligible d f.
Proof.
  unfold config_mask_of, eligible.
  destruct (check_list_adds CONFIG_MASK_TARGET_ALL CONFIG_MASK_TARGET_FOUND (platform_name d) (λ _, false) (words 20 (f_platforms f)) 0)
    as (g1 & -> & H1); [apply words_ne|done|].
  destruct (check_list_adds CONFIG_MASK_SOCID_ALL CONFIG_MASK_SOCID_FOUND (socid_value d) (λ _, false) (words 20 (f_soc_ids f)) (Z.lor 0 g1))
    as (g2 & -> & H2); [apply words_ne|by destruct H1 as [[-> _]|[[-> | ->] _]]|].
  destruct (check_list_adds CONFIG_MASK_BASEBAND_ALL CONFIG_MASK_BASEBAND_FOUND (baseband_name d) (sglte f) (words 20 (f_baseband f)) (Z.lor (Z.lor 0 g1) g2))
    as (g3 & -> & H3); [apply words_ne|by destruct H1 as [[-> _]|[[-> | ->] _]], H2 as [[-> _]|[[-> | ->] _]]|].
  destruct (check_auto_adds (autoplatform_name d) (words 20 (f_auto_platform f)) (Z.lor (Z.lor (Z.lor 0 g1) g2) g3)) as (g4 & -> & H4).
  destruct H1 as [[-> ->]|[[-> | ->] ->]], H2 as [[-> ->]|[[-> | ->] ->]], H3 as [[-> ->]|[[-> | ->] ->]], H4 as [[-> ->]|[[-> | ->] ->]]; reflexivity.
Qed.

(** Filling an array from its beginning. *)
Lemma pad_length {A} (x : A) n l : length l ≤ n → length (pad x n l) = n.
Proof. intros. unfold pad. rewrite length_app, length_replicate. lia. Qed.

Lemma pad_insert {A} (x y : A) n l : length l < n → <[length l := y]> (pad x n l) = pad x n (l ++ [y]).
Proof.
  intros Hl. unfold pad. rewrite insert_app_r_alt, Nat.sub_diag by done. rewrite length_app. simpl.
  destruct (n - length l) as [|k] eqn:E; [lia|]. replace (n - (length l + 1)) with k by lia.
  simpl. by rewrite <- app_assoc.
Qed.

Lemma push_arg_pad l s n : length l < n →
  push_arg (pad [] n l, length l) s = Some (pad [] n (l ++ [take 31 s]), length (l ++ [take 31 s])).
Proof.
  intros Hl. unfold push_arg. rewrite pad_length by lia. rewrite decide_True by done.
  unfold strlcpy, LOC_PROCESS_MAX_ARG_STR_LENGTH. rewrite pad_insert by done. by rewrite length_app, Nat.add_comm.
Qed.

Lemma push_feature_pad a b l n : length l + 1 < n →
  push_feature a b (pad [] n l, length l) =
  Some (pad [] n (l ++ (take 31 <$> [a; b])), length (l ++ (take 31 <$> [a; b]))).
Proof.
  intros Hl. unfold push_feature. rewrite push_arg_pad by lia. cbn [mbind option_bind].
  rewrite push_arg_pad by (rewrite length_app; simpl; lia). by rewrite <- app_assoc.
Qed.

Lemma copy_args_pad ws l : length l + length ws ≤ 25 →
  copy_args ws (pad [] 25 l, length l) = Some (pad [] 25 (l ++ (take 31 <$> ws)), length (l ++ (take 31 <$> ws))).
Proof.
  revert l. induction ws as [|w ws IH]; intros l Hl; [by rewrite app_nil_r|]. cbn [copy_args snd]. simpl in Hl.
  unfold LOC_PROCESS_MAX_NUM_ARGS. rewrite (proj2 (Nat.ltb_lt _ _)) by lia.
  rewrite push_arg_pad by lia. cbn [mbind option_bind]. rewrite IH by (rewrite length_app; simpl; lia). by rewrite <- app_assoc.
Qed.

Lemma add_groups_pad d names l : length l + length names ≤ 20 →
  add_groups d names (pad 0%Z 20 l) (length l) =
  Some (pad 0%Z 20 (l ++ omap (getgrnam d) names), length (l ++ omap (getgrnam d) names)).
Proof.
  revert l. induction names as [|g names IH]; intros l Hl; [by rewrite app_nil_r|]. cbn [add_groups]. simpl in Hl.
  change (omap (getgrnam d) (g :: names)) with
    (match getgrnam d g with Some y => y :: omap (getgrnam d) names | None => omap (getgrnam d) names end).
  destruct (getgrnam d g) as [gid|]; [|apply IH; lia].
  rewrite pad_length by lia. rewrite decide_True by lia. rewrite pad_insert by lia.
  specialize (IH (l ++ [gid])). rewrite length_app in IH. simpl in IH. rewrite Nat.add_1_r in IH.
  rewrite IH by lia. by rewrite <- app_assoc.
Qed.

Lemma feature_args_pad asked service l : length l + 8 < 25 →
  feature_args asked service (pad [] 25 l, length l) =
  Some (pad [] 25 (l ++ (take 31 <$> feature_options asked service)),
        length (l ++ (take 31 <$> feature_options asked service))).
Proof.
  intros Hl. unfold feature_args, feature_options.
  change (Z.lor LOC_FEATURE_MASK_GTP_WIFI_BASIC LOC_FEATURE_MASK_GTP_WIFI_PREMIUM) with 3%Z.
  change (Z.lor LOC_FEATURE_MASK_GTP_CELL_BASIC LOC_FEATURE_MASK_GTP_CELL_PREMIUM) with 12%Z.
  change (Z.lor LOC_FEATURE_MASK_SAP_BASIC LOC_FEATURE_MASK_SAP_PREMIUM) with 0xc0%Z.
  change LOC_FEATURE_MASK_GTP_WAA_BASIC with 0x100%Z.
  rewrite !fmap_app, !app_assoc.
  assert (G : ∀ (b : bool) (x y : str) (l : list str) n, length l + 1 < 25 → length l ≤ n →
    ∃ l', (if b then push_feature x y (pad [] 25 l, length l) else Some (pad [] 25 l, length l)) = Some (pad [] 25 l', length l') ∧
          l' = l ++ (take 31 <$> (if b then [x; y] else [])) ∧ length l' ≤ n + 2).
  { intros b x y k n Hk Hn. destruct b.
    - rewrite push_feature_pad by done. eexists. split_and!; [done..|]. rewrite length_app. simpl. lia.
    - exists k. split_and!; [done|by rewrite app_nil_r|lia]. }
  match goal with |- context [if has asked 3 then push_feature ?x ?y _ else _] =>
    destruct (G (has asked 3) x y l (length l)) as (l1 & E1 & H1 & L1); [lia|lia|] end.
  rewrite E1. cbn [mbind option_bind].
  match goal with |- context [if has asked 12 then push_feature ?x ?y _ else _] =>
    destruct (G (has asked 12) x y l1 (length l + 2)) as (l2 & E2 & H2 & L2); [lia|lia|] end. rewrite E2. cbn [mbind option_bind].
  match goal with |- context [if has asked 0xc0 then push_feature ?x ?y _ else _] =>
    destruct (G (has asked 0xc0) x y l2 (length l + 4)) as (l3 & E3 & H3 & L3); [lia|lia|] end. rewrite E3. cbn [mbind option_bind].
  match goal with |- context [if has asked 0x100 then push_feature ?x ?y _ else _] =>
    destruct (G (has asked 0x100) x y l3 (length l + 6)) as (l4 & E4 & H4 & L4); [lia|lia|] end. rewrite E4. by subst l1 l2 l3 l4.
Qed.

Lemma feature_options_length asked service : length (feature_options asked service) ≤ 8.
Proof. unfold feature_options. rewrite !length_app. repeat case_match; simpl; lia. Qed.

Lemma own_args_length service f : length (own_args service f) ≤ 9.
Proof.
  unfold own_args. simpl. pose proof (feature_options_length (f_loc_feature_mask f) service).
  destruct (negb _ && _); simpl; lia.
Qed.

Lemma launch_described service mem p :
  name p = f_proc_name (fields_of mem) → args p = pad [] 25 [] → proc_status p = DISABLED → argumentString p = [] →
  launch service mem p =
  Some (ProcessInfo (if licensed service (fields_of mem) then ENABLED else DISABLED) (proc_id p) (name p) (group_list p) (num_groups p)
          (pad [] 25 (take 31 <$> all_args service (fields_of mem)))
          (nth 0 (split_on " " (take 171 (f_proc_argument (fields_of mem)))) [])).
Proof.
  intros Hname Hargs Hstatus Hstring. set (f := fields_of mem) in *. unfold launch.
  change (int_at mem "conf.premium_feature") with (f_premium_feature f).
  change (int_at mem "conf.loc_feature_mask") with (f_loc_feature_mask f).
  change (str_at mem "conf.proc_argument") with (f_proc_argument f).
  rewrite Hargs, Hname. change 0 with (length (@nil str)) at 1. rewrite push_arg_pad by (simpl; lia). cbn [mbind option_bind app].
  match goal with |- ?m ≫= _ = _ =>
    assert (E : m = Some (if licensed service f then ENABLED else DISABLED,
                          (pad [] 25 (take 31 <$> own_args service f), length (take 31 <$> own_args service f)))) end.
  { unfold own_args, licensed. destruct (f_premium_feature f =? 0)%Z; [done|]. cbn [orb negb andb].
    destruct (has (f_loc_feature_mask f) service); [|by rewrite Hstatus].
    rewrite (feature_args_pad _ _ [take 31 (base_name (f_proc_name f))]) by (simpl; lia). done. }
  rewrite E. cbn [mbind option_bind snd]. unfold all_args. pose proof (own_args_length service f) as Hl.
  destruct (bool_decide (f_proc_argument f = [])) eqn:Ea.
  - apply bool_decide_eq_true in Ea. rewrite Ea, app_nil_r. destruct p; simpl in *. by subst.
  - unfold loc_util_split_string. rewrite length_fmap, split_loop_take by (unfold LOC_PROCESS_MAX_NUM_ARGS; cbn [length]; lia). cbn [app rev].
    unfold strlcpy, LOC_MAX_PARAM_STRING, LOC_PROCESS_MAX_NUM_ARGS.
    replace (Z.to_nat (Z.of_nat 25 - Z.of_nat (length (own_args service f))) - length (@nil str))
      with (25 - length (own_args service f)) by (cbn [length]; lia).
    replace (match split_on " " (take 171 (f_proc_argument f)) with [] => [] | w :: ws => w :: ws end)
      with (split_on " " (take 171 (f_proc_argument f))) by (by destruct (split_on _ _)).
    fold (words (25 - length (own_args service f)) (take 171 (f_proc_argument f))).
    pose proof (words_length (25 - length (own_args service f)) (take 171 (f_proc_argument f))) as Hw.
    pose proof (copy_args_pad (words (25 - length (own_args service f)) (take 171 (f_proc_argument f)))
      (take 31 <$> own_args service f)) as Hc. rewrite length_fmap in Hc.
    rewrite Hc by lia.
    cbn [mbind option_bind fst]. rewrite fmap_app. unfold set_argumentString, set_args, set_status.
    cbn [proc_status proc_id name group_list num_groups args argumentString]. rewrite Hname.
    replace (default [] (head (words (25 - length (own_args service f)) (take 171 (f_proc_argument f)))))
      with (nth 0 (split_on " " (take 171 (f_proc_argument f))) []); [done|].
    destruct (25 - length (own_args service f)) eqn:Ek; [lia|]. unfold words.
    by destruct (split_on_cons " " (take 171 (f_proc_argument f))) as (w & ws & ->).
Qed.

Lemma str_at_ne (mem : memory) p q v : p ≠ q → str_at (<[p := v]> mem) q = str_at mem q.
Proof. intros. unfold str_at. by rewrite lookup_insert_ne. Qed.
Lemma int_at_ne (mem : memory) p q v : p ≠ q → int_at (<[p := v]> mem) q = int_at mem q.
Proof. intros. unfold int_at. by rewrite lookup_insert_ne. Qed.

(** The fields that the body overwrites. *)
Definition split_fields : list string :=
  ["conf.group_list"; "conf.platform_list"; "conf.soc_id_list"; "conf.baseband"; "conf.auto_platform"; "conf.low_ram_targets"].

(** What the launch of a process looks at. *)
Lemma licensed_ext service f g :
  f_proc_name f = f_proc_name g → f_proc_argument f = f_proc_argument g →
  f_premium_feature f = f_premium_feature g → f_loc_feature_mask f = f_loc_feature_mask g →
  licensed service f = licensed service g ∧ all_args service f = all_args service g.
Proof. intros H1 H2 H3 H4. unfold all_args, own_args, licensed. by rewrite H1, H2, H3, H4. Qed.

(** The body of the loop computes [described], whatever is left in [conf] from before. *)
Lemma describe_described d service mem : ∃ mem',
  describe d service mem = Some (described d service (fields_of mem), mem') ∧
  ∀ x, x ∉ split_fields → mem' !! x = mem !! x.
Proof.
  set (f := fields_of mem). unfold describe, described, left_out.
  change (existsb _ required_fields) with (incomplete f).
  change (str_at mem "conf.proc_name") with (f_proc_name f). change (str_at mem "conf.proc_status") with (f_proc_status f).
  change (int_at mem "conf.vendor_enhanced_process") with (f_vendor_enhanced f).
  destruct (incomplete f); [by exists mem|]. destruct (strcmp0 (f_proc_name f) _ && _); [by exists mem|].
  destruct (negb (isVendorEnhanced d) && _); [by exists mem|]. destruct (strcmp0 (f_proc_status f) _); [by exists mem|].
  destruct (LOC_MAX_PARAM_STRING <? length (f_proc_name f) + 1)%nat eqn:Hlen; [by exists mem|].
  apply Nat.ltb_ge in Hlen. unfold LOC_MAX_PARAM_STRING in Hlen.
  rewrite !split_field_words. repeat (rewrite ?str_at_ne, ?int_at_ne by done; rewrite ?split_field_words).
  change (str_at mem "conf.group_list") with (f_groups f). change (str_at mem "conf.platform_list") with (f_platforms f).
  change (str_at mem "conf.soc_id_list") with (f_soc_ids f). change (str_at mem "conf.baseband") with (f_baseband f).
  change (str_at mem "conf.auto_platform") with (f_auto_platform f).
  change (str_at mem "conf.low_ram_targets") with (f_low_ram_targets f).
  assert (Hname : strlcpy [] (f_proc_name f) LOC_MAX_PARAM_STRING = f_proc_name f) by (apply take_ge; lia).
  rewrite Hname. cbn [set_name set_status group_list zero_process_info].
  pose proof (add_groups_pad d (words 20 (f_groups f)) [] (words_length 20 _)) as Hg.
  change (add_groups d (words 20 (f_groups f)) (replicate LOC_PROCESS_MAX_NUM_GROUPS 0%Z) 0)
    with (add_groups d (words 20 (f_groups f)) (pad 0%Z 20 []) (length (@nil Z))). rewrite Hg. cbn [mbind option_bind app].
  unfold low_ram_excluded.
  set (mem5 := <["conf.low_ram_targets" := _]> _).
  assert (Hmem : ∀ x, x ∉ split_fields → mem5 !! x = mem !! x).
  { intros x Hx. unfold split_fields in Hx. subst mem5. repeat rewrite lookup_insert_ne by set_solver. done. }
  destruct (strcmp0 (lit "DISABLED") (nth 0 (words 20 (f_low_ram_targets f)) []) && low_ram_target d); [by exists mem5|].
  pose proof (config_mask_eligible d f) as Hel. unfold config_mask_of in Hel.
  change (λ s, strcmp0 (lit "sglte") s && negb (int_at mem "conf.sglte_target" =? 0)%Z) with (sglte f).
  rewrite Hel. cbn [proc_status negb andb]. rewrite !bool_decide_false by done. cbn [negb]. rewrite !andb_true_r.
  destruct (eligible d f); [|by exists mem5].
  assert (Hn : ∀ q, q ∉ split_fields → str_at mem5 q = str_at mem q ∧ int_at mem5 q = int_at mem q).
  { intros q Hq. unfold str_at, int_at. by rewrite Hmem. }
  assert (Hf : f_proc_name (fields_of mem5) = f_proc_name f ∧ f_proc_argument (fields_of mem5) = f_proc_argument f ∧
    f_premium_feature (fields_of mem5) = f_premium_feature f ∧ f_loc_feature_mask (fields_of mem5) = f_loc_feature_mask f).
  { split_and!; [apply (Hn "conf.proc_name")|apply (Hn "conf.proc_argument")|apply (Hn "conf.premium_feature")|
      apply (Hn "conf.loc_feature_mask")]; by apply (bool_decide_unpack _). }
  destruct Hf as (F1 & F2 & F3 & F4).
  rewrite launch_described by done. destruct (licensed_ext service (fields_of mem5) f) as [-> ->]; [done..|].
  rewrite F2. by exists mem5.
Qed.

(** * Any file: the function returns, within its arrays *)

Lemma read_conf_r_total f t n mem :
  ∃ mem' rest, loc_read_conf_r (file_fuel f) (Some f) t n mem = Some (0%Z, mem', Some rest).
Proof.
  unfold loc_read_conf_r, loc_read_conf_r_long.
  destruct (conf_read_loop_total LOC_MAX_PARAM_STRING t n ltac:(done) (file_fuel f) (Z.of_nat n)
    (match t with Some t => clear_flags (take n t) mem | None => mem end) f) as [[m r] ->]; [unfold file_fuel; lia|].
  by exists m, r.
Qed.

Lemma read_conf_total files name t n mem : is_Some (loc_read_conf files name t n mem).
Proof.
  unfold loc_read_conf, loc_read_conf_long. destruct (files name) as [f|]; [|by eauto].
  destruct (negb (n =? 0)%nat && negb (is_null t)).
  - destruct (read_conf_r_total f t n mem) as (m & r & E). unfold loc_read_conf_r in E. rewrite E. cbn [mbind option_bind].
    destruct (read_conf_r_total f (Some loc_param_table) loc_param_num m) as (m' & r' & E'). unfold loc_read_conf_r in E'. rewrite E'. by eauto.
  - cbn [mbind option_bind].
    destruct (read_conf_r_total f (Some loc_param_table) loc_param_num mem) as (m' & r' & E'). unfold loc_read_conf_r in E'. rewrite E'. by eauto.
Qed.










(** * A file of processes *)

Abbreviation pt := loc_process_conf_parameter_table (only parsing).

Lemma process_table_good : good_table pt ∧ good_table (take 1 pt).
Proof. split; (split_and!; [by apply (bool_decide_unpack _)..|]; repeat constructor; set_solver). Qed.

(** The lines of one process: each of the twelve parameters once, in any order, among others. *)
Definition complete_block (b : list line) : Prop := NoDup (given pt b) ∧ length (given pt b) = 12.

Definition block_str (b : list line) (key : string) : str :=
  match setting_of (lit key) b with Some v => if bool_decide (v = lit "NULL") then [] else v | None => [] end.
Definition block_int (b : list line) (key : string) : Z :=
  match setting_of (lit key) b with Some v => int_of_text v | None => 0%Z end.

Definition block_fields (sglte_target : Z) (b : list line) : fields :=
  Fields (block_str b "PROCESS_NAME") (block_str b "PROCESS_ARGUMENT") (block_str b "PROCESS_STATE")
    (block_str b "PROCESS_GROUPS") (block_int b "PREMIUM_FEATURE") (block_int b "IZAT_FEATURE_MASK")
    (block_str b "PLATFORMS") (block_str b "SOC_IDS") (block_str b "BASEBAND") (block_str b "LOW_RAM_TARGETS")
    (block_str b "HARDWARE_TYPE") (block_int b "VENDOR_ENHANCED_PROCESS") sglte_target.

Lemma given_app table x y : given table (x ++ y) = given table x ++ given table y.
Proof. unfold given. apply omap_app. Qed.

Lemma upto_app table k x y : length (given table x) = k → ∃ a b,
  upto table k (x ++ y) = (a, b ++ y) ∧ x = a ++ b ∧ given table b = [].
Proof.
  revert k. induction x as [|l x IH]; intros k Hk.
  - simpl in Hk. subst k. exists [], []. split_and!; [|done..]. by destruct y.
  - rewrite given_cons in Hk. destruct k as [|k].
    + exists [], (l :: x). split_and!; [done..|]. rewrite given_cons.
      destruct (line_entry table l) as [[e v]|]; [done|]. by apply nil_length_inv.
    + cbn [app upto]. destruct (line_entry table l) as [[e v]|].
      * destruct (IH k) as (a & b & -> & -> & Hb); [simpl in Hk; lia|]. by exists (l :: a), b.
      * destruct (IH (S k)) as (a & b & -> & -> & Hb); [done|]. by exists (l :: a), b.
Qed.

Lemma setting_of_app n x y : setting_of n (x ++ y) = match setting_of n x with Some v => Some v | None => setting_of n y end.
Proof. induction x as [|[p0 key p1 p2 v p3|t] x IH]; cbn [app setting_of]; [done| |done]. by destruct (decide (key = n)). Qed.

Lemma given_setting table n ls : n ∈ given table ls → is_Some (setting_of n ls).
Proof.
  induction ls as [|l ls IH]; [by intros ?%elem_of_nil|]. rewrite given_cons.
  destruct (line_entry table l) as [[e v]|] eqn:E.
  - destruct (line_entry_some _ _ _ _ E) as (_ & p0 & p1 & p2 & val & p3 & -> & _). cbn [setting_of].
    rewrite elem_of_cons. intros [->|H]; [rewrite decide_True by done; eauto|]. destruct (decide _); eauto.
  - intros H. apply IH in H. destruct l as [p0 key p1 p2 v p3|t]; [|done]. cbn [setting_of]. destruct (decide _); eauto.
Qed.

(** A complete block has every parameter. *)
Lemma complete_names b : complete_block b → given pt b ≡ₚ param_name <$> pt.
Proof.
  intros [Hn Hl]. apply submseteq_length_Permutation; [|by rewrite Hl].
  apply NoDup_submseteq; [done|]. apply Forall_forall, given_names.
Qed.

Lemma complete_has b e : complete_block b → e ∈ pt → is_Some (setting_of (param_name e) b).
Proof. intros Hb He. apply (given_setting pt). rewrite complete_names by done. apply list_elem_of_fmap. eauto. Qed.

(** Lines read with the table, whatever came before. *)
Lemma read_lines n ls mem : n ≤ 12 → good_table (take n pt) → Forall (line_ok LOC_MAX_PARAM_STRING) ls →
  loc_read_conf_r (file_fuel (text ls)) (Some (text ls)) (Some pt) n mem =
  (let '(a, b) := upto (take n pt) n ls in
   Some (0%Z, apply_lines LOC_MAX_PARAM_STRING (take n pt) mem a, Some (text b))).
Proof.
  intros Hn Ht Hls.
  unfold loc_read_conf_r, loc_read_conf_r_long.
  assert (Hc : clear_flags (take n pt) mem = mem) by (do 13 (destruct n as [|n]; [done|]); lia).
  cbv beta iota zeta.
  rewrite Hc, conf_read_loop_lines; [by destruct (upto (take n pt) n ls)|unfold LOC_MAX_PARAM_STRING; lia|done|done|apply text_fuel|lia].
Qed.

Lemma block_lines a b2 junk b mem : complete_block b → Forall (line_ok LOC_MAX_PARAM_STRING) a →
  junk ++ b = a ++ b2 → given pt junk = [] → given pt b2 = [] →
  fields_of (apply_lines LOC_MAX_PARAM_STRING pt mem a) = block_fields (int_at mem "conf.sglte_target") b.
Proof.
  intros Hb Ha Hab Hj Hb2. destruct process_table_good as [Hgood _].
  assert (Hg : given pt a = given pt b).
  { pose proof (f_equal (given pt) Hab) as H. rewrite !given_app, Hj, Hb2, app_nil_r in H. by rewrite <- H. }
  assert (Hs : ∀ e, e ∈ pt → setting_of (param_name e) a = setting_of (param_name e) b).
  { intros e He. pose proof (f_equal (setting_of (param_name e)) Hab) as H. rewrite !setting_of_app in H.
    rewrite (setting_not_given pt e junk), (setting_not_given pt e b2) in H by (done || rewrite ?Hj, ?Hb2; apply not_elem_of_nil).
    rewrite H. by destruct (setting_of (param_name e) a). }
  assert (Hv : ∀ e p, e ∈ pt → param_ptr e = Some p →
    apply_lines LOC_MAX_PARAM_STRING pt mem a !! p = (λ v, param_value e v) <$> setting_of (param_name e) b).
  { intros e p He Hp. rewrite (apply_lines_at _ pt a e) by (done || (unfold locs; rewrite Hp; set_solver) || (rewrite Hg; apply Hb)).
    destruct (complete_has b e Hb He) as [v Ev]. rewrite Hs, Ev by done. simpl. rewrite bool_decide_true by done.
    rewrite stored_param_value; [done|]. eapply setting_of_ok; [done|]. by rewrite Hs. }
  assert (Hall : Forall (λ e, ∀ p, param_ptr e = Some p →
    (param_type e = "s"%char → str_at (apply_lines LOC_MAX_PARAM_STRING pt mem a) p =
       match setting_of (param_name e) b with Some v => if bool_decide (v = lit "NULL") then [] else v | None => [] end) ∧
    (param_type e = "n"%char → int_at (apply_lines LOC_MAX_PARAM_STRING pt mem a) p =
       match setting_of (param_name e) b with Some v => int_of_text v | None => 0%Z end)) pt).
  { apply Forall_forall. intros e He p Hp. unfold str_at, int_at. rewrite (Hv e p He Hp).
    destruct (setting_of (param_name e) b) as [v|]; [|done]. simpl. unfold param_value.
    split; intros Ht; rewrite Ht; done. }
  assert (Hs0 : int_at (apply_lines LOC_MAX_PARAM_STRING pt mem a) "conf.sglte_target" = int_at mem "conf.sglte_target").
  { unfold int_at. by rewrite apply_lines_off by (by apply (bool_decide_unpack _)). }
  clear -Hall Hs0. revert Hall Hs0. generalize (apply_lines LOC_MAX_PARAM_STRING pt mem a). intros m Hall Hs0.
  unfold fields_of, block_fields, block_str, block_int.
  repeat (apply Forall_cons in Hall as [H Hall]; specialize (H _ eq_refl); cbn [param_name param_type] in H;
          first [pose proof (proj1 H eq_refl)|pose proof (proj2 H eq_refl)]; clear H).
  by f_equal.
Qed.

(** The second pass: one entry for each block, from the block alone. *)
Lemma processes_loop_blocks d service blocks post junk mem :
  Forall (line_ok LOC_MAX_PARAM_STRING) (junk ++ concat blocks ++ post) → Forall complete_block blocks →
  given pt junk = [] → ∃ mem',
  processes_loop d service (length blocks) mem (text (junk ++ concat blocks ++ post)) =
  Some (map (λ b, described d service (block_fields (int_at mem "conf.sglte_target") b)) blocks, mem').
Proof.
  intros Hls Hb. revert junk mem Hls. induction Hb as [|b blocks Hb _ IH]; intros junk mem Hls Hj; [by exists mem|].
  cbn [concat length processes_loop map] in *. rewrite <- app_assoc, app_assoc in *.
  rewrite read_lines; [|done|apply process_table_good|done].
  change (take (length pt) pt) with pt. change (length pt) with 12.
  destruct (upto_app pt 12 (junk ++ b) (concat blocks ++ post)) as (a & b2 & -> & Hab & Hb2).
  { rewrite given_app, Hj. apply Hb. }
  cbn [mbind option_bind from_option id].
  rewrite Hab, <- app_assoc in Hls. apply Forall_app in Hls as [Ha Hls].
  destruct (describe_described d service (apply_lines LOC_MAX_PARAM_STRING pt mem a)) as (m & -> & Hm). cbn [mbind option_bind].
  assert (Hs : int_at m "conf.sglte_target" = int_at mem "conf.sglte_target").
  { unfold int_at. rewrite Hm by (by apply (bool_decide_unpack _)).
    by rewrite apply_lines_off by (by apply (bool_decide_unpack _)). }
  destruct (IH b2 m Hls Hb2) as (m' & ->). cbn [mbind option_bind]. exists m'.
  rewrite (block_lines a b2 junk b) by done. by rewrite Hs.
Qed.

(** The first pass counts the lines that give PROCESS_NAME. *)
Definition null_name (l : line) : bool :=
  match l with Setting _ key _ _ val _ => strcmp0 key (lit "PROCESS_NAME") && strcmp0 val (lit "NULL") | Other _ => false end.
Definition not_null_names (ls : list line) : Prop := Forall (λ l, null_name l = false) ls.

Lemma setting_of_in n ls v : setting_of n ls = Some v → ∃ p0 p1 p2 p3, Setting p0 n p1 p2 v p3 ∈ ls.
Proof.
  induction ls as [|[p0 key p1 p2 val p3|t] ls IH]; cbn [setting_of]; [done| |].
  - destruct (decide (key = n)) as [->|]; [intros [= ->]; set_solver|]. intros H. destruct (IH H) as (?&?&?&?&?). set_solver.
  - intros H. destruct (IH H) as (?&?&?&?&?). set_solver.
Qed.

Definition name_entry : loc_param_s_type := Param (lit "PROCESS_NAME") (Some "conf.proc_name") None "s".

Lemma name_entry_in : name_entry ∈ take 1 pt.
Proof. apply list_elem_of_here. Qed.

(** The name after reading lines without a name, and lines with one. *)
Lemma read_no_name a mem : given (take 1 pt) a = [] →
  str_at (apply_lines LOC_MAX_PARAM_STRING (take 1 pt) mem a) "conf.proc_name" = str_at mem "conf.proc_name".
Proof.
  intros Ha. destruct process_table_good as [_ Hgood]. unfold str_at.
  rewrite (apply_lines_at _ _ a name_entry)
    by (done || apply name_entry_in || (rewrite Ha; constructor) || (unfold locs; simpl; set_solver)).
  rewrite (setting_not_given (take 1 pt)); [done..|apply name_entry_in|rewrite Ha; apply not_elem_of_nil].
Qed.

Lemma read_name a mem : Forall (line_ok LOC_MAX_PARAM_STRING) a → not_null_names a →
  given (take 1 pt) a = [lit "PROCESS_NAME"] →
  str_at (apply_lines LOC_MAX_PARAM_STRING (take 1 pt) mem a) "conf.proc_name" ≠ [].
Proof.
  intros Hla Hna Hga. destruct process_table_good as [_ Hgood].
  destruct (given_setting (take 1 pt) (lit "PROCESS_NAME") a) as [v Ev]; [rewrite Hga; set_solver|].
  destruct (setting_of_in _ _ _ Ev) as (p0 & p1 & p2 & p3 & Hin). unfold not_null_names in Hna. rewrite Forall_forall in Hna.
  assert (Hnull : v ≠ lit "NULL") by (by intros ->; apply Hna in Hin). pose proof Hla as Hla'. rewrite Forall_forall in Hla'.
  destruct (Hla' _ Hin) as (_ & _ & _ & _ & _ & Ht & _).
  unfold str_at. rewrite (apply_lines_at _ _ a name_entry)
    by (done || apply name_entry_in || (rewrite Hga; by apply NoDup_singleton) || (unfold locs; simpl; set_solver)).
  change (param_name name_entry) with (lit "PROCESS_NAME"). rewrite Ev, bool_decide_true by done.
  rewrite (stored_param_value _ name_entry) by (eapply setting_of_ok; [apply Hla|done]).
  unfold param_value, strcmp0. cbn [param_type name_entry]. rewrite decide_True by done.
  rewrite bool_decide_false by done. by apply trimmed_ne.
Qed.

Lemma first_given ls : given (take 1 pt) ls ≠ [] → ∃ a b,
  upto (take 1 pt) 1 ls = (a, b) ∧ ls = a ++ b ∧ given (take 1 pt) a = [lit "PROCESS_NAME"].
Proof.
  intros Hne. assert (∃ x y, ls = x ++ y ∧ length (given (take 1 pt) x) = 1) as (x & y & -> & Hx).
  { induction ls as [|l ls IH]; [done|]. rewrite given_cons in Hne. destruct (line_entry (take 1 pt) l) as [[e' v]|] eqn:E.
    - exists [l], ls. split; [done|]. by rewrite given_cons, E.
    - destruct (IH Hne) as (x & y & -> & Hx). exists (l :: x), y. split; [done|]. by rewrite given_cons, E. }
  destruct (upto_app (take 1 pt) 1 x y Hx) as (a & b & E & -> & Hb). exists a, (b ++ y).
  split_and!; [done|by rewrite app_assoc|]. rewrite given_app, Hb, app_nil_r in Hx.
  pose proof (given_names (take 1 pt) a) as Hn. destruct (given (take 1 pt) a) as [|k [|? ?]]; [done| |done].
  apply Forall_cons in Hn as [Hn _]. f_equal. change (param_name <$> take 1 pt) with [lit "PROCESS_NAME"] in Hn. set_solver.
Qed.

Lemma count_loop_lines fuel c ls mem :
  Forall (line_ok LOC_MAX_PARAM_STRING) ls → not_null_names ls →
  length (given (take 1 pt) ls) < fuel → (0 ≤ c < 2 ^ 8)%Z →
  ∃ mem', count_loop fuel c mem (text ls) = Some (uwrap 8 (c + Z.of_nat (length (given (take 1 pt) ls))), mem') ∧
          int_at mem' "conf.sglte_target" = int_at mem "conf.sglte_target".
Proof.
  revert c ls mem. induction fuel as [|fuel IH]; intros c ls mem Hls Hnn Hf Hc; [lia|]. cbn [count_loop].
  destruct process_table_good as [_ Hgood]. rewrite read_lines; [|lia|done|done].
  set (mem0 := <["conf.proc_name" := CStr []]> mem).
  assert (Hs : ∀ a, int_at (apply_lines LOC_MAX_PARAM_STRING (take 1 pt) mem0 a) "conf.sglte_target" = int_at mem "conf.sglte_target").
  { intros a. unfold int_at. rewrite apply_lines_off by (by apply (bool_decide_unpack _)). subst mem0. by rewrite lookup_insert_ne. }
  destruct (decide (given (take 1 pt) ls = [])) as [Eg|Eg].
  - pose proof (upto_parts (take 1 pt) 1 ls) as Hu. destruct (upto (take 1 pt) 1 ls) as [a b]. destruct Hu as [-> Hu].
    cbn [mbind option_bind]. pose proof Eg as Eg'. rewrite given_app in Eg'. apply app_eq_nil in Eg' as [Ega _].
    rewrite read_no_name by done. rewrite bool_decide_true by (unfold str_at; subst mem0; by rewrite lookup_insert_eq).
    rewrite Eg. cbn [length]. rewrite Z.add_0_r, uwrap_small by done. eauto.
  - destruct (first_given ls Eg) as (a & b & -> & -> & Hga). cbn [mbind option_bind from_option id].
    apply Forall_app in Hls as [Hla Hls]. apply Forall_app in Hnn as [Hna Hnn].
    rewrite bool_decide_false by by apply read_name.
    rewrite given_app, Hga in *. cbn [length app] in *.
    destruct (IH (uwrap 8 (c + 1)) b (apply_lines LOC_MAX_PARAM_STRING (take 1 pt) mem0 a)) as (m & E & Hm);
      [done|done|lia|by apply uwrap_range|].
    exists m. rewrite Hm, Hs. split; [|done]. rewrite E. do 2 f_equal. unfold uwrap.
    rewrite Zplus_mod_idemp_l. f_equal. lia.
Qed.

(** PROCESS_NAME among the parameters of a block. *)
Lemma line_entry_name l :
  is_Some (line_entry (take 1 pt) l) ↔ ∃ e v, line_entry pt l = Some (e, v) ∧ param_name e = lit "PROCESS_NAME".
Proof.
  destruct process_table_good as [Hg Hg1]. split.
  - intros [[e v] E]. apply line_entry_some in E as (He & p0 & p1 & p2 & val & p3 & -> & _).
    apply list_elem_of_singleton in He as ->. exists name_entry. eexists. split; [|done].
    apply (line_entry_here pt name_entry); [done|]. apply list_elem_of_here.
  - intros (e & v & E & En). apply line_entry_some in E as (He & p0 & p1 & p2 & val & p3 & -> & _). rewrite En.
    rewrite (line_entry_here (take 1 pt) name_entry) by (done || apply name_entry_in). eauto.
Qed.

Lemma given_name ls : length (given (take 1 pt) ls) = length (filter (λ k, k = lit "PROCESS_NAME") (given pt ls)).
Proof.
  induction ls as [|l ls IH]; [done|]. rewrite !given_cons. pose proof (line_entry_name l) as [H1 H2].
  destruct (line_entry (take 1 pt) l) as [[e1 v1]|], (line_entry pt l) as [[e v]|].
  - destruct H1 as (e' & v' & [= <- <-] & En); [eauto|]. rewrite filter_cons_True by done. cbn [length]. by rewrite IH.
  - by destruct H1 as (? & ? & ? & _); [eauto|].
  - rewrite filter_cons_False; [done|]. intros En. by destruct H2 as [? ?]; [eauto|].
  - done.
Qed.

Lemma complete_block_name b : complete_block b → length (given (take 1 pt) b) = 1.
Proof. intros Hb. rewrite given_name. by rewrite complete_names. Qed.

Lemma blocks_names blocks post : Forall complete_block blocks → given pt post = [] →
  length (given (take 1 pt) (concat blocks ++ post)) = length blocks.
Proof.
  intros Hb Hp. rewrite given_app, length_app, (given_name post), Hp. simpl. rewrite Nat.add_0_r.
  induction Hb as [|b blocks Hb _ IH]; [done|]. cbn [concat length]. rewrite given_app, length_app, complete_block_name by done. lia.
Qed.

(** What the function does on a file of complete blocks: the count is taken modulo 256. *)
Lemma process_conf_blocks d gps_conf files conf_file_name mem blocks post :
  let ls := concat blocks ++ post in
  files conf_file_name = Some (text ls) → Forall (line_ok LOC_MAX_PARAM_STRING) ls → not_null_names ls →
  Forall complete_block blocks → given pt post = [] → calloc_ok d = true →
  ∃ m1 m2 mem',
    loc_read_conf files gps_conf (Some gps_conf_parameter_table) (length gps_conf_parameter_table) mem = Some m1 ∧
    loc_read_conf files conf_file_name (Some loc_feature_conf_table) (length loc_feature_conf_table) m1 = Some m2 ∧
    let n := uwrap 8 (Z.of_nat (length blocks)) in
    loc_read_process_conf d gps_conf files conf_file_name false mem =
    Some (0%Z, n, Some (map (λ b, described d (loc_service_mask d m2) (block_fields (int_at m2 "conf.sglte_target") b))
                            (take (Z.to_nat n) blocks)), mem').
Proof.
  intros ls Hf Hls Hnn Hb Hp Hc. unfold loc_read_process_conf.
  destruct (read_conf_total files gps_conf (Some gps_conf_parameter_table) (length gps_conf_parameter_table) mem) as [m1 E1].
  destruct (read_conf_total files conf_file_name (Some loc_feature_conf_table) (length loc_feature_conf_table) m1) as [m2 E2].
  rewrite E1. cbn [mbind option_bind]. rewrite E2. cbn [mbind option_bind]. rewrite Hf.
  pose proof (blocks_names blocks post Hb Hp) as Hn. fold ls in Hn.
  destruct (count_loop_lines (length (text ls) + 2) 0 ls m2) as (m3 & -> & Hs); [done|done| |lia|].
  { rewrite Hn. pose proof (text_fuel ls) as Ht. unfold file_fuel in Ht.
    enough (length blocks ≤ length ls) by lia. rewrite <- Hn.
    clear. induction ls as [|l ls IH]; [done|]. rewrite given_cons. destruct (line_entry (take 1 pt) l) as [[e v]|]; cbn [length]; lia. }
  cbn [mbind option_bind]. rewrite Hc, Hn, Z.add_0_l. cbn [negb]. set (n := uwrap 8 (Z.of_nat (length blocks))).
  assert (Hle : Z.to_nat n ≤ length blocks).
  { subst n. unfold uwrap. pose proof (Z.mod_le (Z.of_nat (length blocks)) (2 ^ 8)). lia. }
  pose proof (take_drop (Z.to_nat n) blocks) as Htd.
  destruct (processes_loop_blocks d (loc_service_mask d m2) (take (Z.to_nat n) blocks) (concat (drop (Z.to_nat n) blocks) ++ post) [] m3)
    as (m4 & Hloop).
  - simpl app. rewrite app_assoc, <- concat_app, Htd. done.
  - by apply Forall_take.
  - done.
  - simpl app in Hloop. rewrite app_assoc, <- concat_app, Htd in Hloop. fold ls in Hloop.
    rewrite length_take, Nat.min_l in Hloop by done. rewrite Hloop. cbn [mbind option_bind]. rewrite Hs. by exists m1, m2, m4.
Qed.

(** C24: loc_read_process_conf on a file of complete blocks, each with the twelve parameters once:
    there is one entry for each block, in their order, and it is [described] by the block alone,
    whatever the blocks before it and the order of its parameters: not run when a list is missing,
    when the file or a property disables it, when the device is low on memory or on none of its
    platform, SoC, baseband and hardware lists, or when it is premium and the device has none of
    its features; otherwise enabled, with its name; its arguments are its base name, the options of the
    features it asks for and the words of the first 171 characters of the file's argument, at most
    25 of them, each cut to 31 characters; with the groups the system knows among the first 20.
    The features are those of the same file and SGLTE_TARGET is that of gps.conf. There are fewer
    than 256 blocks, no name is "NULL", nothing after the last block gives a parameter, no line
    exceeds the buffer, every line with a "=" has a name and a value, and memory is not exhausted. *)
Theorem process_conf_refines d gps_conf files conf_file_name mem blocks post :
  let ls := concat blocks ++ post in
  files conf_file_name = Some (text ls) → Forall (line_ok LOC_MAX_PARAM_STRING) ls → not_null_names ls →
  Forall complete_block blocks → given pt post = [] → length blocks < 256 → calloc_ok d = true →
  ∃ m1 m2 mem',
    loc_read_conf files gps_conf (Some gps_conf_parameter_table) (length gps_conf_parameter_table) mem = Some m1 ∧
    loc_read_conf files conf_file_name (Some loc_feature_conf_table) (length loc_feature_conf_table) m1 = Some m2 ∧
    loc_read_process_conf d gps_conf files conf_file_name false mem =
    Some (0%Z, Z.of_nat (length blocks),
          Some (map (λ b, described d (loc_service_mask d m2) (block_fields (int_at m2 "conf.sglte_target") b)) blocks), mem').
Proof.
  intros ls Hf Hls Hnn Hb Hp Hlen Hc.
  destruct (process_conf_blocks d gps_conf files conf_file_name mem blocks post) as (m1 & m2 & m' & E1 & E2 & E); [done..|].
  exists m1, m2, m'. split_and!; [done..|]. cbv zeta in E. rewrite uwrap_small in E by lia.
  by rewrite Nat2Z.id, firstn_all in E.
Qed.

(** ** A file of two processes *)

(** Strings without spaces or special characters. *)
Definition plain (s : str) : bool :=
  negb (bool_decide (s = [])) &&
  forallb (λ c, negb (isspace c) && negb (bool_decide (c ∈ [NUL; NL; "="%char]))) s.

Lemma plain_spec s : plain s = true → trimmed s ∧ no NUL s ∧ no NL s ∧ no "=" s.
Proof.
  unfold plain. intros [Hne Hf]%andb_true_iff. apply negb_true_iff, bool_decide_eq_false in Hne.
  rewrite forallb_forall in Hf.
  assert (G : Forall (λ c, isspace c = false ∧ c ≠ NUL ∧ c ≠ NL ∧ c ≠ "="%char) s).
  { apply Forall_forall. intros c Hc. apply list_elem_of_In, Hf, andb_true_iff in Hc as [H1 H2].
    apply negb_true_iff in H1. apply negb_true_iff, bool_decide_eq_false in H2. set_solver. }
  split_and!; try (eapply Forall_impl; [apply G|]; naive_solver). split.
  - destruct s as [|c r]; [done|]. exists c, r. split; [done|]. by inversion G as [|?? []].
  - destruct (last_snoc_inv s) as [->|(r & c & ->)]; [done|]. exists r, c. split; [done|].
    apply Forall_app in G as [_ G]. by inversion G as [|?? []].
Qed.

Definition setting (key val : string) : line := Setting [] (lit key) [] [] (lit val) [].

Definition plain_line (l : line) : bool :=
  match l with
  | Setting [] key [] [] val [] => plain key && plain val && (length key + length val + 2 <? LOC_MAX_PARAM_STRING)%nat
  | Setting _ _ _ _ _ _ => false
  | Other t => bool_decide (no NUL t ∧ no NL t ∧ no "=" t) && (length t + 1 <? LOC_MAX_PARAM_STRING)%nat
  end.

Lemma plain_lines_ok ls : forallb plain_line ls = true → Forall (line_ok LOC_MAX_PARAM_STRING) ls.
Proof.
  rewrite forallb_forall. intros H. apply Forall_forall. intros l Hl%list_elem_of_In%H. clear H. unfold plain_line in Hl.
  destruct l as [[|? ?] key [|? ?] [|? ?] val [|? ?]|t]; try done.
  - apply andb_true_iff in Hl as [[Hk Hv]%andb_true_iff Hl%Nat.ltb_lt].
    apply plain_spec in Hk as (K1 & K2 & K3 & K4). apply plain_spec in Hv as (V1 & V2 & V3 & V4).
    unfold line_ok, line_text. rewrite !app_nil_r. simpl app.
    split_and!; try done; try (apply Forall_app; split; [done|]; by constructor); try by constructor.
    rewrite length_app. simpl. lia.
  - apply andb_true_iff in Hl as [(? & ? & ?)%bool_decide_eq_true Hl%Nat.ltb_lt]. by split_and!.
Qed.

(** The lines of a process, without the keys in [leave_out]. *)
Definition block_of (nm groups low_ram premium : string) (leave_out : list string) : list line :=
  (λ p : string * string, setting p.1 p.2) <$>
  filter (λ p : string * string, p.1 ∉ leave_out)
  [("PROCESS_NAME", nm); ("PROCESS_ARGUMENT", "-v"); ("PROCESS_STATE", "ENABLED"); ("PROCESS_GROUPS", groups);
   ("PREMIUM_FEATURE", premium); ("IZAT_FEATURE_MASK", "0x41"); ("PLATFORMS", "all"); ("SOC_IDS", "321");
   ("BASEBAND", "msm"); ("LOW_RAM_TARGETS", low_ram); ("HARDWARE_TYPE", "all"); ("VENDOR_ENHANCED_PROCESS", "0")].

Definition two_blocks : list (list line) :=
  [[Other (lit "# the daemons"); setting "GTP_MODE" "SDK"; setting "SAP" "PREMIUM"] ++ block_of "/vendor/bin/lowi" "inet" "ENABLED" "1" [];
   block_of "slim" "inet" "DISABLED" "0" []].

Definition phone : device :=
  Device (lit "msm8998") (lit "msm") (lit "") true (lit "321") true true
    (λ g, if strcmp0 g (lit "inet") then Some 3003%Z else None) true false.

Definition conf_files (ls : list line) (path : str) : option str :=
  if strcmp0 path (lit "izat.conf") then Some (text ls) else None.

Lemma process_conf_refines_witness :
  ∃ m1 m2 mem',
    loc_read_conf (conf_files (concat two_blocks ++ [])) (lit "gps.conf") (Some gps_conf_parameter_table) (length gps_conf_parameter_table) ∅ = Some m1 ∧
    loc_read_conf (conf_files (concat two_blocks ++ [])) (lit "izat.conf") (Some loc_feature_conf_table) (length loc_feature_conf_table) m1 = Some m2 ∧
    loc_read_process_conf phone (lit "gps.conf") (conf_files (concat two_blocks ++ [])) (lit "izat.conf") false ∅ =
    Some (0%Z, Z.of_nat (length two_blocks),
          Some (map (λ b, described phone (loc_service_mask phone m2) (block_fields (int_at m2 "conf.sglte_target") b)) two_blocks), mem').
Proof.
  apply (process_conf_refines phone (lit "gps.conf") _ (lit "izat.conf") ∅ two_blocks []); [done| | | |done|by apply (bool_decide_unpack _)|done].
  - apply plain_lines_ok. by vm_compute.
  - by apply (bool_decide_unpack _).
  - repeat (apply Forall_cons; split; [split; [apply (bool_decide_unpack _)|]; by vm_compute|]). constructor.
Defined.

(** ** What goes wrong *)

(** What is returned, the count, and the state and the name of each process. *)
Definition launched (ls : list line) : option (Z * Z * list (loc_process_e_status * str * list str)) :=
  '(ret, count, table, _) ← loc_read_process_conf phone (lit "gps.conf") (conf_files ls) (lit "izat.conf") false ∅;
  ps ← table;
  Some (ret, count, map (λ p, (proc_status p, name p, take 6 (args p))) ps).

(** Three ways in which a list of processes is started wrongly, each reported as a success.  (1) A process without one of
    its parameters takes it, or the next parameter in the file, from the process after
    it: here the second process is started with the options of the first, which is not
    started, and the entry of the second is skipped.  (2) A name "NULL" ends the count, so the
    processes after it are not started.  (3) With 256 processes the
    count is 0, and so is the table. *)
Theorem process_conf_misread :
  launched (block_of "lowi" "inet" "ENABLED" "1" ["LOW_RAM_TARGETS"] ++ block_of "slim" "gps" "DISABLED" "0" []) =
    Some (0%Z, 2%Z, [(ENABLED, lit "slim", [lit "slim"; lit "--gtp-wifi"; lit "DISABLED"; lit "--sap"; lit "BASIC"; lit "-v"]);
                     (DISABLED, lit "slim", replicate 6 [])]) ∧
  launched (block_of "lowi" "inet" "ENABLED" "1" [] ++ block_of "NULL" "inet" "ENABLED" "0" [] ++ block_of "slim" "inet" "ENABLED" "0" []) =
    Some (0%Z, 1%Z, [(ENABLED, lit "lowi", [lit "lowi"; lit "--gtp-wifi"; lit "DISABLED"; lit "--sap"; lit "BASIC"; lit "-v"])]) ∧
  (∀ d gps_conf files conf_file_name mem blocks,
     files conf_file_name = Some (text (concat blocks)) → Forall (line_ok LOC_MAX_PARAM_STRING) (concat blocks) →
     not_null_names (concat blocks) → Forall complete_block blocks → length blocks = 256 → calloc_ok d = true →
     ∃ mem', loc_read_process_conf d gps_conf files conf_file_name false mem = Some (0%Z, 0%Z, Some [], mem')).
Proof.
  split_and!; [by vm_compute|by vm_compute|]. intros d gps files cf mem blocks Hf Hls Hnn Hb Hl Hc.
  destruct (process_conf_blocks d gps files cf mem blocks []) as (m1 & m2 & m' & _ & _ & E); rewrite ?app_nil_r; [done..|].
  cbv zeta in E. rewrite Hl in E. by exists m'.
Qed.
