(* ===== verification/ClientBase.v ===== *)
(** * gps/location/LocationAPIClientBase.cpp, .h : the client side of the location API.

    A client of the HAL calls this class, which calls the location API and keeps, for each
    kind of request, a queue of the requests that have not been answered; an answer takes
    the first request out of a queue and calls the method of the client that goes with it.
    Two dictionaries map the client's identifiers to the sessions of the API.

    What the API returns is an argument of the operations, and what it is called with and
    the callbacks that the client gets are logs.  The calls are serialized by a mutex, so
    an operation is one step; a callback may call the client again only as a later step. *)
From Stdlib Require Import Ascii.
From stdpp Require Import sorting functions.
From S2P Require Import Prelude PbEnums LocApi LocApiBatch LocApiTrack CString LocCfg.
Local Open Scope Z_scope.

(** ** BiDict *)

(** What memset leaves in a value. *)
Class Zeroed (T : Type) := zeroed : T.

Section bidict.
Context {T : Type} `{!Zeroed T}.

Record BiDict := mkBiDict { mForwardMap : gmap Z Z; mBackwardMap : gmap Z Z; mExtMap : gmap Z T }.

Definition BiDict_empty : BiDict := mkBiDict ∅ ∅ ∅.

(** [map[key]]: a missing key is inserted with 0. *)
Definition at_or_insert (m : gmap Z Z) (k : Z) : Z * gmap Z Z :=
  match m !! k with Some v => (v, m) | None => (0, <[k := 0]> m) end.

Definition hasId (d : BiDict) (id : Z) : bool := bool_decide (is_Some (mForwardMap d !! id)).
Definition hasSession (d : BiDict) (session : Z) : bool := bool_decide (is_Some (mBackwardMap d !! session)).

Definition BiDict_set (id session : Z) (ext : T) (d : BiDict) : BiDict :=
  mkBiDict (<[id := session]> (mForwardMap d)) (<[session := id]> (mBackwardMap d)) (<[session := ext]> (mExtMap d)).

Definition BiDict_clear (d : BiDict) : BiDict := BiDict_empty.

Definition rmById (id : Z) (d : BiDict) : BiDict :=
  let '(s, fwd) := at_or_insert (mForwardMap d) id in
  let back := delete s (mBackwardMap d) in
  let '(s, fwd) := at_or_insert fwd id in
  mkBiDict (delete id fwd) back (delete s (mExtMap d)).

Definition rmBySession (session : Z) (d : BiDict) : BiDict :=
  let '(i, back) := at_or_insert (mBackwardMap d) session in
  mkBiDict (delete i (mForwardMap d)) (delete session back) (delete session (mExtMap d)).

Definition getId (d : BiDict) (session : Z) : Z := default 0 (mBackwardMap d !! session).
Definition getSession (d : BiDict) (id : Z) : Z := default 0 (mForwardMap d !! id).

Definition getExtBySession (d : BiDict) (session : Z) : T := default zeroed (mExtMap d !! session).

(** The value, and the dictionary with the key that the lookup may have inserted. *)
Definition getExtById (id : Z) (d : BiDict) : T * BiDict :=
  let '(session, fwd) := at_or_insert (mForwardMap d) id in
  (if 0 <? session then default zeroed (mExtMap d !! session) else zeroed,
   mkBiDict fwd (mBackwardMap d) (mExtMap d)).

(** The keys of a std::map, in their order. *)
Definition getAllSessions (d : BiDict) : list Z := merge_sort Z.le (map_to_list (mBackwardMap d)).*1.
End bidict.
Arguments BiDict T : clear implicits.

(** ** RequestQueue *)

Record RequestQueue (R : Type) := mkQueue { mSession : Z; mSessionArrayPtr : ptr; mQueue : list R }.
Arguments mkQueue {R}.
Arguments mSession {R}.
Arguments mSessionArrayPtr {R}.
Arguments mQueue {R}.

Section queue.
Context {R : Type}.
Definition newRequestQueue : RequestQueue R := mkQueue 0 None [].
Definition setSession (s : Z) (q : RequestQueue R) : RequestQueue R := mkQueue s (mSessionArrayPtr q) (mQueue q).
(** The requests in the queue are deleted. *)
Definition queue_reset (s : Z) (q : RequestQueue R) : RequestQueue R := mkQueue s (mSessionArrayPtr q) [].
Definition queue_reset_array (p : ptr) (q : RequestQueue R) : RequestQueue R := mkQueue 0 p [].
Definition queue_push (r : R) (q : RequestQueue R) : RequestQueue R := mkQueue (mSession q) (mSessionArrayPtr q) (mQueue q ++ [r]).
Definition queue_pop (q : RequestQueue R) : option R * RequestQueue R :=
  match mQueue q with
  | r :: rest => (Some r, mkQueue (mSession q) (mSessionArrayPtr q) rest)
  | [] => (None, q)
  end.
End queue.

(** * LocationAPIControlClient *)

Inductive CTRL_REQUEST_TYPE :=
  CTRL_REQUEST_DELETEAIDINGDATA | CTRL_REQUEST_CONTROL | CTRL_REQUEST_CONFIG_UPDATE | CTRL_REQUEST_CONFIG_GET.
#[export] Instance CTRL_REQUEST_TYPE_dec : EqDecision CTRL_REQUEST_TYPE.
Proof. solve_decision. Defined.

Section control.
(** The configuration, what aiding data to delete, and the comparison of two configurations. *)
Context {GnssConfig GnssAidingData : Type} (equals : GnssConfig → GnssConfig → bool).

Inductive ctrl_request :=
  GnssDeleteAidingDataRequest | EnableRequest | DisableRequest | GnssUpdateConfigRequest | GnssGetConfigRequest.

(** The methods of the client that are called back. *)
Inductive ctrl_callback :=
  | onGnssDeleteAidingDataCb (error : LocationError)
  | onEnableCb (error : LocationError)
  | onDisableCb (error : LocationError)
  | onGnssUpdateConfigCb (errors : list LocationError) (ids : ptr)
  | onGnssGetConfigCb (errors : list LocationError) (ids : ptr).

(** The calls of the control API. *)
Inductive ctrl_api_call :=
  | CtrlGnssDeleteAidingData (data : GnssAidingData)
  | CtrlEnable (techType : Z)
  | CtrlDisable (session : Z)
  | CtrlGnssUpdateConfig (config : GnssConfig)
  | CtrlGnssGetConfig (mask : Z)
  | CtrlDestroy.

Record ControlClient := mkControl {
  mLocationControlAPI : bool;
  ctrl_queues : CTRL_REQUEST_TYPE → RequestQueue ctrl_request;
  mEnabled : bool;
  mConfig : GnssConfig;
  ctrl_api_calls : list ctrl_api_call;
  ctrl_callbacks : list ctrl_callback
}.

Definition newControlClient (api : bool) (zero_config : GnssConfig) : ControlClient :=
  mkControl api (λ _, newRequestQueue) false zero_config [] [].

Definition upd_ctrl_queue (t : CTRL_REQUEST_TYPE) (f : RequestQueue ctrl_request → RequestQueue ctrl_request) (c : ControlClient) : ControlClient :=
  mkControl (mLocationControlAPI c) (<[t := f (ctrl_queues c t)]> (ctrl_queues c)) (mEnabled c) (mConfig c) (ctrl_api_calls c) (ctrl_callbacks c).
Definition set_mEnabled (b : bool) (c : ControlClient) : ControlClient :=
  mkControl (mLocationControlAPI c) (ctrl_queues c) b (mConfig c) (ctrl_api_calls c) (ctrl_callbacks c).
Definition set_mConfig (g : GnssConfig) (c : ControlClient) : ControlClient :=
  mkControl (mLocationControlAPI c) (ctrl_queues c) (mEnabled c) g (ctrl_api_calls c) (ctrl_callbacks c).
Definition ctrl_call (cb : ctrl_callback) (c : ControlClient) : ControlClient :=
  mkControl (mLocationControlAPI c) (ctrl_queues c) (mEnabled c) (mConfig c) (ctrl_api_calls c) (ctrl_callbacks c ++ [cb]).
Definition ctrl_api (a : ctrl_api_call) (c : ControlClient) : ControlClient :=
  mkControl (mLocationControlAPI c) (ctrl_queues c) (mEnabled c) (mConfig c) (ctrl_api_calls c ++ [a]) (ctrl_callbacks c).

Definition ControlClient_destroy (c : ControlClient) : ControlClient :=
  mkControl false (λ t, queue_reset 0 (ctrl_queues c t)) (mEnabled c) (mConfig c)
    (if mLocationControlAPI c then ctrl_api_calls c ++ [CtrlDestroy] else ctrl_api_calls c) (ctrl_callbacks c).

(** [session] is what the API returns for the call. *)
Definition locAPIGnssDeleteAidingData (data : GnssAidingData) (session : Z) (c : ControlClient) : LocationError * ControlClient :=
  if mLocationControlAPI c
  then (LOCATION_ERROR_SUCCESS,
        upd_ctrl_queue CTRL_REQUEST_DELETEAIDINGDATA (λ q, queue_push GnssDeleteAidingDataRequest (queue_reset session q))
          (ctrl_api (CtrlGnssDeleteAidingData data) c))
  else (LOCATION_ERROR_GENERAL_FAILURE, c).

Definition locAPIEnable (techType session : Z) (c : ControlClient) : LocationError * ControlClient :=
  if mEnabled c then (LOCATION_ERROR_SUCCESS, c)
  else if mLocationControlAPI c
  then (LOCATION_ERROR_SUCCESS,
        set_mEnabled true (upd_ctrl_queue CTRL_REQUEST_CONTROL (λ q, queue_push EnableRequest (queue_reset session q)) (ctrl_api (CtrlEnable techType) c)))
  else (LOCATION_ERROR_GENERAL_FAILURE, c).

Definition locAPIDisable (c : ControlClient) : ControlClient :=
  if mEnabled c && mLocationControlAPI c then
    let session := mSession (ctrl_queues c CTRL_REQUEST_CONTROL) in
    if 0 <? session
    then set_mEnabled false (ctrl_api (CtrlDisable session) (upd_ctrl_queue CTRL_REQUEST_CONTROL (queue_push DisableRequest) c))
    else c
  else c.

(** A request for the configuration; [idArray] is the array of sessions that the API allocates. *)
Definition push_config (t : CTRL_REQUEST_TYPE) (r : ctrl_request) (idArray : ptr) (c : ControlClient) : LocationError * ControlClient :=
  if is_null idArray then (LOCATION_ERROR_GENERAL_FAILURE, c)
  else
    let c := if is_null (mSessionArrayPtr (ctrl_queues c t)) then c else upd_ctrl_queue t (queue_reset_array idArray) c in
    (LOCATION_ERROR_SUCCESS, upd_ctrl_queue t (queue_push r) c).

Definition locAPIGnssUpdateConfig (config : GnssConfig) (idArray : ptr) (c : ControlClient) : LocationError * ControlClient :=
  if mLocationControlAPI c then
    if equals (mConfig c) config then (LOCATION_ERROR_SUCCESS, c)
    else push_config CTRL_REQUEST_CONFIG_UPDATE GnssUpdateConfigRequest idArray (ctrl_api (CtrlGnssUpdateConfig config) (set_mConfig config c))
  else (LOCATION_ERROR_GENERAL_FAILURE, c).

Definition locAPIGnssGetConfig (mask : Z) (idArray : ptr) (c : ControlClient) : LocationError * ControlClient :=
  if mLocationControlAPI c then push_config CTRL_REQUEST_CONFIG_GET GnssGetConfigRequest idArray (ctrl_api (CtrlGnssGetConfig mask) c)
  else (LOCATION_ERROR_GENERAL_FAILURE, c).

Definition ctrl_pop (t : CTRL_REQUEST_TYPE) (c : ControlClient) : option ctrl_request * ControlClient :=
  let '(r, q) := queue_pop (ctrl_queues c t) in (r, upd_ctrl_queue t (λ _, q) c).

Definition ctrl_getRequestBySession (session : Z) (c : ControlClient) : option ctrl_request * ControlClient :=
  if mSession (ctrl_queues c CTRL_REQUEST_DELETEAIDINGDATA) =? session then ctrl_pop CTRL_REQUEST_DELETEAIDINGDATA c
  else if mSession (ctrl_queues c CTRL_REQUEST_CONTROL) =? session then ctrl_pop CTRL_REQUEST_CONTROL c
  else (None, c).

Definition getRequestBySessionArrayPtr (p : ptr) (c : ControlClient) : option ctrl_request * ControlClient :=
  if decide (mSessionArrayPtr (ctrl_queues c CTRL_REQUEST_CONFIG_UPDATE) = p) then ctrl_pop CTRL_REQUEST_CONFIG_UPDATE c
  else if decide (mSessionArrayPtr (ctrl_queues c CTRL_REQUEST_CONFIG_GET) = p) then ctrl_pop CTRL_REQUEST_CONFIG_GET c
  else (None, c).

(** onResponse: the base class ignores what a request does not override. *)
Definition ctrl_onResponse (r : ctrl_request) (error : LocationError) (c : ControlClient) : ControlClient :=
  match r with
  | GnssDeleteAidingDataRequest => ctrl_call (onGnssDeleteAidingDataCb error) c
  | EnableRequest => ctrl_call (onEnableCb error) c
  | DisableRequest => ctrl_call (onDisableCb error) c
  | _ => c
  end.

Definition ctrl_onCollectiveResponse (r : ctrl_request) (errors : list LocationError) (ids : ptr) (c : ControlClient) : ControlClient :=
  match r with
  | GnssUpdateConfigRequest => ctrl_call (onGnssUpdateConfigCb errors ids) c
  | GnssGetConfigRequest => ctrl_call (onGnssGetConfigCb errors ids) c
  | _ => c
  end.

Definition onCtrlResponseCb (error : LocationError) (id : Z) (c : ControlClient) : ControlClient :=
  let '(request, c) := ctrl_getRequestBySession id c in
  match request with Some r => ctrl_onResponse r error c | None => c end.

Definition onCtrlCollectiveResponseCb (errors : list LocationError) (ids : ptr) (c : ControlClient) : ControlClient :=
  let '(request, c) := getRequestBySessionArrayPtr ids c in
  match request with Some r => ctrl_onCollectiveResponse r errors ids c | None => c end.
End control.

(** * LocationAPIClientBase *)

Definition GEOFENCE_SESSION_ID : Z := 0xFFFFFFFF.

(** SESSION_MODE, of which the operations take the number. *)
Definition SESSION_MODE_NONE : Z := 0.
Definition SESSION_MODE_ON_FULL : Z := 1.
Definition SESSION_MODE_ON_FIX : Z := 2.
Definition SESSION_MODE_ON_TRIP_COMPLETED : Z := 3.

Inductive REQUEST_TYPE := REQUEST_TRACKING | REQUEST_SESSION | REQUEST_GEOFENCE | REQUEST_NIRESPONSE.
#[export] Instance REQUEST_TYPE_dec : EqDecision REQUEST_TYPE.
Proof. solve_decision. Defined.

Record SessionEntity := mkEntity { entity_id : Z; trackingSession : Z; batchingSession : Z; entity_sessionMode : Z }.
#[export] Instance SessionEntity_zeroed : Zeroed SessionEntity := mkEntity 0 0 0 0.
#[export] Instance mask_zeroed : Zeroed Z := 0.

(** The classes derived from LocationAPIRequest; the removed geofences are owned by their request. *)
Inductive LocationAPIRequest :=
  | StartTrackingRequest | StopTrackingRequest | UpdateTrackingOptionsRequest
  | StartBatchingRequest | StopBatchingRequest | UpdateBatchingOptionsRequest | GetBatchedLocationsRequest
  | AddGeofencesRequest | RemoveGeofencesRequest (mRemovedGeofenceBiDict : BiDict Z)
  | ModifyGeofencesRequest | PauseGeofencesRequest | ResumeGeofencesRequest
  | GnssNiResponseRequest.

(** The calls of the location API. *)
Inductive api_call :=
  | ApiStartTracking (options : TrackingOptions) (session : Z)
  | ApiStopTracking (session : Z)
  | ApiUpdateTrackingOptions (session : Z) (options : TrackingOptions)
  | ApiStartBatching (options : BatchingOptions) (session : Z)
  | ApiStopBatching (session : Z)
  | ApiUpdateBatchingOptions (session : Z) (options : BatchingOptions)
  | ApiGetBatchedLocations (session : Z) (count : Z)
  | ApiAddGeofences (options : list GeofenceOption) (data : list GeofenceInfo)
  | ApiRemoveGeofences (sessions : list Z)
  | ApiModifyGeofences (sessions : list Z) (options : list GeofenceOption)
  | ApiPauseGeofences (sessions : list Z)
  | ApiResumeGeofences (sessions : list Z)
  | ApiGnssNiResponse (id : Z) (response : Z)
  | ApiDestroy.

(** The methods of the client that are called back. *)
Inductive client_callback :=
  | onStartTrackingCb (error : LocationError)
  | onStopTrackingCb (error : LocationError)
  | onUpdateTrackingOptionsCb (error : LocationError)
  | onStartBatchingCb (error : LocationError)
  | onStopBatchingCb (error : LocationError)
  | onUpdateBatchingOptionsCb (error : LocationError)
  | onGetBatchedLocationsCb (error : LocationError)
  | onGnssNiResponseCb (error : LocationError)
  | onAddGeofencesCb (errors : list LocationError) (ids : list Z)
  | onRemoveGeofencesCb (errors : list LocationError) (ids : list Z)
  | onModifyGeofencesCb (errors : list LocationError) (ids : list Z)
  | onPauseGeofencesCb (errors : list LocationError) (ids : list Z)
  | onResumeGeofencesCb (errors : list LocationError) (ids : list Z)
  | geofenceBreachCb (ids : list Z) (type : GeofenceBreachType)
  | batchingStatusCb (status : BatchingStatus) (trips : list Z).

Record ClientBase := mkClient {
  mLocationAPI : bool;
  mRequestQueues : REQUEST_TYPE → RequestQueue LocationAPIRequest;
  mGeofenceBiDict : BiDict Z;
  mSessionBiDict : BiDict SessionEntity;
  mGeofenceBreachCallback : bool;
  mBatchingStatusCallback : bool;
  mTracking : bool;
  api_calls : list api_call;
  callbacks : list client_callback
}.

Definition newClientBase : ClientBase :=
  mkClient false (λ _, newRequestQueue) BiDict_empty BiDict_empty false false false [] [].

Definition upd_queue (t : REQUEST_TYPE) (f : RequestQueue LocationAPIRequest → RequestQueue LocationAPIRequest) (c : ClientBase) : ClientBase :=
  mkClient (mLocationAPI c) (<[t := f (mRequestQueues c t)]> (mRequestQueues c)) (mGeofenceBiDict c) (mSessionBiDict c)
    (mGeofenceBreachCallback c) (mBatchingStatusCallback c) (mTracking c) (api_calls c) (callbacks c).
Definition upd_geofences (f : BiDict Z → BiDict Z) (c : ClientBase) : ClientBase :=
  mkClient (mLocationAPI c) (mRequestQueues c) (f (mGeofenceBiDict c)) (mSessionBiDict c)
    (mGeofenceBreachCallback c) (mBatchingStatusCallback c) (mTracking c) (api_calls c) (callbacks c).
Definition upd_sessions (f : BiDict SessionEntity → BiDict SessionEntity) (c : ClientBase) : ClientBase :=
  mkClient (mLocationAPI c) (mRequestQueues c) (mGeofenceBiDict c) (f (mSessionBiDict c))
    (mGeofenceBreachCallback c) (mBatchingStatusCallback c) (mTracking c) (api_calls c) (callbacks c).
Definition set_mTracking (b : bool) (c : ClientBase) : ClientBase :=
  mkClient (mLocationAPI c) (mRequestQueues c) (mGeofenceBiDict c) (mSessionBiDict c)
    (mGeofenceBreachCallback c) (mBatchingStatusCallback c) b (api_calls c) (callbacks c).
(** A call of the API. *)
Definition api (a : api_call) (c : ClientBase) : ClientBase :=
  mkClient (mLocationAPI c) (mRequestQueues c) (mGeofenceBiDict c) (mSessionBiDict c)
    (mGeofenceBreachCallback c) (mBatchingStatusCallback c) (mTracking c) (api_calls c ++ [a]) (callbacks c).
(** A callback of the client. *)
Definition callback (cb : client_callback) (c : ClientBase) : ClientBase :=
  mkClient (mLocationAPI c) (mRequestQueues c) (mGeofenceBiDict c) (mSessionBiDict c)
    (mGeofenceBreachCallback c) (mBatchingStatusCallback c) (mTracking c) (api_calls c) (callbacks c ++ [cb]).
Definition push (t : REQUEST_TYPE) (r : LocationAPIRequest) : ClientBase → ClientBase := upd_queue t (queue_push r).

(** Which of the two callbacks that this class wraps the client supplies; createInstance
    returns an object. *)
Definition locAPISetCallbacks (geofenceBreach batchingStatus : bool) (c : ClientBase) : ClientBase :=
  mkClient true (mRequestQueues c) (mGeofenceBiDict c) (mSessionBiDict c)
    (mGeofenceBreachCallback c || geofenceBreach) (mBatchingStatusCallback c || batchingStatus) (mTracking c) (api_calls c) (callbacks c).

(** destroy; the client is deleted by onLocationApiDestroyCompleteCb, after which no step follows. *)
Definition destroy (c : ClientBase) : ClientBase :=
  mkClient false (λ t, queue_reset 0 (mRequestQueues c t)) (mGeofenceBiDict c) (mSessionBiDict c)
    false (mBatchingStatusCallback c) (mTracking c) (if mLocationAPI c then api_calls c ++ [ApiDestroy] else api_calls c) (callbacks c).

(** ** Tracking *)

(** [session] is what startTracking returns. *)
Definition locAPIStartTracking (options : TrackingOptions) (session : Z) (c : ClientBase) : LocationError * ClientBase :=
  if mLocationAPI c then
    (LOCATION_ERROR_SUCCESS,
     if mTracking c then c
     else
       let c := api (ApiStartTracking options session) c in
       let c := upd_queue REQUEST_TRACKING (queue_reset session) c in
       let c := push REQUEST_TRACKING StartTrackingRequest c in
       set_mTracking true c)
  else (LOCATION_ERROR_GENERAL_FAILURE, c).

Definition locAPIStopTracking (c : ClientBase) : ClientBase :=
  if mLocationAPI c then
    let session := mSession (mRequestQueues c REQUEST_TRACKING) in
    if 0 <? session
    then set_mTracking false (api (ApiStopTracking session) (push REQUEST_TRACKING StopTrackingRequest c))
    else c
  else c.

Definition locAPIUpdateTrackingOptions (options : TrackingOptions) (c : ClientBase) : ClientBase :=
  if mLocationAPI c then
    let session := mSession (mRequestQueues c REQUEST_TRACKING) in
    if 0 <? session
    then api (ApiUpdateTrackingOptions session options) (push REQUEST_TRACKING UpdateTrackingOptionsRequest c)
    else c
  else c.

(** ** Sessions *)

Definition sizeof_BatchingOptions : Z := 24.

Definition batching_mode (sessionMode : Z) : BatchingMode :=
  if sessionMode =? SESSION_MODE_ON_FULL then BATCHING_MODE_ROUTINE
  else if sessionMode =? SESSION_MODE_ON_TRIP_COMPLETED then BATCHING_MODE_TRIP
  else BATCHING_MODE_NO_AUTO_REPORT.

(** [batchOptions] with its size and mode. *)
Definition empty_batchOptions (sessionMode : Z) : BatchingOptions :=
  Build_BatchingOptions sizeof_BatchingOptions 0 0 GNSS_SUPL_MODE_STANDALONE (batching_mode sessionMode).
(** And with the values of the options. *)
Definition batchOptions_of (sessionMode : Z) (options : TrackingOptions) : BatchingOptions :=
  Build_BatchingOptions sizeof_BatchingOptions (minInterval options) (minDistance options) (mode options) (batching_mode sessionMode).

(** [ret] is the session that startTracking or startBatching returns. *)
Definition locAPIStartSession (id sessionMode : Z) (options : TrackingOptions) (ret : Z) (c : ClientBase) : LocationError * ClientBase :=
  if mLocationAPI c then
    if hasId (mSessionBiDict c) id then (LOCATION_ERROR_ALREADY_STARTED, c)
    else
      let on_fix := sessionMode =? SESSION_MODE_ON_FIX in
      let c :=
        if on_fix
        then push REQUEST_SESSION StartTrackingRequest (api (ApiStartTracking options ret) c)
        else push REQUEST_SESSION StartBatchingRequest
               (upd_queue REQUEST_SESSION (setSession ret) (api (ApiStartBatching (batchOptions_of sessionMode options) ret) c)) in
      let entity := mkEntity id (if on_fix then ret else 0) (if on_fix then 0 else ret) sessionMode in
      (LOCATION_ERROR_SUCCESS, upd_sessions (BiDict_set id ret entity) c)
  else (LOCATION_ERROR_GENERAL_FAILURE, c).

(** getExtById, which may change the dictionary. *)
Definition session_entity (id : Z) (c : ClientBase) : SessionEntity * ClientBase :=
  let '(entity, d) := getExtById id (mSessionBiDict c) in (entity, upd_sessions (λ _, d) c).

Definition locAPIStopSession (id : Z) (c : ClientBase) : LocationError * ClientBase :=
  if mLocationAPI c then
    if hasId (mSessionBiDict c) id then
      let '(entity, c) := session_entity id c in
      (LOCATION_ERROR_SUCCESS,
       if entity_sessionMode entity =? SESSION_MODE_ON_FIX
       then api (ApiStopTracking (trackingSession entity)) (push REQUEST_SESSION StopTrackingRequest c)
       else api (ApiStopBatching (batchingSession entity)) (push REQUEST_SESSION StopBatchingRequest c))
    else (LOCATION_ERROR_ID_UNKNOWN, c)
  else (LOCATION_ERROR_GENERAL_FAILURE, c).

(** The calls of the API and the tracking and batching sessions of an update; [ret] is
    the session that a start returns. *)
Definition update_calls (sessionMode : Z) (options : TrackingOptions) (ret : Z) (entity : SessionEntity) (c : ClientBase) : Z * Z * ClientBase :=
  let t := trackingSession entity in
  let b := batchingSession entity in
  let was_fix := entity_sessionMode entity =? SESSION_MODE_ON_FIX in
  if sessionMode =? SESSION_MODE_ON_FIX then
    let c := push REQUEST_SESSION UpdateTrackingOptionsRequest c in
    if was_fix then (t, b, api (ApiUpdateTrackingOptions t options) c)
    else
      let c := api (ApiStopBatching b) c in
      let c := upd_queue REQUEST_SESSION (setSession 0) c in
      (ret, 0, api (ApiStartTracking options ret) c)
  else
    let c := push REQUEST_SESSION UpdateBatchingOptionsRequest c in
    if was_fix then
      let c := api (ApiStopTracking t) c in
      let c := api (ApiStartBatching (batchOptions_of sessionMode options) ret) c in
      (0, ret, upd_queue REQUEST_SESSION (setSession ret) c)
    else (t, b, api (ApiUpdateBatchingOptions b (empty_batchOptions sessionMode)) c).

Definition locAPIUpdateSessionOptions (id sessionMode : Z) (options : TrackingOptions) (ret : Z) (c : ClientBase) : LocationError * ClientBase :=
  if mLocationAPI c then
    if hasId (mSessionBiDict c) id then
      let '(entity, c) := session_entity id c in
      let '(t, b, c) := update_calls sessionMode options ret entity c in
      let session := if sessionMode =? SESSION_MODE_ON_FIX then t else b in
      let entity := mkEntity (entity_id entity) t b sessionMode in
      (LOCATION_ERROR_SUCCESS, upd_sessions (λ d, BiDict_set id session entity (rmById id d)) c)
    else (LOCATION_ERROR_ID_UNKNOWN, c)
  else (LOCATION_ERROR_GENERAL_FAILURE, c).

Definition locAPIGetBatchedLocations (id count : Z) (c : ClientBase) : LocationError * ClientBase :=
  if mLocationAPI c then
    if hasId (mSessionBiDict c) id then
      let '(entity, c) := session_entity id c in
      if entity_sessionMode entity =? SESSION_MODE_ON_FIX then (LOCATION_ERROR_NOT_SUPPORTED, c)
      else (LOCATION_ERROR_SUCCESS,
            api (ApiGetBatchedLocations (batchingSession entity) count) (push REQUEST_SESSION GetBatchedLocationsRequest c))
    else (LOCATION_ERROR_ID_UNKNOWN, c)
  else (LOCATION_ERROR_GENERAL_FAILURE, c).

(** The member [mBatchSize] lives with the variables that a configuration file sets; it is
    -1 until the file has been read.  [None]: the file is not read to its end. *)
Definition flp_conf_param_table : list loc_param_s_type := [Param (lit "BATCH_SIZE") (Some "mBatchSize"%string) None "n"%char].

Definition locAPIGetBatchSize (files : list Ascii.ascii → option (list Ascii.ascii)) (flp_conf : list Ascii.ascii) (mem : gmap string cval) :
    option (Z * gmap string cval) :=
  mem ← (if int_at mem "mBatchSize"%string =? -1 then
           mem ← loc_read_conf files flp_conf (Some flp_conf_param_table) 1 mem;
           Some (if int_at mem "mBatchSize"%string <? 0 then <["mBatchSize"%string := CInt 0]> mem else mem)
         else Some mem);
  Some (int_at mem "mBatchSize"%string, mem).

(** ** Geofences *)

Definition geofence_session (c : ClientBase) : bool :=
  mSession (mRequestQueues c REQUEST_GEOFENCE) =? GEOFENCE_SESSION_ID.

(** A geofence of the caller's arrays is its id and its options; [sessions] is the array that
    addGeofences returns, with as many entries, or NULL. *)
Definition locAPIAddGeofences (geofences : list (Z * GeofenceOption)) (data : list GeofenceInfo) (sessions : option (list Z))
    (c : ClientBase) : LocationError * ClientBase :=
  if mLocationAPI c then
    let c := if geofence_session c then c else upd_queue REQUEST_GEOFENCE (queue_reset GEOFENCE_SESSION_ID) c in
    let c := api (ApiAddGeofences geofences.*2 data) c in
    match sessions with
    | Some sessions =>
      let c := push REQUEST_GEOFENCE AddGeofencesRequest c in
      (LOCATION_ERROR_SUCCESS,
       fold_left (λ c p, upd_geofences (BiDict_set p.1.1 p.2 (breachTypeMask p.1.2)) c) (zip geofences sessions) c)
    | None => (LOCATION_ERROR_GENERAL_FAILURE, c)
    end
  else (LOCATION_ERROR_GENERAL_FAILURE, c).

(** The loop of locAPIRemoveGeofences: the sessions found, the dictionary and the removed. *)
Fixpoint remove_loop (ids sessions : list Z) (d removed : BiDict Z) : list Z * BiDict Z * BiDict Z :=
  match ids with
  | [] => (sessions, d, removed)
  | id :: ids =>
    let s := getSession d id in
    if 0 <? s then
      let type := getExtBySession d s in
      remove_loop ids (sessions ++ [s]) (rmBySession s d) (BiDict_set id s type removed)
    else remove_loop ids sessions d removed
  end.

(** [malloc_ok]: the allocation of the array succeeds. *)
Definition locAPIRemoveGeofences (malloc_ok : bool) (ids : list Z) (c : ClientBase) : ClientBase :=
  if mLocationAPI c && malloc_ok then
    if geofence_session c then
      let '(sessions, d, removed) := remove_loop ids [] (mGeofenceBiDict c) BiDict_empty in
      let c := upd_geofences (λ _, d) c in
      if bool_decide (sessions = []) then c
      else api (ApiRemoveGeofences sessions) (push REQUEST_GEOFENCE (RemoveGeofencesRequest removed) c)
    else c
  else c.

(** The loop that looks the sessions up, and sets the mask of those found. *)
Fixpoint lookup_loop (ids : list (Z * option Z)) (sessions : list Z) (d : BiDict Z) : list Z * BiDict Z :=
  match ids with
  | [] => (sessions, d)
  | (id, mask) :: ids =>
    let s := getSession d id in
    if 0 <? s
    then lookup_loop ids (sessions ++ [s]) (match mask with Some m => BiDict_set id s m d | None => d end)
    else lookup_loop ids sessions d
  end.

(** The common shape of modify, pause and resume. *)
Definition geofence_request (malloc_ok : bool) (ids : list (Z * option Z)) (r : LocationAPIRequest)
    (call : list Z → api_call) (c : ClientBase) : ClientBase :=
  if mLocationAPI c && malloc_ok then
    if geofence_session c then
      let '(sessions, d) := lookup_loop ids [] (mGeofenceBiDict c) in
      let c := upd_geofences (λ _, d) c in
      if bool_decide (sessions = []) then c else api (call sessions) (push REQUEST_GEOFENCE r c)
    else c
  else c.

Definition locAPIModifyGeofences (malloc_ok : bool) (geofences : list (Z * GeofenceOption)) (c : ClientBase) : ClientBase :=
  geofence_request malloc_ok ((λ g : Z * GeofenceOption, (g.1, Some (breachTypeMask g.2))) <$> geofences) ModifyGeofencesRequest
    (λ sessions, ApiModifyGeofences sessions geofences.*2) c.

Definition locAPIPauseGeofences (malloc_ok : bool) (ids : list Z) (c : ClientBase) : ClientBase :=
  geofence_request malloc_ok ((λ id, (id, None)) <$> ids) PauseGeofencesRequest ApiPauseGeofences c.

(** Each id with its mask, when the array of masks is not NULL. *)
Definition locAPIResumeGeofences (malloc_ok : bool) (ids : list (Z * option Z)) (c : ClientBase) : ClientBase :=
  geofence_request malloc_ok ids ResumeGeofencesRequest ApiResumeGeofences c.

Definition locAPIRemoveAllGeofences (malloc_ok : bool) (c : ClientBase) : ClientBase :=
  let sessionsVec := getAllSessions (mGeofenceBiDict c) in
  if bool_decide (sessionsVec = []) then c else locAPIRemoveGeofences malloc_ok sessionsVec c.

Definition locAPIGnssNiResponse (id response : Z) (c : ClientBase) : ClientBase :=
  if mLocationAPI c then
    let c := api (ApiGnssNiResponse id response) c in
    push REQUEST_NIRESPONSE GnssNiResponseRequest (upd_queue REQUEST_NIRESPONSE (queue_reset id) c)
  else c.

(** ** What the API calls back *)

Definition removeSession (session : Z) (c : ClientBase) : ClientBase :=
  if hasSession (mSessionBiDict c) session then upd_sessions (rmBySession session) c else c.

Definition pop (t : REQUEST_TYPE) (c : ClientBase) : option LocationAPIRequest * ClientBase :=
  let '(r, q) := queue_pop (mRequestQueues c t) in (r, upd_queue t (λ _, q) c).

(** The loop over the queues, without those of geofences and sessions, ends at the first
    one with the session, also when it is empty. *)
Definition getRequestBySession (session : Z) (c : ClientBase) : option LocationAPIRequest * ClientBase :=
  let '(request, c) :=
    if mSession (mRequestQueues c REQUEST_TRACKING) =? session then pop REQUEST_TRACKING c
    else if mSession (mRequestQueues c REQUEST_NIRESPONSE) =? session then pop REQUEST_NIRESPONSE c
    else (None, c) in
  match request with
  | Some r => (Some r, c)
  | None => if hasSession (mSessionBiDict c) session then pop REQUEST_SESSION c else (None, c)
  end.

Definition is_success (e : LocationError) : bool := bool_decide (e = LOCATION_ERROR_SUCCESS).

(** onResponse of the requests; those of geofences do not override it. *)
Definition onResponse (r : LocationAPIRequest) (error : LocationError) (id : Z) (c : ClientBase) : ClientBase :=
  let failed := if is_success error then c else removeSession id c in
  let stopped c := if is_success error then removeSession id c else c in
  match r with
  | StartTrackingRequest => callback (onStartTrackingCb error) failed
  | StopTrackingRequest => stopped (callback (onStopTrackingCb error) c)
  | UpdateTrackingOptionsRequest => callback (onUpdateTrackingOptionsCb error) c
  | StartBatchingRequest => callback (onStartBatchingCb error) failed
  | StopBatchingRequest => stopped (callback (onStopBatchingCb error) c)
  | UpdateBatchingOptionsRequest => callback (onUpdateBatchingOptionsCb error) c
  | GetBatchedLocationsRequest => callback (onGetBatchedLocationsCb error) c
  | GnssNiResponseRequest => callback (onGnssNiResponseCb error) c
  | _ => c
  end.

Definition onResponseCb (error : LocationError) (id : Z) (c : ClientBase) : ClientBase :=
  let '(request, c) := getRequestBySession id c in
  match request with Some r => onResponse r error id c | None => c end.

Definition onCollectiveResponse (r : LocationAPIRequest) (errors : list LocationError) (sessions : list Z) (c : ClientBase) : ClientBase :=
  let ids := getId (mGeofenceBiDict c) <$> sessions in
  match r with
  | AddGeofencesRequest => callback (onAddGeofencesCb errors ids) c
  | RemoveGeofencesRequest removed => callback (onRemoveGeofencesCb errors (getId removed <$> sessions)) c
  | ModifyGeofencesRequest => callback (onModifyGeofencesCb errors ids) c
  | PauseGeofencesRequest => callback (onPauseGeofencesCb errors ids) c
  | ResumeGeofencesRequest => callback (onResumeGeofencesCb errors ids) c
  | _ => c
  end.

Definition onCollectiveResponseCb (errors : list LocationError) (sessions : list Z) (c : ClientBase) : ClientBase :=
  let '(request, c) := if geofence_session c then pop REQUEST_GEOFENCE c else (None, c) in
  match request with Some r => onCollectiveResponse r errors sessions c | None => c end.

(** Does the client want to know of this breach of a geofence with this mask? *)
Definition breach_wanted (type : GeofenceBreachType) (mask : Z) : bool :=
  match type with
  | GEOFENCE_BREACH_ENTER => has_bit mask GEOFENCE_BREACH_ENTER_BIT
  | GEOFENCE_BREACH_EXIT => has_bit mask GEOFENCE_BREACH_EXIT_BIT
  | _ => false
  end.

Definition beforeGeofenceBreachCb (malloc_ok : bool) (sessions : list Z) (type : GeofenceBreachType) (c : ClientBase) : ClientBase :=
  if malloc_ok && mGeofenceBreachCallback c then
    let d := mGeofenceBiDict c in
    callback (geofenceBreachCb (getId d <$> filter (λ s, breach_wanted type (getExtBySession d s)) sessions) type) c
  else c.

(** The loop over the completed trips. *)
Fixpoint trips_loop (trips ids : list Z) (d : BiDict SessionEntity) : list Z * BiDict SessionEntity :=
  match trips with
  | [] => (ids, d)
  | t :: trips =>
    if hasSession d t && (entity_sessionMode (getExtBySession d t) =? SESSION_MODE_ON_TRIP_COMPLETED)
    then trips_loop trips (ids ++ [entity_id (getExtBySession d t)]) (rmBySession t d)
    else trips_loop trips ids d
  end.

(** Called only when [mBatchingStatusCallback] is set. *)
Definition beforeBatchingStatusCb (status : BatchingStatus) (trips : list Z) (c : ClientBase) : ClientBase :=
  let '(ids, d) := match status with
                   | BATCHING_STATUS_TRIP_COMPLETED => trips_loop trips [] (mSessionBiDict c)
                   | _ => ([], mSessionBiDict c)
                   end in
  callback (batchingStatusCb status ids) (upd_sessions (λ _, d) c).

(** * Correctness *)

(** ** A BiDict is a map of identifiers to sessions, one to one *)
Section bidict_spec.
Context {T : Type} `{!Zeroed T}.
Implicit Types (d : BiDict T) (m : gmap Z (Z * T)).

(** [m] gives each id its session and its value. *)
Definition represents d m : Prop :=
  (∀ i, mForwardMap d !! i = fst <$> m !! i) ∧
  (∀ s i, mBackwardMap d !! s = Some i ↔ ∃ t, m !! i = Some (s, t)) ∧
  (∀ s t, mExtMap d !! s = Some t ↔ ∃ i, m !! i = Some (s, t)).

(** No id has the session. *)
Definition unused (s : Z) m : Prop := ∀ i t, m !! i ≠ Some (s, t).

Lemma represents_empty : represents BiDict_empty ∅.
Proof.
  unfold represents, BiDict_empty. simpl. split_and!; [intros i; by rewrite !lookup_empty| |]; intros s x;
    (split; [by rewrite lookup_empty|intros [? H]; by rewrite lookup_empty in H]).
Qed.

Lemma represents_inj d m i j s t t' : represents d m → m !! i = Some (s, t) → m !! j = Some (s, t') → i = j ∧ t = t'.
Proof.
  intros (_ & Hb & He) Hi Hj. assert (mBackwardMap d !! s = Some i) by (apply Hb; eauto).
  assert (mBackwardMap d !! s = Some j) by (apply Hb; eauto).
  assert (mExtMap d !! s = Some t) by (apply He; eauto). assert (mExtMap d !! s = Some t') by (apply He; eauto).
  split; congruence.
Qed.

Lemma unused_back d m s : represents d m → unused s m → mBackwardMap d !! s = None ∧ mExtMap d !! s = None.
Proof.
  intros (_ & Hb & He) Hu. split; apply eq_None_not_Some; intros [x Hx].
  - apply Hb in Hx as [t Ht]. by apply Hu in Ht.
  - apply He in Hx as [i Ht]. by apply Hu in Ht.
Qed.

(** [set] of a new id and a new session, or of the same session again. *)
Lemma set_represents d m id s e : represents d m → m !! id = None ∧ unused s m ∨ (∃ t, m !! id = Some (s, t)) →
  represents (BiDict_set id s e d) (<[id := (s, e)]> m).
Proof.
  intros Hr Hc. pose proof Hr as (Hf & Hb & He). split_and!; simpl.
  - intros i. destruct (decide (i = id)) as [->|]; [by rewrite !lookup_insert_eq|]. by rewrite !lookup_insert_ne by done.
  - intros s' i. destruct (decide (s' = s)) as [->|Hs]; [rewrite lookup_insert_eq|rewrite lookup_insert_ne by done]; split.
    + intros [= <-]. exists e. by rewrite lookup_insert_eq.
    + intros [t Ht]. destruct (decide (i = id)) as [->|Hi]; [done|]. rewrite lookup_insert_ne in Ht by done.
      destruct Hc as [[_ Hu]|[t' Ht']]; [by apply Hu in Ht|]. by destruct (represents_inj d m i id s t t').
    + intros [t Ht]%Hb. destruct (decide (i = id)) as [->|Hi].
      * destruct Hc as [[Hn _]|[t' Ht']]; [congruence|]. rewrite Ht in Ht'. injection Ht' as -> ->. done.
      * exists t. by rewrite lookup_insert_ne.
    + intros [t Ht]. destruct (decide (i = id)) as [->|Hi]; [rewrite lookup_insert_eq in Ht; congruence|].
      rewrite lookup_insert_ne in Ht by done. apply Hb. eauto.
  - intros s' x. destruct (decide (s' = s)) as [->|Hs]; [rewrite lookup_insert_eq|rewrite lookup_insert_ne by done]; split.
    + intros [= <-]. exists id. by rewrite lookup_insert_eq.
    + intros [i Ht]. destruct (decide (i = id)) as [->|Hi]; [rewrite lookup_insert_eq in Ht; congruence|].
      rewrite lookup_insert_ne in Ht by done.
      destruct Hc as [[_ Hu]|[t' Ht']]; [by apply Hu in Ht|]. by destruct (represents_inj d m i id s x t').
    + intros [i Ht]%He. destruct (decide (i = id)) as [->|Hi].
      * destruct Hc as [[Hn _]|[t' Ht']]; [congruence|]. rewrite Ht in Ht'. injection Ht' as -> ->. done.
      * exists i. by rewrite lookup_insert_ne.
    + intros [i Ht]. destruct (decide (i = id)) as [->|Hi]; [rewrite lookup_insert_eq in Ht; congruence|].
      rewrite lookup_insert_ne in Ht by done. apply He. eauto.
Qed.

(** Taking out an entry, whichever way it is named. *)
Lemma delete_represents d m id s t fwd : represents d m → m !! id = Some (s, t) →
  (∀ i, fwd !! i = mForwardMap d !! i) →
  represents (mkBiDict (delete id fwd) (delete s (mBackwardMap d)) (delete s (mExtMap d))) (delete id m).
Proof.
  intros Hr Hid Hfwd. pose proof Hr as (Hf & Hb & He). split_and!; simpl.
  - intros i. destruct (decide (i = id)) as [->|]; [by rewrite !lookup_delete_eq|]. by rewrite !lookup_delete_ne, Hfwd by done.
  - intros s' i. rewrite lookup_delete_Some, Hb. split.
    + intros [Hs [t' Ht]]. exists t'. rewrite lookup_delete_ne; [done|]. intros ->. congruence.
    + intros [t' [Hi Ht]%lookup_delete_Some]. split; [|eauto]. intros ->. apply Hi. by destruct (represents_inj d m id i s' t t').
  - intros s' x. rewrite lookup_delete_Some, He. split.
    + intros [Hs [i Ht]]. exists i. rewrite lookup_delete_ne; [done|]. intros ->. congruence.
    + intros [i [Hi Ht]%lookup_delete_Some]. split; [|eauto]. intros ->. apply Hi. by destruct (represents_inj d m id i s' t x).
Qed.

Lemma rmById_represents d m id s t : represents d m → m !! id = Some (s, t) → represents (rmById id d) (delete id m).
Proof.
  intros Hr Hid. pose proof Hr as (Hf & _). unfold rmById, at_or_insert. rewrite !Hf, Hid. simpl. rewrite Hf, Hid. simpl.
  by apply (delete_represents d m id s t).
Qed.

Lemma rmBySession_represents d m id s t : represents d m → m !! id = Some (s, t) → represents (rmBySession s d) (delete id m).
Proof.
  intros Hr Hid. pose proof Hr as (_ & Hb & _). unfold rmBySession, at_or_insert.
  rewrite (proj2 (Hb s id)) by eauto. by apply (delete_represents d m id s t).
Qed.

Lemma hasId_spec d m id : represents d m → hasId d id = bool_decide (is_Some (m !! id)).
Proof. intros (Hf & _). unfold hasId. rewrite Hf. apply bool_decide_ext. by rewrite fmap_is_Some. Qed.

Lemma hasSession_spec d m id s t : represents d m → m !! id = Some (s, t) → hasSession d s = true.
Proof. intros (_ & Hb & _) Hid. unfold hasSession. apply bool_decide_eq_true. exists id. apply Hb. eauto. Qed.

Lemma hasSession_unused d m s : represents d m → unused s m → hasSession d s = false.
Proof. intros Hr Hu. unfold hasSession. destruct (unused_back d m s) as [-> _]; [done..|]. rewrite bool_decide_false; [done|apply is_Some_None]. Qed.

Lemma getId_spec d m id s t : represents d m → m !! id = Some (s, t) → getId d s = id.
Proof. intros (_ & Hb & _) Hid. unfold getId. by rewrite (proj2 (Hb s id)) by eauto. Qed.

Lemma getSession_spec d m id : represents d m → getSession d id = default 0 (fst <$> m !! id).
Proof. intros (Hf & _). unfold getSession. by rewrite Hf. Qed.

Lemma getExtBySession_spec d m id s t : represents d m → m !! id = Some (s, t) → getExtBySession d s = t.
Proof. intros (_ & _ & He) Hid. unfold getExtBySession. by rewrite (proj2 (He s t)) by eauto. Qed.

Lemma getExtById_spec d m id s t : represents d m → m !! id = Some (s, t) → 0 < s → getExtById id d = (t, d).
Proof.
  intros (Hf & _ & He) Hid Hs. unfold getExtById, at_or_insert. rewrite Hf, Hid. simpl.
  rewrite (proj2 (Z.ltb_lt 0 s)) by done. rewrite (proj2 (He s t)) by eauto. by destruct d.
Qed.

Lemma getAllSessions_spec d m : represents d m → getAllSessions d ≡ₚ (map_to_list m).*2.*1 ∧ Sorted Z.le (getAllSessions d).
Proof.
  intros Hr. pose proof Hr as (_ & Hb & _). unfold getAllSessions. split; [|apply Sorted_merge_sort; apply _].
  rewrite merge_sort_Permutation. apply NoDup_Permutation.
  - apply NoDup_fst_map_to_list.
  - rewrite <- list_fmap_compose. apply NoDup_fmap_2_strong; [|apply NoDup_map_to_list].
    intros [i [s t]] [j [s' t']] Hi%elem_of_map_to_list Hj%elem_of_map_to_list E. simpl in E. subst s'.
    by destruct (represents_inj d m i j s t t') as [-> ->].
  - intros s. rewrite !list_elem_of_fmap. split.
    + intros ([s' i] & -> & H%elem_of_map_to_list). apply Hb in H as [t Ht]. exists (s', t). split; [done|].
      apply list_elem_of_fmap. exists (i, (s', t)). split; [done|]. by apply elem_of_map_to_list.
    + intros ([s' t] & -> & ([i [s1 t1]] & [= <- <-] & H%elem_of_map_to_list)%list_elem_of_fmap).
      exists (s', i). split; [done|]. apply elem_of_map_to_list, Hb. eauto.
Qed.
End bidict_spec.

(** The operations of a BiDict, on a dictionary that represents a one-to-one map of
    identifiers to sessions with a value each, do what they say: setting a new identifier
    with a new session, or the same pair again, inserts; removing an entry by either name
    deletes it; and the lookups answer from the map.  The identifier must be there when it
    is removed, and a session that is read by its identifier must not be 0. *)
Theorem bidict_refines_bijection {T} `{!Zeroed T} (d : BiDict T) (m : gmap Z (Z * T)) : represents d m →
  (∀ id s e, m !! id = None ∧ unused s m ∨ (∃ t, m !! id = Some (s, t)) → represents (BiDict_set id s e d) (<[id := (s, e)]> m)) ∧
  (∀ id s t, m !! id = Some (s, t) →
     represents (rmById id d) (delete id m) ∧ represents (rmBySession s d) (delete id m) ∧
     getId d s = id ∧ getSession d id = s ∧ hasSession d s = true ∧ getExtBySession d s = t ∧
     (0 < s → getExtById id d = (t, d))) ∧
  (∀ id, hasId d id = bool_decide (is_Some (m !! id))) ∧
  (∀ id, m !! id = None → getSession d id = 0) ∧
  (∀ s, unused s m → hasSession d s = false ∧ getId d s = 0 ∧ getExtBySession d s = zeroed) ∧
  getAllSessions d ≡ₚ (map_to_list m).*2.*1 ∧ Sorted Z.le (getAllSessions d) ∧ represents (BiDict_clear d) ∅.
Proof.
  intros Hr. split_and!.
  - intros. by apply set_represents.
  - intros id s t Hid. split_and!; eauto using rmById_represents, rmBySession_represents, getId_spec, hasSession_spec, getExtBySession_spec.
    + by rewrite (getSession_spec d m), Hid.
    + by apply (getExtById_spec d m).
  - intros id. by apply hasId_spec.
  - intros id Hid. by rewrite (getSession_spec d m), Hid.
  - intros s Hu. pose proof (unused_back d m s Hr Hu) as [H1 H2]. unfold getId, getExtBySession. rewrite H1, H2.
    split_and!; [by apply (hasSession_unused d m)|done|done].
  - by apply getAllSessions_spec.
  - by apply (getAllSessions_spec d m).
  - apply represents_empty.
Qed.

Lemma bidict_refines_bijection_witness :
  let m : gmap Z (Z * Z) := {[5 := (9, 3)]} in
  represents (BiDict_set 5 9 3 BiDict_empty) m ∧ represents (rmById 5 (BiDict_set 5 9 3 BiDict_empty)) (delete 5 m).
Proof.
  pose proof (set_represents (BiDict_empty : BiDict Z) ∅ 5 9 3 represents_empty) as H.
  assert (H' : represents (BiDict_set 5 9 3 (BiDict_empty : BiDict Z)) {[5 := (9, 3)]})
    by (apply H; left; split; [done|intros i t; by rewrite lookup_empty]).
  split; [done|]. by apply (bidict_refines_bijection _ {[5 := (9, 3)]} H').
Defined.

(** ** The configuration requests of LocationAPIControlClient *)
Section control_spec.
Context {GnssConfig GnssAidingData : Type} (equals : GnssConfig → GnssConfig → bool).
Implicit Types c : ControlClient (GnssConfig := GnssConfig) (GnssAidingData := GnssAidingData).

Inductive ctrl_op :=
  | CDeleteAidingData (data : GnssAidingData) (session : Z) | CEnable (techType session : Z) | CDisable
  | CUpdateConfig (config : GnssConfig) (idArray : ptr) | CGetConfig (mask : Z) (idArray : ptr)
  | CResponse (error : LocationError) (id : Z) | CCollective (errors : list LocationError) (ids : ptr).

Definition ctrl_exec (c : ControlClient (GnssConfig := GnssConfig) (GnssAidingData := GnssAidingData)) (o : ctrl_op) : ControlClient :=
  match o with
  | CDeleteAidingData d s => (locAPIGnssDeleteAidingData d s c).2
  | CEnable t s => (locAPIEnable t s c).2
  | CDisable => locAPIDisable c
  | CUpdateConfig g p => (locAPIGnssUpdateConfig equals g p c).2
  | CGetConfig k p => (locAPIGnssGetConfig k p c).2
  | CResponse e i => onCtrlResponseCb e i c
  | CCollective es p => onCtrlCollectiveResponseCb es p c
  end.

(** An answer carries an array of sessions. *)
Definition answers_have_ids (o : ctrl_op) : Prop := match o with CCollective _ p => p ≠ None | _ => True end.

Definition is_config_cb (cb : ctrl_callback) : bool :=
  match cb with onGnssUpdateConfigCb _ _ | onGnssGetConfigCb _ _ => true | _ => false end.

Definition is_config_queue (t : CTRL_REQUEST_TYPE) : bool :=
  match t with CTRL_REQUEST_CONFIG_UPDATE | CTRL_REQUEST_CONFIG_GET => true | _ => false end.

Definition is_get (o : ctrl_op) : bool := match o with CGetConfig _ (Some _) => true | _ => false end.

Definition getting c : list ctrl_request := mQueue (ctrl_queues c CTRL_REQUEST_CONFIG_GET).

(** No array of sessions was ever kept and no configuration was ever reported. *)
Definition config_unanswered c : Prop :=
  (∀ t, mSessionArrayPtr (ctrl_queues c t) = None) ∧ Forall (λ cb, is_config_cb cb = false) (ctrl_callbacks c).

Lemma upd_ctrl_queue_lookup t u f c :
  ctrl_queues (upd_ctrl_queue t f c) u = if decide (u = t) then f (ctrl_queues c t) else ctrl_queues c u.
Proof.
  unfold upd_ctrl_queue. simpl. destruct (decide (u = t)) as [->|]; [by rewrite fn_lookup_insert|by rewrite fn_lookup_insert_ne].
Qed.

(** An update of a queue that leaves its array alone. *)
Lemma unanswered_upd t f c : (∀ q, mSessionArrayPtr (f q) = mSessionArrayPtr q) → config_unanswered c → config_unanswered (upd_ctrl_queue t f c).
Proof. intros Hf [H1 H2]. split; [|done]. intros u. rewrite upd_ctrl_queue_lookup. destruct (decide (u = t)); [by rewrite Hf|done]. Qed.

Lemma getting_upd t f c : t ≠ CTRL_REQUEST_CONFIG_GET → getting (upd_ctrl_queue t f c) = getting c.
Proof. intros Ht. unfold getting. rewrite upd_ctrl_queue_lookup. by rewrite decide_False. Qed.

Lemma push_config_unanswered t r p c : config_unanswered c →
  push_config t r p c = (if is_null p then LOCATION_ERROR_GENERAL_FAILURE else LOCATION_ERROR_SUCCESS,
                         if is_null p then c else upd_ctrl_queue t (queue_push r) c).
Proof. intros [H _]. unfold push_config. destruct p; [|done]. simpl. by rewrite H. Qed.

Lemma pop_keeps_array (q : RequestQueue ctrl_request) : mSessionArrayPtr (queue_pop q).2 = mSessionArrayPtr q.
Proof. unfold queue_pop. by destruct (mQueue q). Qed.

(** An answer to a request that is not for the configuration. *)
Lemma response_unanswered e id c : config_unanswered c →
  config_unanswered (onCtrlResponseCb e id c) ∧ getting (onCtrlResponseCb e id c) = getting c ∧
  mLocationControlAPI (onCtrlResponseCb e id c) = mLocationControlAPI c.
Proof.
  intros Hc. unfold onCtrlResponseCb, ctrl_getRequestBySession, ctrl_pop.
  assert (G : ∀ t r q, t ≠ CTRL_REQUEST_CONFIG_GET → queue_pop (ctrl_queues c t) = (r, q) →
    let c' := match r with Some r => ctrl_onResponse r e (upd_ctrl_queue t (λ _, q) c) | None => upd_ctrl_queue t (λ _, q) c end in
    config_unanswered c' ∧ getting c' = getting c ∧ mLocationControlAPI c' = mLocationControlAPI c).
  { intros t r q Ht Eq. assert (Hu : config_unanswered (upd_ctrl_queue t (λ _, q) c)).
    { destruct Hc as [H1 H2]. split; [|done]. intros u. rewrite upd_ctrl_queue_lookup. destruct (decide (u = t)); [|done].
      rewrite <- (H1 t). by rewrite <- (pop_keeps_array (ctrl_queues c t)), Eq. }
    destruct r as [r|]; [|split_and!; [done|by apply getting_upd|done]].
    destruct Hu as [H1 H2]. destruct r; (split_and!; [split; [done|]|by apply getting_upd|done]);
      simpl; try (apply Forall_app; split; [done|by repeat constructor]); done. }
  destruct (mSession (ctrl_queues c CTRL_REQUEST_DELETEAIDINGDATA) =? id).
  - destruct (queue_pop _) as [r q] eqn:Eq. by apply (G CTRL_REQUEST_DELETEAIDINGDATA).
  - destruct (mSession (ctrl_queues c CTRL_REQUEST_CONTROL) =? id); [|done].
    destruct (queue_pop _) as [r q] eqn:Eq. by apply (G CTRL_REQUEST_CONTROL).
Qed.

Lemma ctrl_exec_unanswered c o : config_unanswered c → answers_have_ids o →
  config_unanswered (ctrl_exec c o) ∧ mLocationControlAPI (ctrl_exec c o) = mLocationControlAPI c ∧
  length (getting (ctrl_exec c o)) = (length (getting c) + if mLocationControlAPI c && is_get o then 1 else 0)%nat.
Proof.
  intros Hc Ho. destruct o as [d s|t s| |g p|k p|e id|es p]; cbn [ctrl_exec is_get]; rewrite ?andb_false_r, ?Nat.add_0_r.
  - unfold locAPIGnssDeleteAidingData. destruct (mLocationControlAPI c) eqn:Ea; [|by split_and!]. simpl.
    split_and!; [by apply unanswered_upd|done|by rewrite getting_upd].
  - unfold locAPIEnable. destruct (mEnabled c); [by split_and!|]. destruct (mLocationControlAPI c) eqn:Ea; [|by split_and!]. simpl.
    split_and!; [by apply (unanswered_upd CTRL_REQUEST_CONTROL (λ q, queue_push EnableRequest (queue_reset s q)))|done|].
    by rewrite <- (getting_upd CTRL_REQUEST_CONTROL (λ q, queue_push EnableRequest (queue_reset s q)) c).
  - unfold locAPIDisable. destruct (mEnabled c && mLocationControlAPI c); [|by split_and!]. destruct (0 <? _); [|by split_and!].
    split_and!; [by apply (unanswered_upd CTRL_REQUEST_CONTROL (queue_push DisableRequest))|done|].
    by rewrite <- (getting_upd CTRL_REQUEST_CONTROL (queue_push DisableRequest) c).
  - unfold locAPIGnssUpdateConfig. destruct (mLocationControlAPI c) eqn:Ea; [|by split_and!]. destruct (equals (mConfig c) g); [by split_and!|].
    rewrite push_config_unanswered by done. simpl. destruct (is_null p); [done|].
    split_and!; [by apply (unanswered_upd CTRL_REQUEST_CONFIG_UPDATE (queue_push GnssUpdateConfigRequest) (ctrl_api (CtrlGnssUpdateConfig g) (set_mConfig g c)))|done|].
    by rewrite (getting_upd CTRL_REQUEST_CONFIG_UPDATE (queue_push GnssUpdateConfigRequest) (ctrl_api (CtrlGnssUpdateConfig g) (set_mConfig g c))).
  - unfold locAPIGnssGetConfig. destruct (mLocationControlAPI c) eqn:Ea; [|simpl; by rewrite Nat.add_0_r].
    rewrite push_config_unanswered by done. simpl. destruct p as [p|]; simpl; [|by rewrite Nat.add_0_r].
    split_and!; [by apply unanswered_upd|done|]. unfold getting. rewrite upd_ctrl_queue_lookup, decide_True by done.
    simpl. by rewrite length_app.
  - destruct (response_unanswered e id c Hc) as (H1 & H2 & H3). by rewrite H2.
  - unfold onCtrlCollectiveResponseCb, getRequestBySessionArrayPtr. destruct Hc as [H1 H2]. rewrite !H1.
    rewrite !decide_False by (intros E; by apply Ho). done.
Qed.
End control_spec.
Arguments ctrl_op : clear implicits.

(** The configuration requests of LocationAPIControlClient are never answered: in
    every execution in which the answers of the API carry an array of sessions, neither
    onGnssUpdateConfigCb nor onGnssGetConfigCb is ever called, and every request for the
    configuration stays in its queue.  The queue is given the array of the request only
    when it has one already, and it never has. *)
Theorem config_requests_never_answered {GnssConfig GnssAidingData} (equals : GnssConfig → GnssConfig → bool) (zero : GnssConfig) (ops : list (ctrl_op GnssConfig GnssAidingData)) :
  Forall answers_have_ids ops →
  let c := fold_left (ctrl_exec equals) ops (newControlClient true zero) in
  (∀ errors ids, onGnssUpdateConfigCb errors ids ∉ ctrl_callbacks c ∧ onGnssGetConfigCb errors ids ∉ ctrl_callbacks c) ∧
  length (getting c) = length (filter (λ o, is_get o = true) ops).
Proof.
  intros Hops.
  assert (G : ∀ c0, config_unanswered c0 → mLocationControlAPI c0 = true →
    config_unanswered (fold_left (ctrl_exec equals) ops c0) ∧
    length (getting (fold_left (ctrl_exec equals) ops c0)) = (length (getting c0) + length (filter (λ o, is_get o = true) ops))%nat).
  { induction Hops as [|o ops Ho _ IH]; intros c0 H0 Ha; [by rewrite Nat.add_0_r|]. cbn [fold_left].
    destruct (ctrl_exec_unanswered equals c0 o H0 Ho) as (H1 & H2 & H3). rewrite Ha in H2, H3.
    destruct (IH _ H1 H2) as [I1 I2]. split; [done|]. rewrite I2, H3. cbn [andb].
    destruct (is_get o) eqn:Eo; [rewrite filter_cons_True by done|rewrite filter_cons_False by (by rewrite Eo)]; simpl; lia. }
  destruct (G (newControlClient true zero)) as [[_ H1] H2]; [split; [done|constructor]|done|]. cbv zeta. split; [|done].
  intros errors ids. split; intros Hin; rewrite Forall_forall in H1; by apply H1 in Hin.
Qed.

Lemma config_requests_never_answered_witness :
  let ops := [CGetConfig 3 (Some 1%positive); CUpdateConfig 7 (Some 2%positive); CCollective [LOCATION_ERROR_SUCCESS] (Some 1%positive)] in
  let c := fold_left (ctrl_exec Z.eqb) ops (newControlClient true 0) in
  (∀ errors ids, onGnssUpdateConfigCb errors ids ∉ ctrl_callbacks c ∧ onGnssGetConfigCb errors ids ∉ ctrl_callbacks c) ∧
  length (getting c) = length (filter (λ o : ctrl_op Z Z, is_get o = true) ops).
Proof. apply (config_requests_never_answered Z.eqb 0). by repeat constructor. Defined.

Lemma upd_queue_lookup t u f c :
  mRequestQueues (upd_queue t f c) u = if decide (u = t) then f (mRequestQueues c t) else mRequestQueues c u.
Proof.
  unfold upd_queue. simpl. destruct (decide (u = t)) as [->|]; [by rewrite fn_lookup_insert|by rewrite fn_lookup_insert_ne].
Qed.


(** ** What the client does not expect *)

Definition some_options : TrackingOptions := mkTrackingOptions (mkLocationOptions 24 1000 5 GNSS_SUPL_MODE_MSB 0) GNSS_POWER_MODE_M2 0.
Definition ready : ClientBase := locAPISetCallbacks true true newClientBase.
Definition fix_started (id session : Z) (c : ClientBase) : ClientBase := (locAPIStartSession id SESSION_MODE_ON_FIX some_options session c).2.
Definition full_started (id session : Z) (c : ClientBase) : ClientBase := (locAPIStartSession id SESSION_MODE_ON_FULL some_options session c).2.
Definition ok_for (session : Z) : ClientBase → ClientBase := onResponseCb LOCATION_ERROR_SUCCESS session.

(** What is asked of LocationAPIClientBase in some order comes out as something else:
    stopping a session twice leaves a request behind, and the answer to the next start
    is reported as that of a stop;
    when the answers of tracking and batching cross, each is reported as the other;
    a start after a stop throws the request of the stop away, and its answer is lost;
    a session that the API refuses by returning 0 is kept, and stopping it stops the
    batching session 0;
    an update of a batching session asks for an interval and a distance of 0;
    modifying an unknown geofence with a known one pairs the known one with the options
    of the unknown;
    and a configuration that could not be sent is taken as set when it is sent again. *)
Theorem client_goes_wrong :
  (let c := ok_for 9 (fix_started 5 9 ready) in
   let c := ok_for 9 (ok_for 9 (locAPIStopSession 5 (locAPIStopSession 5 c).2).2) in
   callbacks (ok_for 10 (fix_started 6 10 c)) =
     [onStartTrackingCb LOCATION_ERROR_SUCCESS; onStopTrackingCb LOCATION_ERROR_SUCCESS; onStopTrackingCb LOCATION_ERROR_SUCCESS]) ∧
  (let c := full_started 6 10 (fix_started 5 9 ready) in
   callbacks (ok_for 9 (onResponseCb LOCATION_ERROR_NOT_SUPPORTED 10 c)) =
     [onStartTrackingCb LOCATION_ERROR_NOT_SUPPORTED; onStartBatchingCb LOCATION_ERROR_SUCCESS] ∧
   hasId (mSessionBiDict (ok_for 9 (onResponseCb LOCATION_ERROR_NOT_SUPPORTED 10 c))) 6 = false) ∧
  (let c := ok_for 9 (locAPIStartTracking some_options 9 ready).2 in
   let c := (locAPIStartTracking some_options 10 (locAPIStopTracking c)).2 in
   callbacks (ok_for 10 (ok_for 9 c)) = [onStartTrackingCb LOCATION_ERROR_SUCCESS; onStartTrackingCb LOCATION_ERROR_SUCCESS]) ∧
  (let c := (locAPIStopSession 5 (fix_started 5 0 ready)).2 in
   api_calls c = [ApiStartTracking some_options 0; ApiStopBatching 0] ∧ hasId (mSessionBiDict c) 5 = true ∧
   (locAPIStartSession 5 SESSION_MODE_ON_FIX some_options 9 c).1 = LOCATION_ERROR_ALREADY_STARTED) ∧
  (let c := (locAPIUpdateSessionOptions 5 SESSION_MODE_ON_FULL some_options 0 (ok_for 9 (full_started 5 9 ready))).2 in
   last (api_calls c) = Some (ApiUpdateBatchingOptions 9 (Build_BatchingOptions 24 0 0 GNSS_SUPL_MODE_STANDALONE BATCHING_MODE_ROUTINE))) ∧
  (let enter := Build_GeofenceOption 1 0 0 in let exit := Build_GeofenceOption 2 0 0 in
   let c := (locAPIAddGeofences [(5, enter)] [] (Some [11]) ready).2 in
   last (api_calls (locAPIModifyGeofences true [(7, enter); (5, exit)] c)) = Some (ApiModifyGeofences [11] [enter; exit]) ∧
   getExtBySession (mGeofenceBiDict (locAPIModifyGeofences true [(7, enter); (5, exit)] c)) 11 = 2) ∧
  (let c := newControlClient true 0 in
   let failed := locAPIGnssUpdateConfig (GnssAidingData := Z) Z.eqb 7 None c in
   failed.1 = LOCATION_ERROR_GENERAL_FAILURE ∧ locAPIGnssUpdateConfig Z.eqb 7 None failed.2 = (LOCATION_ERROR_SUCCESS, failed.2)).
Proof. split_and!; by vm_compute. Qed.
