(* ===== verification/ClientSessions.v ===== *)
(** * gps/location/LocationAPIClientBase.cpp : the sessions of a client.

    Every request of a session that the API answers reaches the client as the callback that
    goes with it, in all the executions in which a session has one request at a time and the
    answers come in order. *)
From stdpp Require Import functions.
From S2P Require Import Prelude PbEnums LocApi LocApiBatch LocApiTrack ClientBase.
Local Open Scope Z_scope.

(** The callback that goes with a request. *)
Definition answer_of (r : LocationAPIRequest) (e : LocationError) : client_callback :=
  match r with
  | StartTrackingRequest => onStartTrackingCb e
  | StopTrackingRequest => onStopTrackingCb e
  | UpdateTrackingOptionsRequest => onUpdateTrackingOptionsCb e
  | StartBatchingRequest => onStartBatchingCb e
  | StopBatchingRequest => onStopBatchingCb e
  | UpdateBatchingOptionsRequest => onUpdateBatchingOptionsCb e
  | GetBatchedLocationsRequest => onGetBatchedLocationsCb e
  | _ => onGnssNiResponseCb e
  end.

Definition is_session_request (r : LocationAPIRequest) : bool :=
  match r with
  | StartTrackingRequest | StopTrackingRequest | UpdateTrackingOptionsRequest | StartBatchingRequest
  | StopBatchingRequest | UpdateBatchingOptionsRequest | GetBatchedLocationsRequest => true
  | _ => false
  end.

Definition on_fix (mode : Z) : bool := mode =? SESSION_MODE_ON_FIX.
Definition session_of (e : SessionEntity) : Z :=
  if on_fix (entity_sessionMode e) then trackingSession e else batchingSession e.

(** The sessions of the queues that are looked at first. *)
Definition foreign (c : ClientBase) : list Z :=
  [mSession (mRequestQueues c REQUEST_TRACKING); mSession (mRequestQueues c REQUEST_NIRESPONSE)].

(** [pend]: the requests that wait for an answer, each with its session, in their order.
    [m]: the sessions of the client. *)
Record inv (c : ClientBase) (pend : list (Z * LocationAPIRequest)) (m : gmap Z (Z * SessionEntity)) : Prop := {
  inv_api : mLocationAPI c = true;
  inv_dict : represents (mSessionBiDict c) m;
  inv_sess : ∀ id s e, m !! id = Some (s, e) → 0 < s ∧ session_of e = s;
  inv_queue : mQueue (mRequestQueues c REQUEST_SESSION) = pend.*2;
  inv_nodup : NoDup pend.*1;
  inv_pend : ∀ s r, (s, r) ∈ pend → (∃ id e, m !! id = Some (s, e)) ∧ is_session_request r = true;
  inv_foreign : Forall (λ s, unused s m) (foreign c)
}.

Lemma inv_used c pend m s : inv c pend m → hasSession (mSessionBiDict c) s = true ↔ ∃ id e, m !! id = Some (s, e).
Proof.
  intros H. destruct (inv_dict _ _ _ H) as (_ & Hb & _). unfold hasSession. rewrite bool_decide_eq_true. split.
  - intros [id [t Ht]%Hb]. eauto.
  - intros (id & e & Ht). exists id. apply Hb. eauto.
Qed.

Lemma inv_unused c pend m s : inv c pend m → hasSession (mSessionBiDict c) s = false → unused s m.
Proof. intros H Hs i t Hi. assert (hasSession (mSessionBiDict c) s = true) by (apply (inv_used c pend m); eauto). congruence. Qed.

Lemma inv_hasId c pend m id : inv c pend m → hasId (mSessionBiDict c) id = true →
  ∃ s e, m !! id = Some (s, e) ∧ getSession (mSessionBiDict c) id = s ∧ getExtBySession (mSessionBiDict c) s = e ∧
         session_entity id c = (e, c).
Proof.
  intros H Hid. pose proof (inv_dict _ _ _ H) as Hr. rewrite (hasId_spec _ m) in Hid by done.
  apply bool_decide_eq_true in Hid as [[s e] Hm]. exists s, e. split_and!; [done| | |].
  - by rewrite (getSession_spec _ m), Hm.
  - by apply (getExtBySession_spec _ m id).
  - unfold session_entity. rewrite (getExtById_spec _ m id s e) by (done || by apply (inv_sess _ _ _ H) in Hm as []).
    by destruct c.
Qed.

(** A request is pushed and the dictionary changes to [m']. *)
Lemma inv_extend c c' pend m m' s r : inv c pend m →
  mLocationAPI c' = true → represents (mSessionBiDict c') m' →
  (∀ id s e, m' !! id = Some (s, e) → 0 < s ∧ session_of e = s) →
  mQueue (mRequestQueues c' REQUEST_SESSION) = mQueue (mRequestQueues c REQUEST_SESSION) ++ [r] →
  s ∉ pend.*1 → (∃ id e, m' !! id = Some (s, e)) → is_session_request r = true →
  (∀ s0, s0 ∈ pend.*1 → (∃ id e, m !! id = Some (s0, e)) → ∃ id e, m' !! id = Some (s0, e)) →
  foreign c' = foreign c → Forall (λ s, unused s m') (foreign c) →
  inv c' (pend ++ [(s, r)]) m'.
Proof.
  intros H Ha Hr Hs Hq Hn Hi Hk Hp Hf Hu. split; try done.
  - by rewrite Hq, (inv_queue _ _ _ H), fmap_app.
  - rewrite fmap_app. apply NoDup_app. split_and!; [by apply (inv_nodup _ _ _ H)|set_solver|apply NoDup_singleton].
  - intros s0 r0 [H0|H0]%elem_of_app.
    + pose proof (inv_pend _ _ _ H _ _ H0) as [H1 H2]. split; [|done]. apply Hp; [|done]. apply list_elem_of_fmap. by exists (s0, r0).
    + apply list_elem_of_singleton in H0 as [= -> ->]. done.
  - by rewrite Hf.
Qed.

(** A new session in place of none, or of the one that [id] had. *)
Lemma new_session_unused (m : gmap Z (Z * SessionEntity)) id s e s0 : s0 ≠ s → unused s0 m → unused s0 (<[id := (s, e)]> m).
Proof.
  intros Hs Hu i t. destruct (decide (i = id)) as [->|]; [rewrite lookup_insert_eq; congruence|]. rewrite lookup_insert_ne by done. apply Hu.
Qed.

Lemma kept_session (m : gmap Z (Z * SessionEntity)) id s e s0 :
  (∃ t, m !! id = Some (s, t)) ∨ m !! id = None ∨ (∃ s1 t, m !! id = Some (s1, t) ∧ s1 ≠ s0) →
  (∃ i t, m !! i = Some (s0, t)) → ∃ i t, <[id := (s, e)]> m !! i = Some (s0, t).
Proof.
  intros Hc (i & t & Hi). destruct (decide (i = id)) as [->|].
  - exists id, e. rewrite lookup_insert_eq. destruct Hc as [[t' H]|[H|(s1 & t' & H & Hne)]]; congruence.
  - exists i, t. by rewrite lookup_insert_ne.
Qed.

Lemma insert_sess (m : gmap Z (Z * SessionEntity)) id s e :
  (∀ id s e, m !! id = Some (s, e) → 0 < s ∧ session_of e = s) → 0 < s → session_of e = s →
  ∀ i s' e', <[id := (s, e)]> m !! i = Some (s', e') → 0 < s' ∧ session_of e' = s'.
Proof.
  intros Hm Hs He i s' e'. destruct (decide (i = id)) as [->|]; [rewrite lookup_insert_eq; by intros [= <- <-]|].
  rewrite lookup_insert_ne by done. apply Hm.
Qed.

(** A session that the API has not given out to this client. *)
Definition fresh_session (c : ClientBase) (s : Z) : Prop :=
  0 < s ∧ hasSession (mSessionBiDict c) s = false ∧ s ∉ foreign c.

Lemma fresh_not_pending c pend m s : inv c pend m → fresh_session c s → s ∉ pend.*1.
Proof.
  intros H (_ & Hs & _) ([s' r] & -> & Hp)%list_elem_of_fmap. apply (inv_pend _ _ _ H) in Hp as [Hu _].
  apply (inv_used c pend m) in Hu; [|done]. simpl in Hs. congruence.
Qed.

Lemma foreign_kept (m : gmap Z (Z * SessionEntity)) c id s e :
  s ∉ foreign c → Forall (λ s, unused s m) (foreign c) → Forall (λ s0, unused s0 (<[id := (s, e)]> m)) (foreign c).
Proof.
  intros Hs Hf. rewrite Forall_forall in Hf |- *. intros s0 H0. apply new_session_unused; [|by apply Hf]. set_solver.
Qed.

Definition start_request (mode : Z) : LocationAPIRequest := if on_fix mode then StartTrackingRequest else StartBatchingRequest.
Definition stop_request (mode : Z) : LocationAPIRequest := if on_fix mode then StopTrackingRequest else StopBatchingRequest.
Definition update_request (mode : Z) : LocationAPIRequest := if on_fix mode then UpdateTrackingOptionsRequest else UpdateBatchingOptionsRequest.

Lemma inv_start c pend m id mode opts ret : inv c pend m → hasId (mSessionBiDict c) id = false → fresh_session c ret →
  ∃ m', inv (locAPIStartSession id mode opts ret c).2 (pend ++ [(ret, start_request mode)]) m'.
Proof.
  intros H Hid Hfr. pose proof (fresh_not_pending _ _ _ _ H Hfr) as Hp. destruct Hfr as (Hpos & Hs & Hf).
  pose proof Hid as Hid'. rewrite (hasId_spec _ m) in Hid' by apply H. apply bool_decide_eq_false in Hid'.
  apply eq_None_not_Some in Hid'.
  unfold locAPIStartSession. rewrite (inv_api _ _ _ H), Hid. cbn [snd]. fold (on_fix mode).
  exists (<[id := (ret, mkEntity id (if on_fix mode then ret else 0) (if on_fix mode then 0 else ret) mode)]> m).
  eapply (inv_extend c _ pend m); [done|..].
  - by destruct (on_fix mode); apply (inv_api _ _ _ H).
  - assert (represents (mSessionBiDict c) m) by apply H.
    destruct (on_fix mode); simpl; (apply set_represents; [done|left; split; [done|by eapply inv_unused]]).
  - apply insert_sess; [apply H|done|]. unfold session_of. simpl. by destruct (on_fix mode).
  - unfold start_request. destruct (on_fix mode); simpl; unfold push; repeat (rewrite upd_queue_lookup, decide_True by done); done.
  - done.
  - eexists id, _. by rewrite lookup_insert_eq.
  - unfold start_request. by destruct (on_fix mode).
  - intros s0 _ H0. apply kept_session; [by right; left|done].
  - unfold foreign, push. destruct (on_fix mode); simpl; repeat (rewrite upd_queue_lookup, decide_False by done); done.
  - apply foreign_kept; [done|apply H].
Qed.

Lemma inv_same c c' pend m id s e r : inv c pend m → m !! id = Some (s, e) → s ∉ pend.*1 → is_session_request r = true →
  mLocationAPI c' = true → mSessionBiDict c' = mSessionBiDict c →
  mQueue (mRequestQueues c' REQUEST_SESSION) = mQueue (mRequestQueues c REQUEST_SESSION) ++ [r] →
  foreign c' = foreign c → inv c' (pend ++ [(s, r)]) m.
Proof.
  intros H Hm Hp Hr Ha Hd Hq Hf. eapply (inv_extend c c' pend m m s r); try done; try (by apply H).
  - rewrite Hd. apply H.
  - eauto.
Qed.

Lemma inv_stop c pend m id : inv c pend m → hasId (mSessionBiDict c) id = true →
  let s := getSession (mSessionBiDict c) id in s ∉ pend.*1 →
  inv (locAPIStopSession id c).2 (pend ++ [(s, stop_request (entity_sessionMode (getExtBySession (mSessionBiDict c) s)))]) m.
Proof.
  intros H Hid s Hp. destruct (inv_hasId c pend m id H Hid) as (s' & e & Hm & Hs & He & Hse). subst s. rewrite Hs in *. rewrite He.
  unfold locAPIStopSession. rewrite (inv_api _ _ _ H), Hid, Hse. cbn [snd]. fold (on_fix (entity_sessionMode e)).
  unfold stop_request. destruct (on_fix (entity_sessionMode e)); apply (inv_same c _ pend m id s' e); try done; try (by apply H);
    unfold foreign, push; simpl; rewrite ?fn_lookup_insert; try done; by rewrite !fn_lookup_insert_ne by done.
Qed.

Lemma inv_get c pend m id n : inv c pend m → hasId (mSessionBiDict c) id = true →
  let s := getSession (mSessionBiDict c) id in s ∉ pend.*1 →
  on_fix (entity_sessionMode (getExtBySession (mSessionBiDict c) s)) = false →
  inv (locAPIGetBatchedLocations id n c).2 (pend ++ [(s, GetBatchedLocationsRequest)]) m.
Proof.
  intros H Hid s Hp. destruct (inv_hasId c pend m id H Hid) as (s' & e & Hm & Hs & He & Hse). subst s. rewrite Hs in *. rewrite He. intros Hfix.
  unfold locAPIGetBatchedLocations. rewrite (inv_api _ _ _ H), Hid, Hse. fold (on_fix (entity_sessionMode e)). rewrite Hfix.
  apply (inv_same c _ pend m id s' e); try done; try (by apply H); unfold foreign, push; simpl; rewrite ?fn_lookup_insert; try done;
    by rewrite !fn_lookup_insert_ne by done.
Qed.

(** The entry of [id] is replaced. *)
Lemma inv_replace c c1 pend m id s e s' e' r : inv c pend m → m !! id = Some (s, e) → s ∉ pend.*1 →
  s' = s ∨ fresh_session c s' → session_of e' = s' → is_session_request r = true →
  mLocationAPI c1 = true → mSessionBiDict c1 = mSessionBiDict c →
  mQueue (mRequestQueues c1 REQUEST_SESSION) = mQueue (mRequestQueues c REQUEST_SESSION) ++ [r] → foreign c1 = foreign c →
  inv (upd_sessions (λ d, BiDict_set id s' e' (rmById id d)) c1) (pend ++ [(s', r)]) (<[id := (s', e')]> m).
Proof.
  intros H Hm Hp Hs' He' Hr Ha Hd Hq Hf. destruct (inv_sess _ _ _ H _ _ _ Hm) as [Hpos _].
  assert (Hdict : represents (rmById id (mSessionBiDict c)) (delete id m)) by (by eapply rmById_represents; [apply H|]).
  eapply (inv_extend c _ pend m); [done|done| | |done| | |done| |done|].
  - simpl. rewrite Hd, <- insert_delete_eq. apply set_represents; [done|]. left. split; [by rewrite lookup_delete_eq|].
    intros i t [Hi Hit]%lookup_delete_Some. destruct Hs' as [->|(_ & Hu & _)].
    + apply Hi. by destruct (represents_inj _ _ id i s e t (inv_dict _ _ _ H) Hm Hit).
    + by apply (inv_unused c pend m s' H Hu) in Hit.
  - apply insert_sess; [apply H| |done]. destruct Hs' as [->|(? & _)]; done.
  - destruct Hs' as [->|Hfr]; [done|]. by apply (fresh_not_pending _ _ _ _ H).
  - eexists id, _. by rewrite lookup_insert_eq.
  - intros s0 H0. apply kept_session. right. right. exists s, e. split; [done|]. by intros ->.
  - destruct Hs' as [->|(_ & _ & Hn)]; [|by apply foreign_kept; [|apply H]]. apply foreign_kept; [|apply H].
    intros Hin. pose proof (inv_foreign _ _ _ H) as Hfo. rewrite Forall_forall in Hfo. by apply Hfo in Hm.
Qed.

(** An update within the same kind of session keeps the session; otherwise it starts a new one. *)
Lemma inv_update c pend m id mode opts ret : inv c pend m → hasId (mSessionBiDict c) id = true →
  let s := getSession (mSessionBiDict c) id in
  let same := Bool.eqb (on_fix mode) (on_fix (entity_sessionMode (getExtBySession (mSessionBiDict c) s))) in
  s ∉ pend.*1 → (same = false → fresh_session c ret) →
  ∃ m', inv (locAPIUpdateSessionOptions id mode opts ret c).2 (pend ++ [(if same then s else ret, update_request mode)]) m'.
Proof.
  intros H Hid s same Hp. destruct (inv_hasId c pend m id H Hid) as (s' & e & Hm & Hs & He & Hse).
  subst same s. rewrite Hs in *. rewrite He. intros Hfr.
  unfold locAPIUpdateSessionOptions. rewrite (inv_api _ _ _ H), Hid, Hse. unfold update_calls, update_request.
  fold (on_fix mode) (on_fix (entity_sessionMode e)) in *.
  destruct (inv_sess _ _ _ H _ _ _ Hm) as [_ Hso]. unfold session_of in Hso.
  assert (Hnew : Bool.eqb (on_fix mode) (on_fix (entity_sessionMode e)) = false → ret = s' ∨ fresh_session c ret) by (intros E; right; auto).
  destruct (on_fix mode) eqn:Emode, (on_fix (entity_sessionMode e)) eqn:Eold; cbn [Bool.eqb snd] in *; try rewrite Hso; eexists;
    (eapply (inv_replace c _ pend m id s' e); [done..| | | |by apply (inv_api _ _ _ H)|done| |]);
    unfold session_of; simpl; rewrite ?Emode; try done; try (by left); try (by apply Hnew);
    unfold foreign, push; simpl; rewrite ?fn_lookup_insert; try done; by rewrite !fn_lookup_insert_ne by done.
Qed.

(** ** Answers *)

Lemma used_not_foreign c pend m s id e : inv c pend m → m !! id = Some (s, e) → s ∉ foreign c.
Proof. intros H Hm Hin. pose proof (inv_foreign _ _ _ H) as Hf. rewrite Forall_forall in Hf. by apply Hf in Hm. Qed.

Lemma request_of_session c s : s ∉ foreign c →
  getRequestBySession s c = if hasSession (mSessionBiDict c) s then pop REQUEST_SESSION c else (None, c).
Proof.
  intros Hs. unfold getRequestBySession, foreign in *.
  rewrite (proj2 (Z.eqb_neq (mSession (mRequestQueues c REQUEST_TRACKING)) s)) by set_solver.
  by rewrite (proj2 (Z.eqb_neq (mSession (mRequestQueues c REQUEST_NIRESPONSE)) s)) by set_solver.
Qed.

(** A session without outstanding requests is forgotten. *)
Lemma inv_remove c pend m s : inv c pend m → s ∉ pend.*1 → ∃ m', inv (removeSession s c) pend m'.
Proof.
  intros H Hp. unfold removeSession. destruct (hasSession (mSessionBiDict c) s) eqn:E; [|by exists m].
  apply (inv_used c pend m) in E as (id & e & Hm); [|done]. exists (delete id m). split; try by apply H.
  - simpl. by eapply rmBySession_represents; [apply H|].
  - intros i s' e' [_ Hi]%lookup_delete_Some. by apply (inv_sess _ _ _ H i).
  - intros s' r Hin. destruct (inv_pend _ _ _ H s' r Hin) as [(i & e' & Hi) Hr]. split; [|done]. exists i, e'.
    rewrite lookup_delete_ne; [done|]. intros ->. apply Hp, list_elem_of_fmap. exists (s', r). split; [simpl; congruence|done].
  - pose proof (inv_foreign _ _ _ H) as Hf. eapply Forall_impl; [apply Hf|]. intros s0 Hu i t [_ Hi]%lookup_delete_Some. by apply Hu in Hi.
Qed.

Lemma inv_callback c pend m cb : inv c pend m → inv (callback cb c) pend m.
Proof. intros H. split; by apply H. Qed.

Lemma callbacks_remove s c : callbacks (removeSession s c) = callbacks c.
Proof. unfold removeSession. by destruct (hasSession _ s). Qed.

Lemma inv_answer c pend m s r e : inv c ((s, r) :: pend) m →
  (∃ m', inv (onResponseCb e s c) pend m') ∧ callbacks (onResponseCb e s c) = callbacks c ++ [answer_of r e].
Proof.
  intros H. destruct (inv_pend _ _ _ H s r) as [(id & ent & Hm) Hr]; [by left|].
  unfold onResponseCb. rewrite request_of_session by by eapply used_not_foreign.
  rewrite (proj2 (inv_used _ _ _ s H)) by eauto. unfold pop, queue_pop. rewrite (inv_queue _ _ _ H). cbn [fmap list_fmap snd].
  set (q := mkQueue _ _ _). set (c1 := upd_queue REQUEST_SESSION (λ _, q) c).
  pose proof (inv_nodup _ _ _ H) as Hnd. apply NoDup_cons in Hnd as [Hs Hnd]. simpl in Hs.
  assert (H1 : inv c1 pend m).
  { split; try (by apply H).
    - unfold c1. by rewrite upd_queue_lookup, decide_True by done.
    - done.
    - intros s' r' Hin. apply (inv_pend _ _ _ H). by right. }
  assert (H2 : ∃ m', inv (removeSession s c1) pend m') by by eapply inv_remove.
  assert (H3 : ∀ cb, ∃ m', inv (removeSession s (callback cb c1)) pend m') by (intros cb; eapply inv_remove; [by apply inv_callback|done]).
  destruct H2 as [m2 H2]. unfold onResponse.
  destruct r; try done; destruct (is_success e); (split; [|by rewrite ?callbacks_remove; simpl; rewrite ?callbacks_remove]); eauto using inv_callback.
Qed.

(** An answer for a session of nobody. *)
Lemma stray_answer c s e : s ∉ foreign c → hasSession (mSessionBiDict c) s = false → onResponseCb e s c = c.
Proof. intros Hf Hs. unfold onResponseCb. by rewrite request_of_session, Hs. Qed.

(** ** Everything else leaves the sessions alone *)

Definition same_sessions (c c' : ClientBase) : Prop :=
  mLocationAPI c' = mLocationAPI c ∧ mSessionBiDict c' = mSessionBiDict c ∧
  mQueue (mRequestQueues c' REQUEST_SESSION) = mQueue (mRequestQueues c REQUEST_SESSION).

Definition foreign_apart (c : ClientBase) : Prop := Forall (λ s, hasSession (mSessionBiDict c) s = false) (foreign c).

(** The sessions are the same and those of the other queues are still apart from them. *)
Definition aside (c c' : ClientBase) : Prop := same_sessions c c' ∧ (foreign_apart c → foreign_apart c').

#[export] Instance aside_preorder : PreOrder aside.
Proof.
  split; [by intros c|]. intros c1 c2 c3 [(A1 & D1 & Q1) F1] [(A2 & D2 & Q2) F2].
  split; [split_and!; congruence|auto].
Qed.

Lemma inv_apart c pend m : inv c pend m → foreign_apart c.
Proof.
  intros H. eapply Forall_impl; [apply (inv_foreign _ _ _ H)|]. intros s Hu. eapply hasSession_unused; [apply H|done].
Qed.

Lemma inv_aside c c' pend m : inv c pend m → aside c c' → inv c' pend m.
Proof.
  intros H [(Ha & Hd & Hq) Hf]. split; try (by apply H).
  - rewrite Ha. apply H.
  - rewrite Hd. apply H.
  - rewrite Hq. apply H.
  - eapply Forall_impl; [apply Hf; by eapply inv_apart|]. intros s. rewrite Hd. intros Hs. by eapply inv_unused.
Qed.

(** What is outside the dictionary of sessions and the queues. *)
Lemma aside_fields c c' : mLocationAPI c' = mLocationAPI c → mSessionBiDict c' = mSessionBiDict c →
  mRequestQueues c' = mRequestQueues c → aside c c'.
Proof. intros Ha Hd Hq. unfold aside, same_sessions, foreign_apart, foreign. by rewrite Ha, Hd, Hq. Qed.

Lemma aside_queue t f c : t ≠ REQUEST_SESSION → let q := mRequestQueues c t in
  mSession (f q) = mSession q ∨ hasSession (mSessionBiDict c) (mSession (f q)) = false → aside c (upd_queue t f c).
Proof.
  intros Ht. cbv zeta. intros Hf. split; [split_and!; [done|done|by rewrite upd_queue_lookup, decide_False]|].
  unfold foreign_apart, foreign. rewrite !Forall_cons. intros (H1 & H2 & H3). rewrite !upd_queue_lookup. split_and!; [..|done].
  - destruct (decide (REQUEST_TRACKING = t)) as [<-|]; [|done]. by destruct Hf as [->|].
  - destruct (decide (REQUEST_NIRESPONSE = t)) as [<-|]; [|done]. by destruct Hf as [->|].
Qed.

Lemma aside_push t r c : t ≠ REQUEST_SESSION → aside c (push t r c).
Proof. intros Ht. apply aside_queue; [done|]. by left. Qed.

Lemma aside_api a c : aside c (api a c).
Proof. by apply aside_fields. Qed.

Lemma aside_callback cb c : aside c (callback cb c).
Proof. by apply aside_fields. Qed.

Lemma aside_geofences f c : aside c (upd_geofences f c).
Proof. by apply aside_fields. Qed.

Lemma aside_tracking b c : aside c (set_mTracking b c).
Proof. by apply aside_fields. Qed.

Lemma aside_pop t c : t ≠ REQUEST_SESSION → aside c (pop t c).2.
Proof.
  intros Ht. unfold pop, queue_pop. destruct (mQueue (mRequestQueues c t)) eqn:E; (apply (aside_queue t (λ _, _)); [done|by left]).
Qed.

Lemma aside_fold {A} (f : ClientBase → A → ClientBase) l c : (∀ c a, aside c (f c a)) → aside c (fold_left f l c).
Proof. intros Hf. revert c. induction l as [|a l IH]; intros c; [done|]. simpl. etransitivity; [apply Hf|apply IH]. Qed.

(** The sessions of tracking and of network-initiated requests. *)
Lemma aside_response c r e s : hasSession (mSessionBiDict c) s = false → aside c (onResponse r e s c).
Proof.
  intros Hs. assert (Hr : ∀ c', mSessionBiDict c' = mSessionBiDict c → removeSession s c' = c') by (intros c' E; unfold removeSession; by rewrite E, Hs).
  unfold onResponse. destruct r, (is_success e); try rewrite Hr by done; done || apply aside_callback.
Qed.

Lemma aside_answer c e s : hasSession (mSessionBiDict c) s = false → aside c (onResponseCb e s c).
Proof.
  intros Hs. unfold onResponseCb, getRequestBySession.
  assert (G : ∀ t, t ≠ REQUEST_SESSION →
    aside c (let '(request, c0) := let '(request, c0) := pop t c in
               match request with Some r => (Some r, c0)
               | None => if hasSession (mSessionBiDict c0) s then pop REQUEST_SESSION c0 else (None, c0) end in
             match request with Some r => onResponse r e s c0 | None => c0 end)).
  { intros t Ht. pose proof (aside_pop t c Ht) as Hp. destruct (pop t c) as [[r|] c0]; simpl in Hp; pose proof Hp as [(_ & Hd & _) _].
    - etransitivity; [apply Hp|]. apply aside_response. by rewrite Hd.
    - by rewrite Hd, Hs. }
  destruct (_ =? s); [by apply G|]. destruct (_ =? s); [by apply G|]. by rewrite Hs.
Qed.

(** The operations that are no part of a client's session. *)
Inductive other_op :=
  | OStartTracking (options : TrackingOptions) (session : Z) | OStopTracking | OUpdateTracking (options : TrackingOptions)
  | OAddGeofences (geofences : list (Z * GeofenceOption)) (data : list GeofenceInfo) (sessions : option (list Z))
  | ORemoveGeofences (malloc_ok : bool) (ids : list Z) | ORemoveAllGeofences (malloc_ok : bool)
  | OModifyGeofences (malloc_ok : bool) (geofences : list (Z * GeofenceOption))
  | OPauseGeofences (malloc_ok : bool) (ids : list Z) | OResumeGeofences (malloc_ok : bool) (ids : list (Z * option Z))
  | OGnssNiResponse (id response : Z)
  | OAnswer (error : LocationError) (session : Z)
  | OCollective (errors : list LocationError) (sessions : list Z)
  | OBreach (malloc_ok : bool) (sessions : list Z) (type : GeofenceBreachType).

Definition other_exec (c : ClientBase) (o : other_op) : ClientBase :=
  match o with
  | OStartTracking opts s => (locAPIStartTracking opts s c).2
  | OStopTracking => locAPIStopTracking c
  | OUpdateTracking opts => locAPIUpdateTrackingOptions opts c
  | OAddGeofences gs data ss => (locAPIAddGeofences gs data ss c).2
  | ORemoveGeofences ok ids => locAPIRemoveGeofences ok ids c
  | ORemoveAllGeofences ok => locAPIRemoveAllGeofences ok c
  | OModifyGeofences ok gs => locAPIModifyGeofences ok gs c
  | OPauseGeofences ok ids => locAPIPauseGeofences ok ids c
  | OResumeGeofences ok ids => locAPIResumeGeofences ok ids c
  | OGnssNiResponse id r => locAPIGnssNiResponse id r c
  | OAnswer e s => onResponseCb e s c
  | OCollective es ss => onCollectiveResponseCb es ss c
  | OBreach ok ss ty => beforeGeofenceBreachCb ok ss ty c
  end.

(** The sessions that they name are not those of the client's sessions. *)
Definition other_ok (c : ClientBase) (o : other_op) : Prop :=
  match o with
  | OStartTracking _ s | OGnssNiResponse s _ | OAnswer _ s => hasSession (mSessionBiDict c) s = false
  | _ => True
  end.

Create HintDb aside.
#[export] Hint Resolve aside_push aside_api aside_callback aside_geofences aside_tracking : aside.
(** One update after the other. *)
Ltac aside_steps := repeat (first [reflexivity | (etransitivity; [|solve [auto with aside]])]).

Lemma aside_remove ok ids c : aside c (locAPIRemoveGeofences ok ids c).
Proof.
  unfold locAPIRemoveGeofences. destruct (mLocationAPI c && ok); [|done]. destruct (geofence_session c); [|done].
  destruct (remove_loop _ _ _ _) as [[sessions d] removed]. destruct (bool_decide _); aside_steps.
Qed.

Lemma aside_request ok ids r call c : aside c (geofence_request ok ids r call c).
Proof.
  unfold geofence_request. destruct (mLocationAPI c && ok); [|done]. destruct (geofence_session c); [|done].
  destruct (lookup_loop _ _ _) as [sessions d]. destruct (bool_decide _); aside_steps.
Qed.

Lemma other_aside c o : other_ok c o → aside c (other_exec c o).
Proof.
  intros Ho. destruct o as [opts s| |opts|gs data ss|ok ids|ok|ok gs|ok ids|ok ids|id rsp|e s|es ss|ok ss ty]; cbn [other_exec other_ok] in *.
  - unfold locAPIStartTracking. destruct (mLocationAPI c); [|done]. simpl. destruct (mTracking c); [done|].
    aside_steps. etransitivity; [apply aside_api|]. apply aside_queue; [done|by right].
  - unfold locAPIStopTracking. destruct (mLocationAPI c); [|done]. destruct (0 <? _); aside_steps.
  - unfold locAPIUpdateTrackingOptions. destruct (mLocationAPI c); [|done]. destruct (0 <? _); aside_steps.
  - unfold locAPIAddGeofences. destruct (mLocationAPI c); [|done]. cbv zeta.
    set (c1 := if geofence_session c then c else _). assert (H1 : aside c c1).
    { unfold c1. destruct (geofence_session c); [done|]. split; [by split_and!|done]. }
    etransitivity; [apply H1|]. destruct ss as [ss|]; simpl; [|aside_steps].
    etransitivity; [|apply aside_fold; intros; apply aside_geofences]. aside_steps.
  - apply aside_remove.
  - unfold locAPIRemoveAllGeofences. destruct (bool_decide _); [done|apply aside_remove].
  - apply aside_request.
  - apply aside_request.
  - apply aside_request.
  - unfold locAPIGnssNiResponse. destruct (mLocationAPI c); [|done]. aside_steps.
    etransitivity; [apply aside_api|]. apply aside_queue; [done|by right].
  - by apply aside_answer.
  - unfold onCollectiveResponseCb. destruct (geofence_session c); [|done].
    pose proof (aside_pop REQUEST_GEOFENCE c) as Hp. destruct (pop REQUEST_GEOFENCE c) as [r c0]. simpl in Hp.
    etransitivity; [by apply Hp|]. destruct r as [r|]; [|done]. destruct r; simpl; aside_steps.
  - unfold beforeGeofenceBreachCb. destruct (ok && mGeofenceBreachCallback c); aside_steps.
Qed.

(** The completed trips, none of which waits for an answer, end their sessions. *)
Lemma inv_trips pend trips ids d c m : inv (upd_sessions (λ _, d) c) pend m → Forall (λ t, t ∉ pend.*1) trips →
  ∃ m', inv (upd_sessions (λ _, (trips_loop trips ids d).2) c) pend m'.
Proof.
  intros H Ht. revert ids d m H. induction Ht as [|t trips Ht _ IH]; intros ids d m H; [by exists m|]. simpl.
  destruct (hasSession d t) eqn:E; simpl; [|by eapply IH]. destruct (_ =? _); [|by eapply IH].
  destruct (inv_remove _ pend m t H Ht) as [m' H']. unfold removeSession in H'. simpl in H'. rewrite E in H'. by eapply IH.
Qed.

Lemma inv_batching_status c pend m status trips : inv c pend m → Forall (λ t, t ∉ pend.*1) trips →
  ∃ m', inv (beforeBatchingStatusCb status trips c) pend m'.
Proof.
  intros H Ht. unfold beforeBatchingStatusCb.
  assert (H0 : inv (upd_sessions (λ _, mSessionBiDict c) c) pend m) by by destruct c.
  destruct status; try (exists m; by apply inv_callback).
  destruct (inv_trips pend trips [] _ c m H0 Ht) as [m' H']. destruct (trips_loop trips [] (mSessionBiDict c)) as [ids d].
  exists m'. by apply inv_callback.
Qed.

(** The session of an id, and the mode it is in. *)
Definition session_at (c : ClientBase) (id : Z) : Z := getSession (mSessionBiDict c) id.
Definition mode_at (c : ClientBase) (id : Z) : Z := entity_sessionMode (getExtBySession (mSessionBiDict c) (session_at c id)).

(** The session is known, and none of its requests waits for an answer. *)
Definition known (c : ClientBase) (id : Z) : bool := hasId (mSessionBiDict c) id.
Definition idle (c : ClientBase) (pend : list (Z * LocationAPIRequest)) (id : Z) : Prop := known c id = true → session_at c id ∉ pend.*1.

(** The executions in which a session has one request at a time, the API gives every new
    session a new number, and answers the requests of sessions in their order.  [pend] are
    the requests not answered. *)
Inductive serial : ClientBase → list (Z * LocationAPIRequest) → Prop :=
  | serial_init gb bs : serial (locAPISetCallbacks gb bs newClientBase) []
  | serial_start c pend id mode opts s : serial c pend → (known c id = false → fresh_session c s) →
      serial (locAPIStartSession id mode opts s c).2 (if known c id then pend else pend ++ [(s, start_request mode)])
  | serial_stop c pend id : serial c pend → idle c pend id →
      serial (locAPIStopSession id c).2 (if known c id then pend ++ [(session_at c id, stop_request (mode_at c id))] else pend)
  | serial_update c pend id mode opts s : serial c pend → idle c pend id →
      let same := Bool.eqb (on_fix mode) (on_fix (mode_at c id)) in
      (known c id = true → same = false → fresh_session c s) →
      serial (locAPIUpdateSessionOptions id mode opts s c).2
             (if known c id then pend ++ [(if same then session_at c id else s, update_request mode)] else pend)
  | serial_get c pend id n : serial c pend → idle c pend id →
      serial (locAPIGetBatchedLocations id n c).2
             (if known c id && negb (on_fix (mode_at c id)) then pend ++ [(session_at c id, GetBatchedLocationsRequest)] else pend)
  | serial_answer c s r pend e : serial c ((s, r) :: pend) → serial (onResponseCb e s c) pend
  | serial_status c pend status trips : serial c pend → Forall (λ t, t ∉ pend.*1) trips →
      serial (beforeBatchingStatusCb status trips c) pend
  | serial_other c pend o : serial c pend → other_ok c o → serial (other_exec c o) pend.

Lemma serial_inv c pend : serial c pend → ∃ m, inv c pend m.
Proof.
  induction 1 as [gb bs|c pend id mode opts s _ [m H] Hf|c pend id _ [m H] Hi|c pend id mode opts s _ [m H] Hi same Hf
    |c pend id n _ [m H] Hi|c s r pend e _ [m H]|c pend st ts _ [m H] Ht|c pend o _ [m H] Ho].
  - exists ∅. split; try done; [apply represents_empty|constructor|by intros s r ?%not_elem_of_nil|].
    by repeat constructor; intros i t; rewrite lookup_empty.
  - unfold known in *. destruct (hasId _ id) eqn:E; [|by eapply inv_start; eauto].
    exists m. unfold locAPIStartSession. by rewrite (inv_api _ _ _ H), E.
  - unfold idle, known in *. destruct (hasId _ id) eqn:E; [exists m; by apply inv_stop; auto|].
    exists m. unfold locAPIStopSession. by rewrite (inv_api _ _ _ H), E.
  - unfold idle, known in *. destruct (hasId _ id) eqn:E; [by eapply inv_update; eauto|].
    exists m. unfold locAPIUpdateSessionOptions. by rewrite (inv_api _ _ _ H), E.
  - unfold idle, known in *. destruct (hasId _ id) eqn:E; simpl.
    + destruct (on_fix (mode_at c id)) eqn:Em; simpl; [|exists m; by apply inv_get; auto].
      exists m. destruct (inv_hasId c pend m id H E) as (s & en & Hm & Hs & He & Hse). unfold mode_at, session_at in Em. rewrite Hs, He in Em.
      unfold locAPIGetBatchedLocations. rewrite (inv_api _ _ _ H), E, Hse. fold (on_fix (entity_sessionMode en)). by rewrite Em.
    + exists m. unfold locAPIGetBatchedLocations. by rewrite (inv_api _ _ _ H), E.
  - by destruct (inv_answer c pend m s r e H).
  - by eapply inv_batching_status.
  - exists m. eapply inv_aside; [done|by apply other_aside].
Qed.

(** The answers to the requests that wait, in their order. *)
Definition answer_all (pend : list (Z * LocationAPIRequest)) (es : list LocationError) (c : ClientBase) : ClientBase :=
  fold_left (λ c p, onResponseCb p.2 p.1.1 c) (zip pend es) c.

(** C11: the answers find their sessions: in every execution of a client ([serial]) that stops,
    updates or reads a session only when no request on it waits, where a finished trip is
    reported only of such a session; with an API that gives each new session a number in use for
    none, and answers the requests on sessions in their order; and with any other operations
    between them whose number (of the tracking session, of a response to the network, of an
    answer) is that of none of the client's sessions: the queue holds exactly the requests not
    answered, the dictionary relates identifiers and sessions one to one, and once the answers
    come, each calls the method of the client that goes with its request, with its error, and none
    is left over. *)
Theorem sessions_answered c pend : serial c pend →
  mQueue (mRequestQueues c REQUEST_SESSION) = pend.*2 ∧
  (∃ m, represents (mSessionBiDict c) m ∧ ∀ id s e, m !! id = Some (s, e) → session_of e = s) ∧
  ∀ es, length es = length pend →
    let c' := answer_all pend es c in
    callbacks c' = callbacks c ++ zip_with (λ p e, answer_of p.2 e) pend es ∧
    serial c' [] ∧ mQueue (mRequestQueues c' REQUEST_SESSION) = [].
Proof.
  intros Hc. destruct (serial_inv c pend Hc) as [m H]. split_and!; [apply H| |].
  - exists m. split; [apply H|]. intros id s e Hm. by apply (inv_sess _ _ _ H id).
  - clear m H. revert c Hc. induction pend as [|[s r] pend IH]; intros c Hc es Hes; destruct es as [|e es]; try done; cbv zeta; unfold answer_all; simpl.
    + destruct (serial_inv _ _ Hc) as [m H]. rewrite app_nil_r. split_and!; [done..|]. by rewrite (inv_queue _ _ _ H).
    + destruct (serial_inv _ _ Hc) as [m H]. destruct (inv_answer c pend m s r e H) as [_ Hcb].
      destruct (IH _ (serial_answer c s r pend e Hc) es) as (I1 & I2 & I3); [by injection Hes|].
      unfold answer_all in *. rewrite I1, Hcb, <- app_assoc. done.
Qed.

(** Two sessions start and the first is answered and stopped; then the start of the second fails. *)
Lemma sessions_answered_witness :
  let opts := mkTrackingOptions (mkLocationOptions 0 1000 0 GNSS_SUPL_MODE_STANDALONE 0) GNSS_POWER_MODE_M1 0 in
  let c := locAPISetCallbacks true true newClientBase in
  let c := (locAPIStartSession 5 SESSION_MODE_ON_FIX opts 9 c).2 in
  let c := (locAPIStartSession 6 SESSION_MODE_ON_FULL opts 10 c).2 in
  let c := onResponseCb LOCATION_ERROR_SUCCESS 9 c in
  let c := (locAPIStopSession 5 c).2 in
  let pend := [(10, StartBatchingRequest); (9, StopTrackingRequest)] in
  let c' := answer_all pend [LOCATION_ERROR_GENERAL_FAILURE; LOCATION_ERROR_SUCCESS] c in
  serial c pend ∧
  callbacks c' = [onStartTrackingCb LOCATION_ERROR_SUCCESS; onStartBatchingCb LOCATION_ERROR_GENERAL_FAILURE; onStopTrackingCb LOCATION_ERROR_SUCCESS] ∧
  mQueue (mRequestQueues c' REQUEST_SESSION) = [].
Proof.
  intros opts c0 c1 c2 c3 c pend c'.
  pose proof (serial_init true true) as H0. fold c0 in H0.
  assert (H1 : serial c1 [(9, StartTrackingRequest)]).
  { pose proof (serial_start c0 [] 5 SESSION_MODE_ON_FIX opts 9 H0) as H. apply H. intros _. split_and!; [done|by vm_compute|by apply (bool_decide_unpack (9 ∉ foreign c0))]. }
  assert (H2 : serial c2 [(9, StartTrackingRequest); (10, StartBatchingRequest)]).
  { pose proof (serial_start c1 _ 6 SESSION_MODE_ON_FULL opts 10 H1) as H. apply H. intros _. split_and!; [done|by vm_compute|by apply (bool_decide_unpack (10 ∉ foreign c1))]. }
  pose proof (serial_answer _ _ _ _ LOCATION_ERROR_SUCCESS H2) as H3. fold c3 in H3.
  assert (H : serial c pend).
  { pose proof (serial_stop c3 _ 5 H3) as H. apply H. intros _. assert (E : session_at c3 5 = 9) by by vm_compute. rewrite E. by apply (bool_decide_unpack (9 ∉ [10])). }
  split; [done|]. destruct (sessions_answered c pend H) as (_ & _ & Ha).
  destruct (Ha [LOCATION_ERROR_GENERAL_FAILURE; LOCATION_ERROR_SUCCESS]) as (H4 & _ & H5); [done|].
  split; [|done]. fold c' in H4. rewrite H4. by vm_compute.
Defined.
