(* ===== verification/ClientGeofences.v ===== *)
(** * gps/location/LocationAPIClientBase.cpp : the geofences of a client.

    The client names a geofence by an identifier of its own, the API by a session.  Whatever
    the client does in between, the answers and the breaches that the API reports reach it
    with its own identifiers. *)
From stdpp Require Import functions.
From S2P Require Import Prelude PbEnums LocApi LocApiBatch LocApiTrack ClientBase.
Local Open Scope Z_scope.

(** ** What the loops do to the map of geofences: an id to its session and its mask *)

Abbreviation geofences := (gmap Z (Z * Z)).
Implicit Types (m : geofences) (d : BiDict Z) (c : ClientBase).

Definition positive m : Prop := ∀ id s e, m !! id = Some (s, e) → 0 < s.
Definition known m (ids : list Z) : list Z := filter (λ id, is_Some (m !! id)) ids.
Definition session_at m (id : Z) : Z := default 0 (fst <$> m !! id).

Definition set_mask m (p : Z * option Z) : geofences :=
  match m !! p.1, p.2 with Some (s, _), Some mask => <[p.1 := (s, mask)]> m | _, _ => m end.
Definition add_geofence m (p : Z * GeofenceOption * Z) : geofences := <[p.1.1 := (p.2, breachTypeMask p.1.2)]> m.

Lemma known_cons_Some m id ids x : m !! id = Some x → known m (id :: ids) = id :: known m ids.
Proof. intros H. unfold known. rewrite filter_cons_True; [done|]. by rewrite H. Qed.

Lemma known_cons_None m id ids : m !! id = None → known m (id :: ids) = known m ids.
Proof. intros H. unfold known. rewrite filter_cons_False; [done|]. rewrite H. apply is_Some_None. Qed.

Lemma known_ext m m' ids : (∀ id, id ∈ ids → is_Some (m' !! id) ↔ is_Some (m !! id)) → known m' ids = known m ids.
Proof.
  induction ids as [|id ids IH]; intros H; [done|]. unfold known in *. rewrite !filter_cons, IH by (intros; apply H; by right).
  destruct (H id) as [H1 H2]; [by left|]. by repeat case_decide; auto; exfalso; auto.
Qed.

Lemma session_at_ext m m' ids : (∀ id, id ∈ ids → fst <$> m' !! id = fst <$> m !! id) → session_at m' <$> known m ids = session_at m <$> known m ids.
Proof.
  intros H. apply list_fmap_ext. intros i id Hi%list_elem_of_lookup_2. unfold session_at.
  apply list_elem_of_filter in Hi as [_ Hi]. by rewrite H.
Qed.

Lemma set_mask_fst m p id : fst <$> set_mask m p !! id = fst <$> m !! id.
Proof.
  unfold set_mask. destruct p as [i [mask|]]; simpl; destruct (m !! i) as [[s e]|] eqn:E; try done.
  destruct (decide (id = i)) as [->|]; [by rewrite lookup_insert_eq, E|by rewrite lookup_insert_ne].
Qed.

Lemma fst_Some m m' id : fst <$> m' !! id = fst <$> m !! id → is_Some (m' !! id) ↔ is_Some (m !! id).
Proof. intros H. by rewrite <- (fmap_is_Some fst (m' !! id)), H, fmap_is_Some. Qed.

Lemma set_masks_fst ids m id : fst <$> fold_left set_mask ids m !! id = fst <$> m !! id.
Proof. revert m. induction ids as [|p ids IH]; intros m; [done|]. simpl. by rewrite IH, set_mask_fst. Qed.

Lemma positive_fst m m' : (∀ id, fst <$> m' !! id = fst <$> m !! id) → positive m → positive m'.
Proof.
  intros H Hp id s e Hi. specialize (H id). rewrite Hi in H. simpl in H. symmetry in H.
  apply fmap_Some in H as ([s' e'] & Hm & Es). simpl in Es. subst s'. by eapply Hp.
Qed.

Lemma lookup_loop_spec ids sess d m : represents d m → positive m →
  ∃ d', lookup_loop ids sess d = (sess ++ (session_at m <$> known m ids.*1), d') ∧ represents d' (fold_left set_mask ids m).
Proof.
  revert sess d m. induction ids as [|[id mask] ids IH]; intros sess d m Hr Hp; [exists d; by rewrite app_nil_r|].
  cbn [lookup_loop fmap list_fmap fst]. pose proof (getSession_spec d m id Hr) as Es.
  destruct (m !! id) as [[s e]|] eqn:E; simpl in Es; rewrite Es.
  - rewrite (proj2 (Z.ltb_lt 0 s)) by by eapply Hp.
    assert (Hr' : represents (match mask with Some k => BiDict_set id s k d | None => d end) (set_mask m (id, mask))).
    { unfold set_mask. simpl. rewrite E. destruct mask as [k|]; [|done]. apply set_represents; [done|]. right. by exists e. }
    destruct (IH (sess ++ [s]) _ _ Hr') as (d' & E' & H'); [by eapply positive_fst; [apply set_mask_fst|]|].
    exists d'. split; [|done]. rewrite E', (known_cons_Some m id _ (s, e)) by done. rewrite <- app_assoc. cbn [fmap list_fmap app]. unfold session_at at 2. rewrite E.
    simpl. do 3 f_equal. rewrite (known_ext m) by (intros; apply fst_Some, set_mask_fst). apply session_at_ext. intros. apply set_mask_fst.
  - rewrite known_cons_None by done. simpl. unfold set_mask. simpl. rewrite E. by apply IH.
Qed.

Lemma foldr_delete_delete m id ids : foldr delete (delete id m) ids = foldr delete m (id :: ids).
Proof. simpl. induction ids as [|i ids IH]; [done|]. simpl. by rewrite IH, delete_delete. Qed.

Lemma remove_loop_spec ids sess d removed m mr :
  represents d m → positive m → represents removed mr → NoDup ids →
  (∀ id, id ∈ ids → mr !! id = None) → (∀ id s e, m !! id = Some (s, e) → unused s mr) →
  ∃ d' removed' mr', remove_loop ids sess d removed = (sess ++ (session_at m <$> known m ids), d', removed') ∧
    represents d' (foldr delete m ids) ∧ represents removed' mr' ∧
    (∀ id, id ∉ ids → mr' !! id = mr !! id) ∧ (∀ id, id ∈ known m ids → mr' !! id = m !! id).
Proof.
  revert sess d removed m mr. induction ids as [|id ids IH]; intros sess d removed m mr Hr Hp Hrr Hnd Hmr Hu.
  { exists d, removed, mr. rewrite app_nil_r. split_and!; try done. intros id H. by apply not_elem_of_nil in H. }
  apply NoDup_cons in Hnd as [Hid Hnd]. cbn [remove_loop]. pose proof (getSession_spec d m id Hr) as Es.
  destruct (m !! id) as [[s e]|] eqn:E; simpl in Es; rewrite Es.
  - rewrite (proj2 (Z.ltb_lt 0 s)) by by eapply Hp. rewrite (getExtBySession_spec d m id s e) by done.
    assert (Hu' : unused s mr) by by eapply Hu.
    destruct (IH (sess ++ [s]) (rmBySession s d) (BiDict_set id s e removed) (delete id m) (<[id := (s, e)]> mr)) as (d' & r' & mr' & E' & H1 & H2 & H3 & H4).
    + by eapply rmBySession_represents.
    + intros i s' e' [_ Hi]%lookup_delete_Some. by eapply Hp.
    + apply set_represents; [done|]. left. split; [apply Hmr; by left|done].
    + done.
    + intros i Hi. rewrite lookup_insert_ne by (intros <-; done). apply Hmr. by right.
    + intros i s' e' [Hne Hi]%lookup_delete_Some j t. destruct (decide (j = id)) as [->|].
      * rewrite lookup_insert_eq. intros [= <- <-]. by destruct (represents_inj d m i id s e' e).
      * rewrite lookup_insert_ne by done. by eapply Hu.
    + assert (Hk : known (delete id m) ids = known m ids).
      { apply known_ext. intros i Hi. by rewrite lookup_delete_ne by (intros <-; done). }
      exists d', r', mr'. rewrite E', (known_cons_Some m id ids (s, e)), <- app_assoc by done.
      rewrite foldr_delete_delete in H1. split_and!; [|done|done| |].
      * cbn [fmap list_fmap app]. unfold session_at at 2. rewrite E. simpl. do 4 f_equal. rewrite Hk. apply session_at_ext.
        intros i Hi. by rewrite lookup_delete_ne by (intros <-; done).
      * intros i Hi. rewrite not_elem_of_cons in Hi. destruct Hi as [Hi1 Hi2]. by rewrite H3, lookup_insert_ne by done.
      * intros i [->|Hi]%elem_of_cons; [by rewrite H3, lookup_insert_eq|]. rewrite H4 by by rewrite Hk.
        rewrite lookup_delete_ne; [done|]. intros <-. by apply list_elem_of_filter in Hi as [_ Hi].
  - destruct (IH sess d removed m mr) as (d' & r' & mr' & E' & H1 & H2 & H3 & H4); try done; [intros i Hi; apply Hmr; by right|].
    exists d', r', mr'. rewrite known_cons_None by done. split_and!; [done| |done| |done].
    + simpl. by rewrite delete_id; [|rewrite lookup_foldr_delete_not_elem_of].
    + intros i [_ Hi]%not_elem_of_cons. by apply H3.
Qed.

(** ** The requests that wait for their answer *)

Inductive geo_kind := KAdd | KRemove | KModify | KPause | KResume.

(** A kind of request, the client's ids and the API's sessions of its geofences. *)
Definition geo_pending : Type := geo_kind * list Z * list Z.

Definition geo_callback (k : geo_kind) : list LocationError → list Z → client_callback :=
  match k with
  | KAdd => onAddGeofencesCb | KRemove => onRemoveGeofencesCb | KModify => onModifyGeofencesCb
  | KPause => onPauseGeofencesCb | KResume => onResumeGeofencesCb
  end.

Definition named m (id s : Z) : Prop := ∃ e, m !! id = Some (s, e).

(** The request in the queue answers for this kind, these ids and sessions. *)
Definition answers_for m (r : LocationAPIRequest) (p : geo_pending) : Prop :=
  let '(k, ids, ss) := p in
  match k, r with
  | KRemove, RemoveGeofencesRequest removed => getId removed <$> ss = ids
  | KAdd, AddGeofencesRequest | KModify, ModifyGeofencesRequest | KPause, PauseGeofencesRequest | KResume, ResumeGeofencesRequest =>
    Forall2 (named m) ids ss
  | _, _ => False
  end.

(** The geofences of a request other than a removal are still there. *)
Definition awaits (pend : list geo_pending) (id : Z) : Prop := ∃ k ids ss, (k, ids, ss) ∈ pend ∧ k ≠ KRemove ∧ id ∈ ids.

Definition geo_queue c : list LocationAPIRequest := mQueue (mRequestQueues c REQUEST_GEOFENCE).

Record ginv c (pend : list geo_pending) m : Prop := {
  ginv_api : mLocationAPI c = true;
  ginv_dict : represents (mGeofenceBiDict c) m;
  ginv_positive : positive m;
  ginv_session : geofence_session c = true ∨ m = ∅ ∧ pend = [];
  ginv_queue : Forall2 (answers_for m) (geo_queue c) pend
}.

Lemma answers_for_keep m m' r k ids ss : answers_for m r (k, ids, ss) →
  (k ≠ KRemove → ∀ id s, id ∈ ids → named m id s → named m' id s) → answers_for m' r (k, ids, ss).
Proof.
  intros Ha Hk. assert (G : k ≠ KRemove → Forall2 (named m) ids ss → Forall2 (named m') ids ss).
  { clear Ha. intros Hne HF. specialize (Hk Hne). induction HF as [|id s ids ss Hn _ IH]; constructor.
    - apply Hk; [by left|done].
    - apply IH. intros. apply Hk; [by right|done]. }
  destruct k; try done; destruct r; try done; by apply G.
Qed.

Lemma queue_keep m m' q pend : Forall2 (answers_for m) q pend →
  (∀ id s, awaits pend id → named m id s → named m' id s) → Forall2 (answers_for m') q pend.
Proof.
  intros H. induction H as [|r [[k ids] ss] q pend Hr Hq IH]; intros Hk; constructor.
  - eapply answers_for_keep; [done|]. intros Hne id s Hid. apply Hk. exists k, ids, ss. split_and!; [by left|done|done].
  - apply IH. intros id s (k' & ids' & ss' & Hin & Hp). apply Hk. exists k', ids', ss'. split; [by right|done].
Qed.

(** A request is pushed, and the map changes to [m']. *)
Lemma ginv_push c c' pend m m' r p : ginv c pend m → mLocationAPI c' = true → represents (mGeofenceBiDict c') m' → positive m' →
  geofence_session c' = true → geo_queue c' = geo_queue c ++ [r] → answers_for m' r p →
  (∀ id s, awaits pend id → named m id s → named m' id s) → ginv c' (pend ++ [p]) m'.
Proof.
  intros H Ha Hd Hp Hs Hq Hr Hk. split; try done; [by left|]. rewrite Hq. apply Forall2_app; [|by repeat constructor].
  eapply queue_keep; [apply H|done].
Qed.

(** The map changes to [m'] and no request is pushed. *)
Lemma ginv_change c c' pend m m' : ginv c pend m → mLocationAPI c' = true → represents (mGeofenceBiDict c') m' → positive m' →
  geofence_session c' = true → geo_queue c' = geo_queue c →
  (∀ id s, awaits pend id → named m id s → named m' id s) → ginv c' pend m'.
Proof. intros H Ha Hd Hp Hs Hq Hk. split; try done; [by left|]. rewrite Hq. eapply queue_keep; [apply H|done]. Qed.

Lemma known_empty ids : known ∅ ids = [].
Proof. induction ids as [|id ids IH]; [done|]. by rewrite known_cons_None. Qed.

Lemma known_named m ids : Forall2 (named m) (known m ids) (session_at m <$> known m ids).
Proof.
  apply Forall2_fmap_r, Forall_Forall2_diag. apply Forall_forall. intros id [Hid _]%list_elem_of_filter.
  destruct Hid as [[s e] Hm]. exists e. unfold session_at. by rewrite Hm.
Qed.

Lemma set_masks_empty ids : fold_left set_mask ids ∅ = ∅.
Proof. apply map_eq. intros i. apply (fmap_None fst). by rewrite set_masks_fst. Qed.

Lemma set_masks_named ids m id s : named m id s → named (fold_left set_mask ids m) id s.
Proof.
  intros [e He]. pose proof (set_masks_fst ids m id) as H. rewrite He in H. apply fmap_Some in H as ([s' e'] & Hm & Es).
  simpl in Es. subst s'. by exists e'.
Qed.

(** The kind of a request that looks its geofences up. *)
Definition kind_request (k : geo_kind) : LocationAPIRequest :=
  match k with KModify => ModifyGeofencesRequest | KPause => PauseGeofencesRequest | KResume => ResumeGeofencesRequest | _ => AddGeofencesRequest end.

Definition push_known m (k : geo_kind) (ids : list Z) (pend : list geo_pending) : list geo_pending :=
  if bool_decide (known m ids = []) then pend else pend ++ [(k, known m ids, session_at m <$> known m ids)].

Lemma ginv_request ok c pend m k ids call : k ≠ KRemove → ginv c pend m →
  ginv (geofence_request ok ids (kind_request k) call c) (if ok then push_known m k ids.*1 pend else pend)
       (if ok then fold_left set_mask ids m else m).
Proof.
  intros Hk H. unfold geofence_request. rewrite (ginv_api _ _ _ H). destruct ok; [|done]. cbn [andb].
  destruct (geofence_session c) eqn:Es.
  2:{ destruct (ginv_session _ _ _ H) as [?|[-> ->]]; [congruence|]. unfold push_known.
      by rewrite known_empty, bool_decide_true, set_masks_empty by done. }
  destruct (lookup_loop_spec ids [] _ m (ginv_dict _ _ _ H) (ginv_positive _ _ _ H)) as (d' & -> & Hd). cbn [app].
  assert (Hp : positive (fold_left set_mask ids m)) by (eapply positive_fst; [apply set_masks_fst|apply H]).
  unfold push_known. destruct (known m ids.*1) as [|i l] eqn:El.
  - rewrite !bool_decide_true by done. eapply (ginv_change c); try done; [by apply H|]. intros. by apply set_masks_named.
  - rewrite !bool_decide_false by done. rewrite <- El. eapply (ginv_push c); try done; [by apply H| |intros; by apply set_masks_named].
    assert (Forall2 (named (fold_left set_mask ids m)) (known m ids.*1) (session_at m <$> known m ids.*1)); [|by destruct k].
    eapply Forall2_impl; [apply known_named|]. intros. by apply set_masks_named.
Qed.

Lemma foldr_delete_positive m ids : positive m → positive (foldr delete m ids).
Proof.
  intros Hp id s e H. destruct (decide (id ∈ ids)); [by rewrite lookup_foldr_delete in H|].
  rewrite lookup_foldr_delete_not_elem_of in H by done. by eapply Hp.
Qed.

Lemma ginv_remove ok c pend m ids : ginv c pend m → NoDup ids → Forall (λ id, ¬ awaits pend id) ids →
  ginv (locAPIRemoveGeofences ok ids c) (if ok then push_known m KRemove ids pend else pend) (if ok then foldr delete m ids else m).
Proof.
  intros H Hnd Haw. unfold locAPIRemoveGeofences. rewrite (ginv_api _ _ _ H). destruct ok; [|done]. cbn [andb].
  assert (Hk : ∀ id s, awaits pend id → named m id s → named (foldr delete m ids) id s).
  { intros id s Hid [e He]. exists e. rewrite lookup_foldr_delete_not_elem_of; [done|]. intros Hin.
    rewrite Forall_forall in Haw. by apply (Haw id). }
  destruct (geofence_session c) eqn:Es.
  2:{ destruct (ginv_session _ _ _ H) as [?|[-> ->]]; [congruence|]. unfold push_known. rewrite known_empty, bool_decide_true by done.
      replace (foldr delete (∅ : geofences) ids) with (∅ : geofences); [done|]. symmetry. clear. induction ids as [|id ids IH]; [done|]. simpl. by rewrite IH, delete_empty. }
  destruct (remove_loop_spec ids [] (mGeofenceBiDict c) BiDict_empty m ∅) as (d' & removed & mr & -> & Hd & Hr & _ & Hmr);
    [apply H|apply H|apply represents_empty|done|done|intros; intros ? ?; by rewrite lookup_empty|].
  cbn [app]. assert (Hp : positive (foldr delete m ids)) by (apply foldr_delete_positive, H).
  unfold push_known. destruct (known m ids) as [|i l] eqn:El.
  - rewrite !bool_decide_true by done. eapply (ginv_change c); try done. by apply H.
  - rewrite !bool_decide_false by done. rewrite <- El in *. eapply (ginv_push c); try done; [by apply H|].
    cbn [answers_for]. rewrite <- list_fmap_compose. etransitivity; [|apply list_fmap_id]. apply list_fmap_ext.
    intros j id Hid%list_elem_of_lookup_2. specialize (Hmr id Hid). apply list_elem_of_filter in Hid as [[[s e] Hm] _].
    change (getId removed (session_at m id) = id). unfold session_at. rewrite Hm in Hmr |- *. by apply (getId_spec removed mr id s e).
Qed.

(** ** Adding geofences *)

Definition geofence_of (p : Z * GeofenceOption * Z) : Z := p.1.1.

Lemma adds_dict l c :
  fold_left (λ c (p : Z * GeofenceOption * Z), upd_geofences (BiDict_set p.1.1 p.2 (breachTypeMask p.1.2)) c) l c =
  upd_geofences (λ d, fold_left (λ d (p : Z * GeofenceOption * Z), BiDict_set p.1.1 p.2 (breachTypeMask p.1.2) d) l d) c.
Proof. revert c. induction l as [|p l IH]; intros c; simpl; [by destruct c|]. by rewrite IH. Qed.

(** New ids with new positive sessions. *)
Definition all_new m (l : list (Z * GeofenceOption * Z)) : Prop :=
  NoDup (geofence_of <$> l) ∧ NoDup l.*2 ∧ Forall (λ p, m !! geofence_of p = None ∧ unused p.2 m ∧ 0 < p.2) l.

Lemma all_new_tail m p l : all_new m (p :: l) → all_new (add_geofence m p) l.
Proof.
  intros ([Hi Hnd]%NoDup_cons & [Hs Hnd2]%NoDup_cons & [_ Hf]%Forall_cons). split_and!; [done..|].
  rewrite Forall_forall in Hf |- *. intros q Hq. destruct (Hf q Hq) as (H1 & H2 & H3). unfold add_geofence.
  assert (geofence_of q ≠ p.1.1) by (intros E; apply Hi; unfold geofence_of at 1; rewrite <- E; by apply list_elem_of_fmap_2).
  split_and!; [by rewrite lookup_insert_ne| |done]. intros i t. destruct (decide (i = p.1.1)) as [->|].
  - rewrite lookup_insert_eq. intros [= E _]. apply Hs. rewrite E. by apply list_elem_of_fmap_2.
  - rewrite lookup_insert_ne by done. apply H2.
Qed.

Lemma adds_spec l d m : represents d m → positive m → all_new m l →
  let m' := fold_left add_geofence l m in
  represents (fold_left (λ d (p : Z * GeofenceOption * Z), BiDict_set p.1.1 p.2 (breachTypeMask p.1.2) d) l d) m' ∧ positive m' ∧
  (∀ id s, named m id s → named m' id s) ∧ Forall2 (named m') (geofence_of <$> l) l.*2.
Proof.
  revert d m. induction l as [|p l IH]; intros d m Hr Hp Hn; [by split_and!|]. cbv zeta. cbn [fold_left].
  pose proof Hn as (_ & _ & [(H1 & H2 & H3) _]%Forall_cons). unfold geofence_of in H1.
  assert (Hk : ∀ id s, named m id s → named (add_geofence m p) id s).
  { intros id s [e He]. exists e. unfold add_geofence. rewrite lookup_insert_ne; [done|]. intros <-. congruence. }
  destruct (IH (BiDict_set p.1.1 p.2 (breachTypeMask p.1.2) d) (add_geofence m p)) as (I1 & I2 & I3 & I4).
  - apply set_represents; [done|by left].
  - intros id s e. unfold add_geofence. destruct (decide (id = p.1.1)) as [->|]; [rewrite lookup_insert_eq; by intros [= <- _]|].
    rewrite lookup_insert_ne by done. apply Hp.
  - by apply all_new_tail.
  - split_and!; [done|done|auto|]. constructor; [|done]. apply I3. exists (breachTypeMask p.1.2). unfold add_geofence, geofence_of. by rewrite lookup_insert_eq.
Qed.

Lemma ginv_add c pend m gs data ss : ginv c pend m → length gs = length ss → all_new m (zip gs ss) →
  ginv (locAPIAddGeofences gs data (Some ss) c).2 (pend ++ [(KAdd, gs.*1, ss)]) (fold_left add_geofence (zip gs ss) m).
Proof.
  intros H Hlen Hn. unfold locAPIAddGeofences. rewrite (ginv_api _ _ _ H). cbv zeta. cbn [snd].
  set (c1 := if geofence_session c then c else _). rewrite adds_dict.
  assert (H1 : ginv c1 pend m ∧ geofence_session c1 = true).
  { unfold c1. destruct (geofence_session c) eqn:E; [done|]. destruct (ginv_session _ _ _ H) as [?|[-> ->]]; [congruence|].
    split; [|done]. split; try (by apply H); [by left|constructor]. }
  destruct H1 as [H1 Hs]. destruct (adds_spec (zip gs ss) _ m (ginv_dict _ _ _ H1) (ginv_positive _ _ _ H1) Hn) as (A1 & A2 & A3 & A4).
  eapply (ginv_push c1); try done; [by apply H1| |by auto]. cbn [answers_for].
  rewrite snd_zip in A4 by lia. change geofence_of with (fst ∘ fst : Z * GeofenceOption * Z → Z) in A4.
  rewrite list_fmap_compose, fst_zip in A4 by lia. done.
Qed.

Lemma ginv_add_failed c pend m gs data : ginv c pend m → ginv (locAPIAddGeofences gs data None c).2 pend m.
Proof.
  intros H. unfold locAPIAddGeofences. rewrite (ginv_api _ _ _ H). cbv zeta. cbn [snd].
  destruct (geofence_session c) eqn:E; [split; by apply H|]. destruct (ginv_session _ _ _ H) as [?|[-> ->]]; [congruence|].
  split; try (by apply H); [by left|constructor].
Qed.

(** ** Answers *)

Lemma named_ids d m ids ss : represents d m → Forall2 (named m) ids ss → getId d <$> ss = ids.
Proof. intros Hr. induction 1 as [|id s ids ss [e He] _ IH]; [done|]. cbn [fmap list_fmap]. by rewrite IH, (getId_spec d m id s e). Qed.

Lemma ginv_answer c pend m k ids ss errs : ginv c ((k, ids, ss) :: pend) m →
  ginv (onCollectiveResponseCb errs ss c) pend m ∧
  callbacks (onCollectiveResponseCb errs ss c) = callbacks c ++ [geo_callback k errs ids].
Proof.
  intros H. destruct (ginv_session _ _ _ H) as [Hs|[_ ?]]; [|done]. unfold onCollectiveResponseCb. rewrite Hs.
  pose proof (ginv_queue _ _ _ H) as Hq. apply Forall2_cons_inv_r in Hq as (r & q & Hr & Hq & Eq).
  unfold geo_queue in Eq. unfold pop, queue_pop. rewrite Eq. set (c1 := upd_queue REQUEST_GEOFENCE _ c).
  assert (H1 : ginv c1 pend m) by (split; try (by apply H); [by left|done]).
  assert (Hcb : ∀ cb, ginv (callback cb c1) pend m) by (intros cb; split; by apply H1).
  assert (Hids : Forall2 (named m) ids ss → getId (mGeofenceBiDict c1) <$> ss = ids) by by apply named_ids, H1.
  unfold onCollectiveResponse. destruct k, r; try done; cbn [answers_for geo_callback] in *;
    [rewrite Hids by done|rewrite Hr|rewrite Hids by done..]; (split; [apply Hcb|done]).
Qed.

(** ** Everything else leaves the geofences alone *)

Definition same_geofences c c' : Prop :=
  mLocationAPI c' = mLocationAPI c ∧ mGeofenceBiDict c' = mGeofenceBiDict c ∧
  mRequestQueues c' REQUEST_GEOFENCE = mRequestQueues c REQUEST_GEOFENCE.

#[export] Instance same_geofences_preorder : PreOrder same_geofences.
Proof. split; [by intros c|]. intros c1 c2 c3 (A1 & D1 & Q1) (A2 & D2 & Q2). split_and!; congruence. Qed.

Lemma same_geofences_queue t f c : t ≠ REQUEST_GEOFENCE → same_geofences c (upd_queue t f c).
Proof. intros Ht. split_and!; [done|done|by rewrite upd_queue_lookup, decide_False]. Qed.

Lemma same_geofences_push t r c : t ≠ REQUEST_GEOFENCE → same_geofences c (push t r c).
Proof. apply same_geofences_queue. Qed.

Lemma same_geofences_api a c : same_geofences c (api a c).
Proof. done. Qed.

Lemma same_geofences_callback cb c : same_geofences c (callback cb c).
Proof. done. Qed.

Lemma same_geofences_sessions f c : same_geofences c (upd_sessions f c).
Proof. done. Qed.

Lemma same_geofences_tracking b c : same_geofences c (set_mTracking b c).
Proof. done. Qed.

Create HintDb same_geofences.
#[export] Hint Resolve same_geofences_queue same_geofences_push same_geofences_api same_geofences_callback
  same_geofences_sessions same_geofences_tracking : same_geofences.
Ltac same_steps := repeat (first [reflexivity | (etransitivity; [|solve [auto with same_geofences]])]).

Lemma same_geofences_entity id c : same_geofences c (session_entity id c).2.
Proof. unfold session_entity. by destruct (getExtById id _). Qed.

Lemma same_geofences_update mode opts ret entity c : same_geofences c (update_calls mode opts ret entity c).2.
Proof. unfold update_calls. destruct (mode =? _), (entity_sessionMode entity =? _); cbn [snd]; same_steps. Qed.

Lemma same_geofences_remove s c : same_geofences c (removeSession s c).
Proof. unfold removeSession. by destruct (hasSession _ s). Qed.

Lemma same_geofences_pop t c : t ≠ REQUEST_GEOFENCE → same_geofences c (pop t c).2.
Proof. intros Ht. unfold pop. destruct (queue_pop _). by apply same_geofences_queue. Qed.

Lemma same_geofences_request s c : same_geofences c (getRequestBySession s c).2.
Proof.
  unfold getRequestBySession. set (p := if _ =? s then _ else _). assert (Hp : same_geofences c p.2).
  { unfold p. destruct (_ =? s); [by apply same_geofences_pop|]. destruct (_ =? s); [by apply same_geofences_pop|done]. }
  destruct p as [[r|] c1]; [done|]. simpl in Hp. destruct (hasSession _ s); [|done]. etransitivity; [apply Hp|by apply same_geofences_pop].
Qed.

Lemma same_geofences_response r e s c : same_geofences c (onResponse r e s c).
Proof.
  pose proof (same_geofences_remove s) as Hr.
  unfold onResponse. destruct r, (is_success e); try done; (etransitivity; [apply same_geofences_callback|apply Hr]) || (etransitivity; [apply Hr|apply same_geofences_callback]).
Qed.

(** The operations on tracking, sessions and network-initiated requests, and breaches. *)
Inductive session_op :=
  | SStartTracking (options : TrackingOptions) (session : Z) | SStopTracking | SUpdateTracking (options : TrackingOptions)
  | SStartSession (id mode : Z) (options : TrackingOptions) (session : Z) | SStopSession (id : Z)
  | SUpdateSession (id mode : Z) (options : TrackingOptions) (session : Z) | SGetBatched (id count : Z)
  | SGnssNiResponse (id response : Z)
  | SAnswer (error : LocationError) (session : Z)
  | SStatus (status : BatchingStatus) (trips : list Z)
  | SBreach (malloc_ok : bool) (sessions : list Z) (type : GeofenceBreachType).

Definition session_exec c (o : session_op) : ClientBase :=
  match o with
  | SStartTracking opts s => (locAPIStartTracking opts s c).2
  | SStopTracking => locAPIStopTracking c
  | SUpdateTracking opts => locAPIUpdateTrackingOptions opts c
  | SStartSession id mode opts s => (locAPIStartSession id mode opts s c).2
  | SStopSession id => (locAPIStopSession id c).2
  | SUpdateSession id mode opts s => (locAPIUpdateSessionOptions id mode opts s c).2
  | SGetBatched id n => (locAPIGetBatchedLocations id n c).2
  | SGnssNiResponse id r => locAPIGnssNiResponse id r c
  | SAnswer e s => onResponseCb e s c
  | SStatus st trips => beforeBatchingStatusCb st trips c
  | SBreach ok ss ty => beforeGeofenceBreachCb ok ss ty c
  end.

Lemma session_same c o : same_geofences c (session_exec c o).
Proof.
  destruct o as [opts s| |opts|id mode opts s|id|id mode opts s|id n|id r|e s|st trips|ok ss ty]; cbn [session_exec].
  - unfold locAPIStartTracking. destruct (mLocationAPI c); [|done]. simpl. destruct (mTracking c); same_steps.
  - unfold locAPIStopTracking. destruct (mLocationAPI c); [|done]. destruct (0 <? _); same_steps.
  - unfold locAPIUpdateTrackingOptions. destruct (mLocationAPI c); [|done]. destruct (0 <? _); same_steps.
  - unfold locAPIStartSession. destruct (mLocationAPI c); [|done]. destruct (hasId _ id); [done|]. cbn [snd].
    etransitivity; [|apply same_geofences_sessions]. destruct (mode =? _); same_steps.
  - unfold locAPIStopSession. destruct (mLocationAPI c); [|done]. destruct (hasId _ id); [|done].
    pose proof (same_geofences_entity id c) as He. destruct (session_entity id c) as [en c1]. simpl in He |- *.
    destruct (_ =? _); (etransitivity; [apply He|]); same_steps.
  - unfold locAPIUpdateSessionOptions. destruct (mLocationAPI c); [|done]. destruct (hasId _ id); [|done].
    pose proof (same_geofences_entity id c) as He. destruct (session_entity id c) as [en c1]. simpl in He.
    pose proof (same_geofences_update mode opts s en c1) as Hu. destruct (update_calls mode opts s en c1) as [[t b] c2]. simpl in Hu |- *.
    etransitivity; [apply He|]. etransitivity; [apply Hu|done].
  - unfold locAPIGetBatchedLocations. destruct (mLocationAPI c); [|done]. destruct (hasId _ id); [|done].
    pose proof (same_geofences_entity id c) as He. destruct (session_entity id c) as [en c1]. simpl in He.
    destruct (_ =? _); [done|]. cbn [snd]. etransitivity; [apply He|]. same_steps.
  - unfold locAPIGnssNiResponse. destruct (mLocationAPI c); [|done]. same_steps.
  - unfold onResponseCb. pose proof (same_geofences_request s c) as Hr. destruct (getRequestBySession s c) as [[r|] c1]; [|done].
    etransitivity; [apply Hr|apply same_geofences_response].
  - unfold beforeBatchingStatusCb. by destruct (match st with BATCHING_STATUS_TRIP_COMPLETED => _ | _ => _ end).
  - unfold beforeGeofenceBreachCb. by destruct (ok && mGeofenceBreachCallback c).
Qed.

Lemma ginv_same c c' pend m : ginv c pend m → same_geofences c c' → ginv c' pend m.
Proof.
  intros H (Ha & Hd & Hq). split; try (by apply H).
  - rewrite Ha. apply H.
  - rewrite Hd. apply H.
  - unfold geofence_session. rewrite Hq. apply H.
  - unfold geo_queue. rewrite Hq. apply H.
Qed.

(** ** The executions of a client *)

(** [pend]: the requests that wait for their answer, in order; [m]: the client's geofences,
    by its ids.  The ids that are added are new, and so are the sessions of the API;
    a geofence is removed once, and no request on it but removals is waiting then. *)
Inductive geofencing : ClientBase → list geo_pending → geofences → Prop :=
  | geo_init gb bs : geofencing (locAPISetCallbacks gb bs newClientBase) [] ∅
  | geo_add c pend m gs data ss : geofencing c pend m → length gs = length ss → all_new m (zip gs ss) →
      geofencing (locAPIAddGeofences gs data (Some ss) c).2 (pend ++ [(KAdd, gs.*1, ss)]) (fold_left add_geofence (zip gs ss) m)
  | geo_add_failed c pend m gs data : geofencing c pend m → geofencing (locAPIAddGeofences gs data None c).2 pend m
  | geo_remove c pend m ids : geofencing c pend m → NoDup ids → Forall (λ id, ¬ awaits pend id) ids →
      geofencing (locAPIRemoveGeofences true ids c) (push_known m KRemove ids pend) (foldr delete m ids)
  | geo_modify c pend m gs : geofencing c pend m →
      geofencing (locAPIModifyGeofences true gs c) (push_known m KModify gs.*1 pend)
                 (fold_left set_mask ((λ g : Z * GeofenceOption, (g.1, Some (breachTypeMask g.2))) <$> gs) m)
  | geo_pause c pend m ids : geofencing c pend m → geofencing (locAPIPauseGeofences true ids c) (push_known m KPause ids pend) m
  | geo_resume c pend m ids : geofencing c pend m →
      geofencing (locAPIResumeGeofences true ids c) (push_known m KResume ids.*1 pend) (fold_left set_mask ids m)
  | geo_out_of_memory c pend m ids gs idms : geofencing c pend m →
      geofencing (locAPIResumeGeofences false idms (locAPIPauseGeofences false ids (locAPIModifyGeofences false gs (locAPIRemoveGeofences false ids c)))) pend m
  | geo_answer c pend m k ids ss errs : geofencing c ((k, ids, ss) :: pend) m → geofencing (onCollectiveResponseCb errs ss c) pend m
  | geo_session c pend m o : geofencing c pend m → geofencing (session_exec c o) pend m.

Lemma no_masks ids m : fold_left set_mask ((λ id : Z, (id, None)) <$> ids) m = m.
Proof.
  induction ids as [|id ids IH]; [done|]. cbn [fmap list_fmap fold_left]. unfold set_mask at 2. simpl. by destruct (m !! id) as [[]|].
Qed.

Lemma oom_request c ids r call : geofence_request false ids r call c = c.
Proof. unfold geofence_request. by rewrite andb_false_r. Qed.

Lemma geofencing_inv c pend m : geofencing c pend m → ginv c pend m.
Proof.
  induction 1 as [gb bs|c pend m gs data ss _ H Hl Hn|c pend m gs data _ H|c pend m ids _ H Hnd Haw|c pend m gs _ H|c pend m ids _ H|c pend m ids _ H
    |c pend m ids gs idms _ H|c pend m k ids ss errs _ H|c pend m o _ H].
  - split; try done; [apply represents_empty|by right].
  - by apply ginv_add.
  - by apply ginv_add_failed.
  - by apply (ginv_remove true).
  - unfold locAPIModifyGeofences. set (l := (λ g, _) <$> gs).
    replace gs.*1 with l.*1; [by apply (ginv_request true c pend m KModify l)|]. unfold l. rewrite <- list_fmap_compose. by apply list_fmap_ext.
  - unfold locAPIPauseGeofences. pose proof (ginv_request true c pend m KPause ((λ id, (id, None)) <$> ids) ApiPauseGeofences) as G.
    cbn [kind_request] in G. rewrite no_masks, <- list_fmap_compose, list_fmap_id in G. by apply G.
  - by apply (ginv_request true c pend m KResume ids).
  - unfold locAPIResumeGeofences, locAPIPauseGeofences, locAPIModifyGeofences. rewrite !oom_request.
    unfold locAPIRemoveGeofences. by rewrite andb_false_r.
  - by destruct (ginv_answer c pend m k ids ss errs H).
  - eapply ginv_same; [done|apply session_same].
Qed.

(** The answers to the requests that wait, in their order. *)
Definition answer_geofences (pend : list geo_pending) (errs : list (list LocationError)) c : ClientBase :=
  fold_left (λ c p, onCollectiveResponseCb p.2 p.1.2 c) (zip pend errs) c.

(** The geofences of which the API reports a breach, and those of them that want to know. *)
Definition entries m (ids : list Z) : list (Z * (Z * Z)) := omap (λ id, (λ x, (id, x)) <$> m !! id) ids.

Lemma breach_ids d m ids type : represents d m →
  getId d <$> filter (λ s, breach_wanted type (getExtBySession d s)) (session_at m <$> known m ids) =
  (filter (λ p : Z * (Z * Z), breach_wanted type p.2.2) (entries m ids)).*1.
Proof.
  intros Hr. induction ids as [|id ids IH]; [done|]. unfold entries in *. cbn [omap list_omap].
  destruct (m !! id) as [[s e]|] eqn:E; [|by rewrite known_cons_None].
  rewrite (known_cons_Some m id ids (s, e)) by done. cbn [fmap list_fmap option_fmap option_map]. unfold session_at at 1. rewrite E. simpl.
  rewrite !filter_cons, (getExtBySession_spec d m id s e) by done. cbn [snd]. case_decide; [|done].
  cbn [fmap list_fmap]. by rewrite IH, (getId_spec d m id s e).
Qed.

(** C12: the client's names for its geofences: in every execution of a client ([geofencing]) that
    adds geofences under ids it does not use, for which the API gives new positive numbers or
    fails, removes geofences by distinct ids, of which no request but removals waits, and modifies,
    pauses and resumes any; with an API that answers these requests in their order, and any
    operation of the client's sessions in between: the dictionary holds the client's geofences with
    their sessions and the masks last set; each answer calls the method of its request with the
    client's ids of exactly the geofences that were found when the request was made, that of a
    removal with the ids it removed; and a breach is reported with the client's ids of those
    geofences that want it. Removing all geofences at once is not among the operations. *)
Theorem geofences_answered c pend m : geofencing c pend m →
  represents (mGeofenceBiDict c) m ∧
  (∀ errs, length errs = length pend →
     let c' := answer_geofences pend errs c in
     callbacks c' = callbacks c ++ zip_with (λ p e, geo_callback p.1.1 e p.1.2) pend errs ∧ geofencing c' [] m ∧ geo_queue c' = []) ∧
  (∀ type ids, mGeofenceBreachCallback c = true →
     callbacks (beforeGeofenceBreachCb true (session_at m <$> known m ids) type c) =
     callbacks c ++ [geofenceBreachCb (filter (λ p : Z * (Z * Z), breach_wanted type p.2.2) (entries m ids)).*1 type]).
Proof.
  intros Hc. split_and!; [apply (geofencing_inv c pend m Hc)| |].
  - revert c Hc. induction pend as [|[[k ids] ss] pend IH]; intros c Hc errs Hes; destruct errs as [|e errs]; try done; cbv zeta; unfold answer_geofences; simpl.
    + rewrite app_nil_r. split_and!; [done..|]. pose proof (ginv_queue _ _ _ (geofencing_inv _ _ _ Hc)) as Hq. by apply Forall2_nil_inv_r in Hq.
    + destruct (ginv_answer c pend m k ids ss e (geofencing_inv _ _ _ Hc)) as [_ Hcb].
      destruct (IH _ (geo_answer c pend m k ids ss e Hc) errs) as (I1 & I2 & I3); [by injection Hes|].
      unfold answer_geofences in *. by rewrite I1, Hcb, <- app_assoc.
  - intros type ids Hb. unfold beforeGeofenceBreachCb. rewrite Hb. simpl. do 3 f_equal.
    apply breach_ids. apply (geofencing_inv c pend m Hc).
Qed.

(** Two geofences are added and the answer comes; one is removed, the other modified, and paused
    with one that is unknown; then a breach is reported and the three answers come. *)
Lemma geofences_answered_witness :
  let both := Build_GeofenceOption 3 0 0 in
  let exit := Build_GeofenceOption 2 0 0 in
  let c := locAPISetCallbacks true false newClientBase in
  let c := (locAPIAddGeofences [(5, both); (6, both)] [] (Some [11; 12]) c).2 in
  let c := onCollectiveResponseCb [LOCATION_ERROR_SUCCESS; LOCATION_ERROR_SUCCESS] [11; 12] c in
  let c := locAPIRemoveGeofences true [5] c in
  let c := locAPIModifyGeofences true [(6, exit)] c in
  let c := locAPIPauseGeofences true [7; 6] c in
  let pend := [(KRemove, [5], [11]); (KModify, [6], [12]); (KPause, [6], [12])] in
  let c' := answer_geofences pend [[LOCATION_ERROR_SUCCESS]; [LOCATION_ERROR_SUCCESS]; [LOCATION_ERROR_ID_UNKNOWN]] c in
  geofencing c pend {[6 := (12, 2)]} ∧
  callbacks c' = [onAddGeofencesCb [LOCATION_ERROR_SUCCESS; LOCATION_ERROR_SUCCESS] [5; 6]; onRemoveGeofencesCb [LOCATION_ERROR_SUCCESS] [5];
                  onModifyGeofencesCb [LOCATION_ERROR_SUCCESS] [6]; onPauseGeofencesCb [LOCATION_ERROR_ID_UNKNOWN] [6]] ∧
  callbacks (beforeGeofenceBreachCb true [12] GEOFENCE_BREACH_EXIT c) = callbacks c ++ [geofenceBreachCb [6] GEOFENCE_BREACH_EXIT].
Proof.
  intros both exit c0 c1 c2 c3 c4 c pend c'.
  pose proof (geo_init true false) as H0. fold c0 in H0.
  assert (H1 : geofencing c1 [(KAdd, [5; 6], [11; 12])] (fold_left add_geofence (zip [(5, both); (6, both)] [11; 12]) ∅)).
  { apply (geo_add c0 [] ∅ [(5, both); (6, both)] [] [11; 12] H0); [done|]. split_and!.
    - by apply (bool_decide_unpack (NoDup [5; 6])).
    - by apply (bool_decide_unpack (NoDup [11; 12])).
    - repeat constructor; intros i t; by rewrite lookup_empty. }
  pose proof (geo_answer _ _ _ _ _ _ [LOCATION_ERROR_SUCCESS; LOCATION_ERROR_SUCCESS] H1) as H2. fold c2 in H2.
  assert (H3 : geofencing c3 [(KRemove, [5], [11])] {[6 := (12, 3)]}).
  { pose proof (geo_remove c2 [] _ [5] H2) as H. apply H; [apply NoDup_singleton|]. repeat constructor.
    intros (k & ids & ss & Hin & _). by apply not_elem_of_nil in Hin. }
  pose proof (geo_modify c3 _ _ [(6, exit)] H3) as H4.
  assert (H : geofencing c pend {[6 := (12, 2)]}) by exact (geo_pause c4 _ _ [7; 6] H4).
  split; [done|]. destruct (geofences_answered c pend _ H) as (_ & Ha & Hb). split.
  - destruct (Ha [[LOCATION_ERROR_SUCCESS]; [LOCATION_ERROR_SUCCESS]; [LOCATION_ERROR_ID_UNKNOWN]]) as [E _]; [done|].
    fold c' in E. rewrite E. by vm_compute.
  - apply (Hb GEOFENCE_BREACH_EXIT [6]). by vm_compute.
Defined.

(** ** The sessions taken for ids *)

Lemma remove_loop_unknown ids sess d removed m : represents d m → (∀ id, id ∈ ids → m !! id = None) →
  remove_loop ids sess d removed = (sess, d, removed).
Proof.
  intros Hr. revert sess. induction ids as [|id ids IH]; intros sess Hn; [done|]. cbn [remove_loop].
  rewrite (getSession_spec d m), (Hn id) by (done || by left). simpl. apply IH. intros i Hi. apply Hn. by right.
Qed.

Lemma sessions_NoDup d m : represents d m → NoDup (map_to_list m).*2.*1.
Proof.
  intros Hr. rewrite <- list_fmap_compose. apply NoDup_fmap_2_strong; [|apply NoDup_map_to_list].
  intros [i [s t]] [j [s' t']] Hi%elem_of_map_to_list Hj%elem_of_map_to_list E. simpl in E. subst s'.
  by destruct (represents_inj d m i j s t t') as [-> ->].
Qed.

Lemma foldr_delete_perm (l l' : list Z) m : l ≡ₚ l' → foldr delete m l = foldr delete m l'.
Proof.
  intros Hl. apply map_eq. intros i. destruct (decide (i ∈ l)) as [Hi|Hi].
  - rewrite !lookup_foldr_delete; [done|by rewrite <- Hl|done].
  - rewrite !lookup_foldr_delete_not_elem_of; [done|by rewrite <- Hl|done].
Qed.

(** LocAPIRemoveAllGeofences takes the sessions of the geofences for the client's ids:
    it removes the geofences whose ids happen to be the numbers of sessions, and no
    others; when no id is a session, it does nothing at all. *)
Theorem remove_all_misread c pend m : geofencing c pend m →
  represents (mGeofenceBiDict (locAPIRemoveAllGeofences true c)) (foldr delete m (map_to_list m).*2.*1) ∧
  ((∀ id s e, m !! id = Some (s, e) → m !! s = None) → locAPIRemoveAllGeofences true c = c).
Proof.
  intros H%geofencing_inv. pose proof (ginv_dict _ _ _ H) as Hr. destruct (getAllSessions_spec _ _ Hr) as [Hperm _].
  unfold locAPIRemoveAllGeofences. case_bool_decide as Hnil.
  { split; [|done]. rewrite Hnil in Hperm. apply Permutation_nil in Hperm. by rewrite Hperm. }
  unfold locAPIRemoveGeofences. rewrite (ginv_api _ _ _ H). cbn [andb].
  destruct (ginv_session _ _ _ H) as [->|[-> _]].
  2:{ exfalso. apply Hnil. rewrite map_to_list_empty in Hperm. by apply Permutation_nil. }
  split.
  - destruct (remove_loop_spec (getAllSessions (mGeofenceBiDict c)) [] (mGeofenceBiDict c) BiDict_empty m ∅) as (d' & removed & mr & -> & Hd & _);
      [apply H|apply H|apply represents_empty|rewrite Hperm; by eapply sessions_NoDup|done|intros; intros ? ?; by rewrite lookup_empty|].
    rewrite (foldr_delete_perm _ _ m Hperm) in Hd. by destruct (bool_decide _).
  - intros Hno. rewrite (remove_loop_unknown _ _ _ _ m Hr); [by destruct c|]. intros i. rewrite Hperm.
    intros ([s e] & -> & ([id [s' e']] & [= <- <-] & Hm%elem_of_map_to_list)%list_elem_of_fmap)%list_elem_of_fmap. by eapply Hno.
Qed.

Lemma remove_all_misread_witness :
  let both := Build_GeofenceOption 3 0 0 in
  let c := (locAPIAddGeofences [(5, both); (6, both)] [] (Some [11; 12]) (locAPISetCallbacks true false newClientBase)).2 in
  locAPIRemoveAllGeofences true c = c.
Proof.
  intros both c.
  assert (H : geofencing c [(KAdd, [5; 6], [11; 12])] (fold_left add_geofence (zip [(5, both); (6, both)] [11; 12]) ∅)).
  { apply (geo_add _ [] ∅ [(5, both); (6, both)] [] [11; 12] (geo_init true false)); [done|]. split_and!.
    - by apply (bool_decide_unpack (NoDup [5; 6])).
    - by apply (bool_decide_unpack (NoDup [11; 12])).
    - repeat constructor; intros i t; by rewrite lookup_empty. }
  destruct (remove_all_misread c _ _ H) as [_ Hno]. apply Hno. intros id s e.
  cbn [zip zip_with fold_left]. unfold add_geofence. simpl. rewrite !lookup_insert_Some, lookup_empty.
  intros [[<- [= <- _]]|[_ [[<- [= <- _]]|[_ ?]]]]; by vm_compute.
Defined.
