(* ===== verification/LocationAPI.v ===== *)
(** * gps/location/LocationAPI.cpp : the front of the adapters.

    A client is an object of LocationAPI.  What it asks is passed to the interface of the
    adapter that serves it; the libraries of the adapters are loaded when the first client
    needs them.  An object that is destroyed lives until all the adapters have removed it.

    A method runs under one lock and is one step.  The libraries that can be loaded are the
    parameter [e]; what the adapters are called with, the objects deleted and the calls of
    the framework are a log of events; what an interface returns is an argument. *)
From stdpp Require Import functions.
From S2P Require Import Prelude PbEnums LocApi LocApiBatch LocApiTrack LocAdapter.
Local Open Scope Z_scope.

(** The three interfaces. *)
Inductive iface := IGnss | IBatching | IGeofence.
#[export] Instance iface_dec : EqDecision iface.
Proof. solve_decision. Defined.

(** Which libraries load: those of the adapters, and liblocationservice_glue.so. *)
Record Libraries := { loads : iface → bool; glue : bool }.

Section api.
(** The structures that are only passed on to an adapter. *)
Context {Passed : Type}.

(** The calls of the interfaces that a method leads to. *)
Inductive adapter_call :=
  | CallStartTracking (c : client) (options : TrackingOptions)
  | CallStopTracking (c : client) (id : Z)
  | CallUpdateTrackingOptions (c : client) (id : Z) (options : TrackingOptions)
  | CallStartBatching (c : client) (options : BatchingOptions)
  | CallStopBatching (c : client) (id : Z)
  | CallUpdateBatchingOptions (c : client) (id : Z) (options : BatchingOptions)
  | CallGetBatchedLocations (c : client) (id count : Z)
  | CallAddGeofences (c : client) (options : list GeofenceOption) (info : list GeofenceInfo)
  | CallRemoveGeofences (c : client) (ids : list Z)
  | CallModifyGeofences (c : client) (ids : list Z) (options : list GeofenceOption)
  | CallPauseGeofences (c : client) (ids : list Z)
  | CallResumeGeofences (c : client) (ids : list Z)
  | CallGnssNiResponse (c : client) (id response : Z)
  | CallEnable (techType : Z)
  | CallDisable (id : Z)
  | CallGnssUpdateConfig (config : Passed)
  | CallGnssGetConfig (mask : Z)
  | CallGnssDeleteAidingData (data : Passed)
  | CallGnssUpdateSvConfig (constellationEnablementConfig blacklistSvConfig : Passed)
  | CallGnssUpdateSecondaryBandConfig (secondaryBandConfig : Passed)
  | CallSetConstrainedTunc (enable : bool) (tuncThreshold : Passed) (energyBudget : Z)
  | CallSetPositionAssistedClockEstimator (enable : bool)
  | CallConfigLeverArm (configInfo : Passed)
  | CallConfigRobustLocation (enable enableForE911 : bool)
  | CallConfigMinGpsWeek (minGpsWeek : Z)
  | CallConfigDeadReckoningEngineParams (dreConfig : Passed)
  | CallConfigEngineRunState (engType engState : Z).

(** The functions of the glue library. *)
Inductive glue_call :=
  | GlueEnableNetworkProvider | GlueDisableNetworkProvider | GlueStartNetworkLocation (callback : Z) | GlueStopNetworkLocation (callback : Z)
  | GlueSetOptInStatus (userConsent : bool).

Inductive event :=
  | EvInitialize (i : iface)
  | EvAddClient (i : iface) (c : client) (callbacks : LocationCallbacks)
  | EvRequestCapabilities (i : iface) (c : client)
  | EvRemoveClient (i : iface) (c : client)
  | EvSetControlCallbacks (callbacks : Z)
  | EvCall (i : iface) (call : adapter_call)
  | EvGlue (call : glue_call)
  | EvCreateOSFramework | EvDestroyOSFramework
  | EvDestroyComplete (callback : Z)   (* destroyCompleteCb is called *)
  | EvBadFunctionCall                  (* an empty std::function is called, which throws *)
  | EvDelete (c : client).

(** LocationAPIData and the other variables of the file; [objects] are the objects of
    LocationAPI, by their addresses; a callback given to destroy is a number, or none. *)
Record LocationAPIData := mkData {
  clientData : gmap client LocationCallbacks;
  destroyClientData : gmap client (Z * option Z);
  controlAPI : bool;
  controlCallbacks : Z;
  interface : iface → bool;
  loadFailed : iface → bool;
  gOSFrameworkRefCount : Z;
  objects : gset client;
  events : list event
}.

Definition gData : LocationAPIData := mkData ∅ ∅ false 0 (λ _, false) (λ _, false) 0 ∅ [].

Definition emit (v : event) (s : LocationAPIData) : LocationAPIData :=
  mkData (clientData s) (destroyClientData s) (controlAPI s) (controlCallbacks s) (interface s) (loadFailed s) (gOSFrameworkRefCount s) (objects s) (events s ++ [v]).
Definition set_clientData (m : gmap client LocationCallbacks) (s : LocationAPIData) : LocationAPIData :=
  mkData m (destroyClientData s) (controlAPI s) (controlCallbacks s) (interface s) (loadFailed s) (gOSFrameworkRefCount s) (objects s) (events s).
Definition set_destroyClientData (m : gmap client (Z * option Z)) (s : LocationAPIData) : LocationAPIData :=
  mkData (clientData s) m (controlAPI s) (controlCallbacks s) (interface s) (loadFailed s) (gOSFrameworkRefCount s) (objects s) (events s).
Definition set_control (b : bool) (callbacks : Z) (s : LocationAPIData) : LocationAPIData :=
  mkData (clientData s) (destroyClientData s) b callbacks (interface s) (loadFailed s) (gOSFrameworkRefCount s) (objects s) (events s).
Definition set_interface (i : iface) (s : LocationAPIData) : LocationAPIData :=
  mkData (clientData s) (destroyClientData s) (controlAPI s) (controlCallbacks s) (<[i := true]> (interface s)) (loadFailed s) (gOSFrameworkRefCount s) (objects s) (events s).
Definition set_loadFailed (i : iface) (s : LocationAPIData) : LocationAPIData :=
  mkData (clientData s) (destroyClientData s) (controlAPI s) (controlCallbacks s) (interface s) (<[i := true]> (loadFailed s)) (gOSFrameworkRefCount s) (objects s) (events s).
(** uint32_t gOSFrameworkRefCount += d *)
Definition add_ref (d : Z) (s : LocationAPIData) : LocationAPIData :=
  mkData (clientData s) (destroyClientData s) (controlAPI s) (controlCallbacks s) (interface s) (loadFailed s) ((gOSFrameworkRefCount s + d) mod 2 ^ 32) (objects s) (events s).
Definition new_object (c : client) (s : LocationAPIData) : LocationAPIData :=
  mkData (clientData s) (destroyClientData s) (controlAPI s) (controlCallbacks s) (interface s) (loadFailed s) (gOSFrameworkRefCount s) ({[c]} ∪ objects s) (events s).
(** delete this *)
Definition delete_object (c : client) (s : LocationAPIData) : LocationAPIData :=
  emit (EvDelete c) (mkData (clientData s) (destroyClientData s) (controlAPI s) (controlCallbacks s) (interface s) (loadFailed s) (gOSFrameworkRefCount s) (objects s ∖ {[c]}) (events s)).

Definition adapter_bit (i : iface) : Z := match i with IGnss => 1 | IBatching => 2 | IGeofence => 4 end.

Definition isGnssClient (cb : LocationCallbacks) : bool :=
  gnssNiCb cb || trackingCb cb || gnssLocationInfoCb cb || engineLocationsInfoCb cb || gnssSvCb cb || gnssNmeaCb cb ||
  gnssDataCb cb || gnssMeasurementsCb cb || locationSystemInfoCb cb.
Definition isBatchingClient (cb : LocationCallbacks) : bool := batchingCb cb.
Definition isGeofenceClient (cb : LocationCallbacks) : bool := geofenceBreachCb cb || geofenceStatusCb cb.

Definition is_client (i : iface) (cb : LocationCallbacks) : bool :=
  match i with IGnss => isGnssClient cb | IBatching => isBatchingClient cb | IGeofence => isGeofenceClient cb end.

(** The callbacks without which there is no client. *)
Definition mandatory (cb : LocationCallbacks) : bool := capabilitiesCb cb && responseCb cb && collectiveResponseCb cb.

Section methods.
Context (e : Libraries).

Definition createOSFrameworkInstance (s : LocationAPIData) : LocationAPIData := if glue e then emit EvCreateOSFramework s else s.
Definition destroyOSFrameworkInstance (s : LocationAPIData) : LocationAPIData := if glue e then emit EvDestroyOSFramework s else s.

(** loadLocationInterface, tried once. *)
Definition load_interface (i : iface) (s : LocationAPIData) : LocationAPIData :=
  if negb (interface s i) && negb (loadFailed s i) then
    if loads e i then emit (EvInitialize i) (set_interface i s) else set_loadFailed i s
  else s.

(** ** The life of a client *)

(** One interface in createInstance; [requested]: the capabilities have been requested. *)
Definition create_part (c : client) (cb : LocationCallbacks) (st : LocationAPIData * bool) (i : iface) : LocationAPIData * bool :=
  let '(s, requested) := st in
  if is_client i cb then
    let s := load_interface i s in
    if interface s i then
      let s := emit (EvAddClient i c cb) s in
      if requested then (s, requested) else (emit (EvRequestCapabilities i c) s, true)
    else (s, requested)
  else (s, requested).

(** [c] is the address of the new object. *)
Definition createInstance (c : client) (cb : LocationCallbacks) (s : LocationAPIData) : option client * LocationAPIData :=
  if mandatory cb then
    let s := add_ref 1 (new_object c s) in
    let s := if gOSFrameworkRefCount s =? 1 then createOSFrameworkInstance s else s in
    let '(s, _) := fold_left (create_part c cb) [IGnss; IBatching; IGeofence] (s, false) in
    (Some c, set_clientData (<[c := cb]> (clientData s)) s)
  else (None, s).

Definition update_part (c : client) (cb : LocationCallbacks) (s : LocationAPIData) (i : iface) : LocationAPIData :=
  if is_client i cb then
    let s := load_interface i s in
    if interface s i then emit (EvAddClient i c cb) s else s
  else s.

Definition updateCallbacks (c : client) (cb : LocationCallbacks) (s : LocationAPIData) : LocationAPIData :=
  if mandatory cb then
    let s := fold_left (update_part c cb) [IGnss; IBatching; IGeofence] s in
    set_clientData (<[c := cb]> (clientData s)) s
  else s.

(** The call of destroyCompleteCb and what comes after it, as it is written: the callback is
    called when it is empty, and the exception leaves the object undeleted. *)
Definition destroy_complete (cb : option Z) (c : client) (s : LocationAPIData) : LocationAPIData :=
  match cb with
  | None => emit EvBadFunctionCall s
  | Some _ => delete_object c s
  end.

Definition onRemoveClientCompleteCb (i : iface) (c : client) (s : LocationAPIData) : LocationAPIData :=
  match destroyClientData s !! c with
  | Some (mask, cb) =>
    let mask := Z.land mask (Z.lnot (adapter_bit i)) in
    if mask =? 0 then destroy_complete cb c (set_destroyClientData (delete c (destroyClientData s)) s)
    else set_destroyClientData (<[c := (mask, cb)]> (destroyClientData s)) s
  | None => s
  end.

(** The bits of the interfaces that are loaded. *)
Definition loaded_bit (s : LocationAPIData) (i : iface) : Z := if interface s i then adapter_bit i else 0.

Definition remove_part (c : client) (s : LocationAPIData) (i : iface) : LocationAPIData :=
  if interface s i then emit (EvRemoveClient i c) s else s.

Definition destroy (c : client) (destroyCompleteCb : option Z) (s : LocationAPIData) : LocationAPIData :=
  let '(s, invokeDestroyCb) :=
    match clientData s !! c with
    | Some _ =>
      let needToWait := interface s IGnss || interface s IBatching || interface s IGeofence in
      let mask := Z.lor (Z.lor (loaded_bit s IGnss) (loaded_bit s IBatching)) (loaded_bit s IGeofence) in
      let s := if negb (bool_decide (destroyCompleteCb = None)) && needToWait
               then set_destroyClientData (<[c := (mask, destroyCompleteCb)]> (destroyClientData s)) s else s in
      let s := fold_left (remove_part c) [IGnss; IBatching; IGeofence] s in
      (set_clientData (delete c (clientData s)) s, negb needToWait)
    | None => (s, false)
    end in
  let s := if gOSFrameworkRefCount s =? 1 then destroyOSFrameworkInstance s else s in
  let s := add_ref (-1) s in
  if invokeDestroyCb then destroy_complete destroyCompleteCb c s else s.

(** ** What is passed on *)

(** The interface is asked when it is there; [ret] is what it returns, 0 or NULL otherwise. *)
Definition pass (i : iface) (call : adapter_call) {R} (none ret : R) (s : LocationAPIData) : R * LocationAPIData :=
  if interface s i then (ret, emit (EvCall i call) s) else (none, s).

(** And only for a client that is in the table. *)
Definition pass_known (c : client) (i : iface) (call : adapter_call) {R} (none ret : R) (s : LocationAPIData) : R * LocationAPIData :=
  match clientData s !! c with Some _ => pass i call none ret s | None => (none, s) end.

Definition startTracking (c : client) (options : TrackingOptions) (ret : Z) : LocationAPIData → Z * LocationAPIData :=
  pass_known c IGnss (CallStartTracking c options) 0 ret.
Definition stopTracking (c : client) (id : Z) (s : LocationAPIData) : LocationAPIData :=
  (pass_known c IGnss (CallStopTracking c id) tt tt s).2.
Definition updateTrackingOptions (c : client) (id : Z) (options : TrackingOptions) (s : LocationAPIData) : LocationAPIData :=
  (pass_known c IGnss (CallUpdateTrackingOptions c id options) tt tt s).2.
Definition startBatching (c : client) (options : BatchingOptions) (ret : Z) : LocationAPIData → Z * LocationAPIData :=
  pass IBatching (CallStartBatching c options) 0 ret.
Definition stopBatching (c : client) (id : Z) (s : LocationAPIData) : LocationAPIData :=
  (pass IBatching (CallStopBatching c id) tt tt s).2.
Definition updateBatchingOptions (c : client) (id : Z) (options : BatchingOptions) (s : LocationAPIData) : LocationAPIData :=
  (pass IBatching (CallUpdateBatchingOptions c id options) tt tt s).2.
Definition getBatchedLocations (c : client) (id count : Z) (s : LocationAPIData) : LocationAPIData :=
  (pass IBatching (CallGetBatchedLocations c id count) tt tt s).2.
(** The array of ids, or NULL. *)
Definition addGeofences (c : client) (options : list GeofenceOption) (info : list GeofenceInfo) (ret : option (list Z)) :
    LocationAPIData → option (list Z) * LocationAPIData :=
  pass IGeofence (CallAddGeofences c options info) None ret.
Definition removeGeofences (c : client) (ids : list Z) (s : LocationAPIData) : LocationAPIData :=
  (pass IGeofence (CallRemoveGeofences c ids) tt tt s).2.
Definition modifyGeofences (c : client) (ids : list Z) (options : list GeofenceOption) (s : LocationAPIData) : LocationAPIData :=
  (pass IGeofence (CallModifyGeofences c ids options) tt tt s).2.
Definition pauseGeofences (c : client) (ids : list Z) (s : LocationAPIData) : LocationAPIData :=
  (pass IGeofence (CallPauseGeofences c ids) tt tt s).2.
Definition resumeGeofences (c : client) (ids : list Z) (s : LocationAPIData) : LocationAPIData :=
  (pass IGeofence (CallResumeGeofences c ids) tt tt s).2.
Definition gnssNiResponse (c : client) (id response : Z) (s : LocationAPIData) : LocationAPIData :=
  (pass IGnss (CallGnssNiResponse c id response) tt tt s).2.

(** A function of the glue library, with what it returns. *)
Definition call_glue (g : glue_call) (ret : Z) (s : LocationAPIData) : Z * LocationAPIData :=
  if glue e then (ret, emit (EvGlue g) s) else (0, s).
Definition enableNetworkProvider (s : LocationAPIData) : LocationAPIData := (call_glue GlueEnableNetworkProvider 0 s).2.
Definition disableNetworkProvider (s : LocationAPIData) : LocationAPIData := (call_glue GlueDisableNetworkProvider 0 s).2.
Definition startNetworkLocation (callback : Z) (s : LocationAPIData) : LocationAPIData := (call_glue (GlueStartNetworkLocation callback) 0 s).2.
Definition stopNetworkLocation (callback : Z) (s : LocationAPIData) : LocationAPIData := (call_glue (GlueStopNetworkLocation callback) 0 s).2.

(** ** LocationControlAPI *)

(** [has_responseCb]: the mandatory callback; [callbacks] names them.  Is an object returned? *)
Definition control_createInstance (has_responseCb : bool) (callbacks : Z) (s : LocationAPIData) : bool * LocationAPIData :=
  if has_responseCb && negb (controlAPI s) then
    let s := load_interface IGnss s in
    if interface s IGnss then (true, emit (EvSetControlCallbacks callbacks) (set_control true callbacks s)) else (false, s)
  else (false, s).

Definition control_destroy (s : LocationAPIData) : LocationAPIData := set_control false (controlCallbacks s) s.

Definition enable (techType ret : Z) : LocationAPIData → Z * LocationAPIData := pass IGnss (CallEnable techType) 0 ret.
Definition disable (id : Z) (s : LocationAPIData) : LocationAPIData := (pass IGnss (CallDisable id) tt tt s).2.
(** The arrays of ids, or NULL. *)
Definition gnssUpdateConfig (config : Passed) (ret : ptr) : LocationAPIData → ptr * LocationAPIData := pass IGnss (CallGnssUpdateConfig config) None ret.
Definition gnssGetConfig (mask : Z) (ret : ptr) : LocationAPIData → ptr * LocationAPIData := pass IGnss (CallGnssGetConfig mask) None ret.
Definition gnssDeleteAidingData (data : Passed) (ret : Z) : LocationAPIData → Z * LocationAPIData := pass IGnss (CallGnssDeleteAidingData data) 0 ret.
Definition configConstellations (constellationEnablementConfig blacklistSvConfig : Passed) (ret : Z) : LocationAPIData → Z * LocationAPIData :=
  pass IGnss (CallGnssUpdateSvConfig constellationEnablementConfig blacklistSvConfig) 0 ret.
Definition configConstellationSecondaryBand (secondaryBandConfig : Passed) (ret : Z) : LocationAPIData → Z * LocationAPIData :=
  pass IGnss (CallGnssUpdateSecondaryBandConfig secondaryBandConfig) 0 ret.
Definition configConstrainedTimeUncertainty (enable : bool) (tuncThreshold : Passed) (energyBudget ret : Z) : LocationAPIData → Z * LocationAPIData :=
  pass IGnss (CallSetConstrainedTunc enable tuncThreshold energyBudget) 0 ret.
Definition configPositionAssistedClockEstimator (enable : bool) (ret : Z) : LocationAPIData → Z * LocationAPIData :=
  pass IGnss (CallSetPositionAssistedClockEstimator enable) 0 ret.
Definition configLeverArm (configInfo : Passed) (ret : Z) : LocationAPIData → Z * LocationAPIData := pass IGnss (CallConfigLeverArm configInfo) 0 ret.
Definition configRobustLocation (enable enableForE911 : bool) (ret : Z) : LocationAPIData → Z * LocationAPIData :=
  pass IGnss (CallConfigRobustLocation enable enableForE911) 0 ret.
Definition configMinGpsWeek (minGpsWeek ret : Z) : LocationAPIData → Z * LocationAPIData := pass IGnss (CallConfigMinGpsWeek minGpsWeek) 0 ret.
Definition configDeadReckoningEngineParams (dreConfig : Passed) (ret : Z) : LocationAPIData → Z * LocationAPIData :=
  pass IGnss (CallConfigDeadReckoningEngineParams dreConfig) 0 ret.
Definition configEngineRunState (engType engState ret : Z) : LocationAPIData → Z * LocationAPIData :=
  pass IGnss (CallConfigEngineRunState engType engState) 0 ret.
Definition setOptInStatus (userConsent : bool) (ret : Z) : LocationAPIData → Z * LocationAPIData := call_glue (GlueSetOptInStatus userConsent) ret.

(** ** The methods as operations *)

Inductive method :=
  | MStartTracking (c : client) (options : TrackingOptions) (ret : Z) | MStopTracking (c : client) (id : Z)
  | MUpdateTrackingOptions (c : client) (id : Z) (options : TrackingOptions)
  | MStartBatching (c : client) (options : BatchingOptions) (ret : Z) | MStopBatching (c : client) (id : Z)
  | MUpdateBatchingOptions (c : client) (id : Z) (options : BatchingOptions) | MGetBatchedLocations (c : client) (id count : Z)
  | MAddGeofences (c : client) (options : list GeofenceOption) (info : list GeofenceInfo) (ret : option (list Z))
  | MRemoveGeofences (c : client) (ids : list Z) | MModifyGeofences (c : client) (ids : list Z) (options : list GeofenceOption)
  | MPauseGeofences (c : client) (ids : list Z) | MResumeGeofences (c : client) (ids : list Z)
  | MGnssNiResponse (c : client) (id response : Z)
  | MNetworkProvider (on : bool) | MNetworkLocation (on : bool) (callback : Z)
  | MControlCreate (has_responseCb : bool) (callbacks : Z) | MControlDestroy
  | MEnable (techType ret : Z) | MDisable (id : Z) | MGnssUpdateConfig (config : Passed) (ret : ptr) | MGnssGetConfig (mask : Z) (ret : ptr)
  | MGnssDeleteAidingData (data : Passed) (ret : Z) | MConfigConstellations (config blacklist : Passed) (ret : Z)
  | MConfigConstellationSecondaryBand (config : Passed) (ret : Z) | MConfigConstrainedTimeUncertainty (enable : bool) (t : Passed) (budget ret : Z)
  | MConfigPositionAssistedClockEstimator (enable : bool) (ret : Z) | MConfigLeverArm (config : Passed) (ret : Z)
  | MConfigRobustLocation (enable e911 : bool) (ret : Z) | MConfigMinGpsWeek (week ret : Z) | MConfigDeadReckoningEngineParams (config : Passed) (ret : Z)
  | MConfigEngineRunState (engType engState ret : Z) | MSetOptInStatus (consent : bool) (ret : Z).

Definition run_method (m : method) (s : LocationAPIData) : LocationAPIData :=
  match m with
  | MStartTracking c o r => (startTracking c o r s).2 | MStopTracking c i => stopTracking c i s
  | MUpdateTrackingOptions c i o => updateTrackingOptions c i o s
  | MStartBatching c o r => (startBatching c o r s).2 | MStopBatching c i => stopBatching c i s
  | MUpdateBatchingOptions c i o => updateBatchingOptions c i o s | MGetBatchedLocations c i n => getBatchedLocations c i n s
  | MAddGeofences c o i r => (addGeofences c o i r s).2
  | MRemoveGeofences c l => removeGeofences c l s | MModifyGeofences c l o => modifyGeofences c l o s
  | MPauseGeofences c l => pauseGeofences c l s | MResumeGeofences c l => resumeGeofences c l s
  | MGnssNiResponse c i r => gnssNiResponse c i r s
  | MNetworkProvider on => if on then enableNetworkProvider s else disableNetworkProvider s
  | MNetworkLocation on cb => if on then startNetworkLocation cb s else stopNetworkLocation cb s
  | MControlCreate b cb => (control_createInstance b cb s).2 | MControlDestroy => control_destroy s
  | MEnable t r => (enable t r s).2 | MDisable i => disable i s | MGnssUpdateConfig g r => (gnssUpdateConfig g r s).2 | MGnssGetConfig k r => (gnssGetConfig k r s).2
  | MGnssDeleteAidingData d r => (gnssDeleteAidingData d r s).2 | MConfigConstellations g b r => (configConstellations g b r s).2
  | MConfigConstellationSecondaryBand g r => (configConstellationSecondaryBand g r s).2
  | MConfigConstrainedTimeUncertainty b t n r => (configConstrainedTimeUncertainty b t n r s).2
  | MConfigPositionAssistedClockEstimator b r => (configPositionAssistedClockEstimator b r s).2 | MConfigLeverArm g r => (configLeverArm g r s).2
  | MConfigRobustLocation b b' r => (configRobustLocation b b' r s).2 | MConfigMinGpsWeek w r => (configMinGpsWeek w r s).2
  | MConfigDeadReckoningEngineParams g r => (configDeadReckoningEngineParams g r s).2
  | MConfigEngineRunState t st r => (configEngineRunState t st r s).2 | MSetOptInStatus b r => (setOptInStatus b r s).2
  end.
End methods.
End api.
Arguments LocationAPIData : clear implicits.
Arguments event : clear implicits.

(** * Correctness *)

(** ** Readings of the log *)
Section log.
Context {Passed : Type}.
Notation State := (LocationAPIData Passed).
Implicit Types (s : State) (v : event Passed).

(** Does the event need the interface? *)
Definition uses (i : iface) v : bool :=
  match v with
  | EvAddClient j _ _ | EvRequestCapabilities j _ | EvRemoveClient j _ | EvCall j _ => bool_decide (i = j)
  | EvSetControlCallbacks _ => bool_decide (i = IGnss)
  | _ => false
  end.

Definition initializes (i : iface) v : bool := match v with EvInitialize j => bool_decide (i = j) | _ => false end.

(** Is the interface initialised at the end?  [None]: it was initialised twice, or used before. *)
Definition iface_step (i : iface) (up : option bool) v : option bool :=
  up ← up;
  if initializes i v then (if up : bool then None else Some true)
  else if uses i v && negb up then None else Some up.
Definition iface_state (i : iface) (l : list (event Passed)) : option bool := fold_left (iface_step i) l (Some false).

(** Is the framework there at the end?  [None]: it was created twice, or destroyed without being there. *)
Definition framework_step (up : option bool) v : option bool :=
  up ← up;
  match v with
  | EvCreateOSFramework => if up : bool then None else Some true
  | EvDestroyOSFramework => if up then Some false else None
  | _ => Some up
  end.
Definition framework_state (l : list (event Passed)) : option bool := fold_left framework_step l (Some false).

Definition is_framework v : bool := match v with EvCreateOSFramework | EvDestroyOSFramework => true | _ => false end.
Definition is_destroy_complete v : bool := match v with EvDestroyComplete _ => true | _ => false end.

Lemma iface_snoc i l v : iface_state i (l ++ [v]) = iface_step i (iface_state i l) v.
Proof. unfold iface_state. by rewrite fold_left_app. Qed.

Lemma framework_snoc l v : framework_state (l ++ [v]) = framework_step (framework_state l) v.
Proof. unfold framework_state. by rewrite fold_left_app. Qed.

(** What the log says of the interfaces is so. *)
Definition iface_ok s : Prop := ∀ i, iface_state i (events s) = Some (interface s i).

(** A step that adds no client, removes none and does not touch the framework. *)
Record calm s s' : Prop := {
  calm_clients : clientData s' = clientData s;
  calm_destroyed : destroyClientData s' = destroyClientData s;
  calm_objects : objects s' = objects s;
  calm_count : gOSFrameworkRefCount s' = gOSFrameworkRefCount s;
  calm_framework : framework_state (events s') = framework_state (events s);
  calm_iface : iface_ok s → iface_ok s';
  calm_up : ∀ i, interface s i = true → interface s' i = true;
  calm_silent : Forall (λ v, is_destroy_complete v = false) (events s) → Forall (λ v, is_destroy_complete v = false) (events s')
}.

#[export] Instance calm_preorder : PreOrder calm.
Proof.
  split; [by intros s; split|]. intros s1 s2 s3 H1 H2. split; try (etransitivity; [apply H2|apply H1]);
    intros; try apply (calm_iface _ _ H2), (calm_iface _ _ H1); try apply (calm_up _ _ H2), (calm_up _ _ H1); try apply (calm_silent _ _ H2), (calm_silent _ _ H1); done.
Qed.

Lemma api_calm_emit v s : is_framework v = false → is_destroy_complete v = false → (∀ i, initializes i v = false) → (∀ i, uses i v = true → interface s i = true) →
  calm s (emit v s).
Proof.
  intros Hf Hd Hi Hu. split; try done; simpl.
  - rewrite framework_snoc. unfold framework_step. destruct (framework_state (events s)) as [b|]; [|done]. by destruct v.
  - intros Hok i. cbn [emit events interface]. rewrite iface_snoc, (Hok i). unfold iface_step. simpl. rewrite (Hi i).
    destruct (uses i v) eqn:E; [|done]. by rewrite (Hu i E).
  - intros H. apply Forall_app. split; [done|by repeat constructor].
Qed.

Lemma calm_load e i s : calm s (load_interface e i s) .
Proof.
  unfold load_interface. destruct (interface s i) eqn:E; simpl; [done|]. destruct (loadFailed s i); simpl; [done|].
  destruct (loads e i); [|by split]. split; try done; simpl.
  - rewrite framework_snoc. by destruct (framework_state (events s)).
  - intros Hok j. cbn [emit set_interface events interface]. rewrite iface_snoc, (Hok j). unfold iface_step, initializes. simpl.
    destruct (decide (j = i)) as [->|Hj]; [by rewrite bool_decide_true, E, fn_lookup_insert by done|].
    rewrite bool_decide_false by done. by rewrite fn_lookup_insert_ne.
  - intros j Hj. destruct (decide (i = j)) as [->|]; [by rewrite fn_lookup_insert|by rewrite fn_lookup_insert_ne].
  - intros H. apply Forall_app. split; [done|by repeat constructor].
Qed.

(** An event of one interface that is there. *)
Lemma calm_use i v s : interface s i = true → is_framework v = false → is_destroy_complete v = false → (∀ j, initializes j v = false) →
  (∀ j, uses j v = bool_decide (j = i)) → calm s (emit v s).
Proof. intros Hi Hf Hd Hn Hu. apply api_calm_emit; try done. intros j. rewrite Hu. by intros ->%bool_decide_eq_true. Qed.

Lemma calm_pass i call {R} (none ret : R) s : calm s (pass i call none ret s).2.
Proof. unfold pass. destruct (interface s i) eqn:E; [|done]. by apply (calm_use i). Qed.

Lemma calm_pass_known c i call {R} (none ret : R) s : calm s (pass_known c i call none ret s).2.
Proof. unfold pass_known. destruct (clientData s !! c); [apply calm_pass|done]. Qed.

Lemma calm_glue e g ret s : calm s (call_glue e g ret s).2.
Proof. unfold call_glue. destruct (glue e); [|done]. by apply api_calm_emit. Qed.

Lemma calm_method e m s : calm s (run_method e m s).
Proof.
  destruct m; simpl; try apply calm_pass; try apply calm_pass_known; try apply calm_glue.
  - destruct on; apply calm_glue.
  - destruct on; apply calm_glue.
  - unfold control_createInstance. destruct (_ && _); [|done]. pose proof (calm_load e IGnss s) as Hl.
    destruct (interface (load_interface e IGnss s) IGnss) eqn:E; [|done]. etransitivity; [apply Hl|].
    transitivity (set_control true callbacks (load_interface e IGnss s)); [by split|]. by apply (calm_use IGnss).
  - by split.
Qed.

Lemma calm_create_part e c cb st i : calm st.1 (create_part e c cb st i).1.
Proof.
  destruct st as [s requested]. unfold create_part. destruct (is_client i cb); [|done]. pose proof (calm_load e i s) as Hl.
  destruct (interface (load_interface e i s) i) eqn:E; [|done]. etransitivity; [apply Hl|].
  assert (H1 : calm (load_interface e i s) (emit (EvAddClient i c cb) (load_interface e i s))) by by apply (calm_use i).
  destruct requested; [done|]. etransitivity; [apply H1|]. by apply (calm_use i).
Qed.

Lemma calm_create_parts e c cb l st : calm st.1 (fold_left (create_part e c cb) l st).1.
Proof. revert st. induction l as [|i l IH]; intros st; [done|]. simpl. etransitivity; [apply calm_create_part|apply IH]. Qed.

Lemma calm_update_parts e c cb l s : calm s (fold_left (update_part e c cb) l s).
Proof.
  revert s. induction l as [|i l IH]; intros s; [done|]. simpl. etransitivity; [|apply IH]. unfold update_part. destruct (is_client i cb); [|done].
  pose proof (calm_load e i s) as Hl. destruct (interface (load_interface e i s) i) eqn:E; [|done]. etransitivity; [apply Hl|by apply (calm_use i)].
Qed.

Lemma calm_remove_parts c l s : calm s (fold_left (remove_part c) l s).
Proof.
  revert s. induction l as [|i l IH]; intros s; [done|]. simpl. etransitivity; [|apply IH]. unfold remove_part.
  destruct (interface s i) eqn:E; [|done]. by apply (calm_use i).
Qed.
End log.

(** ** The executions *)
Section lifecycle.
Context {Passed : Type} (e : Libraries).
Notation State := (LocationAPIData Passed).
Implicit Types (s : State) (pend : list (iface * client)) (lost : gset client).

Definition present s : list iface := filter (λ i, interface s i = true) [IGnss; IBatching; IGeofence].

(** [pend]: the adapters that were asked to remove a client and have not answered.
    [lost]: the objects that were destroyed without a callback.  A client is destroyed or
    updated while it is one, and answers come once; there is room for every client. *)
Inductive running : State → list (iface * client) → gset client → Prop :=
  | run_init : running gData [] ∅
  | run_create s pend lost c cb : running s pend lost → c ∉ objects s → Z.of_nat (size (clientData s)) < 2 ^ 32 - 1 →
      running (createInstance e c cb s).2 pend lost
  | run_update s pend lost c cb : running s pend lost → is_Some (clientData s !! c) → running (updateCallbacks e c cb s) pend lost
  | run_destroy s pend lost c cb : running s pend lost → is_Some (clientData s !! c) →
      running (destroy e c cb s) (pend ++ ((λ i, (i, c)) <$> present s)) (if cb is Some _ then lost else {[c]} ∪ lost)
  | run_removed s pend1 pend2 lost i c : running s (pend1 ++ (i, c) :: pend2) lost →
      running (onRemoveClientCompleteCb i c s) (pend1 ++ pend2) lost
  | run_other s pend lost m : running s pend lost → running (run_method e m s) pend lost.

(** The mask of a set of interfaces. *)
Definition mask_of (p : iface → bool) : Z :=
  Z.lor (Z.lor (if p IGnss then 1 else 0) (if p IBatching then 2 else 0)) (if p IGeofence then 4 else 0).
Definition waits pend (c : client) (i : iface) : bool := bool_decide ((i, c) ∈ pend).

Record inv s pend lost : Prop := {
  inv_objects : objects s = dom (clientData s) ∪ dom (destroyClientData s) ∪ lost;
  inv_apart1 : dom (clientData s) ## dom (destroyClientData s);
  inv_apart2 : dom (clientData s) ## lost;
  inv_apart3 : dom (destroyClientData s) ## lost;
  inv_waiting : ∀ c mask cb, destroyClientData s !! c = Some (mask, cb) → cb ≠ None ∧ mask = mask_of (waits pend c) ∧ mask ≠ 0;
  inv_nodup : NoDup pend;
  inv_pend : ∀ i c, (i, c) ∈ pend → c ∈ dom (destroyClientData s) ∪ lost;
  inv_count : gOSFrameworkRefCount s = Z.of_nat (size (clientData s)) ∧ Z.of_nat (size (clientData s)) < 2 ^ 32;
  inv_framework : framework_state (events s) = Some (glue e && bool_decide (clientData s ≠ ∅));
  inv_iface : iface_ok s;
  inv_silent : Forall (λ v, is_destroy_complete v = false) (events s)
}.

Lemma inv_calm s s' pend lost : inv s pend lost → calm s s' → inv s' pend lost.
Proof.
  intros H C. split; rewrite ?(calm_clients _ _ C), ?(calm_destroyed _ _ C), ?(calm_objects _ _ C), ?(calm_count _ _ C), ?(calm_framework _ _ C); try apply H.
  - apply (calm_iface _ _ C), H.
  - apply (calm_silent _ _ C), H.
Qed.

Lemma size_nonempty (m : gmap client LocationCallbacks) : m ≠ ∅ ↔ 0 < Z.of_nat (size m).
Proof. rewrite <- map_size_non_empty_iff. lia. Qed.

(** The framework after the first client, or before the last one is gone. *)
Lemma inv_framework_create s pend lost c cb : inv s pend lost → c ∉ objects s → Z.of_nat (size (clientData s)) < 2 ^ 32 - 1 →
  let s1 := add_ref 1 (new_object c s) in
  let s2 := if gOSFrameworkRefCount s1 =? 1 then createOSFrameworkInstance e s1 else s1 in
  inv (set_clientData (<[c := cb]> (clientData s)) s2) pend lost.
Proof.
  intros H Hc Hsz s1 s2. pose proof (inv_objects _ _ _ H) as Ho. rewrite Ho in Hc.
  assert (Hcd : clientData s !! c = None) by (apply not_elem_of_dom; set_solver).
  destruct (inv_count _ _ _ H) as [Hn Hlt].
  assert (E1 : gOSFrameworkRefCount s1 = Z.of_nat (size (clientData s)) + 1) by (simpl; rewrite Hn; apply Z.mod_small; lia).
  assert (Hs2 : clientData s2 = clientData s ∧ destroyClientData s2 = destroyClientData s ∧ objects s2 = {[c]} ∪ objects s ∧
    gOSFrameworkRefCount s2 = gOSFrameworkRefCount s1 ∧ framework_state (events s2) = Some (glue e) ∧ iface_ok s2 ∧
    Forall (λ v, is_destroy_complete v = false) (events s2)).
  { pose proof (inv_framework _ _ _ H) as Hf. pose proof (inv_iface _ _ _ H) as Hi. unfold s2. rewrite E1. destruct (Z.eqb_spec (Z.of_nat (size (clientData s)) + 1) 1) as [E|E].
    - rewrite bool_decide_false in Hf by (intros Hne%size_nonempty; lia). rewrite andb_false_r in Hf.
      unfold createOSFrameworkInstance. destruct (glue e); split_and!; try done; try apply H.
      + simpl. by rewrite framework_snoc, Hf.
      + intros i. cbn [emit events interface]. rewrite iface_snoc. change (events s1) with (events s). rewrite (Hi i). done.
      + simpl. apply Forall_app. split; [apply H|by repeat constructor].
    - rewrite bool_decide_true in Hf by (apply size_nonempty; lia). rewrite andb_true_r in Hf. split_and!; try done. apply H. }
  destruct Hs2 as (A1 & A2 & A3 & A4 & A5 & A6 & A7). split; simpl; rewrite ?A2, ?A3, ?A4, ?dom_insert_L; try apply H; try done.
  - rewrite Ho. set_solver.
  - pose proof (inv_apart1 _ _ _ H). set_solver.
  - pose proof (inv_apart2 _ _ _ H). set_solver.
  - rewrite E1, map_size_insert_None by done. lia.
  - rewrite A5, bool_decide_true by apply insert_non_empty. by rewrite andb_true_r.
Qed.

Lemma inv_create s pend lost c cb : inv s pend lost → c ∉ objects s → Z.of_nat (size (clientData s)) < 2 ^ 32 - 1 →
  inv (createInstance e c cb s).2 pend lost.
Proof.
  intros H Hc Hsz. unfold createInstance. destruct (mandatory cb); [|done]. cbv zeta.
  pose proof (inv_framework_create s pend lost c cb H Hc Hsz) as H2. cbv zeta in H2.
  set (s2 := if gOSFrameworkRefCount (add_ref 1 (new_object c s)) =? 1 then _ else _) in *.
  pose proof (calm_create_parts e c cb [IGnss; IBatching; IGeofence] (s2, false)) as C.
  destruct (fold_left _ _ (s2, false)) as [s3 r]. simpl in C |- *.
  eapply inv_calm; [apply H2|]. rewrite (calm_clients _ _ C).
  assert (E : clientData s2 = clientData s) by (unfold s2, createOSFrameworkInstance; destruct (_ =? 1), (glue e); done). rewrite E.
  split; try apply C; done.
Qed.

Lemma client_inv_update s pend lost c cb : inv s pend lost → is_Some (clientData s !! c) → inv (updateCallbacks e c cb s) pend lost.
Proof.
  intros H Hc. unfold updateCallbacks. destruct (mandatory cb); [|done]. cbv zeta.
  pose proof (calm_update_parts e c cb [IGnss; IBatching; IGeofence] s) as C. set (s1 := fold_left _ _ s) in *.
  pose proof (inv_calm _ _ _ _ H C) as H1. rewrite <- (calm_clients _ _ C) in Hc.
  assert (Hd : dom (<[c := cb]> (clientData s1)) = dom (clientData s1)) by (rewrite dom_insert_L; apply elem_of_dom in Hc; set_solver).
  split; simpl; rewrite ?Hd; try apply H1.
  - rewrite map_size_insert_Some by done. apply H1.
  - rewrite (inv_framework _ _ _ H1). do 2 f_equal. apply bool_decide_ext. split; intros _; [apply insert_non_empty|].
    intros E. rewrite E in Hc. by apply lookup_empty_is_Some in Hc.
Qed.

(** The framework after the last client, or while there are others. *)
Lemma framework_depart s s2 pend lost c D' : inv s pend lost → is_Some (clientData s !! c) → calm (set_destroyClientData D' s) s2 →
  let s3 := set_clientData (delete c (clientData s2)) s2 in
  let s4 := if gOSFrameworkRefCount s3 =? 1 then destroyOSFrameworkInstance e s3 else s3 in
  clientData s4 = delete c (clientData s) ∧ destroyClientData s4 = D' ∧ objects s4 = objects s ∧
  gOSFrameworkRefCount s4 = Z.of_nat (size (delete c (clientData s))) + 1 ∧
  framework_state (events s4) = Some (glue e && bool_decide (delete c (clientData s) ≠ ∅)) ∧ iface_ok s4 ∧
  Forall (λ v, is_destroy_complete v = false) (events s4).
Proof.
  intros H Hc C s3. destruct (inv_count _ _ _ H) as [Hn Hlt].
  pose proof (calm_clients _ _ C) as Ec. pose proof (calm_destroyed _ _ C) as Ed. pose proof (calm_objects _ _ C) as Eo.
  pose proof (calm_count _ _ C) as En. pose proof (calm_framework _ _ C) as Ef. simpl in Ec, Ed, Eo, En, Ef. rewrite Hn in En.
  assert (Hsz : Z.of_nat (size (clientData s)) = Z.of_nat (size (delete c (clientData s))) + 1).
  { destruct Hc as [x Hx]. rewrite <- (insert_delete_id (clientData s) c x) at 1 by done. rewrite map_size_insert_None by apply lookup_delete_eq. lia. }
  pose proof (inv_framework _ _ _ H) as Hf. rewrite bool_decide_true, andb_true_r in Hf by (apply size_nonempty; lia).
  assert (Hok : iface_ok s2) by (apply (calm_iface _ _ C), H).
  assert (Hsil : Forall (λ v, is_destroy_complete v = false) (events s2)) by (apply (calm_silent _ _ C), H).
  cbv zeta. change (gOSFrameworkRefCount s3) with (gOSFrameworkRefCount s2). rewrite En, <- Hsz.
  destruct (Z.eqb_spec (Z.of_nat (size (clientData s))) 1) as [E|E].
  - rewrite bool_decide_false by (intros Hne%size_nonempty; lia). rewrite andb_false_r. unfold destroyOSFrameworkInstance.
    destruct (glue e); simpl; rewrite ?Ec; split_and!; try done; try congruence.
    + rewrite framework_snoc, Ef, Hf. done.
    + intros i. cbn [emit events interface]. rewrite iface_snoc. change (events s3) with (events s2). by rewrite (Hok i).
    + apply Forall_app. split; [done|by repeat constructor].
  - rewrite bool_decide_true by (apply size_nonempty; lia). rewrite andb_true_r. simpl. rewrite Ec, Ef, Hf. split_and!; try done; congruence.
Qed.

(** A client leaves the table: what waits and what is lost is [D'], [pend'] and [lost']. *)
Lemma inv_depart s s2 pend lost c D' pend' lost' : inv s pend lost → is_Some (clientData s !! c) → calm (set_destroyClientData D' s) s2 →
  dom D' ∪ lost' = {[c]} ∪ dom (destroyClientData s) ∪ lost → dom D' ## lost' →
  (∀ c' mask cb, D' !! c' = Some (mask, cb) → cb ≠ None ∧ mask = mask_of (waits pend' c') ∧ mask ≠ 0) →
  NoDup pend' → (∀ i c', (i, c') ∈ pend' → c' ∈ dom D' ∪ lost') →
  let s3 := set_clientData (delete c (clientData s2)) s2 in
  inv (add_ref (-1) (if gOSFrameworkRefCount s3 =? 1 then destroyOSFrameworkInstance e s3 else s3)) pend' lost'.
Proof.
  intros H Hc C Hu Hd Hw Hnd Hp s3. destruct (framework_depart s s2 pend lost c D' H Hc C) as (A1 & A2 & A3 & A4 & A5 & A6 & A7).
  fold s3 in A1, A2, A3, A4, A5, A6, A7. set (s4 := if gOSFrameworkRefCount s3 =? 1 then _ else _) in *.
  assert (Hcd : c ∈ dom (clientData s)) by by apply elem_of_dom.
  pose proof (inv_apart1 _ _ _ H) as Ha1. pose proof (inv_apart2 _ _ _ H) as Ha2. pose proof (inv_objects _ _ _ H) as Ho.
  assert (Hsub : ∀ x, x ∈ dom D' ∨ x ∈ lost' ↔ x = c ∨ x ∈ dom (destroyClientData s) ∨ x ∈ lost).
  { intros x. rewrite <- elem_of_union, Hu. clear. set_solver. }
  assert (Hone : ∀ x, x ∈ dom (clientData s) ∖ {[c]} → x ∉ dom D' ∧ x ∉ lost').
  { intros x [Hx Hxc]%elem_of_difference. rewrite elem_of_singleton in Hxc. specialize (Hsub x). specialize (Ha1 x Hx). specialize (Ha2 x Hx). tauto. }
  split; simpl; rewrite ?A1, ?A2, ?A3, ?A4, ?A5, ?dom_delete_L; try done.
  - rewrite Ho. apply leibniz_equiv. intros x. specialize (Hsub x). rewrite !elem_of_union, elem_of_difference, elem_of_singleton.
    destruct (decide (x = c)) as [->|]; tauto.
  - intros x Hx. by apply Hone.
  - intros x Hx. by apply Hone.
  - destruct (inv_count _ _ _ H) as [_ Hlt]. assert (size (delete c (clientData s)) ≤ size (clientData s))%nat by (apply map_subseteq_size, delete_subseteq).
    split; [|lia]. rewrite Z.mod_small by lia. lia.
Qed.

Lemma inv_delete_object s pend lost c : inv s pend ({[c]} ∪ lost) → c ∉ lost → (∀ i, (i, c) ∉ pend) → inv (delete_object c s) pend lost.
Proof.
  intros H Hc Hp. pose proof (inv_apart2 _ _ _ H) as Ha2. pose proof (inv_apart3 _ _ _ H) as Ha3. unfold delete_object.
  assert (Hcc : c ∉ dom (clientData s)) by (intros Hin; apply (Ha2 c Hin); clear; set_solver).
  assert (Hcd : c ∉ dom (destroyClientData s)) by (intros Hin; apply (Ha3 c Hin); clear; set_solver).
  split; simpl; try (by apply H).
  - rewrite (inv_objects _ _ _ H). clear -Hc Hcc Hcd. set_solver.
  - intros x Hx Hl. apply (Ha2 x Hx). clear -Hl. set_solver.
  - intros x Hx Hl. apply (Ha3 x Hx). clear -Hl. set_solver.
  - intros i c' Hin. pose proof (inv_pend _ _ _ H i c' Hin) as Hw. assert (c' ≠ c) by (intros ->; by apply (Hp i)). clear -H0 Hw. set_solver.
  - rewrite framework_snoc, (inv_framework _ _ _ H). done.
  - intros i. cbn [emit events interface]. rewrite iface_snoc. cbn [events]. by rewrite (inv_iface _ _ _ H i).
  - apply Forall_app. split; [apply H|by repeat constructor].
Qed.

Lemma inv_throw s pend lost : inv s pend lost → inv (emit EvBadFunctionCall s) pend lost.
Proof. intros H. eapply inv_calm; [done|]. by apply api_calm_emit. Qed.

Lemma present_spec s i : i ∈ present s ↔ interface s i = true.
Proof. unfold present. rewrite list_elem_of_filter. split; [by intros []|]. intros H. split; [done|]. destruct i; set_solver. Qed.

Lemma present_NoDup s : NoDup (present s).
Proof. apply NoDup_filter. by apply (bool_decide_unpack (NoDup [IGnss; IBatching; IGeofence])). Qed.

Lemma mask_of_ext p q : (∀ i, p i = q i) → mask_of p = mask_of q.
Proof. intros H. unfold mask_of. by rewrite !H. Qed.

Lemma elem_of_asked pend s i c c' : (i, c') ∈ pend ++ ((λ i, (i, c)) <$> present s) ↔ (i, c') ∈ pend ∨ c' = c ∧ interface s i = true.
Proof.
  rewrite elem_of_app, list_elem_of_fmap. split; (intros [H|H]; [by left|right]).
  - destruct H as (j & [= -> ->] & Hj%present_spec). done.
  - destruct H as [-> Hi%present_spec]. by exists i.
Qed.

(** The table of those that wait, after a destroy with this callback. *)
Definition waiting_after s (c : client) (cb : option Z) : gmap client (Z * option Z) :=
  if negb (bool_decide (cb = None)) && (interface s IGnss || interface s IBatching || interface s IGeofence)
  then <[c := (mask_of (interface s), cb)]> (destroyClientData s) else destroyClientData s.

Lemma client_not_pending s pend lost c i : inv s pend lost → c ∈ dom (clientData s) → (i, c) ∉ pend.
Proof.
  intros H Hc Hin%(inv_pend _ _ _ H). apply elem_of_union in Hin as [Hin|Hin];
    [by apply (inv_apart1 _ _ _ H c)|by apply (inv_apart2 _ _ _ H c)].
Qed.

Lemma asked_NoDup s pend lost c : inv s pend lost → c ∈ dom (clientData s) → NoDup (pend ++ ((λ i, (i, c)) <$> present s)).
Proof.
  intros H Hc. apply NoDup_app. split_and!; [apply H| |].
  - intros [i c'] Hin (j & [= -> ->] & _)%list_elem_of_fmap. by apply (client_not_pending s pend lost c j).
  - apply NoDup_fmap; [|apply present_NoDup]. by intros i j [= ->].
Qed.

Lemma waiting_after_spec s pend lost c cb c' mask cb' : inv s pend lost → c ∈ dom (clientData s) →
  waiting_after s c cb !! c' = Some (mask, cb') →
  cb' ≠ None ∧ mask = mask_of (waits (pend ++ ((λ i, (i, c)) <$> present s)) c') ∧ mask ≠ 0.
Proof.
  intros H Hc Hl. assert (Hnp : ∀ i, (i, c) ∉ pend) by (intros i; by eapply client_not_pending). unfold waiting_after in Hl.
  set (need := interface s IGnss || interface s IBatching || interface s IGeofence) in Hl.
  assert (Hold : destroyClientData s !! c' = Some (mask, cb') → cb' ≠ None ∧ mask = mask_of (waits (pend ++ ((λ i, (i, c)) <$> present s)) c') ∧ mask ≠ 0).
  { intros Ho. destruct (inv_waiting _ _ _ H c' mask cb' Ho) as (W1 & W2 & W3). split_and!; [done| |done]. rewrite W2. apply mask_of_ext. intros i.
    unfold waits. apply bool_decide_ext. rewrite elem_of_asked. split; [by left|]. intros [?|[-> _]]; [done|].
    apply elem_of_dom_2 in Ho. by destruct (inv_apart1 _ _ _ H c Hc). }
  destruct (negb (bool_decide (cb = None)) && need) eqn:En; [|by apply Hold].
  destruct (decide (c' = c)) as [->|Hne]; [|rewrite lookup_insert_ne in Hl by done; by apply Hold].
  rewrite lookup_insert_eq in Hl. injection Hl as <- <-. apply andb_true_iff in En as [En1 En2].
  split_and!; [intros ->; by rewrite bool_decide_true in En1| |].
  - apply mask_of_ext. intros i. unfold waits. destruct (interface s i) eqn:E; symmetry; [apply bool_decide_eq_true|apply bool_decide_eq_false];
      rewrite elem_of_asked; [by right|intros [Hin|[_ ?]]; [by apply (Hnp i)|congruence]].
  - unfold mask_of. unfold need in En2. by destruct (interface s IGnss), (interface s IBatching), (interface s IGeofence).
Qed.

Lemma inv_destroy s pend lost c cb : inv s pend lost → is_Some (clientData s !! c) →
  inv (destroy e c cb s) (pend ++ ((λ i, (i, c)) <$> present s)) (if cb is Some _ then lost else {[c]} ∪ lost).
Proof.
  intros H Hc. assert (Hcd : c ∈ dom (clientData s)) by by apply elem_of_dom.
  assert (Hc1 : c ∉ dom (destroyClientData s)) by (intros ?; by apply (inv_apart1 _ _ _ H c)).
  assert (Hc2 : c ∉ lost) by (intros ?; by apply (inv_apart2 _ _ _ H c)).
  assert (Ha3 : dom (destroyClientData s) ## lost) by apply H. pose proof (asked_NoDup s pend lost c H Hcd) as Hnd.
  assert (Hnp : ∀ i, (i, c) ∉ pend) by (intros i; by eapply client_not_pending).
  pose proof (inv_depart s) as D. pose proof (λ c' m cb', waiting_after_spec s pend lost c cb c' m cb' H Hcd) as Hwait.
  assert (Hasked : ∀ i c', (i, c') ∈ pend ++ ((λ i, (i, c)) <$> present s) → c' ∈ {[c]} ∪ dom (destroyClientData s) ∪ lost).
  { intros i c' [Hin%(inv_pend _ _ _ H)|[-> _]]%elem_of_asked; clear -Hin || clear; set_solver. }
  unfold destroy. pose proof Hc as [cb0 Hc0]. rewrite Hc0. cbv zeta.
  set (need := interface s IGnss || interface s IBatching || interface s IGeofence).
  set (s1 := if negb _ && need then _ else s).
  assert (E1 : s1 = set_destroyClientData (waiting_after s c cb) s).
  { unfold s1, waiting_after. fold need. destruct (negb _ && need); [done|]. by destruct s. }
  pose proof (calm_remove_parts c [IGnss; IBatching; IGeofence] s1) as C. set (s2 := fold_left (remove_part c) _ s1) in *. rewrite E1 in C.
  unfold waiting_after in *; fold need in C, Hwait.
  destruct cb as [cb|].
  - rewrite bool_decide_false in * by done. cbn [negb andb] in *. destruct need eqn:En; cbn [negb].
    + apply (D s2 pend lost c _ _ lost H Hc C); try done; rewrite dom_insert_L; clear -Hc2 Ha3 Hasked; set_solver.
    + apply inv_delete_object; [|done|].
      * apply (D s2 pend lost c _ _ ({[c]} ∪ lost) H Hc C); try done; clear -Hc1 Ha3 Hasked; set_solver.
      * intros i [?%Hnp|[_ Hi]]%elem_of_asked; [done|]. unfold need in En. by destruct i; rewrite Hi in En; rewrite ?orb_true_r in En.
  - rewrite bool_decide_true in * by done. cbn [negb andb] in *.
    assert (Hi : inv (add_ref (-1) (let s3 := set_clientData (delete c (clientData s2)) s2 in if gOSFrameworkRefCount s3 =? 1 then destroyOSFrameworkInstance e s3 else s3))
      (pend ++ ((λ i, (i, c)) <$> present s)) ({[c]} ∪ lost))
      by (apply (D s2 pend lost c _ _ ({[c]} ∪ lost) H Hc C); try done; clear -Hc1 Ha3 Hasked; set_solver).
    destruct need; cbn [negb]; [done|by apply inv_throw].
Qed.

Lemma mask_without p i : Z.land (mask_of p) (Z.lnot (adapter_bit i)) = mask_of (λ j, p j && negb (bool_decide (j = i))).
Proof. unfold mask_of. destruct i; simpl; destruct (p IGnss), (p IBatching), (p IGeofence); done. Qed.

Lemma mask_of_zero p : mask_of p = 0 → ∀ i, p i = false.
Proof. unfold mask_of. intros H i. destruct (p IGnss) eqn:E1, (p IBatching) eqn:E2, (p IGeofence) eqn:E3; try done. by destruct i. Qed.

Lemma waits_removed pend1 pend2 i c c' j : NoDup (pend1 ++ (i, c) :: pend2) →
  waits (pend1 ++ pend2) c' j = waits (pend1 ++ (i, c) :: pend2) c' j && negb (bool_decide ((j, c') = (i, c))).
Proof.
  intros Hnd. apply NoDup_app in Hnd as (_ & Hd & Hnd). apply NoDup_cons in Hnd as [Hn _]. unfold waits.
  rewrite <- bool_decide_not, <- bool_decide_and. apply bool_decide_ext. rewrite !elem_of_app, elem_of_cons. split.
  - intros [H|H]; (split; [tauto|intros E; rewrite E in H]); [|done]. apply (Hd _ H). by left.
  - intros [[?|[?|?]] ?]; tauto.
Qed.

(** The table of those that wait changes. *)
Lemma inv_set_waiting s pend lost D' pend' lost' : inv s pend lost →
  (∀ x, x ∈ dom D' ∨ x ∈ lost' ↔ x ∈ dom (destroyClientData s) ∨ x ∈ lost) → dom D' ## lost' →
  (∀ c' mask cb, D' !! c' = Some (mask, cb) → cb ≠ None ∧ mask = mask_of (waits pend' c') ∧ mask ≠ 0) →
  NoDup pend' → (∀ i c', (i, c') ∈ pend' → (i, c') ∈ pend) → inv (set_destroyClientData D' s) pend' lost'.
Proof.
  intros H Hu Hd Hw Hnd Hp. split; simpl; try (by apply H); try done.
  - rewrite (inv_objects _ _ _ H). apply leibniz_equiv. intros x. specialize (Hu x). rewrite !elem_of_union. tauto.
  - intros x Hx Hx'. destruct (proj1 (Hu x) (or_introl Hx')); [by apply (inv_apart1 _ _ _ H x)|by apply (inv_apart2 _ _ _ H x)].
  - intros x Hx Hx'. destruct (proj1 (Hu x) (or_intror Hx')); [by apply (inv_apart1 _ _ _ H x)|by apply (inv_apart2 _ _ _ H x)].
  - intros i c' Hin%Hp%(inv_pend _ _ _ H). rewrite elem_of_union in Hin |- *. by apply Hu.
Qed.

Lemma inv_removed s pend1 pend2 lost i c : inv s (pend1 ++ (i, c) :: pend2) lost →
  inv (onRemoveClientCompleteCb i c s) (pend1 ++ pend2) lost.
Proof.
  intros H. pose proof (inv_nodup _ _ _ H) as Hnd. assert (Hnd' : NoDup (pend1 ++ pend2)).
  { rewrite <- Permutation_middle in Hnd. by apply NoDup_cons in Hnd as [_ ?]. }
  assert (Hsub : ∀ j c', (j, c') ∈ pend1 ++ pend2 → (j, c') ∈ pend1 ++ (i, c) :: pend2).
  { intros j c'. rewrite !elem_of_app, elem_of_cons. tauto. }
  assert (Hold : ∀ c' mask cb, c' ≠ c → destroyClientData s !! c' = Some (mask, cb) → cb ≠ None ∧ mask = mask_of (waits (pend1 ++ pend2) c') ∧ mask ≠ 0).
  { intros c' mask cb Hne Hc'. destruct (inv_waiting _ _ _ H c' mask cb Hc') as (W1 & W2 & W3). split_and!; [done| |done].
    rewrite W2. apply mask_of_ext. intros j. rewrite (waits_removed pend1 pend2 i c) by done. rewrite (bool_decide_false (_ = _)) by congruence. by rewrite andb_true_r. }
  unfold onRemoveClientCompleteCb. destruct (destroyClientData s !! c) as [[mask cb]|] eqn:E.
  - destruct (inv_waiting _ _ _ H c mask cb E) as (W1 & -> & W3).
    assert (Em : Z.land (mask_of (waits (pend1 ++ (i, c) :: pend2) c)) (Z.lnot (adapter_bit i)) = mask_of (waits (pend1 ++ pend2) c)).
    { rewrite mask_without. apply mask_of_ext. intros j. rewrite (waits_removed pend1 pend2 i c) by done. do 2 f_equal. apply bool_decide_ext. split; congruence. }
    rewrite Em. assert (Hc : c ∈ dom (destroyClientData s)) by by eapply elem_of_dom_2.
    assert (Hl : c ∉ lost) by (intros ?; by apply (inv_apart3 _ _ _ H c)). destruct (Z.eqb_spec (mask_of (waits (pend1 ++ pend2) c)) 0) as [E0|E0].
    + unfold destroy_complete. destruct cb as [cb|]; [|done]. apply inv_delete_object; [|done|].
      * apply (inv_set_waiting s _ lost _ _ _ H); try done.
        -- intros x. rewrite dom_delete_L. clear -Hc. destruct (decide (x = c)) as [->|]; set_solver.
        -- intros x Hx. rewrite dom_delete_L in Hx. pose proof (inv_apart3 _ _ _ H x). clear -Hx H0. set_solver.
        -- intros c' m cb' [Hne Hc']%lookup_delete_Some. by apply Hold.
      * intros j Hin. pose proof (mask_of_zero _ E0 j) as Hw. unfold waits in Hw. by apply bool_decide_eq_false in Hw.
    + assert (Hdom : dom (<[c := (mask_of (waits (pend1 ++ pend2) c), cb)]> (destroyClientData s)) = dom (destroyClientData s)) by (rewrite dom_insert_L; clear -Hc; set_solver).
      apply (inv_set_waiting s _ lost _ _ _ H); try done; rewrite ?Hdom; try done; [apply H|].
      intros c' m cb' Hc'. destruct (decide (c' = c)) as [->|Hne]; [|rewrite lookup_insert_ne in Hc' by done; by apply Hold].
      rewrite lookup_insert_eq in Hc'. by injection Hc' as <- <-.
  - assert (E1 : set_destroyClientData (destroyClientData s) s = s) by by destruct s. rewrite <- E1.
    apply (inv_set_waiting s _ lost _ _ _ H); try done; [apply H|]. intros c' m cb' Hc'. apply (Hold c' m cb'); [|done]. congruence.
Qed.

Lemma running_inv s pend lost : running s pend lost → inv s pend lost.
Proof.
  induction 1.
  - split; simpl; try done; try (by apply NoDup_nil); try set_solver.
    + by rewrite bool_decide_false, andb_false_r by naive_solver.
  - by apply inv_create.
  - by apply client_inv_update.
  - by apply inv_destroy.
  - by apply inv_removed.
  - eapply inv_calm; [done|apply calm_method].
Qed.

(** What the adapters that were asked answer, one after the other. *)
Definition answer_all (l : list (iface * client)) s : State := fold_left (λ s p, onRemoveClientCompleteCb p.1 p.2 s) l s.

Lemma removed_clients i c s : clientData (onRemoveClientCompleteCb i c s) = clientData s.
Proof. unfold onRemoveClientCompleteCb, destroy_complete. destruct (destroyClientData s !! c) as [[mask [cb|]]|]; [| |done]; by destruct (_ =? 0). Qed.

Lemma running_answers s pend lost order : running s pend lost → order ≡ₚ pend →
  running (answer_all order s) [] lost ∧ clientData (answer_all order s) = clientData s.
Proof.
  revert s pend. induction order as [|[i c] order IH]; intros s pend H Hp.
  - apply Permutation_nil_l in Hp. by subst pend.
  - assert (Hin : (i, c) ∈ pend) by (rewrite <- Hp; by left). apply list_elem_of_split in Hin as (pend1 & pend2 & ->).
    destruct (IH _ _ (run_removed s pend1 pend2 lost i c H)) as [H1 H2].
    + apply (Permutation_cons_inv (a := (i, c))). by rewrite Hp, Permutation_middle.
    + split; [done|]. unfold answer_all in *. simpl. by rewrite H2, removed_clients.
Qed.
End lifecycle.

(** C13: the life of a client of the location API, in every execution: an object is a client,
    or waits for exactly the adapters that were asked to remove it and have not answered,
    or was destroyed without a callback; and once these adapters have answered, in any
    order, every object that waited is deleted, and nothing else. *)
Theorem location_api_lifecycle {Passed} (e : Libraries) (s : LocationAPIData Passed) pend lost : running e s pend lost →
  objects s = dom (clientData s) ∪ dom (destroyClientData s) ∪ lost ∧
  dom (clientData s) ## dom (destroyClientData s) ∧ dom (clientData s) ## lost ∧ dom (destroyClientData s) ## lost ∧
  (∀ c mask cb, destroyClientData s !! c = Some (mask, cb) → mask = mask_of (waits pend c) ∧ mask ≠ 0) ∧
  (∀ order, order ≡ₚ pend → let s' := answer_all order s in
     clientData s' = clientData s ∧ destroyClientData s' = ∅ ∧ objects s' = dom (clientData s) ∪ lost).
Proof.
  intros Hr. pose proof (running_inv e s pend lost Hr) as H. split_and!; try (by apply H).
  - intros order Ho. destruct (running_answers e s pend lost order Hr Ho) as [Hr' Hc]. cbv zeta.
    pose proof (running_inv _ _ _ _ Hr') as H'. assert (Hd : destroyClientData (answer_all order s) = ∅).
    { apply map_empty. intros c. apply eq_None_not_Some. intros [[mask cb] Hm]. by apply (inv_waiting _ _ _ _ H') in Hm as (_ & -> & Hne). }
    split_and!; [done|done|]. rewrite (inv_objects _ _ _ _ H'), Hd, Hc, dom_empty_L. clear. set_solver.
Qed.

(** In every execution, the counter of the framework is the number of the clients, the
    framework is created with the first and destroyed with the last of them, each in its
    turn, when its library loads; and every interface is initialised once, before anything
    is asked of it. *)
Theorem framework_and_interfaces {Passed} (e : Libraries) (s : LocationAPIData Passed) pend lost : running e s pend lost →
  gOSFrameworkRefCount s = Z.of_nat (size (clientData s)) ∧
  framework_state (events s) = Some (glue e && bool_decide (clientData s ≠ ∅)) ∧
  ∀ i, iface_state i (events s) = Some (interface s i).
Proof. intros H%running_inv. split_and!; apply H. Qed.

(** A client that tracks and one that also has batching; every library is there. *)
Definition tracking_callbacks : LocationCallbacks :=
  {| capabilitiesCb := true; responseCb := true; collectiveResponseCb := true; trackingCb := true; batchingCb := false; geofenceBreachCb := false;
     geofenceStatusCb := false; gnssLocationInfoCb := false; gnssNiCb := false; gnssSvCb := false; gnssNmeaCb := false; gnssDataCb := false;
     gnssMeasurementsCb := false; batchingStatusCb := false; locationSystemInfoCb := false; engineLocationsInfoCb := false |}.
Definition batching_callbacks : LocationCallbacks :=
  {| capabilitiesCb := true; responseCb := true; collectiveResponseCb := true; trackingCb := true; batchingCb := true; geofenceBreachCb := false;
     geofenceStatusCb := false; gnssLocationInfoCb := false; gnssNiCb := false; gnssSvCb := false; gnssNmeaCb := false; gnssDataCb := false;
     gnssMeasurementsCb := false; batchingStatusCb := false; locationSystemInfoCb := false; engineLocationsInfoCb := false |}.
Definition all_libraries : Libraries := {| loads := λ _, true; glue := true |}.
Definition no_libraries : Libraries := {| loads := λ _, false; glue := false |}.

(** Two clients; the first is destroyed and the GNSS adapter has answered. *)
Definition two_clients : LocationAPIData unit :=
  let s := (createInstance all_libraries 1%positive tracking_callbacks gData).2 in
  (createInstance all_libraries 2%positive batching_callbacks s).2.
Definition one_destroyed : LocationAPIData unit :=
  onRemoveClientCompleteCb IGnss 1%positive (destroy all_libraries 1%positive (Some 7) two_clients).

Lemma two_clients_run : running all_libraries two_clients [] ∅.
Proof.
  apply (run_create _ (createInstance all_libraries 1%positive tracking_callbacks gData).2).
  - apply run_create; [apply run_init|set_solver|by vm_compute].
  - apply (bool_decide_unpack (2%positive ∉ objects (createInstance all_libraries 1%positive tracking_callbacks gData).2)). by vm_compute.
  - by vm_compute.
Qed.

Lemma one_destroyed_run : running all_libraries one_destroyed [(IBatching, 1%positive)] ∅.
Proof.
  apply (run_removed all_libraries _ [] [(IBatching, 1%positive)]).
  apply (run_destroy all_libraries two_clients [] ∅ 1%positive (Some 7)); [apply two_clients_run|exists tracking_callbacks; by vm_compute].
Qed.

Lemma location_api_lifecycle_witness :
  let s' := answer_all [(IBatching, 1%positive)] one_destroyed in
  clientData s' = clientData one_destroyed ∧ destroyClientData s' = ∅ ∧ objects s' = dom (clientData one_destroyed) ∪ ∅.
Proof. destruct (location_api_lifecycle all_libraries _ _ _ one_destroyed_run) as (_ & _ & _ & _ & _ & H). by apply H. Defined.

Lemma framework_and_interfaces_witness :
  gOSFrameworkRefCount one_destroyed = 1 ∧ framework_state (events one_destroyed) = Some true ∧ iface_state IGeofence (events one_destroyed) = Some false.
Proof. destruct (framework_and_interfaces all_libraries _ _ _ one_destroyed_run) as (H1 & H2 & H3). split_and!; [by rewrite H1|by rewrite H2|by rewrite H3]. Defined.

(** No callback that is given to destroy is ever called, in any execution: the test for
    it is reversed.  An object that is destroyed without a callback stays; with no library
    at all its destruction throws; and a client that is destroyed twice takes the framework
    away from the others, after which the counter wraps. *)
Theorem destroy_never_completes :
  (∀ Passed e (s : LocationAPIData Passed) pend lost callback, running e s pend lost → EvDestroyComplete callback ∉ events s) ∧
  (let s := destroy all_libraries 1%positive None two_clients in
   objects (answer_all [(IGnss, 1%positive); (IBatching, 1%positive)] s) = {[1%positive; 2%positive]}) ∧
  (let s := destroy no_libraries 1%positive None (createInstance no_libraries 1%positive tracking_callbacks gData).2 in
   (s : LocationAPIData unit).(events) = [EvBadFunctionCall] ∧ objects s = {[1%positive]}) ∧
  (let s := destroy all_libraries 1%positive None (destroy all_libraries 1%positive None two_clients) in
   last (events s) = Some EvDestroyOSFramework ∧ dom (clientData s) = {[2%positive]} ∧
   gOSFrameworkRefCount (destroy all_libraries 2%positive None s) = 2 ^ 32 - 1).
Proof.
  split_and!; try by vm_compute.
  intros Passed e s pend lost callback H%running_inv Hin. pose proof (inv_silent _ _ _ _ H) as Hs. rewrite Forall_forall in Hs. by apply Hs in Hin.
Qed.
