(* ===== verification/LocIpc.v ===== *)
(** * gps/utils/LocIpc.cpp, LocIpc.h : messages over sockets.

    A message that fits into one datagram is sent as it is; a longer one as a datagram that
    holds a head and the length in decimal, and then in pieces.  The receiver tells the two
    apart, and the request to stop, by the first characters.

    The operating system is seen by what it answers: a call of sendto has an outcome, the
    bytes that it takes or a failure; the receiver has the sequence of what its calls of
    recvfrom will find, datagrams or failures, and waits at its end.  A buffer is the list of
    its bytes. *)
From Stdlib Require Import Ascii.
From stdpp Require Import pretty.
From S2P Require Import Prelude CString.
Local Open Scope Z_scope.

Abbreviation bytes := (list ascii) (only parsing).

(** ** The C library *)

(** strncmp is 0: the first [n] characters, up to a terminator, agree. *)
Definition strncmp0 (a b : bytes) (n : nat) : bool := bool_decide (take n (cstr a ++ [NUL]) = take n (cstr b ++ [NUL])).

Definition SIZE_MAX : Z := 2 ^ 64 - 1.

(** sscanf with "%zu" into a variable that holds 0. *)
Definition sscanf_zu (s : bytes) : Z :=
  let '(neg, r) := sign (skip_spaces s) in
  match r with
  | c :: _ => match digit_val 10 c with
              | Some _ => let v := Z.min SIZE_MAX (digits 10 0 r) in if neg then (- v) mod 2 ^ 64 else v
              | None => 0
              end
  | [] => 0
  end.

(** As many bytes as there is room for. *)
Definition fit (n : Z) (d : bytes) : bytes := if Z.of_nat (length d) <=? n then d else take (Z.to_nat n) d.

Definition MSG_ABORT : bytes := lit "LocIpc::Sock::ABORT".
Definition LOC_IPC_HEAD : bytes := lit "$MSGLEN$".

(** ** Sock *)
Section sock.
(** [resizes n]: std::string::resize(n) succeeds: [n] is at most max_size() and the memory is there.
    Otherwise it throws. *)
Context (mMaxTxSize : nat) (resizes : Z → bool).

(** What the socket takes of the bytes of a call of ::sendto, or -1; [sent] is what went out. *)
Definition os_sendto (r : option nat) (d : bytes) (sent : list bytes) : Z * list bytes :=
  match r with
  | Some k => let d := take k d in (Z.of_nat (length d), sent ++ [d])
  | None => (-1, sent)
  end.

(** The outcome of the next call; when none is given it takes everything. *)
Definition next_outcome (rs : list (option nat)) (d : bytes) : option nat * list (option nat) :=
  match rs with r :: rs => (r, rs) | [] => (Some (length d), []) end.

(** The pieces of a long message; [None]: out of fuel. *)
Fixpoint send_loop (fuel : nat) (buf : bytes) (offset : nat) (rtv : Z) (rs : list (option nat)) (sent : list bytes) : option (Z * list bytes) :=
  if (Z.of_nat offset <? Z.of_nat (length buf)) && (0 <? rtv) then
    match fuel with
    | O => None
    | S fuel =>
      let d := take mMaxTxSize (drop offset buf) in
      let '(r, rs) := next_outcome rs d in
      let '(rtv, sent) := os_sendto r d sent in
      send_loop fuel buf (offset + Z.to_nat rtv) rtv rs sent
    end
  else Some (rtv, sent).

Definition head_of (len : nat) : bytes := LOC_IPC_HEAD ++ print_int (Z.of_nat len).

Definition sendto (buf : bytes) (rs : list (option nat)) (sent : list bytes) : option (Z * list bytes) :=
  if decide (length buf ≤ mMaxTxSize)%nat then
    let '(r, _) := next_outcome rs buf in Some (os_sendto r buf sent)
  else
    let head := head_of (length buf) in
    let '(r, rs) := next_outcome rs head in
    let '(rtv, sent) := os_sendto r head sent in
    if 0 <? rtv then
      '(rtv, sent) ← send_loop (length buf) buf 0 rtv rs sent;
      Some (if 0 <? rtv then Z.of_nat (length head) + Z.of_nat (length buf) else -1, sent)
    else Some (rtv, sent).

(** Sock::send, with SOCK_OP_AND_LOG: [valid] is isValid(). *)
Definition Sock_send (valid : bool) (buf : bytes) (rs : list (option nat)) (sent : list bytes) : option (Z * list bytes) :=
  if bool_decide (buf = []) then Some (-1, sent)
  else if valid then sendto buf rs sent else Some (-1, sent).

(** sizeof(MSG_ABORT) counts the terminator. *)
Definition sendAbort (valid : bool) (rs : list (option nat)) (sent : list bytes) : option (Z * list bytes) :=
  Sock_send valid (MSG_ABORT ++ [NUL]) rs sent.

(** LocIpcSender::sendData *)
Definition sendData (valid : bool) (data : bytes) (rs : list (option nat)) (sent : list bytes) : option (bool * list bytes) :=
  if valid then '(n, sent) ← Sock_send valid data rs sent; Some (0 <? n, sent) else Some (false, sent).

(** What the calls of ::recvfrom will find. *)
Abbreviation net := (list (option bytes)).

(** What recvfrom returns, what onReceive is called with, and what is left; or it waits, or
    the string cannot be resized, which throws. *)
Inductive recv_outcome :=
  | RDone (n : Z) (received : option (bytes * Z)) (rest : net)
  | RWaits
  | RThrows (rest : net).

(** The pieces of a long message; [acc] are the bytes of msg that were written. *)
Fixpoint recv_long (msgLen : Z) (acc : bytes) (nBytes : Z) (nt : net) : option (Z * bytes * net) :=
  if (Z.of_nat (length acc) <? msgLen) && (0 <? nBytes) then
    match nt with
    | [] => None
    | None :: nt => Some (-1, acc, nt)
    | Some d :: nt =>
      let d := fit (msgLen - Z.of_nat (length acc)) d in
      recv_long msgLen (acc ++ d) (Z.of_nat (length d)) nt
    end
  else Some (nBytes, acc, nt).

Definition recvfrom (nt : net) : recv_outcome :=
  match nt with
  | [] => RWaits
  | None :: nt => RDone (-1) None nt
  | Some d :: nt =>
    let d := take mMaxTxSize d in
    let nBytes := Z.of_nat (length d) in
    let msg := d ++ replicate (mMaxTxSize - length d) NUL in
    if 0 <? nBytes then
      if strncmp0 msg MSG_ABORT (S (length MSG_ABORT)) then RDone 0 None nt
      else if negb (strncmp0 msg LOC_IPC_HEAD (length LOC_IPC_HEAD)) then RDone nBytes (Some (d, nBytes mod 2 ^ 32)) nt
      else
        let msgLen := sscanf_zu (cstr (drop (length LOC_IPC_HEAD) msg)) in
        if negb (resizes msgLen) then RThrows nt
        else match recv_long msgLen [] nBytes nt with
             | None => RWaits
             | Some (nBytes, msg, nt) =>
               if 0 <? nBytes then RDone msgLen (Some (msg, msgLen mod 2 ^ 32)) nt else RDone nBytes None nt
             end
    else RDone nBytes None nt
  end.

Definition Sock_recv (valid : bool) (nt : net) : recv_outcome :=
  if bool_decide (mMaxTxSize = 0%nat) then RDone (-1) None nt
  else if valid then recvfrom nt else RDone (-1) None nt.

(** ** LocIpc *)

(** How listening ends: it waits for more, it returns, or the exception ends the thread. *)
Inductive listening := Waiting | Returned | Thrown | OutOfFuel.

(** while (ipcRecver.recvData()); with what was received. *)
Fixpoint listen (fuel : nat) (valid : bool) (nt : net) : list (bytes * Z) * listening :=
  match fuel with
  | O => ([], OutOfFuel)
  | S fuel =>
    if valid then
      match Sock_recv valid nt with
      | RWaits => ([], Waiting)
      | RThrows _ => ([], Thrown)
      | RDone n received nt =>
        let out := match received with Some m => [m] | None => [] end in
        if 0 <? n then let '(l, e) := listen fuel valid nt in (out ++ l, e) else (out, Returned)
      end
    else ([], Returned)
  end.

(** Is the receiver usable, and if so what comes in. *)
Definition startBlockingListening (valid : bool) (nt : net) : bool * (list (bytes * Z) * listening) :=
  if valid then (true, listen (S (length nt)) valid nt) else (false, ([], Returned)).

(** LocIpcRecver::abort, on the receiver's own socket. *)
Definition stopBlockingListening (valid : bool) (rs : list (option nat)) (sent : list bytes) : option (list bytes) :=
  if valid then '(_, sent) ← sendAbort valid rs sent; Some sent else Some sent.
End sock.

(** The size of the sockets that LocIpc makes. *)
Definition default_maxTxSize : nat := Z.to_nat 8192.

(** * Correctness *)

(** ** Lengths in decimal *)

Lemma pretty_go_length k x s : (x < 10 ^ N.of_nat k)%N → (length (lit (pretty_N_go x s)) ≤ k + length (lit s))%nat.
Proof.
  revert x s. induction k as [|k IH]; intros x s Hx.
  - replace x with 0%N by (change (10 ^ N.of_nat 0)%N with 1%N in Hx; lia). rewrite pretty_N_go_0. lia.
  - destruct (decide (0 < x)%N) as [Hp|Hp]; [|replace x with 0%N by lia; rewrite pretty_N_go_0; lia].
    rewrite pretty_N_go_step by done. etransitivity; [apply IH|].
    + apply N.Div0.div_lt_upper_bound. rewrite Nat2N.inj_succ, N.pow_succ_r' in Hx. lia.
    + change (lit (String ?c s)) with (c :: lit s). simpl. lia.
Qed.

Lemma print_length n : Z.of_nat n < 2 ^ 32 → (length (print_int (Z.of_nat n)) ≤ 10)%nat.
Proof.
  intros Hn. destruct n as [|n]; [vm_compute; lia|]. unfold print_int.
  change (pretty (Z.of_nat (S n))) with (pretty_N_go (N.pos (Pos.of_succ_nat n)) ""). etransitivity; [apply (pretty_go_length 10)|simpl; lia].
  change (10 ^ N.of_nat 10)%N with 10000000000%N. lia.
Qed.

Lemma cstr_no_nul s r : no NUL s → cstr (s ++ r) = s ++ cstr r.
Proof. induction 1 as [|c s Hc _ IH]; [done|]. simpl. rewrite decide_False by done. by rewrite IH. Qed.

Lemma cstr_nuls n : cstr (replicate n NUL) = [].
Proof. by destruct n. Qed.

Lemma print_no_nul z : no NUL (print_int z).
Proof. destruct (print_chars z) as [_ H]. eapply Forall_impl; [done|]. intros c Hc. by apply int_char_plain in Hc as (_ & ? & _). Qed.

Lemma sscanf_print n : (0 < n)%nat → Z.of_nat n ≤ SIZE_MAX → sscanf_zu (print_int (Z.of_nat n)) = Z.of_nat n.
Proof.
  intros H0 Hn. destruct n as [|n]; [lia|]. destruct (print_pos (Pos.of_succ_nat n)) as (c & s & E & Hf & Hd).
  change (Z.of_nat (S n)) with (Z.pos (Pos.of_succ_nat n)) in *. rewrite E. apply Forall_cons in Hf as [(v & Hv & Hs & Hm & Hp) _].
  unfold sscanf_zu. replace (skip_spaces (c :: s)) with (c :: s) by (simpl; by rewrite Hs).
  replace (sign (c :: s)) with (false, c :: s) by (simpl; by rewrite !decide_False). cbv beta iota. rewrite Hv, Hd. by apply Z.min_r.
Qed.

Section sock_spec.
Context (mMaxTxSize : nat) (resizes : Z → bool).
Hypothesis Hmax : (20 ≤ mMaxTxSize)%nat.

(** ** What goes over the wire *)

Fixpoint chunks (fuel : nat) (buf : bytes) : list bytes :=
  match fuel with
  | O => []
  | S fuel => if bool_decide (buf = []) then [] else take mMaxTxSize buf :: chunks fuel (drop mMaxTxSize buf)
  end.

Definition wire (m : bytes) : list bytes :=
  if decide (length m ≤ mMaxTxSize)%nat then [m] else head_of (length m) :: chunks (length m) m.

(** A message that the receiver takes for a message: not empty, of a length that fits into
    uint32_t and into a string, and, when it is short, not like a head or the request to stop. *)
Definition padded (m : bytes) : bytes := m ++ replicate (mMaxTxSize - length m) NUL.
Definition benign (m : bytes) : Prop :=
  m ≠ [] ∧ Z.of_nat (length m) < 2 ^ 32 ∧ resizes (Z.of_nat (length m)) = true ∧
  ((length m ≤ mMaxTxSize)%nat →
   strncmp0 (padded m) MSG_ABORT (S (length MSG_ABORT)) = false ∧ strncmp0 (padded m) LOC_IPC_HEAD (length LOC_IPC_HEAD) = false).

Lemma chunks_concat fuel buf : (length buf ≤ fuel)%nat → concat (chunks fuel buf) = buf.
Proof.
  revert buf. induction fuel as [|fuel IH]; intros buf Hl; simpl; [by destruct buf; [|simpl in Hl; lia]|].
  case_bool_decide as E; [by subst|]. simpl. rewrite IH; [apply take_drop|].
  rewrite length_drop. destruct buf; [done|]. simpl in *. lia.
Qed.

Lemma chunks_sizes fuel buf : Forall (λ d, d ≠ [] ∧ (length d ≤ mMaxTxSize)%nat) (chunks fuel buf).
Proof.
  revert buf. induction fuel as [|fuel IH]; intros buf; simpl; [constructor|]. case_bool_decide as E; [constructor|]. constructor; [|apply IH].
  split; [|rewrite length_take; lia]. destruct buf; [done|]. by destruct mMaxTxSize; [lia|].
Qed.

Lemma head_length n : Z.of_nat n < 2 ^ 32 → (length (head_of n) ≤ mMaxTxSize)%nat.
Proof. intros Hn%print_length. unfold head_of. rewrite length_app. change (length LOC_IPC_HEAD) with 8%nat. lia. Qed.

Lemma wire_sizes m : benign m → Forall (λ d, d ≠ [] ∧ (length d ≤ mMaxTxSize)%nat) (wire m).
Proof.
  intros (Hne & Hl & _). unfold wire. case_decide; [by repeat constructor|]. constructor; [|apply chunks_sizes]. split; [done|by apply head_length].
Qed.

(** ** Sending *)

Lemma send_loop_all fuel buf offset rtv sent : 0 < rtv → (length buf - offset ≤ fuel)%nat → (offset ≤ length buf)%nat →
  ∃ rtv', send_loop mMaxTxSize fuel buf offset rtv [] sent = Some (rtv', sent ++ chunks fuel (drop offset buf)) ∧ 0 < rtv'.
Proof.
  revert offset rtv sent. induction fuel as [|fuel IH]; intros offset rtv sent Hr Hf Ho; cbn [send_loop chunks].
  - rewrite (proj2 (Z.ltb_ge _ _)) by lia. exists rtv. by rewrite app_nil_r.
  - rewrite (proj2 (Z.ltb_lt 0 rtv)), andb_true_r by done. destruct (Z.ltb_spec (Z.of_nat offset) (Z.of_nat (length buf))) as [Hlt|Hge].
    + cbn [next_outcome os_sendto]. set (d := take mMaxTxSize (drop offset buf)). rewrite (take_ge d) by lia.
      assert (Hd : (0 < length d)%nat) by (unfold d; rewrite length_take, length_drop; lia).
      rewrite Nat2Z.id. destruct (IH (offset + length d)%nat (Z.of_nat (length d)) (sent ++ [d])) as (rtv' & E & H'); [lia|lia| |].
      { unfold d. rewrite length_take, length_drop. lia. }
      exists rtv'. rewrite E. split; [|done]. rewrite bool_decide_false by (intros E0; unfold d in Hd; rewrite E0 in Hd; rewrite take_nil in Hd; simpl in Hd; lia).
      rewrite <- app_assoc. do 3 f_equal. simpl. f_equal. f_equal. unfold d. rewrite drop_drop, length_take.
      destruct (decide (mMaxTxSize ≤ length (drop offset buf))%nat) as [Hle|Hgt]; [by rewrite Nat.min_l by done|].
      rewrite length_drop in Hgt. rewrite !drop_ge; [done| |]; rewrite ?length_drop; lia.
    + exists rtv. rewrite drop_ge by lia. by rewrite bool_decide_true, app_nil_r by done.
Qed.

Lemma send_all m sent : benign m → ∃ n, Sock_send mMaxTxSize true m [] sent = Some (n, sent ++ wire m) ∧ 0 < n.
Proof.
  intros (Hne & Hl & _). unfold Sock_send. rewrite bool_decide_false by done. unfold sendto, wire.
  assert (0 < length m)%nat by (destruct m; [done|simpl; lia]). case_decide.
  - cbn [next_outcome os_sendto]. rewrite take_ge by done. eexists. split; [done|]. lia.
  - cbn [next_outcome os_sendto]. rewrite take_ge by done. assert (Hh : (8 ≤ length (head_of (length m)))%nat).
    { unfold head_of. rewrite length_app. change (length LOC_IPC_HEAD) with 8%nat. lia. }
    rewrite (proj2 (Z.ltb_lt 0 (Z.of_nat (length (head_of (length m)))))) by lia.
    destruct (send_loop_all (length m) m 0 (Z.of_nat (length (head_of (length m)))) (sent ++ [head_of (length m)])) as (rtv' & -> & Hr); [lia..|].
    rewrite drop_0, <- app_assoc. cbn [mbind option_bind]. rewrite (proj2 (Z.ltb_lt 0 rtv')) by done. eexists. split; [done|]. lia.
Qed.

(** ** Receiving *)

Lemma recv_long_all ds acc nBytes nt : Forall (λ d, d ≠ []) ds → 0 < nBytes →
  ∃ n, recv_long (Z.of_nat (length acc + length (concat ds))) acc nBytes ((Some <$> ds) ++ nt) = Some (n, acc ++ concat ds, nt) ∧ 0 < n.
Proof.
  intros Hds. revert acc nBytes. induction Hds as [|d ds Hd Hds IH]; intros acc nBytes Hn.
  - simpl. rewrite Nat.add_0_r, app_nil_r. exists nBytes. destruct nt; simpl; by rewrite Z.ltb_irrefl.
  - cbn [fmap list_fmap app recv_long concat]. assert (0 < length d)%nat by (destruct d; [done|simpl; lia]).
    rewrite length_app. rewrite (proj2 (Z.ltb_lt _ (Z.of_nat (_ + _)))), (proj2 (Z.ltb_lt 0 nBytes)) by lia. cbn [andb].
    assert (Ef : fit (Z.of_nat (length acc + (length d + length (concat ds))) - Z.of_nat (length acc)) d = d).
    { unfold fit. by rewrite (proj2 (Z.leb_le _ _)) by lia. }
    rewrite Ef. destruct (IH (acc ++ d) (Z.of_nat (length d))) as (n & E & Hn'); [lia|]. exists n. rewrite <- app_assoc in E. split; [|done].
    rewrite <- E. f_equal. rewrite length_app. lia.
Qed.

Lemma head_received n : Z.of_nat n < 2 ^ 32 →
  let msg := head_of n ++ replicate (mMaxTxSize - length (head_of n)) NUL in
  strncmp0 msg MSG_ABORT (S (length MSG_ABORT)) = false ∧ strncmp0 msg LOC_IPC_HEAD (length LOC_IPC_HEAD) = true ∧
  cstr (drop (length LOC_IPC_HEAD) msg) = print_int (Z.of_nat n).
Proof.
  intros Hn msg. assert (Em : msg = LOC_IPC_HEAD ++ print_int (Z.of_nat n) ++ replicate (mMaxTxSize - length (head_of n)) NUL).
  { unfold msg, head_of. by rewrite <- app_assoc. }
  rewrite Em. assert (En : no NUL LOC_IPC_HEAD) by (by repeat constructor). unfold strncmp0. split_and!.
  - apply bool_decide_eq_false. rewrite cstr_no_nul by done. intros E. by vm_compute in E.
  - apply bool_decide_eq_true. rewrite cstr_no_nul, <- app_assoc by done. change (cstr LOC_IPC_HEAD) with LOC_IPC_HEAD. by rewrite !take_app_length.
  - rewrite drop_app_length, cstr_no_nul by apply print_no_nul. by rewrite cstr_nuls, app_nil_r.
Qed.

Lemma recv_wire m nt : benign m →
  recvfrom mMaxTxSize resizes ((Some <$> wire m) ++ nt) = RDone (Z.of_nat (length m)) (Some (m, Z.of_nat (length m))) nt.
Proof.
  intros (Hne & Hl & Hs & Hb). assert (0 < length m)%nat by (destruct m; [done|simpl; lia]). unfold wire. case_decide as Hm.
  - cbn [fmap list_fmap app recvfrom]. rewrite take_ge by done. rewrite (proj2 (Z.ltb_lt 0 (Z.of_nat (length m)))) by lia.
    destruct (Hb Hm) as [Ha Hh]. unfold padded in Ha, Hh. rewrite Ha, Hh. cbn [negb]. by rewrite Z.mod_small by lia.
  - cbn [fmap list_fmap app recvfrom]. rewrite (take_ge (head_of _)) by by apply head_length.
    destruct (head_received (length m) Hl) as (Ha & Hh & Hd). rewrite Ha, Hh, Hd. cbn [negb]. rewrite sscanf_print by (unfold SIZE_MAX; lia). rewrite Hs. cbn [negb].
    assert (8 ≤ length (head_of (length m)))%nat by (unfold head_of; rewrite length_app; change (length LOC_IPC_HEAD) with 8%nat; lia).
    rewrite (proj2 (Z.ltb_lt 0 (Z.of_nat (length (head_of (length m)))))) by lia. 
    pose proof (chunks_concat (length m) m (le_n _)) as Hc.
    destruct (recv_long_all (chunks (length m) m) [] (Z.of_nat (length (head_of (length m)))) nt) as (n & E & Hn); [|lia|].
    { eapply Forall_impl; [apply chunks_sizes|]. by intros d [? _]. }
    cbn [length app Nat.add] in E. rewrite Hc in E. rewrite E. rewrite (proj2 (Z.ltb_lt 0 n)) by done. by rewrite Z.mod_small by lia.
Qed.

Lemma recv_stops nt : recvfrom mMaxTxSize resizes (Some (MSG_ABORT ++ [NUL]) :: nt) = RDone 0 None nt.
Proof.
  cbn [recvfrom]. rewrite take_ge by (simpl; lia). change (Z.of_nat (length (MSG_ABORT ++ [NUL]))) with 20. cbn [Z.ltb].
  replace (strncmp0 _ MSG_ABORT _) with true; [done|]. symmetry. apply bool_decide_eq_true. by rewrite <- app_assoc.
Qed.
End sock_spec.

(** ** What holds of any traffic *)
Section any.
Context (mMaxTxSize : nat) (resizes : Z → bool).

Lemma digits_nonneg acc s : 0 ≤ acc → 0 ≤ digits 10 acc s.
Proof.
  revert acc. induction s as [|c s IH]; intros acc Ha; [done|]. cbn [digits]. destruct (digit_val 10 c) as [d|] eqn:E; [|done].
  apply IH. unfold digit_val in E. cbv zeta in E. assert (0 ≤ d); [|lia].
  destruct ((48 <=? code c) && (code c <=? 57)) eqn:E1.
  - cbn [mbind option_bind] in E. destruct (_ <? _); [|done]. injection E as <-. lia.
  - destruct ((97 <=? code c) && (code c <=? 122)) eqn:E2.
    + cbn [mbind option_bind] in E. destruct (_ <? _); [|done]. injection E as <-. lia.
    + destruct ((65 <=? code c) && (code c <=? 90)) eqn:E3; [|done]. cbn [mbind option_bind] in E. destruct (_ <? _); [|done]. injection E as <-. lia.
Qed.

Lemma sscanf_nonneg s : 0 ≤ sscanf_zu s.
Proof.
  unfold sscanf_zu. destruct (sign (skip_spaces s)) as [neg [|c r]]; [done|]. destruct (digit_val 10 c); [|done].
  pose proof (digits_nonneg 0 (c :: r)). destruct neg; [apply Z.mod_pos_bound; lia|]. unfold SIZE_MAX. lia.
Qed.

Lemma fit_length n d : 0 ≤ n → Z.of_nat (length (fit n d)) ≤ n.
Proof. intros Hn. unfold fit. destruct (Z.leb_spec (Z.of_nat (length d)) n); [done|]. rewrite length_take. lia. Qed.

Lemma recv_long_fits msgLen acc nBytes nt n m rest : recv_long msgLen acc nBytes nt = Some (n, m, rest) →
  Z.of_nat (length acc) ≤ msgLen → Z.of_nat (length m) ≤ msgLen ∧ (0 < n → Z.of_nat (length m) = msgLen) ∧ (length rest ≤ length nt)%nat.
Proof.
  revert acc nBytes. induction nt as [|r nt IH]; intros acc nBytes E Hacc; cbn [recv_long] in E.
  - destruct (Z.ltb_spec (Z.of_nat (length acc)) msgLen), (Z.ltb_spec 0 nBytes); simpl in E; try done; injection E as <- <- <-; split_and!; simpl; lia.
  - destruct (Z.ltb_spec (Z.of_nat (length acc)) msgLen), (Z.ltb_spec 0 nBytes); simpl in E; try (injection E as <- <- <-; split_and!; simpl; lia).
    destruct r as [d|]; [|injection E as <- <- <-; split_and!; simpl; lia].
    apply IH in E as (E1 & E2 & E3); [simpl; split_and!; [done|done|lia]|]. rewrite length_app. pose proof (fit_length (msgLen - Z.of_nat (length acc)) d). lia.
Qed.

(** The length of a message: of a datagram, or one that was announced and for which the buffer was
    made. *)
Definition handed_over (n : nat) : Prop := (n ≤ mMaxTxSize)%nat ∨ resizes (Z.of_nat n) = true.

(** Every call takes something in; and what it hands over is as long as it says, and fits. *)
Lemma recv_fits valid nt n received rest : Sock_recv mMaxTxSize resizes valid nt = RDone n received rest →
  (0 < n → (length rest < length nt)%nat) ∧
  ∀ m l, received = Some (m, l) → l = Z.of_nat (length m) mod 2 ^ 32 ∧ handed_over (length m).
Proof.
  unfold Sock_recv. case_bool_decide; [intros [= <- <- <-]; split; [lia|done]|]. destruct valid; [|intros [= <- <- <-]; split; [lia|done]].
  unfold recvfrom. destruct nt as [|[d|] nt]; [done| |intros [= <- <- <-]; split; [lia|done]]. cbv zeta. set (d' := take mMaxTxSize d).
  assert (Hd : (length d' ≤ mMaxTxSize)%nat) by (unfold d'; rewrite length_take; lia).
  destruct (Z.ltb_spec 0 (Z.of_nat (length d'))); [|intros [= <- <- <-]; split; [lia|done]].
  destruct (strncmp0 _ MSG_ABORT _); [intros [= <- <- <-]; split; [lia|done]|].
  destruct (negb _); [intros [= <- <- <-]; split; [simpl; lia|intros m l [= <- <-]; split; [done|by left]]|].
  set (msgLen := sscanf_zu _). destruct (resizes msgLen) eqn:Hr; [|done]. cbn [negb].
  destruct (recv_long msgLen [] _ nt) as [[[k m] rest']|] eqn:E; [|done].
  apply recv_long_fits in E as (E1 & E2 & E3); [|apply sscanf_nonneg].
  destruct (Z.ltb_spec 0 k); intros [= <- <- <-]; (split; [simpl; lia|]); [|done].
  intros m' l [= <- <-]. unfold handed_over. rewrite E2 by done. split; [done|by right].
Qed.

Lemma listen_ends fuel valid nt : (length nt < fuel)%nat → (listen mMaxTxSize resizes fuel valid nt).2 ≠ OutOfFuel ∧
  Forall (λ p : bytes * Z, p.2 = Z.of_nat (length p.1) mod 2 ^ 32 ∧ handed_over (length p.1)) (listen mMaxTxSize resizes fuel valid nt).1.
Proof.
  revert nt. induction fuel as [|fuel IH]; intros nt Hf; [lia|]. cbn [listen]. destruct valid; [|by split].
  destruct (Sock_recv mMaxTxSize resizes true nt) as [n received rest| |rest] eqn:E; [|by split..].
  apply recv_fits in E as [E1 E2].
  assert (Hout : Forall (λ p : bytes * Z, p.2 = Z.of_nat (length p.1) mod 2 ^ 32 ∧ handed_over (length p.1))
    (match received with Some m => [m] | None => [] end)).
  { destruct received as [[m l]|]; [|constructor]. constructor; [|constructor]. by apply E2. }
  destruct (Z.ltb_spec 0 n) as [Hn|]; [|by split]. destruct (IH rest) as [I1 I2]; [specialize (E1 Hn); lia|].
  destruct (listen mMaxTxSize resizes fuel true rest) as [l e]. simpl in *. split; [done|]. by apply Forall_app.
Qed.

(** More fuel changes nothing. *)
Lemma listen_more fuel fuel' valid nt : (listen mMaxTxSize resizes fuel valid nt).2 ≠ OutOfFuel → (fuel ≤ fuel')%nat →
  listen mMaxTxSize resizes fuel' valid nt = listen mMaxTxSize resizes fuel valid nt.
Proof.
  revert fuel' nt. induction fuel as [|fuel IH]; intros fuel' nt Hn Hf; [done|]. destruct fuel' as [|fuel']; [lia|].
  cbn [listen] in *. destruct valid; [|done]. destruct (Sock_recv mMaxTxSize resizes true nt) as [n received rest| |]; [|done..].
  destruct (0 <? n); [|done]. rewrite (IH fuel'); [done| |lia]. by destruct (listen mMaxTxSize resizes fuel true rest).
Qed.

Lemma send_loop_stops fuel buf offset rtv rs sent : rtv ≤ 0 → send_loop mMaxTxSize fuel buf offset rtv rs sent = Some (rtv, sent).
Proof. intros Hr. destruct fuel; simpl; by rewrite (proj2 (Z.ltb_ge 0 rtv)), andb_false_r. Qed.

Lemma send_loop_total fuel buf offset rtv rs sent : (length buf - offset ≤ fuel)%nat →
  ∃ rtv' l, send_loop mMaxTxSize fuel buf offset rtv rs sent = Some (rtv', sent ++ l) ∧ Forall (λ d, (length d ≤ mMaxTxSize)%nat) l.
Proof.
  revert offset rtv rs sent. induction fuel as [|fuel IH]; intros offset rtv rs sent Hf; cbn [send_loop].
  - rewrite (proj2 (Z.ltb_ge _ _)) by lia. exists rtv, []. by rewrite app_nil_r.
  - destruct (Z.ltb_spec (Z.of_nat offset) (Z.of_nat (length buf))) as [Hlt|Hge]; [|exists rtv, []; by rewrite app_nil_r].
    destruct (0 <? rtv); cbn [andb]; [|exists rtv, []; by rewrite app_nil_r]. destruct (next_outcome rs _) as [r rs']. unfold os_sendto.
    destruct r as [k|]; [|exists (-1), []; rewrite send_loop_stops by lia; by rewrite app_nil_r].
    set (d := take k _). assert (Hd : (length d ≤ mMaxTxSize)%nat) by (unfold d; rewrite !length_take; lia).
    destruct (decide (length d = 0)%nat) as [E|E].
    + exists (Z.of_nat (length d)), [d]. rewrite send_loop_stops by lia. by repeat constructor.
    + destruct (IH (offset + Z.to_nat (Z.of_nat (length d)))%nat (Z.of_nat (length d)) rs' (sent ++ [d])) as (rtv' & l & El & Hl); [lia|].
      exists rtv', (d :: l). rewrite El, <- app_assoc. split; [done|by constructor].
Qed.

Lemma send_fits valid buf rs sent : (20 ≤ mMaxTxSize)%nat → Z.of_nat (length buf) < 2 ^ 32 →
  ∃ n l, Sock_send mMaxTxSize valid buf rs sent = Some (n, sent ++ l) ∧ Forall (λ d, (length d ≤ mMaxTxSize)%nat) l.
Proof.
  intros Hmax Hl. unfold Sock_send. case_bool_decide; [exists (-1), []; by rewrite app_nil_r|]. destruct valid; [|exists (-1), []; by rewrite app_nil_r].
  unfold sendto. case_decide as Hb.
  - destruct (next_outcome rs buf) as [[k|] rs']; cbn [os_sendto]; [|exists (-1), []; by rewrite app_nil_r].
    eexists _, [_]. split; [done|]. constructor; [|constructor]. rewrite length_take. lia.
  - destruct (next_outcome rs _) as [r rs']. assert (Hh : (length (head_of (length buf)) ≤ mMaxTxSize)%nat) by by apply head_length.
    destruct r as [k|]; cbn [os_sendto]; [|exists (-1), []; by rewrite app_nil_r].
    assert (Hk : (length (take k (head_of (length buf))) ≤ mMaxTxSize)%nat) by (rewrite length_take; lia).
    destruct (0 <? _); [|eexists _, [_]; split; [done|by repeat constructor]].
    destruct (send_loop_total (length buf) buf 0 (Z.of_nat (length (take k (head_of (length buf))))) rs' (sent ++ [take k (head_of (length buf))])) as (rtv' & l & -> & Hf); [lia|].
    cbn [mbind option_bind]. eexists _, (_ :: l). rewrite <- app_assoc. split; [done|by constructor].
Qed.
End any.

(** The messages are sent one after the other, and all are taken. *)
Fixpoint send_msgs (mMaxTxSize : nat) (msgs : list bytes) (sent : list bytes) : option (list bytes) :=
  match msgs with
  | [] => Some sent
  | m :: msgs => '(ok, sent) ← sendData mMaxTxSize true m [] sent; if ok : bool then send_msgs mMaxTxSize msgs sent else None
  end.

Definition as_received (m : bytes) : bytes * Z := (m, Z.of_nat (length m)).

Lemma send_msgs_wire mMaxTxSize resizes msgs sent : (20 ≤ mMaxTxSize)%nat → Forall (benign mMaxTxSize resizes) msgs →
  send_msgs mMaxTxSize msgs sent = Some (sent ++ concat (wire mMaxTxSize <$> msgs)).
Proof.
  intros Hmax H. revert sent. induction H as [|m msgs Hm _ IH]; intros sent; [by rewrite app_nil_r|]. cbn [send_msgs]. unfold sendData.
  destruct (send_all mMaxTxSize resizes Hmax m sent Hm) as (n & -> & Hn). cbn [mbind option_bind]. rewrite (proj2 (Z.ltb_lt 0 n)) by done.
  rewrite IH. by rewrite <- app_assoc.
Qed.

Lemma listen_wires mMaxTxSize resizes fuel msgs nt : (20 ≤ mMaxTxSize)%nat → Forall (benign mMaxTxSize resizes) msgs →
  listen mMaxTxSize resizes (length msgs + fuel) true ((Some <$> concat (wire mMaxTxSize <$> msgs)) ++ nt) =
  let '(l, e) := listen mMaxTxSize resizes fuel true nt in ((as_received <$> msgs) ++ l, e).
Proof.
  intros Hmax. induction 1 as [|m msgs Hm _ IH]; [cbn [length Nat.add fmap list_fmap concat app]; by destruct (listen mMaxTxSize resizes fuel true nt)|].
  cbn [length Nat.add listen fmap list_fmap concat]. unfold Sock_recv. rewrite bool_decide_false by lia.
  rewrite fmap_app, <- app_assoc, (recv_wire mMaxTxSize resizes Hmax m _ Hm).
  assert (0 < length m)%nat by (destruct Hm as [Hm _]; destruct m; [done|simpl; lia]).
  rewrite (proj2 (Z.ltb_lt 0 (Z.of_nat (length m)))) by lia. rewrite IH. by destruct (listen mMaxTxSize resizes fuel true nt).
Qed.

Lemma wires_length mMaxTxSize msgs : (length msgs ≤ length (concat (wire mMaxTxSize <$> msgs)))%nat.
Proof. induction msgs as [|m msgs IH]; [done|]. cbn [fmap list_fmap concat length]. rewrite length_app. unfold wire at 1. case_decide; simpl; lia. Qed.

(** Listening to whole messages and then to something that ends or waits at once. *)
Lemma listen_after mMaxTxSize resizes msgs nt e : (20 ≤ mMaxTxSize)%nat → Forall (benign mMaxTxSize resizes) msgs →
  listen mMaxTxSize resizes 1 true nt = ([], e) → e ≠ OutOfFuel →
  startBlockingListening mMaxTxSize resizes true ((Some <$> concat (wire mMaxTxSize <$> msgs)) ++ nt) = (true, (as_received <$> msgs, e)).
Proof.
  intros Hmax Hm H1 He. unfold startBlockingListening. f_equal. pose proof (listen_wires mMaxTxSize resizes 1 msgs nt Hmax Hm) as E.
  rewrite H1, app_nil_r in E. rewrite <- E. apply listen_more; [by rewrite E|].
  rewrite length_app, length_fmap. pose proof (wires_length mMaxTxSize msgs). lia.
Qed.

(** C28: messages of any length arrive: messages that are not taken for something else ([benign]:
    not empty, of fewer than 2^32 bytes for which the receiver has the memory, and, if they fit
    into one datagram, neither beginning with "$MSGLEN$" nor with the text of the request to stop),
    sent one after the other over a socket that takes every datagram whole and keeps their bounds
    and order, are sent in datagrams that fit; who listens receives exactly the messages, whole and in
    their order, and then waits; and once it is asked to stop it returns, after all that came
    before. *)
Theorem ipc_delivers mMaxTxSize resizes msgs : (20 ≤ mMaxTxSize)%nat → Forall (benign mMaxTxSize resizes) msgs →
  ∃ sent, send_msgs mMaxTxSize msgs [] = Some sent ∧ Forall (λ d, (length d ≤ mMaxTxSize)%nat) sent ∧
    startBlockingListening mMaxTxSize resizes true (Some <$> sent) = (true, (as_received <$> msgs, Waiting)) ∧
    ∃ sent', stopBlockingListening mMaxTxSize true [] sent = Some sent' ∧
      startBlockingListening mMaxTxSize resizes true (Some <$> sent') = (true, (as_received <$> msgs, Returned)).
Proof.
  intros Hmax Hm. exists (concat (wire mMaxTxSize <$> msgs)). split_and!.
  - by apply (send_msgs_wire mMaxTxSize resizes msgs []).
  - apply Forall_concat, Forall_fmap. eapply Forall_impl; [done|]. intros m Hb. simpl. eapply Forall_impl; [by apply (wire_sizes mMaxTxSize resizes Hmax)|]. by intros d [_ ?].
  - rewrite <- (app_nil_r (Some <$> _)). apply listen_after; try done. simpl. unfold Sock_recv. by rewrite bool_decide_false by lia.
  - exists (concat (wire mMaxTxSize <$> msgs) ++ [MSG_ABORT ++ [NUL]]). split.
    + unfold stopBlockingListening, sendAbort, Sock_send. rewrite bool_decide_false by done. unfold sendto. rewrite decide_True by (simpl; lia). done.
    + rewrite fmap_app. apply listen_after; try done. cbn [fmap list_fmap listen]. unfold Sock_recv. rewrite bool_decide_false by lia. by rewrite recv_stops.
Qed.

(** A short message and one of forty bytes over sockets of twenty-four. *)
Lemma ipc_delivers_witness :
  let msgs := [lit "hello"; lit "0123456789012345678901234567890123456789"] in
  ∃ sent, send_msgs 24 msgs [] = Some sent ∧ length sent = 4%nat ∧ startBlockingListening 24 (λ n, n <=? 1000) true (Some <$> sent) = (true, (as_received <$> msgs, Waiting)).
Proof.
  intros msgs. destruct (ipc_delivers 24 (λ n, n <=? 1000) msgs) as (sent & E & _ & H & _); [lia| |].
  - repeat constructor; try done; vm_compute; lia.
  - exists sent. split_and!; [done| |done]. vm_compute in E. by injection E as <-.
Defined.

(** C30: bounds of the sockets: whatever datagrams and errors arrive, from whomever, listening does
    not go on for ever: it comes to wait for more, returns, or ends with the exception of a buffer
    that cannot be made. A message handed over is no longer
    than a datagram may be, or it has the very length for which its buffer was made, and the
    length handed over with it is its own, modulo 2^32. And whatever the sockets answer, sending
    fewer than 2^32 bytes ends, and no datagram is longer than the receiver reads. *)
Theorem ipc_within_bounds mMaxTxSize resizes : (20 ≤ mMaxTxSize)%nat →
  (∀ valid nt, let '(_, (received, e)) := startBlockingListening mMaxTxSize resizes valid nt in
     e ≠ OutOfFuel ∧ Forall (λ p : bytes * Z, p.2 = Z.of_nat (length p.1) mod 2 ^ 32 ∧ handed_over mMaxTxSize resizes (length p.1)) received) ∧
  (∀ valid data rs sent, Z.of_nat (length data) < 2 ^ 32 →
     ∃ n l, Sock_send mMaxTxSize valid data rs sent = Some (n, sent ++ l) ∧ Forall (λ d, (length d ≤ mMaxTxSize)%nat) l).
Proof.
  intros Hmax. split; [|intros; by apply send_fits]. intros valid nt. unfold startBlockingListening. destruct valid; [|by split].
  pose proof (listen_ends mMaxTxSize resizes (S (length nt)) true nt) as H. destruct (listen mMaxTxSize resizes (S (length nt)) true nt) as [l e].
  apply H. lia.
Qed.

Lemma ipc_within_bounds_witness :
  (startBlockingListening 24 (λ n, n <=? 1000) true [Some (lit "$MSGLEN$7"); None; Some (lit "x")]).2.2 ≠ OutOfFuel.
Proof.
  destruct (ipc_within_bounds 24 (λ n, n <=? 1000)) as [H _]; [lia|]. specialize (H true [Some (lit "$MSGLEN$7"); None; Some (lit "x")]).
  destruct (startBlockingListening 24 (λ n, n <=? 1000) true _) as [b [l e]]. by destruct H.
Defined.

(** What is received otherwise than it was sent: a message that begins like a head is
    taken for one and swallows the next message; an empty datagram, a head without a length
    and the text of the stop request, whoever sends them, end the listening for good, and a
    head with a large number ends the thread with an exception; the pieces of two messages
    that are sent at the same time are put together wrongly; a piece that cannot be sent
    makes the receiver take the following message for the rest; and over a stream socket
    two messages that are read together are one message. *)
Theorem ipc_misread :
  let listen := startBlockingListening 24 (λ n, n <=? 2 ^ 62) true in
  let a := lit "aaaaaaaaaaaaaaaaaaaaaaaaaaaaaa" in let b := lit "bbbbbbbbbbbbbbbbbbbbbbbbbbbbbb" in
  (send_msgs 24 [lit "$MSGLEN$5 is a head"; lit "hello"] [] = Some [lit "$MSGLEN$5 is a head"; lit "hello"] ∧
   listen (Some <$> [lit "$MSGLEN$5 is a head"; lit "hello"]) = (true, ([as_received (lit "hello")], Waiting))) ∧
  listen [Some []; Some (lit "hello")] = (true, ([], Returned)) ∧
  listen [Some (lit "$MSGLEN$x"); Some (lit "hello")] = (true, ([as_received []], Returned)) ∧
  listen [Some (lit "LocIpc::Sock::ABORT"); Some (lit "hello")] = (true, ([], Returned)) ∧
  listen [Some (lit "$MSGLEN$-1"); Some (lit "hello")] = (true, ([], Thrown)) ∧
  (send_msgs 24 [a] [] = Some [lit "$MSGLEN$30"; take 24 a; drop 24 a] ∧ send_msgs 24 [b] [] = Some [lit "$MSGLEN$30"; take 24 b; drop 24 b] ∧
   listen (Some <$> [lit "$MSGLEN$30"; take 24 a; lit "$MSGLEN$30"; take 24 b; drop 24 a; drop 24 b]) =
     (true, ([as_received (take 24 a ++ lit "$MSGLE"); as_received (take 24 b); as_received (drop 24 a); as_received (drop 24 b)], Waiting))) ∧
  (Sock_send 24 true a [Some 10%nat; Some 24%nat; None] [] = Some (-1, [lit "$MSGLEN$30"; take 24 a]) ∧
   listen (Some <$> [lit "$MSGLEN$30"; take 24 a; lit "hello"; lit "world"]) = (true, ([as_received (take 24 a ++ lit "hellow")], Waiting))) ∧
  listen [Some (lit "hello" ++ lit "world")] = (true, ([as_received (lit "helloworld")], Waiting)).
Proof. intros listen a b. split_and!; vm_compute; reflexivity. Qed.
