(* ===== verification/ReportItem.v ===== *)
(** * The reports of gps/core/SystemStatus.cpp : a history of at most five items per kind.

    [setIteminReport], [setDefaultIteminReport] and [getIteminReport] are templates over the class
    of an item; what they use of it is the interface [ReportItem]. The virtual [ignore] and
    [collate] of SystemStatusItemBase are its default instance. *)
From S2P Require Import Prelude.

Record timespec := Timespec { tv_sec : Z; tv_nsec : Z }.

(** SystemStatusItemBase: the two times, around what the derived class adds. *)
Record SystemStatusItemBase (A : Type) := ItemBase {
  mUtcTime : timespec;
  mUtcReported : timespec;
  body : A;
}.
Arguments ItemBase {A} _ _ _.
Arguments mUtcTime {A} _.
Arguments mUtcReported {A} _.
Arguments body {A} _.

(** The constructor reads the clock ([gettimeofday]). *)
Definition item {A} (now : timespec) (a : A) : SystemStatusItemBase A := ItemBase now now a.

(** [collate s cur] is [s] after [s.collate(cur)]. *)
Class ReportItem (A : Type) := {
  equals : A → A → bool;
  collate : A → A → A;
  ignore : A → bool;
}.

Definition maxItem : nat := 5.

Section Report.
Context {A : Type} `{ReportItem A}.

Abbreviation report := (list (SystemStatusItemBase A)) (only parsing).

Definition set_body (a : A) (s : SystemStatusItemBase A) : SystemStatusItemBase A :=
  ItemBase (mUtcTime s) (mUtcReported s) a.

(** [push_back], and [erase(begin())] when there are too many. *)
Definition push (r : report) (s : SystemStatusItemBase A) : report :=
  let r' := r ++ [s] in if maxItem <? length r' then tail r' else r'.

(** [report.back().mUtcReported = t] *)
Definition set_reported (t : timespec) (r : report) : report :=
  match reverse r with
  | [] => []
  | b :: r' => reverse r' ++ [ItemBase (mUtcTime b) t (body b)]
  end.

(** The answer, the report, and the item, which [collate] may have changed. *)
Definition setIteminReport (r : report) (s : SystemStatusItemBase A) : bool * report * SystemStatusItemBase A :=
  if ignore (body s) then (false, r, s)
  else
    match last r with
    | Some b =>
        let s := set_body (collate (body s) (body b)) s in
        if equals (body b) (body s) then (false, set_reported (mUtcReported s) r, s)
        else (true, push r s, s)
    | None => (true, push r s, s)
    end.

Definition setDefaultIteminReport (r : report) (s : SystemStatusItemBase A) : report := push r s.

(** What is left in [reportout]. *)
Definition getIteminReport (c : report) : report :=
  match last c with Some b => [b] | None => [] end.

(** * Specification : the log of everything that was recorded *)

(** A log is a report that forgets nothing. *)
Definition log_set (l : report) (s : SystemStatusItemBase A) : report :=
  if ignore (body s) then l
  else
    match last l with
    | Some b =>
        let s := set_body (collate (body s) (body b)) s in
        if equals (body b) (body s) then set_reported (mUtcReported s) l else l ++ [s]
    | None => l ++ [s]
    end.

(** An event is an item to be set, or one that is a default and always kept. *)
Inductive report_event := Set_ (s : SystemStatusItemBase A) | SetDefault (s : SystemStatusItemBase A).

Definition report_step (r : report) (e : report_event) : report :=
  match e with Set_ s => (setIteminReport r s).1.2 | SetDefault s => setDefaultIteminReport r s end.
Definition log_step (l : report) (e : report_event) : report :=
  match e with Set_ s => log_set l s | SetDefault s => l ++ [s] end.

(** The last [maxItem] of a list. *)
Definition recent (l : report) : report := drop (length l - maxItem) l.

Lemma recent_length l : length (recent l) = length l `min` maxItem.
Proof. unfold recent. rewrite length_drop. lia. Qed.
Lemma recent_nil l : recent l = [] → l = [].
Proof. intros E. apply (f_equal length) in E. rewrite recent_length in E. destruct l; [done|]. simpl in *. unfold maxItem in E. lia. Qed.
Lemma last_recent l : last (recent l) = last l.
Proof.
  destruct (last_snoc_inv l) as [-> | (l' & x & ->)]; [done|]. unfold recent.
  rewrite drop_app_le by (rewrite length_app; simpl; unfold maxItem; lia). by rewrite !last_snoc.
Qed.

Lemma push_recent l s : push (recent l) s = recent (l ++ [s]).
Proof.
  unfold push. rewrite length_app, recent_length. simpl. unfold recent. rewrite length_app. simpl.
  destruct (Nat.ltb_spec maxItem (length l `min` maxItem + 1)) as [Hl|Hl].
  - assert (maxItem ≤ length l) by lia.
    rewrite (drop_app_le _ [s] (length l + 1 - maxItem)) by (unfold maxItem in *; lia).
    replace (length l + 1 - maxItem) with (S (length l - maxItem)) by lia.
    rewrite <- (Nat.add_1_r (length l - maxItem)), <- drop_drop. destruct (drop _ l) as [|x r] eqn:E; [|done].
    apply (f_equal length) in E. rewrite length_drop in E. simpl in E. unfold maxItem in *. lia.
  - replace (length l - maxItem) with 0 by lia. by replace (length l + 1 - maxItem) with 0 by lia.
Qed.

Lemma set_reported_snoc t (r : report) b : set_reported t (r ++ [b]) = r ++ [ItemBase (mUtcTime b) t (body b)].
Proof. unfold set_reported. rewrite reverse_app. simpl. by rewrite reverse_involutive. Qed.
Lemma set_reported_length t (r : report) : length (set_reported t r) = length r.
Proof. destruct (last_snoc_inv r) as [-> | (l & b & ->)]; [done|]. rewrite set_reported_snoc, !length_app. done. Qed.
Lemma set_reported_recent t l : set_reported t (recent l) = recent (set_reported t l).
Proof.
  destruct (last_snoc_inv l) as [-> | (l' & x & ->)]; [done|]. unfold recent at 2. rewrite set_reported_length.
  unfold recent. rewrite set_reported_snoc, !length_app. simpl.
  rewrite !drop_app_le by (unfold maxItem; lia). by rewrite set_reported_snoc.
Qed.

(** A report is the end of the log. *)
Lemma report_step_log l e : report_step (recent l) e = recent (log_step l e).
Proof.
  destruct e as [s|s]; simpl; [|apply push_recent].
  unfold setIteminReport, log_set. destruct (ignore (body s)); [done|]. rewrite last_recent.
  destruct (last l) as [b|]; simpl; [|apply push_recent].
  destruct (equals _ _); simpl; [apply set_reported_recent|apply push_recent].
Qed.

Lemma report_is_log es : foldl report_step [] es = recent (foldl log_step [] es).
Proof.
  change (@nil (SystemStatusItemBase A)) with (recent []) at 1. generalize (@nil (SystemStatusItemBase A)).
  induction es as [|e es IH]; intros l; simpl; [done|]. by rewrite report_step_log.
Qed.

(** The answer says whether the log grew. *)
Lemma set_answer r s : (setIteminReport r s).1.1 = true ↔ length (log_set r s) = S (length r).
Proof.
  unfold setIteminReport, log_set. destruct (ignore (body s)); simpl; [split; [done|lia]|].
  destruct (last r) as [b|]; simpl.
  - destruct (equals _ _); simpl; [rewrite set_reported_length; split; [done|lia]|]. rewrite length_app. simpl. split; [lia|done].
  - rewrite length_app. simpl. split; [lia|done].
Qed.

Lemma setIteminReport_length r s : length r ≤ maxItem → length (setIteminReport r s).1.2 ≤ maxItem.
Proof.
  assert (∀ x, length r ≤ maxItem → length (push r x) ≤ maxItem) as Hp.
  { intros x Hr. unfold push. destruct (Nat.ltb_spec maxItem (length (r ++ [x]))) as [Hl|]; [|done].
    rewrite length_app in *. simpl in *. destruct r; simpl in *; [unfold maxItem in *; lia|]. rewrite length_app. simpl. lia. }
  intros Hr. unfold setIteminReport. destruct (ignore (body s)); [done|]. destruct (last r) as [b|]; simpl; [|by apply Hp].
  destruct (equals _ _); simpl; [by rewrite set_reported_length|by apply Hp].
Qed.

Lemma last_push r s : last (push r s) = Some s.
Proof.
  unfold push. destruct (Nat.ltb_spec maxItem (length (r ++ [s]))) as [Hl|]; [|by rewrite last_snoc].
  destruct r as [|x r]; [simpl in Hl; unfold maxItem in Hl; lia|]. simpl tail. by rewrite last_snoc.
Qed.

(** The newest item after an item was set. *)
Lemma setIteminReport_last r s b :
  last r = Some b → ignore (body s) = false →
  ∃ b', last (setIteminReport r s).1.2 = Some b' ∧
    body b' = (let s' := collate (body s) (body b) in if equals (body b) s' then body b else s').
Proof.
  intros Hb Hi. unfold setIteminReport. rewrite Hi, Hb. simpl. destruct (equals _ _); simpl.
  - destruct (last_snoc_inv r) as [-> | (l & x & ->)]; [done|]. rewrite last_snoc in Hb. injection Hb as [= <-].
    rewrite set_reported_snoc, last_snoc. by eexists.
  - rewrite last_push. by eexists.
Qed.

(** ** The log, when no default is set *)

Definition ordered (t u : timespec) : Prop := (tv_sec t < tv_sec u ∨ tv_sec t = tv_sec u ∧ tv_nsec t ≤ tv_nsec u)%Z.

(** Neighbours differ, as [equals] sees them, and each was reported last before the next came. *)
Fixpoint log_ok (l : report) : Prop :=
  match l with
  | [] => True
  | a :: l' =>
      ordered (mUtcTime a) (mUtcReported a) ∧
      match l' with
      | [] => True
      | b :: _ => equals (body a) (body b) = false ∧ ordered (mUtcReported a) (mUtcTime b)
      end ∧ log_ok l'
  end.

Lemma log_ok_snoc l b s :
  log_ok (l ++ [b]) → equals (body b) (body s) = false → ordered (mUtcReported b) (mUtcTime s) →
  ordered (mUtcTime s) (mUtcReported s) → log_ok ((l ++ [b]) ++ [s]).
Proof.
  intros Hl He Ho Hs. induction l as [|a l IH].
  - simpl in *. tauto.
  - simpl app in *. destruct Hl as (H1 & H2 & H3). split; [done|]. split; [|by apply IH].
    destruct l; simpl in *; exact H2.
Qed.
Lemma log_ok_reported l b t :
  log_ok (l ++ [b]) → ordered (mUtcTime b) t → log_ok (l ++ [ItemBase (mUtcTime b) t (body b)]).
Proof.
  intros Hl Ho. induction l as [|a l IH]; [simpl in *; tauto|]. simpl app in *. destruct Hl as (H1 & H2 & H3).
  split; [done|]. split; [|by apply IH]. destruct l; simpl in *; exact H2.
Qed.
Lemma log_ok_drop n l : log_ok l → log_ok (drop n l).
Proof.
  revert l. induction n as [|n IH]; intros l Hl; [done|]. destruct l as [|a l]; [done|]. apply IH. apply Hl.
Qed.
End Report.
