(* ===== verification/NmeaDebug.v ===== *)
(** * The debug sentences of gps/core/SystemStatus.cpp : the parsers of $PQW...

    SystemStatusNmeaBase splits a sentence into the vector [mField]; one parser per kind of
    sentence converts the fields to the members of a struct. A parser is a program over that
    vector: an index out of range is [UB]. All the parsers but that of $PQWM1 leave
    their struct as it was on the stack when the sentence is short: that content is the argument
    [junk]. A sentence is the list of its characters up to the NUL. *)
From Stdlib Require Import Ascii.
From stdpp Require Import pretty.
From S2P Require Import Prelude CString.

(** ** SystemStatusNmeaBase *)

Definition DEBUG_NMEA_MINSIZE : Z := 6.
Definition DEBUG_NMEA_MAXSIZE : Z := 4096.

(** [nmea] is None for the null pointer; a character past the end of the string is its NUL. *)
Definition loc_nmea_is_debug (nmea : option str) (length : Z) : bool :=
  match nmea with
  | None => false
  | Some s =>
      (DEBUG_NMEA_MINSIZE <=? length)%Z && (length <=? DEBUG_NMEA_MAXSIZE)%Z &&
      bool_decide (nth 0 s NUL = "$"%char) && bool_decide (nth 1 s NUL = "P"%char) &&
      bool_decide (nth 2 s NUL = "Q"%char) && bool_decide (nth 3 s NUL = "W"%char)
  end.

(** [std::string::find] of one character. *)
Fixpoint find (c : ascii) (s : str) : option nat :=
  match s with
  | [] => None
  | d :: r => if decide (d = c) then Some 0 else S <$> find c r
  end.

(** The loop "tokenize parser"; each turn takes the text before the next comma. *)
Fixpoint tokenize (fuel : nat) (parser : str) (mField : list str) : option (list str) :=
  match fuel with
  | O => None
  | S fuel =>
      match find "," parser with
      | None => Some mField
      | Some index => tokenize fuel (drop (index + 1) parser) (mField ++ [take index parser])
      end
  end.

(** The constructor: the vector of the fields. *)
Definition SystemStatusNmeaBase (str_in : str) (len_in : Z) : option (list str) :=
  if loc_nmea_is_debug (Some str_in) len_in then
    match find "*" str_in with
    | None => Some []
    | Some index => tokenize (S (length str_in)) (<[index := ","%char]> str_in) []
    end
  else Some [].

(** ** Conversions of a field *)

Abbreviation Fields := (M (list str)).

(** [mField[e]] *)
Definition mField (e : nat) : Fields str := deref (λ f, f !! e).
Definition mField_size : Fields nat := gets length.

(** [atoi] and [strtol] with base 16 into an unsigned member of [w] ubits. *)
Definition dec (w : Z) (e : nat) : Fields Z := s ← mField e; mret (uwrap w (atoi s)).
Definition hex (w : Z) (e : nat) : Fields Z := s ← mField e; mret (uwrap w (strtol s 16)).
Definition int (e : nat) : Fields Z := s ← mField e; mret (atoi s).
Definition dbl (e : nat) : Fields double := s ← mField e; mret (atof s).
Definition flt (e : nat) : Fields float := s ← mField e; mret (to_float (atof s)).

(** ** $PQWM1 *)
Module PQWM1.
Record SystemStatusPQWM1 := MkPQWM1 {
  mGpsWeek : Z; mGpsTowMs : Z; mTimeValid : Z; mTimeSource : Z; mTimeUnc : Z;
  mClockFreqBias : Z; mClockFreqBiasUnc : Z; mXoState : Z; mPgaGain : Z;
  mGpsBpAmpI : Z; mGpsBpAmpQ : Z; mAdcI : Z; mAdcQ : Z;
  mJammerGps : Z; mJammerGlo : Z; mJammerBds : Z; mJammerGal : Z; mRecErrorRecovery : Z;
  mAgcGps : double; mAgcGlo : double; mAgcBds : double; mAgcGal : double;
  mLeapSeconds : Z; mLeapSecUnc : Z;
  mGloBpAmpI : Z; mGloBpAmpQ : Z; mBdsBpAmpI : Z; mBdsBpAmpQ : Z; mGalBpAmpI : Z; mGalBpAmpQ : Z;
  mTimeUncNs : Z;
}.

(** The positions of the fields: the first of each group of consecutive ones. *)
Definition eGpsWeek : nat := 1.
Definition eGpsBpAmpI : nat := 10.
Definition eAgcGps : nat := 19.
Definition eMax0 : nat := 22.
Definition eLeapSecUnc : nat := 24.
Definition eGalBpAmpQ : nat := 30.
Definition eTimeUncNs : nat := 31.

(** [memset(&mM1, 0, sizeof(mM1))] *)
Definition zeroed : SystemStatusPQWM1 :=
  MkPQWM1 0 0 0 0 0 0 0 0 0 0 0 0 0 0 0 0 0 0 zero_double zero_double zero_double zero_double
    0 0 0 0 0 0 0 0 0.

Definition SystemStatusPQWM1parser : Fields SystemStatusPQWM1 :=
  size ← mField_size;
  if size <=? eMax0 then mret zeroed
  else
    week ← dec 16 eGpsWeek; tow ← dec 32 2; valid ← dec 8 3; source ← dec 8 4; unc ← int 5;
    bias ← int 6; biasUnc ← int 7; xo ← dec 8 8; pga ← int 9;
    bpI ← dec 32 eGpsBpAmpI; bpQ ← dec 32 11; adcI ← dec 32 12; adcQ ← dec 32 13;
    jGps ← dec 32 14; jGlo ← dec 32 15; jBds ← dec 32 16; jGal ← dec 32 17; rec ← dec 32 18;
    aGps ← dbl eAgcGps; aGlo ← dbl 20; aBds ← dbl 21; aGal ← dbl 22;
    '(leap, leapUnc) ← (if eLeapSecUnc <? size then a ← int 23; b ← int 24; mret (a, b) else mret (0, 0)%Z);
    '(gloI, gloQ, bdsI, bdsQ, galI, galQ) ←
      (if eGalBpAmpQ <? size then
         a ← dec 32 25; b ← dec 32 26; c ← dec 32 27; d ← dec 32 28; e ← dec 32 29; f ← dec 32 30;
         mret (a, b, c, d, e, f)
       else mret (0, 0, 0, 0, 0, 0)%Z);
    uncNs ← (if eTimeUncNs <? size then s ← mField eTimeUncNs; mret (strtoull s 10) else mret 0%Z);
    mret (MkPQWM1 week tow valid source unc bias biasUnc xo pga bpI bpQ adcI adcQ jGps jGlo jBds jGal rec
            aGps aGlo aBds aGal leap leapUnc gloI gloQ bdsI bdsQ galI galQ uncNs).
End PQWM1.

(** ** $PQWP1 : the injected position *)
Module PQWP1.
Record SystemStatusPQWP1 := MkPQWP1 {
  mEpiValidity : Z; mEpiLat : float; mEpiLon : float; mEpiAlt : float; mEpiHepe : float;
  mEpiAltUnc : float; mEpiSrc : Z;
}.
Definition eEpiValidity : nat := 2.
Definition PQWP1_eMax : nat := 9.

(** The horizontal error goes through [atoi]. *)
Definition SystemStatusPQWP1parser (junk : SystemStatusPQWP1) : Fields SystemStatusPQWP1 :=
  size ← mField_size;
  if size <? PQWP1_eMax then mret junk
  else
    validity ← hex 8 eEpiValidity; lat ← flt 3; lon ← flt 4; alt ← flt 5;
    hepe ← int 6; altUnc ← flt 7; src ← dec 8 8;
    mret (MkPQWP1 validity lat lon alt (float_of_int hepe) altUnc src).
End PQWP1.

(** ** $PQWP2 : the best position *)
Module PQWP2.
Record SystemStatusPQWP2 := MkPQWP2 {
  mBestLat : float; mBestLon : float; mBestAlt : float; mBestHepe : float; mBestAltUnc : float;
}.
Definition eBestLat : nat := 2.
Definition PQWP2_eMax : nat := 7.

Definition SystemStatusPQWP2parser (junk : SystemStatusPQWP2) : Fields SystemStatusPQWP2 :=
  size ← mField_size;
  if size <? PQWP2_eMax then mret junk
  else
    lat ← flt eBestLat; lon ← flt 3; alt ← flt 4; hepe ← flt 5; altUnc ← flt 6;
    mret (MkPQWP2 lat lon alt hepe altUnc).
End PQWP2.

(** ** $PQWP3 : assistance data *)
Module PQWP3.
Record SystemStatusPQWP3 := MkPQWP3 {
  mXtraValidMask : Z; mGpsXtraAge : Z; mGloXtraAge : Z; mBdsXtraAge : Z; mGalXtraAge : Z;
  mQzssXtraAge : Z; mNavicXtraAge : Z; mGpsXtraValid : Z; mGloXtraValid : Z; mBdsXtraValid : Z;
  mGalXtraValid : Z; mQzssXtraValid : Z; mNavicXtraValid : Z;
}.
Definition eXtraValidMask : nat := 2.
Definition PQWP3_eMax : nat := 13.

Definition SystemStatusPQWP3parser (junk : SystemStatusPQWP3) : Fields SystemStatusPQWP3 :=
  size ← mField_size;
  if size <? PQWP3_eMax then mret junk
  else
    mask ← hex 8 eXtraValidMask;
    aGps ← dec 32 3; aGlo ← dec 32 4; aBds ← dec 32 5; aGal ← dec 32 6; aQzss ← dec 32 7;
    vGps ← hex 32 8; vGlo ← hex 32 9; vBds ← hex 64 10; vGal ← hex 64 11; vQzss ← hex 8 12;
    mret (MkPQWP3 mask aGps aGlo aBds aGal aQzss 0 vGps vGlo vBds vGal vQzss 0).
End PQWP3.

(** ** $PQWP4 : ephemeris *)
Module PQWP4.
Record SystemStatusPQWP4 := MkPQWP4 {
  mGpsEpheValid : Z; mGloEpheValid : Z; mBdsEpheValid : Z; mGalEpheValid : Z; mQzssEpheValid : Z;
}.
Definition eGpsEpheValid : nat := 2.
Definition PQWP4_eMax : nat := 7.

Definition SystemStatusPQWP4parser (junk : SystemStatusPQWP4) : Fields SystemStatusPQWP4 :=
  size ← mField_size;
  if size <? PQWP4_eMax then mret junk
  else
    gps ← hex 32 eGpsEpheValid; glo ← hex 32 3; bds ← hex 64 4; gal ← hex 64 5; qzss ← hex 8 6;
    mret (MkPQWP4 gps glo bds gal qzss).
End PQWP4.

(** ** $PQWP5 : the health of the satellites *)
Module PQWP5.
Record SystemStatusPQWP5 := MkPQWP5 {
  mGpsUnknownMask : Z; mGloUnknownMask : Z; mBdsUnknownMask : Z; mGalUnknownMask : Z;
  mQzssUnknownMask : Z; mNavicUnknownMask : Z;
  mGpsGoodMask : Z; mGloGoodMask : Z; mBdsGoodMask : Z; mGalGoodMask : Z;
  mQzssGoodMask : Z; mNavicGoodMask : Z;
  mGpsBadMask : Z; mGloBadMask : Z; mBdsBadMask : Z; mGalBadMask : Z;
  mQzssBadMask : Z; mNavicBadMask : Z;
}.
Definition eGpsUnknownMask : nat := 2.
Definition PQWP5_eMax : nat := 17.

Definition SystemStatusPQWP5parser (junk : SystemStatusPQWP5) : Fields SystemStatusPQWP5 :=
  size ← mField_size;
  if size <? PQWP5_eMax then mret junk
  else
    uGps ← hex 32 eGpsUnknownMask; uGlo ← hex 32 3; uBds ← hex 64 4; uGal ← hex 64 5; uQzss ← hex 8 6;
    gGps ← hex 32 7; gGlo ← hex 32 8; gBds ← hex 64 9; gGal ← hex 64 10; gQzss ← hex 8 11;
    bGps ← hex 32 12; bGlo ← hex 32 13; bBds ← hex 64 14; bGal ← hex 64 15; bQzss ← hex 8 16;
    mret (MkPQWP5 uGps uGlo uBds uGal uQzss 0 gGps gGlo gBds gGal gQzss 0 bGps bGlo bBds bGal bQzss 0).
End PQWP5.

(** ** $PQWP6 *)
Module PQWP6.
Record SystemStatusPQWP6 := MkPQWP6 { mFixInfoMask : Z }.
Definition PQWP6_eFixInfoMask : nat := 2.
Definition PQWP6_eMax : nat := 3.

Definition SystemStatusPQWP6parser (junk : SystemStatusPQWP6) : Fields SystemStatusPQWP6 :=
  size ← mField_size;
  if size <? PQWP6_eMax then mret junk
  else mask ← hex 32 PQWP6_eFixInfoMask; mret (MkPQWP6 mask).
End PQWP6.

(** ** $PQWP7 : one triple per satellite *)
Definition SV_ALL_NUM_MIN : nat := 32 + 24 + 5 + 37 + 36.
Definition SV_ALL_NUM : nat := SV_ALL_NUM_MIN + 14.

(** The two enumerations have the values of an int. *)
Record SystemStatusNav := MkNav { mType : Z; mSource : Z; mAgeSec : Z }.

Module PQWP7.
Record SystemStatusPQWP7 := MkPQWP7 { mNav : list SystemStatusNav }.
Definition PQWP7_eMin : nat := 2 + SV_ALL_NUM_MIN * 3.
Definition PQWP7_eMax : nat := 2 + SV_ALL_NUM * 3.

(** The loop over the satellites from the [i]th on, [n] of them. *)
Fixpoint navs (i n : nat) : Fields (list SystemStatusNav) :=
  match n with
  | O => mret []
  | S n =>
      t ← int (i * 3 + 2); s ← int (i * 3 + 3); a ← int (i * 3 + 4);
      rest ← navs (S i) n;
      mret (MkNav t s a :: rest)
  end.

Definition SystemStatusPQWP7parser (junk : SystemStatusPQWP7) : Fields SystemStatusPQWP7 :=
  size ← mField_size;
  if size <? PQWP7_eMin then mret junk
  else
    let svLimit := if size <? PQWP7_eMax then SV_ALL_NUM_MIN else SV_ALL_NUM in
    l ← navs 0 svLimit;
    mret (MkPQWP7 (l ++ replicate (SV_ALL_NUM - svLimit) (MkNav 0 0 0))).
End PQWP7.

(** ** $PQWS1 : why there was no position *)
Module PQWS1.
Record SystemStatusPQWS1 := MkPQWS1 { mFixInfoMask : Z; mHepeLimit : Z }.
Definition PQWS1_eFixInfoMask : nat := 2.
Definition PQWS1_eMax : nat := 4.

Definition SystemStatusPQWS1parser (junk : SystemStatusPQWS1) : Fields SystemStatusPQWS1 :=
  size ← mField_size;
  if size <? PQWS1_eMax then mret junk
  else mask ← dec 32 PQWS1_eFixInfoMask; limit ← dec 32 3; mret (MkPQWS1 mask limit).
End PQWS1.

(** A parser as the constructor of its class runs it, on a sentence. *)
Definition parse {A} (p : Fields A) (str_in : str) (len_in : Z) : option A :=
  fields ← SystemStatusNmeaBase str_in len_in;
  outcome_value (p fields).
Arguments parse {A} _ _ _%_Z.

(** * Splitting *)

(** What the fields are: the pieces between commas, without the one after the last comma. *)
Fixpoint pieces (cur s : str) : list str :=
  match s with
  | [] => []
  | c :: r => if decide (c = ","%char) then cur :: pieces [] r else pieces (cur ++ [c]) r
  end.

Lemma find_none c s : find c s = None ↔ no c s.
Proof.
  induction s as [|d s IH]; simpl; [by split; [constructor|]|]. case_decide as Hd.
  - split; [done|]. intros H. by inversion H.
  - rewrite fmap_None, IH. split; [by constructor|by intros H; inversion H].
Qed.
Lemma find_some c s i : find c s = Some i → s = take i s ++ c :: drop (S i) s ∧ no c (take i s) ∧ i < length s.
Proof.
  revert i. induction s as [|d s IH]; intros i; simpl; [done|]. case_decide as Hd.
  - intros [= <-]. subst. split; [done|]. split; [constructor|lia].
  - intros (j & Hj & ->)%fmap_Some. simpl. destruct (IH j Hj) as (E & Hn & Hl). split_and!; [by f_equal| |lia].
    by constructor.
Qed.
Lemma find_at c a s : no c a → find c (a ++ c :: s) = Some (length a).
Proof. induction 1 as [|d a Hd _ IH]; simpl; [by rewrite decide_True|]. rewrite decide_False by done. by rewrite IH. Qed.

Lemma pieces_app cur a s : no "," a → pieces cur (a ++ s) = pieces (cur ++ a) s.
Proof.
  intros Ha. revert cur. induction Ha as [|c a Hc _ IH]; intros cur; simpl; [by rewrite app_nil_r|].
  rewrite decide_False by done. by rewrite IH, <- app_assoc.
Qed.
Lemma pieces_none cur a : no "," a → pieces cur a = [].
Proof. intros Ha. rewrite <- (app_nil_r a), pieces_app by done. done. Qed.

Lemma tokenize_pieces fuel s acc : length s < fuel → tokenize fuel s acc = Some (acc ++ pieces [] s).
Proof.
  revert s acc. induction fuel as [|fuel IH]; intros s acc Hl; [lia|]. simpl.
  destruct (find "," s) as [i|] eqn:E.
  - destruct (find_some _ _ _ E) as (Es & Hn & Hi). rewrite IH.
    + rewrite <- app_assoc. do 2 f_equal. rewrite Es at 3. rewrite pieces_app by done. simpl.
      by rewrite Nat.add_1_r.
    + rewrite length_drop. lia.
  - apply (find_none _ s) in E. by rewrite pieces_none, app_nil_r.
Qed.

(** The constructor ends, and [mField] is what lies between the commas up to the star. *)
Lemma SystemStatusNmeaBase_pieces s len :
  SystemStatusNmeaBase s len =
  Some (if loc_nmea_is_debug (Some s) len then
          match find "*" s with Some i => pieces [] (<[i := ","%char]> s) | None => [] end else []).
Proof.
  unfold SystemStatusNmeaBase. destruct (loc_nmea_is_debug _ _); [|done]. destruct (find "*" s) as [i|]; [|done].
  rewrite tokenize_pieces; [done|]. rewrite length_insert. lia.
Qed.

(** ** Writing a sentence *)

Fixpoint join (l : list str) : str :=
  match l with [] => [] | [a] => a | a :: l => a ++ ","%char :: join l end.

(** The fields with commas between them, a star, and the checksum. *)
Definition sentence (fields : list str) (checksum : str) : str := join fields ++ "*"%char :: checksum.

Definition plain_field (f : str) : Prop := no "," f ∧ no "*" f.

Lemma join_no_star l : Forall plain_field l → no "*" (join l).
Proof.
  induction 1 as [|a l [_ Ha] Hl IH]; [constructor|]. destruct l as [|b l]; [done|].
  change (join (a :: b :: l)) with (a ++ ","%char :: join (b :: l)).
  apply Forall_app. split; [done|]. by constructor.
Qed.
Lemma join_pieces l s : l ≠ [] → Forall plain_field l → pieces [] (join l ++ ","%char :: s) = l ++ pieces [] s.
Proof.
  intros Hne Hl. induction Hl as [|a l [Ha _] Hl IH]; [done|]. destruct l as [|b l].
  - simpl. by rewrite pieces_app.
  - change (join (a :: b :: l)) with (a ++ ","%char :: join (b :: l)). rewrite <- app_assoc.
    rewrite pieces_app by done. rewrite <- app_comm_cons. cbn [pieces]. rewrite decide_True by done.
    rewrite IH by done. done.
Qed.

Lemma sentence_fields l checksum len :
  l ≠ [] → Forall plain_field l → no "," checksum →
  loc_nmea_is_debug (Some (sentence l checksum)) len = true →
  SystemStatusNmeaBase (sentence l checksum) len = Some l.
Proof.
  intros Hne Hl Hc Hd. rewrite SystemStatusNmeaBase_pieces, Hd. unfold sentence.
  rewrite find_at by by apply join_no_star. rewrite insert_app_r_alt, Nat.sub_diag by lia. simpl.
  by rewrite join_pieces, pieces_none, app_nil_r.
Qed.

(** * The parsers stay within the vector *)

(** [p] ends when there are at least [n] fields. *)
Definition reads {A} (n : nat) (p : Fields A) : Prop := ∀ f, n ≤ length f → ∃ a, p f = Done a f.

Lemma reads_ret {A} n (a : A) : reads n (mret a).
Proof. intros f _. by exists a. Qed.
Lemma reads_field n e : e < n → reads n (mField e).
Proof.
  intros He f Hf. destruct (lookup_lt_is_Some_2 f e ltac:(lia)) as [s Hs]. exists s. by apply deref_done.
Qed.
Lemma reads_bind {A B} n (p : Fields A) (g : A → Fields B) :
  reads n p → (∀ a, reads n (g a)) → reads n (p ≫= g).
Proof.
  intros Hp Hg f Hf. destruct (Hp f Hf) as [a Ea]. rewrite (bind_done _ _ _ _ _ Ea). by apply Hg.
Qed.
Lemma reads_dec n w e : e < n → reads n (dec w e).
Proof. intros. apply reads_bind; [by apply reads_field|]. intros. apply reads_ret. Qed.
Lemma reads_hex n w e : e < n → reads n (hex w e).
Proof. intros. apply reads_bind; [by apply reads_field|]. intros. apply reads_ret. Qed.
Lemma reads_int n e : e < n → reads n (int e).
Proof. intros. apply reads_bind; [by apply reads_field|]. intros. apply reads_ret. Qed.
Lemma reads_dbl n e : e < n → reads n (dbl e).
Proof. intros. apply reads_bind; [by apply reads_field|]. intros. apply reads_ret. Qed.
Lemma reads_flt n e : e < n → reads n (flt e).
Proof. intros. apply reads_bind; [by apply reads_field|]. intros. apply reads_ret. Qed.
#[local] Hint Resolve reads_ret reads_field reads_dec reads_hex reads_int reads_dbl reads_flt : gps.

(** A parser that ends on every vector. *)
Definition total {A} (p : Fields A) : Prop := ∀ f, ∃ a, p f = Done a f.

(** The size the parser looked at is at least the one it needs. *)
Lemma reads_size {A} (g : nat → Fields A) : (∀ n, reads n (g n)) → total (mField_size ≫= g).
Proof. intros Hg f. by destruct (Hg (length f) f) as [a Ha]; [lia|exists a]. Qed.

(** One step of a parser that has a field to read, or a test on the size. *)
Ltac read_step :=
  match goal with
  | |- reads _ (_ ≫= _) => apply reads_bind; [|intros]
  | |- reads _ (if ?b then _ else _) => destruct b eqn:?
  | |- reads _ (match ?x with _ => _ end) => destruct x
  | |- reads _ _ => solve [eauto with gps nocore]
  | |- reads _ _ => first [apply reads_field | apply reads_dec | apply reads_hex | apply reads_int
                          | apply reads_dbl | apply reads_flt]; lia
  end.

Lemma reads_navs n i k : (i + k) * 3 + 2 ≤ n → reads n (PQWP7.navs i k).
Proof.
  revert i. induction k as [|k IH]; intros i Hn; simpl; [apply reads_ret|].
  repeat (apply reads_bind; [first [apply reads_int; lia | apply IH; lia]|intros]). apply reads_ret.
Qed.

Lemma PQWM1_total : total PQWM1.SystemStatusPQWM1parser.
Proof.
  apply reads_size. intros n. destruct (n <=? PQWM1.eMax0) eqn:E0; [apply reads_ret|].
  apply Nat.leb_gt in E0. unfold PQWM1.eMax0 in E0.
  destruct (PQWM1.eLeapSecUnc <? n) eqn:E1, (PQWM1.eGalBpAmpQ <? n) eqn:E2, (PQWM1.eTimeUncNs <? n) eqn:E3;
    rewrite ?Nat.ltb_lt in E1; rewrite ?Nat.ltb_lt in E2; rewrite ?Nat.ltb_lt in E3;
    unfold PQWM1.eLeapSecUnc, PQWM1.eGalBpAmpQ, PQWM1.eTimeUncNs, PQWM1.eGpsWeek, PQWM1.eGpsBpAmpI, PQWM1.eAgcGps in *;
    repeat read_step.
Qed.
(** A parser with a least size: what remains is the part behind the test. *)
Lemma total_from {A} (m : nat) (a : A) (p : Fields A) :
  reads m p → total (size ← mField_size; if size <? m then mret a else p).
Proof.
  intros Hp f. change (∃ b, (if length f <? m then mret a else p) f = Done b f).
  destruct (Nat.ltb_spec (length f) m); [by exists a|]. by apply Hp.
Qed.
Lemma PQWP1_total : ∀ junk, total (PQWP1.SystemStatusPQWP1parser junk).
Proof. intros junk. apply total_from. unfold PQWP1.PQWP1_eMax, PQWP1.eEpiValidity. repeat read_step. Qed.
Lemma PQWP2_total : ∀ junk, total (PQWP2.SystemStatusPQWP2parser junk).
Proof. intros junk. apply total_from. unfold PQWP2.PQWP2_eMax, PQWP2.eBestLat. repeat read_step. Qed.
Lemma PQWP3_total : ∀ junk, total (PQWP3.SystemStatusPQWP3parser junk).
Proof. intros junk. apply total_from. unfold PQWP3.PQWP3_eMax, PQWP3.eXtraValidMask. repeat read_step. Qed.
Lemma PQWP4_total : ∀ junk, total (PQWP4.SystemStatusPQWP4parser junk).
Proof. intros junk. apply total_from. unfold PQWP4.PQWP4_eMax, PQWP4.eGpsEpheValid. repeat read_step. Qed.
Lemma PQWP5_total : ∀ junk, total (PQWP5.SystemStatusPQWP5parser junk).
Proof. intros junk. apply total_from. unfold PQWP5.PQWP5_eMax, PQWP5.eGpsUnknownMask. repeat read_step. Qed.
Lemma PQWP6_total : ∀ junk, total (PQWP6.SystemStatusPQWP6parser junk).
Proof. intros junk. apply total_from. unfold PQWP6.PQWP6_eMax, PQWP6.PQWP6_eFixInfoMask. repeat read_step. Qed.
Lemma PQWS1_total : ∀ junk, total (PQWS1.SystemStatusPQWS1parser junk).
Proof. intros junk. apply total_from. unfold PQWS1.PQWS1_eMax, PQWS1.PQWS1_eFixInfoMask. repeat read_step. Qed.
Lemma PQWP7_total : ∀ junk, total (PQWP7.SystemStatusPQWP7parser junk).
Proof.
  intros junk f. change (∃ b, (if length f <? PQWP7.PQWP7_eMin then mret junk else
    l ← PQWP7.navs 0 (if length f <? PQWP7.PQWP7_eMax then SV_ALL_NUM_MIN else SV_ALL_NUM);
    mret (PQWP7.MkPQWP7 (l ++ replicate (SV_ALL_NUM - (if length f <? PQWP7.PQWP7_eMax then SV_ALL_NUM_MIN else SV_ALL_NUM))
      (MkNav 0 0 0)))) f = Done b f).
  destruct (Nat.ltb_spec (length f) PQWP7.PQWP7_eMin) as [|H0]; [by exists junk|].
  apply (reads_bind (length f)); [|intros; apply reads_ret|done]. apply reads_navs. revert H0.
  destruct (Nat.ltb_spec (length f) PQWP7.PQWP7_eMax) as [|H1]; [|revert H1]; unfold PQWP7.PQWP7_eMin, PQWP7.PQWP7_eMax; lia.
Qed.

Lemma parse_total {A} (p : Fields A) s len : total p → is_Some (parse p s len).
Proof.
  intros Hp. unfold parse. rewrite SystemStatusNmeaBase_pieces. cbn.
  match goal with |- context [outcome_value (p ?f)] => destruct (Hp f) as [a ->] end. by eexists.
Qed.

(** * What is written is read *)

Definition ubits (w z : Z) : Prop := (0 ≤ z < 2 ^ w)%Z.
Definition int32 (z : Z) : Prop := (- 2 ^ 31 ≤ z < 2 ^ 31)%Z.
(** What [strtol] returns of a 64-bit mask: a long has 63 bits and a sign. *)
Definition as_long (z : Z) : Z := Z.min LONG_MAX z.

Lemma no_int c z : digit_val 10 c = None → c ≠ "-"%char → no c (print_int z).
Proof.
  intros Hc Hm. eapply Forall_impl; [apply print_chars|]. intros d [(v & Hd & _)|Hd] ->; congruence.
Qed.
Lemma plain_int z : plain_field (print_int z).
Proof. by split; apply no_int. Qed.
Lemma plain_hex z : ubits 64 z → plain_field (print_hex z).
Proof. intros Hz. split; (eapply Forall_impl; [by apply print_hex_chars|]; intros c (_ & _ & _ & _ & _ & ? & ?); done). Qed.
#[local] Hint Resolve plain_int plain_hex : gps.

(** A sentence of these fields is a debug sentence. *)
Lemma sentence_debug k fs ck len :
  Forall plain_field (k :: fs) → no "," ck → (6 ≤ len ≤ 4096)%Z →
  (∃ r, k = lit "$PQW" ++ r) →
  SystemStatusNmeaBase (sentence (k :: fs) ck) len = Some (k :: fs).
Proof.
  intros Hf Hc Hl [r ->]. apply sentence_fields; [done|done|done|].
  assert (∃ t, sentence ((lit "$PQW" ++ r) :: fs) ck = lit "$PQW" ++ t) as [t ->].
  { unfold sentence. destruct fs as [|f fs]; simpl join; rewrite <- ?app_assoc; eauto. }
  unfold loc_nmea_is_debug, DEBUG_NMEA_MINSIZE, DEBUG_NMEA_MAXSIZE.
  by rewrite (proj2 (Z.leb_le 6 len)), (proj2 (Z.leb_le len 4096)) by lia.
Qed.

(** ** $PQWM1 *)
Section PQWM1.
Import PQWM1.

Definition PQWM1_typed (m : SystemStatusPQWM1) : Prop :=
  ubits 16 (mGpsWeek m) ∧ ubits 32 (mGpsTowMs m) ∧ ubits 8 (mTimeValid m) ∧ ubits 8 (mTimeSource m) ∧
  int32 (mTimeUnc m) ∧ int32 (mClockFreqBias m) ∧ int32 (mClockFreqBiasUnc m) ∧ ubits 8 (mXoState m) ∧
  int32 (mPgaGain m) ∧ ubits 32 (mGpsBpAmpI m) ∧ ubits 32 (mGpsBpAmpQ m) ∧ ubits 32 (mAdcI m) ∧
  ubits 32 (mAdcQ m) ∧ ubits 32 (mJammerGps m) ∧ ubits 32 (mJammerGlo m) ∧ ubits 32 (mJammerBds m) ∧
  ubits 32 (mJammerGal m) ∧ ubits 32 (mRecErrorRecovery m) ∧ int32 (mLeapSeconds m) ∧
  int32 (mLeapSecUnc m) ∧ ubits 32 (mGloBpAmpI m) ∧ ubits 32 (mGloBpAmpQ m) ∧ ubits 32 (mBdsBpAmpI m) ∧
  ubits 32 (mBdsBpAmpQ m) ∧ ubits 32 (mGalBpAmpI m) ∧ ubits 32 (mGalBpAmpQ m) ∧ ubits 64 (mTimeUncNs m).

(** The fields of the sentence that reports [m]; [gps glo bds gal] are the texts of the four gains. *)
Definition PQWM1_fields (m : SystemStatusPQWM1) (gps glo bds gal : str) : list str :=
  (print_int <$> [mGpsWeek m; mGpsTowMs m; mTimeValid m; mTimeSource m; mTimeUnc m; mClockFreqBias m;
    mClockFreqBiasUnc m; mXoState m; mPgaGain m; mGpsBpAmpI m; mGpsBpAmpQ m; mAdcI m; mAdcQ m; mJammerGps m;
    mJammerGlo m; mJammerBds m; mJammerGal m; mRecErrorRecovery m]) ++ [gps; glo; bds; gal] ++
  (print_int <$> [mLeapSeconds m; mLeapSecUnc m; mGloBpAmpI m; mGloBpAmpQ m; mBdsBpAmpI m; mBdsBpAmpQ m;
    mGalBpAmpI m; mGalBpAmpQ m; mTimeUncNs m]).

Definition PQWM1_gains (m : SystemStatusPQWM1) (gps glo bds gal : str) : Prop :=
  Forall plain_field [gps; glo; bds; gal] ∧
  atof gps = mAgcGps m ∧ atof glo = mAgcGlo m ∧ atof bds = mAgcBds m ∧ atof gal = mAgcGal m.

(** What the first [k] fields after the name say of [m]; older firmware sends fewer. *)
Definition PQWM1_known (k : nat) (m : SystemStatusPQWM1) : SystemStatusPQWM1 :=
  if k <? 22 then zeroed
  else
    let leap z := if k <? 24 then 0%Z else z in
    let amp z := if k <? 30 then 0%Z else z in
    MkPQWM1 (mGpsWeek m) (mGpsTowMs m) (mTimeValid m) (mTimeSource m) (mTimeUnc m) (mClockFreqBias m)
      (mClockFreqBiasUnc m) (mXoState m) (mPgaGain m) (mGpsBpAmpI m) (mGpsBpAmpQ m) (mAdcI m) (mAdcQ m)
      (mJammerGps m) (mJammerGlo m) (mJammerBds m) (mJammerGal m) (mRecErrorRecovery m)
      (mAgcGps m) (mAgcGlo m) (mAgcBds m) (mAgcGal m) (leap (mLeapSeconds m)) (leap (mLeapSecUnc m))
      (amp (mGloBpAmpI m)) (amp (mGloBpAmpQ m)) (amp (mBdsBpAmpI m)) (amp (mBdsBpAmpQ m))
      (amp (mGalBpAmpI m)) (amp (mGalBpAmpQ m)) (if k <? 31 then 0%Z else mTimeUncNs m).

Lemma PQWM1_fields_plain m gps glo bds gal : PQWM1_gains m gps glo bds gal → Forall plain_field (PQWM1_fields m gps glo bds gal).
Proof.
  intros [Hp _]. unfold PQWM1_fields. apply Forall_app. split; [|apply Forall_app; split; [done|]];
    apply Forall_fmap, Forall_true; intros; apply plain_int.
Qed.

Lemma PQWM1_on k m gps glo bds gal name :
  k ≤ 31 → PQWM1_typed m → PQWM1_gains m gps glo bds gal →
  outcome_value (SystemStatusPQWM1parser (name :: take k (PQWM1_fields m gps glo bds gal))) =
  Some (PQWM1_known k m).
Proof.
  intros Hk Ht (_ & E1 & E2 & E3 & E4).
  assert (Hu : ∀ w z, w ∈ [8; 16; 32]%Z → ubits w z → uwrap w (atoi (print_int z)) = z).
  { intros w z Hw Hz. apply atoi_print_unsigned; [|done]. set_unfold. lia. }
  assert (Hi : ∀ z, int32 z → atoi (print_int z) = z) by apply atoi_print.
  assert (Hl : ∀ z, ubits 64 z → strtoull (print_int z) 10 = z) by apply strtoull_print.
  destruct Ht as (?&?&?&?&?&?&?&?&?&?&?&?&?&?&?&?&?&?&?&?&?&?&?&?&?&?&?).
  destruct m; simpl in *. subst.
  do 32 (destruct k as [|k]; [
    cbv -[uwrap atoi atof strtoull print_int];
    rewrite ?Hu by (first [set_solver|done]); rewrite ?Hi, ?Hl by done; reflexivity|]).
  lia.
Qed.
End PQWM1.

(** ** $PQWP5 *)
Section PQWP5.
Import PQWP5.

Definition PQWP5_typed (m : SystemStatusPQWP5) : Prop :=
  ubits 32 (mGpsUnknownMask m) ∧ ubits 32 (mGloUnknownMask m) ∧ ubits 64 (mBdsUnknownMask m) ∧
  ubits 64 (mGalUnknownMask m) ∧ ubits 8 (mQzssUnknownMask m) ∧ mNavicUnknownMask m = 0%Z ∧
  ubits 32 (mGpsGoodMask m) ∧ ubits 32 (mGloGoodMask m) ∧ ubits 64 (mBdsGoodMask m) ∧
  ubits 64 (mGalGoodMask m) ∧ ubits 8 (mQzssGoodMask m) ∧ mNavicGoodMask m = 0%Z ∧
  ubits 32 (mGpsBadMask m) ∧ ubits 32 (mGloBadMask m) ∧ ubits 64 (mBdsBadMask m) ∧
  ubits 64 (mGalBadMask m) ∧ ubits 8 (mQzssBadMask m) ∧ mNavicBadMask m = 0%Z.

(** What is read of it: a 64-bit mask with the top bit set as the largest long. *)
Definition PQWP5_read (m : SystemStatusPQWP5) : SystemStatusPQWP5 :=
  MkPQWP5 (mGpsUnknownMask m) (mGloUnknownMask m) (as_long (mBdsUnknownMask m)) (as_long (mGalUnknownMask m))
    (mQzssUnknownMask m) (mNavicUnknownMask m)
    (mGpsGoodMask m) (mGloGoodMask m) (as_long (mBdsGoodMask m)) (as_long (mGalGoodMask m)) (mQzssGoodMask m) (mNavicGoodMask m)
    (mGpsBadMask m) (mGloBadMask m) (as_long (mBdsBadMask m)) (as_long (mGalBadMask m)) (mQzssBadMask m) (mNavicBadMask m).

Definition PQWP5_fields (m : SystemStatusPQWP5) : list str :=
  print_hex <$> [mGpsUnknownMask m; mGloUnknownMask m; mBdsUnknownMask m; mGalUnknownMask m; mQzssUnknownMask m;
    mGpsGoodMask m; mGloGoodMask m; mBdsGoodMask m; mGalGoodMask m; mQzssGoodMask m;
    mGpsBadMask m; mGloBadMask m; mBdsBadMask m; mGalBadMask m; mQzssBadMask m].

Lemma PQWP5_on junk m name time :
  PQWP5_typed m → outcome_value (SystemStatusPQWP5parser junk (name :: time :: PQWP5_fields m)) = Some (PQWP5_read m).
Proof.
  intros Ht. assert (H64 : ∀ z, ubits 64 z → uwrap 64 (strtol (print_hex z) 16) = as_long z).
  { intros z Hz. by apply strtol_print_hex_unsigned. }
  assert (Hu : ∀ w z, w ∈ [8; 32]%Z → ubits w z → uwrap w (strtol (print_hex z) 16) = z).
  { intros w z Hw Hz. rewrite strtol_print_hex_unsigned by (first [done|set_unfold; lia]). apply Z.min_r.
    unfold ubits, LONG_MAX in *. set_unfold. destruct Hw as [->|[->|[]]]; lia. }
  destruct Ht as (?&?&?&?&?&?&?&?&?&?&?&?&?&?&?&?&?&?). destruct m; simpl in *. subst.
  cbv -[uwrap strtol print_hex as_long]. rewrite ?H64 by done. rewrite ?Hu by (first [set_solver|done]). done.
Qed.
Lemma PQWP5_plain m : PQWP5_typed m → Forall plain_field (PQWP5_fields m).
Proof.
  intros Ht. assert (Hm : ∀ w z, (w ≤ 64)%Z → ubits w z → plain_field (print_hex z)).
  { intros w z Hw Hz. apply plain_hex. destruct Hz. split; [done|].
    assert (2 ^ w ≤ 2 ^ 64)%Z by (apply Z.pow_le_mono_r; lia). lia. }
  destruct Ht as (?&?&?&?&?&?&?&?&?&?&?&?&?&?&?&?&?&?). unfold PQWP5_fields. simpl.
  repeat (constructor; [by first [apply (Hm 32%Z); done | apply (Hm 64%Z); done | apply (Hm 8%Z); done]|]). constructor.
Qed.
End PQWP5.

(** ** $PQWP7 *)
Definition nav_typed (n : SystemStatusNav) : Prop := int32 (mType n) ∧ int32 (mSource n) ∧ int32 (mAgeSec n).
Definition nav_fields (n : SystemStatusNav) : list str := [print_int (mType n); print_int (mSource n); print_int (mAgeSec n)].
Definition PQWP7_fields (l : list SystemStatusNav) : list str := l ≫= nav_fields.

Lemma int_on e f z : int32 z → f !! e = Some (print_int z) → int e f = Done z f.
Proof. intros Hz Hf. unfold int. rewrite (bind_done _ _ _ _ _ (deref_done _ _ _ Hf)). by rewrite atoi_print. Qed.

Lemma navs_on l pre : ∀ i, length pre = i * 3 + 2 → Forall nav_typed l →
  PQWP7.navs i (length l) (pre ++ PQWP7_fields l) = Done l (pre ++ PQWP7_fields l).
Proof.
  revert pre. induction l as [|n l IH]; intros pre i Hl Ht; [done|]. simpl length. cbn [PQWP7.navs].
  apply Forall_cons in Ht as [(H1 & H2 & H3) Ht].
  change (PQWP7_fields (n :: l)) with (nav_fields n ++ PQWP7_fields l).
  assert (∀ j x, nav_fields n !! j = Some x → (pre ++ nav_fields n ++ PQWP7_fields l) !! (length pre + j) = Some x) as Hf.
  { intros j x Hj. rewrite lookup_app_r, Nat.add_comm, Nat.add_sub by lia. by apply lookup_app_l_Some. }
  rewrite (bind_done _ _ _ _ _ (int_on (i * 3 + 2) _ _ H1 ltac:(rewrite <- Hl, <- (Nat.add_0_r (length pre)); by apply Hf))).
  rewrite (bind_done _ _ _ _ _ (int_on (i * 3 + 3) _ _ H2 ltac:(replace (i * 3 + 3) with (length pre + 1) by lia; by apply Hf))).
  rewrite (bind_done _ _ _ _ _ (int_on (i * 3 + 4) _ _ H3 ltac:(replace (i * 3 + 4) with (length pre + 2) by lia; by apply Hf))).
  rewrite (app_assoc pre).
  rewrite (bind_done _ _ _ _ _ (IH (pre ++ nav_fields n) (S i) ltac:(rewrite length_app; simpl; lia) Ht)).
  by destruct n.
Qed.

Lemma PQWP7_fields_length l : length (PQWP7_fields l) = length l * 3.
Proof. induction l as [|n l IH]; [done|]. change (S (S (S (length (PQWP7_fields l)))) = S (length l) * 3). lia. Qed.
Lemma PQWP7_plain l : Forall plain_field (PQWP7_fields l).
Proof. induction l as [|n l IH]; [constructor|]. repeat (constructor; [apply plain_int|]). done. Qed.

(** Satellites of the two sizes: with NavIC and without. *)
Lemma PQWP7_on junk l name time :
  length l = SV_ALL_NUM_MIN ∨ length l = SV_ALL_NUM → Forall nav_typed l →
  outcome_value (PQWP7.SystemStatusPQWP7parser junk (name :: time :: PQWP7_fields l)) =
  Some (PQWP7.MkPQWP7 (l ++ replicate (SV_ALL_NUM - length l) (MkNav 0 0 0))).
Proof.
  intros Hl Ht. unfold PQWP7.SystemStatusPQWP7parser.
  set (f := name :: time :: PQWP7_fields l). assert (length f = 2 + length l * 3) as Hf.
  { subst f. simpl. by rewrite PQWP7_fields_length. }
  rewrite (bind_done mField_size _ f (length f) f) by done. rewrite Hf.
  destruct (Nat.ltb_spec (2 + length l * 3) PQWP7.PQWP7_eMin) as [H|_].
  { exfalso. revert H. unfold PQWP7.PQWP7_eMin. destruct Hl as [-> | ->]; unfold SV_ALL_NUM; lia. }
  replace (if 2 + length l * 3 <? PQWP7.PQWP7_eMax then SV_ALL_NUM_MIN else SV_ALL_NUM) with (length l).
  - cbv zeta. assert (PQWP7.navs 0 (length l) f = Done l f) as E by by apply (navs_on l [name; time] 0).
    by rewrite (bind_done _ _ _ _ _ E).
  - unfold PQWP7.PQWP7_eMax. destruct (Nat.ltb_spec (2 + length l * 3) (2 + SV_ALL_NUM * 3)) as [H|H]; destruct Hl as [Hl|Hl];
      rewrite Hl in *; unfold SV_ALL_NUM in *; lia.
Qed.

(** * Properties *)

(** C23: what a debug sentence says is what its parser returns. Of the sentence of the measurement
    engine ($PQWM1) with the first [k] of the 31 fields of a report [m], [k] at least 22, the first
    22 are read as those of [m], every number with its sign and width; the fields after them are
    read by groups, a group only when all of it is there, and as zeros otherwise: the two of the
    leap seconds (from [k] = 24), the six of the amplitudes (from 30), the uncertainty of the time
    (31). Below 22 fields all is zero. The sentence of the health of the satellites ($PQWP5) gives
    its fifteen masks, where a 64-bit mask of 2^63 or more is read as 2^63 - 1; and the one of the
    ephemeris ($PQWP7) gives a triple for each of 134 or 148 satellites. *)
Theorem debug_sentences_read :
  (∀ k m gps glo bds gal ck len,
     k ≤ 31 → PQWM1_typed m → PQWM1_gains m gps glo bds gal → no "," ck → (6 ≤ len ≤ 4096)%Z →
     parse PQWM1.SystemStatusPQWM1parser (sentence (lit "$PQWM1" :: take k (PQWM1_fields m gps glo bds gal)) ck) len =
     Some (PQWM1_known k m)) ∧
  (∀ junk m time ck len,
     PQWP5_typed m → plain_field time → no "," ck → (6 ≤ len ≤ 4096)%Z →
     parse (PQWP5.SystemStatusPQWP5parser junk) (sentence (lit "$PQWP5" :: time :: PQWP5_fields m) ck) len = Some (PQWP5_read m)) ∧
  (∀ junk l time ck len,
     length l = SV_ALL_NUM_MIN ∨ length l = SV_ALL_NUM → Forall nav_typed l →
     plain_field time → no "," ck → (6 ≤ len ≤ 4096)%Z →
     parse (PQWP7.SystemStatusPQWP7parser junk) (sentence (lit "$PQWP7" :: time :: PQWP7_fields l) ck) len =
     Some (PQWP7.MkPQWP7 (l ++ replicate (SV_ALL_NUM - length l) (MkNav 0 0 0)))).
Proof.
  assert (∀ n, n ∈ [lit "$PQWM1"; lit "$PQWP5"; lit "$PQWP7"] → plain_field n ∧ ∃ r, n = lit "$PQW" ++ r) as Hn.
  { intros n Hn. set_unfold. destruct Hn as [-> | [-> | [-> | []]]];
      (split; [split; by apply (bool_decide_unpack _)|eexists; reflexivity]). }
  split_and!.
  - intros k m gps glo bds gal ck len Hk Ht Hg Hc Hl. unfold parse.
    destruct (Hn (lit "$PQWM1") ltac:(set_solver)) as [Hp Hr].
    rewrite sentence_debug; [by apply PQWM1_on| |done..]. constructor; [done|]. by apply Forall_take, PQWM1_fields_plain.
  - intros junk m time ck len Ht Htm Hc Hl. unfold parse. destruct (Hn (lit "$PQWP5") ltac:(set_solver)) as [Hp Hr].
    rewrite sentence_debug; [by apply PQWP5_on| |done..]. do 2 (constructor; [done|]). by apply PQWP5_plain.
  - intros junk l time ck len Hs Ht Htm Hc Hl. unfold parse. destruct (Hn (lit "$PQWP7") ltac:(set_solver)) as [Hp Hr].
    rewrite sentence_debug; [by apply PQWP7_on| |done..]. do 2 (constructor; [done|]). apply PQWP7_plain.
Qed.
Lemma debug_sentences_read_witness :
  let m := PQWM1.MkPQWM1 2048 4294967295 1 2 (-5) 0 0 3 (-7) 1 2 3 4 5 6 7 8 9 (atof (lit "1.5")) (atof (lit "2"))
    (atof (lit "1e1")) (atof (lit "0.25")) 18 0 0 0 0 0 0 0 0 in
  parse PQWM1.SystemStatusPQWM1parser
    (sentence (lit "$PQWM1" :: take 23 (PQWM1_fields m (lit "1.5") (lit "2") (lit "1e1") (lit "0.25"))) (lit "3F")) 85 =
  Some (PQWM1_known 23 m).
Proof.
  apply (proj1 debug_sentences_read).
  - lia.
  - unfold PQWM1_typed, ubits, int32; simpl. lia.
  - split; [|done]. repeat (constructor; [split; by apply (bool_decide_unpack _)|]). constructor.
  - by apply (bool_decide_unpack _).
  - lia.
Defined.
