(* ===== verification/SystemStatusItems.v ===== *)
(** * The items of gps/core/SystemStatus.h : what the reports hold.

    One Module per class derived from SystemStatusItemBase: its members, the constructor from the
    struct of a debug sentence, and [equals], which becomes an instance of [ReportItem]. The classes
    that wrap a data item hold the data item; those of one Boolean or one string are that value. *)
From S2P Require Import Prelude CString ReportItem NmeaDebug.

(** Most classes keep the [ignore] and [collate] of the base. *)
Definition plain_item {A} (eq : A → A → bool) : ReportItem A :=
  {| equals := eq; collate s _ := s; ignore _ := false |}.

(** ** SystemStatusTimeAndClock *)
Module TimeAndClock.
Record SystemStatusTimeAndClock := Mk {
  mGpsWeek : Z; mGpsTowMs : Z; mTimeValid : Z; mTimeSource : Z; mTimeUnc : Z;
  mClockFreqBias : Z; mClockFreqBiasUnc : Z; mLeapSeconds : Z; mLeapSecUnc : Z;
  mTimeUncNs : Z;
}.
Definition TimeAndClock_initial : SystemStatusTimeAndClock := Mk 0 0 0 0 0 0 0 0 0 0.
Definition TimeAndClock_of_nmea (nmea : PQWM1.SystemStatusPQWM1) : SystemStatusTimeAndClock :=
  Mk (PQWM1.mGpsWeek nmea) (PQWM1.mGpsTowMs nmea) (PQWM1.mTimeValid nmea)
    (PQWM1.mTimeSource nmea) (PQWM1.mTimeUnc nmea) (PQWM1.mClockFreqBias nmea)
    (PQWM1.mClockFreqBiasUnc nmea) (PQWM1.mLeapSeconds nmea) (PQWM1.mLeapSecUnc nmea)
    (PQWM1.mTimeUncNs nmea).
Definition TimeAndClock_equals (self peer : SystemStatusTimeAndClock) : bool :=
  (mGpsWeek self =? mGpsWeek peer)%Z && (mGpsTowMs self =? mGpsTowMs peer)%Z &&
  (mTimeValid self =? mTimeValid peer)%Z && (mTimeSource self =? mTimeSource peer)%Z &&
  (mTimeUnc self =? mTimeUnc peer)%Z && (mClockFreqBias self =? mClockFreqBias peer)%Z &&
  (mClockFreqBiasUnc self =? mClockFreqBiasUnc peer)%Z &&
  (mLeapSeconds self =? mLeapSeconds peer)%Z && (mLeapSecUnc self =? mLeapSecUnc peer)%Z &&
  (mTimeUncNs self =? mTimeUncNs peer)%Z.
#[global] Instance TimeAndClock_item : ReportItem SystemStatusTimeAndClock := plain_item TimeAndClock_equals.
End TimeAndClock.

(** ** SystemStatusXoState *)
Module XoState.
Record SystemStatusXoState := Mk {
  mXoState : Z;
}.
Definition XoState_initial : SystemStatusXoState := Mk 0.
Definition XoState_of_nmea (nmea : PQWM1.SystemStatusPQWM1) : SystemStatusXoState :=
  Mk (PQWM1.mXoState nmea).
Definition XoState_equals (self peer : SystemStatusXoState) : bool :=
  (mXoState self =? mXoState peer)%Z.
#[global] Instance XoState_item : ReportItem SystemStatusXoState := plain_item XoState_equals.
End XoState.

(** ** SystemStatusRfAndParams *)
Module RfAndParams.
Record SystemStatusRfAndParams := Mk {
  mPgaGain : Z; mGpsBpAmpI : Z; mGpsBpAmpQ : Z; mAdcI : Z; mAdcQ : Z; mJammerGps : Z;
  mJammerGlo : Z; mJammerBds : Z; mJammerGal : Z; mAgcGps : double; mAgcGlo : double;
  mAgcBds : double; mAgcGal : double; mGloBpAmpI : Z; mGloBpAmpQ : Z; mBdsBpAmpI : Z;
  mBdsBpAmpQ : Z; mGalBpAmpI : Z; mGalBpAmpQ : Z;
}.
Definition RfAndParams_initial : SystemStatusRfAndParams := Mk 0 0 0 0 0 0 0 0 0 zero_double zero_double zero_double zero_double 0 0 0 0 0 0.
Definition RfAndParams_of_nmea (nmea : PQWM1.SystemStatusPQWM1) : SystemStatusRfAndParams :=
  Mk (PQWM1.mPgaGain nmea) (PQWM1.mGpsBpAmpI nmea) (PQWM1.mGpsBpAmpQ nmea) (PQWM1.mAdcI nmea)
    (PQWM1.mAdcQ nmea) (PQWM1.mJammerGps nmea) (PQWM1.mJammerGlo nmea) (PQWM1.mJammerBds nmea)
    (PQWM1.mJammerGal nmea) (PQWM1.mAgcGps nmea) (PQWM1.mAgcGlo nmea) (PQWM1.mAgcBds nmea)
    (PQWM1.mAgcGal nmea) (PQWM1.mGloBpAmpI nmea) (PQWM1.mGloBpAmpQ nmea) (PQWM1.mBdsBpAmpI nmea)
    (PQWM1.mBdsBpAmpQ nmea) (PQWM1.mGalBpAmpI nmea) (PQWM1.mGalBpAmpQ nmea).
Definition RfAndParams_equals (self peer : SystemStatusRfAndParams) : bool :=
  (mPgaGain self =? mPgaGain peer)%Z && (mGpsBpAmpI self =? mGpsBpAmpI peer)%Z &&
  (mGpsBpAmpQ self =? mGpsBpAmpQ peer)%Z && (mAdcI self =? mAdcI peer)%Z &&
  (mAdcQ self =? mAdcQ peer)%Z && (mJammerGps self =? mJammerGps peer)%Z &&
  (mJammerGlo self =? mJammerGlo peer)%Z && (mJammerBds self =? mJammerBds peer)%Z &&
  (mJammerGal self =? mJammerGal peer)%Z && feq (mAgcGps self) (mAgcGps peer) &&
  feq (mAgcGlo self) (mAgcGlo peer) && feq (mAgcBds self) (mAgcBds peer) &&
  feq (mAgcGal self) (mAgcGal peer) && (mGloBpAmpI self =? mGloBpAmpI peer)%Z &&
  (mGloBpAmpQ self =? mGloBpAmpQ peer)%Z && (mBdsBpAmpI self =? mBdsBpAmpI peer)%Z &&
  (mBdsBpAmpQ self =? mBdsBpAmpQ peer)%Z && (mGalBpAmpI self =? mGalBpAmpI peer)%Z &&
  (mGalBpAmpQ self =? mGalBpAmpQ peer)%Z.
#[global] Instance RfAndParams_item : ReportItem SystemStatusRfAndParams := plain_item RfAndParams_equals.
End RfAndParams.

(** ** SystemStatusErrRecovery : ignored when there was none *)
Module ErrRecovery.
Record SystemStatusErrRecovery := Mk {
  mRecErrorRecovery : Z;
}.
Definition ErrRecovery_initial : SystemStatusErrRecovery := Mk 0.
Definition ErrRecovery_of_nmea (nmea : PQWM1.SystemStatusPQWM1) : SystemStatusErrRecovery :=
  Mk (PQWM1.mRecErrorRecovery nmea).
Definition ErrRecovery_equals (self peer : SystemStatusErrRecovery) : bool :=
  (mRecErrorRecovery self =? mRecErrorRecovery peer)%Z.
#[global] Instance ErrRecovery_item : ReportItem SystemStatusErrRecovery :=
  {| equals := ErrRecovery_equals; collate s _ := s; ignore s := (0 =? mRecErrorRecovery s)%Z |}.
End ErrRecovery.

(** ** SystemStatusInjectedPosition *)
Module InjectedPosition.
Record SystemStatusInjectedPosition := Mk {
  mEpiValidity : Z; mEpiLat : float; mEpiLon : float; mEpiAlt : float; mEpiHepe : float;
  mEpiAltUnc : float; mEpiSrc : Z;
}.
Definition InjectedPosition_initial : SystemStatusInjectedPosition := Mk 0 zero_double zero_double zero_double zero_double zero_double 0.
Definition InjectedPosition_of_nmea (nmea : PQWP1.SystemStatusPQWP1) : SystemStatusInjectedPosition :=
  Mk (PQWP1.mEpiValidity nmea) (PQWP1.mEpiLat nmea) (PQWP1.mEpiLon nmea) (PQWP1.mEpiAlt nmea)
    (PQWP1.mEpiHepe nmea) (PQWP1.mEpiAltUnc nmea) (PQWP1.mEpiSrc nmea).
Definition InjectedPosition_equals (self peer : SystemStatusInjectedPosition) : bool :=
  (mEpiValidity self =? mEpiValidity peer)%Z && feq (mEpiLat self) (mEpiLat peer) &&
  feq (mEpiLon self) (mEpiLon peer) && feq (mEpiAlt self) (mEpiAlt peer) &&
  feq (mEpiHepe self) (mEpiHepe peer) && feq (mEpiAltUnc self) (mEpiAltUnc peer) &&
  (mEpiSrc self =? mEpiSrc peer)%Z.
#[global] Instance InjectedPosition_item : ReportItem SystemStatusInjectedPosition := plain_item InjectedPosition_equals.
End InjectedPosition.

(** ** SystemStatusBestPosition : [equals] does not look at [mValid] *)
Module BestPosition.
Record SystemStatusBestPosition := Mk {
  mValid : bool; mBestLat : float; mBestLon : float; mBestAlt : float; mBestHepe : float;
  mBestAltUnc : float;
}.
Definition BestPosition_initial : SystemStatusBestPosition := Mk false zero_double zero_double zero_double zero_double zero_double.
Definition BestPosition_of_nmea (nmea : PQWP2.SystemStatusPQWP2) : SystemStatusBestPosition :=
  Mk true (PQWP2.mBestLat nmea) (PQWP2.mBestLon nmea) (PQWP2.mBestAlt nmea)
    (PQWP2.mBestHepe nmea) (PQWP2.mBestAltUnc nmea).
Definition BestPosition_equals (self peer : SystemStatusBestPosition) : bool :=
  feq (mBestLat self) (mBestLat peer) && feq (mBestLon self) (mBestLon peer) &&
  feq (mBestAlt self) (mBestAlt peer) && feq (mBestHepe self) (mBestHepe peer) &&
  feq (mBestAltUnc self) (mBestAltUnc peer).
#[global] Instance BestPosition_item : ReportItem SystemStatusBestPosition := plain_item BestPosition_equals.
End BestPosition.

(** ** SystemStatusXtra *)
Module Xtra.
Record SystemStatusXtra := Mk {
  mXtraValidMask : Z; mGpsXtraAge : Z; mGloXtraAge : Z; mBdsXtraAge : Z; mGalXtraAge : Z;
  mQzssXtraAge : Z; mNavicXtraAge : Z; mGpsXtraValid : Z; mGloXtraValid : Z;
  mBdsXtraValid : Z; mGalXtraValid : Z; mQzssXtraValid : Z; mNavicXtraValid : Z;
}.
Definition Xtra_initial : SystemStatusXtra := Mk 0 0 0 0 0 0 0 0 0 0 0 0 0.
Definition Xtra_of_nmea (nmea : PQWP3.SystemStatusPQWP3) : SystemStatusXtra :=
  Mk (PQWP3.mXtraValidMask nmea) (PQWP3.mGpsXtraAge nmea) (PQWP3.mGloXtraAge nmea)
    (PQWP3.mBdsXtraAge nmea) (PQWP3.mGalXtraAge nmea) (PQWP3.mQzssXtraAge nmea)
    (PQWP3.mNavicXtraAge nmea) (PQWP3.mGpsXtraValid nmea) (PQWP3.mGloXtraValid nmea)
    (PQWP3.mBdsXtraValid nmea) (PQWP3.mGalXtraValid nmea) (PQWP3.mQzssXtraValid nmea)
    (PQWP3.mNavicXtraValid nmea).
Definition Xtra_equals (self peer : SystemStatusXtra) : bool :=
  (mXtraValidMask self =? mXtraValidMask peer)%Z && (mGpsXtraAge self =? mGpsXtraAge peer)%Z &&
  (mGloXtraAge self =? mGloXtraAge peer)%Z && (mBdsXtraAge self =? mBdsXtraAge peer)%Z &&
  (mGalXtraAge self =? mGalXtraAge peer)%Z && (mQzssXtraAge self =? mQzssXtraAge peer)%Z &&
  (mNavicXtraAge self =? mNavicXtraAge peer)%Z && (mGpsXtraValid self =? mGpsXtraValid peer)%Z &&
  (mGloXtraValid self =? mGloXtraValid peer)%Z && (mBdsXtraValid self =? mBdsXtraValid peer)%Z &&
  (mGalXtraValid self =? mGalXtraValid peer)%Z &&
  (mQzssXtraValid self =? mQzssXtraValid peer)%Z &&
  (mNavicXtraValid self =? mNavicXtraValid peer)%Z.
#[global] Instance Xtra_item : ReportItem SystemStatusXtra := plain_item Xtra_equals.
End Xtra.

(** ** SystemStatusEphemeris *)
Module Ephemeris.
Record SystemStatusEphemeris := Mk {
  mGpsEpheValid : Z; mGloEpheValid : Z; mBdsEpheValid : Z; mGalEpheValid : Z;
  mQzssEpheValid : Z;
}.
Definition Ephemeris_initial : SystemStatusEphemeris := Mk 0 0 0 0 0.
Definition Ephemeris_of_nmea (nmea : PQWP4.SystemStatusPQWP4) : SystemStatusEphemeris :=
  Mk (PQWP4.mGpsEpheValid nmea) (PQWP4.mGloEpheValid nmea) (PQWP4.mBdsEpheValid nmea)
    (PQWP4.mGalEpheValid nmea) (PQWP4.mQzssEpheValid nmea).
Definition Ephemeris_equals (self peer : SystemStatusEphemeris) : bool :=
  (mGpsEpheValid self =? mGpsEpheValid peer)%Z && (mGloEpheValid self =? mGloEpheValid peer)%Z &&
  (mBdsEpheValid self =? mBdsEpheValid peer)%Z && (mGalEpheValid self =? mGalEpheValid peer)%Z &&
  (mQzssEpheValid self =? mQzssEpheValid peer)%Z.
#[global] Instance Ephemeris_item : ReportItem SystemStatusEphemeris := plain_item Ephemeris_equals.
End Ephemeris.

(** ** SystemStatusSvHealth : [equals] does not look at the masks of NavIC *)
Module SvHealth.
Record SystemStatusSvHealth := Mk {
  mGpsUnknownMask : Z; mGloUnknownMask : Z; mBdsUnknownMask : Z; mGalUnknownMask : Z;
  mQzssUnknownMask : Z; mNavicUnknownMask : Z; mGpsGoodMask : Z; mGloGoodMask : Z;
  mBdsGoodMask : Z; mGalGoodMask : Z; mQzssGoodMask : Z; mNavicGoodMask : Z; mGpsBadMask : Z;
  mGloBadMask : Z; mBdsBadMask : Z; mGalBadMask : Z; mQzssBadMask : Z; mNavicBadMask : Z;
}.
Definition SvHealth_initial : SystemStatusSvHealth := Mk 0 0 0 0 0 0 0 0 0 0 0 0 0 0 0 0 0 0.
Definition SvHealth_of_nmea (nmea : PQWP5.SystemStatusPQWP5) : SystemStatusSvHealth :=
  Mk (PQWP5.mGpsUnknownMask nmea) (PQWP5.mGloUnknownMask nmea) (PQWP5.mBdsUnknownMask nmea)
    (PQWP5.mGalUnknownMask nmea) (PQWP5.mQzssUnknownMask nmea) (PQWP5.mNavicUnknownMask nmea)
    (PQWP5.mGpsGoodMask nmea) (PQWP5.mGloGoodMask nmea) (PQWP5.mBdsGoodMask nmea)
    (PQWP5.mGalGoodMask nmea) (PQWP5.mQzssGoodMask nmea) (PQWP5.mNavicGoodMask nmea)
    (PQWP5.mGpsBadMask nmea) (PQWP5.mGloBadMask nmea) (PQWP5.mBdsBadMask nmea)
    (PQWP5.mGalBadMask nmea) (PQWP5.mQzssBadMask nmea) (PQWP5.mNavicBadMask nmea).
Definition SvHealth_equals (self peer : SystemStatusSvHealth) : bool :=
  (mGpsUnknownMask self =? mGpsUnknownMask peer)%Z &&
  (mGloUnknownMask self =? mGloUnknownMask peer)%Z &&
  (mBdsUnknownMask self =? mBdsUnknownMask peer)%Z &&
  (mGalUnknownMask self =? mGalUnknownMask peer)%Z &&
  (mQzssUnknownMask self =? mQzssUnknownMask peer)%Z &&
  (mGpsGoodMask self =? mGpsGoodMask peer)%Z && (mGloGoodMask self =? mGloGoodMask peer)%Z &&
  (mBdsGoodMask self =? mBdsGoodMask peer)%Z && (mGalGoodMask self =? mGalGoodMask peer)%Z &&
  (mQzssGoodMask self =? mQzssGoodMask peer)%Z && (mGpsBadMask self =? mGpsBadMask peer)%Z &&
  (mGloBadMask self =? mGloBadMask peer)%Z && (mBdsBadMask self =? mBdsBadMask peer)%Z &&
  (mGalBadMask self =? mGalBadMask peer)%Z && (mQzssBadMask self =? mQzssBadMask peer)%Z.
#[global] Instance SvHealth_item : ReportItem SystemStatusSvHealth := plain_item SvHealth_equals.
End SvHealth.

(** ** SystemStatusPdr *)
Module Pdr.
Record SystemStatusPdr := Mk {
  mFixInfoMask : Z;
}.
Definition Pdr_initial : SystemStatusPdr := Mk 0.
Definition Pdr_of_nmea (nmea : PQWP6.SystemStatusPQWP6) : SystemStatusPdr :=
  Mk (PQWP6.mFixInfoMask nmea).
Definition Pdr_equals (self peer : SystemStatusPdr) : bool :=
  (mFixInfoMask self =? mFixInfoMask peer)%Z.
#[global] Instance Pdr_item : ReportItem SystemStatusPdr := plain_item Pdr_equals.
End Pdr.

(** ** SystemStatusNavData *)
Module NavData.
Record SystemStatusNavData := Mk { mNav : list SystemStatusNav }.
Definition NavData_initial : SystemStatusNavData := Mk (replicate SV_ALL_NUM (MkNav 0 0 0)).
(** The loop copies [SV_ALL_NUM] elements. *)
Definition NavData_of_nmea (nmea : PQWP7.SystemStatusPQWP7) : SystemStatusNavData := Mk (take SV_ALL_NUM (PQWP7.mNav nmea)).
Fixpoint equals_loop (a b : list SystemStatusNav) : bool :=
  match a, b with
  | x :: a, y :: b =>
      if (mType x =? mType y)%Z && (mSource x =? mSource y)%Z && (mAgeSec x =? mAgeSec y)%Z then equals_loop a b else false
  | _, _ => true
  end.
Definition NavData_equals (self peer : SystemStatusNavData) : bool := equals_loop (mNav self) (mNav peer).
#[global] Instance NavData_item : ReportItem SystemStatusNavData := plain_item NavData_equals.
End NavData.

(** ** SystemStatusPositionFailure *)
Module PositionFailure.
Record SystemStatusPositionFailure := Mk {
  mFixInfoMask : Z; mHepeLimit : Z;
}.
Definition PositionFailure_initial : SystemStatusPositionFailure := Mk 0 0.
Definition PositionFailure_of_nmea (nmea : PQWS1.SystemStatusPQWS1) : SystemStatusPositionFailure :=
  Mk (PQWS1.mFixInfoMask nmea) (PQWS1.mHepeLimit nmea).
Definition PositionFailure_equals (self peer : SystemStatusPositionFailure) : bool :=
  (mFixInfoMask self =? mFixInfoMask peer)%Z && (mHepeLimit self =? mHepeLimit peer)%Z.
#[global] Instance PositionFailure_item : ReportItem SystemStatusPositionFailure := plain_item PositionFailure_equals.
End PositionFailure.

(** ** SystemStatusLocation

    A LocGpsLocation is its members; GpsLocationExtended is copied as a whole, as its bytes. *)
Module Location.
Record LocGpsLocation := MkGps {
  size : Z; flags : Z; spoof_mask : Z; latitude : double; longitude : double; altitude : double;
  speed : float; bearing : float; accuracy : float; vertUncertainity : float;
  timestamp : Z; elapsedRealTime : Z; elapsedRealTimeUnc : Z;
}.
Record UlpLocation := MkUlp {
  ulp_size : Z; gpsLocation : LocGpsLocation; position_source : Z; tech_mask : Z; unpropagatedPosition : bool;
}.
Definition GpsLocationExtended : Type := list Z.
Record SystemStatusLocation := Mk { mValid : bool; mLocation : UlpLocation; mLocationEx : GpsLocationExtended }.
(** The default constructor sets [mValid] only: the rest is what was in memory. *)
Definition Location_initial (junk : UlpLocation) (junkEx : GpsLocationExtended) : SystemStatusLocation := Mk false junk junkEx.
Definition Location_make (location : UlpLocation) (locationEx : GpsLocationExtended) : SystemStatusLocation :=
  Mk true location locationEx.
Definition Location_equals (self peer : SystemStatusLocation) : bool :=
  let a := gpsLocation (mLocation self) in
  let b := gpsLocation (mLocation peer) in
  feq (latitude a) (latitude b) && feq (longitude a) (longitude b) && feq (altitude a) (altitude b).
#[global] Instance Location_item : ReportItem SystemStatusLocation := plain_item Location_equals.
End Location.

(** ** The items that wrap a data item *)

(** A class with one Boolean, one int or one string. *)
#[export] Instance bool_item : ReportItem bool := plain_item Bool.eqb.
#[export] Instance int_item : ReportItem Z := plain_item Z.eqb.
#[export] Instance string_item : ReportItem str := plain_item (λ a b, bool_decide (a = b)).

(** TimeZoneChangeDataItemBase and TimeChangeDataItemBase *)
Record TimeChange := MkTimeChange { mCurrTimeMillis : Z; mRawOffsetTZ : Z; mDstOffsetTZ : Z }.
Definition time_equals (self peer : TimeChange) : bool :=
  (mCurrTimeMillis self =? mCurrTimeMillis peer)%Z && (mRawOffsetTZ self =? mRawOffsetTZ peer)%Z &&
  (mDstOffsetTZ self =? mDstOffsetTZ peer)%Z.
#[export] Instance time_item : ReportItem TimeChange := plain_item time_equals.

(** The pointer [mData] of RilServiceInfoDataItemBase and RilCellInfoDataItemBase: the copy made by
    [setPeerData], compared as a pointer. *)
Record RilInfo := MkRil { mData : ptr }.
Definition ril_equals (self peer : RilInfo) : bool := bool_decide (mData peer = mData self).
#[export] Instance ril_item : ReportItem RilInfo := plain_item ril_equals.

(** WifiSupplicantStatusDataItemBase *)
Record WifiSupplicantStatus := MkWifi {
  mState : Z; mApMacAddressValid : bool; mApMacAddress : list Z; mWifiApSsidValid : bool; mWifiApSsid : str;
}.
Definition wifi_equals (self peer : WifiSupplicantStatus) : bool :=
  (mState self =? mState peer)%Z && Bool.eqb (mApMacAddressValid self) (mApMacAddressValid peer) &&
  Bool.eqb (mWifiApSsidValid self) (mWifiApSsidValid peer) && bool_decide (mWifiApSsid self = mWifiApSsid peer).
#[export] Instance wifi_item : ReportItem WifiSupplicantStatus := plain_item wifi_equals.

(** SrnDeviceScanDetailsDataItemBase, the base of the two Bluetooth scans *)
Record SrnDeviceScanDetails := MkSrn {
  mValidSrnData : bool; mApSrnRssi : Z; mApSrnMacAddress : list Z; mApSrnTimestamp : Z;
  mRequestTimestamp : Z; mReceiveTimestamp : Z; mErrorCause : Z;
}.
Definition srn_equals (self peer : SrnDeviceScanDetails) : bool :=
  (mApSrnRssi self =? mApSrnRssi peer)%Z && bool_decide (mApSrnMacAddress self = mApSrnMacAddress peer) &&
  (mApSrnTimestamp self =? mApSrnTimestamp peer)%Z && (mRequestTimestamp self =? mRequestTimestamp peer)%Z &&
  (mReceiveTimestamp self =? mReceiveTimestamp peer)%Z.
#[export] Instance srn_item : ReportItem SrnDeviceScanDetails := plain_item srn_equals.
