(* ===== verification/NetworkInfo.v ===== *)
(** * SystemStatusNetworkInfo of gps/core/SystemStatus.h : the table of the connected networks.

    A data item about one network carries the table of all of them: [collate] starts from the
    table of the last report, adds or deletes the network, and writes the result back to the data
    item it came from. [updated_source] is that write. *)
From S2P Require Import Prelude CString ReportItem.

(** ** gps/core/data-items/DataItemConcreteTypesBase.h *)

(** The enumeration NetworkType; members of that type hold any int. *)
Definition TYPE_MOBILE : Z := 0.
Definition TYPE_WIFI : Z := 1.
Definition TYPE_UNKNOWN : Z := 10.

Definition NETWORK_HANDLE_UNKNOWN : Z := uwrap 64 (-1).
Definition MAX_NETWORK_HANDLES : nat := 10.

Record NetworkInfoType := Network { networkHandle : Z; networkType : Z }.
#[export] Instance NetworkInfoType_eq_dec : EqDecision NetworkInfoType.
Proof. solve_decision. Defined.

(** The default constructor. *)
Definition no_network : NetworkInfoType := Network NETWORK_HANDLE_UNKNOWN TYPE_UNKNOWN.

Record NetworkInfoDataItemBase := NetworkInfo {
  mAllTypes : Z;
  mType : Z;
  mTypeName : str;
  mSubTypeName : str;
  mAvailable : bool;
  mConnected : bool;
  mRoaming : bool;
  mAllNetworkHandles : list NetworkInfoType;
  mNetworkHandle : Z;
  mApn : str;
}.

Definition typeToAllTypes (type : Z) : Z :=
  if (TYPE_UNKNOWN <=? type)%Z || (type <? TYPE_MOBILE)%Z then 0%Z else Z.shiftl 1 type.

Definition mk_NetworkInfoDataItemBase (initialType type : Z) (typeName subTypeName : str)
    (available connected roaming : bool) (handle : Z) (apn : str) : NetworkInfoDataItemBase :=
  NetworkInfo (typeToAllTypes initialType) type typeName subTypeName available connected roaming
    (Network handle initialType :: replicate (MAX_NETWORK_HANDLES - 1) no_network) handle apn.

(** ** gps/core/SystemStatus.h *)

(** The constructor from the members; there is no source object. *)
Definition SystemStatusNetworkInfo (type : Z) (typeName subTypeName : str) (connected roaming : bool)
    (handle : Z) (apn : str) : NetworkInfoDataItemBase :=
  mk_NetworkInfoDataItemBase type type typeName subTypeName (connected && negb roaming) connected roaming handle apn.

Definition network_equals (self peer : NetworkInfoDataItemBase) : bool :=
  Bool.eqb (mConnected peer) (mConnected self) &&
  bool_decide (mAllNetworkHandles self = mAllNetworkHandles peer) &&
  bool_decide (mApn peer = mApn self).

(** The loop that looks for the handle or for a free place. *)
Fixpoint table_add (h t : Z) (l : list NetworkInfoType) : list NetworkInfoType :=
  match l with
  | [] => []
  | n :: l' =>
      if decide (h = networkHandle n) then l
      else if decide (NETWORK_HANDLE_UNKNOWN = networkHandle n) then Network h t :: l'
      else n :: table_add h t l'
  end.

(** The loop over the valid places: [deletedIndex], [lastValidIndex], [typeCount]. *)
Fixpoint table_scan (h t : Z) (l : list NetworkInfoType) (deleted last count : nat) : nat * nat * nat :=
  match l with
  | [] => (deleted, last, count)
  | n :: l' =>
      if decide (NETWORK_HANDLE_UNKNOWN = networkHandle n) then (deleted, last, count)
      else if decide (t = networkType n) then
        if decide (h = networkHandle n) then table_scan h t l' last (S last) count
        else table_scan h t l' deleted (S last) (S count)
      else table_scan h t l' deleted (S last) count
  end.

(** What the last valid place moves into the deleted one. *)
Definition table_delete (deleted last : nat) (l : list NetworkInfoType) : list NetworkInfoType :=
  if decide (MAX_NETWORK_HANDLES = deleted) then l
  else <[last := no_network]> (<[deleted := default no_network (l !! last)]> l).

Definition network_collate (s cur : NetworkInfoDataItemBase) : NetworkInfoDataItemBase :=
  let allTypes := mAllTypes cur in
  let table := mAllNetworkHandles cur in
  let apn := if negb (mType s =? TYPE_MOBILE)%Z && negb (bool_decide (mApn cur = [])) then mApn cur else mApn s in
  let '(types, table) :=
    if mConnected s then (Z.lor (mAllTypes s) allTypes, table_add (mNetworkHandle s) (mType s) table)
    else if (mAllTypes s =? 0)%Z then (mAllTypes s, table)
    else
      let '(deleted, last, count) :=
        table_scan (mNetworkHandle s) (mType s) table MAX_NETWORK_HANDLES 0 0 in
      (if decide (count = 0) then Z.ldiff allTypes (mAllTypes s) else mAllTypes s,
       table_delete deleted (last - 1) table) in
  NetworkInfo types (mType s) (mTypeName s) (mSubTypeName s) (mAvailable s) (mConnected s) (mRoaming s)
    table (mNetworkHandle s) apn.

#[export] Instance network_item : ReportItem NetworkInfoDataItemBase := {
  equals := network_equals;
  collate := network_collate;
  ignore _ := false;
}.

(** [mSrcObjPtr->mAllTypes = mAllTypes], and the table. *)
Definition updated_source (src s : NetworkInfoDataItemBase) : NetworkInfoDataItemBase :=
  NetworkInfo (mAllTypes s) (mType src) (mTypeName src) (mSubTypeName src) (mAvailable src) (mConnected src)
    (mRoaming src) (mAllNetworkHandles s) (mNetworkHandle src) (mApn src).

(** * Specification : the networks that are connected, by handle *)

(** What one data item says of the networks that are connected: one came, or one went. *)
Definition came_or_went (m : gmap Z Z) (s : NetworkInfoDataItemBase) : gmap Z Z :=
  if mConnected s then <[mNetworkHandle s := mType s]> m else delete (mNetworkHandle s) m.

(** What the table records of it: a network that comes is added unless its handle is unknown or
    listed already, with whatever type, or there is no place; one that goes is deleted when its
    type is known to the mask of types and the one it is listed with. *)
Definition net_step (m : gmap Z Z) (s : NetworkInfoDataItemBase) : gmap Z Z :=
  let h := mNetworkHandle s in
  if mConnected s then
    if bool_decide (h = NETWORK_HANDLE_UNKNOWN) || bool_decide (is_Some (m !! h)) || (MAX_NETWORK_HANDLES <=? size m)
    then m else <[h := mType s]> m
  else if (mAllTypes s =? 0)%Z then m
  else if decide (m !! h = Some (mType s)) then delete h m else m.

Definition pair_of (n : NetworkInfoType) : Z * Z := (networkHandle n, networkType n).
Definition live (n : NetworkInfoType) : Prop := networkHandle n ≠ NETWORK_HANDLE_UNKNOWN.

(** The map that a table stands for. *)
Definition table_of (l : list NetworkInfoType) : gmap Z Z := list_to_map (pair_of <$> filter live l).

(** Ten places; the valid ones come first, with different handles. *)
Definition table_ok (l : list NetworkInfoType) : Prop :=
  length l = MAX_NETWORK_HANDLES ∧
  ∃ a f, l = a ++ f ∧ Forall live a ∧ Forall (λ n, ¬ live n) f ∧ NoDup (networkHandle <$> a).

Lemma filter_live a f : Forall live a → Forall (λ n, ¬ live n) f → filter live (a ++ f) = a.
Proof. intros Ha Hf. by rewrite filter_app, filter_all, filter_none, app_nil_r. Qed.

Lemma pairs_fst a : (pair_of <$> a).*1 = networkHandle <$> a.
Proof. by rewrite <- list_fmap_compose. Qed.

Definition map_of (a : list NetworkInfoType) : gmap Z Z := list_to_map (pair_of <$> a).

Lemma map_of_lookup a h t : NoDup (networkHandle <$> a) → map_of a !! h = Some t ↔ Network h t ∈ a.
Proof.
  intros Hn. unfold map_of. rewrite <- elem_of_list_to_map by by rewrite pairs_fst.
  rewrite list_elem_of_fmap. split.
  - intros ([h' t'] & E & Hin). by injection E as [= -> ->].
  - intros Hin. by exists (Network h t).
Qed.
Lemma map_of_none a h : map_of a !! h = None ↔ h ∉ networkHandle <$> a.
Proof. unfold map_of. by rewrite <- not_elem_of_list_to_map, pairs_fst. Qed.
Lemma map_of_size a : NoDup (networkHandle <$> a) → size (map_of a) = length a.
Proof. intros Hn. unfold map_of. rewrite map_size_list_to_map by by rewrite pairs_fst. apply length_fmap. Qed.
Lemma map_of_perm a b : NoDup (networkHandle <$> a) → a ≡ₚ b → map_of a = map_of b.
Proof.
  intros Hn Hp. apply list_to_map_proper; [by rewrite pairs_fst|]. by apply Permutation_map.
Qed.

(** ** Adding *)
Lemma table_add_live h t a f :
  Forall live a → h ∉ networkHandle <$> a → table_add h t (a ++ f) = a ++ table_add h t f.
Proof.
  induction 1 as [|n a Hn Ha IH]; intros Hh; simpl; [done|]. rewrite fmap_cons, not_elem_of_cons in Hh.
  rewrite decide_False by tauto. rewrite decide_False by (intros E; by apply Hn). f_equal. apply IH. tauto.
Qed.
Lemma table_add_known h t l :
  h ∈ networkHandle <$> l → Forall live l → ∀ f, table_add h t (l ++ f) = l ++ f.
Proof.
  intros Hh Hl f. induction Hl as [|n l Hn Hl IH]; [by apply elem_of_nil in Hh|]. simpl.
  destruct (decide (h = networkHandle n)) as [|Hne]; [done|].
  rewrite decide_False by (intros E; by apply Hn). f_equal. apply IH. rewrite fmap_cons in Hh.
  apply elem_of_cons in Hh. tauto.
Qed.

Lemma not_live n : ¬ live n → networkHandle n = NETWORK_HANDLE_UNKNOWN.
Proof. intros Hn. by destruct (decide (networkHandle n = NETWORK_HANDLE_UNKNOWN)). Qed.

Lemma table_add_ok h t l :
  table_ok l →
  table_ok (table_add h t l) ∧
  table_of (table_add h t l) =
    if bool_decide (h = NETWORK_HANDLE_UNKNOWN) || bool_decide (is_Some (table_of l !! h)) ||
       (MAX_NETWORK_HANDLES <=? size (table_of l))
    then table_of l else <[h := t]> (table_of l).
Proof.
  intros (Hl & a & f & -> & Ha & Hf & Hn). unfold table_of at 2 3 4 5. rewrite filter_live by done.
  fold (map_of a). rewrite map_of_size by done.
  assert (Hsame : table_ok (a ++ f)) by (split; [done|]; by exists a, f).
  assert (Hof : table_of (a ++ f) = map_of a) by (unfold table_of; by rewrite filter_live).
  destruct (decide (h ∈ networkHandle <$> a)) as [Hin|Hin].
  { rewrite table_add_known by done. split; [done|]. rewrite (bool_decide_eq_true_2 (is_Some _)), orb_true_r; [done|].
    destruct (map_of a !! h) eqn:E; [done|]. by apply map_of_none in E. }
  rewrite table_add_live by done.
  rewrite (bool_decide_eq_false_2 (is_Some _)) by (rewrite (proj2 (map_of_none a h)); [by intros [? ?]|done]).
  rewrite orb_false_r. destruct f as [|n f].
  { cbn [table_add]. rewrite app_nil_r in *. rewrite (proj2 (Nat.leb_le _ _)), orb_true_r by lia. done. }
  rewrite (proj2 (Nat.leb_gt _ _)), orb_false_r by (rewrite length_app in Hl; simpl in Hl; lia).
  apply Forall_cons in Hf as [Hn0 Hf]. apply not_live in Hn0. simpl table_add. rewrite Hn0.
  case_bool_decide as Hu; [by rewrite decide_True|]. rewrite decide_False, decide_True by done.
  assert (Ha' : Forall live (a ++ [Network h t])) by (apply Forall_app; split; [done|]; by constructor).
  replace (a ++ Network h t :: f) with ((a ++ [Network h t]) ++ f) by by rewrite <- app_assoc. split.
  - split; [rewrite !length_app in *; simpl in *; lia|]. exists (a ++ [Network h t]), f. split_and!; [done..|].
    rewrite fmap_app. apply NoDup_app. split_and!; [done| |apply NoDup_singleton]. simpl. set_solver.
  - unfold table_of. rewrite filter_live by done. fold (map_of (a ++ [Network h t])).
    rewrite (map_of_perm _ (Network h t :: a)); [change (<[h:=t]> (map_of a) = <[h:=t]> (table_of (a ++ n :: f))); by rewrite Hof| |by rewrite Permutation_app_comm].
    rewrite fmap_app. apply NoDup_app. split_and!; [done| |apply NoDup_singleton]. simpl. set_solver.
Qed.

(** ** Deleting *)

Lemma triple_eq {A B C} (a a' : A) (b b' : B) (c c' : C) : a = a' → b = b' → c = c' → (a, b, c) = (a', b', c').
Proof. congruence. Qed.

(** The other valid places of the type. *)
Definition others (h t : Z) (a : list NetworkInfoType) : list NetworkInfoType :=
  filter (λ n, networkType n = t ∧ networkHandle n ≠ h) a.

Lemma table_scan_absent h t a f d k c :
  Forall live a → Forall (λ n, ¬ live n) f → Network h t ∉ a →
  table_scan h t (a ++ f) d k c = (d, k + length a, c + length (others h t a)).
Proof.
  intros Ha Hf Hin. revert k c. induction Ha as [|n a Hn Ha IH]; intros k c; simpl app.
  - rewrite !Nat.add_0_r. destruct Hf as [|n f Hn Hf]; [done|]. simpl. apply not_live in Hn. by rewrite Hn, decide_True.
  - apply not_elem_of_cons in Hin as [Hne Hin]. simpl. rewrite decide_False by (intros E; by apply Hn).
    unfold others. rewrite filter_cons. destruct (decide (t = networkType n)) as [->|Ht].
    + rewrite decide_False by (intros ->; by destruct n). rewrite IH by done. rewrite decide_True.
      * apply triple_eq; unfold others; simpl; lia.
      * split; [done|]. intros <-. by destruct n.
    + rewrite IH by done. rewrite decide_False by (intros [? ?]; congruence). apply triple_eq; unfold others; simpl; lia.
Qed.

Lemma table_scan_present h t a b f d k c :
  Forall live (a ++ Network h t :: b) → Forall (λ n, ¬ live n) f → NoDup (networkHandle <$> a ++ Network h t :: b) →
  table_scan h t ((a ++ Network h t :: b) ++ f) d k c =
  (k + length a, k + length (a ++ Network h t :: b), c + length (others h t (a ++ Network h t :: b))).
Proof.
  intros Ha Hf Hn. revert k c. induction a as [|n a IH]; intros k c.
  - simpl app in *. apply Forall_cons in Ha as [Hl Ha]. cbn [table_scan]. rewrite decide_False by (intros E; by apply Hl).
    simpl networkType. simpl networkHandle. rewrite !decide_True by done.
    rewrite table_scan_absent; [|done|done|].
    + unfold others. rewrite filter_cons_False by (simpl; tauto). apply triple_eq; simpl; lia.
    + intros Hin. rewrite fmap_cons in Hn. apply NoDup_cons in Hn as [Hn _]. apply Hn.
      apply list_elem_of_fmap. by exists (Network h t).
  - simpl app in *. apply Forall_cons in Ha as [Hl Ha]. rewrite fmap_cons in Hn. apply NoDup_cons in Hn as [Hnin Hn].
    cbn [table_scan]. rewrite decide_False by (intros E; by apply Hl).
    assert (h ≠ networkHandle n) as Hh.
    { intros ->. apply Hnin, list_elem_of_fmap. exists (Network (networkHandle n) t). split; [done|]. set_solver. }
    unfold others. rewrite filter_cons. destruct (decide (t = networkType n)) as [->|Ht].
    + rewrite decide_False by done. rewrite IH by done. rewrite decide_True by done. unfold others.
      apply triple_eq; simpl; lia.
    + rewrite IH by done. rewrite decide_False by (intros [? ?]; congruence). unfold others. apply triple_eq; simpl; lia.
Qed.

(** The last valid place moves into the deleted one. *)
Lemma table_delete_split n a b f :
  length (a ++ n :: b) ≤ MAX_NETWORK_HANDLES →
  ∃ a', table_delete (length a) (length (a ++ n :: b) - 1) ((a ++ n :: b) ++ f) = a' ++ no_network :: f ∧
        a ++ n :: b ≡ₚ n :: a'.
Proof.
  intros Hl. unfold table_delete.
  rewrite decide_False by (rewrite length_app in Hl; simpl in Hl; lia).
  destruct (last_snoc_inv b) as [-> | (b' & z & ->)].
  - exists a. split; [|by rewrite Permutation_app_comm]. rewrite length_app. simpl.
    replace (length a + 1 - 1) with (length a) by lia. rewrite <- app_assoc. simpl.
    rewrite insert_app_r_alt, Nat.sub_diag by lia. simpl. by rewrite insert_app_r_alt, Nat.sub_diag by lia.
  - exists (a ++ z :: b'). split.
    + replace (length (a ++ n :: b' ++ [z]) - 1) with (length (a ++ n :: b')) by (rewrite !length_app; simpl; rewrite length_app; simpl; lia).
      replace ((a ++ n :: b' ++ [z]) ++ f) with ((a ++ n :: b') ++ z :: f) by (rewrite <- !app_assoc; simpl; by rewrite <- app_assoc).
      rewrite lookup_app_r, Nat.sub_diag by lia. simpl.
      rewrite insert_app_l by (rewrite length_app; simpl; lia). rewrite (insert_app_r_alt a _ (length a)), Nat.sub_diag by lia. simpl.
      rewrite insert_app_r_alt by (rewrite !length_app; simpl; lia).
      by replace (length (a ++ n :: b') - length (a ++ z :: b')) with 0 by (rewrite !length_app; simpl; lia).
    + rewrite !(Permutation_app_comm a). simpl. rewrite (Permutation_app_comm b' [z]). simpl. reflexivity.
Qed.

Lemma others_none h t a :
  NoDup (networkHandle <$> a) → length (others h t a) = 0 ↔ ∀ h', map_of a !! h' = Some t → h' = h.
Proof.
  intros Hn. rewrite length_zero_iff_nil. unfold others. split.
  - intros E h' Hh'. apply map_of_lookup in Hh'; [|done]. destruct (decide (h' = h)) as [|Hne]; [done|].
    assert (Network h' t ∈ filter (λ n, networkType n = t ∧ networkHandle n ≠ h) a) as H by by apply list_elem_of_filter.
    rewrite E in H. by apply elem_of_nil in H.
  - intros Hall. apply filter_none, Forall_forall. intros n Hin [<- Hne]. apply Hne, Hall.
    apply map_of_lookup; [done|]. by destruct n.
Qed.

Lemma table_delete_ok h t l :
  table_ok l →
  let '(d, k, c) := table_scan h t l MAX_NETWORK_HANDLES 0 0 in
  let l' := table_delete d (k - 1) l in
  table_ok l' ∧
  table_of l' = (if decide (table_of l !! h = Some t) then delete h (table_of l) else table_of l) ∧
  (c = 0 ↔ ∀ h', table_of l !! h' = Some t → h' = h).
Proof.
  intros (Hl & a & f & -> & Ha & Hf & Hn).
  assert (Hof : table_of (a ++ f) = map_of a) by (unfold table_of; by rewrite filter_live).
  rewrite Hof. destruct (decide (map_of a !! h = Some t)) as [Hin|Hin]; rewrite map_of_lookup in Hin by done.
  - apply list_elem_of_split in Hin as (b & b' & ->). rewrite table_scan_present by done. rewrite !Nat.add_0_l.
    destruct (table_delete_split (Network h t) b b' f) as (a' & -> & Hp).
    { rewrite length_app in Hl. lia. }
    assert (Ha' : Forall live a') by (rewrite Hp in Ha; by apply Forall_cons in Ha as [_ ?]).
    assert (Hn' : NoDup (networkHandle <$> Network h t :: a')) by by rewrite <- Hp.
    assert (Hf' : Forall (λ n, ¬ live n) (no_network :: f)) by (constructor; [by intros H; apply H|done]).
    rewrite fmap_cons in Hn'. apply NoDup_cons in Hn' as [Hh Hn']. cbv zeta. split_and!.
    + split; [|by exists a', (no_network :: f)]. apply Permutation_length in Hp. rewrite !length_app in *. simpl in *. lia.
    + unfold table_of. rewrite filter_live by done. fold (map_of a'). rewrite (map_of_perm _ _ Hn Hp).
      change (map_of (Network h t :: a')) with (<[h := t]> (map_of a')). rewrite delete_insert_id; [done|].
      by apply map_of_none.
    + by rewrite others_none.
  - rewrite table_scan_absent by done. cbv zeta. rewrite !Nat.add_0_l, others_none by done.
    unfold table_delete. rewrite decide_True by done. split; [|done]. split; [done|]. by exists a, f.
Qed.

(** ** One data item *)
Lemma network_collate_ok s cur :
  table_ok (mAllNetworkHandles cur) →
  let s' := network_collate s cur in
  let m := table_of (mAllNetworkHandles cur) in
  table_ok (mAllNetworkHandles s') ∧ table_of (mAllNetworkHandles s') = net_step m s ∧
  mConnected s' = mConnected s ∧
  mAllTypes s' =
    (if mConnected s then Z.lor (mAllTypes s) (mAllTypes cur)
     else if (mAllTypes s =? 0)%Z then mAllTypes s
     else if bool_decide (map_Forall (λ h' t, t = mType s → h' = mNetworkHandle s) m) then Z.ldiff (mAllTypes cur) (mAllTypes s)
     else mAllTypes s).
Proof.
  intros Hok. unfold network_collate, net_step. destruct (mConnected s) eqn:Ec; simpl.
  - destruct (table_add_ok (mNetworkHandle s) (mType s) _ Hok) as [H1 H2]. split_and!; [done|by rewrite H2|done..].
  - destruct (mAllTypes s =? 0)%Z eqn:E0; [done|].
    pose proof (table_delete_ok (mNetworkHandle s) (mType s) _ Hok) as Hd.
    destruct (table_scan _ _ _ _ _ _) as [[d k] c]. destruct Hd as (H1 & H2 & H3). simpl.
    split_and!; [done|done|done|]. destruct (decide (c = 0)) as [Hc|Hc].
    + rewrite bool_decide_eq_true_2; [done|]. intros h' t Hh' ->. by apply H3.
    + rewrite bool_decide_eq_false_2; [done|]. intros Hall. apply Hc, H3. intros h' Hh'. by apply (Hall h' (mType s) Hh').
Qed.

(** [mAllTypes] has the bit of a type exactly when a network of that type is connected. *)
Definition types_exact (types : Z) (m : gmap Z Z) : Prop :=
  ∀ i, (0 ≤ i)%Z → Z.testbit types i = true ↔ (i < TYPE_UNKNOWN)%Z ∧ ∃ h, m !! h = Some i.

(** An item about a network of a known type: one that comes has a place, one that goes is the only
    one of its type. *)
Definition tidy (m : gmap Z Z) (s : NetworkInfoDataItemBase) : Prop :=
  (TYPE_MOBILE ≤ mType s < TYPE_UNKNOWN)%Z ∧ mAllTypes s = typeToAllTypes (mType s) ∧
  if mConnected s then
    mNetworkHandle s ≠ NETWORK_HANDLE_UNKNOWN ∧
    (m !! mNetworkHandle s = Some (mType s) ∨ m !! mNetworkHandle s = None ∧ size m < MAX_NETWORK_HANDLES)
  else ∀ h, m !! h = Some (mType s) → h = mNetworkHandle s.

Fixpoint all_tidy (m : gmap Z Z) (ss : list NetworkInfoDataItemBase) : Prop :=
  match ss with [] => True | s :: ss => tidy m s ∧ all_tidy (net_step m s) ss end.

Lemma testbit_type t i : (TYPE_MOBILE ≤ t < TYPE_UNKNOWN)%Z → (0 ≤ i)%Z → Z.testbit (typeToAllTypes t) i = bool_decide (i = t).
Proof.
  intros Ht Hi. unfold typeToAllTypes, TYPE_UNKNOWN, TYPE_MOBILE in *.
  rewrite (proj2 (Z.leb_gt _ _)), (proj2 (Z.ltb_ge _ _)) by lia. simpl.
  rewrite Z.shiftl_spec by lia. case_bool_decide as E; [subst; by rewrite Z.sub_diag|].
  destruct (Z.ltb_spec (i - t) 0); [by apply Z.testbit_neg_r|]. destruct (i - t)%Z as [|p|p] eqn:Ep; [lia| |lia].
  by destruct p.
Qed.

Lemma tidy_exact types m s :
  tidy m s → types_exact types m →
  types_exact
    (if mConnected s then Z.lor (mAllTypes s) types
     else if (mAllTypes s =? 0)%Z then mAllTypes s
     else if bool_decide (map_Forall (λ h' t, t = mType s → h' = mNetworkHandle s) m) then Z.ldiff types (mAllTypes s)
     else mAllTypes s) (net_step m s).
Proof.
  intros (Ht & Ea & Hs) Hx i Hi. unfold net_step. rewrite Ea. destruct (mConnected s).
  - destruct Hs as [Hu Hs]. rewrite (bool_decide_eq_false_2 _ Hu), Z.lor_spec, testbit_type, orb_true_iff, (Hx i Hi), bool_decide_eq_true by done.
    destruct Hs as [Hs|[Hs Hz]].
    + rewrite Hs, (bool_decide_eq_true_2 (is_Some _)) by done. simpl. split; [|tauto]. intros [->|]; [|done].
      split; [lia|eauto].
    + rewrite Hs, (bool_decide_eq_false_2 (is_Some _)), (proj2 (Nat.leb_gt _ _)) by (try lia; by intros [? ?]). simpl.
      split.
      * intros [->|(Hi' & h & Hh)]; [split; [lia|]; exists (mNetworkHandle s); by rewrite lookup_insert_eq|].
        split; [done|]. exists h. rewrite lookup_insert_ne; [done|]. congruence.
      * intros (Hi' & h & Hh). rewrite lookup_insert in Hh. case_decide; [left; congruence|right; eauto].
  - assert (typeToAllTypes (mType s) ≠ 0%Z) as Hz.
    { intros E. pose proof (testbit_type (mType s) (mType s) Ht) as Hb. rewrite E, Z.bits_0, bool_decide_eq_true_2 in Hb by done.
      by specialize (Hb ltac:(unfold TYPE_MOBILE in *; lia)). }
    rewrite (proj2 (Z.eqb_neq _ _) Hz), bool_decide_eq_true_2 by (intros h' t Hh' ->; by apply Hs).
    rewrite Z.ldiff_spec, testbit_type, andb_true_iff, (Hx i Hi), negb_true_iff, bool_decide_eq_false by done.
    case_decide as Hm.
    + split.
      * intros [(Hi' & h & Hh) Hne]. split; [done|]. exists h. rewrite lookup_delete_ne; [done|]. congruence.
      * intros (Hi' & h & Hh). apply lookup_delete_Some in Hh as [Hne Hh]. split; [split; [done|eauto]|].
        intros ->. by apply Hne, eq_sym, Hs.
    + split; [tauto|]. intros (Hi' & h & Hh). split; [split; [done|eauto]|]. intros ->.
      apply Hm. by rewrite <- (Hs h Hh).
Qed.

(** An item that the table records as it is meant: of a network of a known type, which is listed
    with no other type, and which, when it comes, has a handle and a place. *)
Definition regular (m : gmap Z Z) (s : NetworkInfoDataItemBase) : Prop :=
  (TYPE_MOBILE ≤ mType s < TYPE_UNKNOWN)%Z ∧ mAllTypes s = typeToAllTypes (mType s) ∧
  (∀ t, m !! mNetworkHandle s = Some t → t = mType s) ∧
  (mConnected s = true → mNetworkHandle s ≠ NETWORK_HANDLE_UNKNOWN ∧
     (is_Some (m !! mNetworkHandle s) ∨ size m < MAX_NETWORK_HANDLES)).
Fixpoint all_regular (m : gmap Z Z) (ss : list NetworkInfoDataItemBase) : Prop :=
  match ss with [] => True | s :: ss => regular m s ∧ all_regular (came_or_went m s) ss end.

Lemma regular_step m s : regular m s → net_step m s = came_or_went m s.
Proof.
  intros (Ht & Ea & Hm & Hc). unfold net_step, came_or_went. destruct (mConnected s).
  - destruct (Hc eq_refl) as [Hu Hp]. rewrite (bool_decide_eq_false_2 _ Hu).
    destruct (m !! mNetworkHandle s) as [t|] eqn:E.
    + rewrite bool_decide_eq_true_2 by done. simpl. rewrite (Hm t) in E by done. by rewrite insert_id.
    + destruct Hp as [[]|Hp]; [done|]. by rewrite bool_decide_eq_false_2, (proj2 (Nat.leb_gt _ _)) by (try lia; by intros []).
  - assert (typeToAllTypes (mType s) ≠ 0%Z) as Hz.
    { intros E. pose proof (testbit_type (mType s) (mType s) Ht) as Hb. rewrite E, Z.bits_0, bool_decide_eq_true_2 in Hb by done.
      by specialize (Hb ltac:(unfold TYPE_MOBILE in *; lia)). }
    rewrite Ea, (proj2 (Z.eqb_neq _ _) Hz). case_decide as Hd; [done|]. symmetry. apply delete_id.
    destruct (m !! mNetworkHandle s) as [t|] eqn:E; [|done]. destruct Hd. by rewrite (Hm t).
Qed.
Lemma regular_steps m ss : all_regular m ss → foldl net_step m ss = foldl came_or_went m ss.
Proof. revert m. induction ss as [|s ss IH]; intros m; [done|]. intros [Hs Hss]. simpl. rewrite regular_step by done. by apply IH. Qed.

(** ** A history of data items *)

(** A data item as its constructor makes it. *)
Definition fresh (s : NetworkInfoDataItemBase) : Prop :=
  mAllNetworkHandles s = Network (mNetworkHandle s) (mType s) :: replicate (MAX_NETWORK_HANDLES - 1) no_network ∧
  mAllTypes s = typeToAllTypes (mType s).

(** The first item is recorded as it is, whether its network came or went. *)
Definition net_first (s : NetworkInfoDataItemBase) : gmap Z Z :=
  if decide (mNetworkHandle s = NETWORK_HANDLE_UNKNOWN) then ∅ else {[mNetworkHandle s := mType s]}.

Lemma fresh_table s : fresh s → table_ok (mAllNetworkHandles s) ∧ table_of (mAllNetworkHandles s) = net_first s.
Proof.
  intros [E _]. rewrite E. set (f := replicate (MAX_NETWORK_HANDLES - 1) no_network).
  assert (Hf : Forall (λ n, ¬ live n) f) by (subst f; apply Forall_replicate; intros H; by apply H).
  unfold net_first. destruct (decide (mNetworkHandle s = NETWORK_HANDLE_UNKNOWN)) as [Hu|Hu].
  - assert (Hf' : Forall (λ n, ¬ live n) (Network (mNetworkHandle s) (mType s) :: f)) by (constructor; [intros H; by apply H|done]).
    split; [|unfold table_of; by rewrite filter_none]. split; [done|]. exists [], (Network (mNetworkHandle s) (mType s) :: f).
    split_and!; [done|constructor|done|apply NoDup_nil_2].
  - assert (Ha : Forall live [Network (mNetworkHandle s) (mType s)]) by by constructor.
    split; [|unfold table_of; change (?x :: f) with ([x] ++ f); by rewrite filter_live].
    split; [done|]. exists [Network (mNetworkHandle s) (mType s)], f. split_and!; [done..|]. apply NoDup_singleton.
Qed.

Definition set_items (l : list (timespec * NetworkInfoDataItemBase)) : list (SystemStatusItemBase NetworkInfoDataItemBase) :=
  foldl report_step [] ((λ p, Set_ (item p.1 p.2)) <$> l).

(** What the newest report says. *)
Definition net_report (m : gmap Z Z) (c : bool) (exact : Prop) (r : list (SystemStatusItemBase NetworkInfoDataItemBase)) : Prop :=
  ∃ b, last r = Some b ∧ table_ok (mAllNetworkHandles (body b)) ∧ table_of (mAllNetworkHandles (body b)) = m ∧
    mConnected (body b) = c ∧ (exact → types_exact (mAllTypes (body b)) m).

Lemma net_report_step m c (exact : Prop) r t s :
  net_report m c exact r →
  net_report (net_step m s) (mConnected s) (exact ∧ tidy m s) (report_step r (Set_ (item t s))).
Proof.
  intros (b & Hb & Hok & <- & <- & Hx).
  destruct (setIteminReport_last r (item t s) b Hb) as (b' & Hb' & Eb); [done|].
  destruct (network_collate_ok s (body b) Hok) as (H1 & H2 & H3 & H4). cbv zeta in *. simpl body in Eb.
  change (collate s (body b)) with (network_collate s (body b)) in Eb.
  set (s' := network_collate s (body b)) in *. exists b'. split; [done|].
  change (equals (body b) s') with (network_equals (body b) s') in Eb.
  destruct (network_equals (body b) s') eqn:Ee; rewrite Eb.
  - unfold network_equals in Ee. apply andb_true_iff in Ee as [[Ec Et]%andb_true_iff _].
    apply bool_decide_eq_true in Et. apply Bool.eqb_prop in Ec. rewrite <- Et in H2.
    rewrite <- H2. split_and!; [done|done|congruence|]. intros [He _]. by apply Hx.
  - split_and!; [done..|]. intros [He Ht]. rewrite H4. apply tidy_exact; auto.
Qed.

Lemma net_report_steps m c (exact : Prop) r l :
  net_report m c exact r →
  net_report (foldl net_step m l.*2) (default c (mConnected <$> last l.*2)) (exact ∧ all_tidy m l.*2)
    (foldl report_step r ((λ p, Set_ (item p.1 p.2)) <$> l)).
Proof.
  revert m c exact r. induction l as [|[t s] l IH]; intros m c exact r Hr.
  - destruct Hr as (b & ? & ? & ? & ? & Hx). exists b. split_and!; [done..|]. intros [? _]. auto.
  - apply (net_report_step _ _ _ _ t s) in Hr. apply IH in Hr. destruct Hr as (b & ? & ? & ? & Hc & Hx).
    exists b. split_and!; [done..| |].
    + rewrite Hc. change ((((t, s) :: l).*2)) with (s :: l.*2). rewrite last_cons. by destruct (last l.*2).
    + intros [He [Ht Hs]]. by apply Hx.
Qed.

(** * Properties *)

(** C16: the newest network report carries the table of the networks. For every sequence of data
    items about networks, the first made by its constructor, the newest report's table has the
    valid places first, each handle once, and stands for the map that records them one after the
    other: the first item's network whether it came or went, a network that comes unless its
    handle is unknown, listed already, or the ten places are taken, and a network that goes only
    deletes an entry with its handle and its type, if the type is known. The report says
    whether the last network came or went. So if the first network came and every further item is
    of a known type, of a handle not listed with another, and has a place if its network comes,
    the table is exactly the networks that came and did not go. The mask of types is exact as long
    as, besides, a network that goes is the only one of its type. *)
Theorem networks_tracked t s l :
  fresh s →
  ∃ b, last (set_items ((t, s) :: l)) = Some b ∧
    table_ok (mAllNetworkHandles (body b)) ∧
    table_of (mAllNetworkHandles (body b)) = foldl net_step (net_first s) l.*2 ∧
    mConnected (body b) = default (mConnected s) (mConnected <$> last l.*2) ∧
    (all_regular ∅ (s :: l.*2) → mConnected s = true →
     table_of (mAllNetworkHandles (body b)) = foldl came_or_went ∅ (s :: l.*2)) ∧
    ((TYPE_MOBILE ≤ mType s < TYPE_UNKNOWN)%Z ∧ mNetworkHandle s ≠ NETWORK_HANDLE_UNKNOWN ∧
     all_tidy (net_first s) l.*2 →
     types_exact (mAllTypes (body b)) (foldl net_step (net_first s) l.*2)).
Proof.
  intros Hf. destruct (fresh_table s Hf) as [Hok Hof].
  assert (net_report (net_first s) (mConnected s)
    ((TYPE_MOBILE ≤ mType s < TYPE_UNKNOWN)%Z ∧ mNetworkHandle s ≠ NETWORK_HANDLE_UNKNOWN) (report_step [] (Set_ (item t s)))) as H0.
  { exists (item t s). split_and!; [done..|]. intros [Ht Hu] i Hi. simpl body. rewrite (proj2 Hf), testbit_type, bool_decide_eq_true by done.
    unfold net_first. rewrite decide_False by done. split; [intros ->; split; [lia|]; exists (mNetworkHandle s); by rewrite lookup_singleton_eq|].
    intros (_ & h & [_ <-]%lookup_singleton_Some). done. }
  destruct (net_report_steps _ _ _ _ l H0) as (b & Hb & H1 & H2 & H3 & H4).
  exists b. split_and!; [done..| |intros (Ht & Hu & Hl); by apply H4].
  intros [(_ & _ & _ & Hc) Hl] Hup. destruct (Hc Hup) as [Hu _]. rewrite H2. simpl in Hl |- *.
  assert (came_or_went ∅ s = net_first s) as Ef by (unfold came_or_went, net_first; by rewrite Hup, decide_False).
  rewrite Ef in *. by apply regular_steps.
Qed.
Lemma networks_tracked_witness :
  let up t h := (Timespec 0 0, SystemStatusNetworkInfo t [] [] true false h []) in
  let down t h := (Timespec 1 0, SystemStatusNetworkInfo t [] [] false false h []) in
  ∃ b, last (set_items [up 0 7; up 1 8; down 0 7]%Z) = Some b ∧
    table_of (mAllNetworkHandles (body b)) = {[8 := 1]}%Z ∧ types_exact (mAllTypes (body b)) {[8 := 1]}%Z.
Proof.
  intros up down. set (l := [up 1 8; down 0 7]%Z).
  destruct (networks_tracked (Timespec 0 0) (up 0 7)%Z.2 l) as (b & Hb & _ & Ht & _ & _ & Hx); [by split|].
  exists b. split; [done|].
  assert (foldl net_step (net_first (up 0 7)%Z.2) l.*2 = {[8 := 1]}%Z) as E by by apply (bool_decide_unpack _).
  rewrite E in Ht, Hx. split; [done|]. apply Hx. split; [by unfold TYPE_MOBILE, TYPE_UNKNOWN; simpl; lia|]. split; [done|].
  simpl. unfold tidy, TYPE_MOBILE, TYPE_UNKNOWN. simpl. split_and!; try done; try lia.
  - right. split; [done|]. apply (bool_decide_unpack _). by vm_compute.
  - assert (net_step (net_first (SystemStatusNetworkInfo 0 [] [] true false 7 [])) (SystemStatusNetworkInfo 1 [] [] true false 8 []) =
      {[7 := 0; 8 := 1]}%Z) as E2 by by apply (bool_decide_unpack _).
    intros h Hh. rewrite E2 in Hh.
    apply lookup_insert_Some in Hh as [[<- _]|[_ Hh]]; [done|]. apply lookup_singleton_Some in Hh as [_ Hh]. lia.
Defined.

(** Where the table misleads. A first report about a network that went lists it as connected;
    when one of two Wi-Fi networks goes, the mask forgets the mobile network that stays; a network
    of a type beyond the enumeration is added when it comes and never deleted, so that after ten of
    them a new network has no place. *)
Theorem networks_misread :
  let up t h := (Timespec 0 0, SystemStatusNetworkInfo t [] [] true false h []) in
  let down t h := (Timespec 0 0, SystemStatusNetworkInfo t [] [] false false h []) in
  let newest l := (λ b, (mAllTypes (body b), map_to_list (table_of (mAllNetworkHandles (body b))))) <$> last (set_items l) in
  newest [down 1 7]%Z = Some (2, [(7, 1)])%Z ∧
  newest [up 0 5; up 1 7; up 1 8; down 1 8]%Z = Some (2, [(7, 1); (5, 0)])%Z ∧
  (λ b, (size (table_of (mAllNetworkHandles (body b))), table_of (mAllNetworkHandles (body b)) !! 99%Z)) <$>
    last (set_items ((seq 0 10 ≫= (λ h, [up 17 (Z.of_nat h); down 17 (Z.of_nat h)]%Z)) ++ [up 1 99]%Z)) = Some (10, None).
Proof. vm_compute. done. Qed.
