(* ===== verification/SystemStatus.v ===== *)
(** * gps/core/SystemStatus.cpp : the cache of what the system and the receiver last reported.

    The cache has one report per kind of item. [setNmeaString] fills it from the debug sentences
    of the receiver, [eventPosition] from its positions, [eventDataItemNotify] from the data items
    that the observer hands over: SystemStatus is the implementation of the interface
    [SystemStatusI] of OsObserver. The clock is a sequence of times, one per reading. *)
From S2P Require Import Prelude CString SetMap OsObserver ReportItem NmeaDebug SystemStatusItems NetworkInfo.

(** ** The kinds of items *)
Inductive Kind :=
  | KLocation | KTimeAndClock | KXoState | KRfAndParams | KErrRecovery | KInjectedPosition
  | KBestPosition | KXtra | KEphemeris | KSvHealth | KPdr | KNavData | KPositionFailure
  | KAirplaneMode | KENH | KGPSState | KNLPStatus | KWifiHardwareState | KNetworkInfo
  | KRilServiceInfo | KRilCellInfo | KServiceStatus | KModel | KManufacturer | KAssistedGps
  | KScreenState | KPowerConnectState | KTimeZoneChange | KTimeChange | KWifiSupplicantStatus
  | KShutdownState | KTac | KMccMnc | KBtDeviceScanDetail | KBtLeDeviceScanDetail.
#[export] Instance Kind_eq_dec : EqDecision Kind.
Proof. solve_decision. Defined.

(** What an item of a kind holds. *)
Definition Data (k : Kind) : Type :=
  match k with
  | KLocation => Location.SystemStatusLocation
  | KTimeAndClock => TimeAndClock.SystemStatusTimeAndClock
  | KXoState => XoState.SystemStatusXoState
  | KRfAndParams => RfAndParams.SystemStatusRfAndParams
  | KErrRecovery => ErrRecovery.SystemStatusErrRecovery
  | KInjectedPosition => InjectedPosition.SystemStatusInjectedPosition
  | KBestPosition => BestPosition.SystemStatusBestPosition
  | KXtra => Xtra.SystemStatusXtra
  | KEphemeris => Ephemeris.SystemStatusEphemeris
  | KSvHealth => SvHealth.SystemStatusSvHealth
  | KPdr => Pdr.SystemStatusPdr
  | KNavData => NavData.SystemStatusNavData
  | KPositionFailure => PositionFailure.SystemStatusPositionFailure
  | KAirplaneMode => bool
  | KENH => bool
  | KGPSState => bool
  | KNLPStatus => bool
  | KWifiHardwareState => bool
  | KNetworkInfo => NetworkInfoDataItemBase
  | KRilServiceInfo => RilInfo
  | KRilCellInfo => RilInfo
  | KServiceStatus => Z
  | KModel => str
  | KManufacturer => str
  | KAssistedGps => bool
  | KScreenState => bool
  | KPowerConnectState => bool
  | KTimeZoneChange => TimeChange
  | KTimeChange => TimeChange
  | KWifiSupplicantStatus => WifiSupplicantStatus
  | KShutdownState => bool
  | KTac => str
  | KMccMnc => str
  | KBtDeviceScanDetail => SrnDeviceScanDetails
  | KBtLeDeviceScanDetail => SrnDeviceScanDetails
  end.

#[export] Instance Data_item k : ReportItem (Data k) :=
  match k return ReportItem (Data k) with
  | KLocation => Location.Location_item
  | KTimeAndClock => TimeAndClock.TimeAndClock_item
  | KXoState => XoState.XoState_item
  | KRfAndParams => RfAndParams.RfAndParams_item
  | KErrRecovery => ErrRecovery.ErrRecovery_item
  | KInjectedPosition => InjectedPosition.InjectedPosition_item
  | KBestPosition => BestPosition.BestPosition_item
  | KXtra => Xtra.Xtra_item
  | KEphemeris => Ephemeris.Ephemeris_item
  | KSvHealth => SvHealth.SvHealth_item
  | KPdr => Pdr.Pdr_item
  | KNavData => NavData.NavData_item
  | KPositionFailure => PositionFailure.PositionFailure_item
  | KAirplaneMode => bool_item
  | KENH => bool_item
  | KGPSState => bool_item
  | KNLPStatus => bool_item
  | KWifiHardwareState => bool_item
  | KNetworkInfo => network_item
  | KRilServiceInfo => ril_item
  | KRilCellInfo => ril_item
  | KServiceStatus => int_item
  | KModel => string_item
  | KManufacturer => string_item
  | KAssistedGps => bool_item
  | KScreenState => bool_item
  | KPowerConnectState => bool_item
  | KTimeZoneChange => time_item
  | KTimeChange => time_item
  | KWifiSupplicantStatus => wifi_item
  | KShutdownState => bool_item
  | KTac => string_item
  | KMccMnc => string_item
  | KBtDeviceScanDetail => srn_item
  | KBtLeDeviceScanDetail => srn_item
  end.

(** ** SystemStatusReports

    The class has one vector for each kind: the member [m<kind>] of [c] is [c K<kind>]. *)
Abbreviation report_of k := (list (SystemStatusItemBase (Data k))) (only parsing).
Definition SystemStatusReports : Type := ∀ k : Kind, report_of k.

Definition no_reports : SystemStatusReports := λ _, [].

(** The report of one kind replaced. *)
Definition set_report (k : Kind) (r : report_of k) (c : SystemStatusReports) : SystemStatusReports :=
  λ k', match decide (k = k') with
        | left E => match E in _ = k' return report_of k' with eq_refl => r end
        | right _ => c k'
        end.

(** ** SystemStatus

    [mInstance] is the state itself; [clock n] is what the [n]th call of gettimeofday gives. *)
Record SystemStatus := SysStatus {
  mCache : SystemStatusReports;
  clock : nat → timespec;
  ticks : nat;
}.

(** The constructor clears every report. *)
Definition SystemStatus_init (clk : nat → timespec) : SystemStatus := SysStatus no_reports clk 0.

(** [setIteminReport(mCache.m<k>, Item(a))]: the item is constructed, which reads the clock, and set.
    The answer comes with what [collate] made of the item. *)
Definition setItem (k : Kind) (a : Data k) (s : SystemStatus) : bool * Data k * SystemStatus :=
  let '(b, r, x) := setIteminReport (mCache s k) (item (clock s (ticks s)) a) in
  (b, body x, SysStatus (set_report k r (mCache s)) (clock s) (S (ticks s))).

Definition set_item (k : Kind) (a : Data k) (s : SystemStatus) : SystemStatus := (setItem k a s).2.

Definition setDefaultItem (k : Kind) (a : Data k) (s : SystemStatus) : SystemStatus :=
  SysStatus (set_report k (setDefaultIteminReport (mCache s k) (item (clock s (ticks s)) a)) (mCache s))
    (clock s) (S (ticks s)).

(** What the stack holds where a parser leaves its struct, and a default location its members. *)
Record stack := Stack {
  junkP1 : PQWP1.SystemStatusPQWP1; junkP2 : PQWP2.SystemStatusPQWP2; junkP3 : PQWP3.SystemStatusPQWP3;
  junkP4 : PQWP4.SystemStatusPQWP4; junkP5 : PQWP5.SystemStatusPQWP5; junkP6 : PQWP6.SystemStatusPQWP6;
  junkP7 : PQWP7.SystemStatusPQWP7; junkS1 : PQWS1.SystemStatusPQWS1;
  junkLocation : Location.UlpLocation; junkLocationEx : Location.GpsLocationExtended;
}.

(** [0 == strncmp(data, name, NMEA_MINSIZE)] for a name of six characters. *)
Definition named (name data : str) : bool := bool_decide (take 6 data = name).

(** None is an index out of range, which no sentence gives. *)
Definition setNmeaString (j : stack) (data : option str) (len : Z) (s : SystemStatus) : option (bool * SystemStatus) :=
  match data with
  | None => Some (false, s)
  | Some data =>
      if negb (loc_nmea_is_debug (Some data) len) then Some (false, s)
      else
        let buf := strlcpy [] data (Z.to_nat DEBUG_NMEA_MAXSIZE + 1) in
        pair true <$>
        (if named (lit "$PQWM1") data then
           n ← parse PQWM1.SystemStatusPQWM1parser buf len;
           let s := set_item KTimeAndClock (TimeAndClock.TimeAndClock_of_nmea n) s in
           let s := set_item KXoState (XoState.XoState_of_nmea n) s in
           let s := set_item KRfAndParams (RfAndParams.RfAndParams_of_nmea n) s in
           Some (set_item KErrRecovery (ErrRecovery.ErrRecovery_of_nmea n) s)
         else if named (lit "$PQWP1") data then
           n ← parse (PQWP1.SystemStatusPQWP1parser (junkP1 j)) buf len;
           Some (set_item KInjectedPosition (InjectedPosition.InjectedPosition_of_nmea n) s)
         else if named (lit "$PQWP2") data then
           n ← parse (PQWP2.SystemStatusPQWP2parser (junkP2 j)) buf len;
           Some (set_item KBestPosition (BestPosition.BestPosition_of_nmea n) s)
         else if named (lit "$PQWP3") data then
           n ← parse (PQWP3.SystemStatusPQWP3parser (junkP3 j)) buf len;
           Some (set_item KXtra (Xtra.Xtra_of_nmea n) s)
         else if named (lit "$PQWP4") data then
           n ← parse (PQWP4.SystemStatusPQWP4parser (junkP4 j)) buf len;
           Some (set_item KEphemeris (Ephemeris.Ephemeris_of_nmea n) s)
         else if named (lit "$PQWP5") data then
           n ← parse (PQWP5.SystemStatusPQWP5parser (junkP5 j)) buf len;
           Some (set_item KSvHealth (SvHealth.SvHealth_of_nmea n) s)
         else if named (lit "$PQWP6") data then
           n ← parse (PQWP6.SystemStatusPQWP6parser (junkP6 j)) buf len;
           Some (set_item KPdr (Pdr.Pdr_of_nmea n) s)
         else if named (lit "$PQWP7") data then
           n ← parse (PQWP7.SystemStatusPQWP7parser (junkP7 j)) buf len;
           Some (set_item KNavData (NavData.NavData_of_nmea n) s)
         else if named (lit "$PQWS1") data then
           n ← parse (PQWS1.SystemStatusPQWS1parser (junkS1 j)) buf len;
           Some (set_item KPositionFailure (PositionFailure.PositionFailure_of_nmea n) s)
         else Some s)
  end.

Definition eventPosition (location : Location.UlpLocation) (locationEx : Location.GpsLocationExtended)
    (s : SystemStatus) : bool * SystemStatus :=
  let '(ret, _, s) := setItem KLocation (Location.Location_make location locationEx) s in (ret, s).

Definition setDefaultGnssEngineStates (j : stack) (s : SystemStatus) : SystemStatus :=
  let s := setDefaultItem KLocation (Location.Location_initial (junkLocation j) (junkLocationEx j)) s in
  let s := setDefaultItem KTimeAndClock TimeAndClock.TimeAndClock_initial s in
  let s := setDefaultItem KXoState XoState.XoState_initial s in
  let s := setDefaultItem KRfAndParams RfAndParams.RfAndParams_initial s in
  let s := setDefaultItem KErrRecovery ErrRecovery.ErrRecovery_initial s in
  let s := setDefaultItem KInjectedPosition InjectedPosition.InjectedPosition_initial s in
  let s := setDefaultItem KBestPosition BestPosition.BestPosition_initial s in
  let s := setDefaultItem KXtra Xtra.Xtra_initial s in
  let s := setDefaultItem KEphemeris Ephemeris.Ephemeris_initial s in
  let s := setDefaultItem KSvHealth SvHealth.SvHealth_initial s in
  let s := setDefaultItem KPdr Pdr.Pdr_initial s in
  let s := setDefaultItem KNavData NavData.NavData_initial s in
  setDefaultItem KPositionFailure PositionFailure.PositionFailure_initial s.

(** The latest of every report, or all of them. *)
Definition getReport (isLatestOnly : bool) (s : SystemStatus) : SystemStatusReports :=
  if isLatestOnly then λ k, getIteminReport (mCache s k) else mCache s.

(** ** Data items *)

(** An object of one of the classes of DataItemConcreteTypesBase.h; [OtherDataItem] is one whose
    identifier the switch does not list. *)
Inductive IDataItemCore :=
  | AirplaneModeDataItemBase (mMode : bool)
  | ENHDataItemBase (mEnabled : bool)
  | GPSStateDataItemBase (mEnabled : bool)
  | NLPStatusDataItemBase (mEnabled : bool)
  | WifiHardwareStateDataItemBase (mEnabled : bool)
  | NetworkInfoItem (n : NetworkInfoDataItemBase)
  | RilServiceInfoDataItemBase (mData : RilInfo)
  | RilCellInfoDataItemBase (mData : RilInfo)
  | ServiceStatusDataItemBase (mServiceState : Z)
  | ModelDataItemBase (mModel : str)
  | ManufacturerDataItemBase (mManufacturer : str)
  | AssistedGpsDataItemBase (mEnabled : bool)
  | ScreenStateDataItemBase (mState : bool)
  | PowerConnectStateDataItemBase (mState : bool)
  | TimeZoneChangeDataItemBase (t : TimeChange)
  | TimeChangeDataItemBase (t : TimeChange)
  | WifiSupplicantStatusDataItemBase (w : WifiSupplicantStatus)
  | ShutdownStateDataItemBase (mState : bool)
  | TacDataItemBase (mValue : str)
  | MccmncDataItemBase (mValue : str)
  | BtDeviceScanDetailsDataItemBase (d : SrnDeviceScanDetails)
  | BtLeDeviceScanDetailsDataItemBase (d : SrnDeviceScanDetails)
  | OtherDataItem (id : Z).

(** The identifiers of DataItemId.h, as the constructors of the classes set them. *)
Definition getId_item (d : IDataItemCore) : Z :=
  match d with
  | AirplaneModeDataItemBase _ => 0
  | ENHDataItemBase _ => 1
  | GPSStateDataItemBase _ => 2
  | NLPStatusDataItemBase _ => 3
  | WifiHardwareStateDataItemBase _ => 4
  | NetworkInfoItem _ => 5
  | RilServiceInfoDataItemBase _ => 7
  | RilCellInfoDataItemBase _ => 8
  | ServiceStatusDataItemBase _ => 9
  | ModelDataItemBase _ => 10
  | ManufacturerDataItemBase _ => 11
  | AssistedGpsDataItemBase _ => 13
  | ScreenStateDataItemBase _ => 14
  | PowerConnectStateDataItemBase _ => 15
  | TimeZoneChangeDataItemBase _ => 16
  | TimeChangeDataItemBase _ => 17
  | WifiSupplicantStatusDataItemBase _ => 18
  | ShutdownStateDataItemBase _ => 19
  | TacDataItemBase _ => 20
  | MccmncDataItemBase _ => 21
  | BtLeDeviceScanDetailsDataItemBase _ => 22
  | BtDeviceScanDetailsDataItemBase _ => 23
  | OtherDataItem id => id
  end.

(** The switch on the identifier. The last two cases are as the code has them: the identifier of the
    low-energy scan (22) selects the report of the other one. The result is the answer, the data
    item, in which only a network that was collated has changed, and the state. *)
Definition eventDataItemNotify_impl (d : IDataItemCore) (s : SystemStatus) : bool * IDataItemCore * SystemStatus :=
  let set k (a : Data k) := let '(ret, _, s) := setItem k a s in (ret, d, s) in
  match d with
  | AirplaneModeDataItemBase b => set KAirplaneMode b
  | ENHDataItemBase b => set KENH b
  | GPSStateDataItemBase b => set KGPSState b
  | NLPStatusDataItemBase b => set KNLPStatus b
  | WifiHardwareStateDataItemBase b => set KWifiHardwareState b
  | NetworkInfoItem n =>
      let collated := negb (bool_decide (mCache s KNetworkInfo = [])) in
      let '(ret, n', s') := setItem KNetworkInfo n s in
      (ret, NetworkInfoItem (if collated then updated_source n n' else n), s')
  | RilServiceInfoDataItemBase p => set KRilServiceInfo p
  | RilCellInfoDataItemBase p => set KRilCellInfo p
  | ServiceStatusDataItemBase z => set KServiceStatus z
  | ModelDataItemBase t => set KModel t
  | ManufacturerDataItemBase t => set KManufacturer t
  | AssistedGpsDataItemBase b => set KAssistedGps b
  | ScreenStateDataItemBase b => set KScreenState b
  | PowerConnectStateDataItemBase b => set KPowerConnectState b
  | TimeZoneChangeDataItemBase t => set KTimeZoneChange t
  | TimeChangeDataItemBase t => set KTimeChange t
  | WifiSupplicantStatusDataItemBase w => set KWifiSupplicantStatus w
  | ShutdownStateDataItemBase b => set KShutdownState b
  | TacDataItemBase t => set KTac t
  | MccmncDataItemBase t => set KMccMnc t
  | BtLeDeviceScanDetailsDataItemBase d => set KBtDeviceScanDetail d
  | BtDeviceScanDetailsDataItemBase d => set KBtLeDeviceScanDetail d
  | OtherDataItem _ => (false, d, s)
  end.
#[export] Instance SystemStatus_notify : SystemStatusI IDataItemCore SystemStatus :=
  {| eventDataItemNotify := eventDataItemNotify_impl |}.

(** ** Through the observer

    [createNewDataItem] and [copy] are in the library of the data items. *)
Section Observer.
Context (create : Z → option IDataItemCore) (copy_item : IDataItemCore → IDataItemCore → IDataItemCore * bool).

#[local] Instance system_items : DataItems IDataItemCore :=
  {| getId := getId_item; createNewDataItem := create; copy := copy_item |}.

Abbreviation SysObserver := (observer (D := IDataItemCore) (Sys := SystemStatus)) (only parsing).

Definition eventConnectionStatus (connected : bool) (type : Z) (roaming : bool) (handle : Z) (apn : str)
    (o : SysObserver) : bool * SysObserver :=
  (true, notify [NetworkInfoItem (SystemStatusNetworkInfo type [] [] connected roaming handle apn)] o).

Definition updatePowerConnectState (charging : bool) (o : SysObserver) : bool * SysObserver :=
  (true, notify [PowerConnectStateDataItemBase charging] o).

(** The loop over the network reports; the type is narrowed to an int8_t. *)
Definition resetNetworkInfo (o : SysObserver) : SysObserver :=
  foldl (λ o n, (eventConnectionStatus false (swrap 8 (NetworkInfo.mType n)) (mRoaming n) (mNetworkHandle n) (mApn n) o).2)
    o (body <$> mCache (mSystemStatus o) KNetworkInfo).
End Observer.

(** * Specification : a history per kind *)

(** What an event says of one kind; [dflt] for a default, which is recorded whatever it is. *)
Inductive statement := Said (k : Kind) (a : Data k) (dflt : bool).

(** A statement with the time at which it was made. *)
Inductive entry := Entry (k : Kind) (e : report_event (A := Data k)).

Fixpoint stamp (clk : nat → timespec) (n : nat) (l : list statement) : list entry :=
  match l with
  | [] => []
  | Said k a dflt :: l => Entry k (if dflt then SetDefault (item (clk n) a) else Set_ (item (clk n) a)) :: stamp clk (S n) l
  end.

Definition pick (k : Kind) (x : entry) : option (report_event (A := Data k)) :=
  let '(Entry k' e) := x in
  match decide (k' = k) with
  | left E => Some (match E in _ = k return report_event (A := Data k) with eq_refl => e end)
  | right _ => None
  end.

(** Everything that was recorded of a kind. *)
Definition history (k : Kind) (l : list entry) : report_of k := foldl log_step [] (omap (pick k) l).

Inductive sys_event :=
  | Nmea (j : stack) (data : option str) (len : Z)
  | Position (location : Location.UlpLocation) (locationEx : Location.GpsLocationExtended)
  | DefaultStates (j : stack)
  | DataItem (d : IDataItemCore).

Definition sys_step (e : sys_event) (s : SystemStatus) : option SystemStatus :=
  match e with
  | Nmea j data len => snd <$> setNmeaString j data len s
  | Position l x => Some (eventPosition l x s).2
  | DefaultStates j => Some (setDefaultGnssEngineStates j s)
  | DataItem d => Some (eventDataItemNotify d s).2
  end.

Fixpoint sys_run (es : list sys_event) (s : SystemStatus) : option SystemStatus :=
  match es with [] => Some s | e :: es => s ← sys_step e s; sys_run es s end.

(** What a parser read, if it did. *)
Definition reading {A} (p : Fields A) (data : str) (len : Z) (f : A → list statement) : list statement :=
  match parse p (take 4096 data) len with Some n => f n | None => [] end.

(** The statements of a debug sentence, by its first six characters. *)
Definition nmea_says (j : stack) (data : str) (len : Z) : list statement :=
  if named (lit "$PQWM1") data then
    reading PQWM1.SystemStatusPQWM1parser data len (λ n,
      [Said KTimeAndClock (TimeAndClock.TimeAndClock_of_nmea n) false; Said KXoState (XoState.XoState_of_nmea n) false;
       Said KRfAndParams (RfAndParams.RfAndParams_of_nmea n) false; Said KErrRecovery (ErrRecovery.ErrRecovery_of_nmea n) false])
  else if named (lit "$PQWP1") data then
    reading (PQWP1.SystemStatusPQWP1parser (junkP1 j)) data len (λ n, [Said KInjectedPosition (InjectedPosition.InjectedPosition_of_nmea n) false])
  else if named (lit "$PQWP2") data then
    reading (PQWP2.SystemStatusPQWP2parser (junkP2 j)) data len (λ n, [Said KBestPosition (BestPosition.BestPosition_of_nmea n) false])
  else if named (lit "$PQWP3") data then
    reading (PQWP3.SystemStatusPQWP3parser (junkP3 j)) data len (λ n, [Said KXtra (Xtra.Xtra_of_nmea n) false])
  else if named (lit "$PQWP4") data then
    reading (PQWP4.SystemStatusPQWP4parser (junkP4 j)) data len (λ n, [Said KEphemeris (Ephemeris.Ephemeris_of_nmea n) false])
  else if named (lit "$PQWP5") data then
    reading (PQWP5.SystemStatusPQWP5parser (junkP5 j)) data len (λ n, [Said KSvHealth (SvHealth.SvHealth_of_nmea n) false])
  else if named (lit "$PQWP6") data then
    reading (PQWP6.SystemStatusPQWP6parser (junkP6 j)) data len (λ n, [Said KPdr (Pdr.Pdr_of_nmea n) false])
  else if named (lit "$PQWP7") data then
    reading (PQWP7.SystemStatusPQWP7parser (junkP7 j)) data len (λ n, [Said KNavData (NavData.NavData_of_nmea n) false])
  else if named (lit "$PQWS1") data then
    reading (PQWS1.SystemStatusPQWS1parser (junkS1 j)) data len (λ n, [Said KPositionFailure (PositionFailure.PositionFailure_of_nmea n) false])
  else [].

(** Every data item speaks of its own kind. *)
Definition item_says (d : IDataItemCore) : list statement :=
  match d with
  | AirplaneModeDataItemBase b => [Said KAirplaneMode b false]
  | ENHDataItemBase b => [Said KENH b false]
  | GPSStateDataItemBase b => [Said KGPSState b false]
  | NLPStatusDataItemBase b => [Said KNLPStatus b false]
  | WifiHardwareStateDataItemBase b => [Said KWifiHardwareState b false]
  | NetworkInfoItem n => [Said KNetworkInfo n false]
  | RilServiceInfoDataItemBase p => [Said KRilServiceInfo p false]
  | RilCellInfoDataItemBase p => [Said KRilCellInfo p false]
  | ServiceStatusDataItemBase z => [Said KServiceStatus z false]
  | ModelDataItemBase t => [Said KModel t false]
  | ManufacturerDataItemBase t => [Said KManufacturer t false]
  | AssistedGpsDataItemBase b => [Said KAssistedGps b false]
  | ScreenStateDataItemBase b => [Said KScreenState b false]
  | PowerConnectStateDataItemBase b => [Said KPowerConnectState b false]
  | TimeZoneChangeDataItemBase t => [Said KTimeZoneChange t false]
  | TimeChangeDataItemBase t => [Said KTimeChange t false]
  | WifiSupplicantStatusDataItemBase w => [Said KWifiSupplicantStatus w false]
  | ShutdownStateDataItemBase b => [Said KShutdownState b false]
  | TacDataItemBase t => [Said KTac t false]
  | MccmncDataItemBase t => [Said KMccMnc t false]
  | BtDeviceScanDetailsDataItemBase d => [Said KBtDeviceScanDetail d false]
  | BtLeDeviceScanDetailsDataItemBase d => [Said KBtLeDeviceScanDetail d false]
  | OtherDataItem _ => []
  end.

Definition says (e : sys_event) : list statement :=
  match e with
  | Nmea j (Some data) len => if loc_nmea_is_debug (Some data) len then nmea_says j data len else []
  | Nmea _ None _ => []
  | Position l x => [Said KLocation (Location.Location_make l x) false]
  | DefaultStates j =>
      [Said KLocation (Location.Location_initial (junkLocation j) (junkLocationEx j)) true;
       Said KTimeAndClock TimeAndClock.TimeAndClock_initial true; Said KXoState XoState.XoState_initial true;
       Said KRfAndParams RfAndParams.RfAndParams_initial true; Said KErrRecovery ErrRecovery.ErrRecovery_initial true;
       Said KInjectedPosition InjectedPosition.InjectedPosition_initial true; Said KBestPosition BestPosition.BestPosition_initial true;
       Said KXtra Xtra.Xtra_initial true; Said KEphemeris Ephemeris.Ephemeris_initial true; Said KSvHealth SvHealth.SvHealth_initial true;
       Said KPdr Pdr.Pdr_initial true; Said KNavData NavData.NavData_initial true; Said KPositionFailure PositionFailure.PositionFailure_initial true]
  | DataItem d => item_says d
  end.

(** The history that the report of a kind keeps: its own, but for the scans of Bluetooth devices,
    each of whose two reports keeps the history of the other one. *)
Definition kept_history (k : Kind) (l : list entry) : report_of k :=
  match k return report_of k with
  | KBtDeviceScanDetail => history KBtLeDeviceScanDetail l
  | KBtLeDeviceScanDetail => history KBtDeviceScanDetail l
  | k => history k l
  end.

(** * Lemmas *)

(** The statement that enters the report of its kind. *)
Definition filed (x : statement) : statement :=
  let '(Said k a dflt) := x in
  match k return Data k → statement with
  | KBtDeviceScanDetail => λ a, Said KBtLeDeviceScanDetail a dflt
  | KBtLeDeviceScanDetail => λ a, Said KBtDeviceScanDetail a dflt
  | k => λ a, Said k a dflt
  end a.

Lemma set_report_eq k r c : set_report k r c k = r.
Proof. unfold set_report. destruct (decide (k = k)) as [E|]; [|done]. by rewrite (proof_irrel E eq_refl). Qed.
Lemma set_report_ne k k' r c : k ≠ k' → set_report k r c k' = c k'.
Proof. intros. unfold set_report. by destruct (decide (k = k')). Qed.
Lemma pick_eq k e : pick k (Entry k e) = Some e.
Proof. unfold pick. destruct (decide (k = k)) as [E|]; [|done]. by rewrite (proof_irrel E eq_refl). Qed.
Lemma pick_ne k k' e : k ≠ k' → pick k' (Entry k e) = None.
Proof. intros. unfold pick. by destruct (decide (k = k')). Qed.

Lemma stamp_app clk n l l' : stamp clk n (l ++ l') = stamp clk n l ++ stamp clk (n + length l) l'.
Proof.
  revert n. induction l as [|[k a d] l IH]; intros n; simpl; [by rewrite Nat.add_0_r|]. by rewrite IH, Nat.add_succ_comm.
Qed.
Lemma history_snoc k l x :
  history k (l ++ [x]) = match pick k x with Some e => log_step (history k l) e | None => history k l end.
Proof. unfold history. rewrite omap_app, foldl_app. simpl. by destruct (pick k x). Qed.

Definition picks (k : Kind) (l : list entry) : list (report_event (A := Data k)) := omap (pick k) l.
Lemma picks_cons k x l : picks k (x :: l) = match pick k x with Some e => e :: picks k l | None => picks k l end.
Proof. done. Qed.
Lemma picks_ne k k' e l : k' ≠ k → picks k (Entry k' e :: l) = picks k l.
Proof. intros. by rewrite picks_cons, pick_ne. Qed.

Definition kept_picks (k : Kind) (l : list entry) : list (report_event (A := Data k)) :=
  match k return list (report_event (A := Data k)) with
  | KBtDeviceScanDetail => picks KBtLeDeviceScanDetail l
  | KBtLeDeviceScanDetail => picks KBtDeviceScanDetail l
  | k => picks k l
  end.
Lemma picks_filed clk l n k : picks k (stamp clk n (filed <$> l)) = kept_picks k (stamp clk n l).
Proof.
  revert n. induction l as [|[k' a d] l IH]; intros n; [by destruct k|]. specialize (IH (S n)).
  destruct (decide (k' = KBtDeviceScanDetail)) as [->|H1];
    [destruct k; first [exact IH | exact (f_equal (cons _) IH)]|].
  destruct (decide (k' = KBtLeDeviceScanDetail)) as [->|H2];
    [destruct k; first [exact IH | exact (f_equal (cons _) IH)]|].
  assert (E : filed (Said k' a d) = Said k' a d) by by destruct k'. rewrite fmap_cons, E. cbn [stamp].
  destruct k; unfold kept_picks in *; rewrite ?(picks_ne _ k') by done; try exact IH; by rewrite !picks_cons, IH.
Qed.
Lemma history_filed clk l k : history k (stamp clk 0 (filed <$> l)) = kept_history k (stamp clk 0 l).
Proof.
  unfold kept_history, history. fold (picks k (stamp clk 0 (filed <$> l))). rewrite picks_filed. by destruct k.
Qed.

(** The state [s] after the statements [l]. *)
Definition tracks (clk : nat → timespec) (l : list statement) (s : SystemStatus) : Prop :=
  clock s = clk ∧ ticks s = length l ∧ ∀ k, mCache s k = recent (history k (stamp clk 0 l)).

Lemma tracks_set clk l k a s : tracks clk l s → tracks clk (l ++ [Said k a false]) (set_item k a s).
Proof.
  intros (Hc & Ht & Hk). unfold set_item, setItem.
  pose proof (report_step_log (history k (stamp clk 0 l)) (Set_ (item (clock s (ticks s)) a))) as Hs. simpl in Hs.
  rewrite <- Hk in Hs. destruct (setIteminReport (mCache s k) _) as [[b r] x]. simpl in *.
  split_and!; [done|simpl; rewrite Ht, length_app; simpl; lia|]. intros k'. simpl. rewrite stamp_app. cbn [stamp]. rewrite history_snoc.
  destruct (decide (k = k')) as [<-|Hne].
  - rewrite set_report_eq, pick_eq, Hs, Hc, Ht. done.
  - by rewrite set_report_ne, pick_ne.
Qed.
Lemma tracks_default clk l k a s : tracks clk l s → tracks clk (l ++ [Said k a true]) (setDefaultItem k a s).
Proof.
  intros (Hc & Ht & Hk). unfold setDefaultItem, setDefaultIteminReport. split_and!; [done|simpl; rewrite Ht, length_app; simpl; lia|].
  intros k'. simpl. rewrite stamp_app. cbn [stamp]. rewrite history_snoc. destruct (decide (k = k')) as [<-|Hne].
  - rewrite set_report_eq, pick_eq, Hk, push_recent, Hc, Ht. done.
  - by rewrite set_report_ne, pick_ne.
Qed.

Lemma filed_nmea j data len : filed <$> nmea_says j data len = nmea_says j data len.
Proof.
  unfold nmea_says, reading.
  repeat match goal with |- context [named ?n data] => destruct (named n data) end; try done;
    match goal with |- context [parse ?p ?d ?n] => by destruct (parse p d n) end.
Qed.

(** A debug sentence is parsed by its parser, whatever it holds. *)
Lemma nmea_tracks clk l j data len s :
  tracks clk l s →
  ∃ s', snd <$> setNmeaString j data len s = Some s' ∧ tracks clk (l ++ (filed <$> says (Nmea j data len))) s'.
Proof.
  intros Hs. destruct data as [data|]; [|exists s; cbn; by rewrite app_nil_r].
  cbn [setNmeaString says]. destruct (loc_nmea_is_debug (Some data) len); simpl negb; cbn iota; [|exists s; cbn; by rewrite app_nil_r].
  change (strlcpy [] data (Z.to_nat DEBUG_NMEA_MAXSIZE + 1)) with (take 4096 data).
  rewrite filed_nmea. unfold nmea_says, reading. cbv zeta.
  assert (Hone : ∀ A (p : Fields A) k (f : A → Data k), total p →
    ∃ s', snd <$> (pair true <$> (n ← parse p (take 4096 data) len; Some (set_item k (f n) s))) = Some s' ∧
      tracks clk (l ++ match parse p (take 4096 data) len with Some n => [Said k (f n) false] | None => [] end) s').
  { intros A p k f Hp. destruct (parse_total p (take 4096 data) len Hp) as [n ->]. eexists. split; [done|]. by apply tracks_set. }
  destruct (named (lit "$PQWM1") data).
  { destruct (parse_total _ (take 4096 data) len PQWM1_total) as [n ->]. eexists. split; [done|].
    change (?l ++ [?a; ?b; ?c; ?d]) with (l ++ [a] ++ [b] ++ [c] ++ [d]). rewrite !app_assoc.
    by repeat apply tracks_set. }
  repeat (match goal with |- context [named ?n data] => destruct (named n data) end; [apply Hone; eauto using PQWP1_total, PQWP2_total, PQWP3_total, PQWP4_total, PQWP5_total,
    PQWP6_total, PQWP7_total, PQWS1_total|]).
  exists s. by rewrite app_nil_r.
Qed.

Lemma tracks_then clk l x L s : tracks clk ((l ++ [x]) ++ L) s → tracks clk (l ++ x :: L) s.
Proof. by rewrite <- app_assoc. Qed.

Lemma default_tracks clk l j s :
  tracks clk l s → tracks clk (l ++ (filed <$> says (DefaultStates j))) (setDefaultGnssEngineStates j s).
Proof. intros Hs. cbn [says fmap list_fmap filed]. unfold setDefaultGnssEngineStates. cbv zeta. do 12 apply tracks_then. by repeat apply tracks_default. Qed.

Lemma position_tracks clk l a x s : tracks clk l s → tracks clk (l ++ (filed <$> says (Position a x))) (eventPosition a x s).2.
Proof.
  intros Hs. apply (tracks_set _ _ KLocation (Location.Location_make a x)) in Hs. unfold eventPosition, set_item in *.
  by destruct (setItem _ _ _) as [[]].
Qed.

Lemma item_tracks clk l d s : tracks clk l s → tracks clk (l ++ (filed <$> says (DataItem d))) (eventDataItemNotify d s).2.
Proof.
  intros Hs.
  assert (Hone : ∀ k (a : Data k), tracks clk (l ++ [Said k a false])
    (let '(ret, _, s) := setItem k a s in (ret, d, s)).2).
  { intros k a. apply (tracks_set _ _ k a) in Hs. unfold set_item in Hs. by destruct (setItem k a s) as [[]]. }
  destruct d; try apply Hone; simpl.
  - specialize (Hone KNetworkInfo n). simpl. by destruct (setItem KNetworkInfo n s) as [[]].
  - by rewrite app_nil_r.
Qed.

Lemma sys_step_tracks clk l e s : tracks clk l s → ∃ s', sys_step e s = Some s' ∧ tracks clk (l ++ (filed <$> says e)) s'.
Proof.
  intros Hs. destruct e; simpl sys_step.
  - by apply nmea_tracks.
  - eexists. split; [done|]. by apply position_tracks.
  - eexists. split; [done|]. by apply default_tracks.
  - eexists. split; [done|]. by apply item_tracks.
Qed.
Lemma sys_run_tracks clk l es s :
  tracks clk l s → ∃ s', sys_run es s = Some s' ∧ tracks clk (l ++ (filed <$> (es ≫= says))) s'.
Proof.
  revert l s. induction es as [|e es IH]; intros l s Hs; simpl; [exists s; by rewrite app_nil_r|].
  destruct (sys_step_tracks clk l e s Hs) as (s1 & -> & H1). simpl. destruct (IH _ _ H1) as (s2 & -> & H2).
  exists s2. rewrite <- app_assoc, <- fmap_app in H2. by split.
Qed.
Lemma tracks_init clk : tracks clk [] (SystemStatus_init clk).
Proof. by split_and!. Qed.

(** ** Histories without defaults, on a clock that does not go back *)

Definition forward (clk : nat → timespec) : Prop := ∀ n m, n ≤ m → ordered (clk n) (clk m).

Lemma ordered_trans t u v : ordered t u → ordered u v → ordered t v.
Proof. unfold ordered. lia. Qed.
Lemma ordered_refl t : ordered t t.
Proof. unfold ordered. lia. Qed.

(** No item but the network's and the error recovery's is changed or ignored. *)
Lemma collate_plain k a b : k ≠ KNetworkInfo → collate (ReportItem := Data_item k) a b = a.
Proof. by destruct k. Qed.

(** The log of a kind up to the [n]th reading of the clock. *)
Definition log_until (clk : nat → timespec) (n : nat) {A} `{ReportItem A} (l : list (SystemStatusItemBase A)) : Prop :=
  log_ok l ∧ match last l with Some b => ordered (mUtcTime b) (mUtcReported b) ∧ ordered (mUtcReported b) (clk n) | None => True end.

Lemma log_until_later clk n m {A} `{ReportItem A} (l : list (SystemStatusItemBase A)) :
  forward clk → n ≤ m → log_until clk n l → log_until clk m l.
Proof.
  intros Hf Hn [Hl Hb]. split; [done|]. destruct (last l); [|done]. destruct Hb. split; [done|].
  eapply ordered_trans; [done|by apply Hf].
Qed.

Lemma log_until_set clk n {A} `{ReportItem A} (l : list (SystemStatusItemBase A)) a :
  forward clk → log_until clk n l → log_until clk (S n) (log_set l (item (clk n) a)).
Proof.
  intros Hf [Hl Hb]. assert (Hn : ordered (clk n) (clk (S n))) by (apply Hf; lia). unfold log_set. simpl body.
  destruct (ignore a).
  { apply (log_until_later clk n); [done|lia|by split]. }
  destruct (last_snoc_inv l) as [-> | (l' & b & ->)].
  - simpl. split; [simpl; by split; [apply ordered_refl|]|]. simpl. by split; [apply ordered_refl|].
  - rewrite last_snoc in Hb |- *. destruct Hb as [Hb1 Hb2]. destruct (equals _ _) eqn:E.
    + rewrite set_reported_snoc. split.
      * apply log_ok_reported; [done|]. by eapply ordered_trans.
      * rewrite last_snoc. simpl. split; [by eapply ordered_trans|done].
    + split.
      * apply log_ok_snoc; [done|done|done|apply ordered_refl].
      * rewrite last_snoc. simpl. by split; [apply ordered_refl|].
Qed.

Definition no_default (x : statement) : Prop := let '(Said _ _ dflt) := x in dflt = false.

Lemma history_log clk k l :
  forward clk → Forall no_default l → log_until clk (length l) (history k (stamp clk 0 l)).
Proof.
  intros Hf. induction l as [|x l IH] using rev_ind; intros Hl; [by split|].
  apply Forall_app in Hl as [Hl Hx]. apply Forall_cons in Hx as [Hx _]. destruct x as [k' a d]. simpl in Hx. subst d.
  rewrite stamp_app, length_app. simpl length. rewrite Nat.add_0_l, Nat.add_1_r. cbn [stamp]. rewrite history_snoc.
  destruct (decide (k' = k)) as [->|Hk].
  - rewrite pick_eq. apply log_until_set; auto.
  - rewrite pick_ne by done. apply (log_until_later clk (length l)); auto.
Qed.

Lemma says_no_default e : (∀ j, e ≠ DefaultStates j) → Forall no_default (says e).
Proof.
  intros He. destruct e as [j [data|] len|l x|j|d]; cbn [says]; [|constructor|by constructor|by destruct (He j)|].
  - destruct (loc_nmea_is_debug (Some data) len); [|constructor]. unfold nmea_says, reading.
    repeat match goal with |- context [named ?n data] => destruct (named n data) end; try constructor;
      match goal with |- context [parse ?p ?d ?n] => destruct (parse p d n) end; repeat constructor.
  - destruct d; repeat constructor.
Qed.

(** * Properties *)

(** C15: the cache is the end of the histories. For every sequence of debug sentences (of any bytes
    and length), positions, default states and data items the functions run to their end, without
    an index out of range, and the report of every kind but the two scans of Bluetooth devices
    holds the last five items of the log of that kind: the log to which each statement about the
    kind, and no other, was added unless it was ignored or repeated the newest item, whose time it
    then moved. The latest report is the newest item of that log. The report of the scans of
    Bluetooth devices holds in the same way the log of those of low-energy devices, and the
    reverse: the two cases of the switch are exchanged. *)
Theorem system_status_histories clk es :
  ∃ s, sys_run es (SystemStatus_init clk) = Some s ∧
    let entries := stamp clk 0 (es ≫= says) in
    (∀ k, k ≠ KBtDeviceScanDetail → k ≠ KBtLeDeviceScanDetail →
      getReport false s k = recent (history k entries) ∧ length (getReport false s k) ≤ maxItem ∧
      getReport true s k = match last (history k entries) with Some b => [b] | None => [] end) ∧
    (getReport false s KBtDeviceScanDetail = recent (history KBtLeDeviceScanDetail entries) ∧
     getReport true s KBtDeviceScanDetail = match last (history KBtLeDeviceScanDetail entries) with Some b => [b] | None => [] end) ∧
    (getReport false s KBtLeDeviceScanDetail = recent (history KBtDeviceScanDetail entries) ∧
     getReport true s KBtLeDeviceScanDetail = match last (history KBtDeviceScanDetail entries) with Some b => [b] | None => [] end).
Proof.
  destruct (sys_run_tracks clk [] es _ (tracks_init clk)) as (s & Hs & _ & _ & Hk). exists s. split; [done|].
  intros entries. assert (H : ∀ k, mCache s k = recent (kept_history k entries)) by (intros k; by rewrite Hk, app_nil_l, history_filed).
  assert (Hl : ∀ k, getReport true s k = match last (kept_history k entries) with Some b => [b] | None => [] end).
  { intros k. unfold getReport, getIteminReport. by rewrite H, last_recent. }
  split_and!; [|exact (H KBtDeviceScanDetail)|exact (Hl KBtDeviceScanDetail)|exact (H KBtLeDeviceScanDetail)|exact (Hl KBtLeDeviceScanDetail)]. intros k H1 H2. specialize (H k). specialize (Hl k).
  replace (kept_history k entries) with (history k entries) in * by by destruct k. split_and!; [done| |done].
  unfold getReport. rewrite H, recent_length. lia.
Qed.

(** On a clock that does not go back, and as long as the default states are not set, the items of
    every report are in the order of their times, each was last reported before the next was made,
    and no two neighbours are equal. *)
Theorem reports_ordered clk es s :
  forward clk → (∀ j, DefaultStates j ∉ es) → sys_run es (SystemStatus_init clk) = Some s →
  ∀ k, log_ok (H := Data_item k) (mCache s k).
Proof.
  intros Hf Hd Hs k. destruct (sys_run_tracks clk [] es _ (tracks_init clk)) as (s' & Hs' & _ & _ & Hk).
  rewrite Hs in Hs'. injection Hs' as [= <-]. rewrite Hk, app_nil_l. apply log_ok_drop, history_log; [done|].
  clear Hs Hk s. apply Forall_fmap, (Forall_impl no_default); [|by intros [[] ? ?]].
  induction es as [|e es IH]; [constructor|]. change ((e :: es) ≫= says) with (says e ++ (es ≫= says)).
  apply Forall_app. split.
  - apply says_no_default. intros j ->. apply (Hd j). by left.
  - apply IH. intros j Hj. apply (Hd j). by right.
Qed.
Lemma reports_ordered_witness :
  let clk n := Timespec (Z.of_nat n) 0 in
  ∃ s, sys_run [DataItem (ScreenStateDataItemBase true); DataItem (ScreenStateDataItemBase true);
                DataItem (ScreenStateDataItemBase false)] (SystemStatus_init clk) = Some s ∧
    mCache s KScreenState = [ItemBase (Timespec 0 0) (Timespec 1 0) true; ItemBase (Timespec 2 0) (Timespec 2 0) false] ∧
    log_ok (H := Data_item KScreenState) (mCache s KScreenState).
Proof.
  intros clk. eexists. split; [reflexivity|]. split; [reflexivity|].
  apply (reports_ordered clk [DataItem (ScreenStateDataItemBase true); DataItem (ScreenStateDataItemBase true);
    DataItem (ScreenStateDataItemBase false)]); [| |reflexivity].
  - intros n m Hn. unfold ordered. simpl. lia.
  - intros j Hj. set_solver.
Defined.

(** ** Concrete runs *)

(** A library of data items that only knows networks. *)
Definition sample_create (id : Z) : option IDataItemCore :=
  if (id =? 5)%Z then Some (NetworkInfoItem (SystemStatusNetworkInfo 0 [] [] false false 0 [])) else None.
Definition sample_copy (old new : IDataItemCore) : IDataItemCore * bool := (new, true).
#[local] Instance sample_items : DataItems IDataItemCore := system_items sample_create sample_copy.

(** [n] messages are processed. *)
Fixpoint drain (n : nat) (o : observer (D := IDataItemCore) (Sys := SystemStatus)) : option (observer (D := IDataItemCore) (Sys := SystemStatus)) :=
  match n with O => Some o | S n => o ← OsObserver.step false o; drain n o end.

(** Wi-Fi networks 1 to [n] come, one after the other. *)
Definition networks_up (n : nat) (clk : nat → timespec) : observer (D := IDataItemCore) (Sys := SystemStatus) :=
  foldl (λ o h, (eventConnectionStatus sample_create sample_copy true TYPE_WIFI false (Z.of_nat h) [] o).2)
    (observer_init (SystemStatus_init clk)) (seq 1 n).

Definition networks_now (o : observer (D := IDataItemCore) (Sys := SystemStatus)) : option (list Z) :=
  (λ b, (map_to_list (table_of (mAllNetworkHandles (body b)))).*1) <$> last (mCache (mSystemStatus o) KNetworkInfo).

(** What the cache gets wrong. A sentence of the injected position that is too short records what
    was on the stack; the horizontal error of an injected position loses its fraction; the scan of a
    low-energy device is recorded as one of the other kind, and the reverse; and [resetNetworkInfo],
    which is to disconnect every network, goes through the five reports that are left and leaves the
    networks that came before them connected. *)
Theorem status_misread clk :
  (∀ j, (λ s, body <$> mCache s KInjectedPosition) <$>
     sys_run [Nmea j (Some (lit "$PQWP1,1*00")) 11] (SystemStatus_init clk) =
   Some [InjectedPosition.InjectedPosition_of_nmea (junkP1 j)]) ∧
  (∀ j, (λ s, InjectedPosition.mEpiHepe ∘ body <$> mCache s KInjectedPosition) <$>
     sys_run [Nmea j (Some (lit "$PQWP1,1,3,48.1,11.5,500,12.9,20,1*00")) 36] (SystemStatus_init clk) =
   Some [float_of_int 12]) ∧
  (∀ d, (λ s, (body <$> mCache s KBtLeDeviceScanDetail, body <$> mCache s KBtDeviceScanDetail)) <$>
     sys_run [DataItem (BtLeDeviceScanDetailsDataItemBase d)] (SystemStatus_init clk) = Some ([], [d])) ∧
  (o ← drain 7 (networks_up 7 clk);
   o' ← drain 5 (resetNetworkInfo sample_create sample_copy o);
   pair (queue o') <$> networks_now o') = Some ([], [2; 1]%Z).
Proof.
  split_and!; [intros j; reflexivity|intros j; reflexivity|intros d; reflexivity|].
  vm_compute. reflexivity.
Qed.

(** ** Behind the observer *)
Section Behind.
Context (create : Z → option IDataItemCore) (copy_item : IDataItemCore → IDataItemCore → IDataItemCore * bool).
#[local] Instance behind_items : DataItems IDataItemCore := system_items create copy_item.

Lemma records_run x y : rtc (records (D := IDataItemCore)) x y → ∃ ds, sys_run (DataItem <$> ds) x = Some y.
Proof.
  induction 1 as [x|x y z [d ->] _ [ds IH]]; [by exists []|]. by exists (d :: ds).
Qed.

(** In every execution of the observer, with any library of data items, its SystemStatus has run the
    data items that the observer processed, and nothing else: [system_status_histories] applies. *)
Theorem observed_status (o : observer (D := IDataItemCore) (Sys := SystemStatus)) :
  reachable o → ∃ x ds, sys_run (DataItem <$> ds) x = Some (mSystemStatus o).
Proof. intros [x Hx]%reachable_system. exists x. by apply records_run. Qed.
End Behind.
