(* ===== verification/LocApiBase.v ===== *)
(** * LocApiBase : the adapters of an API, and what is passed up to them.

    LocApiBase.cpp keeps an array of at most ten adapters without holes. The modem is opened for
    the events that any of them wants, by messages of the task of the API: a message when an
    adapter comes, goes, or wants other events, and one when the modem has restarted. What the
    modem reports goes to all the adapters, or to the first that handles it. Adapters are heap
    objects, and both the array and the messages hold pointers to them.

    The virtual methods of the API are the interface [Api]; LocApiV02 implements it. *)
From Stdlib Require Import SpecFloat.
From S2P Require Import Prelude PbEnums CString LocApi.
From S2P Require LocApiTrack.
Local Open Scope nat_scope.

Definition MAX_ADAPTERS : nat := 10.

(** ** What is passed up: the calls of LocApiBase that an adapter receives *)
Inductive Upward :=
  | reportPosition | reportWwanZppFix | reportZppBestAvailableFix | requestOdcpi
  | reportGnssEngEnergyConsumedEvent | reportDeleteAidingDataEvent | reportKlobucharIonoModel
  | reportGnssAdditionalSystemInfo | sendNfwNotification | reportSv | reportSvPolynomial
  | reportSvEphemeris | reportStatus | reportData | reportNmea | reportXtraServer
  | reportLocationSystemInfo | reportQwesCapabilities | requestXtraData | requestTime | requestLocation
  | requestATL | releaseATL | requestNiNotify | reportGnssMeasurements | reportGnssSvIdConfig
  | reportGnssSvTypeConfig | geofenceBreach | geofenceStatus | reportDBTPosition | reportLocations
  | reportCompletedTrips | handleBatchStatusEvent | reportGnssConfig | reportLatencyInfo
  | reportEngineLockStatus.
#[export] Instance Upward_eq : EqDecision Upward.
Proof. solve_decision. Defined.

(** Which macro the call uses: TO_ALL_LOCADAPTERS or TO_1ST_HANDLING_LOCADAPTERS. *)
Definition to_all (u : Upward) : bool :=
  match u with
  | reportWwanZppFix | reportZppBestAvailableFix | requestOdcpi | reportDeleteAidingDataEvent
  | reportKlobucharIonoModel | reportGnssAdditionalSystemInfo | reportXtraServer | requestXtraData
  | requestTime | requestLocation | requestATL | releaseATL | requestNiNotify => false
  | _ => true
  end.

(** An adapter as the API sees it: its answers to isAdapterMaster, isInSession, getEvtMask, and
    the calls it returns true from. *)
Record LocAdapterBase := mkAdapter {
  mEvtMask : Z; mIsMaster : bool; inSession : bool; mAdapterAdded : bool; handles : list Upward }.

Definition set_evtMask (m : Z) (o : LocAdapterBase) : LocAdapterBase :=
  mkAdapter m (mIsMaster o) (inSession o) (mAdapterAdded o) (handles o).
Definition set_added (o : LocAdapterBase) : LocAdapterBase :=
  mkAdapter (mEvtMask o) (mIsMaster o) (inSession o) true (handles o).

(** ** The messages of the API's task *)
Inductive LocMsg :=
  | LocSsrMsg | LocOpenMsg (mAdapter : ptr) | LocCloseMsg | LocSetNmeaMsg (mMask : Z).
#[export] Instance LocMsg_eq : EqDecision LocMsg.
Proof. solve_decision. Defined.

(** What an adapter is told. *)
Inductive Notice := EngineUp (a : addr) | EngineDown (a : addr) | Told (u : Upward) (a : addr).

(** ** The virtual methods: the connection to the modem in a state [P]

    [events] is the mask of the events it was opened for, 0 when it is closed; [excluded] is the
    mExcludedMask of the constructor. [open] returns whether it succeeded, which it does when
    [opens]: the connection is there, or can be made. *)
Class Api (P : Type) := {
  open : Z → M P bool;
  opens : P → bool;
  close : M P unit;
  setNMEATypesSync : Z → M P unit;
  events : P → Z;
  excluded : P → Z }.

(** What LocApiBase relies on. *)
Class ApiLaws (P : Type) `{Api P} := {
  open_events m p : ∃ ok p', open m p = Done ok p' ∧ excluded p' = excluded p ∧
    (opens p = true → ok = true ∧ events p' = Z.ldiff m (excluded p));
  close_events p : ∃ p', close p = Done tt p' ∧ events p' = 0%Z ∧ excluded p' = excluded p;
  nmea_events m p : ∃ p', setNMEATypesSync m p = Done tt p' ∧ events p' = events p ∧ excluded p' = excluded p }.

Record World (P : Type) := mkWorld {
  mLocAdapters : list ptr;
  adapters : gmap addr LocAdapterBase;
  next : addr;
  queue : list LocMsg;
  api : P;
  notices : list Notice }.
Arguments mkWorld {P}.
Arguments mLocAdapters {P}.
Arguments adapters {P}.
Arguments next {P}.
Arguments queue {P}.
Arguments api {P}.
Arguments notices {P}.

Section LocApiBase.
Context {P : Type} `{Api P}.
Notation W := (World P).

Definition set_table (t : list ptr) (w : W) : W :=
  mkWorld t (adapters w) (next w) (queue w) (api w) (notices w).
Definition set_adapters (o : gmap addr LocAdapterBase) (n : addr) (w : W) : W :=
  mkWorld (mLocAdapters w) o n (queue w) (api w) (notices w).
Definition set_queue (q : list LocMsg) (w : W) : W :=
  mkWorld (mLocAdapters w) (adapters w) (next w) q (api w) (notices w).
Definition set_api (p : P) (w : W) : W :=
  mkWorld (mLocAdapters w) (adapters w) (next w) (queue w) p (notices w).
Definition set_notices (l : list Notice) (w : W) : W :=
  mkWorld (mLocAdapters w) (adapters w) (next w) (queue w) (api w) l.

(** The constructor. *)
Definition init (p : P) : W := mkWorld (replicate MAX_ADAPTERS None) ∅ 1%positive [] p [].

Definition sendMsg (m : LocMsg) : M W unit := modify (λ w, set_queue (queue w ++ [m]) w).
Definition emit (n : Notice) : M W unit := modify (λ w, set_notices (notices w ++ [n]) w).
Definition run_api {X} (m : M P X) : M W X := λ w,
  match m (api w) with Done x p => Done x (set_api p w) | UB => UB | NoFuel => NoFuel end.

(** mLocAdapters[i], and a method of the adapter at [a]. *)
Definition adapter_slot (i : nat) : M W ptr := deref (λ w, mLocAdapters w !! i).
Definition adapter (a : addr) : M W LocAdapterBase := deref (λ w, adapters w !! a).

(** The loop of TO_ALL_ADAPTERS from index [i] on, with [k] indices left; the macro. *)
Fixpoint all_from (k i : nat) (call : addr → M W unit) : M W unit :=
  match k with
  | O => mret tt
  | S k =>
      p ← adapter_slot i;
      match p with
      | Some a => _ ← call a; all_from k (S i) call
      | None => mret tt
      end
  end.
Definition TO_ALL_ADAPTERS (call : addr → M W unit) : M W unit := all_from MAX_ADAPTERS 0 call.

(** TO_1ST_HANDLING_ADAPTER *)
Fixpoint first_from (k i : nat) (call : addr → M W bool) : M W unit :=
  match k with
  | O => mret tt
  | S k =>
      p ← adapter_slot i;
      match p with
      | Some a => handled ← call a; if handled : bool then mret tt else first_from k (S i) call
      | None => mret tt
      end
  end.
Definition TO_1ST_HANDLING_ADAPTER (call : addr → M W bool) : M W unit := first_from MAX_ADAPTERS 0 call.

(** getEvtMask: the loop accumulates a mask. *)
Fixpoint mask_from (k i : nat) (mask : Z) : M W Z :=
  match k with
  | O => mret mask
  | S k =>
      p ← adapter_slot i;
      match p with
      | Some a => o ← adapter a; mask_from k (S i) (Z.lor mask (mEvtMask o))
      | None => mret mask
      end
  end.
Definition getEvtMask : M W Z :=
  mask ← mask_from MAX_ADAPTERS 0 0%Z;
  x ← gets (λ w, excluded (api w));
  mret (Z.ldiff mask x).

(** isMaster and isInSession: the loop ends at the first adapter that says so. *)
Fixpoint any_from (k i : nat) (says : LocAdapterBase → bool) : M W bool :=
  match k with
  | O => mret false
  | S k =>
      p ← adapter_slot i;
      match p with
      | Some a => o ← adapter a; if says o then mret true else any_from k (S i) says
      | None => mret false
      end
  end.
Definition isMaster : M W bool := any_from MAX_ADAPTERS 0 mIsMaster.
Definition isInSession : M W bool := any_from MAX_ADAPTERS 0 inSession.

(** addAdapter: at the first free place, unless it is met before. *)
Fixpoint add_from (k i : nat) (a : addr) : M W unit :=
  match k with
  | O => mret tt
  | S k =>
      p ← adapter_slot i;
      if decide (p = Some a) then mret tt
      else match p with
           | None =>
               _ ← modify (λ w, set_table (<[i := Some a]> (mLocAdapters w)) w);
               sendMsg (LocOpenMsg (Some a))
           | Some _ => add_from k (S i) a
           end
  end.
Definition addAdapter (a : addr) : M W unit := add_from MAX_ADAPTERS 0 a.

(** [while (++i < MAX_ADAPTERS && mLocAdapters[i] != NULL);] *)
Fixpoint next_null (k i : nat) : M W nat :=
  match k with
  | O => mret (S i)
  | S k =>
      p ← adapter_slot (S i);
      match p with Some _ => next_null k (S i) | None => mret (S i) end
  end.

(** removeAdapter: after the place is filled the loop goes on behind the last adapter. *)
Fixpoint remove_from (k i : nat) (a : addr) : M W unit :=
  match k with
  | O => mret tt
  | S k =>
      if decide (MAX_ADAPTERS ≤ i) then mret tt else
      p ← adapter_slot i;
      match p with
      | None => mret tt
      | Some b =>
          if decide (b = a) then
            _ ← modify (λ w, set_table (<[i := None]> (mLocAdapters w)) w);
            n ← next_null (MAX_ADAPTERS - S i) i;
            let e := n - 1 in
            q ← adapter_slot e;
            _ ← modify (λ w, set_table (<[e := None]> (<[i := q]> (mLocAdapters w))) w);
            _ ← sendMsg (if decide (e = 0) then LocCloseMsg else LocOpenMsg None);
            remove_from k (S e) a
          else remove_from k (S i) a
      end
  end.
Definition removeAdapter (a : addr) : M W unit := remove_from (S MAX_ADAPTERS) 0 a.

Definition updateEvtMask : M W unit := sendMsg (LocOpenMsg None).
Definition updateNmeaMask (mask : Z) : M W unit := sendMsg (LocSetNmeaMsg mask).

(** A virtual method of the adapter at [a], which must exist. *)
Definition tell (n : addr → Notice) (a : addr) : M W unit := _ ← adapter a; emit (n a).

Definition handleEngineUpEvent : M W unit := TO_ALL_ADAPTERS (tell EngineUp).
Definition handleEngineDownEvent : M W unit := _ ← sendMsg LocSsrMsg; TO_ALL_ADAPTERS (tell EngineDown).

(** The upward calls, each through its macro. *)
Definition upward (u : Upward) : M W unit :=
  if to_all u then TO_ALL_ADAPTERS (tell (Told u))
  else TO_1ST_HANDLING_ADAPTER (λ a, o ← adapter a; _ ← emit (Told u a); mret (bool_decide (u ∈ handles o))).

(** proc of the messages. *)
Definition open_all : M W bool := mask ← getEvtMask; run_api (open mask).
Definition proc (m : LocMsg) : M W unit :=
  match m with
  | LocSsrMsg => _ ← run_api close; ok ← open_all; when ok handleEngineUpEvent
  | LocOpenMsg mAdapter =>
      ok ← open_all;
      match mAdapter with
      | Some a => when ok (tell EngineUp a)
      | None => mret tt
      end
  | LocCloseMsg => run_api close
  | LocSetNmeaMsg mask => run_api (setNMEATypesSync mask)
  end.

(** One message of the task. *)
Definition run : M W unit :=
  q ← gets queue;
  match q with
  | [] => mret tt
  | m :: q => _ ← modify (set_queue q); proc m
  end.

(** The constructor, doneInit and the destructor of LocAdapterBase, and an adapter that wants
    other events. *)
Definition new_adapter (o : LocAdapterBase) (waitForDoneInit : bool) : M W unit :=
  a ← gets next;
  let o := mkAdapter (mEvtMask o) (mIsMaster o) (inSession o) (negb waitForDoneInit) (handles o) in
  _ ← modify (λ w, set_adapters (<[a := o]> (adapters w)) (Pos.succ a) w);
  when (negb waitForDoneInit) (addAdapter a).
Definition upd_adapter (a : addr) (f : LocAdapterBase → LocAdapterBase) : M W unit :=
  o ← adapter a; modify (λ w, set_adapters (<[a := f o]> (adapters w)) (next w) w).
Definition doneInit (a : addr) : M W unit :=
  o ← adapter a;
  when (negb (mAdapterAdded o)) (_ ← addAdapter a; upd_adapter a set_added).
Definition delete_adapter (a : addr) : M W unit :=
  _ ← adapter a;
  _ ← removeAdapter a;
  modify (λ w, set_adapters (delete a (adapters w)) (next w) w).
Definition want_events (a : addr) (mask : Z) : M W unit :=
  _ ← upd_adapter a (set_evtMask mask); updateEvtMask.

Inductive Call :=
  | CNew (o : LocAdapterBase) (waitForDoneInit : bool)
  | CDoneInit (a : addr)
  | CDelete (a : addr)
  | CWant (a : addr) (mask : Z)
  | CNmea (mask : Z)
  | CEngineDown
  | CUpward (u : Upward)
  | CRun.
Definition exec (c : Call) : M W unit :=
  match c with
  | CNew o wait => new_adapter o wait
  | CDoneInit a => doneInit a
  | CDelete a => delete_adapter a
  | CWant a mask => want_events a mask
  | CNmea mask => updateNmeaMask mask
  | CEngineDown => handleEngineDownEvent
  | CUpward u => upward u
  | CRun => run
  end.
Fixpoint execs (l : list Call) : M W unit :=
  match l with [] => mret tt | c :: l => _ ← exec c; execs l end.
End LocApiBase.

(** ** What is checked and changed before a report is passed on *)

Definition LOC_GPS_LOCATION_HAS_ACCURACY : Z := 0x10.
(** LOC_POS_TECH_MASK_SATELLITE | LOC_POS_TECH_MASK_SENSORS | LOC_POS_TECH_MASK_HYBRID *)
Definition final_technologies : Z := Z.lor (Z.lor 0x01 0x08) 0x80.

(** needReport: the flags and the accuracy of the location, a float; the configuration of
    ContextBase is the last two arguments. *)
Definition needReport (flags : Z) (accuracy : float) (status : loc_sess_status) (techMask : Z)
    (INTERMEDIATE_POS ACCURACY_THRES : Z) : bool :=
  match status with
  | LOC_SESS_SUCCESS => negb (Z.land final_technologies techMask =? 0)%Z
  | LOC_SESS_INTERMEDIATE =>
      if (loc_sess_status_value LOC_SESS_INTERMEDIATE =? INTERMEDIATE_POS)%Z
      then negb (negb (Z.land flags LOC_GPS_LOCATION_HAS_ACCURACY =? 0)%Z && negb (ACCURACY_THRES =? 0)%Z &&
                 SFltb (float_of_int ACCURACY_THRES) accuracy)
      else false
  | LOC_SESS_FAILURE => false
  end.

Definition GNSS_SV_MAX : Z := 128.
(** The names constellationString has, less one. *)
Definition last_constellation : Z := 7.

(** reportSv: the types of the satellites of the report, of which [count] are valid. *)
Definition known_types (count : Z) (types : list Z) : list Z :=
  imap (λ i t, if (Z.of_nat i <? count)%Z && (Z.of_nat i <? GNSS_SV_MAX)%Z && (last_constellation <? t)%Z
               then value GNSS_SV_TYPE_UNKNOWN else t) types.

(** ** The array *)

(** The array that holds the adapters [l], in this order and without holes. *)
Definition table (l : list addr) : list ptr := (Some <$> l) ++ replicate (MAX_ADAPTERS - length l) None.

Lemma table_lookup l i : length l ≤ MAX_ADAPTERS → table l !! i = if decide (i < MAX_ADAPTERS) then Some (l !! i) else None.
Proof.
  intros Hl. unfold table. destruct (decide (i < length l)) as [Hi|Hi].
  - rewrite lookup_app_l by (by rewrite length_fmap). rewrite list_lookup_fmap. rewrite decide_True by lia.
    by destruct (lookup_lt_is_Some_2 l i Hi) as [a ->].
  - rewrite lookup_app_r by (rewrite length_fmap; lia). rewrite length_fmap, (lookup_ge_None_2 l) by lia.
    destruct (decide (i < MAX_ADAPTERS)).
    + apply lookup_replicate. split; [done|lia].
    + apply lookup_ge_None_2. rewrite length_replicate. lia.
Qed.

(** What is left when the adapter between [l1] and [l2] goes: the last one takes its place. *)
Definition take_place (l1 l2 : list addr) : list addr :=
  match last l2 with
  | Some b => l1 ++ b :: take (length l2 - 1) l2
  | None => l1
  end.
Lemma take_place_perm l1 a l2 : a :: take_place l1 l2 ≡ₚ l1 ++ a :: l2.
Proof.
  unfold take_place. destruct (last_snoc_inv l2) as [->|(l & b & ->)]; [simpl; by rewrite Permutation_cons_append|].
  rewrite last_snoc, length_app. simpl. replace (length l + 1 - 1) with (length l) by lia.
  rewrite take_app_length. rewrite Permutation_middle. by rewrite (Permutation_cons_append l b).
Qed.

Lemma length_table l : length l ≤ MAX_ADAPTERS → length (table l) = MAX_ADAPTERS.
Proof. intros. unfold table. rewrite length_app, length_replicate, length_fmap. lia. Qed.

Lemma clear_last l a : length (l ++ [a]) ≤ MAX_ADAPTERS → <[length l := None]> (table (l ++ [a])) = table l.
Proof.
  intros Hl. pose proof (length_table _ Hl) as HT. rewrite length_app in Hl. simpl in Hl. apply list_eq. intros i.
  destruct (decide (i = length l)) as [->|Hi].
  - rewrite list_lookup_insert_eq by lia. rewrite table_lookup by lia. rewrite decide_True by lia.
    by rewrite lookup_ge_None_2 by lia.
  - rewrite list_lookup_insert_ne by done. rewrite !table_lookup by (rewrite ?length_app; simpl; lia).
    destruct (decide _); [|done]. f_equal. destruct (decide (i < length l)); [by rewrite lookup_app_l|].
    rewrite !lookup_ge_None_2 by (rewrite ?length_app; simpl; lia). done.
Qed.

Lemma fill_slot l1 a l2 b : length (l1 ++ a :: l2) ≤ MAX_ADAPTERS →
  <[length l1 := Some b]> (table (l1 ++ a :: l2)) = table (l1 ++ b :: l2).
Proof.
  intros Hl. pose proof (length_table _ Hl) as HT. rewrite length_app in Hl. simpl in Hl. apply list_eq. intros i.
  destruct (decide (i = length l1)) as [->|Hi].
  - rewrite list_lookup_insert_eq by lia. rewrite table_lookup by (rewrite length_app; simpl; lia).
    rewrite decide_True by lia. by rewrite list_lookup_middle.
  - rewrite list_lookup_insert_ne by done. rewrite !table_lookup by (rewrite length_app; simpl; lia).
    destruct (decide _); [|done]. f_equal. destruct (decide (i < length l1)); [by rewrite !lookup_app_l|].
    rewrite !lookup_app_r by lia. by destruct (i - length l1) eqn:E; [lia|].
Qed.

(** What removeAdapter does to the array, with [q] the adapter it moves. *)
Lemma take_place_table l1 a l2 : length (l1 ++ a :: l2) ≤ MAX_ADAPTERS →
  let t := <[length l1 := None]> (table (l1 ++ a :: l2)) in
  ∃ q, t !! (length l1 + length l2) = Some q ∧
       <[length l1 + length l2 := None]> (<[length l1 := q]> t) = table (take_place l1 l2).
Proof.
  intros Hl t. unfold t, take_place. destruct (last_snoc_inv l2) as [->|(l & b & ->)].
  - exists None. simpl. rewrite Nat.add_0_r, !list_insert_insert_eq. rewrite clear_last by done.
    rewrite length_app in Hl. simpl in Hl. rewrite table_lookup by lia. rewrite decide_True by lia.
    by rewrite lookup_ge_None_2 by lia.
  - exists (Some b). rewrite last_snoc, length_app. simpl length. replace (length l + 1 - 1) with (length l) by lia.
    rewrite take_app_length, list_insert_insert_eq, fill_slot by done. split.
    + rewrite list_lookup_insert_ne by lia. rewrite table_lookup by done.
      rewrite !length_app in Hl. simpl in Hl. rewrite length_app in Hl. simpl in Hl. rewrite decide_True by lia. f_equal.
      rewrite lookup_app_r by lia. replace (length l1 + (length l + 1) - length l1) with (S (length l)) by lia.
      simpl. by apply list_lookup_middle.
    + replace (length l1 + (length l + 1)) with (length (l1 ++ b :: l)) by (rewrite length_app; simpl; lia).
      change (l1 ++ b :: l ++ [b]) with (l1 ++ (b :: l) ++ [b]). rewrite app_assoc. apply clear_last.
      rewrite <- app_assoc. rewrite !length_app in *. simpl in *. rewrite length_app in *. simpl in *. lia.
Qed.

(** ** What the loops do *)
Section loops.
Context {P : Type} `{Api P}.
Notation W := (World P).
Implicit Types (w : W).

Definition all_alive (l : list addr) (w : W) : Prop := ∀ a, a ∈ l → is_Some (adapters w !! a).

Lemma slot_table l i w :
  mLocAdapters w = table l → length l ≤ MAX_ADAPTERS → i < MAX_ADAPTERS → adapter_slot i w = Done (l !! i) w.
Proof. intros Ht Hl Hi. apply deref_done. rewrite Ht, table_lookup by done. by rewrite decide_True. Qed.

(** Reading index [i] of the array and going on. *)
Lemma slot_bind {X} (f : ptr → M W X) l i w :
  mLocAdapters w = table l → length l ≤ MAX_ADAPTERS → i < MAX_ADAPTERS → (adapter_slot i ≫= f) w = f (l !! i) w.
Proof. intros. apply bind_done. by eapply slot_table. Qed.
Lemma adapter_bind {X} (f : LocAdapterBase → M W X) a o w :
  adapters w !! a = Some o → (adapter a ≫= f) w = f o w.
Proof. intros. apply bind_done. by apply deref_done. Qed.

Lemma tell_done n a w : is_Some (adapters w !! a) → tell n a w = Done tt (set_notices (notices w ++ [n a]) w).
Proof. intros [o Ho]. unfold tell. by erewrite adapter_bind. Qed.

Lemma all_from_tell n l k i w :
  mLocAdapters w = table l → length l ≤ MAX_ADAPTERS → all_alive l w → k + i = MAX_ADAPTERS →
  all_from k i (tell n) w = Done tt (set_notices (notices w ++ (n <$> drop i l)) w).
Proof.
  intros Ht Hl. revert i w Ht. induction k as [|k IH]; intros i w Ht Ha Hk.
  - rewrite drop_ge by lia. simpl. rewrite app_nil_r. by destruct w.
  - simpl. rewrite (slot_bind _ l) by (done || lia). destruct (l !! i) as [a|] eqn:E.
    + assert (Hai : is_Some (adapters w !! a)) by (apply Ha; by eapply list_elem_of_lookup_2).
      rewrite (bind_done _ _ _ _ _ (tell_done n a w Hai)). rewrite IH by (done || lia). simpl.
      rewrite (drop_S _ _ _ E). simpl. by rewrite <- app_assoc.
    + apply lookup_ge_None in E. rewrite drop_ge by lia. simpl. rewrite app_nil_r. by destruct w.
Qed.

(** The adapters that a call reaches which stops at the first one that handles it. *)
Fixpoint up_to_first (says : addr → bool) (l : list addr) : list addr :=
  match l with [] => [] | a :: l => a :: if says a then [] else up_to_first says l end.

Definition says (w : W) (u : Upward) (a : addr) : bool :=
  match adapters w !! a with Some o => bool_decide (u ∈ handles o) | None => false end.

Lemma first_from_told u l k i w :
  mLocAdapters w = table l → length l ≤ MAX_ADAPTERS → all_alive l w → k + i = MAX_ADAPTERS →
  first_from k i (λ a, o ← adapter a; _ ← emit (Told u a); mret (bool_decide (u ∈ handles o))) w =
  Done tt (set_notices (notices w ++ (Told u <$> up_to_first (says w u) (drop i l))) w).
Proof.
  intros Ht Hl. revert i w Ht. induction k as [|k IH]; intros i w Ht Ha Hk.
  - rewrite drop_ge by lia. simpl. rewrite app_nil_r. by destruct w.
  - simpl. rewrite (slot_bind _ l) by (done || lia). destruct (l !! i) as [a|] eqn:E.
    + destruct (Ha a) as [o Ho]; [by eapply list_elem_of_lookup_2|].
      rewrite (bind_done _ _ _ (bool_decide (u ∈ handles o)) (set_notices (notices w ++ [Told u a]) w)).
      2: { by rewrite (adapter_bind _ _ o). }
      rewrite (drop_S _ _ _ E). simpl. unfold says at 1. rewrite Ho. destruct (bool_decide _); [done|].
      rewrite IH by (done || lia). simpl. by rewrite <- app_assoc.
    + apply lookup_ge_None in E. rewrite drop_ge by lia. simpl. rewrite app_nil_r. by destruct w.
Qed.

(** The union of the events the adapters [l] want. *)
Definition union_mask (w : W) (l : list addr) : Z :=
  foldr (λ a m, Z.lor (default 0%Z (mEvtMask <$> adapters w !! a)) m) 0%Z l.

Lemma mask_from_union l k i m w :
  mLocAdapters w = table l → length l ≤ MAX_ADAPTERS → all_alive l w → k + i = MAX_ADAPTERS →
  mask_from k i m w = Done (Z.lor m (union_mask w (drop i l))) w.
Proof.
  intros Ht Hl Ha. revert i m. induction k as [|k IH]; intros i m Hk.
  - rewrite drop_ge by lia. simpl. by rewrite Z.lor_0_r.
  - simpl. rewrite (slot_bind _ l) by (done || lia). destruct (l !! i) as [a|] eqn:E.
    + destruct (Ha a) as [o Ho]; [by eapply list_elem_of_lookup_2|]. rewrite (adapter_bind _ _ o) by done.
      rewrite IH by lia. rewrite (drop_S _ _ _ E). simpl. rewrite Ho. simpl. by rewrite Z.lor_assoc.
    + apply lookup_ge_None in E. rewrite drop_ge by lia. simpl. by rewrite Z.lor_0_r.
Qed.

Lemma any_from_exists f l k i w :
  mLocAdapters w = table l → length l ≤ MAX_ADAPTERS → all_alive l w → k + i = MAX_ADAPTERS →
  any_from k i f w = Done (existsb (λ a, default false (f <$> adapters w !! a)) (drop i l)) w.
Proof.
  intros Ht Hl Ha. revert i. induction k as [|k IH]; intros i Hk; [by rewrite drop_ge by lia|].
  simpl. rewrite (slot_bind _ l) by (done || lia). destruct (l !! i) as [a|] eqn:E.
  - destruct (Ha a) as [o Ho]; [by eapply list_elem_of_lookup_2|]. rewrite (adapter_bind _ _ o) by done.
    rewrite (drop_S _ _ _ E). simpl. rewrite Ho. simpl. destruct (f o); [done|]. apply IH. lia.
  - apply lookup_ge_None in E. by rewrite drop_ge by lia.
Qed.

(** addAdapter, on each of its branches. *)
Definition added (a : addr) (l : list addr) (w : W) : W :=
  if decide (a ∈ l ∨ length l = MAX_ADAPTERS) then w
  else set_queue (queue w ++ [LocOpenMsg (Some a)]) (set_table (table (l ++ [a])) w).

Lemma add_from_spec a l k i w :
  mLocAdapters w = table l → length l ≤ MAX_ADAPTERS → k + i = MAX_ADAPTERS → a ∉ take i l → i ≤ length l →
  add_from k i a w = Done tt (added a l w).
Proof.
  intros Ht Hl. revert i. induction k as [|k IH]; intros i Hk Hi Hil.
  - unfold added. rewrite decide_True by (right; lia). done.
  - simpl. rewrite (slot_bind _ l) by (done || lia). destruct (l !! i) as [b|] eqn:E.
    + destruct (decide (Some b = Some a)) as [[= ->]|Hb].
      * unfold added. rewrite decide_True; [done|]. left. by eapply list_elem_of_lookup_2.
      * apply IH; [lia| |apply lookup_lt_Some in E; lia].
        rewrite (take_S_r _ _ _ E). set_solver.
    + apply lookup_ge_None in E. rewrite take_ge in Hi by lia. replace i with (length l) in * by lia.
      rewrite decide_False by done. unfold added. rewrite decide_False by (intros [?|?]; [done|lia]).
      mrun. f_equal. unfold set_queue, set_table. simpl. f_equal. rewrite Ht. unfold table.
      rewrite insert_app_r_alt by (by rewrite length_fmap). rewrite length_fmap, Nat.sub_diag, length_app. simpl.
      replace (MAX_ADAPTERS - length l) with (S (MAX_ADAPTERS - (length l + 1))) by lia. simpl.
      rewrite fmap_app, <- app_assoc. done.
Qed.

(** Removing an adapter that is not in the array changes nothing. *)
Lemma remove_from_absent a l k i w :
  mLocAdapters w = table l → length l ≤ MAX_ADAPTERS → a ∉ drop i l → MAX_ADAPTERS < k + i →
  remove_from k i a w = Done tt w.
Proof.
  intros Ht Hl. revert i. induction k as [|k IH]; intros i Ha Hk; [done|]. simpl.
  destruct (decide _) as [|Hi]; [done|]. rewrite (slot_bind _ l) by (done || lia).
  destruct (l !! i) as [b|] eqn:E; [|done]. rewrite (drop_S _ _ _ E) in Ha.
  rewrite decide_False by set_solver. apply IH; [set_solver|lia].
Qed.

Lemma next_null_end n k i w :
  (∀ j, i < j < n → ∃ b, mLocAdapters w !! j = Some (Some b)) →
  (n < MAX_ADAPTERS → mLocAdapters w !! n = Some None) → i < n ≤ MAX_ADAPTERS → k + S i = MAX_ADAPTERS →
  next_null k i w = Done n w.
Proof.
  revert i. induction k as [|k IH]; intros i Hs Hn Hi Hk; simpl.
  - by replace n with (S i) by lia.
  - unfold adapter_slot. destruct (decide (S i = n)) as [<-|].
    + rewrite (bind_done _ _ _ None w) by (apply deref_done; apply Hn; lia). done.
    + destruct (Hs (S i)) as [b Hb]; [lia|]. rewrite (bind_done _ _ _ (Some b) w) by (by apply deref_done).
      apply IH; [|done|lia|lia]. intros j Hj. apply Hs. lia.
Qed.
End loops.

Section removal.
Context {P : Type} `{Api P}.
Notation W := (World P).
Implicit Types (w : W).

Definition removed (l1 l2 : list addr) (w : W) : W :=
  set_queue (queue w ++ [if decide (length l1 + length l2 = 0) then LocCloseMsg else LocOpenMsg None])
    (set_table (table (take_place l1 l2)) w).

Lemma take_place_length l1 l2 : length (take_place l1 l2) = length l1 + length l2.
Proof.
  pose proof (Permutation_length (take_place_perm l1 1%positive l2)) as E. rewrite length_app in E. simpl in E. lia.
Qed.

(** The place of [a] is found, the end of the array is found, the last adapter is moved. *)
Lemma remove_here a l1 l2 k w :
  mLocAdapters w = table (l1 ++ a :: l2) → length (l1 ++ a :: l2) ≤ MAX_ADAPTERS → MAX_ADAPTERS < S k + length l1 →
  remove_from (S k) (length l1) a w = Done tt (removed l1 l2 w).
Proof.
  intros Ht Hl Hk. pose proof (length_table _ Hl) as HT. destruct (take_place_table l1 a l2 Hl) as (q & Hq & Hend).
  assert (Hlen : length l1 + S (length l2) ≤ MAX_ADAPTERS) by (rewrite length_app in Hl; done).
  cbn [remove_from]. rewrite decide_False by lia. rewrite (slot_bind _ (l1 ++ a :: l2)) by (done || lia).
  rewrite list_lookup_middle by done. rewrite decide_True by done.
  set (t := <[length l1 := None]> (table (l1 ++ a :: l2))) in *.
  rewrite (bind_done _ _ _ tt (set_table t w)) by (mrun; by rewrite Ht).
  rewrite (bind_done _ _ _ (S (length l1 + length l2)) (set_table t w)).
  2: { apply next_null_end; [| |lia|lia]; simpl; unfold t.
       - intros j Hj. rewrite list_lookup_insert_ne by lia. rewrite table_lookup by done. rewrite decide_True by lia.
         destruct (lookup_lt_is_Some_2 (l1 ++ a :: l2) j) as [b Hb]; [rewrite length_app; simpl; lia|].
         exists b. by rewrite Hb.
       - intros Hn. rewrite list_lookup_insert_ne by lia. rewrite table_lookup by done. rewrite decide_True by lia.
         by rewrite lookup_ge_None_2 by (rewrite length_app; simpl; lia). }
  cbv zeta. replace (S (length l1 + length l2) - 1) with (length l1 + length l2) by lia.
  rewrite (bind_done _ _ _ q (set_table t w)) by (by apply deref_done).
  rewrite (bind_done _ _ _ tt (set_table (table (take_place l1 l2)) w)) by (mrun; by rewrite Hend).
  rewrite (bind_done _ _ _ tt (removed l1 l2 w)) by done.
  apply (remove_from_absent a (take_place l1 l2)); [done|rewrite take_place_length; lia| |lia].
  rewrite drop_ge by (rewrite take_place_length; lia). set_solver.
Qed.

Lemma remove_from_spec a l1 l2 k i w :
  mLocAdapters w = table (l1 ++ a :: l2) → length (l1 ++ a :: l2) ≤ MAX_ADAPTERS → a ∉ l1 → i ≤ length l1 →
  MAX_ADAPTERS < k + i → remove_from k i a w = Done tt (removed l1 l2 w).
Proof.
  intros Ht Hl Ha. revert i. induction k as [|k IH]; intros i Hi Hk; [rewrite length_app in Hl; simpl in Hl; lia|].
  destruct (decide (i = length l1)) as [->|Hne]; [by apply remove_here|].
  rewrite length_app in Hl. simpl in Hl. simpl. rewrite decide_False by lia.
  rewrite (slot_bind _ (l1 ++ a :: l2)) by (rewrite ?length_app; simpl; done || lia).
  destruct (lookup_lt_is_Some_2 l1 i) as [b Hb]; [lia|]. rewrite lookup_app_l, Hb by lia.
  rewrite decide_False by (intros ->; apply Ha; by eapply list_elem_of_lookup_2). apply IH; lia.
Qed.
End removal.

(** ** The invariant *)
Section invariant.
Context {P : Type} `{ApiLaws P}.
Notation W := (World P).
Implicit Types (w : W).

(** Every time the modem is opened the connection can be made. *)
Definition always_opens : Prop := ∀ p : P, opens p = true.

(** The events the modem should be open for. *)
Definition wanted (w : W) (l : list addr) : Z := Z.ldiff (union_mask w l) (excluded (api w)).

(** The messages in the queue bring the modem to [z], given whether it is there already. *)
Definition brings (z : Z) (s : Prop) (m : LocMsg) : Prop :=
  match m with LocSsrMsg | LocOpenMsg _ => True | LocCloseMsg => z = 0%Z | LocSetNmeaMsg _ => s end.
Definition settles (z : Z) (s : Prop) (q : list LocMsg) : Prop := foldl (brings z) s q.
Lemma settles_snoc z s q m : settles z s (q ++ [m]) = brings z (settles z s q) m.
Proof. unfold settles. by rewrite foldl_app. Qed.
Lemma settles_mono z (s s' : Prop) q : (s → s') → settles z s q → settles z s' q.
Proof. revert s s'. induction q as [|m q IH]; intros s s' Hs; [done|]. apply IH. destruct m; simpl; auto. Qed.

(** The array holds the adapters [l], which exist. *)
Record Shape (l : list addr) (w : W) : Prop := {
  sh_table : mLocAdapters w = table l;
  sh_length : length l ≤ MAX_ADAPTERS;
  sh_alive : all_alive l w }.

Record Inv (x : Z) (l : list addr) (w : W) : Prop := {
  iv_shape : Shape l w;
  iv_nodup : NoDup l;
  iv_added a o : adapters w !! a = Some o → (mAdapterAdded o = true ↔ a ∈ l);
  iv_open a : LocOpenMsg (Some a) ∈ queue w → is_Some (adapters w !! a);
  iv_fresh a : is_Some (adapters w !! a) → (a < next w)%positive;
  iv_excluded : excluded (api w) = x;
  iv_sync : always_opens → settles (wanted w l) (events (api w) = wanted w l) (queue w) }.

(** A place is free. *)
Definition room (w : W) : Prop := mLocAdapters w !! (MAX_ADAPTERS - 1) = Some None.
Lemma shape_room l w : Shape l w → room w → length l < MAX_ADAPTERS.
Proof.
  intros [Ht Hl _]. unfold room. rewrite Ht, table_lookup by done. rewrite decide_True by (unfold MAX_ADAPTERS; lia).
  intros [= E%lookup_ge_None]. unfold MAX_ADAPTERS in *. lia.
Qed.

(** Calls of adapters that exist; an adapter is not deleted while a message refers to it. *)
Definition allowed (w : W) (c : Call) : Prop :=
  match c with
  | CNew _ wait => wait = true ∨ room w
  | CDoneInit a => is_Some (adapters w !! a) ∧ room w
  | CDelete a => is_Some (adapters w !! a) ∧ LocOpenMsg (Some a) ∉ queue w
  | CWant a _ => is_Some (adapters w !! a)
  | _ => True
  end.
Definition step (w w' : W) : Prop := ∃ c, allowed w c ∧ exec c w = Done tt w'.

Lemma getEvtMask_wanted l w : Shape l w → getEvtMask w = Done (wanted w l) w.
Proof.
  intros [Ht Hl Ha]. unfold getEvtMask.
  rewrite (bind_done _ _ _ _ _ (mask_from_union l MAX_ADAPTERS 0 0%Z w Ht Hl Ha eq_refl)). mrun. by rewrite drop_0.
Qed.

Lemma union_mask_ext w w' l :
  (∀ a, a ∈ l → mEvtMask <$> adapters w' !! a = mEvtMask <$> adapters w !! a) → union_mask w' l = union_mask w l.
Proof.
  induction l as [|a l IH]; intros Ha; [done|]. simpl. rewrite IH by set_solver. by rewrite Ha by set_solver.
Qed.

Lemma open_all_spec l w : Shape l w →
  ∃ ok p', open_all w = Done ok (set_api p' w) ∧ excluded p' = excluded (api w) ∧
           (always_opens → events p' = wanted w l).
Proof.
  intros Hs. destruct (open_events (wanted w l) (api w)) as (ok & p' & E & Ex & Ee). exists ok, p'. split_and!; [|done|].
  - unfold open_all. rewrite (bind_done _ _ _ _ _ (getEvtMask_wanted l w Hs)). unfold run_api. by rewrite E.
  - intros Ho. destruct (Ee (Ho _)) as [_ ->]. apply Z.bits_inj. intros n. unfold wanted. rewrite !Z.ldiff_spec. by destruct (Z.testbit _ n), (Z.testbit _ n).
Qed.
Lemma engineUp_spec l w : Shape l w → ∃ n, handleEngineUpEvent w = Done tt (set_notices n w).
Proof. intros [Ht Hl Ha]. eexists. by apply (all_from_tell _ l). Qed.

Definition outcome_events (w : W) (l : list addr) (m : LocMsg) : Z :=
  match m with
  | LocSsrMsg | LocOpenMsg _ => wanted w l | LocCloseMsg => 0%Z | LocSetNmeaMsg _ => events (api w)
  end.

Lemma proc_spec l w m : Shape l w → (∀ a, m = LocOpenMsg (Some a) → is_Some (adapters w !! a)) →
  ∃ p' n', proc m w = Done tt (set_notices n' (set_api p' w)) ∧ excluded p' = excluded (api w) ∧
           (always_opens → events p' = outcome_events w l m).
Proof.
  intros Hs Hm. destruct m as [|oa| |mask]; simpl.
  - destruct (close_events (api w)) as (p1 & E1 & _ & X1). set (w1 := set_api p1 w).
    assert (Hs1 : Shape l w1) by by destruct Hs.
    destruct (open_all_spec l w1 Hs1) as (ok & p2 & E2 & Ex & Ee). assert (Hs2 : Shape l (set_api p2 w1)) by by destruct Hs.
    destruct (engineUp_spec l _ Hs2) as (n & En). exists p2, (if ok then n else notices w). split_and!.
    + rewrite (bind_done _ _ _ tt w1) by (unfold run_api; by rewrite E1). rewrite (bind_done _ _ _ _ _ E2). by destruct ok.
    + by rewrite Ex.
    + intros Ho. rewrite (Ee Ho). unfold wanted. simpl. by rewrite X1.
  - destruct (open_all_spec l w Hs) as (ok & p2 & E2 & Ex & Ee). rewrite (bind_done _ _ _ _ _ E2). destruct oa as [a|].
    + exists p2, (if ok then notices w ++ [EngineUp a] else notices w). split_and!; [|done..].
      destruct ok; [|done]. apply (tell_done EngineUp a (set_api p2 w)). by apply Hm.
    + by exists p2, (notices w).
  - destruct (close_events (api w)) as (p1 & E1 & Ee & X1). exists p1, (notices w). split_and!; [|done..].
    unfold run_api. by rewrite E1.
  - destruct (nmea_events mask (api w)) as (p1 & E1 & Ee & X1). exists p1, (notices w). split_and!; [|done..].
    unfold run_api. by rewrite E1.
Qed.

(** One message of the task: the queue gets shorter and nothing else but the modem changes. *)
Lemma run_inv x l w m q : Inv x l w → queue w = m :: q →
  ∃ w', run w = Done tt w' ∧ Inv x l w' ∧ queue w' = q ∧ adapters w' = adapters w.
Proof.
  intros [Hs Hn Ha Ho Hf Hx Hy] Hq. assert (Hs0 : Shape l (set_queue q w)) by by destruct Hs.
  destruct (proc_spec l _ m Hs0) as (p' & n' & E & Ex & Ee).
  { intros a ->. apply Ho. rewrite Hq. left. }
  exists (set_notices n' (set_api p' (set_queue q w))). split_and!; [|split|done..].
  - unfold run. rewrite (bind_done _ _ w (queue w) w) by done. rewrite Hq. by rewrite (bind_done _ _ _ tt (set_queue q w)).
  - by destruct Hs.
  - done.
  - done.
  - intros a Hin. apply Ho. rewrite Hq. by right.
  - done.
  - simpl. by rewrite Ex.
  - simpl. intros Hop. specialize (Hy Hop). specialize (Ee Hop). rewrite Hq in Hy. change (settles (wanted w l) (events (api w) = wanted w l) (m :: q)) with
      (settles (wanted w l) (brings (wanted w l) (events (api w) = wanted w l) m) q) in Hy.
    assert (Ew : wanted (set_notices n' (set_api p' (set_queue q w))) l = wanted w l) by (unfold wanted; simpl; by rewrite Ex).
    rewrite Ew. eapply settles_mono; [|exact Hy]. rewrite Ee. destruct m; simpl; [done|done|done|by intros].
Qed.

(** ** Every call keeps it *)

Lemma wanted_ext w w' l :
  (∀ a, a ∈ l → mEvtMask <$> adapters w' !! a = mEvtMask <$> adapters w !! a) →
  excluded (api w') = excluded (api w) → wanted w' l = wanted w l.
Proof. intros Ha Hx. unfold wanted. by rewrite (union_mask_ext w w'), Hx. Qed.

(** An adapter outside the array comes or goes. *)
Lemma inv_outside x l w a oo n : Inv x l w → a ∉ l →
  match oo with
  | Some o => mAdapterAdded o = false ∧ (a < n)%positive
  | None => LocOpenMsg (Some a) ∉ queue w end → (next w ≤ n)%positive →
  Inv x l (set_adapters (partial_alter (λ _, oo) a (adapters w)) n w).
Proof.
  intros [[Ht Hl Hal] Hn Ha Ho Hf Hx Hy] Hnin Hoo Hnext.
  assert (Hother : ∀ b, b ≠ a → partial_alter (λ _, oo) a (adapters w) !! b = adapters w !! b)
    by (intros b Hb; by apply lookup_partial_alter_ne).
  split; [split; [done|done|]|done| | | |done|].
  - intros b Hb. simpl. rewrite Hother; [by apply Hal|]. by intros ->.
  - simpl. intros b o. destruct (decide (b = a)) as [->|Hb].
    + rewrite lookup_partial_alter_eq. intros ->. destruct Hoo as [-> _]. by split.
    + rewrite Hother by done. apply Ha.
  - simpl. intros b Hb. destruct (decide (b = a)) as [->|Hne]; [|rewrite Hother by done; by apply Ho].
    rewrite lookup_partial_alter_eq. destruct oo; [by eexists|done].
  - simpl. intros b. destruct (decide (b = a)) as [->|Hne].
    + rewrite lookup_partial_alter_eq. destruct oo; [naive_solver|by intros []].
    + rewrite Hother by done. intros Hb%Hf. lia.
  - simpl. rewrite (wanted_ext w) by (done || (intros b Hb; simpl; rewrite Hother; [done|by intros ->])). done.
Qed.

(** An adapter joins the array. *)
Lemma inv_join x l w a o n : Inv x l w → a ∉ l → length l < MAX_ADAPTERS → mAdapterAdded o = true →
  (a < n)%positive → (next w ≤ n)%positive →
  Inv x (l ++ [a]) (set_queue (queue w ++ [LocOpenMsg (Some a)])
    (set_table (table (l ++ [a])) (set_adapters (<[a := o]> (adapters w)) n w))).
Proof.
  intros [[Ht Hl Hal] Hn Ha Ho Hf Hx Hy] Hnin Hlen Hadd Hfresh Hnext.
  split; [split| | | | |done|]; simpl.
  - done.
  - rewrite length_app. simpl. lia.
  - intros b. simpl. rewrite elem_of_app, list_elem_of_singleton. rewrite lookup_insert_is_Some'. intros [Hb| ->]; [right; by apply Hal|by left].
  - apply NoDup_app. split; [done|]. split; [|by apply NoDup_singleton]. intros b Hb ->%list_elem_of_singleton. done.
  - intros b o'. rewrite elem_of_app, list_elem_of_singleton, lookup_insert_Some. intros [[<- <-]|[Hne Hb]]; [naive_solver|].
    rewrite (Ha _ _ Hb). naive_solver.
  - intros b. rewrite elem_of_app, list_elem_of_singleton, lookup_insert_is_Some'. intros [Hb|[= ->]]; [right; by apply Ho|by left].
  - intros b. rewrite lookup_insert_is_Some'. intros [<-|Hb%Hf]; [done|lia].
  - intros _. by rewrite settles_snoc.
Qed.

(** An adapter of the array is deleted. *)
Lemma inv_leave x l1 a l2 w : Inv x (l1 ++ a :: l2) w → LocOpenMsg (Some a) ∉ queue w →
  Inv x (take_place l1 l2) (set_adapters (delete a (adapters w)) (next w) (removed l1 l2 w)).
Proof.
  intros [[Ht Hl Hal] Hn Ha Ho Hf Hx Hy] Hq. pose proof (take_place_perm l1 a l2) as Hp.
  assert (Hn' : NoDup (a :: take_place l1 l2)) by by rewrite Hp. apply NoDup_cons in Hn' as [Hna Hn'].
  assert (Hin : ∀ b, b ∈ l1 ++ a :: l2 ↔ b = a ∨ b ∈ take_place l1 l2) by (intros b; rewrite <- Hp; apply elem_of_cons).
  split; [split| | | | |done|]; simpl.
  - done.
  - rewrite take_place_length. rewrite length_app in Hl. simpl in Hl. lia.
  - intros b Hb. simpl. rewrite lookup_delete_ne by (by intros ->). apply Hal, Hin. by right.
  - done.
  - intros b o'. rewrite lookup_delete_Some. intros [Hne Hb]. rewrite (Ha _ _ Hb), Hin. naive_solver.
  - intros b [Hb|Hb%list_elem_of_singleton]%elem_of_app; [|by destruct (decide _)].
    rewrite lookup_delete_ne by (by intros ->). by apply Ho.
  - intros b. rewrite lookup_delete_is_Some. intros [_ Hb]. by apply Hf.
  - intros _. rewrite settles_snoc. destruct (decide _) as [Hz|]; [|done]. simpl.
    destruct (take_place l1 l2) eqn:E; [by apply Z.ldiff_0_l|]. pose proof (take_place_length l1 l2) as Hlen. rewrite E in Hlen. simpl in Hlen. lia.
Qed.

(** An adapter wants other events. *)
Lemma inv_want x l w a o m : Inv x l w → adapters w !! a = Some o →
  Inv x l (set_queue (queue w ++ [LocOpenMsg None]) (set_adapters (<[a := set_evtMask m o]> (adapters w)) (next w) w)).
Proof.
  intros [[Ht Hl Hal] Hn Ha Ho Hf Hx Hy] Hao.
  split; [split| | | | |done|]; simpl; try done.
  - intros b Hb. simpl. rewrite lookup_insert_is_Some'. right. by apply Hal.
  - intros b o'. rewrite lookup_insert_Some. intros [[<- <-]|[Hne Hb]]; [by apply (Ha a o)|by apply Ha].
  - intros b. rewrite elem_of_app, list_elem_of_singleton, lookup_insert_is_Some'. intros [Hb|[=]]. right. by apply Ho.
  - intros b. rewrite lookup_insert_is_Some'. intros [<-|Hb]; [by apply Hf|by apply Hf].
  - intros _. by rewrite settles_snoc.
Qed.

(** A message that refers to no adapter. *)
Lemma inv_message x l w m : Inv x l w → (m = LocSsrMsg ∨ ∃ k, m = LocSetNmeaMsg k) →
  Inv x l (set_queue (queue w ++ [m]) w).
Proof.
  intros [[Ht Hl Hal] Hn Ha Ho Hf Hx Hy] Hm. split; [split| | | | |done|]; simpl; try done.
  - intros b [Hb|Hb%list_elem_of_singleton]%elem_of_app; [by apply Ho|]. naive_solver.
  - intros Hop. rewrite settles_snoc. destruct Hm as [->|[k ->]]; [done|]. exact (Hy Hop).
Qed.

Lemma inv_notices x l w n : Inv x l w → Inv x l (set_notices n w).
Proof. intros [[] ? ? ? ? ? ?]. by split. Qed.
Lemma array_inv_init p : events p = 0%Z → Inv (excluded p) [] (init p).
Proof.
  intros Hp. split; [split|..]; simpl; try done; try set_solver; try lia.
  - constructor.
  - intros a [o Ho]. by rewrite lookup_empty in Ho.
Qed.

Lemma shape_absent l w a : Shape l w → a ∉ l → removeAdapter a w = Done tt w.
Proof. intros [Ht Hl _] Ha. unfold removeAdapter. apply (remove_from_absent a l); [done|done|by rewrite drop_0|lia]. Qed.

Lemma addAdapter_spec l w a : Shape l w → addAdapter a w = Done tt (added a l w).
Proof. intros [Ht Hl _]. apply add_from_spec; [done|done|done|set_solver|lia]. Qed.

Lemma exec_new x l w o wait : Inv x l w → allowed w (CNew o wait) →
  ∃ w' l', new_adapter o wait w = Done tt w' ∧ Inv x l' w'.
Proof.
  intros Hi Hw. set (a := next w). set (o' := mkAdapter (mEvtMask o) (mIsMaster o) (inSession o) (negb wait) (handles o)).
  assert (Ha : a ∉ l).
  { intros Ha%(sh_alive l w (iv_shape x l w Hi))%(iv_fresh x l w Hi). unfold a in Ha. lia. }
  set (w1 := set_adapters (<[a := o']> (adapters w)) (Pos.succ a) w).
  assert (E : new_adapter o wait w = when (negb wait) (addAdapter a) w1) by done. rewrite E. destruct wait.
  - exists w1, l. split; [done|]. apply (inv_outside x l w a (Some o')); [done|done|split; [done|lia]|lia].
  - destruct Hw as [[=]|Hr]. pose proof (shape_room l w (iv_shape x l w Hi) Hr) as Hlen.
    assert (Hs1 : Shape l w1).
    { destruct (iv_shape x l w Hi) as [Ht Hl Hal]. split; [done|done|]. intros b Hb. simpl.
      rewrite lookup_insert_is_Some'. right. by apply Hal. }
    exists (added a l w1), (l ++ [a]). split; [by apply addAdapter_spec|].
    unfold added. rewrite decide_False by (intros [?|?]; [done|lia]).
    apply (inv_join x l w a o'); [done|done|done|done|lia|lia].
Qed.

Lemma exec_doneInit x l w a : Inv x l w → allowed w (CDoneInit a) →
  ∃ w' l', doneInit a w = Done tt w' ∧ Inv x l' w'.
Proof.
  intros Hi [[o Ho] Hr]. pose proof (shape_room l w (iv_shape x l w Hi) Hr) as Hlen. unfold doneInit.
  rewrite (adapter_bind _ a o) by done. pose proof (iv_added x l w Hi a o Ho) as Hadd.
  destruct (mAdapterAdded o) eqn:E; simpl; [by exists w, l|].
  assert (Ha : a ∉ l) by (intros Hin; apply Hadd in Hin; done).
  rewrite (bind_done _ _ _ _ _ (addAdapter_spec l w a (iv_shape x l w Hi))).
  unfold added. rewrite decide_False by (intros [?|?]; [done|lia]). unfold upd_adapter. rewrite (adapter_bind _ a o) by done.
  eexists _, (l ++ [a]). split; [done|].
  apply (inv_join x l w a (set_added o)); [done|done|done|done| |done]. apply (iv_fresh x l w Hi). by eexists.
Qed.

Lemma exec_delete x l w a : Inv x l w → allowed w (CDelete a) →
  ∃ w' l', delete_adapter a w = Done tt w' ∧ Inv x l' w'.
Proof.
  intros Hi [[o Ho] Hq]. unfold delete_adapter. rewrite (adapter_bind _ a o) by done. destruct (decide (a ∈ l)) as [Hin|Hin].
  - apply list_elem_of_split in Hin as (l1 & l2 & ->). destruct (iv_shape _ _ _ Hi) as [Ht Hl Hal].
    assert (Ha1 : a ∉ l1). { pose proof (iv_nodup _ _ _ Hi) as Hn. apply NoDup_app in Hn as (_ & Hd & _). intros Ha. apply (Hd a Ha). left. }
    rewrite (bind_done _ _ _ tt (removed l1 l2 w)).
    2: { apply remove_from_spec; [done|done|done|lia|lia]. }
    eexists _, (take_place l1 l2). split; [done|]. exact (inv_leave x l1 a l2 w Hi Hq).
  - rewrite (bind_done _ _ _ _ _ (shape_absent l w a (iv_shape _ _ _ Hi) Hin)). eexists _, l. split; [done|].
    by apply (inv_outside x l w a None).
Qed.

(** Every call that is allowed returns, and keeps the invariant. *)
Lemma array_exec_inv x l w c : Inv x l w → allowed w c → ∃ w' l', exec c w = Done tt w' ∧ Inv x l' w'.
Proof.
  intros Hi Hc. destruct (iv_shape _ _ _ Hi) as [Ht Hl Hal].
  destruct c as [o wait|a|a|a mask|mask| |u|]; simpl.
  - by apply (exec_new x l).
  - by apply (exec_doneInit x l).
  - by apply (exec_delete x l).
  - destruct Hc as [o Ho]. unfold want_events, upd_adapter. eexists _, l. split.
    { rewrite (bind_done _ _ w tt (set_adapters (<[a := set_evtMask mask o]> (adapters w)) (next w) w)); [done|].
      by rewrite (adapter_bind _ a o). }
    exact (inv_want x l w a o mask Hi Ho).
  - eexists _, l. split; [done|]. apply inv_message; eauto.
  - eexists _, l. split.
    { unfold handleEngineDownEvent. rewrite (bind_done _ _ w tt (set_queue (queue w ++ [LocSsrMsg]) w)) by done.
      by apply (all_from_tell _ l). }
    apply inv_notices. apply inv_message; eauto.
  - unfold upward. destruct (to_all u); eexists _, l; (split; [|by apply inv_notices]).
    + by apply (all_from_tell _ l).
    + by apply (first_from_told _ l).
  - destruct (queue w) as [|m q] eqn:Eq.
    + exists w, l. split; [|done]. unfold run. rewrite (bind_done _ _ w (queue w) w) by done. by rewrite Eq.
    + destruct (run_inv x l w m q Hi Eq) as (w' & E & Hi' & _). by exists w', l.
Qed.

Lemma array_reachable_inv p w : events p = 0%Z → rtc step (init p) w → ∃ l, Inv (excluded p) l w.
Proof.
  intros Hp Hr. assert (Hi : ∃ l, Inv (excluded p) l (init p)) by (eexists; by apply array_inv_init).
  induction Hr as [|w1 w2 w3 (c & Hc & E) _ IH]; [done|]. apply IH. destruct Hi as [l Hi].
  destruct (array_exec_inv _ _ _ c Hi Hc) as (w' & l' & E' & Hi'). rewrite E in E'. injection E' as ->. by exists l'.
Qed.

(** The task works off its queue. *)
Lemma drain x l w : Inv x l w →
  ∃ w', execs (replicate (length (queue w)) CRun) w = Done tt w' ∧ Inv x l w' ∧ queue w' = [] ∧ adapters w' = adapters w.
Proof.
  remember (queue w) as q eqn:Eq. revert w Eq. induction q as [|m q IH]; intros w Eq Hi; [by exists w|].
  destruct (run_inv x l w m q Hi (eq_sym Eq)) as (w1 & E1 & Hi1 & Eq1 & Ea1).
  destruct (IH w1 (eq_sym Eq1) Hi1) as (w2 & E2 & Hi2 & Eq2 & Ea2). exists w2. split_and!; [|done|done|congruence].
  cbn [length replicate execs]. by rewrite (bind_done _ _ _ _ _ (E1 : exec CRun w = _)).
Qed.

Lemma union_mask_bit w l n : Z.testbit (union_mask w l) n = true ↔
  ∃ a o, a ∈ l ∧ adapters w !! a = Some o ∧ Z.testbit (mEvtMask o) n = true.
Proof.
  induction l as [|a l IH]; simpl.
  - rewrite Z.bits_0. split; [done|]. intros (a & o & Ha & _). by apply not_elem_of_nil in Ha.
  - rewrite Z.lor_spec, orb_true_iff, IH. split.
    + intros [Hb|(b & o & Hb & Ho & Hn)]; [|exists b, o; split; [by right|done]].
      destruct (adapters w !! a) as [o|] eqn:Ho; simpl in Hb; [|by rewrite Z.bits_0 in Hb]. exists a, o. split; [left|done].
    + intros (b & o & [->|Hb]%elem_of_cons & Ho & Hn); [left; by rewrite Ho|right; by exists b, o].
Qed.

Lemma inv_events x l w : Inv x l w → queue w = [] → always_opens → ∀ n,
  Z.testbit (events (api w)) n = true ↔
  Z.testbit x n = false ∧ ∃ a o, adapters w !! a = Some o ∧ mAdapterAdded o = true ∧ Z.testbit (mEvtMask o) n = true.
Proof.
  intros Hi Hq Hop n. pose proof (iv_sync _ _ _ Hi Hop) as Hy. rewrite Hq in Hy. cbn in Hy. rewrite Hy. unfold wanted.
  rewrite Z.ldiff_spec, (iv_excluded _ _ _ Hi), andb_true_iff, negb_true_iff, union_mask_bit. split.
  - intros [(a & o & Ha & Ho & Hn) Hx]. split; [done|]. exists a, o. split_and!; [done|by apply (iv_added _ _ _ Hi a o)|done].
  - intros [Hx (a & o & Ho & Hadd & Hn)]. split; [|done]. exists a, o. split_and!; [by apply (iv_added _ _ _ Hi a o)|done|done].
Qed.
End invariant.

(** ** LocApiV02 as the API *)
#[export] Instance LocApiV02 (modem : Modem) (batchedBreach constellationConfig : bool) : Api ApiState := {
  open m := LocApiTrack.open modem batchedBreach constellationConfig m;
  opens a := LocApiTrack.connects modem a;
  close := LocApiTrack.close;
  setNMEATypesSync m := LocApiTrack.setNMEATypesSync modem m;
  events a := mMask (session a);
  excluded a := mExcludedMask (session a) }.

#[export] Instance LocApiV02_laws modem batchedBreach constellationConfig :
  ApiLaws ApiState (H:=LocApiV02 modem batchedBreach constellationConfig).
Proof.
  split; simpl.
  - intros m a. destruct (LocApiTrack.open_registering modem batchedBreach constellationConfig m a) as (ok & a' & E & (_ & _ & Ex & _)).
    exists ok, a'. split_and!; [done|done|]. intros Hc.
    destruct (LocApiTrack.open_connected modem batchedBreach constellationConfig m a Hc) as (a2 & E2 & _ & _ & Em).
    rewrite E in E2. by injection E2 as -> ->.
  - intros a. by eexists.
  - intros m a. unfold LocApiTrack.setNMEATypesSync. rewrite (bind_done _ _ a (session a) a) by done.
    destruct (m =? mNmeaMask (session a))%Z; [by exists a|]. unfold LOC_SEND_SYNC_REQ. simpl when. mrun.
    destruct (modem _). by eexists.
Qed.

(** ** The theorems *)

(** C19: the modem is opened for what the adapters want: after any sequence of adapters being
    made, finishing their initialisation, deleted and changing what they want, of restarts of the
    modem and of reports, as long as no adapter is deleted while its first message is queued and
    the array has room for each, every further such call returns, and the task works off its queue
    in as many steps as there are messages. If the connection to the modem can be made each time
    it is opened, the API has then opened the modem for exactly the events that some adapter of
    the array wants and that are not excluded: the mask of its last open, 0 when it is closed.
    Nothing is said of the mask when a connection fails, which only the next message that opens
    the modem makes good. *)
Theorem modem_open_for_all {P} `{ApiLaws P} (p : P) (w : World P) :
  events p = 0%Z → rtc step (init p) w →
  (∀ c, allowed w c → ∃ w', exec c w = Done tt w') ∧
  ∃ w', execs (replicate (length (queue w)) CRun) w = Done tt w' ∧ queue w' = [] ∧ adapters w' = adapters w ∧
    (always_opens →
     ∀ n, Z.testbit (events (api w')) n = true ↔
      Z.testbit (excluded p) n = false ∧
      ∃ a o, adapters w !! a = Some o ∧ mAdapterAdded o = true ∧ Z.testbit (mEvtMask o) n = true).
Proof.
  intros Hp Hr. destruct (array_reachable_inv p w Hp Hr) as [l Hi]. split.
  - intros c Hc. destruct (array_exec_inv _ _ _ c Hi Hc) as (w' & l' & E & _). by exists w'.
  - destruct (drain _ _ _ Hi) as (w' & E & Hi' & Hq & Ha). exists w'. split_and!; [done..|]. rewrite <- Ha.
    by apply (inv_events (excluded p) l w').
Qed.

(** In every such state a report goes to each adapter that was added and not deleted, once and in
    the order of the array, when [to_all] says so; otherwise to those up to the first that handles
    it. *)
Theorem upward_delivered {P} `{ApiLaws P} (p : P) (w : World P) u :
  events p = 0%Z → rtc step (init p) w →
  ∃ l, NoDup l ∧ (∀ a, a ∈ l ↔ ∃ o, adapters w !! a = Some o ∧ mAdapterAdded o = true) ∧
    mLocAdapters w = table l ∧
    exec (CUpward u) w =
      Done tt (set_notices (notices w ++ (Told u <$> (if to_all u then l else up_to_first (says w u) l))) w).
Proof.
  intros Hp Hr. destruct (array_reachable_inv p w Hp Hr) as [l Hi]. destruct (iv_shape _ _ _ Hi) as [Ht Hl Hal].
  exists l. split_and!; [apply Hi| |done|].
  - intros a. split.
    + intros Ha. destruct (Hal a Ha) as [o Ho]. exists o. split; [done|]. by apply (iv_added _ _ _ Hi a o).
    + intros (o & Ho & Hadd). by apply (iv_added _ _ _ Hi a o).
  - simpl. unfold upward. destruct (to_all u); [by apply (all_from_tell _ l)|by apply (first_from_told _ l)].
Qed.

(** Two adapters; the first wants other events, the modem restarts, and the first one goes. *)
Definition plain (mask : Z) (h : list Upward) : LocAdapterBase := mkAdapter mask false false false h.
Definition example_calls : list Call :=
  [CNew (plain 0x1 []) false; CNew (plain 0x8 [requestTime]) true; CRun; CDoneInit 2; CWant 1 0x101; CEngineDown;
   CRun; CRun; CDelete 1; CNmea 7].

(** The states that a list of allowed calls goes through. *)
Fixpoint steps_ok {P} `{Api P} (l : list Call) (w : World P) : Prop :=
  match l with
  | [] => True
  | c :: l => allowed w c ∧ match exec c w with Done _ w' => steps_ok l w' | _ => False end
  end.
Lemma steps_reachable {P} `{Api P} l (w0 w w' : World P) :
  rtc step w0 w → steps_ok l w → execs l w = Done tt w' → rtc step w0 w'.
Proof.
  revert w. induction l as [|c l IH]; intros w Hr Hs E; [by injection E as <-|].
  destruct Hs as [Hc Hs]. apply bind_inv in E as ([] & w1 & E1 & E). rewrite E1 in Hs.
  apply (IH w1); [|done|done]. eapply rtc_r; [exact Hr|]. by exists c.
Qed.
Definition example_world : World ApiState :=
  default (init (api_init 0x100 true))
    (outcome_state (execs (H:=LocApiV02 LocApiTrack.always true true) example_calls (init (api_init 0x100 true)))).
Lemma example_reachable : rtc (step (H:=LocApiV02 LocApiTrack.always true true)) (init (api_init 0x100 true)) example_world.
Proof.
  apply (steps_reachable example_calls _ (init (api_init 0x100 true))); [constructor| |by vm_compute].
  vm_compute. split_and!; try done; eauto; try (intros Hin; repeat (apply elem_of_cons in Hin as [[=]|Hin]); by apply not_elem_of_nil in Hin).
Qed.

Lemma modem_open_for_all_witness :
  let A := LocApiV02 LocApiTrack.always true true in
  (length (queue example_world) = 3 ∧
   (λ w, mMask (session (api w))) <$> outcome_state (execs (replicate 3 CRun) example_world) = Some 0x8%Z) ∧
  always_opens (P:=ApiState) ∧
  (∀ c, allowed example_world c → ∃ w', exec c example_world = Done tt w') ∧
  ∃ w', execs (replicate (length (queue example_world)) CRun) example_world = Done tt w' ∧ queue w' = [] ∧
    adapters w' = adapters example_world ∧
    (always_opens (P:=ApiState) →
     ∀ n, Z.testbit (events (api w')) n = true ↔
      Z.testbit (excluded (api_init 0x100 true)) n = false ∧
      ∃ a o, adapters example_world !! a = Some o ∧ mAdapterAdded o = true ∧ Z.testbit (mEvtMask o) n = true).
Proof.
  intros A. split; [by vm_compute|]. split; [intros a; apply orb_true_r|].
  exact (modem_open_for_all (api_init 0x100 true) example_world eq_refl example_reachable).
Defined.

(** What the array gets wrong: an adapter that is made and deleted before the task has run
    leaves its message behind, which then calls an adapter that is freed; the eleventh adapter is
    dropped without a word, counts as added, and nothing is opened for its events; and removing an
    adapter moves the last one to the front of those behind it, where the comment says that they
    are shifted, so that another adapter becomes the first that handles a request. *)
Theorem adapter_array_flaws :
  let A := LocApiV02 LocApiTrack.always true true in
  let w0 := init (api_init 0 true) in
  execs [CNew (plain 1 []) false; CDelete 1; CRun] w0 = UB ∧
  (∃ w, execs (replicate 10 (CNew (plain 1 []) false) ++ [CNew (plain 2 []) false] ++ replicate 10 CRun) w0 = Done tt w ∧
        mAdapterAdded <$> adapters w !! 11%positive = Some true ∧ queue w = [] ∧ events (api w) = 1%Z) ∧
  (∃ w, execs [CNew (plain 1 []) false; CNew (plain 1 [requestTime]) false; CNew (plain 1 [requestTime]) false;
               CRun; CRun; CRun; CDelete 1; CUpward requestTime] w0 = Done tt w ∧
        last (notices w) = Some (Told requestTime 3)).
Proof.
  cbv zeta. split; [by vm_compute|]. split.
  - eexists. split; [by vm_compute|]. by vm_compute.
  - eexists. split; [by vm_compute|]. by vm_compute.
Qed.

(** *** Which functions deliver to all adapters although their comments say the first that handles
    them *)
Lemma first_in_the_comment :
  Forall (λ u, to_all u = true)
    [reportGnssEngEnergyConsumedEvent; sendNfwNotification; reportGnssConfig; reportLatencyInfo].
Proof. by repeat constructor. Qed.
