(* ===== verification/NiText.v ===== *)
(** * NiText : the texts of network-initiated requests.

    hexcode and decodeAddress of LocApiBase.cpp write what the modem sends as octets into buffers
    of the request: as hexadecimal digits, and as the decimal digits of an address. A buffer is
    the list of its characters; a read or a write outside of it is [None]. *)
From Stdlib Require Import Ascii.
From S2P Require Import Prelude CString.
Local Open Scope Z_scope.

(** [b[i] = c] *)
Definition write (i : Z) (c : ascii) (b : str) : option str :=
  if (0 <=? i) && (i <? Z.of_nat (length b)) then Some (<[Z.to_nat i := c]> b) else None.
Definition read (i : Z) (b : str) : option ascii := if 0 <=? i then b !! Z.to_nat i else None.

(** A digit of "%X". *)
Definition hex_digit (d : Z) : ascii := ascii_of_nat (Z.to_nat (if d <? 10 then 48 + d else 55 + d)).
(** The first two characters of "%02X" of a char: a negative one is printed as an int. *)
Definition hex2 (char_signed : bool) (ch : ascii) : ascii * ascii :=
  if char_signed && (128 <=? code ch) then (hex_digit 15, hex_digit 15)
  else (hex_digit (code ch / 16), hex_digit (code ch mod 16)).

Section hexcode.
Context (char_signed : bool).

(** [snprintf(&hexstring[i*2], 3, "%02X", ch)] *)
Definition put_hex (i : Z) (ch : ascii) (b : str) : option str :=
  b ← write (i * 2) (hex2 char_signed ch).1 b;
  b ← write (i * 2 + 1) (hex2 char_signed ch).2 b;
  write (i * 2 + 2) NUL b.

Fixpoint hexcode_from (k : nat) (i : Z) (hexstring : str) (string_size : Z) (data : str) : option (str * Z) :=
  match k with
  | O => Some (hexstring, i)
  | S k =>
      ch ← read i data;
      if i * 2 + 3 <=? string_size
      then b ← put_hex i ch hexstring; hexcode_from k (i + 1) b string_size data
      else Some (hexstring, i)
  end.
Definition hexcode (hexstring : str) (string_size : Z) (data : str) (data_size : Z) : option (str * Z) :=
  hexcode_from (Z.to_nat data_size) 0 hexstring string_size data.
End hexcode.

Definition addr_prefix : ascii := ascii_of_nat 0x91.

(** One nibble: stored when it is a digit and there is room. *)
Definition put_digit (string_size nibble : Z) (s : str * Z) : option (str * Z) :=
  let '(b, idxOutput) := s in
  if (nibble <=? 9) && (idxOutput <? string_size - 1)
  then b ← write idxOutput (ascii_of_nat (Z.to_nat (48 + nibble))) b; Some (b, idxOutput + 1)
  else Some s.

Fixpoint decode_from (k : nat) (i string_size : Z) (data : str) (s : str * Z) : option (str * Z) :=
  match k with
  | O => Some s
  | S k =>
      ch ← read i data;
      s ← put_digit string_size (Z.land (code ch) 0x0F) s;
      s ← put_digit string_size (Z.shiftr (code ch) 4) s;
      decode_from k (i + 1) string_size data s
  end.

(** The string buffer and the returned length; a NULL of either is 0. *)
Definition decodeAddress (addr_string : option str) (string_size : Z) (data : option str) (data_size : Z) :
    option (option str * Z) :=
  match addr_string, data with
  | Some b, Some d =>
      c ← read 0 d;
      if decide (c = addr_prefix) then
        '(b, idxOutput) ← decode_from (Z.to_nat (data_size - 1)) 1 string_size d (b, 0);
        b ← write idxOutput NUL b;
        Some (Some b, idxOutput)
      else b ← write 0 NUL b; Some (Some b, 0)
  | _, _ => Some (addr_string, 0)
  end.

(** ** Lemmas *)
Lemma write_app p c x r : write (Z.of_nat (length p)) c (p ++ x :: r) = Some (p ++ c :: r).
Proof.
  unfold write. rewrite length_app. simpl length. rewrite (proj2 (Z.leb_le _ _)), (proj2 (Z.ltb_lt _ _)) by lia.
  simpl. f_equal. rewrite Nat2Z.id. rewrite insert_app_r_alt by lia. by rewrite Nat.sub_diag.
Qed.
Lemma read_lookup n (b : str) : read (Z.of_nat n) b = b !! n.
Proof. unfold read. rewrite (proj2 (Z.leb_le _ _)) by lia. by rewrite Nat2Z.id. Qed.

Lemma code_range c : 0 ≤ code c < 256.
Proof. unfold code. pose proof (N_ascii_bounded c). lia. Qed.

(** The text of the octets. *)
Definition hex_text (char_signed : bool) (d : str) : str := flat_map (λ c, [(hex2 char_signed c).1; (hex2 char_signed c).2]) d.
Lemma length_hex_text s d : length (hex_text s d) = (2 * length d)%nat.
Proof. induction d as [|c d IH]; [done|]. simpl. rewrite IH. lia. Qed.
Lemma hex_text_app s d e : hex_text s (d ++ e) = hex_text s d ++ hex_text s e.
Proof. unfold hex_text. by rewrite flat_map_app. Qed.

Lemma put_hex_at s p i c x y z r : i * 2 = Z.of_nat (length p) →
  put_hex s i c (p ++ x :: y :: z :: r) = Some (p ++ (hex2 s c).1 :: (hex2 s c).2 :: NUL :: r).
Proof.
  intros Hi. unfold put_hex. rewrite Hi, write_app. simpl.
  replace (Z.of_nat (length p) + 1) with (Z.of_nat (length (p ++ [(hex2 s c).1]))) by (rewrite length_app; simpl; lia).
  rewrite (app_assoc p [(hex2 s c).1] (y :: z :: r) : p ++ (hex2 s c).1 :: y :: z :: r = _), write_app. simpl.
  rewrite <- app_assoc. simpl.
  replace (Z.of_nat (length p) + 2) with (Z.of_nat (length (p ++ [(hex2 s c).1; (hex2 s c).2]))) by (rewrite length_app; simpl; lia).
  rewrite (app_assoc p [(hex2 s c).1; (hex2 s c).2] (z :: r) : p ++ (hex2 s c).1 :: (hex2 s c).2 :: z :: r = _), write_app.
  by rewrite <- app_assoc.
Qed.

(** The octets [dd] behind [d1]: as many as fit are written, with a NUL behind the last. *)
Lemma hexcode_from_spec s ss dd d1 rest tail :
  ss ≤ Z.of_nat (length (hex_text s d1 ++ tail)) →
  let m := Nat.min (length dd) (Z.to_nat ((ss - 1) / 2) - length d1) in
  hexcode_from s (length dd) (Z.of_nat (length d1)) (hex_text s d1 ++ tail) ss (d1 ++ dd ++ rest) =
  Some (hex_text s (d1 ++ take m dd) ++ (if decide (m = 0%nat) then tail else NUL :: drop (2 * m + 1) tail),
        Z.of_nat (length d1 + m)).
Proof.
  revert d1 tail. induction dd as [|c dd IH]; intros d1 tail Hs; cbv zeta.
  { rewrite Nat.min_0_l. rewrite decide_True by done. rewrite app_nil_r, Nat.add_0_r. done. }
  cbn [hexcode_from length]. rewrite read_lookup. rewrite (list_lookup_middle d1 (dd ++ rest) c) by done. cbn [mbind option_bind].
  destruct (Z.leb_spec (Z.of_nat (length d1) * 2 + 3) ss) as [Hfit|Hfull].
  - assert (Hn : (length d1 < Z.to_nat ((ss - 1) / 2))%nat).
    { assert (Z.of_nat (length d1) + 1 ≤ (ss - 1) / 2) by (apply Z.div_le_lower_bound; lia). lia. }
    rewrite length_app, length_hex_text in Hs. destruct tail as [|x [|y [|z t]]]; [simpl in Hs; lia..|].
    rewrite put_hex_at by (rewrite length_hex_text; lia). cbn [mbind option_bind].
    replace (hex_text s d1 ++ (hex2 s c).1 :: (hex2 s c).2 :: NUL :: t) with (hex_text s (d1 ++ [c]) ++ NUL :: t)
      by (rewrite hex_text_app; simpl; by rewrite <- app_assoc).
    replace (Z.of_nat (length d1) + 1) with (Z.of_nat (length (d1 ++ [c]))) by (rewrite length_app; simpl; lia).
    replace (d1 ++ (c :: dd) ++ rest) with ((d1 ++ [c]) ++ dd ++ rest) by (by rewrite <- app_assoc).
    rewrite IH by (rewrite length_app, length_hex_text, length_app; simpl in *; lia). cbv zeta.
    set (m' := Nat.min (length dd) (Z.to_nat ((ss - 1) / 2) - length (d1 ++ [c]))).
    replace (Nat.min (S (length dd)) (Z.to_nat ((ss - 1) / 2) - length d1)) with (S m')
      by (unfold m'; rewrite length_app; change (length [c]) with 1%nat; lia).
    rewrite (decide_False (P:=S m' = 0%nat)) by lia. f_equal. f_equal; [|rewrite length_app; simpl; lia].
    cbn [take]. rewrite <- app_assoc. f_equal. destruct (decide (m' = 0%nat)) as [->|]; [done|].
    replace (2 * S m' + 1)%nat with (S (S (S (2 * m')))) by lia. by replace (2 * m' + 1)%nat with (S (2 * m')) by lia.
  - assert (Hn : (Z.to_nat ((ss - 1) / 2) ≤ length d1)%nat).
    { assert ((ss - 1) / 2 < Z.of_nat (length d1) + 1) by (apply Z.div_lt_upper_bound; lia). lia. }
    replace (_ - length d1)%nat with 0%nat by lia. rewrite Nat.min_0_r, decide_True by done.
    by rewrite app_nil_r, Nat.add_0_r.
Qed.

(** Reading the digits back. *)
Fixpoint unhex (s : str) : option str :=
  match s with
  | a :: b :: r =>
      x ← digit_val 16 a; y ← digit_val 16 b; l ← unhex r; Some (ascii_of_N (Z.to_N (x * 16 + y)) :: l)
  | [] => Some []
  | _ => None
  end.

Lemma hex_digit_val d : 0 ≤ d < 16 → digit_val 16 (hex_digit d) = Some d ∧ hex_digit d ≠ NUL.
Proof.
  intros Hd. assert (d = 0 ∨ d = 1 ∨ d = 2 ∨ d = 3 ∨ d = 4 ∨ d = 5 ∨ d = 6 ∨ d = 7 ∨ d = 8 ∨ d = 9 ∨ d = 10 ∨ d = 11 ∨
    d = 12 ∨ d = 13 ∨ d = 14 ∨ d = 15) as H by lia.
  repeat destruct H as [-> | H]; try subst d; by split.
Qed.
Lemma hex_nibbles c : 0 ≤ code c / 16 < 16 ∧ 0 ≤ code c mod 16 < 16.
Proof.
  pose proof (code_range c). split; [|by apply Z.mod_pos_bound]. split; [by apply Z.div_pos; lia|apply Z.div_lt_upper_bound; lia].
Qed.
Lemma unhex_text d : unhex (hex_text false d) = Some d.
Proof.
  induction d as [|c d IH]; [done|].
  change (hex_text false (c :: d)) with (hex_digit (code c / 16) :: hex_digit (code c mod 16) :: hex_text false d).
  cbn [unhex]. destruct (hex_nibbles c) as [H1 H2].
  rewrite (proj1 (hex_digit_val _ H1)). cbn [mbind option_bind]. rewrite (proj1 (hex_digit_val _ H2)). cbn [mbind option_bind].
  rewrite IH. cbn [mbind option_bind]. do 2 f_equal.
  replace (code c / 16 * 16 + code c mod 16) with (code c) by (pose proof (Z.div_mod (code c) 16); lia).
  unfold code. rewrite N2Z.id. apply ascii_N_embedding.
Qed.
Lemma hex_text_no_nul d : no NUL (hex_text false d).
Proof.
  induction d as [|c d IH]; [constructor|]. destruct (hex_nibbles c) as [H1 H2].
  repeat constructor; try by apply hex_digit_val. exact IH.
Qed.
Lemma cstr_before s r : no NUL s → cstr (s ++ NUL :: r) = s.
Proof. induction 1 as [|c s Hc _ IH]; simpl; [done|]. rewrite decide_False by done. by rewrite IH. Qed.

(** The octets of a request are written as hexadecimal digits: with a buffer and data of at
    least the given sizes nothing is read or written outside of them; as many octets are
    converted as fit with a NUL behind them, which is returned; the text in the buffer reads back
    as these octets, what lies behind the NUL is as before, and a buffer without room for one
    octet is not touched. *)
Theorem hexcode_reads_back b ss data ds :
  0 ≤ ds ≤ Z.of_nat (length data) → ss ≤ Z.of_nat (length b) →
  let n := Nat.min (Z.to_nat ds) (Z.to_nat ((ss - 1) / 2)) in
  ∃ b', hexcode false b ss data ds = Some (b', Z.of_nat n) ∧
    (if decide (n = 0%nat) then b' = b
     else unhex (cstr b') = Some (take n data) ∧ drop (2 * n + 1) b' = drop (2 * n + 1) b).
Proof.
  intros Hds Hss n. set (dd := take (Z.to_nat ds) data).
  assert (Hdd : length dd = Z.to_nat ds) by (unfold dd; rewrite length_take; lia).
  pose proof (hexcode_from_spec false ss dd [] (drop (Z.to_nat ds) data) b Hss) as E. cbv zeta in E.
  change (hex_text false [] ++ b) with b in E. change ([] ++ take ?m dd) with (take m dd) in E.
  change ([] ++ dd ++ drop (Z.to_nat ds) data) with (take (Z.to_nat ds) data ++ drop (Z.to_nat ds) data) in E.
  rewrite take_drop, Hdd in E. change (length (@nil ascii)) with 0%nat in E. rewrite Nat.sub_0_r in E. fold n in E.
  change (Z.of_nat 0) with 0 in E. unfold hexcode. rewrite E. eexists. split; [done|].
  destruct (decide (n = 0%nat)) as [->|Hn]; [by rewrite take_0|].
  assert (Ht : take n dd = take n data) by (unfold dd; rewrite take_take; f_equal; lia). rewrite Ht.
  rewrite cstr_before by apply hex_text_no_nul. split; [apply unhex_text|].
  assert (HL : (2 * n + 1)%nat = length (hex_text false (take n data) ++ [NUL])).
  { rewrite length_app, length_hex_text, length_take. change (length [NUL]) with 1%nat. lia. }
  change (NUL :: drop (2 * n + 1) b) with ([NUL] ++ drop (2 * n + 1) b). rewrite app_assoc. rewrite HL at 1.
  apply drop_app_length.
Qed.

(** *** Addresses *)

Definition digit_char (n : Z) : ascii := ascii_of_nat (Z.to_nat (48 + n)).
Definition nibble_digit (n : Z) : str := if n <=? 9 then [digit_char n] else [].
(** The digits an address holds: the low nibble of an octet first, what is no digit left out. *)
Definition address_digits (d : str) : str :=
  flat_map (λ c, nibble_digit (Z.land (code c) 0x0F) ++ nibble_digit (Z.shiftr (code c) 4)) d.

Section decode.
Context (ss : Z) (b0 : str).
Hypothesis Hss : 1 ≤ ss ≤ Z.of_nat (length b0).
(** The buffer and the length after the digits [ds]. *)
Definition decoded (ds : str) : str * Z :=
  let o := take (Z.to_nat (ss - 1)) ds in (o ++ drop (length o) b0, Z.of_nat (length o)).

Lemma put_digit_decoded n ds : put_digit ss n (decoded ds) = Some (decoded (ds ++ nibble_digit n)).
Proof.
  unfold put_digit, nibble_digit, decoded. destruct (n <=? 9); simpl; [|by rewrite app_nil_r].
  destruct (Z.ltb_spec (Z.of_nat (length (take (Z.to_nat (ss - 1)) ds))) (ss - 1)) as [Hlt|Hge].
  - rewrite length_take in Hlt. rewrite !(take_ge (ds ++ _)), !(take_ge ds) by (rewrite ?length_app; simpl; lia).
    destruct (lookup_lt_is_Some_2 b0 (length ds)) as [x Hx]; [lia|]. rewrite (drop_S b0 x) by done. rewrite write_app. simpl.
    rewrite length_app. simpl. rewrite <- app_assoc, Nat.add_1_r. do 2 f_equal. lia.
  - rewrite length_take in Hge. by rewrite take_app_le by lia.
Qed.

Lemma decode_from_decoded d r ds p :
  decode_from (length d) (Z.of_nat (length p)) ss (p ++ d ++ r) (decoded ds) = Some (decoded (ds ++ address_digits d)).
Proof.
  revert ds p. induction d as [|c d IH]; intros ds p; [by rewrite app_nil_r|].
  cbn [decode_from length]. rewrite read_lookup, (list_lookup_middle p (d ++ r) c) by done. cbn [mbind option_bind].
  rewrite put_digit_decoded. cbn [mbind option_bind]. rewrite put_digit_decoded. cbn [mbind option_bind].
  replace (Z.of_nat (length p) + 1) with (Z.of_nat (length (p ++ [c]))) by (rewrite length_app; simpl; lia).
  replace (p ++ (c :: d) ++ r) with ((p ++ [c]) ++ d ++ r) by (by rewrite <- app_assoc). rewrite IH.
  unfold address_digits. cbn [flat_map]. by rewrite <- !app_assoc.
Qed.
End decode.

(** What is left of the buffer behind the text. *)
Lemma decodeAddress_digits b ss d r :
  1 ≤ ss ≤ Z.of_nat (length b) →
  let o := take (Z.to_nat (ss - 1)) (address_digits d) in
  decodeAddress (Some b) ss (Some (addr_prefix :: d ++ r)) (Z.of_nat (S (length d))) =
  Some (Some (o ++ NUL :: drop (S (length o)) b), Z.of_nat (length o)).
Proof.
  intros Hss o. unfold decodeAddress.
  change (read 0 (addr_prefix :: d ++ r)) with (Some addr_prefix). cbn [mbind option_bind].
  rewrite decide_True by done. replace (Z.to_nat (Z.of_nat (S (length d)) - 1)) with (length d) by lia.
  pose proof (decode_from_decoded ss b Hss d r [] [addr_prefix]) as E. unfold decoded in E at 1. rewrite take_nil in E.
  simpl in E. rewrite drop_0 in E. change (addr_prefix :: d ++ r) with ([addr_prefix] ++ d ++ r). simpl app.
  change (Z.of_nat 1) with 1 in E. change (Z.of_nat 0) with 0 in E. rewrite E. unfold decoded. fold o. cbn [mbind option_bind].
  assert (Ho : (length o < length b)%nat) by (unfold o; rewrite length_take; lia).
  destruct (lookup_lt_is_Some_2 b (length o) Ho) as [x Hx]. rewrite (drop_S b x _ Hx), write_app. done.
Qed.

Lemma digit_char_no_nul n : 0 ≤ n → n <=? 9 = true → digit_char n ≠ NUL.
Proof.
  intros H0 H9%Z.leb_le. assert (n = 0 ∨ n = 1 ∨ n = 2 ∨ n = 3 ∨ n = 4 ∨ n = 5 ∨ n = 6 ∨ n = 7 ∨ n = 8 ∨ n = 9) as H by lia.
  repeat destruct H as [-> | H]; try subst n; done.
Qed.
Lemma address_digits_no_nul d : no NUL (address_digits d).
Proof.
  induction d as [|c d IH]; [constructor|]. pose proof (code_range c).
  assert (G : ∀ n, 0 ≤ n → no NUL (nibble_digit n)).
  { intros n Hn. unfold nibble_digit. destruct (n <=? 9) eqn:E; [|constructor]. repeat constructor. by apply digit_char_no_nul. }
  unfold address_digits. cbn [flat_map]. apply Forall_app. split; [|exact IH]. apply Forall_app. split; apply G.
  - apply Z.land_nonneg. lia.
  - apply Z.shiftr_nonneg. lia.
Qed.

(** The octets of an address of the digits [ds]: two digits an octet, the first in the low
    nibble, a filler behind the last of an odd number. *)
Fixpoint encode_digits (ds : list Z) : str :=
  match ds with
  | x :: y :: r => ascii_of_N (Z.to_N (y * 16 + x)) :: encode_digits r
  | [x] => [ascii_of_N (Z.to_N (0xF0 + x))]
  | [] => []
  end.

Lemma code_of z : 0 ≤ z < 256 → code (ascii_of_N (Z.to_N z)) = z.
Proof. intros Hz. unfold code. rewrite N_ascii_embedding by lia. lia. Qed.
Lemma nibbles x y : 0 ≤ x < 16 → 0 ≤ y < 16 →
  Z.land (code (ascii_of_N (Z.to_N (y * 16 + x)))) 0x0F = x ∧ Z.shiftr (code (ascii_of_N (Z.to_N (y * 16 + x)))) 4 = y.
Proof.
  intros Hx Hy. rewrite code_of by lia. rewrite Z.shiftr_div_pow2 by lia. change 0x0F with (Z.ones 4).
  rewrite Z.land_ones by lia. change (2 ^ 4) with 16. split.
  - symmetry. apply (Z.mod_unique _ _ y); lia.
  - symmetry. apply (Z.div_unique _ _ _ x); lia.
Qed.

Lemma digits_of_encoding ds : Forall (λ x, 0 ≤ x ≤ 9) ds → address_digits (encode_digits ds) = digit_char <$> ds.
Proof.
  assert (G : ∀ n ds, (length ds ≤ n)%nat → Forall (λ x, 0 ≤ x ≤ 9) ds → address_digits (encode_digits ds) = digit_char <$> ds).
  { clear ds. intros n. induction n as [|n IH]; intros [|x [|y r]] Hn Hf; try done; try (simpl in Hn; lia).
    - apply Forall_cons in Hf as [Hx _]. unfold address_digits, nibble_digit. cbn [encode_digits flat_map].
      change (0xF0 + x) with (15 * 16 + x). destruct (nibbles x 15) as [-> ->]; [lia..|].
      rewrite (proj2 (Z.leb_le x 9)) by lia. done.
    - apply Forall_cons in Hf as [Hx Hf]. apply Forall_cons in Hf as [Hy Hf].
      change (address_digits (encode_digits (x :: y :: r))) with
        ((nibble_digit (Z.land (code (ascii_of_N (Z.to_N (y * 16 + x)))) 0x0F) ++
          nibble_digit (Z.shiftr (code (ascii_of_N (Z.to_N (y * 16 + x)))) 4)) ++ address_digits (encode_digits r)).
      destruct (nibbles x y) as [-> ->]; [lia..|]. unfold nibble_digit. rewrite !(proj2 (Z.leb_le _ 9)) by lia.
      rewrite IH; [done|simpl in Hn; lia|done]. }
  by apply (G (length ds)).
Qed.

(** An address is read as its digits: the octets of an address of any decimal digits, with
    the prefix before them and anything behind them, are decoded to these digits, as many as fit
    with a NUL behind the last; nothing is read or written outside of the buffers, the length is
    returned, and the buffer keeps its size. *)
Theorem decodeAddress_reads b ss ds r :
  1 ≤ ss ≤ Z.of_nat (length b) → Forall (λ x, 0 ≤ x ≤ 9) ds →
  ∃ b', decodeAddress (Some b) ss (Some (addr_prefix :: encode_digits ds ++ r)) (Z.of_nat (S (length (encode_digits ds)))) =
          Some (Some b', Z.min (ss - 1) (Z.of_nat (length ds))) ∧
        cstr b' = take (Z.to_nat (ss - 1)) (digit_char <$> ds) ∧ length b' = length b.
Proof.
  intros Hss Hf. pose proof (decodeAddress_digits b ss (encode_digits ds) r Hss) as E. cbv zeta in E.
  pose proof (address_digits_no_nul (encode_digits ds)) as Hn. rewrite digits_of_encoding in E, Hn by done.
  set (o := take (Z.to_nat (ss - 1)) (digit_char <$> ds)) in *.
  assert (Ho : length o = Nat.min (Z.to_nat (ss - 1)) (length ds)) by (unfold o; by rewrite length_take, length_fmap).
  exists (o ++ NUL :: drop (S (length o)) b). split_and!.
  - rewrite E. do 2 f_equal. rewrite Ho. lia.
  - apply cstr_before. by apply Forall_take.
  - rewrite length_app. simpl. rewrite length_drop. lia.
Qed.

Lemma hexcode_reads_back_witness :
  let data := [ascii_of_nat 0x12; ascii_of_nat 0xAB; ascii_of_nat 0xFF] in
  let b := replicate 6 (ascii_of_nat 46) in
  hexcode false b 6 data 3 = Some (lit "12AB" ++ [NUL; ascii_of_nat 46], 2) ∧
  ∃ b', hexcode false b 6 data 3 = Some (b', Z.of_nat 2) ∧
    (if decide (2%nat = 0%nat) then b' = b
     else unhex (cstr b') = Some (take 2 data) ∧ drop (2 * 2 + 1) b' = drop (2 * 2 + 1) b).
Proof.
  intros data b. split; [by vm_compute|].
  refine (hexcode_reads_back b 6 data 3 _ _); simpl; lia.
Defined.

Lemma decodeAddress_reads_witness :
  let b := replicate 6 (ascii_of_nat 46) in let ds := [4; 9; 1; 7; 0] in
  decodeAddress (Some b) 5 (Some (addr_prefix :: encode_digits ds ++ [NUL])) 4 = Some (Some (lit "4917" ++ [NUL; ascii_of_nat 46]), 4) ∧
  ∃ b', decodeAddress (Some b) 5 (Some (addr_prefix :: encode_digits ds ++ [NUL])) (Z.of_nat (S (length (encode_digits ds)))) =
          Some (Some b', Z.min (5 - 1) (Z.of_nat (length ds))) ∧
        cstr b' = take (Z.to_nat (5 - 1)) (digit_char <$> ds) ∧ length b' = length b.
Proof.
  intros b ds. split; [by vm_compute|].
  apply (decodeAddress_reads b 5 ds [NUL]); [simpl; lia|repeat constructor; lia].
Defined.
