(* ===== verification/ElapsedRealtime.v ===== *)
(** * ElapsedRealtime : the time since boot of a fix.

    ElapsedRealtimeEstimator (LocApiBase.cpp, .h) finds the time since boot that belongs to the
    time of a fix: from the ticks of a timer that the modem shares, or, without them, from the
    difference of the clocks, which it measures once the times of the modem are stable. The timer
    functions are those of loc_misc_utils.cpp. Times are nanoseconds in int64_t, whose overflow
    wraps around here; the answers of clock_gettime are a function of the number of the call. *)
From Stdlib Require Import SpecFloat Ascii.
From S2P Require Import Prelude CString.
Local Open Scope Z_scope.

Definition i64 (z : Z) : Z := swrap 64 z.

(** ** getCurrentTime *)

(** The result of the n-th call of clock_gettime: the nanoseconds, or a failure. *)
Definition Clock : Type := nat → option Z.

Definition MAX_TIME_DELTA_VALUE_NANOS : Z := 15000.
Definition MAX_GET_TIME_COUNT : nat := 20.

(** The loop, with [k] attempts left and [n] calls made: currentTime and sinceBootTimeNanos. *)
Fixpoint get_time_from (k n : nat) (clock : Clock) : option (Z * Z) :=
  match k with
  | O => None
  | S k =>
      sinceBootTime ← clock n;
      currentTime ← clock (S n);
      sinceBootTimeTest ← clock (S (S n));
      if i64 (sinceBootTimeTest - sinceBootTime) <? MAX_TIME_DELTA_VALUE_NANOS
      then Some (currentTime, sinceBootTime)
      else get_time_from k (S (S (S n))) clock
  end.
Definition getCurrentTime (clock : Clock) : option (Z * Z) := get_time_from MAX_GET_TIME_COUNT 0 clock.

(** ** The estimator *)
Record Estimator := mkEstimator {
  mCurrentClockDiff : Z; mPrevUtcTimeNanos : Z; mPrevBootTimeNanos : Z;
  mFixTimeStablizationThreshold : Z; mInitialTravelTime : Z; mPrevDataTimeNanos : Z }.

Definition reset (e : Estimator) : Estimator := mkEstimator 0 0 0 5 (mInitialTravelTime e) 0.
(** The constructor. *)
Definition new_estimator (travelTimeNanosEstimate : Z) : Estimator :=
  reset (mkEstimator 0 0 0 0 travelTimeNanosEstimate 0).

(** The threshold at which the fix is looked at. *)
Definition threshold (tbf curDataTimeNanos : Z) (e : Estimator) : Z :=
  if (0 <? tbf) && negb (tbf =? i64 (curDataTimeNanos - mPrevDataTimeNanos e)) then 5
  else mFixTimeStablizationThreshold e.

(** A fix whose time is trusted: the travel time and the estimator. *)
Definition trusted_fix (curDataTimeNanos tbf currentTimeNanos sinceBootTimeNanos : Z) (e : Estimator) : Z * Estimator :=
  let t := threshold tbf curDataTimeNanos e in
  let travel0 := mInitialTravelTime e in
  let diff :=
    if t =? 0 then i64 (i64 (currentTimeNanos - curDataTimeNanos) - travel0)
    else if t <? 0 then
      i64 (i64 (mCurrentClockDiff e + i64 (currentTimeNanos - sinceBootTimeNanos)) -
           i64 (mPrevUtcTimeNanos e - mPrevBootTimeNanos e))
    else mCurrentClockDiff e in
  let travel := if t <? 0 then i64 (i64 (currentTimeNanos - curDataTimeNanos) - diff) else travel0 in
  (travel, mkEstimator diff currentTimeNanos sinceBootTimeNanos (i64 (t - 1)) travel0 curDataTimeNanos).

Definition getElapsedRealtimeEstimateNanos (curDataTimeNanos : Z) (isCurDataTimeTrustable : bool) (tbf : Z)
    (clock : Clock) (e : Estimator) : Z * Estimator :=
  match getCurrentTime clock with
  | None => (-1, e)
  | Some (currentTimeNanos, sinceBootTimeNanos) =>
      let '(travel, e') :=
        if isCurDataTimeTrustable then trusted_fix curDataTimeNanos tbf currentTimeNanos sinceBootTimeNanos e
        else (mInitialTravelTime e, e) in
      (i64 (sinceBootTimeNanos - travel), e')
  end.

(** ** The shared timer *)

(** uint64_t of a double: undefined when the value does not fit. *)
Definition to_uint64 (d : double) : option Z :=
  match d with
  | S754_zero _ => Some 0
  | S754_finite neg m e =>
      let v := if 0 <=? e then Zpos m * 2 ^ e else Zpos m / 2 ^ (- e) in
      if (if neg then v =? 0 else v <? 2 ^ 64) then Some v else None
  | _ => None
  end.
Definition double_of_int (z : Z) : double := binary_normalize 53 1024 z 0 false.

Definition qTimerTicksToNanos (qTimer : double) : option Z :=
  to_uint64 (SFdiv 53 1024 (SFmul 53 1024 qTimer (double_of_int 10000)) (double_of_int 192)).

(** getQTimerDeltaNanos: the loop over the device nodes, from the one with the character [c] in
    its name on; [open] is the descriptor each name gives. *)
Fixpoint open_device (k : nat) (c : Z) (mdm_fd : Z) (open : Z → Z) : Z :=
  match k with
  | O => mdm_fd
  | S k => if (c <? 3) && (mdm_fd <? 0) then open_device k (c + 1) (open c) open else mdm_fd
  end.
(** [strchr(temp, ':') + 2] in the buffer, which is read there: undefined when there is no colon
    before the NUL or the place is outside. *)
Fixpoint after_colon (s : str) : option str :=
  match s with
  | c :: r =>
      if decide (c = NUL) then None
      else if decide (c = ":"%char) then match r with _ :: (_ :: _) as r' => Some r' | _ => None end
      else after_colon r
  | [] => None
  end.
Definition atoll (s : str) : Z := strtol s 10.
Definition getQTimerDeltaNanos (open : Z → Z) (contents : option str) : option Z :=
  if 0 <? open_device 256 (code "0"%char) (-1) open then
    match contents with
    | None => Some 0
    | Some s =>
        t1 ← after_colon (take 99 s ++ replicate (100 - length (take 99 s)) NUL);
        t2 ← after_colon t1;
        let local_qtimer := uwrap 64 (atoll t1) in
        let remote_qtimer := uwrap 64 (atoll t2) in
        Some (if remote_qtimer <=? local_qtimer then uwrap 64 ((local_qtimer - remote_qtimer) * 1000) else 0)
    end
  else Some 0.

(** The ticks now, the clock, and what the device files say. *)
Definition getElapsedRealtimeQtimer (qtimerTicksAtOrigin qTimerTickCount : Z) (clock : Clock)
    (open : Z → Z) (contents : option str) : option Z :=
  match getCurrentTime clock with
  | None => Some (-1)
  | Some (_, sinceBootTimeNanos) =>
      let qtimerDiff := if qtimerTicksAtOrigin <=? qTimerTickCount then qTimerTickCount - qtimerTicksAtOrigin else 0 in
      nanos ← qTimerTicksToNanos (double_of_int qtimerDiff);
      nanos ← (if 1000000000 <? nanos then
                 delta ← getQTimerDeltaNanos open contents;
                 Some (if delta <=? nanos then nanos - delta else nanos)
               else Some nanos);
      Some (if nanos <=? uwrap 64 sinceBootTimeNanos then i64 (uwrap 64 sinceBootTimeNanos - nanos) else -1)
  end.

(** ** Arithmetic modulo 2^64 *)
Definition eqm (x y : Z) : Prop := ∃ k, x - y = k * 2 ^ 64.
#[export] Instance eqm_equiv : Equivalence eqm.
Proof.
  split.
  - intros x. exists 0. lia.
  - intros x y [k Hk]. exists (- k). lia.
  - intros x y z [k Hk] [k' Hk']. exists (k + k'). lia.
Qed.
#[export] Instance eqm_add : Proper (eqm ==> eqm ==> eqm) Z.add.
Proof. intros x x' [k Hk] y y' [k' Hk']. exists (k + k'). lia. Qed.
#[export] Instance eqm_sub : Proper (eqm ==> eqm ==> eqm) Z.sub.
Proof. intros x x' [k Hk] y y' [k' Hk']. exists (k - k'). lia. Qed.

Lemma i64_eqm x : eqm (i64 x) x.
Proof.
  pose proof (Z.div_mod x (2 ^ 64)) as Hx. unfold i64, swrap.
  destruct (Z.ltb_spec (x mod 2 ^ 64) (2 ^ (64 - 1))); [exists (- (x / 2 ^ 64)); lia|exists (- (x / 2 ^ 64) - 1); lia].
Qed.
#[export] Instance i64_proper : Proper (eqm ==> eq) i64.
Proof.
  intros x y [k Hk]. replace x with (y + k * 2 ^ 64) by lia. unfold i64, swrap. by rewrite Z_mod_plus_full.
Qed.
Lemma i64_small x : - 2 ^ 63 ≤ x < 2 ^ 63 → i64 x = x.
Proof.
  intros Hx. unfold i64, swrap. destruct (Z.leb_spec 0 x).
  - rewrite Z.mod_small by lia. destruct (Z.ltb_spec x (2 ^ (64 - 1))); lia.
  - replace (x mod 2 ^ 64) with (x + 2 ^ 64) by (apply (Z.mod_unique _ _ (-1)); lia).
    destruct (Z.ltb_spec (x + 2 ^ 64) (2 ^ (64 - 1))); lia.
Qed.

(** ** A run of fixes *)
Record Fix := mkFix { cur : Z; trustable : bool; clock : Clock }.

Definition fix_result (tbf : Z) (x : Fix) (e : Estimator) : Z * Estimator :=
  getElapsedRealtimeEstimateNanos (cur x) (trustable x) tbf (clock x) e.
Definition fixes (tbf : Z) (l : list Fix) (e : Estimator) : Estimator := foldl (λ e x, snd (fix_result tbf x e)) e l.

(** Whether the estimator takes note of a fix. *)
Definition takes (x : Fix) : bool := trustable x && bool_decide (is_Some (getCurrentTime (clock x))).
Definition taken (l : list Fix) : Z := Z.of_nat (length (filter (λ x, takes x = true) l)).

(** The fixes it takes note of are [tbf] apart, when the time between fixes is known. *)
Fixpoint steady (tbf prev : Z) (l : list Fix) : Prop :=
  match l with
  | [] => True
  | x :: l => if takes x then (0 < tbf → tbf = i64 (cur x - prev)) ∧ steady tbf (cur x) l else steady tbf prev l
  end.
Fixpoint last_data (prev : Z) (l : list Fix) : Z :=
  match l with [] => prev | x :: l => last_data (if takes x then cur x else prev) l end.

Lemma steady_app tbf p l1 l2 : steady tbf p (l1 ++ l2) ↔ steady tbf p l1 ∧ steady tbf (last_data p l1) l2.
Proof. revert p. induction l1 as [|x l1 IH]; intros p; simpl; [naive_solver|]. destruct (takes x); rewrite IH; naive_solver. Qed.

Lemma takes_true x : takes x = true → trustable x = true ∧ ∃ utc boot, getCurrentTime (clock x) = Some (utc, boot).
Proof.
  unfold takes. intros [Ht Hc%bool_decide_eq_true]%andb_true_iff. destruct Hc as [[utc boot] Hc]. split; [done|]. by exists utc, boot.
Qed.
Lemma takes_false tbf x e : takes x = false → snd (fix_result tbf x e) = e.
Proof.
  unfold takes, fix_result, getElapsedRealtimeEstimateNanos. destruct (trustable x); simpl.
  - intros Hn%bool_decide_eq_false. destruct (getCurrentTime (clock x)); [|done]. by destruct Hn.
  - by destruct (getCurrentTime (clock x)) as [[]|].
Qed.
Lemma fix_taken tbf x e utc boot : trustable x = true → getCurrentTime (clock x) = Some (utc, boot) →
  fix_result tbf x e = (i64 (boot - (trusted_fix (cur x) tbf utc boot e).1), (trusted_fix (cur x) tbf utc boot e).2).
Proof.
  intros Ht Hc. unfold fix_result, getElapsedRealtimeEstimateNanos. rewrite Hc, Ht. by destruct (trusted_fix _ _ _ _ _).
Qed.
Lemma threshold_steady tbf x e : (0 < tbf → tbf = i64 (x - mPrevDataTimeNanos e)) → threshold tbf x e = mFixTimeStablizationThreshold e.
Proof.
  intros Hs. unfold threshold. destruct (Z.ltb_spec 0 tbf); simpl; [|done]. rewrite (proj2 (Z.eqb_eq _ _)) by auto. done.
Qed.

(** While the threshold is above zero every fix that is noted lowers it by one. *)
Lemma warm_up tbf l e :
  steady tbf (mPrevDataTimeNanos e) l → taken l ≤ mFixTimeStablizationThreshold e ≤ 5 →
  mFixTimeStablizationThreshold (fixes tbf l e) = mFixTimeStablizationThreshold e - taken l ∧
  mPrevDataTimeNanos (fixes tbf l e) = last_data (mPrevDataTimeNanos e) l ∧
  mInitialTravelTime (fixes tbf l e) = mInitialTravelTime e.
Proof.
  revert e. induction l as [|x l IH]; intros e Hs Ht; [unfold taken; simpl; split_and!; lia || done|].
  simpl. simpl in Hs. unfold taken in *. rewrite filter_cons in Ht. rewrite filter_cons. destruct (takes x) eqn:E.
  - rewrite decide_True in Ht by done. rewrite decide_True by done. simpl length in *.
    destruct (takes_true x E) as (H1 & utc & boot & Hc). destruct Hs as [Hx Hs].
    rewrite (fix_taken _ _ _ _ _ H1 Hc). unfold trusted_fix. rewrite threshold_steady by done. cbv zeta. cbn [snd].
    match goal with |- context [fixes tbf l ?e1] => destruct (IH e1) as (-> & -> & ->) end; simpl; [done| |].
    + rewrite i64_small by lia. lia.
    + rewrite i64_small by lia. split_and!; [lia|done|done].
  - rewrite decide_False in Ht by done. rewrite decide_False by done. rewrite takes_false by done. by apply IH.
Qed.

(** Calibrated: the difference of the clocks, less what the clocks of the device have moved apart
    since, is fixed. *)
Record Calibrated (c k : Z) (e : Estimator) : Prop := {
  ca_threshold : - k ≤ mFixTimeStablizationThreshold e < 0;
  ca_diff : eqm (mCurrentClockDiff e - (mPrevUtcTimeNanos e - mPrevBootTimeNanos e)) c }.

Lemma calibrated_fix tbf c k x e utc boot :
  Calibrated c k e → 0 ≤ k < 2 ^ 62 → (0 < tbf → tbf = i64 (cur x - mPrevDataTimeNanos e)) →
  trustable x = true → getCurrentTime (clock x) = Some (utc, boot) →
  Calibrated c (k + 1) (snd (fix_result tbf x e)) ∧ fst (fix_result tbf x e) = i64 (cur x + c) ∧
  mPrevDataTimeNanos (snd (fix_result tbf x e)) = cur x.
Proof.
  intros [Ht Hd] Hk Hs H1 Hc. rewrite (fix_taken _ _ _ _ _ H1 Hc). unfold trusted_fix. rewrite threshold_steady by done.
  cbv zeta. rewrite (proj2 (Z.eqb_neq _ 0)) by lia. rewrite (proj2 (Z.ltb_lt _ 0)) by lia. cbn [fst snd].
  split_and!; [split|..]; cbn [mFixTimeStablizationThreshold mCurrentClockDiff mPrevUtcTimeNanos mPrevBootTimeNanos mPrevDataTimeNanos].
  - rewrite i64_small by lia. lia.
  - rewrite !i64_eqm, <- Hd. exists 0. ring.
  - apply i64_proper. rewrite !i64_eqm, <- Hd. exists 0. ring.
  - done.
Qed.

Lemma calibrated_fixes tbf c l k e :
  Calibrated c k e → 0 ≤ k → k + Z.of_nat (length l) < 2 ^ 62 → steady tbf (mPrevDataTimeNanos e) l →
  Calibrated c (k + Z.of_nat (length l)) (fixes tbf l e) ∧
  mPrevDataTimeNanos (fixes tbf l e) = last_data (mPrevDataTimeNanos e) l.
Proof.
  revert k e. induction l as [|x l IH]; intros k e Hca Hk Hl Hs; [by rewrite Z.add_0_r|].
  cbn [length] in *. cbn [steady last_data] in *. change (fixes tbf (x :: l) e) with (fixes tbf l (snd (fix_result tbf x e))).
  destruct (takes x) eqn:E.
  - destruct (takes_true x E) as (H1 & utc & boot & Hc). destruct Hs as [Hx Hs].
    destruct (calibrated_fix tbf c k x e utc boot Hca) as (Hca' & _ & Hp); [lia|done..|].
    destruct (IH (k + 1) (snd (fix_result tbf x e))) as [H2 H3]; [done|lia|lia|by rewrite Hp|].
    rewrite Hp in H3. split; [|done]. by replace (k + Z.of_nat (S (length l))) with (k + 1 + Z.of_nat (length l)) by lia.
  - rewrite takes_false by done. destruct (IH (k + 1) e) as [H2 H3]; [|lia|lia|done|].
    { destruct Hca as [? ?]. split; [lia|done]. }
    split; [|done]. by replace (k + Z.of_nat (S (length l))) with (k + 1 + Z.of_nat (length l)) by lia.
Qed.

(** The first fix at threshold zero calibrates the estimator. *)
Lemma calibrating_fix tbf x e utc boot :
  mFixTimeStablizationThreshold e = 0 → (0 < tbf → tbf = i64 (cur x - mPrevDataTimeNanos e)) →
  trustable x = true → getCurrentTime (clock x) = Some (utc, boot) →
  Calibrated (boot - cur x - mInitialTravelTime e) 1 (snd (fix_result tbf x e)) ∧
  mPrevDataTimeNanos (snd (fix_result tbf x e)) = cur x.
Proof.
  intros H0 Hs H1 Hc. rewrite (fix_taken _ _ _ _ _ H1 Hc). unfold trusted_fix. rewrite threshold_steady, H0 by done.
  cbv zeta. cbn [fst snd Z.eqb]. split; [split|done]; cbn [mFixTimeStablizationThreshold mCurrentClockDiff mPrevUtcTimeNanos mPrevBootTimeNanos].
  - by vm_compute.
  - rewrite !i64_eqm. exists 0. ring.
Qed.

(** C33: the time since boot of a fix follows the clock of the modem: after a first fix and four
    more that are noted, the next one, [c], fixes the offset; from then on, for as long as the
    noted fixes are the time between fixes apart, the result for a fix [d] is the time since boot
    at [c] less the assumed travel time, plus the time of the modem from [c] to [d]. No change of
    the wall clock of the device, no fix that is not trusted and no failure to read the clocks
    has any influence on it. *)
Theorem estimate_follows_modem travel tbf first warm c later d utc boot utc' boot' :
  takes first = true → taken warm = 4 → steady tbf (cur first) (warm ++ c :: later ++ [d]) →
  trustable c = true → getCurrentTime (clock c) = Some (utc, boot) →
  trustable d = true → getCurrentTime (clock d) = Some (utc', boot') →
  Z.of_nat (length later) < 2 ^ 61 →
  fst (fix_result tbf d (fixes tbf (first :: warm ++ c :: later) (new_estimator travel))) =
  i64 (boot + (cur d - cur c) - travel).
Proof.
  intros Hf Hw Hs Hc1 Hc Hd1 Hd Hlen. destruct (takes_true first Hf) as (F1 & u0 & b0 & F2).
  set (e1 := snd (fix_result tbf first (new_estimator travel))).
  assert (He1 : mFixTimeStablizationThreshold e1 = 4 ∧ mPrevDataTimeNanos e1 = cur first ∧ mInitialTravelTime e1 = travel).
  { unfold e1. rewrite (fix_taken _ _ _ _ _ F1 F2). unfold trusted_fix, threshold. simpl. by destruct (_ && _). }
  destruct He1 as (Ht1 & Hp1 & Hi1). apply steady_app in Hs as [Hs1 Hs2]. rewrite <- Hp1 in Hs1.
  destruct (warm_up tbf warm e1 Hs1) as (Ht2 & Hp2 & Hi2); [lia|]. set (e2 := fixes tbf warm e1) in *.
  assert (Htc : takes c = true). { unfold takes. rewrite Hc1, Hc. done. }
  assert (Htd : takes d = true). { unfold takes. rewrite Hd1, Hd. done. }
  cbn [steady] in Hs2. rewrite Htc, <- Hp1, <- Hp2 in Hs2. destruct Hs2 as [Hsc Hs3].
  destruct (calibrating_fix tbf c e2 utc boot) as [Hca Hp3]; [lia|done..|]. rewrite Hi2, Hi1 in Hca.
  set (e3 := snd (fix_result tbf c e2)) in *. apply steady_app in Hs3 as [Hs3 Hs4]. rewrite <- Hp3 in Hs3.
  destruct (calibrated_fixes tbf _ later 1 e3 Hca) as [Hca4 Hp4]; [lia|lia|done|].
  cbn [steady] in Hs4. rewrite Htd in Hs4. destruct Hs4 as [Hs4 _]. rewrite <- Hp3, <- Hp4 in Hs4.
  assert (E : fixes tbf (first :: warm ++ c :: later) (new_estimator travel) = fixes tbf later e3).
  { unfold fixes. cbn [foldl]. by rewrite foldl_app. }
  rewrite E. destruct (calibrated_fix tbf _ _ d (fixes tbf later e3) utc' boot' Hca4) as (_ & Hr & _); [lia|done..|].
  rewrite Hr. f_equal. ring.
Qed.

(** A clock that answers with these times. *)
Definition steady_clock (utc boot : Z) : Clock := λ n, Some (if Nat.eqb (n mod 3) 1 then utc else boot).
Definition fix_at (data utc boot : Z) : Fix := mkFix data true (steady_clock utc boot).

(** The wall clock jumps by an hour between the last two fixes. *)
Lemma estimate_follows_modem_witness :
  let s := 1000000000 in
  let first := fix_at (100 * s) (100 * s + 7) (10 * s) in
  let warm := [fix_at (101 * s) (101 * s + 7) (11 * s); mkFix 5 false (steady_clock 0 0); fix_at (102 * s) (102 * s + 7) (12 * s);
               fix_at (103 * s) (103 * s + 7) (13 * s); fix_at (104 * s) (104 * s + 7) (14 * s)] in
  let c := fix_at (105 * s) (105 * s + 9) (15 * s + 3) in
  let later := [mkFix (106 * s) true (λ _, None)] in
  let d := fix_at (106 * s) (3706 * s + 7) (16 * s + 5) in
  fst (fix_result s d (fixes s (first :: warm ++ c :: later) (new_estimator 600000000))) = 15 * s + 3 + s - 600000000 ∧
  fst (fix_result s d (fixes s (first :: warm ++ c :: later) (new_estimator 600000000))) =
  i64 (15 * s + 3 + (cur d - cur c) - 600000000).
Proof.
  intros s first warm c later d. split; [by vm_compute|].
  apply (estimate_follows_modem 600000000 s first warm c later d (105 * s + 9) (15 * s + 3) (3706 * s + 7) (16 * s + 5));
    try reflexivity; vm_compute; split_and!; done.
Defined.

(** A fix that is not where it should be after the one before starts the estimator over: until
    five more are noted the result is the time since boot less the assumed travel time. *)
Lemma fix_out_of_step tbf x e utc boot :
  0 < tbf → tbf ≠ i64 (cur x - mPrevDataTimeNanos e) → trustable x = true → getCurrentTime (clock x) = Some (utc, boot) →
  fst (fix_result tbf x e) = i64 (boot - mInitialTravelTime e) ∧ mFixTimeStablizationThreshold (snd (fix_result tbf x e)) = 4.
Proof.
  intros Ht Hne H1 Hc. rewrite (fix_taken _ _ _ _ _ H1 Hc). unfold trusted_fix, threshold.
  rewrite (proj2 (Z.ltb_lt 0 tbf)), (proj2 (Z.eqb_neq _ _)) by done. by split.
Qed.

(** *** The timer *)

Lemma get_time_readings k n clk utc boot : get_time_from k n clk = Some (utc, boot) →
  ∃ i, (i < k)%nat ∧ clk (n + 3 * i)%nat = Some boot ∧ clk (S (n + 3 * i)) = Some utc.
Proof.
  revert n. induction k as [|k IH]; intros n; [done|]. cbn [get_time_from].
  destruct (clk n) as [b|] eqn:Eb; [|done]. destruct (clk (S n)) as [u|] eqn:Eu; [|done].
  destruct (clk (S (S n))) as [t|]; [|done]. cbn [mbind option_bind]. destruct (_ <? _).
  - intros [= <- <-]. exists 0%nat. replace (n + 3 * 0)%nat with n by lia. split_and!; [lia|done|done].
  - intros (i & Hi & H1 & H2)%IH. exists (S i). split; [lia|].
    replace (n + 3 * S i)%nat with (S (S (S n)) + 3 * i)%nat by lia. done.
Qed.

Lemma to_uint64_range d z : to_uint64 d = Some z → 0 ≤ z < 2 ^ 64.
Proof.
  destruct d as [s|s| |s m e]; simpl; [by intros [= <-]|done|done|].
  set (v := if 0 <=? e then _ else _). assert (Hv : 0 ≤ v).
  { unfold v. destruct (Z.leb_spec 0 e); [|by apply Z.div_pos; [|apply Z.pow_pos_nonneg; lia]].
    apply Z.mul_nonneg_nonneg; [done|]. apply Z.pow_nonneg. lia. }
  destruct s; [destruct (Z.eqb_spec v 0)|destruct (Z.ltb_spec v (2 ^ 64))]; try done; intros [= <-]; lia.
Qed.

(** The difference of the two timers is never read: whatever devices there are and whatever
    they say, getQTimerDeltaNanos opens none of them and returns 0, because its loop compares the
    character of the digit in the name with the number 3. *)
Theorem qtimer_delta_never_read open contents : getQTimerDeltaNanos open contents = Some 0.
Proof. done. Qed.

(** The result of the timer is a time since boot or -1: when the conversion of the ticks is
    defined, the result is -1 exactly when the clocks cannot be read or more ticks have passed
    than the device is up, and otherwise it is between 0 and the time since boot; it is the time
    since boot itself when the ticks of the fix lie in the future. *)
Theorem qtimer_result_bounded origin ticks clk open contents r :
  getElapsedRealtimeQtimer origin ticks clk open contents = Some r →
  match getCurrentTime clk with
  | None => r = -1
  | Some (_, boot) =>
      0 ≤ boot < 2 ^ 63 → (r = -1 ∨ 0 ≤ r ≤ boot) ∧ (ticks < origin → r = boot)
  end.
Proof.
  unfold getElapsedRealtimeQtimer. destruct (getCurrentTime clk) as [[utc boot]|]; [|by intros [= <-]].
  intros Hr Hb. rewrite (uwrap_small 64 boot) in Hr by lia. split.
  - destruct (qTimerTicksToNanos _) as [n|] eqn:En; [|done]. apply to_uint64_range in En. simpl in Hr.
    assert (Hn : ∃ n', 0 ≤ n' ∧ Some (if n' <=? boot then i64 (boot - n') else -1) = Some r).
    { destruct (1000000000 <? n); [|exists n; split; [lia|done]].
      simpl in Hr. exists (if 0 <=? n then n - 0 else n). split; [destruct (0 <=? n); lia|done]. }
    clear Hr. destruct Hn as (n' & H0 & [= Hr]). destruct (Z.leb_spec n' boot); [|by left]. right. subst r.
    rewrite i64_small by lia. lia.
  - intros Hlt. rewrite (proj2 (Z.leb_gt _ _)) in Hr by done. change (qTimerTicksToNanos (double_of_int 0)) with (Some 0) in Hr.
    simpl in Hr. rewrite (proj2 (Z.leb_le 0 boot)) in Hr by lia. injection Hr as <-. rewrite Z.sub_0_r. by apply i64_small; lia.
Qed.

(** 19.2 million ticks are a second. *)
Lemma qtimer_result_bounded_witness :
  let clk := steady_clock 5 30000000000 in
  getElapsedRealtimeQtimer 19200000 57600000 clk (λ _, 3) None = Some 28000000000 ∧
  (0 ≤ 30000000000 < 2 ^ 63 → (28000000000 = -1 ∨ 0 ≤ 28000000000 ≤ 30000000000) ∧ (57600000 < 19200000 → 28000000000 = 30000000000)).
Proof.
  intros clk. assert (E : getElapsedRealtimeQtimer 19200000 57600000 clk (λ _, 3) None = Some 28000000000) by by vm_compute.
  split; [exact E|]. exact (qtimer_result_bounded 19200000 57600000 clk (λ _, 3) None 28000000000 E).
Defined.
