(* ===== verification/HalDaemon.v ===== *)
(** * HalDaemon : the process that serves the location clients.

    LocationApiService.cpp keeps a handler for each client that has registered over the IPC, by
    the name of its socket; LocHalDaemonClientHandler.cpp turns the messages of the client into
    calls of the location API and the callbacks of that API into messages to the client. Handlers
    are heap objects: one that is removed sends nothing more, and deletes itself when its instance
    of the location API is gone. Every entry point runs under the one mutex of the service, so
    that a step of the model is one of them; [performMaintenance] takes it only to copy the
    clients.

    The location API ([answer], [geofence_answer]: what the last of the calls so far returned; an instance is always
    created) and
    the reachability of a client ([reach]: whether the last message so far was sent) are
    parameters. *)
From S2P Require Import Prelude PbEnums.
From S2P Require LocApi LocAdapter LocApiTrack.
Local Open Scope string_scope.
Local Open Scope list_scope.
Local Open Scope Z_scope.

Abbreviation LocationOptions := LocApiTrack.LocationOptions (only parsing).
Abbreviation TrackingOptions := LocApiTrack.TrackingOptions (only parsing).
Abbreviation LocationCallbacks := LocAdapter.LocationCallbacks (only parsing).

Definition AUTO_START_CLIENT_NAME : string := "default".
Definition MAX_GEOFENCE_COUNT : Z := 20.
(** LOC_OUTPUT_ENGINE_COUNT *)
Definition engine_count : nat := Z.to_nat (value LOC_OUTPUT_ENGINE_COUNT).
Inductive PowerStateType := POWER_STATE_UNKNOWN | POWER_STATE_SUSPEND | POWER_STATE_RESUME | POWER_STATE_SHUTDOWN.
#[export] Instance PowerStateType_eq : EqDecision PowerStateType.
Proof. solve_decision. Defined.
#[export] Instance ELocMsgID_eq : EqDecision ELocMsgID.
Proof. solve_decision. Defined.

(** ** A handler *)
Record BatchOptions := mkBatchOptions { batchInterval : Z; batchDistance : Z; batchMode : BatchingMode }.

Record Handler := mkHandler {
  mName : string;
  mClientType : ClientType;
  mCapabilityMask : Z;
  mTracking : bool;
  mBatching : bool;
  mBatchingMode : BatchingMode;
  mSessionId : Z;
  mBatchingId : Z;
  mLocationApi : bool;                  (* whether it is not null *)
  mCallbacks : LocationCallbacks;
  mPendingMessages : list ELocMsgID;
  mGfPendingMessages : list ELocMsgID;
  mSubscriptionMask : Z;
  mEngineInfoRequestMask : Z;
  mGeofenceIds : option (list Z);
  mIpcSender : bool;                    (* whether it is not null *)
  mGfIdsMap : gmap Z Z;                 (* clientId -> session *)
  mOptions : TrackingOptions;
  mBatchOptions : BatchOptions }.

Definition no_options : TrackingOptions :=
  LocApiTrack.mkTrackingOptions (LocApiTrack.mkLocationOptions 0 0 0 GNSS_SUPL_MODE_STANDALONE 0) LocApi.GNSS_POWER_MODE_INVALID 0.
(** The members the constructor initialises. *)
Definition handler_init (name : string) (clientType : ClientType) : Handler :=
  {| mName := name; mClientType := clientType; mCapabilityMask := 0; mTracking := false; mBatching := false;
     mBatchingMode := BATCHING_MODE_NO_AUTO_REPORT; mSessionId := 0; mBatchingId := 0; mLocationApi := false;
     mCallbacks := LocAdapter.no_callbacks; mPendingMessages := []; mGfPendingMessages := [];
     mSubscriptionMask := 0; mEngineInfoRequestMask := 0; mGeofenceIds := None; mIpcSender := true;
     mGfIdsMap := ∅; mOptions := no_options; mBatchOptions := mkBatchOptions 0 0 BATCHING_MODE_ROUTINE |}.

(** *** Updates of one member *)
Definition set_capabilityMask x h := mkHandler (mName h) (mClientType h) x (mTracking h) (mBatching h) (mBatchingMode h) (mSessionId h) (mBatchingId h) (mLocationApi h) (mCallbacks h) (mPendingMessages h) (mGfPendingMessages h) (mSubscriptionMask h) (mEngineInfoRequestMask h) (mGeofenceIds h) (mIpcSender h) (mGfIdsMap h) (mOptions h) (mBatchOptions h).
Definition set_tracking x h := mkHandler (mName h) (mClientType h) (mCapabilityMask h) x (mBatching h) (mBatchingMode h) (mSessionId h) (mBatchingId h) (mLocationApi h) (mCallbacks h) (mPendingMessages h) (mGfPendingMessages h) (mSubscriptionMask h) (mEngineInfoRequestMask h) (mGeofenceIds h) (mIpcSender h) (mGfIdsMap h) (mOptions h) (mBatchOptions h).
Definition set_batching x y h := mkHandler (mName h) (mClientType h) (mCapabilityMask h) (mTracking h) x y (mSessionId h) (mBatchingId h) (mLocationApi h) (mCallbacks h) (mPendingMessages h) (mGfPendingMessages h) (mSubscriptionMask h) (mEngineInfoRequestMask h) (mGeofenceIds h) (mIpcSender h) (mGfIdsMap h) (mOptions h) (mBatchOptions h).
Definition set_sessionId x h := mkHandler (mName h) (mClientType h) (mCapabilityMask h) (mTracking h) (mBatching h) (mBatchingMode h) x (mBatchingId h) (mLocationApi h) (mCallbacks h) (mPendingMessages h) (mGfPendingMessages h) (mSubscriptionMask h) (mEngineInfoRequestMask h) (mGeofenceIds h) (mIpcSender h) (mGfIdsMap h) (mOptions h) (mBatchOptions h).
Definition set_batchingId x h := mkHandler (mName h) (mClientType h) (mCapabilityMask h) (mTracking h) (mBatching h) (mBatchingMode h) (mSessionId h) x (mLocationApi h) (mCallbacks h) (mPendingMessages h) (mGfPendingMessages h) (mSubscriptionMask h) (mEngineInfoRequestMask h) (mGeofenceIds h) (mIpcSender h) (mGfIdsMap h) (mOptions h) (mBatchOptions h).
Definition set_locationApi x h := mkHandler (mName h) (mClientType h) (mCapabilityMask h) (mTracking h) (mBatching h) (mBatchingMode h) (mSessionId h) (mBatchingId h) x (mCallbacks h) (mPendingMessages h) (mGfPendingMessages h) (mSubscriptionMask h) (mEngineInfoRequestMask h) (mGeofenceIds h) (mIpcSender h) (mGfIdsMap h) (mOptions h) (mBatchOptions h).
Definition set_pending x h := mkHandler (mName h) (mClientType h) (mCapabilityMask h) (mTracking h) (mBatching h) (mBatchingMode h) (mSessionId h) (mBatchingId h) (mLocationApi h) (mCallbacks h) x (mGfPendingMessages h) (mSubscriptionMask h) (mEngineInfoRequestMask h) (mGeofenceIds h) (mIpcSender h) (mGfIdsMap h) (mOptions h) (mBatchOptions h).
Definition set_gfPending x h := mkHandler (mName h) (mClientType h) (mCapabilityMask h) (mTracking h) (mBatching h) (mBatchingMode h) (mSessionId h) (mBatchingId h) (mLocationApi h) (mCallbacks h) (mPendingMessages h) x (mSubscriptionMask h) (mEngineInfoRequestMask h) (mGeofenceIds h) (mIpcSender h) (mGfIdsMap h) (mOptions h) (mBatchOptions h).
Definition set_subscription x y h := mkHandler (mName h) (mClientType h) (mCapabilityMask h) (mTracking h) (mBatching h) (mBatchingMode h) (mSessionId h) (mBatchingId h) (mLocationApi h) y (mPendingMessages h) (mGfPendingMessages h) x (mEngineInfoRequestMask h) (mGeofenceIds h) (mIpcSender h) (mGfIdsMap h) (mOptions h) (mBatchOptions h).
Definition set_engineInfo x h := mkHandler (mName h) (mClientType h) (mCapabilityMask h) (mTracking h) (mBatching h) (mBatchingMode h) (mSessionId h) (mBatchingId h) (mLocationApi h) (mCallbacks h) (mPendingMessages h) (mGfPendingMessages h) (mSubscriptionMask h) x (mGeofenceIds h) (mIpcSender h) (mGfIdsMap h) (mOptions h) (mBatchOptions h).
Definition set_geofenceIds x h := mkHandler (mName h) (mClientType h) (mCapabilityMask h) (mTracking h) (mBatching h) (mBatchingMode h) (mSessionId h) (mBatchingId h) (mLocationApi h) (mCallbacks h) (mPendingMessages h) (mGfPendingMessages h) (mSubscriptionMask h) (mEngineInfoRequestMask h) x (mIpcSender h) (mGfIdsMap h) (mOptions h) (mBatchOptions h).
Definition set_ipcSender x h := mkHandler (mName h) (mClientType h) (mCapabilityMask h) (mTracking h) (mBatching h) (mBatchingMode h) (mSessionId h) (mBatchingId h) (mLocationApi h) (mCallbacks h) (mPendingMessages h) (mGfPendingMessages h) (mSubscriptionMask h) (mEngineInfoRequestMask h) (mGeofenceIds h) x (mGfIdsMap h) (mOptions h) (mBatchOptions h).
Definition set_gfIds x h := mkHandler (mName h) (mClientType h) (mCapabilityMask h) (mTracking h) (mBatching h) (mBatchingMode h) (mSessionId h) (mBatchingId h) (mLocationApi h) (mCallbacks h) (mPendingMessages h) (mGfPendingMessages h) (mSubscriptionMask h) (mEngineInfoRequestMask h) (mGeofenceIds h) (mIpcSender h) x (mOptions h) (mBatchOptions h).
Definition set_options x h := mkHandler (mName h) (mClientType h) (mCapabilityMask h) (mTracking h) (mBatching h) (mBatchingMode h) (mSessionId h) (mBatchingId h) (mLocationApi h) (mCallbacks h) (mPendingMessages h) (mGfPendingMessages h) (mSubscriptionMask h) (mEngineInfoRequestMask h) (mGeofenceIds h) (mIpcSender h) (mGfIdsMap h) x (mBatchOptions h).
Definition set_batchOptions x h := mkHandler (mName h) (mClientType h) (mCapabilityMask h) (mTracking h) (mBatching h) (mBatchingMode h) (mSessionId h) (mBatchingId h) (mLocationApi h) (mCallbacks h) (mPendingMessages h) (mGfPendingMessages h) (mSubscriptionMask h) (mEngineInfoRequestMask h) (mGeofenceIds h) (mIpcSender h) (mGfIdsMap h) (mOptions h) x.
Definition enqueue x h := set_pending (mPendingMessages h ++ [x]) h.
Definition enqueue_gf x h := set_gfPending (mGfPendingMessages h ++ [x]) h.

(** *** Pure parts *)
Definition has_bit (mask bit : Z) : bool := negb (Z.land mask bit =? 0).

(** updateSubscription: which callbacks are set. The tracking callback is never taken back. *)
Definition subscribed_callbacks (mask : Z) (old : LocationCallbacks) : LocationCallbacks :=
  {| LocAdapter.capabilitiesCb := true; LocAdapter.responseCb := true; LocAdapter.collectiveResponseCb := true;
     LocAdapter.trackingCb := has_bit mask (value E_LOC_CB_DISTANCE_BASED_TRACKING_BIT) || LocAdapter.trackingCb old;
     LocAdapter.batchingCb := has_bit mask (value E_LOC_CB_BATCHING_BIT);
     LocAdapter.geofenceBreachCb := has_bit mask (value E_LOC_CB_GEOFENCE_BREACH_BIT);
     LocAdapter.geofenceStatusCb := false;
     LocAdapter.gnssLocationInfoCb :=
       has_bit mask (Z.lor (value E_LOC_CB_GNSS_LOCATION_INFO_BIT) (value E_LOC_CB_SIMPLE_LOCATION_INFO_BIT));
     LocAdapter.gnssNiCb := false;
     LocAdapter.gnssSvCb := has_bit mask (value E_LOC_CB_GNSS_SV_BIT);
     LocAdapter.gnssNmeaCb := has_bit mask (value E_LOC_CB_GNSS_NMEA_BIT);
     LocAdapter.gnssDataCb := has_bit mask (value E_LOC_CB_GNSS_DATA_BIT);
     LocAdapter.gnssMeasurementsCb := has_bit mask (value E_LOC_CB_GNSS_MEAS_BIT);
     LocAdapter.batchingStatusCb := has_bit mask (value E_LOC_CB_BATCHING_STATUS_BIT);
     LocAdapter.locationSystemInfoCb := has_bit mask (value E_LOC_CB_SYSTEM_INFO_BIT);
     LocAdapter.engineLocationsInfoCb := has_bit mask (value E_LOC_CB_ENGINE_LOCATIONS_INFO_BIT) |}.

Definition LOCATION_SESSON_ALL_INFO_MASK : Z :=
  foldr Z.lor 0 (value <$> [E_LOC_CB_DISTANCE_BASED_TRACKING_BIT; E_LOC_CB_GNSS_LOCATION_INFO_BIT; E_LOC_CB_GNSS_SV_BIT;
    E_LOC_CB_GNSS_NMEA_BIT; E_LOC_CB_GNSS_DATA_BIT; E_LOC_CB_GNSS_MEAS_BIT; E_LOC_CB_ENGINE_LOCATIONS_INFO_BIT;
    E_LOC_CB_SIMPLE_LOCATION_INFO_BIT]).

Definition UINT32_MAX : Z := 2 ^ 32 - 1.
Definition getSupportedTbf (tbfMsec : Z) : Z :=
  if tbfMsec <? 200 then 100
  else if tbfMsec <? 500 then 200
  else if tbfMsec <? 1000 then 500
  else if UINT32_MAX - 999 <? tbfMsec then UINT32_MAX / 1000 * 1000
  else (tbfMsec + 999) / 1000 * 1000.

Definition with_interval (x : Z) (o : LocationOptions) : LocationOptions :=
  LocApiTrack.mkLocationOptions (LocApiTrack.options_size o) x (LocApiTrack.minDistance o) (LocApiTrack.mode o)
    (LocApiTrack.locReqEngTypeMask o).
Definition with_mode (m : GnssSuplMode) (o : LocationOptions) : LocationOptions :=
  LocApiTrack.mkLocationOptions (LocApiTrack.options_size o) (LocApiTrack.minInterval o) (LocApiTrack.minDistance o) m
    (LocApiTrack.locReqEngTypeMask o).
(** TrackingOptions(options) *)
Definition tracking_options (o : LocationOptions) : TrackingOptions :=
  LocApiTrack.mkTrackingOptions o LocApi.GNSS_POWER_MODE_INVALID 0.
(** sizeof(TrackingOptions), and setLocationOptions on default options. *)
Definition sizeof_TrackingOptions : Z := 28.
Definition set_location_options (o : LocationOptions) : TrackingOptions :=
  tracking_options (LocApiTrack.mkLocationOptions sizeof_TrackingOptions (LocApiTrack.minInterval o)
    (LocApiTrack.minDistance o) (LocApiTrack.mode o) (LocApiTrack.locReqEngTypeMask o)).

(** setGeofenceIds, eraseGeofenceIds, getSessionIds (whose [operator[]] adds what is missing) and
    getClientIds (the last match of the iteration). *)
Fixpoint setGeofenceIds (clientIds sessionIds : list Z) (m : gmap Z Z) : gmap Z Z :=
  match clientIds, sessionIds with
  | c :: cs, s :: ss => setGeofenceIds cs ss (<[c := s]> m)
  | _, _ => m
  end.
Definition eraseGeofenceIds (clientIds : list Z) (m : gmap Z Z) : gmap Z Z := foldl (λ m c, delete c m) m clientIds.
Fixpoint getSessionIds (clientIds : list Z) (m : gmap Z Z) : list Z * gmap Z Z :=
  match clientIds with
  | [] => ([], m)
  | c :: cs =>
      let s := default 0 (m !! c) in
      let '(ss, m) := getSessionIds cs (<[c := s]> m) in (s :: ss, m)
  end.
Definition client_id (m : gmap Z Z) (session : Z) : Z :=
  foldl (λ r p, if p.2 =? session then p.1 else r) 0 (map_to_list m).
Definition getClientIds (sessionIds : list Z) (m : gmap Z Z) : list Z := client_id m <$> sessionIds.

(** Which engine reports a client asked for. *)
Definition engine_wanted (o : TrackingOptions) (t : LocOutputEngineType) : bool :=
  let m := LocApiTrack.locReqEngTypeMask (LocApiTrack.lo o) in
  match t with
  | LOC_OUTPUT_ENGINE_FUSED => has_bit m (value LOC_REQ_ENGINE_FUSED_BIT)
  | LOC_OUTPUT_ENGINE_SPE => has_bit m (value LOC_REQ_ENGINE_SPE_BIT)
  | LOC_OUTPUT_ENGINE_PPE => has_bit m (value LOC_REQ_ENGINE_PPE_BIT)
  | LOC_OUTPUT_ENGINE_VPE => has_bit m (value LOC_REQ_ENGINE_VPE_BIT)
  | LOC_OUTPUT_ENGINE_COUNT => false
  end.
(** parseClientGeofenceBreachType *)
Definition parseClientGeofenceBreachType (t : LocApi.GeofenceBreachType) : Z :=
  match t with
  | LocApi.GEOFENCE_BREACH_ENTER => value GEOFENCE_BREACH_ENTER_BIT
  | LocApi.GEOFENCE_BREACH_EXIT => value GEOFENCE_BREACH_EXIT_BIT
  | LocApi.GEOFENCE_BREACH_DWELL_IN => value GEOFENCE_BREACH_DWELL_IN_BIT
  | LocApi.GEOFENCE_BREACH_DWELL_OUT => value GEOFENCE_BREACH_DWELL_OUT_BIT
  | LocApi.GEOFENCE_BREACH_UNKNOWN => 0
  end.

(** ** What the service calls and sends *)

(** The calls of the location API of the handler at [a], of the control API and of others. *)
Inductive ApiCall :=
  | CreateInstance (a : addr)
  | UpdateCallbacks (a : addr) (cb : LocationCallbacks)
  | StartTracking (a : addr) (o : TrackingOptions)
  | StopTracking (a : addr) (id : Z)
  | UpdateTrackingOptions (a : addr) (id : Z) (o : TrackingOptions)
  | StartBatching (a : addr) (o : BatchOptions)
  | StopBatching (a : addr) (id : Z)
  | UpdateBatchingOptions (a : addr) (id : Z) (o : BatchOptions)
  | AddGeofences (a : addr) (count : Z)
  | OnGeofences (a : addr) (what : ELocMsgID) (ids : list Z)
  | Destroy (a : addr)
  | Control (what : ELocMsgID)
  | EnableNetworkProvider | StartNetworkLocation | StopNetworkLocation
  | UpdateConnectionStatus (availability : bool)
  | GetGnssEnergyConsumed
  | UpdateSystemPowerState (p : PowerStateType)
  | StartFixTimer (name : string).

(** The messages to a client. *)
Inductive Sent :=
  | GenericResp (what : ELocMsgID) (err : LocationError)
  | CollectiveResp (what : ELocMsgID) (l : list (Z * LocationError))
  | CapabilitiesInd (mask : Z)
  | PingTestInd
  | PingTestReq
  | ConfigResp (what : ELocMsgID)
  | TerrestrialPosResp (err : LocationError)
  | EnergyInd
  | Ind (what : ELocMsgID)
  | EngineLocationsInd (l : list LocOutputEngineType)
  | BreachInd (type : Z) (ids : list Z).

(** What the location API reports to a handler. *)
Inductive Indication :=
  | IndTracking | IndBatching (count : Z) | IndBatchingStatus (s : BatchingStatus)
  | IndBreach (ids : list Z) (t : LocApi.GeofenceBreachType) | IndLocationInfo
  | IndEngineLocations (l : list LocOutputEngineType)
  | IndNi | IndSv | IndNmea | IndData | IndMeasurements | IndSystemInfo.

(** The messages of a client. *)
Inductive ClientMsg :=
  | Register (t : ClientType) | Deregister
  | MStartTracking (o : LocationOptions) | MStopTracking | MUpdateCallbacks (mask : Z)
  | MUpdateTrackingOptions (o : LocationOptions)
  | MStartBatching (o : BatchOptions) | MStopBatching | MUpdateBatchingOptions (o : BatchOptions)
  | MAddGeofences (clientIds : list Z) | MRemoveGeofences (clientIds : list Z)
  | MModifyGeofences (clientIds : list Z) | MPauseGeofences (clientIds : list Z)
  | MResumeGeofences (clientIds : list Z)
  | MUpdateNetworkAvailability (availability : bool) | MGetGnssEnergyConsumed | MGetSingleTerrestrialPos | MPingTest
  | MConfig (what : ELocMsgID) | MConfigAidingDataDeletion | MConfigUserConsent (consent : bool).

Record Daemon := mkDaemon {
  handlers : gmap addr Handler;
  next : addr;
  mClients : gmap string addr;
  mConfigReqs : gmap Z (string * ELocMsgID);
  mPowerState : PowerStateType;
  mOptInTerrestrialService : Z;
  mGtpWwanSsLocationApi : bool;
  mTerrestrialFixReqs : gset string;
  calls : list ApiCall;
  sent : list (string * Sent) }.

Definition daemon_init : Daemon := mkDaemon ∅ 1%positive ∅ ∅ POWER_STATE_UNKNOWN (-1) false ∅ [] [].

Definition set_handlers x w := mkDaemon x (next w) (mClients w) (mConfigReqs w) (mPowerState w) (mOptInTerrestrialService w) (mGtpWwanSsLocationApi w) (mTerrestrialFixReqs w) (calls w) (sent w).
Definition set_next x w := mkDaemon (handlers w) x (mClients w) (mConfigReqs w) (mPowerState w) (mOptInTerrestrialService w) (mGtpWwanSsLocationApi w) (mTerrestrialFixReqs w) (calls w) (sent w).
Definition set_clients x w := mkDaemon (handlers w) (next w) x (mConfigReqs w) (mPowerState w) (mOptInTerrestrialService w) (mGtpWwanSsLocationApi w) (mTerrestrialFixReqs w) (calls w) (sent w).
Definition set_configReqs x w := mkDaemon (handlers w) (next w) (mClients w) x (mPowerState w) (mOptInTerrestrialService w) (mGtpWwanSsLocationApi w) (mTerrestrialFixReqs w) (calls w) (sent w).
Definition set_powerState x w := mkDaemon (handlers w) (next w) (mClients w) (mConfigReqs w) x (mOptInTerrestrialService w) (mGtpWwanSsLocationApi w) (mTerrestrialFixReqs w) (calls w) (sent w).
Definition set_optIn x y w := mkDaemon (handlers w) (next w) (mClients w) (mConfigReqs w) (mPowerState w) x y (mTerrestrialFixReqs w) (calls w) (sent w).
Definition set_fixReqs x w := mkDaemon (handlers w) (next w) (mClients w) (mConfigReqs w) (mPowerState w) (mOptInTerrestrialService w) (mGtpWwanSsLocationApi w) x (calls w) (sent w).
Definition set_calls x w := mkDaemon (handlers w) (next w) (mClients w) (mConfigReqs w) (mPowerState w) (mOptInTerrestrialService w) (mGtpWwanSsLocationApi w) (mTerrestrialFixReqs w) x (sent w).
Definition set_sent x w := mkDaemon (handlers w) (next w) (mClients w) (mConfigReqs w) (mPowerState w) (mOptInTerrestrialService w) (mGtpWwanSsLocationApi w) (mTerrestrialFixReqs w) (calls w) x.

(** A loop over a list. *)
Fixpoint each {A} (f : A → M Daemon unit) (l : list A) : M Daemon unit :=
  match l with [] => mret tt | x :: l => _ ← f x; each f l end.

Section service.
Context (answer : list ApiCall → Z) (geofence_answer : list ApiCall → option (list Z)).
Context (reach : list (string * Sent) → bool).
(** POWERMANAGER_ENABLED, the position mode of the configuration, and getGnssInterface. *)
Context (powermanager : bool) (mPositionMode : GnssSuplMode) (gnssInterface : bool).
Notation W := Daemon.

Definition api_call (c : ApiCall) : M W Z :=
  _ ← modify (λ w, set_calls (calls w ++ [c]) w); gets (λ w, answer (calls w)).
Definition api_call_ (c : ApiCall) : M W unit := _ ← api_call c; mret tt.

(** The handler at [a]: a member access through a pointer. *)
Definition handler (a : addr) : M W Handler := deref (λ w, handlers w !! a).
Definition upd_handler (a : addr) (f : Handler → Handler) : M W unit :=
  h ← handler a; modify (λ w, set_handlers (<[a := f h]> (handlers w)) w).
(** LocIpc::send *)
Definition post (name : string) (m : Sent) : M W bool :=
  _ ← modify (λ w, set_sent (sent w ++ [(name, m)]) w); gets (λ w, reach (sent w)).
(** sendMessage, through a sender that must not be null. *)
Definition sendMessage (a : addr) (m : Sent) : M W bool :=
  h ← handler a; if mIpcSender h then post (mName h) m else ub.

Definition getClient (name : string) : M W ptr := gets (λ w, mClients w !! name).

(** ** LocHalDaemonClientHandler *)

Definition updateSubscription (a : addr) (mask : Z) : M W unit :=
  _ ← upd_handler a (λ h, set_subscription mask (subscribed_callbacks mask (mCallbacks h)) h);
  h ← handler a;
  when (mLocationApi h) (api_call_ (UpdateCallbacks a (mCallbacks h))).
Definition unsubscribeLocationSessionCb (a : addr) : M W unit :=
  h ← handler a; updateSubscription a (Z.ldiff (mSubscriptionMask h) LOCATION_SESSON_ALL_INFO_MASK).

(** The constructor. *)
Definition new_handler (name : string) (clientType : ClientType) : M W addr :=
  a ← gets next;
  _ ← modify (λ w, set_next (Pos.succ a) (set_handlers (<[a := handler_init name clientType]> (handlers w)) w));
  _ ← match clientType with
      | LOCATION_CLIENT_API =>
          _ ← updateSubscription a (value E_LOC_CB_GNSS_LOCATION_INFO_BIT);
          _ ← upd_handler a (λ h, set_subscription 0 (mCallbacks h) h);
          _ ← api_call_ (CreateInstance a);
          upd_handler a (set_locationApi true)
      | LOCATION_INTEGRATION_API => mret tt
      end;
  mret a.

(** startTracking with the preserved options, and with new ones. *)
Definition resumeTracking (a : addr) : M W Z :=
  h ← handler a;
  _ ← when ((mSessionId h =? 0) && mLocationApi h)
        (id ← api_call (StartTracking a (mOptions h)); upd_handler a (set_sessionId id));
  h ← handler a; mret (mSessionId h).
Definition startTracking (a : addr) (locOptions : LocationOptions) : M W Z :=
  h ← handler a;
  _ ← when ((mSessionId h =? 0) && mLocationApi h)
        (let o := tracking_options (with_interval (getSupportedTbf (LocApiTrack.minInterval locOptions)) locOptions) in
         _ ← upd_handler a (set_options o);
         id ← api_call (StartTracking a o); upd_handler a (set_sessionId id));
  h ← handler a; mret (mSessionId h).
Definition stopTracking (a : addr) : M W unit :=
  h ← handler a;
  when (negb (mSessionId h =? 0) && mLocationApi h)
    (_ ← api_call_ (StopTracking a (mSessionId h)); upd_handler a (set_sessionId 0)).
Definition updateTrackingOptions (a : addr) (locOptions : LocationOptions) : M W unit :=
  h ← handler a;
  when (negb (mSessionId h =? 0) && mLocationApi h)
    (let o := set_location_options (with_interval (getSupportedTbf (LocApiTrack.minInterval locOptions)) locOptions) in
     _ ← api_call_ (UpdateTrackingOptions a (mSessionId h) o);
     upd_handler a (set_options (tracking_options locOptions))).

Definition startBatching (a : addr) (o : BatchOptions) : M W Z :=
  h ← handler a;
  _ ← when ((mBatchingId h =? 0) && mLocationApi h)
        (_ ← upd_handler a (set_batchOptions o); id ← api_call (StartBatching a o); upd_handler a (set_batchingId id));
  h ← handler a; mret (mBatchingId h).
Definition stopBatching (a : addr) : M W unit :=
  h ← handler a;
  when (negb (mBatchingId h =? 0) && mLocationApi h)
    (_ ← api_call_ (StopBatching a (mBatchingId h)); upd_handler a (set_batchingId 0)).
Definition updateBatchingOptions (a : addr) (o : BatchOptions) : M W unit :=
  h ← handler a;
  when (negb (mBatchingId h =? 0) && mLocationApi h)
    (_ ← upd_handler a (set_batchOptions o); api_call_ (UpdateBatchingOptions a (mBatchingId h) o)).

Definition addGeofences (a : addr) (count : Z) : M W (option (list Z)) :=
  h ← handler a;
  _ ← when ((0 <? count) && mLocationApi h)
        (_ ← api_call_ (AddGeofences a count); ids ← gets (λ w, geofence_answer (calls w)); upd_handler a (set_geofenceIds ids));
  h ← handler a; mret (mGeofenceIds h).
(** removeGeofences, modifyGeofences, pauseGeofences and resumeGeofences *)
Definition onGeofences (a : addr) (what : ELocMsgID) (ids : list Z) : M W unit :=
  h ← handler a;
  when (bool_decide (ids ≠ []) && mLocationApi h) (api_call_ (OnGeofences a what ids)).

Definition cleanup (a : addr) : M W unit :=
  _ ← upd_handler a (set_ipcSender false);
  h ← handler a;
  if mLocationApi h then _ ← api_call_ (Destroy a); upd_handler a (set_locationApi false)
  else modify (λ w, set_handlers (delete a (handlers w)) w).

Definition deleteClientbyName (name : string) : M W unit :=
  p ← getClient name;
  match p with
  | None => mret tt
  | Some a =>
      _ ← modify (λ w, set_fixReqs (mTerrestrialFixReqs w ∖ {[name]}) (set_clients (delete name (mClients w)) w));
      cleanup a
  end.

(** A message whose failure purges the client. *)
Definition send_or_purge (a : addr) (m : Sent) : M W unit :=
  rc ← sendMessage a m;
  if rc : bool then mret tt else h ← handler a; deleteClientbyName (mName h).

Definition pingTest (a : addr) : M W unit :=
  h ← handler a; when (mIpcSender h) (send_or_purge a PingTestInd).

(** The requests onResponseCb has an indication for. *)
Definition is_session_msg (x : ELocMsgID) : bool :=
  match x with
  | E_LOCAPI_START_TRACKING_MSG_ID | E_LOCAPI_STOP_TRACKING_MSG_ID | E_LOCAPI_UPDATE_TRACKING_OPTIONS_MSG_ID
  | E_LOCAPI_START_BATCHING_MSG_ID | E_LOCAPI_STOP_BATCHING_MSG_ID | E_LOCAPI_UPDATE_BATCHING_OPTIONS_MSG_ID => true
  | _ => false
  end.
Definition onResponseCb (a : addr) (err : LocationError) (id : Z) : M W unit :=
  h ← handler a;
  when (mIpcSender h)
    (let pendingMsgId := default E_LOCAPI_UNDEFINED_MSG_ID (head (mPendingMessages h)) in
     _ ← upd_handler a (set_pending (tail (mPendingMessages h)));
     when (is_session_msg pendingMsgId) (send_or_purge a (GenericResp pendingMsgId err))).

Definition is_geofence_msg (x : ELocMsgID) : bool :=
  match x with
  | E_LOCAPI_ADD_GEOFENCES_MSG_ID | E_LOCAPI_REMOVE_GEOFENCES_MSG_ID | E_LOCAPI_MODIFY_GEOFENCES_MSG_ID
  | E_LOCAPI_PAUSE_GEOFENCES_MSG_ID | E_LOCAPI_RESUME_GEOFENCES_MSG_ID => true
  | _ => false
  end.
Definition succeeded (e : LocationError) : bool := value e =? value LOCATION_ERROR_SUCCESS.
Definition onCollectiveResponseCallback (a : addr) (l : list (Z * LocationError)) : M W unit :=
  h ← handler a;
  when (mIpcSender h)
    (let pendingMsgId := default E_LOCAPI_UNDEFINED_MSG_ID (head (mGfPendingMessages h)) in
     _ ← upd_handler a (set_gfPending (tail (mGfPendingMessages h)));
     when (bool_decide (l ≠ []))
       (let clientIds := getClientIds (l.*1) (mGfIdsMap h) in
        let failed := (filter (λ p, succeeded p.2 = false) (zip clientIds (l.*2))).*1 in
        _ ← upd_handler a (λ h, set_gfIds (eraseGeofenceIds failed (mGfIdsMap h)) h);
        _ ← when (bool_decide (pendingMsgId = E_LOCAPI_REMOVE_GEOFENCES_MSG_ID))
              (upd_handler a (λ h, set_gfIds (eraseGeofenceIds clientIds (mGfIdsMap h)) h));
        when (is_geofence_msg pendingMsgId) (send_or_purge a (CollectiveResp pendingMsgId (zip clientIds (l.*2)))))).

Definition onControlResponseCb (a : addr) (err : LocationError) (what : ELocMsgID) : M W unit :=
  h ← handler a; when (mIpcSender h) (send_or_purge a (GenericResp what err)).

Definition sendTerrestrialFix (a : addr) (err : LocationError) : M W unit :=
  _ ← sendMessage a (TerrestrialPosResp err); mret tt.

(** GNSS_CONFIG_FLAGS_*_BIT of the configuration each request asks for. *)
Definition config_flag (what : ELocMsgID) : option Z :=
  match what with
  | E_INTAPI_GET_ROBUST_LOCATION_CONFIG_REQ_MSG_ID => Some (Z.shiftl 1 12)
  | E_INTAPI_GET_MIN_GPS_WEEK_REQ_MSG_ID => Some (Z.shiftl 1 13)
  | E_INTAPI_GET_MIN_SV_ELEVATION_REQ_MSG_ID => Some (Z.shiftl 1 14)
  | E_INTAPI_GET_CONSTELLATION_SECONDARY_BAND_CONFIG_REQ_MSG_ID => Some (Z.shiftl 1 15)
  | _ => None
  end.
Definition onGnssConfigCb (a : addr) (what : ELocMsgID) (flags : Z) : M W unit :=
  h ← handler a;
  let serialized := match config_flag what with Some bit => has_bit flags bit | None => false end in
  when (mIpcSender h && serialized) (send_or_purge a (ConfigResp what)).

Definition onCapabilitiesCallback (a : addr) (mask : Z) : M W unit :=
  h ← handler a;
  when (mIpcSender h && negb (mask =? mCapabilityMask h))
    (_ ← upd_handler a (set_capabilityMask mask); send_or_purge a (CapabilitiesInd mask)).

(** The callbacks of reports: what is sent, given the handler; [None] is nothing, and an array of
    engine reports that is too long overflows. *)
Definition report_of (h : Handler) (i : Indication) : option Sent :=
  let on (bit : Z) (m : Sent) := if has_bit (mSubscriptionMask h) bit then Some m else None in
  match i with
  | IndTracking => on (value E_LOC_CB_DISTANCE_BASED_TRACKING_BIT) (Ind E_LOCAPI_LOCATION_MSG_ID)
  | IndBatching count => if count =? 0 then None else on (value E_LOC_CB_BATCHING_BIT) (Ind E_LOCAPI_BATCHING_MSG_ID)
  | IndBatchingStatus s =>
      if (value (mBatchingMode h) =? value BATCHING_MODE_TRIP) && (value s =? value BATCHING_STATUS_TRIP_COMPLETED)
      then on (value E_LOC_CB_BATCHING_STATUS_BIT) (Ind E_LOCAPI_BATCHING_MSG_ID) else None
  | IndBreach ids t =>
      if decide (ids = []) then None
      else on (value E_LOC_CB_GEOFENCE_BREACH_BIT) (BreachInd (parseClientGeofenceBreachType t) (getClientIds ids (mGfIdsMap h)))
  | IndLocationInfo =>
      if has_bit (mSubscriptionMask h) (value E_LOC_CB_GNSS_LOCATION_INFO_BIT) then Some (Ind E_LOCAPI_LOCATION_INFO_MSG_ID)
      else on (value E_LOC_CB_SIMPLE_LOCATION_INFO_BIT) (Ind E_LOCAPI_LOCATION_MSG_ID)
  | IndEngineLocations l =>
      let r := filter (λ t, engine_wanted (mOptions h) t = true) l in
      if decide (r = []) then None else on (value E_LOC_CB_ENGINE_LOCATIONS_INFO_BIT) (EngineLocationsInd r)
  | IndNi => None
  | IndSv => on (value E_LOC_CB_GNSS_SV_BIT) (Ind E_LOCAPI_SATELLITE_VEHICLE_MSG_ID)
  | IndNmea => on (value E_LOC_CB_GNSS_NMEA_BIT) (Ind E_LOCAPI_NMEA_MSG_ID)
  | IndData => on (value E_LOC_CB_GNSS_DATA_BIT) (Ind E_LOCAPI_DATA_MSG_ID)
  | IndMeasurements => on (value E_LOC_CB_GNSS_MEAS_BIT) (Ind E_LOCAPI_MEAS_MSG_ID)
  | IndSystemInfo => on (value E_LOC_CB_SYSTEM_INFO_BIT) (Ind E_LOCAPI_LOCATION_SYSTEM_INFO_MSG_ID)
  end.
Definition overflows (m : Sent) : bool :=
  match m with EngineLocationsInd r => Nat.ltb engine_count (length r) | _ => false end.
Definition onIndication (a : addr) (i : Indication) : M W unit :=
  h ← handler a;
  if mIpcSender h then
    match report_of h i with
    | Some m => if overflows m then ub else send_or_purge a m
    | None => mret tt
    end
  else mret tt.

Definition onLocationApiDestroyCompleteCb (a : addr) : M W unit :=
  _ ← handler a; modify (λ w, set_handlers (delete a (handlers w)) w).

Definition energy_bit : Z := 1.
Definition onGnssEnergyConsumedInfoAvailable (a : addr) : M W unit :=
  h ← handler a;
  when (mIpcSender h && has_bit (mEngineInfoRequestMask h) energy_bit)
    (rc ← sendMessage a EnergyInd;
     _ ← upd_handler a (λ h, set_engineInfo (Z.ldiff (mEngineInfoRequestMask h) energy_bit) h);
     if rc : bool then mret tt else h ← handler a; deleteClientbyName (mName h)).

(** ** LocationApiService *)

(** A request of the client [name], when it is registered. *)
Definition with_client (name : string) (f : addr → M W unit) : M W unit :=
  p ← getClient name; match p with Some a => f a | None => mret tt end.

Definition newClient (name : string) (t : ClientType) : M W unit :=
  p ← getClient name;
  match p with
  | Some _ => mret tt
  | None => a ← new_handler name t; modify (λ w, set_clients (<[name := a]> (mClients w)) w)
  end.

Definition service_startTracking (name : string) (o : LocationOptions) : M W unit :=
  with_client name (λ a,
    id ← startTracking a (with_mode mPositionMode o);
    when (negb (id =? 0)) (upd_handler a (λ h, enqueue E_LOCAPI_START_TRACKING_MSG_ID (set_tracking true h)))).
Definition service_stopTracking (name : string) : M W unit :=
  with_client name (λ a,
    _ ← upd_handler a (set_tracking false);
    _ ← unsubscribeLocationSessionCb a;
    _ ← stopTracking a;
    upd_handler a (enqueue E_LOCAPI_STOP_TRACKING_MSG_ID)).

(** The loop over the clients calls nothing that changes the map. *)
Definition suspendAllTrackingSessions : M W unit :=
  l ← gets (λ w, map_to_list (mClients w));
  each (λ p, h ← handler p.2;
             when (mTracking h) (_ ← stopTracking p.2; upd_handler p.2 (enqueue E_LOCAPI_STOP_TRACKING_MSG_ID))) l.
(** It ends at the first session that does not start. *)
Fixpoint resume_each (l : list (string * addr)) : M W unit :=
  match l with
  | [] => mret tt
  | p :: l =>
      h ← handler p.2;
      if mTracking h then
        id ← resumeTracking p.2;
        if id =? 0 then mret tt
        else _ ← upd_handler p.2 (enqueue E_LOCAPI_START_TRACKING_MSG_ID); resume_each l
      else resume_each l
  end.
Definition resumeAllTrackingSessions : M W unit :=
  l ← gets (λ w, map_to_list (mClients w)); resume_each l.

Definition service_updateTrackingOptions (name : string) (o : LocationOptions) : M W unit :=
  with_client name (λ a,
    _ ← updateTrackingOptions a (with_mode mPositionMode o);
    upd_handler a (enqueue E_LOCAPI_UPDATE_TRACKING_OPTIONS_MSG_ID)).
Definition service_updateSubscription (name : string) (mask : Z) : M W unit :=
  with_client name (λ a, updateSubscription a mask).
Definition updateNetworkAvailability (b : bool) : M W unit :=
  when gnssInterface (api_call_ (UpdateConnectionStatus b)).

Definition getGnssEnergyConsumed (name : string) : M W unit :=
  when gnssInterface
    (hs ← gets handlers;
     l ← gets (λ w, map_to_list (mClients w));
     let requestAlreadyPending :=
       existsb (λ p, match hs !! p.2 with Some h => has_bit (mEngineInfoRequestMask h) energy_bit | None => false end) l in
     with_client name (λ a,
       _ ← upd_handler a (λ h, set_engineInfo (Z.lor (mEngineInfoRequestMask h) energy_bit) h);
       when (negb requestAlreadyPending) (api_call_ GetGnssEnergyConsumed))).

Definition service_startBatching (name : string) (o : BatchOptions) : M W unit :=
  with_client name (λ a,
    id ← startBatching a o;
    when (negb (id =? 0)) (upd_handler a (λ h, enqueue E_LOCAPI_START_BATCHING_MSG_ID (set_batching true (batchMode o) h)))).
Definition service_stopBatching (name : string) : M W unit :=
  with_client name (λ a,
    _ ← upd_handler a (set_batching false BATCHING_MODE_NO_AUTO_REPORT);
    _ ← updateSubscription a 0;
    _ ← stopBatching a;
    upd_handler a (enqueue E_LOCAPI_STOP_BATCHING_MSG_ID)).
Definition service_updateBatchingOptions (name : string) (o : BatchOptions) : M W unit :=
  with_client name (λ a,
    _ ← updateBatchingOptions a o;
    upd_handler a (enqueue E_LOCAPI_UPDATE_BATCHING_OPTIONS_MSG_ID)).

Definition service_addGeofences (name : string) (clientIds : list Z) : M W unit :=
  with_client name (λ a,
    when (Z.of_nat (length clientIds) <=? MAX_GEOFENCE_COUNT)
      (sessions ← addGeofences a (Z.of_nat (length clientIds));
       match sessions with
       | None => mret tt
       | Some ss =>
           _ ← upd_handler a (λ h, set_gfIds (setGeofenceIds clientIds ss (mGfIdsMap h)) h);
           upd_handler a (enqueue_gf E_LOCAPI_ADD_GEOFENCES_MSG_ID)
       end)).
(** removeGeofences, pauseGeofences, resumeGeofences; modifyGeofences limits the count. *)
Definition service_onGeofences (name : string) (what : ELocMsgID) (clientIds : list Z) : M W unit :=
  with_client name (λ a,
    when (bool_decide (what ≠ E_LOCAPI_MODIFY_GEOFENCES_MSG_ID) || (Z.of_nat (length clientIds) <=? MAX_GEOFENCE_COUNT))
      (h ← handler a;
       let '(sessions, m) := getSessionIds clientIds (mGfIdsMap h) in
       _ ← upd_handler a (set_gfIds m);
       when (bool_decide (sessions ≠ []))
         (_ ← onGeofences a what sessions; upd_handler a (enqueue_gf what)))).
Definition service_pingTest (name : string) : M W unit := with_client name pingTest.

Definition addConfigRequestToMap (sessionId : Z) (name : string) (what : ELocMsgID) : M W unit :=
  if negb (sessionId =? 0) then
    modify (λ w, match mConfigReqs w !! sessionId with
                 | Some _ => w
                 | None => set_configReqs (<[sessionId := (name, what)]> (mConfigReqs w)) w
                 end)
  else with_client name (λ a, onControlResponseCb a LOCATION_ERROR_GENERAL_FAILURE what).

(** The configuration requests: each calls the control API and keeps the session it returns. *)
Definition config (name : string) (what : ELocMsgID) : M W unit :=
  id ← api_call (Control what); addConfigRequestToMap id name what.
Definition configAidingDataDeletion (name : string) : M W unit :=
  _ ← suspendAllTrackingSessions;
  id ← api_call (Control E_INTAPI_CONFIG_AIDING_DATA_DELETION_MSG_ID);
  _ ← addConfigRequestToMap id name E_INTAPI_CONFIG_AIDING_DATA_DELETION_MSG_ID;
  p ← gets mPowerState;
  when (negb (powermanager && (bool_decide (p = POWER_STATE_SUSPEND) || bool_decide (p = POWER_STATE_SHUTDOWN))))
    resumeAllTrackingSessions.
Definition configUserConsentTerrestrialPositioning (name : string) (consent : bool) : M W unit :=
  _ ← modify (λ w, set_optIn (if consent then 1 else 0) (mGtpWwanSsLocationApi w) w);
  created ← gets mGtpWwanSsLocationApi;
  _ ← when (consent && negb created)
        (_ ← modify (λ w, set_optIn (mOptInTerrestrialService w) true w); api_call_ EnableNetworkProvider);
  config name E_INTAPI_CONFIG_USER_CONSENT_TERRESTRIAL_POSITIONING_MSG_ID.

(** onControlResponseCallback, and onControlCollectiveResponseCallback for one answer. *)
Definition onControlResponseCallback (err : LocationError) (sessionId : Z) : M W unit :=
  r ← gets (λ w, mConfigReqs w !! sessionId);
  match r with
  | Some (name, what) =>
      _ ← with_client name (λ a, onControlResponseCb a err what);
      modify (λ w, set_configReqs (delete sessionId (mConfigReqs w)) w)
  | None => mret tt
  end.
Definition onControlCollectiveResponseCallback (l : list (LocationError * Z)) : M W unit :=
  match l with
  | [(err, id)] => onControlResponseCallback err id
  | _ => mret tt
  end.
Definition onGnssConfigCallback (sessionId flags : Z) : M W unit :=
  r ← gets (λ w, mConfigReqs w !! sessionId);
  match r with
  | Some (name, what) =>
      _ ← with_client name (λ a, _ ← onControlResponseCb a LOCATION_ERROR_SUCCESS what; onGnssConfigCb a what flags);
      modify (λ w, set_configReqs (delete sessionId (mConfigReqs w)) w)
  | None => mret tt
  end.

Definition onGtpWwanTrackingCallback (has_lat_long : bool) : M W unit :=
  reqs ← gets mTerrestrialFixReqs;
  optIn ← gets mOptInTerrestrialService;
  when (bool_decide (reqs ≠ ∅) && has_lat_long && (optIn =? 1))
    (_ ← each (λ name, p ← getClient name;
               match p with Some a => sendTerrestrialFix a LOCATION_ERROR_SUCCESS | None => ub end) (elements reqs);
     _ ← modify (set_fixReqs ∅);
     api_call_ StopNetworkLocation).

Definition onPowerEvent (p : PowerStateType) : M W unit :=
  _ ← modify (set_powerState p);
  _ ← match p with
      | POWER_STATE_SUSPEND | POWER_STATE_SHUTDOWN => suspendAllTrackingSessions
      | POWER_STATE_RESUME => resumeAllTrackingSessions
      | POWER_STATE_UNKNOWN => mret tt
      end;
  when gnssInterface (api_call_ (UpdateSystemPowerState p)).

(** The iterator of the loop is invalid once its client has been erased. *)
Definition onGnssEnergyConsumedCb : M W unit :=
  l ← gets (λ w, map_to_list (mClients w));
  each (λ p, _ ← onGnssEnergyConsumedInfoAvailable p.2;
             q ← getClient p.1; match q with Some _ => mret tt | None => ub end) l.

Definition performMaintenance : M W unit :=
  l ← gets (λ w, filter (λ p, p.1 ≠ AUTO_START_CLIENT_NAME) (map_to_list (mClients w)));
  each (λ p, messageSent ← post p.1 PingTestReq; if messageSent : bool then mret tt else deleteClientbyName p.1) l.

Definition getSingleTerrestrialPos (name : string) : M W unit :=
  optIn ← gets mOptInTerrestrialService;
  if negb (optIn =? 1) then with_client name (λ a, sendTerrestrialFix a LOCATION_ERROR_NOT_SUPPORTED)
  else
    _ ← modify (λ w, set_fixReqs (mTerrestrialFixReqs w ∪ {[name]}) w);
    _ ← api_call_ (StartFixTimer name);
    reqs ← gets mTerrestrialFixReqs;
    when (bool_decide (size reqs = 1%nat)) (api_call_ StartNetworkLocation).
Definition gtpFixRequestTimeout (name : string) : M W unit :=
  reqs ← gets mTerrestrialFixReqs;
  when (bool_decide (name ∈ reqs))
    (_ ← with_client name (λ a, sendTerrestrialFix a LOCATION_ERROR_TIMEOUT);
     _ ← modify (λ w, set_fixReqs (mTerrestrialFixReqs w ∖ {[name]}) w);
     reqs ← gets mTerrestrialFixReqs;
     when (bool_decide (size reqs = 1%nat)) (api_call_ StopNetworkLocation)).

(** The default client of the constructor. *)
Definition auto_start (gnssSessionTbfMs : Z) : M W unit :=
  a ← new_handler AUTO_START_CLIENT_NAME LOCATION_CLIENT_API;
  _ ← modify (λ w, set_clients (<[AUTO_START_CLIENT_NAME := a]> (mClients w)) w);
  _ ← updateSubscription a (Z.lor (value E_LOC_CB_GNSS_LOCATION_INFO_BIT) (value E_LOC_CB_GNSS_SV_BIT));
  _ ← startTracking a (LocApiTrack.mkLocationOptions 20 gnssSessionTbfMs 0 mPositionMode 0);
  upd_handler a (λ h, enqueue E_LOCAPI_START_TRACKING_MSG_ID (set_tracking true h)).

(** processClientMsg, behind the parser. *)
Definition processClientMsg (name : string) (m : ClientMsg) : M W unit :=
  match m with
  | Register t => newClient name t
  | Deregister => deleteClientbyName name
  | MStartTracking o => service_startTracking name o
  | MStopTracking => service_stopTracking name
  | MUpdateCallbacks mask => service_updateSubscription name mask
  | MUpdateTrackingOptions o => service_updateTrackingOptions name o
  | MStartBatching o => service_startBatching name o
  | MStopBatching => service_stopBatching name
  | MUpdateBatchingOptions o => service_updateBatchingOptions name o
  | MAddGeofences l => service_addGeofences name l
  | MRemoveGeofences l => service_onGeofences name E_LOCAPI_REMOVE_GEOFENCES_MSG_ID l
  | MModifyGeofences l => service_onGeofences name E_LOCAPI_MODIFY_GEOFENCES_MSG_ID l
  | MPauseGeofences l => service_onGeofences name E_LOCAPI_PAUSE_GEOFENCES_MSG_ID l
  | MResumeGeofences l => service_onGeofences name E_LOCAPI_RESUME_GEOFENCES_MSG_ID l
  | MUpdateNetworkAvailability b => updateNetworkAvailability b
  | MGetGnssEnergyConsumed => getGnssEnergyConsumed name
  | MGetSingleTerrestrialPos => getSingleTerrestrialPos name
  | MPingTest => service_pingTest name
  | MConfig what =>
      when (bool_decide (what ≠ E_INTAPI_GET_CONSTELLATION_SECONDARY_BAND_CONFIG_REQ_MSG_ID) || gnssInterface) (config name what)
  | MConfigAidingDataDeletion => configAidingDataDeletion name
  | MConfigUserConsent b => configUserConsentTerrestrialPositioning name b
  end.

(** ** Executions *)
Inductive Label :=
  | LMsg (name : string) (m : ClientMsg)
  | LResponse (a : addr) (err : LocationError) (id : Z)
  | LCollective (a : addr) (l : list (Z * LocationError))
  | LCapabilities (a : addr) (mask : Z)
  | LIndication (a : addr) (i : Indication)
  | LDestroyed (a : addr)
  | LControl (l : list (LocationError * Z))
  | LGnssConfig (sessionId flags : Z)
  | LFix (has_lat_long : bool)
  | LFixTimeout (name : string)
  | LPower (p : PowerStateType)
  | LEnergy
  | LMaintenance.

Definition exec (l : Label) : M W unit :=
  match l with
  | LMsg name m => processClientMsg name m
  | LResponse a err id => onResponseCb a err id
  | LCollective a l => onCollectiveResponseCallback a l
  | LCapabilities a mask => onCapabilitiesCallback a mask
  | LIndication a i => onIndication a i
  | LDestroyed a => onLocationApiDestroyCompleteCb a
  | LControl l => onControlCollectiveResponseCallback l
  | LGnssConfig id flags => onGnssConfigCallback id flags
  | LFix b => onGtpWwanTrackingCallback b
  | LFixTimeout name => gtpFixRequestTimeout name
  | LPower p => onPowerEvent p
  | LEnergy => onGnssEnergyConsumedCb
  | LMaintenance => performMaintenance
  end.
Fixpoint execs (l : list Label) : M W unit :=
  match l with [] => mret tt | x :: l => _ ← exec x; execs l end.
End service.

(** ** What registered means *)

(** A state that differs from [w] only in what does not identify handlers, and in the calls made. *)
Record mild (w w' : Daemon) : Prop := {
  mi_clients : mClients w' = mClients w;
  mi_next : next w' = next w;
  mi_sent : sent w' = sent w;
  mi_handlers a : (λ h, (mName h, mClientType h, mIpcSender h, mLocationApi h)) <$> handlers w' !! a =
                  (λ h, (mName h, mClientType h, mIpcSender h, mLocationApi h)) <$> handlers w !! a }.
#[export] Instance mild_preorder : PreOrder mild.
Proof. split; [by split|]. intros w1 w2 w3 [] []. split; [congruence..|]. intros a. by rewrite mi_handlers1. Qed.

Record WF (w : Daemon) : Prop := {
  wf_reg n a : mClients w !! n = Some a →
    ∃ h, handlers w !! a = Some h ∧ mName h = n ∧ mIpcSender h = true ∧
         mLocationApi h = match mClientType h with LOCATION_CLIENT_API => true | _ => false end;
  wf_sender a h : handlers w !! a = Some h → mIpcSender h = true → mClients w !! mName h = Some a;
  wf_gone a h : handlers w !! a = Some h → mIpcSender h = false → mLocationApi h = false;
  wf_fresh a : is_Some (handlers w !! a) → (a < next w)%positive }.

Lemma mild_inv w w' a h' : mild w w' → handlers w' !! a = Some h' →
  ∃ h, handlers w !! a = Some h ∧ mName h' = mName h ∧ mClientType h' = mClientType h ∧ mIpcSender h' = mIpcSender h ∧
       mLocationApi h' = mLocationApi h.
Proof.
  intros [_ _ _ Hh] E. specialize (Hh a). rewrite E in Hh. destruct (handlers w !! a) as [h|]; [|done].
  simpl in Hh. injection Hh as ????. by exists h.
Qed.
Lemma mild_fwd w w' a h : mild w w' → handlers w !! a = Some h →
  ∃ h', handlers w' !! a = Some h' ∧ mName h' = mName h ∧ mClientType h' = mClientType h ∧ mIpcSender h' = mIpcSender h ∧
       mLocationApi h' = mLocationApi h.
Proof.
  intros [_ _ _ Hh] E. specialize (Hh a). rewrite E in Hh. destruct (handlers w' !! a) as [h'|]; [|done].
  simpl in Hh. injection Hh as ????. by exists h'.
Qed.
Lemma mild_alive w w' a : mild w w' → is_Some (handlers w !! a) → is_Some (handlers w' !! a).
Proof. intros Hm [h Hh]. destruct (mild_fwd _ _ _ _ Hm Hh) as (h' & E & _). by exists h'. Qed.

Lemma mild_wf w w' : mild w w' → WF w → WF w'.
Proof.
  intros Hm [Hr Hs Hg Hf]. split.
  - intros n a. rewrite (mi_clients _ _ Hm). intros (h & Hh & Hn & Hi & Ha)%Hr.
    destruct (mild_fwd _ _ _ _ Hm Hh) as (h' & Hh' & En & Et & Ei & Ea). exists h'. rewrite En, Et, Ei, Ea. by split_and!.
  - intros a h' Hh' Hi. destruct (mild_inv _ _ _ _ Hm Hh') as (h & Hh & En & _ & Ei & _).
    rewrite (mi_clients _ _ Hm), En. apply (Hs a h); [done|congruence].
  - intros a h' Hh' Hi. destruct (mild_inv _ _ _ _ Hm Hh') as (h & Hh & _ & _ & Ei & Ea). rewrite Ea. apply (Hg a h); [done|congruence].
  - intros a [h' Hh']. destruct (mild_inv _ _ _ _ Hm Hh') as (h & Hh & _). rewrite (mi_next _ _ Hm). apply Hf. by exists h.
Qed.

(** ** Code that works on the handler at [a] and is mild *)
Section calm.
Context (answer : list ApiCall → Z) (geofence_answer : list ApiCall → option (list Z)).
Notation W := Daemon.

Definition calm {X} (a : addr) (m : M W X) : Prop := ∀ w, is_Some (handlers w !! a) → ∃ x w', m w = Done x w' ∧ mild w w'.

Lemma calm_bind {X Y} a (m : M W X) (f : X → M W Y) : calm a m → (∀ x, calm a (f x)) → calm a (m ≫= f).
Proof.
  intros Hm Hf w Hw. destruct (Hm w Hw) as (x & w1 & E1 & H1). destruct (Hf x w1) as (y & w2 & E2 & H2); [by eapply mild_alive|].
  exists y, w2. rewrite (bind_done _ _ _ _ _ E1). split; [done|]. by etrans.
Qed.
Lemma calm_ret {X} a (x : X) : calm a (mret x).
Proof. intros w _. by exists x, w. Qed.
Lemma calm_when a b (m : M W unit) : calm a m → calm a (when b m).
Proof. intros Hm. destruct b; [done|apply calm_ret]. Qed.
Lemma calm_gets {X} a (f : W → X) : calm a (gets f).
Proof. intros w _. by exists (f w), w. Qed.
Lemma calm_handler a : calm a (handler a).
Proof. intros w [h Hh]. exists h, w. split; [by apply deref_done|done]. Qed.
Lemma calm_update a f :
  (∀ h, (mName (f h), mClientType (f h), mIpcSender (f h), mLocationApi (f h)) =
        (mName h, mClientType h, mIpcSender h, mLocationApi h)) → calm a (upd_handler a f).
Proof.
  intros Hf w [h Hh]. eexists tt, _. split; [unfold upd_handler; by rewrite (bind_done _ _ w h w) by (by apply deref_done)|].
  split; simpl; [done..|]. intros b. destruct (decide (b = a)) as [->|Hb].
  - rewrite lookup_insert_eq, Hh. simpl. by rewrite Hf.
  - by rewrite lookup_insert_ne by done.
Qed.
Lemma calm_modify a f : (∀ w, mild w (f w)) → calm a (modify f).
Proof. intros Hf w _. eexists tt, _. split; [done|apply Hf]. Qed.
Lemma calm_api a c : calm a (api_call answer c).
Proof. intros w _. eexists _, _. split; [done|]. by split. Qed.
Lemma calm_api_ a c : calm a (api_call_ answer c).
Proof. apply calm_bind; [apply calm_api|]. intros. apply calm_ret. Qed.
End calm.

Ltac calm :=
  repeat first
    [ progress intros
    | lazymatch goal with
      | |- calm _ (upd_handler _ _) => apply calm_update; done
      | |- calm _ (api_call _ _) => apply calm_api
      | |- calm _ (api_call_ _ _) => apply calm_api_
      | |- calm _ (handler _) => apply calm_handler
      | |- calm _ (gets _) => apply calm_gets
      | |- calm _ (mret _) => apply calm_ret
      | |- calm _ (when _ _) => apply calm_when
      | |- calm _ (_ ≫= _) => apply calm_bind
      | |- calm _ (match ?x with _ => _ end) => destruct x
      end
    | solve [eauto with gps] ].

Section calm_operations.
Context (answer : list ApiCall → Z) (geofence_answer : list ApiCall → option (list Z)).

Lemma calm_updateSubscription a mask : calm a (updateSubscription answer a mask).
Proof. unfold updateSubscription. calm. Qed.
Lemma calm_unsubscribe a : calm a (unsubscribeLocationSessionCb answer a).
Proof. unfold unsubscribeLocationSessionCb. apply calm_bind; [apply calm_handler|]. intros. apply calm_updateSubscription. Qed.
Lemma calm_startTracking a o : calm a (startTracking answer a o).
Proof. unfold startTracking. calm. Qed.
Lemma calm_resumeTracking a : calm a (resumeTracking answer a).
Proof. unfold resumeTracking. calm. Qed.
Lemma calm_stopTracking a : calm a (stopTracking answer a).
Proof. unfold stopTracking. calm. Qed.
Lemma calm_updateTracking a o : calm a (updateTrackingOptions answer a o).
Proof. unfold updateTrackingOptions. calm. Qed.
Lemma calm_startBatching a o : calm a (startBatching answer a o).
Proof. unfold startBatching. calm. Qed.
Lemma calm_stopBatching a : calm a (stopBatching answer a).
Proof. unfold stopBatching. calm. Qed.
Lemma calm_updateBatching a o : calm a (updateBatchingOptions answer a o).
Proof. unfold updateBatchingOptions. calm. Qed.
Lemma calm_addGeofences a n : calm a (addGeofences answer geofence_answer a n).
Proof. unfold addGeofences. calm. Qed.
Lemma calm_onGeofences a what ids : calm a (onGeofences answer a what ids).
Proof. unfold onGeofences. calm. Qed.
End calm_operations.
#[export] Hint Resolve calm_updateSubscription calm_unsubscribe calm_startTracking calm_resumeTracking calm_stopTracking
  calm_updateTracking calm_startBatching calm_stopBatching calm_updateBatching calm_addGeofences calm_onGeofences : gps.

(** ** Code that sends and purges *)

(** The state stays well formed, no client is added, and messages go to registered clients. *)
Record serves (w w' : Daemon) : Prop := {
  se_wf : WF w';
  se_names n : is_Some (mClients w' !! n) → is_Some (mClients w !! n);
  se_sent : ∃ new, sent w' = sent w ++ new ∧ Forall (λ p, is_Some (mClients w !! p.1)) new }.
Lemma serves_refl w : WF w → serves w w.
Proof. intros Hw. split; [done|done|]. exists []. rewrite app_nil_r. by split. Qed.
Lemma serves_trans w1 w2 w3 : serves w1 w2 → serves w2 w3 → serves w1 w3.
Proof.
  intros [_ Hn1 (l1 & E1 & F1)] [Hw Hn2 (l2 & E2 & F2)]. split; [done|auto|]. exists (l1 ++ l2).
  rewrite E2, E1, <- app_assoc. split; [done|]. apply Forall_app. split; [done|]. eapply Forall_impl; [exact F2|]. simpl. auto.
Qed.
Lemma mild_serves w w' : WF w → mild w w' → serves w w'.
Proof.
  intros Hw Hm. split; [by eapply mild_wf|by rewrite (mi_clients _ _ Hm)|]. exists []. rewrite app_nil_r. split; [by apply Hm|done].
Qed.

(** A handler that still has its client. *)
Definition registered (a : addr) (w : Daemon) : Prop := ∃ h, handlers w !! a = Some h ∧ mIpcSender h = true.
Lemma mild_registered w w' a : mild w w' → registered a w → registered a w'.
Proof. intros Hm (h & Hh & Hi). destruct (mild_fwd _ _ _ _ Hm Hh) as (h' & Hh' & _ & _ & Ei & _). exists h'. split; [done|congruence]. Qed.
Lemma registered_alive w a : registered a w → is_Some (handlers w !! a).
Proof. intros (h & Hh & _). by exists h. Qed.

Section serving.
Context (answer : list ApiCall → Z) (geofence_answer : list ApiCall → option (list Z)) (reach : list (string * Sent) → bool).
Notation W := Daemon.

Definition served {X} (m : M W X) : Prop := ∀ w, WF w → ∃ x w', m w = Done x w' ∧ serves w w'.
Definition served_at {X} (a : addr) (m : M W X) : Prop :=
  ∀ w, WF w → registered a w → ∃ x w', m w = Done x w' ∧ serves w w'.

Lemma served_bind {X Y} (m : M W X) (f : X → M W Y) : served m → (∀ x, served (f x)) → served (m ≫= f).
Proof.
  intros Hm Hf w Hw. destruct (Hm w Hw) as (x & w1 & E1 & H1). destruct (Hf x w1 (se_wf _ _ H1)) as (y & w2 & E2 & H2).
  exists y, w2. rewrite (bind_done _ _ _ _ _ E1). split; [done|]. by eapply serves_trans.
Qed.
Lemma served_ret {X} (x : X) : served (mret x).
Proof. intros w Hw. exists x, w. split; [done|by apply serves_refl]. Qed.
Lemma served_when b (m : M W unit) : served m → served (when b m).
Proof. intros Hm. destruct b; [done|apply served_ret]. Qed.
Lemma served_gets {X} (f : W → X) : served (gets f).
Proof. intros w Hw. exists (f w), w. split; [done|by apply serves_refl]. Qed.
Lemma served_modify f : (∀ w, mild w (f w)) → served (modify f).
Proof. intros Hf w Hw. eexists tt, _. split; [done|]. by apply mild_serves. Qed.
Lemma served_api c : served (api_call answer c).
Proof. intros w Hw. eexists _, _. split; [done|]. apply mild_serves; [done|]. by split. Qed.
Lemma served_api_ c : served (api_call_ answer c).
Proof. apply served_bind; [apply served_api|]. intros. apply served_ret. Qed.
Lemma served_each {A} (f : A → M W unit) l : (∀ x, served (f x)) → served (each f l).
Proof. intros Hf. induction l as [|x l IH]; [apply served_ret|]. apply served_bind; [done|]. by intros. Qed.

(** The handler is registered while the code is mild. *)
Lemma served_calm {X Y} a (m : M W X) (f : X → M W Y) : calm a m → (∀ x, served_at a (f x)) → served_at a (m ≫= f).
Proof.
  intros Hm Hf w Hw Ha. destruct (Hm w) as (x & w1 & E1 & H1); [by apply registered_alive|].
  destruct (Hf x w1) as (y & w2 & E2 & H2); [by eapply mild_wf|by eapply mild_registered|].
  exists y, w2. rewrite (bind_done _ _ _ _ _ E1). split; [done|]. eapply serves_trans; [by apply mild_serves|done].
Qed.
Lemma calm_served_at {X} a (m : M W X) : calm a m → served_at a m.
Proof.
  intros Hm w Hw Ha. destruct (Hm w) as (x & w1 & E1 & H1); [by apply registered_alive|].
  exists x, w1. split; [done|by apply mild_serves].
Qed.
Lemma served_served_at {X} a (m : M W X) : served m → served_at a m.
Proof. intros Hm w Hw _. by apply Hm. Qed.
Lemma served_at_when a b (m : M W unit) : served_at a m → served_at a (when b m).
Proof. intros Hm. destruct b; [done|]. apply calm_served_at, calm_ret. Qed.

Lemma registered_client w a h : WF w → handlers w !! a = Some h → mIpcSender h = true → mClients w !! mName h = Some a.
Proof. intros Hw. apply Hw. Qed.

(** The rest of the map without the client [n] at [a]. *)
Definition erased (n : string) (w : W) : W :=
  set_fixReqs (mTerrestrialFixReqs w ∖ {[n]}) (set_clients (delete n (mClients w)) w).

(** The state without the client: its handler is gone, or has neither sender nor API. *)
Lemma erased_wf n a w h cs oh :
  WF w → mClients w !! n = Some a → handlers w !! a = Some h →
  (oh = None ∨ ∃ h', oh = Some h' ∧ mIpcSender h' = false ∧ mLocationApi h' = false) →
  WF (set_calls cs (set_handlers (partial_alter (λ _, oh) a (handlers w)) (erased n w))).
Proof.
  intros [Hr Hs Hg Hf] Hc Hh Hoh. destruct (Hr n a Hc) as (h0 & Hh0 & Hn & Hi & _). rewrite Hh in Hh0. injection Hh0 as <-.
  assert (Hother : ∀ b, b ≠ a → partial_alter (λ _, oh) a (handlers w) !! b = handlers w !! b)
    by (intros; by apply lookup_partial_alter_ne).
  split; simpl.
  - intros n' a' [Hne Hc']%lookup_delete_Some. destruct (Hr n' a' Hc') as (h' & Hh' & Hn' & Hrest).
    exists h'. split; [|done]. rewrite Hother; [done|]. intros ->. rewrite Hh in Hh'. injection Hh' as <-. congruence.
  - intros b hb. destruct (decide (b = a)) as [->|Hb].
    + rewrite lookup_partial_alter_eq. intros -> Hib. destruct Hoh as [[=]|(h' & [= ->] & Hi' & _)]. congruence.
    + rewrite Hother by done. intros Hhb Hib. rewrite lookup_delete_ne; [by apply Hs|].
      intros E. pose proof (Hs b hb Hhb Hib) as Hcb. rewrite <- E, Hc in Hcb. congruence.
  - intros b hb. destruct (decide (b = a)) as [->|Hb].
    + rewrite lookup_partial_alter_eq. intros -> _. by destruct Hoh as [[=]|(h' & [= ->] & _ & Ha')].
    + rewrite Hother by done. apply Hg.
  - intros b. destruct (decide (b = a)) as [->|Hb]; [intros _; apply Hf; by exists h|]. rewrite Hother by done. apply Hf.
Qed.

Lemma served_delete n : served (deleteClientbyName answer n).
Proof.
  intros w Hw. unfold deleteClientbyName, getClient. rewrite (bind_done _ _ w (mClients w !! n) w) by done.
  destruct (mClients w !! n) as [a|] eqn:Hc; [|exists tt, w; split; [done|by apply serves_refl]].
  destruct (wf_reg w Hw n a Hc) as (h & Hh & Hn & Hi & Ha).
  rewrite (bind_done _ _ w tt (erased n w)) by done. unfold cleanup.
  set (w1 := set_handlers (<[a := set_ipcSender false h]> (handlers w)) (erased n w)).
  assert (E1 : upd_handler a (set_ipcSender false) (erased n w) = Done tt w1).
  { unfold upd_handler. by rewrite (bind_done _ _ (erased n w) h (erased n w)) by (by apply deref_done). }
  rewrite (bind_done _ _ _ _ _ E1). assert (H1 : handlers w1 !! a = Some (set_ipcSender false h)) by apply lookup_insert_eq.
  rewrite (bind_done _ _ w1 (set_ipcSender false h) w1) by (by apply deref_done). simpl.
  assert (Hse : ∀ cs oh, (oh = None ∨ ∃ h', oh = Some h' ∧ mIpcSender h' = false ∧ mLocationApi h' = false) →
    serves w (set_calls cs (set_handlers (partial_alter (λ _, oh) a (handlers w)) (erased n w)))).
  { intros cs oh Hoh. split; [by eapply erased_wf| |].
    - simpl. intros n'. rewrite lookup_delete_is_Some. naive_solver.
    - exists []. rewrite app_nil_r. by split. }
  destruct (mLocationApi h).
  - set (w2 := set_calls (calls w1 ++ [Destroy a]) w1).
    rewrite (bind_done _ _ w1 tt w2) by done. unfold upd_handler.
    rewrite (bind_done _ _ w2 (set_ipcSender false h) w2) by (by apply deref_done).
    eexists tt, _. split; [done|]. simpl. rewrite insert_insert_eq.
    apply (Hse (calls w ++ [Destroy a]) (Some (set_locationApi false (set_ipcSender false h)))). right. by eexists.
  - eexists tt, _. split; [done|]. simpl. rewrite delete_insert_eq. apply (Hse (calls w) None). by left.
Qed.

Lemma post_serves w n m : WF w → is_Some (mClients w !! n) →
  serves w (set_sent (sent w ++ [(n, m)]) w).
Proof.
  intros [Hr Hs Hg Hf] Hn. split; [by split|done|]. exists [(n, m)]. split; [done|]. by repeat constructor.
Qed.

Lemma sendMessage_serves a m w : WF w → registered a w →
  ∃ rc w', sendMessage reach a m w = Done rc w' ∧ serves w w' ∧ registered a w'.
Proof.
  intros Hw (h & Hh & Hi). eexists _, (set_sent (sent w ++ [(mName h, m)]) w). split_and!.
  - unfold sendMessage. rewrite (bind_done _ _ w h w) by (by apply deref_done). rewrite Hi. reflexivity.
  - apply post_serves; [done|]. rewrite (wf_sender w Hw a h Hh Hi). by eexists.
  - by exists h.
Qed.

Lemma served_send a m : served_at a (send_or_purge answer reach a m).
Proof.
  intros w Hw Ha. destruct (sendMessage_serves a m w Hw Ha) as (rc & w1 & E1 & H1 & (h & Hh & Hi)).
  unfold send_or_purge. rewrite (bind_done _ _ _ _ _ E1). destruct rc; [by exists tt, w1|].
  rewrite (bind_done _ _ w1 h w1) by (by apply deref_done).
  destruct (served_delete (mName h) w1 (se_wf _ _ H1)) as (x & w2 & E2 & H2). exists x, w2. split; [done|]. by eapply serves_trans.
Qed.

Lemma served_with_client n f : (∀ a, served_at a (f a)) → served (with_client n f).
Proof.
  intros Hf w Hw. unfold with_client, getClient. rewrite (bind_done _ _ w (mClients w !! n) w) by done.
  destruct (mClients w !! n) as [a|] eqn:Hc; [|exists tt, w; split; [done|by apply serves_refl]].
  destruct (wf_reg w Hw n a Hc) as (h & Hh & _ & Hi & _). apply Hf; [done|]. by exists h.
Qed.
Lemma served_with_client_calm n f : (∀ a, calm a (f a)) → served (with_client n f).
Proof. intros Hf. apply served_with_client. intros a. by apply calm_served_at. Qed.
End serving.

Section entry_points.
Context (answer : list ApiCall → Z) (geofence_answer : list ApiCall → option (list Z)) (reach : list (string * Sent) → bool).
Context (powermanager : bool) (mPositionMode : GnssSuplMode) (gnssInterface : bool).
Notation W := Daemon.
Notation served_api_ := (served_api_ answer).

(** *** Loops over the clients *)
Lemma each_calm {A} (at_ : A → addr) (f : A → M W unit) l w :
  (∀ x, calm (at_ x) (f x)) → Forall (λ x, is_Some (handlers w !! at_ x)) l →
  ∃ w', each f l w = Done tt w' ∧ mild w w'.
Proof.
  intros Hf. revert w. induction l as [|x l IH]; intros w Hl; [by exists w|].
  apply Forall_cons in Hl as [Hx Hl]. destruct (Hf x w Hx) as ([] & w1 & E1 & H1). destruct (IH w1) as (w2 & E2 & H2).
  { eapply Forall_impl; [exact Hl|]. simpl. intros y. by apply mild_alive. }
  exists w2. simpl. rewrite (bind_done _ _ _ _ _ E1). split; [done|by etrans].
Qed.

Lemma clients_registered w : WF w → Forall (λ p : string * addr, registered p.2 w) (map_to_list (mClients w)).
Proof.
  intros Hw. apply Forall_forall. intros [n a] Hin%elem_of_map_to_list. simpl.
  destruct (wf_reg w Hw n a Hin) as (h & Hh & _ & Hi & _). by exists h.
Qed.
Lemma clients_alive w : WF w → Forall (λ p : string * addr, is_Some (handlers w !! p.2)) (map_to_list (mClients w)).
Proof. intros Hw. eapply Forall_impl; [by apply clients_registered|]. simpl. intros p. apply registered_alive. Qed.

Lemma served_suspend : served (suspendAllTrackingSessions answer).
Proof.
  intros w Hw. unfold suspendAllTrackingSessions. rewrite (bind_done _ _ w (map_to_list (mClients w)) w) by done.
  match goal with |- context [each ?f _] => destruct (each_calm snd f (map_to_list (mClients w)) w) as (w' & E & Hm) end.
  - intros p. calm.
  - by apply clients_alive.
  - exists tt, w'. split; [done|]. by apply mild_serves.
Qed.
Lemma served_resume : served (resumeAllTrackingSessions answer).
Proof.
  intros w Hw. unfold resumeAllTrackingSessions. rewrite (bind_done _ _ w (map_to_list (mClients w)) w) by done.
  cut (∃ w', resume_each answer (map_to_list (mClients w)) w = Done tt w' ∧ mild w w').
  { intros (w' & E & Hm). exists tt, w'. split; [done|]. by apply mild_serves. }
  pose proof (clients_alive w Hw) as Hl. revert Hl. generalize (map_to_list (mClients w)) as l. clear Hw. intros l. revert w.
  induction l as [|p l IH]; intros w Hl; [by exists w|]. apply Forall_cons in Hl as [[h Hh] Hl]. simpl.
  rewrite (bind_done _ _ w h w) by (by apply deref_done). destruct (mTracking h); [|by apply IH].
  destruct (calm_resumeTracking answer p.2 w) as (id & w1 & E1 & H1); [by exists h|]. rewrite (bind_done _ _ _ _ _ E1).
  destruct (id =? 0); [by exists w1|].
  destruct (calm_update p.2 (enqueue E_LOCAPI_START_TRACKING_MSG_ID) (λ _, eq_refl) w1) as ([] & w2 & E2 & H2).
  { eapply mild_alive; [done|by exists h]. }
  rewrite (bind_done _ _ _ _ _ E2). destruct (IH w2) as (w3 & E3 & H3).
  { eapply Forall_impl; [exact Hl|]. simpl. intros q Hq. eapply mild_alive; [done|]. by eapply mild_alive. }
  exists w3. split; [done|]. etrans; [done|]. by etrans.
Qed.

(** *** Requests *)
Ltac served_ :=
  repeat first
    [ progress intros
    | lazymatch goal with
      | |- served (api_call _ _) => apply served_api
      | |- served (api_call_ _ _) => apply served_api_
      | |- served (gets _) => apply served_gets
      | |- served (mret _) => apply served_ret
      | |- served (when _ _) => apply served_when
      | |- served (with_client _ _) => apply served_with_client
      | |- served (suspendAllTrackingSessions _) => apply served_suspend
      | |- served (resumeAllTrackingSessions _) => apply served_resume
      | |- served (deleteClientbyName _ _) => apply served_delete
      | |- served (modify _) => apply served_modify; intros; by split
      | |- served (_ ≫= _) => apply served_bind
      | |- served (match ?x with _ => _ end) => destruct x
      | |- served_at _ (send_or_purge _ _ _ _) => apply served_send
      | |- served_at _ (when _ _) => apply served_at_when
      end ].

Lemma served_at_onControl a err what : served_at a (onControlResponseCb answer reach a err what).
Proof. unfold onControlResponseCb. apply served_calm; [apply calm_handler|]. served_. Qed.
Lemma served_at_ping a : served_at a (pingTest answer reach a).
Proof. unfold pingTest. apply served_calm; [apply calm_handler|]. served_. Qed.
Lemma served_at_fix a err : served_at a (sendTerrestrialFix reach a err).
Proof.
  intros w Hw Ha. destruct (sendMessage_serves reach a (TerrestrialPosResp err) w Hw Ha) as (rc & w1 & E & H1 & _).
  exists tt, w1. split; [|done]. unfold sendTerrestrialFix. by rewrite (bind_done _ _ _ _ _ E).
Qed.

Lemma served_addConfig id n what : served (addConfigRequestToMap answer reach id n what).
Proof.
  unfold addConfigRequestToMap. destruct (negb _).
  - apply served_modify. intros w. destruct (mConfigReqs w !! id); [done|]. by split.
  - apply served_with_client. intros a. apply served_at_onControl.
Qed.
Lemma served_config n what : served (config answer reach n what).
Proof. unfold config. apply served_bind; [apply served_api|]. intros. apply served_addConfig. Qed.
Lemma served_energy_request n : served (getGnssEnergyConsumed answer gnssInterface n).
Proof.
  unfold getGnssEnergyConsumed. apply served_when, served_bind; [apply served_gets|]. intros hs.
  apply served_bind; [apply served_gets|]. intros l. cbv zeta. apply served_with_client_calm. intros a. calm.
Qed.
Lemma served_onGeofences n what ids : served (service_onGeofences answer n what ids).
Proof. unfold service_onGeofences. apply served_with_client_calm. intros a. calm. Qed.
Lemma served_fix_request n : served (getSingleTerrestrialPos answer reach n).
Proof.
  unfold getSingleTerrestrialPos. apply served_bind; [apply served_gets|]. intros optIn. destruct (negb _).
  - apply served_with_client. intros a. apply served_at_fix.
  - served_.
Qed.

(** Every message of a client but its registration. *)
Lemma served_msg n m : (∀ t, m ≠ Register t) →
  served (processClientMsg answer geofence_answer reach powermanager mPositionMode gnssInterface n m).
Proof.
  intros Hm. destruct m; simpl; try apply served_onGeofences; try (apply served_with_client_calm; intros a; solve [calm]).
  - by destruct (Hm t).
  - apply served_delete.
  - unfold updateNetworkAvailability. served_.
  - apply served_energy_request.
  - apply served_fix_request.
  - unfold service_pingTest. apply served_with_client. intros a. apply served_at_ping.
  - apply served_when, served_config.
  - unfold configAidingDataDeletion. served_. apply served_addConfig.
  - unfold configUserConsentTerrestrialPositioning. served_. apply served_config.
Qed.
End entry_points.

Section callbacks.
Context (answer : list ApiCall → Z) (geofence_answer : list ApiCall → option (list Z)) (reach : list (string * Sent) → bool).
Context (powermanager : bool) (mPositionMode : GnssSuplMode) (gnssInterface : bool).
Notation W := Daemon.

(** A callback for a handler that exists: nothing happens when it has no sender any more. *)
Definition alive_served (a : addr) (m : M W unit) : Prop :=
  ∀ w, WF w → is_Some (handlers w !! a) → ∃ w', m w = Done tt w' ∧ serves w w'.
Lemma callback_served a (f : Handler → M W unit) :
  (∀ h w, mIpcSender h = false → f h w = Done tt w) → (∀ h, mIpcSender h = true → served_at a (f h)) →
  alive_served a (h ← handler a; f h).
Proof.
  intros H0 H1 w Hw [h Hh]. rewrite (bind_done _ _ w h w) by (by apply deref_done). destruct (mIpcSender h) eqn:Hi.
  - destruct (H1 h Hi w Hw) as ([] & w' & E & Hs); [by exists h|]. by exists w'.
  - exists w. split; [by apply H0|by apply serves_refl].
Qed.

Lemma response_served a err id : alive_served a (onResponseCb answer reach a err id).
Proof.
  apply callback_served; [by intros h w ->|]. intros h ->. cbn [when]. cbv zeta.
  apply served_calm; [by apply calm_update|]. intros. apply served_at_when, served_send.
Qed.
Lemma collective_served a l : alive_served a (onCollectiveResponseCallback answer reach a l).
Proof.
  apply callback_served; [by intros h w ->|]. intros h ->. cbn [when]. cbv zeta.
  apply served_calm; [by apply calm_update|]. intros. apply served_at_when.
  apply served_calm; [by apply calm_update|]. intros. apply served_calm; [apply calm_when; by apply calm_update|].
  intros. apply served_at_when, served_send.
Qed.
Lemma capabilities_served a mask : alive_served a (onCapabilitiesCallback answer reach a mask).
Proof.
  apply callback_served; [by intros h w ->|]. intros h ->. apply served_at_when.
  apply served_calm; [by apply calm_update|]. intros. apply served_send.
Qed.

(** No more engine reports than there are engines. *)
Definition fits (i : Indication) : Prop :=
  match i with IndEngineLocations l => (length l ≤ engine_count)%nat | _ => True end.
Lemma report_fits h i m : fits i → report_of h i = Some m → overflows m = false.
Proof.
  destruct i; simpl; try (repeat case_match; by intros _ [= <-]).
  intros Hl. destruct (decide _); [done|]. destruct (has_bit _ _); [|done]. intros [= <-]. apply Nat.ltb_ge.
  etrans; [apply length_filter|done].
Qed.
Lemma indication_served a i : fits i → alive_served a (onIndication answer reach a i).
Proof.
  intros Hf. apply callback_served; [by intros h w ->|]. intros h ->. destruct (report_of h i) as [m|] eqn:E.
  - rewrite (report_fits h i m) by done. apply served_send.
  - apply calm_served_at, calm_ret.
Qed.

Lemma destroyed_served a w h : WF w → handlers w !! a = Some h → mIpcSender h = false →
  ∃ w', onLocationApiDestroyCompleteCb a w = Done tt w' ∧ serves w w'.
Proof.
  intros Hw Hh Hi. eexists. split; [unfold onLocationApiDestroyCompleteCb; by rewrite (bind_done _ _ w h w) by (by apply deref_done)|].
  destruct Hw as [Hr Hs Hg Hf]. split; [split|done|]; simpl.
  - intros n b Hc. destruct (Hr n b Hc) as (hb & Hhb & Hrest). exists hb. split; [|done]. rewrite lookup_delete_ne; [done|].
    intros <-. rewrite Hh in Hhb. injection Hhb as <-. destruct Hrest as (_ & Hib & _). congruence.
  - intros b hb [_ Hb]%lookup_delete_Some. by apply Hs.
  - intros b hb [_ Hb]%lookup_delete_Some. by apply (Hg b).
  - intros b. rewrite lookup_delete_is_Some. intros [_ Hb]. by apply Hf.
  - exists []. rewrite app_nil_r. by split.
Qed.

(** *** When every message arrives *)
Section reachable_clients.
Hypothesis Hreach : ∀ s, reach s = true.

(** Nothing is purged: the clients stay. *)
Definition keeps (m : M W unit) : Prop :=
  ∀ w, WF w → ∃ w', m w = Done tt w' ∧ serves w w' ∧ mClients w' = mClients w.
Definition keeps_at (a : addr) (m : M W unit) : Prop :=
  ∀ w, WF w → registered a w → ∃ w', m w = Done tt w' ∧ serves w w' ∧ mClients w' = mClients w ∧ registered a w'.

Lemma send_arrives a m w : WF w → registered a w →
  ∃ w', sendMessage reach a m w = Done true w' ∧ serves w w' ∧ mClients w' = mClients w ∧ registered a w'.
Proof.
  intros Hw (h & Hh & Hi). exists (set_sent (sent w ++ [(mName h, m)]) w). split_and!.
  - unfold sendMessage. rewrite (bind_done _ _ w h w) by (by apply deref_done). rewrite Hi.
    unfold post. rewrite (bind_done _ _ w tt (set_sent (sent w ++ [(mName h, m)]) w)) by done. unfold gets. by rewrite Hreach.
  - apply post_serves; [done|]. rewrite (wf_sender w Hw a h Hh Hi). by eexists.
  - done.
  - by exists h.
Qed.
Lemma keeps_sending a m : keeps_at a (send_or_purge answer reach a m).
Proof.
  intros w Hw Ha. destruct (send_arrives a m w Hw Ha) as (w' & E & H1). exists w'. split; [|done].
  unfold send_or_purge. by rewrite (bind_done _ _ _ _ _ E).
Qed.
Lemma keeps_calm_end a (m : M W unit) : calm a m → keeps_at a m.
Proof.
  intros Hm w Hw Ha. destruct (Hm w) as ([] & w' & E & H1); [by apply registered_alive|]. exists w'.
  split_and!; [done|by apply mild_serves|by apply H1|by eapply mild_registered].
Qed.
Lemma keeps_when a b m : keeps_at a m → keeps_at a (when b m).
Proof. intros Hm. destruct b; [done|]. apply keeps_calm_end, calm_ret. Qed.
Lemma keeps_then a (m k : M W unit) : keeps_at a m → keeps_at a k → keeps_at a (_ ← m; k).
Proof.
  intros Hm Hk w Hw Ha. destruct (Hm w Hw Ha) as (w1 & E1 & S1 & C1 & A1).
  destruct (Hk w1 (se_wf _ _ S1) A1) as (w2 & E2 & S2 & C2 & A2). exists w2. rewrite (bind_done _ _ _ _ _ E1).
  split_and!; [done|by eapply serves_trans|congruence|done].
Qed.
Lemma keeps_read a (f : Handler → M W unit) : (∀ h, keeps_at a (f h)) → keeps_at a (h ← handler a; f h).
Proof.
  intros Hf w Hw Ha. destruct Ha as (h & Hh & Hi). rewrite (bind_done _ _ w h w) by (by apply deref_done).
  apply Hf; [done|by exists h].
Qed.

Lemma keeps_energy a : keeps_at a (onGnssEnergyConsumedInfoAvailable answer reach a).
Proof.
  apply keeps_read. intros h. apply keeps_when. intros w Hw Ha. destruct (send_arrives a EnergyInd w Hw Ha) as (w1 & E1 & S1 & C1 & A1).
  rewrite (bind_done _ _ _ _ _ E1).
  destruct (keeps_calm_end a _ (calm_update a (λ h, set_engineInfo (Z.ldiff (mEngineInfoRequestMask h) energy_bit) h) (λ _, eq_refl))
    w1 (se_wf _ _ S1) A1) as (w2 & E2 & S2 & C2 & A2).
  exists w2. rewrite (bind_done _ _ _ _ _ E2). split_and!; [done|by eapply serves_trans|congruence|done].
Qed.

Lemma keeps_each {A} (f : A → M W unit) l w :
  WF w → (∀ x w1, x ∈ l → WF w1 → mClients w1 = mClients w → ∃ w', f x w1 = Done tt w' ∧ serves w1 w' ∧ mClients w' = mClients w1) →
  ∃ w', each f l w = Done tt w' ∧ serves w w' ∧ mClients w' = mClients w.
Proof.
  intros Hw. remember (mClients w) as c eqn:Hc. revert w Hw Hc. induction l as [|x l IH]; intros w Hw Hc Hf.
  - exists w. split_and!; [done|by apply serves_refl|done].
  - destruct (Hf x w) as (w1 & E1 & S1 & C1); [left|done|done|].
    destruct (IH w1 (se_wf _ _ S1)) as (w2 & E2 & S2 & C2).
    { congruence. }
    { intros y w' Hy. apply Hf. by right. }
    exists w2. simpl. rewrite (bind_done _ _ _ _ _ E1). split_and!; [done|by eapply serves_trans|congruence].
Qed.

Lemma energy_served : served (onGnssEnergyConsumedCb answer reach).
Proof.
  intros w Hw. unfold onGnssEnergyConsumedCb. rewrite (bind_done _ _ w (map_to_list (mClients w)) w) by done.
  cut (∃ w', each (λ p : string * addr, _ ← onGnssEnergyConsumedInfoAvailable answer reach p.2;
             q ← getClient p.1; match q with Some _ => mret tt | None => ub end) (map_to_list (mClients w)) w = Done tt w' ∧
             serves w w' ∧ mClients w' = mClients w).
  { intros (w' & E & S1 & _). by exists tt, w'. }
  apply keeps_each; [done|]. intros [n a] w1 Hin%elem_of_map_to_list Hw1 Hc. rewrite <- Hc in Hin. simpl.
  assert (Ha : registered a w1). { destruct (wf_reg w1 Hw1 n a Hin) as (h & Hh & _ & Hi & _). by exists h. }
  destruct (keeps_energy a w1 Hw1 Ha) as (w2 & E2 & S2 & C2 & _). exists w2. rewrite (bind_done _ _ _ _ _ E2).
  split_and!; [|done|done]. unfold getClient. rewrite (bind_done _ _ w2 (mClients w2 !! n) w2) by done. by rewrite C2, Hin.
Qed.

Lemma gnssConfig_served id flags : served (onGnssConfigCallback answer reach id flags).
Proof.
  unfold onGnssConfigCallback. apply served_bind; [apply served_gets|]. intros [[n what]|]; [|apply served_ret].
  apply served_bind; [|intros; apply served_modify; intros; by split]. apply served_with_client. intros a w Hw Ha.
  assert (K : keeps_at a (_ ← onControlResponseCb answer reach a LOCATION_ERROR_SUCCESS what; onGnssConfigCb answer reach a what flags)).
  { apply keeps_then; (apply keeps_read; intros h; apply keeps_when, keeps_sending). }
  destruct (K w Hw Ha) as (w' & E & S1 & _). by exists tt, w'.
Qed.
End reachable_clients.

(** A position from the network, when every request is one of a client. *)
Lemma fix_served b w : WF w → (∀ n, n ∈ mTerrestrialFixReqs w → is_Some (mClients w !! n)) →
  ∃ x w', onGtpWwanTrackingCallback answer reach b w = Done x w' ∧ serves w w'.
Proof.
  intros Hw Hn. unfold onGtpWwanTrackingCallback. rewrite (bind_done _ _ w (mTerrestrialFixReqs w) w) by done.
  rewrite (bind_done _ _ w (mOptInTerrestrialService w) w) by done. destruct (_ && _); [|by apply served_ret]. cbn [when].
  destruct (keeps_each (λ name, p ← getClient name;
               match p with Some a => sendTerrestrialFix reach a LOCATION_ERROR_SUCCESS | None => ub end)
               (elements (mTerrestrialFixReqs w)) w Hw) as (w1 & E1 & S1 & C1).
  { intros n w1 Hin%elem_of_elements Hw1 Hc. destruct (Hn n Hin) as [a Ha]. rewrite <- Hc in Ha.
    unfold getClient. rewrite (bind_done _ _ w1 (mClients w1 !! n) w1) by done. rewrite Ha.
    destruct (wf_reg w1 Hw1 n a Ha) as (h & Hh & _ & Hi & _). unfold sendTerrestrialFix, sendMessage.
    exists (set_sent (sent w1 ++ [(mName h, TerrestrialPosResp LOCATION_ERROR_SUCCESS)]) w1). split_and!; [|apply post_serves; [done|]|done].
    - unfold mbind at 1, M_bind. rewrite (bind_done _ _ w1 h w1) by (by apply deref_done). by rewrite Hi.
    - rewrite (wf_sender w1 Hw1 a h Hh Hi). by eexists. }
  rewrite (bind_done _ _ _ _ _ E1). destruct (served_api_ answer StopNetworkLocation (set_fixReqs ∅ w1)) as ([] & w2 & E2 & S2).
  { eapply mild_wf; [|apply S1]. by split. }
  exists tt, w2. split; [done|]. eapply serves_trans; [exact S1|]. eapply serves_trans; [|exact S2].
  apply mild_serves; [apply S1|by split].
Qed.

(** The pings of the maintenance, to clients of the state [w0]. *)
Lemma maintenance_loop l w0 w :
  serves w0 w → Forall (λ p : string * addr, is_Some (mClients w0 !! p.1)) l →
  ∃ w', each (λ p, messageSent ← post reach p.1 PingTestReq; if messageSent : bool then mret tt else deleteClientbyName answer p.1) l w =
        Done tt w' ∧ serves w0 w'.
Proof.
  revert w. induction l as [|p l IH]; intros w Hs Hl; [by exists w|]. apply Forall_cons in Hl as [Hp Hl].
  set (w1 := set_sent (sent w ++ [(p.1, PingTestReq)]) w).
  assert (S1 : serves w0 w1).
  { destruct Hs as [[] Hn (new & E & F)]. split; [by split|done|]. exists (new ++ [(p.1, PingTestReq)]). simpl. rewrite E, <- app_assoc.
    split; [done|]. apply Forall_app. split; [done|]. by repeat constructor. }
  assert (H2 : ∃ w2, (messageSent ← post reach p.1 PingTestReq; if messageSent : bool then mret tt else deleteClientbyName answer p.1) w =
                     Done tt w2 ∧ serves w0 w2).
  { rewrite (bind_done _ _ w (reach (sent w1)) w1) by done. destruct (reach (sent w1)); [by exists w1|].
    destruct (served_delete answer p.1 w1 (se_wf _ _ S1)) as ([] & w2 & E2 & S2). exists w2. split; [done|by eapply serves_trans]. }
  destruct H2 as (w2 & E2 & S2). cbn [each]. rewrite (bind_done _ _ _ _ _ E2). by apply IH.
Qed.
Lemma maintenance_served : served (performMaintenance answer reach).
Proof.
  intros w Hw. unfold performMaintenance. rewrite (bind_done _ _ w (filter (λ p, p.1 ≠ AUTO_START_CLIENT_NAME) (map_to_list (mClients w))) w) by done.
  destruct (maintenance_loop (filter (λ p, p.1 ≠ AUTO_START_CLIENT_NAME) (map_to_list (mClients w))) w w) as (w' & E & S1).
  - by apply serves_refl.
  - apply Forall_forall. intros [n a] [_ Hin%elem_of_map_to_list]%list_elem_of_filter. simpl. by exists a.
  - by exists tt, w'.
Qed.
End callbacks.

(** ** Registration *)
Section registration.
Context (answer : list ApiCall → Z).
Notation W := Daemon.

(** The state with the new handler at [next w]. *)
Definition constructed (n : string) (t : ClientType) (w : W) : W :=
  set_next (Pos.succ (next w)) (set_handlers (<[next w := handler_init n t]> (handlers w)) w).

Lemma fresh_handler w : WF w → handlers w !! next w = None.
Proof. intros [_ _ _ Hf]. destruct (handlers w !! next w) eqn:E; [|done]. pose proof (Hf (next w) (ex_intro _ _ E)). lia. Qed.

Lemma constructed_wf n t w w3 h : WF w → mClients w !! n = None → mild (constructed n t w) w3 →
  mName h = n → mClientType h = t → mIpcSender h = true →
  mLocationApi h = match t with LOCATION_CLIENT_API => true | _ => false end →
  WF (set_clients (<[n := next w]> (mClients w3)) (set_handlers (<[next w := h]> (handlers w3)) w3)).
Proof.
  intros Hw Hn Hm Ehn Eht Ehi Eha. pose proof (fresh_handler w Hw) as Hnew. destruct Hw as [Hr Hs Hg Hf].
  pose proof (mi_clients _ _ Hm) as Ec. pose proof (mi_next _ _ Hm) as En. simpl in Ec, En.
  split; cbn [set_clients set_handlers handlers mClients next].
  - intros n' a'. rewrite Ec, lookup_insert_Some. intros [[<- <-]|[Hne Hc]].
    + exists h. rewrite lookup_insert_eq. by rewrite Eht.
    + destruct (Hr n' a' Hc) as (h' & Hh' & Hrest). assert (Ha : a' ≠ next w) by (intros ->; congruence).
      destruct (mild_fwd (constructed n t w) w3 a' h' Hm) as (h2 & Hh2 & E1 & E2 & E3 & E4).
      { simpl. by rewrite lookup_insert_ne by done. }
      exists h2. rewrite lookup_insert_ne by done. by rewrite E1, E2, E3, E4.
  - intros b hb. rewrite lookup_insert_Some. intros [[<- <-]|[Hne Hb]] Hib.
    + by rewrite Ehn, lookup_insert_eq.
    + destruct (mild_inv _ _ _ _ Hm Hb) as (h' & Hh' & E1 & _ & E3 & _). simpl in Hh'. rewrite lookup_insert_ne in Hh' by done.
      assert (Hc : mClients w !! mName h' = Some b) by (apply Hs; [done|congruence]).
      rewrite Ec, E1, lookup_insert_ne; [done|]. intros E. congruence.
  - intros b hb. rewrite lookup_insert_Some. intros [[<- <-]|[Hne Hb]] Hib; [congruence|].
    destruct (mild_inv _ _ _ _ Hm Hb) as (h' & Hh' & _ & _ & E3 & E4). simpl in Hh'. rewrite lookup_insert_ne in Hh' by done.
    rewrite E4. apply (Hg b); [done|congruence].
  - intros b. rewrite En, lookup_insert_is_Some. intros [<-|[Hne [hb Hb]]]; [lia|].
    destruct (mild_inv _ _ _ _ Hm Hb) as (h' & Hh' & _). simpl in Hh'. rewrite lookup_insert_ne in Hh' by done.
    pose proof (Hf b (ex_intro _ _ Hh')). lia.
Qed.

(** The constructor adds one handler, and keeps the others. *)
Lemma new_handler_spec n t w : ∃ w3 h, mild (constructed n t w) w3 ∧ mName h = n ∧ mClientType h = t ∧
  mIpcSender h = true ∧ mLocationApi h = match t with LOCATION_CLIENT_API => true | _ => false end ∧
  new_handler answer n t w = Done (next w) (set_handlers (<[next w := h]> (handlers w3)) w3).
Proof.
  set (w1 := constructed n t w). unfold new_handler.
  rewrite (bind_done _ _ w (next w) w) by done. rewrite (bind_done _ _ w tt w1) by done. destruct t.
  - assert (Ha : is_Some (handlers w1 !! next w)) by (eexists; apply lookup_insert_eq).
    destruct (calm_updateSubscription answer (next w) (value E_LOC_CB_GNSS_LOCATION_INFO_BIT) w1 Ha) as ([] & wa & Ea & Ma).
    destruct (calm_update (next w) (λ h, set_subscription 0 (mCallbacks h) h) (λ _, eq_refl) wa (mild_alive _ _ _ Ma Ha))
      as ([] & wb & Eb & Mb).
    assert (Mc : mild w1 (set_calls (calls wb ++ [CreateInstance (next w)]) wb)) by (do 2 (etrans; [done|]); by split).
    set (wc := set_calls _ wb) in Mc. destruct (mild_fwd w1 wc (next w) _ Mc (lookup_insert_eq _ _ _)) as (h & Hh & N1 & N2 & N3 & _).
    exists wc, (set_locationApi true h). split_and!; [done..|].
    erewrite bind_done; [reflexivity|]. rewrite (bind_done _ _ _ _ _ Ea), (bind_done _ _ _ _ _ Eb).
    rewrite (bind_done _ _ wb tt wc) by done. unfold upd_handler. by rewrite (bind_done _ _ wc h wc) by (by apply deref_done).
  - exists w1, (handler_init n LOCATION_INTEGRATION_API). split_and!; [done..|].
    rewrite (bind_done _ _ w1 tt w1) by done. unfold w1, constructed. simpl. by rewrite insert_insert_eq.
Qed.

(** A client that registers: a handler and an entry are added, nothing is sent. *)
Lemma register_served n t w : WF w → ∃ w', newClient answer n t w = Done tt w' ∧ WF w' ∧ sent w' = sent w ∧
  is_Some (mClients w' !! n) ∧ ∀ n', is_Some (mClients w !! n') → is_Some (mClients w' !! n').
Proof.
  intros Hw. unfold newClient, getClient. rewrite (bind_done _ _ w (mClients w !! n) w) by done.
  destruct (mClients w !! n) as [a|] eqn:Hn; [exists w; split_and!; by try rewrite Hn|].
  destruct (new_handler_spec n t w) as (w3 & h & Hm & E1 & E2 & E3 & E4 & E). rewrite (bind_done _ _ _ _ _ E). eexists. split; [reflexivity|].
  split_and!; simpl.
  - by eapply constructed_wf.
  - by rewrite (mi_sent _ _ Hm).
  - rewrite lookup_insert_eq. by eexists.
  - intros n'. rewrite (mi_clients _ _ Hm), lookup_insert_is_Some. simpl. destruct (decide (n = n')); auto.
Qed.
End registration.

(** ** The daemon serves *)
Section safety.
Context (answer : list ApiCall → Z) (geofence_answer : list ApiCall → option (list Z)) (reach : list (string * Sent) → bool).
Context (powermanager : bool) (mPositionMode : GnssSuplMode) (gnssInterface : bool).
Notation W := Daemon.
Notation enter := (exec answer geofence_answer reach powermanager mPositionMode gnssInterface).

(** What the location API and the clients keep to: callbacks go to handlers that exist, with no
    more reports than there are engines; a handler's instance is gone once it was destroyed;
    configurations and energies are reported while the clients are reachable; a single position
    is asked for by clients. *)
Definition allowed (w : W) (l : Label) : Prop :=
  match l with
  | LResponse a _ _ | LCollective a _ | LCapabilities a _ => is_Some (handlers w !! a)
  | LIndication a i => is_Some (handlers w !! a) ∧ fits i
  | LDestroyed a => ∃ h, handlers w !! a = Some h ∧ mIpcSender h = false
  | LGnssConfig _ _ | LEnergy => ∀ s, reach s = true
  | LFix _ => ∀ n, n ∈ mTerrestrialFixReqs w → is_Some (mClients w !! n)
  | _ => True
  end.

Lemma served_control l : served (onControlCollectiveResponseCallback answer reach l).
Proof.
  destruct l as [|[err id] [|? ?]]; try apply served_ret. cbn [onControlCollectiveResponseCallback].
  unfold onControlResponseCallback. apply served_bind; [apply served_gets|]. intros [[n what]|]; [|apply served_ret].
  apply served_bind; [|intros; apply served_modify; intros; by split].
  apply served_with_client. intros a. apply served_at_onControl.
Qed.
Lemma served_fixTimeout n : served (gtpFixRequestTimeout answer reach n).
Proof.
  unfold gtpFixRequestTimeout. apply served_bind; [apply served_gets|]. intros reqs. apply served_when.
  apply served_bind; [apply served_with_client; intros a; apply served_at_fix|]. intros _.
  apply served_bind; [apply served_modify; intros; by split|]. intros _.
  apply served_bind; [apply served_gets|]. intros. apply served_when, served_api_.
Qed.
Lemma served_power p : served (onPowerEvent answer gnssInterface p).
Proof.
  unfold onPowerEvent. apply served_bind; [apply served_modify; intros; by split|]. intros _.
  apply served_bind; [destruct p; try apply served_suspend; try apply served_resume; apply served_ret|].
  intros _. apply served_when, served_api_.
Qed.

(** What a step does for the clients. *)
Definition well_served (w w' : W) : Prop :=
  WF w' ∧ ∃ new, sent w' = sent w ++ new ∧ Forall (λ p, is_Some (mClients w !! p.1)) new.
Lemma serves_well w w' : serves w w' → well_served w w'.
Proof. by intros []. Qed.
Lemma served_well (m : M W unit) w : WF w → served m → ∃ w', m w = Done tt w' ∧ well_served w w'.
Proof. intros Hw Hm. destruct (Hm w Hw) as ([] & w' & E & S1). exists w'. split; [done|by apply serves_well]. Qed.
Lemma alive_well a (m : M W unit) w : WF w → is_Some (handlers w !! a) → alive_served a m → ∃ w', m w = Done tt w' ∧ well_served w w'.
Proof. intros Hw Ha Hm. destruct (Hm w Hw Ha) as (w' & E & S1). exists w'. split; [done|by apply serves_well]. Qed.

Lemma exec_served l w : WF w → allowed w l → ∃ w', enter l w = Done tt w' ∧ well_served w w'.
Proof.
  intros Hw Hl. destruct l; cbn [exec allowed] in *.
  - destruct m; try (apply served_well; [done|]; by apply served_msg). cbn [processClientMsg].
    destruct (register_served answer name t w Hw) as (w' & E & Hw' & Es & _). exists w'. split; [done|]. split; [done|].
    exists []. by rewrite Es, app_nil_r.
  - eapply alive_well; [done|done|apply response_served].
  - eapply alive_well; [done|done|apply collective_served].
  - eapply alive_well; [done|done|apply capabilities_served].
  - destruct Hl. eapply alive_well; [done|done|by apply indication_served].
  - destruct Hl as (h & Hh & Hi). destruct (destroyed_served a w h Hw Hh Hi) as (w' & E & S1). exists w'.
    split; [done|by apply serves_well].
  - apply served_well; [done|apply served_control].
  - apply served_well; [done|by apply gnssConfig_served].
  - destruct (fix_served answer reach has_lat_long w Hw Hl) as ([] & w' & E & S1). exists w'. split; [done|by apply serves_well].
  - apply served_well; [done|apply served_fixTimeout].
  - apply served_well; [done|apply served_power].
  - apply served_well; [done|by apply energy_served].
  - apply served_well; [done|apply maintenance_served].
Qed.

(** The states the daemon can come to. *)
Inductive Reached : W → Prop :=
  | reached_init : Reached daemon_init
  | reached_step w l w' : Reached w → allowed w l → enter l w = Done tt w' → Reached w'.
Lemma wf_init : WF daemon_init.
Proof. split; simpl; [intros n a|intros a h|intros a h|intros a [h Hh]; revert Hh]; by rewrite lookup_empty. Qed.
Lemma reached_wf w : Reached w → WF w.
Proof.
  induction 1 as [|w l w' _ Hw Hl E]; [apply wf_init|]. destruct (exec_served l w Hw Hl) as (w2 & E2 & Hw2 & _).
  rewrite E in E2. by injection E2 as <-.
Qed.

(** C14: the daemon serves safely those who keep to its rules: from every state it can come to by
    such entry points, a further one ends, without an access to a handler that is gone, a
    client of the map is one whose handler has its name, its sender and, for a client of the
    location API, an instance of that API, and every message goes to a client registered then.
    The rules ([allowed]): the location API calls back on handlers that exist, with no more
    reports than engines, and says that an instance is destroyed only after its client is gone; a
    configuration and the energy consumed arrive while every client can be reached, and a
    terrestrial position while every client that asked for one is registered. Beyond the last
    two the daemon uses handlers that are deleted or null. *)
Theorem daemon_safe (w : W) (l : Label) (Hw : Reached w) (Hl : allowed w l) : ∃ w',
  enter l w = Done tt w' ∧ Reached w' ∧
  (∀ n a, mClients w' !! n = Some a → ∃ h, handlers w' !! a = Some h ∧ mName h = n ∧ mIpcSender h = true ∧
     mLocationApi h = match mClientType h with LOCATION_CLIENT_API => true | LOCATION_INTEGRATION_API => false end) ∧
  (∀ a h, handlers w' !! a = Some h → mIpcSender h = false → mLocationApi h = false ∧ ∀ n, mClients w' !! n ≠ Some a) ∧
  ∃ new, sent w' = sent w ++ new ∧ Forall (λ p, is_Some (mClients w !! p.1)) new.
Proof.
  destruct (exec_served l w (reached_wf w Hw) Hl) as (w' & E & [Hr Hs Hg Hf] & Hnew). exists w'. split_and!.
  - done.
  - by eapply reached_step.
  - exact Hr.
  - intros a h Hh Hi. split; [by eapply Hg|]. intros n (h' & Hh' & _ & Hi' & _)%Hr. congruence.
  - done.
Qed.
End safety.

(** ** The queue of requests *)

(** Symbolic execution of an entry point, with what is known of the client and its handler. *)
Ltac walk :=
  unfold with_client, getClient, api_call_, api_call, upd_handler, handler;
  repeat (mrun;
    first [ progress (rewrite ?lookup_insert_eq) | match goal with
      | H : _ = Some _ |- _ => progress rewrite H
      | H : _ = true |- _ => progress rewrite H
      | H : _ = false |- _ => progress rewrite H
      | H : ∀ s, (_ s =? 0) = false |- _ => progress rewrite H
      end ]).

Section paired.
Context (answer : list ApiCall → Z) (geofence_answer : list ApiCall → option (list Z)) (reach : list (string * Sent) → bool).
Context (powermanager : bool) (mPositionMode : GnssSuplMode) (gnssInterface : bool).
Notation W := Daemon.

(** The calls for the handler at [a] the location API answers, by the message that asks for them. *)
Definition answered_call (a : addr) (c : ApiCall) : option ELocMsgID :=
  let at_ b x := if decide (b = a) then Some x else None in
  match c with
  | StartTracking b _ => at_ b E_LOCAPI_START_TRACKING_MSG_ID
  | StopTracking b _ => at_ b E_LOCAPI_STOP_TRACKING_MSG_ID
  | UpdateTrackingOptions b _ _ => at_ b E_LOCAPI_UPDATE_TRACKING_OPTIONS_MSG_ID
  | StartBatching b _ => at_ b E_LOCAPI_START_BATCHING_MSG_ID
  | StopBatching b _ => at_ b E_LOCAPI_STOP_BATCHING_MSG_ID
  | UpdateBatchingOptions b _ _ => at_ b E_LOCAPI_UPDATE_BATCHING_OPTIONS_MSG_ID
  | _ => None
  end.

(** The requests of a client that starts what does not run, and changes and stops what does. *)
Definition in_turn (h : Handler) (m : ClientMsg) : Prop :=
  match m with
  | MStartTracking _ => mSessionId h = 0
  | MStopTracking | MUpdateTrackingOptions _ => mSessionId h ≠ 0
  | MStartBatching _ => mBatchingId h = 0
  | MStopBatching | MUpdateBatchingOptions _ => mBatchingId h ≠ 0
  | MUpdateCallbacks _ => True
  | _ => False
  end.

Notation process := (processClientMsg answer geofence_answer reach powermanager mPositionMode gnssInterface).
Notation enter := (exec answer geofence_answer reach powermanager mPositionMode gnssInterface).
Notation enters := (execs answer geofence_answer reach powermanager mPositionMode gnssInterface).

(** The client [n] is registered, its handler is at [a], and its queue of requests is [pend]. *)
Definition talking (n : string) (a : addr) (h : Handler) (w : W) : Prop :=
  mClients w !! n = Some a ∧ handlers w !! a = Some h ∧ mName h = n ∧ mIpcSender h = true ∧ mLocationApi h = true.

Ltac settle := eexists _, _, _; split; [reflexivity|]; split; [split_and!; [done|apply lookup_insert_eq|done..]|];
    split; [rewrite <- ?app_assoc; reflexivity || eassumption|]; split; [|done]; simpl; by rewrite ?decide_True, ?app_nil_r by done.

(** A request in turn enters the queue if, and only if, it makes a call that is answered. *)
Lemma request_enters n a h m w : talking n a h w → in_turn h m → (∀ s, answer s ≠ 0) → ∃ w' h' new,
  process n m w = Done tt w' ∧ talking n a h' w' ∧ calls w' = calls w ++ new ∧
  mPendingMessages h' = mPendingMessages h ++ omap (answered_call a) new ∧ sent w' = sent w.
Proof.
  intros (Hc & Hh & Hname & Hipc & Hapi) Hm Hans.
  assert (Hz : ∀ s, (answer s =? 0) = false) by (intros s; by apply Z.eqb_neq).
  destruct m; try done; simpl in Hm; first [apply Z.eqb_eq in Hm | apply Z.eqb_neq in Hm | idtac]; cbn [processClientMsg].
  - unfold service_startTracking, startTracking. walk. settle.
  - unfold service_stopTracking, unsubscribeLocationSessionCb, updateSubscription, stopTracking. walk. settle.
  - unfold service_updateSubscription, updateSubscription. walk. settle.
  - unfold service_updateTrackingOptions, updateTrackingOptions. walk. settle.
  - unfold service_startBatching, startBatching. walk. settle.
  - unfold service_stopBatching, updateSubscription, stopBatching. walk. settle.
  - unfold service_updateBatchingOptions, updateBatchingOptions. walk. settle.
Qed.

(** An answer is reported for the request at the head of the queue. *)
Lemma answer_leaves n a h k pend err id w : talking n a h w → mPendingMessages h = k :: pend → is_session_msg k = true →
  (∀ s, reach s = true) → ∃ w',
  enter (LResponse a err id) w = Done tt w' ∧ talking n a (set_pending pend h) w' ∧
  calls w' = calls w ∧ sent w' = sent w ++ [(n, GenericResp k err)].
Proof.
  intros (Hc & Hh & <- & Hipc & Hapi) Hp Hk Hr. cbn [exec]. unfold onResponseCb, send_or_purge, sendMessage, post.
  walk. rewrite Hp. change (default _ (head (k :: pend))) with k. rewrite Hk. walk. rewrite Hr. mrun.
  eexists. split; [reflexivity|]. split; [|done]. split_and!; [done|apply lookup_insert_eq|done..].
Qed.

(** The states of the daemon while the client sends requests in turn and the location API answers
    its calls, in their order; what else happens leaves the client's handler as it is and makes no
    call of its own for it that is answered. [pend]: the calls not answered yet. *)
Inductive conversation (n : string) (a : addr) : W → list ELocMsgID → Prop :=
  | conv_begin w h : talking n a h w → mPendingMessages h = [] → conversation n a w []
  | conv_request w h pend m w' new : conversation n a w pend → handlers w !! a = Some h → in_turn h m →
      enter (LMsg n m) w = Done tt w' → calls w' = calls w ++ new →
      conversation n a w' (pend ++ omap (answered_call a) new)
  | conv_answer w k pend err id w' : conversation n a w (k :: pend) → enter (LResponse a err id) w = Done tt w' →
      conversation n a w' pend
  | conv_other w pend l w' new : conversation n a w pend → enter l w = Done tt w' →
      mClients w' !! n = mClients w !! n → handlers w' !! a = handlers w !! a →
      calls w' = calls w ++ new → omap (answered_call a) new = [] → conversation n a w' pend.

Lemma answered_session a new : Forall (λ k, is_session_msg k = true) (omap (answered_call a) new).
Proof.
  apply Forall_forall. intros k (c & _ & Hk)%list_elem_of_omap. revert Hk.
  destruct c; simpl; try done; destruct (decide _); by intros [= <-].
Qed.

Lemma conversation_queue n a w pend : (∀ s, answer s ≠ 0) → (∀ s, reach s = true) → conversation n a w pend →
  ∃ h, talking n a h w ∧ mPendingMessages h = pend ∧ Forall (λ k, is_session_msg k = true) pend.
Proof.
  intros Hans Hr. induction 1 as [w h Ht Hp|w h pend m w' new _ (h0 & Ht & Hp & Hs) Hh Hm E Ec
    |w k pend err id w' _ (h0 & Ht & Hp & Hs) E|w pend l w' new _ (h0 & Ht & Hp & Hs) E Ecl Eh Ec En].
  - exists h. by split_and!.
  - assert (h0 = h) as -> by (destruct Ht as (_ & Hh0 & _); congruence).
    destruct (request_enters n a h m w Ht Hm Hans) as (w2 & h2 & new2 & E2 & Ht2 & Ec2 & Hp2 & _).
    cbn [exec] in E. rewrite E in E2. injection E2 as <-. rewrite Ec in Ec2. apply app_inv_head in Ec2 as <-.
    exists h2. split; [done|]. split; [by rewrite Hp2, Hp|]. apply Forall_app. split; [done|apply answered_session].
  - apply Forall_cons in Hs as [Hk Hs]. destruct (answer_leaves n a h0 k pend err id w Ht Hp Hk Hr) as (w2 & E2 & Ht2 & _).
    rewrite E in E2. injection E2 as <-. eexists. split; [exact Ht2|]. by split.
  - exists h0. destruct Ht as (H1 & H2 & H3). split; [|by split]. split_and!; [congruence|congruence|apply H3..].
Qed.

(** C29: each answer is reported for the request it belongs to: a registered client of the location
    API that starts a session only when it has none, and updates or stops only one that runs, and
    whose calls the location API answers in their order, has in its queue of requests, at any
    time, exactly the calls that are not answered yet; a further request in turn is served, and
    when the answers come, one after the other, each is sent to the client as the answer to the
    request that made the call, with its error, and the queue is empty. The location API gives no
    session the number 0, the client can be reached, and meanwhile nothing else changes the
    client's handler or makes an answered call for it (a change of the power state does). *)
Theorem responses_paired (n : string) (a : addr) (w : W) (pend : list ELocMsgID)
  (Hans : ∀ s, answer s ≠ 0) (Hreach : ∀ s, reach s = true) (Hw : conversation n a w pend) :
  (∃ h, talking n a h w ∧ mPendingMessages h = pend ∧
        ∀ m, in_turn h m → ∃ w' new, enter (LMsg n m) w = Done tt w' ∧ calls w' = calls w ++ new ∧
               conversation n a w' (pend ++ omap (answered_call a) new)) ∧
  ∀ answers : list (LocationError * Z), length answers = length pend → ∃ w',
    enters ((λ e, LResponse a e.1 e.2) <$> answers) w = Done tt w' ∧ calls w' = calls w ∧
    sent w' = sent w ++ zip_with (λ k e, (n, GenericResp k e.1)) pend answers ∧ conversation n a w' [].
Proof.
  split.
  - destruct (conversation_queue n a w pend Hans Hreach Hw) as (h & Ht & Hp & _). exists h. split; [done|]. split; [done|].
    intros m Hm. destruct (request_enters n a h m w Ht Hm Hans) as (w' & h' & new & E & _ & Ec & _).
    exists w', new. split; [done|]. split; [done|]. eapply conv_request; [done|apply Ht|done..].
  - revert w Hw. induction pend as [|k pend IH]; intros w Hw [|e answers] Hl; try done.
    + exists w. simpl. by rewrite app_nil_r.
    + destruct (conversation_queue n a w _ Hans Hreach Hw) as (h & Ht & Hp & [Hk _]%Forall_cons).
      destruct (answer_leaves n a h k pend e.1 e.2 w Ht Hp Hk Hreach) as (w1 & E1 & _ & Ec1 & Es1).
      destruct (IH w1 (conv_answer n a w k pend e.1 e.2 w1 Hw E1) answers) as (w2 & E2 & Ec2 & Es2 & Hw2); [by injection Hl|].
      exists w2. split_and!; [|congruence|by rewrite Es2, Es1, <- app_assoc|done].
      cbn [fmap list_fmap execs]. by rewrite (bind_done _ _ _ _ _ E1).
Qed.
End paired.

(** ** Examples *)
Module Ex.
Definition answer (l : list ApiCall) : Z := 1 + Z.of_nat (length l).
Definition geofence_answer (l : list ApiCall) : option (list Z) := Some [7; 8].
Definition arrives (l : list (string * Sent)) : bool := true.
Definition lost (l : list (string * Sent)) : bool := false.
Definition enter (reach : list (string * Sent) → bool) (l : list Label) : M Daemon unit :=
  execs answer geofence_answer reach true GNSS_SUPL_MODE_STANDALONE true l.
Definition state (o : outcome Daemon unit) : Daemon := match o with Done _ w => w | _ => daemon_init end.
Definition options (msec : Z) : LocationOptions := LocApiTrack.mkLocationOptions 20 msec 0 GNSS_SUPL_MODE_STANDALONE 0.
Definition register (n : string) : Label := LMsg n (Register LOCATION_CLIENT_API).
Definition registered_one : Daemon := Eval vm_compute in state (enter arrives [register "a"] daemon_init).
(** The pending messages and the calls of a state, by the client. *)
Definition pending (w : Daemon) (a : addr) : list ELocMsgID := default [] (mPendingMessages <$> handlers w !! a).
Definition kinds (w : Daemon) (a : addr) : list ELocMsgID := omap (answered_call a) (calls w).

Lemma daemon_safe_witness : is_Some (mClients registered_one !! "a") ∧
  ∃ w', exec answer geofence_answer arrives true GNSS_SUPL_MODE_STANDALONE true (LIndication 1 IndSv) registered_one = Done tt w'.
Proof.
  split; [by eexists|].
  destruct (daemon_safe answer geofence_answer arrives true GNSS_SUPL_MODE_STANDALONE true registered_one (LIndication 1 IndSv))
    as (w' & E & _).
  - eapply (reached_step _ _ _ _ _ _ daemon_init (register "a")); [apply reached_init|done|vm_compute; reflexivity].
  - split; [by eexists|done].
  - by exists w'.
Defined.

Definition daemon_step (l : Label) (w : Daemon) : Daemon :=
  state (exec answer geofence_answer arrives true GNSS_SUPL_MODE_STANDALONE true l w).
Definition started : Daemon := Eval vm_compute in daemon_step (LMsg "a" (MStartTracking (options 1000))) registered_one.
Definition stopped : Daemon := Eval vm_compute in daemon_step (LMsg "a" MStopTracking) started.

Notation conversing := (conversation answer geofence_answer arrives true GNSS_SUPL_MODE_STANDALONE true "a" 1%positive).
Lemma stopped_conversing : conversing stopped [E_LOCAPI_START_TRACKING_MSG_ID; E_LOCAPI_STOP_TRACKING_MSG_ID].
Proof.
  assert (H0 : conversing registered_one []).
  { destruct (handlers registered_one !! 1%positive) as [h|] eqn:Hh; [|vm_compute in Hh; discriminate].
    vm_compute in Hh. injection Hh as <-. eapply conv_begin; [repeat split|]; by vm_compute. }
  destruct (handlers registered_one !! 1%positive) as [h0|] eqn:Hh0; [|vm_compute in Hh0; discriminate].
  destruct (handlers started !! 1%positive) as [h1|] eqn:Hh1; [|vm_compute in Hh1; discriminate].
  assert (H1 : conversing started ([] ++ omap (answered_call 1) (drop (length (calls registered_one)) (calls started)))).
  { eapply (conv_request _ _ _ _ _ _ _ _ registered_one h0 [] (MStartTracking (options 1000))); [exact H0|done| |by vm_compute|by vm_compute].
    vm_compute in Hh0. injection Hh0 as <-. by vm_compute. }
  assert (H2 : conversing stopped (([] ++ omap (answered_call 1) (drop (length (calls registered_one)) (calls started)))
                ++ omap (answered_call 1) (drop (length (calls started)) (calls stopped)))).
  { eapply (conv_request _ _ _ _ _ _ _ _ started h1 _ MStopTracking); [exact H1|done| |by vm_compute|by vm_compute].
    vm_compute in Hh1. injection Hh1 as <-. by vm_compute. }
  exact H2.
Qed.
Lemma responses_paired_witness : ∃ w',
  enter arrives [LResponse 1 LOCATION_ERROR_SUCCESS 7; LResponse 1 LOCATION_ERROR_GENERAL_FAILURE 7] stopped = Done tt w' ∧
  sent w' = [("a", GenericResp E_LOCAPI_START_TRACKING_MSG_ID LOCATION_ERROR_SUCCESS);
             ("a", GenericResp E_LOCAPI_STOP_TRACKING_MSG_ID LOCATION_ERROR_GENERAL_FAILURE)].
Proof.
  destruct (responses_paired answer geofence_answer arrives true GNSS_SUPL_MODE_STANDALONE true "a" 1%positive stopped
    [E_LOCAPI_START_TRACKING_MSG_ID; E_LOCAPI_STOP_TRACKING_MSG_ID]) as [_ Ha].
  - intros s. unfold answer. lia.
  - done.
  - exact stopped_conversing.
  - destruct (Ha [(LOCATION_ERROR_SUCCESS, 7); (LOCATION_ERROR_GENERAL_FAILURE, 7)] eq_refl) as (w' & E & _ & Es & _).
    exists w'. split; [exact E|]. rewrite Es. reflexivity.
Defined.

(** What the service does that it does not mean to: a START while a session runs adds to the
    queue without a call, so that the answer to the STOP that follows is reported as the START's;
    after an update of the options, a session is resumed with the interval as it was asked for and
    not as it was given to the location API; the position that was asked for by a client that is
    not registered is sent through a null pointer; a timeout stops the network's positions while
    one request remains, and not with the last; a session whose client has gone is purged in the
    loop that iterates over the clients, and a configuration is delivered through the handler that
    the failure of the response before it has deleted. *)
Theorem daemon_flaws :
  (let w := state (enter arrives [register "a"; LMsg "a" (MStartTracking (options 1000));
     LMsg "a" (MStartTracking (options 500)); LMsg "a" MStopTracking; LResponse 1 LOCATION_ERROR_SUCCESS 1;
     LResponse 1 LOCATION_ERROR_SUCCESS 1] daemon_init) in
   kinds w 1 = [E_LOCAPI_START_TRACKING_MSG_ID; E_LOCAPI_STOP_TRACKING_MSG_ID] ∧
   sent w = [("a", GenericResp E_LOCAPI_START_TRACKING_MSG_ID LOCATION_ERROR_SUCCESS);
             ("a", GenericResp E_LOCAPI_START_TRACKING_MSG_ID LOCATION_ERROR_SUCCESS)]) ∧
  (let w := state (enter arrives [register "a"; LMsg "a" (MStartTracking (options 1000));
     LMsg "a" (MUpdateTrackingOptions (options 150)); LPower POWER_STATE_SUSPEND; LPower POWER_STATE_RESUME] daemon_init) in
   omap (λ c, match c with StartTracking _ o | UpdateTrackingOptions _ _ o => Some (LocApiTrack.minInterval (LocApiTrack.lo o)) | _ => None end)
     (calls w) = [1000; 100; 150]) ∧
  enter arrives [LMsg "a" (MConfigUserConsent true); LMsg "a" MGetSingleTerrestrialPos; LFix true] daemon_init = UB ∧
  (let asked := [register "a"; register "b"; LMsg "a" (MConfigUserConsent true); LMsg "a" MGetSingleTerrestrialPos;
     LMsg "b" MGetSingleTerrestrialPos; LFixTimeout "a"] in
   let w := state (enter arrives asked daemon_init) in
   last (calls w) = Some StopNetworkLocation ∧ mTerrestrialFixReqs w = {["b"]} ∧
   let w' := state (enter arrives (asked ++ [LFixTimeout "b"]) daemon_init) in
   calls w' = calls w ∧ mTerrestrialFixReqs w' = ∅) ∧
  enter lost [register "a"; LMsg "a" MGetGnssEnergyConsumed; LEnergy] daemon_init = UB ∧
  enter lost [LMsg "c" (Register LOCATION_INTEGRATION_API); LMsg "c" (MConfig E_INTAPI_GET_MIN_GPS_WEEK_REQ_MSG_ID);
    LGnssConfig 2 0] daemon_init = UB.
Proof. cbv zeta. split_and!; vm_compute; reflexivity. Qed.
End Ex.
